(* ===== verification/_CoqProject ===== *)
-Q . S2P
Prelude.v
Modbus.v
PlcLadder.v
SafetyPlc.v
MemoryHeap.v
Scheduler.v
SchedulerSpec.v
WaitList.v
Semaphore.v
Mutex.v
Crc32.v
AbUpdate.v
EventGroups.v
Queue.v
SoftwareTimer.v
TraceDiag.v
RwLock.v
DeltaUpdate.v
SignedImage.v
OtaClient.v
OtaServer.v
ByteMem.v
Hash256.v
SecureStorage.v
SecureBoot.v
EdgeOta.v
KeyMgmt.v
TrustZone.v
Aes128.v
EdgeCrypto.v
PsaCertified.v
DeviceAttest.v
Registers.v
CortexM.v
NvicDma.v
MemoryMap.v
McuPeripheral.v
GpioUart.v
