(* ===== verification/Prelude.v ===== *)
(** * mini-iot-robot-edge: verification library

    The repository is a collection of small C libraries for embedded devices, one per directory
    [mini-*].  They do not call one another; inside a directory the parts do.  This development models, as pure
    functions, the parts that hold state and decide something: the real-time kernel, the industrial controllers, the
    firmware update, secure storage and secure boot, the microcontroller's registers.

    Files and the code they model
    - Prelude: machine integers ([u8] .. [u64], [+32] ..), lists of bytes, the state-and-failure monad [M], common tactics.
    - Modbus: mini-industrial-control/src/modbus_proto.c.  Frames are byte lists; building, parsing, CRC-16, the slave's tables.
    - PlcLadder: mini-industrial-control/src/plc_ladder.c.  A PLC record, the ladder rungs, timers, counters, the scan cycle.
    - SafetyPlc: mini-industrial-control/src/safety_plc.c.  Dual channels, two-hand control, interlocks, safe outputs.
    - MemoryHeap: mini-rtos/src/memory_heap.c.  Block headers by address in a [gmap], payload bytes in another.
    - Scheduler: mini-rtos/src/task_scheduler.c, operation by operation: task control blocks by address, doubly-linked ready rings, the
      critical-section counter, tick and context switch.  Allocation goes through MemoryHeap.
    - SchedulerSpec: the specification of the scheduler (ready queues as lists), the invariant and the refinement.
    - WaitList: the singly-linked lists of blocked tasks that semaphores, mutexes, events, queues and locks share
      ([block_task], [unblock_task], the timeout removal); the world [sync] of kernel, objects by address and file statics.
    - Semaphore, Mutex: the two halves of mini-rtos/src/semaphore_mutex.c.
    - EventGroups: mini-rtos/src/event_groups.c.  Queue: mini-rtos/src/ipc_queue.c, its ring buffers in the modelled heap.
    - RwLock: mini-rtos/src/rwlock.c, two wait lists and their hand-over.
    - SoftwareTimer: mini-rtos/src/software_timer.c.  The list of timers and the list of commands, the daemon's rounds; the application's
      callbacks are a parameter whose promise is the class [Callbacks], the system between two rounds is the class [Resumes].
    - TraceDiag: mini-rtos/src/trace_diag.c.  The ring of trace events, the processor's load, task profiles, the rate-monotonic test.
    - Crc32: the CRC-32 that the files of mini-ota-update each define for themselves.
    - DeltaUpdate: mini-ota-update/src/delta_update.c.  malloc and free as a set of live blocks, the codec, create and apply as the code's
      loops; the callbacks of the new and old image are the class [DeltaIo], with an instance over memory.
    - SignedImage: mini-ota-update/src/signed_image.c.  The packed image header, validation, the counter-mode cipher, key table and rollback counter;
      a pointer argument is the list of bytes from it to the end of its object; the device's counter is the class [HardwareCounter].
    - OtaClient: mini-ota-update/src/ota_client.c.  Client contexts by address; the code behind the callbacks is the record [hal], what it promises the
      classes [Server] (faults in bursts), [Planned] (bursts that follow a schedule) and [Polite].  The transfer loop takes fuel; its theorem says how much is enough.
    - OtaServer: mini-ota-update/src/ota_server.c.  Releases, rollout plans and groups in order of creation.
    - ByteMem: what the sources of mini-edge-security share: C arrays of bytes, the bytes a loop or [memcpy] reads, windows.
    - Hash256: the hash that the sources of mini-edge-security each define for themselves, with what they differ in as parameters.
    - SecureStorage: mini-edge-security/src/secure_storage.c.  The flash partition with its regions, the keyed cipher, the file system, tamper check,
      counters, the secure element; the static checksum table is part of the state.
    - SecureBoot: mini-edge-security/src/secure_boot_mcu.c.  The boot context, the file's own hash, image, stage and debug checks, measurements.
    - EdgeOta: mini-edge-security/src/edge_ota.c.  The update context with its two banks, the state machine from check to commit, rollback, the delta patcher.
    - KeyMgmt: mini-edge-security/src/edge_key_mgmt.c.  Key slots in their order, signatures, certificates, revocation list, wrapping.
    - TrustZone: mini-edge-security/src/trustzone_arm.c.  The two worlds, attribution units, firmware and life cycle states, the one store of everything.
    - Aes128, EdgeCrypto: mini-edge-security/src/edge_crypto.c.  The block cipher and FIPS 197; hash, HMAC, HKDF, counter mode, GCM, signatures, key agreement, exponentiation.
    - PsaCertified: mini-edge-security/src/psa_certified.c.  Context and security model, key slots, signatures and cipher, tokens, the update check.
    - DeviceAttest: mini-edge-security/src/device_attest.c.  Identity, attestation tokens, challenges, measurements, derived keys.
    - Registers: what the sources of mini-mcu-embedded share: volatile accesses through the class [Bus], bit fields, registers that keep what is stored ([Plain]).
    - CortexM: mini-mcu-embedded/src/cortex_m_core.c.  Interrupt controller ([Nvic]), system timer, control block ([Aircr]), protection unit ([Mpu]).
    - NvicDma: mini-mcu-embedded/src/nvic_dma.c.  Handlers on top of CortexM, DMA streams and their status ([DmaStatus]).
    - MemoryMap: mini-mcu-embedded/src/memory_map.c.  Regions and sections of the map, bit-band accesses ([BitBand]).
    - McuPeripheral: mini-mcu-embedded/src/mcu_peripheral.c.  Timers, PWM and encoder as registers; clocks, CRC, clock table and the rest as static variables.
    - GpioUart: mini-mcu-embedded/src/gpio_uart.c.  Pins ([GpioPort]), UART ([UartLine]: one data register, an overrun flag, a sender with a pace), SPI, I2C ([I2cBus]).
    - AbUpdate: mini-ota-update/src/ab_update.c.  The partition header and its bytes, the two slots; the device operations are a record of functions
      ([ab_update_hal_t]) and the class [Flash] states what a working flash driver promises, with an instance over a byte array.

    Conventions
    - A function of the source is a definition of the same name.  Pointers are [Z], NULL is 0; structures live in finite maps
      by address.  A dereference of an address without a structure, a write outside every allocation and other
      undefined behaviour is the result [UB] of the monad; [NoFuel] is the result of a loop whose fuel
      ends.  Theorems state [Done], which excludes both.
    - A loop over a linked structure takes as fuel the size of the map of its nodes plus one ([ring_fuel]): an acyclic
      walk visits a node once; emptying a wait list takes the size plus two ([drain_fuel]).  A loop that waits for time takes explicit fuel, and its theorem says how much is
      enough (the number of ticks of the timeout).
    - A blocking call sleeps one tick at a time by [task_delay]; what the rest of the system does meanwhile is the
      parameter [pend], with hypotheses on what it keeps; the witnesses run it with a concrete function.

    What the theorems show
    - The heap: an invariant of tiled blocks without two free neighbours is kept by every operation; allocation
      returns fresh aligned blocks, freeing gives them back, reallocation keeps contents.
    - The scheduler refines queues of ready tasks; tick, delay and context switch behave as specified; and, as
      properties that hold of the code, what it does not guarantee: a lost sleeper, starvation in round robin.
    - Blocking objects: counts stay in bounds, a timed wait whose task is resumed every tick ends after the stated number of ticks, events wake exactly the
      tasks whose condition holds, a queue is a bounded first-in first-out list, readers and writers of a lock exclude one another; and where hand-over is lost or
      a woken reader is counted twice.
    - Software timers: what each call leaves in the two lists, a pass of the daemon against a list specification, timers called back on
      time and at no other time; the trace ring is the tail of a log, profiles are sums over runs, the rate-monotonic test is right up to rounding; what a wrapping tick, a command on a deleted timer and the chain do.
    - Industrial control: safety outputs are never forced on, interlocks latch, two-hand control needs both hands at once,
      ladder scans evaluate every rung in order, timers and counters follow their standard diagrams, Modbus
      frames round-trip, parsers stay in bounds, single-bit errors are detected.
    - Firmware update: load after save gives back the header and rejects damaged bytes, the update and
      rollback cycle, writes stay inside the standby slot, chunked verification equals a hash of the whole image.
    - Delta update: applying the patch that was created from two images gives the new image; damaged patches are rejected before
      anything is written past the end; the codec's limits; the double free of a failing creation.
    - Client and server: a download survives faults within its retries and no others, flags are set in order, the update window is a stretch of the
      day; rollouts complete; and what stale flags, silent servers and wrapping percentages do.
    - Signed images: header and bytes determine one another, a damaged header is rejected, the block cipher loop equals its counter-mode formula,
      the hardware counter is the running maximum of the accepted versions; and that the full check accepts nothing while the signature plays no part.
    - Secure storage: no undefined behaviour in any sequence of calls within stated bounds, the file system refines a list of contents, writes are read back, what the
      tamper check notices; and where files leave the partition, a region does not survive its cipher, key bytes can be searched one by one.
    - Secure boot: what the image check decides, what no call changes, how debugging is unlocked; and the forged image, the stages that can be
      skipped, the bytes the hash does not see.
    - Edge update: what an update installs and from which job, the invariant of all calls, the delta patcher against its specification; and what
      commit and rollback leave behind.
    - Key management: all calls stay inside the arrays and a revoked slot stays empty, wrapped keys come back; and what signatures, rotations and
      unwrapping are worth.
    - TrustZone: no call leaves the secure world, stored values come back, what isolation protects; and the shared store, the seed that plays no part,
      the region that is counted beyond its array.
    - Cryptography: the block cipher is AES, counter mode and GCM give texts back; and the key stream that repeats, the tag that is not GCM's, what the MAC does not cover, what
      signatures, shared secrets and powers are worth.
    - PSA certification: what a token contains, what verification looks at; and MACs cut short, labels that derive one key, updates signed without a secret.
    - Device attestation: which answers to a challenge are accepted, what a register of measurements holds, when a nonce is fresh; and the device key that
      every token and every response shows, the labels that play no part.
    - Microcontroller: the calls on the interrupt controller, the output port and the bit-band aliases refine what stands behind their registers; set-up calls give every field
      its value and leave the others; lines and transmissions are taken and sent whole, and waiting ends; the CRC of words is that of their bytes and finds errors; and the
      fields that lie elsewhere in the hardware: caching bits, flags of half of the DMA streams, modes of PWM, SPI and I2C.

    Not modelled: printing and reporting functions; floating point (edge-ai, tinyml, robotics, sensor-actuator,
    hardware-interface, the engineering values of SCADA and OPC UA, the converter's temperature); what does not parse or type-check ([uart_init],
    [dma_start_transfer]); the glue of mini-embedded-linux. *)
From stdpp Require Export base tactics numbers strings list gmap fin_maps.
From Stdlib Require Export ZArith Lia.

#[global] Open Scope Z_scope.

(** ** Machine integers

    A C unsigned integer of width w is a [Z] in [0, 2^w); the conversions below
    are the wrap-around that C performs when a result is stored at that width. *)

Definition u8 (x : Z) : Z := x mod 256.
Definition u16 (x : Z) : Z := x mod 65536.
Definition u32 (x : Z) : Z := x mod 4294967296.
Definition u64 (x : Z) : Z := x mod 18446744073709551616.

Definition UINT32_MAX : Z := 4294967295.

Declare Scope cint_scope.
Delimit Scope cint_scope with cint.
Notation "a +32 b" := (u32 (a + b)) (at level 50, left associativity) : cint_scope.
Notation "a -32 b" := (u32 (a - b)) (at level 50, left associativity) : cint_scope.
Notation "a *32 b" := (u32 (a * b)) (at level 40, left associativity) : cint_scope.
#[global] Open Scope cint_scope.

(** C booleans and the integers that conditions return. *)
Definition b2z (b : bool) : Z := if b then 1 else 0.
Definition truthy (x : Z) : bool := negb (x =? 0).

Create HintDb cint.

Lemma u8_range x : 0 <= u8 x < 256.
Proof. apply Z.mod_pos_bound; lia. Qed.
Lemma u16_range x : 0 <= u16 x < 65536.
Proof. apply Z.mod_pos_bound; lia. Qed.
Lemma u32_range x : 0 <= u32 x < 4294967296.
Proof. apply Z.mod_pos_bound; lia. Qed.
Lemma u64_range x : 0 <= u64 x < 18446744073709551616.
Proof. apply Z.mod_pos_bound; lia. Qed.

Lemma u8_small x : 0 <= x < 256 -> u8 x = x.
Proof. apply Z.mod_small. Qed.
Lemma u16_small x : 0 <= x < 65536 -> u16 x = x.
Proof. apply Z.mod_small. Qed.
Lemma u32_small x : 0 <= x < 4294967296 -> u32 x = x.
Proof. apply Z.mod_small. Qed.
Lemma u64_small x : 0 <= x < 18446744073709551616 -> u64 x = x.
Proof. apply Z.mod_small. Qed.

#[export] Hint Resolve u8_range u16_range u32_range u64_range : cint.
#[export] Hint Rewrite u8_small u16_small u32_small u64_small using lia : cint.

(** [c_lia] closes arithmetic goals about wrapped integers: it adds the ranges of
    the wraps in sight, removes those that do not wrap and calls [lia]. *)
Ltac pose_range t :=
  let H := fresh "Hrng" in pose proof t as H.
Ltac wrap_ranges :=
  repeat match goal with
  | |- context [u8 ?x] => lazymatch goal with _ : 0 <= u8 x < 256 |- _ => fail | _ => pose_range (u8_range x) end
  | |- context [u16 ?x] => lazymatch goal with _ : 0 <= u16 x < 65536 |- _ => fail | _ => pose_range (u16_range x) end
  | |- context [u32 ?x] => lazymatch goal with _ : 0 <= u32 x < 4294967296 |- _ => fail | _ => pose_range (u32_range x) end
  | H : context [u8 ?x] |- _ => lazymatch goal with _ : 0 <= u8 x < 256 |- _ => fail | _ => pose_range (u8_range x) end
  | H : context [u16 ?x] |- _ => lazymatch goal with _ : 0 <= u16 x < 65536 |- _ => fail | _ => pose_range (u16_range x) end
  | H : context [u32 ?x] |- _ => lazymatch goal with _ : 0 <= u32 x < 4294967296 |- _ => fail | _ => pose_range (u32_range x) end
  end.
Ltac c_lia := solve [lia | wrap_ranges; lia | autorewrite with cint in *; wrap_ranges; lia].

(** Case analysis on the integer and boolean tests of translated conditions. *)
Ltac case_test :=
  match goal with
  | |- context [?a =? ?b] => destruct (Z.eqb_spec a b)
  | |- context [?a <? ?b] => destruct (Z.ltb_spec a b)
  | |- context [?a <=? ?b] => destruct (Z.leb_spec a b)
  | |- context [if ?c then _ else _] => let E := fresh "E" in destruct c eqn:E
  end.
Ltac case_tests := repeat (case_test; simplify_eq/=; try lia).

(** ** Outcomes and the state monad of stateful code

    [Done]: the call returns; [UB]: it performs an access that C leaves
    undefined (a null, dangling or out-of-bounds dereference, a division by
    zero); [NoFuel]: the fuel of a loop or of a busy wait is used up, so a
    theorem that a call returns states [Done]. *)
Inductive outcome (A : Type) : Type :=
| Done (a : A)
| UB
| NoFuel.
Arguments Done {A} a.
Arguments UB {A}.
Arguments NoFuel {A}.

Definition M (S A : Type) : Type := S -> outcome (A * S).

#[export] Instance M_ret S : MRet (M S) := fun A a s => Done (a, s).
#[export] Instance M_bind S : MBind (M S) := fun A B f m s =>
  match m s with
  | Done (a, s') => f a s'
  | UB => UB
  | NoFuel => NoFuel
  end.

Section ops.
Context {S : Type}.
Definition undefined {A} : M S A := fun _ => UB.
Definition nofuel {A} : M S A := fun _ => NoFuel.
Definition gets {A} (f : S -> A) : M S A := fun s => Done (f s, s).
Definition modify (f : S -> S) : M S unit := fun s => Done (tt, f s).
Definition of_option {A} (o : option A) : M S A :=
  match o with Some a => mret a | None => undefined end.
Definition when (b : bool) (m : M S unit) : M S unit := if b then m else mret tt.
End ops.

(** Running a computation on a component [p] of a larger state. *)
Definition zoom {S T A} (p : T -> S) (set : S -> T -> T) (m : M S A) : M T A := fun t =>
  match m (p t) with
  | Done (a, s) => Done (a, set s t)
  | UB => UB
  | NoFuel => NoFuel
  end.

Lemma bind_Done {S A B} (m : M S A) (f : A -> M S B) s b s2 :
  (m ≫= f) s = Done (b, s2) <-> exists a s1, m s = Done (a, s1) /\ f a s1 = Done (b, s2).
Proof.
  unfold mbind, M_bind. split.
  - destruct (m s) as [[a s1]| |]; naive_solver.
  - intros (a & s1 & -> & H). exact H.
Qed.

Lemma bind_step {S A B} (m : M S A) (f : A -> M S B) s a s1 : m s = Done (a, s1) -> (m ≫= f) s = f a s1.
Proof. unfold mbind, M_bind. by intros ->. Qed.

(** Two continuations that agree on what the first part returns. *)
Lemma bind_agree {S A B} (m : M S A) (f g : A -> M S B) s :
  (forall a s1, m s = Done (a, s1) -> f a s1 = g a s1) -> (m ≫= f) s = (m ≫= g) s.
Proof. unfold mbind, M_bind. destruct (m s) as [[a s1]| |]; [|done|done]. intros H. by apply H. Qed.

Lemma bind_modify {S B} (g : S -> S) (f : unit -> M S B) s : (modify g ≫= f) s = f tt (g s).
Proof. done. Qed.

Lemma bind_gets {S A B} (g : S -> A) (f : A -> M S B) s : (gets g ≫= f) s = f (g s) s.
Proof. done. Qed.

Lemma bind_ret {S A B} (a : A) (f : A -> M S B) s : (mret a ≫= f) s = f a s.
Proof. done. Qed.

Lemma bind_assoc {S A B C} (m : M S A) (f : A -> M S B) (g : B -> M S C) s :
  ((m ≫= f) ≫= g) s = (m ≫= fun a => f a ≫= g) s.
Proof. unfold mbind, M_bind. by destruct (m s) as [[a s']| |]. Qed.

(** [keeps P m]: whenever [m] returns from a state with [P], the state it leaves has [P]. *)
Definition keeps {S A} (P : S -> Prop) (m : M S A) : Prop := forall s a s', P s -> m s = Done (a, s') -> P s'.

Create HintDb keeps.

Section keeps.
Context {S : Type} (P : S -> Prop).
Lemma keeps_ret {A} (a : A) : keeps P (mret a).
Proof. intros s b s' H [= <- <-]. exact H. Qed.
Lemma keeps_bind {A B} (m : M S A) (f : A -> M S B) : keeps P m -> (forall a, keeps P (f a)) -> keeps P (m ≫= f).
Proof. intros Hm Hf s b s' H E. apply bind_Done in E as (a & s1 & E1 & E2). eapply Hf; [|exact E2]. by eapply Hm. Qed.
Lemma keeps_gets {A} (f : S -> A) : keeps P (gets f).
Proof. intros s b s' H [= <- <-]. exact H. Qed.
Lemma keeps_modify (f : S -> S) : (forall s, P s -> P (f s)) -> keeps P (modify f).
Proof. intros Hf s b s' H [= <- <-]. by apply Hf. Qed.
Lemma keeps_when b (m : M S unit) : keeps P m -> keeps P (when b m).
Proof. destruct b; [done|]. intros _. apply keeps_ret. Qed.
Lemma keeps_if {A} (b : bool) (m1 m2 : M S A) : keeps P m1 -> keeps P m2 -> keeps P (if b then m1 else m2).
Proof. by destruct b. Qed.
Lemma keeps_undefined {A} : keeps P (@undefined S A).
Proof. by intros s a s' _ [=]. Qed.
Lemma keeps_nofuel {A} : keeps P (@nofuel S A).
Proof. by intros s a s' _ [=]. Qed.
End keeps.
#[export] Hint Resolve keeps_ret keeps_gets keeps_undefined keeps_nofuel : keeps.

(** Syntax-directed proofs of [keeps]; the hints give the primitive operations. *)
Ltac keeps_auto :=
  repeat first
    [ solve [eauto with keeps]
    | apply keeps_when
    | apply keeps_if
    | apply keeps_bind; [|intros ?]
    | match goal with |- keeps _ (match ?x with _ => _ end) => destruct x end ].

(** [run_step] evaluates a monadic program as far as its tests are decided. *)
Ltac run_step :=
  progress cbn [mbind mret M_bind M_ret undefined nofuel gets modify of_option when zoom] in *.

(** ** C strings kept in fixed-size arrays

    [strncpy(dst, src, n - 1); dst[n - 1] = 0] on a zeroed [char dst[n]]; a
    source string is the list of its bytes before the terminator. *)
Definition cstr_copy (n : nat) (src : list Z) : list Z :=
  let s := take (n - 1) src in s ++ replicate (n - length s) 0.

Lemma cstr_copy_length n src : (0 < n)%nat -> length (cstr_copy n src) = n.
Proof.
  intros. unfold cstr_copy. rewrite length_app, length_replicate, length_take. lia.
Qed.

(** What is read of a byte array as a string: the bytes before the first zero. *)
Fixpoint c_string (bs : list Z) : list Z := match bs with [] => [] | x :: bs => if x =? 0 then [] else x :: c_string bs end.

(** [strncpy(dst, src, n)] with [n] bytes of room in [dst]; a source string is the list of its bytes before the terminator. *)
Definition strncpy (n : nat) (src dst : list Z) : list Z := take n (src ++ replicate n 0) ++ drop n dst.
(** The first bytes of a buffer overwritten. *)
Definition overlay (bs buf : list Z) : list Z := bs ++ drop (length bs) buf.

Lemma c_string_pad l n : Forall (fun x => x <> 0) l -> c_string (l ++ replicate n 0) = l.
Proof.
  intros H. induction H as [|x l Hx H IH]; [by destruct n|]. cbn [app c_string]. rewrite (proj2 (Z.eqb_neq x 0) Hx). by f_equal.
Qed.

(** ** Lists *)

Lemma list_lookup_total_insert_eq `{Inhabited A} (l : list A) i x :
  (i < length l)%nat -> <[i:=x]> l !!! i = x.
Proof. intros. rewrite list_lookup_total_alt, list_lookup_insert_eq by lia. done. Qed.

Lemma foldl_inv {A B} (P : A -> Prop) (f : A -> B -> A) l a :
  P a -> (forall a b, P a -> P (f a b)) -> P (foldl f a l).
Proof. revert a; induction l; simpl; auto. Qed.

(** ** Bits *)

Lemma pow2_bound_bits n x :
  0 <= n -> 0 <= x -> (forall i, n <= i -> Z.testbit x i = false) -> x < 2 ^ n.
Proof.
  intros Hn Hx Hb. assert (x mod 2 ^ n = x) as <-.
  { apply Z.bits_inj'; intros i Hi. destruct (Z.lt_ge_cases i n).
    - by rewrite Z.mod_pow2_bits_low.
    - rewrite Z.mod_pow2_bits_high by lia. by rewrite Hb. }
  apply Z.mod_pos_bound, Z.pow_pos_nonneg; lia.
Qed.

Lemma testbit_high n x i : 0 <= x < 2 ^ n -> n <= i -> Z.testbit x i = false.
Proof.
  intros Hx Hi. destruct (Z.lt_ge_cases n 0) as [|Hn].
  { rewrite (Z.pow_neg_r 2 n) in Hx by lia. lia. }
  rewrite <- (Z.mod_small x (2 ^ n)) by lia. by apply Z.mod_pow2_bits_high.
Qed.

Lemma lxor_bound n a b : 0 <= n -> 0 <= a < 2 ^ n -> 0 <= b < 2 ^ n -> 0 <= Z.lxor a b < 2 ^ n.
Proof.
  intros Hn Ha Hb. assert (0 <= Z.lxor a b) by (apply Z.lxor_nonneg; lia).
  split; [done|]. apply pow2_bound_bits; [done..|]. intros i Hi.
  by rewrite Z.lxor_spec, (testbit_high n a), (testbit_high n b).
Qed.

Lemma lor_bound n a b : 0 <= n -> 0 <= a < 2 ^ n -> 0 <= b < 2 ^ n -> 0 <= Z.lor a b < 2 ^ n.
Proof.
  intros Hn Ha Hb. assert (0 <= Z.lor a b) by (apply Z.lor_nonneg; lia).
  split; [done|]. apply pow2_bound_bits; [done..|]. intros i Hi.
  by rewrite Z.lor_spec, (testbit_high n a), (testbit_high n b).
Qed.

Lemma land_mask_bound n a : 0 <= n -> 0 <= Z.land a (Z.ones n) < 2 ^ n.
Proof. intros. rewrite Z.land_ones by done. apply Z.mod_pos_bound, Z.pow_pos_nonneg; lia. Qed.

Lemma land_bit m i : 0 <= i -> truthy (Z.land m (Z.shiftl 1 i)) = Z.testbit m i.
Proof.
  intros Hi. rewrite Z.shiftl_1_l. unfold truthy. destruct (Z.testbit m i) eqn:E.
  - apply negb_true_iff, Z.eqb_neq. intros H. apply (f_equal (fun z => Z.testbit z i)) in H.
    rewrite Z.land_spec, E, Z.pow2_bits_true, Z.bits_0 in H by lia. done.
  - apply negb_false_iff, Z.eqb_eq, Z.bits_inj'. intros k Hk. rewrite Z.land_spec, Z.bits_0, Z.pow2_bits_eqb by lia.
    destruct (Z.eqb_spec i k) as [->|]; [by rewrite E|by rewrite andb_false_r].
Qed.

Lemma lor_shiftl_add h l n : 0 <= n -> 0 <= l < 2 ^ n -> Z.lor (Z.shiftl h n) l = h * 2 ^ n + l.
Proof.
  intros Hn Hl. rewrite <- Z.shiftl_mul_pow2 by done.
  assert (Z.land (Z.shiftl h n) l = 0) as Hd.
  { apply Z.bits_inj'; intros i Hi. rewrite Z.land_spec, Z.bits_0.
    destruct (Z.lt_ge_cases i n).
    - by rewrite Z.shiftl_spec_low.
    - by rewrite (testbit_high n l), andb_false_r. }
  by rewrite <- Z.lxor_lor, <- Z.add_nocarry_lxor.
Qed.

(** A 16-bit value sent as its high and low bytes and put together again. *)
Lemma bytes16_join x :
  0 <= x < 65536 ->
  u16 (Z.lor (Z.shiftl (u8 (Z.shiftr x 8)) 8) (u8 (Z.land x 0xFF))) = x.
Proof.
  intros Hx. change 0xFF with (Z.ones 8).
  rewrite Z.land_ones, Z.shiftr_div_pow2 by lia.
  rewrite lor_shiftl_add by (lia || apply u8_range).
  unfold u8, u16. change (2 ^ 8) with 256. Z.div_mod_to_equations. lia.
Qed.

Ltac divmod_lia := Z.div_mod_to_equations; lia.

(** Finite ranges checked by evaluation. *)
Lemma forallb_seqZ (P : Z -> bool) m n :
  forallb P (seqZ m n) = true -> forall x, m <= x < m + n -> P x = true.
Proof.
  intros H x Hx. rewrite List.forallb_forall in H. apply H, list_elem_of_In, elem_of_seqZ, Hx.
Qed.

(** ** Arrays with a count of live entries

    [for (i = 0; i < n; i++) a[i] = f(a[i])]: the first [n] cells are updated. *)
Definition update_live {A} (n : nat) (f : A -> A) (a : list A) : list A :=
  (f <$> take n a) ++ drop n a.

(** [for (k = i; k < i + cnt; k++) a[k] = a[k + 1]]: the removal loop. *)
Fixpoint shift_loop {A} (cnt k : nat) (a : list A) : list A :=
  match cnt with
  | O => a
  | S c => shift_loop c (S k) (match a !! S k with Some x => <[k := x]> a | None => a end)
  end.

Lemma length_update_live {A} n f (a : list A) : length (update_live n f a) = length a.
Proof. unfold update_live. by rewrite length_app, length_fmap, <- length_app, take_drop. Qed.

Lemma take_update_live {A} n f (a : list A) :
  (n <= length a)%nat -> take n (update_live n f a) = f <$> take n a.
Proof.
  intros. unfold update_live. rewrite take_app_le; [apply take_ge|];
    rewrite length_fmap, length_take; lia.
Qed.

Lemma drop_update_live {A} n f (a : list A) :
  (n <= length a)%nat -> drop n (update_live n f a) = drop n a.
Proof.
  intros. unfold update_live. rewrite drop_app_length'; [done|].
  rewrite length_fmap, length_take. lia.
Qed.

Lemma lookup_update_live {A} n f (a : list A) i :
  update_live n f a !! i = (if (i <? n)%nat then f <$> a !! i else a !! i).
Proof.
  unfold update_live. destruct (Nat.ltb_spec i n) as [Hi|Hi].
  - destruct (decide (i < length a)%nat) as [Hl|Hl].
    + rewrite lookup_app_l by (rewrite length_fmap, length_take; lia).
      by rewrite list_lookup_fmap, lookup_take_lt.
    + rewrite (lookup_ge_None_2 a i) by lia.
      apply lookup_ge_None_2. rewrite length_app, length_fmap, length_take, length_drop. lia.
  - destruct (decide (n <= length a)%nat).
    + rewrite lookup_app_r by (rewrite length_fmap, length_take; lia).
      rewrite lookup_drop. f_equal. rewrite length_fmap, length_take. lia.
    + rewrite !lookup_ge_None_2; [done|lia|].
      rewrite length_app, length_fmap, length_take, length_drop. lia.
Qed.

Lemma shift_loop_lookup {A} cnt k (a : list A) j :
  (k + cnt < length a)%nat ->
  shift_loop cnt k a !! j = (if decide (k <= j < k + cnt)%nat then a !! S j else a !! j).
Proof.
  revert k a. induction cnt as [|c IH]; intros k a Hl; cbn [shift_loop].
  - rewrite decide_False by lia. done.
  - destruct (lookup_lt_is_Some_2 a (S k)) as [x Hx]; [lia|]. rewrite Hx.
    rewrite IH by (rewrite length_insert; lia).
    destruct (decide (S k <= j < S k + c)%nat).
    + rewrite decide_True by lia. rewrite list_lookup_insert_ne by lia. done.
    + destruct (decide (j = k)) as [->|].
      * rewrite decide_True by lia. by rewrite list_lookup_insert_eq by lia.
      * rewrite decide_False by lia. by rewrite list_lookup_insert_ne by lia.
Qed.

Lemma length_shift_loop {A} cnt k (a : list A) : length (shift_loop cnt k a) = length a.
Proof.
  revert k a. induction cnt as [|c IH]; intros k a; cbn [shift_loop]; [done|].
  rewrite IH. destruct (a !! S k); [apply length_insert|done].
Qed.

(** Removing entry [i] of [n] live ones. *)
Lemma shift_loop_delete {A} (a : list A) i n :
  (i < n)%nat -> (n <= length a)%nat ->
  take (n - 1) (shift_loop (n - 1 - i) i a) = delete i (take n a) /\
  drop n (shift_loop (n - 1 - i) i a) = drop n a.
Proof.
  intros Hi Hn. split; apply list_eq; intros j.
  - destruct (decide (j < n - 1)%nat) as [Hj|Hj].
    + rewrite lookup_take_lt, shift_loop_lookup by lia.
      destruct (decide (i <= j)%nat).
      * rewrite decide_True by lia. by rewrite list_lookup_delete_ge, lookup_take_lt by lia.
      * rewrite decide_False by lia. by rewrite list_lookup_delete_lt, lookup_take_lt by lia.
    + rewrite (lookup_ge_None_2 (take _ _)) by (rewrite length_take; lia).
      symmetry. apply lookup_ge_None_2.
      rewrite length_delete by (apply lookup_lt_is_Some_2; rewrite length_take; lia).
      rewrite length_take. lia.
  - rewrite !lookup_drop, shift_loop_lookup by lia. by rewrite decide_False by lia.
Qed.

Lemma list_delete_oob {A} (l : list A) i : (length l <= i)%nat -> delete i l = l.
Proof.
  revert i; induction l as [|x l IH]; intros [|i] Hi; simpl in *; try done; try lia.
  f_equal. apply IH. lia.
Qed.

(** ** Little-endian integers and packed structures

    The bytes of an integer as they lie in memory, and the fields of a packed structure
    as consecutive slices of given lengths. *)
Fixpoint le_bytes (n : nat) (x : Z) : list Z :=
  match n with O => [] | S n => u8 x :: le_bytes n (Z.shiftr x 8) end.
Fixpoint le_val (bs : list Z) : Z :=
  match bs with [] => 0 | b :: bs => b + 256 * le_val bs end.
Fixpoint split_fields (lens : list nat) (bs : list Z) : list (list Z) :=
  match lens with [] => [] | n :: lens => take n bs :: split_fields lens (drop n bs) end.

Definition is_u8 (b : Z) : Prop := 0 <= b < 256.
#[export] Instance is_u8_dec b : Decision (is_u8 b).
Proof. unfold is_u8. apply _. Defined.
Definition is_u32 (x : Z) : Prop := 0 <= x < 4294967296.
Definition bytes_of_length (n : nat) (l : list Z) : Prop := length l = n /\ Forall is_u8 l.

Lemma length_le_bytes n x : length (le_bytes n x) = n.
Proof. revert x. induction n as [|n IH]; intros x; cbn; [done|]. by rewrite IH. Qed.

Lemma le_bytes_u8 n x : Forall is_u8 (le_bytes n x).
Proof. revert x. induction n as [|n IH]; intros x; cbn; constructor; [apply u8_range|apply IH]. Qed.

Lemma le_val_bytes n x : 0 <= x < 256 ^ Z.of_nat n -> le_val (le_bytes n x) = x.
Proof.
  revert x. induction n as [|n IH]; intros x Hx; cbn [le_bytes le_val].
  - change (256 ^ Z.of_nat 0) with 1 in Hx. lia.
  - rewrite Nat2Z.inj_succ, Z.pow_succ_r in Hx by lia. rewrite Z.shiftr_div_pow2 by lia. change (2 ^ 8) with 256.
    rewrite IH.
    + unfold u8. Z.div_mod_to_equations. lia.
    + split; [apply Z.div_pos; lia|]. apply Z.div_lt_upper_bound; lia.
Qed.

Lemma length_concat_sum {A} (ls : list (list A)) : length (concat ls) = sum_list (length <$> ls).
Proof. induction ls as [|l ls IH]; cbn; [done|]. by rewrite length_app, IH. Qed.

Lemma le_bytes_val bs : Forall is_u8 bs -> le_bytes (length bs) (le_val bs) = bs.
Proof.
  induction 1 as [|b bs Hb Hbs IH]; cbn; [done|]. unfold is_u8 in Hb. f_equal.
  - unfold u8. rewrite Z.mul_comm, Z.mod_add by lia. by apply Z.mod_small.
  - rewrite Z.shiftr_div_pow2 by lia. change (2 ^ 8) with 256.
    rewrite Z.mul_comm, Z.div_add, Z.div_small, Z.add_0_l by lia. done.
Qed.

Lemma le_val_bound bs : Forall is_u8 bs -> 0 <= le_val bs < 256 ^ Z.of_nat (length bs).
Proof.
  induction 1 as [|b bs Hb _ IH]; [done|]. cbn [le_val length]. rewrite Nat2Z.inj_succ, Z.pow_succ_r by lia. unfold is_u8 in Hb. lia.
Qed.

(** The bytes of an integer, most significant first. *)
Definition be_bytes (n : nat) (x : Z) : list Z := reverse (le_bytes n x).
Definition be_val (bs : list Z) : Z := le_val (reverse bs).

Lemma length_be_bytes n x : length (be_bytes n x) = n.
Proof. unfold be_bytes. by rewrite length_reverse, length_le_bytes. Qed.
Lemma be_bytes_S n x : be_bytes (S n) x = be_bytes n (Z.shiftr x 8) ++ [u8 x].
Proof. unfold be_bytes. cbn [le_bytes]. by rewrite reverse_cons. Qed.
Lemma be_bytes_u8 n x : Forall is_u8 (be_bytes n x).
Proof. apply Forall_reverse, le_bytes_u8. Qed.

Lemma be_bytes_val bs : Forall is_u8 bs -> be_bytes (length bs) (be_val bs) = bs.
Proof.
  intros H. unfold be_bytes, be_val. rewrite <- (length_reverse bs), le_bytes_val by by apply Forall_reverse.
  apply reverse_involutive.
Qed.

Lemma be_val_bound bs : Forall is_u8 bs -> 0 <= be_val bs < 256 ^ Z.of_nat (length bs).
Proof. intros H. unfold be_val. rewrite <- (length_reverse bs). by apply le_val_bound, Forall_reverse. Qed.
Lemma be_val_snoc bs x : be_val (bs ++ [x]) = 256 * be_val bs + x.
Proof. unfold be_val. rewrite reverse_app. cbn. lia. Qed.
Lemma be_val_bytes n x : 0 <= x < 256 ^ Z.of_nat n -> be_val (be_bytes n x) = x.
Proof. intros H. unfold be_val, be_bytes. rewrite reverse_involutive. by apply le_val_bytes. Qed.

Lemma split_fields_concat fs : split_fields (length <$> fs) (concat fs) = fs.
Proof. induction fs as [|f fs IH]; cbn; [done|]. by rewrite take_app_length, drop_app_length, IH. Qed.
