(* ===== verification/Modbus.v ===== *)
(** * Modbus protocol engine (mini-industrial-control/src/modbus_proto.c)

    The data model with its 1-based addressing, the CRC-16 routine, the RTU and
    TCP request builders, the response parsers and the MBAP header.  A
    (pointer, length) pair of the C interface is a list whose length is the
    length argument; a NULL pointer is [None]; an out-parameter is returned. *)
From S2P Require Import Prelude.

Definition MODBUS_MAX_PDU_SIZE : Z := 253.
Definition MODBUS_MAX_COILS : Z := 2000.
Definition MODBUS_MAX_REGISTERS : Z := 125.
Definition MODBUS_RTU_BAUD_DEFAULT : Z := 19200.

Inductive modbus_mode_t := MODBUS_RTU | MODBUS_ASCII | MODBUS_TCP.

Record modbus_mbap_header_t := Mbap {
  transaction_id : Z; protocol_id : Z; mbap_length : Z; unit_id : Z }.

Record modbus_request_t := Request {
  slave_address : Z; function_code : Z; start_address : Z; quantity : Z }.

Record modbus_response_t := Response {
  r_slave_address : Z; r_function_code : Z; r_byte_count : Z; r_data : list Z }.

Record modbus_exception_response_t := ExcResponse {
  e_slave_address : Z; e_function_code : Z; e_exception_code : Z }.

Record modbus_data_model_t := DataModel {
  coils : list bool;
  discrete_inputs : list Z;
  holding_registers : list Z;
  input_registers : list Z;
  slave_id : Z }.

Record modbus_device_t := Device {
  mode : modbus_mode_t;
  d_slave_address : Z;
  data_model : modbus_data_model_t;
  coils_count : Z;
  discrete_inputs_count : Z;
  holding_registers_count : Z;
  input_registers_count : Z;
  baud_rate : Z;
  parity : Z;
  stop_bits : Z;
  connected : bool }.

(** ** Data model *)

(** [modbus_init_data_model]: memset of the whole structure. *)
Definition modbus_init_data_model : modbus_data_model_t :=
  DataModel (replicate 2000 false) (replicate 2000 0) (replicate 125 0) (replicate 125 0) 0.

Definition modbus_init_device (m : modbus_mode_t) (id : Z) : modbus_device_t :=
  let dm := modbus_init_data_model in
  {| mode := m; d_slave_address := id;
     data_model := DataModel (coils dm) (discrete_inputs dm) (holding_registers dm)
                             (input_registers dm) id;
     coils_count := MODBUS_MAX_COILS;
     discrete_inputs_count := MODBUS_MAX_COILS;
     holding_registers_count := MODBUS_MAX_REGISTERS;
     input_registers_count := MODBUS_MAX_REGISTERS;
     baud_rate := MODBUS_RTU_BAUD_DEFAULT; parity := 2; stop_bits := 1;
     connected := false |}.

(** [(size_t)(address - 1)]: 1-based addresses; 0 wraps to SIZE_MAX. *)
Definition modbus_coil_address_to_offset (address : Z) : Z := u64 (address - 1).
Definition modbus_register_address_to_offset (address : Z) : Z := u64 (address - 1).

Definition modbus_validate_address (address max_count : Z) : bool :=
  (1 <=? address) && (address <=? max_count).

(** The common shape of the four read functions: NULL checks, the offset, the
    range check, then the array access.  The result is the return value and
    the contents of [*value] afterwards. *)
Definition read_cell {A B} (cells : modbus_data_model_t -> list A) (conv : A -> B)
    (max_count : Z) (model : option modbus_data_model_t) (address : Z) (value : option B)
    : outcome (bool * option B) :=
  match model, value with
  | Some m, Some _ =>
      let offset := modbus_coil_address_to_offset address in
      if negb (modbus_validate_address address max_count) then Done (false, value)
      else match cells m !! Z.to_nat offset with
           | Some x => Done (true, Some (conv x))
           | None => UB
           end
  | _, _ => Done (false, value)
  end.

Definition modbus_read_coil := read_cell coils (fun b : bool => b) MODBUS_MAX_COILS.
Definition modbus_read_discrete_input :=
  read_cell discrete_inputs (fun x => truthy x) MODBUS_MAX_COILS.
Definition modbus_read_holding_register :=
  read_cell holding_registers (fun x : Z => x) MODBUS_MAX_REGISTERS.
Definition modbus_read_input_register :=
  read_cell input_registers (fun x : Z => x) MODBUS_MAX_REGISTERS.

Definition set_coils (m : modbus_data_model_t) (cs : list bool) : modbus_data_model_t :=
  DataModel cs (discrete_inputs m) (holding_registers m) (input_registers m) (slave_id m).
Definition set_holding (m : modbus_data_model_t) (rs : list Z) : modbus_data_model_t :=
  DataModel (coils m) (discrete_inputs m) rs (input_registers m) (slave_id m).

(** Array store [a[offset] = v]; outside the array it is undefined. *)
Definition store {A} (a : list A) (offset : Z) (v : A) : outcome (list A) :=
  if (0 <=? offset) && (offset <? Z.of_nat (length a))
  then Done (<[Z.to_nat offset := v]> a) else UB.

Definition modbus_write_single_coil (model : option modbus_data_model_t) (address : Z)
    (value : bool) : outcome (bool * option modbus_data_model_t) :=
  match model with
  | None => Done (false, None)
  | Some m =>
      let offset := modbus_coil_address_to_offset address in
      if negb (modbus_validate_address address MODBUS_MAX_COILS) then Done (false, model)
      else match store (coils m) offset value with
           | Done cs => Done (true, Some (set_coils m cs))
           | _ => UB
           end
  end.

Definition modbus_write_single_register (model : option modbus_data_model_t) (address : Z)
    (value : Z) : outcome (bool * option modbus_data_model_t) :=
  match model with
  | None => Done (false, None)
  | Some m =>
      let offset := modbus_register_address_to_offset address in
      if negb (modbus_validate_address address MODBUS_MAX_REGISTERS) then Done (false, model)
      else match store (holding_registers m) offset value with
           | Done rs => Done (true, Some (set_holding m rs))
           | _ => UB
           end
  end.

(** The loop of the two multiple-write functions: [quantity] iterations from
    index [i], [values[i]] read and cell [start_address + i] (a [uint16_t]
    argument) written. *)
Fixpoint write_loop {A} (n : nat) (i : Z) (start_addr : Z) (values : list A) (a : list A)
    : outcome (list A) :=
  match n with
  | O => Done a
  | S n' =>
      match values !! Z.to_nat i with
      | None => UB
      | Some v =>
          match store a (modbus_coil_address_to_offset (u16 (start_addr + i))) v with
          | Done a' => write_loop n' (i + 1) start_addr values a'
          | _ => UB
          end
      end
  end.

Definition modbus_write_multiple_coils (model : option modbus_data_model_t)
    (start_addr qty : Z) (values : option (list bool))
    : outcome (bool * option modbus_data_model_t) :=
  match model, values with
  | Some m, Some vs =>
      if qty =? 0 then Done (false, model)
      else if MODBUS_MAX_COILS <? start_addr + qty then Done (false, model)
      else match write_loop (Z.to_nat qty) 0 start_addr vs (coils m) with
           | Done cs => Done (true, Some (set_coils m cs))
           | _ => UB
           end
  | _, _ => Done (false, model)
  end.

Definition modbus_write_multiple_registers (model : option modbus_data_model_t)
    (start_addr qty : Z) (values : option (list Z))
    : outcome (bool * option modbus_data_model_t) :=
  match model, values with
  | Some m, Some vs =>
      if qty =? 0 then Done (false, model)
      else if MODBUS_MAX_REGISTERS <? start_addr + qty then Done (false, model)
      else match write_loop (Z.to_nat qty) 0 start_addr vs (holding_registers m) with
           | Done rs => Done (true, Some (set_holding m rs))
           | _ => UB
           end
  | _, _ => Done (false, model)
  end.

(** ** CRC *)

Definition crc_table : list Z := [
  0x0000; 0xC0C1; 0xC181; 0x0140; 0xC301; 0x03C0; 0x0280; 0xC241;
  0xC601; 0x06C0; 0x0780; 0xC741; 0x0500; 0xC5C1; 0xC481; 0x0440;
  0xCC01; 0x0CC0; 0x0D80; 0xCD41; 0x0F00; 0xCFC1; 0xCE81; 0x0E40;
  0x0A00; 0xCAC1; 0xCB81; 0x0B40; 0xC901; 0x09C0; 0x0880; 0xC841;
  0xD801; 0x18C0; 0x1980; 0xD941; 0x1B00; 0xDBC1; 0xDA81; 0x1A40;
  0x1E00; 0xDEC1; 0xDF81; 0x1F40; 0xDD01; 0x1DC0; 0x1C80; 0xDC41;
  0x1400; 0xD4C1; 0xD581; 0x1540; 0xD701; 0x17C0; 0x1680; 0xD641;
  0xD201; 0x12C0; 0x1380; 0xD341; 0x1100; 0xD1C1; 0xD081; 0x1040].

(** One iteration of the loop body on the byte [d]. *)
Definition crc_byte (crc d : Z) : Z :=
  let index := u8 (Z.land (Z.lxor crc d) 0x0F) in
  let crc := u16 (Z.lxor (Z.shiftr crc 4) (crc_table !!! Z.to_nat index)) in
  let index := u8 (Z.land (Z.lxor crc (Z.shiftr d 4)) 0x0F) in
  u16 (Z.lxor (Z.shiftr crc 4) (crc_table !!! Z.to_nat index)).

Definition modbus_crc16 (data : list Z) : Z := foldl crc_byte 0xFFFF data.

Definition modbus_verify_crc (data : list Z) : bool :=
  let length := length data in
  if (length <? 2)%nat then false
  else
    let computed := modbus_crc16 (take (length - 2) data) in
    let received := Z.lor (u16 (Z.shiftl (data !!! (length - 1)%nat) 8)) (data !!! (length - 2)%nat) in
    computed =? received.

(** ** Frames *)

(** [buffer[k] = bs[0]; buffer[k+1] = bs[1]; ...] inside the buffer. *)
Definition write_bytes (buffer : list Z) (k : nat) (bs : list Z) : list Z :=
  list_inserts k bs buffer.

Definition modbus_build_request_rtu (buffer : option (list Z)) (req : option modbus_request_t)
    : Z * option (list Z) :=
  match buffer, req with
  | Some b, Some r =>
      if (length b <? 8)%nat then (-1, buffer)
      else
        let b := write_bytes b 0
          [slave_address r; function_code r;
           u8 (Z.shiftr (start_address r) 8); u8 (Z.land (start_address r) 0xFF);
           u8 (Z.shiftr (quantity r) 8); u8 (Z.land (quantity r) 0xFF)] in
        let crc := modbus_crc16 (take 6 b) in
        let b := write_bytes b 6 [u8 (Z.land crc 0xFF); u8 (Z.shiftr crc 8)] in
        (8, Some b)
  | _, _ => (-1, buffer)
  end.

Definition modbus_build_mbap_header (buffer : option (list Z)) (tid len uid : Z)
    : Z * option (list Z) :=
  match buffer with
  | None => (-1, None)
  | Some b =>
      (7, Some (write_bytes b 0
        [u8 (Z.shiftr tid 8); u8 (Z.land tid 0xFF); 0; 0;
         u8 (Z.shiftr len 8); u8 (Z.land len 0xFF); uid]))
  end.

Definition modbus_parse_mbap_header (buffer : option (list Z)) (header : option modbus_mbap_header_t)
    : Z * option modbus_mbap_header_t :=
  match buffer, header with
  | Some b, Some _ =>
      if (length b <? 7)%nat then (-1, header)
      else
        (7, Some {| transaction_id := u16 (Z.lor (Z.shiftl (b !!! 0%nat) 8) (b !!! 1%nat));
                    protocol_id := u16 (Z.lor (Z.shiftl (b !!! 2%nat) 8) (b !!! 3%nat));
                    mbap_length := u16 (Z.lor (Z.shiftl (b !!! 4%nat) 8) (b !!! 5%nat));
                    unit_id := b !!! 6%nat |})
  | _, _ => (-1, header)
  end.

Definition modbus_build_request_tcp (buffer : option (list Z)) (tid : Z)
    (req : option modbus_request_t) : Z * option (list Z) :=
  match buffer, req with
  | Some b, Some r =>
      if (length b <? 12)%nat then (-1, buffer)
      else
        match modbus_build_mbap_header (Some b) tid 6 (slave_address r) with
        | (header_len, Some b) =>
            if header_len <? 0 then (-1, Some b)
            else (header_len + 5,
                  Some (write_bytes b (Z.to_nat header_len)
                    [function_code r;
                     u8 (Z.shiftr (start_address r) 8); u8 (Z.land (start_address r) 0xFF);
                     u8 (Z.shiftr (quantity r) 8); u8 (Z.land (quantity r) 0xFF)]))
        | (_, None) => (-1, None)
        end
  | _, _ => (-1, buffer)
  end.

Definition modbus_is_exception (resp : modbus_response_t) : bool :=
  truthy (Z.land (r_function_code resp) 0x80).

(** [memcpy(resp->data, src, n)]: undefined when [n] exceeds the 253-byte
    destination or the bytes left in the source. *)
Definition memcpy_data (resp : modbus_response_t) (src : list Z) (n : Z)
    : outcome modbus_response_t :=
  if (n <=? MODBUS_MAX_PDU_SIZE) && (n <=? Z.of_nat (length src))
  then Done (Response (r_slave_address resp) (r_function_code resp) (r_byte_count resp)
               (take (Z.to_nat n) src ++ drop (Z.to_nat n) (r_data resp)))
  else UB.

Definition modbus_parse_response_rtu (buffer : option (list Z)) (resp : option modbus_response_t)
    : outcome (Z * option modbus_response_t) :=
  match buffer, resp with
  | Some b, Some r =>
      let length := Z.of_nat (length b) in
      if length <? 4 then Done (-1, resp)
      else
        let r := Response (b !!! 0%nat) (b !!! 1%nat) (r_byte_count r) (r_data r) in
        if modbus_is_exception r then Done (3, Some r)
        else
          let r := Response (r_slave_address r) (r_function_code r) (b !!! 2%nat) (r_data r) in
          if length <? 3 + r_byte_count r + 2 then Done (-1, Some r)
          else match memcpy_data r (drop 3 b) (r_byte_count r) with
               | Done r =>
                   if negb (modbus_verify_crc b) then Done (-2, Some r)
                   else Done (3 + r_byte_count r + 2, Some r)
               | _ => UB
               end
  | _, _ => Done (-1, resp)
  end.

Definition modbus_parse_response_tcp (buffer : option (list Z)) (resp : option modbus_response_t)
    : outcome (Z * option modbus_response_t) :=
  match buffer, resp with
  | Some b, Some r =>
      if Z.of_nat (length b) <? 9 then Done (-1, resp)
      else
        match modbus_parse_mbap_header (Some b) (Some (Mbap 0 0 0 0)) with
        | (header_len, Some header) =>
            if header_len <? 0 then Done (-1, resp)
            else
              let h := Z.to_nat header_len in
              let r := Response (unit_id header) (b !!! h) (r_byte_count r) (r_data r) in
              if modbus_is_exception r then Done (header_len + 2, Some r)
              else
                let r := Response (r_slave_address r) (r_function_code r)
                                  (b !!! (h + 1)%nat) (r_data r) in
                match memcpy_data r (drop (h + 2) b) (r_byte_count r) with
                | Done r => Done (header_len + 2 + r_byte_count r, Some r)
                | _ => UB
                end
        | _ => Done (-1, resp)
        end
  | _, _ => Done (-1, resp)
  end.

Definition modbus_parse_exception (buffer : option (list Z))
    (exc : option modbus_exception_response_t) : Z * option modbus_exception_response_t :=
  match buffer, exc with
  | Some b, Some _ =>
      if (length b <? 3)%nat then (-1, exc)
      else (3, Some (ExcResponse (b !!! 0%nat) (b !!! 1%nat) (b !!! 2%nat)))
  | _, _ => (-1, exc)
  end.

Definition modbus_exception_string (code : Z) : string :=
  if code =? 0x00 then "No exception"
  else if code =? 0x01 then "Illegal function"
  else if code =? 0x02 then "Illegal data address"
  else if code =? 0x03 then "Illegal data value"
  else if code =? 0x04 then "Slave device failure"
  else if code =? 0x05 then "Acknowledge"
  else if code =? 0x06 then "Slave device busy"
  else if code =? 0x08 then "Memory parity error"
  else if code =? 0x0A then "Gateway path unavailable"
  else if code =? 0x0B then "Gateway target failed"
  else "Unknown exception".

Definition modbus_function_code_string (code : Z) : string :=
  if code =? 0x01 then "Read Coils"
  else if code =? 0x02 then "Read Discrete Inputs"
  else if code =? 0x03 then "Read Holding Registers"
  else if code =? 0x04 then "Read Input Registers"
  else if code =? 0x05 then "Write Single Coil"
  else if code =? 0x06 then "Write Single Register"
  else if code =? 0x0F then "Write Multiple Coils"
  else if code =? 0x10 then "Write Multiple Registers"
  else "Unknown function code".

(** ** Lemmas on the CRC *)

(** One nibble step on a 16-bit register, without the truncations. *)
Definition crc_step (c : Z) : Z :=
  Z.lxor (Z.shiftr c 4) (crc_table !!! Z.to_nat (Z.land c (Z.ones 4))).

Lemma crc_table_bound i : 0 <= i < 16 -> 0 <= crc_table !!! Z.to_nat i < 2 ^ 16.
Proof.
  intros Hi.
  assert (forallb (fun i => (0 <=? crc_table !!! Z.to_nat i) && (crc_table !!! Z.to_nat i <? 2 ^ 16))
    (seqZ 0 16) = true) as H by (vm_compute; reflexivity).
  apply (forallb_seqZ _ _ _ H) in Hi. cbn beta in Hi. lia.
Qed.

Lemma crc_table_lxor a b : 0 <= a < 16 -> 0 <= b < 16 ->
  crc_table !!! Z.to_nat (Z.lxor a b) =
  Z.lxor (crc_table !!! Z.to_nat a) (crc_table !!! Z.to_nat b).
Proof.
  intros Ha Hb.
  assert (forallb (fun a => forallb (fun b =>
      crc_table !!! Z.to_nat (Z.lxor a b) =?
      Z.lxor (crc_table !!! Z.to_nat a) (crc_table !!! Z.to_nat b)) (seqZ 0 16)) (seqZ 0 16) = true)
    as H by (vm_compute; reflexivity).
  apply (forallb_seqZ _ _ _ H) in Ha.
  apply Z.eqb_eq, (forallb_seqZ _ 0 16 Ha b Hb).
Qed.

Lemma shiftr4_bound c : 0 <= c < 2 ^ 16 -> 0 <= Z.shiftr c 4 < 2 ^ 16.
Proof. intros. rewrite Z.shiftr_div_pow2 by lia. divmod_lia. Qed.

Lemma crc_step_bound c : 0 <= c < 2 ^ 16 -> 0 <= crc_step c < 2 ^ 16.
Proof.
  intros. apply lxor_bound; [lia|by apply shiftr4_bound|].
  apply crc_table_bound, (land_mask_bound 4). lia.
Qed.

Lemma crc_step_lxor a b : crc_step (Z.lxor a b) = Z.lxor (crc_step a) (crc_step b).
Proof.
  unfold crc_step.
  assert (Z.land (Z.lxor a b) (Z.ones 4) = Z.lxor (Z.land a (Z.ones 4)) (Z.land b (Z.ones 4))) as ->.
  { apply Z.bits_inj'; intros i Hi. rewrite !Z.land_spec, !Z.lxor_spec, !Z.land_spec.
    by destruct (Z.testbit a i), (Z.testbit b i), (Z.testbit (Z.ones 4) i). }
  rewrite crc_table_lxor by (apply (land_mask_bound 4); lia).
  rewrite Z.shiftr_lxor.
  apply Z.bits_inj'; intros i Hi. rewrite !Z.lxor_spec.
  destruct (Z.testbit (Z.shiftr a 4) i), (Z.testbit (Z.shiftr b 4) i); cbn;
    by destruct (Z.testbit _ _), (Z.testbit _ _).
Qed.

Lemma byte_bound d : 0 <= d < 256 -> 0 <= d < 2 ^ 16.
Proof. lia. Qed.

Lemma crc_byte_steps c d : 0 <= c < 2 ^ 16 -> 0 <= d < 256 ->
  crc_byte c d = crc_step (Z.lxor (crc_step (Z.lxor c (Z.land d (Z.ones 4)))) (Z.shiftr d 4)).
Proof.
  intros Hc Hd. unfold crc_byte. change 0x0F with (Z.ones 4).
  assert (0 <= Z.land (Z.lxor c d) (Z.ones 4) < 16) as Hi by (apply (land_mask_bound 4); lia).
  rewrite (u8_small (Z.land (Z.lxor c d) (Z.ones 4))) by lia.
  assert (crc_step (Z.lxor c (Z.land d (Z.ones 4))) =
          Z.lxor (Z.shiftr c 4) (crc_table !!! Z.to_nat (Z.land (Z.lxor c d) (Z.ones 4)))) as E1.
  { unfold crc_step. f_equal.
    - rewrite Z.shiftr_lxor, Z.shiftr_land. change (Z.shiftr (Z.ones 4) 4) with 0.
      by rewrite Z.land_0_r, Z.lxor_0_r.
    - do 2 f_equal. apply Z.bits_inj'; intros i Hi'. rewrite !Z.land_spec, !Z.lxor_spec, !Z.land_spec.
      by destruct (Z.testbit c i), (Z.testbit d i), (Z.testbit (Z.ones 4) i). }
  rewrite <- E1. set (c1 := crc_step _).
  assert (0 <= c1 < 2 ^ 16) as Hc1.
  { apply crc_step_bound, lxor_bound; [lia..|]. pose proof (land_mask_bound 4 d). lia. }
  rewrite (u16_small c1) by lia.
  assert (0 <= Z.land (Z.lxor c1 (Z.shiftr d 4)) (Z.ones 4) < 16) as Hj
    by (apply (land_mask_bound 4); lia).
  rewrite u8_small by lia.
  assert (0 <= Z.shiftr d 4 < 16) as Hd4 by (rewrite Z.shiftr_div_pow2 by lia; divmod_lia).
  rewrite u16_small.
  - unfold crc_step at 1. f_equal. rewrite Z.shiftr_lxor, Z.shiftr_shiftr by lia.
    rewrite (Z.shiftr_div_pow2 d) by lia. rewrite (Z.div_small d) by (cbn; lia).
    by rewrite Z.lxor_0_r.
  - apply (lxor_bound 16); [lia|by apply shiftr4_bound|]. by apply crc_table_bound.
Qed.

Lemma lxor_swap a b c d :
  Z.lxor (Z.lxor a b) (Z.lxor c d) = Z.lxor (Z.lxor a c) (Z.lxor b d).
Proof.
  apply Z.bits_inj'; intros i Hi. rewrite !Z.lxor_spec.
  by destruct (Z.testbit a i), (Z.testbit b i), (Z.testbit c i), (Z.testbit d i).
Qed.

Lemma crc_byte_bound c d : 0 <= c < 2 ^ 16 -> 0 <= d < 256 -> 0 <= crc_byte c d < 2 ^ 16.
Proof. intros. unfold crc_byte. apply (u16_range). Qed.

Lemma crc_byte_lxor c c' d d' :
  0 <= c < 2 ^ 16 -> 0 <= c' < 2 ^ 16 -> 0 <= d < 256 -> 0 <= d' < 256 ->
  crc_byte (Z.lxor c c') (Z.lxor d d') = Z.lxor (crc_byte c d) (crc_byte c' d').
Proof.
  intros. rewrite !crc_byte_steps by (done || by apply (lxor_bound 16) || by apply (lxor_bound 8)).
  rewrite <- crc_step_lxor, <- lxor_swap, <- Z.shiftr_lxor, <- crc_step_lxor, <- lxor_swap.
  do 4 f_equal. apply Z.bits_inj'; intros i Hi. rewrite !Z.land_spec, !Z.lxor_spec, !Z.land_spec.
  by destruct (Z.testbit d i), (Z.testbit d' i), (Z.testbit (Z.ones 4) i).
Qed.

Definition is_byte (d : Z) : Prop := 0 <= d < 256.

(** The CRC register is linear in (register, message). *)
Lemma crc_fold_lxor ds ds' c c' :
  length ds = length ds' -> Forall is_byte ds -> Forall is_byte ds' ->
  0 <= c < 2 ^ 16 -> 0 <= c' < 2 ^ 16 ->
  foldl crc_byte (Z.lxor c c') (zip_with Z.lxor ds ds') =
  Z.lxor (foldl crc_byte c ds) (foldl crc_byte c' ds').
Proof.
  revert ds' c c'. induction ds as [|d ds IH]; intros [|d' ds'] c c' Hl Hd Hd' Hc Hc';
    simplify_eq/=; [done|].
  inversion Hd; inversion Hd'; subst.
  rewrite crc_byte_lxor by done. apply IH; auto using crc_byte_bound.
Qed.

Lemma crc_zero_zeros n : foldl crc_byte 0 (replicate n 0) = 0.
Proof. induction n; [done|]. simpl. exact IHn. Qed.

(** The registers reachable by further zero bytes from the difference that one
    flipped bit leaves behind: a finite set, closed under a zero byte, without 0. *)
Fixpoint crc_orbit (n : nat) (c : Z) : list Z :=
  match n with O => [] | S n' => c :: crc_orbit n' (crc_byte c 0) end.

Definition bit_orbits : list Z :=
  flat_map (fun k => crc_orbit 126 (crc_byte 0 (Z.shiftl 1 k))) (seqZ 0 8).

Definition mem_z (x : Z) (l : list Z) : bool := existsb (Z.eqb x) l.

Lemma mem_z_In x l : mem_z x l = true <-> In x l.
Proof.
  unfold mem_z. rewrite List.existsb_exists. split.
  - intros (y & Hy & ->%Z.eqb_eq). done.
  - intros H. exists x. by rewrite Z.eqb_refl.
Qed.

Lemma bit_orbits_closed c : In c bit_orbits -> In (crc_byte c 0) bit_orbits.
Proof.
  intros H. apply mem_z_In. revert c H. apply List.forallb_forall. vm_compute. reflexivity.
Qed.

Lemma bit_orbits_nonzero c : In c bit_orbits -> c <> 0.
Proof.
  intros H E. subst. revert H. change (~ In 0 bit_orbits). rewrite <- mem_z_In. vm_compute. discriminate.
Qed.

Lemma bit_orbits_start k : 0 <= k < 8 -> In (crc_byte 0 (Z.shiftl 1 k)) bit_orbits.
Proof.
  intros Hk. apply mem_z_In.
  assert (forallb (fun k => mem_z (crc_byte 0 (Z.shiftl 1 k)) bit_orbits) (seqZ 0 8) = true)
    as H by (vm_compute; reflexivity).
  exact (forallb_seqZ _ _ _ H k Hk).
Qed.

Lemma crc_syndrome_bit n m k : 0 <= k < 8 ->
  foldl crc_byte 0 (replicate n 0 ++ Z.shiftl 1 k :: replicate m 0) <> 0.
Proof.
  intros Hk. rewrite foldl_app, crc_zero_zeros. cbn [foldl].
  apply bit_orbits_nonzero. generalize (bit_orbits_start k Hk).
  generalize (crc_byte 0 (Z.shiftl 1 k)). induction m as [|m IH]; intros c Hc; [exact Hc|].
  simpl. apply IH, bit_orbits_closed, Hc.
Qed.

(** ** Frames: lemmas *)

(** A payload followed by its CRC, low byte first. *)
Definition rtu_frame (payload : list Z) (crc : Z) : list Z :=
  payload ++ [u8 (Z.land crc 0xFF); u8 (Z.shiftr crc 8)].

Lemma crc16_bound payload : Forall is_byte payload -> 0 <= modbus_crc16 payload < 2 ^ 16.
Proof.
  unfold modbus_crc16. assert (0 <= 0xFFFF < 2 ^ 16) as Hc by lia. revert Hc.
  generalize 0xFFFF. induction payload as [|d ds IH]; intros c Hc Hf; [done|].
  inversion Hf; subst. simpl. apply IH; auto using crc_byte_bound.
Qed.

Lemma verify_frame payload crc :
  0 <= crc < 2 ^ 16 ->
  modbus_verify_crc (rtu_frame payload crc) = (modbus_crc16 payload =? crc).
Proof.
  intros Hc. unfold modbus_verify_crc, rtu_frame.
  rewrite length_app. cbn [length].
  destruct (Nat.ltb_spec (length payload + 2) 2); [lia|].
  rewrite (take_app_le payload) by lia. rewrite take_ge by lia.
  rewrite !list_lookup_total_alt, !lookup_app_r by lia.
  replace (length payload + 2 - 1 - length payload)%nat with 1%nat by lia.
  replace (length payload + 2 - 2 - length payload)%nat with 0%nat by lia.
  cbn [lookup list_lookup default from_option id].
  f_equal. rewrite <- (bytes16_join crc) at 3 by lia.
  symmetry. rewrite u16_small.
  - f_equal. rewrite u16_small; [done|].
    rewrite Z.shiftl_mul_pow2 by lia. pose proof (u8_range (Z.shiftr crc 8)). lia.
  - apply (lor_bound 16); [lia| |pose proof (u8_range (Z.land crc 255)); lia].
    rewrite Z.shiftl_mul_pow2 by lia. pose proof (u8_range (Z.shiftr crc 8)). lia.
Qed.

Lemma zip_self_zero (ds : list Z) : zip_with Z.lxor ds ds = replicate (length ds) 0.
Proof. induction ds; simpl; [done|]. by rewrite Z.lxor_nilpotent, IHds. Qed.

(** Two messages of one length have the same CRC exactly when the CRC of their
    difference, from the zero register, is zero. *)
Lemma crc16_eq_syndrome ds ds' :
  length ds = length ds' -> Forall is_byte ds -> Forall is_byte ds' ->
  modbus_crc16 ds = modbus_crc16 ds' <-> foldl crc_byte 0 (zip_with Z.lxor ds ds') = 0.
Proof.
  intros Hl Hd Hd'. unfold modbus_crc16.
  pose proof (crc_fold_lxor ds ds' 0xFFFF 0xFFFF Hl Hd Hd') as H.
  rewrite Z.lxor_nilpotent in H. rewrite H by lia. rewrite Z.lxor_eq_0_iff. done.
Qed.

Definition flip_bit (i : nat) (k : Z) (ds : list Z) : list Z :=
  alter (fun d => Z.lxor d (Z.shiftl 1 k)) i ds.

Lemma bit_byte k : 0 <= k < 8 -> is_byte (Z.shiftl 1 k).
Proof.
  intros. unfold is_byte. rewrite Z.shiftl_mul_pow2, Z.mul_1_l by lia.
  split; [lia|]. apply (Z.pow_lt_mono_r 2 k 8); lia.
Qed.

Lemma flip_bit_bytes i k ds : 0 <= k < 8 -> Forall is_byte ds -> Forall is_byte (flip_bit i k ds).
Proof.
  intros Hk Hd. apply Forall_alter; [done|]. intros x _ Hx.
  apply (lxor_bound 8); [lia|exact Hx|]. by apply bit_byte.
Qed.

Lemma flip_bit_diff i k ds :
  (i < length ds)%nat ->
  zip_with Z.lxor ds (flip_bit i k ds) =
  replicate i 0 ++ Z.shiftl 1 k :: replicate (length ds - i - 1) 0.
Proof.
  revert i. induction ds as [|d ds IH]; intros [|i] Hi; cbn [length] in Hi; try lia.
  - change (flip_bit 0 k (d :: ds)) with (Z.lxor d (Z.shiftl 1 k) :: ds). cbn [zip_with length].
    rewrite zip_self_zero, <- Z.lxor_assoc, Z.lxor_nilpotent, Z.lxor_0_l.
    replace (S (length ds) - 0 - 1)%nat with (length ds) by lia. done.
  - change (flip_bit (S i) k (d :: ds)) with (d :: flip_bit i k ds). cbn [zip_with].
    rewrite Z.lxor_nilpotent, IH by lia. done.
Qed.

(** ** Properties *)

Lemma verify_flip payload i k :
  Forall is_byte payload -> (i < length payload)%nat -> 0 <= k < 8 ->
  modbus_verify_crc (rtu_frame (flip_bit i k payload) (modbus_crc16 payload)) = false.
Proof.
  intros Hp Hi Hk. pose proof (crc16_bound payload Hp). rewrite verify_frame by done.
  apply Z.eqb_neq. intros E. symmetry in E.
  apply crc16_eq_syndrome in E; [|unfold flip_bit; by rewrite length_alter|done|by apply flip_bit_bytes].
  rewrite flip_bit_diff in E by done. by apply crc_syndrome_bit in E.
Qed.

Lemma verify_own_frame payload :
  Forall is_byte payload -> modbus_verify_crc (rtu_frame payload (modbus_crc16 payload)) = true.
Proof. intros. rewrite verify_frame by by apply crc16_bound. apply Z.eqb_refl. Qed.

(** C34: the CRC check rejects every RTU frame whose payload differs from the
    transmitted one in exactly one bit, and accepts the frame as sent. *)
Theorem verify_crc_single_bit payload i k :
  Forall is_byte payload -> (i < length payload)%nat -> 0 <= k < 8 ->
  modbus_verify_crc (rtu_frame payload (modbus_crc16 payload)) = true /\
  modbus_verify_crc (rtu_frame (flip_bit i k payload) (modbus_crc16 payload)) = false.
Proof.
  intros. auto using verify_own_frame, verify_flip.
Qed.

Lemma verify_crc_single_bit_witness :
  modbus_verify_crc (rtu_frame [1; 3; 0; 0; 0; 10] (modbus_crc16 [1; 3; 0; 0; 0; 10])) = true /\
  modbus_verify_crc (rtu_frame (flip_bit 3 5 [1; 3; 0; 0; 0; 10]) (modbus_crc16 [1; 3; 0; 0; 0; 10])) = false.
Proof.
  apply (verify_crc_single_bit [1; 3; 0; 0; 0; 10] 3 5).
  - repeat constructor; unfold is_byte; lia.
  - simpl; lia.
  - lia.
Defined.

(** The reflected CRC-16 with polynomial 0xA001, bit by bit: the checksum of the
    Modbus specification and of docs/industrial_protocols.md. *)
Definition crc16_ref_bit (c : Z) : Z :=
  if Z.odd c then Z.lxor (Z.shiftr c 1) 0xA001 else Z.shiftr c 1.
Definition crc16_ref (data : list Z) : Z :=
  foldl (fun c d => Nat.iter 8 crc16_ref_bit (Z.lxor c d)) 0xFFFF data.

(** The table holds entries 0..63 of the byte-wise table of the Modbus
    CRC-16, but the routine indexes it by nibbles, so it does not compute that
    checksum: it differs on the standard read request, and two requests that
    differ in the register address (0x0000 and 0x0314) get the same CRC, so the
    second is accepted under the CRC of the first. *)
Theorem modbus_crc16_not_standard :
  (forall i, 0 <= i < 64 -> crc_table !!! Z.to_nat i = Nat.iter 8 crc16_ref_bit i) /\
  modbus_crc16 [1; 3; 0; 0; 0; 10] <> crc16_ref [1; 3; 0; 0; 0; 10] /\
  modbus_verify_crc (rtu_frame [1; 3; 3; 20; 0; 10] (modbus_crc16 [1; 3; 0; 0; 0; 10])) = true.
Proof.
  split_and!.
  - intros i Hi. assert (forallb (fun i => crc_table !!! Z.to_nat i =? Nat.iter 8 crc16_ref_bit i)
      (seqZ 0 64) = true) as H by (vm_compute; reflexivity).
    apply Z.eqb_eq, (forallb_seqZ _ _ _ H i Hi).
  - vm_compute. discriminate.
  - vm_compute. reflexivity.
Qed.

(** Well-formedness of requests: the C field widths. *)
Definition wf_request (r : modbus_request_t) : Prop :=
  is_byte (slave_address r) /\ is_byte (function_code r) /\
  0 <= start_address r < 65536 /\ 0 <= quantity r < 65536.

(** The bytes of a request as the receiver reads them (big-endian fields). *)
Definition decode_request (b : list Z) : modbus_request_t :=
  Request (b !!! 0%nat) (b !!! 1%nat)
    (u16 (Z.lor (Z.shiftl (b !!! 2%nat) 8) (b !!! 3%nat)))
    (u16 (Z.lor (Z.shiftl (b !!! 4%nat) 8) (b !!! 5%nat))).

Definition request_bytes (r : modbus_request_t) : list Z :=
  [slave_address r; function_code r;
   u8 (Z.shiftr (start_address r) 8); u8 (Z.land (start_address r) 0xFF);
   u8 (Z.shiftr (quantity r) 8); u8 (Z.land (quantity r) 0xFF)].

Lemma request_bytes_ok r : wf_request r -> Forall is_byte (request_bytes r).
Proof.
  intros (Hs & Hf & _). unfold request_bytes. rewrite !Forall_cons.
  split_and!; try done; apply u8_range.
Qed.

Lemma write_bytes_at (b bs : list Z) k :
  (k + length bs <= length b)%nat ->
  write_bytes b k bs = take k b ++ bs ++ drop (k + length bs) b.
Proof.
  intros Hl. unfold write_bytes. rewrite <- (take_drop k b) at 1.
  assert (length (take k b) = k) as Hk by (rewrite length_take; lia).
  rewrite <- Hk at 1. rewrite <- (Nat.add_0_r (length _)), list_inserts_app_r. f_equal.
  rewrite <- (take_drop (length bs) (drop k b)) at 1.
  rewrite list_inserts_0_r by (rewrite length_take, length_drop; lia).
  by rewrite drop_drop.
Qed.

(** C40: [modbus_build_request_rtu] fails exactly on NULL arguments and buffers
    shorter than 8 bytes, which it leaves alone; otherwise it returns 8, writes
    nothing past byte 8, and the 8 bytes pass the CRC check and carry the
    request's four fields. *)
Theorem build_request_rtu_correct (b : list Z) (r : modbus_request_t) :
  wf_request r ->
  (forall buf req, buf = None \/ req = None ->
     modbus_build_request_rtu buf req = (-1, buf)) /\
  ((length b < 8)%nat -> modbus_build_request_rtu (Some b) (Some r) = (-1, Some b)) /\
  ((8 <= length b)%nat -> exists b',
     modbus_build_request_rtu (Some b) (Some r) = (8, Some b') /\
     length b' = length b /\ drop 8 b' = drop 8 b /\
     modbus_verify_crc (take 8 b') = true /\ decode_request b' = r).
Proof.
  intros Hr. pose proof Hr as (Hs & Hf & Ha & Hq). split_and!.
  - intros buf req [-> | ->]; simpl; [done|by destruct buf].
  - intros Hl. simpl. by rewrite (proj2 (Nat.ltb_lt _ _) Hl).
  - intros Hl. simpl. rewrite (proj2 (Nat.ltb_ge _ _) Hl).
    fold (request_bytes r). set (b1 := write_bytes b 0 (request_bytes r)).
    assert (b1 = request_bytes r ++ drop 6 b) as Hb1
      by (unfold b1; rewrite write_bytes_at by (simpl; lia); done).
    assert (take 6 b1 = request_bytes r) as Ht by (rewrite Hb1; by rewrite take_app_length').
    rewrite Ht. set (crc := modbus_crc16 (request_bytes r)).
    assert (0 <= crc < 2 ^ 16) as Hcrc.
    { by apply crc16_bound, request_bytes_ok. }
    eexists. split; [reflexivity|].
    rewrite write_bytes_at by (rewrite Hb1, length_app, length_drop; simpl; lia).
    rewrite Ht. cbn [length Nat.add]. split_and!.
    + rewrite !length_app, Hb1, !length_drop, length_app, length_drop. simpl. lia.
    + rewrite app_assoc, drop_app_length' by done. rewrite Hb1, drop_app_ge by (simpl; lia).
      by rewrite drop_drop.
    + rewrite app_assoc, take_app_length' by done.
      change (modbus_verify_crc (rtu_frame (request_bytes r) crc) = true).
      rewrite verify_frame by done. apply Z.eqb_refl.
    + unfold decode_request. cbn. rewrite !bytes16_join by lia. by destruct r.
Qed.

Lemma build_request_rtu_correct_witness : exists b',
  modbus_build_request_rtu (Some (replicate 10 7)) (Some (Request 1 3 0x006B 3)) = (8, Some b') /\
  length b' = 10%nat /\ drop 8 b' = [7; 7] /\
  modbus_verify_crc (take 8 b') = true /\ decode_request b' = Request 1 3 0x006B 3.
Proof.
  assert (wf_request (Request 1 3 0x006B 3)) as Hr by (repeat split; simpl; lia).
  destruct (build_request_rtu_correct (replicate 10 7) _ Hr) as (_ & _ & H).
  apply H. simpl. lia.
Defined.

(** ** Data model: invariant and lemmas *)

Definition wf_model (m : modbus_data_model_t) : Prop :=
  length (coils m) = 2000%nat /\ length (discrete_inputs m) = 2000%nat /\
  length (holding_registers m) = 125%nat /\ length (input_registers m) = 125%nat.

Lemma offset_valid address : 1 <= address < 65536 ->
  modbus_coil_address_to_offset address = address - 1.
Proof. intros. unfold modbus_coil_address_to_offset. apply u64_small. lia. Qed.

Lemma store_in {A} (a : list A) off v :
  0 <= off < Z.of_nat (length a) -> store a off v = Done (<[Z.to_nat off := v]> a).
Proof.
  intros. unfold store. by rewrite (proj2 (Z.leb_le _ _)), (proj2 (Z.ltb_lt _ _)) by lia.
Qed.

(** Inside the 1-based range the multiple-write loop is a block copy. *)
Lemma write_loop_inserts {A} n i start_addr (vs a : list A) :
  0 <= i -> 1 <= start_addr -> start_addr + i + Z.of_nat n <= 65536 ->
  start_addr - 1 + i + Z.of_nat n <= Z.of_nat (length a) ->
  i + Z.of_nat n <= Z.of_nat (length vs) ->
  write_loop n i start_addr vs a =
  Done (list_inserts (Z.to_nat (start_addr - 1 + i)) (take n (drop (Z.to_nat i) vs)) a).
Proof.
  revert i a. induction n as [|n IH]; intros i a Hi Hs Hw Ha Hv; [done|].
  cbn [write_loop].
  destruct (lookup_lt_is_Some_2 vs (Z.to_nat i)) as [v Hvi]; [lia|]. rewrite Hvi.
  rewrite u16_small, offset_valid, store_in by lia.
  rewrite IH by (rewrite ?length_insert; lia). f_equal.
  rewrite (drop_S vs v (Z.to_nat i)) by done. cbn [take list_inserts].
  rewrite list_insert_inserts_lt by lia.
  replace (Z.to_nat (start_addr - 1 + (i + 1))) with (S (Z.to_nat (start_addr - 1 + i))) by lia.
  replace (Z.to_nat (i + 1)) with (S (Z.to_nat i)) by lia.
  by replace (start_addr + i - 1) with (start_addr - 1 + i) by lia.
Qed.

(** A block at address 0 starts at offset SIZE_MAX. *)
Lemma write_loop_zero {A} (v : A) vs a :
  Z.of_nat (length a) < 18446744073709551615 -> write_loop (Z.to_nat 1) 0 0 (v :: vs) a = UB.
Proof.
  intros Ha. change (Z.to_nat 1) with 1%nat. cbn [write_loop].
  change (Z.to_nat 0) with 0%nat. cbn [lookup list_lookup].
  change (modbus_coil_address_to_offset (u16 (0 + 0))) with 18446744073709551615.
  unfold store. by rewrite (proj2 (Z.ltb_ge _ (Z.of_nat (length a)))), andb_false_r by lia.
Qed.

(** Reading back after a block write. *)
Lemma lookup_block {A} (a vs : list A) k n j :
  (n <= length vs)%nat -> (k + n <= length a)%nat -> (j < length a)%nat ->
  list_inserts k (take n vs) a !! j =
  if decide (k <= j < k + n)%nat then vs !! (j - k)%nat else a !! j.
Proof.
  intros Hn Hk Hj. destruct (decide _) as [Hd|Hd].
  - rewrite list_lookup_inserts by (rewrite ?length_take; lia). apply lookup_take_lt. lia.
  - destruct (decide (j < k)%nat).
    + by rewrite list_lookup_inserts_lt.
    + rewrite list_lookup_inserts_ge by (rewrite length_take; lia). done.
Qed.

Lemma read_coil_valid m a v : wf_model m -> 1 <= a <= 2000 ->
  exists x, coils m !! Z.to_nat (a - 1) = Some x /\
            modbus_read_coil (Some m) a (Some v) = Done (true, Some x).
Proof.
  intros (Hc & _) Ha. destruct (lookup_lt_is_Some_2 (coils m) (Z.to_nat (a - 1))) as [x Hx]; [lia|].
  exists x. split; [done|]. unfold modbus_read_coil, read_cell, modbus_validate_address, MODBUS_MAX_COILS.
  rewrite offset_valid by lia. rewrite (proj2 (Z.leb_le 1 a)), (proj2 (Z.leb_le a _)) by lia.
  cbn. by rewrite Hx.
Qed.

(** For a 1-based block that stays below address 2000, a multiple-coil
    write succeeds, keeps the model well formed, and every coil read afterwards
    gives the written value inside the block and the old value outside. *)
Theorem write_multiple_coils_read m start_addr qty vs a v0 :
  wf_model m -> 1 <= start_addr -> 1 <= qty -> start_addr + qty <= 2000 ->
  qty <= Z.of_nat (length vs) -> 1 <= a <= 2000 ->
  exists m', modbus_write_multiple_coils (Some m) start_addr qty (Some vs) = Done (true, Some m') /\
    wf_model m' /\ holding_registers m' = holding_registers m /\
    modbus_read_coil (Some m') a (Some v0) =
      (if (start_addr <=? a) && (a <? start_addr + qty)
       then Done (true, vs !! Z.to_nat (a - start_addr))
       else modbus_read_coil (Some m) a (Some v0)).
Proof.
  intros Hm Hs Hq Hmax Hv Ha. pose proof Hm as (Hc & Hd & Hh & Hi).
  unfold modbus_write_multiple_coils, MODBUS_MAX_COILS.
  rewrite (proj2 (Z.eqb_neq qty 0)), (proj2 (Z.ltb_ge 2000 (start_addr + qty))) by lia.
  rewrite write_loop_inserts by lia. change (Z.to_nat 0) with 0%nat. rewrite drop_0. eexists. split; [reflexivity|].
  set (m' := set_coils m _).
  assert (wf_model m') as Hm' by (repeat split; simpl; rewrite ?length_inserts; done).
  split; [done|]. split; [done|].
  destruct (read_coil_valid m' a v0 Hm' Ha) as (x & Hx & ->).
  simpl in Hx. rewrite lookup_block in Hx by lia.
  destruct (read_coil_valid m a v0 Hm Ha) as (y & Hy & ->).
  replace ((start_addr <=? a) && (a <? start_addr + qty)) with
    (bool_decide (Z.to_nat (start_addr - 1 + 0) <= Z.to_nat (a - 1) <
                  Z.to_nat (start_addr - 1 + 0) + Z.to_nat qty)%nat) by (case_bool_decide; lia).
  case_bool_decide as Hb; [rewrite decide_True in Hx by done|rewrite decide_False in Hx by done].
  - do 2 f_equal. rewrite <- Hx. f_equal. lia.
  - congruence.
Qed.

Lemma write_multiple_coils_read_witness :
  exists m', modbus_write_multiple_coils (Some modbus_init_data_model) 10 2 (Some [true; true]) = Done (true, Some m') /\
    wf_model m' /\ holding_registers m' = holding_registers modbus_init_data_model /\
    modbus_read_coil (Some m') 11 (Some false) = Done (true, Some true).
Proof.
  destruct (write_multiple_coils_read modbus_init_data_model 10 2 [true; true] 11 false)
    as (m' & H1 & H2 & H3 & H4); try (simpl; lia); [repeat split; reflexivity|].
  exists m'. repeat split; try done; apply H2.
Defined.

(** The limits of the two multiple-write functions: a block that starts at
    address 0 passes their check and is stored outside the array, and the block
    [2000, 2000] (respectively [125, 125]), valid for the single-cell functions,
    is refused. *)
Theorem write_multiple_limits m :
  wf_model m ->
  (forall vs, vs <> [] -> modbus_write_multiple_coils (Some m) 0 1 (Some vs) = UB) /\
  (forall vs, modbus_write_multiple_coils (Some m) 2000 1 (Some vs) = Done (false, Some m)) /\
  (forall v, exists m', modbus_write_single_coil (Some m) 2000 v = Done (true, Some m')) /\
  (forall vs, vs <> [] -> modbus_write_multiple_registers (Some m) 0 1 (Some vs) = UB) /\
  (forall vs, modbus_write_multiple_registers (Some m) 125 1 (Some vs) = Done (false, Some m)) /\
  (forall v, exists m', modbus_write_single_register (Some m) 125 v = Done (true, Some m')).
Proof.
  intros (Hc & Hd & Hh & Hi). split_and!.
  - intros [|v vs] Hv; [done|]. unfold modbus_write_multiple_coils.
    change (1 =? 0) with false. change (MODBUS_MAX_COILS <? 0 + 1) with false. cbv iota.
    by rewrite write_loop_zero by (rewrite Hc; lia).
  - done.
  - intros v. unfold modbus_write_single_coil. change (modbus_coil_address_to_offset 2000) with 1999.
    change (negb _) with false. cbv iota. rewrite store_in by lia. eauto.
  - intros [|v vs] Hv; [done|]. unfold modbus_write_multiple_registers.
    change (1 =? 0) with false. change (MODBUS_MAX_REGISTERS <? 0 + 1) with false. cbv iota.
    by rewrite write_loop_zero by (rewrite Hh; lia).
  - done.
  - intros v. unfold modbus_write_single_register. change (modbus_register_address_to_offset 125) with 124.
    change (negb _) with false. cbv iota. rewrite store_in by lia. eauto.
Qed.

Lemma write_multiple_limits_witness :
  modbus_write_multiple_coils (Some modbus_init_data_model) 0 1 (Some [true]) = UB.
Proof.
  assert (wf_model modbus_init_data_model) as H by (repeat split; reflexivity).
  destruct (write_multiple_limits _ H) as (H1 & _). apply H1. discriminate.
Defined.

(** ** Responses *)

(** The reply frame of a server: address, function, byte count, data and CRC. *)
Definition response_frame (addr fc : Z) (data : list Z) : list Z :=
  let payload := [addr; fc; Z.of_nat (length data)] ++ data in
  rtu_frame payload (modbus_crc16 payload).

Lemma not_exception a fc n d : 0 <= fc < 128 -> modbus_is_exception (Response a fc n d) = false.
Proof.
  intros Hf. unfold modbus_is_exception, truthy. simpl.
  assert (Z.land fc 0x80 = 0) as ->; [|done].
  change 0x80 with (2 ^ 7). apply Z.bits_inj'; intros i Hi. rewrite Z.land_spec, Z.bits_0.
  destruct (decide (i = 7)) as [->|].
  - by rewrite (testbit_high 7 fc).
  - by rewrite Z.pow2_bits_false, andb_false_r by lia.
Qed.

(** The parser on a frame that is long enough for its byte count. *)
Lemma parse_response_rtu_long addr fc n rest r0 :
  0 <= fc < 128 -> 0 <= n <= 253 -> n + 2 <= Z.of_nat (length rest) ->
  modbus_parse_response_rtu (Some (addr :: fc :: n :: rest)) (Some r0) =
  Done (if modbus_verify_crc (addr :: fc :: n :: rest) then n + 5 else -2,
        Some (Response addr fc n (take (Z.to_nat n) rest ++ drop (Z.to_nat n) (r_data r0)))).
Proof.
  intros Hf Hn Hl. unfold modbus_parse_response_rtu. cbn [length].
  rewrite (proj2 (Z.ltb_ge _ 4)) by lia.
  cbn [lookup_total list_lookup_total r_slave_address r_function_code r_byte_count r_data].
  rewrite not_exception by done. rewrite (proj2 (Z.ltb_ge _ (3 + n + 2))) by lia.
  unfold memcpy_data, MODBUS_MAX_PDU_SIZE. cbn [drop r_slave_address r_function_code r_byte_count r_data].
  rewrite !drop_0, (proj2 (Z.leb_le n 253)), (proj2 (Z.leb_le n _)) by lia. cbn [andb negb r_byte_count].
  replace (3 + n + 2) with (n + 5) by lia. by destruct (modbus_verify_crc _).
Qed.

Lemma response_frame_unfold addr fc data :
  response_frame addr fc data =
  addr :: fc :: Z.of_nat (length data) ::
    (data ++ drop (3 + length data) (response_frame addr fc data)).
Proof.
  unfold response_frame, rtu_frame. cbn [app drop Nat.add]. do 3 f_equal.
  by rewrite drop_app_length.
Qed.

(** C40: [modbus_parse_response_rtu] inverts the server's reply: on the frame of
    any non-exception reply of at most 253 data bytes it returns the frame length
    and the fields, with the data at the front of the data array; on a frame cut
    short anywhere after byte 4 it returns -1; when the frame's payload suffers a
    one-bit error in its data it returns -2. *)
Theorem parse_response_rtu_correct addr fc data (r0 : modbus_response_t) :
  is_byte addr -> 0 <= fc < 128 -> Forall is_byte data -> (length data <= 253)%nat ->
  length (r_data r0) = 253%nat ->
  let b := response_frame addr fc data in
  modbus_parse_response_rtu (Some b) (Some r0) =
    Done (Z.of_nat (length data) + 5,
          Some (Response addr fc (Z.of_nat (length data))
                         (data ++ drop (length data) (r_data r0)))) /\
  (forall n, (4 <= n < length data + 5)%nat -> exists r,
     modbus_parse_response_rtu (Some (take n b)) (Some r0) = Done (-1, Some r)) /\
  (forall i k, (i < length data)%nat -> 0 <= k < 8 -> exists r,
     modbus_parse_response_rtu (Some (flip_bit (3 + i) k b)) (Some r0) = Done (-2, Some r)).
Proof.
  intros Ha Hf Hd Hl Hr0 b.
  assert (length (drop (3 + length data) b) = 2%nat) as H2.
  { unfold b, response_frame, rtu_frame. rewrite length_drop, !length_app. simpl. lia. }
  assert (Forall is_byte ([addr; fc; Z.of_nat (length data)] ++ data)) as Hp.
  { cbn [app]. rewrite !Forall_cons. split_and!; try done; unfold is_byte; lia. }
  split_and!.
  - unfold b. rewrite response_frame_unfold at 1. fold b.
    rewrite parse_response_rtu_long by (rewrite ?length_app; lia).
    rewrite <- response_frame_unfold. unfold b at 1, response_frame.
    rewrite verify_own_frame by done.
    rewrite Nat2Z.id, take_app_length. do 2 f_equal.
  - intros n Hn. unfold b. rewrite response_frame_unfold. fold b.
    destruct n as [|[|[|[|n]]]]; try lia. set (rest := data ++ _).
    assert (length rest = (length data + 2)%nat) as Hrest by (unfold rest; rewrite length_app; lia).
    cbn [take]. unfold modbus_parse_response_rtu.
    destruct rest as [|x rest]; [simpl in Hrest; lia|]. cbn [length firstn].
    simpl in Hrest. cbn [length]. rewrite length_take.
    rewrite (proj2 (Z.ltb_ge _ 4)) by lia.
    cbn [lookup_total list_lookup_total r_slave_address r_function_code r_byte_count r_data].
    rewrite not_exception by done. rewrite (proj2 (Z.ltb_lt _ (3 + _ + 2))) by lia. eauto.
  - intros i k Hi Hk.
    assert (flip_bit (3 + i) k b = addr :: fc :: Z.of_nat (length data) ::
              (flip_bit i k data ++ drop (3 + length data) b)) as ->.
    { unfold b at 1. rewrite response_frame_unfold. fold b. cbn [Nat.add].
      unfold flip_bit. cbn [alter list_alter]. do 3 f_equal. by apply alter_app_l. }
    rewrite parse_response_rtu_long by (unfold flip_bit; rewrite ?length_app, ?length_alter; lia).
    pose proof (verify_flip _ (3 + i) k Hp ltac:(simpl; lia) Hk) as Hv.
    replace (modbus_verify_crc _) with false; [eauto|]. rewrite <- Hv.
    unfold rtu_frame, b, response_frame. f_equal. unfold flip_bit.
    cbn [app alter list_alter Nat.add drop]. do 3 f_equal.
    unfold rtu_frame. cbn [app drop]. by rewrite drop_app_length.
Qed.

Lemma parse_response_rtu_correct_witness :
  modbus_parse_response_rtu (Some (response_frame 1 3 [2; 43])) (Some (Response 0 0 0 (replicate 253 0))) =
    Done (7, Some (Response 1 3 2 ([2; 43] ++ replicate 251 0))).
Proof.
  assert (is_byte 1) as Ha by (unfold is_byte; lia).
  assert (Forall is_byte [2; 43]) as Hd
    by (rewrite !Forall_cons; unfold is_byte; split_and!; (lia || done)).
  assert (length [2; 43] <= 253)%nat as Hl by (simpl; lia).
  exact (proj1 (parse_response_rtu_correct 1 3 [2; 43] (Response 0 0 0 (replicate 253 0))
    Ha ltac:(lia) Hd Hl eq_refl)).
Defined.

(** ** TCP *)

(** A TCP request starts with an MBAP header that parses back to the
    transaction id, protocol 0, length 6 and the slave address, followed by the
    request's function code, address and quantity; the 12 bytes are the only ones
    written. *)
Theorem build_request_tcp_correct (b : list Z) tid r h0 :
  wf_request r -> 0 <= tid < 65536 -> (12 <= length b)%nat ->
  exists b', modbus_build_request_tcp (Some b) tid (Some r) = (12, Some b') /\
    length b' = length b /\ drop 12 b' = drop 12 b /\
    modbus_parse_mbap_header (Some b') (Some h0) = (7, Some (Mbap tid 0 6 (slave_address r))) /\
    drop 7 (take 12 b') = drop 1 (request_bytes r).
Proof.
  intros (Hs & Hf & Ha & Hq) Ht Hl. unfold modbus_build_request_tcp.
  rewrite (proj2 (Nat.ltb_ge _ 12)) by lia. cbn [modbus_build_mbap_header].
  set (b1 := write_bytes b 0 _).
  assert (b1 = [u8 (Z.shiftr tid 8); u8 (Z.land tid 0xFF); 0; 0;
         u8 (Z.shiftr 6 8); u8 (Z.land 6 0xFF); slave_address r] ++ drop 7 b) as Hb1
    by (unfold b1; rewrite write_bytes_at by (simpl; lia); done).
  change (7 <? 0) with false. cbv iota. change (Z.to_nat 7) with 7%nat.
  rewrite write_bytes_at by (rewrite Hb1, length_app, length_drop; simpl; lia).
  eexists. split; [reflexivity|]. rewrite Hb1.
  cbn [length Nat.add app take drop]. rewrite !drop_drop, !take_0. cbn [Nat.add app].
  split_and!.
  - cbn [length]. rewrite length_drop. lia.
  - done.
  - unfold modbus_parse_mbap_header. cbn [length Nat.ltb Nat.leb lookup_total list_lookup_total].
    rewrite bytes16_join by lia. reflexivity.
  - done.
Qed.

Lemma build_request_tcp_correct_witness :
  exists b', modbus_build_request_tcp (Some (replicate 12 0)) 0x1234 (Some (Request 17 3 107 3)) = (12, Some b') /\
    length b' = 12%nat /\ drop 12 b' = [] /\
    modbus_parse_mbap_header (Some b') (Some (Mbap 0 0 0 0)) = (7, Some (Mbap 0x1234 0 6 17)) /\
    drop 7 (take 12 b') = [3; 0; 107; 0; 3].
Proof.
  apply (build_request_tcp_correct (replicate 12 0) 0x1234 (Request 17 3 107 3) (Mbap 0 0 0 0)).
  - unfold wf_request, is_byte. simpl. lia.
  - lia.
  - reflexivity || (simpl; lia).
Defined.

(** The TCP response parser trusts the byte count of the frame: on a
    non-exception frame of at least 9 bytes it returns the parsed fields when the
    count is at most 253 and inside the frame, and otherwise its [memcpy] runs
    past the frame or past the 253-byte data array. *)
Theorem parse_response_tcp_bounds b r0 :
  Forall is_byte b -> (9 <= length b)%nat -> b !!! 7%nat < 128 ->
  let n := b !!! 8%nat in
  modbus_parse_response_tcp (Some b) (Some r0) =
    if (n <=? 253) && (9 + n <=? Z.of_nat (length b))
    then Done (9 + n, Some (Response (b !!! 6%nat) (b !!! 7%nat) n
                (take (Z.to_nat n) (drop 9 b) ++ drop (Z.to_nat n) (r_data r0))))
    else UB.
Proof.
  intros Hb Hl Hf n. unfold modbus_parse_response_tcp.
  rewrite (proj2 (Z.ltb_ge _ 9)) by lia.
  destruct b as [|b0 [|b1 [|b2 [|b3 [|b4 [|b5 [|b6 [|b7 [|b8 rest]]]]]]]]]; simpl in Hl; try lia.
  cbn [lookup_total list_lookup_total] in Hf, n. subst n. cbn [modbus_parse_mbap_header length Nat.ltb Nat.leb].
  change (7 <? 0) with false. change (Z.to_nat 7) with 7%nat.
  cbn [lookup_total list_lookup_total unit_id Nat.add drop r_byte_count r_data r_slave_address r_function_code].
  rewrite !Forall_cons in Hb. destruct Hb as (_&_&_&_&_&_&_&H7&H8&_). unfold is_byte in *.
  rewrite not_exception by lia. unfold memcpy_data, MODBUS_MAX_PDU_SIZE.
  cbn [r_byte_count r_data r_slave_address r_function_code].
  rewrite drop_0.
  cbn [length].
  destruct (Z.leb_spec b8 253), (Z.leb_spec b8 (Z.of_nat (length rest))); cbn [andb];
    first [done | rewrite (proj2 (Z.leb_le (9 + b8) _)) by lia; done
          | rewrite (proj2 (Z.leb_gt (9 + b8) _)) by lia; done].
Qed.

Lemma parse_response_tcp_bounds_witness :
  modbus_parse_response_tcp (Some [0; 1; 0; 0; 0; 5; 1; 3; 200]) (Some (Response 0 0 0 [])) = UB.
Proof.
  refine (parse_response_tcp_bounds [0; 1; 0; 0; 0; 5; 1; 3; 200] (Response 0 0 0 []) _ _ _).
  - rewrite !Forall_cons. unfold is_byte. split_and!; (lia || done).
  - simpl. lia.
  - simpl. lia.
Defined.
