(* ===== verification/PlcLadder.v ===== *)
(** * PLC ladder-logic engine (mini-industrial-control/src/plc_ladder.c)

    Contacts, coils, timers and counters of a rung, the rung table of a program
    and the scan cycle.  Each fixed-size array of the C structures is a list of
    that size with its count of live entries beside it. *)
From S2P Require Import Prelude.

Definition PLC_MAX_RUNGS : Z := 128.
Definition PLC_MAX_CONTACTS : Z := 16.
Definition PLC_MAX_COILS : Z := 16.
Definition PLC_MAX_TIMERS : Z := 32.
Definition PLC_MAX_COUNTERS : Z := 32.
Definition PLC_MAX_NAME_LEN : nat := 32.
Definition PLC_SCAN_PERIOD_MS : Z := 10.
Definition UINT16_MAX : Z := 65535.

Inductive plc_contact_type_t := PLC_CONTACT_NO | PLC_CONTACT_NC.
Inductive plc_coil_type_t :=
  PLC_COIL_OUTPUT | PLC_COIL_INTERNAL | PLC_COIL_LATCH_SET | PLC_COIL_LATCH_RESET.
Inductive plc_timer_type_t := PLC_TIMER_TON | PLC_TIMER_TOF | PLC_TIMER_TP.
Inductive plc_counter_type_t := PLC_COUNTER_CTU | PLC_COUNTER_CTD | PLC_COUNTER_CTUD.
Inductive plc_scan_phase_t :=
  PLC_SCAN_INPUTS | PLC_SCAN_PROGRAM | PLC_SCAN_OUTPUTS | PLC_SCAN_HOUSEKEEPING.

Record plc_contact_t := Contact {
  ct_name : list Z; ct_type : plc_contact_type_t; ct_address : Z; ct_state : bool }.

Record plc_coil_t := Coil {
  co_name : list Z; co_type : plc_coil_type_t; co_address : Z;
  co_state : bool; co_prev_state : bool }.

Record plc_timer_t := Timer {
  tm_name : list Z; tm_type : plc_timer_type_t; preset_ms : Z; accumulated_ms : Z;
  timing : bool; tm_done : bool; input_state : bool; last_tick : Z }.

Record plc_counter_t := Counter {
  cn_name : list Z; cn_type : plc_counter_type_t; preset : Z; accumulated : Z;
  cn_done : bool; overflow : bool; underflow : bool;
  count_up_input : bool; count_down_input : bool; prev_cu : bool; prev_cd : bool }.

Record plc_rung_t := Rung {
  contacts : list plc_contact_t; num_contacts : Z;
  coils : list plc_coil_t; num_coils : Z;
  timers : list plc_timer_t; num_timers : Z;
  counters : list plc_counter_t; num_counters : Z;
  power_flow : bool }.

Record plc_program_t := Program {
  rungs : list plc_rung_t; num_rungs : Z; scan_counter : Z;
  current_phase : plc_scan_phase_t; scan_time_us : Z; last_scan_tick : Z;
  running : bool; fault : bool; fault_code : Z }.

(** ** The zeroed structures of [memset] *)

Definition zero_name : list Z := replicate PLC_MAX_NAME_LEN 0.
Definition zero_contact : plc_contact_t := Contact zero_name PLC_CONTACT_NO 0 false.
Definition zero_coil : plc_coil_t := Coil zero_name PLC_COIL_OUTPUT 0 false false.
Definition zero_timer : plc_timer_t := Timer zero_name PLC_TIMER_TON 0 0 false false false 0.
Definition zero_counter : plc_counter_t :=
  Counter zero_name PLC_COUNTER_CTU 0 0 false false false false false false false.
Definition zero_rung : plc_rung_t :=
  Rung (replicate 16 zero_contact) 0 (replicate 16 zero_coil) 0
       (replicate 32 zero_timer) 0 (replicate 32 zero_counter) 0 false.

(** ** Program and rung table *)

Definition plc_init : plc_program_t :=
  Program (replicate 128 zero_rung) 0 0 PLC_SCAN_INPUTS 0 0 false false 0.

Definition plc_reset (plc : plc_program_t) : plc_program_t :=
  Program (replicate 128 zero_rung) 0 0 (current_phase plc) (scan_time_us plc)
          (last_scan_tick plc) (running plc) false 0.

Definition set_rungs (plc : plc_program_t) (rs : list plc_rung_t) (n : Z) : plc_program_t :=
  Program rs n (scan_counter plc) (current_phase plc) (scan_time_us plc)
          (last_scan_tick plc) (running plc) (fault plc) (fault_code plc).

(** The result is the index of the new rung, the pointer [&plc->rungs[i]]. *)
Definition plc_add_rung (plc : plc_program_t) : option Z * plc_program_t :=
  if PLC_MAX_RUNGS <=? num_rungs plc then (None, plc)
  else (Some (num_rungs plc),
        set_rungs plc (<[Z.to_nat (num_rungs plc) := zero_rung]> (rungs plc))
                  (u16 (num_rungs plc + 1))).

Definition plc_remove_rung (plc : plc_program_t) (index : Z) : bool * plc_program_t :=
  if num_rungs plc <=? index then (false, plc)
  else (true,
        set_rungs plc
          (shift_loop (Z.to_nat (num_rungs plc - 1 - index)) (Z.to_nat index) (rungs plc))
          (u16 (num_rungs plc - 1))).

Definition plc_add_contact (rung : plc_rung_t) (name : list Z) (type : plc_contact_type_t)
    (address : Z) : bool * plc_rung_t :=
  if PLC_MAX_CONTACTS <=? num_contacts rung then (false, rung)
  else
    let c := Contact (cstr_copy PLC_MAX_NAME_LEN name) type address false in
    (true, Rung (<[Z.to_nat (num_contacts rung) := c]> (contacts rung)) (u8 (num_contacts rung + 1))
                (coils rung) (num_coils rung) (timers rung) (num_timers rung)
                (counters rung) (num_counters rung) (power_flow rung)).

Definition plc_add_coil (rung : plc_rung_t) (name : list Z) (type : plc_coil_type_t)
    (address : Z) : bool * plc_rung_t :=
  if PLC_MAX_COILS <=? num_coils rung then (false, rung)
  else
    let c := Coil (cstr_copy PLC_MAX_NAME_LEN name) type address false false in
    (true, Rung (contacts rung) (num_contacts rung)
                (<[Z.to_nat (num_coils rung) := c]> (coils rung)) (u8 (num_coils rung + 1))
                (timers rung) (num_timers rung) (counters rung) (num_counters rung)
                (power_flow rung)).

Definition plc_add_timer (rung : plc_rung_t) (name : list Z) (type : plc_timer_type_t)
    (preset_ms : Z) : bool * plc_rung_t :=
  if PLC_MAX_TIMERS <=? num_timers rung then (false, rung)
  else
    let t := Timer (cstr_copy PLC_MAX_NAME_LEN name) type preset_ms 0 false false false 0 in
    (true, Rung (contacts rung) (num_contacts rung) (coils rung) (num_coils rung)
                (<[Z.to_nat (num_timers rung) := t]> (timers rung)) (u8 (num_timers rung + 1))
                (counters rung) (num_counters rung) (power_flow rung)).

Definition plc_add_counter (rung : plc_rung_t) (name : list Z) (type : plc_counter_type_t)
    (preset : Z) : bool * plc_rung_t :=
  if PLC_MAX_COUNTERS <=? num_counters rung then (false, rung)
  else
    let c := Counter (cstr_copy PLC_MAX_NAME_LEN name) type preset 0
                     false false false false false false false in
    (true, Rung (contacts rung) (num_contacts rung) (coils rung) (num_coils rung)
                (timers rung) (num_timers rung)
                (<[Z.to_nat (num_counters rung) := c]> (counters rung)) (u8 (num_counters rung + 1))
                (power_flow rung)).

(** ** Input and output images

    The doubly nested loops over the live rungs and their live contacts (coils). *)

Definition live_rungs (plc : plc_program_t) : list plc_rung_t :=
  take (Z.to_nat (num_rungs plc)) (rungs plc).
Definition live_contacts (r : plc_rung_t) : list plc_contact_t :=
  take (Z.to_nat (num_contacts r)) (contacts r).
Definition live_coils (r : plc_rung_t) : list plc_coil_t :=
  take (Z.to_nat (num_coils r)) (coils r).

Fixpoint find_contact (cs : list plc_contact_t) (address : Z) : option bool :=
  match cs with
  | [] => None
  | c :: cs' => if ct_address c =? address then Some (ct_state c) else find_contact cs' address
  end.

Fixpoint find_coil (cs : list plc_coil_t) (address : Z) : option bool :=
  match cs with
  | [] => None
  | c :: cs' => if co_address c =? address then Some (co_state c) else find_coil cs' address
  end.

Fixpoint read_input_loop (rs : list plc_rung_t) (address : Z) : bool :=
  match rs with
  | [] => false
  | r :: rs' => match find_contact (live_contacts r) address with
                | Some b => b
                | None => read_input_loop rs' address
                end
  end.

Fixpoint read_output_loop (rs : list plc_rung_t) (address : Z) : bool :=
  match rs with
  | [] => false
  | r :: rs' => match find_coil (live_coils r) address with
                | Some b => b
                | None => read_output_loop rs' address
                end
  end.

Definition plc_read_input (plc : plc_program_t) (address : Z) : bool :=
  read_input_loop (live_rungs plc) address.

Definition plc_read_output (plc : plc_program_t) (address : Z) : bool :=
  read_output_loop (live_rungs plc) address.

Definition write_contact (address : Z) (value : bool) (c : plc_contact_t) : plc_contact_t :=
  if ct_address c =? address then Contact (ct_name c) (ct_type c) (ct_address c) value else c.

Definition write_coil (address : Z) (value : bool) (c : plc_coil_t) : plc_coil_t :=
  if co_address c =? address
  then Coil (co_name c) (co_type c) (co_address c) value (co_prev_state c) else c.

Definition set_contacts (r : plc_rung_t) (cs : list plc_contact_t) : plc_rung_t :=
  Rung cs (num_contacts r) (coils r) (num_coils r) (timers r) (num_timers r)
       (counters r) (num_counters r) (power_flow r).
Definition set_coils (r : plc_rung_t) (cs : list plc_coil_t) : plc_rung_t :=
  Rung (contacts r) (num_contacts r) cs (num_coils r) (timers r) (num_timers r)
       (counters r) (num_counters r) (power_flow r).

Definition plc_write_input (plc : plc_program_t) (address : Z) (value : bool) : plc_program_t :=
  set_rungs plc
    (update_live (Z.to_nat (num_rungs plc)) (fun r =>
       set_contacts r (update_live (Z.to_nat (num_contacts r)) (write_contact address value)
                                   (contacts r)))
       (rungs plc)) (num_rungs plc).

Definition plc_write_output (plc : plc_program_t) (address : Z) (value : bool) : plc_program_t :=
  set_rungs plc
    (update_live (Z.to_nat (num_rungs plc)) (fun r =>
       set_coils r (update_live (Z.to_nat (num_coils r)) (write_coil address value) (coils r)))
       (rungs plc)) (num_rungs plc).

(** ** Timers *)

Definition set_timer (t : plc_timer_t) (acc : Z) (tmg dn : bool) : plc_timer_t :=
  Timer (tm_name t) (tm_type t) (preset_ms t) acc tmg dn (input_state t) (last_tick t).

Definition plc_update_timer (t : plc_timer_t) : plc_timer_t :=
  let input_on := input_state t in
  match tm_type t with
  | PLC_TIMER_TON =>
      if input_on then
        let t := if negb (timing t) then set_timer t 0 true (tm_done t) else t in
        let t := set_timer t (accumulated_ms t +32 PLC_SCAN_PERIOD_MS) (timing t) (tm_done t) in
        if preset_ms t <=? accumulated_ms t then set_timer t (preset_ms t) (timing t) true else t
      else set_timer t 0 false false
  | PLC_TIMER_TOF =>
      if negb input_on then
        let t := if negb (timing t) then set_timer t 0 true (tm_done t) else t in
        let t := set_timer t (accumulated_ms t +32 PLC_SCAN_PERIOD_MS) (timing t) (tm_done t) in
        if preset_ms t <=? accumulated_ms t then set_timer t (preset_ms t) (timing t) false else t
      else set_timer t 0 false true
  | PLC_TIMER_TP =>
      let t := if input_on && negb (timing t) then set_timer t 0 true true else t in
      let t :=
        if timing t then
          let t := set_timer t (accumulated_ms t +32 PLC_SCAN_PERIOD_MS) (timing t) (tm_done t) in
          if preset_ms t <=? accumulated_ms t then set_timer t (preset_ms t) false false else t
        else t in
      if negb input_on then set_timer t (accumulated_ms t) false (tm_done t) else t
  end.

Definition plc_timer_reset (t : plc_timer_t) : plc_timer_t := set_timer t 0 false false.
Definition plc_timer_elapsed_ms (t : plc_timer_t) : Z := accumulated_ms t.
Definition plc_timer_remaining_ms (t : plc_timer_t) : Z :=
  if preset_ms t <=? accumulated_ms t then 0 else preset_ms t -32 accumulated_ms t.

(** ** Counters *)

Definition set_counter (c : plc_counter_t) (acc : Z) (dn ov un : bool) : plc_counter_t :=
  Counter (cn_name c) (cn_type c) (preset c) acc dn ov un
          (count_up_input c) (count_down_input c) (prev_cu c) (prev_cd c).

Definition count_up (rising : bool) (c : plc_counter_t) : plc_counter_t :=
  if rising && negb (overflow c) then
    if accumulated c <? UINT16_MAX then
      set_counter c (u16 (accumulated c + 1)) (cn_done c) (overflow c) (underflow c)
    else set_counter c (accumulated c) (cn_done c) true (underflow c)
  else c.

Definition count_down (rising : bool) (c : plc_counter_t) : plc_counter_t :=
  if rising && negb (underflow c) then
    if 0 <? accumulated c then
      set_counter c (u16 (accumulated c - 1)) (cn_done c) (overflow c) (underflow c)
    else set_counter c (accumulated c) (cn_done c) (overflow c) true
  else c.

Definition set_done (b : bool) (c : plc_counter_t) : plc_counter_t :=
  set_counter c (accumulated c) b (overflow c) (underflow c).

Definition plc_update_counter (c : plc_counter_t) : plc_counter_t :=
  let cu_rising := count_up_input c && negb (prev_cu c) in
  let cd_rising := count_down_input c && negb (prev_cd c) in
  let c := Counter (cn_name c) (cn_type c) (preset c) (accumulated c) (cn_done c) (overflow c)
             (underflow c) (count_up_input c) (count_down_input c)
             (count_up_input c) (count_down_input c) in
  match cn_type c with
  | PLC_COUNTER_CTU =>
      let c := count_up cu_rising c in
      set_done (preset c <=? accumulated c) c
  | PLC_COUNTER_CTD =>
      let c := count_down cd_rising c in
      set_done (accumulated c =? 0) c
  | PLC_COUNTER_CTUD =>
      let c := count_up cu_rising c in
      let c := count_down cd_rising c in
      set_done (preset c <=? accumulated c) c
  end.

Definition plc_counter_reset (c : plc_counter_t) : plc_counter_t := set_counter c 0 false false false.
Definition plc_counter_value (c : plc_counter_t) : Z := accumulated c.
Definition plc_counter_done (c : plc_counter_t) : bool := cn_done c.

(** ** Scan cycle *)

Definition plc_evaluate_contact (c : plc_contact_t) : bool :=
  match ct_type c with
  | PLC_CONTACT_NO => ct_state c
  | PLC_CONTACT_NC => negb (ct_state c)
  end.

Definition set_input (power : bool) (t : plc_timer_t) : plc_timer_t :=
  Timer (tm_name t) (tm_type t) (preset_ms t) (accumulated_ms t) (timing t) (tm_done t)
        power (last_tick t).

Definition plc_evaluate_rung (r : plc_rung_t) : bool * plc_rung_t :=
  let power := foldl (fun power c => power && plc_evaluate_contact c) true (live_contacts r) in
  (power,
   Rung (contacts r) (num_contacts r) (coils r) (num_coils r)
        (update_live (Z.to_nat (num_timers r)) (fun t => plc_update_timer (set_input power t))
                     (timers r)) (num_timers r)
        (update_live (Z.to_nat (num_counters r)) plc_update_counter (counters r)) (num_counters r)
        power).

Definition update_coil (power : bool) (c : plc_coil_t) : plc_coil_t :=
  let st := match co_type c with
            | PLC_COIL_OUTPUT => power
            | PLC_COIL_INTERNAL => power
            | PLC_COIL_LATCH_SET => if power then true else co_state c
            | PLC_COIL_LATCH_RESET => if power then false else co_state c
            end in
  Coil (co_name c) (co_type c) (co_address c) st (co_state c).

Definition update_rung_coils (r : plc_rung_t) : plc_rung_t :=
  set_coils r (update_live (Z.to_nat (num_coils r)) (update_coil (power_flow r)) (coils r)).

Definition plc_update_outputs (plc : plc_program_t) : plc_program_t :=
  set_rungs plc (update_live (Z.to_nat (num_rungs plc)) update_rung_coils (rungs plc))
            (num_rungs plc).

Definition set_phase (plc : plc_program_t) (ph : plc_scan_phase_t) (n : Z) : plc_program_t :=
  Program (rungs plc) (num_rungs plc) n ph (scan_time_us plc) (last_scan_tick plc)
          (running plc) (fault plc) (fault_code plc).

Definition plc_scan_cycle (plc : plc_program_t) : plc_program_t :=
  if fault plc then plc
  else
    let plc := set_phase plc PLC_SCAN_INPUTS (scan_counter plc) in
    let plc := set_phase plc PLC_SCAN_PROGRAM (scan_counter plc) in
    let plc := set_rungs plc
      (update_live (Z.to_nat (num_rungs plc)) (fun r => snd (plc_evaluate_rung r)) (rungs plc))
      (num_rungs plc) in
    let plc := set_phase plc PLC_SCAN_OUTPUTS (scan_counter plc) in
    let plc := plc_update_outputs plc in
    set_phase plc PLC_SCAN_HOUSEKEEPING (u16 (scan_counter plc + 1)).

Definition plc_get_scan_time_us (plc : plc_program_t) : Z := scan_time_us plc.
Definition plc_get_scan_count (plc : plc_program_t) : Z := scan_counter plc.
Definition plc_is_fault (plc : plc_program_t) : bool := fault plc.
Definition plc_get_fault_code (plc : plc_program_t) : Z := fault_code plc.
Definition plc_clear_fault (plc : plc_program_t) : plc_program_t :=
  Program (rungs plc) (num_rungs plc) (scan_counter plc) (current_phase plc) (scan_time_us plc)
          (last_scan_tick plc) (running plc) false 0.

(** ** Well-formedness and reachable programs *)

Definition counted {A} (a : list A) (n : Z) (max : Z) : Prop :=
  Z.of_nat (length a) = max /\ 0 <= n <= max.

Definition wf_rung (r : plc_rung_t) : Prop :=
  counted (contacts r) (num_contacts r) 16 /\ counted (coils r) (num_coils r) 16 /\
  counted (timers r) (num_timers r) 32 /\ counted (counters r) (num_counters r) 32.

Definition wf_program (plc : plc_program_t) : Prop :=
  counted (rungs plc) (num_rungs plc) 128 /\ Forall wf_rung (rungs plc).

(** Building one rung through the API, on the pointer [plc_add_rung] returned. *)
Inductive rung_step : plc_rung_t -> plc_rung_t -> Prop :=
| step_contact r name type addr : rung_step r (snd (plc_add_contact r name type addr))
| step_coil r name type addr : rung_step r (snd (plc_add_coil r name type addr))
| step_timer r name type p : rung_step r (snd (plc_add_timer r name type p))
| step_counter r name type p : rung_step r (snd (plc_add_counter r name type p)).

Inductive plc_step : plc_program_t -> plc_program_t -> Prop :=
| step_add_rung plc : plc_step plc (snd (plc_add_rung plc))
| step_remove_rung plc i : 0 <= i -> plc_step plc (snd (plc_remove_rung plc i))
| step_rung plc i r r' : rungs plc !! i = Some r -> rung_step r r' ->
    plc_step plc (set_rungs plc (<[i := r']> (rungs plc)) (num_rungs plc))
| step_write_input plc a v : plc_step plc (plc_write_input plc a v)
| step_write_output plc a v : plc_step plc (plc_write_output plc a v)
| step_scan plc : plc_step plc (plc_scan_cycle plc)
| step_clear plc : plc_step plc (plc_clear_fault plc)
| step_reset plc : plc_step plc (plc_reset plc).

Inductive plc_reachable : plc_program_t -> Prop :=
| reach_init : plc_reachable plc_init
| reach_step p q : plc_reachable p -> plc_step p q -> plc_reachable q.

Lemma counted_update {A} (a : list A) n max f k :
  counted a n max -> counted (update_live k f a) n max.
Proof. unfold counted. by rewrite length_update_live. Qed.

Lemma counted_insert {A} (a : list A) n max (x : A) :
  counted a n max -> n < max -> 0 <= max < 256 ->
  counted (<[Z.to_nat n := x]> a) (u8 (n + 1)) max.
Proof. intros [H1 H2] Hn Hm. unfold counted. rewrite length_insert, u8_small by lia. lia. Qed.

Lemma zero_rung_wf : wf_rung zero_rung.
Proof. unfold wf_rung, counted, zero_rung. simpl. lia. Qed.

Lemma Forall_update_live {A} (P : A -> Prop) n f (a : list A) :
  (forall x, P x -> P (f x)) -> Forall P a -> Forall P (update_live n f a).
Proof.
  intros Hf Ha. unfold update_live. apply Forall_app. split.
  - apply Forall_fmap. eapply Forall_impl; [by apply Forall_take|]. intros x Hx. by apply Hf.
  - by apply Forall_drop.
Qed.

Lemma rung_step_wf r r' : wf_rung r -> rung_step r r' -> wf_rung r'.
Proof.
  intros (Hct & Hco & Htm & Hcn) Hs.
  destruct Hs; unfold plc_add_contact, plc_add_coil, plc_add_timer, plc_add_counter,
    PLC_MAX_CONTACTS, PLC_MAX_COILS, PLC_MAX_TIMERS, PLC_MAX_COUNTERS;
    case_match eqn:E; unfold wf_rung; simpl; split_and!; try done;
    apply counted_insert; (done || lia).
Qed.

Lemma scan_rung_wf r : wf_rung r -> wf_rung (snd (plc_evaluate_rung r)).
Proof.
  intros (? & ? & ? & ?). unfold plc_evaluate_rung, wf_rung; simpl.
  split_and!; try done; by apply counted_update.
Qed.

Lemma plc_step_wf p q : wf_program p -> plc_step p q -> wf_program q.
Proof.
  intros [Hc Hr] Hs. destruct Hs as [p|p i Hi|p i r r' Hi Hst|p a v|p a v|p|p|p].
  - unfold plc_add_rung, PLC_MAX_RUNGS. case_match eqn:E; [done|]. split; simpl.
    + destruct Hc as [H1 H2]. unfold counted. rewrite length_insert, u16_small by lia. lia.
    + apply Forall_insert; [done|apply zero_rung_wf].
  - unfold plc_remove_rung. case_match eqn:E; [done|]. split; simpl.
    + destruct Hc as [H1 H2]. unfold counted. rewrite length_shift_loop, u16_small by lia. lia.
    + destruct Hc as [H1 H2]. apply Forall_lookup. intros j x.
      rewrite shift_loop_lookup by lia.
      case_decide; intros Hx; eapply Forall_lookup_1; eauto.
  - split; simpl.
    + destruct Hc. unfold counted. by rewrite length_insert.
    + apply Forall_insert; [done|]. eapply rung_step_wf; [|done]. by eapply Forall_lookup_1.
  - split; simpl; [by apply counted_update|]. apply Forall_update_live; [|done].
    intros r (? & ? & ? & ?). unfold wf_rung; simpl. split_and!; try done. by apply counted_update.
  - split; simpl; [by apply counted_update|]. apply Forall_update_live; [|done].
    intros r (? & ? & ? & ?). unfold wf_rung; simpl. split_and!; try done. by apply counted_update.
  - unfold plc_scan_cycle. case_match; [done|]. split; simpl.
    + by do 2 apply counted_update.
    + apply Forall_update_live; [|apply Forall_update_live; [apply scan_rung_wf|done]].
      intros r (? & ? & ? & ?). unfold wf_rung; simpl. split_and!; try done. by apply counted_update.
  - done.
  - split; [unfold counted; simpl; lia|]. apply (Forall_replicate _ 128), zero_rung_wf.
Qed.

Lemma reachable_wf p : plc_reachable p -> wf_program p.
Proof.
  induction 1 as [|p q _ IH Hs]; [|by eapply plc_step_wf].
  split; [unfold counted; simpl; lia|]. apply (Forall_replicate _ 128), zero_rung_wf.
Qed.

(** ** Properties *)

(** In every program built and run through the API, the rung table refines a
    bounded list: adding appends an empty rung exactly when fewer than 128 are
    live, and removing a live index deletes that rung and keeps the order of the
    others; every array access stays inside its array (all counts are within
    their sizes). *)
Theorem rung_table_refines p i :
  plc_reachable p -> 0 <= i ->
  wf_program p /\
  live_rungs (snd (plc_add_rung p)) =
    (if (length (live_rungs p) <? 128)%nat then live_rungs p ++ [zero_rung] else live_rungs p) /\
  live_rungs (snd (plc_remove_rung p i)) = delete (Z.to_nat i) (live_rungs p) /\
  (fst (plc_remove_rung p i) = true <-> i < Z.of_nat (length (live_rungs p))).
Proof.
  intros Hp Hi. pose proof (reachable_wf p Hp) as Hwf. destruct Hwf as [[Hl Hn] Hr] eqn:E; clear E.
  assert (length (live_rungs p) = Z.to_nat (num_rungs p)) as Hlen
    by (unfold live_rungs; rewrite length_take; lia).
  rewrite Hlen. split; [by apply reachable_wf|]. split_and!.
  - unfold plc_add_rung, PLC_MAX_RUNGS, live_rungs.
    destruct (Z.leb_spec 128 (num_rungs p)), (Nat.ltb_spec (Z.to_nat (num_rungs p)) 128); try lia; [done|].
    simpl. rewrite u16_small by lia.
    replace (Z.to_nat (num_rungs p + 1)) with (S (Z.to_nat (num_rungs p))) by lia.
    rewrite (take_S_r _ _ zero_rung) by (rewrite list_lookup_insert_eq by lia; done).
    by rewrite take_insert_ge by lia.
  - unfold plc_remove_rung, live_rungs. destruct (Z.leb_spec (num_rungs p) i).
    + simpl. symmetry. apply list_delete_oob. rewrite length_take. lia.
    + simpl. rewrite u16_small by lia.
      replace (Z.to_nat (num_rungs p - 1)) with (Z.to_nat (num_rungs p) - 1)%nat by lia.
      replace (Z.to_nat (num_rungs p - 1 - i)) with (Z.to_nat (num_rungs p) - 1 - Z.to_nat i)%nat by lia.
      apply shift_loop_delete; lia.
  - unfold plc_remove_rung. destruct (Z.leb_spec (num_rungs p) i); simpl; [|lia].
    split; [done|lia].
Qed.

Lemma rung_table_refines_witness :
  live_rungs (snd (plc_remove_rung (snd (plc_add_rung plc_init)) 0)) = [].
Proof.
  assert (plc_reachable (snd (plc_add_rung plc_init))) as H
    by (eapply reach_step; [apply reach_init|apply step_add_rung]).
  destruct (rung_table_refines _ 0 H ltac:(lia)) as (_ & _ & H2 & _). exact H2.
Defined.

(** *** Scan cycle *)

Lemma evaluate_power cs b :
  foldl (fun power c => power && plc_evaluate_contact c) b cs =
  b && forallb plc_evaluate_contact cs.
Proof.
  revert b; induction cs as [|c cs IH]; intros b; simpl; [by rewrite andb_true_r|].
  by rewrite IH, andb_assoc.
Qed.

(** The specification of one scanned coil. *)
Definition coil_spec (power : bool) (c : plc_coil_t) : bool :=
  match co_type c with
  | PLC_COIL_OUTPUT | PLC_COIL_INTERNAL => power
  | PLC_COIL_LATCH_SET => co_state c || power
  | PLC_COIL_LATCH_RESET => co_state c && negb power
  end.

Lemma update_coil_spec power c :
  co_state (update_coil power c) = coil_spec power c /\
  co_prev_state (update_coil power c) = co_state c /\
  co_address (update_coil power c) = co_address c /\ co_type (update_coil power c) = co_type c.
Proof. unfold update_coil, coil_spec. by destruct (co_type c), power, (co_state c). Qed.

(** C15: a scan of a fault-free program evaluates every live rung once: its power
    is the conjunction of its contacts, every live coil takes the value its type
    prescribes and remembers its old value, every live timer advances with the
    rung's power as input, every live counter is updated.  Nothing else changes but the phase and
    the scan counter, which advances modulo 2^16: not the fault and its code, the running flag, the times
    and the number of rungs; in a rung not the contacts, the numbers of its parts, the cells
    past them, the name, type and address of a coil; no rung past the live ones.  A faulted program is left alone. *)
Theorem scan_cycle_correct p :
  wf_program p ->
  let p' := plc_scan_cycle p in
  (fault p = true -> p' = p) /\
  (fault p = false ->
    scan_counter p' = u16 (scan_counter p + 1) /\ current_phase p' = PLC_SCAN_HOUSEKEEPING /\
    num_rungs p' = num_rungs p /\ running p' = running p /\ fault p' = fault p /\ fault_code p' = fault_code p /\
    scan_time_us p' = scan_time_us p /\ last_scan_tick p' = last_scan_tick p /\
    length (rungs p') = length (rungs p) /\
    drop (Z.to_nat (num_rungs p)) (rungs p') = drop (Z.to_nat (num_rungs p)) (rungs p) /\
    Forall2 (fun r r' =>
      let power := forallb plc_evaluate_contact (live_contacts r) in
      power_flow r' = power /\ contacts r' = contacts r /\ num_contacts r' = num_contacts r /\
      num_coils r' = num_coils r /\ num_timers r' = num_timers r /\ num_counters r' = num_counters r /\
      Forall2 (fun c c' => co_state c' = coil_spec power c /\ co_prev_state c' = co_state c /\
                           co_address c' = co_address c /\ co_type c' = co_type c /\ co_name c' = co_name c)
        (live_coils r) (live_coils r') /\
      drop (Z.to_nat (num_coils r)) (coils r') = drop (Z.to_nat (num_coils r)) (coils r) /\
      timers r' = ((fun t => plc_update_timer (set_input power t)) <$> take (Z.to_nat (num_timers r)) (timers r)) ++
        drop (Z.to_nat (num_timers r)) (timers r) /\
      counters r' = (plc_update_counter <$> take (Z.to_nat (num_counters r)) (counters r)) ++
        drop (Z.to_nat (num_counters r)) (counters r))
      (live_rungs p) (live_rungs p')).
Proof.
  intros [[Hl Hn] Hr] p'. subst p'. unfold plc_scan_cycle. split; intros Hf; rewrite Hf; [done|].
  cbn [num_rungs scan_counter current_phase rungs set_phase set_rungs plc_update_outputs running fault fault_code scan_time_us last_scan_tick].
  split_and!; [done..|by rewrite !length_update_live|by rewrite !drop_update_live by (rewrite ?length_update_live; lia)|].
  unfold live_rungs at 2. cbn [num_rungs rungs set_phase set_rungs plc_update_outputs].
  rewrite !take_update_live by (rewrite ?length_update_live; lia).
  rewrite <- list_fmap_compose. apply Forall2_fmap_r, Forall_Forall2_diag.
  unfold live_rungs. apply Forall_take. eapply Forall_impl; [exact Hr|].
  intros r ((Hc1 & Hc2) & (Ho1 & Ho2) & (Ht1 & Ht2) & (Hk1 & Hk2)).
  unfold compose, plc_evaluate_rung. cbn beta zeta. rewrite evaluate_power, andb_true_l. simpl.
  split_and!; try done; [|by apply drop_update_live; lia].
  unfold live_coils. simpl. rewrite take_update_live by lia.
  apply Forall2_fmap_r, Forall_Forall2_diag, Forall_true. intros c.
  destruct (update_coil_spec (forallb plc_evaluate_contact (live_contacts r)) c) as (? & ? & ? & ?). done.
Qed.

(** A program with one rung: contact NO at address 1, contact NC at address 2,
    output coil at address 3. *)
Definition demo_rung : plc_rung_t :=
  snd (plc_add_coil (snd (plc_add_contact (snd (plc_add_contact zero_rung [65] PLC_CONTACT_NO 1))
       [66] PLC_CONTACT_NC 2)) [67] PLC_COIL_OUTPUT 3).
Definition demo_program : plc_program_t :=
  plc_write_input
    (let p := snd (plc_add_rung plc_init) in set_rungs p (<[0%nat := demo_rung]> (rungs p)) (num_rungs p))
    1 true.

Lemma demo_program_reachable : plc_reachable demo_program.
Proof.
  unfold demo_program. eapply reach_step; [|apply step_write_input].
  set (p := snd (plc_add_rung plc_init)).
  assert (plc_reachable p) as H0 by (eapply reach_step; [apply reach_init|apply step_add_rung]).
  set (r1 := snd (plc_add_contact zero_rung [65] PLC_CONTACT_NO 1)).
  set (r2 := snd (plc_add_contact r1 [66] PLC_CONTACT_NC 2)).
  assert (forall p r r', plc_reachable p -> rungs p !! 0%nat = Some r -> rung_step r r' ->
    plc_reachable (set_rungs p (<[0%nat := r']> (rungs p)) (num_rungs p))) as Hs
    by (intros; eapply reach_step; [done|by eapply step_rung]).
  pose proof (Hs p zero_rung r1 H0 eq_refl (step_contact _ _ _ _)) as H1.
  pose proof (Hs _ r1 r2 H1 eq_refl (step_contact _ _ _ _)) as H2.
  pose proof (Hs _ r2 demo_rung H2 eq_refl (step_coil _ _ _ _)) as H3.
  exact H3.
Qed.

Lemma scan_cycle_correct_witness :
  plc_read_output (plc_scan_cycle demo_program) 3 = true /\
  scan_counter (plc_scan_cycle demo_program) = u16 (0 + 1).
Proof.
  assert (wf_program demo_program) as H by (apply reachable_wf, demo_program_reachable).
  destruct (scan_cycle_correct demo_program H) as [_ H2].
  destruct (H2 eq_refl) as (H3 & _). split; [vm_compute; reflexivity|exact H3].
Defined.

(** *** Timers *)

Definition run_timer (t : plc_timer_t) (inputs : list bool) : plc_timer_t :=
  foldl (fun t b => plc_update_timer (set_input b t)) t inputs.

(** Length of the run of samples equal to [b] at the end of a history. *)
Fixpoint trailing (b : bool) (rev_inputs : list bool) : Z :=
  match rev_inputs with
  | [] => 0
  | x :: xs => if Bool.eqb x b then 1 + trailing b xs else 0
  end.

Lemma trailing_nonneg b l : 0 <= trailing b l.
Proof. induction l as [|x l IH]; simpl; [lia|]. destruct (Bool.eqb x b); lia. Qed.

Definition fresh_timer (type : plc_timer_type_t) (preset : Z) : plc_timer_t :=
  Timer zero_name type preset 0 false false false 0.

Lemma run_timer_snoc t inputs b :
  run_timer t (inputs ++ [b]) = plc_update_timer (set_input b (run_timer t inputs)).
Proof. unfold run_timer. by rewrite foldl_app. Qed.

Lemma ton_state preset inputs :
  0 <= preset < 4294967286 ->
  let t := run_timer (fresh_timer PLC_TIMER_TON preset) inputs in
  let k := trailing true (rev inputs) in
  tm_type t = PLC_TIMER_TON /\ preset_ms t = preset /\
  accumulated_ms t = Z.min (10 * k) preset /\
  timing t = (0 <? k) /\ tm_done t = (0 <? k) && (preset <=? 10 * k).
Proof.
  intros Hp. induction inputs as [|b inputs IH] using rev_ind; cbn zeta in *.
  - simpl. split_and!; try done. lia.
  - rewrite run_timer_snoc, rev_unit. destruct IH as (Ht & Hpr & Ha & Htm & Hd).
    set (t := run_timer _ _) in *. set (k := trailing true (rev inputs)) in *.
    pose proof (trailing_nonneg true (rev inputs)). cbn [trailing]. fold k in H |- *.
    unfold plc_update_timer, set_timer, set_input, PLC_SCAN_PERIOD_MS. simpl. rewrite Ht. destruct b; simpl.
    + rewrite Htm. destruct (Z.ltb_spec 0 k) as [Hk|Hk]; simpl;
        rewrite ?Hpr, ?Ha, ?u32_small by lia.
      * case_match eqn:E; simpl; split_and!; try done; try lia.
        all: rewrite ?Hd; try (destruct (Z.ltb_spec 0 (1 + k)), (Z.leb_spec preset (10 * (1 + k))), (Z.leb_spec preset (10 * k)), (Z.ltb_spec 0 k); simpl; (done || lia)).
      * case_match eqn:E; simpl; split_and!; try done; try lia.
        all: rewrite ?Hd; try (destruct (Z.ltb_spec 0 (1 + k)), (Z.leb_spec preset (10 * (1 + k))), (Z.leb_spec preset (10 * k)), (Z.ltb_spec 0 k); simpl; (done || lia)).
    + split_and!; try done. lia.
Qed.

(** The off-delay timer, once its input has been on. *)
Lemma tof_state preset inputs :
  0 <= preset < 4294967286 -> In true inputs ->
  let t := run_timer (fresh_timer PLC_TIMER_TOF preset) inputs in
  let k := trailing false (rev inputs) in
  tm_type t = PLC_TIMER_TOF /\ preset_ms t = preset /\
  accumulated_ms t = Z.min (10 * k) preset /\
  timing t = (0 <? k) /\ tm_done t = (k =? 0) || (10 * k <? preset).
Proof.
  intros Hp. induction inputs as [|b inputs IH] using rev_ind; intros Hin; [done|]. cbn zeta in *.
  assert (forall l, ~ In true l -> let t := run_timer (fresh_timer PLC_TIMER_TOF preset) l in
    tm_type t = PLC_TIMER_TOF /\ preset_ms t = preset) as Hty.
  { intros l _. clear. induction l as [|b l IH] using rev_ind; [done|]. rewrite run_timer_snoc.
    destruct IH as [E1 E2]. cbn zeta in *. set (t := run_timer _ l) in *.
    unfold plc_update_timer, set_input. simpl. rewrite E1. by repeat case_match. }
  rewrite run_timer_snoc, rev_unit. cbn [trailing]. destruct b; cbn [Bool.eqb].
  - assert (tm_type (run_timer (fresh_timer PLC_TIMER_TOF preset) inputs) = PLC_TIMER_TOF /\
            preset_ms (run_timer (fresh_timer PLC_TIMER_TOF preset) inputs) = preset) as [Et Ep].
    { destruct (in_dec Bool.bool_dec true inputs) as [Hi|Hi]; [|by apply Hty].
      destruct (IH Hi) as (? & ? & _). done. }
    unfold plc_update_timer, set_input. simpl. rewrite Et. simpl. split_and!; try done. lia.
  - apply in_app_or in Hin as [Hin|[Hin|[]]]; [|done].
    destruct (IH Hin) as (Ht & Hpr & Ha & Htm & Hd). clear IH Hty.
    set (t := run_timer _ _) in *. set (k := trailing false (rev inputs)) in *.
    pose proof (trailing_nonneg false (rev inputs)). fold k in H.
    unfold plc_update_timer, set_timer, set_input, PLC_SCAN_PERIOD_MS. simpl. rewrite Ht. simpl.
    rewrite Htm. destruct (Z.ltb_spec 0 k) as [Hk|Hk]; simpl;
      rewrite ?Hpr, ?Ha, ?u32_small by lia;
      case_match eqn:E; simpl; split_and!; try done; try lia;
      rewrite ?Hd; destruct (Z.eqb_spec (1 + k) 0), (Z.eqb_spec k 0), (Z.ltb_spec (10 * (1 + k)) preset),
        (Z.ltb_spec (10 * k) preset); simpl; (done || lia).
Qed.

(** The on-delay and off-delay timers follow their definition over any input
    history.  TON: done exactly when the input has been on for the last k >= 1
    scans with 10k >= preset, elapsed min(10k, preset).  TOF (once its input has
    been on): done exactly while the input is on or has been off for k scans with
    10k < preset.  Elapsed and remaining time add up to the preset. *)
Theorem delay_timers_correct preset inputs :
  0 <= preset < 4294967286 ->
  let ton := run_timer (fresh_timer PLC_TIMER_TON preset) inputs in
  let tof := run_timer (fresh_timer PLC_TIMER_TOF preset) inputs in
  let on := trailing true (rev inputs) in
  let off := trailing false (rev inputs) in
  tm_done ton = (0 <? on) && (preset <=? 10 * on) /\
  plc_timer_elapsed_ms ton = Z.min (10 * on) preset /\
  plc_timer_elapsed_ms ton + plc_timer_remaining_ms ton = preset /\
  (In true inputs -> tm_done tof = (off =? 0) || (10 * off <? preset) /\
                     plc_timer_elapsed_ms tof = Z.min (10 * off) preset).
Proof.
  intros Hp ton tof on off.
  destruct (ton_state preset inputs Hp) as (_ & Hpr & Ha & _ & Hd).
  pose proof (trailing_nonneg true (rev inputs)).
  split_and!; [exact Hd|exact Ha| |].
  - unfold plc_timer_elapsed_ms, plc_timer_remaining_ms. fold ton in Hpr, Ha. rewrite Hpr, Ha.
    destruct (Z.leb_spec preset (Z.min (10 * trailing true (rev inputs)) preset)); [lia|].
    rewrite u32_small by lia. lia.
  - intros Hin. destruct (tof_state preset inputs Hp Hin) as (_ & _ & Ha' & _ & Hd'). done.
Qed.

Lemma delay_timers_correct_witness :
  tm_done (run_timer (fresh_timer PLC_TIMER_TON 25) [true; false; true; true; true]) = true.
Proof.
  destruct (delay_timers_correct 25 [true; false; true; true; true] ltac:(lia)) as (H & _).
  rewrite H. reflexivity.
Defined.

(** The number of scans a pulse lasts. *)
Definition pulse_scans (preset : Z) : Z := (preset + 9) / 10.

(** One scan of a pulse timer whose input is held on. *)
Lemma tp_step t :
  tm_type t = PLC_TIMER_TP ->
  let a := if timing t then accumulated_ms t else 0 in
  0 <= a < 4294967286 ->
  plc_update_timer (set_input true t) =
    if preset_ms t <=? a + 10
    then Timer (tm_name t) (tm_type t) (preset_ms t) (preset_ms t) false false true (last_tick t)
    else Timer (tm_name t) (tm_type t) (preset_ms t) (a + 10) true
               (if timing t then tm_done t else true) true (last_tick t).
Proof.
  intros Ht a Ha. unfold plc_update_timer, set_input. cbn [input_state tm_type]. rewrite Ht.
  cbn [timing andb negb]. unfold PLC_SCAN_PERIOD_MS. subst a.
  destruct (timing t) eqn:E; cbn [negb]; unfold set_timer;
    cbn [timing accumulated_ms preset_ms tm_done tm_name tm_type input_state last_tick] in *;
    rewrite u32_small by lia; rewrite ?E, ?Ht;
    match goal with |- context [?p <=? ?q] => destruct (p <=? q) end; reflexivity.
Qed.

Lemma succ_mod n N :
  0 < N -> Z.of_nat (S n) mod N = if Z.of_nat n mod N + 1 =? N then 0 else Z.of_nat n mod N + 1.
Proof.
  intros HN. replace (Z.of_nat (S n)) with (Z.of_nat n + 1) by lia.
  rewrite <- Z.add_mod_idemp_l by lia. pose proof (Z.mod_pos_bound (Z.of_nat n) N HN).
  destruct (Z.eqb_spec (Z.of_nat n mod N + 1) N) as [->|]; [apply Z.mod_same; lia|].
  apply Z.mod_small. lia.
Qed.

Lemma pulse_scans_spec preset x : preset <= 10 * x <-> pulse_scans preset <= x.
Proof. unfold pulse_scans; divmod_lia. Qed.

Lemma tp_held_state preset n :
  10 < preset < 4294967286 ->
  let t := run_timer (fresh_timer PLC_TIMER_TP preset) (replicate n true) in
  let r := Z.of_nat n mod pulse_scans preset in
  tm_type t = PLC_TIMER_TP /\ preset_ms t = preset /\
  timing t = negb (r =? 0) /\ (r <> 0 -> accumulated_ms t = 10 * r) /\ tm_done t = negb (r =? 0).
Proof.
  intros Hp. assert (1 < pulse_scans preset) as HN by (unfold pulse_scans; divmod_lia).
  induction n as [|n IH]; cbn zeta in *.
  - change (Z.of_nat 0) with 0. rewrite Z.mod_0_l by lia. done.
  - rewrite replicate_S_end, run_timer_snoc. set (t := run_timer _ _) in *.
    rewrite succ_mod by lia.
    pose proof (pulse_scans_spec preset (Z.of_nat n mod pulse_scans preset + 1)) as HP.
    pose proof (pulse_scans_spec preset (Z.of_nat n mod pulse_scans preset)) as HP0.
    pose proof (Z.mod_pos_bound (Z.of_nat n) (pulse_scans preset) ltac:(lia)) as Hr.
    destruct IH as (Ht & Hpr & Htm & Ha & Hd). clearbody t.
    set (N := pulse_scans preset) in *. set (r := Z.of_nat n mod N) in *. clearbody r N.
    assert ((if timing t then accumulated_ms t else 0) = 10 * r) as Hacc.
    { rewrite Htm. destruct (Z.eqb_spec r 0); simpl; [lia|auto]. }
    rewrite tp_step by (rewrite ?Hacc; (done || lia)). rewrite Hacc, Hpr.
    destruct (Z.leb_spec preset (10 * r + 10)), (Z.eqb_spec (r + 1) N); try lia;
      cbn [tm_type preset_ms timing tm_done accumulated_ms].
    + by split_and!.
    + rewrite (proj2 (Z.eqb_neq (r + 1) 0)) by lia. split_and!; try done; try lia.
      rewrite Htm, Hd. by destruct (r =? 0).
Qed.

(** The pulse timer does not give one pulse per rising edge: with the input
    held on, its output is off exactly at every N-th scan and on otherwise, N =
    ceil(preset / 10), so the pulse repeats for ever; and if the input drops
    during a pulse the output stays on for ever while the input is off. *)
Theorem tp_timer_behaviour preset n m :
  10 < preset < 4294967286 ->
  let held := run_timer (fresh_timer PLC_TIMER_TP preset) (replicate n true) in
  tm_done held = negb (Z.of_nat n mod pulse_scans preset =? 0) /\
  (tm_done held = true ->
   Z.of_nat n mod pulse_scans preset < pulse_scans preset - 1 ->
   tm_done (run_timer held (replicate m false)) = true).
Proof.
  intros Hp held. destruct (tp_held_state preset n Hp) as (Ht & Hpr & Htm & Ha & Hd).
  fold held in Ht, Hpr, Htm, Ha, Hd. set (r := Z.of_nat n mod pulse_scans preset) in *.
  split; [done|]. intros Hon Hr.
  assert (0 <= r) by (apply Z.mod_pos_bound; unfold pulse_scans; divmod_lia).
  rewrite Hd in Hon. destruct (Z.eqb_spec r 0); [done|]. specialize (Ha n0).
  assert (10 * r + 10 < preset) as Hlt by (unfold pulse_scans in Hr; divmod_lia).
  assert (forall m, let t := run_timer held (replicate m false) in
    tm_type t = PLC_TIMER_TP /\ tm_done t = true /\ (timing t = true -> t = held)) as H0.
  { intros k. induction k as [|k (H1 & H2 & H3)]; cbn zeta in *; [done|].
    rewrite replicate_S_end, run_timer_snoc. set (t := run_timer held _) in *.
    unfold plc_update_timer, set_timer, set_input, PLC_SCAN_PERIOD_MS. simpl. rewrite H1. simpl.
    destruct (timing t) eqn:E; simpl; [|split_and!; done].
    specialize (H3 eq_refl). rewrite H3, Ha, Hpr, u32_small by lia.
    destruct (Z.leb_spec preset (10 * r + 10)); [lia|]. simpl. rewrite <- H3. split_and!; done. }
  apply H0.
Qed.

Lemma tp_timer_behaviour_witness :
  tm_done (run_timer (fresh_timer PLC_TIMER_TP 30) (replicate 3 true)) = false /\
  tm_done (run_timer (fresh_timer PLC_TIMER_TP 30) (replicate 4 true)) = true /\
  tm_done (run_timer (run_timer (fresh_timer PLC_TIMER_TP 30) (replicate 1 true)) (replicate 1000 false)) = true.
Proof.
  split_and!.
  - destruct (tp_timer_behaviour 30 3 0 ltac:(lia)) as [H _]. rewrite H. reflexivity.
  - destruct (tp_timer_behaviour 30 4 0 ltac:(lia)) as [H _]. rewrite H. reflexivity.
  - destruct (tp_timer_behaviour 30 1 1000 ltac:(lia)) as [_ H]. apply H; vm_compute; reflexivity.
Defined.

(** *** Counters *)

Definition set_count_inputs (s : bool * bool) (c : plc_counter_t) : plc_counter_t :=
  Counter (cn_name c) (cn_type c) (preset c) (accumulated c) (cn_done c) (overflow c) (underflow c)
          s.1 s.2 (prev_cu c) (prev_cd c).

Definition run_counter (c : plc_counter_t) (samples : list (bool * bool)) : plc_counter_t :=
  foldl (fun c s => plc_update_counter (set_count_inputs s c)) c samples.

(** Rising edges of a signal that starts low. *)
Fixpoint edges (prev : bool) (l : list bool) : Z :=
  match l with
  | [] => 0
  | x :: xs => (if x && negb prev then 1 else 0) + edges x xs
  end.

Definition fresh_counter (type : plc_counter_type_t) (p : Z) : plc_counter_t :=
  Counter zero_name type p 0 false false false false false false false.

Lemma last_cons_default {A} (x d : A) l : List.last (x :: l) d = List.last l x.
Proof. revert x d. induction l as [|y l IH]; intros x d; [done|]. cbn [List.last] in *. by destruct l. Qed.

Lemma edges_snoc prev l x :
  edges prev (l ++ [x]) = edges prev l + (if x && negb (List.last l prev) then 1 else 0).
Proof.
  revert prev. induction l as [|y l IH]; intros prev; [simpl; lia|].
  cbn [app edges]. rewrite IH, last_cons_default. lia.
Qed.

Lemma edges_nonneg prev l : 0 <= edges prev l.
Proof. revert prev. induction l as [|x l IH]; intros prev; simpl; [lia|]. specialize (IH x). case_match; lia. Qed.

Lemma run_counter_snoc c l s :
  run_counter c (l ++ [s]) = plc_update_counter (set_count_inputs s (run_counter c l)).
Proof. unfold run_counter. by rewrite foldl_app. Qed.

Lemma ctu_state p samples :
  let c := run_counter (fresh_counter PLC_COUNTER_CTU p) samples in
  let n := edges false samples.*1 in
  cn_type c = PLC_COUNTER_CTU /\ preset c = p /\ prev_cu c = List.last samples.*1 false /\
  accumulated c = Z.min n 65535 /\ overflow c = (65535 <? n) /\
  (samples <> [] -> cn_done c = (p <=? Z.min n 65535)).
Proof.
  induction samples as [|[u d] samples IH] using rev_ind; cbn zeta in *; [done|].
  rewrite run_counter_snoc, fmap_app. set (c := run_counter _ _) in *.
  destruct IH as (Ht & Hp & Hprev & Ha & Ho & _). simpl. rewrite edges_snoc, List.last_last.
  pose proof (edges_nonneg false samples.*1). set (n := edges false samples.*1) in *.
  unfold plc_update_counter, set_count_inputs. simpl. rewrite Ht, Hprev.
  unfold count_up, UINT16_MAX. simpl. rewrite Ho, Ha.
  destruct (u && negb (List.last samples.*1 false)); simpl.
  - destruct (Z.ltb_spec 65535 n); simpl; [|destruct (Z.ltb_spec (Z.min n 65535) 65535)];
      simpl; rewrite ?u16_small by lia; rewrite ?Hp, ?Ho, ?Ha;
      (split_and!; try done; try lia; intros; f_equal; lia).
  - rewrite ?Hp, ?Ho, ?Ha. replace (n + 0) with n by lia. split_and!; done.
Qed.

(** Over any sequence of input samples an up-counter holds the number of
    rising edges of its input, saturated at 65535 with the overflow flag set
    beyond, and is done exactly when that count reaches its preset; a
    down-counter, whose preset nothing ever loads, stays at 0 and done. *)
Theorem counters_correct p samples :
  let up := run_counter (fresh_counter PLC_COUNTER_CTU p) samples in
  let down := run_counter (fresh_counter PLC_COUNTER_CTD p) samples in
  let n := edges false samples.*1 in
  plc_counter_value up = Z.min n 65535 /\ overflow up = (65535 <? n) /\
  (samples <> [] -> plc_counter_done up = (p <=? Z.min n 65535) /\
                    plc_counter_value down = 0 /\ plc_counter_done down = true).
Proof.
  intros up down n. destruct (ctu_state p samples) as (_ & _ & _ & Ha & Ho & Hd).
  split_and!; [done..|]. intros Hs. split; [by apply Hd|].
  assert (cn_type down = PLC_COUNTER_CTD /\ accumulated down = 0 /\
          (samples <> [] -> cn_done down = true)) as (_ & H1 & H2); [|auto].
  subst down. clear. induction samples as [|[u d] samples IH] using rev_ind; [done|].
  rewrite run_counter_snoc. set (c := run_counter _ _) in *. destruct IH as (Ht & Hz & _).
  unfold plc_update_counter, set_count_inputs, count_down. simpl. rewrite Ht, Hz.
  destruct (d && negb (prev_cd c)), (underflow c); simpl; rewrite ?Hz; split_and!; done.
Qed.

Lemma counters_correct_witness :
  plc_counter_value (run_counter (fresh_counter PLC_COUNTER_CTU 2)
    [(true, false); (true, false); (false, false); (true, false)]) = 2.
Proof.
  destruct (counters_correct 2 [(true, false); (true, false); (false, false); (true, false)]) as (H & _).
  exact H.
Defined.

(** *** Input image *)

Lemma find_contact_write cs a v b :
  find_contact (write_contact a v <$> cs) b =
  if a =? b then (if existsb (fun c => ct_address c =? b) cs then Some v else None) else find_contact cs b.
Proof.
  induction cs as [|c cs IH]; [simpl; by case_match|]. rewrite fmap_cons. cbn [find_contact existsb].
  rewrite IH. unfold write_contact.
  destruct (Z.eqb_spec (ct_address c) a), (Z.eqb_spec a b), (Z.eqb_spec (ct_address c) b);
    cbn [ct_address ct_state orb]; subst; try done; try lia.
  all: rewrite ?Z.eqb_refl, ?(proj2 (Z.eqb_neq (ct_address c) b)) by lia; done.
Qed.

Lemma live_contacts_write r a v :
  wf_rung r ->
  live_contacts (set_contacts r (update_live (Z.to_nat (num_contacts r)) (write_contact a v)
                                             (contacts r))) =
  write_contact a v <$> live_contacts r.
Proof.
  intros ((Hc1 & Hc2) & _). unfold live_contacts. cbn [num_contacts contacts set_contacts].
  apply take_update_live. lia.
Qed.

Definition has_contact (p : plc_program_t) (a : Z) : bool :=
  existsb (fun r => existsb (fun c => ct_address c =? a) (live_contacts r)) (live_rungs p).

(** Writing an input address and reading it back gives the written value
    exactly when some live contact has that address, and leaves the value read
    at every other address unchanged. *)
Theorem write_input_read p a v b :
  wf_program p ->
  plc_read_input (plc_write_input p a v) b =
  if a =? b then has_contact p b && v else plc_read_input p b.
Proof.
  intros [[Hl Hn] Hr]. unfold plc_read_input, plc_write_input, has_contact, live_rungs at 1.
  cbn [num_rungs rungs set_rungs]. rewrite take_update_live by lia. fold (live_rungs p).
  assert (Forall wf_rung (live_rungs p)) as Hw by (by apply Forall_take).
  induction Hw as [|r rs Hwr _ IH]; cbn [fmap list_fmap read_input_loop existsb]; [by case_match|].
  rewrite live_contacts_write by done. rewrite find_contact_write, IH.
  destruct (Z.eqb_spec a b) as [->|]; [|done]. by destruct (existsb _ (live_contacts r)).
Qed.

Lemma write_input_read_witness :
  plc_read_input (plc_write_input demo_program 2 true) 2 = true.
Proof.
  rewrite (write_input_read demo_program 2 true 2 (reachable_wf _ demo_program_reachable)).
  vm_compute. reflexivity.
Defined.
