(* ===== verification/SafetyPlc.v ===== *)
(** * Safety controller (mini-industrial-control/src/safety_plc.c)

    Dual-channel inputs with discrepancy detection, latched safety functions
    (emergency stop, door interlock, light curtain), the two-hand control and the safe
    outputs.  A fixed-size array of the C structure is a list of that size with its count
    beside it; a pointer argument is an [option], [None] being NULL. *)
From S2P Require Import Prelude.

Definition SAFETY_MAX_CHANNELS : Z := 64.
Definition SAFETY_MAX_FUNCTIONS : Z := 32.
Definition SAFETY_MAX_SAFE_OUTPUTS : Z := 32.
Definition SAFETY_MAX_NAME_LEN : nat := 32.
Definition SAFETY_DISCREPANCY_MS : Z := 100.

Inductive safety_function_type_t :=
  SAFETY_FUNC_ESTOP | SAFETY_FUNC_DOOR_INTERLOCK | SAFETY_FUNC_LIGHT_CURTAIN | SAFETY_FUNC_TWO_HAND
| SAFETY_FUNC_ZERO_SPEED | SAFETY_FUNC_OVERSPEED | SAFETY_FUNC_SAFE_TORQUE | SAFETY_FUNC_SAFE_POSITION.
#[export] Instance safety_function_type_eq_dec : EqDecision safety_function_type_t.
Proof. solve_decision. Defined.

Inductive safety_comm_protocol_t := SAFETY_PROFISAFE | SAFETY_CIP_SAFETY | SAFETY_FAILSAFE_IO | SAFETY_SAFE_ETHERCAT.

Record safety_dual_channel_t := DualChannel {
  channel_id : Z; input_a : bool; input_b : bool; prev_input_a : bool; prev_input_b : bool;
  discrepancy_timer_ms : Z; discrepancy_alarm : bool; ch_healthy : bool; last_change_tick : Z }.

(** [sil_level] is the integer value of the C enumeration (1 to 4, or the 0 of [memset]). *)
Record safety_function_t := SafetyFunction {
  sf_name : list Z; sf_type : safety_function_type_t; sil_level : Z; active : bool; tripped : bool;
  sf_healthy : bool; reset_required : Z; diagnostic_code : Z; last_trip_time_ms : Z; last_reset_time_ms : Z }.

Record safety_two_hand_t := TwoHand {
  button_left : bool; button_right : bool; prev_left : bool; prev_right : bool;
  max_time_between_ms : Z; timer_ms : Z; th_output : bool; valid_sequence : bool }.

Record safety_controller_t := Controller {
  channels : list safety_dual_channel_t; num_channels : Z;
  functions : list safety_function_t; num_functions : Z;
  safe_outputs : list bool; num_safe_outputs : Z;
  comm_protocol : safety_comm_protocol_t; estop_active : bool; maintenance_mode : bool;
  uptime_ms : Z; total_fault_count : Z; total_trip_count : Z; system_healthy : bool }.

Definition zero_channel : safety_dual_channel_t := DualChannel 0 false false false false 0 false false 0.
Definition zero_function : safety_function_t :=
  SafetyFunction (replicate SAFETY_MAX_NAME_LEN 0) SAFETY_FUNC_ESTOP 0 false false false 0 0 0 0.

Section setters.
Context (sc : safety_controller_t).
Definition set_channels (cs : list safety_dual_channel_t) (n : Z) : safety_controller_t :=
  Controller cs n (functions sc) (num_functions sc) (safe_outputs sc) (num_safe_outputs sc) (comm_protocol sc)
    (estop_active sc) (maintenance_mode sc) (uptime_ms sc) (total_fault_count sc) (total_trip_count sc) (system_healthy sc).
Definition set_functions (fs : list safety_function_t) (n : Z) : safety_controller_t :=
  Controller (channels sc) (num_channels sc) fs n (safe_outputs sc) (num_safe_outputs sc) (comm_protocol sc)
    (estop_active sc) (maintenance_mode sc) (uptime_ms sc) (total_fault_count sc) (total_trip_count sc) (system_healthy sc).
Definition set_outputs (os : list bool) : safety_controller_t :=
  Controller (channels sc) (num_channels sc) (functions sc) (num_functions sc) os (num_safe_outputs sc) (comm_protocol sc)
    (estop_active sc) (maintenance_mode sc) (uptime_ms sc) (total_fault_count sc) (total_trip_count sc) (system_healthy sc).
Definition set_estop_active (b : bool) : safety_controller_t :=
  Controller (channels sc) (num_channels sc) (functions sc) (num_functions sc) (safe_outputs sc) (num_safe_outputs sc) (comm_protocol sc)
    b (maintenance_mode sc) (uptime_ms sc) (total_fault_count sc) (total_trip_count sc) (system_healthy sc).
Definition set_trip_count (n : Z) : safety_controller_t :=
  Controller (channels sc) (num_channels sc) (functions sc) (num_functions sc) (safe_outputs sc) (num_safe_outputs sc) (comm_protocol sc)
    (estop_active sc) (maintenance_mode sc) (uptime_ms sc) (total_fault_count sc) n (system_healthy sc).
End setters.

Definition set_active (b : bool) (f : safety_function_t) : safety_function_t :=
  SafetyFunction (sf_name f) (sf_type f) (sil_level f) b (tripped f) (sf_healthy f) (reset_required f)
    (diagnostic_code f) (last_trip_time_ms f) (last_reset_time_ms f).
Definition trip (time_ms : Z) (f : safety_function_t) : safety_function_t :=
  SafetyFunction (sf_name f) (sf_type f) (sil_level f) (active f) true (sf_healthy f) (reset_required f)
    (diagnostic_code f) time_ms (last_reset_time_ms f).
Definition reset (time_ms : Z) (f : safety_function_t) : safety_function_t :=
  SafetyFunction (sf_name f) (sf_type f) (sil_level f) (active f) false (sf_healthy f) 0
    (diagnostic_code f) (last_trip_time_ms f) time_ms.

(** [memset], then the two fields that are not zero. *)
Definition safety_init : safety_controller_t :=
  Controller (replicate 64 zero_channel) 0 (replicate 32 zero_function) 0 (replicate 32 false) 0
    SAFETY_FAILSAFE_IO false false 0 0 0 true.

Definition live_channels (sc : safety_controller_t) : list safety_dual_channel_t :=
  take (Z.to_nat (num_channels sc)) (channels sc).
Definition live_functions (sc : safety_controller_t) : list safety_function_t :=
  take (Z.to_nat (num_functions sc)) (functions sc).

(** A loop over the live functions that updates those of type [ty]. *)
Definition each_of_type (ty : safety_function_type_t) (f : safety_function_t -> safety_function_t)
    (sc : safety_controller_t) : safety_controller_t :=
  set_functions sc
    (update_live (Z.to_nat (num_functions sc)) (fun x => if decide (sf_type x = ty) then f x else x) (functions sc))
    (num_functions sc).

(** [for (j = 0; j < num_safe_outputs; j++) safe_outputs[j] = false;] *)
Definition outputs_off (sc : safety_controller_t) : safety_controller_t :=
  set_outputs sc (update_live (Z.to_nat (num_safe_outputs sc)) (fun _ => false) (safe_outputs sc)).

(** ** Dual channels *)

Definition safety_add_dual_channel (sc : option safety_controller_t) : Z * option safety_controller_t :=
  match sc with
  | None => (0, None)
  | Some c =>
      if SAFETY_MAX_CHANNELS <=? num_channels c then (0, sc)
      else
        let id := u16 (num_channels c + 1) in
        let ch := DualChannel id false false false false 0 false true 0 in
        (id, Some (set_channels c (<[Z.to_nat (num_channels c) := ch]> (channels c)) (u16 (num_channels c + 1))))
  end.

Definition safety_remove_channel (sc : option safety_controller_t) (id : Z) : bool * option safety_controller_t :=
  match sc with
  | None => (false, None)
  | Some c =>
      if id =? 0 then (false, sc)
      else
        match list_find (fun ch => channel_id ch = id) (live_channels c) with
        | Some (i, _) =>
            (true, Some (set_channels c (shift_loop (Z.to_nat (num_channels c) - 1 - i) i (channels c)) (u16 (num_channels c - 1))))
        | None => (false, sc)
        end
  end.

Definition update_channel (a b : bool) (now : Z) (ch : safety_dual_channel_t) : safety_dual_channel_t :=
  let timer :=
    if negb (Bool.eqb a b) then (if discrepancy_timer_ms ch =? 0 then now else discrepancy_timer_ms ch)
    else 0 in
  DualChannel (channel_id ch) a b (input_a ch) (input_b ch) timer (discrepancy_alarm ch) (ch_healthy ch) now.

Definition safety_update_channel_inputs (sc : option safety_controller_t) (id : Z) (a b : bool) (now : Z) : option safety_controller_t :=
  (fun c => set_channels c
     (update_live (Z.to_nat (num_channels c)) (fun ch => if channel_id ch =? id then update_channel a b now ch else ch) (channels c))
     (num_channels c)) <$> sc.

Definition safety_is_channel_healthy (sc : option safety_controller_t) (id : Z) : bool :=
  match sc with
  | None => false
  | Some c => match list_find (fun ch => channel_id ch = id) (live_channels c) with
              | Some (_, ch) => ch_healthy ch
              | None => false
              end
  end.

Definition set_alarm (ch : safety_dual_channel_t) : safety_dual_channel_t :=
  DualChannel (channel_id ch) (input_a ch) (input_b ch) (prev_input_a ch) (prev_input_b ch) (discrepancy_timer_ms ch) true false (last_change_tick ch).

(** The condition under which the loop stops and raises the alarm. *)
Definition discrepant (id now : Z) (ch : safety_dual_channel_t) : bool :=
  (channel_id ch =? id) && (0 <? discrepancy_timer_ms ch) && (SAFETY_DISCREPANCY_MS <? now -32 discrepancy_timer_ms ch).

Definition safety_check_discrepancy (sc : option safety_controller_t) (id now : Z) : bool * option safety_controller_t :=
  match sc with
  | None => (false, None)
  | Some c =>
      match list_find (fun ch => discrepant id now ch) (live_channels c) with
      | Some (i, ch) => (true, Some (set_channels c (<[i := set_alarm ch]> (channels c)) (num_channels c)))
      | None => (false, sc)
      end
  end.

(** ** Safety functions *)

Definition safety_add_function (sc : option safety_controller_t) (name : option (list Z)) (type : safety_function_type_t) (sil : Z) :
    Z * option safety_controller_t :=
  match sc, name with
  | Some c, Some name =>
      if SAFETY_MAX_FUNCTIONS <=? num_functions c then (0, sc)
      else
        let sf := SafetyFunction (cstr_copy SAFETY_MAX_NAME_LEN name) type sil false false true 0 0 0 0 in
        let n := u16 (num_functions c + 1) in
        (n, Some (set_functions c (<[Z.to_nat (num_functions c) := sf]> (functions c)) n))
  | _, _ => (0, sc)
  end.

Definition safety_remove_function (sc : option safety_controller_t) (func_id : Z) : bool * option safety_controller_t :=
  match sc with
  | None => (false, None)
  | Some c =>
      if (func_id =? 0) || (num_functions c <? func_id) then (false, sc)
      else
        let i := Z.to_nat (func_id - 1) in
        (true, Some (set_functions c (shift_loop (Z.to_nat (num_functions c) - 1 - i) i (functions c)) (u16 (num_functions c - 1))))
  end.

Definition safety_estop_trigger (sc : option safety_controller_t) (time_ms : Z) : option safety_controller_t :=
  (fun c =>
     let c := set_estop_active c true in
     let c := set_trip_count c (total_trip_count c +32 1) in
     let c := each_of_type SAFETY_FUNC_ESTOP (trip time_ms) c in
     outputs_off c) <$> sc.

Definition safety_estop_release (sc : option safety_controller_t) : option safety_controller_t :=
  (fun c => each_of_type SAFETY_FUNC_ESTOP (set_active true) (set_estop_active c false)) <$> sc.

Definition safety_estop_is_active (sc : option safety_controller_t) : bool :=
  match sc with Some c => estop_active c | None => false end.

(** The loop of the door interlock and of the light curtain: not [ok] trips each function of
    the type and counts it, [ok] makes it active. *)
Definition guard_loop (ty : safety_function_type_t) (ok : bool) (time_ms : Z) (c : safety_controller_t) : safety_controller_t :=
  if negb ok then
    let n := length (filter (fun f => sf_type f = ty) (live_functions c)) in
    set_trip_count (each_of_type ty (trip time_ms) c) (Nat.iter n (fun x => x +32 1) (total_trip_count c))
  else each_of_type ty (set_active true) c.

(** Whether the first function of the type is not tripped; true without one. *)
Definition guard_ok (ty : safety_function_type_t) (sc : option safety_controller_t) : bool :=
  match sc with
  | None => true
  | Some c => match list_find (fun f => sf_type f = ty) (live_functions c) with
              | Some (_, f) => negb (tripped f)
              | None => true
              end
  end.

Definition safety_door_interlock (sc : option safety_controller_t) (door_closed : bool) (time_ms : Z) : option safety_controller_t :=
  guard_loop SAFETY_FUNC_DOOR_INTERLOCK door_closed time_ms <$> sc.
Definition safety_door_is_closed (sc : option safety_controller_t) : bool := guard_ok SAFETY_FUNC_DOOR_INTERLOCK sc.
Definition safety_light_curtain (sc : option safety_controller_t) (clear : bool) (time_ms : Z) : option safety_controller_t :=
  guard_loop SAFETY_FUNC_LIGHT_CURTAIN clear time_ms <$> sc.
Definition safety_light_curtain_is_clear (sc : option safety_controller_t) : bool := guard_ok SAFETY_FUNC_LIGHT_CURTAIN sc.

Definition safety_reset_function (sc : option safety_controller_t) (func_id time_ms : Z) : option safety_controller_t :=
  (fun c =>
     if (func_id =? 0) || (num_functions c <? func_id) then c
     else set_functions c (alter (reset time_ms) (Z.to_nat (func_id - 1)) (functions c)) (num_functions c)) <$> sc.

Definition safety_reset_all_functions (sc : option safety_controller_t) (time_ms : Z) : option safety_controller_t :=
  (fun c => set_functions c (update_live (Z.to_nat (num_functions c)) (reset time_ms) (functions c)) (num_functions c)) <$> sc.

(** ** Outputs, health and diagnostics *)

Definition safety_set_output (sc : option safety_controller_t) (output_id : Z) (state : bool) : option safety_controller_t :=
  (fun c => if SAFETY_MAX_SAFE_OUTPUTS <=? output_id then c
            else set_outputs c (<[Z.to_nat output_id := state]> (safe_outputs c))) <$> sc.

Definition safety_get_output (sc : option safety_controller_t) (output_id : Z) : bool :=
  match sc with
  | None => false
  | Some c => if SAFETY_MAX_SAFE_OUTPUTS <=? output_id then false else safe_outputs c !!! Z.to_nat output_id
  end.

Definition safety_evaluate (sc : option safety_controller_t) (current_time_ms : Z) : option safety_controller_t :=
  (fun c => foldl (fun c f => if tripped f then outputs_off c else c) c (live_functions c)) <$> sc.

Definition safety_system_healthy (sc : option safety_controller_t) : bool :=
  match sc with
  | None => false
  | Some c => forallb ch_healthy (live_channels c) && forallb sf_healthy (live_functions c) && system_healthy c
  end.

Definition safety_sil_verify (required_sil channel_mttfd_hours : Z) : bool :=
  match required_sil with
  | 1 => 1000 <=? channel_mttfd_hours
  | 2 => 5000 <=? channel_mttfd_hours
  | 3 => 20000 <=? channel_mttfd_hours
  | 4 => 50000 <=? channel_mttfd_hours
  | _ => false
  end.

Definition safety_sil_string (sil : Z) : string :=
  match sil with 1 => "SIL1" | 2 => "SIL2" | 3 => "SIL3" | 4 => "SIL4" | _ => "Unknown" end%string.

Definition safety_function_string (type : safety_function_type_t) : string :=
  match type with
  | SAFETY_FUNC_ESTOP => "E-Stop"
  | SAFETY_FUNC_DOOR_INTERLOCK => "Door Interlock"
  | SAFETY_FUNC_LIGHT_CURTAIN => "Light Curtain"
  | SAFETY_FUNC_TWO_HAND => "Two-Hand Control"
  | SAFETY_FUNC_ZERO_SPEED => "Zero Speed"
  | SAFETY_FUNC_OVERSPEED => "Overspeed"
  | SAFETY_FUNC_SAFE_TORQUE => "Safe Torque Off"
  | SAFETY_FUNC_SAFE_POSITION => "Safe Position"
  end%string.

Definition safety_get_total_faults (sc : option safety_controller_t) : Z :=
  match sc with Some c => total_fault_count c | None => 0 end.
Definition safety_get_total_trips (sc : option safety_controller_t) : Z :=
  match sc with Some c => total_trip_count c | None => 0 end.

(** ** Two-hand control *)

Definition safety_two_hand_init (th : option safety_two_hand_t) (max_time_ms : Z) : option safety_two_hand_t :=
  (fun _ => TwoHand false false false false max_time_ms 0 false false) <$> th.

Definition two_hand_step (left right : bool) (now : Z) (th : safety_two_hand_t) : safety_two_hand_t :=
  let pl := button_left th in
  let pr := button_right th in
  let left_rising := left && negb pl in
  let right_rising := right && negb pr in
  let '(valid, output, timer) :=
    if left_rising && right_rising then (true, true, now)
    else if left_rising then (true, th_output th, now)
    else if right_rising then
      if valid_sequence th then
        (true, (if now -32 timer_ms th <=? max_time_between_ms th then true else th_output th), timer_ms th)
      else (false, th_output th, timer_ms th)
    else (valid_sequence th, th_output th, timer_ms th) in
  if negb left || negb right
  then TwoHand left right pl pr (max_time_between_ms th) timer false false
  else TwoHand left right pl pr (max_time_between_ms th) timer output valid.

Definition safety_two_hand_update (th : option safety_two_hand_t) (left right : bool) (now : Z) : option safety_two_hand_t :=
  two_hand_step left right now <$> th.

Definition safety_two_hand_output (th : option safety_two_hand_t) : bool :=
  match th with Some th => th_output th | None => false end.

(** ** Sequences of calls *)

Inductive safety_call :=
| AddChannel | RemoveChannel (id : Z) | UpdateInputs (id : Z) (a b : bool) (now : Z) | CheckDiscrepancy (id now : Z)
| AddFunction (name : option (list Z)) (type : safety_function_type_t) (sil : Z) | RemoveFunction (func_id : Z)
| EstopTrigger (time_ms : Z) | EstopRelease | Door (closed : bool) (time_ms : Z) | Curtain (clear : bool) (time_ms : Z)
| SetOutput (output_id : Z) (state : bool) | Evaluate (time_ms : Z)
| ResetFunction (func_id time_ms : Z) | ResetAll (time_ms : Z).

Definition exec (k : safety_call) (sc : option safety_controller_t) : option safety_controller_t :=
  match k with
  | AddChannel => snd (safety_add_dual_channel sc)
  | RemoveChannel id => snd (safety_remove_channel sc id)
  | UpdateInputs id a b now => safety_update_channel_inputs sc id a b now
  | CheckDiscrepancy id now => snd (safety_check_discrepancy sc id now)
  | AddFunction name type sil => snd (safety_add_function sc name type sil)
  | RemoveFunction id => snd (safety_remove_function sc id)
  | EstopTrigger t => safety_estop_trigger sc t
  | EstopRelease => safety_estop_release sc
  | Door closed t => safety_door_interlock sc closed t
  | Curtain clear t => safety_light_curtain sc clear t
  | SetOutput i b => safety_set_output sc i b
  | Evaluate t => safety_evaluate sc t
  | ResetFunction id t => safety_reset_function sc id t
  | ResetAll t => safety_reset_all_functions sc t
  end.

Definition run (ks : list safety_call) (sc : option safety_controller_t) : option safety_controller_t :=
  foldl (fun sc k => exec k sc) sc ks.

(** The arguments are unsigned. *)
Definition call_typed (k : safety_call) : Prop :=
  match k with SetOutput i _ => 0 <= i | RemoveFunction id | ResetFunction id _ => 0 <= id | _ => True end.

(** The counts stay within the arrays; no call changes [num_safe_outputs]. *)
Record wf (c : safety_controller_t) : Prop := {
  wf_channels : length (channels c) = 64%nat;
  wf_num_channels : 0 <= num_channels c <= 64;
  wf_functions : length (functions c) = 32%nat;
  wf_num_functions : 0 <= num_functions c <= 32;
  wf_outputs : length (safe_outputs c) = 32%nat;
  wf_num_outputs : num_safe_outputs c = 0 }.

Lemma outputs_off_id c : num_safe_outputs c = 0 -> outputs_off c = c.
Proof. intros H. unfold outputs_off. rewrite H. destruct c. unfold update_live. cbn. by rewrite drop_0. Qed.

Lemma evaluate_id c (fs : list safety_function_t) :
  num_safe_outputs c = 0 -> foldl (fun c f => if tripped f then outputs_off c else c) c fs = c.
Proof. intros H. induction fs as [|f fs IH]; cbn; [done|]. destruct (tripped f); [rewrite outputs_off_id by done|]; apply IH. Qed.

(** What a call does to the safe outputs. *)
Definition request (k : safety_call) (i : Z) (b : bool) : bool :=
  match k with SetOutput j st => if j =? i then st else b | _ => b end.

Lemma exec_wf k c :
  wf c -> call_typed k -> exists c', exec k (Some c) = Some c' /\ wf c' /\
    (forall i, 0 <= i < 32 -> safe_outputs c' !!! Z.to_nat i = request k i (safe_outputs c !!! Z.to_nat i)).
Proof.
  intros Hw Hk. pose proof Hw as [H1 H2 H3 H4 H5 H6].
  assert (forall cs n, length cs = 64%nat -> 0 <= n <= 64 -> wf (set_channels c cs n)) as Wc by (intros; split; cbn; done).
  assert (forall fs n, length fs = 32%nat -> 0 <= n <= 32 -> wf (set_functions c fs n)) as Wf by (intros; split; cbn; done).
  destruct k; cbn [exec request call_typed] in *.
  - unfold safety_add_dual_channel, SAFETY_MAX_CHANNELS. case_test; eexists; (split; [reflexivity|split; [|done]]); [done|].
    apply Wc; [by rewrite length_insert|rewrite u16_small; lia].
  - unfold safety_remove_channel. case_test; [by eexists|]. destruct (list_find _ _) as [[i ch]|] eqn:E; [|by eexists].
    apply list_find_Some in E as (E & _ & _). apply lookup_lt_Some in E. unfold live_channels in E. rewrite length_take in E.
    eexists. split; [reflexivity|split; [|done]]. apply Wc; [by rewrite length_shift_loop|rewrite u16_small; lia].
  - eexists. split; [reflexivity|split; [|done]]. apply Wc; [by rewrite length_update_live|done].
  - unfold safety_check_discrepancy. destruct (list_find _ _) as [[i ch]|]; [|by eexists].
    eexists. split; [reflexivity|split; [|done]]. apply Wc; [by rewrite length_insert|done].
  - unfold safety_add_function, SAFETY_MAX_FUNCTIONS. destruct name; [|by eexists].
    case_test; eexists; (split; [reflexivity|split; [|done]]); [done|].
    apply Wf; [by rewrite length_insert|rewrite u16_small; lia].
  - unfold safety_remove_function. destruct (_ || _) eqn:E; [by eexists|]. apply orb_false_iff in E as [E1%Z.eqb_neq E2%Z.ltb_ge].
    eexists. split; [reflexivity|split; [|done]]. apply Wf; [by rewrite length_shift_loop|rewrite u16_small; lia].
  - eexists. split; [reflexivity|]. rewrite outputs_off_id by done. split; [|done]. split; cbn; try done. by rewrite length_update_live.
  - eexists. split; [reflexivity|]. split; [|done]. split; cbn; try done. by rewrite length_update_live.
  - eexists. split; [reflexivity|]. unfold guard_loop. destruct closed; cbn [negb]; (split; [|done]);
      (split; cbn; try done; by rewrite length_update_live).
  - eexists. split; [reflexivity|]. unfold guard_loop. destruct clear; cbn [negb]; (split; [|done]);
      (split; cbn; try done; by rewrite length_update_live).
  - unfold safety_set_output, SAFETY_MAX_SAFE_OUTPUTS. cbn in Hk |- *. destruct (Z.leb_spec 32 output_id) as [Ho|Ho].
    + eexists. split; [reflexivity|split; [done|]]. intros i Hi. by rewrite (proj2 (Z.eqb_neq output_id i)) by lia.
    + eexists. split; [reflexivity|split]; [split; cbn; try done; by rewrite length_insert|]. intros i Hi. cbn.
      destruct (Z.eqb_spec output_id i) as [->|Hn]; [apply list_lookup_total_insert_eq; lia|].
      rewrite list_lookup_total_insert_ne by lia. done.
  - eexists. split; [cbn; by rewrite evaluate_id|done].
  - eexists. split; [reflexivity|]. case_match; (split; [|done]); [done|]. apply Wf; [by rewrite length_alter|done].
  - eexists. split; [reflexivity|split; [|done]]. apply Wf; [by rewrite length_update_live|done].
Qed.

Lemma init_wf : wf safety_init.
Proof. split; vm_compute; try done. all: split; discriminate. Qed.

Lemma run_wf ks c :
  wf c -> Forall call_typed ks -> exists c', run ks (Some c) = Some c' /\ wf c' /\
    (forall i, 0 <= i < 32 -> safe_outputs c' !!! Z.to_nat i = foldl (fun b k => request k i b) (safe_outputs c !!! Z.to_nat i) ks).
Proof.
  revert c. induction ks as [|k ks IH]; intros c Hw Ht; [by eexists|]. apply Forall_cons in Ht as [Hk Ht].
  destruct (exec_wf k c Hw Hk) as (c1 & E1 & Hw1 & Ho1). destruct (IH c1 Hw1 Ht) as (c2 & E2 & Hw2 & Ho2).
  exists c2. unfold run in *. cbn. rewrite E1. split; [done|]. split; [done|]. intros i Hi. by rewrite Ho2, Ho1.
Qed.

(** C9: whatever the sequence of calls after the initialisation, an emergency stop, an open
    door, a broken light curtain or an evaluation included, every safe output reads what the last
    [safety_set_output] for it wrote (false before the first): the loops that switch the outputs off
    run up to [num_safe_outputs], which no function sets.  The counts of channels and functions stay
    within their arrays throughout. *)
Theorem outputs_never_forced (ks : list safety_call) :
  Forall call_typed ks ->
  exists c, run ks (Some safety_init) = Some c /\ wf c /\
    forall i, 0 <= i < 32 -> safety_get_output (Some c) i = foldl (fun b k => request k i b) false ks.
Proof.
  intros Ht. destruct (run_wf ks _ init_wf Ht) as (c & E & Hw & Ho). exists c. split; [done|]. split; [done|]. intros i Hi.
  unfold safety_get_output, SAFETY_MAX_SAFE_OUTPUTS. rewrite (proj2 (Z.leb_gt 32 i)) by lia. rewrite Ho by done. f_equal.
  change (safe_outputs safety_init) with (replicate 32 false). apply lookup_total_replicate_2. lia.
Qed.

Lemma outputs_never_forced_witness :
  exists c, run [AddFunction (Some []) SAFETY_FUNC_ESTOP 3; SetOutput 2 true; EstopTrigger 50; Evaluate 60] (Some safety_init) = Some c /\
    safety_estop_is_active (Some c) = true /\ safety_get_output (Some c) 2 = true.
Proof.
  destruct (outputs_never_forced [AddFunction (Some []) SAFETY_FUNC_ESTOP 3; SetOutput 2 true; EstopTrigger 50; Evaluate 60]) as (c & E & _ & Ho).
  - repeat constructor; cbn; lia.
  - exists c. split; [exact E|]. split; [|rewrite Ho by lia; reflexivity].
    vm_compute in E. injection E as <-. reflexivity.
Defined.

(** ** Two-hand control *)

(** The control after a sequence of updates of a freshly initialised structure. *)
Definition two_hand_run (max : Z) (us : list (bool * bool * Z)) : option safety_two_hand_t :=
  foldl (fun th '(l, r, t) => safety_two_hand_update th l r t) (safety_two_hand_init (Some (TwoHand false false false false 0 0 false false)) max) us.

Definition both_held (u : bool * bool * Z) : Prop := u.1 = (true, true).
Definition both_free (u : bool * bool * Z) : Prop := u.1 = (false, false).
(** Both buttons went down in one update after being both up, and stayed down. *)
Definition pressed_together (us : list (bool * bool * Z)) : Prop :=
  exists pre t post, us = pre ++ (true, true, t) :: post /\ (pre = [] \/ exists p u, pre = p ++ [u] /\ both_free u) /\ Forall both_held post.

Lemma pressed_together_snoc us u :
  pressed_together (us ++ [u]) <-> both_held u /\ (pressed_together us \/ us = [] \/ exists p v, us = p ++ [v] /\ both_free v).
Proof.
  split.
  - intros (pre & t & post & E & Hpre & Hpost). destruct post as [|x post _] using rev_ind.
    + apply app_inj_tail in E as [-> ->]. split; [done|]. by right.
    + rewrite app_comm_cons, app_assoc in E. apply app_inj_tail in E as [-> ->]. apply Forall_app in Hpost as [Hp Hx].
      split; [by inversion Hx|]. left. by exists pre, t, post.
  - intros [Hu [(pre & t & post & -> & Hpre & Hpost)|Hus]].
    + exists pre, t, (post ++ [u]). split; [by rewrite <- app_assoc|]. split; [done|]. by apply Forall_app; split; [|constructor].
    + destruct u as [[l r] t]. unfold both_held in Hu. cbn in Hu. injection Hu as -> ->. exists us, t, []. split; [done|]. by split; [|constructor].
Qed.

(** After any sequence of updates the output of the two-hand control is on exactly when both
    buttons were last pressed in one and the same update, from both released, and have been held since.  A sequence of
    left then right within the allowed time, in two updates, never switches it on, because the update
    with one button down clears [valid_sequence]: [max_time_between_ms] is without effect. *)
Theorem two_hand_correct max us :
  exists th, two_hand_run max us = Some th /\ (safety_two_hand_output (Some th) = true <-> pressed_together us).
Proof.
  assert (exists th, two_hand_run max us = Some th /\ (th_output th = true <-> pressed_together us) /\
    (valid_sequence th = true -> button_left th = true /\ button_right th = true) /\
    (button_left th = false /\ button_right th = false <-> us = [] \/ exists p v, us = p ++ [v] /\ both_free v))
    as (th & E & H & _ & _); [|by exists th].
  induction us as [|u us IH] using rev_ind.
  - eexists. split; [reflexivity|]. cbn. split; [|split; [done|by split; [left|]]]. split; [done|]. intros (pre & t & post & E & _). by destruct pre.
  - destruct IH as (th & E & Ho & Hv & Hb). destruct u as [[l r] t]. unfold two_hand_run in E |- *. rewrite foldl_app, E. cbn.
    eexists. split; [reflexivity|]. rewrite pressed_together_snoc, <- Hb, <- Ho.
    assert (both_held (l, r, t) <-> l = true /\ r = true) as -> by (unfold both_held; cbn; naive_solver).
    assert ((us ++ [(l, r, t)] = [] \/ exists p v, us ++ [(l, r, t)] = p ++ [v] /\ both_free v) <-> l = false /\ r = false) as ->.
    { split; [intros [H|(p & v & H & Hf)]; [by destruct us|]|].
      - apply app_inj_tail in H as [-> <-]. unfold both_free in Hf. cbn in Hf. naive_solver.
      - intros [-> ->]. right. by exists us, (false, false, t). }
    clear E Ho Hb. unfold two_hand_step. destruct th as [bl br xl xr mx tm o v]. cbn in *.
    destruct l, r, bl, br, o, v; cbn; repeat case_test; cbn; naive_solver.
Qed.

(** ** Discrepancy of a dual channel *)

(** The observations of one channel, in order. *)
Definition observe (id : Z) (us : list (bool * bool * Z)) (sc : option safety_controller_t) : option safety_controller_t :=
  foldl (fun sc '(a, b, now) => safety_update_channel_inputs sc id a b now) sc us.

Definition observe_channel (us : list (bool * bool * Z)) (ch : safety_dual_channel_t) : safety_dual_channel_t :=
  foldl (fun ch '(a, b, now) => update_channel a b now ch) ch us.

Definition differ (u : bool * bool * Z) : Prop := u.1.1 <> u.1.2.

(** The only live channel with this identifier. *)
Definition only_channel (id : Z) (i : nat) (ch : safety_dual_channel_t) (c : safety_controller_t) : Prop :=
  live_channels c !! i = Some ch /\ channel_id ch = id /\
  (forall j x, live_channels c !! j = Some x -> channel_id x = id -> j = i).

Lemma live_update f c n : n = num_channels c -> live_channels (set_channels c (update_live (Z.to_nat n) f (channels c)) n) = f <$> live_channels c.
Proof.
  intros ->. unfold live_channels. cbn. apply list_eq. intros j. rewrite list_lookup_fmap.
  destruct (decide (j < Z.to_nat (num_channels c))%nat).
  - rewrite !lookup_take_lt, lookup_update_live by done. by rewrite (proj2 (Nat.ltb_lt _ _)).
  - rewrite !lookup_take_ge by lia. done.
Qed.

Lemma update_channel_id a b now ch : channel_id (update_channel a b now ch) = channel_id ch.
Proof. done. Qed.

Lemma observe_only id i us ch c :
  only_channel id i ch c -> exists c', observe id us (Some c) = Some c' /\ only_channel id i (observe_channel us ch) c'.
Proof.
  revert ch c. induction us as [|[[a b] now] us IH]; intros ch c (Hi & Hid & Hu); [by exists c|]. cbn. apply IH. unfold only_channel.
  rewrite (live_update _ c _ eq_refl), list_lookup_fmap, Hi. cbn. rewrite Hid, Z.eqb_refl. split; [done|]. split; [done|].
  intros j x Hx Hxid. rewrite list_lookup_fmap in Hx. destruct (live_channels c !! j) as [y|] eqn:Ey; [|done].
  injection Hx as <-. apply (Hu j y Ey). destruct (channel_id y =? id); done.
Qed.

Lemma observe_channel_state us ch :
  discrepancy_alarm (observe_channel us ch) = discrepancy_alarm ch /\ ch_healthy (observe_channel us ch) = ch_healthy ch /\
  channel_id (observe_channel us ch) = channel_id ch.
Proof. revert ch. induction us as [|[[a b] now] us IH]; intros ch; [done|]. exact (IH (update_channel a b now ch)). Qed.

Lemma observe_agreeing us a now ch : discrepancy_timer_ms (observe_channel (us ++ [(a, a, now)]) ch) = 0.
Proof. unfold observe_channel. rewrite foldl_app. cbn. by rewrite Bool.eqb_reflx. Qed.

Lemma observe_differing us ch : Forall differ us -> discrepancy_timer_ms ch <> 0 -> discrepancy_timer_ms (observe_channel us ch) = discrepancy_timer_ms ch.
Proof.
  revert ch. induction us as [|[[a b] now] us IH]; intros ch Hd Ht; [done|]. apply Forall_cons in Hd as [Hab Hd]. cbn.
  unfold differ in Hab. cbn in Hab. assert (discrepancy_timer_ms (update_channel a b now ch) = discrepancy_timer_ms ch) as E.
  { cbn. rewrite (proj2 (Z.eqb_neq _ 0) Ht). by destruct a, b. }
  unfold observe_channel in IH. rewrite IH; [done..|by rewrite E].
Qed.

Lemma check_only id i ch c now :
  only_channel id i ch c -> num_channels c <= Z.of_nat (length (channels c)) ->
  exists c', safety_check_discrepancy (Some c) id now = (discrepant id now ch, Some c') /\
    safety_is_channel_healthy (Some c') id = (if discrepant id now ch then false else ch_healthy ch).
Proof.
  intros (Hi & Hid & Hu) Hlen. unfold safety_check_discrepancy.
  assert (forall x, only_channel id i x (set_channels c (<[i:=x]> (channels c)) (num_channels c)) -> 
    safety_is_channel_healthy (Some (set_channels c (<[i:=x]> (channels c)) (num_channels c))) id = ch_healthy x) as Hh.
  { intros x (Hx & Hxid & Hxu). unfold safety_is_channel_healthy.
    assert (list_find (fun ch => channel_id ch = id) (live_channels (set_channels c (<[i:=x]> (channels c)) (num_channels c))) = Some (i, x)) as ->; [|done].
    apply list_find_Some. split; [done|]. split; [done|]. intros j y Hy Hj Hyid. pose proof (Hxu j y Hy Hyid). lia. }
  assert (forall x, channel_id x = id -> only_channel id i x (set_channels c (<[i:=x]> (channels c)) (num_channels c))) as Ho.
  { intros x Hxid. unfold only_channel, live_channels in *. cbn. apply lookup_take_Some in Hi as [Hi Hlt].
    split; [|split; [done|]].
    - rewrite lookup_take_lt by done. apply list_lookup_insert_eq. by eapply lookup_lt_Some.
    - intros j y Hy Hyid. destruct (decide (j = i)) as [|Hne]; [done|]. apply lookup_take_Some in Hy as [Hy Hj].
      rewrite list_lookup_insert_ne in Hy by done. apply (Hu j y); [by rewrite lookup_take_lt|done]. }
  destruct (discrepant id now ch) eqn:Ed.
  - assert (list_find (fun ch => discrepant id now ch) (live_channels c) = Some (i, ch)) as ->.
    { apply list_find_Some. split; [done|]. split; [by rewrite Ed|]. intros j y Hy Hj Hd.
      assert (channel_id y = id) as Hyid. { unfold discrepant in Hd. destruct (Z.eqb_spec (channel_id y) id); [done|by destruct Hd]. }
      pose proof (Hu j y Hy Hyid). lia. }
    eexists. split; [done|]. rewrite Hh; [done|]. by apply Ho.
  - assert (list_find (fun ch => discrepant id now ch) (live_channels c) = None) as ->.
    { apply list_find_None, Forall_lookup. intros j y Hy Hd.
      assert (channel_id y = id) as Hyid. { unfold discrepant in Hd. destruct (Z.eqb_spec (channel_id y) id); [done|by destruct Hd]. }
      assert (j = i) as -> by exact (Hu j y Hy Hyid). rewrite Hi in Hy. injection Hy as <-. by rewrite Ed in Hd. }
    exists c. split; [done|]. rewrite <- (Hh ch).
    + do 2 f_equal. apply lookup_take_Some in Hi as [Hi _]. rewrite list_insert_id by done. by destruct c.
    + by apply Ho.
Qed.

(** A dual channel whose two inputs have differed in every update since the one at time [t0] > 0, and
    agreed before it, is reported, and from then on unhealthy, by a check at [now] exactly
    when more than 100 ms (modulo 2^32) have passed since [t0], however often and with whichever of the two inputs
    set it was updated meanwhile.  After an update with equal inputs no check reports it, at any later time; but a
    discrepancy seen only at time 0 is not timed at all, because 0 stands for "no discrepancy". *)
Theorem discrepancy_correct id i ch c pre a0 b0 t0 post now :
  only_channel id i ch c -> num_channels c <= Z.of_nat (length (channels c)) -> ch_healthy ch = true ->
  (pre = [] /\ discrepancy_timer_ms ch = 0 \/ exists p a t, pre = p ++ [(a, a, t)]) -> a0 <> b0 -> Forall differ post ->
  (0 < t0 -> exists c1 c2, observe id (pre ++ (a0, b0, t0) :: post) (Some c) = Some c1 /\
     safety_check_discrepancy (Some c1) id now = (SAFETY_DISCREPANCY_MS <? now -32 t0, Some c2) /\
     safety_is_channel_healthy (Some c2) id = negb (SAFETY_DISCREPANCY_MS <? now -32 t0)) /\
  (exists c1, observe id (pre ++ (a0, b0, t0) :: post ++ [(a0, a0, now)]) (Some c) = Some c1 /\
     forall later, safety_check_discrepancy (Some c1) id later = (false, Some c1)) /\
  (exists c1, observe id (pre ++ [(a0, b0, 0)]) (Some c) = Some c1 /\
     forall later, safety_check_discrepancy (Some c1) id later = (false, Some c1)).
Proof.
  intros Ho Hlen Hh Hpre Hab Hpost.
  assert (discrepancy_timer_ms (observe_channel pre ch) = 0) as Hp0.
  { destruct Hpre as [[-> H]|(p & a & t & ->)]; [done|apply observe_agreeing]. }
  assert (forall us c', observe id us (Some c) = Some c' -> num_channels c' <= Z.of_nat (length (channels c'))) as Hl.
  { intros us c'. clear -Hlen. revert c Hlen. induction us as [|[[a b] t] us IH]; intros c Hlen E; [cbn in E; by injection E as <-|].
    cbn in E. eapply IH; [|exact E]. cbn. by rewrite length_update_live. }
  assert (forall us, discrepancy_timer_ms (observe_channel us ch) = 0 -> exists c1, observe id us (Some c) = Some c1 /\
     forall later, safety_check_discrepancy (Some c1) id later = (false, Some c1)) as Hz.
  { intros us E0. destruct (observe_only id i us ch c Ho) as (c1 & E1 & Ho1). exists c1. split; [done|]. intros later.
    destruct (check_only id i _ c1 later Ho1 (Hl _ _ E1)) as (c2 & E2 & _). unfold discrepant in E2. rewrite E0, andb_false_r in E2. cbn in E2.
    unfold safety_check_discrepancy in E2 |- *. by destruct (list_find _ _) as [[? ?]|]. }
  split; [|split].
  - intros Ht0. destruct (observe_only id i (pre ++ (a0, b0, t0) :: post) ch c Ho) as (c1 & E1 & Ho1).
    destruct (check_only id i _ c1 now Ho1 (Hl _ _ E1)) as (c2 & E2 & Hh2). exists c1, c2. split; [done|].
    assert (discrepancy_timer_ms (observe_channel (pre ++ (a0, b0, t0) :: post) ch) = t0) as Et.
    { unfold observe_channel. rewrite foldl_app. cbn. fold (observe_channel pre ch). fold (observe_channel post (update_channel a0 b0 t0 (observe_channel pre ch))).
      assert (discrepancy_timer_ms (update_channel a0 b0 t0 (observe_channel pre ch)) = t0) as E3 by (cbn; rewrite Hp0; by destruct a0, b0).
      rewrite observe_differing; [done..|by rewrite E3; lia]. }
    destruct (observe_channel_state (pre ++ (a0, b0, t0) :: post) ch) as (_ & Eh & Eid).
    destruct Ho1 as (_ & Hid1 & _). unfold discrepant in E2, Hh2. rewrite Et, Hid1, Z.eqb_refl, (proj2 (Z.ltb_lt 0 t0) Ht0) in E2, Hh2. cbn [andb] in E2, Hh2.
    split; [done|]. rewrite Hh2, Eh, Hh. by destruct (_ <? _).
  - apply Hz. rewrite app_comm_cons, app_assoc. apply observe_agreeing.
  - apply Hz. unfold observe_channel. rewrite foldl_app. cbn. fold (observe_channel pre ch). rewrite Hp0. by destruct (negb _).
Qed.

Lemma discrepancy_correct_witness :
  exists c, run [AddChannel; UpdateInputs 1 true true 10; UpdateInputs 1 true false 1000; UpdateInputs 1 false true 1090] (Some safety_init) = Some c /\
    (safety_check_discrepancy (Some c) 1 1100).1 = false /\ (safety_check_discrepancy (Some c) 1 1101).1 = true.
Proof.
  pose (c0 := set_channels safety_init (<[0%nat := DualChannel 1 false false false false 0 false true 0]> (channels safety_init)) 1).
  pose (H := fun now => discrepancy_correct 1 0 (DualChannel 1 false false false false 0 false true 0) c0 [(true, true, 10)] true false 1000 [(false, true, 1090)] now).
  assert (only_channel 1 0 (DualChannel 1 false false false false 0 false true 0) c0) as Ho.
  { split; [reflexivity|]. split; [reflexivity|]. intros [|j] x Hx Hid; [reflexivity|vm_compute in Hx; discriminate]. }
  assert (observe 1 [(true, true, 10); (true, false, 1000); (false, true, 1090)] (Some c0) =
          run [AddChannel; UpdateInputs 1 true true 10; UpdateInputs 1 true false 1000; UpdateInputs 1 false true 1090] (Some safety_init)) as E
    by (vm_compute; reflexivity).
  destruct (H 1100 Ho) as [H1 _]; [vm_compute; discriminate|reflexivity|right; exists [], true, 10; reflexivity|discriminate|repeat constructor; discriminate|].
  destruct (H 1101 Ho) as [H2 _]; [vm_compute; discriminate|reflexivity|right; exists [], true, 10; reflexivity|discriminate|repeat constructor; discriminate|].
  destruct H1 as (c1 & d1 & E1 & F1 & _); [reflexivity|]. destruct H2 as (c2 & d2 & E2 & F2 & _); [reflexivity|].
  cbn [app] in E1, E2. exists c1. rewrite <- E, E1. rewrite E1 in E2. injection E2 as <-. rewrite F1, F2. repeat split.
Defined.

(** ** Latched safety functions *)

Notation door := SAFETY_FUNC_DOOR_INTERLOCK.
Notation curtain := SAFETY_FUNC_LIGHT_CURTAIN.

(** The first live function of type [ty] is the one at index [j]. *)
Definition first_of (ty : safety_function_type_t) (j : nat) (f : safety_function_t) (c : safety_controller_t) : Prop :=
  live_functions c !! j = Some f /\ sf_type f = ty /\ (forall l g, live_functions c !! l = Some g -> (l < j)%nat -> sf_type g <> ty).

Definition latched (ty : safety_function_type_t) (j : nat) (c : safety_controller_t) : Prop :=
  exists f, first_of ty j f c /\ tripped f = true.

Lemma first_guard ty j f c : first_of ty j f c -> guard_ok ty (Some c) = negb (tripped f).
Proof.
  intros (Hj & Ht & Hf). unfold guard_ok.
  assert (list_find (fun f => sf_type f = ty) (live_functions c) = Some (j, f)) as ->; [|done].
  apply list_find_Some. split; [done|]. split; [done|]. intros l g Hg Hl. by eapply Hf.
Qed.

(** A change of the functions that keeps their types and does not move those up to [j]. *)
Lemma first_change ty j f f' c fs n :
  first_of ty j f c -> (j < Z.to_nat n)%nat -> fs !! j = Some f' -> sf_type f' = sf_type f ->
  (forall l g, (l < j)%nat -> fs !! l = Some g -> exists g0, functions c !! l = Some g0 /\ sf_type g = sf_type g0) ->
  first_of ty j f' (set_functions c fs n).
Proof.
  intros (Hj & Ht & Hf) Hn Hj' Ht' Hl. unfold first_of, live_functions in *. cbn. apply lookup_take_Some in Hj as [Hj Hlt].
  split; [by rewrite lookup_take_lt|]. split; [congruence|]. intros l g Hg Hlj. apply lookup_take_Some in Hg as [Hg _].
  destruct (Hl l g Hlj Hg) as (g0 & Hg0 & ->). apply (Hf l g0); [rewrite lookup_take_lt by lia; done|done].
Qed.

Lemma first_update ty j f c g :
  first_of ty j f c -> (forall x, sf_type (g x) = sf_type x) ->
  first_of ty j (g f) (set_functions c (update_live (Z.to_nat (num_functions c)) g (functions c)) (num_functions c)).
Proof.
  intros H Hg. pose proof H as (Hj & _). apply lookup_take_Some in Hj as [Hj Hlt].
  apply (first_change ty j f); try done.
  - by rewrite lookup_update_live, (proj2 (Nat.ltb_lt _ _)), Hj.
  - intros l x Hl Hx. rewrite lookup_update_live, (proj2 (Nat.ltb_lt _ _)) in Hx by lia. destruct (functions c !! l) as [y|]; [|done].
    injection Hx as <-. eauto.
Qed.

(** The calls that cannot clear the latch of function [j]. *)
Definition no_reset (j : nat) (k : safety_call) : Prop :=
  match k with ResetAll _ | RemoveFunction _ => False | ResetFunction id _ => 0 <= id /\ id <> Z.of_nat j + 1 | _ => True end.

Lemma latched_each ty j c ty' g :
  latched ty j c -> (forall x, sf_type (g x) = sf_type x /\ (tripped x = true -> tripped (g x) = true)) -> latched ty j (each_of_type ty' g c).
Proof.
  intros (f & H & Hf) Hg. exists (if decide (sf_type f = ty') then g f else f). split.
  - apply (first_update ty j f c (fun x => if decide (sf_type x = ty') then g x else x) H). intros x. case_decide; [apply Hg|done].
  - case_decide; [by apply Hg|done].
Qed.

Lemma latched_exec ty j k c :
  wf c -> call_typed k -> latched ty j c -> no_reset j k -> exists c', exec k (Some c) = Some c' /\ wf c' /\ latched ty j c'.
Proof.
  intros Hw Ht Hl Hk. destruct (exec_wf k c Hw Ht) as (c' & E & Hw' & _). exists c'. split; [done|]. split; [done|].
  assert (forall c', functions c' = functions c -> num_functions c' = num_functions c -> latched ty j c') as Same.
  { intros x E1 E2. unfold latched, first_of, live_functions in *. by rewrite E1, E2. }
  pose proof Hw as [_ _ H3 H4 _ _]. destruct k; cbn [exec no_reset call_typed] in *; try done.
  - unfold safety_add_dual_channel in E. destruct (_ <=? _); injection E as <-; by apply Same.
  - unfold safety_remove_channel in E. destruct (_ =? _); [by injection E as <-; apply Same|].
    destruct (list_find _ _) as [[? ?]|]; injection E as <-; by apply Same.
  - injection E as <-. by apply Same.
  - unfold safety_check_discrepancy in E. destruct (list_find _ _) as [[? ?]|]; injection E as <-; by apply Same.
  - unfold safety_add_function, SAFETY_MAX_FUNCTIONS in E. destruct name; [|by injection E as <-; apply Same].
    destruct (Z.leb_spec 32 (num_functions c)) as [Hn|Hn]; injection E as <-; [by apply Same|]. destruct Hl as (f & Hf & Htr). exists f. split; [|done].
    pose proof Hf as (Hj & _). apply lookup_take_Some in Hj as [Hj Hlt]. apply (first_change ty j f); try done.
    + rewrite u16_small by lia. lia.
    + by rewrite list_lookup_insert_ne by lia.
    + intros l0 g Hl0 Hg. rewrite list_lookup_insert_ne in Hg by lia. eauto.
  - injection E as <-. rewrite outputs_off_id by apply Hw. apply (latched_each ty j _); [by apply Same|]. done.
  - injection E as <-. apply (latched_each ty j _); [by apply Same|]. done.
  - injection E as <-. unfold guard_loop. destruct closed; cbn [negb]; [by apply (latched_each ty j _)|].
    assert (latched ty j (each_of_type door (trip time_ms) c)) as H5 by by apply (latched_each ty j _). exact H5.
  - injection E as <-. unfold guard_loop. destruct clear; cbn [negb]; [by apply (latched_each ty j _)|].
    assert (latched ty j (each_of_type curtain (trip time_ms) c)) as H5 by by apply (latched_each ty j _). exact H5.
  - unfold safety_set_output in E. cbn [fmap option_fmap option_map] in E. destruct (_ <=? _); injection E as <-; by apply Same.
  - cbn in E. rewrite evaluate_id in E by apply Hw. injection E as <-. by apply Same.
  - unfold safety_reset_function in E. cbn [fmap option_fmap option_map] in E. destruct (_ || _) eqn:Eb; injection E as <-; [by apply Same|]. apply orb_false_iff in Eb as [E1%Z.eqb_neq E2%Z.ltb_ge].
    destruct Hl as (f & Hf & Htr). exists f. split; [|done]. pose proof Hf as (Hj & _). apply lookup_take_Some in Hj as [Hj Hlt].
    apply (first_change ty j f); try done.
    + by rewrite list_lookup_alter_ne by lia.
    + intros l0 g Hl0 Hg. destruct (decide (Z.to_nat (func_id - 1) = l0)) as [<-|Hne].
      * rewrite list_lookup_alter_eq in Hg. apply fmap_Some in Hg as (y & Hy & ->). eauto.
      * rewrite list_lookup_alter_ne in Hg by done. eauto.
Qed.

Lemma latched_run ty j ks c :
  wf c -> Forall call_typed ks -> latched ty j c -> Forall (no_reset j) ks -> exists c', run ks (Some c) = Some c' /\ wf c' /\ latched ty j c'.
Proof.
  revert c. induction ks as [|k ks IH]; intros c Hw Ht Hl Hk; [by exists c|]. apply Forall_cons in Ht as [Ht1 Ht2], Hk as [Hk1 Hk2].
  destruct (latched_exec ty j k c Hw Ht1 Hl Hk1) as (c1 & E1 & Hw1 & Hl1). unfold run. cbn. rewrite E1. by apply IH.
Qed.

Lemma latched_trip ty j f c t : first_of ty j f c -> latched ty j (guard_loop ty false t c).
Proof.
  intros H. pose proof (first_update ty j f c (fun x => if decide (sf_type x = ty) then trip t x else x) H) as Hu.
  exists (trip t f). split; [|done]. pose proof H as (_ & Ht & _).
  specialize (Hu (fun x => ltac:(cbv beta; case_decide; reflexivity))). cbv beta in Hu. by rewrite (decide_True (trip t f) f Ht) in Hu.
Qed.

Lemma reset_clears ty j f c t :
  wf c -> first_of ty j f c -> exists c', safety_reset_function (Some c) (Z.of_nat j + 1) t = Some c' /\ guard_ok ty (Some c') = true.
Proof.
  intros Hw H. pose proof H as (Hj & _). apply lookup_take_Some in Hj as [Hj Hlt]. eexists. split; [reflexivity|].
  rewrite (proj2 (Z.eqb_neq _ 0)), (proj2 (Z.ltb_ge _ _)) by lia. cbn [orb]. replace (Z.to_nat (Z.of_nat j + 1 - 1)) with j by lia.
  rewrite (first_guard ty j (reset t f)); [done|]. apply (first_change ty j f); try done.
  - by rewrite list_lookup_alter_eq, Hj.
  - intros l g Hl Hg. rewrite list_lookup_alter_ne in Hg by lia. eauto.
Qed.

(** An open door trips the door interlock and a broken curtain the light-curtain function: the first
    function of the type, at index [j], then reads as not closed (not clear) after every further sequence of calls,
    closing the door included, until a call resets function [j] + 1, resets all functions or removes one.
    The reset asks nothing of the door: right after it opened, [safety_reset_function] makes
    [safety_door_is_closed] (or the curtain's query) answer true. *)
Theorem interlock_latches (ty : safety_function_type_t) j f c t ks :
  ty = door \/ ty = curtain ->
  let open c := if decide (ty = door) then safety_door_interlock (Some c) false t else safety_light_curtain (Some c) false t in
  let ok sc := if decide (ty = door) then safety_door_is_closed sc else safety_light_curtain_is_clear sc in
  wf c -> first_of ty j f c -> Forall call_typed ks ->
  (Forall (no_reset j) ks -> exists c', run ks (open c) = Some c' /\ ok (Some c') = false) /\
  (exists c', safety_reset_function (open c) (Z.of_nat j + 1) t = Some c' /\ ok (Some c') = true).
Proof.
  intros Hty op ok Hw Hf Ht.
  assert (exists c1, op c = Some c1 /\ wf c1 /\ latched ty j c1) as (c1 & E1 & Hw1 & Hl1).
  { exists (guard_loop ty false t c). split; [unfold op; destruct Hty as [-> | ->]; done|]. split; [|by eapply latched_trip].
    destruct Hty as [-> | ->].
    - by destruct (exec_wf (Door false t) c Hw I) as (c1 & [= <-] & Hw1 & _).
    - by destruct (exec_wf (Curtain false t) c Hw I) as (c1 & [= <-] & Hw1 & _). }
  assert (forall sc, ok sc = guard_ok ty sc) as Eok by (intros sc; unfold ok; destruct Hty as [-> | ->]; done).
  rewrite E1. split.
  - intros Hk. destruct (latched_run ty j ks c1 Hw1 Ht Hl1 Hk) as (c2 & E2 & _ & g & Hg & Htr). exists c2. split; [done|].
    by rewrite Eok, (first_guard ty j g), Htr.
  - destruct Hl1 as (g & Hg & _). destruct (reset_clears ty j g c1 t Hw1 Hg) as (c2 & E2 & Ho). exists c2. split; [done|]. by rewrite Eok.
Qed.

Lemma interlock_latches_witness :
  exists c c', run [AddFunction (Some []) SAFETY_FUNC_ESTOP 2; AddFunction (Some []) door 3] (Some safety_init) = Some c /\
    safety_reset_function (safety_door_interlock (Some c) false 70) 2 70 = Some c' /\ safety_door_is_closed (Some c') = true.
Proof.
  destruct (run_wf [AddFunction (Some []) SAFETY_FUNC_ESTOP 2; AddFunction (Some []) door 3] _ init_wf) as (c & E & Hw & _); [repeat constructor|].
  exists c. assert (live_functions c = [SafetyFunction (cstr_copy 32 []) SAFETY_FUNC_ESTOP 2 false false true 0 0 0 0;
                                       SafetyFunction (cstr_copy 32 []) door 3 false false true 0 0 0 0]) as El.
  { enough (live_functions <$> Some c = Some [SafetyFunction (cstr_copy 32 []) SAFETY_FUNC_ESTOP 2 false false true 0 0 0 0;
                                              SafetyFunction (cstr_copy 32 []) door 3 false false true 0 0 0 0]) as [= H] by exact H.
    rewrite <- E. vm_compute. reflexivity. }
  destruct (interlock_latches door 1 (SafetyFunction (cstr_copy 32 []) door 3 false false true 0 0 0 0) c 70 []) as [_ (c' & E' & H)].
  - left. reflexivity.
  - exact Hw.
  - unfold first_of. rewrite El. split; [reflexivity|]. split; [reflexivity|]. intros [|[|l]] g Hg Hl; [injection Hg as <-; discriminate|lia|lia].
  - constructor.
  - exists c'. split; [exact E|]. split; [exact E'|exact H].
Defined.

(** ** Channel identifiers *)

(** After a removal the identifiers are not unique: of two channels the first is removed, and the next
    channel added gets the identifier of the one that is left. *)
Example channel_id_reused :
  option_map (fun c => channel_id <$> live_channels c) (run [AddChannel; AddChannel; RemoveChannel 1; AddChannel] (Some safety_init)) = Some [2; 2].
Proof. vm_compute. reflexivity. Qed.
