(* ===== verification/MemoryHeap.v ===== *)
(** * Heap allocator (mini-rtos/src/memory_heap.c)

    The heap is typed memory: the block headers written at their addresses, and
    the payload bytes.  A byte write that overlaps a header destroys it (the
    bytes at its address are no longer known to be a header), and reading a
    header where none is known is the [UB] outcome.  Pointers are addresses, 0 is
    the null pointer; structure sizes are those of a 64-bit target. *)
From S2P Require Import Prelude.

Definition HEAP_ALIGNMENT : Z := 8.
Definition HEAP_MIN_BLOCK_SIZE : Z := 32.
Definition HEAP_MAX_REGIONS : Z := 8.
Definition BLOCK_HEADER_SIZE : Z := 32.
Definition BLOCK_MAGIC_ALLOC : Z := 0xA110C8ED.
Definition BLOCK_MAGIC_FREE : Z := 0xF2EEF2EE.
Definition HEAP_TYPE_1 : Z := 1.
Definition HEAP_TYPE_2 : Z := 2.
Definition HEAP_TYPE_3 : Z := 3.
Definition HEAP_TYPE_4 : Z := 4.
Definition HEAP_TYPE_5 : Z := 5.
Definition QUICK_FIT_CLASSES : Z := 8.
Definition NULL : Z := 0.

Record block_header_t := Header {
  bh_size : Z; bh_magic : Z; bh_free : bool; bh_next : Z; bh_prev : Z }.

Record heap_region_t := Region { hr_start : Z; hr_end : Z; hr_free_list : Z }.

Record heap_stats_t := Stats {
  total_size : Z; free_size : Z; allocated_size : Z; min_free_ever : Z;
  alloc_count : Z; free_count : Z }.

(** The size classes of [quick_fit_classes]; their free lists stay null. *)
Record quick_fit_class_t := QuickFit { qf_size : Z; qf_free_list : Z }.

Record heap_t := Heap {
  heap_type : Z;
  regions : list heap_region_t;
  region_count : Z;
  stats : heap_stats_t;
  quick_fit_classes : list quick_fit_class_t;
  headers : gmap Z block_header_t;
  bytes : gmap Z Z }.

Definition zero_region : heap_region_t := Region 0 0 NULL.
Definition zero_stats : heap_stats_t := Stats 0 0 0 0 0 0.

(** The statics before any call. *)
Definition heap0 : heap_t :=
  Heap HEAP_TYPE_4 (replicate 8 zero_region) 0 zero_stats (replicate 8 (QuickFit 0 NULL)) ∅ ∅.

Definition set_stats (s : heap_stats_t) (h : heap_t) : heap_t :=
  Heap (heap_type h) (regions h) (region_count h) s (quick_fit_classes h) (headers h) (bytes h).
Definition set_headers (m : gmap Z block_header_t) (h : heap_t) : heap_t :=
  Heap (heap_type h) (regions h) (region_count h) (stats h) (quick_fit_classes h) m (bytes h).
Definition set_memory (m : gmap Z block_header_t) (b : gmap Z Z) (h : heap_t) : heap_t :=
  Heap (heap_type h) (regions h) (region_count h) (stats h) (quick_fit_classes h) m b.
Definition set_regions (rs : list heap_region_t) (n : Z) (h : heap_t) : heap_t :=
  Heap (heap_type h) rs n (stats h) (quick_fit_classes h) (headers h) (bytes h).

Definition set_size (n : Z) (b : block_header_t) := Header n (bh_magic b) (bh_free b) (bh_next b) (bh_prev b).
Definition set_next (n : Z) (b : block_header_t) := Header (bh_size b) (bh_magic b) (bh_free b) n (bh_prev b).
Definition set_prev (n : Z) (b : block_header_t) := Header (bh_size b) (bh_magic b) (bh_free b) (bh_next b) n.
Definition set_use (free : bool) (magic : Z) (b : block_header_t) :=
  Header (bh_size b) magic free (bh_next b) (bh_prev b).

(** ** Memory accesses *)

Definition in_region (a n : Z) (r : heap_region_t) : bool :=
  (hr_start r <=? a) && (a + n <=? hr_end r).

Definition live_regions (h : heap_t) : list heap_region_t := take (Z.to_nat (region_count h)) (regions h).
Definition in_heap (h : heap_t) (a n : Z) : bool := existsb (in_region a n) (live_regions h).

Definition rd (a : Z) : M heap_t block_header_t := fun h =>
  match headers h !! a with Some b => Done (b, h) | None => UB end.

Definition wr (a : Z) (b : block_header_t) : M heap_t unit := fun h =>
  if in_heap h a BLOCK_HEADER_SIZE then Done (tt, set_headers (<[a := b]> (headers h)) h) else UB.

Definition upd (a : Z) (f : block_header_t -> block_header_t) : M heap_t unit :=
  b ← rd a; wr a (f b).

(** [v] written to [n] consecutive bytes. *)
Fixpoint fill (n : nat) (a : Z) (v : Z) (m : gmap Z Z) : gmap Z Z :=
  match n with
  | O => m
  | S n => fill n (a + 1) v (<[a := v]> m)
  end.

Fixpoint copy (n : nat) (dst src : Z) (m : gmap Z Z) : gmap Z Z :=
  match n with
  | O => m
  | S n => copy n (dst + 1) (src + 1)
             (match m !! src with Some v => <[dst := v]> m | None => delete dst m end)
  end.

(** The headers that survive a write to [a, a + n). *)
Definition clobber (a n : Z) (m : gmap Z block_header_t) : gmap Z block_header_t :=
  filter (fun '(x, _) => x + BLOCK_HEADER_SIZE <= a \/ a + n <= x) m.

Definition memset (a v n : Z) : M heap_t unit := fun h =>
  if in_heap h a n
  then Done (tt, set_memory (clobber a n (headers h)) (fill (Z.to_nat n) a v (bytes h)) h)
  else UB.

Definition memcpy (dst src n : Z) : M heap_t unit := fun h =>
  if in_heap h dst n && in_heap h src n
  then Done (tt, set_memory (clobber dst n (headers h)) (copy (Z.to_nat n) dst src (bytes h)) h)
  else UB.

(** ** Statistics *)

Definition heap_stats_update_allocation (s : heap_stats_t) : heap_stats_t :=
  Stats (total_size s) (free_size s) (total_size s -32 free_size s) (min_free_ever s)
        (alloc_count s +32 1) (free_count s).

Definition heap_stats_update_free (s : heap_stats_t) : heap_stats_t :=
  let m := if free_size s <? min_free_ever s then free_size s else min_free_ever s in
  Stats (total_size s) (free_size s) (total_size s -32 free_size s) m
        (alloc_count s) (free_count s +32 1).

Definition set_free_size (n : Z) (s : heap_stats_t) : heap_stats_t :=
  Stats (total_size s) n (allocated_size s) (min_free_ever s) (alloc_count s) (free_count s).
Definition set_min_free (n : Z) (s : heap_stats_t) : heap_stats_t :=
  Stats (total_size s) (free_size s) (allocated_size s) n (alloc_count s) (free_count s).

(** ** Blocks

    Loops over a block list get one unit of fuel per known header and one for
    the final null test: enough for any list without a cycle. *)

Definition list_fuel (h : heap_t) : nat := S (size (headers h)).

Fixpoint block_scan (fuel : nat) (type size block best best_size : Z) : M heap_t Z :=
  match fuel with
  | O => nofuel
  | S fuel =>
      if block =? NULL then mret best
      else
        b ← rd block;
        if bh_free b && (size <=? bh_size b) then
          if type =? HEAP_TYPE_2 then
            if bh_size b <? best_size
            then block_scan fuel type size (bh_next b) block (bh_size b)
            else block_scan fuel type size (bh_next b) best best_size
          else mret block
        else block_scan fuel type size (bh_next b) best best_size
  end.

Definition block_alloc (region : heap_region_t) (size : Z) : M heap_t Z := fun h =>
  if heap_type h =? HEAP_TYPE_1 then Done (hr_free_list region, h)
  else if (HEAP_TYPE_2 <=? heap_type h) && (heap_type h <=? HEAP_TYPE_5)
  then block_scan (list_fuel h) (heap_type h) size (hr_free_list region) NULL UINT32_MAX h
  else Done (NULL, h).

Definition block_split (block size : Z) : M heap_t unit :=
  b ← rd block;
  let remaining := bh_size b -32 size in
  when (HEAP_MIN_BLOCK_SIZE <=? remaining) (
    let new_block := block + size in
    wr new_block (Header remaining BLOCK_MAGIC_FREE true (bh_next b) block);;
    when (truthy (bh_next b)) (upd (bh_next b) (set_prev new_block));;
    upd block (set_next new_block);;
    upd block (set_size size)).

(** [block] absorbs its successor [next]: the statements both halves of
    [block_coalesce] consist of. *)
Definition absorb (block next : Z) : M heap_t unit :=
  n ← rd next;
  upd block (fun b => set_size (bh_size b +32 bh_size n) b);;
  upd block (set_next (bh_next n));;
  when (truthy (bh_next n)) (upd (bh_next n) (set_prev block)).

Definition block_coalesce (region : heap_region_t) (block : Z) : M heap_t unit :=
  b ← rd block;
  when (truthy (bh_next b)) (n ← rd (bh_next b); when (bh_free n) (absorb block (bh_next b)));;
  b ← rd block;
  when (truthy (bh_prev b)) (p ← rd (bh_prev b); when (bh_free p) (absorb (bh_prev b) block)).

(** ** Regions *)

Definition align_down (x : Z) : Z := Z.land x (Z.lnot (HEAP_ALIGNMENT - 1)).

(** The new region and the state with its first header and the statistics; [None]
    when the region is left as it was.  The header must fit the caller's object. *)
Definition heap_region_init (start size : Z) : M heap_t (option heap_region_t) := fun h =>
  let aligned_start := align_down (start + HEAP_ALIGNMENT - 1) in
  let aligned_end := align_down (start + size) in
  let usable := u32 (aligned_end - aligned_start) in
  if usable <? HEAP_MIN_BLOCK_SIZE * 2 then Done (None, h)
  else if negb (aligned_start + BLOCK_HEADER_SIZE <=? start + size) then UB
  else
    let s := stats h in
    let mf := if (min_free_ever s =? 0) || (usable <? min_free_ever s) then usable else min_free_ever s in
    Done (Some (Region aligned_start aligned_end aligned_start),
          set_stats (Stats (total_size s +32 usable) (free_size s +32 usable) (allocated_size s) mf
                           (alloc_count s) (free_count s))
            (set_headers (<[aligned_start := Header usable BLOCK_MAGIC_FREE true NULL NULL]> (headers h)) h)).

Definition heap_init (start size type : Z) : M heap_t unit :=
  modify (fun h => Heap (if (HEAP_TYPE_1 <=? type) && (type <=? HEAP_TYPE_5) then type else heap_type h)
                        (replicate 8 zero_region) 1 zero_stats (quick_fit_classes h)
                        (headers h) (bytes h));;
  r ← heap_region_init start size;
  match r with
  | Some r => modify (fun h => set_regions (<[0%nat := r]> (regions h)) (region_count h) h)
  | None => mret tt
  end.

Definition heap_add_region (start size : Z) : M heap_t unit :=
  n ← gets region_count;
  if HEAP_MAX_REGIONS <=? n then mret tt
  else
    r ← heap_region_init start size;
    match r with
    | Some r => modify (fun h => set_regions (<[Z.to_nat n := r]> (regions h)) (region_count h) h)
    | None => mret tt
    end;;
    modify (fun h => set_regions (regions h) (region_count h +32 1) h).

(** ** Allocation *)

Definition request_size (size : Z) : Z :=
  let alloc_size := u32 size +32 BLOCK_HEADER_SIZE in
  let alloc_size := Z.land (alloc_size +32 HEAP_ALIGNMENT -32 1) (u32 (Z.lnot (HEAP_ALIGNMENT - 1))) in
  if alloc_size <? HEAP_MIN_BLOCK_SIZE then HEAP_MIN_BLOCK_SIZE else alloc_size.

Fixpoint region_loop (rs : list heap_region_t) (alloc_size : Z) : M heap_t Z :=
  match rs with
  | [] => mret NULL
  | r :: rs =>
      block ← block_alloc r alloc_size;
      if truthy block then mret block else region_loop rs alloc_size
  end.

Definition malloc_rtos (size : Z) : M heap_t Z :=
  if size =? 0 then mret NULL
  else
    let alloc_size := request_size size in
    rs ← gets live_regions;
    block ← region_loop rs alloc_size;
    if block =? NULL then mret NULL
    else
      block_split block alloc_size;;
      upd block (set_use false BLOCK_MAGIC_ALLOC);;
      modify (fun h => set_stats (set_free_size (free_size (stats h) -32 alloc_size) (stats h)) h);;
      modify (fun h => set_stats (heap_stats_update_allocation (stats h)) h);;
      modify (fun h => if free_size (stats h) <? min_free_ever (stats h)
                       then set_stats (set_min_free (free_size (stats h)) (stats h)) h else h);;
      mret (block + BLOCK_HEADER_SIZE).

Definition free_rtos (ptr : Z) : M heap_t unit :=
  if ptr =? NULL then mret tt
  else
    let block := ptr - BLOCK_HEADER_SIZE in
    b ← rd block;
    if negb (bh_magic b =? BLOCK_MAGIC_ALLOC) then mret tt
    else
      upd block (set_use true BLOCK_MAGIC_FREE);;
      modify (fun h => set_stats (set_free_size (free_size (stats h) +32 bh_size b) (stats h)) h);;
      modify (fun h => set_stats (heap_stats_update_free (stats h)) h);;
      rs ← gets live_regions;
      match List.find (fun r => (hr_start r <=? block) && (block <? hr_end r)) rs with
      | Some r => ty ← gets heap_type; when (HEAP_TYPE_3 <=? ty) (block_coalesce r block)
      | None => mret tt
      end.

Definition calloc_rtos (num size : Z) : M heap_t Z :=
  let total := u64 (num * size) in
  ptr ← malloc_rtos total;
  when (truthy ptr) (memset ptr 0 total);;
  mret ptr.

Definition realloc_rtos (ptr new_size : Z) : M heap_t Z :=
  if ptr =? NULL then malloc_rtos new_size
  else if new_size =? 0 then free_rtos ptr;; mret NULL
  else
    b ← rd (ptr - BLOCK_HEADER_SIZE);
    if negb (bh_magic b =? BLOCK_MAGIC_ALLOC) then mret NULL
    else
      let old_size := bh_size b -32 BLOCK_HEADER_SIZE in
      if new_size <=? old_size then mret ptr
      else
        new_ptr ← malloc_rtos new_size;
        if new_ptr =? NULL then mret NULL
        else memcpy new_ptr ptr old_size;; free_rtos ptr;; mret new_ptr.

(** ** Queries *)

Definition heap_get_stats : M heap_t heap_stats_t := gets stats.
Definition heap_get_free_size : M heap_t Z := gets (fun h => free_size (stats h)).
Definition heap_get_min_free : M heap_t Z := gets (fun h => min_free_ever (stats h)).
Definition heap_total_alloc_count : M heap_t Z := gets (fun h => alloc_count (stats h)).
Definition heap_total_free_count : M heap_t Z := gets (fun h => free_count (stats h)).

Fixpoint largest_scan (fuel : nat) (block largest : Z) : M heap_t Z :=
  match fuel with
  | O => nofuel
  | S fuel =>
      if block =? NULL then mret largest
      else
        b ← rd block;
        largest_scan fuel (bh_next b) (if bh_free b && (largest <? bh_size b) then bh_size b else largest)
  end.

Fixpoint largest_loop (rs : list heap_region_t) (largest : Z) : M heap_t Z :=
  match rs with
  | [] => mret largest
  | r :: rs =>
      fuel ← gets list_fuel;
      largest ← largest_scan fuel (hr_free_list r) largest;
      largest_loop rs largest
  end.

Definition heap_calc_largest_free : M heap_t Z := rs ← gets live_regions; largest_loop rs 0.

Definition heap_fragmentation_permil : M heap_t Z :=
  largest ← heap_calc_largest_free;
  total_free ← gets (fun h => free_size (stats h));
  mret (if total_free =? 0 then 0
        else if total_free <=? largest then 0
        else 1000 -32 (largest *32 1000) / total_free).

Fixpoint best_fit_scan (fuel : nat) (size block best best_size : Z) : M heap_t Z :=
  match fuel with
  | O => nofuel
  | S fuel =>
      if block =? NULL then mret best
      else
        b ← rd block;
        if bh_free b && (size <=? bh_size b) && (bh_size b <? best_size) then
          if bh_size b =? size then mret block
          else best_fit_scan fuel size (bh_next b) block (bh_size b)
        else best_fit_scan fuel size (bh_next b) best best_size
  end.

Definition heap_best_fit_search (region : option heap_region_t) (size : Z) : M heap_t Z :=
  match region with
  | None => mret NULL
  | Some r => fuel ← gets list_fuel; best_fit_scan fuel size (hr_free_list r) NULL UINT32_MAX
  end.

Fixpoint quick_fit_init_loop (n : nat) (i : nat) (sz : Z) (cs : list quick_fit_class_t) :
    list quick_fit_class_t :=
  match n with
  | O => cs
  | S n => quick_fit_init_loop n (S i) (sz *32 2) (<[i := QuickFit sz NULL]> cs)
  end.

Definition heap_quick_fit_init : M heap_t unit :=
  modify (fun h => Heap (heap_type h) (regions h) (region_count h) (stats h)
    (quick_fit_init_loop (Z.to_nat QUICK_FIT_CLASSES) 0 32 (quick_fit_classes h)) (headers h) (bytes h)).

Fixpoint quick_fit_find (cs : list quick_fit_class_t) (i size : Z) : Z :=
  match cs with
  | [] => QUICK_FIT_CLASSES
  | c :: cs => if size <=? qf_size c then i else quick_fit_find cs (i + 1) size
  end.

Definition heap_quick_fit_class (size : Z) : M heap_t Z :=
  gets (fun h => quick_fit_find (quick_fit_classes h) 0 size).

(** ** The abstract heap

    A region is the list of its blocks in address order, each a size and whether
    it is in use. *)

Notation block := (Z * bool)%type.

Definition blk_header (sz : Z) (used : bool) (nx pv : Z) : block_header_t :=
  Header sz (if used then BLOCK_MAGIC_ALLOC else BLOCK_MAGIC_FREE) (negb used) nx pv.

Fixpoint total (bl : list block) : Z :=
  match bl with [] => 0 | (sz, _) :: bl => sz + total bl end.
Definition block_ok (b : block) : Prop := 32 <= b.1 /\ (8 | b.1).

(** [first a nx bl] is the address of the first block of [bl] laid out at [a]. *)
Definition first (a nx : Z) (bl : list block) : Z := match bl with [] => nx | _ => a end.

Fixpoint last_addr (pv a : Z) (bl : list block) : Z :=
  match bl with [] => pv | (sz, _) :: bl => last_addr a (a + sz) bl end.

(** The doubly-linked headers of [bl] laid out from [a]: [pv] is the block before,
    [nx] the block after. *)
Fixpoint seg (hs : gmap Z block_header_t) (pv a nx : Z) (bl : list block) : Prop :=
  match bl with
  | [] => True
  | (sz, u) :: bl => hs !! a = Some (blk_header sz u (first (a + sz) nx bl) pv) /\ seg hs a (a + sz) nx bl
  end.

(** [k] is the header address of a block in use. *)
Fixpoint used_at (a : Z) (bl : list block) (k : Z) : Prop :=
  match bl with
  | [] => False
  | (sz, u) :: bl => (u = true /\ k = a) \/ used_at (a + sz) bl k
  end.

Fixpoint coalesced (bl : list block) : Prop :=
  match bl with
  | (_, u1) :: (((_, u2) :: _) as bl') => (u1 || u2 = true) /\ coalesced bl'
  | _ => True
  end.

Lemma total_app l1 l2 : total (l1 ++ l2) = total l1 + total l2.
Proof. induction l1 as [|[sz u] l1 IH]; simpl; [done|]. rewrite IH. lia. Qed.

Lemma total_nonneg bl : Forall block_ok bl -> 0 <= total bl.
Proof. induction 1 as [|[sz u] bl [Hb _] _ IH]; simpl in *; lia. Qed.

Lemma total_div bl : Forall block_ok bl -> (8 | total bl).
Proof. induction 1 as [|[sz u] bl [_ Hb] _ IH]; simpl in *; [apply Z.divide_0_r|by apply Z.divide_add_r]. Qed.

Lemma seg_app hs pv a nx l1 l2 :
  seg hs pv a nx (l1 ++ l2) <->
  seg hs pv a (first (a + total l1) nx l2) l1 /\ seg hs (last_addr pv a l1) (a + total l1) nx l2.
Proof.
  revert pv a. induction l1 as [|[sz u] l1 IH]; intros pv a; simpl.
  - rewrite Z.add_0_r. tauto.
  - rewrite IH. rewrite Z.add_assoc.
    assert (first (a + sz) nx (l1 ++ l2) = first (a + sz) (first (a + sz + total l1) nx l2) l1) as ->;
      [|tauto]. destruct l1; simpl; [by rewrite Z.add_0_r|done].
Qed.

Lemma used_at_app a l1 l2 k :
  used_at a (l1 ++ l2) k <-> used_at a l1 k \/ used_at (a + total l1) l2 k.
Proof.
  revert a. induction l1 as [|[sz u] l1 IH]; intros a; simpl.
  - rewrite Z.add_0_r. tauto.
  - rewrite IH, Z.add_assoc. tauto.
Qed.

Lemma used_at_split a bl k :
  used_at a bl k -> exists l1 sz l2, bl = l1 ++ (sz, true) :: l2 /\ k = a + total l1.
Proof.
  revert a. induction bl as [|[sz u] bl IH]; intros a; simpl; [done|].
  intros [[-> ->]|H].
  - exists [], sz, bl. split; [done|]. simpl. lia.
  - destruct (IH _ H) as (l1 & s & l2 & -> & ->). exists ((sz, u) :: l1), s, l2. simpl. split; [done|lia].
Qed.

Lemma used_at_bounds a bl k :
  Forall block_ok bl -> used_at a bl k -> a <= k /\ k + 32 <= a + total bl.
Proof.
  intros Hb. revert a. induction Hb as [|[sz u] bl [H8 _] Hb IH]; intros a; simpl in *; [done|].
  pose proof (total_nonneg bl Hb). intros [[-> ->]|H1]; [lia|]. specialize (IH _ H1). lia.
Qed.

Lemma last_addr_bounds pv a bl :
  Forall block_ok bl -> bl <> [] -> a <= last_addr pv a bl /\ last_addr pv a bl + 32 <= a + total bl.
Proof.
  intros Hb. revert pv a. induction Hb as [|[sz u] bl [H8 _] Hb IH]; intros pv a Hne; [done|].
  simpl in *. destruct bl as [|b bl]; simpl in *; [lia|].
  destruct b as [s1 u1]. specialize (IH a (a + sz) ltac:(done)). simpl in IH. lia.
Qed.

Lemma last_addr_snoc pv a bl b : last_addr pv a (bl ++ [b]) = a + total bl.
Proof.
  revert pv a. induction bl as [|[sz u] bl IH]; intros pv a; simpl; [destruct b; simpl; lia|].
  rewrite IH. lia.
Qed.

Lemma seg_frame hs hs' pv a nx bl :
  Forall block_ok bl ->
  (forall k, a <= k < a + total bl -> hs' !! k = hs !! k) ->
  seg hs pv a nx bl -> seg hs' pv a nx bl.
Proof.
  intros Hb. revert pv a. induction Hb as [|[sz u] bl [H8 _] Hb IH]; intros pv a Hf; simpl in *; [done|].
  pose proof (total_nonneg bl Hb). intros [H1 H2]. split.
  - rewrite Hf by lia. done.
  - apply IH; [|done]. intros k Hk. apply Hf. lia.
Qed.

(** Changing the links at the two ends of a segment. *)
Lemma seg_first hs hs' pv pv' a nx bl :
  Forall block_ok bl ->
  (bl <> [] -> hs' !! a = set_prev pv' <$> hs !! a) ->
  (forall k, a < k < a + total bl -> hs' !! k = hs !! k) ->
  seg hs pv a nx bl -> seg hs' pv' a nx bl.
Proof.
  destruct bl as [|[sz u] bl]; simpl; [done|]. intros Hb Ha Hf [H1 H2].
  apply Forall_cons in Hb as [[H8 _] Hb]. simpl in H8. split.
  - rewrite Ha by done. rewrite H1. done.
  - eapply seg_frame; [done| |done]. intros k Hk. apply Hf. lia.
Qed.

(** ** Walking a block list *)

Fixpoint addrs (a : Z) (bl : list block) : list Z :=
  match bl with [] => [] | (sz, _) :: bl => a :: addrs (a + sz) bl end.

Lemma addrs_ge a bl x : Forall block_ok bl -> x ∈ addrs a bl -> a <= x.
Proof.
  intros Hb. revert a. induction Hb as [|[sz u] bl [H8 _] Hb IH]; intros a; simpl in *.
  - intros Hx. by apply elem_of_nil in Hx.
  - intros [->|Hx]%elem_of_cons; [lia|]. apply IH in Hx. lia.
Qed.

Lemma seg_length hs pv a nx bl : Forall block_ok bl -> seg hs pv a nx bl -> (length bl <= size hs)%nat.
Proof.
  intros Hb Hs.
  assert (NoDup (addrs a bl) /\ Forall (fun x => x ∈ dom hs) (addrs a bl)) as [Hn Hd].
  { revert pv a Hs. induction Hb as [|[sz u] bl [H8 _] Hb IH]; intros pv a; simpl in *.
    - intros _. split; constructor.
    - intros [H1 H2]. destruct (IH _ _ H2). split; constructor; try done.
      + intros Hx. apply addrs_ge in Hx; [lia|done].
      + apply elem_of_dom. eauto. }
  assert (length (addrs a bl) = length bl) as <- by (clear; revert a; induction bl as [|[??] ? IH]; simpl; auto).
  rewrite <- (size_list_to_set (C := gset Z) _ Hn), <- size_dom.
  apply subseteq_size. intros x Hx. apply elem_of_list_to_set in Hx.
  by eapply Forall_forall in Hd.
Qed.

(** The block the scan picks. *)
Fixpoint pick (type size a : Z) (bl : list block) (best best_size : Z) : Z :=
  match bl with
  | [] => best
  | (sz, u) :: bl =>
      if negb u && (size <=? sz) then
        if type =? HEAP_TYPE_2 then
          if sz <? best_size then pick type size (a + sz) bl a sz
          else pick type size (a + sz) bl best best_size
        else a
      else pick type size (a + sz) bl best best_size
  end.

Lemma first_nonnull a bl : 0 < a -> bl <> [] -> (first a 0 bl =? 0) = false.
Proof. destruct bl; [done|]. intros. apply Z.eqb_neq. simpl. lia. Qed.

Lemma block_scan_pick fuel type size pv a bl best bs h :
  0 < a -> Forall block_ok bl -> (length bl < fuel)%nat -> seg (headers h) pv a 0 bl ->
  block_scan fuel type size (first a 0 bl) best bs h = Done (pick type size a bl best bs, h).
Proof.
  intros Ha Hb. revert fuel pv a best bs Ha.
  induction Hb as [|[sz u] bl [H8 _] Hb IH]; intros [|fuel] pv a best bs Ha Hf Hs; simpl in Hf; try lia.
  - done.
  - destruct Hs as [H1 H2]. cbn [block_scan first pick]. unfold NULL.
    rewrite (proj2 (Z.eqb_neq a 0)) by lia. unfold mbind, M_bind, rd. rewrite H1. cbn [bh_free bh_size blk_header].
    simpl in H8. cbn [bh_next].
    assert (forall b c, block_scan fuel type size (first (a + sz) 0 bl) b c h =
                        Done (pick type size (a + sz) bl b c, h)) as Hrec
      by (intros; eapply IH; [lia|lia|exact H2]).
    repeat case_match; try apply Hrec; done.
Qed.

(** The picked block is free and large enough; it is the first such block, or,
    for heap type 2, the smallest; when no block is picked none fits. *)
Definition fits (size : Z) (b : block) : Prop := b.2 = false /\ size <= b.1.

Lemma fits_false size sz u : negb u && (size <=? sz) = false -> ~ fits size (sz, u).
Proof. unfold fits. destruct u; simpl; [naive_solver|]. intros H%Z.leb_gt. naive_solver lia. Qed.

Lemma pick_first_fit type size a bl best bs :
  type <> HEAP_TYPE_2 ->
  (pick type size a bl best bs = best /\ Forall (fun b => ~ fits size b) bl) \/
  exists l1 sz l2, bl = l1 ++ (sz, false) :: l2 /\ pick type size a bl best bs = a + total l1 /\
    size <= sz /\ Forall (fun b => ~ fits size b) l1.
Proof.
  intros Ht. revert a. induction bl as [|[sz u] bl IH]; intros a; simpl; [by left|].
  destruct (negb u && (size <=? sz)) eqn:E.
  - right. rewrite (proj2 (Z.eqb_neq _ _) Ht). apply andb_true_iff in E as [Eu Es%Z.leb_le].
    destruct u; [done|]. exists [], sz, bl. simpl. split_and!; [done|lia|done|constructor].
  - apply fits_false in E. destruct (IH (a + sz)) as [[H1 H2]|(l1 & s & l2 & -> & H2 & H3 & H4)].
    + left. split; [done|]. by constructor.
    + right. exists ((sz, u) :: l1), s, l2. rewrite H2. simpl. split_and!; [done|lia|done|by constructor].
Qed.

Lemma pick_best_fit size a bl best bs :
  Forall (fun b => b.1 < UINT32_MAX) bl ->
  (pick HEAP_TYPE_2 size a bl best bs = best /\ Forall (fun b => fits size b -> bs <= b.1) bl) \/
  exists l1 sz l2, bl = l1 ++ (sz, false) :: l2 /\ pick HEAP_TYPE_2 size a bl best bs = a + total l1 /\
    size <= sz /\ sz < bs /\ Forall (fun b => fits size b -> sz <= b.1) bl.
Proof.
  intros Hm. revert a best bs. induction Hm as [|[sz u] bl Hsz Hm IH]; intros a best bs; simpl; [by left|].
  destruct (negb u && (size <=? sz)) eqn:E.
  - apply andb_true_iff in E as [Eu Es%Z.leb_le]. destruct u; [done|].
    destruct (Z.ltb_spec sz bs) as [Hlt|Hge].
    + right. destruct (IH (a + sz) a sz) as [[H1 H2]|(l1 & s & l2 & -> & H2 & H3 & H4 & H5)].
      * exists [], sz, bl. simpl. rewrite H1. split_and!; [done|lia|done|done|]. constructor; [|done]. done.
      * exists ((sz, false) :: l1), s, l2. rewrite H2. simpl. split_and!; [done|lia|done|lia|].
        constructor; [|done]. simpl. lia.
    + destruct (IH (a + sz) best bs) as [[H1 H2]|(l1 & s & l2 & -> & H2 & H3 & H4 & H5)].
      * left. split; [done|]. constructor; [|done]. simpl. lia.
      * right. exists ((sz, false) :: l1), s, l2. rewrite H2. simpl. split_and!; [done|lia|done|done|].
        constructor; [|done]. simpl. lia.
  - apply fits_false in E. destruct (IH (a + sz) best bs) as [[H1 H2]|(l1 & s & l2 & -> & H2 & H3 & H4 & H5)].
    + left. split; [done|]. constructor; [|done]. intros ?. done.
    + right. exists ((sz, u) :: l1), s, l2. rewrite H2. simpl. split_and!; [done|lia|done|done|].
      constructor; [|done]. intros ?. done.
Qed.
(** ** Header updates on a region *)

Lemma seg_replace hs hs' a l1 mid mid' l2 :
  Forall block_ok (l1 ++ mid ++ l2) -> total mid' = total mid -> mid <> [] -> mid' <> [] ->
  let x := a + total l1 in
  let z := x + total mid in
  seg hs 0 a 0 (l1 ++ mid ++ l2) ->
  (forall k, a <= k < x -> hs' !! k = hs !! k) ->
  seg hs' (last_addr 0 a l1) x (first z 0 l2) mid' ->
  (l2 <> [] -> hs' !! z = set_prev (last_addr (last_addr 0 a l1) x mid') <$> hs !! z) ->
  (forall k, z < k < z + total l2 -> hs' !! k = hs !! k) ->
  seg hs' 0 a 0 (l1 ++ mid' ++ l2).
Proof.
  intros Hb Ht Hm Hm' x z Hs H1 H2 H3 H4.
  apply Forall_app in Hb as [Hb1 [_ Hb2]%Forall_app].
  rewrite !seg_app in *. rewrite Ht. fold x z in Hs |- *.
  destruct Hs as (S1 & _ & S3). split_and!; [|done|].
  - destruct mid; [done|]. destruct mid'; [done|]. simpl in *.
    eapply seg_frame; [done|exact H1|done].
  - eapply seg_first; [done|exact H3|exact H4|exact S3].
Qed.

Lemma rd_Done h a b : headers h !! a = Some b -> rd a h = Done (b, h).
Proof. unfold rd. by intros ->. Qed.

Lemma upd_Done h a f :
  is_Some (headers h !! a) -> in_heap h a BLOCK_HEADER_SIZE = true ->
  upd a f h = Done (tt, set_headers (alter f a (headers h)) h).
Proof.
  intros [b H1] H2. unfold upd. rewrite (bind_step _ _ _ _ _ (rd_Done _ _ _ H1)). unfold wr. rewrite H2.
  do 3 f_equal. apply map_eq. intros k. destruct (decide (k = a)) as [->|].
  - by rewrite lookup_insert_eq, lookup_alter_eq, H1.
  - by rewrite lookup_insert_ne, lookup_alter_ne by done.
Qed.

Lemma wr_Done h a b :
  in_heap h a BLOCK_HEADER_SIZE = true -> wr a b h = Done (tt, set_headers (<[a := b]> (headers h)) h).
Proof. intros H. unfold wr. by rewrite H. Qed.

Lemma set_headers_twice m m' h : set_headers m (set_headers m' h) = set_headers m h.
Proof. done. Qed.

(** What the operations on the blocks of a region need of it. *)
Definition region_mem (h : heap_t) (a : Z) (bl : list block) : Prop :=
  0 < a /\ Forall block_ok bl /\ total bl < 4294967296 /\ seg (headers h) 0 a 0 bl /\
  forall k, a <= k -> k + 32 <= a + total bl -> in_heap h k BLOCK_HEADER_SIZE = true.

(** The back link of the first block of [l2], laid out at [z]. *)
Definition relink (z v : Z) (l2 : list block) (hs : gmap Z block_header_t) : gmap Z block_header_t :=
  match l2 with [] => hs | _ => alter (set_prev v) z hs end.

Lemma lookup_relink_ne z v l2 hs k : k <> z -> relink z v l2 hs !! k = hs !! k.
Proof. intros. destruct l2; [done|]. by apply lookup_alter_ne. Qed.

Lemma lookup_relink_eq z v l2 hs : l2 <> [] -> relink z v l2 hs !! z = set_prev v <$> hs !! z.
Proof. destruct l2; [done|]. intros _. apply lookup_alter_eq. Qed.

Lemma relink_Done h z v l2 :
  0 < z -> (l2 <> [] -> is_Some (headers h !! z) /\ in_heap h z BLOCK_HEADER_SIZE = true) ->
  when (truthy (first z 0 l2)) (upd (first z 0 l2) (set_prev v)) h =
  Done (tt, set_headers (relink z v l2 (headers h)) h).
Proof.
  intros Hz H. destruct l2 as [|b l2]; simpl; [by destruct h|].
  unfold truthy. rewrite (proj2 (Z.eqb_neq z 0)) by lia. simpl.
  destruct H as [H1 H2]; [done|]. by apply upd_Done.
Qed.

(** Looking a key up in an updated header map. *)
Ltac map_keys :=
  repeat first
    [ rewrite lookup_insert_eq | rewrite lookup_insert_ne by lia
    | rewrite lookup_alter_eq | rewrite lookup_alter_ne by lia
    | rewrite lookup_relink_ne by lia | rewrite lookup_relink_eq by done ].

Definition magic_of (hs : gmap Z block_header_t) (k : Z) : option Z := bh_magic <$> hs !! k.

Lemma magic_alter f a hs k :
  (forall b, bh_magic (f b) = bh_magic b) -> magic_of (alter f a hs) k = magic_of hs k.
Proof.
  intros Hf. unfold magic_of. destruct (decide (k = a)) as [->|].
  - rewrite lookup_alter_eq. destruct (hs !! a); simpl; [by rewrite Hf|done].
  - by rewrite lookup_alter_ne.
Qed.

Lemma magic_relink z v l2 hs k : magic_of (relink z v l2 hs) k = magic_of hs k.
Proof. destruct l2; [done|]. by apply magic_alter. Qed.

(** The header operations change only headers of the region and create no block
    in use. *)
Definition region_frame (a : Z) (bl : list block) (hs hs' : gmap Z block_header_t) : Prop :=
  (forall k, k < a \/ a + total bl <= k -> hs' !! k = hs !! k) /\
  (forall k, magic_of hs' k = Some BLOCK_MAGIC_ALLOC -> magic_of hs k = Some BLOCK_MAGIC_ALLOC).

Lemma seg_mid hs a l1 sz u l2 :
  seg hs 0 a 0 (l1 ++ (sz, u) :: l2) ->
  hs !! (a + total l1) = Some (blk_header sz u (first (a + total l1 + sz) 0 l2) (last_addr 0 a l1)).
Proof. rewrite seg_app. simpl. tauto. Qed.

Lemma seg_next hs a l1 sz u s2 u2 l2 :
  seg hs 0 a 0 (l1 ++ (sz, u) :: (s2, u2) :: l2) ->
  hs !! (a + total l1 + sz) =
  Some (blk_header s2 u2 (first (a + total l1 + sz + s2) 0 l2) (a + total l1)).
Proof. rewrite seg_app. simpl. tauto. Qed.

Definition split_blocks (n sz : Z) (u : bool) : list block :=
  if HEAP_MIN_BLOCK_SIZE <=? sz - n then [(n, u); (sz - n, false)] else [(sz, u)].

Ltac blocks_ok :=
  repeat match goal with
  | H : Forall block_ok (_ ++ _) |- _ => apply Forall_app in H as [? ?]
  | H : Forall block_ok (_ :: _) |- _ => apply Forall_cons in H as [[? ?] ?]
  end; simpl fst in *.
Ltac oks :=
  repeat first [apply Forall_nil; done | apply Forall_app; split | apply Forall_cons; split];
  unfold block_ok; simpl; auto.
Ltac totals :=
  repeat match goal with
  | H : Forall block_ok ?l |- _ =>
      lazymatch goal with _ : 0 <= total l |- _ => fail | _ => pose proof (total_nonneg l H) end
  end.

Lemma block_split_seg h a l1 sz l2 n :
  region_mem h a (l1 ++ (sz, false) :: l2) -> 32 <= n <= sz ->
  exists hs', block_split (a + total l1) n h = Done (tt, set_headers hs' h) /\
    seg hs' 0 a 0 (l1 ++ split_blocks n sz false ++ l2) /\
    region_frame a (l1 ++ (sz, false) :: l2) (headers h) hs'.
Proof.
  intros (Ha & Hb & Ht & Hs & Hm) Hn.
  rewrite total_app in Ht, Hm. simpl in Ht, Hm. blocks_ok. totals.
  set (x := a + total l1) in *. pose proof (seg_mid _ _ _ _ _ _ Hs) as Hx. fold x in Hx.
  unfold block_split. rewrite (bind_step _ _ _ _ _ (rd_Done _ _ _ Hx)). cbn [bh_size bh_next blk_header].
  unfold split_blocks. rewrite u32_small by lia.
  destruct (HEAP_MIN_BLOCK_SIZE <=? sz - n) eqn:E.
  2: { exists (headers h). split_and!; [by destruct h|done|]. by split. }
  unfold HEAP_MIN_BLOCK_SIZE in E. apply Z.leb_le in E. cbn [when].
  assert (l2 <> [] -> is_Some (headers h !! (x + sz)) /\ 0 < total l2 /\ 32 <= total l2) as Hl2.
  { intros Hne. destruct l2 as [|[s2 u2] l2]; [done|]. blocks_ok. totals. simpl.
    apply seg_next in Hs. fold x in Hs. rewrite Hs. split; [eauto|lia]. }
  rewrite (bind_step _ _ _ _ _ (wr_Done _ _ _ (Hm (x + n) ltac:(lia) ltac:(lia)))).
  erewrite bind_step.
  2: { apply relink_Done; [lia|]. intros Hne. destruct (Hl2 Hne) as [Hi ?]. simpl. map_keys.
       split; [done|]. apply (Hm (x + sz)); lia. }
  erewrite bind_step by (eapply upd_Done; [simpl; map_keys; rewrite Hx; eauto|apply (Hm x); lia]).
  erewrite upd_Done by (simpl; map_keys; rewrite ?Hx; eauto; apply (Hm x); lia).
  rewrite !set_headers_twice. eexists. split; [reflexivity|]. cbn [headers set_headers]. split.
  - eapply (seg_replace (headers h) _ a l1 [(sz, false)] _ l2); [oks|..]; try done; fold x.
    + simpl. lia.
    + intros k Hk. map_keys. done.
    + simpl. map_keys. rewrite Hx, Z.add_0_r. simpl.
      replace (x + n + (sz - n)) with (x + sz) by lia. split_and!; done.
    + intros Hne. simpl. rewrite Z.add_0_r. map_keys. done.
    + intros k Hk. simpl in Hk. map_keys. done.
  - unfold region_frame. rewrite total_app. split; simpl.
    + intros k Hk. destruct (decide (l2 = [])) as [->|Hne].
      * map_keys. simpl. map_keys. done.
      * destruct (Hl2 Hne). map_keys. done.
    + intros k. rewrite !magic_alter, magic_relink by done. unfold magic_of.
      destruct (decide (k = x + n)) as [->|]; [by map_keys|by rewrite lookup_insert_ne by done].
Qed.

Lemma absorb_seg h a l1 s1 u1 s2 u2 l2 :
  region_mem h a (l1 ++ (s1, u1) :: (s2, u2) :: l2) ->
  exists hs', absorb (a + total l1) (a + total l1 + s1) h = Done (tt, set_headers hs' h) /\
    seg hs' 0 a 0 (l1 ++ (s1 + s2, u1) :: l2) /\
    (forall k, k < a \/ a + total (l1 ++ (s1, u1) :: (s2, u2) :: l2) <= k -> hs' !! k = headers h !! k) /\
    (forall k, magic_of hs' k = magic_of (headers h) k).
Proof.
  intros (Ha & Hb & Ht & Hs & Hm).
  rewrite total_app in Ht, Hm |- *. simpl in Ht, Hm |- *. blocks_ok. totals.
  set (x := a + total l1) in *. pose proof (seg_mid _ _ _ _ _ _ Hs) as Hx. fold x in Hx.
  pose proof (seg_next _ _ _ _ _ _ _ _ Hs) as Hy. fold x in Hy. simpl in Hx.
  assert (l2 <> [] -> is_Some (headers h !! (x + s1 + s2)) /\ 32 <= total l2) as Hl2.
  { intros Hne. destruct l2 as [|[s3 u3] l2]; [done|]. blocks_ok. totals. simpl.
    change (l1 ++ (s1, u1) :: ?l) with (l1 ++ [(s1, u1)] ++ l) in Hs.
    rewrite (app_assoc l1 [(s1, u1)]) in Hs. apply seg_next in Hs. rewrite total_app in Hs. simpl in Hs.
    replace (a + (total l1 + (s1 + 0)) + s2) with (x + s1 + s2) in Hs by lia. rewrite Hs. split; [eauto|lia]. }
  unfold absorb. rewrite (bind_step _ _ _ _ _ (rd_Done _ _ _ Hy)). cbn [bh_size bh_next blk_header].
  erewrite bind_step by (eapply upd_Done; [rewrite Hx; eauto|apply (Hm x); lia]).
  erewrite bind_step by (eapply upd_Done; [simpl; map_keys; rewrite Hx; eauto|apply (Hm x); lia]).
  erewrite relink_Done; [|lia|].
  2: { intros Hne. destruct (Hl2 Hne). simpl. map_keys. split; [done|]. apply (Hm (x + s1 + s2)); lia. }
  rewrite !set_headers_twice. eexists. split; [reflexivity|]. cbn [headers set_headers]. split_and!.
  - eapply (seg_replace (headers h) _ a l1 [(s1, u1); (s2, u2)] [(s1 + s2, u1)] l2); [oks|..]; try done; fold x; simpl.
    + lia.
    + intros k Hk. map_keys. done.
    + map_keys. rewrite Hx. simpl. rewrite u32_small by lia. split; [|done].
      unfold set_next, set_size, blk_header. simpl. do 2 f_equal. f_equal; lia.
    + intros Hne. rewrite Z.add_0_r, Z.add_assoc. map_keys. done.
    + intros k Hk. map_keys. done.
  - intros k Hk. destruct (decide (l2 = [])) as [->|Hne].
    + simpl. map_keys. done.
    + destruct (Hl2 Hne). map_keys. done.
  - intros k. rewrite magic_relink, !magic_alter by done. done.
Qed.

Lemma use_seg hs a l1 sz u u' l2 :
  Forall block_ok (l1 ++ (sz, u) :: l2) ->
  seg hs 0 a 0 (l1 ++ (sz, u) :: l2) ->
  seg (alter (set_use (negb u') (if u' then BLOCK_MAGIC_ALLOC else BLOCK_MAGIC_FREE)) (a + total l1) hs)
      0 a 0 (l1 ++ (sz, u') :: l2).
Proof.
  intros Hb Hs. pose proof (seg_mid _ _ _ _ _ _ Hs) as Hx. blocks_ok. totals.
  eapply (seg_replace hs _ a l1 [(sz, u)] [(sz, u')] l2); [oks|..]; try done; simpl.
  - intros k Hk. map_keys. done.
  - map_keys. rewrite Hx. simpl. split; [|done].
    by replace (a + total l1 + (sz + 0)) with (a + total l1 + sz) by lia.
  - intros Hne. map_keys. destruct l2 as [|[s2 u2] l2]; [done|].
    apply seg_next in Hs. replace (a + total l1 + (sz + 0)) with (a + total l1 + sz) by lia. by rewrite Hs.
  - intros k Hk. map_keys. done.
Qed.
(** ** Coalescing *)

Definition merge_right (sz : Z) (l2 : list block) : Z * list block :=
  match l2 with (s2, false) :: l2 => (sz + s2, l2) | _ => (sz, l2) end.
Definition merge_left (l1 : list block) (sz : Z) : list block :=
  match last l1 with
  | Some (s0, false) => take (length l1 - 1) l1 ++ [(s0 + sz, false)]
  | _ => l1 ++ [(sz, false)]
  end.
Definition coalesce (l1 : list block) (sz : Z) (l2 : list block) : list block :=
  let '(s, l2') := merge_right sz l2 in merge_left l1 s ++ l2'.

Lemma take_snoc {A} (l : list A) x : take (length (l ++ [x]) - 1) (l ++ [x]) = l.
Proof. rewrite length_app. simpl. rewrite Nat.add_sub. apply take_app_length. Qed.

Lemma merge_left_snoc l s0 u sz :
  merge_left (l ++ [(s0, u)]) sz = if u then l ++ [(s0, u); (sz, false)] else l ++ [(s0 + sz, false)].
Proof.
  unfold merge_left. rewrite last_snoc, take_snoc. destruct u; [|done]. by rewrite <- app_assoc.
Qed.

Lemma coalesced_app l1 b l2 : coalesced (l1 ++ b :: l2) <-> coalesced (l1 ++ [b]) /\ coalesced (b :: l2).
Proof.
  induction l1 as [|[s1 u1] l1 IH]; simpl app.
  - simpl. destruct b. tauto.
  - destruct l1 as [|[s2 u2] l1]; simpl in *; [destruct b; tauto|tauto].
Qed.

Lemma coalesced_sizes l1 s s' u l2 : coalesced (l1 ++ (s, u) :: l2) -> coalesced (l1 ++ (s', u) :: l2).
Proof.
  rewrite (coalesced_app l1 (s, u) l2), (coalesced_app l1 (s', u) l2). intros [H1 H2]. split; [|by destruct l2].
  clear H2. induction l1 as [|[s1 u1] l1 IH]; simpl in *; [done|].
  destruct l1 as [|[s2 u2] l1]; simpl in *; tauto.
Qed.

(** Freeing a block of a fully coalesced region leaves it fully coalesced. *)
Lemma coalesce_coalesced l1 sz l2 :
  coalesced (l1 ++ (sz, true) :: l2) -> coalesced (coalesce l1 sz l2).
Proof.
  intros H. unfold coalesce. destruct (merge_right sz l2) as [s l2'] eqn:E.
  apply coalesced_app in H as [H1 H2].
  assert (coalesced ((s, false) :: l2')) as H3.
  { unfold merge_right in E. destruct l2 as [|[s2 [|]] l2]; simplify_eq/=; try done; tauto. }
  destruct l1 as [|[s0 u0] l0 _] using rev_ind; [done|].
  rewrite merge_left_snoc. rewrite <- app_assoc in H1. simpl in H1. apply coalesced_app in H1 as [H1 _].
  destruct u0; rewrite <- app_assoc; cbn [app]; rewrite coalesced_app.
  - split; [done|]. split; [done|done].
  - split; [by eapply coalesced_sizes|]. by destruct l2' as [|[??] ?].
Qed.

Lemma region_mem_headers h hs a bl bl' :
  region_mem h a bl -> total bl' = total bl -> Forall block_ok bl' -> seg hs 0 a 0 bl' ->
  region_mem (set_headers hs h) a bl'.
Proof. intros (Ha & _ & Ht & _ & Hm) Et Hb Hs. unfold region_mem. rewrite Et. done. Qed.

Lemma first_truthy a bl : 0 < a -> truthy (first a 0 bl) = match bl with [] => false | _ => true end.
Proof. intros. destruct bl; [done|]. unfold truthy. simpl. by rewrite (proj2 (Z.eqb_neq a 0)) by lia. Qed.

Lemma coalesce_right h a l1 sz l2 :
  region_mem h a (l1 ++ (sz, false) :: l2) ->
  let x := a + total l1 in
  let '(s, l2') := merge_right sz l2 in
  exists hs', (b ← rd x; when (truthy (bh_next b)) (n ← rd (bh_next b); when (bh_free n) (absorb x (bh_next b)))) h =
    Done (tt, set_headers hs' h) /\
    region_mem (set_headers hs' h) a (l1 ++ (s, false) :: l2') /\
    total (l1 ++ (s, false) :: l2') = total (l1 ++ (sz, false) :: l2) /\
    (forall k, k < a \/ a + total (l1 ++ (sz, false) :: l2) <= k -> hs' !! k = headers h !! k) /\
    (forall k, magic_of hs' k = magic_of (headers h) k).
Proof.
  intros HR x. pose proof HR as (Ha & Hb & Ht & Hs & Hm).
  pose proof (seg_mid _ _ _ _ _ _ Hs) as Hx. fold x in Hx.
  rewrite total_app in Ht. simpl in Ht. assert (0 < x + sz) by (blocks_ok; totals; lia).
  rewrite (bind_step _ _ _ _ _ (rd_Done _ _ _ Hx)). cbn [bh_next blk_header].
  rewrite first_truthy by done.
  destruct l2 as [|[s2 u2] l2]; cbn [merge_right when].
  { exists (headers h). split; [by destruct h|]. by destruct h. }
  cbn [first]. pose proof (seg_next _ _ _ _ _ _ _ _ Hs) as Hy. fold x in Hy.
  rewrite (bind_step _ _ _ _ _ (rd_Done _ _ _ Hy)). cbn [bh_free blk_header].
  destruct u2; cbn [negb when].
  { exists (headers h). split; [by destruct h|]. by destruct h. }
  destruct (absorb_seg _ _ _ _ _ _ _ _ HR) as (hs' & H1 & H2 & H3 & H4).
  assert (total (l1 ++ (sz + s2, false) :: l2) = total (l1 ++ (sz, false) :: (s2, false) :: l2)) as Et
    by (rewrite !total_app; simpl; lia).
  exists hs'. split; [exact H1|]. split; [|done].
  eapply region_mem_headers; [done|done| |done]. clear -Hb. blocks_ok. oks.
  split; [lia|by apply Z.divide_add_r].
Qed.

Lemma coalesce_left h a l1 sz l2 :
  region_mem h a (l1 ++ (sz, false) :: l2) ->
  let x := a + total l1 in
  exists hs', (b ← rd x; when (truthy (bh_prev b)) (p ← rd (bh_prev b); when (bh_free p) (absorb (bh_prev b) x))) h =
    Done (tt, set_headers hs' h) /\
    region_mem (set_headers hs' h) a (merge_left l1 sz ++ l2) /\
    total (merge_left l1 sz ++ l2) = total (l1 ++ (sz, false) :: l2) /\
    (forall k, k < a \/ a + total (l1 ++ (sz, false) :: l2) <= k -> hs' !! k = headers h !! k) /\
    (forall k, magic_of hs' k = magic_of (headers h) k).
Proof.
  intros HR x. pose proof HR as (Ha & Hb & Ht & Hs & Hm).
  pose proof (seg_mid _ _ _ _ _ _ Hs) as Hx. fold x in Hx.
  rewrite (bind_step _ _ _ _ _ (rd_Done _ _ _ Hx)). cbn [bh_prev blk_header].
  destruct l1 as [|[s0 u0] l0 _] using rev_ind.
  { exists (headers h). split; [by destruct h|]. by destruct h. }
  rewrite merge_left_snoc. unfold x in *. clear x. rewrite last_addr_snoc.
  rewrite total_app in Hx |- *. simpl in Hx |- *. rewrite <- app_assoc in HR, Hs, Hb. simpl in HR, Hs, Hb.
  pose proof (seg_mid _ _ _ _ _ _ Hs) as Hp.
  assert (0 < a + total l0) by (blocks_ok; totals; lia).
  unfold truthy. rewrite (proj2 (Z.eqb_neq (a + total l0) 0)) by lia. cbn [negb when].
  rewrite (bind_step _ _ _ _ _ (rd_Done _ _ _ Hp)). cbn [bh_free blk_header].
  destruct u0; cbn [negb when]; rewrite <- !app_assoc; simpl.
  { exists (headers h). split; [by destruct h|]. by destruct h. }
  destruct (absorb_seg _ _ _ _ _ _ _ _ HR) as (hs' & H1 & H2 & H3 & H4).
  assert (total (l0 ++ (s0 + sz, false) :: l2) = total (l0 ++ (s0, false) :: (sz, false) :: l2)) as Et
    by (rewrite !total_app; simpl; lia).
  exists hs'. replace (a + (total l0 + (s0 + 0))) with (a + total l0 + s0) by lia.
  split; [exact H1|]. split; [|done].
  eapply region_mem_headers; [done|done| |done]. clear -Hb. blocks_ok. oks.
  split; [lia|by apply Z.divide_add_r].
Qed.

Lemma block_coalesce_seg r h a l1 sz l2 :
  region_mem h a (l1 ++ (sz, false) :: l2) ->
  exists hs', block_coalesce r (a + total l1) h = Done (tt, set_headers hs' h) /\
    region_mem (set_headers hs' h) a (coalesce l1 sz l2) /\
    total (coalesce l1 sz l2) = total (l1 ++ (sz, false) :: l2) /\
    (forall k, k < a \/ a + total (l1 ++ (sz, false) :: l2) <= k -> hs' !! k = headers h !! k) /\
    (forall k, magic_of hs' k = magic_of (headers h) k).
Proof.
  intros HR. pose proof (coalesce_right _ _ _ _ _ HR) as H1. unfold coalesce.
  destruct (merge_right sz l2) as [s l2']. destruct H1 as (hs1 & E1 & R1 & T1 & F1 & M1).
  destruct (coalesce_left _ _ _ _ _ R1) as (hs2 & E2 & R2 & T2 & F2 & M2).
  exists hs2. split_and!.
  - unfold block_coalesce. unfold mbind, M_bind in E1, E2 |- *.
    destruct (rd (a + total l1) h) as [[b h']| |] eqn:E; try done.
    rewrite E1. rewrite E2. done.
  - done.
  - by rewrite T2.
  - intros k Hk. rewrite F2 by (by rewrite T1). simpl. by apply F1.
  - intros k. rewrite M2. apply M1.
Qed.
(** ** Well-formed heaps *)

Definition region_wf (hs : gmap Z block_header_t) (r : heap_region_t) (bl : list block) : Prop :=
  hr_free_list r = first (hr_start r) 0 bl /\ hr_end r = hr_start r + total bl /\
  Forall block_ok bl /\ total bl < 4294967296 /\ (bl <> [] -> 0 < hr_start r) /\
  seg hs 0 (hr_start r) 0 bl.

Definition regions_disjoint (rs : list heap_region_t) : Prop :=
  forall i j r1 r2, i <> j -> rs !! i = Some r1 -> rs !! j = Some r2 ->
    hr_start r1 < hr_end r1 -> hr_start r2 < hr_end r2 -> hr_end r1 <= hr_start r2 \/ hr_end r2 <= hr_start r1.

Record heap_wf (h : heap_t) (ab : list (list block)) : Prop := HeapWf {
  wf_type : HEAP_TYPE_2 <= heap_type h <= HEAP_TYPE_5;
  wf_count : length (regions h) = 8%nat /\ 0 <= region_count h <= 8;
  wf_rest : forall j, (Z.to_nat (region_count h) <= j < 8)%nat -> regions h !! j = Some zero_region;
  wf_regions : Forall2 (region_wf (headers h)) (live_regions h) ab;
  wf_disjoint : regions_disjoint (live_regions h);
  wf_used : forall k, magic_of (headers h) k = Some BLOCK_MAGIC_ALLOC ->
    exists i r bl, live_regions h !! i = Some r /\ ab !! i = Some bl /\ used_at (hr_start r) bl k }.

Lemma wf_region_at h ab i r bl :
  heap_wf h ab -> live_regions h !! i = Some r -> ab !! i = Some bl -> region_wf (headers h) r bl.
Proof. intros Hwf Hr Hb. eapply Forall2_lookup_lr; [apply Hwf|done..]. Qed.

Lemma wf_region_mem h ab i r bl :
  heap_wf h ab -> live_regions h !! i = Some r -> ab !! i = Some bl -> bl <> [] ->
  region_mem h (hr_start r) bl.
Proof.
  intros Hwf Hr Hb Hne. destruct (wf_region_at _ _ _ _ _ Hwf Hr Hb) as (_ & He & Hok & Ht & Hs & Hseg).
  split_and!; auto. intros k H1 H2. unfold in_heap. apply existsb_exists. exists r.
  split; [apply list_elem_of_In; by eapply list_elem_of_lookup_2|].
  unfold in_region, BLOCK_HEADER_SIZE. apply andb_true_iff; split; apply Z.leb_le; lia.
Qed.

(** The block in use at an allocated header of a region is one of that region. *)
Lemma wf_used_inside h ab i r bl k :
  heap_wf h ab -> live_regions h !! i = Some r -> ab !! i = Some bl ->
  magic_of (headers h) k = Some BLOCK_MAGIC_ALLOC -> hr_start r <= k < hr_start r + total bl ->
  used_at (hr_start r) bl k.
Proof.
  intros Hwf Hr Hb Hk Hin. destruct (wf_used _ _ Hwf _ Hk) as (j & r' & bl' & Hr' & Hb' & Hu).
  destruct (decide (i = j)) as [->|Hij]; [by simplify_eq|].
  destruct (wf_region_at _ _ _ _ _ Hwf Hr' Hb') as (_ & He' & Hok' & _).
  destruct (wf_region_at _ _ _ _ _ Hwf Hr Hb) as (_ & He & Hok & _).
  pose proof (used_at_bounds _ _ _ Hok' Hu).
  destruct (wf_disjoint _ _ Hwf i j _ _ Hij Hr Hr'); lia.
Qed.

(** Replacing the blocks of one region. *)
Lemma wf_update h ab i r bl bl' hs' :
  heap_wf h ab -> live_regions h !! i = Some r -> ab !! i = Some bl -> bl <> [] -> bl' <> [] ->
  total bl' = total bl -> Forall block_ok bl' -> seg hs' 0 (hr_start r) 0 bl' ->
  (forall k, k < hr_start r \/ hr_start r + total bl <= k -> hs' !! k = headers h !! k) ->
  (forall k, magic_of hs' k = Some BLOCK_MAGIC_ALLOC ->
     hr_start r <= k < hr_start r + total bl -> used_at (hr_start r) bl' k) ->
  heap_wf (set_headers hs' h) (<[i := bl']> ab).
Proof.
  intros Hwf Hr Hb Hne Hne' Ht Hok Hs Hf Hu. pose proof (wf_region_at _ _ _ _ _ Hwf Hr Hb) as Hri.
  assert (i < length ab)%nat as Hi by (by eapply lookup_lt_Some). constructor.
  - apply Hwf.
  - apply Hwf.
  - apply Hwf.
  - change (live_regions (set_headers hs' h)) with (live_regions h). cbn [headers set_headers].
    apply Forall2_same_length_lookup_2.
    + rewrite length_insert. eapply Forall2_length, Hwf.
    + intros j r2 b2 Hr2 Hb2. destruct (decide (i = j)) as [<-|Hij].
      * rewrite list_lookup_insert_eq in Hb2 by done. simplify_eq.
        destruct Hri as (H1 & H2 & _ & H4 & H5 & _).
        split_and!; rewrite ?Ht; auto. destruct bl, b2; done.
      * rewrite list_lookup_insert_ne in Hb2 by done.
        destruct (wf_region_at _ _ _ _ _ Hwf Hr2 Hb2) as (H1 & H2 & H3 & H4 & H5 & H6).
        split_and!; auto. eapply seg_frame; [done| |done]. intros k Hk. apply Hf.
        destruct Hri as (_ & He & _).
        destruct (Z.lt_ge_cases (hr_start r) (hr_end r)); [|lia].
        destruct (wf_disjoint _ _ Hwf i j _ _ Hij Hr Hr2); lia.
  - apply Hwf.
  - intros k Hk. change (live_regions (set_headers hs' h)) with (live_regions h). cbn [headers set_headers] in Hk.
    destruct (decide (hr_start r <= k < hr_start r + total bl)) as [Hin|Hout].
    + exists i, r, bl'. rewrite list_lookup_insert_eq by done. split_and!; [done..|]. by apply Hu.
    + unfold magic_of in Hk. rewrite Hf in Hk by lia.
      destruct (wf_used _ _ Hwf _ Hk) as (j & r2 & b2 & Hr2 & Hb2 & Hu2).
      exists j, r2, b2. split_and!; try done. rewrite list_lookup_insert_ne; [done|].
      intros <-. simplify_eq. destruct Hri as (_ & He & Hok1 & _).
      pose proof (used_at_bounds _ _ _ Hok1 Hu2). lia.
Qed.

Lemma wf_set_stats h ab s : heap_wf h ab -> heap_wf (set_stats s h) ab.
Proof. intros []. by constructor. Qed.

(** ** Choosing a block *)

Lemma block_ok_max bl b : Forall block_ok bl -> total bl < 4294967296 -> b ∈ bl -> b.1 < UINT32_MAX.
Proof.
  intros Hok Ht Hb. assert (b.1 <= total bl) as Hle.
  { clear Ht. induction Hok as [|[sz u] bl [H8 _] Hok IH]; [by apply elem_of_nil in Hb|].
    simpl in *. pose proof (total_nonneg bl Hok). apply elem_of_cons in Hb as [->|Hb]; simpl; [lia|].
    specialize (IH Hb). lia. }
  rewrite Forall_forall in Hok. destruct (Hok b Hb) as [_ [q Hq]]. unfold UINT32_MAX. lia.
Qed.

(** The placement policy: first fit, and best fit for heap type 2. *)
Definition placed (type n : Z) (l1 : list block) (sz : Z) (l2 : list block) : Prop :=
  n <= sz /\
  if type =? HEAP_TYPE_2 then Forall (fun b => fits n b -> sz <= b.1) (l1 ++ (sz, false) :: l2)
  else Forall (fun b => ~ fits n b) l1.

Definition full (n : Z) (bl : list block) : Prop := Forall (fun b => ~ fits n b) bl.

Lemma block_alloc_spec h r bl n :
  HEAP_TYPE_2 <= heap_type h <= HEAP_TYPE_5 -> region_wf (headers h) r bl ->
  (block_alloc r n h = Done (NULL, h) /\ full n bl) \/
  exists l1 sz l2, bl = l1 ++ (sz, false) :: l2 /\ placed (heap_type h) n l1 sz l2 /\
    block_alloc r n h = Done (hr_start r + total l1, h).
Proof.
  intros Hty (Hf & He & Hok & Ht & Hp & Hs). unfold block_alloc.
  unfold HEAP_TYPE_1, HEAP_TYPE_2, HEAP_TYPE_5 in *.
  rewrite (proj2 (Z.eqb_neq (heap_type h) 1)) by lia.
  rewrite (proj2 (Z.leb_le 2 _)), (proj2 (Z.leb_le _ 5)) by lia. cbn [andb]. rewrite Hf.
  destruct (decide (bl = [])) as [->|Hne]; [left; split; [done|constructor]|].
  erewrite block_scan_pick; [|by apply Hp|exact Hok| |exact Hs].
  2: { unfold list_fuel. pose proof (seg_length _ _ _ _ _ Hok Hs). lia. }
  unfold placed. destruct (Z.eqb_spec (heap_type h) HEAP_TYPE_2) as [->|Hn2].
  - assert (Forall (fun b => b.1 < UINT32_MAX) bl) as Hmax
      by (apply Forall_forall; intros; by eapply block_ok_max).
    destruct (pick_best_fit n (hr_start r) bl NULL UINT32_MAX Hmax) as [[-> H2]|(l1 & sz & l2 & H1 & -> & H2 & _ & H3)].
    + left. split; [done|]. eapply Forall_impl; [by apply Forall_and; split; [exact H2|exact Hmax]|].
      simpl. intros b [H3 H4] Hb. specialize (H3 Hb). lia.
    + right. exists l1, sz, l2. subst bl. done.
  - destruct (pick_first_fit (heap_type h) n (hr_start r) bl NULL UINT32_MAX Hn2)
      as [[-> H2]|(l1 & sz & l2 & H1 & -> & H2 & H3)]; [by left|right].
    exists l1, sz, l2. done.
Qed.

Lemma region_loop_spec h n rs ab :
  HEAP_TYPE_2 <= heap_type h <= HEAP_TYPE_5 -> Forall2 (region_wf (headers h)) rs ab ->
  (region_loop rs n h = Done (NULL, h) /\ Forall (full n) ab) \/
  exists i r l1 sz l2, rs !! i = Some r /\ ab !! i = Some (l1 ++ (sz, false) :: l2) /\
    placed (heap_type h) n l1 sz l2 /\ Forall (full n) (take i ab) /\
    region_loop rs n h = Done (hr_start r + total l1, h).
Proof.
  intros Hty. induction 1 as [|r bl rs ab Hr _ IH]; [by left|]. cbn [region_loop].
  destruct (block_alloc_spec h r bl n Hty Hr) as [[E Hfull]|(l1 & sz & l2 & -> & Hpl & E)];
    rewrite (bind_step _ _ _ _ _ E).
  - change (truthy NULL) with false. cbn iota.
    destruct IH as [[IH1 IH2]|(i & r2 & l1 & sz & l2 & H1 & H2 & H3 & H4 & H5)].
    + left. split; [done|]. by constructor.
    + right. exists (S i), r2, l1, sz, l2. split_and!; try done. simpl. by constructor.
  - right. exists 0%nat, r, l1, sz, l2. split_and!; try done; try constructor.
    assert (0 < hr_start r + total l1) as Hp.
    { destruct Hr as (_ & _ & Hok & _ & Hp & _). specialize (Hp ltac:(by destruct l1)). blocks_ok. totals. lia. }
    unfold truthy. by rewrite (proj2 (Z.eqb_neq _ 0)) by lia.
Qed.

(** ** Request sizes *)

Lemma mask8 x : 0 <= x < 4294967296 -> Z.land x (u32 (Z.lnot (HEAP_ALIGNMENT - 1))) = 8 * (x / 8).
Proof.
  intros Hx. change (u32 (Z.lnot (HEAP_ALIGNMENT - 1))) with (Z.shiftl (Z.ones 29) 3).
  replace (8 * (x / 8)) with (Z.shiftl (Z.shiftr x 3) 3)
    by (rewrite Z.shiftl_mul_pow2, Z.shiftr_div_pow2 by lia; change (2 ^ 3) with 8; lia).
  apply Z.bits_inj'. intros i Hi. rewrite Z.land_spec. destruct (Z.lt_ge_cases i 3).
  - by rewrite !Z.shiftl_spec_low, andb_false_r by lia.
  - rewrite !Z.shiftl_spec, Z.shiftr_spec by lia. replace (i - 3 + 3) with i by lia.
    destruct (Z.lt_ge_cases i 32).
    + rewrite Z.ones_spec_low by lia. by rewrite andb_true_r.
    + rewrite (testbit_high 32 x i) by (simpl; lia). done.
Qed.

Lemma align_down_eq x : align_down x = 8 * (x / 8).
Proof.
  unfold align_down, HEAP_ALIGNMENT. change (8 - 1) with (Z.ones 3).
  rewrite <- Z.ldiff_land, Z.ldiff_ones_r, Z.shiftl_mul_pow2, Z.shiftr_div_pow2 by lia.
  change (2 ^ 3) with 8. lia.
Qed.

Lemma request_size_ok size : 32 <= request_size size < 4294967296 /\ (8 | request_size size).
Proof.
  unfold request_size. rewrite mask8 by apply u32_range.
  pose proof (u32_range (u32 size +32 BLOCK_HEADER_SIZE +32 HEAP_ALIGNMENT - 1)) as Hr.
  set (y := u32 _) in *. clearbody y. unfold HEAP_MIN_BLOCK_SIZE.
  destruct (Z.ltb_spec (8 * (y / 8)) 32).
  - split; [lia|by exists 4].
  - split; [divmod_lia|apply Z.divide_factor_l].
Qed.

Lemma request_size_eq size : 0 <= size < 4294967256 -> request_size size = 8 * ((size + 39) / 8).
Proof.
  intros Hs. unfold request_size, BLOCK_HEADER_SIZE, HEAP_MIN_BLOCK_SIZE. rewrite mask8 by apply u32_range.
  unfold HEAP_ALIGNMENT.
  rewrite (u32_small size), (u32_small (size + 32)), (u32_small (size + 32 + 8)), (u32_small (size + 32 + 8 - 1)) by lia.
  replace (size + 32 + 8 - 1) with (size + 39) by lia.
  destruct (Z.ltb_spec (8 * ((size + 39) / 8)) 32); divmod_lia.
Qed.
(** ** Allocation and release on well-formed heaps *)

Lemma split_blocks_ok n sz u :
  32 <= n <= sz -> (8 | n) -> block_ok (sz, u) -> Forall block_ok (split_blocks n sz u).
Proof.
  intros Hn Hd [H1 H2]. unfold split_blocks, HEAP_MIN_BLOCK_SIZE in *. simpl in *.
  destruct (Z.leb_spec 32 (sz - n)); oks.
  all: split; [lia|first [done|by apply Z.divide_sub_r]].
Qed.

Lemma total_split n sz u : total (split_blocks n sz u) = sz.
Proof. unfold split_blocks. case_match; simpl; lia. Qed.

Lemma split_blocks_cons n sz u : 
  exists s rest, split_blocks n sz u = (s, u) :: rest /\ Forall (fun b => b.2 = false) rest /\
    forall u', split_blocks n sz u' = (s, u') :: rest.
Proof. unfold split_blocks. case_match; eexists _, _; split_and!; eauto. Qed.

(** Marking a block in use keeps the blocks in use before it in use. *)
Lemma used_at_mark a l1 s u l2 k : used_at a (l1 ++ (s, u) :: l2) k -> used_at a (l1 ++ (s, true) :: l2) k.
Proof. rewrite !used_at_app. simpl. tauto. Qed.

Lemma used_at_free_mid a l1 mid mid' l2 k :
  total mid = total mid' -> Forall (fun b => b.2 = false) mid ->
  used_at a (l1 ++ mid ++ l2) k -> used_at a (l1 ++ mid' ++ l2) k.
Proof.
  intros Ht Hm. rewrite !used_at_app, Ht. intros [|[Hu|]]; [tauto| |tauto].
  exfalso. revert Hu. generalize (a + total l1). clear Ht.
  induction Hm as [|[s u] mid Hu _ IH]; intros b; simpl in *; [done|].
  intros [[-> _]|H]; [done|]. by eapply IH.
Qed.

Lemma used_at_coalesce a l1 sz l2 k :
  used_at a (l1 ++ (sz, false) :: l2) k -> used_at a (coalesce l1 sz l2) k.
Proof.
  intros Hu. unfold coalesce. destruct (merge_right sz l2) as [s l2'] eqn:E.
  assert (used_at a (l1 ++ (s, false) :: l2') k) as H1.
  { unfold merge_right in E. destruct l2 as [|[s2 [|]] l2]; simplify_eq; try done.
    apply (used_at_free_mid a l1 [(sz, false); (s2, false)] [(sz + s2, false)]); [simpl; lia|by repeat constructor|done]. }
  clear Hu E. destruct l1 as [|[s0 [|]] l0 _] using rev_ind; [done| |].
  - rewrite merge_left_snoc. rewrite <- app_assoc in H1 |- *. exact H1.
  - rewrite merge_left_snoc. rewrite <- app_assoc in H1 |- *.
    apply (used_at_free_mid a l0 [(s0, false); (s, false)] [(s0 + s, false)]); [simpl; lia|by repeat constructor|done].
Qed.

(** Taking the first [n] bytes of a free block of region [i] into use. *)
Lemma take_block_wf h ab i r l1 sz l2 n hs1 :
  heap_wf h ab -> live_regions h !! i = Some r -> ab !! i = Some (l1 ++ (sz, false) :: l2) ->
  32 <= n <= sz -> (8 | n) ->
  seg hs1 0 (hr_start r) 0 (l1 ++ split_blocks n sz false ++ l2) ->
  region_frame (hr_start r) (l1 ++ (sz, false) :: l2) (headers h) hs1 ->
  heap_wf (set_headers (alter (set_use false BLOCK_MAGIC_ALLOC) (hr_start r + total l1) hs1) h)
          (<[i := l1 ++ split_blocks n sz true ++ l2]> ab).
Proof.
  intros Hwf Hr Hb Hn Hd Hs [F1 M1]. set (x := hr_start r + total l1) in *.
  pose proof (wf_region_at _ _ _ _ _ Hwf Hr Hb) as (_ & _ & Hok & _).
  assert (Forall block_ok (l1 ++ split_blocks n sz true ++ l2)) as Hok'.
  { apply Forall_app in Hok as [? [? ?]%Forall_cons]. rewrite !Forall_app. split_and!; try done.
    by apply split_blocks_ok. }
  pose proof (total_split n sz true) as Hts.
  destruct (split_blocks_cons n sz true) as (s & rest & Es & _ & Hsp).
  assert (hr_start r <= x < hr_start r + total (l1 ++ (sz, false) :: l2)) as Hx
    by (rewrite total_app; simpl; clear -Hok; blocks_ok; totals; lia).
  apply (wf_update h ab i r (l1 ++ (sz, false) :: l2)); try done; try (by destruct l1).
  - rewrite Es. by destruct l1.
  - rewrite !total_app, Hts. simpl. lia.
  - rewrite Es. rewrite Hsp in Hs. rewrite Es in Hok'. apply (use_seg _ _ _ _ false true); [|done].
    clear -Hok'. simpl in Hok'. blocks_ok. oks.
  - intros k Hk. rewrite lookup_alter_ne by lia. by apply F1.
  - intros k Hk Hin. rewrite Es. destruct (decide (k = x)) as [->|Hkx].
    + rewrite used_at_app. right. left. done.
    + unfold magic_of in Hk. rewrite lookup_alter_ne in Hk by done. apply M1 in Hk.
      pose proof (wf_used_inside _ _ _ _ _ _ Hwf Hr Hb Hk Hin) as Hu.
      apply (used_at_free_mid _ _ [(sz, false)] (split_blocks n sz false)) in Hu;
        [|rewrite total_split; simpl; lia|by repeat constructor].
      rewrite Hsp in Hu. by apply used_at_mark in Hu.
Qed.

(** The effect of a successful allocation of [n] bytes in region [i]. *)
Definition allocated (h : heap_t) (ab : list (list block)) (n p : Z) (h' : heap_t) (ab' : list (list block)) : Prop :=
  exists i r l1 sz l2,
    live_regions h !! i = Some r /\ ab !! i = Some (l1 ++ (sz, false) :: l2) /\
    placed (heap_type h) n l1 sz l2 /\ Forall (full n) (take i ab) /\
    p = hr_start r + total l1 + BLOCK_HEADER_SIZE /\
    ab' = <[i := l1 ++ split_blocks n sz true ++ l2]> ab /\
    free_size (stats h') = free_size (stats h) -32 n /\ total_size (stats h') = total_size (stats h) /\
    live_regions h' = live_regions h /\ heap_type h' = heap_type h /\ bytes h' = bytes h.

Lemma malloc_spec h ab size :
  heap_wf h ab ->
  exists p h' ab', malloc_rtos size h = Done (p, h') /\ heap_wf h' ab' /\
    ((p = 0 /\ h' = h /\ ab' = ab /\ (size = 0 \/ Forall (full (request_size size)) ab)) \/
     (size <> 0 /\ allocated h ab (request_size size) p h' ab')).
Proof.
  intros Hwf. unfold malloc_rtos. destruct (Z.eqb_spec size 0) as [->|Hs0].
  { exists 0, h, ab. split_and!; [done..|]. left. auto. }
  destruct (request_size_ok size) as [Hn Hdiv]. set (n := request_size size) in *. clearbody n.
  rewrite (bind_step (gets live_regions) _ h _ h eq_refl).
  destruct (region_loop_spec h n _ _ (wf_type _ _ Hwf) (wf_regions _ _ Hwf))
    as [[E Hfull]|(i & r & l1 & sz & l2 & Hr & Hb & Hpl & Hfull & E)]; rewrite (bind_step _ _ _ _ _ E).
  { exists 0, h, ab. split_and!; [done..|]. left. auto. }
  pose proof (wf_region_mem _ _ _ _ _ Hwf Hr Hb ltac:(by destruct l1)) as HR.
  pose proof HR as (Ha & Hok & Ht & Hs & Hm). pose proof (proj1 Hpl) as Hle.
  set (x := hr_start r + total l1) in *.
  assert (hr_start r <= x /\ x + 32 <= hr_start r + total (l1 ++ (sz, false) :: l2)) as [Hx0 Hx1]
    by (rewrite total_app; simpl; clear -Hok Ha; blocks_ok; totals; lia).
  change NULL with 0. rewrite (proj2 (Z.eqb_neq x 0)) by lia.
  destruct (block_split_seg h (hr_start r) l1 sz l2 n HR ltac:(lia)) as (hs1 & E1 & S1 & F1).
  fold x in E1. rewrite (bind_step _ _ _ _ _ E1).
  pose proof (take_block_wf h ab i r l1 sz l2 n hs1 Hwf Hr Hb ltac:(lia) Hdiv S1 F1) as Hwf1. fold x in Hwf1.
  destruct (split_blocks_cons n sz false) as (s & rest & Es & _). rewrite Es in S1.
  pose proof (seg_mid _ _ _ _ _ _ S1) as Hx. fold x in Hx.
  erewrite bind_step by (eapply upd_Done; [simpl; rewrite Hx; eauto|apply (Hm x); lia]).
  rewrite !set_headers_twice. cbn [headers set_headers].
  set (h1 := set_headers (alter (set_use false BLOCK_MAGIC_ALLOC) x hs1) h) in *.
  set (h2 := set_stats (heap_stats_update_allocation (set_free_size (free_size (stats h) -32 n) (stats h))) h1).
  exists (x + BLOCK_HEADER_SIZE),
    (if free_size (stats h2) <? min_free_ever (stats h2)
     then set_stats (set_min_free (free_size (stats h2)) (stats h2)) h2 else h2),
    (<[i := l1 ++ split_blocks n sz true ++ l2]> ab).
  split; [reflexivity|]. split; [case_match; by repeat apply wf_set_stats|].
  right. split; [done|]. exists i, r, l1, sz, l2.
  split_and!; try done; by case_match.
Qed.

(** Every pointer whose header reads as allocated is that of a block in use. *)
Definition released (type : Z) (l1 : list block) (sz : Z) (l2 : list block) : list block :=
  if HEAP_TYPE_3 <=? type then coalesce l1 sz l2 else l1 ++ (sz, false) :: l2.

Definition freed (h : heap_t) (ab : list (list block)) (ptr : Z) (h' : heap_t) (ab' : list (list block)) : Prop :=
  exists i r l1 sz l2,
    live_regions h !! i = Some r /\ ab !! i = Some (l1 ++ (sz, true) :: l2) /\
    ptr = hr_start r + total l1 + BLOCK_HEADER_SIZE /\
    ab' = <[i := released (heap_type h) l1 sz l2]> ab /\
    free_size (stats h') = free_size (stats h) +32 sz /\ total_size (stats h') = total_size (stats h) /\
    live_regions h' = live_regions h /\ heap_type h' = heap_type h /\ bytes h' = bytes h /\
    magic_of (headers h') (ptr - BLOCK_HEADER_SIZE) = Some BLOCK_MAGIC_FREE.

Lemma find_region h ab i r bl k :
  heap_wf h ab -> live_regions h !! i = Some r -> ab !! i = Some bl ->
  hr_start r <= k < hr_start r + total bl ->
  List.find (fun r => (hr_start r <=? k) && (k <? hr_end r)) (live_regions h) = Some r.
Proof.
  intros Hwf Hr Hb Hk. destruct (wf_region_at _ _ _ _ _ Hwf Hr Hb) as (_ & He & _).
  destruct (List.find _ _) as [r'|] eqn:E.
  - apply List.find_some in E as [Hin Hk']. apply andb_true_iff in Hk' as [H1%Z.leb_le H2%Z.ltb_lt].
    apply list_elem_of_In, list_elem_of_lookup_1 in Hin as [j Hj].
    destruct (decide (i = j)) as [->|Hij]; [congruence|].
    destruct (wf_disjoint _ _ Hwf i j _ _ Hij Hr Hj); lia.
  - assert (In r (live_regions h)) as Hin by (by eapply list_elem_of_In, list_elem_of_lookup_2).
    apply (List.find_none _ _ E r), andb_false_iff in Hin as [H%Z.leb_gt|H%Z.ltb_ge]; lia.
Qed.

(** Marking a block of region [i] free again, before coalescing. *)
Lemma free_block_wf h ab i r l1 sz l2 :
  heap_wf h ab -> live_regions h !! i = Some r -> ab !! i = Some (l1 ++ (sz, true) :: l2) ->
  heap_wf (set_headers (alter (set_use true BLOCK_MAGIC_FREE) (hr_start r + total l1) (headers h)) h)
          (<[i := l1 ++ (sz, false) :: l2]> ab).
Proof.
  intros Hwf Hr Hb. set (x := hr_start r + total l1).
  pose proof (wf_region_at _ _ _ _ _ Hwf Hr Hb) as (_ & _ & Hok & _ & _ & Hs).
  assert (hr_start r <= x < hr_start r + total (l1 ++ (sz, true) :: l2)) as Hx
    by (rewrite total_app; simpl; clear -Hok; blocks_ok; totals; lia).
  apply (wf_update h ab i r (l1 ++ (sz, true) :: l2)); try done; try (by destruct l1).
  - by rewrite !total_app.
  - clear -Hok. blocks_ok. by oks.
  - by apply (use_seg _ _ _ _ true false).
  - intros k Hk. by rewrite lookup_alter_ne by lia.
  - intros k Hk Hin. unfold magic_of in Hk. destruct (decide (k = x)) as [->|Hkx].
    + rewrite lookup_alter_eq in Hk. by destruct (headers h !! x).
    + rewrite lookup_alter_ne in Hk by done.
      pose proof (wf_used_inside _ _ _ _ _ _ Hwf Hr Hb Hk Hin) as Hu.
      rewrite used_at_app in *. simpl in *. destruct Hu as [|[[_ ->]|]]; [tauto|done|tauto].
Qed.

Lemma coalesce_wf h ab i r l1 sz l2 hs1 :
  heap_wf h ab -> live_regions h !! i = Some r -> ab !! i = Some (l1 ++ (sz, false) :: l2) ->
  region_mem (set_headers hs1 h) (hr_start r) (coalesce l1 sz l2) ->
  total (coalesce l1 sz l2) = total (l1 ++ (sz, false) :: l2) ->
  (forall k, k < hr_start r \/ hr_start r + total (l1 ++ (sz, false) :: l2) <= k -> hs1 !! k = headers h !! k) ->
  (forall k, magic_of hs1 k = magic_of (headers h) k) ->
  heap_wf (set_headers hs1 h) (<[i := coalesce l1 sz l2]> ab).
Proof.
  intros Hwf Hr Hb (Ha & Hok & _ & Hs & _) Ht F1 M1.
  apply (wf_update h ab i r (l1 ++ (sz, false) :: l2)); try done; try (by destruct l1).
  - intros Hnil. rewrite Hnil in Ht. pose proof (wf_region_at _ _ _ _ _ Hwf Hr Hb) as (_ & _ & Hok1 & _).
    rewrite total_app in Ht. simpl in Ht. clear -Ht Hok1. blocks_ok. totals. lia.
  - intros k Hk Hin. rewrite M1 in Hk. pose proof (wf_used_inside _ _ _ _ _ _ Hwf Hr Hb Hk Hin) as Hu.
    by apply used_at_coalesce.
Qed.

Lemma free_spec h ab ptr :
  heap_wf h ab -> magic_of (headers h) (ptr - BLOCK_HEADER_SIZE) = Some BLOCK_MAGIC_ALLOC ->
  exists h' ab', free_rtos ptr h = Done (tt, h') /\ heap_wf h' ab' /\ freed h ab ptr h' ab'.
Proof.
  intros Hwf Hmag. destruct (wf_used _ _ Hwf _ Hmag) as (i & r & bl & Hr & Hb & Hu).
  apply used_at_split in Hu as (l1 & sz & l2 & -> & Hx).
  pose proof (wf_region_at _ _ _ _ _ Hwf Hr Hb) as (_ & _ & Hok & Ht & Hpos & Hs).
  pose proof (wf_region_mem _ _ _ _ _ Hwf Hr Hb ltac:(by destruct l1)) as (Ha & _ & _ & _ & Hm).
  set (x := hr_start r + total l1) in *.
  assert (hr_start r <= x /\ x + 32 <= hr_start r + total (l1 ++ (sz, true) :: l2)) as [Hx0 Hx1]
    by (rewrite total_app; simpl; clear -Hok; blocks_ok; totals; lia).
  unfold free_rtos. rewrite Hx. change NULL with 0.
  assert (ptr = x + BLOCK_HEADER_SIZE) as -> by lia. unfold BLOCK_HEADER_SIZE in *.
  rewrite (proj2 (Z.eqb_neq (x + 32) 0)) by lia.
  pose proof (seg_mid _ _ _ _ _ _ Hs) as Hhx. fold x in Hhx.
  rewrite (bind_step _ _ _ _ _ (rd_Done _ _ _ Hhx)). cbn [bh_magic bh_size blk_header]. rewrite Z.eqb_refl. cbn [negb].
  erewrite bind_step by (eapply upd_Done; [rewrite Hhx; eauto|apply (Hm x); lia]).
  set (h1 := set_headers (alter (set_use true BLOCK_MAGIC_FREE) x (headers h)) h).
  pose proof (free_block_wf _ _ _ _ _ _ _ Hwf Hr Hb) as Hwf1. fold x h1 in Hwf1.
  set (s2 := heap_stats_update_free (set_free_size (free_size (stats h) +32 sz) (stats h))).
  set (h2 := set_stats s2 h1). set (ab1 := <[i := l1 ++ (sz, false) :: l2]> ab) in *.
  assert (heap_wf h2 ab1) as Hwf2 by (by apply wf_set_stats).
  assert (ab1 !! i = Some (l1 ++ (sz, false) :: l2)) as Hb1
    by (apply list_lookup_insert_eq; by eapply lookup_lt_Some).
  rewrite !bind_modify, bind_gets. change (set_stats _ (set_stats _ h1)) with h2.
  rewrite (find_region h2 ab1 i r _ x Hwf2 Hr Hb1) by (rewrite total_app in *; simpl in *; lia).
  rewrite bind_gets. change (heap_type h2) with (heap_type h).
  assert (magic_of (headers h2) (x + 32 - BLOCK_HEADER_SIZE) = Some BLOCK_MAGIC_FREE) as Hfree.
  { replace (x + 32 - BLOCK_HEADER_SIZE) with x by (unfold BLOCK_HEADER_SIZE; lia).
    unfold magic_of. simpl. by rewrite lookup_alter_eq, Hhx. }
  destruct (HEAP_TYPE_3 <=? heap_type h) eqn:Ety; cbn [when].
  - pose proof (wf_region_mem _ _ _ _ _ Hwf2 Hr Hb1 ltac:(by destruct l1)) as HR.
    destruct (block_coalesce_seg r h2 _ _ _ _ HR) as (hs' & E & R2 & T2 & F2 & M2). fold x in E.
    exists (set_headers hs' h2), (<[i := coalesce l1 sz l2]> ab1). split_and!; [exact E| |].
    + by apply coalesce_wf with (r := r).
    + exists i, r, l1, sz, l2. unfold released. rewrite Ety. split_and!; try done.
      * unfold ab1. by rewrite list_insert_insert_eq.
      * cbn [headers set_headers]. by rewrite M2.
  - exists h2, ab1. split_and!; [done..|].
    exists i, r, l1, sz, l2. unfold released. by rewrite Ety.
Qed.
(** ** The invariant under the operations *)

Lemma split_coalesced n l1 sz l2 :
  coalesced (l1 ++ (sz, false) :: l2) -> coalesced (l1 ++ split_blocks n sz true ++ l2).
Proof.
  intros H. apply coalesced_app in H as [H1 H2].
  assert (forall s u, u = true -> coalesced (l1 ++ [(s, u)])) as H3.
  { intros s u ->. clear H2. induction l1 as [|[s1 u1] l1 IH]; [done|].
    destruct l1 as [|[s2 u2] l1]; simpl in *; [by rewrite orb_true_r|tauto]. }
  unfold split_blocks. case_match; simpl app; rewrite coalesced_app; split; auto.
  - simpl in *. destruct l2 as [|[s2 u2] l2]; simpl in *; tauto.
  - simpl in *. destruct l2 as [|[s2 u2] l2]; simpl in *; tauto.
Qed.

(** A region from caller memory: the block it starts with fills it. *)
Lemma heap_region_init_spec h start size o h' :
  0 < start -> 0 <= size < 4294967296 -> heap_region_init start size h = Done (o, h') ->
  (o = None /\ h' = h) \/
  exists s e st, o = Some (Region s e s) /\ start <= s /\ e <= start + size /\ 64 <= e - s < 4294967296 /\
    (8 | e - s) /\ h' = set_stats st (set_headers (<[s := blk_header (e - s) false 0 0]> (headers h)) h).
Proof.
  intros Hs Hz. unfold heap_region_init. rewrite !align_down_eq. unfold HEAP_ALIGNMENT, HEAP_MIN_BLOCK_SIZE, BLOCK_HEADER_SIZE.
  set (s := 8 * ((start + 8 - 1) / 8)). set (e := 8 * ((start + size) / 8)).
  destruct (Z.ltb_spec (u32 (e - s)) (32 * 2)); [intros; simplify_eq; by left|].
  destruct (Z.leb_spec (s + 32) (start + size)) as [Hle|]; cbn [negb]; [|done].
  assert (start <= s /\ e <= start + size /\ 0 <= e - s < 4294967296) as (H1 & H2 & H3)
    by (unfold s, e in *; divmod_lia).
  rewrite (u32_small (e - s)) in * by done. intros H0. simplify_eq. right. eexists s, e, _.
  split_and!; try done; try lia. unfold s, e. apply Z.divide_sub_r; apply Z.divide_factor_l.
Qed.

(** Adding a region as entry [region_count]. *)
Definition with_region (o : option heap_region_t) (n : Z) (h : heap_t) : heap_t :=
  set_regions (match o with Some r => <[Z.to_nat n := r]> (regions h) | None => regions h end) (n + 1) h.

Lemma live_with_region o n h :
  0 <= n < 8 -> length (regions h) = 8%nat -> region_count h = n ->
  (o = None -> regions h !! Z.to_nat n = Some zero_region) ->
  live_regions (with_region o n h) = live_regions h ++ [default zero_region o].
Proof.
  intros Hn Hl <- Ho. unfold live_regions, with_region. cbn [region_count regions set_regions].
  replace (Z.to_nat (region_count h + 1)) with (S (Z.to_nat (region_count h))) by lia.
  rewrite (take_S_r _ _ (default zero_region o)).
  - f_equal. destruct o; [by rewrite take_insert_ge by lia|done].
  - destruct o; simpl; [by rewrite list_lookup_insert_eq by lia|auto].
Qed.

Lemma zero_region_wf hs : region_wf hs zero_region [].
Proof. unfold region_wf. simpl. split_and!; try done. Qed.

Lemma set_headers_region_wf hs hs' r bl :
  (forall k, hr_start r <= k < hr_end r -> hs' !! k = hs !! k) -> region_wf hs r bl -> region_wf hs' r bl.
Proof.
  intros Hf (H1 & H2 & H3 & H4 & H5 & H6). split_and!; try done.
  eapply seg_frame; [done| |done]. intros. apply Hf. lia.
Qed.

Definition region_blocks (o : option heap_region_t) : list block :=
  match o with Some r => [(hr_end r - hr_start r, false)] | None => [] end.

Lemma add_region_wf h ab start size o h1 :
  heap_wf h ab -> region_count h < 8 -> 0 < start -> 0 <= size < 4294967296 ->
  Forall (fun r => start + size <= hr_start r \/ hr_end r <= start) (live_regions h) ->
  heap_region_init start size h = Done (o, h1) ->
  heap_wf (with_region o (region_count h) h1) (ab ++ [region_blocks o]).
Proof.
  intros Hwf Hc Hs Hz Hd E. pose proof (wf_count _ _ Hwf) as [Hl Hn].
  assert (regions h1 = regions h /\ region_count h1 = region_count h /\ heap_type h1 = heap_type h /\
    (forall k, start + size <= k \/ k < start -> headers h1 !! k = headers h !! k) /\
    (forall k, magic_of (headers h1) k = Some BLOCK_MAGIC_ALLOC -> magic_of (headers h) k = Some BLOCK_MAGIC_ALLOC) /\
    region_wf (headers h1) (default zero_region o) (region_blocks o) /\
    (o <> None -> start <= hr_start (default zero_region o) /\ hr_end (default zero_region o) <= start + size))
    as (Er & Ec & Ety & Hf & Hm & Hnew & Hin).
  { destruct (heap_region_init_spec _ _ _ _ _ Hs Hz E) as [[-> ->]|(s & e & st & -> & H1 & H2 & H3 & H4 & ->)].
    - pose proof (zero_region_wf (headers h)). by split_and!.
    - split_and!; try done; simpl.
      + intros k Hk. by rewrite lookup_insert_ne by lia.
      + intros k. unfold magic_of. destruct (decide (k = s)) as [->|]; [by rewrite lookup_insert_eq|by rewrite lookup_insert_ne].
      + unfold region_wf. simpl. rewrite lookup_insert_eq. split_and!; try done; try lia. oks. split; [lia|done]. }
  assert (live_regions (with_region o (region_count h) h1) = live_regions h ++ [default zero_region o]) as Hlive.
  { rewrite live_with_region; [unfold live_regions; by rewrite Er, Ec|lia|by rewrite Er|done|].
    intros _. rewrite Er. apply (wf_rest _ _ Hwf). lia. }
  assert (length (live_regions h) = length ab) as Hlen by (eapply Forall2_length, Hwf).
  constructor.
  - change (heap_type (with_region _ _ h1)) with (heap_type h1). rewrite Ety. apply Hwf.
  - split; [|simpl; lia]. simpl. rewrite Er. destruct o; by rewrite ?length_insert.
  - intros j Hj. simpl in *. rewrite Er. destruct o; rewrite ?list_lookup_insert_ne by lia; apply (wf_rest _ _ Hwf); lia.
  - rewrite Hlive. simpl. apply Forall2_app; [|by apply Forall2_cons].
    pose proof (wf_regions _ _ Hwf) as HF. clear -HF Hd Hf. induction HF as [|r bl rs ab Hr HF IH]; [constructor|].
    apply Forall_cons in Hd as [Hd1 Hd]. constructor; [|auto].
    eapply set_headers_region_wf; [|done]. intros k Hk. apply Hf. lia.
  - rewrite Hlive. intros i j r1 r2 Hij H1 H2 Hn1 Hn2. rewrite Forall_forall in Hd.
    assert (forall r k, live_regions h !! k = Some r -> hr_start (default zero_region o) < hr_end (default zero_region o) ->
      hr_end (default zero_region o) <= hr_start r \/ hr_end r <= hr_start (default zero_region o)) as Hnd.
    { intros r k Hr Hne. destruct o; [|simpl in Hne; lia].
      destruct (Hin ltac:(done)). destruct (Hd r ltac:(by eapply list_elem_of_lookup_2)); simpl in *; lia. }
    apply lookup_app_Some in H1 as [H1|[Hi H1]]; apply lookup_app_Some in H2 as [H2|[Hj H2]].
    + by eapply (wf_disjoint _ _ Hwf).
    + apply list_lookup_singleton_Some in H2 as [? <-]. destruct (Hnd _ _ H1 Hn2); tauto.
    + apply list_lookup_singleton_Some in H1 as [? <-]. destruct (Hnd _ _ H2 Hn1); tauto.
    + apply list_lookup_singleton_Some in H1 as [? <-]. apply list_lookup_singleton_Some in H2 as [? <-]. lia.
  - intros k Hk. rewrite Hlive. apply Hm in Hk. destruct (wf_used _ _ Hwf k Hk) as (i & r & bl & Hr & Hb & Hu).
    exists i, r, bl. split_and!; [by apply lookup_app_l_Some..|done].
Qed.

(** The memory before [heap_init]: no region, no block in use. *)
Lemma empty_heap_wf h type :
  HEAP_TYPE_2 <= type <= HEAP_TYPE_5 ->
  (forall k, magic_of (headers h) k <> Some BLOCK_MAGIC_ALLOC) ->
  heap_wf (Heap type (replicate 8 zero_region) 0 zero_stats (quick_fit_classes h) (headers h) (bytes h)) [].
Proof.
  intros Ht Hk. constructor; simpl; try done.
  - intros j Hj. apply (lookup_replicate_2 8); lia.
  - intros k Hm. by apply Hk in Hm.
Qed.

(** The invariant: the heap is well formed and, for the coalescing types, no two
    adjacent blocks are free. *)
Definition heap_inv (h : heap_t) (ab : list (list block)) : Prop :=
  heap_wf h ab /\ (HEAP_TYPE_3 <= heap_type h -> Forall coalesced ab).

Lemma allocated_inv h ab n p h' ab' :
  heap_inv h ab -> heap_wf h' ab' -> allocated h ab n p h' ab' -> heap_inv h' ab'.
Proof.
  intros [Hwf Hc] Hwf' (i & r & l1 & sz & l2 & _ & Hb & _ & _ & _ & -> & _ & _ & _ & Ht & _).
  split; [done|]. rewrite Ht. intros H3. apply Forall_insert; [auto|]. apply split_coalesced.
  by eapply (Forall_lookup_1 _ _ _ _ (Hc H3)).
Qed.

Lemma freed_inv h ab p h' ab' :
  heap_inv h ab -> heap_wf h' ab' -> freed h ab p h' ab' -> heap_inv h' ab'.
Proof.
  intros [Hwf Hc] Hwf' (i & r & l1 & sz & l2 & _ & Hb & _ & -> & _ & _ & _ & Ht & _).
  split; [done|]. rewrite Ht. intros H3. apply Forall_insert; [auto|].
  unfold released. rewrite (proj2 (Z.leb_le _ _) H3). apply coalesce_coalesced.
  by eapply (Forall_lookup_1 _ _ _ _ (Hc H3)).
Qed.

Lemma malloc_inv h ab size p h' :
  heap_inv h ab -> malloc_rtos size h = Done (p, h') -> exists ab', heap_inv h' ab'.
Proof.
  intros Hi E. destruct (malloc_spec h ab size (proj1 Hi)) as (p' & h2 & ab' & E' & Hwf & Hcase).
  rewrite E' in E. injection E as <- <-. exists ab'.
  destruct Hcase as [(_ & -> & -> & _)|[_ Ha]]; [done|by eapply allocated_inv].
Qed.

(** A pointer whose header does not read as allocated is ignored. *)
Lemma free_ignored h ptr :
  ptr = NULL \/ (exists m, magic_of (headers h) (ptr - BLOCK_HEADER_SIZE) = Some m /\ m <> BLOCK_MAGIC_ALLOC) ->
  free_rtos ptr h = Done (tt, h).
Proof.
  unfold free_rtos. intros [->|(m & Hm & Hne)]; [done|]. destruct (Z.eqb_spec ptr NULL); [done|].
  unfold magic_of in Hm. destruct (headers h !! _) as [b|] eqn:E; simplify_eq/=.
  rewrite (bind_step _ _ _ _ _ (rd_Done _ _ _ E)). by rewrite (proj2 (Z.eqb_neq _ _) Hne).
Qed.

Lemma free_cases h ab ptr :
  heap_inv h ab ->
  (free_rtos ptr h = UB /\ ptr <> NULL /\ headers h !! (ptr - BLOCK_HEADER_SIZE) = None) \/
  free_rtos ptr h = Done (tt, h) \/
  exists h' ab', free_rtos ptr h = Done (tt, h') /\ heap_inv h' ab' /\ freed h ab ptr h' ab'.
Proof.
  intros Hi. destruct (decide (ptr = NULL)) as [->|Hne]; [by right; left|].
  destruct (magic_of (headers h) (ptr - BLOCK_HEADER_SIZE)) as [m|] eqn:Em.
  - destruct (decide (m = BLOCK_MAGIC_ALLOC)) as [->|Hm].
    + right; right. destruct (free_spec h ab ptr (proj1 Hi) Em) as (h' & ab' & E & Hwf & Hf).
      exists h', ab'. split_and!; [done|by eapply freed_inv|done].
    + right; left. apply free_ignored. eauto.
  - left. unfold magic_of in Em. destruct (headers h !! _) eqn:E; [done|]. split_and!; try done.
    unfold free_rtos. rewrite (proj2 (Z.eqb_neq _ _) Hne). unfold mbind, M_bind, rd. by rewrite E.
Qed.

Lemma add_region_inv h ab start size h' :
  heap_inv h ab -> 0 < start -> 0 <= size < 4294967296 ->
  Forall (fun r => start + size <= hr_start r \/ hr_end r <= start) (live_regions h) ->
  heap_add_region start size h = Done (tt, h') -> exists ab', heap_inv h' ab'.
Proof.
  intros [Hwf Hc] Hs Hz Hd. unfold heap_add_region. rewrite bind_gets.
  destruct (Z.leb_spec HEAP_MAX_REGIONS (region_count h)) as [|Hlt]; [intros E; injection E as <-; exists ab; by split|].
  unfold HEAP_MAX_REGIONS in Hlt. pose proof (wf_count _ _ Hwf) as [Hl Hn].
  intros E. apply bind_Done in E as (o & h1 & E1 & E2).
  pose proof (add_region_wf _ _ _ _ _ _ Hwf Hlt Hs Hz Hd E1) as Hwf'.
  assert (region_count h1 = region_count h /\ heap_type h1 = heap_type h) as [Ec Ety].
  { by destruct (heap_region_init_spec _ _ _ _ _ Hs Hz E1) as [[-> ->]|(? & ? & ? & -> & _ & _ & _ & _ & ->)]. }
  exists (ab ++ [region_blocks o]). assert (h' = with_region o (region_count h) h1) as ->.
  { destruct o; rewrite ?bind_modify, ?bind_ret in E2; unfold modify in E2; injection E2 as <-;
      unfold with_region; cbn [region_count set_regions]; by rewrite Ec, u32_small by lia. }
  split; [done|]. change (heap_type (with_region _ _ h1)) with (heap_type h1). rewrite Ety. intros H3.
  apply Forall_app. split; [auto|]. apply Forall_singleton. by destruct o.
Qed.

(** ** Writes to the payload of a block in use *)

Lemma lookup_clobber c n (m : gmap Z block_header_t) k :
  clobber c n m !! k = if decide (k + BLOCK_HEADER_SIZE <= c \/ c + n <= k) then m !! k else None.
Proof.
  unfold clobber. rewrite map_lookup_filter. case_decide as Hd.
  - destruct (m !! k) eqn:E; simpl; [|done]. by rewrite option_guard_True.
  - destruct (m !! k) eqn:E; simpl; [|done]. by rewrite option_guard_False.
Qed.

Lemma seg_frame_addrs hs hs' pv a nx bl :
  (forall k, k ∈ addrs a bl -> hs' !! k = hs !! k) -> seg hs pv a nx bl -> seg hs' pv a nx bl.
Proof.
  revert pv a. induction bl as [|[sz u] bl IH]; intros pv a Hf; simpl in *; [done|].
  intros [H1 H2]. split; [rewrite Hf; [done|left]|]. apply IH; [|done]. intros k Hk. apply Hf. by right.
Qed.

Lemma addrs_bounds a bl k : Forall block_ok bl -> k ∈ addrs a bl -> a <= k /\ k + 32 <= a + total bl.
Proof.
  intros Hb. revert a. induction Hb as [|[sz u] bl [H8 _] Hb IH]; intros a; simpl in *.
  - intros Hx. by apply elem_of_nil in Hx.
  - pose proof (total_nonneg bl Hb). intros [->|Hx]%elem_of_cons; [lia|]. apply IH in Hx. lia.
Qed.

Lemma addrs_app a l1 l2 : addrs a (l1 ++ l2) = addrs a l1 ++ addrs (a + total l1) l2.
Proof.
  revert a. induction l1 as [|[sz u] l1 IH]; intros a; simpl; [by rewrite Z.add_0_r|].
  by rewrite IH, Z.add_assoc.
Qed.

(** The block in use at header address [x]. *)
Definition in_use (h : heap_t) (ab : list (list block)) (x sz : Z) : Prop :=
  exists i r l1 l2, live_regions h !! i = Some r /\ ab !! i = Some (l1 ++ (sz, true) :: l2) /\
    x = hr_start r + total l1.

Lemma in_use_range h ab x sz c n :
  heap_wf h ab -> in_use h ab x sz -> x + 32 <= c -> c + n <= x + sz -> in_heap h c n = true.
Proof.
  intros Hwf (i & r & l1 & l2 & Hr & Hb & ->) Hc Hn.
  destruct (wf_region_at _ _ _ _ _ Hwf Hr Hb) as (_ & He & Hok & _). rewrite total_app in He. simpl in He.
  unfold in_heap. apply existsb_exists. exists r. split; [eapply list_elem_of_In, list_elem_of_lookup_2, Hr|].
  unfold in_region. clear Hb. blocks_ok. totals. apply andb_true_iff; split; apply Z.leb_le; lia.
Qed.

Lemma payload_write_wf h ab x sz c n b :
  heap_wf h ab -> in_use h ab x sz -> x + 32 <= c -> c + n <= x + sz ->
  heap_wf (set_memory (clobber c n (headers h)) b h) ab.
Proof.
  intros Hwf (i & r & l1 & l2 & Hr & Hb & ->) Hc Hn. set (x := hr_start r + total l1) in *.
  destruct (wf_region_at _ _ _ _ _ Hwf Hr Hb) as (_ & He & Hok & _).
  assert (hr_start r <= x /\ x + sz <= hr_end r) as [Hx1 Hx2].
  { rewrite He, total_app. simpl. clear -Hok. blocks_ok. totals. lia. }
  constructor; try apply Hwf.
  - change (live_regions _) with (live_regions h). cbn [headers set_memory].
    apply Forall2_same_length_lookup_2; [eapply Forall2_length, Hwf|].
    intros j r2 b2 Hr2 Hb2. destruct (wf_region_at _ _ _ _ _ Hwf Hr2 Hb2) as (H1 & H2 & H3 & H4 & H5 & H6).
    split_and!; auto. eapply seg_frame_addrs; [|exact H6]. intros k Hk. rewrite lookup_clobber.
    apply decide_True. unfold BLOCK_HEADER_SIZE. destruct (decide (i = j)) as [<-|Hij].
    + simplify_eq. rewrite addrs_app in Hk. apply elem_of_app in Hk as [Hk|Hk].
      * apply addrs_bounds in Hk; [lia|]. clear -Hok. by blocks_ok.
      * simpl in Hk. apply elem_of_cons in Hk as [->|Hk]; [lia|].
        apply addrs_bounds in Hk; [lia|]. clear -Hok. by blocks_ok.
    + apply addrs_bounds in Hk; [|done].
      destruct (Z.lt_ge_cases (hr_start r) (hr_end r)); [|lia].
      destruct (wf_disjoint _ _ Hwf i j _ _ Hij Hr Hr2); lia.
  - intros k Hk. apply (wf_used _ _ Hwf k). unfold magic_of in *. simpl in Hk. rewrite lookup_clobber in Hk.
    by case_decide.
Qed.

Lemma lookup_fill n a v m k :
  fill n a v m !! k = if decide (a <= k < a + Z.of_nat n) then Some v else m !! k.
Proof.
  revert a m. induction n as [|n IH]; intros a m; cbn [fill]; [by rewrite decide_False by lia|].
  rewrite IH. destruct (decide (k = a)) as [->|].
  - rewrite decide_False, decide_True by lia. by rewrite lookup_insert_eq.
  - rewrite lookup_insert_ne by done. repeat case_decide; try done; lia.
Qed.

Lemma lookup_copy n dst src m k :
  dst + Z.of_nat n <= src \/ src + Z.of_nat n <= dst ->
  copy n dst src m !! k = if decide (dst <= k < dst + Z.of_nat n) then m !! (src + (k - dst)) else m !! k.
Proof.
  revert dst src m. induction n as [|n IH]; intros dst src m Hd; cbn [copy]; [by rewrite decide_False by lia|].
  rewrite IH by lia.
  assert (forall j, j <> dst -> (match m !! src with Some v => <[dst:=v]> m | None => delete dst m end) !! j = m !! j) as Hne.
  { intros j Hj. destruct (m !! src); [by rewrite lookup_insert_ne|by rewrite lookup_delete_ne]. }
  destruct (decide (k = dst)) as [->|Hk].
  - rewrite decide_False, decide_True by lia. replace (src + (dst - dst)) with src by lia.
    destruct (m !! src); [by rewrite lookup_insert_eq|by rewrite lookup_delete_eq].
  - destruct (decide (dst + 1 <= k < dst + 1 + Z.of_nat n)).
    + rewrite decide_True by lia. rewrite Hne by lia. f_equal. lia.
    + rewrite decide_False by lia. by apply Hne.
Qed.

Lemma allocated_in_use h ab n p h' ab' :
  allocated h ab n p h' ab' -> exists sz, n <= sz /\ in_use h' ab' (p - BLOCK_HEADER_SIZE) sz.
Proof.
  intros (i & r & l1 & sz & l2 & Hr & Hb & [Hle _] & _ & -> & -> & _ & _ & Hlive & _).
  unfold split_blocks. exists (if HEAP_MIN_BLOCK_SIZE <=? sz - n then n else sz).
  split; [case_match; lia|].
  exists i, r, l1, (if HEAP_MIN_BLOCK_SIZE <=? sz - n then (sz - n, false) :: l2 else l2).
  rewrite Hlive, list_lookup_insert_eq by (by eapply lookup_lt_Some). split_and!; try done; [|lia].
  by case_match.
Qed.

(** Other blocks in use stay in use, disjoint from the new one. *)
Lemma in_use_allocated h ab n p h' ab' x sz :
  heap_wf h ab -> allocated h ab n p h' ab' -> in_use h ab x sz ->
  in_use h' ab' x sz /\ x <> p - BLOCK_HEADER_SIZE.
Proof.
  intros Hwf (i & r & l1 & s & l2 & Hr & Hb & _ & _ & -> & -> & _ & _ & Hlive & _)
    (j & r' & l1' & l2' & Hr' & Hb' & ->). unfold BLOCK_HEADER_SIZE.
  destruct (wf_region_at _ _ _ _ _ Hwf Hr Hb) as (_ & He & Hok & _).
  destruct (wf_region_at _ _ _ _ _ Hwf Hr' Hb') as (_ & He' & Hok' & _).
  assert (i < length ab)%nat as Hi by (by eapply lookup_lt_Some).
  destruct (decide (i = j)) as [<-|Hij].
  - simplify_eq. apply app_eq_inv in H as [(k & E1 & E2)|(k & E1 & E2)].
    + destruct k as [|[s0 u0] k]; simplify_eq/=. split.
      * exists i, r, (l1 ++ split_blocks n s0 true ++ k), l2'.
        rewrite Hlive, list_lookup_insert_eq by done. split_and!; try done.
        -- f_equal. by rewrite <- !app_assoc.
        -- rewrite !total_app, total_split. simpl. lia.
      * rewrite total_app in *. simpl. clear -Hok. blocks_ok. totals. lia.
    + destruct k as [|[s0 u0] k]; simplify_eq/=. split.
      * exists i, r, l1', (k ++ split_blocks n s true ++ l2).
        rewrite Hlive, list_lookup_insert_eq by done. split_and!; try done.
        f_equal. by rewrite <- !app_assoc.
      * rewrite total_app in *. simpl. clear -Hok'. blocks_ok. totals. lia.
  - split.
    + exists j, r', l1', l2'. rewrite Hlive, list_lookup_insert_ne by done. done.
    + rewrite total_app in *. simpl in *. clear Hb Hb'. blocks_ok. totals.
      destruct (wf_disjoint _ _ Hwf i j _ _ Hij Hr Hr'); lia.
Qed.

Lemma in_use_magic h ab x sz :
  heap_wf h ab -> in_use h ab x sz ->
  magic_of (headers h) x = Some BLOCK_MAGIC_ALLOC /\ 0 < x /\ 32 <= sz < 4294967296 /\
  exists b, headers h !! x = Some b /\ bh_magic b = BLOCK_MAGIC_ALLOC /\ bh_size b = sz.
Proof.
  intros Hwf (i & r & l1 & l2 & Hr & Hb & ->).
  destruct (wf_region_at _ _ _ _ _ Hwf Hr Hb) as (_ & He & Hok & Ht & Hpos & Hs).
  pose proof (seg_mid _ _ _ _ _ _ Hs) as Hhx. specialize (Hpos ltac:(by destruct l1)).
  rewrite total_app in Ht. simpl in Ht. split; [unfold magic_of; by rewrite Hhx|].
  clear Hs Hb. blocks_ok. totals. split_and!; try lia. eauto.
Qed.

Lemma in_use_disjoint h ab x sx y sy :
  heap_wf h ab -> in_use h ab x sx -> in_use h ab y sy -> x <> y -> x + sx <= y \/ y + sy <= x.
Proof.
  intros Hwf (i & r & l1 & l2 & Hr & Hb & ->) (j & r' & l1' & l2' & Hr' & Hb' & ->) Hne.
  destruct (wf_region_at _ _ _ _ _ Hwf Hr Hb) as (_ & He & Hok & _).
  destruct (wf_region_at _ _ _ _ _ Hwf Hr' Hb') as (_ & He' & Hok' & _).
  destruct (decide (i = j)) as [->|Hij].
  - simplify_eq. apply app_eq_inv in H as [(k & E1 & E2)|(k & E1 & E2)]; subst; rewrite total_app in *;
      destruct k as [|[s u] k]; simplify_eq/=; try lia;
      clear -Hok Hok'; blocks_ok; totals; lia.
  - assert (forall l1 s l2, Forall block_ok (l1 ++ (s, true) :: l2) -> 0 <= total l1 /\ 0 < s /\ 0 <= total l2 /\
      total (l1 ++ (s, true) :: l2) = total l1 + s + total l2) as Ht
      by (intros; rewrite total_app; simpl; blocks_ok; totals; lia).
    pose proof (Ht _ _ _ Hok). pose proof (Ht _ _ _ Hok').
    destruct (wf_disjoint _ _ Hwf i j _ _ Hij Hr Hr'); lia.
Qed.

(** The payload of a new block. *)
Lemma malloc_payload h ab size p h1 ab1 :
  heap_inv h ab -> 0 < size < 4294967256 -> heap_wf h1 ab1 -> allocated h ab (request_size size) p h1 ab1 ->
  heap_inv h1 ab1 /\ p <> 0 /\ exists s, size + 32 <= s /\ in_use h1 ab1 (p - 32) s.
Proof.
  intros Hi Hs Hwf1 Ha. split; [by eapply allocated_inv|].
  destruct (allocated_in_use _ _ _ _ _ _ Ha) as (s & Hn & Hu). rewrite request_size_eq in Hn by lia.
  pose proof (in_use_magic _ _ _ _ Hwf1 Hu) as (_ & Hp & _). unfold BLOCK_HEADER_SIZE in *.
  split; [lia|]. exists s. split; [divmod_lia|done].
Qed.

Lemma calloc_spec h ab num size :
  heap_inv h ab -> 0 < num * size < 4294967256 ->
  exists p h' ab', calloc_rtos num size h = Done (p, h') /\ heap_inv h' ab' /\
     (p <> NULL -> forall k, p <= k < p + num * size -> bytes h' !! k = Some 0).
Proof.
  intros Hi Htot. unfold calloc_rtos. rewrite u64_small by lia. set (total := num * size) in *. clearbody total.
  destruct (malloc_spec h ab total (proj1 Hi)) as (p & h1 & ab1 & E & Hwf1 & Hcase).
  rewrite (bind_step _ _ _ _ _ E). destruct Hcase as [(-> & -> & -> & _)|[_ Ha]].
  - exists 0, h, ab. split_and!; try done; apply Hi.
  - destruct (malloc_payload _ _ _ _ _ _ Hi Htot Hwf1 Ha) as (Hi1 & Hp0 & s & Hs & Hu1).
    unfold truthy. rewrite (proj2 (Z.eqb_neq p 0)) by done. cbn [negb when].
    rewrite (bind_step (memset p 0 total) _ h1 tt
      (set_memory (clobber p total (headers h1)) (fill (Z.to_nat total) p 0 (bytes h1)) h1)).
    2: { unfold memset. by rewrite (in_use_range _ _ _ _ _ _ Hwf1 Hu1) by lia. }
    eexists p, _, ab1. split; [reflexivity|]. split.
    + split; [|exact (proj2 Hi1)]. eapply payload_write_wf; [exact Hwf1|exact Hu1|lia|lia].
    + intros _ k Hk. simpl. rewrite lookup_fill. by rewrite decide_True by lia.
Qed.

Lemma realloc_spec h ab x sz new_size :
  heap_inv h ab -> in_use h ab x sz -> sz - BLOCK_HEADER_SIZE < new_size < 4294967256 ->
  exists p h' ab', realloc_rtos (x + BLOCK_HEADER_SIZE) new_size h = Done (p, h') /\ heap_inv h' ab' /\
     (p = NULL -> h' = h) /\
     (p <> NULL -> forall k, 0 <= k < sz - BLOCK_HEADER_SIZE ->
        bytes h' !! (p + k) = bytes h !! (x + BLOCK_HEADER_SIZE + k)).
Proof.
  intros Hi Hu Hgrow. destruct (in_use_magic _ _ _ _ (proj1 Hi) Hu) as (_ & Hx0 & Hsz & b & Hhx & Hbm & Hbs).
  unfold realloc_rtos, BLOCK_HEADER_SIZE, NULL in *. rewrite (proj2 (Z.eqb_neq (x + 32) 0)) by lia.
  rewrite (proj2 (Z.eqb_neq new_size 0)) by lia. replace (x + 32 - 32) with x by lia.
  rewrite (bind_step _ _ _ _ _ (rd_Done _ _ _ Hhx)), Hbm, Hbs, Z.eqb_refl. cbn [negb].
  rewrite u32_small by lia. rewrite (proj2 (Z.leb_gt _ _)) by lia.
  destruct (malloc_spec h ab new_size (proj1 Hi)) as (p & h1 & ab1 & E & Hwf1 & Hcase).
  rewrite (bind_step _ _ _ _ _ E). destruct Hcase as [(-> & -> & -> & _)|[_ Ha]].
  { exists 0, h, ab. split_and!; try done; apply Hi. }
  assert (0 < new_size < 4294967256) as Hns by lia.
  destruct (malloc_payload _ _ _ _ _ _ Hi Hns Hwf1 Ha) as (Hi1 & Hp0 & s & Hs & Hu1).
  destruct (in_use_allocated _ _ _ _ _ _ _ _ (proj1 Hi) Ha Hu) as [Hux Hxp]. unfold BLOCK_HEADER_SIZE in Hxp.
  pose proof (in_use_disjoint _ _ _ _ _ _ Hwf1 Hux Hu1 Hxp) as Hdis.
  assert (bytes h1 = bytes h) as Hbytes by (destruct Ha as (? & ? & ? & ? & ? & Ha); apply Ha).
  rewrite (proj2 (Z.eqb_neq p 0)) by done.
  set (h2 := set_memory (clobber p (sz - 32) (headers h1)) (copy (Z.to_nat (sz - 32)) p (x + 32) (bytes h1)) h1).
  rewrite (bind_step (memcpy p (x + 32) (sz - 32)) _ h1 tt h2).
  2: { unfold memcpy. rewrite (in_use_range _ _ _ _ _ _ Hwf1 Hu1), (in_use_range _ _ _ _ _ _ Hwf1 Hux) by lia. done. }
  assert (heap_wf h2 ab1) as Hwf2 by (eapply payload_write_wf; [exact Hwf1|exact Hu1|lia|lia]).
  assert (in_use h2 ab1 x sz) as Hux2 by exact Hux.
  destruct (in_use_magic _ _ _ _ Hwf2 Hux2) as (Hmag & _).
  replace x with (x + 32 - BLOCK_HEADER_SIZE) in Hmag by (unfold BLOCK_HEADER_SIZE; lia).
  destruct (free_spec h2 ab1 _ Hwf2 Hmag) as (h3 & ab3 & E3 & Hwf3 & Hf).
  exists p, h3, ab3. split; [by rewrite (bind_step _ _ _ _ _ E3)|]. split.
  { eapply freed_inv; [|exact Hwf3|exact Hf]. split; [done|]. exact (proj2 Hi1). }
  split; [done|]. intros _ k Hk.
  assert (bytes h3 = bytes h2) as -> by (destruct Hf as (? & ? & ? & ? & ? & Hf); apply Hf).
  simpl. rewrite lookup_copy by lia. rewrite decide_True, Hbytes by lia. f_equal. lia.
Qed.

(** What a release does to the list of a region: some free neighbours and the block
    become one free block. *)
Lemma released_shape type l1 sz l2 :
  exists m1 f1 f2 m2 t, l1 = m1 ++ f1 /\ l2 = f2 ++ m2 /\ Forall (fun b => b.2 = false) (f1 ++ f2) /\
    released type l1 sz l2 = m1 ++ (t, false) :: m2 /\ t = total f1 + sz + total f2.
Proof.
  unfold released. destruct (HEAP_TYPE_3 <=? type).
  2: { exists l1, [], [], l2, sz. rewrite app_nil_r. split_and!; try done. simpl. lia. }
  unfold coalesce. destruct (merge_right sz l2) as [s l2'] eqn:E.
  assert (exists f2, l2 = f2 ++ l2' /\ Forall (fun b : block => b.2 = false) f2 /\ s = sz + total f2) as (f2 & -> & Hf2 & ->).
  { unfold merge_right in E. destruct l2 as [|[s2 [|]] l2]; simplify_eq.
    - exists []. split_and!; try done. simpl. lia.
    - exists []. split_and!; try done. simpl. lia.
    - exists [(s2, false)]. split_and!; try done; [by repeat constructor|simpl; lia]. }
  clear E. destruct l1 as [|[s0 u0] l0 _] using rev_ind.
  { exists [], [], f2, l2', (sz + total f2). split_and!; try done. }
  rewrite merge_left_snoc. destruct u0.
  - exists (l0 ++ [(s0, true)]), [], f2, l2', (sz + total f2). rewrite app_nil_r, <- !app_assoc. by split_and!.
  - exists l0, [(s0, false)], f2, l2', (s0 + (sz + total f2)). rewrite <- !app_assoc. split_and!; try done.
    + by constructor.
    + simpl. lia.
Qed.

(** A used block of [m1 ++ f1 ++ (s, true) :: f2 ++ m2], [f1] and [f2] free, other than
    that one, is in [m1] or in [m2]. *)
Lemma used_in_free (f : list block) sz a b : Forall (fun b => b.2 = false) f -> f = a ++ (sz, true) :: b -> False.
Proof. intros Hf ->. apply Forall_app in Hf as [_ [Hf _]%Forall_cons]. done. Qed.

Lemma used_elsewhere (m1 f1 f2 m2 a b : list block) s sz :
  (m1 ++ f1) ++ (s, true) :: f2 ++ m2 = a ++ (sz, true) :: b ->
  Forall (fun b => b.2 = false) (f1 ++ f2) -> a <> m1 ++ f1 ->
  (exists k, m1 = a ++ (sz, true) :: k /\ b = k ++ f1 ++ (s, true) :: f2 ++ m2) \/
  (exists k, a = m1 ++ f1 ++ (s, true) :: f2 ++ k /\ m2 = k ++ (sz, true) :: b).
Proof.
  intros E [H1 H2]%Forall_app Hne.
  apply app_eq_inv in E as [(k & E1 & E2)|(k & E1 & E2)].
  - destruct k as [|x k]; [by rewrite app_nil_r in E1|]. simplify_eq/=.
    apply app_eq_inv in E1 as [(k' & E1 & E2)|(k' & E1 & E2)].
    + destruct k' as [|y k']; [by destruct (used_in_free f1 sz [] k H1)|simplify_eq/=].
      left. exists k'. split; [done|]. by rewrite <- app_assoc.
    + by destruct (used_in_free f1 sz k' k H1).
  - destruct k as [|x k]; [by rewrite app_nil_r in E1|]. simpl in E2. injection E2 as <- E2.
    apply app_eq_inv in E2 as [(k' & E3 & E2)|(k' & E3 & E2)].
    + destruct k' as [|y k']; [|simplify_eq/=; by destruct (used_in_free _ sz k k' H2)].
      simpl in E2. rewrite app_nil_r in E3. subst. right. exists []. rewrite !app_nil_r, <- app_assoc. done.
    + right. exists k'. subst. by rewrite <- !app_assoc.
Qed.

Lemma in_use_freed h ab ptr h' ab' x sz :
  freed h ab ptr h' ab' -> in_use h ab x sz -> x <> ptr - BLOCK_HEADER_SIZE -> in_use h' ab' x sz.
Proof.
  intros (i & r & l1 & s & l2 & Hr & Hb & -> & -> & _ & _ & Hlive & _) (j & r' & l1' & l2' & Hr' & Hb' & ->) Hne.
  assert (i < length ab)%nat as Hi by (by eapply lookup_lt_Some).
  destruct (decide (i = j)) as [<-|Hij].
  2: { exists j, r', l1', l2'. by rewrite Hlive, list_lookup_insert_ne. }
  rewrite Hr in Hr'. injection Hr' as <-. rewrite Hb in Hb'. injection Hb' as Heq.
  destruct (released_shape (heap_type h) l1 s l2) as (m1 & f1 & f2 & m2 & t & -> & -> & Hf & -> & ->).
  assert (forall a b, m1 ++ (total f1 + s + total f2, false) :: m2 = a ++ (sz, true) :: b ->
    in_use h' (<[i := m1 ++ (total f1 + s + total f2, false) :: m2]> ab) (hr_start r + total a) sz) as Hin.
  { intros a b E. exists i, r, a, b. rewrite Hlive, list_lookup_insert_eq, E by done. done. }
  apply used_elsewhere in Heq as [(k & -> & ->)|(k & -> & ->)]; [| |done|].
  - apply (Hin _ (k ++ (total f1 + s + total f2, false) :: m2)). by rewrite <- app_assoc.
  - replace (total (m1 ++ f1 ++ (s, true) :: f2 ++ k)) with (total (m1 ++ (total f1 + s + total f2, false) :: k))
      by (rewrite !total_app; simpl; rewrite !total_app; simpl; rewrite ?total_app; lia).
    apply (Hin _ l2'). by rewrite <- app_assoc.
  - intros ->. apply Hne. rewrite !total_app. unfold BLOCK_HEADER_SIZE. lia.
Qed.

(** Every header that reads as allocated is that of a block in use. *)
Lemma allocated_header h ab x :
  heap_wf h ab -> magic_of (headers h) x = Some BLOCK_MAGIC_ALLOC -> exists sz, in_use h ab x sz.
Proof.
  intros Hwf Hx. destruct (wf_used _ _ Hwf x Hx) as (i & r & bl & Hr & Hb & Hu).
  apply used_at_split in Hu as (l1 & sz & l2 & -> & ->). exists sz, i, r, l1, l2. done.
Qed.

(** ** Reachable heaps *)

(** A heap set up by [heap_init] for one of the linked heap types, extended by
    regions of fresh memory, and used through the allocation functions and writes to
    the payload of blocks in use. *)
Inductive heap_step : heap_t -> heap_t -> Prop :=
| step_add_region h h' start size :
    0 < start -> 0 <= size < 4294967296 ->
    Forall (fun r => start + size <= hr_start r \/ hr_end r <= start) (live_regions h) ->
    heap_add_region start size h = Done (tt, h') -> heap_step h h'
| step_malloc h h' size p : malloc_rtos size h = Done (p, h') -> heap_step h h'
| step_free h h' ptr : free_rtos ptr h = Done (tt, h') -> heap_step h h'
| step_payload h h' x b c v n :
    headers h !! x = Some b -> bh_magic b = BLOCK_MAGIC_ALLOC ->
    x + BLOCK_HEADER_SIZE <= c -> c + n <= x + bh_size b ->
    memset c v n h = Done (tt, h') -> heap_step h h'
| step_quick_fit h h' : heap_quick_fit_init h = Done (tt, h') -> heap_step h h'.

Inductive heap_reachable : heap_t -> Prop :=
| reach_heap_init start size type h :
    0 < start -> 0 <= size < 4294967296 -> HEAP_TYPE_2 <= type <= HEAP_TYPE_5 ->
    heap_init start size type heap0 = Done (tt, h) -> heap_reachable h
| reach_heap_step h h' : heap_reachable h -> heap_step h h' -> heap_reachable h'.

Lemma heap_reachable_inv h : heap_reachable h -> exists ab, heap_inv h ab.
Proof.
  induction 1 as [start size type h Hs Hz Ht E|h h' _ [ab Hi] Hstep].
  - pose proof (empty_heap_wf heap0 type Ht ltac:(done)) as Hwf. set (h0 := Heap _ _ _ _ _ _ _) in Hwf.
    unfold heap_init in E. rewrite bind_modify in E.
    unfold HEAP_TYPE_1, HEAP_TYPE_2, HEAP_TYPE_5 in *.
    rewrite (proj2 (Z.leb_le 1 _)), (proj2 (Z.leb_le _ 5)) in E by lia. cbn [andb] in E.
    apply bind_Done in E as (o & h1 & E1 & E2).
    change (Heap type _ 1 _ _ _ _) with (set_regions (regions h0) 1 h0) in E1.
    destruct (heap_region_init_spec _ _ _ _ _ Hs Hz E1) as [[-> ->]|(s & e & st & -> & _ & _ & _ & _ & H1)].
    + exists [[]]. assert (heap_region_init start size h0 = Done (None, h0)) as E0.
      { unfold heap_region_init in E1 |- *. by repeat case_match. }
      pose proof (add_region_wf _ _ _ _ _ _ Hwf ltac:(done) Hs Hz ltac:(constructor) E0) as Hw.
      simpl in E2. injection E2 as <-. split; [exact Hw|]. intros _. by repeat constructor.
    + exists [[(e - s, false)]].
      assert (exists h2, heap_region_init start size h0 = Done (Some (Region s e s), h2) /\
                         h1 = set_regions (regions h0) 1 h2) as (h2 & E0 & ->).
      { unfold heap_region_init in E1 |- *. repeat case_match; try done. injection E1 as ? ? <-. subst. by eexists. }
      pose proof (add_region_wf _ _ _ _ _ _ Hwf ltac:(done) Hs Hz ltac:(constructor) E0) as Hw.
      simpl in E2. injection E2 as <-. split; [|intros _; by repeat constructor].
      assert (regions h2 = regions h0) as Er.
      { destruct (heap_region_init_spec _ _ _ _ _ Hs Hz E0) as [[??]|(? & ? & ? & _ & _ & _ & _ & _ & ->)]; done. }
      unfold with_region in Hw. simpl in Hw. rewrite Er in Hw. exact Hw.
  - destruct Hstep as [h h' start size Hs Hz Hd E|h h' size p E|h h' ptr E|h h' x b c v n Hx Hb Hc Hn E|h h' E].
    + by eapply add_region_inv.
    + by eapply malloc_inv.
    + destruct (free_cases h ab ptr Hi) as [[E' _]|[E'|(h2 & ab' & E' & Hi' & _)]]; rewrite E' in E; try done.
      * injection E as <-. eauto.
      * injection E as <-. eauto.
    + exists ab. destruct (allocated_header h ab x (proj1 Hi)) as [sz Hu]; [unfold magic_of; by rewrite Hx, <- Hb|].
      destruct (in_use_magic _ _ _ _ (proj1 Hi) Hu) as (_ & _ & _ & b' & Hx' & _ & <-). simplify_eq.
      unfold BLOCK_HEADER_SIZE in Hc.
      unfold memset in E. rewrite (in_use_range _ _ _ _ _ _ (proj1 Hi) Hu) in E by lia. injection E as <-.
      split; [by eapply payload_write_wf; [apply Hi|exact Hu|..]|exact (proj2 Hi)].
    + exists ab. injection E as <-. destruct Hi as [[] ?]. by split.
Qed.

(** ** Properties *)

(** C1: in every heap set up with one of the linked types and used through the
    allocation functions, each region is tiled exactly by its doubly-linked block
    list, every header that reads as allocated belongs to a block in use, blocks
    in use never overlap, and under the coalescing types (3 and up) no two
    adjacent blocks are free. *)
Theorem heap_invariant h :
  heap_reachable h ->
  exists ab, heap_wf h ab /\ (HEAP_TYPE_3 <= heap_type h -> Forall coalesced ab) /\
    (forall x, magic_of (headers h) x = Some BLOCK_MAGIC_ALLOC <-> exists sz, in_use h ab x sz) /\
    (forall x y sx sy, in_use h ab x sx -> in_use h ab y sy -> x <> y -> x + sx <= y \/ y + sy <= x).
Proof.
  intros Hreach. destruct (heap_reachable_inv h Hreach) as [ab [Hwf Hc]]. exists ab.
  split_and!; [done|done| |].
  - intros x. split; [by apply allocated_header|].
    intros (sz & Hu). by destruct (in_use_magic _ _ _ _ Hwf Hu) as [H _].
  - intros x y sx sy Hx Hy Hne. by eapply in_use_disjoint.
Qed.

Definition demo_heap (start size type : Z) : heap_t :=
  match heap_init start size type heap0 with Done (_, h) => h | _ => heap0 end.

Lemma demo_heap_reachable start size type :
  0 < start -> 64 + 8 <= size < 4294967296 -> HEAP_TYPE_2 <= type <= HEAP_TYPE_5 ->
  heap_reachable (demo_heap start size type).
Proof.
  intros Hs Hz Ht. unfold demo_heap. destruct (heap_init start size type heap0) as [[[] h]| |] eqn:E.
  - apply (reach_heap_init start size type); [lia|lia|done|exact E].
  - exfalso. unfold heap_init in E. rewrite bind_modify in E. unfold mbind, M_bind, heap_region_init in E.
    rewrite !align_down_eq in E. unfold HEAP_ALIGNMENT, BLOCK_HEADER_SIZE in E.
    destruct (Z.leb_spec (8 * ((start + 8 - 1) / 8) + 32) (start + size)); [|divmod_lia].
    cbn [negb] in E. by destruct (u32 (_ - _) <? _).
  - exfalso. unfold heap_init in E. rewrite bind_modify in E. unfold mbind, M_bind, heap_region_init in E.
    destruct (u32 (_ - _) <? _); [done|]. by destruct (negb _).
Qed.

Lemma heap_invariant_witness :
  exists ab, heap_wf (demo_heap 4097 1000 4) ab /\ Forall coalesced ab.
Proof.
  destruct (heap_invariant (demo_heap 4097 1000 4)) as (ab & H1 & H2 & _).
  - apply demo_heap_reachable; unfold HEAP_TYPE_2, HEAP_TYPE_5; lia.
  - exists ab. split; [exact H1|]. apply H2. vm_compute. discriminate.
Defined.
(** C2: on a heap with the invariant of every reachable heap, [malloc_rtos] always returns.  For a size below 2^32 - 40
    it returns null, changing nothing, exactly when the size is 0 or no free block
    holds the rounded request; otherwise it returns the payload of the first
    fitting block of the first region that has one for heap types 3, 4 and 5, of that region's smallest fitting block for
    heap type 2 (the documents give other policies to types 2 and 3; heap type 1 has no such invariant), at least [size] bytes long, splits off the rest when it is 32
    bytes or more, and keeps the invariant. *)
Theorem malloc_correct h ab size :
  heap_inv h ab -> 0 <= size < 4294967256 ->
  let n := 8 * ((size + 39) / 8) in
  exists p h' ab', malloc_rtos size h = Done (p, h') /\ heap_inv h' ab' /\
    (p = NULL <-> size = 0 \/ Forall (full n) ab) /\
    (p = NULL -> h' = h) /\
    (p <> NULL -> allocated h ab n p h' ab' /\
       exists sz, size + BLOCK_HEADER_SIZE <= sz /\ in_use h' ab' (p - BLOCK_HEADER_SIZE) sz).
Proof.
  intros Hi Hs n. destruct (malloc_spec h ab size (proj1 Hi)) as (p & h' & ab' & E & Hwf & Hcase).
  rewrite request_size_eq in Hcase by done. fold n in Hcase.
  exists p, h', ab'. split; [done|]. destruct Hcase as [(-> & -> & -> & Hnone)|[Hs0 Ha]].
  - split_and!; try done.
  - split; [by eapply allocated_inv|]. pose proof Ha as (i & r & l1 & sz & l2 & Hr & Hb & Hpl & _ & Hp & _).
    assert (p <> NULL) as Hpn.
    { destruct (wf_region_mem _ _ _ _ _ (proj1 Hi) Hr Hb ltac:(by destruct l1)) as (Ha0 & Hok & _).
      rewrite Hp. unfold BLOCK_HEADER_SIZE, NULL. clear -Ha0 Hok. blocks_ok. totals. lia. }
    split_and!; try done.
    + split; [done|]. intros [?|Hf]; [done|]. exfalso.
      rewrite Forall_lookup in Hf. specialize (Hf i _ Hb). apply Forall_app in Hf as [_ [Hf _]%Forall_cons].
      apply Hf. split; [done|]. apply Hpl.
    + intros _. split; [done|]. destruct (allocated_in_use _ _ _ _ _ _ Ha) as (s & Hn & Hu).
      exists s. split; [|done]. unfold BLOCK_HEADER_SIZE, n in *. divmod_lia.
Qed.

Lemma malloc_correct_witness :
  exists p h', malloc_rtos 72 (demo_heap 4096 1024 4) = Done (p, h') /\ p = 4128 /\
    exists ab', heap_inv h' ab'.
Proof.
  destruct (heap_reachable_inv (demo_heap 4096 1024 4)) as [ab Hi].
  { apply demo_heap_reachable; unfold HEAP_TYPE_2, HEAP_TYPE_5; lia. }
  destruct (malloc_correct _ ab 72 Hi ltac:(lia)) as (p & h' & ab' & E & Hi' & _).
  exists p, h'. split; [exact E|]. split; [|by exists ab'].
  revert E. vm_compute. intros E. injection E as <- _. reflexivity.
Defined.

(** C3: on a heap with the invariant of every reachable heap, [free_rtos] of an allocated pointer always returns: the
    block becomes free, merged with its free neighbours under the coalescing
    types, the free size grows by the block's size, and the invariant is kept; a
    second free of the same pointer, and a free of any pointer whose header does
    not read as allocated, change nothing. *)
Theorem free_correct h ab ptr :
  heap_inv h ab ->
  (magic_of (headers h) (ptr - BLOCK_HEADER_SIZE) = Some BLOCK_MAGIC_ALLOC -> ptr <> NULL ->
   exists h' ab', free_rtos ptr h = Done (tt, h') /\ heap_inv h' ab' /\ freed h ab ptr h' ab' /\
     free_rtos ptr h' = Done (tt, h')) /\
  (ptr = NULL \/ (exists m, magic_of (headers h) (ptr - BLOCK_HEADER_SIZE) = Some m /\ m <> BLOCK_MAGIC_ALLOC) ->
   free_rtos ptr h = Done (tt, h)).
Proof.
  intros Hi. split; [|apply free_ignored]. intros Hm Hne.
  destruct (free_spec h ab ptr (proj1 Hi) Hm) as (h' & ab' & E & Hwf & Hf).
  exists h', ab'. split_and!; [done|by eapply freed_inv|done|].
  apply free_ignored. right. destruct Hf as (i & r & l1 & sz & l2 & Hf). exists BLOCK_MAGIC_FREE.
  split; [apply Hf|done].
Qed.

Definition run_heap {A} (m : M heap_t A) (h : heap_t) : heap_t := match m h with Done (_, h) => h | _ => h end.

Lemma run_heap_Done {A} (m : M heap_t A) h a h' : m h = Done (a, h') -> run_heap m h = h'.
Proof. unfold run_heap. by intros ->. Qed.

(** Two blocks allocated and the first one freed. *)
Definition demo_used : heap_t :=
  run_heap (p ← malloc_rtos 40; _ ← malloc_rtos 200; free_rtos p) (demo_heap 4096 1024 4).

Lemma demo_used_reachable : heap_reachable demo_used.
Proof.
  assert (heap_reachable (demo_heap 4096 1024 4)) as H
    by (apply demo_heap_reachable; unfold HEAP_TYPE_2, HEAP_TYPE_5; lia).
  unfold demo_used, run_heap.
  destruct (malloc_rtos 40 (demo_heap 4096 1024 4)) as [[p h1]| |] eqn:E1;
    [|unfold mbind, M_bind; by rewrite E1..].
  rewrite (bind_step _ _ _ _ _ E1). assert (heap_reachable h1) as H1 by (eapply reach_heap_step; [exact H|by eapply step_malloc]).
  destruct (malloc_rtos 200 h1) as [[q h2]| |] eqn:E2;
    [|exfalso; revert E1; vm_compute; intros E1; injection E1 as <- <-; vm_compute in E2; discriminate..].
  rewrite (bind_step _ _ _ _ _ E2). assert (heap_reachable h2) as H2 by (eapply reach_heap_step; [exact H1|by eapply step_malloc]).
  destruct (free_rtos p h2) as [[[] h3]| |] eqn:E3;
    [|exfalso; revert E1; vm_compute; intros E1; injection E1 as <- <-; vm_compute in E2; injection E2 as <- <-; vm_compute in E3; discriminate..].
  eapply reach_heap_step; [exact H2|by eapply step_free].
Qed.

Lemma free_correct_witness :
  exists h', free_rtos 4200 demo_used = Done (tt, h') /\ free_size (stats h') = 1024 /\
    free_rtos 4200 h' = Done (tt, h').
Proof.
  destruct (heap_reachable_inv demo_used demo_used_reachable) as [ab Hi].
  destruct (free_correct _ ab 4200 Hi) as [H _].
  destruct (H ltac:(vm_compute; reflexivity) ltac:(vm_compute; discriminate)) as (h' & ab' & E & _ & _ & E2).
  exists h'. split; [exact E|]. split; [|exact E2].
  revert E. vm_compute. intros E. injection E as <-. reflexivity.
Defined.
(** C38: [calloc_rtos] of a request whose byte count fits returns null or a fully
    zeroed payload of that many bytes; [realloc_rtos] to a larger size that succeeds
    moves the block and keeps the old payload bytes; both keep the invariant. *)
Theorem calloc_realloc_correct h ab num size x sz new_size :
  heap_inv h ab -> 0 < num * size < 4294967256 ->
  in_use h ab x sz -> sz - BLOCK_HEADER_SIZE < new_size < 4294967256 ->
  (exists p h' ab', calloc_rtos num size h = Done (p, h') /\ heap_inv h' ab' /\
     (p <> NULL -> forall k, p <= k < p + num * size -> bytes h' !! k = Some 0)) /\
  (exists p h' ab', realloc_rtos (x + BLOCK_HEADER_SIZE) new_size h = Done (p, h') /\ heap_inv h' ab' /\
     (p = NULL -> h' = h) /\
     (p <> NULL -> forall k, 0 <= k < sz - BLOCK_HEADER_SIZE ->
        bytes h' !! (p + k) = bytes h !! (x + BLOCK_HEADER_SIZE + k))).
Proof. intros Hi Htot Hu Hnew. split; [exact (calloc_spec h ab num size Hi Htot)|exact (realloc_spec h ab x sz new_size Hi Hu Hnew)]. Qed.

Lemma calloc_realloc_correct_witness :
  exists p h', realloc_rtos 4200 300 demo_used = Done (p, h') /\ p = 4432 /\
    bytes h' !! (p + 7) = bytes demo_used !! (4168 + BLOCK_HEADER_SIZE + 7).
Proof.
  destruct (heap_reachable_inv demo_used demo_used_reachable) as [ab Hi].
  destruct (allocated_header demo_used ab 4168 (proj1 Hi) ltac:(vm_compute; reflexivity)) as [sz Hu].
  assert (sz = 232) as ->.
  { destruct (in_use_magic _ _ _ _ (proj1 Hi) Hu) as (_ & _ & _ & b & E & _ & <-).
    revert E. vm_compute. intros E. injection E as <-. reflexivity. }
  destruct (calloc_realloc_correct demo_used ab 3 8 4168 232 300 Hi ltac:(lia) Hu
              ltac:(unfold BLOCK_HEADER_SIZE; lia)) as [_ (p & h' & ab' & E & _ & _ & Hc)].
  exists p, h'. split; [exact E|].
  assert (p = 4432) as -> by (revert E; vm_compute; intros E; injection E as <- _; reflexivity).
  split; [reflexivity|]. apply Hc; [discriminate|]. unfold BLOCK_HEADER_SIZE. lia.
Defined.

(** The free-size statistic is not the sum of the free blocks: when the block
    taken is 8, 16 or 24 bytes larger than the request the whole block is used but
    only the request is subtracted, while the release adds the whole block, so one
    allocation and release raise the free size by the difference; repeated, it
    exceeds the total size. *)
Theorem heap_stats_drift h ab size :
  heap_inv h ab -> 0 < size < 4294967256 ->
  let n := 8 * ((size + 39) / 8) in
  exists p h1 ab1, malloc_rtos size h = Done (p, h1) /\
    (p <> NULL -> exists sz h2, in_use h1 ab1 (p - BLOCK_HEADER_SIZE) sz /\ n <= sz < n + HEAP_MIN_BLOCK_SIZE /\
       free_rtos p h1 = Done (tt, h2) /\ total_size (stats h2) = total_size (stats h) /\
       free_size (stats h2) = free_size (stats h) +32 (sz - n)).
Proof.
  intros Hi Hs n. destruct (malloc_spec h ab size (proj1 Hi)) as (p & h1 & ab1 & E & Hwf1 & Hcase).
  rewrite request_size_eq in Hcase by lia. fold n in Hcase.
  exists p, h1, ab1. split; [done|]. intros Hp.
  destruct Hcase as [(-> & _)|[_ Ha]]; [done|].
  pose proof Ha as (i & r & l1 & s & l2 & Hr & Hb & [Hle _] & _ & -> & -> & Hf1 & Ht1 & Hlive & _).
  set (sz := if HEAP_MIN_BLOCK_SIZE <=? s - n then n else s).
  assert (in_use h1 (<[i:=l1 ++ split_blocks n s true ++ l2]> ab) (hr_start r + total l1) sz) as Hu.
  { exists i, r, l1, (if HEAP_MIN_BLOCK_SIZE <=? s - n then (s - n, false) :: l2 else l2).
    rewrite Hlive, list_lookup_insert_eq by (by eapply lookup_lt_Some). split_and!; try done.
    unfold sz, split_blocks. by case_match. }
  destruct (in_use_magic _ _ _ _ Hwf1 Hu) as (Hmag & _ & _ & b & Hhb & _ & Hbs).
  set (x := hr_start r + total l1) in *.
  replace (x + BLOCK_HEADER_SIZE - BLOCK_HEADER_SIZE) with x by (unfold BLOCK_HEADER_SIZE; lia).
  destruct (free_spec h1 _ (x + BLOCK_HEADER_SIZE) Hwf1) as (h2 & ab2 & E2 & Hwf2 & Hf).
  { by replace (x + BLOCK_HEADER_SIZE - BLOCK_HEADER_SIZE) with x by (unfold BLOCK_HEADER_SIZE; lia). }
  exists sz, h2. split; [done|].
  split; [unfold sz, HEAP_MIN_BLOCK_SIZE; destruct (Z.leb_spec 32 (s - n)); lia|]. split; [done|].
  destruct Hf as (j & r' & l1' & s' & l2' & Hr' & Hb' & Hx' & _ & Hf2 & Ht2 & _).
  assert (s' = sz) as ->.
  { destruct (wf_region_at _ _ _ _ _ Hwf1 Hr' Hb') as (_ & _ & _ & _ & _ & Hs').
    apply seg_mid in Hs'. assert (hr_start r' + total l1' = x) as Hxx by lia.
    rewrite Hxx, Hhb in Hs'. injection Hs' as ->. exact Hbs. }
  split; [congruence|]. rewrite Hf2, Hf1. unfold u32. rewrite Zplus_mod_idemp_l. f_equal. lia.
Qed.

(** A region of 128 bytes: 72 bytes requested, 104 needed, 128 used. *)
Lemma heap_stats_drift_witness :
  exists h1 h2, malloc_rtos 72 (demo_heap 4096 128 4) = Done (4128, h1) /\ free_rtos 4128 h1 = Done (tt, h2) /\
    total_size (stats h2) = 128 /\ free_size (stats h2) = 152.
Proof.
  destruct (heap_reachable_inv (demo_heap 4096 128 4)) as [ab Hi].
  { apply demo_heap_reachable; unfold HEAP_TYPE_2, HEAP_TYPE_5; lia. }
  destruct (heap_stats_drift _ ab 72 Hi ltac:(lia)) as (p & h1 & ab1 & E & H).
  assert (p = 4128) as -> by (revert E; vm_compute; intros E; injection E as <- _; reflexivity).
  destruct (H ltac:(discriminate)) as (sz & h2 & _ & _ & E2 & Ht & _).
  exists h1, h2. split; [exact E|]. split; [exact E2|]. split; [rewrite Ht; vm_compute; reflexivity|].
  rewrite <- (run_heap_Done _ _ _ _ E2), <- (run_heap_Done _ _ _ _ E). vm_compute. reflexivity.
Defined.

(** Two requests that the allocator does not refuse but cannot serve.  With heap
    type 1 every successful call returns the payload of the first block of the
    first region that has one, so all callers share it; with the other types a
    request of the last 32 sizes below 2^32 wraps to 32 bytes and succeeds with an
    empty payload. *)
Theorem malloc_unsafe_requests h ab size p h' :
  (heap_type h = HEAP_TYPE_1 -> size <> 0 ->
   forall r rs, live_regions h = r :: rs -> hr_free_list r <> NULL -> malloc_rtos size h = Done (p, h') ->
   p = hr_free_list r + BLOCK_HEADER_SIZE /\ heap_type h' = HEAP_TYPE_1 /\ live_regions h' = live_regions h) /\
  (heap_inv h ab -> 4294967264 <= size < 4294967296 -> ~ Forall (full 32) ab ->
   exists q h2 ab2, malloc_rtos size h = Done (q, h2) /\ q <> NULL /\ allocated h ab 32 q h2 ab2).
Proof.
  split.
  - intros Ht Hs r rs Hlive Hne E. unfold malloc_rtos in E. rewrite (proj2 (Z.eqb_neq size 0)) in E by done.
    rewrite bind_gets, Hlive in E. cbn [region_loop] in E.
    assert (block_alloc r (request_size size) h = Done (hr_free_list r, h)) as Ea
      by (unfold block_alloc; by rewrite Ht).
    assert (truthy (hr_free_list r) = true) as Htr by (unfold truthy; by rewrite (proj2 (Z.eqb_neq _ 0))).
    assert ((block ← block_alloc r (request_size size);
             if truthy block then mret block else region_loop rs (request_size size)) h = Done (hr_free_list r, h)) as Eb.
    { rewrite (bind_step _ _ _ _ _ Ea). by rewrite Htr. }
    rewrite (bind_step _ _ _ _ _ Eb), (proj2 (Z.eqb_neq _ NULL)) in E by done.
    apply bind_Done in E as ([] & h1 & E1 & E). apply bind_Done in E as ([] & h2 & E2 & E).
    assert (forall a f (g g' : heap_t), upd a f g = Done (tt, g') -> exists m, g' = set_headers m g) as Hupd.
    { intros a f g g'. unfold upd, mbind, M_bind, rd, wr. repeat case_match; intros; simplify_eq; eauto. }
    apply Hupd in E2 as [m2 ->].
    assert (exists m1, h1 = set_headers m1 h) as [m1 ->].
    { unfold block_split in E1. apply bind_Done in E1 as (b & g & Eg & E1).
      assert (g = h) as -> by (unfold rd in Eg; case_match; by simplify_eq).
      destruct (HEAP_MIN_BLOCK_SIZE <=? _); cbn [when] in E1; [|injection E1 as <-; exists (headers h); by destruct h].
      apply bind_Done in E1 as ([] & g1 & Ew & E1). unfold wr in Ew. case_match; simplify_eq.
      apply bind_Done in E1 as ([] & g2 & Ew & E1).
      assert (exists m, g2 = set_headers m h) as [m ->].
      { destruct (truthy _); cbn [when] in Ew; [apply Hupd in Ew as [m ->]|injection Ew as <-]; eauto. }
      apply bind_Done in E1 as ([] & g3 & E3 & E1). apply Hupd in E3 as [m3 ->]. apply Hupd in E1 as [m4 ->]. eauto. }
    rewrite !bind_modify in E. injection E as <- <-. split; [done|]. by case_match.
  - intros Hi Hs Hnf. destruct (malloc_spec h ab size (proj1 Hi)) as (q & h2 & ab2 & E & Hwf2 & Hcase).
    assert (request_size size = 32) as Hr.
    { unfold request_size, BLOCK_HEADER_SIZE, HEAP_MIN_BLOCK_SIZE. rewrite mask8 by apply u32_range.
      unfold HEAP_ALIGNMENT. rewrite (u32_small size) by lia.
      assert (u32 (size + 32) = size - 4294967264) as -> by (unfold u32; divmod_lia).
      rewrite (u32_small (_ + 8)), u32_small by (rewrite ?u32_small by lia; lia).
      destruct (Z.ltb_spec (8 * ((size - 4294967264 + 8 - 1) / 8)) 32); divmod_lia. }
    rewrite Hr in Hcase. destruct Hcase as [(-> & -> & -> & [?|?])|[_ Ha]]; [lia|done|].
    exists q, h2, ab2. split; [done|]. split; [|done].
    destruct (allocated_in_use _ _ _ _ _ _ Ha) as (s & _ & Hu).
    pose proof (in_use_magic _ _ _ _ Hwf2 Hu) as (_ & Hp & _). unfold BLOCK_HEADER_SIZE, NULL in *. lia.
Qed.

Lemma malloc_unsafe_requests_witness :
  (exists p h1 q h2, malloc_rtos 100 (demo_heap 4096 1024 1) = Done (p, h1) /\ malloc_rtos 500 h1 = Done (q, h2) /\ p = q) /\
  exists q h2, malloc_rtos 4294967264 (demo_heap 4096 1024 4) = Done (q, h2) /\ q <> NULL.
Proof.
  split.
  - set (h1 := run_heap (malloc_rtos 100) (demo_heap 4096 1024 1)).
    set (h2 := run_heap (malloc_rtos 500) h1).
    assert (malloc_rtos 100 (demo_heap 4096 1024 1) = Done (4128, h1)) as E1 by (vm_compute; reflexivity).
    assert (malloc_rtos 500 h1 = Done (4128, h2)) as E2 by (vm_compute; reflexivity).
    destruct (malloc_unsafe_requests (demo_heap 4096 1024 1) [] 100 4128 h1) as [H1 _].
    assert (live_regions (demo_heap 4096 1024 1) = [Region 4096 5120 4096]) as Hl by (vm_compute; reflexivity).
    destruct (H1 ltac:(vm_compute; reflexivity) ltac:(lia) _ _ Hl ltac:(discriminate) E1) as (_ & Ht & Hl1).
    destruct (malloc_unsafe_requests h1 [] 500 4128 h2) as [H2 _]. rewrite Hl in Hl1.
    destruct (H2 Ht ltac:(lia) _ _ Hl1 ltac:(discriminate) E2) as (Hp & _).
    exists 4128, h1, 4128, h2. split; [exact E1|]. split; [exact E2|]. rewrite Hp at 1. reflexivity.
  - destruct (heap_reachable_inv (demo_heap 4096 1024 4)) as [ab Hi].
    { apply demo_heap_reachable; unfold HEAP_TYPE_2, HEAP_TYPE_5; lia. }
    destruct (malloc_unsafe_requests (demo_heap 4096 1024 4) ab 4294967264 0 heap0) as [_ H].
    destruct (H Hi ltac:(lia)) as (q & h2 & ab2 & E & Hq & _); [|by exists q, h2].
    intros Hf. destruct (malloc_spec _ ab 40 (proj1 Hi)) as (p & h1 & ab1 & E & _ & Hcase).
    assert (p = 4128) as -> by (revert E; vm_compute; intros E; injection E as <- _; reflexivity).
    destruct Hcase as [[? _]|[_ (i & r & l1 & s & l2 & _ & Hb & [Hle _] & _)]]; [done|].
    rewrite Forall_lookup in Hf. specialize (Hf i _ Hb). apply Forall_app in Hf as [_ [Hf _]%Forall_cons].
    apply Hf. split; [done|]. rewrite request_size_eq in Hle by lia. simpl in *. divmod_lia.
Defined.
