(* ===== verification/Scheduler.v ===== *)
(** * Task scheduler (mini-rtos/src/task_scheduler.c, stack checks of memory_heap.c)

    The kernel state is the heap, the task control blocks by address, and the
    statics of the scheduler.  The typed view [tcbs] of the control blocks is kept
    apart from the heap's payload bytes; a control block that was released is no
    longer in it, so an access through a dangling pointer is [UB].

    [PORT_PENDSV_TRIGGER] is the host stub (no effect): a context switch is the
    call of [pendsv_handler]. *)
From S2P Require Import Prelude MemoryHeap.

Definition TASK_PRIORITY_HIGHEST : Z := 32.
Definition TASK_PRIORITY_LOWEST : Z := 4.
Definition TASK_PRIORITY_IDLE : Z := 0.
Definition TASK_PRIORITY_MAX : Z := 33.
Definition TASK_STACK_MIN : Z := 128.
Definition TASK_STACK_WATERMARK : Z := 0xA5A5A5A5.
Definition TASK_NAME_MAX_LEN : nat := 16.
Definition sizeof_tcb : Z := 120.

Inductive task_state_t := TASK_READY | TASK_RUNNING | TASK_BLOCKED | TASK_SUSPENDED | TASK_DELETED.
#[export] Instance task_state_eq_dec : EqDecision task_state_t.
Proof. solve_decision. Defined.

Record tcb_t := Tcb {
  t_sp : Z; t_stack_start : Z; t_stack_size : Z; t_priority : Z; t_base_priority : Z;
  t_state : task_state_t; t_entry : Z; t_param : Z; t_time_slice : Z; t_runtime_ticks : Z;
  t_ticks_remaining : Z; t_block_obj : Z; t_block_next : Z; t_next : Z; t_prev : Z;
  t_name : list Z; t_owner_original_priority : Z }.

Definition zero_tcb : tcb_t :=
  Tcb 0 0 0 0 0 TASK_READY 0 0 0 0 0 NULL NULL NULL NULL (replicate TASK_NAME_MAX_LEN 0) 0.

Definition set_t_sp x t := Tcb x (t_stack_start t) (t_stack_size t) (t_priority t) (t_base_priority t) (t_state t) (t_entry t) (t_param t) (t_time_slice t) (t_runtime_ticks t) (t_ticks_remaining t) (t_block_obj t) (t_block_next t) (t_next t) (t_prev t) (t_name t) (t_owner_original_priority t).
Definition set_t_priority x t := Tcb (t_sp t) (t_stack_start t) (t_stack_size t) x (t_base_priority t) (t_state t) (t_entry t) (t_param t) (t_time_slice t) (t_runtime_ticks t) (t_ticks_remaining t) (t_block_obj t) (t_block_next t) (t_next t) (t_prev t) (t_name t) (t_owner_original_priority t).
Definition set_t_base_priority x t := Tcb (t_sp t) (t_stack_start t) (t_stack_size t) (t_priority t) x (t_state t) (t_entry t) (t_param t) (t_time_slice t) (t_runtime_ticks t) (t_ticks_remaining t) (t_block_obj t) (t_block_next t) (t_next t) (t_prev t) (t_name t) (t_owner_original_priority t).
Definition set_t_state x t := Tcb (t_sp t) (t_stack_start t) (t_stack_size t) (t_priority t) (t_base_priority t) x (t_entry t) (t_param t) (t_time_slice t) (t_runtime_ticks t) (t_ticks_remaining t) (t_block_obj t) (t_block_next t) (t_next t) (t_prev t) (t_name t) (t_owner_original_priority t).
Definition set_t_runtime_ticks x t := Tcb (t_sp t) (t_stack_start t) (t_stack_size t) (t_priority t) (t_base_priority t) (t_state t) (t_entry t) (t_param t) (t_time_slice t) x (t_ticks_remaining t) (t_block_obj t) (t_block_next t) (t_next t) (t_prev t) (t_name t) (t_owner_original_priority t).
Definition set_t_ticks_remaining x t := Tcb (t_sp t) (t_stack_start t) (t_stack_size t) (t_priority t) (t_base_priority t) (t_state t) (t_entry t) (t_param t) (t_time_slice t) (t_runtime_ticks t) x (t_block_obj t) (t_block_next t) (t_next t) (t_prev t) (t_name t) (t_owner_original_priority t).
Definition set_t_block_obj x t := Tcb (t_sp t) (t_stack_start t) (t_stack_size t) (t_priority t) (t_base_priority t) (t_state t) (t_entry t) (t_param t) (t_time_slice t) (t_runtime_ticks t) (t_ticks_remaining t) x (t_block_next t) (t_next t) (t_prev t) (t_name t) (t_owner_original_priority t).
Definition set_t_block_next x t := Tcb (t_sp t) (t_stack_start t) (t_stack_size t) (t_priority t) (t_base_priority t) (t_state t) (t_entry t) (t_param t) (t_time_slice t) (t_runtime_ticks t) (t_ticks_remaining t) (t_block_obj t) x (t_next t) (t_prev t) (t_name t) (t_owner_original_priority t).
Definition set_t_next x t := Tcb (t_sp t) (t_stack_start t) (t_stack_size t) (t_priority t) (t_base_priority t) (t_state t) (t_entry t) (t_param t) (t_time_slice t) (t_runtime_ticks t) (t_ticks_remaining t) (t_block_obj t) (t_block_next t) x (t_prev t) (t_name t) (t_owner_original_priority t).
Definition set_t_prev x t := Tcb (t_sp t) (t_stack_start t) (t_stack_size t) (t_priority t) (t_base_priority t) (t_state t) (t_entry t) (t_param t) (t_time_slice t) (t_runtime_ticks t) (t_ticks_remaining t) (t_block_obj t) (t_block_next t) (t_next t) x (t_name t) (t_owner_original_priority t).

Record kernel_t := Kernel {
  heap : heap_t;
  tcbs : gmap Z tcb_t;
  task_list : list Z;
  current_task : Z;
  next_task : Z;
  tick_count : Z;
  scheduler_running : bool;
  context_switch_pending : bool;
  critical_nesting : Z }.

Definition kernel0 : kernel_t := Kernel heap0 ∅ (replicate 33 NULL) NULL NULL 0 false false 0.

Definition set_heap h k := Kernel h (tcbs k) (task_list k) (current_task k) (next_task k) (tick_count k) (scheduler_running k) (context_switch_pending k) (critical_nesting k).
Definition set_tcbs m k := Kernel (heap k) m (task_list k) (current_task k) (next_task k) (tick_count k) (scheduler_running k) (context_switch_pending k) (critical_nesting k).
Definition set_task_list l k := Kernel (heap k) (tcbs k) l (current_task k) (next_task k) (tick_count k) (scheduler_running k) (context_switch_pending k) (critical_nesting k).
Definition set_current_task t k := Kernel (heap k) (tcbs k) (task_list k) t (next_task k) (tick_count k) (scheduler_running k) (context_switch_pending k) (critical_nesting k).
Definition set_next_task t k := Kernel (heap k) (tcbs k) (task_list k) (current_task k) t (tick_count k) (scheduler_running k) (context_switch_pending k) (critical_nesting k).
Definition set_tick_count n k := Kernel (heap k) (tcbs k) (task_list k) (current_task k) (next_task k) n (scheduler_running k) (context_switch_pending k) (critical_nesting k).
Definition set_scheduler_running b k := Kernel (heap k) (tcbs k) (task_list k) (current_task k) (next_task k) (tick_count k) b (context_switch_pending k) (critical_nesting k).
Definition set_context_switch_pending b k := Kernel (heap k) (tcbs k) (task_list k) (current_task k) (next_task k) (tick_count k) (scheduler_running k) b (critical_nesting k).
Definition set_critical_nesting n k := Kernel (heap k) (tcbs k) (task_list k) (current_task k) (next_task k) (tick_count k) (scheduler_running k) (context_switch_pending k) n.

(** ** Accesses *)

Definition on_heap {A} (m : M heap_t A) : M kernel_t A := zoom heap set_heap m.

Definition tcb (t : Z) : M kernel_t tcb_t := fun k =>
  match tcbs k !! t with Some c => Done (c, k) | None => UB end.
Definition put_tcb (t : Z) (c : tcb_t) : M kernel_t unit := modify (fun k => set_tcbs (<[t := c]> (tcbs k)) k).
Definition upd_tcb (t : Z) (f : tcb_t -> tcb_t) : M kernel_t unit := c ← tcb t; put_tcb t (f c).

(** [task_list[p]] of an array of 33 pointers. *)
Definition list_head (p : Z) : M kernel_t Z := fun k =>
  if (0 <=? p) && (p <? TASK_PRIORITY_MAX)
  then match task_list k !! Z.to_nat p with Some t => Done (t, k) | None => UB end
  else UB.
Definition set_list_head (p : Z) (t : Z) : M kernel_t unit := fun k =>
  if (0 <=? p) && (p <? TASK_PRIORITY_MAX)
  then Done (tt, set_task_list (<[Z.to_nat p := t]> (task_list k)) k)
  else UB.

Definition task_get_tick_count : M kernel_t Z := gets tick_count.
Definition task_get_current : M kernel_t Z := gets current_task.

Definition task_enter_critical : M kernel_t unit :=
  modify (fun k => set_critical_nesting (critical_nesting k +32 1) k).
Definition task_exit_critical : M kernel_t unit :=
  modify (fun k => set_critical_nesting (critical_nesting k -32 1) k).

(** 32-bit little-endian words of the heap's payload. *)
Definition store32 (a v : Z) : M heap_t unit := fun h =>
  if in_heap h a 4 then
    Done (tt, set_memory (clobber a 4 (headers h))
      (<[a + 3 := u8 (Z.shiftr v 24)]> (<[a + 2 := u8 (Z.shiftr v 16)]>
      (<[a + 1 := u8 (Z.shiftr v 8)]> (<[a := u8 v]> (bytes h))))) h)
  else UB.

Definition load32 (a : Z) : M heap_t Z := fun h =>
  match bytes h !! a, bytes h !! (a + 1), bytes h !! (a + 2), bytes h !! (a + 3) with
  | Some b0, Some b1, Some b2, Some b3 =>
      Done (Z.lor b0 (Z.lor (Z.shiftl b1 8) (Z.lor (Z.shiftl b2 16) (Z.shiftl b3 24))), h)
  | _, _, _, _ => UB
  end.

(** ** Ready lists *)

(** [task->prev->next = task->next; task->next->prev = task->prev]. *)
Definition unlink (task : Z) : M kernel_t unit :=
  c ← tcb task;
  upd_tcb (t_prev c) (set_t_next (t_next c));;
  c ← tcb task;
  upd_tcb (t_next c) (set_t_prev (t_prev c)).

(** Taking the head [task] of list [prio] out of it; [next] is [task->next]. *)
Definition drop_head (prio task next : Z) : M kernel_t unit :=
  if next =? task then set_list_head prio NULL
  else set_list_head prio next;; unlink task.

(** ** Tasks *)

Fixpoint fill_words (n : nat) (a v : Z) : M heap_t unit :=
  match n with
  | O => mret tt
  | S n => store32 a v;; fill_words n (a + 4) v
  end.

Section tasks.
(** Link-time addresses of the functions [task_delete] and [idle_entry], and of the
    static [idle_task_tcb], which no function links into a list. *)
Context (task_delete_address idle_entry_address idle_task_tcb : Z).

Definition task_stack_init (task : Z) : M kernel_t unit :=
  c ← tcb task;
  let sp_top := t_stack_start c + t_stack_size c in
  on_heap (fill_words (Z.to_nat (t_stack_size c / 4)) (t_stack_start c) TASK_STACK_WATERMARK);;
  let sp := sp_top - 64 in
  on_heap (store32 (sp + 4 * 14) (u32 (t_entry c)));;
  on_heap (store32 (sp + 4 * 15) 0x01000000);;
  on_heap (store32 (sp + 4 * 13) (u32 (sp + 64)));;
  on_heap (store32 (sp + 4 * 12) (u32 (t_param c)));;
  on_heap (store32 (sp + 4 * 8) 0xFFFFFFFD);;
  on_heap (store32 (sp + 4 * 9) (u32 task_delete_address));;
  upd_tcb task (set_t_sp sp).

Definition stack_overflow_init (task : Z) : M kernel_t unit :=
  if task =? NULL then mret tt
  else
    c ← tcb task;
    if t_stack_start c =? NULL then mret tt
    else on_heap (memset (t_stack_start c) 0xA5 (t_stack_size c)).

(** Linking a task at the tail of the ready list of priority [priority]. *)
Definition link_tail (priority task : Z) : M kernel_t unit :=
  head ← list_head priority;
  if head =? NULL then
    set_list_head priority task;;
    upd_tcb task (set_t_next task);;
    upd_tcb task (set_t_prev task)
  else
    upd_tcb task (set_t_next head);;
    h ← tcb head;
    upd_tcb task (set_t_prev (t_prev h));;
    h ← tcb head;
    upd_tcb (t_prev h) (set_t_next task);;
    upd_tcb head (set_t_prev task).

Definition task_create (entry : Z) (name : option (list Z)) (stack_size param priority : Z) : M kernel_t Z :=
  let priority := if TASK_PRIORITY_MAX <=? priority then TASK_PRIORITY_LOWEST else priority in
  let stack_size := if stack_size <? TASK_STACK_MIN then TASK_STACK_MIN else stack_size in
  let stack_size := Z.land (stack_size +32 7) (u32 (Z.lnot 7)) in
  task ← on_heap (malloc_rtos sizeof_tcb);
  if task =? NULL then mret NULL
  else
    on_heap (memset task 0 sizeof_tcb);;
    stack_start ← on_heap (malloc_rtos stack_size);
    if stack_start =? NULL then on_heap (free_rtos task);; mret NULL
    else
      let nm := match name with Some n => cstr_copy TASK_NAME_MAX_LEN n | None => t_name zero_tcb end in
      put_tcb task (Tcb 0 stack_start stack_size priority priority TASK_READY entry param 10 0 0
                        NULL NULL NULL NULL nm 0);;
      task_stack_init task;;
      stack_overflow_init task;;
      task_enter_critical;;
      link_tail priority task;;
      task_exit_critical;;
      mret task.

Definition scheduler_init : M kernel_t unit :=
  modify (fun k => Kernel (heap k) (tcbs k) (replicate 33 NULL) (current_task k) (next_task k)
                          0 false false 0);;
  _ ← task_create idle_entry_address (Some [105; 100; 108; 101]) 128 NULL TASK_PRIORITY_IDLE;
  mret tt.

Definition task_delete (task : Z) : M kernel_t unit :=
  if (task =? NULL) || (task =? idle_task_tcb) then mret tt
  else
    task_enter_critical;;
    c ← tcb task;
    (if t_next c =? task then set_list_head (t_priority c) NULL
     else
       head ← list_head (t_priority c);
       when (head =? task) (set_list_head (t_priority c) (t_next c));;
       unlink task);;
    cur ← task_get_current;
    when (cur =? task) (modify (set_current_task NULL);; modify (set_context_switch_pending true));;
    task_exit_critical;;
    c ← tcb task;
    on_heap (free_rtos (t_stack_start c));;
    on_heap (free_rtos task);;
    modify (fun k => set_tcbs (delete task (tcbs k)) k).
End tasks.

Definition task_suspend (task : Z) : M kernel_t unit :=
  if task =? NULL then mret tt
  else
    task_enter_critical;;
    c ← tcb task;
    when (negb (bool_decide (t_state c = TASK_SUSPENDED))) (
      upd_tcb task (set_t_state TASK_SUSPENDED);;
      head ← list_head (t_priority c);
      (if head =? task then drop_head (t_priority c) task (t_next c) else unlink task);;
      cur ← task_get_current;
      when (cur =? task) (modify (set_context_switch_pending true)));;
    task_exit_critical.

Definition task_resume (task : Z) : M kernel_t unit :=
  if task =? NULL then mret tt
  else
    task_enter_critical;;
    c ← tcb task;
    when (bool_decide (t_state c = TASK_SUSPENDED)) (
      upd_tcb task (set_t_state TASK_READY);;
      link_tail (t_priority c) task;;
      cur ← task_get_current;
      when (truthy cur) (
        d ← tcb cur;
        when (t_priority d <? t_priority c) (modify (set_context_switch_pending true))));;
    task_exit_critical.

Definition task_delay (ticks : Z) : M kernel_t unit :=
  if ticks =? 0 then mret tt
  else
    task_enter_critical;;
    cur ← task_get_current;
    upd_tcb cur (set_t_ticks_remaining ticks);;
    upd_tcb cur (set_t_state TASK_BLOCKED);;
    c ← tcb cur;
    head ← list_head (t_priority c);
    when (head =? cur) (drop_head (t_priority c) cur (t_next c));;
    modify (set_context_switch_pending true);;
    task_exit_critical.

(** The new value of [*last_wake]. *)
Definition task_delay_until (last_wake ticks : Z) : M kernel_t Z :=
  now ← gets tick_count;
  let next := last_wake +32 ticks in
  when (now <? next) (task_delay (next -32 now));;
  gets tick_count.

Definition task_yield : M kernel_t unit :=
  task_enter_critical;;
  modify (set_context_switch_pending true);;
  task_exit_critical.

(** ** Choosing the next task *)

(** The do-while loops over a ready list visit a task per unit of fuel; a list
    without a cycle that misses its head has at most one visit per control block. *)
Definition ring_fuel (k : kernel_t) : nat := S (size (tcbs k)).

Fixpoint pick_loop (fuel : nat) (head candidate : Z) : M kernel_t (option Z) :=
  match fuel with
  | O => nofuel
  | S fuel =>
      c ← tcb candidate;
      if bool_decide (t_state c = TASK_READY) &&
         ((t_runtime_ticks c <? t_time_slice c) || (head =? candidate))
      then mret (Some candidate)
      else if t_next c =? head then mret None
      else pick_loop fuel head (t_next c)
  end.

Fixpoint find_loop (n : nat) : M kernel_t Z :=
  match n with
  | O => list_head TASK_PRIORITY_IDLE
  | S n' =>
      let prio := Z.of_nat n in
      head ← list_head prio;
      if truthy head then
        fuel ← gets ring_fuel;
        r ← pick_loop fuel head head;
        match r with
        | Some candidate =>
            c ← tcb candidate;
            set_list_head prio (t_next c);; mret candidate
        | None => set_list_head prio head;; mret head
        end
      else find_loop n'
  end.

Definition find_next_task : M kernel_t Z := find_loop (Z.to_nat TASK_PRIORITY_HIGHEST).

(** [port_start_first_task] of the host sets the tick count to 1. *)
Definition port_start_first_task : M kernel_t unit := modify (set_tick_count 1).

Definition scheduler_start : M kernel_t unit :=
  t ← find_next_task;
  t ← (if t =? NULL then list_head TASK_PRIORITY_IDLE else mret t);
  modify (set_current_task t);;
  upd_tcb t (set_t_state TASK_RUNNING);;
  modify (set_scheduler_running true);;
  port_start_first_task.

Definition tick_task (c : tcb_t) : tcb_t :=
  if bool_decide (t_state c = TASK_BLOCKED) && (0 <? t_ticks_remaining c) then
    let c := set_t_ticks_remaining (t_ticks_remaining c -32 1) c in
    if t_ticks_remaining c =? 0 then set_t_block_obj NULL (set_t_state TASK_READY c) else c
  else c.

Fixpoint tick_ring (fuel : nat) (head task : Z) : M kernel_t unit :=
  match fuel with
  | O => nofuel
  | S fuel =>
      upd_tcb task tick_task;;
      c ← tcb task;
      if t_next c =? head then mret tt else tick_ring fuel head (t_next c)
  end.

Fixpoint tick_lists (n : nat) (prio : Z) : M kernel_t unit :=
  match n with
  | O => mret tt
  | S n =>
      head ← list_head prio;
      fuel ← gets ring_fuel;
      when (truthy head) (tick_ring fuel head head);;
      tick_lists n (prio + 1)
  end.

Fixpoint preempt_ring (fuel : nat) (head task : Z) : M kernel_t bool :=
  match fuel with
  | O => nofuel
  | S fuel =>
      c ← tcb task;
      cur ← task_get_current;
      hit ← ((if bool_decide (t_state c = TASK_READY) && negb (task =? cur)
              then d ← tcb cur; mret (t_priority d <? t_priority c) else mret false) : M kernel_t bool);
      if (hit : bool) then mret true
      else if t_next c =? head then mret false else preempt_ring fuel head (t_next c)
  end.

Fixpoint preempt_lists (n : nat) : M kernel_t unit :=
  match n with
  | O => mret tt
  | S n' =>
      head ← list_head (Z.of_nat n);
      if truthy head then
        fuel ← gets ring_fuel;
        hit ← preempt_ring fuel head head;
        when hit (modify (set_context_switch_pending true));;
        pending ← gets context_switch_pending;
        if (pending : bool) then mret tt else preempt_lists n'
      else preempt_lists n'
  end.

Definition scheduler_tick_handler : M kernel_t unit :=
  running ← gets scheduler_running;
  if negb running then mret tt
  else
    modify (fun k => set_tick_count (tick_count k +32 1) k);;
    cur ← task_get_current;
    when (truthy cur) (upd_tcb cur (fun c => set_t_runtime_ticks (t_runtime_ticks c +32 1) c));;
    tick_lists (Z.to_nat TASK_PRIORITY_MAX) 0;;
    preempt_lists (Z.to_nat TASK_PRIORITY_HIGHEST).

Definition pendsv_handler : M kernel_t unit :=
  t ← find_next_task;
  modify (set_next_task t);;
  when (truthy t) (
    upd_tcb t (set_t_runtime_ticks 0);;
    upd_tcb t (set_t_state TASK_RUNNING);;
    modify (set_current_task t)).

(** ** Stack checks *)

Fixpoint stack_scan (fuel : nat) (p free_bytes stack_size : Z) : M kernel_t Z :=
  match fuel with
  | O => nofuel
  | S fuel =>
      if free_bytes <? stack_size then
        w ← on_heap (load32 p);
        if w =? TASK_STACK_WATERMARK then stack_scan fuel (p + 4) (free_bytes +32 4) stack_size
        else mret free_bytes
      else mret free_bytes
  end.

(** At most one word per four bytes of stack, and the final test. *)
Definition task_stack_free (task : Z) : M kernel_t Z :=
  c ← tcb task;
  stack_scan (S (S (Z.to_nat (t_stack_size c / 4)))) (t_stack_start c) 0 (t_stack_size c).

(** [stack_overflow_hook] is an empty function. *)
Definition stack_overflow_check (task : Z) : M kernel_t Z :=
  if task =? NULL then mret 0
  else free_bytes ← task_stack_free task; mret (if free_bytes <? 64 then 1 else 0).

Definition task_stack_watermark_check (task : Z) : M kernel_t unit :=
  _ ← task_stack_free task; mret tt.

(** ** Priority assignment, load and deadline order *)

Definition swap {A} (l : list A) (i j : nat) : list A :=
  match l !! i, l !! j with
  | Some x, Some y => <[j := x]> (<[i := y]> l)
  | _, _ => l
  end.

Fixpoint rm_inner (n : nat) (i j : nat) (tp : list Z * list Z) : list Z * list Z :=
  match n with
  | O => tp
  | S n =>
      let '(tasks, periods) := tp in
      rm_inner n i (S j)
        (if nth j periods 0 <? nth i periods 0 then (swap tasks i j, swap periods i j) else tp)
  end.

Fixpoint rm_outer (n : nat) (i count : nat) (tp : list Z * list Z) : list Z * list Z :=
  match n with
  | O => tp
  | S n => rm_outer n (S i) count (rm_inner (count - S i) i (S i) tp)
  end.

Fixpoint assign_loop (tasks : list Z) (i : Z) : M kernel_t unit :=
  match tasks with
  | [] => mret tt
  | t :: tasks =>
      if i <? TASK_PRIORITY_HIGHEST then
        upd_tcb t (set_t_priority (TASK_PRIORITY_HIGHEST - i));;
        c ← tcb t;
        upd_tcb t (set_t_base_priority (t_priority c));;
        assign_loop tasks (i + 1)
      else mret tt
  end.

(** The arrays [tasks] and [periods] of [count] entries are returned sorted. *)
Definition scheduler_assign_rm_priorities (tasks periods : list Z) : M kernel_t (list Z * list Z) :=
  let count := length tasks in
  if (count <? 2)%nat then mret (tasks, periods)
  else
    let '(tasks, periods) := rm_outer count 0 count (tasks, periods) in
    assign_loop tasks 0;;
    mret (tasks, periods).

Fixpoint load_ring (fuel : nat) (head task busy : Z) : M kernel_t Z :=
  match fuel with
  | O => nofuel
  | S fuel =>
      c ← tcb task;
      let busy := busy +32 t_runtime_ticks c in
      if t_next c =? head then mret busy else load_ring fuel head (t_next c) busy
  end.

Fixpoint load_lists (n : nat) (prio busy : Z) : M kernel_t Z :=
  match n with
  | O => mret busy
  | S n =>
      head ← list_head prio;
      fuel ← gets ring_fuel;
      busy ← (if truthy head then load_ring fuel head head busy else mret busy);
      load_lists n (prio + 1) busy
  end.

Definition scheduler_get_load_permil : M kernel_t Z :=
  total ← task_get_tick_count;
  if total =? 0 then mret 0
  else
    busy ← load_lists (Z.to_nat TASK_PRIORITY_MAX) 0 0;
    mret (if total <=? busy then 1000 else (busy *32 1000) / total).

Fixpoint edf_scan (fuel : nat) (prev curr deadline : Z) : M kernel_t Z :=
  match fuel with
  | O => nofuel
  | S fuel =>
      if curr =? NULL then mret prev
      else
        c ← tcb curr;
        if t_ticks_remaining c <=? deadline then edf_scan fuel curr (t_next c) deadline else mret prev
  end.

(** The new head [*edf_list]. *)
Definition scheduler_edf_list_insert (edf_list task deadline : Z) : M kernel_t Z :=
  if task =? NULL then mret edf_list
  else
    upd_tcb task (set_t_ticks_remaining deadline);;
    upd_tcb task (set_t_next NULL);;
    fuel ← gets ring_fuel;
    prev ← edf_scan fuel NULL edf_list deadline;
    if prev =? NULL then upd_tcb task (set_t_next edf_list);; mret task
    else
      p ← tcb prev;
      upd_tcb task (set_t_next (t_next p));;
      upd_tcb prev (set_t_next task);;
      mret edf_list.

Definition task_get_runtime_ticks : M kernel_t Z :=
  cur ← task_get_current;
  if truthy cur then c ← tcb cur; mret (t_runtime_ticks c) else mret 0.

(** ** Circular lists of control blocks *)

Fixpoint last_or (d : Z) (ts : list Z) : Z := match ts with [] => d | t :: ts => last_or t ts end.

(** [ts] linked through [t_next] and [t_prev] in [m], between [pv] and [nx]. *)
Fixpoint dll (m : gmap Z tcb_t) (pv : Z) (ts : list Z) (nx : Z) : Prop :=
  match ts with
  | [] => True
  | t :: ts => (exists c, m !! t = Some c /\ t_next c = hd nx ts /\ t_prev c = pv) /\ dll m t ts nx
  end.

Definition ring (m : gmap Z tcb_t) (ts : list Z) : Prop := dll m (last_or NULL ts) ts (hd NULL ts).

Lemma last_or_snoc d ts t : last_or d (ts ++ [t]) = t.
Proof. revert d. induction ts as [|x ts IH]; intros d; simpl; auto. Qed.
Lemma last_or_app d l1 l2 : last_or d (l1 ++ l2) = last_or (last_or d l1) l2.
Proof. revert d. induction l1 as [|x l1 IH]; intros d; simpl; auto. Qed.
Lemma last_or_ne d d' ts : ts <> [] -> last_or d ts = last_or d' ts.
Proof. by destruct ts. Qed.
Lemma last_or_in d ts : ts <> [] -> last_or d ts ∈ ts.
Proof.
  intros H. destruct ts as [|t ts _] using rev_ind; [done|]. rewrite last_or_snoc.
  apply elem_of_app. right. by apply list_elem_of_singleton.
Qed.
Lemma hd_in (d : Z) ts : ts <> [] -> hd d ts ∈ ts.
Proof. destruct ts; [done|]. intros _. left. Qed.
Lemma hd_app (d : Z) l1 l2 : hd d (l1 ++ l2) = hd (hd d l2) l1.
Proof. by destruct l1. Qed.

Lemma dll_app m pv l1 l2 nx :
  dll m pv (l1 ++ l2) nx <-> dll m pv l1 (hd nx l2) /\ dll m (last_or pv l1) l2 nx.
Proof.
  revert pv. induction l1 as [|t l1 IH]; intros pv; simpl; [tauto|]. rewrite IH, hd_app. tauto.
Qed.

Lemma dll_frame m m' pv ts nx : (forall t, t ∈ ts -> m' !! t = m !! t) -> dll m pv ts nx -> dll m' pv ts nx.
Proof.
  revert pv. induction ts as [|t ts IH]; intros pv Hf; simpl; [done|]. intros [H1 H2]. split.
  - rewrite Hf; [done|left].
  - apply IH; [|done]. intros x Hx. apply Hf. by right.
Qed.

Lemma dll_some m pv ts nx t : dll m pv ts nx -> t ∈ ts -> is_Some (m !! t).
Proof.
  revert pv. induction ts as [|x ts IH]; intros pv H Ht; [by apply elem_of_nil in Ht|].
  destruct H as [(c & Hc & _) H2]. apply elem_of_cons in Ht as [->|Ht]; [eauto|by eapply IH].
Qed.

Lemma dll_fields m m' pv ts nx :
  (forall t c, t ∈ ts -> m !! t = Some c ->
     exists c', m' !! t = Some c' /\ t_next c' = t_next c /\ t_prev c' = t_prev c) ->
  dll m pv ts nx -> dll m' pv ts nx.
Proof.
  revert pv. induction ts as [|t ts IH]; intros pv Hf; simpl; [done|].
  intros [(c & Hc & Hn & Hp) H2]. split.
  - destruct (Hf t c) as (c' & Hc' & Hn' & Hp'); [left|done|]. exists c'. by rewrite Hn', Hp'.
  - apply IH; [|done]. intros x d Hx. apply Hf. by right.
Qed.

(** Redirecting the last forward link and the first backward link. *)
Lemma dll_set_last m pv ts nx nx' :
  NoDup ts -> ts <> [] -> dll m pv ts nx -> dll (alter (set_t_next nx') (last_or NULL ts) m) pv ts nx'.
Proof.
  intros Hn Hne H. destruct ts as [|t ts _] using rev_ind; [done|]. rewrite last_or_snoc.
  apply NoDup_app in Hn as (_ & Hd & _). apply dll_app in H as [H1 [(c & Hc & _ & Hp) _]]. apply dll_app. split.
  - eapply dll_frame; [|exact H1]. intros x Hx. rewrite lookup_alter_ne; [done|].
    intros ->. apply (Hd x Hx). by apply list_elem_of_singleton.
  - split; [|done]. exists (set_t_next nx' c). by rewrite lookup_alter_eq, Hc.
Qed.

Lemma dll_set_first m pv pv' ts nx :
  NoDup ts -> ts <> [] -> dll m pv ts nx -> dll (alter (set_t_prev pv') (hd NULL ts) m) pv' ts nx.
Proof.
  intros Hn Hne H. destruct ts as [|t ts]; [done|]. apply NoDup_cons in Hn as [Hnt _].
  destruct H as [(c & Hc & Hx & Hp) H2]. simpl. split.
  - exists (set_t_prev pv' c). by rewrite lookup_alter_eq, Hc.
  - eapply dll_frame; [|exact H2]. intros x Hx'. rewrite lookup_alter_ne; [done|]. by intros ->.
Qed.

Lemma dll_alter_ne m f x pv ts nx : x ∉ ts -> dll m pv ts nx -> dll (alter f x m) pv ts nx.
Proof.
  intros Hx. apply dll_frame. intros t Ht. apply lookup_alter_ne. by intros ->.
Qed.

(** Only links change, and only on the tasks of [S]. *)
Definition relinked (S : list Z) (m m' : gmap Z tcb_t) : Prop :=
  forall t, (t ∉ S -> m' !! t = m !! t) /\
    ((exists c n p, m !! t = Some c /\ m' !! t = Some (set_t_next n (set_t_prev p c))) \/
     (m !! t = None /\ m' !! t = None)).

Lemma relinked_refl S m : relinked S m m.
Proof.
  intros t. split; [done|]. destruct (m !! t) as [c|]; [left|by right].
  exists c, (t_next c), (t_prev c). by destruct c.
Qed.

Lemma relinked_trans S m1 m2 m3 : relinked S m1 m2 -> relinked S m2 m3 -> relinked S m1 m3.
Proof.
  intros H1 H2 t. destruct (H1 t) as [F1 C1], (H2 t) as [F2 C2]. split; [intros; by rewrite F2, F1|].
  destruct C1 as [(c & n & p & E1 & E2)|[E1 E2]], C2 as [(c' & n' & p' & E3 & E4)|[E3 E4]]; simplify_map_eq; eauto 10.
Qed.

Lemma relinked_next S m t n : t ∈ S -> relinked S m (alter (set_t_next n) t m).
Proof.
  intros Ht x. split.
  - intros Hx. apply lookup_alter_ne. by intros ->.
  - destruct (decide (x = t)) as [->|Hx].
    + rewrite lookup_alter_eq. destruct (m !! t) as [c|]; [left|by right]. exists c, n, (t_prev c). by destruct c.
    + rewrite lookup_alter_ne by done. apply (relinked_refl S m x).
Qed.

Lemma relinked_prev S m t p : t ∈ S -> relinked S m (alter (set_t_prev p) t m).
Proof.
  intros Ht x. split.
  - intros Hx. apply lookup_alter_ne. by intros ->.
  - destruct (decide (x = t)) as [->|Hx].
    + rewrite lookup_alter_eq. destruct (m !! t) as [c|]; [left|by right]. exists c, (t_next c), p. by destruct c.
    + rewrite lookup_alter_ne by done. apply (relinked_refl S m x).
Qed.

Lemma relinked_sub S S' m m' : S ⊆ S' -> relinked S m m' -> relinked S' m m'.
Proof. intros Hs H t. destruct (H t) as [F C]. split; [|done]. intros Ht. apply F. set_solver. Qed.

Lemma relinked_fields S m m' t c' :
  relinked S m m' -> m' !! t = Some c' ->
  exists c, m !! t = Some c /\ c' = set_t_next (t_next c') (set_t_prev (t_prev c') c).
Proof.
  intros H Hc. destruct (H t) as [_ [(c & n & p & E1 & E2)|[_ E2]]]; [|congruence].
  exists c. rewrite E2 in Hc. injection Hc as <-. done.
Qed.

(** ** The link operations *)

Lemma tcb_Done k t c : tcbs k !! t = Some c -> tcb t k = Done (c, k).
Proof. unfold tcb. by intros ->. Qed.

Lemma alter_insert_some (m : gmap Z tcb_t) t f c : m !! t = Some c -> <[t := f c]> m = alter f t m.
Proof.
  intros Hc. apply map_eq. intros x. destruct (decide (x = t)) as [->|].
  - by rewrite lookup_insert_eq, lookup_alter_eq, Hc.
  - by rewrite lookup_insert_ne, lookup_alter_ne by done.
Qed.

Lemma upd_tcb_Done k t f :
  is_Some (tcbs k !! t) -> upd_tcb t f k = Done (tt, set_tcbs (alter f t (tcbs k)) k).
Proof.
  intros [c Hc]. unfold upd_tcb. rewrite (bind_step _ _ _ _ _ (tcb_Done _ _ _ Hc)).
  unfold put_tcb, modify. by rewrite (alter_insert_some _ _ _ _ Hc).
Qed.

Lemma list_head_Done k p t :
  0 <= p < 33 -> task_list k !! Z.to_nat p = Some t -> list_head p k = Done (t, k).
Proof.
  intros Hp Ht. unfold list_head, TASK_PRIORITY_MAX.
  by rewrite (proj2 (Z.leb_le 0 p)), (proj2 (Z.ltb_lt p 33)), Ht by lia.
Qed.

Lemma set_list_head_Done k p t :
  0 <= p < 33 -> set_list_head p t k = Done (tt, set_task_list (<[Z.to_nat p := t]> (task_list k)) k).
Proof.
  intros Hp. unfold set_list_head, TASK_PRIORITY_MAX.
  by rewrite (proj2 (Z.leb_le 0 p)), (proj2 (Z.ltb_lt p 33)) by lia.
Qed.

Lemma is_Some_alter (m : gmap Z tcb_t) f t x : is_Some (m !! x) -> is_Some (alter f t m !! x).
Proof.
  intros [c Hc]. destruct (decide (x = t)) as [->|].
  - rewrite lookup_alter_eq, Hc. eauto.
  - rewrite lookup_alter_ne, Hc by done. eauto.
Qed.

Lemma link_tail_spec k p t ts :
  0 <= p < 33 -> task_list k !! Z.to_nat p = Some (hd NULL ts) -> ring (tcbs k) ts ->
  NoDup (ts ++ [t]) -> NULL ∉ ts -> is_Some (tcbs k !! t) ->
  exists m', link_tail p t k =
      Done (tt, set_tcbs m' (set_task_list (<[Z.to_nat p := hd t ts]> (task_list k)) k)) /\
    ring m' (ts ++ [t]) /\ relinked (ts ++ [t]) (tcbs k) m'.
Proof.
  intros Hp Hh Hr Hnd Hnull Ht. apply NoDup_app in Hnd as (Hnd & Hd & _).
  assert (t ∉ ts) as Htn by (intros Hx; apply (Hd t Hx); by apply list_elem_of_singleton).
  unfold link_tail. rewrite (bind_step _ _ _ _ _ (list_head_Done _ _ _ Hp Hh)).
  destruct ts as [|h ts].
  - cbn [hd]. rewrite Z.eqb_refl. rewrite (bind_step _ _ _ _ _ (set_list_head_Done _ _ _ Hp)).
    rewrite (bind_step _ _ _ _ _ (upd_tcb_Done (set_task_list _ k) t _ Ht)).
    rewrite upd_tcb_Done by (by apply is_Some_alter).
    exists (alter (set_t_prev t) t (alter (set_t_next t) t (tcbs k))). split; [done|]. split.
    + destruct Ht as [c Hc]. split; [|done]. exists (set_t_prev t (set_t_next t c)).
      by rewrite !lookup_alter_eq, Hc.
    + eapply relinked_trans; [apply relinked_next|apply relinked_prev]; left.
  - cbn [hd]. assert (h <> NULL) as Hh0 by (intros ->; apply Hnull; left).
    rewrite (proj2 (Z.eqb_neq h NULL) Hh0).
    pose proof Hr as [(ch & Hch & Hnx & Hpv) Hr2]. cbn [hd] in *.
    set (l := last_or NULL (h :: ts)) in *.
    assert (l ∈ h :: ts) as Hl by (by apply last_or_in).
    assert (t <> h /\ t <> l) as [Hth Htl] by (split; intros ->; [apply Htn; left|done]).
    assert (is_Some (tcbs k !! l)) as Hls by (eapply dll_some; [exact Hr|exact Hl]).
    rewrite (bind_step _ _ _ _ _ (upd_tcb_Done k t _ Ht)).
    set (m1 := alter (set_t_next h) t (tcbs k)).
    assert (m1 !! h = Some ch) as Hch1 by (unfold m1; by rewrite lookup_alter_ne).
    rewrite (bind_step _ _ _ _ _ (tcb_Done (set_tcbs m1 k) _ _ Hch1)), Hpv.
    rewrite (bind_step _ _ _ _ _ (upd_tcb_Done (set_tcbs m1 k) t _ (is_Some_alter _ _ _ _ Ht))).
    change (tcbs (set_tcbs m1 k)) with m1. set (m2 := alter (set_t_prev l) t m1).
    assert (m2 !! h = Some ch) as Hch2 by (unfold m2; by rewrite lookup_alter_ne).
    rewrite (bind_step _ _ _ _ _ (tcb_Done (set_tcbs m2 k) _ _ Hch2)), Hpv.
    assert (is_Some (m2 !! l)) as Hl2 by (by apply is_Some_alter, is_Some_alter).
    rewrite (bind_step _ _ _ _ _ (upd_tcb_Done (set_tcbs m2 k) l _ Hl2)).
    change (tcbs (set_tcbs m2 k)) with m2.
    rewrite upd_tcb_Done by (apply is_Some_alter; simpl; rewrite Hch2; eauto).
    eexists. split; [|split].
    + change (set_tcbs ?a (set_tcbs ?b ?c)) with (set_tcbs a c).
      rewrite list_insert_id by done. by destruct k.
    + unfold ring. rewrite last_or_snoc. cbn [tcbs set_tcbs].
      change (hd NULL ((h :: ts) ++ [t])) with h. apply dll_app. cbn [hd]. split.
      * change h with (hd NULL (h :: ts)) at 1. apply (dll_set_first _ l); [done..|].
        apply (dll_set_last _ _ _ h); [done..|]. by do 2 (apply dll_alter_ne; [done|]).
      * split; [|done]. destruct Ht as [c Hc]. exists (set_t_prev l (set_t_next h c)).
        rewrite !lookup_alter_ne by done. unfold m2, m1. by rewrite !lookup_alter_eq, Hc.
    + cbn [tcbs set_tcbs]. assert (t ∈ (h :: ts) ++ [t]) by set_solver.
      eapply relinked_trans; [by apply relinked_next|]. eapply relinked_trans; [by apply relinked_prev|].
      eapply relinked_trans; [apply relinked_next|apply relinked_prev]; set_solver.
Qed.

Lemma unlink_spec k t l1 l2 :
  ring (tcbs k) (l1 ++ t :: l2) -> NoDup (l1 ++ t :: l2) -> l1 ++ l2 <> [] ->
  exists m', unlink t k = Done (tt, set_tcbs m' k) /\
    ring m' (l1 ++ l2) /\ relinked (l1 ++ l2) (tcbs k) m' /\ m' !! t = tcbs k !! t.
Proof.
  intros Hr Hnd Hne. pose proof Hr as Hr0. unfold ring in Hr. apply dll_app in Hr as [H1 [(c & Hc & Hn & Hp) H2]].
  apply NoDup_app in Hnd as (Hnd1 & Hd1 & [Htl Hnd2]%NoDup_cons).
  assert (t ∉ l1) as Ht1 by (intros Hx; apply (Hd1 t Hx); left).
  set (p := t_prev c) in *. set (n := t_next c) in *.
  assert ((l1 = [] \/ l2 = []) /\ p = last_or NULL (l1 ++ l2) /\ n = hd NULL (l1 ++ l2) \/
          l1 <> [] /\ l2 <> [] /\ p = last_or NULL l1 /\ n = hd NULL l2) as Hpn.
  { rewrite last_or_app in Hp. simpl in Hp. rewrite hd_app in Hn. simpl in Hn.
    destruct l1 as [|a l1], l2 as [|b l2]; simpl in *; [done|left; auto|left|right; done].
    rewrite app_nil_r. auto. }
  assert (p ∈ l1 ++ l2 /\ n ∈ l1 ++ l2) as [Hpi Hni].
  { destruct Hpn as [(_ & -> & ->)|(Hn1 & Hn2 & -> & ->)].
    - split; [by apply last_or_in|by apply hd_in].
    - rewrite !elem_of_app. split; [left; by apply last_or_in|right; by apply hd_in]. }
  assert (forall x, x ∈ l1 ++ l2 -> x <> t /\ is_Some (tcbs k !! x)) as Hx.
  { intros x [Hx|Hx]%elem_of_app; (split; [by intros ->|eapply dll_some; [|exact Hx]; done]). }
  destruct (Hx p Hpi) as [Hpt Hps], (Hx n Hni) as [Hnt Hns].
  unfold unlink. rewrite (bind_step _ _ _ _ _ (tcb_Done _ _ _ Hc)).
  rewrite (bind_step _ _ _ _ _ (upd_tcb_Done k _ _ Hps)). set (m1 := alter (set_t_next n) p (tcbs k)).
  assert (m1 !! t = Some c) as Hc1 by (unfold m1; by rewrite lookup_alter_ne).
  rewrite (bind_step _ _ _ _ _ (tcb_Done (set_tcbs m1 k) _ _ Hc1)).
  rewrite upd_tcb_Done by (by apply is_Some_alter). exists (alter (set_t_prev p) n m1).
  split; [done|]. split; [|split].
  - assert (forall l pv nx, l <> [] -> NoDup l -> dll (tcbs k) pv l nx -> p = last_or NULL l -> n = hd NULL l ->
      ring (alter (set_t_prev p) n m1) l) as Hring.
    { intros l pv nx Hl Hnd Hdl Ep En. unfold ring. rewrite <- Ep, <- En, En at 1.
      apply (dll_set_first _ pv); [done..|]. unfold m1. rewrite Ep. by apply (dll_set_last _ _ _ nx). }
    destruct Hpn as [([->| ->] & Ep & En)|(Hn1 & Hn2 & Ep & En)].
    + by eapply Hring.
    + rewrite app_nil_r in *. by eapply Hring.
    + unfold ring. rewrite last_or_app, (last_or_ne _ NULL l2), hd_app by done.
      assert (forall d, hd d l1 = hd NULL l1) as Hhd by (by destruct l1). rewrite Hhd.
      apply dll_app. assert (last_or (last_or NULL l2) l1 = p) as -> by (rewrite Ep; by destruct l1).
      assert (forall d, hd d l2 = n) as Hhd2 by (intros; rewrite En; by destruct l2).
      assert (p ∉ l2) as Hpl2 by (intros Hi; apply (Hd1 p); [rewrite Ep; by apply last_or_in|by right]).
      assert (n ∉ l1) as Hnl1 by (intros Hi; apply (Hd1 n Hi); right; rewrite En; by apply hd_in).
      rewrite Hhd2. split.
      * apply dll_alter_ne; [done|]. unfold m1. rewrite Ep. apply (dll_set_last _ _ _ t); [done..|].
        rewrite last_or_app in H1. simpl in H1.
        rewrite (last_or_ne t NULL) in H1 by done. exact H1.
      * rewrite En. apply (dll_set_first _ t); [done..|]. unfold m1.
        apply dll_alter_ne; [done|]. rewrite hd_app, Hhd in H2. exact H2.
  - apply (relinked_trans _ _ m1); [by apply relinked_next|by apply relinked_prev].
  - rewrite lookup_alter_ne by done. unfold m1. by rewrite lookup_alter_ne.
Qed.
(** ** Ready lists

    [rq] is the abstract scheduler: for each priority the tasks of its list, in
    order from the head. *)

Record sched_wf (tl : list Z) (m : gmap Z tcb_t) (rq : list (list Z)) : Prop := SchedWf {
  sw_len : length rq = 33%nat;
  sw_heads : tl = hd NULL <$> rq;
  sw_rings : forall p ts, rq !! p = Some ts -> ring m ts;
  sw_nodup : forall p ts, rq !! p = Some ts -> NoDup ts /\ NULL ∉ ts;
  sw_disj : forall p q ts us t, rq !! p = Some ts -> rq !! q = Some us -> t ∈ ts -> t ∈ us -> p = q;
  sw_prio : forall p ts t c, rq !! p = Some ts -> t ∈ ts -> m !! t = Some c -> t_priority c = Z.of_nat p }.

Definition linked (rq : list (list Z)) (t : Z) : Prop := exists p ts, rq !! p = Some ts /\ t ∈ ts.

Lemma wf_head_at tl m rq p ts :
  sched_wf tl m rq -> rq !! p = Some ts -> tl !! p = Some (hd NULL ts) /\ 0 <= Z.of_nat p < 33.
Proof.
  intros Hwf Hp. rewrite (sw_heads _ _ _ Hwf), list_lookup_fmap, Hp. split; [done|].
  apply lookup_lt_Some in Hp. rewrite (sw_len _ _ _ Hwf) in Hp. lia.
Qed.

(** Replacing the list of one priority. *)
Lemma wf_replace tl m rq p ts ts' m' :
  sched_wf tl m rq -> rq !! p = Some ts -> ring m' ts' -> NoDup ts' -> NULL ∉ ts' ->
  (forall t, t ∈ ts' -> t ∈ ts \/ ~ linked rq t) ->
  (forall t, t ∉ ts -> t ∉ ts' -> linked rq t -> m' !! t = m !! t) ->
  (forall t c, t ∈ ts' -> m' !! t = Some c -> t_priority c = Z.of_nat p) ->
  sched_wf (<[p := hd NULL ts']> tl) m' (<[p := ts']> rq).
Proof.
  intros Hwf Hp Hr Hnd Hnull Hnew Hf Hprio.
  assert (p < length rq)%nat as Hlt by (by eapply lookup_lt_Some).
  assert (forall q us, q <> p -> rq !! q = Some us -> forall t, t ∈ us -> m' !! t = m !! t) as Hother.
  { intros q us Hq Hus t Ht. apply Hf; [| |by exists q, us].
    - intros Ht'. by apply Hq, (sw_disj _ _ _ Hwf q p us ts t).
    - intros Ht'. destruct (Hnew t Ht') as [Ht2|Ht2]; [by apply Hq, (sw_disj _ _ _ Hwf q p us ts t)|].
      apply Ht2. by exists q, us. }
  assert (forall q us, (<[p:=ts']> rq) !! q = Some us -> q = p /\ us = ts' \/ q <> p /\ rq !! q = Some us) as Hcase.
  { intros q us Hq. destruct (decide (q = p)) as [->|Hqp].
    - rewrite list_lookup_insert_eq in Hq by done. left. by simplify_eq.
    - rewrite list_lookup_insert_ne in Hq by done. by right. }
  constructor.
  - rewrite length_insert. apply Hwf.
  - rewrite list_fmap_insert. by rewrite (sw_heads _ _ _ Hwf) at 1.
  - intros q us [[-> ->]|[Hqp Hq]]%Hcase; [done|]. eapply dll_frame; [by eapply Hother|exact (sw_rings _ _ _ Hwf _ _ Hq)].
  - intros q us [[-> ->]|[Hqp Hq]]%Hcase; [done|]. by eapply sw_nodup.
  - intros q1 q2 us1 us2 t [[-> ->]|[Hqp1 Hq1]]%Hcase [[-> ->]|[Hqp2 Hq2]]%Hcase H1 H2; [done| | |].
    + destruct (Hnew t H1) as [H3|H3]; [by eapply (sw_disj _ _ _ Hwf)|]. destruct H3. by exists q2, us2.
    + destruct (Hnew t H2) as [H3|H3]; [by eapply (sw_disj _ _ _ Hwf)|]. destruct H3. by exists q1, us1.
    + by eapply (sw_disj _ _ _ Hwf).
  - intros q us t c [[-> ->]|[Hqp Hq]]%Hcase Ht Hc; [by apply (Hprio t)|].
    rewrite (Hother q us) in Hc by done. by eapply (sw_prio _ _ _ Hwf).
Qed.

(** Updates that keep links and priorities. *)
Lemma wf_fields tl m rq m' :
  sched_wf tl m rq ->
  (forall t c, linked rq t -> m !! t = Some c -> exists c', m' !! t = Some c' /\ t_next c' = t_next c /\
     t_prev c' = t_prev c /\ t_priority c' = t_priority c) ->
  sched_wf tl m' rq.
Proof.
  intros Hwf Hf. constructor; try apply Hwf.
  - intros p ts Hp. eapply dll_fields; [|exact (sw_rings _ _ _ Hwf _ _ Hp)]. intros t c Ht Hc.
    destruct (Hf t c) as (c' & ? & ? & ? & _); [by exists p, ts|done|]. eauto.
  - intros p ts t c' Hp Ht Hc'. destruct (dll_some _ _ _ _ t (sw_rings _ _ _ Hwf _ _ Hp) Ht) as [c Hc].
    destruct (Hf t c) as (d & Hd & _ & _ & Hpr); [by exists p, ts|done|]. simplify_eq. rewrite Hpr.
    by eapply (sw_prio _ _ _ Hwf).
Qed.

Lemma alter_fields (m : gmap Z tcb_t) t f x c :
  m !! x = Some c -> (forall d, t_next (f d) = t_next d /\ t_prev (f d) = t_prev d /\ t_priority (f d) = t_priority d) ->
  exists c', alter f t m !! x = Some c' /\ t_next c' = t_next c /\ t_prev c' = t_prev c /\ t_priority c' = t_priority c.
Proof.
  intros Hc Hf. destruct (decide (x = t)) as [->|Hx].
  - exists (f c). rewrite lookup_alter_eq, Hc. destruct (Hf c) as (? & ? & ?). done.
  - exists c. by rewrite lookup_alter_ne.
Qed.

(** Linking a task at the tail of its list, and removing one. *)
Lemma link_wf k rq p ts t c :
  sched_wf (task_list k) (tcbs k) rq -> rq !! p = Some ts -> ~ linked rq t -> t <> NULL ->
  tcbs k !! t = Some c -> t_priority c = Z.of_nat p ->
  exists tl' m', link_tail (Z.of_nat p) t k = Done (tt, set_tcbs m' (set_task_list tl' k)) /\
    sched_wf tl' m' (<[p := ts ++ [t]]> rq) /\ relinked (ts ++ [t]) (tcbs k) m'.
Proof.
  intros Hwf Hp Ht Hn Hc Hpr. destruct (wf_head_at _ _ _ _ _ Hwf Hp) as [Hh Hpb].
  destruct (sw_nodup _ _ _ Hwf _ _ Hp) as [Hnd Hnull].
  assert (t ∉ ts) as Htn by (intros Hx; apply Ht; by exists p, ts).
  assert (NoDup (ts ++ [t])) as Hnd'.
  { apply NoDup_app. split_and!; [done| |apply NoDup_singleton].
    intros x Hx ->%list_elem_of_singleton. done. }
  rewrite <- (Nat2Z.id p) in Hh.
  destruct (link_tail_spec k (Z.of_nat p) t ts Hpb Hh (sw_rings _ _ _ Hwf _ _ Hp) Hnd' Hnull (mk_is_Some _ _ Hc))
    as (m' & E & Hr & Hrl).
  rewrite Nat2Z.id in E. eexists _, m'. split; [exact E|]. split; [|done].
  replace (hd t ts) with (hd NULL (ts ++ [t])) by (by destruct ts).
  eapply wf_replace; try done.
  - intros Hx. apply elem_of_app in Hx as [Hx|Hx%list_elem_of_singleton]; [done|congruence].
  - intros x [Hx|Hx%list_elem_of_singleton]%elem_of_app; [by left|right; congruence].
  - intros x Hx1 Hx2 _. by apply (Hrl x).
  - intros x d Hx Hd. destruct (relinked_fields _ _ _ _ _ Hrl Hd) as (d0 & Hd0 & ->). simpl.
    apply elem_of_app in Hx as [Hx|Hx%list_elem_of_singleton]; [by eapply (sw_prio _ _ _ Hwf)|congruence].
Qed.

Definition remove_task (t : Z) (ts : list Z) : list Z := List.filter (fun x => negb (x =? t)) ts.

Lemma remove_task_split t l1 l2 : t ∉ l1 -> t ∉ l2 -> remove_task t (l1 ++ t :: l2) = l1 ++ l2.
Proof.
  intros H1 H2. unfold remove_task. rewrite List.filter_app. simpl. rewrite Z.eqb_refl. simpl.
  assert (forall l, t ∉ l -> List.filter (fun x => negb (x =? t)) l = l) as Hf.
  { induction l as [|x l IH]; intros Hx; [done|]. apply not_elem_of_cons in Hx as [Hx Hl]. simpl.
    rewrite (proj2 (Z.eqb_neq x t)) by congruence. simpl. by rewrite IH. }
  by rewrite !Hf.
Qed.

(** The statements that take a task out of its list: [drop_head] unlinks the head and
    advances the list head, [unlink] any other task. *)
Lemma remove_wf m tl rq p l1 t l2 m' :
  sched_wf tl m rq -> rq !! p = Some (l1 ++ t :: l2) ->
  (l1 ++ l2 = [] /\ m' = m \/ ring m' (l1 ++ l2) /\ relinked (l1 ++ l2) m m') ->
  sched_wf (<[p := hd NULL (l1 ++ l2)]> tl) m' (<[p := l1 ++ l2]> rq).
Proof.
  intros Hwf Hp Hm. destruct (sw_nodup _ _ _ Hwf _ _ Hp) as [Hnd Hnull].
  assert (NoDup (l1 ++ l2)) as Hnd'.
  { apply NoDup_app in Hnd as (? & Hd & [? ?]%NoDup_cons). apply NoDup_app. split_and!; try done.
    intros x Hx Hx2. apply (Hd x Hx). by right. }
  eapply wf_replace; try done.
  - destruct Hm as [[-> _]|[? _]]; done.
  - set_solver.
  - intros x Hx. left. set_solver.
  - intros x Hx1 Hx2 _. destruct Hm as [[_ ->]|[_ Hrl]]; [done|]. by apply (Hrl x).
  - intros x d Hx Hd. assert (x ∈ l1 ++ t :: l2) as Hx' by set_solver.
    destruct Hm as [[_ ->]|[_ Hrl]]; [by eapply (sw_prio _ _ _ Hwf)|].
    destruct (relinked_fields _ _ _ _ _ Hrl Hd) as (d0 & Hd0 & ->). simpl. by eapply (sw_prio _ _ _ Hwf).
Qed.

Lemma ring_self m l1 t l2 c :
  ring m (l1 ++ t :: l2) -> NoDup (l1 ++ t :: l2) -> m !! t = Some c -> (t_next c =? t) = bool_decide (l1 ++ l2 = []).
Proof.
  intros Hr Hnd Hc. unfold ring in Hr. apply dll_app in Hr as [_ [(c' & Hc' & Hn & _) _]]. simplify_eq.
  apply NoDup_app in Hnd as (_ & Hd & [Htl _]%NoDup_cons). rewrite Hn, hd_app. simpl.
  destruct l1 as [|a l1], l2 as [|b l2]; simpl.
  - by rewrite Z.eqb_refl.
  - apply Z.eqb_neq. intros ->. apply Htl. left.
  - apply Z.eqb_neq. intros ->. apply (Hd t); [left|left].
  - apply Z.eqb_neq. intros ->. apply Htl. left.
Qed.

Lemma head_is m tl rq p l1 t l2 :
  sched_wf tl m rq -> rq !! p = Some (l1 ++ t :: l2) ->
  (hd NULL (l1 ++ t :: l2) =? t) = bool_decide (l1 = []).
Proof.
  intros Hwf Hp. destruct (sw_nodup _ _ _ Hwf _ _ Hp) as [Hnd _]. destruct l1 as [|a l1]; simpl.
  - by rewrite Z.eqb_refl.
  - apply Z.eqb_neq. intros ->. simpl in Hnd. apply NoDup_cons in Hnd as [Hnd _]. set_solver.
Qed.

Lemma ring_next m l1 t l2 c :
  ring m (l1 ++ t :: l2) -> m !! t = Some c -> t_next c = hd (hd t l1) l2.
Proof.
  intros Hr Hc. unfold ring in Hr. apply dll_app in Hr as [_ [(c' & Hc' & Hn & _) _]]. simplify_eq.
  rewrite Hn, hd_app. simpl. by destruct l1, l2.
Qed.

(** Taking a task out of its list leaves the control blocks of the other tasks of
    the list relinked and everything else alone. *)
Lemma drop_head_spec k rq p t l2 c :
  sched_wf (task_list k) (tcbs k) rq -> rq !! p = Some (t :: l2) -> tcbs k !! t = Some c ->
  exists tl' m', drop_head (Z.of_nat p) t (t_next c) k = Done (tt, set_tcbs m' (set_task_list tl' k)) /\
    sched_wf tl' m' (<[p := l2]> rq) /\ relinked l2 (tcbs k) m'.
Proof.
  intros Hwf Hp Hc. destruct (wf_head_at _ _ _ _ _ Hwf Hp) as [Hh Hpb].
  destruct (sw_nodup _ _ _ Hwf _ _ Hp) as [Hnd _]. pose proof (sw_rings _ _ _ Hwf _ _ Hp) as Hr.
  unfold drop_head. rewrite (ring_self _ [] _ _ _ Hr Hnd Hc), (ring_next _ [] _ _ _ Hr Hc). cbn [app hd].
  destruct (decide (l2 = [])) as [->|Hne].
  - rewrite bool_decide_true, set_list_head_Done, Nat2Z.id by done.
    exists (<[p := NULL]> (task_list k)), (tcbs k). split; [by destruct k|]. split; [|apply relinked_refl].
    eapply (remove_wf (tcbs k) _ _ _ [] t []); [done..|]. by left.
  - rewrite bool_decide_false by done. rewrite (bind_step _ _ _ _ _ (set_list_head_Done k _ _ Hpb)), Nat2Z.id.
    destruct (unlink_spec (set_task_list (<[p := hd t l2]> (task_list k)) k) t [] l2 Hr Hnd Hne) as (m' & E & Hr' & Hrl & _).
    exists (<[p := hd t l2]> (task_list k)), m'. split; [exact E|]. split; [|done].
    replace (hd t l2) with (hd NULL ([] ++ l2)) by (by destruct l2).
    eapply (remove_wf (tcbs k) _ _ _ [] t l2); [done..|]. by right.
Qed.

Lemma unlink_wf k rq p l1 t l2 :
  sched_wf (task_list k) (tcbs k) rq -> rq !! p = Some (l1 ++ t :: l2) -> l1 <> [] ->
  exists m', unlink t k = Done (tt, set_tcbs m' k) /\
    sched_wf (task_list k) m' (<[p := l1 ++ l2]> rq) /\ relinked (l1 ++ l2) (tcbs k) m'.
Proof.
  intros Hwf Hp Hl1. destruct (wf_head_at _ _ _ _ _ Hwf Hp) as [Hh _].
  destruct (sw_nodup _ _ _ Hwf _ _ Hp) as [Hnd _]. pose proof (sw_rings _ _ _ Hwf _ _ Hp) as Hr.
  destruct (unlink_spec k t l1 l2 Hr Hnd ltac:(by destruct l1)) as (m' & E & Hr' & Hrl & _).
  exists m'. split; [exact E|]. split; [|done].
  pose proof (remove_wf _ _ _ _ l1 t l2 m' Hwf Hp (or_intror (conj Hr' Hrl))) as Hw.
  assert (hd NULL (l1 ++ l2) = hd NULL (l1 ++ t :: l2)) as Eh by (by destruct l1).
  rewrite Eh, list_insert_id in Hw by done. exact Hw.
Qed.

Lemma relinked_outside S m m' t : relinked S m m' -> t ∉ S -> m' !! t = m !! t.
Proof. intros H Ht. by apply (H t). Qed.

Lemma dequeue_spec k rq p l1 t l2 c :
  sched_wf (task_list k) (tcbs k) rq -> rq !! p = Some (l1 ++ t :: l2) -> tcbs k !! t = Some c ->
  exists tl' m', (head ← list_head (t_priority c);
                  if head =? t then drop_head (t_priority c) t (t_next c) else unlink t) k =
      Done (tt, set_tcbs m' (set_task_list tl' k)) /\
    sched_wf tl' m' (<[p := l1 ++ l2]> rq) /\ relinked (l1 ++ l2) (tcbs k) m' /\ m' !! t = Some c.
Proof.
  intros Hwf Hp Hc. destruct (wf_head_at _ _ _ _ _ Hwf Hp) as [Hh Hpb].
  destruct (sw_nodup _ _ _ Hwf _ _ Hp) as [Hnd _].
  assert (t ∉ l1 ++ l2) as Htl.
  { apply NoDup_app in Hnd as (_ & Hd & [Ht2 _]%NoDup_cons). intros [Ht|Ht]%elem_of_app; [|done].
    apply (Hd t Ht). left. }
  rewrite (sw_prio _ _ _ Hwf _ _ t c Hp ltac:(set_solver) Hc).
  rewrite (bind_step (list_head _) _ _ _ _ (list_head_Done k _ _ Hpb ltac:(rewrite Nat2Z.id; exact Hh))).
  rewrite (head_is _ _ _ _ _ _ _ Hwf Hp). destruct (decide (l1 = [])) as [->|Hl1].
  - rewrite bool_decide_true by done.
    destruct (drop_head_spec k rq p t l2 c Hwf Hp Hc) as (tl' & m' & E & Hw & Hrl).
    exists tl', m'. split_and!; [done..|]. by rewrite (relinked_outside _ _ _ t Hrl Htl).
  - rewrite bool_decide_false by done.
    destruct (unlink_wf k rq p l1 t l2 Hwf Hp Hl1) as (m' & E & Hw & Hrl).
    exists (task_list k), m'. split_and!; [by destruct k|done..|]. by rewrite (relinked_outside _ _ _ t Hrl Htl).
Qed.

(** Changing the state of a task keeps the lists. *)
Lemma wf_alter tl m rq t f :
  sched_wf tl m rq ->
  (forall d, t_next (f d) = t_next d /\ t_prev (f d) = t_prev d /\ t_priority (f d) = t_priority d) ->
  sched_wf tl (alter f t m) rq.
Proof. intros Hwf Hf. eapply wf_fields; [exact Hwf|]. intros x d _ Hd. by apply alter_fields. Qed.

(** Entering and leaving a critical section around [m] that keeps the nesting. *)
Lemma critical_balance n : 0 <= n < UINT32_MAX -> n +32 1 -32 1 = n.
Proof. unfold UINT32_MAX. intros. rewrite (u32_small (n + 1)), u32_small by lia. lia. Qed.

(** The rest of the kernel state is unchanged. *)
Definition same_kernel (k k' : kernel_t) : Prop :=
  heap k' = heap k /\ current_task k' = current_task k /\ tick_count k' = tick_count k /\
  scheduler_running k' = scheduler_running k /\ critical_nesting k' = critical_nesting k.

Lemma task_suspend_spec k rq p l1 t l2 c :
  sched_wf (task_list k) (tcbs k) rq -> rq !! p = Some (l1 ++ t :: l2) ->
  tcbs k !! t = Some c -> t_state c <> TASK_SUSPENDED -> 0 <= critical_nesting k < UINT32_MAX ->
  exists k', task_suspend t k = Done (tt, k') /\
    sched_wf (task_list k') (tcbs k') (<[p := l1 ++ l2]> rq) /\
    tcbs k' !! t = Some (set_t_state TASK_SUSPENDED c) /\
    relinked (l1 ++ l2) (alter (set_t_state TASK_SUSPENDED) t (tcbs k)) (tcbs k') /\
    same_kernel k k' /\ context_switch_pending k' = context_switch_pending k || (current_task k =? t).
Proof.
  intros Hwf Hp Hc Hst Hcn. destruct (sw_nodup _ _ _ Hwf _ _ Hp) as [_ Hnull].
  assert (t <> NULL) as Ht0 by (intros ->; apply Hnull; set_solver).
  unfold task_suspend. rewrite (proj2 (Z.eqb_neq t NULL) Ht0). unfold task_enter_critical at 1. rewrite bind_modify.
  set (k1 := set_critical_nesting (critical_nesting k +32 1) k).
  rewrite (bind_step _ _ _ _ _ (tcb_Done k1 _ _ Hc)), bool_decide_false by done. cbn [negb when].
  set (m1 := alter (set_t_state TASK_SUSPENDED) t (tcbs k)).
  assert (m1 !! t = Some (set_t_state TASK_SUSPENDED c)) as Hc1 by (unfold m1; by rewrite lookup_alter_eq, Hc).
  destruct (dequeue_spec (set_tcbs m1 k1) rq p l1 t l2 _ (wf_alter _ _ _ t (set_t_state TASK_SUSPENDED) Hwf ltac:(done)) Hp Hc1)
    as (tl' & m' & E & Hwf' & Hrl & Hm't).
  set (kr := set_tcbs m' (set_task_list tl' k1)).
  set (k2 := if current_task k =? t then set_context_switch_pending true kr else kr).
  exists (set_critical_nesting (critical_nesting k) k2).
  assert (critical_nesting k2 = critical_nesting k +32 1) as Hn by (unfold k2; by case_match).
  split.
  - rewrite (bind_step _ _ k1 tt k2).
    + unfold task_exit_critical, modify. by rewrite Hn, critical_balance.
    + rewrite (bind_step _ _ _ _ _ (upd_tcb_Done k1 t _ (mk_is_Some _ _ Hc))).
      apply bind_Done in E as (hh & kk & E1 & E2). rewrite (bind_step _ _ _ _ _ E1).
      rewrite (bind_step _ _ _ _ _ E2). unfold task_get_current. rewrite bind_gets. unfold k2.
      change (set_tcbs m' (set_task_list tl' (set_tcbs m1 k1))) with kr.
      change (current_task kr) with (current_task k). by destruct (current_task k =? t).
  - unfold k2. destruct (current_task k =? t); simpl; rewrite ?orb_true_r, ?orb_false_r; by split_and!.
Qed.
Lemma task_resume_spec k rq p ts t c :
  sched_wf (task_list k) (tcbs k) rq -> rq !! p = Some ts -> ~ linked rq t -> t <> NULL ->
  tcbs k !! t = Some c -> t_state c = TASK_SUSPENDED -> t_priority c = Z.of_nat p ->
  (current_task k = NULL \/ is_Some (tcbs k !! current_task k)) -> 0 <= critical_nesting k < UINT32_MAX ->
  exists k', task_resume t k = Done (tt, k') /\
    sched_wf (task_list k') (tcbs k') (<[p := ts ++ [t]]> rq) /\
    relinked (ts ++ [t]) (alter (set_t_state TASK_READY) t (tcbs k)) (tcbs k') /\
    same_kernel k k' /\
    context_switch_pending k' = context_switch_pending k ||
      match tcbs k !! current_task k with
      | Some d => truthy (current_task k) && (t_priority d <? t_priority c)
      | None => false
      end.
Proof.
  intros Hwf Hp Hnl Ht0 Hc Hst Hpr Hcur Hcn.
  unfold task_resume. rewrite (proj2 (Z.eqb_neq t NULL) Ht0). unfold task_enter_critical at 1. rewrite bind_modify.
  set (k1 := set_critical_nesting (critical_nesting k +32 1) k).
  rewrite (bind_step _ _ _ _ _ (tcb_Done k1 _ _ Hc)), bool_decide_true by done. cbn [when].
  set (m1 := alter (set_t_state TASK_READY) t (tcbs k)).
  assert (m1 !! t = Some (set_t_state TASK_READY c)) as Hc1 by (unfold m1; by rewrite lookup_alter_eq, Hc).
  pose proof (wf_alter _ _ _ t (set_t_state TASK_READY) Hwf ltac:(done)) as Hwf1.
  destruct (link_wf (set_tcbs m1 k1) rq p ts t _ Hwf1 Hp Hnl Ht0 Hc1 Hpr) as (tl' & m' & E & Hwf' & Hrl).
  set (kr := set_tcbs m' (set_task_list tl' (set_tcbs m1 k1))) in *.
  assert (forall d, tcbs k !! current_task k = Some d -> exists d', m' !! current_task k = Some d' /\ t_priority d' = t_priority d) as Hd.
  { intros d Hd. destruct (alter_fields _ t (set_t_state TASK_READY) _ _ Hd ltac:(done)) as (d1 & Hd1 & _ & _ & Hp1).
    destruct (Hrl (current_task k)) as [_ [(d2 & n & q & E1 & E2)|[E1 _]]]; simpl in E1; unfold m1 in E1; [|congruence].
    exists (set_t_next n (set_t_prev q d2)). split; [done|]. simpl. congruence. }
  set (b := match tcbs k !! current_task k with
            | Some d => truthy (current_task k) && (t_priority d <? t_priority c) | None => false end).
  set (k2 := if b then set_context_switch_pending true kr else kr).
  exists (set_critical_nesting (critical_nesting k) k2).
  assert (critical_nesting k2 = critical_nesting k +32 1) as Hn by (unfold k2; by case_match).
  split.
  - rewrite (bind_step _ _ k1 tt k2).
    + unfold task_exit_critical, modify. by rewrite Hn, critical_balance.
    + rewrite (bind_step _ _ _ _ _ (upd_tcb_Done k1 t _ (mk_is_Some _ _ Hc))). rewrite <- Hpr in E.
      change (t_priority c) with (t_priority (set_t_state TASK_READY c)) in E |- *.
      rewrite (bind_step _ _ _ _ _ E). unfold task_get_current. rewrite bind_gets.
      change (current_task kr) with (current_task k). unfold k2, b.
      destruct (truthy (current_task k)) eqn:Et; cbn [when].
      * destruct Hcur as [Hn0|[d Hd0]]; [by rewrite Hn0 in Et|]. rewrite Hd0.
        destruct (Hd d Hd0) as (d' & Hd' & Hpd). rewrite (bind_step _ _ _ _ _ (tcb_Done kr _ _ Hd')), Hpd.
        cbn [andb]. by destruct (t_priority d <? _).
      * by destruct (tcbs k !! current_task k).
  - unfold k2. destruct b; simpl; rewrite ?orb_true_r, ?orb_false_r; by split_and!.
Qed.

(** The current task goes to sleep.  At the head of its list it is taken out of it,
    elsewhere it stays in. *)
Lemma task_delay_spec k rq p l1 t l2 c ticks :
  sched_wf (task_list k) (tcbs k) rq -> rq !! p = Some (l1 ++ t :: l2) -> current_task k = t ->
  tcbs k !! t = Some c -> 0 < ticks < 4294967296 -> 0 <= critical_nesting k < UINT32_MAX ->
  exists k', task_delay ticks k = Done (tt, k') /\
    sched_wf (task_list k') (tcbs k') (<[p := if decide (l1 = []) then l2 else l1 ++ t :: l2]> rq) /\
    tcbs k' !! t = Some (set_t_state TASK_BLOCKED (set_t_ticks_remaining ticks c)) /\
    same_kernel k k' /\ context_switch_pending k' = true /\
    relinked l2 (tcbs k) (<[t := c]> (tcbs k')).
Proof.
  intros Hwf Hp Hcur Hc Htk Hcn. destruct (wf_head_at _ _ _ _ _ Hwf Hp) as [Hh Hpb].
  pose proof (sw_prio _ _ _ Hwf _ _ t c Hp ltac:(set_solver) Hc) as Hpr.
  unfold task_delay. rewrite (proj2 (Z.eqb_neq ticks 0)) by lia. unfold task_enter_critical at 1. rewrite bind_modify.
  set (k1 := set_critical_nesting (critical_nesting k +32 1) k).
  unfold task_get_current. rewrite bind_gets. change (current_task k1) with (current_task k). rewrite Hcur.
  rewrite (bind_step _ _ _ _ _ (upd_tcb_Done k1 t _ (mk_is_Some _ _ Hc))).
  set (m1 := alter (set_t_ticks_remaining ticks) t (tcbs k)). change (alter _ t (tcbs k1)) with m1.
  assert (m1 !! t = Some (set_t_ticks_remaining ticks c)) as Hc1 by (unfold m1; by rewrite lookup_alter_eq, Hc).
  rewrite (bind_step _ _ _ _ _ (upd_tcb_Done (set_tcbs m1 k1) t _ (mk_is_Some _ _ Hc1))).
  set (m2 := alter (set_t_state TASK_BLOCKED) t m1). change (set_tcbs (alter _ t (tcbs (set_tcbs m1 k1))) _) with (set_tcbs m2 k1).
  set (c2 := set_t_state TASK_BLOCKED (set_t_ticks_remaining ticks c)).
  assert (m2 !! t = Some c2) as Hc2 by (unfold m2; by rewrite lookup_alter_eq, Hc1).
  assert (sched_wf (task_list k) m2 rq) as Hwf2 by (apply wf_alter; [by apply wf_alter|done]).
  assert (forall m S, relinked S m2 m -> t ∉ S -> relinked S (tcbs k) (<[t := c]> m)) as Hfr.
  { intros m S Hm HtS y. destruct (decide (y = t)) as [->|Hy].
    - rewrite lookup_insert_eq. split; [done|]. left. exists c, (t_next c), (t_prev c). by destruct c.
    - rewrite lookup_insert_ne by done. destruct (Hm y) as [F C]. unfold m2, m1 in F, C.
      rewrite !lookup_alter_ne in F, C by done. done. }
  destruct (sw_nodup _ _ _ Hwf _ _ Hp) as [Hnd _].
  assert (t ∉ l2) as Htl2 by (by apply NoDup_app in Hnd as (_ & _ & [? _]%NoDup_cons)).
  rewrite (bind_step _ _ _ _ _ (tcb_Done (set_tcbs m2 k1) _ _ Hc2)).
  change (t_priority c2) with (t_priority c). change (t_next c2) with (t_next c). rewrite Hpr.
  rewrite <- (Nat2Z.id p) in Hh. rewrite (bind_step _ _ _ _ _ (list_head_Done (set_tcbs m2 k1) _ _ Hpb Hh)).
  rewrite (head_is _ _ _ _ _ _ _ Hwf Hp). destruct (decide (l1 = [])) as [->|Hl1].
  - rewrite bool_decide_true by done. cbn [when app] in *.
    destruct (drop_head_spec (set_tcbs m2 k1) rq p t l2 c2 Hwf2 Hp Hc2) as (tl' & m' & E & Hw & Hrl).
    change (t_next c) with (t_next c2). rewrite (bind_step _ _ _ _ _ E). rewrite bind_modify.
    eexists. split; [reflexivity|]. cbn -[u32]. rewrite critical_balance by done. split_and!; try done.
    + by rewrite (relinked_outside _ _ _ _ Hrl Htl2).
    + by apply (Hfr m' l2).
  - rewrite bool_decide_false by done. cbn [when]. rewrite bind_ret, bind_modify.
    eexists. split; [reflexivity|]. cbn -[u32]. rewrite critical_balance by done. split_and!; try done.
    + by rewrite list_insert_id.
    + apply (Hfr m2 l2); [apply relinked_refl|done].
Qed.

(** ** Walking the lists *)

Lemma ring_length m ts : ring m ts -> NoDup ts -> (length ts <= size m)%nat.
Proof.
  intros Hr Hnd. rewrite <- (size_list_to_set (C := gset Z) _ Hnd), <- size_dom.
  apply subseteq_size. intros x Hx. apply elem_of_list_to_set in Hx. apply elem_of_dom.
  eapply dll_some; [exact Hr|done].
Qed.

Definition tick_all (ts : list Z) (m : gmap Z tcb_t) : gmap Z tcb_t :=
  foldl (fun m t => alter tick_task t m) m ts.

Lemma lookup_tick_all ts m x :
  NoDup ts -> tick_all ts m !! x = if decide (x ∈ ts) then tick_task <$> m !! x else m !! x.
Proof.
  revert m. induction ts as [|t ts IH]; intros m Hnd; [done|]. apply NoDup_cons in Hnd as [Ht Hnd].
  unfold tick_all in *. simpl. rewrite IH by done.
  destruct (decide (x ∈ ts)) as [Hx|Hx].
  - rewrite decide_True by set_solver. rewrite lookup_alter_ne; [done|]. by intros ->.
  - destruct (decide (x = t)) as [->|Hxt].
    + rewrite decide_True by set_solver. by rewrite lookup_alter_eq.
    + rewrite decide_False by set_solver. by rewrite lookup_alter_ne.
Qed.

Lemma tick_task_links c :
  t_next (tick_task c) = t_next c /\ t_prev (tick_task c) = t_prev c /\ t_priority (tick_task c) = t_priority c.
Proof. unfold tick_task. repeat case_match; done. Qed.

Lemma set_tcbs_twice m m' k : set_tcbs m (set_tcbs m' k) = set_tcbs m k.
Proof. done. Qed.

Lemma tick_ring_spec fuel h pv t l k :
  dll (tcbs k) pv (t :: l) h -> NoDup (t :: l) -> h ∉ l -> (length l < fuel)%nat ->
  tick_ring fuel h t k = Done (tt, set_tcbs (tick_all (t :: l) (tcbs k)) k).
Proof.
  revert pv t l k. induction fuel as [|fuel IH]; intros pv t l k Hd Hnd Hh Hf; [lia|].
  destruct Hd as [(c & Hc & Hn & Hp) Hd]. cbn [tick_ring]. apply NoDup_cons in Hnd as [Ht Hnd].
  rewrite (bind_step _ _ _ _ _ (upd_tcb_Done k t _ (mk_is_Some _ _ Hc))).
  assert (tcbs (set_tcbs (alter tick_task t (tcbs k)) k) !! t = Some (tick_task c)) as Hc'
    by (simpl; by rewrite lookup_alter_eq, Hc).
  rewrite (bind_step _ _ _ _ _ (tcb_Done _ _ _ Hc')). destruct (tick_task_links c) as (-> & _ & _). rewrite Hn.
  destruct l as [|t' l]; simpl.
  - by rewrite Z.eqb_refl.
  - rewrite (proj2 (Z.eqb_neq t' h)) by (intros ->; apply Hh; left).
    rewrite (IH t t' l); [done| |done| |simpl in Hf; lia].
    + simpl. eapply (dll_alter_ne _ _ t _ (t' :: l)); [done|exact Hd].
    + intros Hx. apply Hh. by right.
Qed.

Lemma truthy_head ts : NULL ∉ ts -> truthy (hd NULL ts) = match ts with [] => false | _ => true end.
Proof.
  destruct ts as [|t ts]; [done|]. intros Hn. unfold truthy. simpl.
  rewrite (proj2 (Z.eqb_neq t 0)); [done|]. intros ->. apply Hn. left.
Qed.

Lemma tick_lists_spec n p rq k :
  sched_wf (task_list k) (tcbs k) rq -> (p + n = 33)%nat ->
  tick_lists n (Z.of_nat p) k = Done (tt, set_tcbs (foldl (fun m ts => tick_all ts m) (tcbs k) (drop p rq)) k).
Proof.
  revert p k. induction n as [|n IH]; intros p k Hwf Hp.
  - rewrite drop_ge by (rewrite (sw_len _ _ _ Hwf); lia). by destruct k.
  - destruct (lookup_lt_is_Some_2 rq p) as [ts Hts]; [rewrite (sw_len _ _ _ Hwf); lia|].
    destruct (wf_head_at _ _ _ _ _ Hwf Hts) as [Hh Hpb]. rewrite (drop_S _ _ _ Hts). cbn [foldl tick_lists].
    destruct (sw_nodup _ _ _ Hwf _ _ Hts) as [Hnd Hnull].
    rewrite <- (Nat2Z.id p) in Hh at 1. rewrite (bind_step _ _ _ _ _ (list_head_Done k _ _ Hpb Hh)).
    rewrite bind_gets, truthy_head by done. pose proof (sw_rings _ _ _ Hwf _ _ Hts) as Hr.
    set (k1 := set_tcbs (tick_all ts (tcbs k)) k).
    rewrite (bind_step _ _ _ tt k1).
    + replace (Z.of_nat p + 1) with (Z.of_nat (S p)) by lia. rewrite (IH (S p) k1); [done| |lia].
      eapply wf_fields; [exact Hwf|]. intros x c _ Hc. simpl. rewrite lookup_tick_all by done.
      case_decide; [|eauto]. rewrite Hc. simpl. destruct (tick_task_links c) as (? & ? & ?). eauto.
    + destruct ts as [|t ts]; cbn [when]; [unfold k1; by destruct k|]. simpl hd.
      apply NoDup_cons in Hnd as [Ht Hnd]. eapply tick_ring_spec; [exact Hr|by constructor|done|].
      pose proof (ring_length _ _ Hr ltac:(by constructor)). unfold ring_fuel. simpl in *. lia.
Qed.

Lemma lookup_tick_lists (rqs : list (list Z)) m x :
  (forall ts, ts ∈ rqs -> NoDup ts) ->
  (forall i j ts us, rqs !! i = Some ts -> rqs !! j = Some us -> x ∈ ts -> x ∈ us -> i = j) ->
  (linked rqs x -> foldl (fun m ts => tick_all ts m) m rqs !! x = tick_task <$> m !! x) /\
  (~ linked rqs x -> foldl (fun m ts => tick_all ts m) m rqs !! x = m !! x).
Proof.
  revert m. induction rqs as [|ts rqs IH]; intros m Hnd Hd.
  - split; [|done]. by intros (p & us & Hp & _).
  - cbn [foldl]. destruct (IH (tick_all ts m)) as [IH1 IH2]; [set_solver| |].
    { intros i j us vs Hi Hj Hx Hy. assert (S i = S j); [|lia]. by apply (Hd (S i) (S j) us vs). }
    assert (NoDup ts) as Hts by (apply Hnd; left). rewrite lookup_tick_all in IH1, IH2 by done. split.
    + intros (p & us & Hp & Hx). destruct p as [|p]; simpl in Hp.
      * simplify_eq. rewrite decide_True in IH2 by done. apply IH2. intros (q & vs & Hq & Hv).
        specialize (Hd 0%nat (S q) us vs eq_refl Hq Hx Hv). done.
      * rewrite decide_False in IH1; [apply IH1; by exists p, us|]. intros Hxt.
        specialize (Hd 0%nat (S p) ts us eq_refl Hp Hxt Hx). done.
    + intros Hn. rewrite decide_False in IH2 by (intros Hx; apply Hn; by exists 0%nat, ts).
      apply IH2. intros (q & vs & Hq & Hv). apply Hn. by exists (S q), vs.
Qed.

(** A ready task of higher priority than the running one, in list [ts]. *)
Definition preempts (m : gmap Z tcb_t) (cur : Z) (d : tcb_t) (t : Z) : bool :=
  match m !! t with
  | Some c => bool_decide (t_state c = TASK_READY) && negb (t =? cur) && (t_priority d <? t_priority c)
  | None => false
  end.

Lemma preempt_ring_spec fuel h pv t l k d :
  dll (tcbs k) pv (t :: l) h -> h ∉ l -> (length l < fuel)%nat ->
  tcbs k !! current_task k = Some d ->
  preempt_ring fuel h t k = Done (existsb (preempts (tcbs k) (current_task k) d) (t :: l), k).
Proof.
  revert pv t l. induction fuel as [|fuel IH]; intros pv t l Hd Hh Hf Hcur; [lia|].
  destruct Hd as [(c & Hc & Hn & Hp) Hd]. cbn [preempt_ring].
  rewrite (bind_step _ _ _ _ _ (tcb_Done k _ _ Hc)). unfold task_get_current. rewrite bind_gets.
  cbn [existsb]. unfold preempts at 1. rewrite Hc.
  rewrite (bind_step _ _ k (bool_decide (t_state c = TASK_READY) && negb (t =? current_task k) && (t_priority d <? t_priority c)) k).
  2: { destruct (bool_decide _ && negb _); [|done].
       by rewrite (bind_step _ _ _ _ _ (tcb_Done k _ _ Hcur)). }
  destruct (_ && (t_priority d <? t_priority c)); [done|]. rewrite Hn. destruct l as [|t' l]; cbn [hd orb].
  - by rewrite Z.eqb_refl.
  - rewrite (proj2 (Z.eqb_neq t' h)) by (intros ->; apply Hh; left).
    eapply IH; [exact Hd|set_solver|simpl in Hf; lia|done].
Qed.

(** The preemption scan over the priorities [n .. 1]. *)
Definition preempt_from (m : gmap Z tcb_t) (cur : Z) (d : tcb_t) (rq : list (list Z)) (n : nat) : Prop :=
  exists p ts t, (1 <= p <= n)%nat /\ rq !! p = Some ts /\ t ∈ ts /\ preempts m cur d t = true.

Lemma preempt_lists_spec n rq k d :
  sched_wf (task_list k) (tcbs k) rq -> (n < 33)%nat -> tcbs k !! current_task k = Some d ->
  exists b, preempt_lists n k = Done (tt, set_context_switch_pending b k) /\
    (b = true <-> context_switch_pending k = true \/ preempt_from (tcbs k) (current_task k) d rq n).
Proof.
  intros Hwf Hn Hcur. induction n as [|n IH].
  { exists (context_switch_pending k). split; [by destruct k|]. split; [auto|]. intros [?|(p & _ & _ & ? & _)]; [done|lia]. }
  destruct (lookup_lt_is_Some_2 rq (S n)) as [ts Hts]; [rewrite (sw_len _ _ _ Hwf); lia|].
  destruct (wf_head_at _ _ _ _ _ Hwf Hts) as [Hh Hpb]. destruct (sw_nodup _ _ _ Hwf _ _ Hts) as [Hnd Hnull].
  assert (forall P : Prop, (preempt_from (tcbs k) (current_task k) d rq (S n) <->
     preempt_from (tcbs k) (current_task k) d rq n \/ existsb (preempts (tcbs k) (current_task k) d) ts = true)) as Hsplit.
  { intros _. rewrite existsb_exists. split.
    - intros (p & us & t & Hp & Hus & Ht & Hpr). destruct (decide (p = S n)) as [->|Hpn].
      + right. simplify_eq. exists t. split; [by apply list_elem_of_In|done].
      + left. exists p, us, t. split_and!; try done; lia.
    - intros [(p & us & t & Hp & Hus & Ht & Hpr)|(t & Ht & Hpr)].
      + exists p, us, t. split_and!; try done; lia.
      + exists (S n), ts, t. split_and!; try done; try lia. by apply list_elem_of_In. }
  specialize (Hsplit True). cbn [preempt_lists]. rewrite <- (Nat2Z.id (S n)) in Hh.
  rewrite (bind_step _ _ _ _ _ (list_head_Done k _ _ Hpb Hh)), truthy_head by done.
  destruct ts as [|t ts].
  - destruct (IH ltac:(lia)) as (b & E & Hb). exists b. split; [exact E|]. rewrite Hb, Hsplit. simpl. naive_solver.
  - rewrite bind_gets. cbn [hd]. pose proof (sw_rings _ _ _ Hwf _ _ Hts) as Hr.
    pose proof (ring_length _ _ Hr Hnd) as Hlen. pose proof Hnd as [Htn _]%NoDup_cons.
    rewrite (bind_step _ _ _ _ _ (preempt_ring_spec (ring_fuel k) t _ t ts k d Hr Htn ltac:(unfold ring_fuel; simpl in Hlen; lia) Hcur)).
    destruct (existsb _ (t :: ts)) eqn:Ex; cbn [when].
    + rewrite bind_modify, bind_gets. cbn [context_switch_pending set_context_switch_pending].
      exists true. split; [done|]. rewrite Hsplit. naive_solver.
    + rewrite bind_ret, bind_gets. destruct (context_switch_pending k) eqn:Ep.
      * exists true. split; [by destruct k; simplify_eq/=|]. rewrite Hsplit. naive_solver.
      * destruct (IH ltac:(lia)) as (b & E & Hb). exists b. split; [exact E|]. rewrite Hb, Hsplit. naive_solver.
Qed.

(** One tick of a running scheduler whose current task exists. *)
Lemma linked_dec rq t : {linked rq t} + {~ linked rq t}.
Proof.
  destruct (decide (Exists (fun ts => t ∈ ts) rq)) as [H|H]; [left|right].
  - apply Exists_exists in H as (ts & Hin & Ht). apply list_elem_of_lookup_1 in Hin as [p Hp]. by exists p, ts.
  - intros (p & ts & Hp & Ht). apply H, Exists_exists. exists ts. split; [by eapply list_elem_of_lookup_2|done].
Qed.

Lemma tick_handler_spec k rq d :
  sched_wf (task_list k) (tcbs k) rq -> scheduler_running k = true -> current_task k <> NULL ->
  tcbs k !! current_task k = Some d ->
  exists k', scheduler_tick_handler k = Done (tt, k') /\
    sched_wf (task_list k') (tcbs k') rq /\ task_list k' = task_list k /\ heap k' = heap k /\
    current_task k' = current_task k /\ tick_count k' = tick_count k +32 1 /\
    scheduler_running k' = true /\ critical_nesting k' = critical_nesting k /\
    (forall t c, tcbs k !! t = Some c ->
       let c := if t =? current_task k then set_t_runtime_ticks (t_runtime_ticks c +32 1) c else c in
       (linked rq t -> tcbs k' !! t = Some (tick_task c)) /\ (~ linked rq t -> tcbs k' !! t = Some c)) /\
    (forall t, tcbs k !! t = None -> tcbs k' !! t = None) /\
    (forall d', tcbs k' !! current_task k = Some d' ->
       (context_switch_pending k' = true <->
        context_switch_pending k = true \/ preempt_from (tcbs k') (current_task k) d' rq 32)).
Proof.
  intros Hwf Hrun Hcur Hd. unfold scheduler_tick_handler. rewrite bind_gets, Hrun. cbn [negb].
  rewrite bind_modify. unfold task_get_current. rewrite bind_gets.
  set (k1 := set_tick_count (tick_count k +32 1) k). change (current_task k1) with (current_task k).
  unfold truthy at 1. rewrite (proj2 (Z.eqb_neq _ 0)) by done. cbn [negb when].
  rewrite (bind_step _ _ _ _ _ (upd_tcb_Done k1 _ _ (mk_is_Some _ _ Hd))).
  set (m1 := alter (fun c => set_t_runtime_ticks (t_runtime_ticks c +32 1) c) (current_task k) (tcbs k)).
  change (alter _ _ (tcbs k1)) with m1.
  assert (sched_wf (task_list k) m1 rq) as Hwf1 by (by apply wf_alter).
  change (Z.to_nat TASK_PRIORITY_MAX) with 33%nat. change 0 with (Z.of_nat 0) at 1.
  rewrite (bind_step _ _ _ _ _ (tick_lists_spec 33 0 rq (set_tcbs m1 k1) Hwf1 eq_refl)). rewrite drop_0.
  set (m2 := foldl (fun m ts => tick_all ts m) m1 rq).
  assert (forall x, (linked rq x -> m2 !! x = tick_task <$> m1 !! x) /\ (~ linked rq x -> m2 !! x = m1 !! x)) as Hm2.
  { intros x. apply lookup_tick_lists.
    - intros ts Hts. apply list_elem_of_lookup_1 in Hts as [i Hi]. by eapply (sw_nodup _ _ _ Hwf).
    - intros. by eapply (sw_disj _ _ _ Hwf). }
  assert (sched_wf (task_list k) m2 rq) as Hwf2.
  { eapply wf_fields; [exact Hwf1|]. intros x c Hl Hc. destruct (Hm2 x) as [H _]. rewrite (H Hl), Hc. simpl.
    destruct (tick_task_links c) as (? & ? & ?). eauto. }
  set (k2 := set_tcbs m2 k1).
  assert (forall t c, tcbs k !! t = Some c ->
    let c := if t =? current_task k then set_t_runtime_ticks (t_runtime_ticks c +32 1) c else c in
    (linked rq t -> m2 !! t = Some (tick_task c)) /\ (~ linked rq t -> m2 !! t = Some c)) as Hall.
  { intros t c Hc. destruct (Hm2 t) as [H1 H2]. unfold m1 in H1, H2.
    destruct (Z.eqb_spec t (current_task k)) as [->|Hne].
    - rewrite lookup_alter_eq, Hc in H1, H2. by split.
    - rewrite lookup_alter_ne, Hc in H1, H2 by done. by split. }
  assert (is_Some (m2 !! current_task k)) as [d2 Hd2].
  { destruct (Hall _ _ Hd) as [H1 H2]. destruct (linked_dec rq (current_task k)) as [Hl|Hl]; [rewrite (H1 Hl)|rewrite (H2 Hl)]; eauto. }
  assert (forall t, tcbs k !! t = None -> m2 !! t = None) as Hnone.
  { intros t Hn. assert (m1 !! t = None) as Hn1.
    { unfold m1. destruct (decide (t = current_task k)) as [->|]; [congruence|by rewrite lookup_alter_ne]. }
    destruct (Hm2 t) as [H1 H2]. destruct (linked_dec rq t) as [Hl|Hl]; [by rewrite (H1 Hl), Hn1|by rewrite (H2 Hl)]. }
  destruct (preempt_lists_spec 32 rq k2 d2 Hwf2 ltac:(lia) Hd2) as (b & E & Hb).
  exists (set_context_switch_pending b k2). split; [exact E|]. split_and!; try done.
  intros d' Hd'. change (tcbs (set_context_switch_pending b k2)) with m2 in Hd' |- *.
  rewrite Hd2 in Hd'. injection Hd' as <-. exact Hb.
Qed.
(** ** The choice of the next task *)

Definition eligible (m : gmap Z tcb_t) (h t : Z) : bool :=
  match m !! t with
  | Some c => bool_decide (t_state c = TASK_READY) && ((t_runtime_ticks c <? t_time_slice c) || (h =? t))
  | None => false
  end.

Lemma pick_loop_spec fuel h pv t l k :
  dll (tcbs k) pv (t :: l) h -> h ∉ l -> (length l < fuel)%nat ->
  pick_loop fuel h t k = Done (List.find (eligible (tcbs k) h) (t :: l), k).
Proof.
  revert pv t l. induction fuel as [|fuel IH]; intros pv t l Hd Hh Hf; [lia|].
  destruct Hd as [(c & Hc & Hn & Hp) Hd]. cbn [pick_loop].
  rewrite (bind_step _ _ _ _ _ (tcb_Done k _ _ Hc)). cbn [List.find]. unfold eligible at 1. rewrite Hc.
  destruct (bool_decide _ && _); [done|]. rewrite Hn. destruct l as [|t' l]; cbn [hd].
  - by rewrite Z.eqb_refl.
  - rewrite (proj2 (Z.eqb_neq t' h)) by (intros ->; apply Hh; left).
    eapply IH; [exact Hd|set_solver|simpl in Hf; lia].
Qed.

(** The list with the tasks up to and including the chosen one moved to the end. *)
Definition rotated (ts : list Z) (t : Z) (ts' : list Z) : Prop :=
  exists l1 l2, ts = l1 ++ t :: l2 /\ ts' = l2 ++ l1 ++ [t].

Lemma ring_rotate m l1 t l2 : ring m (l1 ++ t :: l2) -> ring m (l2 ++ l1 ++ [t]).
Proof.
  unfold ring. replace (l1 ++ t :: l2) with ((l1 ++ [t]) ++ l2) by (by rewrite <- app_assoc).
  rewrite !dll_app, !last_or_app, !hd_app.
  assert (exists L, forall d, last_or d (l1 ++ [t]) = L) as [L HL] by (exists t; intros; apply last_or_snoc).
  assert (exists h, forall d, hd d (l1 ++ [t]) = h) as [h Hh] by (exists (hd t l1); intros; by destruct l1).
  assert (forall d, last_or (last_or d l1) [t] = L) as HL' by (intros; by rewrite <- last_or_app).
  assert (forall d, hd (hd d [t]) l1 = h) as Hh' by (intros; by rewrite <- hd_app).
  rewrite <- !(dll_app _ _ l1 [t]).
  rewrite ?HL, ?Hh, ?HL', ?Hh'. tauto.
Qed.

Lemma rotate_wf tl m rq p l1 t l2 :
  sched_wf tl m rq -> rq !! p = Some (l1 ++ t :: l2) ->
  sched_wf (<[p := hd NULL (l2 ++ l1 ++ [t])]> tl) m (<[p := l2 ++ l1 ++ [t]]> rq).
Proof.
  intros Hwf Hp. destruct (sw_nodup _ _ _ Hwf _ _ Hp) as [Hnd Hnull].
  assert (l2 ++ l1 ++ [t] ≡ₚ l1 ++ t :: l2) as HP by (by rewrite Permutation_app_comm, <- app_assoc).
  eapply wf_replace; [exact Hwf|exact Hp| | | | |done|].
  - by eapply ring_rotate, (sw_rings _ _ _ Hwf).
  - by rewrite HP.
  - by rewrite HP.
  - intros x Hx. left. by rewrite <- HP.
  - intros x c Hx Hc. eapply (sw_prio _ _ _ Hwf); [exact Hp| |exact Hc]. by rewrite <- HP.
Qed.

Definition chosen (m : gmap Z tcb_t) (ts : list Z) (t : Z) (ts' : list Z) : Prop :=
  match List.find (eligible m (hd NULL ts)) ts with
  | Some c => t = c /\ rotated ts t ts'
  | None => t = hd NULL ts /\ ts' = ts
  end.

Lemma find_split {A} (f : A -> bool) l x : List.find f l = Some x -> exists l1 l2, l = l1 ++ x :: l2.
Proof. intros H. apply List.find_some in H as [Hin _]. by apply List.in_split. Qed.

Lemma find_loop_spec n rq k :
  sched_wf (task_list k) (tcbs k) rq -> (n < 33)%nat ->
  exists t tl' rq', find_loop n k = Done (t, set_task_list tl' k) /\ sched_wf tl' (tcbs k) rq' /\
    ((exists p ts ts', (1 <= p <= n)%nat /\ rq !! p = Some ts /\ ts <> [] /\
        (forall q, (p < q <= n)%nat -> rq !! q = Some []) /\ chosen (tcbs k) ts t ts' /\ rq' = <[p := ts']> rq) \/
     ((forall q, (1 <= q <= n)%nat -> rq !! q = Some []) /\ rq' = rq /\
      exists ts, rq !! 0%nat = Some ts /\ t = hd NULL ts)).
Proof.
  intros Hwf Hn. induction n as [|n IH].
  - destruct (lookup_lt_is_Some_2 rq 0) as [ts Hts]; [rewrite (sw_len _ _ _ Hwf); lia|].
    destruct (wf_head_at _ _ _ _ _ Hwf Hts) as [Hh Hpb]. exists (hd NULL ts), (task_list k), rq.
    split; [|split; [done|right; split_and!; [intros; lia|done|by exists ts]]].
    cbn [find_loop]. change TASK_PRIORITY_IDLE with (Z.of_nat 0).
    rewrite (list_head_Done k _ _ Hpb Hh). by destruct k.
  - destruct (lookup_lt_is_Some_2 rq (S n)) as [ts Hts]; [rewrite (sw_len _ _ _ Hwf); lia|].
    destruct (wf_head_at _ _ _ _ _ Hwf Hts) as [Hh Hpb]. destruct (sw_nodup _ _ _ Hwf _ _ Hts) as [Hnd Hnull].
    cbn [find_loop]. pose proof Hh as Hh'. rewrite <- (Nat2Z.id (S n)) in Hh'.
    rewrite (bind_step _ _ _ _ _ (list_head_Done k _ _ Hpb Hh')), truthy_head by done.
    destruct ts as [|h ts].
    { destruct (IH ltac:(lia)) as (t & tl' & rq' & E & Hwf' & Hcase). exists t, tl', rq'. split; [done|]. split; [done|].
      destruct Hcase as [(p & us & us' & Hp & Hus & Hne & Hq & Hch & ->)|(Hq & -> & H0)]; [left|right].
      - exists p, us, us'. split_and!; try done; try lia. intros q Hqr.
        destruct (decide (q = S n)) as [->|]; [done|]. apply Hq. lia.
      - split; [|done]. intros q Hqr. destruct (decide (q = S n)) as [->|]; [done|]. apply Hq. lia. }
    rewrite bind_gets. cbn [hd]. pose proof (sw_rings _ _ _ Hwf _ _ Hts) as Hr.
    pose proof (ring_length _ _ Hr Hnd) as Hlen. pose proof Hnd as [Hhn _]%NoDup_cons.
    rewrite (bind_step _ _ _ _ _ (pick_loop_spec (ring_fuel k) h _ h ts k Hr Hhn ltac:(unfold ring_fuel; simpl in Hlen; lia))).
    destruct (List.find (eligible (tcbs k) h) (h :: ts)) as [t|] eqn:Ef.
    + destruct (find_split _ _ _ Ef) as (l1 & l2 & El).
      assert (hd NULL (l1 ++ t :: l2) = h) as Hhd by (by rewrite <- El). rewrite El in Hts, Hr, Ef.
      destruct (dll_some _ _ _ _ t Hr ltac:(set_solver)) as [c Hc].
      rewrite (bind_step _ _ _ _ _ (tcb_Done k _ _ Hc)).
      rewrite (bind_step _ _ _ _ _ (set_list_head_Done k _ _ Hpb)), Nat2Z.id.
      exists t, (<[S n := t_next c]> (task_list k)), (<[S n := l2 ++ l1 ++ [t]]> rq). split; [done|]. split.
      * rewrite (ring_next _ _ _ _ _ Hr Hc).
        replace (hd (hd t l1) l2) with (hd NULL (l2 ++ l1 ++ [t])) by (by destruct l2, l1).
        by apply rotate_wf.
      * left. exists (S n), (l1 ++ t :: l2), (l2 ++ l1 ++ [t]). split_and!; try done; try lia; [by destruct l1|].
        unfold chosen. rewrite Hhd, Ef. split; [done|]. by exists l1, l2.
    + rewrite (bind_step _ _ _ _ _ (set_list_head_Done k _ _ Hpb)), Nat2Z.id.
      exists h, (task_list k), rq. cbn [hd] in Hh. rewrite list_insert_id by done. split; [done|]. split; [done|].
      left. exists (S n), (h :: ts), (h :: ts). split_and!; try done; try lia.
      -- unfold chosen. cbn [hd]. by rewrite Ef.
      -- by rewrite list_insert_id.
Qed.

(** The context switch: it picks from the highest non-empty list above idle, or the
    head of the idle list. *)
Definition switch_choice (m : gmap Z tcb_t) (rq : list (list Z)) (t : Z) (rq' : list (list Z)) : Prop :=
  (exists p ts ts', (1 <= p <= 32)%nat /\ rq !! p = Some ts /\ ts <> [] /\
     (forall q, (p < q <= 32)%nat -> rq !! q = Some []) /\ chosen m ts t ts' /\ rq' = <[p := ts']> rq) \/
  ((forall q, (1 <= q <= 32)%nat -> rq !! q = Some []) /\ rq' = rq /\
   exists ts, rq !! 0%nat = Some ts /\ t = hd NULL ts).

Lemma switch_choice_linked m rq t rq' :
  switch_choice m rq t rq' -> t <> NULL -> linked rq t.
Proof.
  intros [(p & ts & ts' & _ & Hp & Hne & _ & Hch & _)|(_ & _ & ts & Hp & ->)] Ht.
  - exists p, ts. split; [done|]. unfold chosen in Hch. destruct (List.find _ ts) eqn:Ef.
    + destruct Hch as [-> _]. apply List.find_some in Ef as [? _]. by apply list_elem_of_In.
    + destruct Hch as [-> _]. by apply hd_in.
  - exists 0%nat, ts. split; [done|]. apply hd_in. by intros ->.
Qed.

Lemma pendsv_spec k rq :
  sched_wf (task_list k) (tcbs k) rq ->
  exists t k' rq', pendsv_handler k = Done (tt, k') /\ switch_choice (tcbs k) rq t rq' /\
    sched_wf (task_list k') (tcbs k') rq' /\ next_task k' = t /\
    heap k' = heap k /\ tick_count k' = tick_count k /\ scheduler_running k' = scheduler_running k /\
    critical_nesting k' = critical_nesting k /\
    current_task k' = (if t =? NULL then current_task k else t) /\
    tcbs k' = (if t =? NULL then tcbs k
               else alter (set_t_state TASK_RUNNING) t (alter (set_t_runtime_ticks 0) t (tcbs k))).
Proof.
  intros Hwf. destruct (find_loop_spec 32 rq k Hwf ltac:(lia)) as (t & tl' & rq' & E & Hwf' & Hcase).
  unfold pendsv_handler, find_next_task. change (Z.to_nat TASK_PRIORITY_HIGHEST) with 32%nat.
  rewrite (bind_step _ _ _ _ _ E), bind_modify. set (k1 := set_next_task t (set_task_list tl' k)).
  unfold truthy. change NULL with 0. destruct (Z.eqb_spec t 0) as [->|Ht]; cbn [negb when].
  - exists 0, k1, rq'. by split_and!.
  - assert (is_Some (tcbs k !! t)) as Ht1.
    { destruct (switch_choice_linked (tcbs k) rq t rq' Hcase Ht) as (p & ts & Hp & Hin).
      eapply dll_some; [exact (sw_rings _ _ _ Hwf _ _ Hp)|done]. }
    rewrite (bind_step _ _ _ _ _ (upd_tcb_Done k1 t _ Ht1)).
    rewrite (bind_step _ _ _ _ _ (upd_tcb_Done (set_tcbs _ k1) t _ (is_Some_alter _ _ _ _ Ht1))).
    eexists t, _, rq'. rewrite (proj2 (Z.eqb_neq t 0)) by done. split; [reflexivity|]. split_and!; try done.
    cbn [tcbs task_list set_tcbs set_current_task]. by repeat apply wf_alter.
Qed.
(** ** Kernel invariant: ready lists and the memory of the tasks *)

(** [p] is the payload of a block in use of at least [n] bytes. *)
Definition owned (h : heap_t) (p n : Z) : Prop :=
  exists b, headers h !! (p - BLOCK_HEADER_SIZE) = Some b /\ bh_magic b = BLOCK_MAGIC_ALLOC /\
    n + BLOCK_HEADER_SIZE <= bh_size b.

Record kernel_wf (k : kernel_t) (rq : list (list Z)) : Prop := KernelWf {
  kw_sched : sched_wf (task_list k) (tcbs k) rq;
  kw_heap : exists ab, heap_inv (heap k) ab;
  kw_own : forall t c, tcbs k !! t = Some c ->
    t <> NULL /\ t_stack_start c <> NULL /\
    owned (heap k) t sizeof_tcb /\ owned (heap k) (t_stack_start c) (t_stack_size c);
  kw_distinct : forall t c t' c', tcbs k !! t = Some c -> tcbs k !! t' = Some c' ->
    t <> t_stack_start c' /\ (t <> t' -> t_stack_start c <> t_stack_start c') }.

Lemma owned_in_use h ab p n :
  heap_wf h ab -> owned h p n -> exists sz, in_use h ab (p - BLOCK_HEADER_SIZE) sz /\ n + BLOCK_HEADER_SIZE <= sz.
Proof.
  intros Hwf (b & Hb & Hm & Hn).
  destruct (allocated_header h ab (p - BLOCK_HEADER_SIZE) Hwf) as [sz Hu]; [unfold magic_of; by rewrite Hb, <- Hm|].
  exists sz. split; [done|]. destruct (in_use_magic _ _ _ _ Hwf Hu) as (_ & _ & _ & b' & Hb' & _ & <-). by simplify_eq.
Qed.

Lemma in_use_owned h ab p sz n :
  heap_wf h ab -> in_use h ab (p - BLOCK_HEADER_SIZE) sz -> n + BLOCK_HEADER_SIZE <= sz -> owned h p n.
Proof.
  intros Hwf Hu Hn. destruct (in_use_magic _ _ _ _ Hwf Hu) as (_ & _ & _ & b & Hb & Hm & <-). by exists b.
Qed.

(** Heap operations that move no block: payload writes. *)
Definition same_blocks (h h' : heap_t) (ab : list (list block)) : Prop :=
  heap_inv h' ab /\ live_regions h' = live_regions h.

Lemma same_blocks_in_use h h' ab x sz : same_blocks h h' ab -> in_use h ab x sz -> in_use h' ab x sz.
Proof. intros [_ Hl] (i & r & l1 & l2 & Hr & Hrest). exists i, r, l1, l2. by rewrite Hl. Qed.

Lemma same_blocks_owned h h' ab p n : heap_wf h ab -> same_blocks h h' ab -> owned h p n -> owned h' p n.
Proof.
  intros Hwf Hs Ho. destruct (owned_in_use _ _ _ _ Hwf Ho) as (sz & Hu & Hn).
  eapply in_use_owned; [apply Hs|by eapply same_blocks_in_use|done].
Qed.

Lemma same_blocks_trans h1 h2 h3 ab : same_blocks h1 h2 ab -> same_blocks h2 h3 ab -> same_blocks h1 h3 ab.
Proof. intros [_ H1] [H2 H3]. split; [done|by rewrite H3]. Qed.

Lemma payload_same_blocks h ab x sz c n b :
  heap_inv h ab -> in_use h ab x sz -> x + BLOCK_HEADER_SIZE <= c -> c + n <= x + sz ->
  same_blocks h (set_memory (clobber c n (headers h)) b h) ab.
Proof.
  intros [Hwf Hc] Hu H1 H2. unfold BLOCK_HEADER_SIZE in H1.
  split; [|done]. split; [by eapply payload_write_wf|done].
Qed.

Lemma memset_owned h ab p n v c m :
  heap_inv h ab -> owned h p n -> p <= c -> c + m <= p + n ->
  memset c v m h = Done (tt, set_memory (clobber c m (headers h)) (fill (Z.to_nat m) c v (bytes h)) h) /\
  same_blocks h (set_memory (clobber c m (headers h)) (fill (Z.to_nat m) c v (bytes h)) h) ab.
Proof.
  intros Hi Ho H1 H2. destruct (owned_in_use _ _ _ _ (proj1 Hi) Ho) as (sz & Hu & Hn).
  unfold BLOCK_HEADER_SIZE in *. split.
  - unfold memset. by rewrite (in_use_range _ _ _ _ _ _ (proj1 Hi) Hu) by lia.
  - eapply payload_same_blocks; [done|exact Hu|unfold BLOCK_HEADER_SIZE; lia|lia].
Qed.

Lemma store32_owned h ab p n v c :
  heap_inv h ab -> owned h p n -> p <= c -> c + 4 <= p + n ->
  exists h', store32 c v h = Done (tt, h') /\ same_blocks h h' ab.
Proof.
  intros Hi Ho H1 H2. destruct (owned_in_use _ _ _ _ (proj1 Hi) Ho) as (sz & Hu & Hn).
  unfold BLOCK_HEADER_SIZE in *. unfold store32. rewrite (in_use_range _ _ _ _ _ _ (proj1 Hi) Hu) by lia.
  eexists. split; [done|]. eapply payload_same_blocks; [done|exact Hu|unfold BLOCK_HEADER_SIZE; lia|lia].
Qed.

Lemma fill_words_owned h ab p n v m c :
  heap_inv h ab -> owned h p n -> p <= c -> c + 4 * Z.of_nat m <= p + n ->
  exists h', fill_words m c v h = Done (tt, h') /\ same_blocks h h' ab.
Proof.
  revert c h. induction m as [|m IH]; intros c h Hi Ho H1 H2.
  - exists h. split; [done|]. split; done.
  - destruct (store32_owned h ab p n v c Hi Ho H1 ltac:(lia)) as (h1 & E1 & S1). cbn [fill_words].
    destruct (IH (c + 4) h1 (proj1 S1) (same_blocks_owned _ _ _ _ _ (proj1 Hi) S1 Ho) ltac:(lia) ltac:(lia)) as (h2 & E2 & S2).
    exists h2. rewrite (bind_step _ _ _ _ _ E1). split; [done|by eapply same_blocks_trans].
Qed.

Lemma on_heap_Done {A} (m : M heap_t A) k a h' :
  m (heap k) = Done (a, h') -> on_heap m k = Done (a, set_heap h' k).
Proof. unfold on_heap, zoom. by intros ->. Qed.

Lemma on_heap_store k ab p n v c :
  heap_inv (heap k) ab -> owned (heap k) p n -> p <= c -> c + 4 <= p + n ->
  exists h', on_heap (store32 c v) k = Done (tt, set_heap h' k) /\ same_blocks (heap k) h' ab /\ owned h' p n.
Proof.
  intros Hi Ho H1 H2. destruct (store32_owned _ _ _ _ v c Hi Ho H1 H2) as (h' & E & S). exists h'.
  split; [by apply on_heap_Done|]. split; [done|]. by eapply same_blocks_owned; [apply Hi|..].
Qed.

(** The stack of a new task: both initialisations stay inside it. *)
Lemma stack_init_spec tda k ab t c :
  tcbs k !! t = Some c -> heap_inv (heap k) ab -> owned (heap k) (t_stack_start c) (t_stack_size c) ->
  128 <= t_stack_size c ->
  exists h', task_stack_init tda t k =
      Done (tt, set_tcbs (alter (set_t_sp (t_stack_start c + t_stack_size c - 64)) t (tcbs k)) (set_heap h' k)) /\
    same_blocks (heap k) h' ab.
Proof.
  intros Hc Hi Ho Hsz. unfold task_stack_init. rewrite (bind_step _ _ _ _ _ (tcb_Done _ _ _ Hc)).
  set (p := t_stack_start c) in *. set (n := t_stack_size c) in *. set (sp := p + n - 64).
  destruct (fill_words_owned (heap k) ab p n TASK_STACK_WATERMARK (Z.to_nat (n / 4)) p Hi Ho ltac:(lia)
              ltac:(rewrite Z2Nat.id by divmod_lia; divmod_lia)) as (h0 & E0 & S0).
  rewrite (bind_step _ _ _ _ _ (on_heap_Done _ _ _ _ E0)). fold sp.
  assert (owned h0 p n) as O0 by (by eapply same_blocks_owned; [apply Hi|..]).
  assert (forall kk v i, heap_inv (heap kk) ab -> owned (heap kk) p n -> 0 <= i < 16 ->
    exists h', on_heap (store32 (sp + 4 * i) v) kk = Done (tt, set_heap h' kk) /\ same_blocks (heap kk) h' ab /\ owned h' p n) as Hst.
  { intros kk v i Hik Hok Hir. apply on_heap_store; [done|done|unfold sp; lia|unfold sp; lia]. }
  destruct (Hst (set_heap h0 k) (u32 (t_entry c)) 14 (proj1 S0) O0 ltac:(lia)) as (h1 & E1 & S1 & O1).
  rewrite (bind_step _ _ _ _ _ E1). change (set_heap h1 (set_heap h0 k)) with (set_heap h1 k).
  destruct (Hst (set_heap h1 k) 0x01000000 15 (proj1 S1) O1 ltac:(lia)) as (h2 & E2 & S2 & O2).
  rewrite (bind_step _ _ _ _ _ E2). change (set_heap h2 (set_heap h1 k)) with (set_heap h2 k).
  destruct (Hst (set_heap h2 k) (u32 (sp + 64)) 13 (proj1 S2) O2 ltac:(lia)) as (h3 & E3 & S3 & O3).
  rewrite (bind_step _ _ _ _ _ E3). change (set_heap h3 (set_heap h2 k)) with (set_heap h3 k).
  destruct (Hst (set_heap h3 k) (u32 (t_param c)) 12 (proj1 S3) O3 ltac:(lia)) as (h4 & E4 & S4 & O4).
  rewrite (bind_step _ _ _ _ _ E4). change (set_heap h4 (set_heap h3 k)) with (set_heap h4 k).
  destruct (Hst (set_heap h4 k) 0xFFFFFFFD 8 (proj1 S4) O4 ltac:(lia)) as (h5 & E5 & S5 & O5).
  rewrite (bind_step _ _ _ _ _ E5). change (set_heap h5 (set_heap h4 k)) with (set_heap h5 k).
  destruct (Hst (set_heap h5 k) (u32 tda) 9 (proj1 S5) O5 ltac:(lia)) as (h6 & E6 & S6 & O6).
  rewrite (bind_step _ _ _ _ _ E6). change (set_heap h6 (set_heap h5 k)) with (set_heap h6 k).
  exists h6. split; [by apply (upd_tcb_Done (set_heap h6 k)); eauto|].
  repeat (eapply same_blocks_trans; [eassumption|]). split; [apply S6|done].
Qed.
Lemma owned_malloc h ab size p h' ab' q n :
  heap_wf h ab -> heap_wf h' ab' -> allocated h ab size p h' ab' -> owned h q n -> owned h' q n /\ q <> p.
Proof.
  intros Hwf Hwf' Ha Ho. destruct (owned_in_use _ _ _ _ Hwf Ho) as (sz & Hu & Hn).
  destruct (in_use_allocated _ _ _ _ _ _ _ _ Hwf Ha Hu) as [Hu' Hne].
  split; [by eapply in_use_owned|]. intros ->. done.
Qed.

Lemma malloc_owned h ab size :
  heap_inv h ab -> 0 <= size < 4294967256 ->
  exists p h' ab', malloc_rtos size h = Done (p, h') /\ heap_inv h' ab' /\
    (forall q n, owned h q n -> owned h' q n) /\
    (p = NULL \/ p <> NULL /\ owned h' p size /\ forall q n, owned h q n -> q <> p).
Proof.
  intros Hi Hs. destruct (malloc_spec h ab size (proj1 Hi)) as (p & h' & ab' & E & Hwf & Hcase).
  exists p, h', ab'. split; [done|]. destruct Hcase as [(-> & -> & -> & _)|[Hs0 Ha]].
  - split; [done|]. split; [done|]. by left.
  - assert (0 < size < 4294967256) as Hs' by lia.
    destruct (malloc_payload _ _ _ _ _ _ Hi Hs' Hwf Ha) as (Hi' & Hp & s & Hsz & Hu).
    assert (forall q n, owned h q n -> owned h' q n /\ q <> p) as Hq
      by (intros; eapply (owned_malloc h ab); [apply Hi|exact Hwf|exact Ha|done]).
    split; [done|]. split; [intros q n Ho; by apply Hq|]. right. split; [done|]. split.
    + eapply in_use_owned; [exact Hwf|exact Hu|unfold BLOCK_HEADER_SIZE; lia].
    + intros q n Ho. by eapply Hq.
Qed.

Lemma free_owned h ab p n :
  heap_inv h ab -> owned h p n ->
  exists h' ab', free_rtos p h = Done (tt, h') /\ heap_inv h' ab' /\
    forall q m, owned h q m -> q <> p -> owned h' q m.
Proof.
  intros Hi Ho. pose proof Ho as (b & Hb & Hm & _).
  destruct (free_spec h ab p (proj1 Hi)) as (h' & ab' & E & Hwf & Hf); [unfold magic_of; by rewrite Hb, <- Hm|].
  exists h', ab'. split; [done|]. split; [by eapply freed_inv|]. intros q m Hq Hne.
  destruct (owned_in_use _ _ _ _ (proj1 Hi) Hq) as (sz & Hu & Hsz).
  eapply in_use_owned; [exact Hwf| |exact Hsz]. eapply in_use_freed; [exact Hf|exact Hu|]. lia.
Qed.

(** ** Task creation *)

Definition actual_priority (priority : Z) : Z :=
  if TASK_PRIORITY_MAX <=? priority then TASK_PRIORITY_LOWEST else priority.
Definition actual_stack_size (stack_size : Z) : Z :=
  8 * (((if stack_size <? TASK_STACK_MIN then TASK_STACK_MIN else stack_size) + 7) / 8).

Definition new_tcb (stack : Z) (entry : Z) (name : option (list Z)) (stack_size param priority : Z) : tcb_t :=
  Tcb (stack + stack_size - 64) stack stack_size priority priority TASK_READY entry param 10 0 0 NULL NULL NULL NULL
      (match name with Some n => cstr_copy TASK_NAME_MAX_LEN n | None => t_name zero_tcb end) 0.

(** Adding an owned, unlinked task. *)
Lemma kernel_wf_add k rq t c h' ab' :
  kernel_wf k rq -> heap_inv h' ab' ->
  (forall q n, owned (heap k) q n -> owned h' q n) ->
  (forall q n, owned (heap k) q n -> q <> t /\ q <> t_stack_start c) ->
  t <> NULL -> t_stack_start c <> NULL -> t <> t_stack_start c ->
  owned h' t sizeof_tcb -> owned h' (t_stack_start c) (t_stack_size c) ->
  kernel_wf (set_tcbs (<[t := c]> (tcbs k)) (set_heap h' k)) rq /\ ~ linked rq t /\ tcbs k !! t = None.
Proof.
  intros Hk Hi Hkeep Hfresh Ht0 Hs0 Hts Ho1 Ho2.
  assert (tcbs k !! t = None) as Hnone.
  { destruct (tcbs k !! t) as [d|] eqn:E; [|done]. destruct (kw_own _ _ Hk t d E) as (_ & _ & Ho & _).
    by destruct (Hfresh _ _ Ho). }
  assert (~ linked rq t) as Hnl.
  { intros (p & ts & Hp & Hin). destruct (dll_some _ _ _ _ t (sw_rings _ _ _ (kw_sched _ _ Hk) _ _ Hp) Hin) as [d Hd]. congruence. }
  split; [|done]. constructor.
  - eapply wf_fields; [apply Hk|]. intros x d Hl Hd. exists d. split; [|done]. simpl.
    rewrite lookup_insert_ne; [done|]. by intros ->.
  - by exists ab'.
  - intros x d. simpl. destruct (decide (x = t)) as [->|Hx].
    + rewrite lookup_insert_eq. intros [= <-]. done.
    + rewrite lookup_insert_ne by done. intros Hd. destruct (kw_own _ _ Hk x d Hd) as (? & ? & ? & ?). auto.
  - intros x d x' d'. simpl.
    destruct (decide (x = t)) as [->|Hx], (decide (x' = t)) as [->|Hx'];
      rewrite ?lookup_insert_eq, ?lookup_insert_ne by done; intros H1 H2; simplify_eq; try done.
    + destruct (kw_own _ _ Hk x' d' H2) as (_ & _ & Hox & Hos). destruct (Hfresh _ _ Hos), (Hfresh _ _ Hox). naive_solver.
    + destruct (kw_own _ _ Hk x d H1) as (_ & _ & Hox & Hos). destruct (Hfresh _ _ Hos), (Hfresh _ _ Hox). naive_solver.
    + exact (kw_distinct _ _ Hk _ _ _ _ H1 H2).
Qed.

(** Any relinking of the lists keeps the memory part. *)
Lemma kernel_wf_relink k rq tl m rq' S :
  kernel_wf k rq -> sched_wf tl m rq' -> relinked S (tcbs k) m ->
  kernel_wf (set_tcbs m (set_task_list tl k)) rq'.
Proof.
  intros Hk Hw Hrl. constructor; [done|apply Hk| |].
  - intros t c Hc. destruct (relinked_fields _ _ _ _ _ Hrl Hc) as (c0 & Hc0 & ->). exact (kw_own _ _ Hk t c0 Hc0).
  - intros t c t' c' Hc Hc'. destruct (relinked_fields _ _ _ _ _ Hrl Hc) as (c0 & Hc0 & ->).
    destruct (relinked_fields _ _ _ _ _ Hrl Hc') as (c0' & Hc0' & ->). exact (kw_distinct _ _ Hk _ _ _ _ Hc0 Hc0').
Qed.

Lemma kernel_wf_heap k rq h' ab' :
  kernel_wf k rq -> heap_inv h' ab' -> (forall q n, owned (heap k) q n -> owned h' q n) -> kernel_wf (set_heap h' k) rq.
Proof.
  intros Hk Hi Hkeep. constructor; [apply Hk|by exists ab'| |apply Hk].
  intros t c Hc. destruct (kw_own _ _ Hk t c Hc) as (? & ? & ? & ?). auto.
Qed.

Lemma stack_size_mask s : 0 <= s < 4294967289 -> Z.land (s +32 7) (u32 (Z.lnot 7)) = 8 * ((s + 7) / 8).
Proof. intros Hs. rewrite u32_small by lia. change 7 with (HEAP_ALIGNMENT - 1) at 2. apply mask8. lia. Qed.

(** Changes of a control block that keep links, priority and stack. *)
Lemma kernel_wf_alter k rq t f :
  kernel_wf k rq ->
  (forall d, t_next (f d) = t_next d /\ t_prev (f d) = t_prev d /\ t_priority (f d) = t_priority d) ->
  (forall d, t_stack_start (f d) = t_stack_start d /\ t_stack_size (f d) = t_stack_size d) ->
  kernel_wf (set_tcbs (alter f t (tcbs k)) k) rq.
Proof.
  intros Hk Hf Hf2.
  assert (forall x d, alter f t (tcbs k) !! x = Some d -> exists d0, tcbs k !! x = Some d0 /\
    t_stack_start d = t_stack_start d0 /\ t_stack_size d = t_stack_size d0) as Hback.
  { intros x d. destruct (decide (x = t)) as [->|Hx].
    - rewrite lookup_alter_eq. destruct (tcbs k !! t) as [d0|]; [|done]. intros [= <-]. exists d0. by destruct (Hf2 d0).
    - rewrite lookup_alter_ne by done. eauto. }
  constructor; [apply wf_alter; [exact (kw_sched _ _ Hk)|done]|exact (kw_heap _ _ Hk)| |].
  - intros x d Hd. destruct (Hback x d Hd) as (d0 & Hd0 & E1 & E2). simpl. rewrite E1, E2. exact (kw_own _ _ Hk _ _ Hd0).
  - intros x d x' d' Hd Hd'. destruct (Hback x d Hd) as (d0 & Hd0 & E1 & _).
    destruct (Hback x' d' Hd') as (d0' & Hd0' & E1' & _). rewrite E1, E1'. exact (kw_distinct _ _ Hk _ _ _ _ Hd0 Hd0').
Qed.

Lemma stack_overflow_init_spec k ab t c :
  tcbs k !! t = Some c -> t <> NULL -> t_stack_start c <> NULL -> heap_inv (heap k) ab ->
  owned (heap k) (t_stack_start c) (t_stack_size c) -> 0 <= t_stack_size c ->
  exists h', stack_overflow_init t k = Done (tt, set_heap h' k) /\ same_blocks (heap k) h' ab /\
    forall a, t_stack_start c <= a < t_stack_start c + t_stack_size c -> bytes h' !! a = Some 0xA5.
Proof.
  intros Hc Ht Hst Hi Ho Hsz. unfold stack_overflow_init. rewrite (proj2 (Z.eqb_neq t NULL) Ht).
  rewrite (bind_step _ _ _ _ _ (tcb_Done _ _ _ Hc)), (proj2 (Z.eqb_neq _ NULL) Hst).
  destruct (memset_owned (heap k) ab _ _ 0xA5 (t_stack_start c) (t_stack_size c) Hi Ho ltac:(lia) ltac:(lia)) as [E S].
  eexists. split; [exact (on_heap_Done _ _ _ _ E)|]. split; [exact S|].
  intros a Ha. simpl. rewrite lookup_fill. by rewrite decide_True by lia.
Qed.

(** The end of [task_create]: stack, and the tail of the ready list. *)
Lemma start_task_spec tda k rq t c p ts :
  kernel_wf k rq -> tcbs k !! t = Some c -> ~ linked rq t -> rq !! p = Some ts -> t_priority c = Z.of_nat p ->
  128 <= t_stack_size c -> 0 <= critical_nesting k < UINT32_MAX ->
  exists k' nx pv, (task_stack_init tda t;; stack_overflow_init t;; task_enter_critical;;
                    link_tail (t_priority c) t;; task_exit_critical;; mret t) k = Done (t, k') /\
    kernel_wf k' (<[p := ts ++ [t]]> rq) /\
    tcbs k' !! t = Some (set_t_next nx (set_t_prev pv (set_t_sp (t_stack_start c + t_stack_size c - 64) c))) /\
    (forall x, x ∉ ts -> x <> t -> tcbs k' !! x = tcbs k !! x) /\
    relinked (ts ++ [t]) (alter (set_t_sp (t_stack_start c + t_stack_size c - 64)) t (tcbs k)) (tcbs k') /\
    current_task k' = current_task k /\ tick_count k' = tick_count k /\ critical_nesting k' = critical_nesting k /\
    forall a, t_stack_start c <= a < t_stack_start c + t_stack_size c -> bytes (heap k') !! a = Some 0xA5.
Proof.
  intros Hk Hc Hnl Hp Hpr Hsz Hcn. destruct (kw_heap _ _ Hk) as [ab Hi].
  destruct (kw_own _ _ Hk t c Hc) as (Ht0 & Hst0 & _ & Hos).
  destruct (stack_init_spec tda k ab t c Hc Hi Hos Hsz) as (h1 & E1 & S1). rewrite (bind_step _ _ _ _ _ E1).
  set (f := set_t_sp _) in *. set (m1 := alter f t (tcbs k)) in *.
  assert (m1 !! t = Some (f c)) as Hc1 by (unfold m1; by rewrite lookup_alter_eq, Hc).
  destruct (stack_overflow_init_spec (set_tcbs m1 (set_heap h1 k)) ab t (f c) Hc1 Ht0 Hst0 (proj1 S1)
    (same_blocks_owned _ _ _ _ _ (proj1 Hi) S1 Hos) ltac:(simpl; lia)) as (h2 & E2 & S2 & Hbytes).
  rewrite (bind_step _ _ _ _ _ E2). cbn [heap set_tcbs set_heap] in S2.
  set (k2 := set_heap h2 (set_tcbs m1 (set_heap h1 k))).
  assert (kernel_wf k2 rq) as Hk2.
  { change k2 with (set_heap h2 (set_tcbs m1 k)). apply (kernel_wf_heap _ _ h2 ab); [by apply kernel_wf_alter|apply S2|].
    intros q n Ho. eapply same_blocks_owned; [apply S1|exact S2|]. by eapply same_blocks_owned; [apply Hi|..]. }
  unfold task_enter_critical at 1. rewrite bind_modify. set (k3 := set_critical_nesting _ k2).
  destruct (link_wf k3 rq p ts t (f c) (kw_sched _ _ Hk2) Hp Hnl Ht0 Hc1 Hpr) as (tl' & m' & E3 & Hw3 & Hrl).
  rewrite Hpr, (bind_step _ _ _ _ _ E3). set (k4 := set_tcbs m' (set_task_list tl' k3)).
  unfold task_exit_critical. rewrite bind_modify. unfold mret, M_ret.
  destruct (Hrl t) as [_ [(c1 & nx & pv & E4 & E5)|[E4 _]]]; [|simpl in E4; congruence].
  simpl in E4. rewrite Hc1 in E4. injection E4 as <-.
  eexists _, nx, pv. split; [reflexivity|]. split.
  { pose proof (kernel_wf_relink k2 rq tl' m' _ _ Hk2 Hw3 Hrl) as Hkw. destruct Hkw. by constructor. }
  split; [exact E5|]. split.
  { intros x Hx1 Hx2. destruct (Hrl x) as [F _]. cbn [tcbs set_critical_nesting k4 set_tcbs].
    rewrite F by (intros [?|Hx%list_elem_of_singleton]%elem_of_app; done). simpl. unfold m1. by rewrite lookup_alter_ne. }
  split; [exact Hrl|]. split_and!; try done. simpl. by apply critical_balance.
Qed.

(** One of the two allocations of [task_create] fails. *)
Definition out_of_memory (n : Z) (h : heap_t) : Prop :=
  exists h', malloc_rtos sizeof_tcb h = Done (NULL, h') \/
    exists t h1 h2, malloc_rtos sizeof_tcb h = Done (t, h1) /\ memset t 0 sizeof_tcb h1 = Done (tt, h2) /\
      malloc_rtos n h2 = Done (NULL, h').

Lemma task_create_spec tda k rq entry name stack_size param priority :
  kernel_wf k rq -> 0 <= stack_size < 4294967249 -> 0 <= priority -> 0 <= critical_nesting k < UINT32_MAX ->
  let p := Z.to_nat (actual_priority priority) in
  let n := actual_stack_size stack_size in
  exists t k' rq', task_create tda entry name stack_size param priority k = Done (t, k') /\ kernel_wf k' rq' /\
    current_task k' = current_task k /\ tick_count k' = tick_count k /\ critical_nesting k' = critical_nesting k /\
    ((t = NULL /\ rq' = rq /\ tcbs k' = tcbs k /\ task_list k' = task_list k /\ out_of_memory n (heap k)) \/
     (t <> NULL /\ tcbs k !! t = None /\ exists ts stack nx pv,
        rq !! p = Some ts /\ rq' = <[p := ts ++ [t]]> rq /\
        tcbs k' !! t = Some (set_t_next nx (set_t_prev pv (new_tcb stack entry name n param (actual_priority priority)))) /\
        relinked ts (tcbs k) (delete t (tcbs k')) /\
        forall a, stack <= a < stack + n -> bytes (heap k') !! a = Some 0xA5)).
Proof.
  intros Hk Hs Hpr Hcn p n. destruct (kw_heap _ _ Hk) as [ab Hi].
  unfold task_create. fold (actual_priority priority).
  set (s0 := if stack_size <? TASK_STACK_MIN then TASK_STACK_MIN else stack_size).
  assert (128 <= s0 < 4294967249) as Hs0 by (unfold s0, TASK_STACK_MIN; destruct (Z.ltb_spec stack_size 128); lia).
  rewrite stack_size_mask by lia. change (8 * ((s0 + 7) / 8)) with n.
  assert (128 <= n < 4294967256) as Hn by (unfold n, actual_stack_size; fold s0; divmod_lia).
  assert (0 <= actual_priority priority < 33) as Hap
    by (unfold actual_priority, TASK_PRIORITY_MAX, TASK_PRIORITY_LOWEST; destruct (Z.leb_spec 33 priority); lia).
  destruct (malloc_owned (heap k) ab sizeof_tcb Hi ltac:(unfold sizeof_tcb; lia)) as (t & h1 & ab1 & E1 & Hi1 & Hk1 & Hc1).
  rewrite (bind_step _ _ _ _ _ (on_heap_Done _ _ _ _ E1)).
  destruct Hc1 as [->|(Ht0 & Ho1 & Hf1)].
  { rewrite Z.eqb_refl. exists NULL, (set_heap h1 k), rq. split; [done|]. split; [by eapply kernel_wf_heap|].
    split_and!; try done. left. split_and!; try done. exists h1. by left. }
  rewrite (proj2 (Z.eqb_neq t NULL) Ht0).
  destruct (memset_owned h1 ab1 t sizeof_tcb 0 t sizeof_tcb Hi1 Ho1 ltac:(lia) ltac:(lia)) as [E2 S2].
  rewrite (bind_step _ _ _ _ _ (on_heap_Done _ (set_heap h1 k) _ _ E2)).
  set (h2 := set_memory _ _ h1) in *. change (set_heap h2 (set_heap h1 k)) with (set_heap h2 k).
  assert (forall q m, owned h1 q m -> owned h2 q m) as Hk2 by (intros; by eapply same_blocks_owned; [apply Hi1|..]).
  destruct (malloc_owned h2 ab1 n (proj1 S2) ltac:(lia)) as (st & h3 & ab3 & E3 & Hi3 & Hk3 & Hc3).
  rewrite (bind_step _ _ _ _ _ (on_heap_Done _ (set_heap h2 k) _ _ E3)). change (set_heap h3 (set_heap h2 k)) with (set_heap h3 k).
  assert (owned h3 t sizeof_tcb) as Ho3 by auto.
  assert (forall q m, owned (heap k) q m -> owned h3 q m) as Hkeep3 by auto.
  destruct Hc3 as [->|(Hst0 & Hos3 & Hf3)].
  { rewrite Z.eqb_refl. destruct (free_owned h3 ab3 t _ Hi3 Ho3) as (h4 & ab4 & E4 & Hi4 & Hk4).
    rewrite (bind_step _ _ _ _ _ (on_heap_Done _ (set_heap h3 k) _ _ E4)).
    exists NULL, (set_heap h4 k), rq. split; [done|]. split.
    - eapply kernel_wf_heap; [done|exact Hi4|]. intros q m Ho. apply Hk4; [auto|]. by eapply Hf1.
    - split_and!; try done. left. split_and!; try done. exists h3. right. by exists t, h1, h2. }
  rewrite (proj2 (Z.eqb_neq st NULL) Hst0).
  set (c0 := Tcb 0 st n _ _ _ _ _ _ _ _ _ _ _ _ _ _). unfold put_tcb at 1. rewrite bind_modify.
  set (k3 := set_tcbs (<[t := c0]> (tcbs k)) (set_heap h3 k)).
  change (set_tcbs (<[t := c0]> (tcbs (set_heap h3 k))) (set_heap h3 k)) with k3.
  assert (t <> st) as Htst by (by eapply Hf3, Hk2).
  destruct (kernel_wf_add k rq t c0 h3 ab3 Hk Hi3 Hkeep3 ltac:(intros q m Ho; split; [by eapply Hf1|by eapply Hf3; eauto])
              Ht0 Hst0 Htst Ho3 Hos3) as (Hk3' & Hnl & Hnone). fold k3 in Hk3'.
  destruct (lookup_lt_is_Some_2 rq p) as [ts Hts]; [rewrite (sw_len _ _ _ (kw_sched _ _ Hk)); unfold p; lia|].
  assert (tcbs k3 !! t = Some c0) as Hc0 by (unfold k3; simpl; by rewrite lookup_insert_eq).
  destruct (start_task_spec tda k3 rq t c0 p ts Hk3' Hc0 Hnl Hts ltac:(unfold p; simpl; lia) ltac:(simpl; lia) Hcn)
    as (k' & nx & pv & E4 & Hk' & Hct & Hother & Hrl & Hcur & Htick & Hnest & Hbytes).
  exists t, k', (<[p := ts ++ [t]]> rq). split; [exact E4|]. split; [done|]. split_and!; try done.
  right. split; [done|]. split; [done|]. exists ts, st, nx, pv. split_and!; try done.
  intros x. destruct (decide (x = t)) as [->|Hx].
  - rewrite lookup_delete_eq. split; [done|]. by right.
  - rewrite lookup_delete_ne by done. destruct (Hrl x) as [_ C].
    rewrite lookup_alter_ne in C by done. unfold k3 in C, Hother. simpl in C, Hother. rewrite lookup_insert_ne in C by done.
    split; [|exact C]. intros Hxt. rewrite Hother by done. by rewrite lookup_insert_ne.
Qed.
(** ** Deleting a task *)

Lemma delete_unlink_spec k rq p l1 t l2 c :
  sched_wf (task_list k) (tcbs k) rq -> rq !! p = Some (l1 ++ t :: l2) -> tcbs k !! t = Some c ->
  exists tl' m', (if t_next c =? t then set_list_head (t_priority c) NULL
                  else head ← list_head (t_priority c);
                       when (head =? t) (set_list_head (t_priority c) (t_next c));; unlink t) k =
      Done (tt, set_tcbs m' (set_task_list tl' k)) /\
    sched_wf tl' m' (<[p := l1 ++ l2]> rq) /\ relinked (l1 ++ l2) (tcbs k) m' /\ m' !! t = Some c.
Proof.
  intros Hwf Hp Hc. destruct (dequeue_spec k rq p l1 t l2 c Hwf Hp Hc) as (tl' & m' & E & Hrest).
  exists tl', m'. split; [|done]. rewrite <- E. destruct (wf_head_at _ _ _ _ _ Hwf Hp) as [Hh Hpb].
  destruct (sw_nodup _ _ _ Hwf _ _ Hp) as [Hnd _]. pose proof (sw_rings _ _ _ Hwf _ _ Hp) as Hr.
  rewrite (sw_prio _ _ _ Hwf _ _ t c Hp ltac:(set_solver) Hc). rewrite <- (Nat2Z.id p) in Hh.
  rewrite (bind_step _ _ _ _ _ (list_head_Done k _ _ Hpb Hh)). rewrite (head_is _ _ _ _ _ _ _ Hwf Hp).
  unfold drop_head. rewrite (ring_self _ _ _ _ _ Hr Hnd Hc).
  destruct (decide (l1 = [])) as [->|Hl1].
  - rewrite (bool_decide_true ([] = [])) by done. destruct (bool_decide ([] ++ l2 = [])); [done|].
    rewrite (bind_step _ _ _ _ _ (list_head_Done k _ _ Hpb Hh)), (head_is _ _ _ _ _ _ _ Hwf Hp).
    rewrite (bool_decide_true ([] = [])) by done. reflexivity.
  - rewrite (bool_decide_false (l1 = [])), (bool_decide_false (l1 ++ l2 = [])) by (by destruct l1).
    rewrite (bind_step _ _ _ _ _ (list_head_Done k _ _ Hpb Hh)), (head_is _ _ _ _ _ _ _ Hwf Hp).
    by rewrite (bool_decide_false (l1 = [])).
Qed.

Lemma task_delete_spec itt k rq p l1 t l2 :
  kernel_wf k rq -> rq !! p = Some (l1 ++ t :: l2) -> t <> itt -> 0 <= critical_nesting k < UINT32_MAX ->
  exists k', task_delete itt t k = Done (tt, k') /\ kernel_wf k' (<[p := l1 ++ l2]> rq) /\
    tcbs k' !! t = None /\ relinked (l1 ++ l2) (delete t (tcbs k)) (tcbs k') /\
    tick_count k' = tick_count k /\ critical_nesting k' = critical_nesting k /\
    current_task k' = (if current_task k =? t then NULL else current_task k).
Proof.
  intros Hk Hp Hitt Hcn. pose proof (kw_sched _ _ Hk) as Hwf.
  destruct (dll_some _ _ _ _ t (sw_rings _ _ _ Hwf _ _ Hp) ltac:(set_solver)) as [c Hc].
  destruct (kw_own _ _ Hk t c Hc) as (Ht0 & _). destruct (kw_heap _ _ Hk) as [ab Hi].
  unfold task_delete. rewrite (proj2 (Z.eqb_neq t NULL) Ht0), (proj2 (Z.eqb_neq t itt) Hitt). cbn [orb].
  unfold task_enter_critical at 1. rewrite bind_modify. set (k1 := set_critical_nesting (critical_nesting k +32 1) k).
  rewrite (bind_step _ _ _ _ _ (tcb_Done k1 _ _ Hc)).
  destruct (delete_unlink_spec k1 rq p l1 t l2 c Hwf Hp Hc) as (tl' & m' & E & Hw & Hrl & Hc').
  rewrite (bind_step _ _ _ _ _ E). unfold task_get_current. rewrite bind_gets.
  set (k2 := set_tcbs m' (set_task_list tl' k1)). change (current_task k2) with (current_task k).
  pose proof (kernel_wf_relink k rq tl' m' _ _ Hk Hw Hrl) as Hk2.
  set (k3 := if current_task k =? t then set_context_switch_pending true (set_current_task NULL k2) else k2).
  rewrite (bind_step _ _ k2 tt k3) by (unfold k3; by destruct (current_task k =? t)).
  unfold task_exit_critical. rewrite bind_modify.
  assert (critical_nesting k3 -32 1 = critical_nesting k) as -> by (unfold k3; destruct (current_task k =? t); by apply critical_balance).
  assert (heap k3 = heap k /\ tcbs k3 = m' /\ task_list k3 = tl' /\ tick_count k3 = tick_count k /\
    current_task k3 = if current_task k =? t then NULL else current_task k) as (Eh & Em & El & Et & Ecur)
    by (unfold k3; by destruct (current_task k =? t)).
  set (k4 := set_critical_nesting (critical_nesting k) k3).
  assert (tcbs k4 !! t = Some c) as Hc4 by (simpl; by rewrite Em).
  rewrite (bind_step _ _ _ _ _ (tcb_Done k4 _ _ Hc4)).
  destruct (kw_own _ _ Hk t c Hc) as (_ & _ & Ho1 & Ho2). destruct (kw_distinct _ _ Hk t c t c Hc Hc) as [Hts _].
  destruct (free_owned (heap k) ab _ _ Hi Ho2) as (h1 & ab1 & E1 & Hi1 & Hk1).
  assert (free_rtos (t_stack_start c) (heap k4) = Done (tt, h1)) as E1' by (by rewrite <- E1, <- Eh).
  rewrite (bind_step _ _ _ _ _ (on_heap_Done _ k4 _ _ E1')).
  destruct (free_owned h1 ab1 t sizeof_tcb Hi1 (Hk1 _ _ Ho1 Hts)) as (h2 & ab2 & E2 & Hi2 & Hk2').
  rewrite (bind_step _ _ _ _ _ (on_heap_Done _ (set_heap h1 k4) _ _ E2)).
  eexists. split; [reflexivity|]. cbn [tcbs set_tcbs set_heap set_critical_nesting k4]. rewrite Em.
  assert (t ∉ l1 ++ l2) as Htl.
  { destruct (sw_nodup _ _ _ Hwf _ _ Hp) as [Hnd _]. apply NoDup_app in Hnd as (_ & Hd & [Hn _]%NoDup_cons).
    intros [Hx|Hx]%elem_of_app; [|done]. apply (Hd t Hx). left. }
  assert (~ linked (<[p := l1 ++ l2]> rq) t) as Hnl.
  { intros (q & us & Hq & Hin). assert (p < length rq)%nat by (by eapply lookup_lt_Some).
    destruct (decide (q = p)) as [->|Hqp]; [rewrite list_lookup_insert_eq in Hq by done; by simplify_eq|].
    rewrite list_lookup_insert_ne in Hq by done. apply Hqp.
    eapply (sw_disj _ _ _ Hwf); [exact Hq|exact Hp|exact Hin|set_solver]. }
  split_and!; try done; [|by rewrite lookup_delete_eq|].
  - constructor; cbn [tcbs task_list heap set_tcbs set_heap set_critical_nesting k4].
    + rewrite El. eapply wf_fields; [exact Hw|]. intros x d Hl Hd. exists d. split; [|done].
      rewrite lookup_delete_ne; [done|]. by intros ->.
    + by exists ab2.
    + intros x d Hd. apply lookup_delete_Some in Hd as [Hx Hd].
      destruct (kw_own _ _ Hk2 x d Hd) as (? & ? & Hox & Hos). simpl in Hox, Hos.
      destruct (kw_distinct _ _ Hk2 x d t c Hd Hc') as [Hd1 Hd2]. destruct (kw_distinct _ _ Hk2 t c x d Hc' Hd) as [Hd3 _].
      split_and!; try done; apply Hk2'; auto.
    + intros x d x' d' Hd Hd'. apply lookup_delete_Some in Hd as [Hx Hd]. apply lookup_delete_Some in Hd' as [Hx' Hd'].
      exact (kw_distinct _ _ Hk2 _ _ _ _ Hd Hd').
  - intros x. destruct (decide (x = t)) as [->|Hx].
    + rewrite !lookup_delete_eq. split; [done|]. by right.
    + rewrite !lookup_delete_ne by done. apply Hrl.
Qed.

