(* ===== verification/SchedulerSpec.v ===== *)
(** * What the scheduler promises (mini-rtos/src/task_scheduler.c)

    The scheduler's contract, stated over the ready queues its intrusive lists
    stand for: a list of tasks per priority, head first.  [scheduler_refines] shows
    that every call implements the queue operation of [ready_effect]; the later
    groups state what each call does to the control blocks, the tick, the choice of
    the next task, sleeping, and the sorting of tasks by period and deadline. *)
From Stdlib Require Import Sorted.
From S2P Require Import Prelude MemoryHeap Scheduler.

(** ** The ready queues as an abstract state *)

Definition dequeue (t : Z) (rq : list (list Z)) : list (list Z) := remove_task t <$> rq.
Definition enqueue (p : nat) (t : Z) (rq : list (list Z)) : list (list Z) := alter (fun ts => ts ++ [t]) p rq.

Inductive sched_call :=
| CCreate (entry : Z) (name : option (list Z)) (stack_size param priority : Z)
| CDelete (t : Z)
| CSuspend (t : Z)
| CResume (t : Z)
| CDelay (ticks : Z)
| CYield
| CTick
| CPendSV.

Definition run_call (tda itt : Z) (c : sched_call) : M kernel_t unit :=
  match c with
  | CCreate entry name stack_size param priority =>
      _ ← task_create tda entry name stack_size param priority; mret tt
  | CDelete t => task_delete itt t
  | CSuspend t => task_suspend t
  | CResume t => task_resume t
  | CDelay n => task_delay n
  | CYield => task_yield
  | CTick => scheduler_tick_handler
  | CPendSV => pendsv_handler
  end.

(** What a caller has to respect: handles name live tasks, a task is deleted,
    suspended or put to sleep only while it is in its ready list, and the tick
    interrupt of a running scheduler finds a current task. *)
Definition call_ok (itt : Z) (k : kernel_t) (rq : list (list Z)) (c : sched_call) : Prop :=
  match c with
  | CCreate _ _ stack_size _ priority => 0 <= stack_size < 4294967249 /\ 0 <= priority
  | CDelete t => t = NULL \/ t = itt \/ linked rq t
  | CSuspend t => t = NULL \/ (exists c, tcbs k !! t = Some c /\ (t_state c = TASK_SUSPENDED \/ linked rq t))
  | CResume t => t = NULL \/ is_Some (tcbs k !! t)
  | CDelay n => n = 0 \/ 0 < n < 4294967296 /\ linked rq (current_task k)
  | CYield => True
  | CTick => scheduler_running k = true -> current_task k <> NULL
  | CPendSV => True
  end.

Definition is_suspended (m : gmap Z tcb_t) (t : Z) : bool :=
  match m !! t with Some c => bool_decide (t_state c = TASK_SUSPENDED) | None => false end.

(** The queue operation each call stands for. *)
Definition ready_effect (itt : Z) (k : kernel_t) (c : sched_call) (rq rq' : list (list Z)) : Prop :=
  match c with
  | CCreate _ _ _ _ priority =>
      rq' = rq \/ exists t, t <> NULL /\ tcbs k !! t = None /\ rq' = enqueue (Z.to_nat (actual_priority priority)) t rq
  | CDelete t => rq' = if (t =? NULL) || (t =? itt) then rq else dequeue t rq
  | CSuspend t => rq' = if (t =? NULL) || is_suspended (tcbs k) t then rq else dequeue t rq
  | CResume t =>
      rq' = match tcbs k !! t with
            | Some c => if (t =? NULL) || negb (is_suspended (tcbs k) t) then rq else enqueue (Z.to_nat (t_priority c)) t rq
            | None => rq
            end
  | CDelay n =>
      rq' = if (n =? 0) || negb (existsb (fun ts => hd NULL ts =? current_task k) rq) then rq
            else dequeue (current_task k) rq
  | CYield | CTick => rq' = rq
  | CPendSV => exists t, switch_choice (tcbs k) rq t rq'
  end.

(** ** The invariant of the kernel *)

Record kernel_inv (k : kernel_t) (rq : list (list Z)) : Prop := KernelInv {
  ki_wf : kernel_wf k rq;
  ki_nesting : 0 <= critical_nesting k < UINT32_MAX;
  ki_suspended : forall t c, tcbs k !! t = Some c -> t_state c = TASK_SUSPENDED -> ~ linked rq t;
  ki_current : current_task k = NULL \/ is_Some (tcbs k !! current_task k);
  ki_priority : forall t c, tcbs k !! t = Some c -> 0 <= t_priority c < TASK_PRIORITY_MAX }.

(** Fields that no scheduling call changes. *)
Definition same_core (c c' : tcb_t) : Prop :=
  t_stack_start c' = t_stack_start c /\ t_stack_size c' = t_stack_size c /\ t_priority c' = t_priority c.

Lemma kernel_inv_step k rq k' rq' :
  kernel_inv k rq -> heap k' = heap k -> critical_nesting k' = critical_nesting k ->
  sched_wf (task_list k') (tcbs k') rq' ->
  (forall t c', tcbs k' !! t = Some c' ->
     exists c, tcbs k !! t = Some c /\ same_core c c' /\ (t_state c' = TASK_SUSPENDED -> ~ linked rq' t)) ->
  (current_task k' = NULL \/ is_Some (tcbs k' !! current_task k')) ->
  kernel_inv k' rq'.
Proof.
  intros [[Hwf Hh Ho Hd] Hn Hs Hc Hp] Eh En Hwf' Hm Hcur. constructor; try done.
  - constructor; [done|by rewrite Eh|..].
    + intros t c' Hc'. destruct (Hm t c' Hc') as (c & H & (E1 & E2 & _) & _). rewrite Eh, E1, E2. by apply Ho.
    + intros t c' u d' Hc' Hd'. destruct (Hm t c' Hc') as (c & H & (E1 & _ & _) & _).
      destruct (Hm u d' Hd') as (d & H' & (E1' & _ & _) & _). rewrite E1, E1'. by eapply Hd.
  - by rewrite En.
  - intros t c' Hc'. destruct (Hm t c' Hc') as (c & H & _ & Hx). done.
  - intros t c' Hc'. destruct (Hm t c' Hc') as (c & H & (_ & _ & E) & _). rewrite E. by eapply Hp.
Qed.

Lemma remove_task_absent t ts : t ∉ ts -> remove_task t ts = ts.
Proof.
  induction ts as [|x ts IH]; intros Ht; [done|]. cbn. destruct (Z.eqb_spec x t) as [->|]; [set_solver|].
  cbn. f_equal. apply IH. set_solver.
Qed.

(** Taking a linked task out of its list is [dequeue]. *)
Lemma dequeue_at tl m rq p l1 t l2 :
  sched_wf tl m rq -> rq !! p = Some (l1 ++ t :: l2) -> dequeue t rq = <[p := l1 ++ l2]> rq.
Proof.
  intros Hwf Hp. apply list_eq. intros q. unfold dequeue. rewrite list_lookup_fmap.
  assert (p < length rq)%nat by (by eapply lookup_lt_Some).
  destruct (decide (q = p)) as [->|Hq].
  - rewrite Hp, list_lookup_insert_eq by done. simpl. f_equal.
    destruct (sw_nodup _ _ _ Hwf _ _ Hp) as [(_ & Hd & [Hn _]%NoDup_cons)%NoDup_app _].
    apply remove_task_split; [|done]. intros Hx. apply (Hd t Hx). left.
  - rewrite list_lookup_insert_ne by done. destruct (rq !! q) as [us|] eqn:Eq; [|done]. simpl. f_equal.
    apply remove_task_absent. intros Hin. apply Hq. by eapply (sw_disj _ _ _ Hwf); [exact Eq|exact Hp|exact Hin|set_solver].
Qed.

Lemma dequeue_unlinked tl m rq t : sched_wf tl m rq -> ~ linked (dequeue t rq) t.
Proof.
  intros Hwf (p & ts & Hp & Hin). unfold dequeue in Hp. rewrite list_lookup_fmap in Hp.
  destruct (rq !! p) as [us|]; [|done]. injection Hp as <-. unfold remove_task in Hin.
  rewrite list_elem_of_In, List.filter_In in Hin. rewrite Z.eqb_refl in Hin. by destruct Hin.
Qed.

Lemma dequeue_linked rq t x : linked (dequeue t rq) x -> linked rq x.
Proof.
  intros (p & ts & Hp & Hin). unfold dequeue in Hp. rewrite list_lookup_fmap in Hp.
  destruct (rq !! p) as [us|] eqn:E; [|done]. injection Hp as <-. exists p, us. split; [done|].
  unfold remove_task in Hin. rewrite list_elem_of_In, List.filter_In, <- list_elem_of_In in Hin. tauto.
Qed.

Lemma enqueue_at rq p t ts : rq !! p = Some ts -> enqueue p t rq = <[p := ts ++ [t]]> rq.
Proof.
  intros Hp. apply list_eq. intros q. unfold enqueue. destruct (decide (q = p)) as [->|Hq].
  - rewrite list_lookup_alter_eq, Hp, list_lookup_insert_eq by (by eapply lookup_lt_Some). done.
  - by rewrite list_lookup_alter_ne, list_lookup_insert_ne.
Qed.

Lemma enqueue_linked rq p t x : linked (enqueue p t rq) x -> linked rq x \/ x = t.
Proof.
  intros (q & ts & Hq & Hin). unfold enqueue in Hq. destruct (decide (p = q)) as [->|Hne].
  - rewrite list_lookup_alter_eq in Hq. destruct (rq !! q) as [us|] eqn:E; [|done]. injection Hq as <-.
    apply elem_of_app in Hin as [Hin|Hin]; [left; by exists q, us|right; set_solver].
  - rewrite list_lookup_alter_ne in Hq by done. left. by exists q, ts.
Qed.

Lemma linked_split rq t : linked rq t -> exists p l1 l2, rq !! p = Some (l1 ++ t :: l2).
Proof. intros (p & ts & Hp & Hin). apply list_elem_of_split in Hin as (l1 & l2 & ->). by exists p, l1, l2. Qed.

Lemma linked_tcb tl m rq t : sched_wf tl m rq -> linked rq t -> is_Some (m !! t).
Proof. intros Hwf (p & ts & Hp & Hin). by eapply dll_some; [eapply (sw_rings _ _ _ Hwf); exact Hp|]. Qed.

(** The priority list of a task of the kernel. *)
Lemma priority_list k rq t c :
  kernel_inv k rq -> tcbs k !! t = Some c -> exists p ts, t_priority c = Z.of_nat p /\ rq !! p = Some ts.
Proof.
  intros Hk Hc. pose proof (ki_priority _ _ Hk _ _ Hc) as Hp. exists (Z.to_nat (t_priority c)).
  destruct (lookup_lt_is_Some_2 rq (Z.to_nat (t_priority c))) as [ts Hts].
  { rewrite (sw_len _ _ _ (kw_sched _ _ (ki_wf _ _ Hk))). unfold TASK_PRIORITY_MAX in Hp. lia. }
  exists ts. split; [lia|done].
Qed.

(** Control blocks after a call that relinks and rewrites the state of one task. *)
Lemma relinked_alter_back S m t f m' x c' :
  relinked S (alter f t m) m' -> m' !! x = Some c' ->
  exists c, m !! x = Some c /\ (x <> t /\ c' = set_t_next (t_next c') (set_t_prev (t_prev c') c) \/
    x = t /\ c' = set_t_next (t_next c') (set_t_prev (t_prev c') (f c))).
Proof.
  intros Hr Hx. destruct (relinked_fields _ _ _ _ _ Hr Hx) as (c & Hc & E).
  destruct (decide (x = t)) as [->|Hne].
  - rewrite lookup_alter_eq in Hc. destruct (m !! t) as [d|]; [|done]. injection Hc as <-. exists d. auto.
  - rewrite lookup_alter_ne in Hc by done. exists c. auto.
Qed.

Lemma relinked_some S m m' t : relinked S m m' -> is_Some (m !! t) -> is_Some (m' !! t).
Proof. intros Hr [c Hc]. destruct (Hr t) as [_ [(d & n & p & _ & ->)|[E _]]]; [eauto|congruence]. Qed.

(** A task outside every list that is not suspended stays out, in its state. *)
Definition stays (k : kernel_t) (rq : list (list Z)) (k' : kernel_t) (rq' : list (list Z)) : Prop :=
  forall x c, tcbs k !! x = Some c -> ~ linked rq x -> t_state c <> TASK_SUSPENDED ->
  ~ linked rq' x /\ exists c', tcbs k' !! x = Some c' /\ t_state c' = t_state c.

Lemma stays_refl k rq : stays k rq k rq.
Proof. intros x c Hc Hl _. eauto. Qed.

Lemma stays_relinked k rq k' rq' S m t :
  relinked S m (tcbs k') -> (forall x c, x <> t -> tcbs k !! x = Some c -> m !! x = Some c) ->
  linked rq t \/ is_suspended (tcbs k) t = true \/ tcbs k !! t = None ->
  (forall x, linked rq' x -> linked rq x \/ x = t) -> stays k rq k' rq'.
Proof.
  intros Hr Hm Ht Hl x c Hx Hnl Hns. assert (x <> t) as Hne.
  { intros ->. destruct Ht as [?|[Hs|?]]; [done| |congruence]. unfold is_suspended in Hs. rewrite Hx in Hs.
    by apply bool_decide_eq_true in Hs. }
  split; [by intros [?|?]%Hl|]. destruct (Hr x) as [_ [(d & n & p & Hd & E)|[E _]]].
  - rewrite (Hm x c Hne Hx) in Hd. injection Hd as <-. rewrite E. eexists. split; [done|]. done.
  - by rewrite (Hm x c Hne Hx) in E.
Qed.

(** ** Each call implements its queue operation *)

Lemma set_critical_nesting_id k : set_critical_nesting (critical_nesting k) k = k.
Proof. by destruct k. Qed.

Lemma kernel_inv_refl k rq k' :
  kernel_inv k rq -> heap k' = heap k -> critical_nesting k' = critical_nesting k ->
  task_list k' = task_list k -> tcbs k' = tcbs k -> current_task k' = current_task k -> kernel_inv k' rq.
Proof.
  intros Hk Eh En El Em Ec. apply (kernel_inv_step k rq); [done..| | |].
  - rewrite El, Em. apply Hk.
  - intros t c Hc. rewrite Em in Hc. exists c. split_and!; try done. by apply (ki_suspended _ _ Hk).
  - rewrite Ec, Em. apply Hk.
Qed.

Lemma suspend_refines itt k rq t :
  kernel_inv k rq -> call_ok itt k rq (CSuspend t) ->
  exists k' rq', task_suspend t k = Done (tt, k') /\ kernel_inv k' rq' /\ ready_effect itt k (CSuspend t) rq rq' /\ stays k rq k' rq'.
Proof.
  intros Hk Hok. cbn [ready_effect]. destruct (Z.eqb_spec t NULL) as [->|Ht]; [exists k, rq; eauto using stays_refl|].
  destruct Hok as [?|(c & Hc & Hl)]; [done|]. unfold is_suspended. rewrite Hc.
  destruct (decide (t_state c = TASK_SUSPENDED)) as [Hs|Hs].
  - rewrite bool_decide_true by done. exists k, rq. split; [|eauto using stays_refl].
    unfold task_suspend. rewrite (proj2 (Z.eqb_neq t NULL) Ht). unfold task_enter_critical. rewrite bind_modify.
    rewrite (bind_step _ _ _ _ _ (tcb_Done (set_critical_nesting _ k) _ _ Hc)), bool_decide_true by done.
    cbn [negb when]. rewrite bind_ret. unfold task_exit_critical, modify. do 2 f_equal. cbn -[u32].
    rewrite critical_balance by apply Hk. by destruct k.
  - rewrite bool_decide_false by done. destruct Hl as [?|Hl]; [done|].
    pose proof (kw_sched _ _ (ki_wf _ _ Hk)) as Hwf. destruct (linked_split _ _ Hl) as (p & l1 & l2 & Hp).
    destruct (task_suspend_spec k rq p l1 t l2 c Hwf Hp Hc Hs (ki_nesting _ _ Hk))
      as (k' & E & Hw & Ht' & Hr & (Eh & Ec & _ & _ & En) & _).
    cbn [orb]. exists k', (dequeue t rq). split; [exact E|].
    split; [|split; [done|apply (stays_relinked _ _ _ _ _ _ t Hr); [intros; by rewrite lookup_alter_ne|by left|eauto using dequeue_linked]]].
    rewrite <- (dequeue_at _ _ _ _ _ _ _ Hwf Hp) in Hw. apply (kernel_inv_step k rq); try done.
    + intros x c' Hx. destruct (relinked_alter_back _ _ _ _ _ _ _ Hr Hx) as (d & Hd & [[Hne E']|[-> E']]);
        exists d; (split; [done|]); rewrite E'; (split; [done|]); intros Hst.
      * intros Hlx. apply (ki_suspended _ _ Hk x d Hd Hst). by eapply dequeue_linked.
      * by eapply dequeue_unlinked.
    + rewrite Ec. destruct (ki_current _ _ Hk) as [|Hcur]; [by left|right].
      eapply relinked_some; [exact Hr|]. by apply is_Some_alter.
Qed.

Lemma resume_refines itt k rq t :
  kernel_inv k rq -> call_ok itt k rq (CResume t) ->
  exists k' rq', task_resume t k = Done (tt, k') /\ kernel_inv k' rq' /\ ready_effect itt k (CResume t) rq rq' /\ stays k rq k' rq'.
Proof.
  intros Hk Hok. cbn [ready_effect]. destruct (Z.eqb_spec t NULL) as [->|Ht].
  { exists k, rq. split; [done|]. split; [done|]. split; [by destruct (tcbs k !! NULL)|apply stays_refl]. }
  destruct Hok as [?|[c Hc]]; [done|]. unfold is_suspended. rewrite !Hc. cbn [orb].
  destruct (decide (t_state c = TASK_SUSPENDED)) as [Hs|Hs].
  - rewrite bool_decide_true by done. cbn [negb]. pose proof (kw_sched _ _ (ki_wf _ _ Hk)) as Hwf.
    destruct (priority_list _ _ _ _ Hk Hc) as (p & ts & Hpr & Hp).
    destruct (task_resume_spec k rq p ts t c Hwf Hp (ki_suspended _ _ Hk _ _ Hc Hs) Ht Hc Hs Hpr (ki_current _ _ Hk) (ki_nesting _ _ Hk))
      as (k' & E & Hw & Hr & (Eh & Ec & _ & _ & En) & _).
    exists k', (enqueue p t rq). rewrite Hpr, Nat2Z.id. split; [exact E|].
    split; [|split; [done|apply (stays_relinked _ _ _ _ _ _ t Hr); [intros; by rewrite lookup_alter_ne| |eauto using enqueue_linked]]].
    2: { right; left. unfold is_suspended. rewrite Hc. by apply bool_decide_eq_true. }
    rewrite <- (enqueue_at _ _ _ _ Hp) in Hw. apply (kernel_inv_step k rq); try done.
    + intros x c' Hx. destruct (relinked_alter_back _ _ _ _ _ _ _ Hr Hx) as (d & Hd & [[Hne E']|[-> E']]);
        exists d; (split; [done|]); rewrite E'; (split; [done|]); intros Hst; [|done].
      intros [Hlx|?]%enqueue_linked; [|done]. by apply (ki_suspended _ _ Hk x d Hd Hst).
    + rewrite Ec. destruct (ki_current _ _ Hk) as [|Hcur]; [by left|right].
      eapply relinked_some; [exact Hr|]. by apply is_Some_alter.
  - rewrite bool_decide_false by done. cbn [negb]. exists k, rq. split; [|eauto using stays_refl].
    unfold task_resume. rewrite (proj2 (Z.eqb_neq t NULL) Ht). unfold task_enter_critical. rewrite bind_modify.
    rewrite (bind_step _ _ _ _ _ (tcb_Done (set_critical_nesting _ k) _ _ Hc)), bool_decide_false by done.
    cbn [when]. rewrite bind_ret. unfold task_exit_critical, modify. do 2 f_equal. cbn -[u32].
    rewrite critical_balance by apply Hk. by destruct k.
Qed.

Lemma head_exists tl m rq p l1 t l2 :
  sched_wf tl m rq -> rq !! p = Some (l1 ++ t :: l2) ->
  existsb (fun ts => hd NULL ts =? t) rq = bool_decide (l1 = []).
Proof.
  intros Hwf Hp. apply eq_true_iff_eq. rewrite existsb_exists, bool_decide_eq_true. split.
  - intros (ts & Hin & E%Z.eqb_eq). apply list_elem_of_In, list_elem_of_lookup_1 in Hin as [q Hq].
    destruct (sw_nodup _ _ _ Hwf _ _ Hp) as [Hnd Hn0].
    assert (t ∈ ts) as Hts. { destruct ts as [|x ts]; cbn in E; [|subst; left]. subst t. exfalso. apply Hn0. set_solver. }
    assert (q = p) as -> by (eapply (sw_disj _ _ _ Hwf); [exact Hq|exact Hp|exact Hts|set_solver]).
    rewrite Hp in Hq. injection Hq as <-. destruct l1 as [|x l1]; [done|]. cbn in E. subst x.
    apply NoDup_cons in Hnd as [Hx _]. exfalso. apply Hx. set_solver.
  - intros ->. exists (t :: l2). split; [apply list_elem_of_In; by eapply list_elem_of_lookup_2|cbn; apply Z.eqb_refl].
Qed.

Lemma delay_refines itt k rq n :
  kernel_inv k rq -> call_ok itt k rq (CDelay n) ->
  exists k' rq', task_delay n k = Done (tt, k') /\ kernel_inv k' rq' /\ ready_effect itt k (CDelay n) rq rq' /\ stays k rq k' rq'.
Proof.
  intros Hk Hok. cbn [ready_effect]. destruct (Z.eqb_spec n 0) as [->|Hn]; [exists k, rq; eauto using stays_refl|].
  destruct Hok as [?|[Hn' Hl]]; [done|]. cbn [orb]. set (t := current_task k) in *.
  pose proof (kw_sched _ _ (ki_wf _ _ Hk)) as Hwf. destruct (linked_tcb _ _ _ _ Hwf Hl) as [c Hc].
  destruct (linked_split _ _ Hl) as (p & l1 & l2 & Hp).
  destruct (task_delay_spec k rq p l1 t l2 c n Hwf Hp eq_refl Hc Hn' (ki_nesting _ _ Hk))
    as (k' & E & Hw & Ht' & (Eh & Ec & _ & _ & En) & _ & Hr).
  rewrite (head_exists _ _ _ _ _ _ _ Hwf Hp).
  set (rq' := if negb (bool_decide (l1 = [])) then rq else dequeue t rq).
  assert (<[p := if decide (l1 = []) then l2 else l1 ++ t :: l2]> rq = rq') as Erq.
  { unfold rq'. destruct (decide (l1 = [])) as [->|].
    - rewrite bool_decide_true by done. symmetry. exact (dequeue_at _ _ _ _ [] _ _ Hwf Hp).
    - rewrite bool_decide_false by done. cbn [negb]. by rewrite list_insert_id. }
  rewrite Erq in Hw. exists k', rq'. split; [exact E|]. split; [|split; [done|]].
  2: { intros x d Hx Hnl _. assert (x <> t) as Hne by (by intros ->).
       split; [intros Hlx; apply Hnl; unfold rq' in Hlx; destruct (negb _); [done|by eapply dequeue_linked]|].
       destruct (Hr x) as [_ [(d' & nn & pp & Hd & E')|[E' _]]]; rewrite ?lookup_insert_ne in * by done; [|congruence].
       rewrite E'. eexists. split; [done|]. cbn. congruence. }
  apply (kernel_inv_step k rq); try done.
  - intros x c' Hx. destruct (decide (x = t)) as [->|Hne].
    + rewrite Ht' in Hx. injection Hx as <-. by exists c.
    + rewrite <- (lookup_insert_ne (tcbs k') t x c) in Hx by done.
      destruct (relinked_fields _ _ _ _ _ Hr Hx) as (d & Hd & E'). exists d. rewrite E'. split_and!; try done.
      intros Hst Hlx. apply (ki_suspended _ _ Hk x d Hd Hst). unfold rq' in Hlx.
      destruct (negb _); [done|by eapply dequeue_linked].
  - rewrite Ec. right. fold t. by rewrite Ht'.
Qed.

Lemma delete_refines itt k rq t :
  kernel_inv k rq -> call_ok itt k rq (CDelete t) ->
  exists k' rq', task_delete itt t k = Done (tt, k') /\ kernel_inv k' rq' /\ ready_effect itt k (CDelete t) rq rq' /\ stays k rq k' rq'.
Proof.
  intros Hk Hok. cbn [ready_effect].
  destruct ((t =? NULL) || (t =? itt)) eqn:Et.
  { exists k, rq. split; [|eauto using stays_refl]. unfold task_delete. by rewrite Et. }
  apply orb_false_iff in Et as [Ht0%Z.eqb_neq Hti%Z.eqb_neq].
  destruct Hok as [?|[?|Hl]]; [done..|]. pose proof (kw_sched _ _ (ki_wf _ _ Hk)) as Hwf.
  destruct (linked_split _ _ Hl) as (p & l1 & l2 & Hp).
  destruct (task_delete_spec itt k rq p l1 t l2 (ki_wf _ _ Hk) Hp Hti (ki_nesting _ _ Hk))
    as (k' & E & Hw & Hgone & Hr & _ & En & Ec).
  rewrite <- (dequeue_at _ _ _ _ _ _ _ Hwf Hp) in Hw. exists k', (dequeue t rq). split; [exact E|].
  split; [|split; [done|apply (stays_relinked _ _ _ _ _ _ t Hr); [intros; by rewrite lookup_delete_ne|by left|eauto using dequeue_linked]]].
  assert (forall x c', tcbs k' !! x = Some c' -> exists c, tcbs k !! x = Some c /\ x <> t /\
    c' = set_t_next (t_next c') (set_t_prev (t_prev c') c)) as Hback.
  { intros x c' Hx. destruct (relinked_fields _ _ _ _ _ Hr Hx) as (c & Hc & E').
    apply lookup_delete_Some in Hc as [Hne Hc]. by exists c. }
  constructor; [done|by rewrite En; apply Hk|..].
  - intros x c' Hx Hst Hlx. destruct (Hback x c' Hx) as (c & Hc & _ & E'). rewrite E' in Hst.
    apply (ki_suspended _ _ Hk x c Hc Hst). by eapply dequeue_linked.
  - rewrite Ec. destruct (Z.eqb_spec (current_task k) t) as [|Hne]; [by left|].
    destruct (ki_current _ _ Hk) as [|Hcur]; [by left|right].
    eapply relinked_some; [exact Hr|]. by rewrite lookup_delete_ne.
  - intros x c' Hx. destruct (Hback x c' Hx) as (c & Hc & _ & E'). rewrite E'. by apply (ki_priority _ _ Hk x c Hc).
Qed.

Lemma switch_choice_linked_back m rq t rq' x : switch_choice m rq t rq' -> linked rq' x -> linked rq x.
Proof.
  intros [(p & ts & ts' & Hp & Hts & _ & _ & Hch & ->)|(_ & -> & _)] Hl; [|done].
  destruct Hl as (q & us & Hq & Hin). destruct (decide (q = p)) as [->|Hne].
  - rewrite list_lookup_insert_eq in Hq by (by eapply lookup_lt_Some). injection Hq as <-. exists p, ts. split; [done|].
    unfold chosen in Hch. destruct (List.find _ ts).
    + destruct Hch as [_ (l1 & l2 & -> & ->)]. set_solver.
    + by destruct Hch as [_ ->].
  - rewrite list_lookup_insert_ne in Hq by done. by exists q, us.
Qed.

Lemma actual_priority_range priority : 0 <= priority -> 0 <= actual_priority priority < TASK_PRIORITY_MAX.
Proof. unfold actual_priority, TASK_PRIORITY_MAX, TASK_PRIORITY_LOWEST. destruct (Z.leb_spec 33 priority); lia. Qed.

Lemma create_refines tda itt k rq entry name stack_size param priority :
  let c := CCreate entry name stack_size param priority in
  kernel_inv k rq -> call_ok itt k rq c ->
  exists k' rq', run_call tda itt c k = Done (tt, k') /\ kernel_inv k' rq' /\ ready_effect itt k c rq rq' /\ stays k rq k' rq'.
Proof.
  intros c Hk [Hs Hp]. pose proof (actual_priority_range priority Hp) as Hpr.
  destruct (task_create_spec tda k rq entry name stack_size param priority (ki_wf _ _ Hk) Hs Hp (ki_nesting _ _ Hk))
    as (t & k' & rq' & E & Hw & Ec & _ & En & Hcase).
  exists k', rq'. cbn [run_call c ready_effect]. rewrite (bind_step _ _ _ _ _ E). split; [done|].
  destruct Hcase as [(-> & -> & Em & _ & _)|(Ht & Hfresh & ts & stack & nx & pv & Hts & -> & Ht' & Hr & _)].
  - split; [|split; [by left|intros x c' Hx; rewrite Em; eauto]]. constructor; [done|by rewrite En; apply Hk|..]; rewrite ?Em, ?Ec; apply Hk.
  - rewrite <- (enqueue_at _ _ t _ Hts) in *.
    assert (forall x c', tcbs k' !! x = Some c' -> x <> t -> exists d, tcbs k !! x = Some d /\
      c' = set_t_next (t_next c') (set_t_prev (t_prev c') d)) as Hback.
    { intros x c' Hx Hne. rewrite <- (lookup_delete_ne _ t) in Hx by done.
      destruct (relinked_fields _ _ _ _ _ Hr Hx) as (d & Hd & E'). by exists d. }
    split; [|split; [right; by exists t|]].
    2: { intros x d Hx Hnl _. assert (x <> t) as Hne by congruence.
         split; [by intros [?|?]%enqueue_linked|]. destruct (Hr x) as [_ [(d' & nn & pp & Hd & E')|[E' _]]];
           rewrite ?lookup_delete_ne in * by done; [|congruence].
         rewrite E'. eexists. split; [done|]. cbn. congruence. }
    constructor; [done|by rewrite En; apply Hk|..].
    + intros x c' Hx Hst Hlx. destruct (decide (x = t)) as [->|Hne].
      { rewrite Ht' in Hx. injection Hx as <-. done. }
      destruct (Hback x c' Hx Hne) as (d & Hd & E'). rewrite E' in Hst.
      apply enqueue_linked in Hlx as [Hlx|?]; [|done]. by apply (ki_suspended _ _ Hk x d Hd Hst).
    + rewrite Ec. destruct (ki_current _ _ Hk) as [|Hcur]; [by left|right].
      destruct (decide (current_task k = t)) as [->|Hne]; [by rewrite Ht'|].
      rewrite <- (lookup_delete_ne _ t) by done. by eapply relinked_some.
    + intros x c' Hx. destruct (decide (x = t)) as [->|Hne].
      { rewrite Ht' in Hx. injection Hx as <-. done. }
      destruct (Hback x c' Hx Hne) as (d & Hd & E'). rewrite E'. by apply (ki_priority _ _ Hk x d Hd).
Qed.

Lemma tick_task_core c : same_core c (tick_task c) /\ (t_state (tick_task c) = TASK_SUSPENDED -> t_state c = TASK_SUSPENDED).
Proof.
  unfold tick_task. destruct (bool_decide _ && _) eqn:E; [|done]. destruct (_ =? 0); [done|].
  cbn. split; [done|]. done.
Qed.

Lemma tick_refines itt k rq :
  kernel_inv k rq -> call_ok itt k rq CTick ->
  exists k', scheduler_tick_handler k = Done (tt, k') /\ kernel_inv k' rq /\ stays k rq k' rq.
Proof.
  intros Hk Hok. destruct (scheduler_running k) eqn:Hrun.
  2: { exists k. split; [|eauto using stays_refl]. unfold scheduler_tick_handler. by rewrite bind_gets, Hrun. }
  specialize (Hok Hrun). destruct (ki_current _ _ Hk) as [?|[d Hd]]; [done|].
  destruct (tick_handler_spec k rq d (kw_sched _ _ (ki_wf _ _ Hk)) Hrun Hok Hd)
    as (k' & E & Hw & _ & Eh & Ec & _ & _ & En & Hall & Hnone & _).
  exists k'. split; [exact E|].
  assert (forall t c, tcbs k !! t = Some c -> exists c', tcbs k' !! t = Some c' /\ same_core c c' /\
    (t_state c' = TASK_SUSPENDED -> t_state c = TASK_SUSPENDED)) as Hfwd.
  { intros t c Hc. destruct (Hall t c Hc) as [H1 H2]. set (c1 := if t =? current_task k then _ else c) in *.
    assert (same_core c c1 /\ t_state c1 = t_state c) as [Hcore Hst] by (unfold c1; by destruct (t =? _)).
    destruct (linked_dec rq t) as [Hl|Hl]; [rewrite (H1 Hl)|rewrite (H2 Hl)]; eexists; (split; [done|]).
    - destruct (tick_task_core c1) as [(A1 & A2 & A3) B]. destruct Hcore as (B1 & B2 & B3).
      unfold same_core. rewrite <- Hst. split_and!; [congruence..|done].
    - by rewrite Hst. }
  split.
  2: { intros x c Hx Hnl _. split; [done|]. destruct (Hall x c Hx) as [_ H]. rewrite (H Hnl).
       eexists. split; [done|]. by destruct (x =? current_task k). }
  apply (kernel_inv_step k rq); try done.
  - intros t c' Hc'. destruct (tcbs k !! t) as [c|] eqn:Hc; [|by rewrite (Hnone t Hc) in Hc'].
    destruct (Hfwd t c Hc) as (c'' & H & Hcore & Hst). rewrite H in Hc'. injection Hc' as <-. exists c.
    split_and!; try done. intros Hs. by apply (ki_suspended _ _ Hk t c Hc), Hst.
  - right. rewrite Ec. destruct (Hfwd _ _ Hd) as (d' & Hd' & _). by rewrite Hd'.
Qed.

Lemma pendsv_refines itt k rq :
  kernel_inv k rq ->
  exists k' rq', pendsv_handler k = Done (tt, k') /\ kernel_inv k' rq' /\ ready_effect itt k CPendSV rq rq' /\ stays k rq k' rq'.
Proof.
  intros Hk. destruct (pendsv_spec k rq (kw_sched _ _ (ki_wf _ _ Hk)))
    as (t & k' & rq' & E & Hch & Hw & _ & Eh & _ & _ & En & Ec & Em).
  exists k', rq'. split; [exact E|]. split; [|split; [by exists t|]].
  2: { intros x c Hx Hnl _. split; [by intros ?%(switch_choice_linked_back _ _ _ _ _ Hch)|]. rewrite Em.
       destruct (Z.eqb_spec t NULL) as [|Hne]; [eauto|].
       assert (x <> t) as Hxt by (intros ->; apply Hnl; by eapply switch_choice_linked).
       rewrite !lookup_alter_ne by done. eauto. }
  assert (forall x c', tcbs k' !! x = Some c' -> exists c, tcbs k !! x = Some c /\ same_core c c' /\
    (t_state c' = TASK_SUSPENDED -> t_state c = TASK_SUSPENDED)) as Hback.
  { intros x c' Hx. rewrite Em in Hx. destruct (Z.eqb_spec t NULL); [by exists c'|].
    destruct (decide (x = t)) as [->|Hne].
    - rewrite !lookup_alter_eq in Hx. destruct (tcbs k !! t) as [c|]; [|done]. injection Hx as <-. by exists c.
    - rewrite !lookup_alter_ne in Hx by done. by exists c'. }
  apply (kernel_inv_step k rq); try done.
  - intros x c' Hx. destruct (Hback x c' Hx) as (c & Hc & Hcore & Hst). exists c. split_and!; try done.
    intros Hs Hl. apply (ki_suspended _ _ Hk x c Hc (Hst Hs)). by eapply switch_choice_linked_back.
  - rewrite Ec, Em. destruct (Z.eqb_spec t NULL) as [|Hne].
    + apply Hk.
    + right. apply is_Some_alter, is_Some_alter. eapply linked_tcb; [apply Hk|]. by eapply switch_choice_linked.
Qed.

Lemma boot_inv tda iea h ab :
  heap_inv h ab ->
  exists k rq, scheduler_init tda iea (set_heap h kernel0) = Done (tt, k) /\ kernel_inv k rq /\
    (rq = replicate 33 [] \/ exists t, t <> NULL /\ rq = enqueue 0 t (replicate 33 [])).
Proof.
  intros Hi. unfold scheduler_init. rewrite bind_modify. set (k0 := Kernel _ _ _ _ _ _ _ _ _).
  assert (forall (p : nat) ts, replicate 33 (@nil Z) !! p = Some ts -> ts = []) as Hrep.
  { intros p ts H. by apply lookup_replicate in H as [-> _]. }
  assert (kernel_inv k0 (replicate 33 [])) as Hk.
  { constructor; [constructor| |..]; try done.
    - constructor; cbn; try done.
      + intros p ts Hp. by rewrite (Hrep _ _ Hp).
      + intros p ts Hp. rewrite (Hrep _ _ Hp). split; [constructor|set_solver].
      + intros p q ts us t Hp _ Ht. rewrite (Hrep _ _ Hp) in Ht. set_solver.
    - by exists ab.
    - by left. }
  destruct (create_refines tda 0 k0 (replicate 33 []) iea (Some [105; 100; 108; 101]) 128 NULL TASK_PRIORITY_IDLE Hk)
    as (k & rq & E & Hk' & Hrq & _).
  { unfold call_ok, TASK_PRIORITY_IDLE. lia. }
  exists k, rq. split; [exact E|]. split; [done|]. destruct Hrq as [|(t & Ht & _ & ->)]; [by left|right; by exists t].
Qed.

Lemma start_refines k rq :
  kernel_inv k rq -> (exists t, linked rq t) ->
  exists t k' rq', scheduler_start k = Done (tt, k') /\ kernel_inv k' rq' /\ switch_choice (tcbs k) rq t rq' /\
    current_task k' = t /\ t <> NULL /\ scheduler_running k' = true /\ tick_count k' = 1.
Proof.
  intros Hk [u Hu]. pose proof (kw_sched _ _ (ki_wf _ _ Hk)) as Hwf.
  destruct (find_loop_spec 32 rq k Hwf ltac:(lia)) as (t & tl' & rq' & E & Hw & Hch).
  change (switch_choice (tcbs k) rq t rq') in Hch.
  assert (t <> NULL) as Ht.
  { intros ->. destruct Hch as [(p & ts & ts' & _ & Hts & Hne & _ & Hc & _)|(He & _ & ts & Hts & Ht)].
    - destruct (sw_nodup _ _ _ Hwf _ _ Hts) as [_ Hn0]. apply Hn0. unfold chosen in Hc.
      destruct (List.find _ ts).
      + destruct Hc as [_ (l1 & l2 & -> & _)]. apply elem_of_app. right. left.
      + destruct Hc as [-> _]. by apply hd_in.
    - destruct Hu as (p & us & Hp & Hin). destruct p as [|p].
      + rewrite Hts in Hp. injection Hp as <-. destruct (sw_nodup _ _ _ Hwf _ _ Hts) as [_ Hn0]. apply Hn0.
        rewrite Ht. apply hd_in. intros ->. by apply not_elem_of_nil in Hin.
      + assert (S p < length rq)%nat by (by eapply lookup_lt_Some). rewrite (sw_len _ _ _ Hwf) in *.
        rewrite He in Hp by lia. injection Hp as <-. by apply not_elem_of_nil in Hin. }
  pose proof (switch_choice_linked _ _ _ _ Hch Ht) as Hl. pose proof (linked_tcb _ _ _ _ Hwf Hl) as [c Hc].
  unfold scheduler_start, find_next_task. change (Z.to_nat TASK_PRIORITY_HIGHEST) with 32%nat.
  rewrite (bind_step _ _ _ _ _ E), (proj2 (Z.eqb_neq t NULL) Ht), bind_ret, bind_modify.
  set (k1 := set_current_task t (set_task_list tl' k)).
  rewrite (bind_step _ _ _ _ _ (upd_tcb_Done k1 t _ (mk_is_Some _ _ Hc))), bind_modify.
  eexists t, _, rq'. split; [reflexivity|]. split_and!; try done.
  apply (kernel_inv_step k rq); cbn; try done.
  - by apply wf_alter.
  - intros x c' Hx. destruct (decide (x = t)) as [->|Hne].
    + rewrite lookup_alter_eq, Hc in Hx. injection Hx as <-. by exists c.
    + rewrite lookup_alter_ne in Hx by done. exists c'. split_and!; try done. intros Hs Hlx.
      apply (ki_suspended _ _ Hk x c' Hx Hs). by eapply switch_choice_linked_back.
  - right. by rewrite lookup_alter_eq, Hc.
Qed.

(** ** The queues of a concrete kernel *)

Fixpoint walk (m : gmap Z tcb_t) (fuel : nat) (h t : Z) : list Z :=
  match fuel with
  | O => []
  | S fuel =>
      t :: match m !! t with
           | Some c => if t_next c =? h then [] else walk m fuel h (t_next c)
           | None => []
           end
  end.

Definition queues (k : kernel_t) : list (list Z) :=
  (fun h => if h =? NULL then [] else walk (tcbs k) (S (size (tcbs k))) h h) <$> task_list k.

Lemma walk_dll m fuel h pv t l : dll m pv (t :: l) h -> h ∉ l -> (length l < fuel)%nat -> walk m fuel h t = t :: l.
Proof.
  revert pv t l. induction fuel as [|fuel IH]; intros pv t l Hd Hh Hf; [lia|].
  destruct Hd as [(c & Hc & Hn & Hp) Hd]. cbn [walk]. rewrite Hc, Hn. f_equal. destruct l as [|t' l]; cbn [hd].
  - by rewrite Z.eqb_refl.
  - rewrite (proj2 (Z.eqb_neq t' h)) by (intros ->; apply Hh; left). eapply IH; [exact Hd|set_solver|simpl in Hf; lia].
Qed.

(** The invariant determines the queues, so they can be computed. *)
Lemma queues_eq k rq : sched_wf (task_list k) (tcbs k) rq -> rq = queues k.
Proof.
  intros Hwf. unfold queues. rewrite (sw_heads _ _ _ Hwf). apply list_eq. intros p. rewrite !list_lookup_fmap.
  destruct (rq !! p) as [ts|] eqn:Hp; [|done]. cbn [fmap option_fmap option_map]. f_equal.
  destruct (sw_nodup _ _ _ Hwf _ _ Hp) as [Hnd Hn0]. pose proof (sw_rings _ _ _ Hwf _ _ Hp) as Hr.
  destruct ts as [|t l]; [done|]. cbn [hd]. rewrite (proj2 (Z.eqb_neq t NULL)) by set_solver.
  symmetry. pose proof (ring_length _ _ Hr Hnd) as Hlen. apply NoDup_cons in Hnd as [Ht Hnd].
  eapply walk_dll; [exact Hr|done|]. cbn in Hlen. lia.
Qed.

Lemma kernel_inv_unique k rq rq' : kernel_inv k rq -> sched_wf (task_list k) (tcbs k) rq' -> kernel_inv k rq'.
Proof. intros Hk Hw. rewrite (queues_eq _ _ Hw), <- (queues_eq _ rq) by apply Hk. done. Qed.

Definition run_kernel {A} (m : M kernel_t A) (k : kernel_t) : kernel_t := match m k with Done (_, k) => k | _ => k end.

Lemma run_kernel_Done {A} (m : M kernel_t A) k a k' : m k = Done (a, k') -> run_kernel m k = k'.
Proof. unfold run_kernel. by intros ->. Qed.

(** A kernel with the idle task, two tasks of priority 5 and one of priority 9. *)
Definition demo_boot : kernel_t := run_kernel (scheduler_init 100 200) (set_heap (demo_heap 4096 4096 4) kernel0).
Definition demo_task (p : Z) : sched_call := CCreate 1000 (Some [65]) 128 7 p.
Definition demo_ready : kernel_t :=
  foldl (fun k p => run_kernel (run_call 100 300 (demo_task p)) k) demo_boot [5; 5; 9].
Definition demo_started : kernel_t := run_kernel scheduler_start demo_ready.

Lemma demo_ready_inv : kernel_inv demo_ready (queues demo_ready).
Proof.
  destruct (heap_reachable_inv (demo_heap 4096 4096 4)) as [ab Hi].
  { apply demo_heap_reachable; unfold HEAP_TYPE_2, HEAP_TYPE_5; lia. }
  destruct (boot_inv 100 200 _ ab Hi) as (k & rq & E & Hk & _).
  assert (forall ps k rq, Forall (fun p => 0 <= p) ps -> kernel_inv k rq ->
    exists rq', kernel_inv (foldl (fun k p => run_kernel (run_call 100 300 (demo_task p)) k) k ps) rq') as H.
  { clear. intros ps. induction ps as [|p ps IH]; intros k rq Hps Hk; [by exists rq|]. inversion Hps; subst.
    destruct (create_refines 100 300 k rq 1000 (Some [65]) 128 7 p Hk) as (k' & rq' & E & Hk' & _); [unfold call_ok; lia|].
    cbn [foldl]. unfold demo_task at 2. rewrite (run_kernel_Done _ _ _ _ E). by eapply IH. }
  unfold demo_ready, demo_boot. rewrite (run_kernel_Done _ _ _ _ E).
  destruct (H [5; 5; 9] k rq) as [rq' Hk']; [repeat constructor; lia|done|].
  by rewrite <- (queues_eq _ rq') by apply Hk'.
Qed.

Definition demo_queues : list (list Z) := [4128] :: replicate 4 [] ++ [[4440; 4752]] ++ replicate 3 [] ++ [[5064]] ++ replicate 23 [].

Lemma demo_ready_queues : queues demo_ready = demo_queues.
Proof. vm_compute. reflexivity. Qed.

Lemma demo_started_inv : kernel_inv demo_started demo_queues.
Proof.
  destruct (start_refines demo_ready _ demo_ready_inv) as (t & k' & rq' & E & Hk' & _).
  { exists 5064, 9%nat, [5064]. rewrite demo_ready_queues. split; [done|left]. }
  assert (demo_started = k') as -> by (by unfold demo_started; rewrite (run_kernel_Done _ _ _ _ E)).
  replace demo_queues with rq'; [done|]. rewrite (queues_eq _ rq') by apply Hk'.
  rewrite <- (run_kernel_Done _ _ _ _ E). vm_compute. reflexivity.
Qed.

(** ** The scheduler implements its queues *)

Lemma call_refines tda itt k rq c :
  kernel_inv k rq -> call_ok itt k rq c ->
  exists k' rq', run_call tda itt c k = Done (tt, k') /\ kernel_inv k' rq' /\ ready_effect itt k c rq rq' /\ stays k rq k' rq'.
Proof.
  intros Hk Hok. destruct c.
  - by apply create_refines.
  - by apply delete_refines.
  - by apply (suspend_refines itt).
  - by apply (resume_refines itt).
  - by apply (delay_refines itt).
  - eexists _, rq. split; [reflexivity|]. split; [|split; [done|intros x c Hx; eauto]]. apply (kernel_inv_refl k); try done.
    cbn. apply critical_balance, Hk.
  - destruct (tick_refines itt k rq Hk Hok) as (k' & ? & ? & ?). exists k', rq. done.
  - by apply (pendsv_refines itt).
Qed.

(** C4: the scheduler refines the queues its intrusive lists stand for.  From any
    kernel with the invariant, every call whose caller respects [call_ok] returns,
    keeps the invariant (every list circular and doubly linked, a task in at most
    one list, the list of its priority; control blocks and stacks live heap blocks
    that do not overlap) and performs exactly the queue operation [ready_effect]:
    a created or resumed task goes to the tail of its priority, a deleted or
    suspended task leaves its list, [task_delay] removes the running task only
    when it is the head of its list, a tick changes no queue, and a context switch
    rotates the list of the chosen task.  [scheduler_init] establishes it. *)
Theorem scheduler_refines tda iea itt :
  (forall h ab, heap_inv h ab ->
     exists k rq, scheduler_init tda iea (set_heap h kernel0) = Done (tt, k) /\ kernel_inv k rq /\
       (rq = replicate 33 [] \/ exists t, t <> NULL /\ rq = enqueue 0 t (replicate 33 []))) /\
  (forall k rq c, kernel_inv k rq -> call_ok itt k rq c ->
     exists k' rq', run_call tda itt c k = Done (tt, k') /\ kernel_inv k' rq' /\ ready_effect itt k c rq rq').
Proof.
  split; [intros; by eapply boot_inv|]. intros k rq c Hk Hok.
  destruct (call_refines tda itt k rq c Hk Hok) as (k' & rq' & ? & ? & ? & _). eauto.
Qed.

Lemma scheduler_refines_witness :
  exists k', run_call 100 300 (CSuspend 4440) demo_started = Done (tt, k') /\
    kernel_inv k' (<[5%nat := [4752]]> demo_queues).
Proof.
  destruct (scheduler_refines 100 200 300) as [_ H].
  destruct (H demo_started demo_queues (CSuspend 4440) demo_started_inv) as (k' & rq' & E & Hk' & Hrq).
  { right. eexists. split; [vm_compute; reflexivity|]. right. exists 5%nat, [4440; 4752]. split; [done|left]. }
  exists k'. split; [exact E|]. assert (rq' = <[5%nat := [4752]]> demo_queues) as <- by (rewrite Hrq; vm_compute; reflexivity).
  exact Hk'.
Defined.

(** ** The tick *)

Lemma preempt_ring_null fuel h pv t l k :
  dll (tcbs k) pv (t :: l) h -> tcbs k !! NULL = None -> current_task k = NULL -> h ∉ l -> (length l < fuel)%nat ->
  (exists x c, x ∈ t :: l /\ tcbs k !! x = Some c /\ t_state c = TASK_READY) ->
  preempt_ring fuel h t k = UB.
Proof.
  revert pv t l. induction fuel as [|fuel IH]; intros pv t l Hd Hn Hcur Hh Hf (x & cx & Hx & Hcx & Hst); [lia|].
  destruct Hd as [(c & Hc & Hnx & Hp) Hd]. cbn [preempt_ring].
  rewrite (bind_step _ _ _ _ _ (tcb_Done k _ _ Hc)). unfold task_get_current. rewrite bind_gets, Hcur.
  assert (t <> NULL) as Ht by congruence. rewrite (proj2 (Z.eqb_neq t NULL) Ht). cbn [negb].
  destruct (decide (t_state c = TASK_READY)) as [Hr|Hr].
  - rewrite bool_decide_true by done. cbn [andb]. unfold mbind, M_bind, tcb at 1. by rewrite Hn.
  - rewrite bool_decide_false by done. cbn [andb]. rewrite bind_ret, Hnx. destruct l as [|t' l]; cbn [hd].
    + apply list_elem_of_singleton in Hx as ->. congruence.
    + rewrite (proj2 (Z.eqb_neq t' h)) by (intros ->; apply Hh; left).
      eapply IH; [exact Hd|done|done|set_solver|simpl in Hf; lia|]. exists x, cx. split; [|done].
      apply elem_of_cons in Hx as [->|Hx]; [congruence|done].
Qed.

Lemma preempt_lists_null n rq k p ts :
  sched_wf (task_list k) (tcbs k) rq -> tcbs k !! NULL = None -> current_task k = NULL ->
  (1 <= p <= n)%nat -> (n < 33)%nat -> rq !! p = Some ts -> (forall q, (p < q <= n)%nat -> rq !! q = Some []) ->
  (exists x c, x ∈ ts /\ tcbs k !! x = Some c /\ t_state c = TASK_READY) ->
  preempt_lists n k = UB.
Proof.
  intros Hwf Hn0 Hcur Hp Hn Hts Hempty Hx. induction n as [|n IH]; [lia|]. cbn [preempt_lists].
  destruct (decide (p = S n)) as [->|Hne].
  - destruct (wf_head_at _ _ _ _ _ Hwf Hts) as [Hh Hpb]. rewrite <- (Nat2Z.id (S n)) in Hh.
    rewrite (bind_step _ _ _ _ _ (list_head_Done k _ _ Hpb Hh)).
    destruct (sw_nodup _ _ _ Hwf _ _ Hts) as [Hnd Hnull]. rewrite truthy_head by done.
    pose proof (sw_rings _ _ _ Hwf _ _ Hts) as Hr.
    destruct ts as [|t l]; [by destruct Hx as (x & _ & Hx%not_elem_of_nil & _)|].
    rewrite bind_gets. unfold mbind, M_bind. cbn [hd]. pose proof (ring_length _ _ Hr Hnd) as Hlen.
    apply NoDup_cons in Hnd as [Ht _].
    erewrite preempt_ring_null; [done|exact Hr|done|done|done|unfold ring_fuel; cbn in Hlen; lia|exact Hx].
  - assert (rq !! S n = Some []) as He by (apply Hempty; lia).
    destruct (wf_head_at _ _ _ _ _ Hwf He) as [Hh Hpb]. rewrite <- (Nat2Z.id (S n)) in Hh.
    rewrite (bind_step _ _ _ _ _ (list_head_Done k _ _ Hpb Hh)). apply IH; [lia|lia|].
    intros q Hq. apply Hempty. lia.
Qed.

(** In a running scheduler the tick handler returns, advances the tick count and
    the current task's run time by one, counts every blocked task that is in a ready
    list down by one and makes it READY (its block object cleared) when its count
    reaches zero, leaves tasks outside the lists alone, and requests a context switch exactly
    when one was pending already or some READY task of a higher priority than
    the current one is in a list.  If the current task was deleted (no current task) and
    the highest non-empty list has a READY task, it dereferences a null pointer. *)
Theorem tick_handler_correct k rq :
  kernel_inv k rq -> scheduler_running k = true ->
  (forall d, tcbs k !! current_task k = Some d ->
     exists k', scheduler_tick_handler k = Done (tt, k') /\ kernel_inv k' rq /\ tick_count k' = tick_count k +32 1 /\
       current_task k' = current_task k /\
       (forall t c, tcbs k !! t = Some c ->
          let c := if t =? current_task k then set_t_runtime_ticks (t_runtime_ticks c +32 1) c else c in
          (linked rq t -> tcbs k' !! t = Some (tick_task c)) /\ (~ linked rq t -> tcbs k' !! t = Some c)) /\
       (context_switch_pending k' = true <-> context_switch_pending k = true \/
          exists p ts t c, (1 <= p <= 32)%nat /\ rq !! p = Some ts /\ t ∈ ts /\ tcbs k' !! t = Some c /\
            t_state c = TASK_READY /\ t <> current_task k /\ t_priority d < t_priority c)) /\
  (forall p ts t c, current_task k = NULL -> (1 <= p <= 32)%nat -> rq !! p = Some ts ->
     (forall q, (p < q <= 32)%nat -> rq !! q = Some []) -> t ∈ ts -> tcbs k !! t = Some c ->
     t_state (tick_task c) = TASK_READY -> scheduler_tick_handler k = UB).
Proof.
  intros Hk Hrun. pose proof (kw_sched _ _ (ki_wf _ _ Hk)) as Hwf.
  assert (tcbs k !! NULL = None) as Hn0.
  { destruct (tcbs k !! NULL) as [c|] eqn:E; [|done]. by destruct (kw_own _ _ (ki_wf _ _ Hk) _ _ E) as [? _]. }
  split.
  - intros d Hd. assert (current_task k <> NULL) as Hcur by congruence.
    destruct (tick_refines 0 k rq Hk (fun _ => Hcur)) as (k' & E & Hk' & _).
    destruct (tick_handler_spec k rq d Hwf Hrun Hcur Hd) as (k2 & E' & _ & _ & _ & Hc & Htk & _ & _ & Hall & _ & Hpend).
    rewrite E in E'. injection E' as <-. exists k'. split_and!; try done.
    destruct (Hall _ _ Hd) as [H1 H2]. rewrite Z.eqb_refl in H1, H2.
    assert (exists d', tcbs k' !! current_task k = Some d' /\ t_priority d' = t_priority d) as (d' & Hd' & Hpr).
    { destruct (linked_dec rq (current_task k)) as [Hl|Hl]; [rewrite (H1 Hl)|rewrite (H2 Hl)]; eexists; (split; [done|]); [|done].
      match goal with |- t_priority (tick_task ?c) = _ => destruct (tick_task_links c) as (_ & _ & ->) end. done. }
    rewrite (Hpend d' Hd'). split; (intros [?|Hx]; [by left|right]).
    + destruct Hx as (p & ts & t & Hp & Hts & Hin & Hpre). unfold preempts in Hpre.
      destruct (tcbs k' !! t) as [c|] eqn:Hct; [|done]. apply andb_true_iff in Hpre as [[Hs Hne]%andb_true_iff Hlt].
      exists p, ts, t, c. apply bool_decide_eq_true in Hs.
      split_and!; try done; lia.
    + destruct Hx as (p & ts & t & c & Hp & Hts & Hin & Hct & Hs & Hne & Hlt). exists p, ts, t. split_and!; try done; try lia.
      unfold preempts. rewrite Hct, bool_decide_true, (proj2 (Z.eqb_neq _ _) Hne) by done. cbn. apply Z.ltb_lt. lia.
  - intros p ts t c Hcur Hp Hts He Hin Hct Hst. unfold scheduler_tick_handler. rewrite bind_gets, Hrun. cbn [negb].
    rewrite bind_modify. unfold task_get_current. rewrite bind_gets. set (k1 := set_tick_count (tick_count k +32 1) k).
    change (current_task k1) with (current_task k). rewrite Hcur. change (truthy NULL) with false. cbn [when]. rewrite bind_ret.
    change (Z.to_nat TASK_PRIORITY_MAX) with 33%nat. change 0 with (Z.of_nat 0) at 1.
    rewrite (bind_step _ _ _ _ _ (tick_lists_spec 33 0 rq k1 Hwf eq_refl)), drop_0.
    set (m2 := foldl (fun m ts => tick_all ts m) (tcbs k1) rq).
    assert (forall x, (linked rq x -> m2 !! x = tick_task <$> tcbs k !! x) /\ (~ linked rq x -> m2 !! x = tcbs k !! x)) as Hm2.
    { intros x. apply lookup_tick_lists.
      - intros us Hus. apply list_elem_of_lookup_1 in Hus as [i Hi]. by eapply (sw_nodup _ _ _ Hwf).
      - intros. by eapply (sw_disj _ _ _ Hwf). }
    change (Z.to_nat TASK_PRIORITY_HIGHEST) with 32%nat. apply (preempt_lists_null 32 rq (set_tcbs m2 k1) p ts); try done.
    + eapply wf_fields; [exact Hwf|]. intros x cx Hl Hc. destruct (Hm2 x) as [H _]. exists (tick_task cx).
      split; [cbn; by rewrite (H Hl), Hc|]. apply tick_task_links.
    + cbn. destruct (Hm2 NULL) as [H1 H2]. destruct (linked_dec rq NULL) as [Hl|Hl]; [by rewrite (H1 Hl), Hn0|by rewrite (H2 Hl)].
    + lia.
    + exists t, (tick_task c). split; [done|]. destruct (Hm2 t) as [H1 _]. cbn. rewrite H1 by (by exists p, ts). by rewrite Hct.
Qed.

Lemma tick_handler_correct_witness :
  (exists k', scheduler_tick_handler demo_started = Done (tt, k') /\ tick_count k' = 2) /\
  scheduler_tick_handler (run_kernel (task_delete 300 5064) demo_started) = UB.
Proof.
  split.
  - destruct (tick_handler_correct demo_started demo_queues demo_started_inv ltac:(vm_compute; reflexivity)) as [H _].
    destruct (tcbs demo_started !! current_task demo_started) as [d|] eqn:Hd; [|vm_compute in Hd; discriminate].
    destruct (H d eq_refl) as (k' & E & _ & Htk & _). exists k'. split; [exact E|]. rewrite Htk. vm_compute. reflexivity.
  - destruct (call_refines 100 300 demo_started demo_queues (CDelete 5064) demo_started_inv) as (k' & rq' & E & Hk' & Hrq & _).
    { right; right. exists 9%nat, [5064]. split; [done|left]. }
    change (task_delete 300 5064) with (run_call 100 300 (CDelete 5064)). apply run_kernel_Done in E. subst k'.
    destruct (tick_handler_correct _ rq' Hk' ltac:(vm_compute; reflexivity)) as [_ H].
    assert (rq' = <[9%nat := []]> demo_queues) as Erq by (rewrite Hrq; vm_compute; reflexivity). clear Hrq.
    destruct (tcbs (run_kernel (run_call 100 300 (CDelete 5064)) demo_started) !! 4440) as [c|] eqn:Hc; [|vm_compute in Hc; discriminate].
    apply (H 5%nat [4440; 4752] 4440 c).
    + vm_compute. reflexivity.
    + lia.
    + by rewrite Erq.
    + intros q Hq. rewrite Erq. do 33 (destruct q as [|q]; [first [lia|reflexivity]|]). lia.
    + left.
    + exact Hc.
    + assert (t_state <$> tcbs (run_kernel (run_call 100 300 (CDelete 5064)) demo_started) !! 4440 = Some TASK_READY) as Hs
        by (vm_compute; reflexivity).
      rewrite Hc in Hs. injection Hs as Hs. unfold tick_task. by rewrite Hs.
Defined.

(** ** Context switches *)

(** The context switch dispatches from the highest priority above idle that has a list:
    the first task, in list order, that is READY and either has run-time left in
    its slice or is the head; the list is rotated to start after it.  When no task qualifies
    the head is dispatched whatever its state is, a sleeping one included.  With
    every list above idle empty the head of the idle list is dispatched.  The dispatched task
    becomes RUNNING with its run time reset; no other control block changes, so the
    task it replaces is not made READY again. *)
Theorem context_switch_correct k rq :
  kernel_inv k rq ->
  exists t k' rq', pendsv_handler k = Done (tt, k') /\ kernel_inv k' rq' /\
    ((exists p ts, (1 <= p <= 32)%nat /\ rq !! p = Some ts /\ ts <> [] /\
        (forall q, (p < q <= 32)%nat -> rq !! q = Some []) /\
        ((exists l1 l2, ts = l1 ++ t :: l2 /\ rq' = <[p := l2 ++ l1 ++ [t]]> rq /\
            eligible (tcbs k) (hd NULL ts) t = true /\ forall x, x ∈ l1 -> eligible (tcbs k) (hd NULL ts) x = false) \/
         (t = hd NULL ts /\ rq' = rq /\ forall x, x ∈ ts -> eligible (tcbs k) (hd NULL ts) x = false))) \/
     ((forall q, (1 <= q <= 32)%nat -> rq !! q = Some []) /\ rq' = rq /\ rq !! 0%nat <> None /\
      t = hd NULL (default [] (rq !! 0%nat)))) /\
    current_task k' = (if t =? NULL then current_task k else t) /\
    (forall c, tcbs k !! t = Some c -> tcbs k' !! t = Some (set_t_state TASK_RUNNING (set_t_runtime_ticks 0 c))) /\
    (forall x, x <> t -> tcbs k' !! x = tcbs k !! x).
Proof.
  intros Hk. pose proof (kw_sched _ _ (ki_wf _ _ Hk)) as Hwf. destruct (pendsv_spec k rq Hwf)
    as (t & k' & rq' & E & Hch & Hw & _ & _ & _ & _ & _ & Ec & Em).
  destruct (pendsv_refines 0 k rq Hk) as (k2 & rq2 & E2 & Hk2 & _). rewrite E in E2. injection E2 as <-.
  apply (kernel_inv_unique _ _ rq') in Hk2; [|done].
  exists t, k', rq'. split; [exact E|]. split; [exact Hk2|]. split; [|split; [exact Ec|split]].
  - destruct Hch as [(p & ts & ts' & Hp & Hts & Hne & He & Hc & ->)|(He & -> & ts & Hts & ->)].
    + left. exists p, ts. split_and!; try done; try lia. unfold chosen in Hc.
      destruct (List.find _ ts) as [c|] eqn:Hf.
      * left. destruct Hc as [-> (l1 & l2 & Ets & ->)]. exists l1, l2. split_and!; try done.
        { by apply find_some in Hf as [_ ?]. }
        intros x Hx. destruct (sw_nodup _ _ _ Hwf _ _ Hts) as [Hnd _].
        revert Hf. rewrite Ets at 2. rewrite Ets in Hnd. set (f := eligible _ _). clearbody f. clear -Hx Hnd.
        induction l1 as [|y l1 IH]; [by apply not_elem_of_nil in Hx|]. cbn. destruct (f y) eqn:Ey.
        { intros [= ->]. apply NoDup_cons in Hnd as [Hn _]. exfalso. apply Hn. apply elem_of_app. right. left. }
        intros Hf. apply elem_of_cons in Hx as [->|Hx]; [done|]. apply NoDup_cons in Hnd as [_ Hnd]. by apply IH.
      * right. destruct Hc as [-> ->]. split_and!; [done|by apply list_insert_id|].
        intros x Hx. eapply find_none; [exact Hf|by apply list_elem_of_In].
    + right. by rewrite Hts.
  - intros c Hc. rewrite Em. assert (t <> NULL) as Ht.
    { intros ->. by destruct (kw_own _ _ (ki_wf _ _ Hk) _ _ Hc) as [? _]. }
    rewrite (proj2 (Z.eqb_neq t NULL) Ht). by rewrite !lookup_alter_eq, Hc.
  - intros x Hx. rewrite Em. destruct (t =? NULL); [done|]. by rewrite !lookup_alter_ne.
Qed.

Lemma context_switch_correct_witness :
  exists k', pendsv_handler (run_kernel (task_delay 7) demo_started) = Done (tt, k') /\ current_task k' = 4440.
Proof.
  destruct (call_refines 100 300 demo_started demo_queues (CDelay 7) demo_started_inv) as (k1 & rq1 & E1 & Hk1 & _).
  { right. split; [lia|]. exists 9%nat, [5064]. split; [done|]. vm_compute. left. }
  apply run_kernel_Done in E1. change (run_call 100 300 (CDelay 7)) with (task_delay 7) in E1. subst k1.
  destruct (context_switch_correct _ _ Hk1) as (t & k' & rq' & E & _). exists k'. split; [exact E|].
  apply run_kernel_Done in E. rewrite <- E. vm_compute. reflexivity.
Defined.

(** ** Sequences of calls *)

Fixpoint run_calls (tda itt : Z) (cs : list sched_call) : M kernel_t unit :=
  match cs with
  | [] => mret tt
  | c :: cs => run_call tda itt c;; run_calls tda itt cs
  end.

(** The callers of a sequence respect [call_ok] at every step. *)
Fixpoint calls_ok (tda itt : Z) (cs : list sched_call) (k : kernel_t) : Prop :=
  match cs with
  | [] => True
  | c :: cs => call_ok itt k (queues k) c /\ calls_ok tda itt cs (run_kernel (run_call tda itt c) k)
  end.

Lemma calls_inv tda itt cs k :
  kernel_inv k (queues k) -> calls_ok tda itt cs k ->
  exists k', run_calls tda itt cs k = Done (tt, k') /\ kernel_inv k' (queues k').
Proof.
  revert k. induction cs as [|c cs IH]; intros k Hk Hok; [by exists k|]. destruct Hok as [Hok Hoks].
  destruct (call_refines tda itt k _ c Hk Hok) as (k1 & rq1 & E & Hk1 & _).
  rewrite (run_kernel_Done _ _ _ _ E) in Hoks. rewrite (queues_eq _ rq1) in Hk1 by apply Hk1.
  destruct (IH k1 Hk1 Hoks) as (k' & E' & Hk'). exists k'. cbn [run_calls]. by rewrite (bind_step _ _ _ _ _ E).
Qed.

Definition interrupt (c : sched_call) : bool :=
  match c with CTick | CPendSV | CYield => true | _ => false end.
Definition is_switch (c : sched_call) : bool := match c with CPendSV => true | _ => false end.

(** The highest list is [h :: l] at priority [p], and all its tasks are RUNNING. *)
Definition all_running (k : kernel_t) (rq : list (list Z)) (p : nat) (h : Z) (l : list Z) : Prop :=
  kernel_inv k rq /\ (1 <= p <= 32)%nat /\ rq !! p = Some (h :: l) /\
  (forall q, (p < q <= 32)%nat -> rq !! q = Some []) /\
  current_task k <> NULL /\
  forall x, x ∈ h :: l -> exists c, tcbs k !! x = Some c /\ t_state c = TASK_RUNNING.

Lemma all_running_call tda itt k rq p h l c :
  all_running k rq p h l -> interrupt c = true ->
  exists k', run_call tda itt c k = Done (tt, k') /\ all_running k' rq p h l /\
    current_task k' = if is_switch c then h else current_task k.
Proof.
  intros (Hk & Hp & Hts & He & Hcur & Hall) Hint. pose proof (kw_sched _ _ (ki_wf _ _ Hk)) as Hwf.
  destruct c; try done; cbn [run_call is_switch].
  - eexists. split; [reflexivity|]. split; [|done]. split_and!; try done; try lia.
    apply (kernel_inv_refl k); try done. cbn. apply critical_balance, Hk.
  - destruct (tick_refines itt k rq Hk (fun _ => Hcur)) as (k' & E & Hk' & _).
    destruct (scheduler_running k) eqn:Hrun.
    2: { revert E. unfold scheduler_tick_handler. rewrite bind_gets, Hrun. cbn [negb]. intros [= <-].
         by exists k. }
    destruct (ki_current _ _ Hk) as [?|[d Hd]]; [done|].
    destruct (tick_handler_spec k rq d Hwf Hrun Hcur Hd) as (k2 & E' & _ & _ & _ & Ec & _ & _ & _ & Hst & _).
    rewrite E in E'. injection E' as <-. exists k'. split; [done|]. split; [|done]. split_and!; try done; try lia.
    intros x Hx. destruct (Hall x Hx) as (c & Hc & Hr). destruct (Hst x c Hc) as [H1 _].
    rewrite H1 by (by exists p, (h :: l)). eexists. split; [done|].
    set (c1 := if x =? current_task k then _ else c). assert (t_state c1 = TASK_RUNNING) as H by (unfold c1; by destruct (x =? _)).
    unfold tick_task. by rewrite bool_decide_false by congruence.
  - destruct (pendsv_spec k rq Hwf) as (t & k' & rq' & E & Hch & Hw & _ & _ & _ & _ & _ & Ec & Em).
    destruct (pendsv_refines itt k rq Hk) as (k2 & rq2 & E2 & Hk2 & _). rewrite E in E2. injection E2 as <-.
    apply (kernel_inv_unique _ _ rq') in Hk2; [|done].
    assert (forall x, x ∈ h :: l -> eligible (tcbs k) h x = false) as Hno.
    { intros x Hx. unfold eligible. destruct (Hall x Hx) as (c & -> & Hr). by rewrite bool_decide_false by congruence. }
    assert (h <> NULL) as Hh by (destruct (sw_nodup _ _ _ Hwf _ _ Hts) as [_ Hn]; intros ->; apply Hn; left).
    assert (t = h /\ rq' = rq) as [-> ->].
    { destruct Hch as [(q & us & us' & Hq & Hus & Hne & He' & Hc & ->)|(He' & _)].
      - assert (q = p) as ->.
        { destruct (Nat.lt_trichotomy q p) as [Hlt|[?|Hlt]]; [|done|].
          - rewrite He' in Hts by lia. done.
          - rewrite He in Hus by lia. by injection Hus as <-. }
        rewrite Hts in Hus. injection Hus as <-. unfold chosen in Hc. cbn [hd] in Hc.
        destruct (List.find _ _) as [y|] eqn:Hf.
        + apply find_some in Hf as [Hy Hel]. apply list_elem_of_In in Hy. by rewrite Hno in Hel.
        + destruct Hc as [-> ->]. split; [done|]. by apply list_insert_id.
      - rewrite He' in Hts by lia. done. }
    rewrite (proj2 (Z.eqb_neq h NULL) Hh) in Ec, Em.
    exists k'. split; [done|]. split; [|done]. split_and!; try done; try lia.
    intros x Hx. destruct (Hall x Hx) as (c & Hc & Hr). rewrite Em. destruct (decide (x = h)) as [->|Hne].
    + rewrite !lookup_alter_eq, Hc. eexists. split; [done|]. done.
    + rewrite !lookup_alter_ne by done. eauto.
Qed.

(** Tasks of equal priority do not share the processor beyond their first slice: once
    every task of the highest list has been dispatched, and so is RUNNING, any sequence of
    ticks, yields and context switches leaves the queues as they are and every switch
    in it dispatches the head of that list, so the other tasks of the priority never run again. *)
Theorem round_robin_starves tda itt k rq p h l cs :
  all_running k rq p h l -> forallb interrupt cs = true ->
  exists k', run_calls tda itt cs k = Done (tt, k') /\ all_running k' rq p h l /\
    current_task k' = if existsb is_switch cs then h else current_task k.
Proof.
  revert k. induction cs as [|c cs IH]; intros k Ha Hcs; [by exists k|].
  cbn [forallb] in Hcs. apply andb_true_iff in Hcs as [Hc Hcs].
  destruct (all_running_call tda itt k rq p h l c Ha Hc) as (k1 & E1 & Ha1 & Ec1).
  destruct (IH k1 Ha1 Hcs) as (k' & E & Ha' & Ec). exists k'. cbn [run_calls existsb].
  rewrite (bind_step _ _ _ _ _ E1). split; [done|]. split; [done|]. rewrite Ec, Ec1.
  destruct (is_switch c), (existsb is_switch cs); done.
Qed.

(** The task of priority 9 asleep, and both tasks of priority 5 dispatched once. *)
Definition demo_rr : kernel_t := run_kernel (run_calls 100 300 [CDelay 7; CPendSV; CPendSV]) demo_started.

Lemma demo_rr_inv : kernel_inv demo_rr (queues demo_rr).
Proof.
  destruct (calls_inv 100 300 [CDelay 7; CPendSV; CPendSV] demo_started) as (k' & E & Hk').
  - rewrite <- (queues_eq _ demo_queues) by apply demo_started_inv. apply demo_started_inv.
  - split; [|done]. right. split; [lia|]. exists 9%nat, [5064]. split; [vm_compute; reflexivity|vm_compute; left].
  - unfold demo_rr. by rewrite (run_kernel_Done _ _ _ _ E).
Qed.

Lemma round_robin_starves_witness :
  exists k', run_calls 100 300 [CTick; CPendSV; CTick; CYield; CPendSV] demo_rr = Done (tt, k') /\ current_task k' = 4440.
Proof.
  destruct (round_robin_starves 100 300 demo_rr (queues demo_rr) 5 4440 [4752] [CTick; CPendSV; CTick; CYield; CPendSV])
    as (k' & E & _ & Ec); [|done|].
  - split; [exact demo_rr_inv|]. split; [lia|]. split; [vm_compute; reflexivity|]. split; [|split; [vm_compute; discriminate|]].
    + intros q Hq. do 33 (destruct q as [|q]; [first [lia|vm_compute; reflexivity]|]). lia.
    + intros x Hx. apply elem_of_cons in Hx as [->|Hx]; [|apply list_elem_of_singleton in Hx as ->];
        (eexists; split; [vm_compute; reflexivity|reflexivity]).
  - exists k'. split; [exact E|]. rewrite Ec. reflexivity.
Defined.

(** ** Sleeping *)

Lemma switch_choice_linked_fwd m rq t rq' x : switch_choice m rq t rq' -> linked rq x -> linked rq' x.
Proof.
  intros [(p & ts & ts' & Hp & Hts & _ & _ & Hch & ->)|(_ & -> & _)] Hl; [|done].
  destruct Hl as (q & us & Hq & Hin). destruct (decide (q = p)) as [->|Hne].
  - exists p, ts'. rewrite list_lookup_insert_eq by (by eapply lookup_lt_Some). split; [done|].
    rewrite Hts in Hq. injection Hq as <-. unfold chosen in Hch. destruct (List.find _ ts).
    + destruct Hch as [_ (l1 & l2 & -> & ->)]. revert Hin. rewrite !elem_of_app, !elem_of_cons. tauto.
    + by destruct Hch as [_ ->].
  - exists q, us. by rewrite list_lookup_insert_ne.
Qed.

(** [t] is in a list, blocked with [m] ticks to go, or READY once [m] is 0. *)
Definition asleep (k : kernel_t) (rq : list (list Z)) (t m : Z) : Prop :=
  kernel_inv k rq /\ scheduler_running k = true /\ current_task k <> NULL /\ linked rq t /\
  exists c, tcbs k !! t = Some c /\ t_ticks_remaining c = m /\ 0 <= m < 4294967296 /\
    t_state c = if 0 <? m then TASK_BLOCKED else TASK_READY.

Definition is_tick (c : sched_call) : bool := match c with CTick => true | _ => false end.
Definition tick_calls (cs : list sched_call) : Z := Z.of_nat (length (List.filter is_tick cs)).

(** Some switch of the sequence dispatches [t]. *)
Fixpoint dispatches (tda itt t : Z) (cs : list sched_call) (k : kernel_t) : bool :=
  match cs with
  | [] => false
  | c :: cs =>
      let k' := run_kernel (run_call tda itt c) k in
      (is_switch c && (current_task k' =? t)) || dispatches tda itt t cs k'
  end.

Lemma asleep_tick c m :
  t_ticks_remaining c = m -> 0 <= m < 4294967296 -> (t_state c = if 0 <? m then TASK_BLOCKED else TASK_READY) ->
  t_ticks_remaining (tick_task c) = Z.max 0 (m - 1) /\
  t_state (tick_task c) = if 0 <? Z.max 0 (m - 1) then TASK_BLOCKED else TASK_READY.
Proof.
  intros Hm Hr Hs. unfold tick_task. rewrite Hs, Hm. destruct (Z.ltb_spec 0 m) as [Hp|Hp].
  - rewrite bool_decide_true by done. cbn -[u32]. rewrite u32_small by lia. destruct (Z.eqb_spec (m - 1) 0); cbn.
    + split; [lia|]. by rewrite (proj2 (Z.ltb_ge 0 _)) by lia.
    + split; [lia|]. by rewrite (proj2 (Z.ltb_lt 0 _)) by lia.
  - rewrite andb_false_r, Hm, Hs. split; [lia|]. by rewrite (proj2 (Z.ltb_ge 0 _)) by lia.
Qed.

Lemma asleep_call tda itt k rq t m c :
  asleep k rq t m -> interrupt c = true ->
  exists k', run_call tda itt c k = Done (tt, k') /\
    (is_switch c && (current_task k' =? t) = false ->
     exists rq', asleep k' rq' t (if is_tick c then Z.max 0 (m - 1) else m)).
Proof.
  intros (Hk & Hrun & Hcur & Hl & d & Hd & Hm & Hr & Hs) Hint. pose proof (kw_sched _ _ (ki_wf _ _ Hk)) as Hwf.
  destruct c; try done; cbn [run_call is_switch is_tick andb].
  - eexists. split; [reflexivity|]. intros _. exists rq. split; [|by eauto 10].
    apply (kernel_inv_refl k); try done. cbn. apply critical_balance, Hk.
  - destruct (tick_refines itt k rq Hk (fun _ => Hcur)) as (k' & E & Hk' & _).
    destruct (ki_current _ _ Hk) as [?|[e He]]; [done|].
    destruct (tick_handler_spec k rq e Hwf Hrun Hcur He) as (k2 & E' & _ & _ & _ & Ec & _ & Er & _ & Hst & _).
    rewrite E in E'. injection E' as <-. exists k'. split; [done|]. intros _. exists rq.
    destruct (Hst t d Hd) as [H1 _]. specialize (H1 Hl). set (d1 := if t =? current_task k then _ else d) in H1.
    assert (t_ticks_remaining d1 = m /\ t_state d1 = t_state d) as [Hm1 Hs1] by (unfold d1; by destruct (t =? _)).
    destruct (asleep_tick d1 m Hm1 Hr) as [A B]; [congruence|].
    split; [done|]. split; [done|]. split; [congruence|]. split; [done|]. exists (tick_task d1). split_and!; try done; lia.
  - destruct (pendsv_spec k rq Hwf) as (u & k' & rq' & E & Hch & Hw & _ & _ & _ & Er & _ & Ec & Em).
    destruct (pendsv_refines itt k rq Hk) as (k2 & rq2 & E2 & Hk2 & _). rewrite E in E2. injection E2 as <-.
    apply (kernel_inv_unique _ _ rq') in Hk2; [|done]. exists k'. split; [done|]. intros Hne. exists rq'.
    split; [done|]. split; [congruence|]. split; [rewrite Ec; by destruct (Z.eqb_spec u NULL)|].
    split; [by eapply switch_choice_linked_fwd|]. exists d. split; [|done]. rewrite Em, Ec in *.
    destruct (u =? NULL); [done|]. apply Z.eqb_neq in Hne. by rewrite !lookup_alter_ne.
Qed.

Lemma asleep_calls tda itt k rq t m cs :
  asleep k rq t m -> forallb interrupt cs = true -> dispatches tda itt t cs k = false ->
  exists k' rq', run_calls tda itt cs k = Done (tt, k') /\ asleep k' rq' t (Z.max 0 (m - tick_calls cs)).
Proof.
  revert k rq m. induction cs as [|c cs IH]; intros k rq m Ha Hint Hnd.
  - exists k, rq. split; [done|]. replace (Z.max 0 _) with m; [done|].
    destruct Ha as (_ & _ & _ & _ & _ & _ & _ & ? & _). unfold tick_calls. cbn. lia.
  - cbn [forallb] in Hint. apply andb_true_iff in Hint as [Hc Hcs].
    destruct (asleep_call tda itt k rq t m c Ha Hc) as (k1 & E & H). cbn [dispatches] in Hnd.
    rewrite (run_kernel_Done _ _ _ _ E) in Hnd. apply orb_false_iff in Hnd as [Hn Hnd].
    destruct (H Hn) as [rq1 Ha1]. destruct (IH k1 rq1 _ Ha1 Hcs Hnd) as (k' & rq' & E' & Ha'). exists k', rq'.
    cbn [run_calls]. rewrite (bind_step _ _ _ _ _ E). split; [done|].
    replace (Z.max 0 (m - tick_calls (c :: cs)))
      with (Z.max 0 ((if is_tick c then Z.max 0 (m - 1) else m) - tick_calls cs)); [done|].
    unfold tick_calls. cbn [List.filter]. destruct (is_tick c); cbn [length]; lia.
Qed.

(** C37: a task that is not the head of its ready list and calls [task_delay n], 0 < n <
    2^32, stays linked, BLOCKED with n ticks to go; after any sequence of ticks,
    yields and context switches that does not dispatch it, it has max(0, n - ticks)
    ticks to go, is still BLOCKED before the n-th tick and READY from the n-th on. *)
Theorem task_delay_wakes tda itt k rq p l1 l2 n :
  kernel_inv k rq -> scheduler_running k = true -> rq !! p = Some (l1 ++ current_task k :: l2) -> l1 <> [] ->
  0 < n < 4294967296 ->
  exists k0, task_delay n k = Done (tt, k0) /\ kernel_inv k0 rq /\ context_switch_pending k0 = true /\
    forall cs, forallb interrupt cs = true -> dispatches tda itt (current_task k) cs k0 = false ->
      exists k' rq' c, run_calls tda itt cs k0 = Done (tt, k') /\ kernel_inv k' rq' /\ linked rq' (current_task k) /\
        tcbs k' !! current_task k = Some c /\ t_ticks_remaining c = Z.max 0 (n - tick_calls cs) /\
        t_state c = if tick_calls cs <? n then TASK_BLOCKED else TASK_READY.
Proof.
  intros Hk Hrun Hp Hl1 Hn. pose proof (kw_sched _ _ (ki_wf _ _ Hk)) as Hwf. set (t := current_task k) in *.
  assert (linked rq t) as Hl by (exists p, (l1 ++ t :: l2); split; [done|apply elem_of_app; right; left]).
  destruct (linked_tcb _ _ _ _ Hwf Hl) as [c Hc].
  destruct (task_delay_spec k rq p l1 t l2 c n Hwf Hp eq_refl Hc Hn (ki_nesting _ _ Hk))
    as (k0 & E & Hw & Ht' & (_ & Ec & _ & Er & _) & Hpend & _).
  destruct (delay_refines 0 k rq n Hk) as (k2 & rq2 & E2 & Hk2 & _); [right; by split|].
  rewrite E in E2. injection E2 as <-. rewrite decide_False in Hw by done. rewrite list_insert_id in Hw by done.
  apply (kernel_inv_unique _ _ rq) in Hk2; [|done]. exists k0. split_and!; try done. intros cs Hint Hnd.
  destruct (asleep_calls tda itt k0 rq t n cs) as (k' & rq' & E' & Hk' & _ & _ & Hl' & c' & Hc' & Hrem & _ & Hst); [|done..|].
  - split; [done|]. split; [congruence|]. split.
    { rewrite Ec. fold t. intros E0. destruct Hl as (q & us & Hq & Hin). destruct (sw_nodup _ _ _ Hwf _ _ Hq) as [_ H]. by rewrite E0 in Hin. }
    split; [done|]. eexists. split; [exact Ht'|]. split; [done|]. split; [lia|]. by rewrite (proj2 (Z.ltb_lt 0 n)) by lia.
  - exists k', rq', c'. split_and!; try done. rewrite Hst.
    destruct (Z.ltb_spec (tick_calls cs) n), (Z.ltb_spec 0 (Z.max 0 (n - tick_calls cs))); done || lia.
Qed.

Lemma task_delay_wakes_witness :
  exists k0 k' rq' c, task_delay 2 demo_rr = Done (tt, k0) /\ run_calls 100 300 [CTick; CPendSV; CTick] k0 = Done (tt, k') /\
    kernel_inv k' rq' /\ tcbs k' !! 4752 = Some c /\ t_state c = TASK_READY.
Proof.
  destruct (task_delay_wakes 100 300 demo_rr (queues demo_rr) 5 [4440] [] 2 demo_rr_inv) as (k0 & E & _ & _ & H).
  - vm_compute. reflexivity.
  - vm_compute. reflexivity.
  - discriminate.
  - lia.
  - destruct (H [CTick; CPendSV; CTick]) as (k' & rq' & c & E' & Hk' & _ & Hc & _ & Hs); [reflexivity| |].
    + apply run_kernel_Done in E. rewrite <- E. vm_compute. reflexivity.
    + exists k0, k', rq', c. split; [exact E|]. split; [exact E'|]. split; [exact Hk'|]. split; [|exact Hs].
      rewrite <- Hc. f_equal.
Defined.

(** A running task that is the head of its ready list, such as the only task of its
    priority, is taken out of the list by [task_delay] and nothing puts it back:
    after any further sequence of correct calls, ticks included, it is still BLOCKED and in no list,
    so it never wakes. *)
Theorem head_sleeper_lost tda itt k rq p l2 n :
  kernel_inv k rq -> rq !! p = Some (current_task k :: l2) -> 0 < n < 4294967296 ->
  exists k0, task_delay n k = Done (tt, k0) /\ kernel_inv k0 (<[p := l2]> rq) /\
    forall cs, calls_ok tda itt cs k0 ->
      exists k' rq' c, run_calls tda itt cs k0 = Done (tt, k') /\ kernel_inv k' rq' /\ ~ linked rq' (current_task k) /\
        tcbs k' !! current_task k = Some c /\ t_state c = TASK_BLOCKED.
Proof.
  intros Hk Hp Hn. pose proof (kw_sched _ _ (ki_wf _ _ Hk)) as Hwf. set (t := current_task k) in *.
  assert (linked rq t) as Hl by (exists p, (t :: l2); split; [done|left]).
  destruct (linked_tcb _ _ _ _ Hwf Hl) as [c Hc].
  destruct (task_delay_spec k rq p [] t l2 c n Hwf Hp eq_refl Hc Hn (ki_nesting _ _ Hk)) as (k0 & E & Hw & Ht' & _).
  destruct (delay_refines 0 k rq n Hk) as (k2 & rq2 & E2 & Hk2 & _); [right; by split|].
  rewrite E in E2. injection E2 as <-. rewrite decide_True in Hw by done.
  apply (kernel_inv_unique _ _ (<[p := l2]> rq)) in Hk2; [|done]. exists k0. split; [done|]. split; [done|].
  assert (~ linked (<[p := l2]> rq) t) as Hnl.
  { pose proof (dequeue_at _ _ _ _ [] _ _ Hwf Hp) as Hd. cbn [app] in Hd. rewrite <- Hd. by eapply dequeue_unlinked. }
  assert (forall cs k1 rq1 c1, calls_ok tda itt cs k1 -> kernel_inv k1 rq1 -> ~ linked rq1 t -> tcbs k1 !! t = Some c1 ->
    t_state c1 = TASK_BLOCKED -> exists k' rq' c', run_calls tda itt cs k1 = Done (tt, k') /\ kernel_inv k' rq' /\
      ~ linked rq' t /\ tcbs k' !! t = Some c' /\ t_state c' = TASK_BLOCKED) as Hrun.
  { clear. induction cs as [|c cs IH]; intros k1 rq1 c1 Hok Hk1 Hnl Hc1 Hs; [by exists k1, rq1, c1|].
    destruct Hok as [Hok Hoks]. rewrite <- (queues_eq _ rq1) in Hok by apply Hk1.
    destruct (call_refines tda itt k1 rq1 c Hk1 Hok) as (k2 & rq2 & E & Hk2 & _ & Hst).
    rewrite (run_kernel_Done _ _ _ _ E) in Hoks.
    destruct (Hst t c1 Hc1 Hnl ltac:(congruence)) as (Hnl2 & c2 & Hc2 & Hs2).
    destruct (IH k2 rq2 c2 Hoks Hk2 Hnl2 Hc2 ltac:(congruence)) as (k' & rq' & c' & E' & H).
    exists k', rq', c'. cbn [run_calls]. by rewrite (bind_step _ _ _ _ _ E). }
  intros cs Hok. by eapply Hrun.
Qed.

Lemma head_sleeper_lost_witness :
  exists k0 k' c, task_delay 1 demo_started = Done (tt, k0) /\
    run_calls 100 300 [CPendSV; CTick; CTick; CPendSV] k0 = Done (tt, k') /\
    tcbs k' !! 5064 = Some c /\ t_state c = TASK_BLOCKED.
Proof.
  destruct (head_sleeper_lost 100 300 demo_started demo_queues 9 [] 1 demo_started_inv) as (k0 & E & _ & H).
  - vm_compute. reflexivity.
  - lia.
  - destruct (H [CPendSV; CTick; CTick; CPendSV]) as (k' & rq' & c & E' & _ & _ & Hc & Hs).
    + pose proof (run_kernel_Done _ _ _ _ E) as <-. split; [exact I|]. split; [intros _; vm_compute; discriminate|]. split; [intros _; vm_compute; discriminate|]. split; exact I.
    + exists k0, k', c. split; [exact E|]. split; [exact E'|]. split; [|exact Hs].
      assert (current_task demo_started = 5064) as Hcur by (vm_compute; reflexivity). rewrite Hcur in Hc. exact Hc.
Defined.

(** ** Creating a task *)

Lemma load_watermark h a :
  (forall i, a <= i < a + 4 -> bytes h !! i = Some 0xA5) -> load32 a h = Done (TASK_STACK_WATERMARK, h).
Proof. intros H. unfold load32. rewrite !H by lia. reflexivity. Qed.

Lemma stack_scan_full k s n fuel fb :
  (forall a, s <= a < s + n -> bytes (heap k) !! a = Some 0xA5) -> n mod 4 = 0 -> n < 4294967292 ->
  0 <= fb <= n -> fb mod 4 = 0 -> (Z.to_nat ((n - fb) / 4) < fuel)%nat ->
  stack_scan fuel (s + fb) fb n k = Done (n, k).
Proof.
  intros Hb Hn4 Hn. revert fb. induction fuel as [|fuel IH]; intros fb Hfb Hfb4 Hf; [lia|]. cbn [stack_scan].
  destruct (Z.ltb_spec fb n) as [Hlt|Hge].
  - assert (fb + 4 <= n) by divmod_lia.
    rewrite (bind_step _ _ k TASK_STACK_WATERMARK k).
    2: { unfold on_heap, zoom. rewrite load_watermark; [by destruct k|]. intros i Hi. apply Hb. lia. }
    rewrite Z.eqb_refl. rewrite u32_small by lia. replace (s + fb + 4) with (s + (fb + 4)) by lia.
    apply IH; [lia|divmod_lia|]. replace (n - fb) with ((n - (fb + 4)) + 1 * 4) in Hf by lia.
    rewrite Z.div_add in Hf by lia. assert (0 <= (n - (fb + 4)) / 4) by (apply Z.div_pos; lia). lia.
  - assert (fb = n) as -> by lia. done.
Qed.

Lemma actual_stack_size_bounds s :
  0 <= s < 4294967249 -> 128 <= actual_stack_size s < 4294967256 /\ actual_stack_size s mod 8 = 0 /\ s <= actual_stack_size s.
Proof.
  intros Hs. unfold actual_stack_size, TASK_STACK_MIN. destruct (Z.ltb_spec s 128); divmod_lia.
Qed.

(** C25: [task_create] always returns.  It gives null, with every task and list unchanged, exactly when
    one of its two allocations does; otherwise the new control block has the requested fields (priority 4 for
    one out of range, a stack of at least the request and 128 bytes, a multiple of 8), is
    READY at the tail of its priority's list, and no other control block changes but in its
    links.  The whole stack is then watermark: the initial context frame that [task_stack_init]
    wrote at the stack pointer (entry point, parameter, xPSR) is wiped by [stack_overflow_init], and the
    stack check reports the stack as entirely free. *)
Theorem task_create_correct tda k rq entry name stack_size param priority :
  kernel_inv k rq -> 0 <= stack_size < 4294967249 -> 0 <= priority ->
  let p := Z.to_nat (actual_priority priority) in
  let n := actual_stack_size stack_size in
  exists t k' rq', task_create tda entry name stack_size param priority k = Done (t, k') /\ kernel_inv k' rq' /\
    ((t = NULL /\ rq' = rq /\ tcbs k' = tcbs k /\ task_list k' = task_list k /\ out_of_memory n (heap k)) \/
     (t <> NULL /\ tcbs k !! t = None /\ rq' = enqueue p t rq /\ exists ts stack nx pv,
        rq !! p = Some ts /\
        tcbs k' !! t = Some (set_t_next nx (set_t_prev pv (new_tcb stack entry name n param (actual_priority priority)))) /\
        relinked ts (tcbs k) (delete t (tcbs k')) /\
        (forall i, 0 <= i < 16 ->
           on_heap (load32 (stack + n - 64 + 4 * i)) k' = Done (TASK_STACK_WATERMARK, k')) /\
        task_stack_free t k' = Done (n, k') /\ stack_overflow_check t k' = Done (0, k'))).
Proof.
  intros Hk Hs Hpr p n. destruct (actual_stack_size_bounds stack_size Hs) as (Hn & Hn8 & _). fold n in Hn, Hn8.
  destruct (task_create_spec tda k rq entry name stack_size param priority (ki_wf _ _ Hk) Hs Hpr (ki_nesting _ _ Hk))
    as (t & k' & rq' & E & Hw & _ & _ & _ & Hcase). fold n in Hcase.
  destruct (create_refines tda 0 k rq entry name stack_size param priority Hk (conj Hs Hpr)) as (k2 & rq2 & E2 & Hk2 & _).
  cbn [run_call] in E2. rewrite (bind_step _ _ _ _ _ E) in E2. injection E2 as <-.
  apply (kernel_inv_unique _ _ rq') in Hk2; [|apply Hw]. exists t, k', rq'. split; [done|]. split; [done|].
  destruct Hcase as [?|(Ht & Hfresh & ts & stack & nx & pv & Hts & -> & Hc & Hr & Hb)]; [by left|right].
  split; [done|]. split; [done|]. split; [by rewrite (enqueue_at _ _ _ _ Hts)|]. exists ts, stack, nx, pv.
  assert (task_stack_free t k' = Done (n, k')) as Hfree.
  { unfold task_stack_free. rewrite (bind_step _ _ _ _ _ (tcb_Done _ _ _ Hc)). cbn -[Z.div stack_scan].
    replace stack with (stack + 0) at 1 by lia. apply (stack_scan_full k' stack n); [done|divmod_lia|lia|lia|done|].
    rewrite Z.sub_0_r. lia. }
  split_and!; try done.
  - intros i Hi. unfold on_heap, zoom. rewrite load_watermark; [by destruct k'|]. intros a Ha. apply Hb. lia.
  - unfold stack_overflow_check. rewrite (proj2 (Z.eqb_neq t NULL) Ht), (bind_step _ _ _ _ _ Hfree).
    by rewrite (proj2 (Z.ltb_ge n 64)) by lia.
Qed.

Lemma task_create_correct_witness :
  exists k', task_create 100 1000 (Some [65]) 100 7 40 demo_started = Done (5376, k') /\
    kernel_inv k' (enqueue 4 5376 demo_queues) /\ task_stack_free 5376 k' = Done (128, k').
Proof.
  destruct (task_create_correct 100 demo_started demo_queues 1000 (Some [65]) 100 7 40 demo_started_inv ltac:(lia) ltac:(lia))
    as (t & k' & rq' & E & Hk' & H).
  assert (t = 5376) as ->.
  { assert (fst <$> (match task_create 100 1000 (Some [65]) 100 7 40 demo_started with Done x => Some x | _ => None end) = Some 5376)
      as Ht by (vm_compute; reflexivity).
    rewrite E in Ht. by injection Ht. }
  exists k'. split; [exact E|]. destruct H as [(H & _)|(_ & _ & -> & _ & _ & _ & _ & _ & _ & _ & _ & H & _)]; [discriminate|].
  split; [exact Hk'|exact H].
Defined.

(** ** Rate-monotonic priorities *)

Lemma lookup_swap {A} (l : list A) i j k :
  i <> j -> (i < length l)%nat -> (j < length l)%nat ->
  swap l i j !! k = if decide (k = j) then l !! i else if decide (k = i) then l !! j else l !! k.
Proof.
  intros Hij Hi Hj. unfold swap. destruct (lookup_lt_is_Some_2 l i Hi) as [x Hx].
  destruct (lookup_lt_is_Some_2 l j Hj) as [y Hy]. rewrite Hx, Hy. destruct (decide (k = j)) as [->|Hkj].
  { by rewrite list_lookup_insert_eq by (by rewrite length_insert). }
  rewrite list_lookup_insert_ne by done. destruct (decide (k = i)) as [->|Hki].
  { by rewrite list_lookup_insert_eq. }
  by rewrite list_lookup_insert_ne.
Qed.

Lemma length_swap {A} (l : list A) i j : length (swap l i j) = length l.
Proof. unfold swap. destruct (l !! i), (l !! j); by rewrite ?length_insert. Qed.

Lemma swap_perm {A} (l : list A) i j : i <> j -> (i < length l)%nat -> (j < length l)%nat -> swap l i j ≡ₚ l.
Proof.
  intros Hij Hi Hj. apply Permutation_inj. split; [apply length_swap|].
  exists (fun k => if decide (k = j) then i else if decide (k = i) then j else k). split.
  - intros a b. destruct (decide (a = j)), (decide (a = i)), (decide (b = j)), (decide (b = i)); congruence.
  - intros k. rewrite lookup_swap by done. destruct (decide (k = j)); [done|]. by destruct (decide (k = i)).
Qed.

Lemma zip_swap {A B} (l : list A) (r : list B) i j :
  length l = length r -> i <> j -> (i < length l)%nat -> (j < length l)%nat ->
  zip (swap l i j) (swap r i j) = swap (zip l r) i j.
Proof.
  intros Hl Hij Hi Hj. assert (length (zip l r) = length l) as Hz by (rewrite length_zip; lia).
  apply list_eq. intros k. rewrite lookup_swap by (rewrite ?Hz; done).
  rewrite !lookup_zip_with. rewrite !lookup_swap by lia.
  destruct (decide (k = j)); [done|]. by destruct (decide (k = i)).
Qed.

(** The first [i] periods are in order and no later one is smaller. *)
Definition rm_sorted (i : nat) (ps : list Z) : Prop :=
  forall a b x y, (a < i)%nat -> (a < b)%nat -> ps !! a = Some x -> ps !! b = Some y -> x <= y.

Definition rm_state (tasks periods : list Z) (tp : list Z * list Z) : Prop :=
  length tp.1 = length tp.2 /\ length tp.2 = length periods /\ zip tp.1 tp.2 ≡ₚ zip tasks periods.

Lemma rm_inner_spec tasks periods n i j tp :
  rm_state tasks periods tp -> (i < j)%nat -> (j + n = length periods)%nat -> rm_sorted i tp.2 ->
  (forall b x y, (i < b < j)%nat -> tp.2 !! i = Some x -> tp.2 !! b = Some y -> x <= y) ->
  let tp' := rm_inner n i j tp in rm_state tasks periods tp' /\ rm_sorted (S i) tp'.2.
Proof.
  revert j tp. induction n as [|n IH]; intros j [ts ps] Hst Hij Hn Hso Hmin; cbn [rm_inner].
  - split; [done|]. intros a b x y Ha Hb Hx Hy. destruct (decide (a = i)) as [->|Hne].
    + apply (Hmin b x y); [|done..]. apply lookup_lt_Some in Hy. destruct Hst as (_ & E & _). cbn in *. lia.
    + by apply (Hso a b x y); [lia|..].
  - destruct Hst as (H1 & H2 & H3). cbn [fst snd] in *.
    destruct (lookup_lt_is_Some_2 ps i ltac:(lia)) as [x Hx]. destruct (lookup_lt_is_Some_2 ps j ltac:(lia)) as [y Hy].
    rewrite (nth_lookup_Some _ _ _ _ Hx), (nth_lookup_Some _ _ _ _ Hy). destruct (Z.ltb_spec y x) as [Hlt|Hge].
    + apply IH; [|lia|lia|..]; cbn [fst snd].
      * split_and!; cbn [fst snd]; rewrite ?length_swap; try done.
        rewrite zip_swap by lia. rewrite swap_perm by (rewrite ?length_zip; lia). done.
      * intros a b u v Ha Hb Hu Hv. rewrite lookup_swap in Hu, Hv by lia.
        rewrite decide_False, decide_False in Hu by lia.
        destruct (decide (b = j)); [by apply (Hso a i u v); [lia|lia|..]|].
        destruct (decide (b = i)); [by apply (Hso a j u v); [lia|lia|..]|]. by apply (Hso a b u v).
      * intros b u v Hb Hu Hv. rewrite lookup_swap in Hu, Hv by lia.
        rewrite decide_False, decide_True in Hu by lia. rewrite Hy in Hu. injection Hu as <-.
        destruct (decide (b = j)); [rewrite Hx in Hv; injection Hv as <-; lia|]. rewrite decide_False in Hv by lia.
        assert (x <= v) by (apply (Hmin b x v); [lia|done|done]). lia.
    + apply IH; [done|lia|lia|done|]. cbn [snd]. intros b u v Hb Hu Hv. destruct (decide (b = j)) as [->|].
      * rewrite Hx in Hu. rewrite Hy in Hv. injection Hu as <-. injection Hv as <-. done.
      * apply (Hmin b u v); [lia|done|done].
Qed.

Lemma rm_outer_spec tasks periods n i tp :
  rm_state tasks periods tp -> (i + n = length periods)%nat -> rm_sorted i tp.2 ->
  let tp' := rm_outer n i (length periods) tp in rm_state tasks periods tp' /\ rm_sorted (length periods) tp'.2.
Proof.
  revert i tp. induction n as [|n IH]; intros i tp Hst Hn Hso; cbn [rm_outer].
  - by replace (length periods) with i by lia.
  - destruct (rm_inner_spec tasks periods (length periods - S i) i (S i) tp Hst) as [A B]; [lia|lia|done|lia|].
    apply IH; [done|lia|done].
Qed.

Lemma assign_loop_spec ts i k :
  NoDup ts -> (forall t, t ∈ ts -> is_Some (tcbs k !! t)) -> 0 <= i ->
  exists m, assign_loop ts i k = Done (tt, set_tcbs m k) /\
    (forall t, (t ∉ ts \/ TASK_PRIORITY_HIGHEST <= i) -> m !! t = tcbs k !! t) /\
    (forall n t c, ts !! n = Some t -> tcbs k !! t = Some c ->
       m !! t = Some (if i + Z.of_nat n <? TASK_PRIORITY_HIGHEST
                      then set_t_base_priority (TASK_PRIORITY_HIGHEST - (i + Z.of_nat n))
                             (set_t_priority (TASK_PRIORITY_HIGHEST - (i + Z.of_nat n)) c)
                      else c)).
Proof.
  unfold TASK_PRIORITY_HIGHEST. revert i k. induction ts as [|t ts IH]; intros i k Hnd Hsome Hi; cbn [assign_loop].
  { exists (tcbs k). split; [by destruct k|]. split; [done|]. intros n t c Hn. done. }
  unfold TASK_PRIORITY_HIGHEST. apply NoDup_cons in Hnd as [Ht Hnd]. destruct (Z.ltb_spec i 32) as [Hlt|Hge].
  - destruct (Hsome t ltac:(left)) as [c Hc].
    rewrite (bind_step _ _ _ _ _ (upd_tcb_Done k t _ (mk_is_Some _ _ Hc))). set (m1 := alter _ t (tcbs k)).
    assert (m1 !! t = Some (set_t_priority (32 - i) c)) as Hc1 by (unfold m1; by rewrite lookup_alter_eq, Hc).
    rewrite (bind_step _ _ _ _ _ (tcb_Done (set_tcbs m1 k) _ _ Hc1)).
    rewrite (bind_step _ _ _ _ _ (upd_tcb_Done (set_tcbs m1 k) t _ (mk_is_Some _ _ Hc1))).
    set (k2 := set_tcbs _ (set_tcbs m1 k)).
    assert (forall x, x <> t -> tcbs k2 !! x = tcbs k !! x) as Hk2.
    { intros x Hx. unfold k2, m1. cbn. by rewrite !lookup_alter_ne. }
    destruct (IH (i + 1) k2 Hnd) as (m & E & Ho & Hin); [|lia|].
    { intros x Hx. rewrite Hk2 by (by intros ->). apply Hsome. by right. }
    exists m. split; [exact E|]. split.
    + intros x [Hx|?]; [|lia]. apply not_elem_of_cons in Hx as [Hxt Hx]. rewrite Ho by (by left). by apply Hk2.
    + intros [|n] x d Hn Hd; cbn in Hn.
      * injection Hn as <-. rewrite Ho by (by left). unfold k2. cbn. rewrite lookup_alter_eq, Hc1. cbn.
        rewrite Hc in Hd. injection Hd as <-. rewrite Z.add_0_r. by rewrite (proj2 (Z.ltb_lt i 32)) by done.
      * assert (x <> t) by (intros ->; apply Ht; by eapply list_elem_of_lookup_2).
        rewrite (Hin n x d Hn) by (by rewrite Hk2). by replace (i + 1 + Z.of_nat n) with (i + Z.of_nat (S n)) by lia.
  - exists (tcbs k). split; [by destruct k|]. split; [done|]. intros n x d Hn Hd.
    by rewrite (proj2 (Z.ltb_ge _ 32)) by lia.
Qed.

(** On two or more distinct live tasks, the rate-monotonic assignment returns: the arrays come back
    as a permutation of the (task, period) pairs in ascending order of period; the i-th task
    of the sorted array, i < 32, gets priority and base priority 32 - i, so that of two such
    tasks the one with the smaller period has the strictly larger priority; tasks from
    the 33rd on and outside the array are untouched.  The ready lists are not rearranged, so a linked
    task whose priority changed is in the list of its old one. *)
Theorem rm_priorities_correct k tasks periods :
  length tasks = length periods -> (2 <= length tasks)%nat -> NoDup tasks ->
  (forall t, t ∈ tasks -> is_Some (tcbs k !! t)) ->
  exists ts ps m, scheduler_assign_rm_priorities tasks periods k = Done ((ts, ps), set_tcbs m k) /\
    zip ts ps ≡ₚ zip tasks periods /\ length ts = length tasks /\ length ps = length tasks /\
    (forall a b x y, (a < b)%nat -> ps !! a = Some x -> ps !! b = Some y -> x <= y) /\
    (forall n t c, ts !! n = Some t -> tcbs k !! t = Some c ->
       m !! t = Some (if Z.of_nat n <? 32 then set_t_base_priority (32 - Z.of_nat n) (set_t_priority (32 - Z.of_nat n) c) else c)) /\
    (forall a b t u x y c d, ts !! a = Some t -> ts !! b = Some u -> ps !! a = Some x -> ps !! b = Some y -> x < y ->
       (a < 32)%nat -> (b < 32)%nat -> m !! t = Some c -> m !! u = Some d -> t_priority d < t_priority c) /\
    (forall t, t ∉ tasks -> m !! t = tcbs k !! t).
Proof.
  intros Hl H2 Hnd Hsome. unfold scheduler_assign_rm_priorities. rewrite (proj2 (Nat.ltb_ge _ 2)) by lia. rewrite Hl.
  destruct (rm_outer_spec tasks periods (length periods) 0 (tasks, periods)) as [(E1 & E2 & E3) Hso]; [done|lia|intros a; lia|].
  destruct (rm_outer _ _ _ _) as [ts ps]. cbn [fst snd] in *.
  assert (ts ≡ₚ tasks) as Hts.
  { apply (fmap_Permutation fst) in E3. change (fst <$> zip ts ps) with ((zip ts ps).*1) in E3.
    rewrite !fst_zip in E3 by lia. done. }
  destruct (assign_loop_spec ts 0 k) as (m & E & Ho & Hin); [by rewrite Hts|intros t; rewrite Hts; apply Hsome|lia|].
  exists ts, ps, m. rewrite (bind_step _ _ _ _ _ E). split; [done|]. split; [done|]. split; [lia|]. split; [lia|].
  assert (forall a b x y, (a < b)%nat -> ps !! a = Some x -> ps !! b = Some y -> x <= y) as Hs.
  { intros a b x y Hab Hx Hy. apply (Hso a b); [|done..]. apply lookup_lt_Some in Hx. lia. }
  split; [exact Hs|]. split; [exact Hin|]. split; [|intros t Ht; apply Ho; left; by rewrite Hts].
  intros a b t u x y c d Ha Hb Hx Hy Hxy Ha32 Hb32 Hc Hd.
  assert (forall n v e, ts !! n = Some v -> (n < 32)%nat -> m !! v = Some e -> t_priority e = 32 - Z.of_nat n) as Hpr.
  { intros n v e Hn Hn32 He. assert (v ∈ tasks) as Hv by (rewrite <- Hts; by eapply list_elem_of_lookup_2).
    destruct (Hsome v Hv) as [e0 He0]. rewrite (Hin n v e0 Hn He0) in He. cbn [Z.add] in He.
    unfold TASK_PRIORITY_HIGHEST in He. rewrite (proj2 (Z.ltb_lt _ 32)) in He by lia. by injection He as <-. }
  rewrite (Hpr a t c), (Hpr b u d) by done. destruct (Nat.lt_trichotomy a b) as [?|[->|Hba]]; [lia|rewrite Hx in Hy; injection Hy as <-; lia|].
  assert (y <= x) by (by apply (Hs b a)). lia.
Qed.

Lemma rm_priorities_correct_witness :
  exists m, scheduler_assign_rm_priorities [5064; 4440; 4752] [30; 10; 20] demo_started =
    Done (([4440; 4752; 5064], [10; 20; 30]), set_tcbs m demo_started) /\ t_priority <$> m !! 4440 = Some 32.
Proof.
  destruct (rm_priorities_correct demo_started [5064; 4440; 4752] [30; 10; 20]) as (ts & ps & m & E & _ & _ & _ & _ & H & _).
  - reflexivity.
  - cbn. lia.
  - apply (bool_decide_unpack _). vm_compute. exact I.
  - intros t Ht%list_elem_of_In.
    assert (forallb (fun t => match tcbs demo_started !! t with Some _ => true | None => false end) [5064; 4440; 4752] = true)
      as Hall by (vm_compute; reflexivity).
    rewrite forallb_forall in Hall. specialize (Hall t Ht). destruct (tcbs demo_started !! t) as [c|]; [by exists c|done].
  - assert (fst <$> (match scheduler_assign_rm_priorities [5064; 4440; 4752] [30; 10; 20] demo_started with Done x => Some x | _ => None end)
      = Some ([4440; 4752; 5064], [10; 20; 30])) as Hr by (vm_compute; reflexivity).
    rewrite E in Hr. injection Hr as -> ->. exists m. split; [exact E|].
    destruct (tcbs demo_started !! 4440) as [c|] eqn:Hc; [|vm_compute in Hc; discriminate].
    rewrite (H 0%nat 4440 c); [reflexivity|reflexivity|exact Hc].
Defined.

(** ** The deadline-ordered list *)

(** [ts] linked through [t_next] from [h] to null. *)
Fixpoint chain (m : gmap Z tcb_t) (h : Z) (ts : list Z) : Prop :=
  match ts with
  | [] => h = NULL
  | t :: ts => h = t /\ t <> NULL /\ exists c, m !! t = Some c /\ chain m (t_next c) ts
  end.

Definition deadline_of (m : gmap Z tcb_t) (t : Z) : Z :=
  match m !! t with Some c => t_ticks_remaining c | None => 0 end.

Lemma chain_frame m m' h ts :
  (forall t c, t ∈ ts -> m !! t = Some c -> exists c', m' !! t = Some c' /\ t_next c' = t_next c) ->
  chain m h ts -> chain m' h ts.
Proof.
  revert h. induction ts as [|t ts IH]; intros h Hf Hc; [done|]. destruct Hc as (-> & Ht & c & Hc & Hr).
  destruct (Hf t c ltac:(left) Hc) as (c' & Hc' & En). split; [done|]. split; [done|]. exists c'. split; [done|].
  rewrite En. apply IH; [|done]. intros x d Hx. apply Hf. by right.
Qed.

Lemma chain_some m h ts t : chain m h ts -> t ∈ ts -> is_Some (m !! t).
Proof.
  revert h. induction ts as [|x ts IH]; intros h Hc Ht; [by apply not_elem_of_nil in Ht|].
  destruct Hc as (-> & _ & c & Hc & Hr). apply elem_of_cons in Ht as [->|Ht]; [eauto|by eapply IH].
Qed.

Lemma chain_length m h ts : chain m h ts -> NoDup ts -> (length ts <= size m)%nat.
Proof.
  intros Hc Hnd. rewrite <- (size_list_to_set (C := gset Z) _ Hnd), <- size_dom.
  apply subseteq_size. intros t Ht. apply elem_of_list_to_set in Ht.
  apply elem_of_dom. by eapply chain_some.
Qed.

(** The scan stops behind the last task of the leading run of deadlines up to [d]. *)
Lemma edf_scan_spec fuel k pv ts1 ts2 d h :
  chain (tcbs k) h (ts1 ++ ts2) -> (length ts1 < fuel)%nat ->
  Forall (fun t => deadline_of (tcbs k) t <= d) ts1 ->
  match ts2 with [] => True | t :: _ => d < deadline_of (tcbs k) t end ->
  edf_scan fuel pv h d k = Done (last_or pv ts1, k).
Proof.
  revert pv h ts1. induction fuel as [|fuel IH]; intros pv h ts1 Hc Hf Hle Hgt; [lia|]. cbn [edf_scan].
  destruct ts1 as [|t ts1].
  - cbn in *. destruct ts2 as [|t ts2]; [cbn in Hc; by subst|]. destruct Hc as (-> & Ht & c & Hc & _).
    rewrite (proj2 (Z.eqb_neq t NULL) Ht), (bind_step _ _ _ _ _ (tcb_Done _ _ _ Hc)).
    unfold deadline_of in Hgt. rewrite Hc in Hgt. by rewrite (proj2 (Z.leb_gt _ d)) by lia.
  - destruct Hc as (-> & Ht & c & Hc & Hr). rewrite (proj2 (Z.eqb_neq t NULL) Ht), (bind_step _ _ _ _ _ (tcb_Done _ _ _ Hc)).
    inversion Hle as [|? ? Hd Hle']; subst. unfold deadline_of in Hd. rewrite Hc in Hd.
    rewrite (proj2 (Z.leb_le _ d)) by lia. cbn [last_or]. apply IH; [done|cbn in Hf; lia|done|done].
Qed.

Lemma split_deadlines m d ts :
  StronglySorted Z.le (deadline_of m <$> ts) ->
  exists ts1 ts2, ts = ts1 ++ ts2 /\ Forall (fun t => deadline_of m t <= d) ts1 /\ Forall (fun t => d < deadline_of m t) ts2.
Proof.
  induction ts as [|t ts IH]; intros Hs; [by exists [], []|]. cbn in Hs. inversion Hs as [|? ? Hs' Hall]; subst.
  destruct (Z.le_gt_cases (deadline_of m t) d) as [Hle|Hgt].
  - destruct (IH Hs') as (ts1 & ts2 & -> & H1 & H2). exists (t :: ts1), ts2. split; [done|]. split; [by constructor|done].
  - exists [], (t :: ts). split; [done|]. split; [constructor|]. constructor; [done|].
    rewrite Forall_fmap in Hall. eapply Forall_impl; [exact Hall|]. cbn. lia.
Qed.

Lemma chain_insert m h ts1 t ts2 c :
  chain m h (ts1 ++ ts2) -> NoDup (ts1 ++ t :: ts2) -> ts1 <> [] -> m !! t = Some c -> t <> NULL ->
  exists p, m !! last_or NULL ts1 = Some p /\
    chain (alter (set_t_next t) (last_or NULL ts1) (alter (set_t_next (t_next p)) t m)) h (ts1 ++ t :: ts2).
Proof.
  revert h. induction ts1 as [|x ts1 IH]; intros h Hc Hnd Hne Ht Ht0; [done|].
  destruct Hc as (-> & Hx0 & d & Hd & Hr). cbn [app] in Hnd. apply NoDup_cons in Hnd as [Hx Hnd].
  destruct ts1 as [|y ts1].
  - exists d. cbn [last_or app] in *. split; [done|]. assert (t <> x) as Htx by (intros ->; apply Hx; left).
    split; [done|]. split; [done|]. exists (set_t_next t d). rewrite lookup_alter_eq, lookup_alter_ne, Hd by done.
    split; [done|]. cbn. split; [done|]. split; [done|]. exists (set_t_next (t_next d) c).
    rewrite lookup_alter_ne, lookup_alter_eq, Ht by done. split; [done|]. cbn.
    apply NoDup_cons in Hnd as [Htn _]. eapply chain_frame; [|exact Hr]. intros z e Hz He.
    rewrite !lookup_alter_ne by (intros ->; apply Hx || apply Htn; first [done|by right]). eauto.
  - destruct (IH (t_next d) Hr Hnd ltac:(done) Ht Ht0) as (p & Hp & Hch). exists p. cbn [last_or] in *. split; [done|].
    split; [done|]. split; [done|]. exists d. rewrite !lookup_alter_ne; [done| |].
    + intros ->. apply Hx. apply elem_of_app. right. left.
    + intros E. apply Hx. rewrite <- E. apply elem_of_app. left. apply (last_or_in NULL (y :: ts1)). done.
Qed.

Lemma sorted_insert (f : Z -> Z) ts1 t ts2 :
  StronglySorted Z.le (f <$> ts1 ++ ts2) -> (forall x, x ∈ ts1 -> f x <= f t) -> (forall x, x ∈ ts2 -> f t < f x) ->
  StronglySorted Z.le (f <$> ts1 ++ t :: ts2).
Proof.
  induction ts1 as [|x ts1 IH]; intros Hs H1 H2; cbn in *.
  - constructor; [done|]. apply Forall_fmap, Forall_forall. intros x Hx. cbn. specialize (H2 x Hx). lia.
  - inversion Hs as [|? ? Hs' Hall]; subst. constructor.
    + apply IH; [done|intros y Hy; apply H1; by right|done].
    + rewrite Forall_fmap, Forall_app in *. destruct Hall as [Ha Hb]. split; [done|]. constructor; [apply H1; left|done].
Qed.

(** Inserting a live task into a null-terminated list that is in ascending order of deadline
    returns, puts the task behind all tasks whose deadline is at most its own and before the
    rest, and so keeps the list in order; the new head is returned.  No other field of any
    control block changes. *)
Theorem edf_insert_sorted k h ts t c d :
  chain (tcbs k) h ts -> NoDup (t :: ts) -> t <> NULL -> tcbs k !! t = Some c ->
  StronglySorted Z.le (deadline_of (tcbs k) <$> ts) ->
  exists h' m ts1 ts2, scheduler_edf_list_insert h t d k = Done (h', set_tcbs m k) /\
    ts = ts1 ++ ts2 /\ chain m h' (ts1 ++ t :: ts2) /\ deadline_of m t = d /\
    (forall x, x ∈ ts -> deadline_of m x = deadline_of (tcbs k) x) /\
    (forall x, x ∈ ts1 -> deadline_of m x <= d) /\ (forall x, x ∈ ts2 -> d < deadline_of m x) /\
    (forall x e, tcbs k !! x = Some e -> x <> t -> exists n, m !! x = Some (set_t_next n e)) /\
    StronglySorted Z.le (deadline_of m <$> ts1 ++ t :: ts2).
Proof.
  intros Hch Hnd Ht Hc Hso. destruct (split_deadlines (tcbs k) d ts Hso) as (ts1 & ts2 & -> & H1 & H2).
  pose proof Hnd as [Htn Hnd']%NoDup_cons.
  unfold scheduler_edf_list_insert. rewrite (proj2 (Z.eqb_neq t NULL) Ht).
  rewrite (bind_step _ _ _ _ _ (upd_tcb_Done k t _ (mk_is_Some _ _ Hc))). set (k1 := set_tcbs _ k).
  assert (tcbs k1 !! t = Some (set_t_ticks_remaining d c)) as Hc1 by (unfold k1; cbn; by rewrite lookup_alter_eq, Hc).
  rewrite (bind_step _ _ _ _ _ (upd_tcb_Done k1 t _ (mk_is_Some _ _ Hc1))). set (k2 := set_tcbs _ k1).
  set (c2 := set_t_next NULL (set_t_ticks_remaining d c)).
  assert (tcbs k2 !! t = Some c2) as Hc2 by (unfold k2; cbn -[k1]; by rewrite lookup_alter_eq, Hc1).
  assert (forall x, x <> t -> tcbs k2 !! x = tcbs k !! x) as Ho by (intros x Hx; unfold k2, k1; cbn; by rewrite !lookup_alter_ne).
  assert (forall x, x ∈ ts1 ++ ts2 -> x <> t) as Hne by (by intros x Hx ->).
  assert (chain (tcbs k2) h (ts1 ++ ts2)) as Hch2.
  { eapply chain_frame; [|exact Hch]. intros x e Hx He. rewrite Ho by auto. eauto. }
  assert (forall x, x ∈ ts1 ++ ts2 -> deadline_of (tcbs k2) x = deadline_of (tcbs k) x) as Hdl.
  { intros x Hx. unfold deadline_of. by rewrite Ho by auto. }
  rewrite bind_gets. pose proof (chain_length _ _ _ Hch2 Hnd') as Hlen. rewrite length_app in Hlen.
  rewrite (bind_step _ _ _ _ _ (edf_scan_spec (ring_fuel k2) k2 NULL ts1 ts2 d h Hch2 ltac:(unfold ring_fuel; lia)
    ltac:(apply Forall_forall; intros x Hx; rewrite Hdl by (by apply elem_of_app; left); by apply (proj1 (Forall_forall _ _) H1))
    ltac:(destruct ts2 as [|y ts2]; [done|rewrite Hdl by (apply elem_of_app; right; left); by inversion H2]))).
  assert (exists h' m, (let prev := last_or NULL ts1 in
      if prev =? NULL then upd_tcb t (set_t_next h);; mret t
      else p ← tcb prev; upd_tcb t (set_t_next (t_next p));; upd_tcb prev (set_t_next t);; mret h) k2 =
      Done (h', set_tcbs m k) /\ chain m h' (ts1 ++ t :: ts2) /\
      (forall x e, tcbs k2 !! x = Some e -> exists n, m !! x = Some (set_t_next n e))) as (h' & m & E & Hm & Hf).
  { destruct (decide (ts1 = [])) as [->|Hts1].
    - cbn [last_or]. rewrite Z.eqb_refl, (bind_step _ _ _ _ _ (upd_tcb_Done k2 t _ (mk_is_Some _ _ Hc2))).
      eexists _, _. split; [reflexivity|]. split.
      + split; [done|]. split; [done|]. eexists. rewrite lookup_alter_eq, Hc2. split; [done|]. cbn [set_t_next t_next].
        eapply chain_frame; [|exact Hch2]. intros x e Hx He. rewrite lookup_alter_ne by (intros <-; by apply Htn). eauto.
      + intros x e He. destruct (decide (x = t)) as [->|]; [rewrite lookup_alter_eq, He; by eexists|].
        rewrite lookup_alter_ne, He by done. exists (t_next e). by destruct e.
    - assert (last_or NULL ts1 ∈ ts1) as Hin by (by apply last_or_in).
      assert (last_or NULL ts1 <> NULL) as Hl0.
      { intros E0. rewrite E0 in Hin. revert Hch. clear -Hin. revert h. induction ts1 as [|x ts1 IH]; intros h Hch; [by apply not_elem_of_nil in Hin|].
        destruct Hch as (_ & Hx & e & _ & Hr). apply elem_of_cons in Hin as [<-|Hin]; [done|by eapply IH]. }
      assert (last_or NULL ts1 <> t) as Hlt by (apply Hne, elem_of_app; by left).
      destruct (chain_insert (tcbs k2) h ts1 t ts2 c2 Hch2) as (p & Hp & Hci); [|done..|].
      { apply NoDup_app in Hnd' as (N1 & N2 & N3). apply NoDup_app. split_and!; [done| |].
        - intros x Hx. apply not_elem_of_cons. split; [apply Hne, elem_of_app; by left|by apply N2].
        - apply NoDup_cons. split; [|done]. intros Hx. apply Htn, elem_of_app. by right. }
      cbv zeta. rewrite (proj2 (Z.eqb_neq _ NULL) Hl0), (bind_step _ _ _ _ _ (tcb_Done k2 _ _ Hp)).
      rewrite (bind_step _ _ _ _ _ (upd_tcb_Done k2 t _ (mk_is_Some _ _ Hc2))).
      rewrite (bind_step _ _ _ _ _ (upd_tcb_Done (set_tcbs (alter (set_t_next (t_next p)) t (tcbs k2)) k2) (last_or NULL ts1) (set_t_next t)
        (is_Some_alter _ _ _ _ (mk_is_Some _ _ Hp)))).
      eexists _, _. split; [reflexivity|]. split; [exact Hci|]. intros x e He. cbn [tcbs set_tcbs].
      destruct (decide (x = last_or NULL ts1)) as [->|Hxl].
      + rewrite lookup_alter_eq, lookup_alter_ne, He by done. by eexists.
      + rewrite lookup_alter_ne by done. destruct (decide (x = t)) as [->|]; [rewrite lookup_alter_eq, He; by eexists|].
        rewrite lookup_alter_ne, He by done. exists (t_next e). by destruct e. }
  cbv zeta in E. exists h', m, ts1, ts2. split; [exact E|]. split; [done|]. split; [done|].
  assert (deadline_of m t = d) as Hd by (unfold deadline_of; destruct (Hf t c2 Hc2) as [n ->]; done).
  assert (forall x, x ∈ ts1 ++ ts2 -> deadline_of m x = deadline_of (tcbs k) x) as Hdm.
  { intros x Hx. rewrite <- Hdl by done. destruct (chain_some _ _ _ _ Hch2 Hx) as [e He]. unfold deadline_of.
    destruct (Hf x e He) as [n ->]. by rewrite He. }
  assert (forall x, x ∈ ts1 -> deadline_of m x <= d) as Hl1.
  { intros x Hx. rewrite Hdm by (apply elem_of_app; by left). by apply (proj1 (Forall_forall _ _) H1). }
  assert (forall x, x ∈ ts2 -> d < deadline_of m x) as Hl2.
  { intros x Hx. rewrite Hdm by (apply elem_of_app; by right). by apply (proj1 (Forall_forall _ _) H2). }
  split; [done|]. split; [done|]. split; [done|]. split; [done|]. split.
  - intros x e He Hx. rewrite <- Ho in He by done. by apply Hf.
  - apply sorted_insert; [|by rewrite Hd..]. rewrite (Forall_fmap_ext_1 (deadline_of m) (deadline_of (tcbs k))); [done|].
    by apply Forall_forall.
Qed.

Lemma edf_insert_sorted_witness :
  exists h' m ts1 ts2, scheduler_edf_list_insert NULL 4440 25 demo_started = Done (h', set_tcbs m demo_started) /\
    [] = ts1 ++ ts2 /\ chain m h' (ts1 ++ 4440 :: ts2).
Proof.
  destruct (tcbs demo_started !! 4440) as [c|] eqn:Hc; [|vm_compute in Hc; discriminate].
  destruct (edf_insert_sorted demo_started NULL [] 4440 c 25) as (h' & m & ts1 & ts2 & E & Ets & Hch & _).
  - reflexivity.
  - apply NoDup_singleton.
  - discriminate.
  - exact Hc.
  - constructor.
  - exists h', m, ts1, ts2. split; [exact E|]. split; [exact Ets|exact Hch].
Defined.
