(* ===== verification/WaitList.v ===== *)
(** * Waiter lists and blocking calls of the kernel objects

    The queues, semaphores, mutexes, reader-writer locks and event groups of
    mini-rtos keep their waiting tasks in a singly linked list through
    [block_next], newest first, and block in the same loop: put the current task on the list,
    sleep for a tick, test the timeout, test the condition again.  This file holds
    the state they share ([sync]: the kernel, the objects by address and the file's
    statics), the list operations, the loop, and what holds of them. *)
From S2P Require Import Prelude MemoryHeap Scheduler SchedulerSpec.

(** ** The state of a component *)

Record sync (Obj G : Type) := Sync { kern : kernel_t; objs : gmap Z Obj; glob : G }.
Arguments Sync {Obj G}.
Arguments kern {Obj G}.
Arguments objs {Obj G}.
Arguments glob {Obj G}.

Section state.
Context {Obj G : Type}.
Definition set_kern (k : kernel_t) (w : sync Obj G) : sync Obj G := Sync k (objs w) (glob w).
Definition set_objs (m : gmap Z Obj) (w : sync Obj G) : sync Obj G := Sync (kern w) m (glob w).
Definition set_glob (g : G) (w : sync Obj G) : sync Obj G := Sync (kern w) (objs w) g.
Definition on_kern {A} (m : M kernel_t A) : M (sync Obj G) A := zoom kern set_kern m.
Definition obj (p : Z) : M (sync Obj G) Obj := fun w =>
  match objs w !! p with Some o => Done (o, w) | None => UB end.
Definition put_obj (p : Z) (o : Obj) : M (sync Obj G) unit := modify (fun w => set_objs (<[p := o]> (objs w)) w).
Definition upd_obj (p : Z) (f : Obj -> Obj) : M (sync Obj G) unit := o ← obj p; put_obj p (f o).
Definition drop_obj (p : Z) : M (sync Obj G) unit := modify (fun w => set_objs (delete p (objs w)) w).
End state.

(** ** The list operations *)

(** A task becomes the new head of the list [head] of the object at [o]. *)
Definition block_task (o head task : Z) : M kernel_t Z :=
  upd_tcb task (set_t_state TASK_BLOCKED);;
  upd_tcb task (set_t_block_obj o);;
  upd_tcb task (set_t_block_next head);;
  mret task.

(** The head [head] is made READY; the new head is returned. *)
Definition unblock_task (head : Z) : M kernel_t Z :=
  if head =? NULL then mret NULL
  else
    c ← tcb head;
    upd_tcb head (set_t_state TASK_READY);;
    upd_tcb head (set_t_block_obj NULL);;
    upd_tcb head (set_t_block_next NULL);;
    mret (t_block_next c).

(** A pointer to a list cell: the head or the [block_next] of a task. *)
Fixpoint remove_loop (clear : bool) (fuel : nat) (self head prev t : Z) : M kernel_t Z :=
  match fuel with
  | O => nofuel
  | S fuel =>
      if t =? NULL then mret head
      else
        c ← tcb t;
        if t =? self then
          head ← (if prev =? NULL then mret (t_block_next c)
                  else upd_tcb prev (set_t_block_next (t_block_next c));; mret head);
          when clear (upd_tcb t (set_t_block_next NULL);; upd_tcb t (set_t_block_obj NULL));;
          mret head
        else remove_loop clear fuel self head t (t_block_next c)
  end.

(** The task [self] leaves the list; the new head is returned.  With [clear] its own fields are reset. *)
Definition remove_waiter (clear : bool) (self head : Z) : M kernel_t Z :=
  fuel ← gets ring_fuel;
  remove_loop clear fuel self head NULL head.

(** Every task of the list is made READY (the walk of the delete functions). *)
Fixpoint ready_loop (fuel : nat) (t : Z) : M kernel_t unit :=
  match fuel with
  | O => nofuel
  | S fuel =>
      if t =? NULL then mret tt
      else
        c ← tcb t;
        upd_tcb t (set_t_state TASK_READY);;
        upd_tcb t (set_t_block_obj NULL);;
        ready_loop fuel (t_block_next c)
  end.

Definition ready_all (head : Z) : M kernel_t unit := fuel ← gets ring_fuel; ready_loop fuel head.

(** ** The blocking loop

    [task_delay(1)] ends in PORT_PENDSV_TRIGGER; [pend] is what happens there: the
    other tasks and the interrupts run until the calling task runs again.  [None]: the condition
    is over, inside the critical section; [Some r]: the call returns [r]. *)
Section blocking.
Context {Obj G : Type} (pend : M (sync Obj G) unit).
Context (blocked : M (sync Obj G) bool) (block on_zero remove : M (sync Obj G) unit) (timeout start : Z).

Fixpoint wait_loop (fuel : nat) : M (sync Obj G) (option Z) :=
  match fuel with
  | O => nofuel
  | S fuel =>
      b ← blocked;
      if negb (b : bool) then mret None
      else if timeout =? 0 then on_zero;; on_kern task_exit_critical;; mret (Some 0)
      else
        block;;
        on_kern task_exit_critical;;
        on_kern (task_delay 1);;
        pend;;
        now ← on_kern task_get_tick_count;
        if (timeout <? UINT32_MAX) && (timeout <=? now -32 start) then
          on_kern task_enter_critical;;
          remove;;
          on_kern task_exit_critical;;
          mret (Some (-2))
        else
          on_kern task_enter_critical;;
          wait_loop fuel
  end.
End blocking.

(** The environment of a sleep in which one tick passes and nothing else happens. *)
Definition tick_pend {Obj} : M (sync Obj unit) unit := on_kern (modify (fun k => set_tick_count (tick_count k +32 1) k)).

(** The environment that only advances the tick and dispatches the caller again. *)
Definition resume_pend {Obj G} (self : Z) : M (sync Obj G) unit :=
  on_kern (modify (fun k => set_tick_count (tick_count k +32 1) (set_tcbs (alter (set_t_state TASK_RUNNING) self (tcbs k)) k))).

(** ** Waiter lists *)

(** [ts] linked through [t_block_next] from [h] to null. *)
Fixpoint waiters (m : gmap Z tcb_t) (h : Z) (ts : list Z) : Prop :=
  match ts with
  | [] => h = NULL
  | t :: ts => h = t /\ t <> NULL /\ exists c, m !! t = Some c /\ waiters m (t_block_next c) ts
  end.

Lemma waiters_frame m m' h ts :
  (forall t c, t ∈ ts -> m !! t = Some c -> exists c', m' !! t = Some c' /\ t_block_next c' = t_block_next c) ->
  waiters m h ts -> waiters m' h ts.
Proof.
  revert h. induction ts as [|t ts IH]; intros h Hf Hc; [done|]. destruct Hc as (-> & Ht & c & Hc & Hr).
  destruct (Hf t c ltac:(left) Hc) as (c' & Hc' & En). split; [done|]. split; [done|]. exists c'. split; [done|].
  rewrite En. apply IH; [|done]. intros x d Hx. apply Hf. by right.
Qed.

Lemma waiters_some m h ts t : waiters m h ts -> t ∈ ts -> is_Some (m !! t).
Proof.
  revert h. induction ts as [|x ts IH]; intros h Hc Ht; [by apply not_elem_of_nil in Ht|].
  destruct Hc as (-> & _ & c & Hc & Hr). apply elem_of_cons in Ht as [->|Ht]; [eauto|by eapply IH].
Qed.

Lemma waiters_null m h ts : waiters m h ts -> NULL ∉ ts.
Proof.
  revert h. induction ts as [|x ts IH]; intros h Hc; [apply not_elem_of_nil|].
  destruct Hc as (_ & Hx & c & _ & Hr). apply not_elem_of_cons. split; [done|by eapply IH].
Qed.

(** A null-terminated list has no repetition: the tail determines its length. *)
Lemma waiters_det m h ts ts' : waiters m h ts -> waiters m h ts' -> ts = ts'.
Proof.
  revert h ts'. induction ts as [|t ts IH]; intros h ts' H H'.
  - cbn in H. subst h. destruct ts' as [|t' ts']; [done|]. by destruct H' as (<- & ? & _).
  - destruct H as (-> & Ht & c & Hc & Hr). destruct ts' as [|t' ts']; [by cbn in H'|].
    destruct H' as (<- & _ & c' & Hc' & Hr'). rewrite Hc in Hc'. injection Hc' as <-. f_equal. by eapply IH.
Qed.

Lemma waiters_suffix m h l1 t l2 : waiters m h (l1 ++ t :: l2) -> waiters m t (t :: l2).
Proof.
  revert h. induction l1 as [|x l1 IH]; intros h H; [by destruct H as (-> & ? & ?)|].
  destruct H as (_ & _ & c & _ & Hr). by eapply IH.
Qed.

Lemma waiters_nodup m h ts : waiters m h ts -> NoDup ts.
Proof.
  revert h. induction ts as [|t ts IH]; intros h H; [constructor|]. pose proof H as (_ & _ & c & Hc & Hr).
  apply NoDup_cons. split; [|by eapply IH]. intros Hin. apply list_elem_of_split in Hin as (l1 & l2 & ->).
  pose proof (waiters_suffix m h [] t _ H) as H1. pose proof (waiters_suffix m h (t :: l1) t l2 H) as H2.
  pose proof (waiters_det _ _ _ _ H1 H2) as E. apply (f_equal length) in E. cbn in E. rewrite length_app in E. cbn in E. lia.
Qed.

Lemma waiters_length m h ts : waiters m h ts -> (length ts <= size m)%nat.
Proof.
  intros Hc. rewrite <- (size_list_to_set (C := gset Z) _ (waiters_nodup _ _ _ Hc)), <- size_dom.
  apply subseteq_size. intros t Ht. apply elem_of_list_to_set in Ht. apply elem_of_dom. by eapply waiters_some.
Qed.
(** The 16-byte name field of a zeroed object. *)
Definition object_name (name : option (list Z)) : list Z :=
  match name with Some n => cstr_copy 16 n | None => replicate 16 0 end.


(** ** Stepping through a call *)

Lemma obj_Done {Obj G} (w : sync Obj G) p o : objs w !! p = Some o -> obj p w = Done (o, w).
Proof. unfold obj. by intros ->. Qed.

Lemma upd_obj_Done {Obj G} (w : sync Obj G) p o f :
  objs w !! p = Some o -> upd_obj p f w = Done (tt, set_objs (<[p := f o]> (objs w)) w).
Proof. intros H. unfold upd_obj. by rewrite (bind_step _ _ _ _ _ (obj_Done _ _ _ H)). Qed.

Lemma on_kern_Done {Obj G A} (m : M kernel_t A) (w : sync Obj G) a k :
  m (kern w) = Done (a, k) -> on_kern m w = Done (a, set_kern k w).
Proof. unfold on_kern, zoom. by intros ->. Qed.

Lemma on_kern_read {Obj G A} (m : M kernel_t A) (w : sync Obj G) a :
  m (kern w) = Done (a, kern w) -> on_kern m w = Done (a, w).
Proof. intros E. rewrite (on_kern_Done _ _ _ _ E). by destruct w. Qed.

Lemma on_kern_NoFuel {Obj G A} (m : M kernel_t A) (w : sync Obj G) : m (kern w) = NoFuel -> on_kern m w = NoFuel.
Proof. unfold on_kern, zoom. by intros ->. Qed.

Lemma set_kern_twice {Obj G} k k' (w : sync Obj G) : set_kern k (set_kern k' w) = set_kern k w.
Proof. done. Qed.

Lemma set_kern_id {Obj G} (w : sync Obj G) : set_kern (kern w) w = w.
Proof. by destruct w. Qed.

(** A critical section: its body runs one level deeper, on exit the level is back. *)
Lemma enter_Done {Obj G} (w : sync Obj G) :
  on_kern task_enter_critical w = Done (tt, set_kern (set_critical_nesting (critical_nesting (kern w) +32 1) (kern w)) w).
Proof. done. Qed.

Lemma exit_Done {Obj G} (w : sync Obj G) n :
  critical_nesting (kern w) = n +32 1 -> 0 <= n < UINT32_MAX ->
  on_kern task_exit_critical w = Done (tt, set_kern (set_critical_nesting n (kern w)) w).
Proof.
  intros E Hn. unfold on_kern, zoom, task_exit_critical, modify. by rewrite E, critical_balance.
Qed.

Lemma nesting_id k n : critical_nesting k = n -> set_critical_nesting n k = k.
Proof. intros <-. by destruct k. Qed.

(** The nesting level raised by a critical section. *)
Definition raised (k : kernel_t) : kernel_t := set_critical_nesting (critical_nesting k +32 1) k.

Lemma lower_raised {Obj G A} (k : kernel_t) o (g : G) (r : A) :
  0 <= critical_nesting k < UINT32_MAX ->
  (on_kern task_exit_critical;; mret r) (Sync (Obj := Obj) (raised k) o g) = Done (r, Sync k o g).
Proof.
  intros Hn. rewrite (bind_step _ _ _ _ _ (exit_Done (Sync (raised k) o g) (critical_nesting k) eq_refl Hn)).
  unfold set_kern, raised. cbn [kern objs glob].
  change (set_critical_nesting ?n (set_critical_nesting ?n' ?k)) with (set_critical_nesting n k). by rewrite nesting_id.
Qed.

Lemma critical_Done {Obj G A} (w : sync Obj G) (m : M (sync Obj G) unit) k o g (r : A) :
  0 <= critical_nesting k < UINT32_MAX ->
  m (Sync (raised (kern w)) (objs w) (glob w)) = Done (tt, Sync (raised k) o g) ->
  (on_kern task_enter_critical;; m;; on_kern task_exit_critical;; mret r) w = Done (r, Sync k o g).
Proof.
  intros Hn E. rewrite (bind_step _ _ _ _ _ (enter_Done w)). change (set_kern _ w) with (Sync (raised (kern w)) (objs w) (glob w)).
  rewrite (bind_step _ _ _ _ _ E). by apply lower_raised.
Qed.

(** ** Calls that never see their condition

    Invariants of the objects alone: the kernel may change below them. *)
Section held.
Context {Obj G : Type}.
Context (P : sync Obj G -> Prop) (HP : forall w k, P w -> P (set_kern k w)).

Lemma keeps_on_kern {A} (m : M kernel_t A) : keeps P (on_kern m).
Proof.
  intros w a w' Hw E. unfold on_kern, zoom in E. destruct (m (kern w)) as [[b k]| |]; [|done..].
  injection E as <- <-. by apply HP.
Qed.

Lemma keeps_obj p : keeps P (obj p).
Proof. intros w a w' Hw E. unfold obj in E. destruct (objs w !! p); [|done]. by injection E as <- <-. Qed.

Lemma wait_loop_blocked pend blocked block on_zero remove timeout start fuel w r w' :
  keeps P pend -> keeps P block -> keeps P on_zero -> keeps P remove ->
  (forall w, P w -> blocked w = Done (true, w)) ->
  P w -> wait_loop pend blocked block on_zero remove timeout start fuel w = Done (r, w') ->
  P w' /\ (r = Some 0 \/ r = Some (-2)).
Proof.
  intros Kp Kb Kz Kr Hb. revert w. induction fuel as [|fuel IH]; intros w Hw E; [done|]. cbn [wait_loop] in E.
  rewrite (bind_step _ _ _ _ _ (Hb w Hw)) in E. cbn [negb] in E.
  assert (forall {A} (m : M kernel_t A), keeps P (on_kern m)) as Kk by (intros; apply keeps_on_kern).
  destruct (timeout =? 0).
  - apply bind_Done in E as ([] & w1 & E1 & E). apply bind_Done in E as ([] & w2 & E2 & E). injection E as <- <-.
    split; [|by left]. eapply Kk; [|exact E2]. by eapply Kz.
  - apply bind_Done in E as ([] & w1 & E1 & E). apply bind_Done in E as ([] & w2 & E2 & E).
    apply bind_Done in E as ([] & w3 & E3 & E). apply bind_Done in E as ([] & w4 & E4 & E).
    apply bind_Done in E as (t & w5 & E5 & E).
    assert (P w5) as H5.
    { eapply Kk; [|exact E5]. eapply Kp; [|exact E4]. eapply Kk; [|exact E3]. eapply Kk; [|exact E2]. by eapply Kb. }
    destruct (_ && _).
    + apply bind_Done in E as ([] & w6 & E6 & E). apply bind_Done in E as ([] & w7 & E7 & E).
      apply bind_Done in E as ([] & w8 & E8 & E). injection E as <- <-. split; [|by right].
      eapply Kk; [|exact E8]. eapply Kr; [|exact E7]. by eapply Kk.
    + apply bind_Done in E as ([] & w6 & E6 & E). eapply IH; [|exact E]. by eapply Kk.
Qed.

Lemma keeps_wait_loop pend blocked block on_zero remove timeout start fuel w r w' :
  keeps P pend -> keeps P block -> keeps P on_zero -> keeps P remove -> keeps P blocked ->
  P w -> wait_loop pend blocked block on_zero remove timeout start fuel w = Done (r, w') ->
  P w' /\ (r = None -> exists w1, P w1 /\ blocked w1 = Done (false, w')) /\ (r = None \/ r = Some 0 \/ r = Some (-2)).
Proof.
  intros Kp Kb Kz Kr Kc. assert (forall {A} (m : M kernel_t A), keeps P (on_kern m)) as Kk by (intros; apply keeps_on_kern).
  revert w. induction fuel as [|fuel IH]; intros w Hw E; [done|]. cbn [wait_loop] in E. apply bind_Done in E as (b & w0 & E0 & E).
  assert (P w0) as Hw0 by (by eapply Kc). destruct b; cbn [negb] in E.
  2: { injection E as <- <-. split; [done|]. split; [eauto|by left]. }
  destruct (timeout =? 0).
  - apply bind_Done in E as ([] & w1 & E1 & E). apply bind_Done in E as ([] & w2 & E2 & E). injection E as <- <-.
    split; [|split; [done|by right; left]]. eapply Kk; [|exact E2]. by eapply Kz.
  - apply bind_Done in E as ([] & w1 & E1 & E). apply bind_Done in E as ([] & w2 & E2 & E).
    apply bind_Done in E as ([] & w3 & E3 & E). apply bind_Done in E as ([] & w4 & E4 & E).
    apply bind_Done in E as (t & w5 & E5 & E).
    assert (P w5) as H5.
    { eapply Kk; [|exact E5]. eapply Kp; [|exact E4]. eapply Kk; [|exact E3]. eapply Kk; [|exact E2]. by eapply Kb. }
    destruct (_ && _).
    + apply bind_Done in E as ([] & w6 & E6 & E). apply bind_Done in E as ([] & w7 & E7 & E).
      apply bind_Done in E as ([] & w8 & E8 & E). injection E as <- <-. split; [|split; [done|by right; right]].
      eapply Kk; [|exact E8]. eapply Kr; [|exact E7]. by eapply Kk.
    + apply bind_Done in E as ([] & w6 & E6 & E). eapply IH; [|exact E]. by eapply Kk.
Qed.
End held.
#[export] Hint Resolve keeps_on_kern keeps_obj : keeps.

(** ** What the list operations do *)

Definition waiting_tcb (o h : Z) (c : tcb_t) : tcb_t := set_t_block_next h (set_t_block_obj o (set_t_state TASK_BLOCKED c)).
Definition woken_tcb (c : tcb_t) : tcb_t := set_t_block_next NULL (set_t_block_obj NULL (set_t_state TASK_READY c)).
Definition released_tcb (c : tcb_t) : tcb_t := set_t_block_obj NULL (set_t_state TASK_READY c).

Lemma alter3 (m : gmap Z tcb_t) t f g h : alter h t (alter g t (alter f t m)) = alter (fun c => h (g (f c))) t m.
Proof.
  apply map_eq. intros x. destruct (decide (x = t)) as [->|Hx].
  - rewrite !lookup_alter_eq. by destruct (m !! t).
  - by rewrite !lookup_alter_ne.
Qed.

Lemma upd_tcb3 {A} k t f g h (r : M kernel_t A) :
  is_Some (tcbs k !! t) ->
  (upd_tcb t f;; upd_tcb t g;; upd_tcb t h;; r) k = r (set_tcbs (alter (fun c => h (g (f c))) t (tcbs k)) k).
Proof.
  intros Hs. rewrite (bind_step _ _ _ _ _ (upd_tcb_Done k t f Hs)).
  rewrite (bind_step _ _ _ _ _ (upd_tcb_Done (set_tcbs (alter f t (tcbs k)) k) t g (is_Some_alter _ _ _ _ Hs))).
  rewrite (bind_step _ _ _ _ _ (upd_tcb_Done (set_tcbs (alter g t (alter f t (tcbs k))) (set_tcbs (alter f t (tcbs k)) k)) t h
    (is_Some_alter _ _ _ _ (is_Some_alter _ _ _ _ Hs)))).
  cbn [tcbs set_tcbs]. by rewrite alter3.
Qed.

Lemma block_task_Done k o h t :
  is_Some (tcbs k !! t) -> block_task o h t k = Done (t, set_tcbs (alter (waiting_tcb o h) t (tcbs k)) k).
Proof. intros Hs. unfold block_task. by rewrite upd_tcb3. Qed.

Lemma unblock_task_Done k h c :
  h <> NULL -> tcbs k !! h = Some c ->
  unblock_task h k = Done (t_block_next c, set_tcbs (alter woken_tcb h (tcbs k)) k).
Proof.
  intros Hh Hc. unfold unblock_task. rewrite (proj2 (Z.eqb_neq h NULL) Hh), (bind_step _ _ _ _ _ (tcb_Done _ _ _ Hc)).
  by rewrite upd_tcb3 by eauto.
Qed.

(** A new waiter goes in front. *)
Lemma block_waiters m o h ts t :
  waiters m h ts -> t ∉ ts -> t <> NULL -> is_Some (m !! t) -> waiters (alter (waiting_tcb o h) t m) t (t :: ts).
Proof.
  intros Hw Ht Ht0 [c Hc]. split; [done|]. split; [done|]. exists (waiting_tcb o h c).
  rewrite lookup_alter_eq, Hc. split; [done|]. eapply waiters_frame; [|exact Hw].
  intros x d Hx Hd. rewrite lookup_alter_ne by (by intros ->). eauto.
Qed.

(** A task that waits already gets on the list a second time: it points to itself. *)
Definition self_loop (m : gmap Z tcb_t) (t : Z) : Prop := t <> NULL /\ exists c, m !! t = Some c /\ t_block_next c = t.

Lemma block_twice m o t : t <> NULL -> is_Some (m !! t) -> self_loop (alter (waiting_tcb o t) t m) t.
Proof. intros Ht [c Hc]. split; [done|]. rewrite lookup_alter_eq, Hc. eexists. split; [done|]. done. Qed.

Lemma ready_loop_diverges fuel k t : self_loop (tcbs k) t -> ready_loop fuel t k = NoFuel.
Proof.
  revert k. induction fuel as [|fuel IH]; intros k [Ht (c & Hc & Hn)]; [done|]. cbn [ready_loop].
  rewrite (proj2 (Z.eqb_neq t NULL) Ht), (bind_step _ _ _ _ _ (tcb_Done _ _ _ Hc)).
  rewrite (bind_step _ _ _ _ _ (upd_tcb_Done k t _ (mk_is_Some _ _ Hc))).
  rewrite (bind_step _ _ _ _ _ (upd_tcb_Done (set_tcbs _ k) t _ (is_Some_alter _ _ _ _ (mk_is_Some _ _ Hc)))).
  rewrite Hn. apply IH. split; [done|]. cbn. rewrite !lookup_alter_eq, Hc. eexists. split; [done|]. done.
Qed.

Lemma waiters_no_loop m h ts t : waiters m h ts -> t ∈ ts -> ~ self_loop m t.
Proof.
  intros Hw Ht [Ht0 (c & Hc & Hn)]. apply list_elem_of_split in Ht as (l1 & l2 & ->).
  pose proof (waiters_suffix _ _ _ _ _ Hw) as H. pose proof H as (_ & _ & d & Hd & Hr). rewrite Hc in Hd. injection Hd as <-.
  rewrite Hn in Hr. pose proof (waiters_det _ _ _ _ H Hr) as E. apply (f_equal length) in E. cbn in E. lia.
Qed.

Lemma alter_compose_eq (m : gmap Z tcb_t) t f g : alter g t (alter f t m) = alter (fun c => g (f c)) t m.
Proof.
  apply map_eq. intros x. destruct (decide (x = t)) as [->|Hx].
  - rewrite !lookup_alter_eq. by destruct (m !! t).
  - by rewrite !lookup_alter_ne.
Qed.

(** The walk over a null-terminated list makes exactly its tasks READY. *)
Lemma ready_loop_Done fuel k h ts :
  waiters (tcbs k) h ts -> (length ts < fuel)%nat ->
  exists m, ready_loop fuel h k = Done (tt, set_tcbs m k) /\
    forall t, m !! t = if decide (t ∈ ts) then released_tcb <$> tcbs k !! t else tcbs k !! t.
Proof.
  revert fuel h k. induction ts as [|t ts IH]; intros fuel h k Hw Hf; (destruct fuel as [|fuel]; [cbn in Hf; lia|]).
  - cbn in Hw. subst h. exists (tcbs k). split; [by destruct k|]. intros t. by rewrite decide_False by apply not_elem_of_nil.
  - pose proof (waiters_nodup _ _ _ Hw) as [Hnt Hnd]%NoDup_cons. destruct Hw as (-> & Ht & c & Hc & Hr).
    cbn [ready_loop]. rewrite (proj2 (Z.eqb_neq t NULL) Ht), (bind_step _ _ _ _ _ (tcb_Done _ _ _ Hc)).
    rewrite (bind_step _ _ _ _ _ (upd_tcb_Done k t _ (mk_is_Some _ _ Hc))).
    rewrite (bind_step _ _ _ _ _ (upd_tcb_Done (set_tcbs _ k) t _ (is_Some_alter _ _ _ _ (mk_is_Some _ _ Hc)))).
    cbn [tcbs set_tcbs]. rewrite alter_compose_eq. change (set_tcbs ?m (set_tcbs _ k)) with (set_tcbs m k).
    set (m1 := alter _ t (tcbs k)). destruct (IH fuel (t_block_next c) (set_tcbs m1 k)) as (m & E & Hm).
    + eapply waiters_frame; [|exact Hr]. intros x d Hx Hd. unfold m1. cbn. rewrite lookup_alter_ne by (by intros <-). eauto.
    + cbn in Hf. lia.
    + exists m. split; [exact E|]. intros x. rewrite Hm. cbn [tcbs set_tcbs]. unfold m1. destruct (decide (x = t)) as [->|Hx].
      * rewrite decide_False, decide_True by (by left || done). by rewrite lookup_alter_eq.
      * rewrite lookup_alter_ne by done. destruct (decide (x ∈ ts)).
        { by rewrite decide_True by (by right). }
        rewrite decide_False; [done|]. by apply not_elem_of_cons.
Qed.

(** ** Leaving the list *)

Lemma waiters_remove m h l1 t l2 c :
  waiters m h (l1 ++ t :: l2) -> m !! t = Some c -> l1 <> [] ->
  waiters (alter (set_t_block_next (t_block_next c)) (last_or NULL l1) m) h (l1 ++ l2).
Proof.
  revert h. induction l1 as [|x l1 IH]; intros h Hw Hc Hne; [done|].
  pose proof (waiters_nodup _ _ _ Hw) as [Hnx Hnd]%NoDup_cons. destruct Hw as (-> & Hx & d & Hd & Hr).
  destruct l1 as [|y l1].
  - cbn [last_or app] in *. split; [done|]. split; [done|]. exists (set_t_block_next (t_block_next c) d).
    rewrite lookup_alter_eq, Hd. split; [done|]. cbn. destruct Hr as (_ & _ & c' & Hc' & Hr). rewrite Hc in Hc'. injection Hc' as <-.
    eapply waiters_frame; [|exact Hr]. intros z e Hz He. rewrite lookup_alter_ne; [eauto|].
    intros <-. apply Hnx. by right.
  - cbn [last_or app] in *. split; [done|]. split; [done|]. exists d.
    assert (last_or y l1 ∈ y :: l1) as Hl by (change (last_or y l1) with (last_or NULL (y :: l1)); by apply last_or_in).
    rewrite lookup_alter_ne.
    + split; [done|]. apply (IH (t_block_next d)); [exact Hr|done|done].
    + intros E. apply Hnx. rewrite <- E. exact (proj2 (elem_of_app (y :: l1) (t :: l2) _) (or_introl Hl)).
Qed.

Lemma remove_loop_Done fuel k self h h0 l1 l2 c prev :
  waiters (tcbs k) h (l1 ++ self :: l2) -> tcbs k !! self = Some c -> (length l1 < fuel)%nat ->
  (prev = NULL \/ is_Some (tcbs k !! prev)) -> NULL ∉ l1 ->
  remove_loop false fuel self h0 prev h k =
    Done (if last_or prev l1 =? NULL then (t_block_next c, k)
          else (h0, set_tcbs (alter (set_t_block_next (t_block_next c)) (last_or prev l1) (tcbs k)) k)).
Proof.
  revert h prev fuel. induction l1 as [|x l1 IH]; intros h prev fuel Hw Hc Hf Hp Hn0; (destruct fuel as [|fuel]; [cbn in Hf; lia|]).
  - destruct Hw as (-> & Ht & _). cbn [remove_loop last_or]. rewrite (proj2 (Z.eqb_neq self NULL) Ht).
    rewrite (bind_step _ _ _ _ _ (tcb_Done _ _ _ Hc)), Z.eqb_refl. destruct (Z.eqb_spec prev NULL) as [|Hpn]; [done|].
    destruct Hp as [?|Hp]; [done|]. unfold mbind at 1, M_bind. by rewrite (bind_step _ _ _ _ _ (upd_tcb_Done k prev _ Hp)).
  - pose proof (waiters_nodup _ _ _ Hw) as [Hnx Hnd]%NoDup_cons. destruct Hw as (-> & Hx & d & Hd & Hr).
    cbn [remove_loop last_or]. rewrite (proj2 (Z.eqb_neq x NULL) Hx), (bind_step _ _ _ _ _ (tcb_Done _ _ _ Hd)).
    rewrite (proj2 (Z.eqb_neq x self)) by (intros ->; apply Hnx, elem_of_app; right; left).
    apply IH; [exact Hr|done|cbn in Hf; lia|right; eauto|]. by apply not_elem_of_cons in Hn0 as [_ ?].
Qed.

(** A waiter leaves the list and the rest stays in order. *)
Lemma remove_waiter_Done k self h l1 l2 :
  waiters (tcbs k) h (l1 ++ self :: l2) ->
  exists h' m, remove_waiter false self h k = Done (h', set_tcbs m k) /\ waiters m h' (l1 ++ l2) /\
    forall t c, tcbs k !! t = Some c -> exists n, m !! t = Some (set_t_block_next n c).
Proof.
  intros Hw. destruct (waiters_some _ _ _ self Hw) as [c Hc]; [apply elem_of_app; right; left|].
  pose proof (waiters_length _ _ _ Hw) as Hlen. rewrite length_app in Hlen. pose proof (waiters_null _ _ _ Hw) as Hn0.
  unfold remove_waiter. rewrite bind_gets.
  rewrite (remove_loop_Done (ring_fuel k) k self h h l1 l2 c NULL Hw Hc); [|unfold ring_fuel; lia|by left|].
  2: { intros Hx. apply Hn0, elem_of_app. by left. }
  assert (forall (m : gmap Z tcb_t) p n, m = alter (set_t_block_next n) p (tcbs k) ->
    forall t c, tcbs k !! t = Some c -> exists n, m !! t = Some (set_t_block_next n c)) as Hall.
  { intros m p n -> t d Hd. destruct (decide (t = p)) as [->|]; [rewrite lookup_alter_eq, Hd; by eexists|].
    rewrite lookup_alter_ne, Hd by done. exists (t_block_next d). by destruct d. }
  destruct (decide (l1 = [])) as [->|Hne].
  - cbn [last_or app] in *. rewrite Z.eqb_refl. exists (t_block_next c), (tcbs k). split; [by destruct k|].
    destruct Hw as (_ & _ & d & Hd & Hr). rewrite Hc in Hd. injection Hd as <-. split; [done|].
    intros t d Hd. exists (t_block_next d). rewrite Hd. by destruct d.
  - assert (last_or NULL l1 <> NULL) as Hl.
    { intros E. apply Hn0, elem_of_app. left. rewrite <- E. by apply last_or_in. }
    rewrite (proj2 (Z.eqb_neq _ NULL) Hl). eexists _, _. split; [reflexivity|]. split; [by apply (waiters_remove _ _ _ self)|].
    by eapply Hall.
Qed.

(** ** The kernel around a waiting task *)

(** Field updates that the scheduler's invariant does not see. *)
Lemma kernel_inv_alter k rq t f :
  kernel_inv k rq ->
  (forall d, t_next (f d) = t_next d /\ t_prev (f d) = t_prev d /\ same_core d (f d)) ->
  (forall d, t_state (f d) = TASK_SUSPENDED -> t_state d = TASK_SUSPENDED) ->
  kernel_inv (set_tcbs (alter f t (tcbs k)) k) rq.
Proof.
  intros Hk Hf Hs. apply (kernel_inv_step k rq); try done; cbn.
  - apply wf_alter; [apply Hk|]. intros d. destruct (Hf d) as (? & ? & _ & _ & ?). done.
  - intros x c' Hx. destruct (decide (x = t)) as [->|Hne].
    + rewrite lookup_alter_eq in Hx. destruct (tcbs k !! t) as [c|] eqn:Hc; [|done]. injection Hx as <-. exists c.
      split; [done|]. split; [by apply Hf|]. intros H. by apply (ki_suspended _ _ Hk t c Hc), Hs.
    + rewrite lookup_alter_ne in Hx by done. exists c'. split; [done|]. split; [done|]. by apply (ki_suspended _ _ Hk).
  - destruct (ki_current _ _ Hk); [by left|right]. by apply is_Some_alter.
Qed.

Lemma kernel_inv_nesting k rq n : kernel_inv k rq -> 0 <= n < UINT32_MAX -> kernel_inv (set_critical_nesting n k) rq.
Proof. intros [[] ? ? ? ?] Hn. constructor; done. Qed.

(** The calling task runs: it is the current task, in its ready list but not at its
    head, and [n] critical sections are open. *)
Definition running_task (self n : Z) (k : kernel_t) : Prop :=
  current_task k = self /\ critical_nesting k = n /\
  exists rq p l1 l2, kernel_inv k rq /\ rq !! p = Some (l1 ++ self :: l2) /\ l1 <> [].

Lemma running_some self n k : running_task self n k -> self <> NULL /\ is_Some (tcbs k !! self).
Proof.
  intros (_ & _ & rq & p & l1 & l2 & Hk & Hp & _).
  assert (is_Some (tcbs k !! self)) as [c Hc].
  { eapply linked_tcb; [apply Hk|]. exists p, (l1 ++ self :: l2). split; [done|]. apply elem_of_app. right. left. }
  split; [|by exists c]. by destruct (kw_own _ _ (ki_wf _ _ Hk) _ _ Hc) as [? _].
Qed.

Lemma running_alter self n k t f :
  running_task self n k ->
  (forall d, t_next (f d) = t_next d /\ t_prev (f d) = t_prev d /\ same_core d (f d)) ->
  (forall d, t_state (f d) = TASK_SUSPENDED -> t_state d = TASK_SUSPENDED) ->
  running_task self n (set_tcbs (alter f t (tcbs k)) k).
Proof.
  intros (Hc & Hn & rq & p & l1 & l2 & Hk & Hp & Hl) Hf Hs. split; [done|]. split; [done|].
  exists rq, p, l1, l2. split; [by apply kernel_inv_alter|done].
Qed.

Lemma running_nesting self n n' k :
  running_task self n k -> 0 <= n' < UINT32_MAX -> running_task self n' (set_critical_nesting n' k).
Proof.
  intros (Hc & Hn & rq & p & l1 & l2 & Hk & Hp & Hl) Hn'. split; [done|]. split; [done|].
  exists rq, p, l1, l2. split; [by apply kernel_inv_nesting|done].
Qed.

Lemma enter_running self n k :
  running_task self n k -> n + 1 < UINT32_MAX ->
  task_enter_critical k = Done (tt, set_critical_nesting (n + 1) k) /\ running_task self (n + 1) (set_critical_nesting (n + 1) k).
Proof.
  intros H Hn. pose proof H as (_ & En & rq & p & l1 & l2 & Hk & _). pose proof (ki_nesting _ _ Hk) as Hr. rewrite En in Hr.
  unfold task_enter_critical, modify. rewrite En, u32_small by (unfold UINT32_MAX in *; lia). split; [done|].
  apply (running_nesting _ n); [done|lia].
Qed.

Lemma exit_running self n k :
  running_task self (n + 1) k -> 0 <= n ->
  task_exit_critical k = Done (tt, set_critical_nesting n k) /\ running_task self n (set_critical_nesting n k).
Proof.
  intros H Hn. pose proof H as (_ & En & rq & p & l1 & l2 & Hk & _). pose proof (ki_nesting _ _ Hk) as Hr. rewrite En in Hr.
  unfold task_exit_critical, modify. rewrite En, u32_small by (unfold UINT32_MAX in *; lia). replace (n + 1 - 1) with n by lia.
  split; [done|]. apply (running_nesting _ (n + 1)); [done|unfold UINT32_MAX in *; lia].
Qed.

(** Sleeping for one tick only changes the task itself and requests a switch. *)
Lemma delay_running self n k :
  running_task self n k ->
  exists k', task_delay 1 k = Done (tt, k') /\ running_task self n k' /\ tick_count k' = tick_count k /\
    context_switch_pending k' = true /\
    forall t, t_block_next <$> tcbs k' !! t = t_block_next <$> tcbs k !! t.
Proof.
  intros H. destruct (running_some _ _ _ H) as [_ [c Hc]]. destruct H as (Ec & En & rq & p & l1 & l2 & Hk & Hp & Hl).
  pose proof (kw_sched _ _ (ki_wf _ _ Hk)) as Hwf.
  destruct (task_delay_spec k rq p l1 self l2 c 1 Hwf Hp Ec Hc ltac:(lia) (ki_nesting _ _ Hk))
    as (k' & E & Hw & Hs & (_ & Ec' & Et & _ & En') & Hpend & Hr).
  destruct (delay_refines 0 k rq 1 Hk) as (k2 & rq2 & E2 & Hk2 & _).
  { right. split; [lia|]. rewrite Ec. exists p, (l1 ++ self :: l2). split; [done|]. apply elem_of_app. right. left. }
  rewrite E in E2. injection E2 as <-. rewrite decide_False, list_insert_id in Hw by done.
  apply (kernel_inv_unique _ _ rq) in Hk2; [|done].
  exists k'. split; [done|]. split; [|split; [done|split; [done|]]].
  - split; [congruence|]. split; [congruence|]. by exists rq, p, l1, l2.
  - intros t. destruct (decide (t = self)) as [->|Hne]; [by rewrite Hs, Hc|].
    destruct (Hr t) as [_ [(d & a & b & Hd & E')|[Hd E']]]; rewrite lookup_insert_ne in E' by done; rewrite Hd, E'; done.
Qed.

(** ** One round of the blocking loop *)

Definition now {Obj G} (w : sync Obj G) : Z := tick_count (kern w).

Section rounds.
Context {Obj G : Type}.
Context (pend : M (sync Obj G) unit) (blocked : M (sync Obj G) bool) (block on_zero remove : M (sync Obj G) unit).
Context (timeout start : Z).
Notation loop := (wait_loop pend blocked block on_zero remove timeout start).

Lemma wait_loop_exit fuel w : blocked w = Done (false, w) -> loop (S fuel) w = Done (None, w).
Proof. intros Hb. cbn [wait_loop]. by rewrite (bind_step _ _ _ _ _ Hb). Qed.

Lemma wait_loop_zero fuel w :
  blocked w = Done (true, w) -> timeout = 0 ->
  loop (S fuel) w = (on_zero;; on_kern task_exit_critical;; mret (Some 0)) w.
Proof. intros Hb ->. cbn [wait_loop]. by rewrite (bind_step _ _ _ _ _ Hb). Qed.

Lemma wait_loop_round fuel w w1 :
  blocked w = Done (true, w) -> timeout <> 0 ->
  (block;; on_kern task_exit_critical;; on_kern (task_delay 1);; pend) w = Done (tt, w1) ->
  loop (S fuel) w =
    (if (timeout <? UINT32_MAX) && (timeout <=? now w1 -32 start)
     then (on_kern task_enter_critical;; remove;; on_kern task_exit_critical) ≫= fun _ => mret (Some (-2))
     else on_kern task_enter_critical;; loop fuel) w1.
Proof.
  intros Hb Ht E. cbn [wait_loop]. rewrite (bind_step _ _ _ _ _ Hb), (proj2 (Z.eqb_neq timeout 0) Ht). cbn [negb].
  transitivity (((block;; on_kern task_exit_critical;; on_kern (task_delay 1);; pend) ≫= fun _ =>
    (now0 ← on_kern task_get_tick_count;
     if (timeout <? UINT32_MAX) && (timeout <=? now0 -32 start) then
       on_kern task_enter_critical;; remove;; on_kern task_exit_critical;; mret (Some (-2))
     else on_kern task_enter_critical;; loop fuel)) w).
  { unfold mbind, M_bind. destruct (block w) as [[[] ?]| |]; try done.
    destruct (on_kern task_exit_critical s) as [[[] ?]| |]; try done. by destruct (on_kern (task_delay 1) s0) as [[[] ?]| |]. }
  rewrite (bind_step _ _ _ _ _ E), (bind_step _ _ w1 (now w1) w1) by (by destruct w1).
  destruct (_ && _); [|done]. unfold mbind, M_bind. destruct (on_kern task_enter_critical w1) as [[[] ?]| |]; try done.
  by destruct (remove s) as [[[] ?]| |].
Qed.
End rounds.

(** Ticks since [start], at 32 bits. *)
Lemma elapsed_of start j : 0 <= j < 4294967296 -> start +32 j -32 start = j.
Proof. intros Hj. unfold u32. rewrite Zminus_mod_idemp_l. replace (start + j - start) with j by lia. by apply Z.mod_small. Qed.

Lemma tick_add start j d : start +32 j +32 d = start +32 (j + d).
Proof. unfold u32. rewrite Zplus_mod_idemp_l. f_equal. lia. Qed.

(** ** Termination of the blocking loop

    The variant is the time left: every round advances the tick by at least one. *)
Section loop.
Context {Obj G : Type}.
Context (pend : M (sync Obj G) unit) (blocked : M (sync Obj G) bool) (block on_zero remove : M (sync Obj G) unit).
Context (timeout start D : Z).
(** [I]: at the loop's test; [J]: outside the critical section, after a sleep; [Q]: after a timeout. *)
Context (I J Q : sync Obj G -> Prop).

Definition elapsed (w : sync Obj G) : Z := now w -32 start.

Hypothesis Htimeout : 0 < timeout.
Hypothesis HD : timeout + D < UINT32_MAX.
Hypothesis Hblocked : forall w, I w -> exists b, blocked w = Done (b, w).
Hypothesis Hround : forall w, I w -> blocked w = Done (true, w) ->
  exists w' d, (block;; on_kern task_exit_critical;; on_kern (task_delay 1);; pend) w = Done (tt, w') /\ J w' /\
    now w' = now w +32 d /\ 1 <= d <= D.
Hypothesis Hremove : forall w, J w -> exists w', (on_kern task_enter_critical;; remove;; on_kern task_exit_critical) w = Done (tt, w') /\ Q w'.
Hypothesis Henter : forall w, J w -> exists w', on_kern task_enter_critical w = Done (tt, w') /\ I w' /\ now w' = now w.

Lemma elapsed_step w w' d :
  now w' = now w +32 d -> 1 <= d <= D -> 0 <= elapsed w < timeout -> elapsed w' = elapsed w + d.
Proof.
  intros E Hd He. unfold elapsed in *. rewrite E. rewrite <- (u32_small (u32 (now w - start) + d)) by (unfold UINT32_MAX in *; lia).
  unfold u32. rewrite Zminus_mod_idemp_l, Zplus_mod_idemp_l. f_equal. lia.
Qed.

Theorem wait_loop_returns fuel w :
  I w -> 0 <= elapsed w < timeout -> (Z.to_nat (timeout - elapsed w) < fuel)%nat ->
  exists r w', wait_loop pend blocked block on_zero remove timeout start fuel w = Done (r, w') /\
    (r = None /\ I w' /\ blocked w' = Done (false, w') /\ elapsed w' < timeout \/ r = Some (-2) /\ Q w').
Proof.
  revert w. induction fuel as [|fuel IH]; intros w HI He Hf; [lia|].
  destruct (Hblocked w HI) as [[|] Hb].
  2: { exists None, w. rewrite wait_loop_exit by done. split; [done|]. left. split_and!; try done. lia. }
  destruct (Hround w HI Hb) as (w1 & d & E1 & HJ & Hn & Hd). pose proof (elapsed_step w w1 d Hn Hd He) as He1.
  assert (timeout <> 0) as Ht0 by lia.
  rewrite (wait_loop_round _ _ _ _ _ _ _ _ _ _ Hb Ht0 E1), (proj2 (Z.ltb_lt timeout UINT32_MAX)) by lia.
  cbn [andb]. fold (elapsed w1). destruct (Z.leb_spec timeout (elapsed w1)).
  - destruct (Hremove w1 HJ) as (w2 & E2 & HQ). exists (Some (-2)), w2. rewrite (bind_step _ _ _ _ _ E2). split; [done|by right].
  - destruct (Henter w1 HJ) as (w2 & E2 & HI2 & Hn2). rewrite (bind_step _ _ _ _ _ E2).
    assert (elapsed w2 = elapsed w1) as He2 by (unfold elapsed; by rewrite Hn2).
    apply IH; [done|lia|]. rewrite He2, He1. lia.
Qed.
End loop.

(** ** A kernel with a running task *)

Lemma demo_running : running_task 4752 0 demo_rr.
Proof.
  split; [vm_compute; reflexivity|]. split; [vm_compute; reflexivity|].
  exists (queues demo_rr), 5%nat, [4440], []. split; [exact demo_rr_inv|]. split; [vm_compute; reflexivity|done].
Qed.

Lemma running_tick self n k x : running_task self n k -> running_task self n (set_tick_count x k).
Proof.
  intros (Hc & Hn & rq & p & l1 & l2 & Hk & Hp & Hl). split; [done|]. split; [done|]. exists rq, p, l1, l2.
  split; [|done]. by apply (kernel_inv_refl k).
Qed.
