(* ===== verification/Semaphore.v ===== *)
(** * Semaphores (mini-rtos/src/semaphore_mutex.c, first half)

    Counting semaphores by address; a deleted one is no longer in the store.  The
    theorems give every branch of the calls that do not block, the outcome of a
    timed take for every moment at which the semaphore is given, and what is left on the
    waiter list when a task slept more than once. *)
From S2P Require Import Prelude MemoryHeap Scheduler SchedulerSpec WaitList.

Record semaphore_t := Semaphore { s_count : Z; s_max_count : Z; s_blocked_tasks : Z; s_name : list Z }.
Definition sizeof_semaphore : Z := 32.
Definition set_s_count x s := Semaphore x (s_max_count s) (s_blocked_tasks s) (s_name s).
Definition set_s_blocked x s := Semaphore (s_count s) (s_max_count s) x (s_name s).

Notation SM := (M (sync semaphore_t unit)).

Definition semaphore_create_counting (max_count initial_count : Z) (name : option (list Z)) : SM Z :=
  if (max_count =? 0) || (max_count <? initial_count) then mret NULL
  else
    sem ← on_kern (on_heap (malloc_rtos sizeof_semaphore));
    if sem =? NULL then mret NULL
    else
      on_kern (on_heap (memset sem 0 sizeof_semaphore));;
      put_obj sem (Semaphore initial_count max_count NULL (object_name name));;
      mret sem.

Definition semaphore_create_binary (name : option (list Z)) : SM Z := semaphore_create_counting 1 1 name.

Definition semaphore_delete (fuel : nat) (sem : Z) : SM unit :=
  if sem =? NULL then mret tt
  else
    on_kern task_enter_critical;;
    s ← obj sem;
    on_kern (ready_loop fuel (s_blocked_tasks s));;
    on_kern task_exit_critical;;
    on_kern (on_heap (free_rtos sem));;
    drop_obj sem.

Definition semaphore_block_task (sem task : Z) : SM unit :=
  s ← obj sem;
  h ← on_kern (block_task sem (s_blocked_tasks s) task);
  upd_obj sem (set_s_blocked h).

Definition semaphore_unblock_task (sem : Z) : SM unit :=
  s ← obj sem;
  h ← on_kern (unblock_task (s_blocked_tasks s));
  upd_obj sem (set_s_blocked h).

Definition semaphore_empty (sem : Z) : SM bool := s ← obj sem; mret (s_count s =? 0).

Definition semaphore_leave (sem : Z) : SM unit :=
  self ← on_kern task_get_current;
  s ← obj sem;
  h ← on_kern (remove_waiter false self (s_blocked_tasks s));
  upd_obj sem (set_s_blocked h).

Definition semaphore_take (pend : SM unit) (fuel : nat) (sem timeout_ticks : Z) : SM Z :=
  start ← on_kern task_get_tick_count;
  if sem =? NULL then mret (-1)
  else
    on_kern task_enter_critical;;
    r ← wait_loop pend (semaphore_empty sem)
          (self ← on_kern task_get_current; semaphore_block_task sem self) (mret tt) (semaphore_leave sem)
          timeout_ticks start fuel;
    match r with
    | Some r => mret r
    | None =>
        upd_obj sem (fun s => set_s_count (s_count s -32 1) s);;
        on_kern task_exit_critical;;
        mret 1
    end.

Definition semaphore_add (sem : Z) : SM unit :=
  s ← obj sem;
  when (s_count s <? s_max_count s) (upd_obj sem (fun s => set_s_count (s_count s +32 1) s)).

Definition semaphore_give (sem : Z) : SM Z :=
  if sem =? NULL then mret (-1)
  else
    on_kern task_enter_critical;;
    semaphore_add sem;;
    s ← obj sem;
    when (truthy (s_blocked_tasks s)) (semaphore_unblock_task sem);;
    on_kern task_exit_critical;;
    mret 1.

(** The second result: [*woken] was set to 1 (for a non-null [woken]). *)
Definition semaphore_give_from_isr (sem : Z) : SM (Z * bool) :=
  if sem =? NULL then mret (-1, false)
  else
    semaphore_add sem;;
    s ← obj sem;
    when (truthy (s_blocked_tasks s)) (semaphore_unblock_task sem);;
    mret (1, truthy (s_blocked_tasks s)).

Definition semaphore_get_count (sem : Z) : SM Z :=
  if sem =? NULL then mret 0 else s ← obj sem; mret (s_count s).


(** ** Branches that do not block *)

Section calls.
Context (pend : SM unit).
Implicit Types (w : sync semaphore_t unit).

Lemma semaphore_add_Done w p s :
  objs w !! p = Some s -> 0 <= s_count s <= s_max_count s -> s_max_count s < 4294967296 ->
  semaphore_add p w = Done (tt, set_objs (<[p := set_s_count (Z.min (s_count s + 1) (s_max_count s)) s]> (objs w)) w).
Proof.
  intros Hs Hc Hm. unfold semaphore_add. rewrite (bind_step _ _ _ _ _ (obj_Done _ _ _ Hs)).
  destruct (Z.ltb_spec (s_count s) (s_max_count s)); cbn [when].
  - rewrite (upd_obj_Done _ _ _ _ Hs), u32_small by lia. by rewrite Z.min_l by lia.
  - rewrite Z.min_r by lia. replace (set_s_count (s_max_count s) s) with s by (destruct s; cbn [s_count s_max_count set_s_count] in *; unfold set_s_count; cbn [s_max_count s_blocked_tasks s_name]; f_equal; lia).
    rewrite insert_id by done. by destruct w.
Qed.

Lemma semaphore_unblock_Done w p s c :
  objs w !! p = Some s -> s_blocked_tasks s <> NULL -> tcbs (kern w) !! s_blocked_tasks s = Some c ->
  semaphore_unblock_task p w =
    Done (tt, Sync (set_tcbs (alter woken_tcb (s_blocked_tasks s) (tcbs (kern w))) (kern w))
                   (<[p := set_s_blocked (t_block_next c) s]> (objs w)) (glob w)).
Proof.
  intros Hs Hb Hc. unfold semaphore_unblock_task. rewrite (bind_step _ _ _ _ _ (obj_Done _ _ _ Hs)).
  rewrite (bind_step _ _ _ _ _ (on_kern_Done _ _ _ _ (unblock_task_Done _ _ _ Hb Hc))).
  exact (upd_obj_Done (set_kern _ w) p s _ Hs).
Qed.

(** What a give does to the state: the count and, if a task waits, the list. *)
Definition given (w : sync semaphore_t unit) (p : Z) (s : semaphore_t) : sync semaphore_t unit :=
  let s1 := set_s_count (Z.min (s_count s + 1) (s_max_count s)) s in
  match tcbs (kern w) !! s_blocked_tasks s with
  | Some c =>
      if truthy (s_blocked_tasks s) then
        Sync (set_tcbs (alter woken_tcb (s_blocked_tasks s) (tcbs (kern w))) (kern w))
             (<[p := set_s_blocked (t_block_next c) s1]> (objs w)) (glob w)
      else set_objs (<[p := s1]> (objs w)) w
  | None => set_objs (<[p := s1]> (objs w)) w
  end.

Lemma give_core w p s :
  objs w !! p = Some s -> 0 <= s_count s <= s_max_count s -> s_max_count s < 4294967296 ->
  (s_blocked_tasks s = NULL \/ is_Some (tcbs (kern w) !! s_blocked_tasks s)) ->
  forall {A} (r : bool -> A),
  (semaphore_add p;; s ← obj p; when (truthy (s_blocked_tasks s)) (semaphore_unblock_task p);;
   mret (r (truthy (s_blocked_tasks s)))) w = Done (r (truthy (s_blocked_tasks s)), given w p s).
Proof.
  intros Hs Hc Hm Hb A r. rewrite (bind_step _ _ _ _ _ (semaphore_add_Done w p s Hs Hc Hm)).
  set (s1 := set_s_count _ s). set (w1 := set_objs _ w).
  assert (objs w1 !! p = Some s1) as Hs1 by (unfold w1; cbn; by rewrite lookup_insert_eq).
  rewrite (bind_step _ _ _ _ _ (obj_Done _ _ _ Hs1)). change (s_blocked_tasks s1) with (s_blocked_tasks s).
  unfold given. fold s1. unfold truthy. change 0 with NULL. destruct (Z.eqb_spec (s_blocked_tasks s) NULL) as [E|Hne]; cbn [negb when].
  - rewrite bind_ret. destruct (tcbs (kern w) !! _); done.
  - destruct Hb as [?|[c Hbc]]; [done|]. rewrite Hbc.
    rewrite (bind_step _ _ _ _ _ (semaphore_unblock_Done w1 p s1 c Hs1 Hne Hbc)). unfold w1. cbn [objs set_objs kern glob].
    by rewrite insert_insert_eq.
Qed.

Lemma given_nesting w p s n : given (set_kern (set_critical_nesting n (kern w)) w) p s = set_kern (set_critical_nesting n (kern (given w p s))) (given w p s).
Proof. unfold given. cbn. destruct (tcbs (kern w) !! _); [|done]. by destruct (truthy _). Qed.

Lemma given_kern_nesting w p s : critical_nesting (kern (given w p s)) = critical_nesting (kern w).
Proof. unfold given. destruct (tcbs (kern w) !! _); [|done]. by destruct (truthy _). Qed.

Lemma give_Done w p s :
  p <> NULL -> objs w !! p = Some s -> 0 <= s_count s <= s_max_count s -> s_max_count s < 4294967296 ->
  0 <= critical_nesting (kern w) < UINT32_MAX ->
  (s_blocked_tasks s = NULL \/ is_Some (tcbs (kern w) !! s_blocked_tasks s)) ->
  semaphore_give p w = Done (1, given w p s).
Proof.
  intros Hp Hs Hc Hm Hn Hb. unfold semaphore_give. rewrite (proj2 (Z.eqb_neq p NULL) Hp), (bind_step _ _ _ _ _ (enter_Done w)).
  set (n := critical_nesting (kern w)) in *. set (w1 := set_kern (set_critical_nesting (n +32 1) (kern w)) w).
  pose proof (give_core w1 p s Hs Hc Hm Hb (fun _ => tt)) as E.
  transitivity (((semaphore_add p;; s ← obj p; when (truthy (s_blocked_tasks s)) (semaphore_unblock_task p);; mret tt) ≫=
    fun _ => on_kern task_exit_critical;; mret 1) w1).
  { rewrite bind_assoc. unfold mbind, M_bind. destruct (semaphore_add p w1) as [[[] w2]| |]; try done.
    destruct (obj p w2) as [[s2 w3]| |]; try done. by destruct (when _ _ w3) as [[[] w4]| |]. }
  rewrite (bind_step _ _ _ _ _ E). unfold w1. rewrite given_nesting.
  set (g := given w p s). rewrite (bind_step _ _ _ _ _ (exit_Done (set_kern (set_critical_nesting (n +32 1) (kern g)) g) n eq_refl Hn)).
  rewrite set_kern_twice. cbn [kern set_kern].
  change (set_critical_nesting n (set_critical_nesting (n +32 1) ?k)) with (set_critical_nesting n k).
  rewrite nesting_id, set_kern_id; [done|]. by unfold g; rewrite given_kern_nesting.
Qed.

Lemma take_available w p s fuel timeout :
  p <> NULL -> objs w !! p = Some s -> s_count s <> 0 -> 0 <= critical_nesting (kern w) < UINT32_MAX ->
  semaphore_take pend (S fuel) p timeout w = Done (1, set_objs (<[p := set_s_count (s_count s -32 1) s]> (objs w)) w).
Proof.
  intros Hp Hs Hc Hn. unfold semaphore_take, task_get_tick_count.
  rewrite (bind_step _ _ w _ w) by (by destruct w). rewrite (proj2 (Z.eqb_neq p NULL) Hp), (bind_step _ _ _ _ _ (enter_Done w)).
  set (n := critical_nesting (kern w)) in *. set (w1 := set_kern (set_critical_nesting (n +32 1) (kern w)) w).
  cbn [wait_loop]. rewrite (bind_step _ _ w1 None w1).
  2: { unfold semaphore_empty. rewrite bind_assoc, (bind_step _ _ _ _ _ (obj_Done w1 p s Hs)), bind_ret.
       by rewrite (proj2 (Z.eqb_neq _ 0) Hc). }
  rewrite (bind_step _ _ _ _ _ (upd_obj_Done w1 p s _ Hs)).
  rewrite (bind_step _ _ _ _ _ (exit_Done (set_objs _ w1) n eq_refl Hn)).
  unfold w1, set_kern, set_objs. cbn [kern objs glob].
  change (set_critical_nesting n (set_critical_nesting (n +32 1) ?k)) with (set_critical_nesting n k). by rewrite nesting_id.
Qed.

Lemma take_poll w p s fuel :
  p <> NULL -> objs w !! p = Some s -> s_count s = 0 -> 0 <= critical_nesting (kern w) < UINT32_MAX ->
  semaphore_take pend (S fuel) p 0 w = Done (0, w).
Proof.
  intros Hp Hs Hc Hn. unfold semaphore_take, task_get_tick_count.
  rewrite (bind_step _ _ w _ w) by (by destruct w). rewrite (proj2 (Z.eqb_neq p NULL) Hp), (bind_step _ _ _ _ _ (enter_Done w)).
  set (n := critical_nesting (kern w)) in *. set (w1 := set_kern (set_critical_nesting (n +32 1) (kern w)) w).
  cbn [wait_loop]. rewrite (bind_step _ _ w1 (Some 0) w).
  2: { unfold semaphore_empty. rewrite bind_assoc, (bind_step _ _ _ _ _ (obj_Done w1 p s Hs)), bind_ret, Hc. cbn [Z.eqb negb].
       rewrite bind_ret, (bind_step _ _ _ _ _ (exit_Done w1 n eq_refl Hn)). unfold w1. rewrite set_kern_twice. cbn [kern set_kern].
       change (set_critical_nesting n (set_critical_nesting (n +32 1) ?k)) with (set_critical_nesting n k).
       by rewrite nesting_id, set_kern_id. }
  done.
Qed.
End calls.

(** ** A timed take while the semaphore is given once

    The environment of the waiting task: at every sleep the other tasks and the
    interrupts may do to the kernel what keeps the waiting task runnable and its
    [block_next] as it is, the tick advances by one, and at [g] ticks after the start
    of the call the semaphore is given, once. *)
Section timed.
Context (pend : SM unit) (p self n g start : Z).
Implicit Types (w : sync semaphore_t unit) (k : kernel_t).

Definition gives_at : Prop := forall w s,
  running_task self n (kern w) -> objs w !! p = Some s ->
  exists k, running_task self n k /\ tick_count k = tick_count (kern w) +32 1 /\
    t_block_next <$> tcbs k !! self = t_block_next <$> tcbs (kern w) !! self /\
    pend w = Done (tt, if tick_count k -32 start =? g then given (set_kern k w) p s else set_kern k w).

Hypothesis Hpend : gives_at.
Hypothesis Hp : p <> NULL.
Hypothesis Hn : 0 <= n /\ n + 1 < UINT32_MAX.

Notation block := (self ← on_kern task_get_current; semaphore_block_task p self).

Lemma take_round w s :
  running_task self (n + 1) (kern w) -> objs w !! p = Some s ->
  exists k, (block;; on_kern task_exit_critical;; on_kern (task_delay 1);; pend) w =
      Done (tt, let w1 := Sync k (<[p := set_s_blocked self s]> (objs w)) (glob w) in
                if tick_count k -32 start =? g then given w1 p (set_s_blocked self s) else w1) /\
    running_task self n k /\ tick_count k = now w +32 1 /\ t_block_next <$> tcbs k !! self = Some (s_blocked_tasks s).
Proof.
  intros Hr Hs. destruct (running_some _ _ _ Hr) as [Hself Hsome]. pose proof Hr as (Hcur & _).
  set (f := waiting_tcb p (s_blocked_tasks s)). set (k1 := set_tcbs (alter f self (tcbs (kern w))) (kern w)).
  assert (running_task self (n + 1) k1) as Hr1 by (apply running_alter; [done|done|by intros d]).
  destruct (exit_running _ _ _ Hr1 ltac:(lia)) as [E2 Hr2]. set (k2 := set_critical_nesting n k1) in *.
  destruct (delay_running _ _ _ Hr2) as (k3 & E3 & Hr3 & Ht3 & _ & Hb3).
  set (w3 := Sync k3 (<[p := set_s_blocked self s]> (objs w)) (glob w)).
  destruct (Hpend w3 (set_s_blocked self s) Hr3) as (k & Hrk & Htk & Hbk & E4); [cbn; by rewrite lookup_insert_eq|].
  exists k. split.
  - rewrite bind_assoc. rewrite (bind_step _ _ w self w) by (unfold on_kern, zoom, task_get_current, gets; rewrite Hcur; by destruct w).
    unfold semaphore_block_task. rewrite !bind_assoc, (bind_step _ _ _ _ _ (obj_Done _ _ _ Hs)), bind_assoc.
    rewrite (bind_step _ _ _ _ _ (on_kern_Done _ _ _ _ (block_task_Done _ p (s_blocked_tasks s) _ Hsome))). fold f k1.
    rewrite (bind_step _ _ _ _ _ (upd_obj_Done (set_kern k1 w) p s _ Hs)).
    set (w1 := set_objs _ (set_kern k1 w)).
    rewrite (bind_step _ _ _ _ _ (on_kern_Done task_exit_critical w1 _ _ E2)).
    rewrite (bind_step _ _ _ _ _ (on_kern_Done (task_delay 1) (set_kern k2 w1) _ _ E3)).
    exact E4.
  - split; [done|]. split; [rewrite Htk; cbn; by rewrite Ht3|]. rewrite Hbk. cbn [kern w3]. rewrite Hb3. unfold k2, k1, f. cbn.
    rewrite lookup_alter_eq. destruct Hsome as [c Hc]. by rewrite Hc.
Qed.

Definition timed_result (timeout : Z) (s : semaphore_t) (r : Z) (w' : sync semaphore_t unit) : Prop :=
  r = (if g <? timeout then 1 else -2) /\
  running_task self n (kern w') /\ now w' = start +32 Z.min g timeout /\
  objs w' !! p = Some (set_s_count (if g =? timeout then 1 else 0) (set_s_blocked
    (if g =? timeout then NULL else if Z.min g timeout =? 1 then NULL else self) s)) /\
  t_block_next <$> tcbs (kern w') !! self =
    Some (if g <=? timeout then NULL else if timeout =? 1 then NULL else self).

Lemma given_self w s c :
  tcbs (kern w) !! self = Some c -> self <> NULL -> s_blocked_tasks s = self -> s_count s = 0 -> 1 <= s_max_count s ->
  given w p s = Sync (set_tcbs (alter woken_tcb self (tcbs (kern w))) (kern w))
                     (<[p := set_s_blocked (t_block_next c) (set_s_count 1 s)]> (objs w)) (glob w).
Proof.
  intros Hc Hs Hb H0 Hm. unfold given. rewrite Hb, Hc, H0. unfold truthy. rewrite (proj2 (Z.eqb_neq self 0) Hs). cbn [negb].
  by rewrite Z.min_l by lia.
Qed.

Lemma critical_bracket w (m : SM unit) o :
  running_task self n (kern w) ->
  (forall k, k = set_critical_nesting (n + 1) (kern w) -> m (set_kern k w) = Done (tt, set_objs o (set_kern k w))) ->
  (on_kern task_enter_critical;; m;; on_kern task_exit_critical) w = Done (tt, set_objs o w).
Proof.
  intros Hr Hm. destruct (enter_running _ _ _ Hr ltac:(lia)) as [E1 Hr1].
  rewrite (bind_step _ _ _ _ _ (on_kern_Done _ w _ _ E1)), (bind_step _ _ _ _ _ (Hm _ eq_refl)).
  destruct (exit_running _ _ _ Hr1 ltac:(lia)) as [E2 _].
  rewrite (on_kern_Done task_exit_critical (set_objs o (set_kern _ w)) _ _ E2). do 2 f_equal.
  unfold set_kern, set_objs. cbn [kern objs glob]. f_equal.
  change (set_critical_nesting n (set_critical_nesting (n + 1) ?k)) with (set_critical_nesting n k).
  apply nesting_id. apply Hr.
Qed.

Lemma leave_self w s c :
  running_task self n (kern w) -> objs w !! p = Some s -> tcbs (kern w) !! self = Some c ->
  s_blocked_tasks s = NULL \/ s_blocked_tasks s = self ->
  (on_kern task_enter_critical;; semaphore_leave p;; on_kern task_exit_critical) w =
    Done (tt, set_objs (<[p := set_s_blocked (if s_blocked_tasks s =? NULL then NULL else t_block_next c) s]> (objs w)) w).
Proof.
  intros Hr Hs Hc Hb. destruct (running_some _ _ _ Hr) as [Hself _]. apply critical_bracket; [done|]. intros k ->.
  set (w1 := set_kern _ w). unfold semaphore_leave. pose proof Hr as (Hcur & _).
  rewrite (bind_step _ _ w1 self w1) by (unfold on_kern, zoom, task_get_current, gets; cbn; by rewrite Hcur).
  rewrite (bind_step _ _ _ _ _ (obj_Done w1 p s Hs)).
  assert (remove_waiter false self (s_blocked_tasks s) (kern w1) =
    Done (if s_blocked_tasks s =? NULL then NULL else t_block_next c, kern w1)) as E.
  { unfold remove_waiter. rewrite bind_gets. unfold ring_fuel. cbn [remove_loop].
    destruct Hb as [->| ->]; [done|]. rewrite (proj2 (Z.eqb_neq self NULL) Hself).
    rewrite (bind_step _ _ _ _ _ (tcb_Done (kern w1) self c Hc)), Z.eqb_refl. cbn [Z.eqb NULL]. done. }
  rewrite (bind_step _ _ _ _ _ (on_kern_Done _ w1 _ _ E)). rewrite set_kern_id. exact (upd_obj_Done w1 p s _ Hs).
Qed.

(** The list head and the link of the waiting task after [j] rounds without a give. *)
Definition head_after (j : Z) : Z := if j =? 0 then NULL else self.

Lemma head_after_cases j : head_after j = NULL \/ head_after j = self.
Proof. unfold head_after. destruct (j =? 0); auto. Qed.

(** One sleep of the loop, from a state with [j] rounds behind it: given or not. *)
Lemma take_sleep s j w :
  running_task self (n + 1) (kern w) -> objs w !! p = Some (set_s_blocked (head_after j) s) ->
  s_count s = 0 -> 1 <= s_max_count s -> now w = start +32 j -> 0 <= j < UINT32_MAX ->
  exists w', (block;; on_kern task_exit_critical;; on_kern (task_delay 1);; pend) w = Done (tt, w') /\
    running_task self n (kern w') /\ now w' = start +32 (j + 1) /\
    (if j + 1 =? g
     then objs w' !! p = Some (set_s_count 1 (set_s_blocked (head_after j) s)) /\
          t_block_next <$> tcbs (kern w') !! self = Some NULL
     else objs w' !! p = Some (set_s_blocked self s) /\
          t_block_next <$> tcbs (kern w') !! self = Some (head_after j)).
Proof.
  intros Hr Hs H0 Hmax Hnow Hj. destruct (take_round w _ Hr Hs) as (k & E & Hrk & Htk & Hbk).
  change (set_s_blocked self (set_s_blocked (head_after j) s)) with (set_s_blocked self s) in E.
  cbn [s_blocked_tasks set_s_blocked] in Hbk. set (w1 := Sync k (<[p := set_s_blocked self s]> (objs w)) (glob w)) in E.
  assert (tick_count k = start +32 (j + 1)) as Ht.
  { by rewrite Htk, Hnow, tick_add. }
  rewrite Ht, elapsed_of in E by (unfold UINT32_MAX in *; lia).
  destruct (running_some _ _ _ Hrk) as [Hself [c Hc]]. rewrite Hc in Hbk. injection Hbk as Hbk.
  eexists. split; [exact E|]. cbv zeta. destruct (j + 1 =? g).
  - rewrite (given_self w1 (set_s_blocked self s) c Hc Hself eq_refl H0 Hmax). unfold w1. cbn [kern objs glob].
    split; [by apply running_alter|]. split; [done|]. rewrite insert_insert_eq, lookup_insert_eq, Hbk. split; [done|].
    cbn. by rewrite lookup_alter_eq, Hc.
  - cbn [w1 kern objs]. split; [done|]. split; [done|]. rewrite lookup_insert_eq, Hc. split; [done|]. cbn. by rewrite Hbk.
Qed.

Lemma take_loop timeout s fuel j w :
  running_task self (n + 1) (kern w) -> objs w !! p = Some (set_s_blocked (head_after j) s) ->
  s_count s = 0 -> 1 <= s_max_count s -> now w = start +32 j -> 0 <= j < Z.min g timeout -> timeout < UINT32_MAX ->
  (Z.to_nat (timeout - j) < fuel)%nat ->
  exists o w', wait_loop pend (semaphore_empty p) block (mret tt) (semaphore_leave p) timeout start fuel w = Done (o, w') /\
    match o with
    | None => g < timeout /\ running_task self (n + 1) (kern w') /\ now w' = start +32 g /\
        objs w' !! p = Some (set_s_count 1 (set_s_blocked (head_after (g - 1)) s)) /\
        t_block_next <$> tcbs (kern w') !! self = Some NULL
    | Some r => timeout <= g /\ timed_result timeout s r w'
    end.
Proof.
  revert j w. induction fuel as [|fuel IH]; intros j w Hr Hs H0 Hmax Hnow Hj Hto Hf; [lia|].
  assert (semaphore_empty p w = Done (true, w)) as Hb.
  { unfold semaphore_empty. rewrite (bind_step _ _ _ _ _ (obj_Done w p _ Hs)). cbn [set_s_blocked s_count]. by rewrite H0. }
  destruct (take_sleep s j w Hr Hs H0 Hmax Hnow ltac:(lia)) as (w1 & E & Hr1 & Hn1 & Hcase).
  assert (timeout <> 0) as Ht0 by lia.
  rewrite (wait_loop_round _ _ _ _ _ _ _ _ _ _ Hb Ht0 E), (proj2 (Z.ltb_lt timeout UINT32_MAX)) by lia.
  rewrite Hn1, elapsed_of by (unfold UINT32_MAX in *; lia). cbn [andb].
  destruct (running_some _ _ _ Hr1) as [Hself [c Hc]]. rewrite Hc in Hcase. destruct (Z.leb_spec timeout (j + 1)) as [Hle|Hgt].
  - (* the time is up *)
    destruct (Z.eqb_spec (j + 1) g) as [Hg|Hg]; destruct Hcase as [Hs1 [= Hnx]].
    + rewrite (bind_step _ _ _ _ _ (leave_self w1 _ c Hr1 Hs1 Hc (head_after_cases j))).
      eexists _, _. split; [reflexivity|]. split; [lia|]. cbn [s_blocked_tasks set_s_count set_s_blocked]. rewrite Hnx.
      replace (if head_after j =? NULL then NULL else NULL) with NULL by (by destruct (head_after j =? NULL)).
      unfold timed_result. assert (g = timeout) as -> by lia. rewrite Z.ltb_irrefl, Z.eqb_refl, Z.leb_refl, Z.min_id.
      cbn [kern objs set_objs]. rewrite lookup_insert_eq, Hc. cbn [fmap option_fmap option_map]. rewrite Hnx. split_and!; try done. unfold now in Hn1 |- *. cbn. rewrite Hn1. f_equal. lia.
    + rewrite (bind_step _ _ _ _ _ (leave_self w1 _ c Hr1 Hs1 Hc (or_intror eq_refl))).
      eexists _, _. split; [reflexivity|]. split; [lia|]. cbn [s_blocked_tasks set_s_blocked]. rewrite (proj2 (Z.eqb_neq self NULL) Hself), Hnx.
      unfold timed_result. assert (timeout = j + 1) as -> by lia. rewrite (proj2 (Z.ltb_ge g (j + 1))), (proj2 (Z.eqb_neq g (j + 1))), (proj2 (Z.leb_gt g (j + 1))), Z.min_r by lia.
      cbn [kern objs set_objs]. rewrite lookup_insert_eq, Hc. cbn [fmap option_fmap option_map]. rewrite Hnx. split_and!; try done; unfold head_after.
      * do 2 f_equal. destruct s as [sc ? ? ?]. cbn in H0. subst sc. unfold set_s_count, set_s_blocked; cbn. f_equal.
        destruct (Z.eqb_spec j 0), (Z.eqb_spec (j + 1) 1); done || lia.
      * destruct (Z.eqb_spec j 0), (Z.eqb_spec (j + 1) 1); done || lia.
  - destruct (enter_running _ _ _ Hr1 ltac:(lia)) as [E2 Hr2]. rewrite (bind_step _ _ _ _ _ (on_kern_Done _ w1 _ _ E2)).
    set (w2 := set_kern _ w1). destruct fuel as [|fuel]; [lia|]. destruct (Z.eqb_spec (j + 1) g) as [Hg|Hg]; destruct Hcase as [Hs1 [= Hnx]].
    + rewrite wait_loop_exit.
      2: { unfold semaphore_empty. by rewrite (bind_step _ _ _ _ _ (obj_Done w2 p _ Hs1)). }
      exists None, w2. split; [done|]. split; [lia|]. split; [done|]. split; [change (now w2) with (now w1); rewrite Hn1; by rewrite Hg|].
      replace (g - 1) with j by lia. split; [done|]. cbn. rewrite Hc. cbn. by rewrite Hnx.
    + apply (IH (j + 1) w2); try done; try lia. rewrite (Hs1 : objs w2 !! p = _). unfold head_after.
      by rewrite (proj2 (Z.eqb_neq (j + 1) 0)) by lia.
Qed.
End timed.

(** ** The calls that do not block *)

(** C38: a semaphore is a counter between 0 and its maximum.  In a kernel whose count of nested critical sections can be raised: a take or give of the null
    pointer fails with -1 and changes nothing.  A take of a positive count takes one and returns 1
    for any timeout; of a zero count with timeout 0 it returns 0 and changes nothing.  A give returns
    1, adds one up to the maximum and, if tasks wait, takes the newest of them off the list and makes it
    READY; the interrupt variant does the same and reports whether it woke a task. *)
Theorem semaphore_calls_correct (pend : SM unit) (w : sync semaphore_t unit) p s fuel timeout :
  p <> NULL -> objs w !! p = Some s -> 0 <= s_count s <= s_max_count s -> s_max_count s < 4294967296 ->
  0 <= critical_nesting (kern w) < UINT32_MAX ->
  (semaphore_take pend fuel NULL timeout w = Done (-1, w) /\ semaphore_give NULL w = Done (-1, w) /\
   semaphore_give_from_isr NULL w = Done ((-1, false), w)) /\
  (0 < s_count s -> semaphore_take pend (S fuel) p timeout w =
     Done (1, set_objs (<[p := set_s_count (s_count s - 1) s]> (objs w)) w)) /\
  (s_count s = 0 -> semaphore_take pend (S fuel) p 0 w = Done (0, w)) /\
  (forall ts, waiters (tcbs (kern w)) (s_blocked_tasks s) ts ->
     exists w' s', semaphore_give p w = Done (1, w') /\
       semaphore_give_from_isr p w = Done ((1, negb (bool_decide (ts = []))), w') /\
       objs w' = <[p := s']> (objs w) /\ s_count s' = Z.min (s_count s + 1) (s_max_count s) /\ s_max_count s' = s_max_count s /\
       waiters (tcbs (kern w')) (s_blocked_tasks s') (tail ts) /\
       tcbs (kern w') = match ts with [] => tcbs (kern w) | t :: _ => alter woken_tcb t (tcbs (kern w)) end).
Proof.
  intros Hp Hs Hc Hm Hn. split; [|split; [|split]].
  - split; [|done]. unfold semaphore_take. by rewrite (bind_step _ _ w (now w) w) by (by destruct w).
  - intros H. rewrite (take_available pend w p s fuel timeout Hp Hs ltac:(lia) Hn). by rewrite u32_small by lia.
  - intros H. by apply (take_poll _ _ _ s).
  - intros ts Hw. set (s1 := set_s_count (Z.min (s_count s + 1) (s_max_count s)) s).
    assert (s_blocked_tasks s = NULL \/ is_Some (tcbs (kern w) !! s_blocked_tasks s)) as Hb.
    { destruct ts as [|t ts]; [by left|right]. destruct Hw as (-> & _ & c & Hc' & _). by exists c. }
    exists (given w p s). unfold semaphore_give_from_isr. rewrite (proj2 (Z.eqb_neq p NULL) Hp).
    rewrite (give_core w p s Hs Hc Hm Hb (fun b => (1, b))). rewrite (give_Done w p s Hp Hs Hc Hm Hn Hb). unfold given. fold s1.
    destruct ts as [|t ts].
    + cbn in Hw. exists s1. rewrite Hw. destruct (tcbs (kern w) !! NULL); (split_and!; [done..|exact Hw|done]).
    + pose proof (waiters_nodup _ _ _ Hw) as [Hnt _]%NoDup_cons. destruct Hw as (E & Ht & c & Hc' & Hr). rewrite E in *.
      rewrite Hc'. unfold truthy. rewrite (proj2 (Z.eqb_neq t 0) Ht). exists (set_s_blocked (t_block_next c) s1).
      split_and!; try done. cbn. eapply waiters_frame; [|exact Hr]. intros x d Hx Hd.
      rewrite lookup_alter_ne by (by intros <-). eauto.
Qed.

(** ** A concrete waiting task *)

Definition sem0 : semaphore_t := Semaphore 0 1 NULL (replicate 16 0).
Definition demo_sems : sync semaphore_t unit := Sync demo_rr {[ 9000 := sem0 ]} tt.

(** The environment that only advances the tick and gives once. *)
Definition quiet_pend (p g start : Z) : SM unit := fun w =>
  let w1 := set_kern (set_tick_count (tick_count (kern w) +32 1) (kern w)) w in
  match objs w !! p with
  | Some s => Done (tt, if now w1 -32 start =? g then given w1 p s else w1)
  | None => UB
  end.

Lemma quiet_gives p g start self n : gives_at (quiet_pend p g start) p self n g start.
Proof.
  intros w s Hr Hs. exists (set_tick_count (tick_count (kern w) +32 1) (kern w)).
  split; [by apply running_tick|]. split; [done|]. split; [done|]. unfold quiet_pend. by rewrite Hs.
Qed.

Lemma semaphore_calls_correct_witness :
  exists w', semaphore_give 9000 demo_sems = Done (1, w') /\ semaphore_take (quiet_pend 9000 5 0) 1 9000 7 w' = Done (1, demo_sems).
Proof.
  destruct (semaphore_calls_correct (quiet_pend 9000 5 0) demo_sems 9000 sem0 0 7) as (_ & _ & _ & H).
  - discriminate.
  - vm_compute. reflexivity.
  - cbn. lia.
  - cbn. lia.
  - vm_compute. split; [discriminate|reflexivity].
  - destruct (H [] eq_refl) as (w' & s' & E & _). exists w'. split; [exact E|].
    assert (w' = Sync demo_rr {[ 9000 := Semaphore 1 1 NULL (replicate 16 0) ]} tt) as ->.
    { assert (semaphore_give 9000 demo_sems = Done (1, Sync demo_rr {[ 9000 := Semaphore 1 1 NULL (replicate 16 0) ]} tt)) as E2
        by (vm_compute; reflexivity). rewrite E in E2. by injection E2. }
    vm_compute. reflexivity.
Defined.

(** ** The timed take *)

(** A task takes an empty semaphore on which nobody waits, with a timeout of 1 to 2^32-2 ticks, while the
    semaphore is given once, [g] ticks after the start, and nobody else uses it.  When the rest of the system resumes the task one tick after each sleep, as [gives_at] says and the
    scheduler does not always do ([SchedulerSpec.head_sleeper_lost]), the call returns: with 1, the count back at
    0, at tick [g] when [g] is before the timeout; otherwise with -2 after [timeout] ticks, even when the give
    came at that very tick.  A task that slept for more than one tick enters the waiter list once per sleep,
    and is left on it: after a success with [g] > 1 the semaphore still lists it; after a timeout
    of 2 or more ticks without a give its link points to itself, and [semaphore_delete] never returns. *)
Theorem semaphore_take_timed (pend : SM unit) (p self n g timeout : Z) (w : sync semaphore_t unit) s fuel :
  gives_at pend p self n g (now w) -> p <> NULL -> 0 <= n /\ n + 1 < UINT32_MAX ->
  running_task self n (kern w) -> 0 <= now w < 4294967296 ->
  objs w !! p = Some s -> s_count s = 0 -> 1 <= s_max_count s -> s_blocked_tasks s = NULL ->
  0 < timeout < UINT32_MAX -> 1 <= g -> (Z.to_nat timeout < fuel)%nat ->
  exists w' s', semaphore_take pend fuel p timeout w = Done (if g <? timeout then 1 else -2, w') /\
    running_task self n (kern w') /\ now w' = now w +32 Z.min g timeout /\ objs w' !! p = Some s' /\
    s_count s' = (if g =? timeout then 1 else 0) /\
    s_blocked_tasks s' = (if g =? timeout then NULL else if Z.min g timeout =? 1 then NULL else self) /\
    (2 <= timeout < g -> forall fuel, semaphore_delete fuel p w' = NoFuel).
Proof.
  intros Hpend Hp Hn Hr Htick Hs H0 Hmax Hb Hto Hg Hf. destruct (enter_running _ _ _ Hr ltac:(lia)) as [E1 Hr1].
  set (w1 := set_kern (set_critical_nesting (n + 1) (kern w)) w).
  assert (objs w1 !! p = Some (set_s_blocked (head_after self 0) s)) as Hs1.
  { unfold w1, head_after. cbn. rewrite Hs. rewrite <- Hb. by destruct s. }
  destruct (take_loop pend p self n g (now w) Hpend Hn timeout s fuel 0 w1 Hr1 Hs1 H0 Hmax) as (o & w2 & E2 & Ho);
    [unfold w1; unfold now; cbn; by rewrite Z.add_0_r, u32_small|lia|lia|by rewrite Z.sub_0_r|].
  unfold semaphore_take. rewrite (bind_step _ _ w (now w) w) by (by destruct w).
  rewrite (proj2 (Z.eqb_neq p NULL) Hp), (bind_step _ _ _ _ _ (on_kern_Done _ w _ _ E1)). fold w1.
  rewrite (bind_step _ _ _ _ _ E2). destruct o as [r|].
  - destruct Ho as (Hle & -> & Hrun & Hnow & Hobj & Hnx). eexists w2, _. split; [reflexivity|]. split; [done|]. split; [done|].
    split; [exact Hobj|]. split; [done|]. split; [done|]. intros [H2 Hlt] fuel'.
    rewrite (proj2 (Z.eqb_neq g timeout)), (proj2 (Z.eqb_neq (Z.min g timeout) 1)) in Hobj by lia.
    rewrite (proj2 (Z.leb_gt g timeout)), (proj2 (Z.eqb_neq timeout 1)) in Hnx by lia.
    unfold semaphore_delete. rewrite (proj2 (Z.eqb_neq p NULL) Hp), (bind_step _ _ _ _ _ (enter_Done w2)).
    set (w3 := set_kern _ w2). rewrite (bind_step _ _ _ _ _ (obj_Done w3 p _ Hobj)). unfold mbind, M_bind.
    rewrite on_kern_NoFuel; [done|]. apply ready_loop_diverges. destruct (running_some _ _ _ Hrun) as [Hself [c Hc]].
    split; [done|]. exists c. split; [done|]. rewrite Hc in Hnx. by injection Hnx.
  - destruct Ho as (Hlt & Hrun & Hnow & Hobj & Hnx). rewrite (bind_step _ _ _ _ _ (upd_obj_Done w2 p _ _ Hobj)).
    set (w3 := set_objs _ w2). destruct (exit_running self n (kern w3) Hrun ltac:(lia)) as [E3 Hr3].
    rewrite (bind_step _ _ _ _ _ (on_kern_Done _ w3 _ _ E3)). rewrite (proj2 (Z.ltb_lt g timeout)) by lia.
    eexists _, _. split; [reflexivity|]. split; [done|]. rewrite Z.min_l by lia. split; [done|].
    split; [unfold w3; cbn; by rewrite lookup_insert_eq|]. rewrite (proj2 (Z.eqb_neq g timeout)) by lia.
    split; [done|]. split; [|lia]. cbn. unfold head_after. destruct (Z.eqb_spec (g - 1) 0), (Z.eqb_spec g 1); done || lia.
Qed.

Lemma semaphore_take_timed_witness :
  exists w', semaphore_take (quiet_pend 9000 7 (now demo_sems)) 9 9000 3 demo_sems = Done (-2, w') /\
    forall fuel, semaphore_delete fuel 9000 w' = NoFuel.
Proof.
  destruct (semaphore_take_timed (quiet_pend 9000 7 (now demo_sems)) 9000 4752 0 7 3 demo_sems sem0 9) as (w' & s' & E & _ & _ & _ & _ & _ & H).
  - apply quiet_gives.
  - discriminate.
  - unfold UINT32_MAX. lia.
  - exact demo_running.
  - vm_compute. split; [discriminate|reflexivity].
  - vm_compute. reflexivity.
  - reflexivity.
  - cbn. lia.
  - reflexivity.
  - unfold UINT32_MAX. lia.
  - lia.
  - lia.
  - exists w'. split; [exact E|]. apply H. lia.
Defined.
