(* ===== verification/Mutex.v ===== *)
(** * Mutexes (mini-rtos/src/semaphore_mutex.c, second half)

    Recursive mutexes with priority inheritance and hand-off to the newest waiter,
    the gatekeeper, and the two deadlock detectors. *)
From S2P Require Import Prelude MemoryHeap Scheduler SchedulerSpec WaitList.

Record mutex_t := Mutex {
  m_held : Z; m_owner : Z; m_owner_original_priority : Z; m_recursive_count : Z; m_blocked_tasks : Z; m_name : list Z }.
Definition sizeof_mutex : Z := 48.
Definition set_m_held x m := Mutex x (m_owner m) (m_owner_original_priority m) (m_recursive_count m) (m_blocked_tasks m) (m_name m).
Definition set_m_owner x m := Mutex (m_held m) x (m_owner_original_priority m) (m_recursive_count m) (m_blocked_tasks m) (m_name m).
Definition set_m_original x m := Mutex (m_held m) (m_owner m) x (m_recursive_count m) (m_blocked_tasks m) (m_name m).
Definition set_m_count x m := Mutex (m_held m) (m_owner m) (m_owner_original_priority m) x (m_blocked_tasks m) (m_name m).
Definition set_m_blocked x m := Mutex (m_held m) (m_owner m) (m_owner_original_priority m) (m_recursive_count m) x (m_name m).

Notation MM := (M (sync mutex_t unit)).

Definition mutex_create (name : option (list Z)) : MM Z :=
  m ← on_kern (on_heap (malloc_rtos sizeof_mutex));
  if m =? NULL then mret NULL
  else
    on_kern (on_heap (memset m 0 sizeof_mutex));;
    put_obj m (Mutex 0 NULL 0 0 NULL (object_name name));;
    mret m.

Definition mutex_delete (fuel : nat) (m : Z) : MM unit :=
  if m =? NULL then mret tt
  else
    on_kern task_enter_critical;;
    x ← obj m;
    on_kern (ready_loop fuel (m_blocked_tasks x));;
    on_kern task_exit_critical;;
    on_kern (on_heap (free_rtos m));;
    drop_obj m.

Definition mutex_block_task (m task : Z) : MM unit :=
  x ← obj m;
  h ← on_kern (block_task m (m_blocked_tasks x) task);
  upd_obj m (set_m_blocked h).

Definition mutex_priority_inherit (m blocker : Z) : MM unit :=
  x ← obj m;
  if m_owner x =? NULL then mret tt
  else
    b ← on_kern (tcb blocker);
    o ← on_kern (tcb (m_owner x));
    when (t_priority o <? t_priority b) (
      upd_obj m (set_m_original (t_priority o));;
      on_kern (upd_tcb (m_owner x) (set_t_priority (t_priority b)))).

Definition mutex_priority_restore (m : Z) : MM unit :=
  x ← obj m;
  when (truthy (m_owner x) && (0 <? m_owner_original_priority x)) (
    on_kern (upd_tcb (m_owner x) (set_t_priority (m_owner_original_priority x)));;
    upd_obj m (set_m_original 0)).

Definition mutex_busy (m : Z) : MM bool := x ← obj m; mret (truthy (m_held x)).

Definition mutex_leave (m self : Z) : MM unit :=
  x ← obj m;
  h ← on_kern (remove_waiter false self (m_blocked_tasks x));
  upd_obj m (set_m_blocked h).

Definition mutex_acquire (m self : Z) : MM unit :=
  upd_obj m (set_m_held 1);; upd_obj m (set_m_owner self);; upd_obj m (set_m_count 1).

Definition mutex_lock (pend : MM unit) (fuel : nat) (m timeout_ticks : Z) : MM Z :=
  start ← on_kern task_get_tick_count;
  self ← on_kern task_get_current;
  if m =? NULL then mret (-1)
  else
    on_kern task_enter_critical;;
    x ← obj m;
    if negb (truthy (m_held x)) then
      mutex_acquire m self;;
      on_kern task_exit_critical;;
      mret 1
    else if m_owner x =? self then
      upd_obj m (fun x => set_m_count (m_recursive_count x +32 1) x);;
      on_kern task_exit_critical;;
      mret 1
    else
      r ← wait_loop pend (mutex_busy m) (mutex_priority_inherit m self;; mutex_block_task m self) (mret tt)
            (mutex_leave m self) timeout_ticks start fuel;
      match r with
      | Some r => mret r
      | None =>
          mutex_acquire m self;;
          on_kern task_exit_critical;;
          mret 1
      end.

Definition mutex_unlock (m : Z) : MM Z :=
  self ← on_kern task_get_current;
  if m =? NULL then mret (-1)
  else
    on_kern task_enter_critical;;
    x ← obj m;
    if negb (m_owner x =? self) then on_kern task_exit_critical;; mret (-1)
    else
      upd_obj m (fun x => set_m_count (m_recursive_count x -32 1) x);;
      x ← obj m;
      if 0 <? m_recursive_count x then on_kern task_exit_critical;; mret 1
      else
        mutex_priority_restore m;;
        upd_obj m (set_m_held 0);;
        upd_obj m (set_m_owner NULL);;
        x ← obj m;
        when (truthy (m_blocked_tasks x)) (
          let task := m_blocked_tasks x in
          c ← on_kern (tcb task);
          upd_obj m (set_m_blocked (t_block_next c));;
          on_kern (upd_tcb task (set_t_state TASK_READY));;
          on_kern (upd_tcb task (set_t_block_obj NULL));;
          mutex_acquire m task);;
        on_kern task_exit_critical;;
        mret 1.

Definition mutex_lock_recursive (pend : MM unit) (fuel : nat) (m timeout_ticks : Z) : MM Z := mutex_lock pend fuel m timeout_ticks.
Definition mutex_unlock_recursive (m : Z) : MM Z := mutex_unlock m.

Definition mutex_get_owner (m : Z) : MM Z := if m =? NULL then mret NULL else x ← obj m; mret (m_owner x).

(** [fn]: the effect of the callback, [None] a null pointer. *)
Definition gatekeeper_call (pend : MM unit) (fuel : nat) (gatekeeper : Z) (fn : option (MM unit)) (timeout_ticks : Z) : MM Z :=
  match fn with
  | None => mret (-1)
  | Some fn =>
      if gatekeeper =? NULL then mret (-1)
      else
        ret ← mutex_lock pend fuel gatekeeper timeout_ticks;
        if negb (ret =? 1) then mret ret
        else fn;; _ ← mutex_unlock gatekeeper; mret 1
  end.

(** The visited array (0 white, 1 grey, 2 black) is passed along; [adj] is the n x n matrix by rows. *)
Fixpoint deadlock_dfs (fuel : nat) (node : nat) (visited : list Z) (adj : list Z) (n : nat) : outcome (bool * list Z) :=
  match fuel with
  | O => NoFuel
  | S fuel =>
      let fix row (i : nat) (k : nat) (visited : list Z) : outcome (bool * list Z) :=
        match k with
        | O => Done (false, visited)
        | S k =>
            match adj !! (node * n + i)%nat, visited !! i with
            | Some a, Some v =>
                if truthy a then
                  if v =? 1 then Done (true, visited)
                  else if v =? 0 then
                    match deadlock_dfs fuel i visited adj n with
                    | Done (true, visited) => Done (true, visited)
                    | Done (false, visited) => row (S i) k visited
                    | UB => UB
                    | NoFuel => NoFuel
                    end
                  else row (S i) k visited
                else row (S i) k visited
            | _, _ => UB
            end
        end
      in
      if (node <? length visited)%nat then
        match row O n (<[node := 1]> visited) with
        | Done (false, visited) => Done (false, <[node := 2]> visited)
        | r => r
        end
      else UB
  end.

(** The loop [while (holder && holder->block_obj)]. *)
Fixpoint deadlock_chain (fuel : nat) (m self holder : Z) : MM Z :=
  match fuel with
  | O => nofuel
  | S fuel =>
      if holder =? NULL then mret 0
      else
        c ← on_kern (tcb holder);
        if t_block_obj c =? NULL then mret 0
        else
          let held := t_block_obj c in
          if held =? m then mret 1
          else
            y ← obj held;
            if m_owner y =? self then mret 1 else deadlock_chain fuel m self (m_owner y)
  end.

Definition mutex_deadlock_check (fuel : nat) (m : Z) : MM Z :=
  self ← on_kern task_get_current;
  if m =? NULL then mret 0
  else
    x ← obj m;
    if negb (truthy (m_held x)) then mret 0
    else if m_owner x =? self then mret 0
    else deadlock_chain fuel m self (m_owner x).

Definition mutex_priority_ceiling_check (m task : Z) : Z := 1.

(** ** Branches that do not block *)

Section calls.
Context (pend : MM unit).
Implicit Types (w : sync mutex_t unit) (x : mutex_t).

Definition acquired (self : Z) (x : mutex_t) : mutex_t :=
  Mutex 1 self (m_owner_original_priority x) 1 (m_blocked_tasks x) (m_name x).

Lemma mutex_acquire_Done w m x self :
  objs w !! m = Some x -> mutex_acquire m self w = Done (tt, set_objs (<[m := acquired self x]> (objs w)) w).
Proof.
  intros Hx. unfold mutex_acquire. rewrite (bind_step _ _ _ _ _ (upd_obj_Done w m x _ Hx)). set (w1 := set_objs _ w).
  assert (objs w1 !! m = Some (set_m_held 1 x)) as H1 by (unfold w1; cbn; by rewrite lookup_insert_eq).
  rewrite (bind_step _ _ _ _ _ (upd_obj_Done w1 m _ _ H1)). set (w2 := set_objs _ w1).
  assert (objs w2 !! m = Some (set_m_owner self (set_m_held 1 x))) as H2 by (unfold w2; cbn; by rewrite lookup_insert_eq).
  rewrite (upd_obj_Done w2 m _ _ H2). unfold w2, w1. cbn. by rewrite !insert_insert_eq.
Qed.

Variables (w : sync mutex_t unit) (m : Z) (x : mutex_t).
Hypothesis Hm : m <> NULL.
Hypothesis Hx : objs w !! m = Some x.
Hypothesis Hn : 0 <= critical_nesting (kern w) < UINT32_MAX.
Notation self := (current_task (kern w)).
Notation w1 := (Sync (raised (kern w)) (objs w) (glob w)).

Lemma lock_start fuel timeout :
  mutex_lock pend fuel m timeout w =
  (if negb (truthy (m_held x)) then mutex_acquire m self;; on_kern task_exit_critical;; mret 1
   else if m_owner x =? self then
     upd_obj m (fun x => set_m_count (m_recursive_count x +32 1) x);; on_kern task_exit_critical;; mret 1
   else
     r ← wait_loop pend (mutex_busy m) (mutex_priority_inherit m self;; mutex_block_task m self) (mret tt)
           (mutex_leave m self) timeout (now w) fuel;
     match r with
     | Some r => mret r
     | None => mutex_acquire m self;; on_kern task_exit_critical;; mret 1
     end) w1.
Proof using Hm Hx.
  unfold mutex_lock. rewrite (bind_step _ _ w (now w) w), (bind_step _ _ w self w) by (by apply on_kern_read).
  rewrite (proj2 (Z.eqb_neq m NULL) Hm), (bind_step _ _ _ _ _ (enter_Done w)).
  change (set_kern _ w) with w1. by rewrite (bind_step _ _ _ _ _ (obj_Done w1 m x Hx)).
Qed.

Lemma lock_free fuel timeout :
  m_held x = 0 -> mutex_lock pend fuel m timeout w = Done (1, set_objs (<[m := acquired self x]> (objs w)) w).
Proof.
  intros Hh. rewrite lock_start, Hh. cbn [truthy Z.eqb negb].
  rewrite (bind_step _ _ _ _ _ (mutex_acquire_Done w1 m x self Hx)). by apply lower_raised.
Qed.

Lemma lock_again fuel timeout :
  m_held x <> 0 -> m_owner x = self ->
  mutex_lock pend fuel m timeout w = Done (1, set_objs (<[m := set_m_count (m_recursive_count x +32 1) x]> (objs w)) w).
Proof.
  intros Hh Ho. rewrite lock_start. unfold truthy. rewrite (proj2 (Z.eqb_neq _ 0) Hh), Ho, Z.eqb_refl. cbn [negb].
  rewrite (bind_step _ _ _ _ _ (upd_obj_Done w1 m x _ Hx)). by apply lower_raised.
Qed.

Lemma lock_poll fuel :
  m_held x <> 0 -> m_owner x <> self -> mutex_lock pend (S fuel) m 0 w = Done (0, w).
Proof.
  intros Hh Ho. rewrite lock_start. unfold truthy at 1. rewrite (proj2 (Z.eqb_neq _ 0) Hh), (proj2 (Z.eqb_neq _ self) Ho). cbn [negb].
  assert (mutex_busy m w1 = Done (true, w1)) as Hb.
  { unfold mutex_busy. rewrite (bind_step _ _ _ _ _ (obj_Done w1 m x Hx)). unfold truthy. by rewrite (proj2 (Z.eqb_neq _ 0) Hh). }
  unfold mbind at 1, M_bind. rewrite (wait_loop_zero _ _ _ _ _ _ _ _ _ Hb eq_refl), bind_ret.
  rewrite (lower_raised (kern w) (objs w) (glob w) (Some 0) Hn). by destruct w.
Qed.

Lemma unlock_start :
  mutex_unlock m w =
  (if negb (m_owner x =? self) then on_kern task_exit_critical;; mret (-1)
   else
     upd_obj m (fun x => set_m_count (m_recursive_count x -32 1) x);;
     x ← obj m;
     if 0 <? m_recursive_count x then on_kern task_exit_critical;; mret 1
     else
       mutex_priority_restore m;;
       upd_obj m (set_m_held 0);;
       upd_obj m (set_m_owner NULL);;
       x ← obj m;
       when (truthy (m_blocked_tasks x)) (
         let task := m_blocked_tasks x in
         c ← on_kern (tcb task);
         upd_obj m (set_m_blocked (t_block_next c));;
         on_kern (upd_tcb task (set_t_state TASK_READY));;
         on_kern (upd_tcb task (set_t_block_obj NULL));;
         mutex_acquire m task);;
       on_kern task_exit_critical;;
       mret 1) w1.
Proof using Hm Hx.
  unfold mutex_unlock. rewrite (bind_step _ _ w self w) by (by apply on_kern_read).
  rewrite (proj2 (Z.eqb_neq m NULL) Hm), (bind_step _ _ _ _ _ (enter_Done w)).
  change (set_kern _ w) with w1. by rewrite (bind_step _ _ _ _ _ (obj_Done w1 m x Hx)).
Qed.

Lemma unlock_other : m_owner x <> self -> mutex_unlock m w = Done (-1, w).
Proof.
  intros Ho. rewrite unlock_start, (proj2 (Z.eqb_neq _ self) Ho). cbn [negb].
  rewrite (lower_raised (kern w) (objs w) (glob w) (-1) Hn). by destruct w.
Qed.

Lemma unlock_nested :
  m_owner x = self -> 1 < m_recursive_count x < 4294967296 ->
  mutex_unlock m w = Done (1, set_objs (<[m := set_m_count (m_recursive_count x - 1) x]> (objs w)) w).
Proof.
  intros Ho Hc. rewrite unlock_start, Ho, Z.eqb_refl. cbn [negb]. rewrite (bind_step _ _ _ _ _ (upd_obj_Done w1 m x _ Hx)).
  rewrite u32_small by lia. set (x1 := set_m_count _ x). set (w2 := set_objs _ w1).
  assert (objs w2 !! m = Some x1) as H2 by (unfold w2; cbn; by rewrite lookup_insert_eq).
  rewrite (bind_step _ _ _ _ _ (obj_Done w2 m x1 H2)). cbn [x1 m_recursive_count set_m_count].
  rewrite (proj2 (Z.ltb_lt 0 _)) by lia. by apply lower_raised.
Qed.

(** The kernel and the mutex after the last unlock. *)
Definition restored (k : kernel_t) (x : mutex_t) : kernel_t :=
  if 0 <? m_owner_original_priority x
  then set_tcbs (alter (set_t_priority (m_owner_original_priority x)) (m_owner x) (tcbs k)) k else k.

Definition passed_on (k : kernel_t) (x : mutex_t) : kernel_t * mutex_t :=
  let x0 := Mutex 0 NULL 0 0 (m_blocked_tasks x) (m_name x) in
  match tcbs k !! m_blocked_tasks x with
  | Some c =>
      if truthy (m_blocked_tasks x)
      then (set_tcbs (alter released_tcb (m_blocked_tasks x) (tcbs k)) k,
            acquired (m_blocked_tasks x) (set_m_blocked (t_block_next c) x0))
      else (k, x0)
  | None => (k, x0)
  end.

Lemma restore_Done (v : sync mutex_t unit) y :
  objs v !! m = Some y -> m_owner y <> NULL -> 0 <= m_owner_original_priority y -> is_Some (tcbs (kern v) !! m_owner y) ->
  mutex_priority_restore m v = Done (tt, Sync (restored (kern v) y) (<[m := set_m_original 0 y]> (objs v)) (glob v)).
Proof.
  intros Hy Ho Hp Hs. unfold mutex_priority_restore, restored. rewrite (bind_step _ _ _ _ _ (obj_Done v m y Hy)).
  unfold truthy. rewrite (proj2 (Z.eqb_neq _ 0) Ho). cbn [negb andb].
  destruct (Z.ltb_spec 0 (m_owner_original_priority y)); cbn [when].
  - rewrite (bind_step _ _ _ _ _ (on_kern_Done _ v _ _ (upd_tcb_Done _ _ _ Hs))).
    set (v1 := set_kern _ v). exact (upd_obj_Done v1 m y _ Hy).
  - replace (set_m_original 0 y) with y.
    + rewrite insert_id by done. by destruct v.
    + assert (m_owner_original_priority y = 0) as E by lia. revert E. destruct y; cbn. by intros ->.
Qed.

Lemma unlock_last :
  m_owner x = self -> self <> NULL -> m_recursive_count x = 1 -> 0 <= m_owner_original_priority x ->
  is_Some (tcbs (kern w) !! self) -> (m_blocked_tasks x = NULL \/ is_Some (tcbs (kern w) !! m_blocked_tasks x)) ->
  mutex_unlock m w =
    Done (1, Sync (passed_on (restored (kern w) x) x).1 (<[m := (passed_on (restored (kern w) x) x).2]> (objs w)) (glob w)).
Proof.
  intros Ho Hs Hc Hp Hself Hb. rewrite unlock_start, Ho, Z.eqb_refl. cbn [negb].
  rewrite (bind_step _ _ _ _ _ (upd_obj_Done w1 m x _ Hx)), Hc. change (1 -32 1) with 0.
  set (x1 := set_m_count 0 x). set (w2 := set_objs _ w1).
  assert (objs w2 !! m = Some x1) as H2 by (unfold w2; cbn; by rewrite lookup_insert_eq).
  rewrite (bind_step _ _ _ _ _ (obj_Done w2 m x1 H2)). cbn [x1 m_recursive_count set_m_count Z.ltb Z.compare].
  assert (m_owner x1 = self) as Ho1 by done.
  rewrite (bind_step _ _ _ _ _ (restore_Done w2 x1 H2 ltac:(by rewrite Ho1) Hp ltac:(by rewrite Ho1))).
  set (k3 := restored (kern w2) x1). set (w3 := Sync k3 _ _).
  assert (objs w3 !! m = Some (set_m_original 0 x1)) as H3 by (unfold w3; cbn; by rewrite lookup_insert_eq).
  rewrite (bind_step _ _ _ _ _ (upd_obj_Done w3 m _ _ H3)). set (w4 := set_objs _ w3).
  assert (objs w4 !! m = Some (set_m_held 0 (set_m_original 0 x1))) as H4 by (unfold w4; cbn; by rewrite lookup_insert_eq).
  rewrite (bind_step _ _ _ _ _ (upd_obj_Done w4 m _ _ H4)). set (x0 := Mutex 0 NULL 0 0 (m_blocked_tasks x) (m_name x)).
  set (w5 := set_objs _ w4). assert (w5 = Sync k3 (<[m := x0]> (objs w)) (glob w)) as ->.
  { unfold w5, w4, w3, w2, set_objs. cbn [kern objs glob]. by rewrite !insert_insert_eq. }
  set (w6 := Sync k3 _ _). assert (objs w6 !! m = Some x0) as H6 by (unfold w6; cbn; by rewrite lookup_insert_eq).
  rewrite (bind_step _ _ _ _ _ (obj_Done w6 m x0 H6)). cbn [x0 m_blocked_tasks].
  assert (k3 = raised (restored (kern w) x)) as Ek by (unfold k3, restored; cbn; by destruct (0 <? _)).
  unfold passed_on. fold x0. set (kr := restored (kern w) x) in *.
  assert (0 <= critical_nesting kr < UINT32_MAX) as Hnr by (unfold kr, restored; by destruct (0 <? _)).
  unfold truthy. change 0 with NULL at 1 3. destruct (Z.eqb_spec (m_blocked_tasks x) NULL) as [E|Hne]; cbn [negb when].
  - rewrite bind_ret. unfold w6. rewrite Ek, (lower_raised kr _ (glob w) 1 Hnr), E. by destruct (tcbs kr !! NULL).
  - destruct Hb as [?|Hb]; [done|]. assert (is_Some (tcbs kr !! m_blocked_tasks x)) as [c Hcb].
    { unfold kr, restored. destruct (0 <? _); [by apply is_Some_alter|done]. }
    rewrite Hcb. set (h := m_blocked_tasks x) in *. assert (tcbs (kern w6) !! h = Some c) as Hc6 by (unfold w6; cbn; by rewrite Ek).
    rewrite !bind_assoc, (bind_step _ _ _ _ _ (on_kern_Done _ w6 _ _ (tcb_Done _ _ _ Hc6))), set_kern_id.
    rewrite !bind_assoc, (bind_step _ _ _ _ _ (upd_obj_Done w6 m x0 _ H6)). set (w7 := set_objs _ w6).
    rewrite !bind_assoc, (bind_step _ _ _ _ _ (on_kern_Done _ w7 _ _ (upd_tcb_Done (kern w7) h _ (mk_is_Some _ _ Hc6)))).
    set (w8 := set_kern _ w7).
    rewrite !bind_assoc, (bind_step _ _ _ _ _ (on_kern_Done _ w8 _ _ (upd_tcb_Done (kern w8) h _ (is_Some_alter _ _ _ _ (mk_is_Some _ _ Hc6))))).
    set (w9 := set_kern _ w8). assert (objs w9 !! m = Some (set_m_blocked (t_block_next c) x0)) as H9.
    { unfold w9, w8, w7. cbn. by rewrite lookup_insert_eq. }
    rewrite (bind_step _ _ _ _ _ (mutex_acquire_Done w9 m _ h H9)). set (xf := acquired h _).
    set (kf := set_tcbs (alter released_tcb h (tcbs kr)) kr).
    assert (set_objs (<[m := xf]> (objs w9)) w9 = Sync (raised kf) (<[m := xf]> (objs w)) (glob w)) as ->.
    { unfold w9, w8, w7, w6, set_objs, set_kern. cbn [kern objs glob]. rewrite !insert_insert_eq, Ek. cbn [tcbs raised set_critical_nesting set_tcbs].
      rewrite alter_compose_eq. done. }
    rewrite (proj2 (Z.eqb_neq h 0) Hne). exact (lower_raised kf _ (glob w) 1 Hnr).
Qed.
End calls.

(** C39: on a mutex no critical section of which is open too deep, every call that need not wait has its full effect.
    [mutex_lock] of a free mutex takes it for any timeout; of one the caller owns it counts one level up; of
    another's with timeout 0 it returns 0 and changes nothing.  [mutex_unlock] by a task that is not the owner returns -1 and changes
    nothing; by the owner it goes down one level; at the last level it restores the owner's original
    priority if one was saved and frees the mutex or, when tasks wait, hands it to the newest waiter, which becomes READY and the
    owner at level 1. *)
Theorem mutex_calls_correct (pend : MM unit) (w : sync mutex_t unit) m x fuel timeout :
  m <> NULL -> objs w !! m = Some x -> 0 <= critical_nesting (kern w) < UINT32_MAX ->
  let self := current_task (kern w) in
  (m_held x = 0 -> mutex_lock pend fuel m timeout w = Done (1, set_objs (<[m := acquired self x]> (objs w)) w)) /\
  (m_held x <> 0 -> m_owner x = self -> mutex_lock pend fuel m timeout w =
     Done (1, set_objs (<[m := set_m_count (m_recursive_count x +32 1) x]> (objs w)) w)) /\
  (m_held x <> 0 -> m_owner x <> self -> mutex_lock pend (S fuel) m 0 w = Done (0, w)) /\
  (m_owner x <> self -> mutex_unlock m w = Done (-1, w)) /\
  (m_owner x = self -> 1 < m_recursive_count x < 4294967296 ->
     mutex_unlock m w = Done (1, set_objs (<[m := set_m_count (m_recursive_count x - 1) x]> (objs w)) w)) /\
  (forall ts c, m_owner x = self -> self <> NULL -> m_recursive_count x = 1 -> 0 <= m_owner_original_priority x ->
     tcbs (kern w) !! self = Some c -> waiters (tcbs (kern w)) (m_blocked_tasks x) ts -> self ∉ ts ->
     exists w' x', mutex_unlock m w = Done (1, w') /\ objs w' = <[m := x']> (objs w) /\ m_owner_original_priority x' = 0 /\
       tcbs (kern w') !! self = Some (if 0 <? m_owner_original_priority x then set_t_priority (m_owner_original_priority x) c else c) /\
       match ts with
       | [] => m_held x' = 0 /\ m_owner x' = NULL /\ m_recursive_count x' = 0 /\ m_blocked_tasks x' = NULL
       | t :: ts => m_held x' = 1 /\ m_owner x' = t /\ m_recursive_count x' = 1 /\ waiters (tcbs (kern w')) (m_blocked_tasks x') ts /\
           tcbs (kern w') !! t = released_tcb <$> tcbs (kern w) !! t
       end).
Proof.
  intros Hm Hx Hn self. split; [|split; [|split; [|split; [|split]]]].
  - by apply lock_free.
  - by apply lock_again.
  - by apply (lock_poll pend w m x).
  - by apply (unlock_other w m x).
  - by apply unlock_nested.
  - intros ts c Ho Hs Hc Hp Hself Hw Hin. assert (m_blocked_tasks x = NULL \/ is_Some (tcbs (kern w) !! m_blocked_tasks x)) as Hb.
    { destruct ts as [|t ts]; [by left|right]. destruct Hw as (-> & _ & d & Hd & _). by exists d. }
    rewrite (unlock_last w m x Hm Hx Hn Ho Hs Hc Hp (mk_is_Some _ _ Hself) Hb).
    set (kr := restored (kern w) x).
    assert (tcbs kr !! self = Some (if 0 <? m_owner_original_priority x then set_t_priority (m_owner_original_priority x) c else c)) as Hrs.
    { unfold kr, restored. destruct (0 <? _); [|done]. cbn. rewrite Ho. fold self. by rewrite lookup_alter_eq, Hself. }
    assert (forall t, t <> self -> tcbs kr !! t = tcbs (kern w) !! t) as Hro.
    { intros t Ht. unfold kr, restored. destruct (0 <? _); [|done]. cbn. rewrite Ho. by rewrite lookup_alter_ne. }
    eexists _, _. split; [reflexivity|]. split; [reflexivity|]. cbn [kern objs]. unfold passed_on. fold kr. destruct ts as [|t ts].
    + cbn in Hw. rewrite Hw. destruct (tcbs kr !! NULL); (split_and!; done).
    + pose proof (waiters_nodup _ _ _ Hw) as [Hnt _]%NoDup_cons. pose proof Hw as (E & Ht & d & Hd & Hr).
      apply not_elem_of_cons in Hin as [Hst Hin]. rewrite E, Hro, Hd by done. unfold truthy. rewrite (proj2 (Z.eqb_neq t 0) Ht).
      cbn [negb fst snd acquired m_owner_original_priority m_held m_owner m_recursive_count m_blocked_tasks set_m_blocked tcbs set_tcbs].
      split; [done|]. split; [by rewrite lookup_alter_ne|]. split_and!; try done; [|by rewrite lookup_alter_eq, Hro, Hd].
      eapply waiters_frame; [|exact Hr]. intros y e Hy He. exists e. rewrite lookup_alter_ne by (by intros <-).
      rewrite Hro by (by intros ->). done.
Qed.

(** ** Hand-off *)

Definition is_held (m : Z) (w : sync mutex_t unit) : Prop := exists x, objs w !! m = Some x /\ m_held x <> 0.

Lemma is_held_kern m w k : is_held m w -> is_held m (set_kern k w).
Proof. done. Qed.

Lemma keeps_held_upd m f : (forall x, m_held x <> 0 -> m_held (f x) <> 0) -> keeps (is_held m) (upd_obj m f).
Proof.
  intros Hf w [] w' (x & Hx & Hh) E. rewrite (upd_obj_Done _ _ _ _ Hx) in E. injection E as <-.
  exists (f x). cbn. rewrite lookup_insert_eq. split; [done|]. by apply Hf.
Qed.

#[export] Hint Resolve is_held_kern keeps_held_upd : keeps.

Lemma held_busy m w : is_held m w -> mutex_busy m w = Done (true, w).
Proof.
  intros (x & Hx & Hh). unfold mutex_busy. rewrite (bind_step _ _ _ _ _ (obj_Done w m x Hx)). unfold truthy.
  by rewrite (proj2 (Z.eqb_neq _ 0) Hh).
Qed.

Lemma keeps_held_block m self : keeps (is_held m) (mutex_priority_inherit m self;; mutex_block_task m self).
Proof.
  unfold mutex_priority_inherit, mutex_block_task. keeps_auto.
Qed.

Lemma keeps_held_leave m self : keeps (is_held m) (mutex_leave m self).
Proof.
  unfold mutex_leave. keeps_auto.
Qed.

(** A task that has begun to wait for a mutex never gets it as long as the other tasks leave the mutex held
    at its every sleep; and [mutex_unlock] with a task waiting does leave it held: it makes the waiter the owner, at
    level 1, with [held] set.  The woken waiter tests [held] again, and so waits for a mutex of which it is the
    owner: [mutex_lock] returns 0 or, after the timeout, -2. *)
Theorem mutex_handoff_lost (pend : MM unit) m :
  m <> NULL -> keeps (is_held m) pend ->
  (forall w x fuel timeout r w', objs w !! m = Some x -> m_held x <> 0 -> m_owner x <> current_task (kern w) ->
     mutex_lock pend fuel m timeout w = Done (r, w') -> (r = 0 \/ r = -2) /\ is_held m w') /\
  (forall w x t c, objs w !! m = Some x -> 0 <= critical_nesting (kern w) < UINT32_MAX ->
     m_owner x = current_task (kern w) -> m_owner x <> NULL -> is_Some (tcbs (kern w) !! m_owner x) ->
     m_recursive_count x = 1 -> 0 <= m_owner_original_priority x ->
     m_blocked_tasks x = t -> t <> NULL -> tcbs (kern w) !! t = Some c ->
     exists w' x', mutex_unlock m w = Done (1, w') /\ objs w' !! m = Some x' /\ m_owner x' = t /\ m_recursive_count x' = 1 /\ is_held m w').
Proof.
  intros Hm Hpend. split.
  - intros w x fuel timeout r w' Hx Hh Ho E. rewrite (lock_start pend w m x Hm Hx) in E.
    unfold truthy at 1 in E. rewrite (proj2 (Z.eqb_neq _ 0) Hh), (proj2 (Z.eqb_neq _ _) Ho) in E. cbn [negb] in E.
    apply bind_Done in E as (o & w2 & E1 & E2).
    assert (is_held m (Sync (raised (kern w)) (objs w) (glob w))) as Hw by (by exists x).
    destruct (wait_loop_blocked (is_held m) (is_held_kern m) _ _ _ _ _ _ _ _ _ _ _ Hpend (keeps_held_block m _) (keeps_ret _ _)
      (keeps_held_leave m _) (held_busy m) Hw E1) as [Hw2 [->| ->]]; injection E2 as <- <-; auto.
  - intros w x t c Hx Hn Ho Hon Hs Hc Hp Hb Ht Htc. rewrite Ho in Hon, Hs.
    rewrite (unlock_last w m x Hm Hx Hn Ho Hon Hc Hp Hs) by (rewrite Hb; eauto).
    assert (exists d, tcbs (restored (kern w) x) !! t = Some d) as [d Hd].
    { unfold restored. destruct (0 <? _); [|eauto]. cbn. apply is_Some_alter. eauto. }
    unfold passed_on. rewrite Hb, Hd. unfold truthy. rewrite (proj2 (Z.eqb_neq t 0) Ht). cbn [negb fst snd].
    eexists _, _. split; [reflexivity|]. cbn [objs]. rewrite lookup_insert_eq. split; [done|]. split; [done|]. split; [done|].
    eexists. cbn [objs]. rewrite lookup_insert_eq. split; [done|]. done.
Qed.

(** ** Concrete mutexes *)

(** The mutex at 9100 is held by task 4440; task 4752 runs. *)
Definition mutex0 : mutex_t := Mutex 1 4440 0 1 NULL (replicate 16 0).
Definition demo_mutexes : sync mutex_t unit := Sync demo_rr {[ 9100 := mutex0 ]} tt.

(** The owner 4440 runs at the first sleep and unlocks; then the waiter runs again. *)
Definition owner_pend (m : Z) : MM unit :=
  x ← obj m;
  when (truthy (m_blocked_tasks x) && (m_owner x =? 4440)) (
    on_kern (modify (set_current_task 4440));;
    _ ← mutex_unlock m;
    on_kern (modify (set_current_task 4752)));;
  tick_pend.

(** The hand-off at work: the waiter times out while it owns the mutex. *)
Example handoff_timeout :
  match mutex_lock (owner_pend 9100) 9 9100 3 demo_mutexes with
  | Done (r, w) => r = -2 /\ (fun x => (m_held x, m_owner x)) <$> objs w !! 9100 = Some (1, 4752)
  | _ => False
  end.
Proof. vm_compute. split; reflexivity. Qed.

Lemma mutex_calls_correct_witness :
  mutex_unlock 9100 demo_mutexes = Done (-1, demo_mutexes) /\ mutex_lock tick_pend 1 9100 0 demo_mutexes = Done (0, demo_mutexes).
Proof.
  destruct (mutex_calls_correct tick_pend demo_mutexes 9100 mutex0 0 0) as (_ & _ & H1 & H2 & _).
  - discriminate.
  - vm_compute. reflexivity.
  - vm_compute. split; [discriminate|reflexivity].
  - split; [apply H2|apply H1]; vm_compute; discriminate.
Defined.

Lemma mutex_handoff_lost_witness :
  m_held <$> objs demo_mutexes !! 9100 = Some 1 /\
  (forall r w', mutex_lock tick_pend 9 9100 3 demo_mutexes = Done (r, w') -> (r = 0 \/ r = -2) /\ is_held 9100 w').
Proof.
  split; [reflexivity|]. intros r w' E. destruct (mutex_handoff_lost tick_pend 9100) as [H _].
  - discriminate.
  - apply keeps_on_kern. intros; assumption.
  - apply (H demo_mutexes mutex0 9%nat 3); [reflexivity|discriminate|vm_compute; discriminate|exact E].
Defined.

(** ** Priority inheritance *)

Lemma inherit_Done (w : sync mutex_t unit) m x b co cb :
  objs w !! m = Some x -> m_owner x <> NULL -> tcbs (kern w) !! m_owner x = Some co -> tcbs (kern w) !! b = Some cb ->
  t_priority co < t_priority cb ->
  mutex_priority_inherit m b w =
    Done (tt, Sync (set_tcbs (alter (set_t_priority (t_priority cb)) (m_owner x) (tcbs (kern w))) (kern w))
                   (<[m := set_m_original (t_priority co) x]> (objs w)) (glob w)).
Proof.
  intros Hx Ho Hco Hcb Hlt. unfold mutex_priority_inherit. rewrite (bind_step _ _ _ _ _ (obj_Done w m x Hx)).
  rewrite (proj2 (Z.eqb_neq _ NULL) Ho), (bind_step _ _ w cb w), (bind_step _ _ w co w) by (by apply on_kern_read, tcb_Done).
  rewrite (proj2 (Z.ltb_lt _ _) Hlt). cbn [when]. rewrite (bind_step _ _ _ _ _ (upd_obj_Done w m x _ Hx)).
  set (w1 := set_objs _ w). exact (on_kern_Done _ w1 _ _ (upd_tcb_Done (kern w1) _ _ (mk_is_Some _ _ Hco))).
Qed.

(** When a task of higher priority waits, the owner gets its priority and the mutex saves the owner's;
    the restore of the last unlock gives the saved priority back.  So after one waiter the owner has its own
    priority again, unless that is 0, when it keeps the inherited one; after a second waiter of still higher
    priority the saved value is the one inherited from the first, and the owner keeps that.  No ready list is
    changed: a linked owner stays in the list of its old priority. *)
Theorem priority_inheritance_correct (w : sync mutex_t unit) m x o b1 b2 co c1 c2 :
  objs w !! m = Some x -> m_owner x = o -> o <> NULL -> b1 <> o -> b2 <> o ->
  tcbs (kern w) !! o = Some co -> tcbs (kern w) !! b1 = Some c1 -> tcbs (kern w) !! b2 = Some c2 ->
  0 <= t_priority co < t_priority c1 -> t_priority c1 < t_priority c2 ->
  exists w1, mutex_priority_inherit m b1 w = Done (tt, w1) /\ tcbs (kern w1) !! o = Some (set_t_priority (t_priority c1) co) /\
    task_list (kern w1) = task_list (kern w) /\
    (exists w2, mutex_priority_restore m w1 = Done (tt, w2) /\
       tcbs (kern w2) !! o = Some (if t_priority co =? 0 then set_t_priority (t_priority c1) co else co)) /\
    (exists w2, (mutex_priority_inherit m b2;; mutex_priority_restore m) w1 = Done (tt, w2) /\
       tcbs (kern w2) !! o = Some (set_t_priority (t_priority c1) co)).
Proof.
  intros Hx Ho Ho0 Hb1 Hb2 Hco Hc1 Hc2 Hlt1 Hlt2. rewrite <- Ho in Hco, Ho0, Hb1, Hb2 |- *.
  rewrite (inherit_Done w m x b1 co c1 Hx Ho0 Hco Hc1) by lia. eexists. split; [reflexivity|].
  set (w1 := Sync _ _ _). set (x1 := set_m_original (t_priority co) x).
  assert (objs w1 !! m = Some x1) as Hx1 by (unfold w1; cbn; by rewrite lookup_insert_eq).
  assert (tcbs (kern w1) !! m_owner x1 = Some (set_t_priority (t_priority c1) co)) as Hco1 by (unfold w1; cbn; by rewrite lookup_alter_eq, Hco).
  split; [exact Hco1|]. split; [done|]. split.
  - rewrite (restore_Done m w1 x1 Hx1 Ho0 ltac:(cbn; lia) (mk_is_Some _ _ Hco1)). eexists. split; [reflexivity|].
    unfold restored. cbn [kern x1 m_owner_original_priority m_owner set_m_original].
    destruct (Z.ltb_spec 0 (t_priority co)), (Z.eqb_spec (t_priority co) 0); try lia; [|exact Hco1].
    cbn [tcbs set_tcbs]. rewrite lookup_alter_eq, (Hco1 : tcbs (kern w1) !! m_owner x = _). by destruct co.
  - assert (tcbs (kern w1) !! b2 = Some c2) as Hc2' by (unfold w1; cbn; by rewrite lookup_alter_ne).
    rewrite (bind_step _ _ _ _ _ (inherit_Done w1 m x1 b2 _ c2 Hx1 Ho0 Hco1 Hc2' Hlt2)). set (w2 := Sync _ _ _).
    set (x2 := set_m_original (t_priority c1) x1).
    assert (objs w2 !! m = Some x2) as Hx2 by (unfold w2; cbn; by rewrite lookup_insert_eq).
    assert (tcbs (kern w2) !! m_owner x2 = Some (set_t_priority (t_priority c2) (set_t_priority (t_priority c1) co))) as Hco2.
    { change (tcbs (kern w2)) with (alter (set_t_priority (t_priority c2)) (m_owner x1) (tcbs (kern w1))).
      change (m_owner x2) with (m_owner x1). by rewrite lookup_alter_eq, Hco1. }
    rewrite (restore_Done m w2 x2 Hx2 Ho0 ltac:(cbn; lia) (mk_is_Some _ _ Hco2)). eexists. split; [reflexivity|].
    unfold restored. cbn [kern x2 m_owner_original_priority m_owner set_m_original]. rewrite (proj2 (Z.ltb_lt 0 (t_priority c1))) by lia.
    cbn [tcbs set_tcbs]. change (m_owner x1) with (m_owner x2). by rewrite lookup_alter_eq, Hco2.
Qed.

Definition three_tasks : sync mutex_t unit :=
  Sync (set_tcbs {[ 1 := set_t_priority 5 zero_tcb; 2 := set_t_priority 9 zero_tcb; 3 := set_t_priority 12 zero_tcb ]} kernel0)
       {[ 9100 := Mutex 1 1 0 1 NULL (replicate 16 0) ]} tt.

Lemma priority_inheritance_correct_witness :
  exists w1 w2, mutex_priority_inherit 9100 2 three_tasks = Done (tt, w1) /\
    (mutex_priority_inherit 9100 3;; mutex_priority_restore 9100) w1 = Done (tt, w2) /\
    tcbs (kern w2) !! 1 = Some (set_t_priority 9 zero_tcb).
Proof.
  destruct (priority_inheritance_correct three_tasks 9100 (Mutex 1 1 0 1 NULL (replicate 16 0)) 1 2 3
    (set_t_priority 5 zero_tcb) (set_t_priority 9 zero_tcb) (set_t_priority 12 zero_tcb)) as (w1 & E & _ & _ & _ & w2 & E2 & H);
    [reflexivity|reflexivity|discriminate|discriminate|discriminate|reflexivity|reflexivity|reflexivity|cbn; lia|cbn; lia|].
  exists w1, w2. split; [exact E|]. split; [exact E2|exact H].
Defined.

(** ** The wait-for chain *)

(** From task [h], through the mutexes [ks] it and the owners wait for in turn, to task [h']; none of the
    mutexes is [m] or owned by [self]. *)
Fixpoint follows (w : sync mutex_t unit) (m self h : Z) (ks : list Z) (h' : Z) : Prop :=
  match ks with
  | [] => h' = h
  | k :: ks => h <> NULL /\ (exists c, tcbs (kern w) !! h = Some c /\ t_block_obj c = k) /\ k <> NULL /\ k <> m /\
      exists y, objs w !! k = Some y /\ m_owner y <> self /\ follows w m self (m_owner y) ks h'
  end.

Lemma follows_run w m self h ks h' fuel :
  follows w m self h ks h' -> deadlock_chain (length ks + fuel) m self h w = deadlock_chain fuel m self h' w.
Proof.
  revert h. induction ks as [|k ks IH]; intros h H; [by cbn in H; subst|].
  destruct H as (Hh & (c & Hc & Hk) & Hk0 & Hkm & y & Hy & Ho & H). cbn [length Nat.add deadlock_chain].
  rewrite (proj2 (Z.eqb_neq h NULL) Hh), (bind_step _ _ w c w) by (by apply on_kern_read, tcb_Done).
  rewrite Hk, (proj2 (Z.eqb_neq k NULL) Hk0), (proj2 (Z.eqb_neq k m) Hkm), (bind_step _ _ _ _ _ (obj_Done w k y Hy)).
  rewrite (proj2 (Z.eqb_neq _ self) Ho). by apply IH.
Qed.

Lemma follows_short w m self h ks h' fuel :
  follows w m self h ks h' -> (fuel <= length ks)%nat -> deadlock_chain fuel m self h w = NoFuel.
Proof.
  revert fuel h. induction ks as [|k ks IH]; intros fuel h H Hf; (destruct fuel as [|fuel]; [done|]); [cbn in Hf; lia|].
  destruct H as (Hh & (c & Hc & Hk) & Hk0 & Hkm & y & Hy & Ho & H). cbn [deadlock_chain].
  rewrite (proj2 (Z.eqb_neq h NULL) Hh), (bind_step _ _ w c w) by (by apply on_kern_read, tcb_Done).
  rewrite Hk, (proj2 (Z.eqb_neq k NULL) Hk0), (proj2 (Z.eqb_neq k m) Hkm), (bind_step _ _ _ _ _ (obj_Done w k y Hy)).
  rewrite (proj2 (Z.eqb_neq _ self) Ho). apply IH; [done|cbn in Hf; lia].
Qed.

Lemma follows_cycle w m self h ks fuel :
  follows w m self h ks h -> ks <> [] -> deadlock_chain fuel m self h w = NoFuel.
Proof.
  intros H Hne. induction fuel as [fuel IH] using lt_wf_ind. destruct (decide (fuel <= length ks)%nat) as [Hle|Hgt].
  - by eapply follows_short.
  - replace fuel with (length ks + (fuel - length ks))%nat by lia. rewrite (follows_run _ _ _ _ _ _ _ H). apply IH.
    destruct ks; [done|]. cbn. lia.
Qed.

(** The deadlock check on a held mutex [m] of another owner follows the mutexes on which the owners are blocked in
    turn.  It returns 1 when the chain comes back to [m] or to a mutex of the calling task, and 0 when it ends at a
    task that is not blocked, in at most one step per mutex passed.  When the chain runs into a cycle
    that contains neither, that is, when other tasks are deadlocked already, it never returns. *)
Theorem deadlock_check_correct (w : sync mutex_t unit) m x :
  m <> NULL -> objs w !! m = Some x ->
  let self := current_task (kern w) in
  (forall fuel, m_held x = 0 \/ m_owner x = self -> mutex_deadlock_check fuel m w = Done (0, w)) /\
  (m_held x <> 0 -> m_owner x <> self ->
   (forall fuel ks h c k, follows w m self (m_owner x) ks h -> h <> NULL -> tcbs (kern w) !! h = Some c ->
      t_block_obj c = k -> k <> NULL -> (k = m \/ exists y, objs w !! k = Some y /\ m_owner y = self) ->
      mutex_deadlock_check (length ks + S fuel) m w = Done (1, w)) /\
   (forall fuel ks h, follows w m self (m_owner x) ks h ->
      (h = NULL \/ exists c, tcbs (kern w) !! h = Some c /\ t_block_obj c = NULL) ->
      mutex_deadlock_check (length ks + S fuel) m w = Done (0, w)) /\
   (forall fuel ks h ks', follows w m self (m_owner x) ks h -> follows w m self h ks' h -> ks' <> [] ->
      mutex_deadlock_check fuel m w = NoFuel)).
Proof.
  intros Hm Hx self.
  assert (forall fuel, mutex_deadlock_check fuel m w =
    if negb (truthy (m_held x)) then Done (0, w) else if m_owner x =? self then Done (0, w)
    else deadlock_chain fuel m self (m_owner x) w) as E.
  { intros fuel. unfold mutex_deadlock_check. rewrite (bind_step _ _ w self w) by (by apply on_kern_read).
    rewrite (proj2 (Z.eqb_neq m NULL) Hm), (bind_step _ _ _ _ _ (obj_Done w m x Hx)).
    destruct (truthy (m_held x)); [|done]. cbn [negb]. by destruct (m_owner x =? self). }
  split.
  { intros fuel [H|H]; rewrite E, H; [done|]. rewrite Z.eqb_refl. by destruct (negb _). }
  intros Hh Ho. unfold truthy in E. rewrite (proj2 (Z.eqb_neq _ 0) Hh), (proj2 (Z.eqb_neq _ self) Ho) in E. cbn [negb] in E.
  split; [|split].
  - intros fuel ks h c k Hf Hh0 Hc Hk Hk0 Hcase. rewrite E, (follows_run _ _ _ _ _ _ _ Hf). cbn [deadlock_chain].
    rewrite (proj2 (Z.eqb_neq h NULL) Hh0), (bind_step _ _ w c w) by (by apply on_kern_read, tcb_Done).
    rewrite Hk, (proj2 (Z.eqb_neq k NULL) Hk0). destruct (Z.eqb_spec k m); [done|].
    destruct Hcase as [?|(y & Hy & Hyo)]; [done|]. by rewrite (bind_step _ _ _ _ _ (obj_Done w k y Hy)), Hyo, Z.eqb_refl.
  - intros fuel ks h Hf Hcase. rewrite E, (follows_run _ _ _ _ _ _ _ Hf). cbn [deadlock_chain].
    destruct (Z.eqb_spec h NULL); [done|]. destruct Hcase as [?|(c & Hc & Hb)]; [done|].
    by rewrite (bind_step _ _ w c w), Hb by (by apply on_kern_read, tcb_Done).
  - intros fuel ks h ks' Hf Hf' Hne. rewrite E. destruct (decide (fuel <= length ks)%nat) as [Hle|Hgt].
    + by eapply follows_short.
    + replace fuel with (length ks + (fuel - length ks))%nat by lia. rewrite (follows_run _ _ _ _ _ _ _ Hf).
      by eapply follows_cycle.
Qed.

(** Task 1 owns the mutex at 9100 and waits for 9200, which task 2 owns; task 2 waits for 9300 of task 3, and that for 9200. *)
Definition deadlocked_others : sync mutex_t unit :=
  let waiting k := set_t_block_obj k zero_tcb in
  Sync (set_current_task 9 (set_tcbs {[ 1 := waiting 9200; 2 := waiting 9300; 3 := waiting 9200 ]} kernel0))
       {[ 9100 := Mutex 1 1 0 1 NULL []; 9200 := Mutex 1 2 0 1 NULL []; 9300 := Mutex 1 3 0 1 NULL [] ]} tt.

Lemma deadlock_check_correct_witness :
  m_owner <$> objs deadlocked_others !! 9100 = Some 1 /\ (forall fuel, mutex_deadlock_check fuel 9100 deadlocked_others = NoFuel).
Proof.
  split; [reflexivity|]. intros fuel. destruct (deadlock_check_correct deadlocked_others 9100 (Mutex 1 1 0 1 NULL [])) as [_ H];
    [discriminate|reflexivity|].
  destruct H as (_ & _ & H); [discriminate|discriminate|].
  apply (H fuel [9200] 2 [9300; 9200]).
  - split; [discriminate|]. split; [exists (set_t_block_obj 9200 zero_tcb); split; reflexivity|]. split; [discriminate|]. split; [discriminate|].
    exists (Mutex 1 2 0 1 NULL []). split; [reflexivity|]. split; [discriminate|reflexivity].
  - split; [discriminate|]. split; [exists (set_t_block_obj 9300 zero_tcb); split; reflexivity|]. split; [discriminate|]. split; [discriminate|].
    exists (Mutex 1 3 0 1 NULL []). split; [reflexivity|]. split; [discriminate|].
    split; [discriminate|]. split; [exists (set_t_block_obj 9200 zero_tcb); split; reflexivity|]. split; [discriminate|]. split; [discriminate|].
    exists (Mutex 1 2 0 1 NULL []). split; [reflexivity|]. split; [discriminate|reflexivity].
  - discriminate.
Defined.
