(* ===== verification/Crc32.v ===== *)
(** * CRC-32

    The reflected checksum that the update manager and the signed images compute bit by bit, each in its own copy:
    a step of the register, and that a 32-bit window of the data determines the result one to one. *)
From S2P Require Import Prelude.

Definition crc32_bit (c : Z) : Z := if Z.land c 1 =? 0 then Z.shiftr c 1 else Z.lxor (Z.shiftr c 1) 0xEDB88320.
Definition crc32_byte (c d : Z) : Z := Nat.iter 8 crc32_bit (Z.lxor c d).
Definition crc32_of (data : list Z) : Z := Z.lxor (foldl crc32_byte 0xFFFFFFFF data) 0xFFFFFFFF.

(** ** The checksum over a window of the data *)

Lemma crc32_bit_alt c : crc32_bit c = Z.lxor (Z.shiftr c 1) (if Z.testbit c 0 then 0xEDB88320 else 0).
Proof.
  unfold crc32_bit. change 1 with (Z.ones 1) at 1. rewrite Z.land_ones by lia. change (2 ^ 1) with 2.
  rewrite <- Z.bit0_mod. destruct (Z.testbit c 0); cbn; [done|]. by rewrite Z.lxor_0_r.
Qed.

Lemma crc32_bit_lxor a b : crc32_bit (Z.lxor a b) = Z.lxor (crc32_bit a) (crc32_bit b).
Proof.
  rewrite !crc32_bit_alt, Z.shiftr_lxor, Z.lxor_spec.
  set (x := Z.shiftr a 1). set (y := Z.shiftr b 1). destruct (Z.testbit a 0), (Z.testbit b 0); cbn [xorb]; rewrite ?Z.lxor_0_r; try done.
  - by rewrite !Z.lxor_assoc, (Z.lxor_comm _ (Z.lxor y _)), Z.lxor_assoc, Z.lxor_nilpotent, Z.lxor_0_r.
  - by rewrite !Z.lxor_assoc, (Z.lxor_comm y).
  - by rewrite Z.lxor_assoc.
Qed.

Lemma crc32_bit_bound c : 0 <= c < 2 ^ 32 -> 0 <= crc32_bit c < 2 ^ 32.
Proof.
  intros H. rewrite crc32_bit_alt. apply lxor_bound; [lia| |destruct (Z.testbit c 0); lia].
  rewrite Z.shiftr_div_pow2 by lia. change (2 ^ 1) with 2. divmod_lia.
Qed.

(** One step loses nothing: its top bit is the bit shifted out. *)
Lemma crc32_bit_zero c : 0 <= c < 2 ^ 32 -> crc32_bit c = 0 -> c = 0.
Proof.
  intros H. rewrite crc32_bit_alt. intros E%Z.lxor_eq. rewrite Z.shiftr_div_pow2 in E by lia. change (2 ^ 1) with 2 in E.
  pose proof (Z.bit0_mod c) as Hb. destruct (Z.testbit c 0); cbn in Hb; Z.div_mod_to_equations; lia.
Qed.

Lemma iter_S {A} (f : A -> A) n x : Nat.iter (S n) f x = f (Nat.iter n f x).
Proof. done. Qed.

Lemma crc32_bits_lxor n a b : Nat.iter n crc32_bit (Z.lxor a b) = Z.lxor (Nat.iter n crc32_bit a) (Nat.iter n crc32_bit b).
Proof. induction n as [|n IH]; [done|]. by rewrite !iter_S, IH, crc32_bit_lxor. Qed.

Lemma crc32_bits_bound n c : 0 <= c < 2 ^ 32 -> 0 <= Nat.iter n crc32_bit c < 2 ^ 32.
Proof. intros H. induction n as [|n IH]; [done|]. rewrite iter_S. by apply crc32_bit_bound. Qed.

Lemma crc32_bits_inj n a b :
  0 <= a < 2 ^ 32 -> 0 <= b < 2 ^ 32 -> Nat.iter n crc32_bit a = Nat.iter n crc32_bit b -> a = b.
Proof.
  intros Ha Hb E. apply Z.lxor_eq.
  assert (0 <= Z.lxor a b < 2 ^ 32) as Hab by (apply lxor_bound; lia).
  assert (Nat.iter n crc32_bit (Z.lxor a b) = 0) as H0 by (by rewrite crc32_bits_lxor, E, Z.lxor_nilpotent).
  clear E. induction n as [|n IH]; [done|]. apply IH. apply crc32_bit_zero; [by apply crc32_bits_bound|done].
Qed.

Lemma crc32_bits_shift n k w : 0 <= w -> (n <= k)%nat -> Nat.iter n crc32_bit (Z.shiftl w (Z.of_nat k)) = Z.shiftl w (Z.of_nat (k - n)).
Proof.
  intros Hw. induction n as [|n IH]; intros Hn; [cbn; by rewrite Nat.sub_0_r|]. rewrite iter_S, IH by lia. rewrite crc32_bit_alt.
  rewrite Z.shiftl_spec_low by lia. rewrite Z.lxor_0_r, Z.shiftr_shiftl_l by lia. f_equal. lia.
Qed.

Lemma u8_split x : 0 <= x -> x = Z.lxor (u8 x) (Z.shiftl (Z.shiftr x 8) 8).
Proof.
  intros Hx. rewrite Z.lxor_comm, Z.lxor_lor.
  - rewrite lor_shiftl_add by (lia || apply u8_range). rewrite Z.shiftr_div_pow2 by lia. unfold u8. change (2 ^ 8) with 256. divmod_lia.
  - apply Z.bits_inj'. intros i Hi. rewrite Z.land_spec, Z.bits_0. destruct (Z.lt_ge_cases i 8).
    + by rewrite Z.shiftl_spec_low.
    + rewrite (testbit_high 8 (u8 x)), andb_false_r by (lia || apply u8_range). done.
Qed.

(** The bytes of an integer enter the register as the integer itself. *)
Lemma crc32_window n s x : 0 <= x -> foldl crc32_byte s (le_bytes n x) = Nat.iter (8 * n) crc32_bit (Z.lxor s (x mod 256 ^ Z.of_nat n)).
Proof.
  revert s x. induction n as [|n IH]; intros s x Hx.
  - change (256 ^ Z.of_nat 0) with 1. rewrite Z.mod_1_r. cbn. by rewrite Z.lxor_0_r.
  - cbn [le_bytes foldl]. assert (0 <= Z.shiftr x 8) by (by apply Z.shiftr_nonneg). rewrite IH by done.
    replace (8 * S n)%nat with (8 * n + 8)%nat by lia. rewrite Nat.iter_add. f_equal. unfold crc32_byte.
    assert (x mod 256 ^ Z.of_nat (S n) = Z.lxor (u8 x) (Z.shiftl (Z.shiftr x 8 mod 256 ^ Z.of_nat n) 8)) as ->.
    { assert (0 < 256 ^ Z.of_nat n) by (apply Z.pow_pos_nonneg; lia).
      rewrite (u8_split (x mod 256 ^ Z.of_nat (S n))) by (apply Z.mod_pos_bound, Z.pow_pos_nonneg; lia).
      rewrite Nat2Z.inj_succ, Z.pow_succ_r by lia. rewrite !Z.shiftr_div_pow2 by lia. change (2 ^ 8) with 256. unfold u8.
      rewrite Z.rem_mul_r by lia. f_equal.
      - rewrite (Z.mul_comm 256), Z_mod_plus_full. by rewrite Z.mod_mod by lia.
      - f_equal. rewrite (Z.mul_comm 256), Z.div_add by lia. rewrite (Z.div_small (x mod 256)) by (apply Z.mod_pos_bound; lia). lia. }
    rewrite <- Z.lxor_assoc, (crc32_bits_lxor 8 (Z.lxor s (u8 x))). f_equal.
    rewrite (crc32_bits_shift 8 8); [by rewrite Z.shiftl_0_r|apply Z.mod_pos_bound, Z.pow_pos_nonneg; lia|lia].
Qed.

Lemma crc32_fold_bound s data : 0 <= s < 2 ^ 32 -> Forall is_u8 data -> 0 <= foldl crc32_byte s data < 2 ^ 32.
Proof.
  revert s. induction data as [|d data IH]; intros s Hs Hd; [done|]. apply Forall_cons in Hd as [Hd Hr]. cbn [foldl]. apply IH; [|done].
  apply (crc32_bits_bound 8), lxor_bound; [lia|done|]. unfold is_u8 in Hd. lia.
Qed.

Lemma crc32_fold_inj s s' data :
  0 <= s < 2 ^ 32 -> 0 <= s' < 2 ^ 32 -> Forall is_u8 data -> foldl crc32_byte s data = foldl crc32_byte s' data -> s = s'.
Proof.
  revert s s'. induction data as [|d data IH]; intros s s' Hs Hs' Hd E; [done|]. apply Forall_cons in Hd as [Hd Hr]. cbn [foldl] in E.
  unfold is_u8 in Hd. assert (forall s, 0 <= s < 2 ^ 32 -> 0 <= Z.lxor s d < 2 ^ 32) as Hb by (intros; apply lxor_bound; lia).
  apply IH in E; [|apply (crc32_bits_bound 8); auto..|done]. apply (crc32_bits_inj 8) in E; [|auto..].
  apply (f_equal (fun x => Z.lxor x d)) in E. by rewrite !Z.lxor_assoc, Z.lxor_nilpotent, !Z.lxor_0_r in E.
Qed.

(** A 32-bit field anywhere in the data determines the checksum one to one. *)
Lemma crc32_field_inj pre post x y :
  Forall is_u8 pre -> Forall is_u8 post -> 0 <= x < 2 ^ 32 -> 0 <= y < 2 ^ 32 ->
  crc32_of (pre ++ le_bytes 4 x ++ post) = crc32_of (pre ++ le_bytes 4 y ++ post) -> x = y.
Proof.
  intros Hp Hq Hx Hy E. unfold crc32_of in E. apply (f_equal (fun z => Z.lxor z 0xFFFFFFFF)) in E.
  rewrite !Z.lxor_assoc, Z.lxor_nilpotent, !Z.lxor_0_r, !foldl_app in E. set (s := foldl crc32_byte 0xFFFFFFFF pre) in E.
  assert (0 <= s < 2 ^ 32) as Hs by (apply crc32_fold_bound; [lia|done]).
  rewrite !crc32_window in E by lia. change (256 ^ Z.of_nat 4) with (2 ^ 32) in E. rewrite !Z.mod_small in E by lia.
  assert (forall z, 0 <= z < 2 ^ 32 -> 0 <= Z.lxor s z < 2 ^ 32) as Hb by (intros; apply lxor_bound; lia).
  apply crc32_fold_inj in E; [|apply crc32_bits_bound; auto|apply crc32_bits_bound; auto|done]. apply crc32_bits_inj in E; [|auto..].
  apply (f_equal (Z.lxor s)) in E. by rewrite <- !Z.lxor_assoc, Z.lxor_nilpotent, !Z.lxor_0_l in E.
Qed.

Lemma crc32_bound data : Forall is_u8 data -> 0 <= crc32_of data < 2 ^ 32.
Proof. intros H. apply lxor_bound; [lia| |lia]. apply crc32_fold_bound; [lia|done]. Qed.
