(* ===== verification/AbUpdate.v ===== *)
(** * A/B update manager (mini-ota-update/src/ab_update.c)

    Two image slots described by a packed partition header in flash: creation, load and
    save of the header, choice of the slot to boot, boot marks, writes to and verification of the
    standby slot, switch and rollback.  The flash, the clock and the boot counter are callbacks
    of the platform: parameters of the definitions ([ab_update_hal_t]). *)
From S2P Require Import Prelude.
From S2P Require Import Crc32.

Definition AB_UPDATE_MAX_SLOTS : Z := 2.
Definition AB_UPDATE_SLOT_NAME_MAX : nat := 32.
Definition AB_UPDATE_HASH_SIZE : nat := 32.
Definition AB_UPDATE_BOOT_COUNT_MAX : Z := 7.

(** [ab_slot_state_t]: an int in the packed structure, so any value may be read from flash. *)
Definition AB_SLOT_STATE_UNKNOWN : Z := 0.
Definition AB_SLOT_STATE_INACTIVE : Z := 1.
Definition AB_SLOT_STATE_BOOTING : Z := 2.
Definition AB_SLOT_STATE_ACTIVE : Z := 3.
Definition AB_SLOT_STATE_INVALID : Z := 4.

Inductive ab_result_t :=
  AB_RESULT_OK | AB_RESULT_ERR_PARAM | AB_RESULT_ERR_NOMEM | AB_RESULT_ERR_IO | AB_RESULT_ERR_CRC | AB_RESULT_ERR_SIGNATURE
| AB_RESULT_ERR_ROLLBACK | AB_RESULT_ERR_BOOTLIMIT | AB_RESULT_ERR_SLOT_FULL | AB_RESULT_ERR_NOT_FOUND | AB_RESULT_ERR_STATE.

Record ab_slot_metadata_t := Slot {
  slot_id : Z; slot_name : list Z; slot_offset : Z; slot_size : Z; state : Z; priority : Z; bootable : Z;
  boot_successful : Z; boot_attempts : Z; boot_count_limit : Z; version_major : Z; version_minor : Z; version_patch : Z;
  version_extra : list Z; image_hash : list Z; image_size : Z; image_crc : Z; last_boot_time : Z; update_timestamp : Z;
  slot_reserved : list Z }.

Record ab_partition_header_t := Header {
  magic : Z; version : Z; header_size : Z; total_size : Z; num_slots : Z; active_slot : Z; boot_slot : Z; reserved : Z; crc32 : Z;
  slots : list ab_slot_metadata_t }.

Definition zero_slot : ab_slot_metadata_t :=
  Slot 0 (replicate 32 0) 0 0 0 0 0 0 0 0 0 0 0 (replicate 16 0) (replicate 32 0) 0 0 0 0 (replicate 16 0).
Definition zero_header : ab_partition_header_t := Header 0 0 0 0 0 0 0 0 0 [zero_slot; zero_slot].
#[export] Instance slot_inhabited : Inhabited ab_slot_metadata_t := populate zero_slot.

(** ** The structures in memory

    [memcpy] between a structure and a buffer: the bytes of its fields in order, integers
    little-endian. *)
Definition slot_layout : list nat := [1; 32; 4; 4; 4; 1; 1; 1; 1; 1; 4; 4; 4; 16; 32; 4; 4; 4; 4; 16]%nat.
Definition header_layout : list nat := [4; 2; 2; 4; 1; 1; 1; 1; 4; 142; 142]%nat.
Definition sizeof_slot : nat := 142.
Definition sizeof_header : nat := 304.

Definition slot_fields (s : ab_slot_metadata_t) : list (list Z) :=
  [le_bytes 1 (slot_id s); slot_name s; le_bytes 4 (slot_offset s); le_bytes 4 (slot_size s); le_bytes 4 (state s); le_bytes 1 (priority s);
   le_bytes 1 (bootable s); le_bytes 1 (boot_successful s); le_bytes 1 (boot_attempts s); le_bytes 1 (boot_count_limit s);
   le_bytes 4 (version_major s); le_bytes 4 (version_minor s); le_bytes 4 (version_patch s); version_extra s; image_hash s;
   le_bytes 4 (image_size s); le_bytes 4 (image_crc s); le_bytes 4 (last_boot_time s); le_bytes 4 (update_timestamp s); slot_reserved s].
Definition encode_slot (s : ab_slot_metadata_t) : list Z := concat (slot_fields s).
Definition decode_slot (bs : list Z) : ab_slot_metadata_t :=
  let f i := split_fields slot_layout bs !!! i in
  let v i := le_val (f i) in
  Slot (v 0%nat) (f 1%nat) (v 2%nat) (v 3%nat) (v 4%nat) (v 5%nat) (v 6%nat) (v 7%nat) (v 8%nat) (v 9%nat) (v 10%nat) (v 11%nat) (v 12%nat)
    (f 13%nat) (f 14%nat) (v 15%nat) (v 16%nat) (v 17%nat) (v 18%nat) (f 19%nat).

Definition header_fields (h : ab_partition_header_t) : list (list Z) :=
  [le_bytes 4 (magic h); le_bytes 2 (version h); le_bytes 2 (header_size h); le_bytes 4 (total_size h); le_bytes 1 (num_slots h);
   le_bytes 1 (active_slot h); le_bytes 1 (boot_slot h); le_bytes 1 (reserved h); le_bytes 4 (crc32 h)] ++ (encode_slot <$> slots h).
Definition encode_header (h : ab_partition_header_t) : list Z := concat (header_fields h).
Definition decode_header (bs : list Z) : ab_partition_header_t :=
  let f i := split_fields header_layout bs !!! i in
  let v i := le_val (f i) in
  Header (v 0%nat) (v 1%nat) (v 2%nat) (v 3%nat) (v 4%nat) (v 5%nat) (v 6%nat) (v 7%nat) (v 8%nat) [decode_slot (f 9%nat); decode_slot (f 10%nat)].

(** ** Field updates *)

Definition set_crc32 (x : Z) (h : ab_partition_header_t) : ab_partition_header_t :=
  Header (magic h) (version h) (header_size h) (total_size h) (num_slots h) (active_slot h) (boot_slot h) (reserved h) x (slots h).
Definition set_active_slot (x : Z) (h : ab_partition_header_t) : ab_partition_header_t :=
  Header (magic h) (version h) (header_size h) (total_size h) (num_slots h) x (boot_slot h) (reserved h) (crc32 h) (slots h).
Definition set_boot_slot (x : Z) (h : ab_partition_header_t) : ab_partition_header_t :=
  Header (magic h) (version h) (header_size h) (total_size h) (num_slots h) (active_slot h) x (reserved h) (crc32 h) (slots h).
Definition set_slots (ss : list ab_slot_metadata_t) (h : ab_partition_header_t) : ab_partition_header_t :=
  Header (magic h) (version h) (header_size h) (total_size h) (num_slots h) (active_slot h) (boot_slot h) (reserved h) (crc32 h) ss.

(** State, bootable flag, success flag, attempts and boot time of a slot. *)
Definition set_boot (st bt su at_ tm : Z) (s : ab_slot_metadata_t) : ab_slot_metadata_t :=
  Slot (slot_id s) (slot_name s) (slot_offset s) (slot_size s) st (priority s) bt su at_ (boot_count_limit s)
    (version_major s) (version_minor s) (version_patch s) (version_extra s) (image_hash s) (image_size s) (image_crc s)
    tm (update_timestamp s) (slot_reserved s).
Definition set_state (st : Z) (s : ab_slot_metadata_t) : ab_slot_metadata_t :=
  set_boot st (bootable s) (boot_successful s) (boot_attempts s) (last_boot_time s) s.
Definition set_version (ma mi pa tm : Z) (s : ab_slot_metadata_t) : ab_slot_metadata_t :=
  Slot (slot_id s) (slot_name s) (slot_offset s) (slot_size s) (state s) (priority s) (bootable s) (boot_successful s) (boot_attempts s)
    (boot_count_limit s) ma mi pa (version_extra s) (image_hash s) (image_size s) (image_crc s) (last_boot_time s) tm (slot_reserved s).

(** ** The checksum *)

Definition ab_update_crc32 (data : list Z) : Z := crc32_of data.

(** ** Context, platform and calls *)

Record ab_update_ctx_t := Ctx {
  partition : ab_partition_header_t; initialized : bool; partition_loaded : bool;
  active_slot_cache : Z; standby_slot_cache : Z; boot_failure_count : Z; boot_marked : bool }.

(** The callbacks over the platform's state [F]; [None] is a null function pointer.  The
    erase and set_boot_count callbacks are never called. *)
Record ab_update_hal_t (F : Type) := Hal {
  flash_read : option (Z -> Z -> F -> option (list Z) * F);
  flash_write : option (Z -> list Z -> F -> Z * F);
  get_boot_count : option (F -> Z * F);
  reset_boot_count : option (F -> F);
  reboot : option (Z -> F -> F);
  get_current_time : option (F -> Z * F) }.
Arguments Hal {F}.
Arguments flash_read {F}.
Arguments flash_write {F}.
Arguments get_boot_count {F}.
Arguments reset_boot_count {F}.
Arguments reboot {F}.
Arguments get_current_time {F}.

(** The context pointer ([None] is NULL) and the platform's state. *)
Record ab (F : Type) := Ab { ctx : option ab_update_ctx_t; dev : F }.
Arguments Ab {F}.
Arguments ctx {F}.
Arguments dev {F}.

(** [malloc] may fail; the allocated context is cleared. *)
Definition ab_update_init {F} (hal : option (ab_update_hal_t F)) (malloc_ok : bool) : option ab_update_ctx_t :=
  match hal with
  | None => None
  | Some _ => if malloc_ok then Some (Ctx zero_header true false 0 0 0 false) else None
  end.

Definition set_partition (h : ab_partition_header_t) (c : ab_update_ctx_t) : ab_update_ctx_t :=
  Ctx h (initialized c) (partition_loaded c) (active_slot_cache c) (standby_slot_cache c) (boot_failure_count c) (boot_marked c).
Definition set_caches (a s : Z) (c : ab_update_ctx_t) : ab_update_ctx_t :=
  Ctx (partition c) (initialized c) (partition_loaded c) a s (boot_failure_count c) (boot_marked c).
Definition set_loaded (b : bool) (c : ab_update_ctx_t) : ab_update_ctx_t :=
  Ctx (partition c) (initialized c) b (active_slot_cache c) (standby_slot_cache c) (boot_failure_count c) (boot_marked c).
Definition set_marked (b : bool) (c : ab_update_ctx_t) : ab_update_ctx_t :=
  Ctx (partition c) (initialized c) (partition_loaded c) (active_slot_cache c) (standby_slot_cache c) (boot_failure_count c) b.

Definition header_crc (h : ab_partition_header_t) : Z := ab_update_crc32 (take (sizeof_header - 4) (encode_header h)).

(** The name of slot [i]: [snprintf] of "slot_%c" into a cleared array. *)
Definition slot_letter (i : Z) : list Z := [115; 108; 111; 116; 95; 65 + i] ++ replicate 26 0.

Definition init_slot (slot_size i : Z) : ab_slot_metadata_t :=
  Slot i (slot_letter i) (304 +32 i *32 slot_size) slot_size AB_SLOT_STATE_INACTIVE i 0 0 0 AB_UPDATE_BOOT_COUNT_MAX 0 0 0
    (replicate 16 0) (replicate 32 0) 0 0 0 0 (replicate 16 0).

Definition init_header (total_size : Z) : ab_partition_header_t :=
  let slot_size := (total_size -32 304) / AB_UPDATE_MAX_SLOTS in
  let s0 := init_slot slot_size 0 in
  Header 0x41425550 1 304 total_size 2 0 0 0 0
    [set_boot AB_SLOT_STATE_ACTIVE 1 (boot_successful s0) (boot_attempts s0) (last_boot_time s0) s0; init_slot slot_size 1].

Fixpoint xor_into (i : nat) (data hash : list Z) : list Z :=
  match data with
  | [] => hash
  | b :: data => xor_into (S i) data (alter (fun x => Z.lxor x b) (i mod AB_UPDATE_HASH_SIZE)%nat hash)
  end.

(** Which slot [select_boot_slot] boots, and whether it resets slot A first. *)
Definition choose_slot (a b : ab_slot_metadata_t) : Z * bool :=
  let a_bootable := truthy (bootable a) && (state a =? AB_SLOT_STATE_ACTIVE) in
  let b_bootable := truthy (bootable b) && (state b =? AB_SLOT_STATE_ACTIVE) in
  if negb a_bootable && negb b_bootable then (0, true)
  else if a_bootable && negb b_bootable then (0, false)
  else if negb a_bootable && b_bootable then (1, false)
  else if priority b <? priority a then (0, false)
  else if priority a <? priority b then (1, false)
  else if version_major b <? version_major a then (0, false)
  else if version_major a <? version_major b then (1, false)
  else (0, false).

Section calls.
Context {F : Type} (hal : ab_update_hal_t F).
Notation AM := (M (ab F)).

(** A call through a callback pointer. *)
Definition call {A} (f : option (F -> A * F)) : AM A := fun w =>
  match f with None => UB | Some f => let '(a, d) := f (dev w) in Done (a, Ab (ctx w) d) end.
Definition call_or (d : Z) (f : option (F -> Z * F)) : AM Z := match f with None => mret d | Some _ => call f end.

(** A null context, or one that fails the test [ok], is a parameter error. *)
Definition guarded (ok : ab_update_ctx_t -> bool) (k : ab_update_ctx_t -> AM ab_result_t) : AM ab_result_t :=
  c ← gets ctx;
  match c with
  | Some c => if ok c then k c else mret AB_RESULT_ERR_PARAM
  | None => mret AB_RESULT_ERR_PARAM
  end.

Definition upd_ctx (f : ab_update_ctx_t -> ab_update_ctx_t) : AM unit := modify (fun w => Ab (f <$> ctx w) (dev w)).
Definition upd_header (f : ab_partition_header_t -> ab_partition_header_t) : AM unit :=
  upd_ctx (fun c => set_partition (f (partition c)) c).
(** [hdr->slots[i]] for [i] within the array. *)
Definition upd_slot (i : Z) (f : ab_slot_metadata_t -> ab_slot_metadata_t) : AM unit :=
  if i <? AB_UPDATE_MAX_SLOTS then upd_header (fun h => set_slots (alter f (Z.to_nat i) (slots h)) h) else undefined.
Definition get_slot (c : ab_update_ctx_t) (i : Z) : AM ab_slot_metadata_t :=
  if i <? AB_UPDATE_MAX_SLOTS then mret (slots (partition c) !!! Z.to_nat i) else undefined.

Definition ab_update_partition_save : AM ab_result_t :=
  guarded initialized (fun c =>
    let h := partition c in
    upd_header (set_crc32 (header_crc h));;
    rc ← call ((fun f => f 0 (encode_header (set_crc32 (header_crc h) h))) <$> flash_write hal);
    mret (if rc =? 0 then AB_RESULT_OK else AB_RESULT_ERR_IO)).

Definition ab_update_partition_init (total_size : Z) : AM ab_result_t :=
  guarded (fun c => initialized c && negb (total_size =? 0)) (fun _ =>
    upd_header (fun _ => init_header total_size);;
    ab_update_partition_save).

Definition ab_update_partition_load : AM ab_result_t :=
  guarded initialized (fun _ =>
    data ← call ((fun f => f 0 304) <$> flash_read hal);
    match data with
    | None => mret AB_RESULT_ERR_IO
    | Some bs =>
        if (length bs <? sizeof_header)%nat then undefined
        else
          let h := decode_header (take sizeof_header bs) in
          upd_header (fun _ => h);;
          if negb (header_crc h =? crc32 h) then mret AB_RESULT_ERR_CRC
          else if negb (magic h =? 0x41425550) then mret AB_RESULT_ERR_CRC
          else if version h <? 1 then mret AB_RESULT_ERR_CRC
          else
            upd_ctx (set_loaded true);;
            upd_ctx (set_caches (active_slot h) (u8 ((active_slot h + 1) mod AB_UPDATE_MAX_SLOTS)));;
            mret AB_RESULT_OK
    end).

(** The output pointers: [out] says whether the pointer is not null; a value is
    written exactly when one is returned. *)
Definition read_ctx {A} (out : bool) (ok : ab_update_ctx_t -> bool) (f : ab_update_ctx_t -> A) : AM (ab_result_t * option A) :=
  c ← gets ctx;
  match c with
  | Some c => if out && ok c then mret (AB_RESULT_OK, Some (f c)) else mret (AB_RESULT_ERR_PARAM, None)
  | None => mret (AB_RESULT_ERR_PARAM, None)
  end.
Definition ab_update_get_active_slot (out : bool) : AM (ab_result_t * option Z) := read_ctx out partition_loaded active_slot_cache.
Definition ab_update_get_standby_slot (out : bool) : AM (ab_result_t * option Z) := read_ctx out partition_loaded standby_slot_cache.
Definition ab_update_get_slot_metadata (slot_id : Z) (out : bool) : AM (ab_result_t * option ab_slot_metadata_t) :=
  read_ctx out (fun _ => slot_id <? AB_UPDATE_MAX_SLOTS) (fun c => slots (partition c) !!! Z.to_nat slot_id).

Definition ab_update_select_boot_slot (out : bool) : AM (ab_result_t * option Z) :=
  c ← gets ctx;
  match c with
  | None => mret (AB_RESULT_ERR_PARAM, None)
  | Some c =>
      if negb (out && partition_loaded c) then mret (AB_RESULT_ERR_PARAM, None)
      else
        a ← get_slot c 0;
        b ← get_slot c 1;
        let '(chosen, reset_a) := choose_slot a b in
        when reset_a (upd_slot 0 (fun s => set_boot AB_SLOT_STATE_ACTIVE (bootable s) (boot_successful s) 0 (last_boot_time s) s));;
        upd_slot chosen (fun s => set_boot AB_SLOT_STATE_BOOTING (bootable s) (boot_successful s) (u8 (boot_attempts s + 1)) (last_boot_time s) s);;
        now ← call_or 0 (get_current_time hal);
        upd_slot chosen (fun s => set_boot (state s) (bootable s) (boot_successful s) (boot_attempts s) now s);;
        upd_header (set_boot_slot chosen);;
        r ← ab_update_partition_save;
        mret (r, Some chosen)
  end.

Definition ab_update_mark_boot_successful : AM ab_result_t :=
  guarded partition_loaded (fun c =>
    let boot := boot_slot (partition c) in
    upd_slot boot (fun s => set_boot AB_SLOT_STATE_ACTIVE (bootable s) 1 0 (last_boot_time s) s);;
    upd_header (set_active_slot boot);;
    upd_ctx (set_caches boot (u8 ((boot + 1) mod AB_UPDATE_MAX_SLOTS)));;
    upd_ctx (set_marked true);;
    match reset_boot_count hal with
    | Some f => call (Some (fun d => (tt, f d)))
    | None => mret tt
    end;;
    ab_update_partition_save).

Definition ab_update_mark_boot_failed : AM ab_result_t :=
  guarded partition_loaded (fun c =>
    upd_slot (boot_slot (partition c)) (fun s => set_boot AB_SLOT_STATE_INVALID (bootable s) 0 (boot_attempts s) (last_boot_time s) s);;
    ab_update_partition_save).

(** [data] of length [len] at the flash offset [offset] of the standby slot. *)
Definition ab_update_write_to_standby (data : option (list Z)) (offset : Z) : AM ab_result_t :=
  guarded (fun _ => match data with None | Some [] => false | _ => true end) (fun c =>
    let data := default [] data in
    slot ← get_slot c (standby_slot_cache c);
    if slot_size slot <? u64 (offset + Z.of_nat (length data)) then mret AB_RESULT_ERR_SLOT_FULL
    else
      rc ← call ((fun f => f (slot_offset slot +32 offset) data) <$> flash_write hal);
      mret (if rc =? 0 then AB_RESULT_OK else AB_RESULT_ERR_IO)).

(** The loop over the image: [None] when a read fails. *)
Fixpoint hash_loop (fuel : nat) (read : Z -> Z -> F -> option (list Z) * F) (slot_offset offset remaining : Z) (hash : list Z) :
    AM (option (list Z)) :=
  match fuel with
  | O => nofuel
  | S fuel =>
      if remaining <=? 0 then mret (Some hash)
      else
        let chunk := Z.min remaining 256 in
        data ← call (Some (read (slot_offset +32 offset) chunk));
        match data with
        | None => mret None
        | Some bs =>
            if Z.of_nat (length bs) <? chunk then undefined
            else hash_loop fuel read slot_offset (offset +32 chunk) (remaining - chunk) (xor_into 0 (take (Z.to_nat chunk) bs) hash)
        end
  end.

Definition ab_update_verify_standby (expected_hash : option (list Z)) : AM ab_result_t :=
  guarded (fun _ => match expected_hash, flash_read hal with Some _, Some _ => true | _, _ => false end) (fun c =>
    match expected_hash, flash_read hal with
    | Some expected, Some read =>
        slot ← get_slot c (standby_slot_cache c);
        hash ← hash_loop (2 + Z.to_nat (image_size slot / 256)) read (slot_offset slot) 0 (image_size slot) (replicate AB_UPDATE_HASH_SIZE 0);
        match hash with
        | None => mret AB_RESULT_ERR_IO
        | Some h => mret (if bool_decide (h = take AB_UPDATE_HASH_SIZE expected) then AB_RESULT_OK else AB_RESULT_ERR_CRC)
        end
    | _, _ => mret AB_RESULT_ERR_PARAM
    end).

Definition ab_update_set_standby_bootable (ma mi pa : Z) : AM ab_result_t :=
  guarded partition_loaded (fun c =>
    upd_slot (standby_slot_cache c) (fun s => set_boot AB_SLOT_STATE_INACTIVE 1 (boot_successful s) (boot_attempts s) (last_boot_time s) s);;
    now ← call_or 0 (get_current_time hal);
    upd_slot (standby_slot_cache c) (set_version ma mi pa now);;
    upd_slot (active_slot_cache c) (fun s => set_boot AB_SLOT_STATE_INACTIVE 0 (boot_successful s) (boot_attempts s) (last_boot_time s) s);;
    ab_update_partition_save).

Definition ab_update_switch_and_reboot : AM ab_result_t :=
  guarded partition_loaded (fun c =>
    let new_active := standby_slot_cache c in
    upd_header (set_active_slot new_active);;
    upd_slot new_active (set_state AB_SLOT_STATE_ACTIVE);;
    r ← ab_update_partition_save;
    match r with
    | AB_RESULT_OK =>
        match reboot hal with
        | Some f => call (Some (fun d => (AB_RESULT_OK, f new_active d)))
        | None => mret AB_RESULT_OK
        end
    | _ => mret r
    end).

Definition ab_update_rollback : AM ab_result_t :=
  guarded partition_loaded (fun c =>
    let current := active_slot (partition c) in
    let previous := u8 ((current + 1) mod AB_UPDATE_MAX_SLOTS) in
    upd_slot current (fun s => set_boot AB_SLOT_STATE_INVALID 0 (boot_successful s) (boot_attempts s) (last_boot_time s) s);;
    upd_slot previous (fun s => set_boot AB_SLOT_STATE_ACTIVE 1 (boot_successful s) (boot_attempts s) (last_boot_time s) s);;
    upd_header (set_active_slot previous);;
    upd_ctx (set_caches previous current);;
    ab_update_partition_save).

Definition ab_update_check_boot_limit (out : bool) : AM (ab_result_t * option bool) :=
  c ← gets ctx;
  match c with
  | None => mret (AB_RESULT_ERR_PARAM, None)
  | Some c =>
      if negb (out && partition_loaded c) then mret (AB_RESULT_ERR_PARAM, None)
      else
        n ← call_or 0 (get_boot_count hal);
        mret (AB_RESULT_OK, Some (AB_UPDATE_BOOT_COUNT_MAX <? n))
  end.
End calls.

Definition ab_update_result_str (r : ab_result_t) : string :=
  match r with
  | AB_RESULT_OK => "OK"
  | AB_RESULT_ERR_PARAM => "Invalid parameter"
  | AB_RESULT_ERR_NOMEM => "No memory"
  | AB_RESULT_ERR_IO => "I/O error"
  | AB_RESULT_ERR_CRC => "CRC mismatch"
  | AB_RESULT_ERR_SIGNATURE => "Signature error"
  | AB_RESULT_ERR_ROLLBACK => "Rollback error"
  | AB_RESULT_ERR_BOOTLIMIT => "Boot count limit exceeded"
  | AB_RESULT_ERR_SLOT_FULL => "Slot full"
  | AB_RESULT_ERR_NOT_FOUND => "Not found"
  | AB_RESULT_ERR_STATE => "Invalid state"
  end%string.

(** ** The packed structures *)


(** The ranges of the C fields. *)
Definition slot_wf (s : ab_slot_metadata_t) : Prop :=
  (is_u8 (slot_id s) /\ is_u8 (priority s) /\ is_u8 (bootable s) /\ is_u8 (boot_successful s) /\ is_u8 (boot_attempts s) /\ is_u8 (boot_count_limit s)) /\
  (is_u32 (slot_offset s) /\ is_u32 (slot_size s) /\ is_u32 (state s) /\ is_u32 (version_major s) /\ is_u32 (version_minor s) /\ is_u32 (version_patch s)) /\
  (is_u32 (image_size s) /\ is_u32 (image_crc s) /\ is_u32 (last_boot_time s) /\ is_u32 (update_timestamp s)) /\
  (bytes_of_length 32 (slot_name s) /\ bytes_of_length 16 (version_extra s) /\ bytes_of_length 32 (image_hash s) /\ bytes_of_length 16 (slot_reserved s)).

Definition header_wf (h : ab_partition_header_t) : Prop :=
  (is_u32 (magic h) /\ 0 <= version h < 65536 /\ 0 <= header_size h < 65536 /\ is_u32 (total_size h) /\ is_u32 (crc32 h)) /\
  (is_u8 (num_slots h) /\ is_u8 (active_slot h) /\ is_u8 (boot_slot h) /\ is_u8 (reserved h)) /\
  exists a b, slots h = [a; b] /\ slot_wf a /\ slot_wf b.

Lemma slot_fields_lengths s : slot_wf s -> length <$> slot_fields s = slot_layout.
Proof.
  intros (_ & _ & _ & [L1 _] & [L2 _] & [L3 _] & [L4 _]). unfold slot_fields, slot_layout. cbn [fmap list_fmap].
  by rewrite !length_le_bytes, L1, L2, L3, L4.
Qed.

Lemma length_encode_slot s : slot_wf s -> length (encode_slot s) = sizeof_slot.
Proof. intros H. unfold encode_slot. rewrite length_concat_sum, slot_fields_lengths by done. done. Qed.

Lemma encode_slot_u8 s : slot_wf s -> Forall is_u8 (encode_slot s).
Proof.
  intros (_ & _ & _ & [_ L1] & [_ L2] & [_ L3] & [_ L4]). unfold encode_slot, slot_fields. cbn [concat].
  repeat (apply Forall_app; split); first [apply le_bytes_u8 | done | constructor].
Qed.

Lemma decode_encode_slot s : slot_wf s -> decode_slot (encode_slot s) = s.
Proof.
  intros H. unfold decode_slot, encode_slot. rewrite <- (slot_fields_lengths s H), split_fields_concat.
  destruct H as ((?&?&?&?&?&?) & (?&?&?&?&?&?) & (?&?&?&?) & _). unfold is_u8, is_u32 in *. unfold slot_fields. cbn [lookup_total list_lookup_total].
  rewrite !le_val_bytes by (change (256 ^ Z.of_nat 1) with 256; change (256 ^ Z.of_nat 4) with 4294967296; done). by destruct s.
Qed.

Lemma header_fields_lengths h : header_wf h -> length <$> header_fields h = header_layout.
Proof.
  intros (_ & _ & a & b & E & Ha & Hb). unfold header_fields. rewrite E. cbn [fmap list_fmap app].
  by rewrite !length_le_bytes, !length_encode_slot.
Qed.

Lemma length_encode_header h : header_wf h -> length (encode_header h) = sizeof_header.
Proof. intros H. unfold encode_header. rewrite length_concat_sum, header_fields_lengths by done. done. Qed.

Lemma decode_encode_header h : header_wf h -> decode_header (encode_header h) = h.
Proof.
  intros H. unfold decode_header, encode_header. rewrite <- (header_fields_lengths h H), split_fields_concat.
  destruct H as ((?&?&?&?&?) & (?&?&?&?) & a & b & E & Ha & Hb). unfold is_u8, is_u32 in *. unfold header_fields. rewrite E. cbn [lookup_total list_lookup_total app fmap list_fmap].
  rewrite !le_val_bytes by (change (256 ^ Z.of_nat 1) with 256; change (256 ^ Z.of_nat 2) with 65536; change (256 ^ Z.of_nat 4) with 4294967296; done).
  rewrite !decode_encode_slot by done. rewrite <- E. by destruct h.
Qed.

(** The checksummed bytes around the checksum field itself. *)
Definition crc_prefix (h : ab_partition_header_t) : list Z :=
  concat [le_bytes 4 (magic h); le_bytes 2 (version h); le_bytes 2 (header_size h); le_bytes 4 (total_size h); le_bytes 1 (num_slots h);
          le_bytes 1 (active_slot h); le_bytes 1 (boot_slot h); le_bytes 1 (reserved h)].
Definition crc_suffix (h : ab_partition_header_t) : list Z := take 280 (concat (encode_slot <$> slots h)).

Lemma header_crc_window h : header_crc h = ab_update_crc32 (crc_prefix h ++ le_bytes 4 (crc32 h) ++ crc_suffix h).
Proof. reflexivity. Qed.

Lemma crc_prefix_u8 h : Forall is_u8 (crc_prefix h).
Proof. unfold crc_prefix. cbn [concat]. repeat (apply Forall_app; split); first [apply le_bytes_u8 | constructor]. Qed.
Lemma crc_suffix_u8 h : header_wf h -> Forall is_u8 (crc_suffix h).
Proof.
  intros (_ & _ & a & b & E & Ha & Hb). unfold crc_suffix. rewrite E. apply Forall_take.
  change (Forall is_u8 (encode_slot a ++ encode_slot b ++ [])). rewrite app_nil_r. apply Forall_app. by split; apply encode_slot_u8.
Qed.

Lemma header_crc_bound h : header_wf h -> is_u32 (header_crc h).
Proof.
  intros H. rewrite header_crc_window. apply crc32_bound. apply Forall_app. split; [apply crc_prefix_u8|].
  apply Forall_app. split; [apply le_bytes_u8|by apply crc_suffix_u8].
Qed.

Lemma set_crc32_wf x h : header_wf h -> is_u32 x -> header_wf (set_crc32 x h).
Proof. intros (H & Hb & Hs) Hx. split; [|done]. destruct h. cbn in *. tauto. Qed.

(** The header after a save, and when the checksum of a saved header checks. *)
Definition saved (h : ab_partition_header_t) : ab_partition_header_t := set_crc32 (header_crc h) h.

Lemma saved_checks h : header_wf h -> (header_crc (saved h) = crc32 (saved h) <-> header_crc h = crc32 h).
Proof.
  intros H. pose proof (header_crc_bound h H) as Hc. split.
  - intros E. change (crc32 (saved h)) with (header_crc h) in E. rewrite !header_crc_window in E.
    rewrite header_crc_window. apply crc32_field_inj in E; [|apply crc_prefix_u8|by apply crc_suffix_u8| |by apply H].
    + rewrite <- header_crc_window. exact E.
    + exact Hc.
  - intros E. unfold saved. rewrite E. destruct h. cbn in *. exact E.
Qed.

(** ** The platform's promise

    A flash whose reads return the bytes last written and whose writes succeed. *)
Class Flash {F} (hal : ab_update_hal_t F) := {
  content : F -> Z -> Z;
  flash_reads : exists read, flash_read hal = Some read /\
    forall addr len f, read addr len f = (Some (content f <$> seqZ addr len), f);
  flash_writes : exists write, flash_write hal = Some write /\
    forall addr data f, exists f', write addr data f = (0, f') /\
      forall a, content f' a = if decide (addr <= a < addr + Z.of_nat (length data)) then data !!! Z.to_nat (a - addr) else content f a }.

(** A RAM image of the flash, without clock, boot counter and reboot. *)
Definition ram_write (addr : Z) (data : list Z) (f : Z -> Z) : Z -> Z :=
  fun a => if decide (addr <= a < addr + Z.of_nat (length data)) then data !!! Z.to_nat (a - addr) else f a.
Definition ram_hal : ab_update_hal_t (Z -> Z) :=
  Hal (Some (fun addr len f => (Some (f <$> seqZ addr len), f))) (Some (fun addr data f => (0, ram_write addr data f))) None None None None.
#[export] Instance ram_flash : Flash ram_hal.
Proof. refine {| content := fun f => f |}; [by eexists|]. eexists. split; [done|]. intros addr data f. by eexists. Defined.

Section flash.
Context {F : Type} (hal : ab_update_hal_t F) `{!Flash hal}.

(** A call returns [r] and leaves the context [c]. *)
Definition leaves {A} (m : M (ab F) A) (w : ab F) (r : A) (c : ab_update_ctx_t) : Prop := exists d, m w = Done (r, Ab (Some c) d).

Lemma save_flash c d :
  initialized c = true ->
  exists d', ab_update_partition_save hal (Ab (Some c) d) = Done (AB_RESULT_OK, Ab (Some (set_partition (saved (partition c)) c)) d') /\
    forall a, content d' a = let bs := encode_header (saved (partition c)) in
      if decide (0 <= a < Z.of_nat (length bs)) then bs !!! Z.to_nat a else content d a.
Proof.
  intros Hi. destruct flash_writes as (wr & Ew & Hw). destruct (Hw 0 (encode_header (saved (partition c))) d) as (d' & E & Hc).
  exists d'. split.
  - unfold ab_update_partition_save, guarded. rewrite bind_gets. cbn [ctx]. rewrite Hi. rewrite Ew. cbn [fmap option_fmap option_map].
    unfold upd_header, upd_ctx. rewrite bind_modify. cbn [ctx dev fmap option_fmap option_map]. fold (saved (partition c)).
    rewrite (bind_step _ _ _ 0 (Ab (Some (set_partition (saved (partition c)) c)) d')); [done|]. unfold call. cbn [dev ctx]. by rewrite E.
  - intros a. rewrite Hc. cbn zeta. by rewrite Z.add_0_l, Z.sub_0_r.
Qed.

Lemma save_leaves c d : initialized c = true -> leaves (ab_update_partition_save hal) (Ab (Some c) d) AB_RESULT_OK (set_partition (saved (partition c)) c).
Proof. intros Hi. destruct (save_flash c d Hi) as (d' & E & _). by exists d'. Qed.

Lemma read_back d (bs : list Z) :
  (forall a, content d a = if decide (0 <= a < Z.of_nat (length bs)) then bs !!! Z.to_nat a else content d a) ->
  content d <$> seqZ 0 (Z.of_nat (length bs)) = bs.
Proof.
  intros H. apply list_eq. intros i. rewrite list_lookup_fmap. destruct (decide (i < length bs)%nat) as [Hi|Hi].
  - rewrite (proj2 (lookup_seqZ _ _ _ _)) by (split; [reflexivity|lia]). cbn [fmap option_fmap option_map]. rewrite H, decide_True by lia.
    rewrite Z.add_0_l, Nat2Z.id. symmetry. by apply list_lookup_lookup_total_lt.
  - rewrite (lookup_ge_None_2 bs) by lia. rewrite lookup_ge_None_2; [done|]. rewrite length_seqZ. lia.
Qed.
End flash.

(** A header with fields in their ranges is 304 bytes in memory, and reading these bytes back gives the
    same header, whatever they hold (slot names, hashes, states outside the enumeration included). *)
Theorem header_roundtrip h :
  header_wf h -> length (encode_header h) = 304%nat /\ decode_header (encode_header h) = h.
Proof. intros H. split; [by apply length_encode_header|by apply decode_encode_header]. Qed.

Definition loaded_ctx (h : ab_partition_header_t) (c : ab_update_ctx_t) : ab_update_ctx_t :=
  set_caches (active_slot h) (u8 ((active_slot h + 1) mod AB_UPDATE_MAX_SLOTS)) (set_loaded true (set_partition h c)).

(** C5: saving a valid header succeeds, but loading it again succeeds exactly when the save left the checksum
    field unchanged; otherwise it is a CRC error and the context is not marked as loaded.  The checksum covers
    its own field: it is computed with the old value there and checked with the new one, and a 32-bit field
    determines the CRC one to one. *)
Theorem partition_load_after_save {F} (hal : ab_update_hal_t F) `{!Flash hal} (c : ab_update_ctx_t) (d : F) :
  initialized c = true -> header_wf (partition c) -> magic (partition c) = 0x41425550 -> 1 <= version (partition c) ->
  let h := partition c in
  exists w1 w2, ab_update_partition_save hal (Ab (Some c) d) = Done (AB_RESULT_OK, w1) /\
    ab_update_partition_load hal w1 = Done (if header_crc h =? crc32 h then AB_RESULT_OK else AB_RESULT_ERR_CRC, w2) /\
    ctx w2 = Some (if header_crc h =? crc32 h then loaded_ctx (saved h) c else set_partition (saved h) c).
Proof.
  intros Hi Hw Hm Hv h. destruct (save_flash hal c d Hi) as (d1 & E1 & Hc1). fold h in E1, Hc1.
  pose proof (set_crc32_wf (header_crc h) h Hw (header_crc_bound h Hw)) as Hw1. fold (saved h) in Hw1.
  pose proof (length_encode_header (saved h) Hw1) as Hl.
  assert (content d1 <$> seqZ 0 304 = encode_header (saved h)) as Er.
  { change 304 with (Z.of_nat sizeof_header). rewrite <- Hl. apply (read_back hal d1). intros a. rewrite Hc1 at 1. cbn zeta.
    case_decide as Ha; [done|]. rewrite Hc1. cbn zeta. by rewrite decide_False. }
  eexists _. destruct flash_reads as (rd & Erd & Hr).
  assert (forall g, ab_update_partition_load hal (Ab (Some (set_partition g c)) d1) =
    (if negb (header_crc (saved h) =? crc32 (saved h)) then Done (AB_RESULT_ERR_CRC, Ab (Some (set_partition (saved h) c)) d1)
     else Done (AB_RESULT_OK, Ab (Some (loaded_ctx (saved h) c)) d1))) as El.
  { intros g. unfold ab_update_partition_load, guarded. rewrite bind_gets. cbn [ctx set_partition initialized]. rewrite Hi, Erd.
    cbn [fmap option_fmap option_map]. rewrite (bind_step _ _ _ (Some (encode_header (saved h))) (Ab (Some (set_partition g c)) d1)).
    2: { unfold call. cbn [dev ctx]. by rewrite Hr, Er. }
    rewrite Hl, Nat.ltb_irrefl, take_ge by (rewrite Hl; lia). rewrite decode_encode_header by done.
    unfold upd_header, upd_ctx. rewrite bind_modify. cbn [ctx dev fmap option_fmap option_map].
    destruct (negb (header_crc (saved h) =? crc32 (saved h))); [done|].
    change (magic (saved h)) with (magic h). change (version (saved h)) with (version h). rewrite (Hm : magic h = _), (proj2 (Z.ltb_ge (version h) 1) Hv). done. }
  assert ((header_crc (saved h) =? crc32 (saved h)) = (header_crc h =? crc32 h)) as Eq.
  { pose proof (saved_checks h Hw) as Hs. destruct (Z.eqb_spec (header_crc (saved h)) (crc32 (saved h))), (Z.eqb_spec (header_crc h) (crc32 h)); tauto. }
  rewrite Eq in El. destruct (header_crc h =? crc32 h); (eexists; split; [exact E1|]; split; [by rewrite El|done]).
Qed.

Definition fresh_ctx : ab_update_ctx_t := Ctx zero_header true false 0 0 0 false.

Lemma init_header_wf total : 0 <= total < 4294967296 -> header_wf (init_header total).
Proof.
  intros Ht. assert (is_u32 ((total -32 304) / AB_UPDATE_MAX_SLOTS)) as Hs.
  { pose proof (u32_range (total - 304)). unfold is_u32, AB_UPDATE_MAX_SLOTS. divmod_lia. }
  assert (forall i, 0 <= i < 2 -> slot_wf (init_slot ((total -32 304) / AB_UPDATE_MAX_SLOTS) i)) as Hi.
  { intros i Hi. unfold slot_wf, is_u8, is_u32, bytes_of_length in *. cbn. unfold AB_UPDATE_BOOT_COUNT_MAX. split_and!; try lia; try done.
    all: try apply u32_range. all: repeat constructor; unfold is_u8; lia. }
  split; [|split].
  - cbn. unfold is_u32. split_and!; lia.
  - cbn. unfold is_u8. split_and!; lia.
  - do 2 eexists. split; [reflexivity|]. split; [|by apply Hi]. pose proof (Hi 0 ltac:(lia)) as H0.
    unfold slot_wf in *. cbn in *. unfold is_u8, is_u32 in *. unfold AB_SLOT_STATE_ACTIVE. split_and!; try lia; tauto.
Qed.

Lemma partition_load_after_save_witness :
  exists w1 w2, ab_update_partition_save ram_hal (Ab (Some (set_partition (init_header 1048576) fresh_ctx)) (fun _ => 255)) = Done (AB_RESULT_OK, w1) /\
    ab_update_partition_load ram_hal w1 = Done (AB_RESULT_ERR_CRC, w2).
Proof.
  destruct (partition_load_after_save ram_hal (set_partition (init_header 1048576) fresh_ctx) (fun _ => 255)) as (w1 & w2 & E1 & E2 & _).
  - reflexivity.
  - apply init_header_wf. lia.
  - reflexivity.
  - vm_compute. discriminate.
  - exists w1, w2. split; [exact E1|]. rewrite E2.
    assert ((header_crc (init_header 1048576) =? crc32 (init_header 1048576)) = false) as E by (vm_compute; reflexivity).
    cbn [partition set_partition]. rewrite E. reflexivity.
Defined.

Lemma header_roundtrip_witness : length (encode_header (init_header 1048576)) = 304%nat /\ decode_header (encode_header (init_header 1048576)) = init_header 1048576.
Proof. apply header_roundtrip. apply init_header_wf. lia. Defined.

(** ** The update cycle *)

Section cycle.
Context {F : Type} (hal : ab_update_hal_t F) `{!Flash hal}.

Definition ready (c : ab_update_ctx_t) : Prop := initialized c = true /\ partition_loaded c = true /\ exists s0 s1, slots (partition c) = [s0; s1].

Lemma upd_slot_Done i f c (d : F) :
  i < 2 -> upd_slot i f (Ab (Some c) d) = Done (tt, Ab (Some (set_partition (set_slots (alter f (Z.to_nat i) (slots (partition c))) (partition c)) c)) d).
Proof. intros Hi. unfold upd_slot, AB_UPDATE_MAX_SLOTS. by rewrite (proj2 (Z.ltb_lt i 2) Hi). Qed.

Lemma call_or_Done f c (d : F) : exists now d', call_or 0 f (Ab (Some c) d) = Done (now, Ab (Some c) d').
Proof.
  destruct f as [f|]; [|by exists 0, d]. unfold call_or, call. cbn [dev ctx]. destruct (f d) as [t d']. by exists t, d'.
Qed.

(** The slots after a choice of the boot slot at time [now]. *)
Definition booted (chosen now : Z) (reset_a : bool) (ss : list ab_slot_metadata_t) : list ab_slot_metadata_t :=
  let ss := if reset_a then alter (fun s => set_boot AB_SLOT_STATE_ACTIVE (bootable s) (boot_successful s) 0 (last_boot_time s) s) 0%nat ss else ss in
  alter (fun s => set_boot AB_SLOT_STATE_BOOTING (bootable s) (boot_successful s) (u8 (boot_attempts s + 1)) now s) (Z.to_nat chosen) ss.

Lemma choose_slot_range a b : (choose_slot a b).1 = 0 \/ (choose_slot a b).1 = 1.
Proof. unfold choose_slot. repeat (case_match; [by auto|]). by left. Qed.

Lemma alter_alter {A} (f g : A -> A) i (l : list A) : alter f i (alter g i l) = alter (fun x => f (g x)) i l.
Proof.
  apply list_eq. intros j. destruct (decide (i = j)) as [->|Hj].
  - rewrite !list_lookup_alter_eq. by destruct (l !! j).
  - by rewrite !list_lookup_alter_ne.
Qed.

Lemma select_leaves c d s0 s1 :
  ready c -> slots (partition c) = [s0; s1] ->
  exists now, leaves (ab_update_select_boot_slot hal true) (Ab (Some c) d) (AB_RESULT_OK, Some (choose_slot s0 s1).1)
    (set_partition (saved (set_boot_slot (choose_slot s0 s1).1
       (set_slots (booted (choose_slot s0 s1).1 now (choose_slot s0 s1).2 [s0; s1]) (partition c)))) c).
Proof.
  intros (Hi & Hl & _) Hs. unfold leaves, ab_update_select_boot_slot. rewrite bind_gets. cbn [ctx]. rewrite Hl. cbn [negb andb].
  rewrite (bind_step (get_slot c 0) _ (Ab (Some c) d) (slots (partition c) !!! 0%nat) _ eq_refl).
  rewrite (bind_step (get_slot c 1) _ (Ab (Some c) d) (slots (partition c) !!! 1%nat) _ eq_refl). rewrite Hs. cbn [lookup_total list_lookup_total].
  pose proof (choose_slot_range s0 s1) as Hr. destruct (choose_slot s0 s1) as [ch ra]. cbn [fst snd] in *.
  assert (exists c1, when ra (upd_slot 0 (fun s => set_boot AB_SLOT_STATE_ACTIVE (bootable s) (boot_successful s) 0 (last_boot_time s) s)) (Ab (Some c) d) =
    Done (tt, Ab (Some c1) d) /\ c1 = set_partition (set_slots (if ra then alter (fun s => set_boot AB_SLOT_STATE_ACTIVE (bootable s) (boot_successful s) 0 (last_boot_time s) s) 0%nat [s0; s1] else [s0; s1]) (partition c)) c)
    as (c1 & E1 & Ec1).
  { destruct ra; cbn [when]; eexists; (split; [|reflexivity]); [by rewrite upd_slot_Done, Hs by lia|].
    rewrite <- Hs. by destruct c as [[] ? ? ? ? ? ?]. }
  rewrite (bind_step _ _ _ _ _ E1), (bind_step _ _ _ _ _ (upd_slot_Done ch _ c1 d ltac:(lia))).
  match goal with |- context [Ab (Some ?x) d] => destruct (call_or_Done (get_current_time hal) x d) as (now & d' & E2) end.
  exists now. rewrite (bind_step _ _ _ _ _ E2), (bind_step _ _ _ _ _ (upd_slot_Done ch _ _ d' ltac:(lia))).
  cbn [slots set_slots partition set_partition]. rewrite alter_alter. unfold upd_header, upd_ctx. rewrite bind_modify. cbn [ctx dev fmap option_fmap option_map].
  match goal with |- context [Ab (Some ?x) d'] => destruct (save_leaves hal x d') as (d2 & E3); [by rewrite Ec1|] end. exists d2.
  rewrite (bind_step _ _ _ _ _ E3). subst c1. unfold booted. destruct ra; done.
Qed.

Lemma mark_successful_leaves c d :
  ready c -> boot_slot (partition c) < 2 ->
  leaves (ab_update_mark_boot_successful hal) (Ab (Some c) d) AB_RESULT_OK
    (let boot := boot_slot (partition c) in
     let h := saved (set_active_slot boot (set_slots (alter (fun s => set_boot AB_SLOT_STATE_ACTIVE (bootable s) 1 0 (last_boot_time s) s) (Z.to_nat boot)
       (slots (partition c))) (partition c))) in
     set_partition h (set_marked true (set_caches boot (u8 ((boot + 1) mod 2)) c))).
Proof.
  intros (Hi & Hl & _) Hb. unfold leaves, ab_update_mark_boot_successful, guarded. rewrite bind_gets. cbn [ctx]. rewrite Hl.
  rewrite (bind_step _ _ _ _ _ (upd_slot_Done _ _ c d Hb)). unfold upd_header, upd_ctx. rewrite !bind_modify. cbn [ctx dev fmap option_fmap option_map].
  match goal with |- context [Ab (Some ?x) d] => set (c1 := x) end.
  assert (exists d', (match reset_boot_count hal with Some f => call (Some (fun d => (tt, f d))) | None => mret tt end) (Ab (Some c1) d) = Done (tt, Ab (Some c1) d')) as (d' & E).
  { destruct (reset_boot_count hal) as [f|]; [|by exists d]. by exists (f d). }
  rewrite (bind_step _ _ _ _ _ E). exact (save_leaves hal c1 d' Hi).
Qed.

Lemma mark_failed_leaves c d :
  ready c -> boot_slot (partition c) < 2 ->
  leaves (ab_update_mark_boot_failed hal) (Ab (Some c) d) AB_RESULT_OK
    (set_partition (saved (set_slots (alter (fun s => set_boot AB_SLOT_STATE_INVALID (bootable s) 0 (boot_attempts s) (last_boot_time s) s)
       (Z.to_nat (boot_slot (partition c))) (slots (partition c))) (partition c))) c).
Proof.
  intros (Hi & Hl & _) Hb. unfold leaves, ab_update_mark_boot_failed, guarded. rewrite bind_gets. cbn [ctx]. rewrite Hl.
  rewrite (bind_step _ _ _ _ _ (upd_slot_Done _ _ c d Hb)).
  match goal with |- context [Ab (Some ?x) d] => exact (save_leaves hal x d Hi) end.
Qed.

Lemma set_bootable_leaves c d ma mi pa :
  ready c -> active_slot_cache c < 2 -> standby_slot_cache c < 2 ->
  exists now, leaves (ab_update_set_standby_bootable hal ma mi pa) (Ab (Some c) d) AB_RESULT_OK
    (set_partition (saved (set_slots
       (alter (fun s => set_boot AB_SLOT_STATE_INACTIVE 0 (boot_successful s) (boot_attempts s) (last_boot_time s) s) (Z.to_nat (active_slot_cache c))
       (alter (fun s => set_version ma mi pa now (set_boot AB_SLOT_STATE_INACTIVE 1 (boot_successful s) (boot_attempts s) (last_boot_time s) s)) (Z.to_nat (standby_slot_cache c))
       (slots (partition c)))) (partition c))) c).
Proof.
  intros (Hi & Hl & _) Ha Hs. unfold leaves, ab_update_set_standby_bootable, guarded. rewrite bind_gets. cbn [ctx]. rewrite Hl.
  rewrite (bind_step _ _ _ _ _ (upd_slot_Done _ _ c d Hs)).
  match goal with |- context [Ab (Some ?x) d] => destruct (call_or_Done (get_current_time hal) x d) as (now & d' & E2) end.
  exists now. rewrite (bind_step _ _ _ _ _ E2), (bind_step _ _ _ _ _ (upd_slot_Done _ _ _ d' Hs)).
  rewrite (bind_step _ _ _ _ _ (upd_slot_Done _ _ _ d' Ha)). cbn [slots set_slots partition set_partition]. rewrite alter_alter.
  match goal with |- context [Ab (Some ?x) d'] => exact (save_leaves hal x d' Hi) end.
Qed.

Lemma switch_leaves c d :
  ready c -> standby_slot_cache c < 2 ->
  leaves (ab_update_switch_and_reboot hal) (Ab (Some c) d) AB_RESULT_OK
    (set_partition (saved (set_slots (alter (set_state AB_SLOT_STATE_ACTIVE) (Z.to_nat (standby_slot_cache c)) (slots (partition c)))
       (set_active_slot (standby_slot_cache c) (partition c)))) c).
Proof.
  intros (Hi & Hl & _) Hs. unfold leaves, ab_update_switch_and_reboot, guarded. rewrite bind_gets. cbn [ctx]. rewrite Hl.
  unfold upd_header, upd_ctx. rewrite bind_modify. cbn [ctx dev fmap option_fmap option_map].
  rewrite (bind_step _ _ _ _ _ (upd_slot_Done _ _ _ d Hs)).
  match goal with |- context [Ab (Some ?x) d] => destruct (save_leaves hal x d Hi) as (d' & E) end. rewrite (bind_step _ _ _ _ _ E).
  destruct (reboot hal) as [f|]; [|by exists d']. by exists (f (standby_slot_cache c) d').
Qed.

Lemma rollback_leaves c d :
  ready c -> active_slot (partition c) < 2 ->
  leaves (ab_update_rollback hal) (Ab (Some c) d) AB_RESULT_OK
    (let cur := active_slot (partition c) in let prev := u8 ((cur + 1) mod 2) in
     set_partition (saved (set_active_slot prev (set_slots
       (alter (fun s => set_boot AB_SLOT_STATE_ACTIVE 1 (boot_successful s) (boot_attempts s) (last_boot_time s) s) (Z.to_nat prev)
       (alter (fun s => set_boot AB_SLOT_STATE_INVALID 0 (boot_successful s) (boot_attempts s) (last_boot_time s) s) (Z.to_nat cur)
       (slots (partition c)))) (partition c)))) (set_caches prev cur c)).
Proof.
  intros (Hi & Hl & _) Ha. unfold leaves, ab_update_rollback, guarded. rewrite bind_gets. cbn [ctx]. rewrite Hl.
  rewrite (bind_step _ _ _ _ _ (upd_slot_Done _ _ c d Ha)).
  assert (u8 ((active_slot (partition c) + 1) mod 2) < 2) as Hp.
  { pose proof (Z.mod_pos_bound (active_slot (partition c) + 1) 2 ltac:(lia)). rewrite u8_small; lia. }
  rewrite (bind_step _ _ _ _ _ (upd_slot_Done _ _ _ d Hp)). unfold upd_header, upd_ctx. rewrite !bind_modify. cbn [ctx dev fmap option_fmap option_map].
  match goal with |- context [Ab (Some ?x) d] => exact (save_leaves hal x d Hi) end.
Qed.

End cycle.

(** [m] returns [r] and leaves a context with [P]. *)
Definition leads {F A} (m : M (ab F) A) (c : ab_update_ctx_t) (r : A) (P : ab_update_ctx_t -> Prop) : Prop :=
  forall d, exists c', leaves m (Ab (Some c) d) r c' /\ P c'.

Lemma leads_bind {F A B} (m : M (ab F) A) (f : A -> M (ab F) B) c r r' P Q :
  leads m c r P -> (forall c', P c' -> leads (f r) c' r' Q) -> leads (m ≫= f) c r' Q.
Proof.
  intros Hm Hf d. destruct (Hm d) as (c1 & (d1 & E1) & H1). destruct (Hf c1 H1 d1) as (c2 & (d2 & E2) & H2).
  exists c2. split; [|done]. exists d2. by rewrite (bind_step _ _ _ _ _ E1).
Qed.

Lemma leads_ret {F A} (r : A) c (P : ab_update_ctx_t -> Prop) : P c -> leads (F := F) (mret r) c r P.
Proof. intros H d. exists c. split; [by exists d|done]. Qed.

(** An update of the standby slot, the next boot, and what the booted image reports. *)
Definition update_boot {F} (hal : ab_update_hal_t F) (ma mi pa : Z) (report : M (ab F) ab_result_t) :
    M (ab F) (ab_result_t * ab_result_t * (ab_result_t * option Z) * ab_result_t) :=
  r1 ← ab_update_set_standby_bootable hal ma mi pa;
  r2 ← ab_update_switch_and_reboot hal;
  r3 ← ab_update_select_boot_slot hal true;
  r4 ← report;
  mret (r1, r2, r3, r4).

(** Evaluates the lookups in a two-slot list once the index is known. *)
Ltac slot_simp :=
  change (Z.to_nat (1 - 0)) with 1%nat in *; change (Z.to_nat (1 - 1)) with 0%nat in *;
  change (Z.to_nat 0) with 0%nat in *; change (Z.to_nat 1) with 1%nat in *;
  cbn [lookup_total list_lookup_total] in *.

Definition slot_of (c : ab_update_ctx_t) (i : Z) : ab_slot_metadata_t := slots (partition c) !!! Z.to_nat i.

(** The context between updates: slot [a] active, the other one standby. *)
Definition settled (a : Z) (c : ab_update_ctx_t) : Prop :=
  ready c /\ (a = 0 \/ a = 1) /\ active_slot (partition c) = a /\ active_slot_cache c = a /\ standby_slot_cache c = 1 - a.

Section cycle_theorem.
Context {F : Type} (hal : ab_update_hal_t F) `{!Flash hal}.

(** The marked standby slot, not yet switched to. *)
Definition staged (a ma mi pa : Z) (c0 c : ab_update_ctx_t) : Prop :=
  settled a c /\ bootable (slot_of c a) = 0 /\ state (slot_of c a) = AB_SLOT_STATE_INACTIVE /\
  bootable (slot_of c (1 - a)) = 1 /\ state (slot_of c (1 - a)) = AB_SLOT_STATE_INACTIVE /\
  version_major (slot_of c (1 - a)) = ma /\ version_minor (slot_of c (1 - a)) = mi /\ version_patch (slot_of c (1 - a)) = pa.

Lemma stage_leads a ma mi pa c :
  settled a c -> leads (ab_update_set_standby_bootable hal ma mi pa) c AB_RESULT_OK (staged a ma mi pa c).
Proof.
  intros (Hr & Ha & H1 & H2 & H3) d. destruct (set_bootable_leaves hal c d ma mi pa Hr ltac:(lia) ltac:(lia)) as (now & E).
  eexists. split; [exact E|]. destruct Hr as (Hi & Hl & s0 & s1 & Hs). rewrite H2, H3, Hs.
  destruct Ha as [-> | ->]; unfold staged, settled, ready, slot_of; cbn; (split_and!; eauto 6).
Qed.

(** Booting the new slot: it is BOOTING, recorded as boot slot, the old one stays unbootable. *)
Definition trial (a ma mi pa : Z) (c : ab_update_ctx_t) : Prop :=
  ready c /\ boot_slot (partition c) = 1 - a /\ active_slot (partition c) = 1 - a /\ bootable (slot_of c a) = 0 /\ bootable (slot_of c (1 - a)) = 1 /\
  state (slot_of c (1 - a)) = AB_SLOT_STATE_BOOTING /\
  version_major (slot_of c (1 - a)) = ma /\ version_minor (slot_of c (1 - a)) = mi /\ version_patch (slot_of c (1 - a)) = pa.

Lemma boot_leads a ma mi pa c0 c :
  staged a ma mi pa c0 c ->
  leads (r2 ← ab_update_switch_and_reboot hal; r3 ← ab_update_select_boot_slot hal true; mret (r2, r3)) c
    (AB_RESULT_OK, (AB_RESULT_OK, Some (1 - a))) (trial a ma mi pa).
Proof.
  intros ((Hr & Ha & H1 & H2 & H3) & B1 & S1 & B2 & S2 & V1 & V2 & V3).
  apply (leads_bind _ _ _ AB_RESULT_OK _ (fun c' => c' = set_partition (saved (set_slots (alter (set_state AB_SLOT_STATE_ACTIVE) (Z.to_nat (1 - a)) (slots (partition c)))
       (set_active_slot (1 - a) (partition c)))) c)).
  { intros d. eexists. split; [|reflexivity]. rewrite <- H3. apply (switch_leaves hal c d Hr). lia. }
  intros c' ->. pose proof Hr as (Hi & Hl & s0 & s1 & Hs). unfold slot_of in *. rewrite Hs in *.
  assert (exists t0 t1, alter (set_state AB_SLOT_STATE_ACTIVE) (Z.to_nat (1 - a)) [s0; s1] = [t0; t1] /\ choose_slot t0 t1 = (1 - a, false) /\
    [t0; t1] = alter (set_state AB_SLOT_STATE_ACTIVE) (Z.to_nat (1 - a)) [s0; s1]) as (t0 & t1 & Et & Hch & Et').
  { destruct Ha as [-> | ->]; do 2 eexists; (split; [reflexivity|]); split; [|reflexivity| |reflexivity];
      slot_simp; unfold choose_slot; cbn; by rewrite B1, B2. }
  set (c' := set_partition _ c).
  assert (ready c') as Hr'. { split; [done|]. split; [done|]. exists t0, t1. exact Et. }
  eapply leads_bind; [|intros c'' H; apply leads_ret; exact H]. intros d.
  destruct (select_leaves hal c' d t0 t1 Hr' Et) as (now & E). rewrite Hch in E. cbn [fst snd] in E. eexists. split; [exact E|].
  unfold trial, ready, slot_of. cbn. rewrite Et'. unfold booted.
  destruct Ha as [-> | ->]; cbn in *; (split_and!; eauto 6).
Qed.

Lemma report_leads a ma mi pa c0 c (report : M (ab F) ab_result_t) (r : ab_result_t) P :
  staged a ma mi pa c0 c -> (forall c', trial a ma mi pa c' -> leads report c' r P) ->
  leads (r2 ← ab_update_switch_and_reboot hal; r3 ← ab_update_select_boot_slot hal true; r4 ← report; mret (AB_RESULT_OK, r2, r3, r4)) c
    (AB_RESULT_OK, AB_RESULT_OK, (AB_RESULT_OK, Some (1 - a)), r) P.
Proof.
  intros Hs Hrep d. destruct (boot_leads a ma mi pa c0 c Hs d) as (c1 & (d1 & E1) & Ht).
  apply bind_Done in E1 as (r2 & w2 & E2 & E1). apply bind_Done in E1 as (r3 & w3 & E3 & E1). injection E1 as -> -> ->.
  destruct (Hrep c1 Ht d1) as (c2 & (d2 & E4) & HP). exists c2. split; [|done]. exists d2.
  by rewrite (bind_step _ _ _ _ _ E2), (bind_step _ _ _ _ _ E3), (bind_step _ _ _ _ _ E4).
Qed.

(** C6: on a working flash, from a loaded header with slot [a] active: marking the standby slot with a version, switching and
    booting selects the other slot.  If the booted image reports success that slot is active, bootable, with the
    version and no failed attempts, the context is settled on it, and a later rollback followed by a boot selects [a] again.
    If it reports failure, the next boot selects slot 0, which is the failed slot itself when [a] is 1: the old
    slot was made unbootable and no fallback looks at it.  Likewise a boot after the standby slot was marked but before the switch
    selects slot 0 whichever slot is active. *)
Theorem update_cycle_correct (c : ab_update_ctx_t) a ma mi pa :
  settled a c ->
  leads (update_boot hal ma mi pa (ab_update_mark_boot_successful hal)) c (AB_RESULT_OK, AB_RESULT_OK, (AB_RESULT_OK, Some (1 - a)), AB_RESULT_OK) (fun c' =>
    settled (1 - a) c' /\ state (slot_of c' (1 - a)) = AB_SLOT_STATE_ACTIVE /\ bootable (slot_of c' (1 - a)) = 1 /\ boot_attempts (slot_of c' (1 - a)) = 0 /\
    (version_major (slot_of c' (1 - a)) = ma /\ version_minor (slot_of c' (1 - a)) = mi /\ version_patch (slot_of c' (1 - a)) = pa) /\
    leads (r ← ab_update_rollback hal; b ← ab_update_select_boot_slot hal true; mret (r, b)) c' (AB_RESULT_OK, (AB_RESULT_OK, Some a)) (fun _ => True)) /\
  leads (update_boot hal ma mi pa (ab_update_mark_boot_failed hal)) c (AB_RESULT_OK, AB_RESULT_OK, (AB_RESULT_OK, Some (1 - a)), AB_RESULT_OK) (fun c' =>
    leads (ab_update_select_boot_slot hal true) c' (AB_RESULT_OK, Some 0) (fun _ => True)) /\
  leads (ab_update_set_standby_bootable hal ma mi pa) c AB_RESULT_OK (fun c' =>
    leads (ab_update_select_boot_slot hal true) c' (AB_RESULT_OK, Some 0) (fun _ => True)).
Proof.
  intros Hset. split; [|split].
  - eapply leads_bind; [by apply stage_leads|]. intros c1 H1. eapply report_leads; [exact H1|]. intros c2 Ht d.
    pose proof H1 as ((_ & Ha & _) & _). destruct Ht as (Hr & Hb & Hac & B1 & B2 & S2 & V1 & V2 & V3).
    eexists. split; [apply (mark_successful_leaves hal c2 d Hr); lia|]. rewrite Hb. cbv zeta.
    pose proof Hr as (Hi & Hl & s0 & s1 & Hs). unfold slot_of in *. rewrite Hs in *.
    match goal with |- settled _ ?x /\ _ => set (c3 := x) end.
    assert (settled (1 - a) c3) as Hset3.
    { destruct Ha as [-> | ->]; unfold settled, ready; cbn; (split_and!; eauto 6). }
    assert (exists t0 t1, slots (partition c3) = [t0; t1]) as (t0 & t1 & Et) by apply Hset3.
    split; [done|]. split; [destruct Ha as [-> | ->]; done|]. split; [destruct Ha as [-> | ->]; cbn in *; done|].
    split; [destruct Ha as [-> | ->]; done|]. split; [destruct Ha as [-> | ->]; cbn in *; done|].
    assert (active_slot (partition c3) = 1 - a) as Hac3 by apply Hset3.
    assert (u8 ((1 - a + 1) mod 2) = a) as Hprev by (destruct Ha as [-> | ->]; done).
    intros d3. destruct (rollback_leaves hal c3 d3 ltac:(apply Hset3) ltac:(lia)) as (d4 & E4). cbv zeta in E4. rewrite Hac3, Hprev in E4.
    match type of E4 with _ = Done (_, Ab (Some ?x) _) => set (c4 := x) in E4 end.
    assert (exists q0 q1, slots (partition c4) = [q0; q1] /\ (choose_slot q0 q1).1 = a) as (q0 & q1 & Eq & Hch).
    { unfold c4. cbn [slots partition set_partition saved set_crc32 set_active_slot set_slots]. rewrite Et.
      destruct Ha as [-> | ->]; do 2 eexists; (split; [reflexivity|]); unfold choose_slot; cbn; done. }
    assert (ready c4) as Hr4. { split; [apply Hr|]. split; [apply Hr|]. by exists q0, q1. }
    destruct (select_leaves hal c4 d4 q0 q1 Hr4 Eq) as (now & d5 & E5). rewrite Hch in E5. eexists. split; [|done]. exists d5.
    by rewrite (bind_step _ _ _ _ _ E4), (bind_step _ _ _ _ _ E5).
  - eapply leads_bind; [by apply stage_leads|]. intros c1 H1. eapply report_leads; [exact H1|]. intros c2 Ht d.
    pose proof H1 as ((_ & Ha & _) & _). destruct Ht as (Hr & Hb & Hac & B1 & B2 & S2 & _).
    eexists. split; [apply (mark_failed_leaves hal c2 d Hr); lia|]. rewrite Hb.
    pose proof Hr as (Hi & Hl & s0 & s1 & Hs). unfold slot_of in *. rewrite Hs in *.
    match goal with |- leads _ ?x _ _ => set (c3 := x) end.
    assert (exists q0 q1, slots (partition c3) = [q0; q1] /\ (choose_slot q0 q1).1 = 0) as (q0 & q1 & Eq & Hch).
    { destruct Ha as [-> | ->]; do 2 eexists; (split; [reflexivity|]); slot_simp; unfold choose_slot; cbn; rewrite ?B1, ?andb_false_r; done. }
    intros d3. destruct (select_leaves hal c3 d3 q0 q1) as (now & E); [|done|].
    { split; [apply Hr|]. split; [apply Hr|]. by exists q0, q1. }
    rewrite Hch in E. eexists. split; [exact E|done].
  - intros d. destruct (stage_leads a ma mi pa c Hset d) as (c1 & E1 & Hr & B1 & S1 & B2 & S2 & _). exists c1. split; [done|].
    destruct Hr as (Hr & Ha & _). pose proof Hr as (Hi & Hl & s0 & s1 & Hs). unfold slot_of in *. rewrite Hs in *.
    intros d3. destruct (select_leaves hal c1 d3 s0 s1 Hr Hs) as (now & E).
    assert ((choose_slot s0 s1).1 = 0) as Hch.
    { destruct Ha as [-> | ->]; slot_simp; unfold choose_slot; cbn; rewrite S1, S2, ?andb_false_r; done. }
    rewrite Hch in E. eexists. split; [exact E|done].
Qed.
End cycle_theorem.

(** The context a successful load of the initial header would leave. *)
Definition settled_demo : ab_update_ctx_t := Ctx (init_header 1048576) true true 0 1 0 false.

Lemma update_cycle_correct_witness :
  settled 0 settled_demo /\
  leads (update_boot ram_hal 2 0 1 (ab_update_mark_boot_failed ram_hal)) settled_demo
    (AB_RESULT_OK, AB_RESULT_OK, (AB_RESULT_OK, Some 1), AB_RESULT_OK) (fun c' => leads (ab_update_select_boot_slot ram_hal true) c' (AB_RESULT_OK, Some 0) (fun _ => True)).
Proof.
  assert (settled 0 settled_demo) as H.
  { split; [|split; [left; reflexivity|split; [reflexivity|split; reflexivity]]]. split; [reflexivity|]. split; [reflexivity|].
    eexists. eexists. reflexivity. }
  split; [exact H|]. destruct (update_cycle_correct ram_hal settled_demo 0 2 0 1 H) as (_ & H2 & _). exact H2.
Defined.

(** ** Writes to the standby slot *)

(** The slots partition the flash behind the header as [init_header] laid them out. *)
Definition laid_out (total : Z) (h : ab_partition_header_t) : Prop :=
  exists s0 s1, slots h = [s0; s1] /\ slot_offset s0 = 304 /\ slot_offset s1 = 304 + (total - 304) / 2 /\
    slot_size s0 = (total - 304) / 2 /\ slot_size s1 = (total - 304) / 2.

Lemma init_laid_out total : 304 <= total < 4294967296 -> laid_out total (init_header total).
Proof.
  intros Ht. do 2 eexists. split; [reflexivity|]. cbn. unfold AB_UPDATE_MAX_SLOTS. rewrite (u32_small (total - 304)) by lia.
  assert (0 <= (total - 304) / 2 <= total - 304) by divmod_lia. repeat rewrite u32_small; lia.
Qed.

Lemma guarded_Done {F} ok k c (d : F) : ok c = true -> guarded ok k (Ab (Some c) d) = k c (Ab (Some c) d).
Proof. intros H. unfold guarded. rewrite bind_gets. cbn [ctx]. by rewrite H. Qed.

Lemma get_slot_Done {F} c i (d : F) : i < 2 -> get_slot c i (Ab (Some c) d) = Done (slot_of c i, Ab (Some c) d).
Proof. intros Hi. unfold get_slot, AB_UPDATE_MAX_SLOTS. by rewrite (proj2 (Z.ltb_lt i 2) Hi). Qed.

(** C7: on a flash of [total] bytes, at least a header, both slots lie behind the header, within the flash, and do not
    overlap.  A write of [len] bytes at [offset] succeeds exactly when [offset] + [len] is at most the slot size: it then changes
    these bytes of the slot that [standby_slot_cache] names and no others; a longer one is refused and changes nothing.
    A fresh context that created the partition has never loaded it: its cache is 0, so the bytes written are those of the active
    slot. *)
Theorem standby_write_correct {F} (hal : ab_update_hal_t F) `{!Flash hal} total (c : ab_update_ctx_t) (d : F) s b data offset :
  304 <= total < 4294967296 -> laid_out total (partition c) -> standby_slot_cache c = s -> s = 0 \/ s = 1 ->
  0 <= offset < 4294967296 -> Z.of_nat (length (b :: data)) < 4294967296 ->
  let size := (total - 304) / 2 in
  let base := 304 + s * size in
  let len := Z.of_nat (length (b :: data)) in
  base + size <= total /\
  (offset + len <= size -> exists d', ab_update_write_to_standby hal (Some (b :: data)) offset (Ab (Some c) d) = Done (AB_RESULT_OK, Ab (Some c) d') /\
     forall x, content d' x = if decide (base + offset <= x < base + offset + len) then (b :: data) !!! Z.to_nat (x - (base + offset)) else content d x) /\
  (size < offset + len -> ab_update_write_to_standby hal (Some (b :: data)) offset (Ab (Some c) d) = Done (AB_RESULT_ERR_SLOT_FULL, Ab (Some c) d)) /\
  (exists c', leaves (ab_update_partition_init hal total) (Ab (Some fresh_ctx) d) AB_RESULT_OK c' /\ laid_out total (partition c') /\
     standby_slot_cache c' = 0 /\ active_slot (partition c') = 0 /\ state (slot_of c' 0) = AB_SLOT_STATE_ACTIVE /\ partition_loaded c' = false).
Proof.
  intros Ht (s0 & s1 & Hs & O0 & O1 & S0 & S1) Hst Hs01 Ho Hlen size base len.
  assert (0 <= size /\ 2 * size <= total - 304) as [Hz0 Hz] by (unfold size; divmod_lia).
  assert (base + size <= total) as Hb by (unfold base; destruct Hs01 as [-> | ->]; lia).
  assert (slot_offset (slot_of c s) = base /\ slot_size (slot_of c s) = size) as [Eo Es].
  { unfold slot_of, base. rewrite Hs. destruct Hs01 as [-> | ->]; slot_simp; rewrite ?O0, ?O1, ?S0, ?S1; split; try done; unfold size; lia. }
  assert (forall d, ab_update_write_to_standby hal (Some (b :: data)) offset (Ab (Some c) d) =
    (if size <? offset + len then Done (AB_RESULT_ERR_SLOT_FULL, Ab (Some c) d)
     else (rc ← call ((fun f => f (base +32 offset) (b :: data)) <$> flash_write hal); mret (if rc =? 0 then AB_RESULT_OK else AB_RESULT_ERR_IO)) (Ab (Some c) d))) as E.
  { intros d0. unfold ab_update_write_to_standby. rewrite guarded_Done by done.
    assert (standby_slot_cache c < 2) as Hlt by lia. rewrite (bind_step _ _ _ _ _ (get_slot_Done c _ d0 Hlt)).
    cbn [default]. rewrite Hst, Es, Eo. unfold id. fold len. rewrite u64_small by lia. destruct (size <? offset + len); done. }
  split; [done|]. split; [|split].
  - intros Hfit. rewrite E, (proj2 (Z.ltb_ge size (offset + len)) Hfit). destruct flash_writes as (wr & Ew & Hw).
    rewrite u32_small by lia. destruct (Hw (base + offset) (b :: data) d) as (d' & E' & Hc). exists d'. split; [|exact Hc].
    rewrite (bind_step _ _ _ 0 (Ab (Some c) d')); [done|]. rewrite Ew. unfold call. cbn [fmap option_fmap option_map dev ctx]. by rewrite E'.
  - intros Hbig. rewrite E. by rewrite (proj2 (Z.ltb_lt size (offset + len)) Hbig).
  - assert (leaves (ab_update_partition_init hal total) (Ab (Some fresh_ctx) d) AB_RESULT_OK (set_partition (saved (init_header total)) fresh_ctx)) as Hi.
    { unfold leaves, ab_update_partition_init. rewrite guarded_Done by (cbn; by rewrite (proj2 (Z.eqb_neq total 0)) by lia).
      unfold upd_header, upd_ctx. rewrite bind_modify. cbn [ctx dev fmap option_fmap option_map].
      exact (save_leaves hal (set_partition (init_header total) fresh_ctx) d eq_refl). }
    eexists. split; [exact Hi|]. split; [exact (init_laid_out total Ht)|]. done.
Qed.

Lemma standby_write_correct_witness :
  exists c' d', leaves (ab_update_partition_init ram_hal 1000) (Ab (Some fresh_ctx) (fun _ => 255)) AB_RESULT_OK c' /\
    ab_update_write_to_standby ram_hal (Some [1; 2; 3]) 0 (Ab (Some c') (fun _ => 255)) = Done (AB_RESULT_OK, Ab (Some c') d') /\ d' 305 = 2.
Proof.
  destruct (standby_write_correct ram_hal 1000 (set_partition (init_header 1000) fresh_ctx) (fun _ => 255) 0 1 [2; 3] 0) as (_ & _ & _ & c' & E & Hl & Hs & _).
  - lia.
  - apply init_laid_out. lia.
  - reflexivity.
  - left. reflexivity.
  - lia.
  - cbn. lia.
  - destruct (standby_write_correct ram_hal 1000 c' (fun _ => 255) 0 1 [2; 3] 0) as (_ & H & _); [lia|exact Hl|exact Hs|left; reflexivity|lia|cbn; lia|].
    destruct H as (d' & Ew & Hc); [vm_compute; discriminate|]. exists c', d'. split; [exact E|]. split; [exact Ew|]. apply (Hc 305).
Defined.

(** ** Verification of the standby slot *)

(** The reference: byte [i] of the hash is the exclusive or of the bytes of the image at positions [i], [i] + 32, ... *)
Fixpoint xor_every (k i : nat) (data : list Z) : Z :=
  match data with
  | [] => 0
  | b :: data => if decide (k mod AB_UPDATE_HASH_SIZE = i)%nat then Z.lxor b (xor_every (S k) i data) else xor_every (S k) i data
  end.
Definition xor_columns (image : list Z) : list Z := (fun i => xor_every 0 i image) <$> seq 0 AB_UPDATE_HASH_SIZE.

Lemma xor_into_lookup k data h i :
  length h = AB_UPDATE_HASH_SIZE -> xor_into k data h !! i = (fun x => Z.lxor x (xor_every k i data)) <$> h !! i.
Proof.
  revert k h. induction data as [|b data IH]; intros k h Hl; cbn [xor_into xor_every].
  - destruct (h !! i) as [x|]; cbn; [by rewrite Z.lxor_0_r|done].
  - rewrite IH by by rewrite length_alter. case_decide as Hi.
    + rewrite Hi, list_lookup_alter_eq. destruct (h !! i) as [x|]; cbn; [by rewrite Z.lxor_assoc|done].
    + by rewrite list_lookup_alter_ne by done.
Qed.

Lemma xor_every_app k i a b : xor_every k i (a ++ b) = Z.lxor (xor_every k i a) (xor_every (k + length a) i b).
Proof.
  revert k. induction a as [|x a IH]; intros k; cbn [app xor_every length].
  - by rewrite Z.lxor_0_l, Nat.add_0_r.
  - rewrite IH. replace (S k + length a)%nat with (k + S (length a))%nat by lia. case_decide; [by rewrite Z.lxor_assoc|done].
Qed.

Lemma xor_every_period k i data : xor_every (AB_UPDATE_HASH_SIZE + k) i data = xor_every k i data.
Proof.
  revert k. induction data as [|b data IH]; intros k; cbn [xor_every]; [done|]. rewrite <- Nat.add_succ_r, IH.
  assert ((AB_UPDATE_HASH_SIZE + k) mod AB_UPDATE_HASH_SIZE = k mod AB_UPDATE_HASH_SIZE)%nat as ->; [|done].
  rewrite <- (Nat.mul_1_l AB_UPDATE_HASH_SIZE) at 1. rewrite Nat.add_comm. by apply Nat.Div0.mod_add.
Qed.

(** A chunk of whole columns leaves the columns of the rest in place. *)
Lemma xor_columns_chunk image chunk rest h :
  image = chunk ++ rest -> (exists q, length chunk = q * AB_UPDATE_HASH_SIZE)%nat \/ rest = [] -> length h = AB_UPDATE_HASH_SIZE ->
  xor_into 0 rest (xor_into 0 chunk h) = xor_into 0 image h.
Proof.
  intros -> Hq Hl. apply list_eq. intros i.
  assert (length (xor_into 0 chunk h) = AB_UPDATE_HASH_SIZE) as Hl2.
  { clear Hq. generalize 0%nat as k. revert h Hl. induction chunk as [|b chunk IH]; intros h Hl k; cbn [xor_into]; [done|].
    apply IH. by rewrite length_alter. }
  rewrite !xor_into_lookup by done. destruct (h !! i) as [x|]; cbn; [|done]. f_equal. rewrite Z.lxor_assoc, xor_every_app. do 2 f_equal.
  destruct Hq as [[q Hq]| ->]; [|done]. rewrite Hq. clear. cbn [Nat.add]. induction q as [|q IH]; [done|].
  change (S q * AB_UPDATE_HASH_SIZE)%nat with (AB_UPDATE_HASH_SIZE + q * AB_UPDATE_HASH_SIZE)%nat. by rewrite xor_every_period.
Qed.

Lemma xor_into_zero image : xor_into 0 image (replicate AB_UPDATE_HASH_SIZE 0) = xor_columns image.
Proof.
  apply list_eq. intros i. rewrite xor_into_lookup by by rewrite length_replicate. unfold xor_columns. rewrite list_lookup_fmap.
  destruct (decide (i < AB_UPDATE_HASH_SIZE)%nat) as [Hi|Hi].
  - rewrite (lookup_replicate_2 _ _ _ Hi), (proj2 (lookup_seq _ _ _ _)) by (split; [reflexivity|done]). cbn [fmap option_fmap option_map].
    by rewrite Z.lxor_0_l.
  - rewrite !lookup_ge_None_2; [done| |]; rewrite ?length_seq, ?length_replicate; lia.
Qed.

Lemma hash_loop_reads {F} (hal : ab_update_hal_t F) `{!Flash hal} read fuel base off n h w :
  (forall addr len f, read addr len f = (Some (content f <$> seqZ addr len), f)) ->
  0 <= base -> 0 <= off -> 0 <= n -> base + off + n < 4294967296 -> length h = AB_UPDATE_HASH_SIZE -> (Z.to_nat (n / 256) + 1 < fuel)%nat ->
  hash_loop fuel read base off n h w = Done (Some (xor_into 0 (content (dev w) <$> seqZ (base + off) n) h), w).
Proof.
  intros Hr Hb. revert off n h. induction fuel as [|fuel IH]; intros off n h Ho Hn Hmax Hl Hf; [lia|]. cbn [hash_loop].
  destruct (Z.leb_spec n 0) as [Hn0|Hn0].
  { assert (n = 0) as -> by lia. done. }
  rewrite (u32_small (base + off)) by lia. set (m := Z.min n 256).
  rewrite (bind_step _ _ _ (Some (content (dev w) <$> seqZ (base + off) m)) w).
  2: { unfold call. rewrite Hr. by destruct w. }
  rewrite length_fmap, length_seqZ, (proj2 (Z.ltb_ge _ _)) by lia.
  rewrite take_ge by (rewrite length_fmap, length_seqZ; lia).
  assert (length (xor_into 0 (content (dev w) <$> seqZ (base + off) m) h) = AB_UPDATE_HASH_SIZE) as Hl2.
  { generalize 0%nat as k. generalize (content (dev w) <$> seqZ (base + off) m) as l. intros l. clear -Hl. revert h Hl.
    induction l as [|b l IHl]; intros h Hl k; cbn [xor_into]; [done|]. apply IHl. by rewrite length_alter. }
  assert (seqZ (base + off) n = seqZ (base + off) m ++ seqZ (base + off + m) (n - m)) as Eseq by (rewrite <- seqZ_app by lia; f_equal; lia).
  rewrite u32_small by lia.
  destruct (Z.le_gt_cases n 256) as [Hs|Hs].
  - assert (m = n) as -> by lia. destruct fuel; [lia|]. cbn [hash_loop]. by rewrite Z.sub_diag.
  - assert (m = 256) as Em by lia. rewrite Em in *. rewrite IH; [|lia..|done|].
    2: { assert (n / 256 = (n - 256) / 256 + 1) as E by divmod_lia. rewrite E in Hf. assert (0 <= (n - 256) / 256) by divmod_lia. lia. }
    replace (base + (off + 256)) with (base + off + 256) by lia.
    rewrite (xor_columns_chunk (content (dev w) <$> seqZ (base + off) n) (content (dev w) <$> seqZ (base + off) 256)
      (content (dev w) <$> seqZ (base + off + 256) (n - 256))); [done| | |done].
    + by rewrite <- fmap_app, <- Eseq.
    + left. exists 8%nat. by rewrite length_fmap, length_seqZ.
Qed.

(** The verification of the standby slot always returns.  For an image of [image_size] bytes inside the 32-bit address space it
    compares the expected hash with the columnwise exclusive or of the image, 32 columns wide, whatever the chunks it reads
    are: it succeeds exactly when they are equal and is a CRC error otherwise, and changes nothing.  No function of the
    module sets [image_size]; with its initial 0 the check accepts exactly the all-zero hash, for any contents of the slot. *)
Theorem verify_standby_correct {F} (hal : ab_update_hal_t F) `{!Flash hal} (c : ab_update_ctx_t) (d : F) (expected : list Z) :
  standby_slot_cache c < 2 -> let slot := slot_of c (standby_slot_cache c) in
  0 <= slot_offset slot -> 0 <= image_size slot -> slot_offset slot + image_size slot < 4294967296 ->
  let image : list Z := content d <$> seqZ (slot_offset slot) (image_size slot) in
  ab_update_verify_standby hal (Some expected) (Ab (Some c) d) =
    Done (if bool_decide (xor_columns image = take 32 expected) then AB_RESULT_OK else AB_RESULT_ERR_CRC, Ab (Some c) d) /\
  (image_size slot = 0 -> ab_update_verify_standby hal (Some expected) (Ab (Some c) d) =
    Done (if bool_decide (replicate 32 0 = take 32 expected) then AB_RESULT_OK else AB_RESULT_ERR_CRC, Ab (Some c) d)).
Proof.
  intros Hs slot Ho Hn Hmax image. destruct flash_reads as (rd & Erd & Hr).
  assert (ab_update_verify_standby hal (Some expected) (Ab (Some c) d) =
    Done (if bool_decide (xor_columns image = take 32 expected) then AB_RESULT_OK else AB_RESULT_ERR_CRC, Ab (Some c) d)) as E.
  { unfold ab_update_verify_standby. rewrite guarded_Done by by rewrite Erd. rewrite Erd.
    rewrite (bind_step _ _ _ _ _ (get_slot_Done c _ d Hs)). fold slot.
    rewrite (bind_step _ _ _ (Some (xor_columns image)) (Ab (Some c) d)); [done|].
    rewrite (hash_loop_reads hal) by (done || lia). rewrite Z.add_0_r, xor_into_zero. done. }
  split; [done|]. intros H0. rewrite E. unfold image. by rewrite H0.
Qed.

Lemma verify_standby_correct_witness :
  ab_update_verify_standby ram_hal (Some (replicate 32 0)) (Ab (Some settled_demo) (fun _ => 7)) = Done (AB_RESULT_OK, Ab (Some settled_demo) (fun _ => 7)).
Proof.
  destruct (verify_standby_correct ram_hal settled_demo (fun _ => 7) (replicate 32 0)) as [_ H].
  - vm_compute. reflexivity.
  - vm_compute. discriminate.
  - vm_compute. discriminate.
  - vm_compute. reflexivity.
  - apply H. reflexivity.
Defined.
