(* ===== verification/EventGroups.v ===== *)
(** * Event groups (mini-rtos/src/event_groups.c)

    A 32-bit word of event flags and the tasks that wait for a combination of them.  While it waits, a task's
    [block_obj] points to its condition, a structure on its stack: the conditions by address are the file's [glob]
    component, and one leaves it when its call returns. *)
From S2P Require Import Prelude MemoryHeap Scheduler SchedulerSpec WaitList Semaphore.

Inductive event_wait_type_t := EVENT_WAIT_AND_ALL | EVENT_WAIT_OR_ANY | EVENT_WAIT_OR_ANY_CLEAR.
#[export] Instance event_wait_type_eq_dec : EqDecision event_wait_type_t.
Proof. solve_decision. Defined.

Record event_wait_info_t := WaitInfo { wait_bits : Z; wait_type : event_wait_type_t; clear_on_exit : bool }.
Record event_group_t := EventGroup { eg_bits : Z; eg_blocked_tasks : Z; eg_name : list Z }.
Definition sizeof_event_group : Z := 32.
Definition set_eg_bits x g := EventGroup x (eg_blocked_tasks g) (eg_name g).
Definition set_eg_blocked x g := EventGroup (eg_bits g) x (eg_name g).

Notation EM := (M (sync event_group_t (gmap Z event_wait_info_t))).

(** [~x] of a uint32_t. *)
Definition not32 (x : Z) : Z := u32 (Z.lnot x).

Definition event_condition_met (current request : Z) (type : event_wait_type_t) : bool :=
  match type with
  | EVENT_WAIT_AND_ALL => Z.land current request =? request
  | _ => negb (Z.land current request =? 0)
  end.

(** The condition that a waiting task points to; a dangling pointer is undefined. *)
Definition wait_info (p : Z) : EM event_wait_info_t := fun w =>
  match glob w !! p with Some i => Done (i, w) | None => UB end.

Fixpoint first_ready_loop (fuel : nat) (bits head prev task : Z) : EM (Z * Z) :=
  match fuel with
  | O => nofuel
  | S fuel =>
      if task =? NULL then mret (head, NULL)
      else
        c ← on_kern (tcb task);
        met ← (if t_block_obj c =? NULL then mret false
               else i ← wait_info (t_block_obj c); mret (event_condition_met bits (wait_bits i) (wait_type i)));
        if (met : bool) then
          head ← (if prev =? NULL then mret (t_block_next c)
                  else on_kern (upd_tcb prev (set_t_block_next (t_block_next c)));; mret head);
          on_kern (upd_tcb task (set_t_block_next NULL));;
          on_kern (upd_tcb task (set_t_state TASK_READY));;
          on_kern (upd_tcb task (set_t_block_obj NULL));;
          mret (head, task)
        else first_ready_loop fuel bits head task (t_block_next c)
  end.

(** The first waiting task whose condition holds leaves the list; NULL without one. *)
Definition unblock_first_ready (eg : Z) : EM Z :=
  g ← obj eg;
  fuel ← on_kern (gets ring_fuel);
  r ← first_ready_loop fuel (eg_bits g) (eg_blocked_tasks g) NULL (eg_blocked_tasks g);
  upd_obj eg (set_eg_blocked (fst r));;
  mret (snd r).

Fixpoint unblock_loop (fuel : nat) (eg : Z) : EM unit :=
  match fuel with
  | O => nofuel
  | S fuel => t ← unblock_first_ready eg; if t =? NULL then mret tt else unblock_loop fuel eg
  end.
Definition unblock_all_ready (eg : Z) : EM unit := fuel ← on_kern (gets ring_fuel); unblock_loop fuel eg.

Definition event_group_create (name : option (list Z)) : EM Z :=
  eg ← on_kern (on_heap (malloc_rtos sizeof_event_group));
  if eg =? NULL then mret NULL
  else
    on_kern (on_heap (memset eg 0 sizeof_event_group));;
    put_obj eg (EventGroup 0 NULL (object_name name));;
    mret eg.

Fixpoint wake_loop (fuel : nat) (t : Z) : M kernel_t unit :=
  match fuel with
  | O => nofuel
  | S fuel =>
      if t =? NULL then mret tt
      else
        c ← tcb t;
        upd_tcb t (set_t_state TASK_READY);;
        upd_tcb t (set_t_block_obj NULL);;
        upd_tcb t (set_t_block_next NULL);;
        wake_loop fuel (t_block_next c)
  end.

Definition event_group_delete (fuel : nat) (eg : Z) : EM unit :=
  if eg =? NULL then mret tt
  else
    on_kern task_enter_critical;;
    g ← obj eg;
    on_kern (wake_loop fuel (eg_blocked_tasks g));;
    upd_obj eg (set_eg_blocked NULL);;
    on_kern task_exit_critical;;
    on_kern (on_heap (free_rtos eg));;
    drop_obj eg.

(** [eg->bits |= bits_to_set] and the wake-ups; whether there was a waiting task. *)
Definition event_group_or (eg bits_to_set : Z) : EM bool :=
  upd_obj eg (fun g => set_eg_bits (Z.lor (eg_bits g) bits_to_set) g);;
  g ← obj eg;
  when (truthy (eg_blocked_tasks g)) (unblock_all_ready eg);;
  mret (truthy (eg_blocked_tasks g)).

Definition event_group_set_bits (eg bits_to_set : Z) : EM Z :=
  if eg =? NULL then mret 0
  else
    on_kern task_enter_critical;;
    g ← obj eg;
    _ ← event_group_or eg bits_to_set;
    on_kern task_exit_critical;;
    mret (eg_bits g).

(** The second result: [*woken] was set to 1 (for a non-null [woken]). *)
Definition event_group_set_bits_from_isr (eg bits_to_set : Z) : EM (Z * bool) :=
  if eg =? NULL then mret (0, false)
  else
    g ← obj eg;
    woken ← event_group_or eg bits_to_set;
    mret (eg_bits g, woken).

Definition event_group_clear_bits (eg bits_to_clear : Z) : EM Z :=
  if eg =? NULL then mret 0
  else
    on_kern task_enter_critical;;
    g ← obj eg;
    upd_obj eg (fun g => set_eg_bits (Z.land (eg_bits g) (not32 bits_to_clear)) g);;
    on_kern task_exit_critical;;
    mret (eg_bits g).

(** The current task leaves the list, its own fields cleared. *)
Definition event_leave (eg : Z) : EM unit :=
  self ← on_kern task_get_current;
  g ← obj eg;
  h ← on_kern (remove_waiter true self (eg_blocked_tasks g));
  upd_obj eg (set_eg_blocked h).

Section wait.
Context (pend : EM unit).

(** [while (1)] of the wait: a sleep, the timeout, the state of the task. *)
Fixpoint event_wait_loop (fuel : nat) (eg timeout_ticks start : Z) : EM Z :=
  match fuel with
  | O => nofuel
  | S fuel =>
      on_kern (task_delay 1);;
      pend;;
      now ← on_kern task_get_tick_count;
      if (timeout_ticks <? UINT32_MAX) && (timeout_ticks <=? now -32 start) then
        on_kern task_enter_critical;;
        event_leave eg;;
        on_kern task_exit_critical;;
        mret 0
      else
        self ← on_kern task_get_current;
        c ← on_kern (tcb self);
        if bool_decide (t_state c = TASK_READY) then
          on_kern task_enter_critical;;
          g ← obj eg;
          on_kern task_exit_critical;;
          mret (eg_bits g)
        else event_wait_loop fuel eg timeout_ticks start
  end.

Definition clear_waited (bits_to_wait : Z) (wait_type : event_wait_type_t) (g : event_group_t) : event_group_t :=
  match wait_type with
  | EVENT_WAIT_OR_ANY_CLEAR => set_eg_bits (Z.land (eg_bits g) (not32 (Z.land (eg_bits g) bits_to_wait))) g
  | _ => set_eg_bits (Z.land (eg_bits g) (not32 bits_to_wait)) g
  end.

(** [info] is the stack address of the call's condition. *)
Definition event_group_wait_bits (fuel : nat) (info eg bits_to_wait : Z) (wait_type : event_wait_type_t) (timeout_ticks : Z)
    (clear_on_exit : bool) : EM Z :=
  if (eg =? NULL) || (bits_to_wait =? 0) then mret 0
  else
    modify (fun w => set_glob (<[info := WaitInfo bits_to_wait wait_type clear_on_exit]> (glob w)) w);;
    start ← on_kern task_get_tick_count;
    on_kern task_enter_critical;;
    g ← obj eg;
    r ← (if event_condition_met (eg_bits g) bits_to_wait wait_type then
           when clear_on_exit (upd_obj eg (clear_waited bits_to_wait wait_type));;
           on_kern task_exit_critical;;
           mret (eg_bits g)
         else
           self ← on_kern task_get_current;
           h ← on_kern (block_task info (eg_blocked_tasks g) self);
           upd_obj eg (set_eg_blocked h);;
           on_kern task_exit_critical;;
           event_wait_loop fuel eg timeout_ticks start);
    modify (fun w => set_glob (delete info (glob w)) w);;
    mret r.

Definition event_group_sync (fuel : nat) (info eg bits_to_set bits_to_wait timeout_ticks : Z) : EM Z :=
  if eg =? NULL then mret 0
  else
    _ ← event_group_set_bits eg bits_to_set;
    event_group_wait_bits fuel info eg bits_to_wait EVENT_WAIT_AND_ALL timeout_ticks true.
End wait.

Definition event_group_get_bits (eg : Z) : EM Z := if eg =? NULL then mret 0 else g ← obj eg; mret (eg_bits g).

(** ** Bits *)

Lemma land_not32 a b : 0 <= a < 4294967296 -> 0 <= b -> Z.land a (not32 b) = Z.ldiff a b.
Proof.
  intros Ha Hb. apply Z.bits_inj'. intros i Hi. rewrite Z.land_spec, Z.ldiff_spec. destruct (Z.lt_ge_cases i 32) as [Hl|Hg].
  - unfold not32, u32. change 4294967296 with (2 ^ 32). rewrite Z.mod_pow2_bits_low, Z.lnot_spec by lia. done.
  - rewrite (testbit_high 32 a) by lia. done.
Qed.

Lemma clear_waited_bits bits_to_wait type g :
  0 <= eg_bits g < 4294967296 -> 0 <= bits_to_wait ->
  clear_waited bits_to_wait type g = set_eg_bits (Z.ldiff (eg_bits g) bits_to_wait) g.
Proof.
  intros Hg Hb. unfold clear_waited. destruct type; rewrite land_not32; try done.
  - f_equal. apply Z.bits_inj'. intros i Hi. rewrite !Z.ldiff_spec, Z.land_spec. destruct (Z.testbit (eg_bits g) i), (Z.testbit bits_to_wait i); done.
  - apply Z.land_nonneg. by left; lia.
Qed.

(** ** Waking the satisfied tasks *)

(** A request is met by the bits: all of its bits, or one of them. *)
Definition meets (bits : Z) (i : event_wait_info_t) : Prop :=
  match wait_type i with
  | EVENT_WAIT_AND_ALL => forall j, Z.testbit (wait_bits i) j = true -> Z.testbit bits j = true
  | _ => exists j, Z.testbit (wait_bits i) j = true /\ Z.testbit bits j = true
  end.

Lemma event_condition_met_spec bits i : event_condition_met bits (wait_bits i) (wait_type i) = true <-> meets bits i.
Proof.
  unfold meets, event_condition_met. set (r := wait_bits i). assert (negb (Z.land bits r =? 0) = true <-> exists j, Z.testbit r j = true /\ Z.testbit bits j = true) as Hany.
  { rewrite negb_true_iff, Z.eqb_neq. split.
    - intros H. assert (exists j, Z.testbit (Z.land bits r) j = true) as [j Hj].
      { destruct (Z_lt_le_dec 0 (Z.land bits r)).
        - exists (Z.log2 (Z.land bits r)). by apply Z.bit_log2.
        - eexists. apply Z.bits_above_log2_neg; [lia|apply Z.lt_succ_diag_r]. }
      exists j. rewrite Z.land_spec, andb_true_iff in Hj. tauto.
    - intros (j & H1 & H2) E. apply (f_equal (fun z => Z.testbit z j)) in E. by rewrite Z.land_spec, H1, H2, Z.bits_0 in E. }
  destruct (wait_type i); [|exact Hany..]. rewrite Z.eqb_eq. split.
  - intros E j Hj. rewrite <- E, Z.land_spec, andb_true_iff in Hj. tauto.
  - intros H. apply Z.bits_inj'. intros j _. rewrite Z.land_spec. specialize (H j). destruct (Z.testbit r j); [by rewrite H|by rewrite andb_false_r].
Qed.

Section wake.
Context (m0 : gmap Z tcb_t) (infos : gmap Z event_wait_info_t) (bits : Z).

(** A waiting task whose condition the bits satisfy. *)
Definition satisfied (t : Z) : bool :=
  match m0 !! t with
  | Some c => if t_block_obj c =? NULL then false
              else match infos !! t_block_obj c with Some i => event_condition_met bits (wait_bits i) (wait_type i) | None => false end
  | None => false
  end.

(** The conditions of the waiting tasks are there. *)
Definition has_info (t : Z) : Prop := forall c, m0 !! t = Some c -> t_block_obj c = NULL \/ is_Some (infos !! t_block_obj c).

(** The control blocks during the walk: those still waiting may be linked anew, the others were woken. *)
Definition walked (ts0 ts : list Z) (m : gmap Z tcb_t) : Prop :=
  forall t, (t ∉ ts0 /\ m !! t = m0 !! t) \/
    (t ∈ ts /\ exists c n, m0 !! t = Some c /\ m !! t = Some (set_t_block_next n c)) \/
    (t ∈ ts0 /\ t ∉ ts /\ satisfied t = true /\ m !! t = woken_tcb <$> m0 !! t).

Definition obj_kept (ts : list Z) (m : gmap Z tcb_t) : Prop :=
  forall t, t ∈ ts -> exists c n, m0 !! t = Some c /\ m !! t = Some (set_t_block_next n c).

Notation W := (sync event_group_t (gmap Z event_wait_info_t)).

Lemma condition_read (w : W) t c :
  glob w = infos -> m0 !! t = Some c -> has_info t ->
  (if t_block_obj c =? NULL then mret false
   else i ← wait_info (t_block_obj c); mret (event_condition_met bits (wait_bits i) (wait_type i))) w = Done (satisfied t, w).
Proof.
  intros Hg Hc Hi. unfold satisfied. rewrite Hc. destruct (Z.eqb_spec (t_block_obj c) NULL) as [|Hn]; [done|].
  destruct (Hi c Hc) as [?|[i Ei]]; [done|]. rewrite Ei. rewrite (bind_step _ _ _ i w); [done|]. unfold wait_info. by rewrite Hg, Ei.
Qed.

Lemma first_ready_Done fuel (w : W) h0 h l1 l2 prev :
  glob w = infos -> waiters (tcbs (kern w)) h (l1 ++ l2) -> Forall (fun t => satisfied t = false) l1 ->
  (match l2 with [] => True | t :: _ => satisfied t = true end) -> obj_kept (l1 ++ l2) (tcbs (kern w)) -> Forall has_info (l1 ++ l2) ->
  (length l1 < fuel)%nat -> (prev = NULL \/ is_Some (tcbs (kern w) !! prev)) -> NULL ∉ l1 ->
  first_ready_loop fuel bits h0 prev h w =
    match l2 with
    | [] => Done (h0, NULL, w)
    | t :: _ => match tcbs (kern w) !! t with
                | Some c =>
                    let '(h', m) := if last_or prev l1 =? NULL then (t_block_next c, tcbs (kern w))
                                    else (h0, alter (set_t_block_next (t_block_next c)) (last_or prev l1) (tcbs (kern w))) in
                    Done (h', t, set_kern (set_tcbs (alter woken_tcb t m) (kern w)) w)
                | None => UB
                end
    end.
Proof.
  intros Hg. revert h prev fuel. induction l1 as [|x l1 IH]; intros h prev fuel Hw Hu Hs Hk Hi Hf Hp Hn0; (destruct fuel as [|fuel]; [cbn in Hf; lia|]).
  - cbn [app last_or] in *. destruct l2 as [|t l2].
    + cbn in Hw. subst h. done.
    + destruct Hw as (-> & Ht & c & Hc & Hr). cbn [first_ready_loop]. rewrite (proj2 (Z.eqb_neq t NULL) Ht).
      rewrite (bind_step _ _ _ _ _ (on_kern_read _ w c (tcb_Done _ _ _ Hc))).
      destruct (Hk t ltac:(left)) as (c0 & n & Hc0 & Hcn). rewrite Hc in Hcn. injection Hcn as ->. cbn [t_block_obj set_t_block_next].
      rewrite (bind_step _ _ _ _ _ (condition_read w t c0 Hg Hc0 ltac:(by apply Forall_cons in Hi as [? _]))), Hs, Hc.
      cbn [t_block_next set_t_block_next].
      set (hm := if prev =? NULL then (n, tcbs (kern w)) else (h0, alter (set_t_block_next n) prev (tcbs (kern w)))).
      rewrite (bind_step _ _ _ (fst hm) (set_kern (set_tcbs (snd hm) (kern w)) w)).
      2: { unfold hm. destruct (Z.eqb_spec prev NULL) as [|Hpn]; [by destruct w as [[] ? ?]|]. destruct Hp as [?|Hp]; [done|].
           rewrite (bind_step _ _ _ _ _ (on_kern_Done _ w _ _ (upd_tcb_Done (kern w) prev _ Hp))). done. }
      assert (is_Some (snd hm !! t)) as Hst. { unfold hm. destruct (prev =? NULL); cbn; [eauto|]. by apply is_Some_alter; eauto. }
      set (w1 := set_kern _ w). rewrite (bind_step _ _ _ _ _ (on_kern_Done _ w1 _ _ (upd_tcb_Done (kern w1) t _ Hst))).
      set (w2 := set_kern _ w1). rewrite (bind_step _ _ _ _ _ (on_kern_Done _ w2 _ _ (upd_tcb_Done (kern w2) t _ (is_Some_alter _ _ _ _ Hst)))).
      set (w3 := set_kern _ w2). rewrite (bind_step _ _ _ _ _ (on_kern_Done _ w3 _ _ (upd_tcb_Done (kern w3) t _ (is_Some_alter _ _ _ _ (is_Some_alter _ _ _ _ Hst))))).
      unfold w3, w2, w1. cbn [kern set_kern tcbs set_tcbs]. rewrite alter3. destruct (prev =? NULL); done.
  - pose proof (waiters_nodup _ _ _ Hw) as [Hnx Hnd]%NoDup_cons. cbn [app] in *. destruct Hw as (-> & Hx & d & Hd & Hr).
    apply Forall_cons in Hu as [Hux Hu], Hi as [Hix Hi]. cbn [first_ready_loop last_or]. rewrite (proj2 (Z.eqb_neq x NULL) Hx).
    rewrite (bind_step _ _ _ _ _ (on_kern_read _ w d (tcb_Done _ _ _ Hd))).
    destruct (Hk x ltac:(left)) as (c0 & n & Hc0 & Hcn). rewrite Hd in Hcn. injection Hcn as ->. cbn [t_block_obj set_t_block_next].
    rewrite (bind_step _ _ _ _ _ (condition_read w x c0 Hg Hc0 Hix)), Hux.
    apply IH; try done; [|cbn in Hf; lia|right; eauto|by apply not_elem_of_cons in Hn0 as [_ ?]].
    intros t Ht. apply Hk. by right.
Qed.

(** The first satisfied task of a list. *)
Lemma first_split (ts : list Z) :
  exists l1 l2, ts = l1 ++ l2 /\ Forall (fun t => satisfied t = false) l1 /\ match l2 with [] => True | t :: _ => satisfied t = true end.
Proof.
  induction ts as [|t ts (l1 & l2 & -> & Hf & Hs)]; [by exists [], []|]. destruct (satisfied t) eqn:Et.
  - by exists [], (t :: l1 ++ l2).
  - exists (t :: l1), l2. split; [done|]. split; [by constructor|done].
Qed.

Lemma filter_unsatisfied (l : list Z) : Forall (fun t => satisfied t = false) l -> filter (fun t => satisfied t = false) l = l.
Proof. induction 1 as [|t l Ht Hl IH]; [done|]. rewrite filter_cons_True by done. by rewrite IH. Qed.

Lemma filter_skip (l1 l2 : list Z) t : satisfied t = true ->
  filter (fun t => satisfied t = false) (l1 ++ t :: l2) = filter (fun t => satisfied t = false) (l1 ++ l2).
Proof. intros Ht. rewrite !filter_app. f_equal. by rewrite filter_cons_False by (by rewrite Ht). Qed.

Lemma unblock_first_Done (mm : gmap Z tcb_t) os eg g ts0 ts :
  os !! eg = Some g -> eg_bits g = bits -> waiters mm (eg_blocked_tasks g) ts ->
  obj_kept ts mm -> walked ts0 ts mm -> Forall has_info ts -> ts ⊆ ts0 ->
  exists l1 l2 h m, ts = l1 ++ l2 /\ Forall (fun t => satisfied t = false) l1 /\
    (forall k, tcbs k = mm -> unblock_first_ready eg (Sync k os infos) = Done (match l2 with [] => NULL | t :: _ => t end,
      Sync (set_tcbs m k) (<[eg := set_eg_blocked h g]> os) infos)) /\
    match l2 with
    | [] => h = eg_blocked_tasks g /\ m = mm
    | t :: l2 => satisfied t = true /\ waiters m h (l1 ++ l2) /\ obj_kept (l1 ++ l2) m /\ walked ts0 (l1 ++ l2) m
    end.
Proof.
  intros Hg Hb Hw Hk Hwk Hinfo Hsub. destruct (first_split ts) as (l1 & l2 & Ets & Hf & Hs). subst ts.
  pose proof (waiters_null _ _ _ Hw) as Hn0. pose proof (waiters_length _ _ _ Hw) as Hlen. rewrite length_app in Hlen.
  assert (forall k, tcbs k = mm -> first_ready_loop (ring_fuel k) bits (eg_blocked_tasks g) NULL (eg_blocked_tasks g) (Sync k os infos) =
    match l2 with
    | [] => Done (eg_blocked_tasks g, NULL, Sync k os infos)
    | t :: _ => match mm !! t with
                | Some c =>
                    let '(h', m) := if last_or NULL l1 =? NULL then (t_block_next c, mm)
                                    else (eg_blocked_tasks g, alter (set_t_block_next (t_block_next c)) (last_or NULL l1) mm) in
                    Done (h', t, Sync (set_tcbs (alter woken_tcb t m) k) os infos)
                | None => UB
                end
    end) as E.
  { intros k <-. exact (first_ready_Done (ring_fuel k) (Sync k os infos) (eg_blocked_tasks g) (eg_blocked_tasks g) l1 l2 NULL eq_refl Hw Hf Hs Hk Hinfo
      ltac:(unfold ring_fuel; lia) (or_introl eq_refl) ltac:(intros Hx; apply Hn0, elem_of_app; by left)). }
  cbn [kern] in E.
  assert (forall k h t m, first_ready_loop (ring_fuel k) bits (eg_blocked_tasks g) NULL (eg_blocked_tasks g) (Sync k os infos) =
      Done (h, t, Sync (set_tcbs m k) os infos) ->
    unblock_first_ready eg (Sync k os infos) = Done (t, Sync (set_tcbs m k) (<[eg := set_eg_blocked h g]> os) infos)) as Hu.
  { intros k h t m E1. unfold unblock_first_ready. rewrite (bind_step _ _ _ _ _ (obj_Done (Sync k os infos) eg g Hg)).
    rewrite (bind_step _ _ _ _ _ (on_kern_read (gets ring_fuel) (Sync k os infos) _ eq_refl)), Hb. cbn [kern]. rewrite (bind_step _ _ _ _ _ E1).
    by rewrite (bind_step _ _ _ _ _ (upd_obj_Done (Sync (set_tcbs m k) os infos) eg g _ Hg)). }
  destruct l2 as [|t l2].
  - exists l1, [], (eg_blocked_tasks g), mm. split; [done|]. split; [done|]. split; [|done]. intros k Ek. apply Hu. rewrite E by done. rewrite <- Ek. by destruct k.
  - destruct (waiters_some _ _ _ t Hw) as [c Hc]; [apply elem_of_app; right; left|].
    pose proof (waiters_nodup _ _ _ Hw) as Hnd. pose proof Hnd as (Hnd1 & Hdis & [Hnt2 _]%NoDup_cons)%NoDup_app.
    assert (t ∉ l1 ++ l2) as Hnt. { intros [Hx|Hx]%elem_of_app; [|done]. by apply (Hdis t Hx); left. }
    assert (t ∈ ts0) as Ht0. { apply Hsub, elem_of_app. right. left. }
    destruct (Hk t) as (ct & nt & Hct & Hcn); [apply elem_of_app; right; left|]. rewrite Hc in Hcn. injection Hcn as Ec.
    (* the list without [t], before its own fields change *)
    assert (exists h m, (if last_or NULL l1 =? NULL then (t_block_next c, mm)
        else (eg_blocked_tasks g, alter (set_t_block_next (t_block_next c)) (last_or NULL l1) mm)) = (h, m) /\
      waiters m h (l1 ++ l2) /\ (forall x, x ∈ l1 -> exists n, m !! x = set_t_block_next n <$> mm !! x) /\
      (forall x, x ∉ l1 -> m !! x = mm !! x)) as (h & m & Ehm & Hwm & Hm1 & Hm2).
    { assert (forall x, exists n, mm !! x = set_t_block_next n <$> mm !! x) as Hid.
      { intros x. destruct (mm !! x) as [y|]; [|by exists 0]. exists (t_block_next y). by destruct y. }
      destruct (decide (l1 = [])) as [->|Hne].
      - cbn [last_or app] in *. rewrite Z.eqb_refl. do 2 eexists. split; [reflexivity|]. destruct Hw as (_ & _ & d & Hd & Hr).
        rewrite Hc in Hd. injection Hd as <-. split; [done|]. split; [|done]. intros x Hx. by apply not_elem_of_nil in Hx.
      - assert (last_or NULL l1 ∈ l1) as Hl by (by apply last_or_in).
        assert (last_or NULL l1 <> NULL) as Hln. { intros El. rewrite El in Hl. apply Hn0, elem_of_app. by left. }
        rewrite (proj2 (Z.eqb_neq _ NULL) Hln). do 2 eexists. split; [reflexivity|]. split; [by apply (waiters_remove _ _ _ t)|].
        split; intros x Hx.
        + destruct (decide (x = last_or NULL l1)) as [->|Hxl]; [rewrite lookup_alter_eq; by eexists|]. rewrite lookup_alter_ne by done. apply Hid.
        + rewrite lookup_alter_ne; [done|]. by intros <-. }
    exists l1, (t :: l2), h, (alter woken_tcb t m). split; [done|]. split; [done|]. split.
    { intros k Ek. apply Hu. rewrite E, Hc, Ehm by done. done. }
    assert (obj_kept (l1 ++ l2) (alter woken_tcb t m)) as Hok.
    { intros x Hx. assert (x <> t) as Hxt by (by intros ->). rewrite lookup_alter_ne by done.
      destruct (Hk x) as (cx & nx & Hcx & Hmx). { apply elem_of_app. apply elem_of_app in Hx as [Hx|Hx]; [by left|right; by right]. }
      exists cx. destruct (decide (x ∈ l1)) as [Hx1|Hx1].
      - destruct (Hm1 x Hx1) as [n Hn]. exists n. split; [done|]. rewrite Hn, Hmx. done.
      - exists nx. split; [done|]. by rewrite Hm2. }
    split; [done|]. split; [|split; [done|]].
    { eapply waiters_frame; [|exact Hwm]. intros x d Hx Hd. rewrite lookup_alter_ne by (by intros <-). eauto. }
    intros x. destruct (decide (x = t)) as [->|Hxt].
    + right. right. split; [done|]. split; [done|]. split; [done|]. rewrite lookup_alter_eq, Hm2, Hc, Hct by (intros Hx; apply Hnt, elem_of_app; by left).
      cbn. by rewrite Ec.
    + destruct (decide (x ∈ l1 ++ l2)) as [Hx|Hx]; [right; left; split; [done|by apply Hok]|].
      rewrite lookup_alter_ne, Hm2 by (try done; intros Hx1; apply Hx, elem_of_app; by left).
      assert (x ∉ l1 ++ t :: l2) as Hx'. { intros [Hy|[Hy|Hy]%elem_of_cons]%elem_of_app; [apply Hx, elem_of_app; by left|done|apply Hx, elem_of_app; by right]. }
      destruct (Hwk x) as [?|[[? _]|(? & _ & ? & ?)]]; [by left|done|]. right. right. done.
Qed.

Lemma unblock_loop_Done fuel (mm : gmap Z tcb_t) os eg g ts0 ts :
  os !! eg = Some g -> eg_bits g = bits -> waiters mm (eg_blocked_tasks g) ts ->
  obj_kept ts mm -> walked ts0 ts mm -> Forall has_info ts -> ts ⊆ ts0 -> (length ts < fuel)%nat ->
  exists h m, (forall k, tcbs k = mm -> unblock_loop fuel eg (Sync k os infos) = Done (tt, Sync (set_tcbs m k) (<[eg := set_eg_blocked h g]> os) infos)) /\
    waiters m h (filter (fun t => satisfied t = false) ts) /\ walked ts0 (filter (fun t => satisfied t = false) ts) m.
Proof.
  revert mm os g ts. induction fuel as [|fuel IH]; intros mm os g ts Hg Hb Hw Hk Hwk Hinfo Hsub Hf; [lia|].
  destruct (unblock_first_Done mm os eg g ts0 ts Hg Hb Hw Hk Hwk Hinfo Hsub) as (l1 & l2 & h & m & -> & Hl1 & E & H).
  destruct l2 as [|t l2].
  - destruct H as [-> ->]. rewrite app_nil_r in *. exists (eg_blocked_tasks g), mm. split; [|by rewrite filter_unsatisfied].
    intros k Ek. cbn [unblock_loop]. by rewrite (bind_step _ _ _ _ _ (E k Ek)), Z.eqb_refl.
  - destruct H as (Ht & Hw' & Hk' & Hwk').
    destruct (IH m (<[eg := set_eg_blocked h g]> os) (set_eg_blocked h g) (l1 ++ l2)) as (h2 & m2 & E2 & Hw2 & Hwk2); try done.
    + apply lookup_insert_eq.
    + apply Forall_app in Hinfo as [Hi1 [_ Hi2]%Forall_cons]. by apply Forall_app.
    + intros x [Hx|Hx]%elem_of_app; apply Hsub, elem_of_app; [by left|right; by right].
    + rewrite length_app in *. cbn in Hf. lia.
    + exists h2, m2. rewrite filter_skip by done. split; [|done]. intros k Ek. cbn [unblock_loop]. rewrite (bind_step _ _ _ _ _ (E k Ek)).
      rewrite (proj2 (Z.eqb_neq t NULL)).
      2: { intros ->. apply (waiters_null _ _ _ Hw), elem_of_app. right. left. }
      rewrite (E2 (set_tcbs m k) eq_refl), insert_insert_eq. done.
Qed.
End wake.

(** C40: setting bits returns the previous word and wakes exactly the waiting tasks whose condition the new word satisfies,
    that is all of its bits (AND) or one of its bits (OR) are set: these become READY and leave the list, the others
    keep their order on it and nothing else about any task changes; the bits stay set whatever the woken tasks asked to clear.
    The interrupt variant does the same, and reports a woken task whenever one was waiting, woken or not. *)
Theorem set_bits_wakes (w : sync event_group_t (gmap Z event_wait_info_t)) eg g ts b :
  eg <> NULL -> objs w !! eg = Some g -> 0 <= critical_nesting (kern w) < UINT32_MAX ->
  waiters (tcbs (kern w)) (eg_blocked_tasks g) ts -> Forall (has_info (tcbs (kern w)) (glob w)) ts ->
  let bits := Z.lor (eg_bits g) b in
  let sat := satisfied (tcbs (kern w)) (glob w) bits in
  exists h m, let w' := Sync (set_tcbs m (kern w)) (<[eg := EventGroup bits h (eg_name g)]> (objs w)) (glob w) in
    event_group_set_bits eg b w = Done (eg_bits g, w') /\
    event_group_set_bits_from_isr eg b w = Done ((eg_bits g, negb (bool_decide (ts = []))), w') /\
    waiters m h (filter (fun t => sat t = false) ts) /\
    (forall t, t ∈ ts -> sat t = true -> m !! t = woken_tcb <$> tcbs (kern w) !! t) /\
    (forall t, t ∈ ts -> sat t = false -> exists n, m !! t = set_t_block_next n <$> tcbs (kern w) !! t) /\
    (forall t, t ∉ ts -> m !! t = tcbs (kern w) !! t) /\
    (forall t c i, tcbs (kern w) !! t = Some c -> t_block_obj c <> NULL -> glob w !! t_block_obj c = Some i -> sat t = true <-> meets bits i).
Proof.
  intros Heg Hg Hn Hw Hi bits sat.
  assert (forall t, t ∈ ts -> exists c n, tcbs (kern w) !! t = Some c /\ tcbs (kern w) !! t = Some (set_t_block_next n c)) as Hk.
  { intros t Ht. destruct (waiters_some _ _ _ t Hw Ht) as [c Hc]. exists c, (t_block_next c). split; [done|]. rewrite Hc. by destruct c. }
  assert (walked (tcbs (kern w)) (glob w) bits ts ts (tcbs (kern w))) as Hwk.
  { intros t. destruct (decide (t ∈ ts)) as [Ht|Ht]; [right; left; split; [done|by apply Hk]|by left]. }
  (* the update and the wake-ups, at any nesting level *)
  assert (exists h m, waiters m h (filter (fun t => sat t = false) ts) /\ walked (tcbs (kern w)) (glob w) bits ts (filter (fun t => sat t = false) ts) m /\
    forall n, event_group_or eg b (set_kern (set_critical_nesting n (kern w)) w) =
      Done (negb (bool_decide (ts = [])), Sync (set_critical_nesting n (set_tcbs m (kern w))) (<[eg := EventGroup bits h (eg_name g)]> (objs w)) (glob w)))
    as (h & m & Hwm & Hwk' & Hor).
  { assert (forall n h m, (when (truthy (eg_blocked_tasks g)) (unblock_all_ready eg))
        (Sync (set_critical_nesting n (kern w)) (<[eg := EventGroup bits (eg_blocked_tasks g) (eg_name g)]> (objs w)) (glob w)) =
        Done (tt, Sync (set_critical_nesting n (set_tcbs m (kern w))) (<[eg := EventGroup bits h (eg_name g)]> (objs w)) (glob w)) ->
      event_group_or eg b (set_kern (set_critical_nesting n (kern w)) w) =
      Done (truthy (eg_blocked_tasks g), Sync (set_critical_nesting n (set_tcbs m (kern w))) (<[eg := EventGroup bits h (eg_name g)]> (objs w)) (glob w))) as Hstep.
    { intros n h m E. unfold event_group_or. rewrite (bind_step _ _ _ _ _ (upd_obj_Done (set_kern _ w) eg g _ Hg)).
      rewrite (bind_step _ _ _ _ _ (obj_Done _ eg (set_eg_bits bits g) (lookup_insert_eq _ _ _))). cbn [eg_blocked_tasks set_eg_bits].
      by rewrite (bind_step _ _ _ _ _ E). }
    destruct ts as [|t ts].
    - cbn in Hw. exists NULL, (tcbs (kern w)). split; [done|]. split; [exact Hwk|]. intros n. rewrite (Hstep n NULL (tcbs (kern w))).
      + by rewrite Hw.
      + rewrite Hw. cbn. by destruct w as [[] ? ?].
    - assert (truthy (eg_blocked_tasks g) = true) as Ht. { unfold truthy. destruct Hw as (-> & Ht & _). by rewrite (proj2 (Z.eqb_neq t 0) Ht). }
      pose proof (waiters_length _ _ _ Hw) as Hlen.
      destruct (unblock_loop_Done (tcbs (kern w)) (glob w) bits (S (size (tcbs (kern w)))) (tcbs (kern w)) (<[eg := EventGroup bits (eg_blocked_tasks g) (eg_name g)]> (objs w))
        eg (EventGroup bits (eg_blocked_tasks g) (eg_name g)) (t :: ts) (t :: ts)) as (h & m & E & Hm & Hm2); try done; [apply lookup_insert_eq|lia|].
      exists h, m. split; [done|]. split; [done|]. intros n. rewrite (Hstep n h m); [by rewrite Ht|]. rewrite Ht. cbn [when]. unfold unblock_all_ready.
      rewrite (bind_step _ _ _ _ _ (on_kern_read (gets ring_fuel) (Sync (set_critical_nesting n (kern w)) (<[eg := EventGroup bits (eg_blocked_tasks g) (eg_name g)]> (objs w)) (glob w)) _ eq_refl)).
      unfold ring_fuel. cbn [kern tcbs set_critical_nesting]. rewrite E by done. by rewrite insert_insert_eq. }
  exists h, m. intros w'. split; [|split; [|split; [done|split; [|split; [|split]]]]].
  - unfold event_group_set_bits. rewrite (proj2 (Z.eqb_neq eg NULL) Heg), (bind_step _ _ _ _ _ (enter_Done w)).
    rewrite (bind_step _ _ _ _ _ (obj_Done (set_kern _ w) eg g Hg)), (bind_step _ _ _ _ _ (Hor _)).
    rewrite (bind_step _ _ _ _ _ (exit_Done (Sync (set_critical_nesting (critical_nesting (kern w) +32 1) (set_tcbs m (kern w)))
      (<[eg := EventGroup bits h (eg_name g)]> (objs w)) (glob w)) (critical_nesting (kern w)) eq_refl Hn)). unfold w'. cbn. by destruct w as [[] ? ?].
  - unfold event_group_set_bits_from_isr. rewrite (proj2 (Z.eqb_neq eg NULL) Heg), (bind_step _ _ _ _ _ (obj_Done w eg g Hg)).
    pose proof (Hor (critical_nesting (kern w))) as E. rewrite nesting_id, set_kern_id in E by done. rewrite (bind_step _ _ _ _ _ E). unfold w'. by destruct w as [[] ? ?].
  - intros t Ht Hs. destruct (Hwk' t) as [[Hx _]|[[Hx _]|(_ & _ & _ & E)]]; [done| |done]. apply list_elem_of_filter in Hx as [Hx _]. cbv beta in Hx. congruence.
  - intros t Ht Hs. destruct (Hwk' t) as [[Hx _]|[(_ & c & n & Ec & Em)|(_ & _ & Hx & _)]]; [done| |unfold sat in Hs; congruence]. exists n. by rewrite Ec, Em.
  - intros t Ht. destruct (Hwk' t) as [[_ Hx]|[(Hx & _)|(Hx & _)]]; [done| |done]. by apply list_elem_of_filter in Hx as [_ Hx].
  - intros t c i Hc Hne Hinf. unfold sat, satisfied. rewrite Hc, (proj2 (Z.eqb_neq _ NULL) Hne), Hinf. apply event_condition_met_spec.
Qed.

Lemma set_bits_wakes_witness :
  exists h m, event_group_set_bits 9500 2 (Sync (set_tcbs {[ 16 := set_t_block_obj 700 zero_tcb ]} kernel0) {[ 9500 := EventGroup 1 16 [] ]} {[ 700 := WaitInfo 3 EVENT_WAIT_AND_ALL true ]}) =
    Done (1, Sync (set_tcbs m kernel0) {[ 9500 := EventGroup 3 h [] ]} {[ 700 := WaitInfo 3 EVENT_WAIT_AND_ALL true ]}) /\
    waiters m h [] /\ t_state <$> m !! 16 = Some TASK_READY.
Proof.
  destruct (set_bits_wakes (Sync (set_tcbs {[ 16 := set_t_block_obj 700 zero_tcb ]} kernel0) {[ 9500 := EventGroup 1 16 [] ]} {[ 700 := WaitInfo 3 EVENT_WAIT_AND_ALL true ]})
    9500 (EventGroup 1 16 []) [16] 2) as (h & m & E & _ & Hw & Hs & _).
  - discriminate.
  - reflexivity.
  - vm_compute. split; [discriminate|reflexivity].
  - split; [reflexivity|]. split; [discriminate|]. exists (set_t_block_obj 700 zero_tcb). split; reflexivity.
  - constructor; [|constructor]. intros c Hc. right. vm_compute in Hc. injection Hc as <-. exists (WaitInfo 3 EVENT_WAIT_AND_ALL true). reflexivity.
  - exists h, m. split; [exact E|]. split; [exact Hw|]. rewrite (Hs 16); [reflexivity|left|reflexivity].
Defined.

(** ** Waiting *)

Lemma remove_loop_clear fuel k self h h0 l1 l2 prev :
  waiters (tcbs k) h (l1 ++ self :: l2) ->
  remove_loop true fuel self h0 prev h k =
    (h ← remove_loop false fuel self h0 prev h; upd_tcb self (set_t_block_next NULL);; upd_tcb self (set_t_block_obj NULL);; mret h) k.
Proof.
  revert h prev fuel. induction l1 as [|x l1 IH]; intros h prev fuel Hw; (destruct fuel as [|fuel]; [done|]).
  - destruct Hw as (-> & Ht & c & Hc & _). cbn [remove_loop]. rewrite (proj2 (Z.eqb_neq self NULL) Ht).
    rewrite (bind_step _ _ _ _ _ (tcb_Done _ _ _ Hc)), bind_assoc, (bind_step _ _ _ _ _ (tcb_Done _ _ _ Hc)), Z.eqb_refl. cbn [when].
    set (X := if prev =? NULL then _ else _). unfold mbind, M_bind. destruct (X k) as [[? ?]| |]; try done. cbn [mret M_ret]. by destruct (upd_tcb self _ _) as [[[] ?]| |].
  - pose proof (waiters_nodup _ _ _ Hw) as [Hnx Hnd]%NoDup_cons. destruct Hw as (-> & Hx & d & Hd & Hr). cbn [remove_loop].
    rewrite (proj2 (Z.eqb_neq x NULL) Hx), (bind_step _ _ _ _ _ (tcb_Done _ _ _ Hd)), bind_assoc, (bind_step _ _ _ _ _ (tcb_Done _ _ _ Hd)).
    rewrite (proj2 (Z.eqb_neq x self)) by (intros ->; apply Hnx, elem_of_app; right; left). by apply IH.
Qed.

Lemma remove_loop_absent clear fuel k self h h0 ts prev :
  waiters (tcbs k) h ts -> self ∉ ts -> (length ts < fuel)%nat -> remove_loop clear fuel self h0 prev h k = Done (h0, k).
Proof.
  revert h prev fuel. induction ts as [|x ts IH]; intros h prev fuel Hw Hs Hf; (destruct fuel as [|fuel]; [cbn in Hf; lia|]); cbn [remove_loop].
  - cbn in Hw. by subst h.
  - destruct Hw as (-> & Hx & d & Hd & Hr). apply not_elem_of_cons in Hs as [Hsx Hs].
    rewrite (proj2 (Z.eqb_neq x NULL) Hx), (bind_step _ _ _ _ _ (tcb_Done _ _ _ Hd)), (proj2 (Z.eqb_neq x self)) by congruence.
    apply IH; [done|done|cbn in Hf; lia].
Qed.

Lemma remove_waiter_running k self n x h l1 l2 h' k' :
  waiters (tcbs k) h (l1 ++ x :: l2) -> remove_waiter false x h k = Done (h', k') -> running_task self n k -> running_task self n k'.
Proof.
  intros Hw E Hr. destruct (waiters_some _ _ _ x Hw) as [c Hc]; [apply elem_of_app; right; left|].
  pose proof (waiters_length _ _ _ Hw) as Hlen. rewrite length_app in Hlen. pose proof (waiters_null _ _ _ Hw) as Hn0.
  unfold remove_waiter in E. rewrite bind_gets, (remove_loop_Done (ring_fuel k) k x h h l1 l2 c NULL Hw Hc) in E; [|unfold ring_fuel; lia|by left|].
  2: { intros Hx. apply Hn0, elem_of_app. by left. }
  destruct (_ =? NULL); injection E as <- <-; [done|]. by apply running_alter.
Qed.

Notation EW := (sync event_group_t (gmap Z event_wait_info_t)).

(** The group exists and its waiting tasks form a null-terminated list. *)
Definition listed (eg : Z) (w : EW) : Prop :=
  exists g ts, objs w !! eg = Some g /\ waiters (tcbs (kern w)) (eg_blocked_tasks g) ts.

Lemma event_leave_Done eg self n (w : EW) :
  running_task self n (kern w) -> listed eg w ->
  exists k g ts, event_leave eg w = Done (tt, Sync k (<[eg := g]> (objs w)) (glob w)) /\ running_task self n k /\ tick_count k = tick_count (kern w) /\
    waiters (tcbs k) (eg_blocked_tasks g) ts /\ self ∉ ts.
Proof.
  intros Hr (g & ts & Hg & Hw). pose proof Hr as (Ec & _). unfold event_leave.
  rewrite (bind_step _ _ _ _ _ (on_kern_read task_get_current w (current_task (kern w)) eq_refl)), Ec.
  rewrite (bind_step _ _ _ _ _ (obj_Done w eg g Hg)). pose proof (waiters_length _ _ _ Hw) as Hlen.
  destruct (decide (self ∈ ts)) as [Hin|Hin].
  - apply list_elem_of_split in Hin as (l1 & l2 & ->). pose proof (waiters_nodup _ _ _ Hw) as (_ & Hdis & [Hn2 _]%NoDup_cons)%NoDup_app.
    destruct (remove_waiter_Done (kern w) self (eg_blocked_tasks g) l1 l2 Hw) as (h & m & E & Hm & Hall).
    destruct (running_some _ _ _ Hr) as [Hs0 [c Hc]]. destruct (Hall self c Hc) as [nx Hnx].
    assert (remove_waiter true self (eg_blocked_tasks g) (kern w) = Done (h, set_tcbs (alter (fun c => set_t_block_obj NULL (set_t_block_next NULL c)) self m) (kern w))) as E2.
    { unfold remove_waiter in *. rewrite bind_gets in E. rewrite bind_gets, (remove_loop_clear _ _ _ _ _ l1 l2 _ Hw), (bind_step _ _ _ _ _ E).
      rewrite (bind_step _ _ _ _ _ (upd_tcb_Done (set_tcbs m (kern w)) self _ (mk_is_Some _ _ Hnx))).
      rewrite (bind_step _ _ _ _ _ (upd_tcb_Done (set_tcbs (alter (set_t_block_next NULL) self m) (set_tcbs m (kern w))) self _ (is_Some_alter _ _ _ _ (mk_is_Some _ _ Hnx)))).
      cbn [tcbs set_tcbs]. rewrite alter_compose_eq. done. }
    rewrite (bind_step _ _ _ _ _ (on_kern_Done _ w _ _ E2)). set (w1 := set_kern _ w).
    rewrite (upd_obj_Done w1 eg g _ Hg). exists (kern w1), (set_eg_blocked h g), (l1 ++ l2). split; [done|].
    assert (self ∉ l1 ++ l2) as Hns. { intros [Hx|Hx]%elem_of_app; [apply (Hdis _ Hx); left|done]. }
    split; [|split; [done|split; [|done]]].
    + pose proof (remove_waiter_running _ self n _ _ l1 l2 _ _ Hw E Hr) as Hr1.
      exact (running_alter self n (set_tcbs m (kern w)) self (fun c => set_t_block_obj NULL (set_t_block_next NULL c)) Hr1 ltac:(done) ltac:(done)).
    + unfold w1. cbn. eapply waiters_frame; [|exact Hm]. intros x d Hx Hd. rewrite lookup_alter_ne by (by intros <-). eauto.
  - assert (remove_waiter true self (eg_blocked_tasks g) (kern w) = Done (eg_blocked_tasks g, kern w)) as E.
    { unfold remove_waiter. rewrite bind_gets. apply (remove_loop_absent _ _ _ _ _ _ ts); [done|done|unfold ring_fuel; lia]. }
    rewrite (bind_step _ _ _ _ _ (on_kern_read _ w _ E)), (upd_obj_Done w eg g _ Hg).
    exists (kern w), (set_eg_blocked (eg_blocked_tasks g) g), ts. by split.
Qed.

(** What happens while the caller sleeps: a tick passes, the waiting tasks stay a null-terminated list, and the caller is
    dispatched again, in state RUNNING (the context switch sets it). *)
Definition resumes (pend : EM unit) (eg self n : Z) : Prop := forall w, running_task self n (kern w) -> listed eg w ->
  exists w', pend w = Done (tt, w') /\ running_task self n (kern w') /\ listed eg w' /\ now w' = now w +32 1 /\
    t_state <$> tcbs (kern w') !! self = Some TASK_RUNNING.

Lemma listed_next eg (w : EW) k : listed eg w -> (forall t, t_block_next <$> tcbs k !! t = t_block_next <$> tcbs (kern w) !! t) -> listed eg (set_kern k w).
Proof.
  intros (g & ts & Hg & Hw) Hk. exists g, ts. split; [done|]. cbn. eapply waiters_frame; [|exact Hw]. intros t c _ Hc.
  pose proof (Hk t) as E. rewrite Hc in E. destruct (tcbs k !! t) as [c'|]; [|done]. exists c'. split; [done|]. by injection E.
Qed.

Section wait_proof.
Context (pend : EM unit) (eg self n start timeout : Z).
Hypothesis Hpend : resumes pend eg self n.
Hypothesis Hn : 0 <= n /\ n + 1 < UINT32_MAX.

Lemma sleep_once (w : EW) :
  running_task self n (kern w) -> listed eg w ->
  exists w', (on_kern (task_delay 1);; pend) w = Done (tt, w') /\ running_task self n (kern w') /\ listed eg w' /\ now w' = now w +32 1 /\
    t_state <$> tcbs (kern w') !! self = Some TASK_RUNNING.
Proof.
  intros Hr Hl. destruct (delay_running self n (kern w) Hr) as (k & E & Hr1 & Ht & _ & Hbn).
  destruct (Hpend (set_kern k w) Hr1 (listed_next eg w k Hl Hbn)) as (w' & E2 & H2 & H3 & H4 & H5). exists w'.
  rewrite (bind_step _ _ _ _ _ (on_kern_Done _ w _ _ E)). split; [done|]. split; [done|]. split; [done|]. split; [|done].
  rewrite H4. unfold now. cbn. by rewrite Ht.
Qed.

Lemma event_wait_times_out fuel j (w : EW) :
  running_task self n (kern w) -> listed eg w -> now w = start +32 j -> 0 <= j < timeout -> timeout < UINT32_MAX -> (Z.to_nat (timeout - j) <= fuel)%nat ->
  exists w' g ts, event_wait_loop pend fuel eg timeout start w = Done (0, w') /\ running_task self n (kern w') /\ now w' = start +32 timeout /\
    objs w' !! eg = Some g /\ waiters (tcbs (kern w')) (eg_blocked_tasks g) ts /\ self ∉ ts.
Proof.
  revert j w. induction fuel as [|fuel IH]; intros j w Hr Hl Hnow Hj Hto Hf; [lia|].
  destruct (sleep_once w Hr Hl) as (w1 & E1 & Hr1 & Hl1 & Hn1 & Hst). rewrite Hnow, tick_add in Hn1. cbn [event_wait_loop].
  apply bind_Done in E1 as ([] & w0 & E0 & E1). rewrite (bind_step _ _ _ _ _ E0), (bind_step _ _ _ _ _ E1), (bind_step _ _ w1 (now w1) w1) by (by destruct w1).
  rewrite (proj2 (Z.ltb_lt timeout UINT32_MAX)) by lia. rewrite Hn1, elapsed_of by (unfold UINT32_MAX in *; lia). cbn [andb].
  destruct (Z.leb_spec timeout (j + 1)) as [Hle|Hgt].
  - destruct (enter_running _ _ _ Hr1 ltac:(lia)) as [E2 Hr2]. rewrite (bind_step _ _ _ _ _ (on_kern_Done _ w1 _ _ E2)).
    assert (listed eg (set_kern (set_critical_nesting (n + 1) (kern w1)) w1)) as Hl2 by by apply listed_next.
    destruct (event_leave_Done eg self (n + 1) (set_kern (set_critical_nesting (n + 1) (kern w1)) w1) Hr2 Hl2) as (k & g & ts & E3 & Hr3 & Ht3 & Hw3 & Hs3).
    rewrite (bind_step _ _ _ _ _ E3). destruct (exit_running self n k Hr3 ltac:(lia)) as [E4 Hr4].
    match type of E3 with _ = Done (_, ?x) => rewrite (bind_step _ _ _ _ _ (on_kern_Done _ x _ _ E4)) end.
    eexists _, g, ts. split; [reflexivity|]. cbn [kern set_kern objs]. split; [done|]. split.
    + unfold now in *. cbn in *. rewrite Ht3, Hn1. f_equal. lia.
    + rewrite lookup_insert_eq. split; [done|]. split; [done|]. done.
  - pose proof Hr1 as (Ec & _). rewrite (bind_step _ _ _ _ _ (on_kern_read task_get_current w1 (current_task (kern w1)) eq_refl)), Ec.
    destruct (tcbs (kern w1) !! self) as [c|] eqn:Hc; [|done]. rewrite (bind_step _ _ _ _ _ (on_kern_read _ w1 c (tcb_Done _ _ _ Hc))).
    injection Hst as Hst. rewrite bool_decide_eq_false_2 by (by rewrite Hst). apply (IH (j + 1)); try done; lia.
Qed.
End wait_proof.

(** A wait whose condition already holds returns the word at once and, if asked, clears the awaited bits, the same
    ones for all three wait types.  A wait that has to sleep is a timeout: as long as the scheduler dispatches the caller in state
    RUNNING, the loop's test for READY never succeeds, so after exactly [timeout] ticks the call returns 0, off the list, whatever
    bits were set meanwhile. *)
Theorem wait_bits_correct (pend : EM unit) (w : EW) fuel info eg g b type timeout clear self n :
  eg <> NULL -> 0 < b < 4294967296 -> objs w !! eg = Some g -> 0 <= eg_bits g < 4294967296 -> glob w !! info = None ->
  0 <= n /\ n + 1 < UINT32_MAX -> running_task self n (kern w) ->
  (event_condition_met (eg_bits g) b type = true ->
     event_group_wait_bits pend fuel info eg b type timeout clear w =
       Done (eg_bits g, set_objs (<[eg := if clear then set_eg_bits (Z.ldiff (eg_bits g) b) g else g]> (objs w)) w)) /\
  (event_condition_met (eg_bits g) b type = false -> resumes pend eg self n ->
     (exists ts, waiters (tcbs (kern w)) (eg_blocked_tasks g) ts /\ self ∉ ts) -> 0 <= now w < 4294967296 ->
     0 < timeout < UINT32_MAX -> (Z.to_nat timeout <= fuel)%nat ->
     exists w' g' ts', event_group_wait_bits pend fuel info eg b type timeout clear w = Done (0, w') /\ running_task self n (kern w') /\
       now w' = now w +32 timeout /\ objs w' !! eg = Some g' /\ waiters (tcbs (kern w')) (eg_blocked_tasks g') ts' /\ self ∉ ts').
Proof.
  intros Heg Hb Hg Hbits Hinfo Hn Hr.
  destruct (enter_running _ _ _ Hr ltac:(lia)) as [E1 Hr1]. set (w0 := set_glob (<[info := WaitInfo b type clear]> (glob w)) w).
  assert (forall A (f : Z -> EM A), (start ← on_kern task_get_tick_count; f start) w0 = f (now w) w0) as Etick.
  { intros A f. by rewrite (bind_step _ _ w0 (now w) w0) by (by destruct w). }
  unfold event_group_wait_bits. rewrite (proj2 (Z.eqb_neq eg NULL) Heg), (proj2 (Z.eqb_neq b 0)) by lia. cbn [orb].
  rewrite bind_modify. fold w0. rewrite Etick, (bind_step _ _ _ _ _ (on_kern_Done _ w0 _ _ E1)). set (w1 := set_kern _ w0).
  rewrite (bind_step _ _ _ _ _ (obj_Done w1 eg g Hg)). split.
  - intros Hc. rewrite Hc. destruct (exit_running self n (kern w1) Hr1 ltac:(lia)) as [E2 Hr2].
    assert (set_critical_nesting n (kern w1) = kern w) as Ek.
    { unfold w1. cbn. destruct Hr as (_ & En & _). rewrite <- En. by destruct (kern w). }
    rewrite (bind_step _ _ _ (eg_bits g) (set_objs (<[eg := if clear then set_eg_bits (Z.ldiff (eg_bits g) b) g else g]> (objs w)) w0)).
    + rewrite bind_modify. unfold w0. cbn. rewrite delete_insert_id by done. by destruct w.
    + destruct clear; cbn [when].
      * rewrite (bind_step _ _ _ _ _ (upd_obj_Done w1 eg g _ Hg)), clear_waited_bits by lia.
        set (v := set_objs _ w1).
        assert (on_kern task_exit_critical v = Done (tt, set_kern (set_critical_nesting n (kern w1)) v)) as E3 by (apply on_kern_Done; exact E2).
        rewrite (bind_step _ _ _ _ _ E3), Ek. unfold v, w1, w0. by destruct w.
      * rewrite bind_ret, (bind_step _ _ _ _ _ (on_kern_Done _ w1 _ _ E2)), Ek. unfold w1, w0. rewrite (insert_id (objs w) eg g Hg). by destruct w.
  - intros Hc Hpend (ts & Hw & Hs) Htick Hto Hf. rewrite Hc. destruct (running_some _ _ _ Hr) as [Hs0 Hsome]. pose proof Hr as (Ecur & _).
    assert (exists w2, (self ← on_kern task_get_current; h ← on_kern (block_task info (eg_blocked_tasks g) self); upd_obj eg (set_eg_blocked h);; on_kern task_exit_critical) w1 = Done (tt, w2) /\
      running_task self n (kern w2) /\ listed eg w2 /\ now w2 = now w) as (w2 & E2 & Hr2 & Hl2 & Hn2).
    { rewrite (bind_step _ _ _ _ _ (on_kern_read task_get_current w1 (current_task (kern w1)) eq_refl)). cbn [w1 kern set_kern set_critical_nesting current_task]. rewrite Ecur.
      rewrite (bind_step _ _ _ _ _ (on_kern_Done _ w1 _ _ (block_task_Done (kern w1) info (eg_blocked_tasks g) self Hsome))).
      set (k1 := set_tcbs _ (kern w1)). rewrite (bind_step _ _ _ _ _ (upd_obj_Done (set_kern k1 w1) eg g _ Hg)).
      assert (running_task self (n + 1) k1) as Hk1 by (by apply running_alter).
      destruct (exit_running self n k1 Hk1 ltac:(lia)) as [E3 Hr3].
      set (v := set_objs _ (set_kern k1 w1)).
      assert (on_kern task_exit_critical v = Done (tt, set_kern (set_critical_nesting n k1) v)) as E4 by (apply on_kern_Done; exact E3).
      rewrite E4. eexists. split; [reflexivity|]. split; [done|]. split; [|done].
      exists (set_eg_blocked self g), (self :: ts). cbn. split; [apply lookup_insert_eq|]. by apply block_waiters. }
    apply bind_Done in E2 as (s & v1 & E3 & E2). apply bind_Done in E2 as (h & v2 & E4 & E2). apply bind_Done in E2 as ([] & v3 & E5 & E6).
    destruct (event_wait_times_out pend eg self n (now w) timeout Hpend Hn fuel 0 w2 Hr2 Hl2) as (w3 & g3 & ts3 & E7 & Hr3 & Hn3 & Hg3 & Hw3 & Hs3);
      [by rewrite Hn2, Z.add_0_r, u32_small|lia|lia|by rewrite Z.sub_0_r|].
    rewrite (bind_step _ _ _ 0 w3).
    + rewrite bind_modify. eexists _, g3, ts3. split; [reflexivity|]. done.
    + rewrite (bind_step _ _ _ _ _ E3), (bind_step _ _ _ _ _ E4), (bind_step _ _ _ _ _ E5), (bind_step _ _ _ _ _ E6). done.
Qed.

Lemma resume_pend_resumes eg self n : resumes (resume_pend self) eg self n.
Proof.
  intros w Hr Hl. eexists. split; [reflexivity|]. destruct (running_some _ _ _ Hr) as [_ [c Hc]]. split; [|split; [|split; [done|]]].
  - apply running_tick. by apply running_alter.
  - apply (listed_next eg w); [done|]. intros t. cbn. destruct (decide (t = self)) as [->|Hne]; [by rewrite lookup_alter_eq, Hc|by rewrite lookup_alter_ne].
  - cbn. by rewrite lookup_alter_eq, Hc.
Qed.

Lemma wait_bits_correct_witness :
  exists w', event_group_wait_bits (resume_pend 4752) 3 700 9500 4 EVENT_WAIT_OR_ANY 3 true (Sync demo_rr {[ 9500 := EventGroup 3 NULL [] ]} ∅) = Done (0, w').
Proof.
  destruct (wait_bits_correct (resume_pend 4752) (Sync demo_rr {[ 9500 := EventGroup 3 NULL [] ]} ∅) 3 700 9500 (EventGroup 3 NULL []) 4 EVENT_WAIT_OR_ANY 3 true 4752 0) as [_ H].
  - discriminate.
  - lia.
  - reflexivity.
  - vm_compute. split; [discriminate|reflexivity].
  - reflexivity.
  - unfold UINT32_MAX. lia.
  - exact demo_running.
  - destruct H as (w' & _ & _ & E & _).
    + reflexivity.
    + apply resume_pend_resumes.
    + exists []. split; [reflexivity|]. apply not_elem_of_nil.
    + vm_compute. split; [discriminate|reflexivity].
    + unfold UINT32_MAX. lia.
    + apply Nat.le_refl.
    + exists w'. exact E.
Defined.
