(* ===== verification/Queue.v ===== *)
(** * Message queues (mini-rtos/src/ipc_queue.c)

    A queue is a circular buffer of [max_items] items of [item_size] bytes in the kernel's heap, with
    the tasks that wait to send and to receive; the queues of the registry are linked through [next], and a
    queue set holds an array of queue pointers.  A buffer argument is [None] for NULL and the list of its bytes otherwise. *)
From S2P Require Import Prelude MemoryHeap Scheduler SchedulerSpec WaitList.

Record queue_t := Queue {
  q_buffer : Z; item_size : Z; max_items : Z; q_head : Z; q_tail : Z; q_count : Z;
  blocked_senders : Z; blocked_receivers : Z; isr_safe : Z; q_name : list Z; q_next : Z }.
Record queue_set_t := QueueSet { qs_queues : Z; max_queues : Z; qs_count : Z; observer : Z }.
Definition sizeof_queue : Z := 80.
Definition sizeof_queue_set : Z := 24.
Definition sizeof_pointer : nat := 8.

(** The statics of the file, and the queue sets by address. *)
Record statics := Statics { registry_head : Z; registry_count : Z; queue_sets : gmap Z queue_set_t }.

Section setters.
Context (q : queue_t).
Definition set_ring (h t c : Z) : queue_t :=
  Queue (q_buffer q) (item_size q) (max_items q) h t c (blocked_senders q) (blocked_receivers q) (isr_safe q) (q_name q) (q_next q).
Definition set_waiting (is_sender : bool) (x : Z) : queue_t :=
  Queue (q_buffer q) (item_size q) (max_items q) (q_head q) (q_tail q) (q_count q)
    (if is_sender then x else blocked_senders q) (if is_sender then blocked_receivers q else x) (isr_safe q) (q_name q) (q_next q).
Definition set_q_next (x : Z) : queue_t :=
  Queue (q_buffer q) (item_size q) (max_items q) (q_head q) (q_tail q) (q_count q) (blocked_senders q) (blocked_receivers q) (isr_safe q) (q_name q) x.
End setters.
Definition waiting (is_sender : bool) (q : queue_t) : Z := if is_sender then blocked_senders q else blocked_receivers q.

Notation QM := (M (sync queue_t statics)).

(** ** Bytes of the heap *)

Fixpoint write_bytes (a : Z) (l : list Z) (m : gmap Z Z) : gmap Z Z :=
  match l with [] => m | b :: l => <[a := b]> (write_bytes (a + 1) l m) end.

(** [memcpy] to the heap from a buffer, and from the heap: reading an unwritten byte is undefined. *)
Definition store_bytes (a : Z) (l : list Z) : M heap_t unit := fun h =>
  if in_heap h a (Z.of_nat (length l))
  then Done (tt, set_memory (clobber a (Z.of_nat (length l)) (headers h)) (write_bytes a l (bytes h)) h)
  else UB.
Definition load_bytes (a n : Z) : M heap_t (list Z) := fun h =>
  match mapM (fun x => bytes h !! x) (seqZ a n) with Some l => Done (l, h) | None => UB end.

(** ** Waiting tasks *)

Definition block_task_on_queue (q task : Z) (is_sender : bool) : QM unit :=
  x ← obj q;
  h ← on_kern (block_task q (waiting is_sender x) task);
  upd_obj q (fun x => set_waiting x is_sender h).

Definition unblock_task_from_queue (q : Z) (is_sender : bool) : QM unit :=
  x ← obj q;
  h ← on_kern (unblock_task (waiting is_sender x));
  upd_obj q (fun x => set_waiting x is_sender h).

Definition queue_leave (is_sender : bool) (q : Z) : QM unit :=
  self ← on_kern task_get_current;
  x ← obj q;
  h ← on_kern (remove_waiter false self (waiting is_sender x));
  upd_obj q (fun x => set_waiting x is_sender h).

(** ** The ring *)

Definition queue_is_full (q : queue_t) : bool := max_items q <=? q_count q.
Definition queue_is_empty (q : queue_t) : bool := q_count q =? 0.

Definition queue_copy_in (q : Z) (data : list Z) : QM unit :=
  x ← obj q;
  if Z.of_nat (length data) <? item_size x then undefined
  else
    on_kern (on_heap (store_bytes (q_buffer x + q_head x *32 item_size x) (take (Z.to_nat (item_size x)) data)));;
    if max_items x =? 0 then undefined
    else upd_obj q (fun x => set_ring x ((q_head x +32 1) mod max_items x) (q_tail x) (q_count x +32 1)).

Definition queue_copy_out (q : Z) : QM (list Z) :=
  x ← obj q;
  l ← on_kern (on_heap (load_bytes (q_buffer x + q_tail x *32 item_size x) (item_size x)));
  if max_items x =? 0 then undefined
  else
    upd_obj q (fun x => set_ring x (q_head x) ((q_tail x +32 1) mod max_items x) (q_count x -32 1));;
    mret l.

Definition queue_create (item_size max_items : Z) (name : option (list Z)) : QM Z :=
  if (item_size =? 0) || (max_items =? 0) then mret NULL
  else
    q ← on_kern (on_heap (malloc_rtos sizeof_queue));
    if q =? NULL then mret NULL
    else
      on_kern (on_heap (memset q 0 sizeof_queue));;
      buffer ← on_kern (on_heap (malloc_rtos (item_size *32 max_items)));
      if buffer =? NULL then on_kern (on_heap (free_rtos q));; mret NULL
      else
        put_obj q (Queue buffer item_size max_items 0 0 0 NULL NULL 1 (object_name name) NULL);;
        mret q.

(** ** Registry *)

Definition upd_statics (f : statics -> statics) : QM unit := modify (fun w => set_glob (f (glob w)) w).

Definition queue_registry_add (q : Z) : QM unit :=
  if q =? NULL then mret tt
  else
    on_kern task_enter_critical;;
    head ← gets (fun w => registry_head (glob w));
    upd_obj q (fun x => set_q_next x head);;
    upd_statics (fun s => Statics q (registry_count s +32 1) (queue_sets s));;
    on_kern task_exit_critical.

(** [while (prev->next && prev->next != q) prev = prev->next]. *)
Fixpoint registry_scan (fuel : nat) (q prev : Z) : QM Z :=
  match fuel with
  | O => nofuel
  | S fuel =>
      x ← obj prev;
      if (q_next x =? NULL) || (q_next x =? q) then mret prev else registry_scan fuel q (q_next x)
  end.

Definition queue_registry_remove (fuel : nat) (q : Z) : QM unit :=
  head ← gets (fun w => registry_head (glob w));
  if (q =? NULL) || (head =? NULL) then mret tt
  else
    on_kern task_enter_critical;;
    (if head =? q then
       x ← obj q;
       upd_statics (fun s => Statics (q_next x) (registry_count s) (queue_sets s))
     else
       prev ← registry_scan fuel q head;
       p ← obj prev;
       if q_next p =? q then x ← obj q; upd_obj prev (fun p => set_q_next p (q_next x)) else mret tt);;
    upd_statics (fun s => Statics (registry_head s) (registry_count s -32 1) (queue_sets s));;
    on_kern task_exit_critical.

Definition queue_registry_count : QM Z := gets (fun w => registry_count (glob w)).

Definition queue_delete (fuel : nat) (q : Z) : QM unit :=
  if q =? NULL then mret tt
  else
    on_kern task_enter_critical;;
    x ← obj q;
    on_kern (ready_loop fuel (blocked_senders x));;
    on_kern (ready_loop fuel (blocked_receivers x));;
    queue_registry_remove fuel q;;
    on_kern task_exit_critical;;
    on_kern (on_heap (free_rtos (q_buffer x)));;
    on_kern (on_heap (free_rtos q));;
    drop_obj q.

(** ** Sending and receiving *)

Section blocking_calls.
Context (pend : QM unit) (fuel : nat).

Definition queue_wait (full : bool) (q timeout_ticks start : Z) : QM (option Z) :=
  wait_loop pend (x ← obj q; mret (if full then queue_is_full x else queue_is_empty x))
    (self ← on_kern task_get_current; block_task_on_queue q self full) (mret tt) (queue_leave full q) timeout_ticks start fuel.

Definition queue_send (q : Z) (data : option (list Z)) (timeout_ticks : Z) : QM Z :=
  start ← on_kern task_get_tick_count;
  match data with
  | None => mret (-1)
  | Some data =>
      if q =? NULL then mret (-1)
      else
        on_kern task_enter_critical;;
        r ← queue_wait true q timeout_ticks start;
        match r with
        | Some r => mret r
        | None =>
            queue_copy_in q data;;
            x ← obj q;
            when (truthy (blocked_receivers x)) (unblock_task_from_queue q false);;
            on_kern task_exit_critical;;
            mret 1
        end
  end.

(** [buffer] says whether the destination is not null; the bytes copied to it come with the result. *)
Definition queue_receive (q : Z) (buffer : bool) (timeout_ticks : Z) : QM (Z * option (list Z)) :=
  start ← on_kern task_get_tick_count;
  if (q =? NULL) || negb buffer then mret (-1, None)
  else
    on_kern task_enter_critical;;
    r ← queue_wait false q timeout_ticks start;
    match r with
    | Some r => mret (r, None)
    | None =>
        l ← queue_copy_out q;
        x ← obj q;
        when (truthy (blocked_senders x)) (unblock_task_from_queue q true);;
        on_kern task_exit_critical;;
        mret (1, Some l)
    end.

Definition queue_send_priority (q : Z) (data : option (list Z)) (priority timeout_ticks : Z) : QM Z := queue_send q data timeout_ticks.
End blocking_calls.

(** The last result: [*woken] was set to 1 (for a non-null [woken]). *)
Definition queue_send_from_isr (q : Z) (data : option (list Z)) : QM (Z * bool) :=
  match data with
  | None => mret (-1, false)
  | Some data =>
      if q =? NULL then mret (-1, false)
      else
        x ← obj q;
        if queue_is_full x then mret (0, false)
        else
          queue_copy_in q data;;
          x ← obj q;
          when (truthy (blocked_receivers x)) (unblock_task_from_queue q false);;
          mret (1, truthy (blocked_receivers x))
  end.

Definition queue_receive_from_isr (q : Z) (buffer : bool) : QM (Z * option (list Z) * bool) :=
  if (q =? NULL) || negb buffer then mret (-1, None, false)
  else
    x ← obj q;
    if queue_is_empty x then mret (0, None, false)
    else
      l ← queue_copy_out q;
      x ← obj q;
      when (truthy (blocked_senders x)) (unblock_task_from_queue q true);;
      mret (1, Some l, truthy (blocked_senders x)).

Definition queue_messages_waiting (q : Z) : QM Z := if q =? NULL then mret 0 else x ← obj q; mret (q_count x).
Definition queue_spaces_available (q : Z) : QM Z := if q =? NULL then mret 0 else x ← obj q; mret (max_items x -32 q_count x).

Definition queue_reset (q : Z) : QM unit :=
  if q =? NULL then mret tt
  else
    on_kern task_enter_critical;;
    upd_obj q (fun x => set_ring x 0 0 0);;
    on_kern task_exit_critical.

Definition queue_peek (q : Z) (buffer : bool) : QM (Z * option (list Z)) :=
  if (q =? NULL) || negb buffer then mret (-1, None)
  else
    on_kern task_enter_critical;;
    x ← obj q;
    if queue_is_empty x then on_kern task_exit_critical;; mret (0, None)
    else
      l ← on_kern (on_heap (load_bytes (q_buffer x + q_tail x *32 item_size x) (item_size x)));
      on_kern task_exit_critical;;
      mret (1, Some l).

Definition queue_flush (q : Z) : QM Z :=
  if q =? NULL then mret 0
  else
    on_kern task_enter_critical;;
    x ← obj q;
    upd_obj q (fun x => set_ring x 0 0 0);;
    on_kern (ready_all (blocked_receivers x));;
    upd_obj q (fun x => set_waiting x false NULL);;
    on_kern task_exit_critical;;
    mret (q_count x).

(** ** Queue sets *)

Definition queue_set (s : Z) : QM queue_set_t := fun w =>
  match queue_sets (glob w) !! s with Some x => Done (x, w) | None => UB end.
Definition put_queue_set (s : Z) (x : queue_set_t) : QM unit :=
  upd_statics (fun st => Statics (registry_head st) (registry_count st) (<[s := x]> (queue_sets st))).

Definition queue_set_create (max_queues : Z) : QM Z :=
  if max_queues =? 0 then mret NULL
  else
    s ← on_kern (on_heap (malloc_rtos sizeof_queue_set));
    if s =? NULL then mret NULL
    else
      queues ← on_kern (on_heap (malloc_rtos (u64 (8 * max_queues))));
      if queues =? NULL then on_kern (on_heap (free_rtos s));; mret NULL
      else put_queue_set s (QueueSet queues max_queues 0 NULL);; mret s.

(** [s->queues[i]] in the array of pointers. *)
Definition load_queue (x : queue_set_t) (i : Z) : QM Z :=
  l ← on_kern (on_heap (load_bytes (qs_queues x + 8 * i) 8)); mret (le_val l).
Definition store_queue (x : queue_set_t) (i q : Z) : QM unit :=
  on_kern (on_heap (store_bytes (qs_queues x + 8 * i) (le_bytes sizeof_pointer q))).

Definition queue_set_add (s q : Z) : QM unit :=
  if (s =? NULL) || (q =? NULL) then mret tt
  else
    x ← queue_set s;
    if max_queues x <=? qs_count x then mret tt
    else
      on_kern task_enter_critical;;
      put_queue_set s (QueueSet (qs_queues x) (max_queues x) (qs_count x +32 1) (observer x));;
      store_queue x (qs_count x) q;;
      on_kern task_exit_critical.

Fixpoint set_remove_loop (n : nat) (i : Z) (s q : Z) : QM unit :=
  match n with
  | O => mret tt
  | S n =>
      x ← queue_set s;
      qi ← load_queue x i;
      if qi =? q then
        put_queue_set s (QueueSet (qs_queues x) (max_queues x) (qs_count x -32 1) (observer x));;
        last ← load_queue x (qs_count x -32 1);
        store_queue x i last
      else set_remove_loop n (i + 1) s q
  end.

Definition queue_set_remove (s q : Z) : QM unit :=
  if (s =? NULL) || (q =? NULL) then mret tt
  else
    on_kern task_enter_critical;;
    x ← queue_set s;
    set_remove_loop (Z.to_nat (qs_count x)) 0 s q;;
    on_kern task_exit_critical.

Fixpoint set_select_loop (n : nat) (i : Z) (x : queue_set_t) : QM Z :=
  match n with
  | O => mret NULL
  | S n =>
      q ← load_queue x i;
      if q =? NULL then set_select_loop n (i + 1) x
      else
        c ← obj q;
        if negb (queue_is_empty c) then mret q else set_select_loop n (i + 1) x
  end.

Definition queue_set_select (s timeout_ticks : Z) : QM Z :=
  if s =? NULL then mret NULL else x ← queue_set s; set_select_loop (Z.to_nat (qs_count x)) 0 x.

(** ** Bytes *)

Definition bytes_at (m : gmap Z Z) (a : Z) (l : list Z) : Prop := forall j b, l !! j = Some b -> m !! (a + Z.of_nat j) = Some b.

Lemma lookup_write_bytes a l m k :
  write_bytes a l m !! k = if decide (a <= k < a + Z.of_nat (length l)) then l !! Z.to_nat (k - a) else m !! k.
Proof.
  revert a. induction l as [|b l IH]; intros a; cbn [write_bytes length].
  - by rewrite decide_False by lia.
  - destruct (decide (k = a)) as [->|Hk].
    + rewrite lookup_insert_eq, decide_True by lia. by rewrite Z.sub_diag.
    + rewrite lookup_insert_ne, IH by done. destruct (decide (a + 1 <= k < a + 1 + Z.of_nat (length l))).
      * rewrite decide_True by lia. replace (Z.to_nat (k - a)) with (S (Z.to_nat (k - (a + 1)))) by lia. done.
      * by rewrite decide_False by lia.
Qed.

Lemma stored_bytes_at a l m : bytes_at (write_bytes a l m) a l.
Proof.
  intros j b Hj. pose proof (lookup_lt_Some _ _ _ Hj). rewrite lookup_write_bytes, decide_True by lia.
  by replace (Z.to_nat (a + Z.of_nat j - a)) with j by lia.
Qed.

Lemma bytes_at_frame m a l c n l' :
  bytes_at m a l -> length l' = n -> a + Z.of_nat (length l) <= c \/ c + Z.of_nat n <= a -> bytes_at (write_bytes c l' m) a l.
Proof.
  intros Hb <- Hd j b Hj. pose proof (lookup_lt_Some _ _ _ Hj). rewrite lookup_write_bytes, decide_False by lia. by apply Hb.
Qed.

Lemma load_bytes_Done h a n l : bytes_at (bytes h) a l -> Z.of_nat (length l) = n -> load_bytes a n h = Done (l, h).
Proof.
  intros Hb Hn. unfold load_bytes. assert (mapM (fun x => bytes h !! x) (seqZ a n) = Some l) as ->; [|done].
  apply mapM_Some. apply Forall2_same_length_lookup. rewrite length_seqZ. split; [lia|]. intros i x y Hx Hy.
  apply lookup_seqZ in Hx as [-> _]. by apply Hb.
Qed.

Lemma store_bytes_owned h ab p n c l :
  heap_inv h ab -> owned h p n -> p <= c -> c + Z.of_nat (length l) <= p + n ->
  exists h', store_bytes c l h = Done (tt, h') /\ same_blocks h h' ab /\ bytes h' = write_bytes c l (bytes h).
Proof.
  intros Hi Ho H1 H2. destruct (owned_in_use _ _ _ _ (proj1 Hi) Ho) as (sz & Hu & Hn). unfold BLOCK_HEADER_SIZE in *.
  unfold store_bytes. rewrite (in_use_range _ _ _ _ _ _ (proj1 Hi) Hu) by lia. eexists. split; [done|]. split; [|done].
  eapply payload_same_blocks; [done|exact Hu|unfold BLOCK_HEADER_SIZE; lia|lia].
Qed.

(** ** The ring and its contents *)

(** The [i]-th item from the tail lies in slot ([tail] + [i]) mod [max_items] of the buffer. *)
Record ring_wf (h : heap_t) (x : queue_t) (items : list (list Z)) : Prop := RingWf {
  rw_sizes : 0 < item_size x /\ 0 < max_items x /\ item_size x * max_items x < 4294967296;
  rw_tail : 0 <= q_tail x < max_items x;
  rw_count : q_count x = Z.of_nat (length items) /\ q_count x <= max_items x;
  rw_head : q_head x = (q_tail x + q_count x) mod max_items x;
  rw_owned : owned h (q_buffer x) (item_size x * max_items x);
  rw_lengths : Forall (fun it => Z.of_nat (length it) = item_size x) items;
  rw_items : forall i it, items !! i = Some it ->
    bytes_at (bytes h) (q_buffer x + ((q_tail x + Z.of_nat i) mod max_items x) * item_size x) it }.

Lemma slot_bound s max size : 0 <= s < max -> 0 < size -> size * max < 4294967296 -> 0 <= s * size /\ s * size + size <= size * max /\ s *32 size = s * size.
Proof. intros Hs Hz Hm. assert (0 <= s * size /\ s * size + size <= size * max) as [H1 H2] by nia. split; [done|]. split; [done|]. apply u32_small. nia. Qed.

Lemma slots_apart s t size : 0 < size -> s <> t -> s * size + size <= t * size \/ t * size + size <= s * size.
Proof. intros. destruct (Z.lt_ge_cases s t); [left|right]; nia. Qed.

Lemma mod_apart t i c max : 0 <= i < c -> c < max -> (t + i) mod max <> (t + c) mod max.
Proof.
  intros Hi Hc E. assert (0 < max) as Hm by lia. pose proof (Z.mod_pos_bound (t + i) max Hm). pose proof (Z.mod_pos_bound (t + c) max Hm).
  pose proof (Z.div_mod (t + i) max ltac:(lia)). pose proof (Z.div_mod (t + c) max ltac:(lia)).
  generalize dependent ((t + i) mod max). generalize dependent ((t + c) mod max). generalize ((t + c) / max) ((t + i) / max).
  intros a b r1 Hr1 E1 r2 E Hr2 E2. subst r2. assert (max * (a - b) = c - i) as Hd by (rewrite Z.mul_sub_distr_l; lia). destruct (Z.le_gt_cases (a - b) 0); nia.
Qed.

Definition pushed (x : queue_t) : queue_t := set_ring x ((q_head x +32 1) mod max_items x) (q_tail x) (q_count x +32 1).
Definition popped (x : queue_t) : queue_t := set_ring x (q_head x) ((q_tail x +32 1) mod max_items x) (q_count x -32 1).

Lemma max_bound h x items : ring_wf h x items -> max_items x < 4294967296.
Proof. intros [(? & ? & ?) _ _ _ _ _ _]. nia. Qed.

Lemma push_wf h h' ab x items data :
  heap_inv h ab -> same_blocks h h' ab -> ring_wf h x items -> q_count x < max_items x -> Z.of_nat (length data) = item_size x ->
  bytes h' = write_bytes (q_buffer x + q_head x * item_size x) data (bytes h) ->
  ring_wf h' (pushed x) (items ++ [data]).
Proof.
  intros Hi Hsb Hr Hroom Hl Hb. pose proof (max_bound _ _ _ Hr) as Hm. destruct Hr as [(H1 & H2 & H3) Ht [Hc Hc2] Hh Ho Hls Hit].
  constructor; cbn [pushed set_ring item_size max_items q_tail q_count q_head q_buffer].
  - done.
  - done.
  - rewrite u32_small by lia. rewrite length_app. cbn. lia.
  - rewrite !u32_small by (try lia; rewrite Hh; pose proof (Z.mod_pos_bound (q_tail x + q_count x) (max_items x) H2); lia).
    rewrite Hh, Zplus_mod_idemp_l. f_equal. lia.
  - eapply same_blocks_owned; [apply Hi|done|done].
  - apply Forall_app. split; [done|]. by constructor.
  - intros i it Hit'. rewrite Hb. apply lookup_app_Some in Hit' as [Hit'|[Hge Hit']].
    + pose proof (lookup_lt_Some _ _ _ Hit'). eapply bytes_at_frame; [by apply Hit|reflexivity|].
      rewrite Forall_lookup in Hls. pose proof (Hls _ _ Hit') as Hlen. rewrite Hlen, Hl, Hh.
      destruct (slots_apart ((q_tail x + Z.of_nat i) mod max_items x) ((q_tail x + q_count x) mod max_items x) (item_size x) H1) as [Ha|Ha];
        [apply mod_apart; lia|left|right]; lia.
    + apply list_lookup_singleton_Some in Hit' as [Hi0 <-]. replace (Z.of_nat i) with (q_count x) by lia. rewrite <- Hh. apply stored_bytes_at.
Qed.

Lemma pop_wf h x it items : ring_wf h x (it :: items) -> ring_wf h (popped x) items.
Proof.
  intros Hr. pose proof (max_bound _ _ _ Hr) as Hm. destruct Hr as [(H1 & H2 & H3) Ht [Hc Hc2] Hh Ho Hls Hit]. cbn [length] in Hc.
  assert (u32 (q_tail x + 1) = q_tail x + 1) as E by (apply u32_small; lia).
  constructor; cbn [popped set_ring item_size max_items q_tail q_count q_head q_buffer]; rewrite ?E.
  - done.
  - apply Z.mod_pos_bound. lia.
  - rewrite u32_small by lia. lia.
  - rewrite u32_small by lia. rewrite Zplus_mod_idemp_l, Hh. f_equal. lia.
  - done.
  - by apply Forall_cons in Hls as [_ ?].
  - intros i it' Hit'. rewrite Zplus_mod_idemp_l. replace (q_tail x + 1 + Z.of_nat i) with (q_tail x + Z.of_nat (S i)) by lia. by apply Hit.
Qed.

Lemma ring_frame h h' ab x x' items :
  heap_inv h ab -> same_blocks h h' ab -> bytes h' = bytes h -> ring_wf h x items ->
  (q_buffer x', item_size x', max_items x', q_head x', q_tail x', q_count x') = (q_buffer x, item_size x, max_items x, q_head x, q_tail x, q_count x) ->
  ring_wf h' x' items.
Proof.
  intros Hi Hs Hb [? ? ? ? Ho ? ?] [= E1 E2 E3 E4 E5 E6]. constructor; rewrite ?E1, ?E2, ?E3, ?E4, ?E5, ?E6, ?Hb; try done.
  eapply same_blocks_owned; [apply Hi|done|done].
Qed.

Lemma ring_waiting h x items s y : ring_wf h x items -> ring_wf h (set_waiting x s y) items.
Proof. intros []. by constructor. Qed.

Lemma empty_wf h x items : ring_wf h x items -> ring_wf h (set_ring x 0 0 0) [].
Proof.
  intros [(H1 & H2 & H3) Ht Hc Hh Ho Hls Hit]. constructor; cbn; try done; try lia.
Qed.

Section calls.
Context (p : Z) (Hp : p <> NULL).
Implicit Types (w : sync queue_t statics).

Lemma copy_in_Done w x items ab data :
  objs w !! p = Some x -> heap_inv (heap (kern w)) ab -> ring_wf (heap (kern w)) x items -> q_count x < max_items x ->
  Z.of_nat (length data) = item_size x ->
  exists h', queue_copy_in p data w = Done (tt, Sync (set_heap h' (kern w)) (<[p := pushed x]> (objs w)) (glob w)) /\
    heap_inv h' ab /\ ring_wf h' (pushed x) (items ++ [data]).
Proof.
  intros Hx Hi Hr Hroom Hl. pose proof Hr as [(H1 & H2 & H3) Ht Hc Hh Ho _ _].
  assert (0 <= q_head x < max_items x) as Hhb by (rewrite Hh; apply Z.mod_pos_bound; lia).
  destruct (slot_bound (q_head x) (max_items x) (item_size x) Hhb H1 H3) as (S1 & S2 & S3).
  destruct (store_bytes_owned (heap (kern w)) ab (q_buffer x) (item_size x * max_items x) (q_buffer x + q_head x * item_size x) data Hi Ho) as (h' & E & Hs & Hb); [lia|lia|].
  exists h'. split; [|split; [apply Hs|by eapply push_wf]]. unfold queue_copy_in. rewrite (bind_step _ _ _ _ _ (obj_Done w p x Hx)).
  rewrite (proj2 (Z.ltb_ge _ _)) by lia. rewrite S3, take_ge by lia.
  rewrite (bind_step _ _ _ _ _ (on_kern_Done _ w _ _ (on_heap_Done _ _ _ _ E))), (proj2 (Z.eqb_neq (max_items x) 0)) by lia.
  by rewrite (upd_obj_Done (set_kern (set_heap h' (kern w)) w) p x _ Hx).
Qed.

Lemma front_Done w x it items ab :
  objs w !! p = Some x -> heap_inv (heap (kern w)) ab -> ring_wf (heap (kern w)) x (it :: items) ->
  on_kern (on_heap (load_bytes (q_buffer x + q_tail x *32 item_size x) (item_size x))) w = Done (it, w).
Proof.
  intros Hx Hi [(H1 & H2 & H3) Ht Hc Hh Ho Hls Hit]. destruct (slot_bound (q_tail x) (max_items x) (item_size x) Ht H1 H3) as (S1 & S2 & S3).
  apply on_kern_read. rewrite S3. apply Forall_cons in Hls as [Hlen _].
  rewrite (on_heap_Done _ (kern w) it (heap (kern w))); [by destruct (kern w)|]. apply load_bytes_Done; [|done].
  pose proof (Hit 0%nat it eq_refl) as Hb. by rewrite Z.add_0_r, Z.mod_small in Hb by lia.
Qed.

Lemma copy_out_Done w x it items ab :
  objs w !! p = Some x -> heap_inv (heap (kern w)) ab -> ring_wf (heap (kern w)) x (it :: items) ->
  queue_copy_out p w = Done (it, set_objs (<[p := popped x]> (objs w)) w).
Proof.
  intros Hx Hi Hr. unfold queue_copy_out. rewrite (bind_step _ _ _ _ _ (obj_Done w p x Hx)), (bind_step _ _ _ _ _ (front_Done w x it items ab Hx Hi Hr)).
  rewrite (proj2 (Z.eqb_neq (max_items x) 0)) by (destruct Hr as [(? & ? & ?) _ _ _ _ _ _]; lia).
  by rewrite (bind_step _ _ _ _ _ (upd_obj_Done w p x _ Hx)).
Qed.

(** Waking the newest of the tasks that wait on one side. *)
Lemma wake_Done w x side ts :
  objs w !! p = Some x -> waiters (tcbs (kern w)) (waiting side x) ts ->
  exists m y, (when (truthy (waiting side x)) (unblock_task_from_queue p side)) w = Done (tt, Sync (set_tcbs m (kern w)) (<[p := set_waiting x side y]> (objs w)) (glob w)) /\
    truthy (waiting side x) = negb (bool_decide (ts = [])) /\ waiters m y (tail ts) /\
    m = match ts with [] => tcbs (kern w) | t :: _ => alter woken_tcb t (tcbs (kern w)) end.
Proof.
  intros Hx Hw. destruct ts as [|t ts].
  - cbn in Hw. exists (tcbs (kern w)), NULL. rewrite Hw. cbn. split; [|done]. rewrite insert_id by (rewrite Hx; f_equal; destruct x, side; cbn in *; by subst).
    by destruct w as [[] ? ?].
  - pose proof (waiters_nodup _ _ _ Hw) as [Hnt _]%NoDup_cons. destruct Hw as (Eh & Ht & c & Hc & Hr). exists (alter woken_tcb t (tcbs (kern w))), (t_block_next c).
    unfold truthy. rewrite Eh, (proj2 (Z.eqb_neq t 0) Ht). cbn [negb when tail]. split; [|split; [done|split; [|done]]].
    + unfold unblock_task_from_queue. rewrite (bind_step _ _ _ _ _ (obj_Done w p x Hx)), Eh.
      rewrite (bind_step _ _ _ _ _ (on_kern_Done _ w _ _ (unblock_task_Done (kern w) t c Ht Hc))).
      by rewrite (upd_obj_Done (set_kern _ w) p x _ Hx).
    + eapply waiters_frame; [|exact Hr]. intros z d Hz Hd. rewrite lookup_alter_ne by (by intros <-). eauto.
Qed.
End calls.

(** ** Refinement to a bounded first-in first-out list *)

Inductive queue_call :=
| Send (data : list Z) (timeout : Z) | Receive (timeout : Z) | SendIsr (data : list Z) | ReceiveIsr | Peek | Waiting | Spaces | Reset | Flush.

Definition run_call (pend : QM unit) (fuel : nat) (p : Z) (c : queue_call) : QM (Z * option (list Z)) :=
  match c with
  | Send d t => r ← queue_send pend fuel p (Some d) t; mret (r, None)
  | Receive t => queue_receive pend fuel p true t
  | SendIsr d => r ← queue_send_from_isr p (Some d); mret (fst r, None)
  | ReceiveIsr => r ← queue_receive_from_isr p true; mret (fst r)
  | Peek => queue_peek p true
  | Waiting => r ← queue_messages_waiting p; mret (r, None)
  | Spaces => r ← queue_spaces_available p; mret (r, None)
  | Reset => queue_reset p;; mret (0, None)
  | Flush => r ← queue_flush p; mret (r, None)
  end.

Fixpoint run_calls (pend : QM unit) (fuel : nat) (p : Z) (cs : list queue_call) : QM (list (Z * option (list Z))) :=
  match cs with
  | [] => mret []
  | c :: cs => r ← run_call pend fuel p c; rs ← run_calls pend fuel p cs; mret (r :: rs)
  end.

(** The specification: the contents are a list of at most [cap] items. *)
Definition spec_call (cap : Z) (c : queue_call) (items : list (list Z)) : (Z * option (list Z)) * list (list Z) :=
  let n := Z.of_nat (length items) in
  match c with
  | Send d _ | SendIsr d => if cap <=? n then ((0, None), items) else ((1, None), items ++ [d])
  | Receive _ | ReceiveIsr => match items with [] => ((0, None), []) | it :: items => ((1, Some it), items) end
  | Peek => match items with [] => ((0, None), []) | it :: _ => ((1, Some it), items) end
  | Waiting => ((n, None), items)
  | Spaces => ((cap - n, None), items)
  | Reset => ((0, None), [])
  | Flush => ((n, None), [])
  end.

Fixpoint spec_calls (cap : Z) (cs : list queue_call) (items : list (list Z)) : list (Z * option (list Z)) * list (list Z) :=
  match cs with
  | [] => ([], items)
  | c :: cs => let '(r, items) := spec_call cap c items in let '(rs, items) := spec_calls cap cs items in (r :: rs, items)
  end.

(** Items have the item size; a call that would have to wait is made with timeout 0. *)
Definition enabled (cap size : Z) (c : queue_call) (items : list (list Z)) : Prop :=
  match c with
  | Send d t => Z.of_nat (length d) = size /\ (t = 0 \/ Z.of_nat (length items) < cap)
  | SendIsr d => Z.of_nat (length d) = size
  | Receive t => t = 0 \/ items <> []
  | _ => True
  end.

Fixpoint all_enabled (cap size : Z) (cs : list queue_call) (items : list (list Z)) : Prop :=
  match cs with
  | [] => True
  | c :: cs => enabled cap size c items /\ all_enabled cap size cs (snd (spec_call cap c items))
  end.

(** The ring in the heap and the two lists of waiting tasks, which are disjoint. *)
Definition sound (h : heap_t) (m : gmap Z tcb_t) (x : queue_t) (items : list (list Z)) : Prop :=
  exists ab ss rs, heap_inv h ab /\ ring_wf h x items /\ waiters m (blocked_senders x) ss /\ waiters m (blocked_receivers x) rs /\
    forall t, t ∈ ss -> t ∉ rs.

(** The queue at [p] holds [items]. *)
Definition holds (w : sync queue_t statics) (p cap size : Z) (items : list (list Z)) : Prop :=
  exists x, objs w !! p = Some x /\ max_items x = cap /\ item_size x = size /\ sound (heap (kern w)) (tcbs (kern w)) x items /\
    0 <= critical_nesting (kern w) < UINT32_MAX.

Section refinement.
Context (pend : QM unit) (p : Z) (Hp : p <> NULL).
Implicit Types (w : sync queue_t statics).

Definition same_sizes (x x' : queue_t) : Prop := max_items x' = max_items x /\ item_size x' = item_size x.

Lemma sound_wake h m x items side ts y :
  sound h m x items -> waiters m (waiting side x) ts ->
  waiters (match ts with [] => m | t :: _ => alter woken_tcb t m end) y (tail ts) ->
  sound h (match ts with [] => m | t :: _ => alter woken_tcb t m end) (set_waiting x side y) items.
Proof.
  intros (ab & ss & rs & Hi & Hr & Hs & Hrc & Hd) Hts Hy. exists ab, (if side then tail ts else ss), (if side then rs else tail ts).
  split; [done|]. split; [by apply ring_waiting|].
  assert (forall h l, waiters m h l -> (forall t, t ∈ l -> t ∉ ts) -> waiters (match ts with [] => m | t :: _ => alter woken_tcb t m end) h l) as Hfr.
  { intros h0 l Hl Hn. destruct ts as [|t ts]; [done|]. eapply waiters_frame; [|exact Hl]. intros z d Hz Hzd.
    rewrite lookup_alter_ne; [eauto|]. intros <-. apply (Hn t Hz). left. }
  assert (forall t, t ∈ tail ts -> t ∈ ts) as Htl by (intros t Ht; destruct ts; [done|by right]).
  destruct side; cbn [waiting blocked_senders blocked_receivers set_waiting] in *.
  - pose proof (waiters_det _ _ _ _ Hs Hts) as ->. split; [done|]. split; [apply Hfr; [done|]; intros t H1 H2; by apply (Hd t)|].
    intros t Ht. by apply Hd, Htl.
  - pose proof (waiters_det _ _ _ _ Hrc Hts) as ->. split; [apply Hfr; [done|]; done|]. split; [done|].
    intros t H1 H2. by apply (Hd t H1), Htl.
Qed.

(** The part of a send after the room was found, for any nesting level. *)
Lemma send_core w x items data :
  objs w !! p = Some x -> sound (heap (kern w)) (tcbs (kern w)) x items -> q_count x < max_items x -> Z.of_nat (length data) = item_size x ->
  exists h' m' x' b, sound h' m' x' (items ++ [data]) /\ same_sizes x x' /\
    forall A (K : bool -> QM A), (queue_copy_in p data;; x ← obj p; when (truthy (blocked_receivers x)) (unblock_task_from_queue p false);; K (truthy (blocked_receivers x))) w =
      K b (Sync (set_tcbs m' (set_heap h' (kern w))) (<[p := x']> (objs w)) (glob w)).
Proof.
  intros Hx (ab & ss & rs & Hi & Hr & Hs & Hrc & Hd) Hroom Hl.
  destruct (copy_in_Done p w x items ab data Hx Hi Hr Hroom Hl) as (h' & E1 & Hi' & Hr').
  set (w1 := Sync _ _ _) in E1. assert (objs w1 !! p = Some (pushed x)) as Hx1 by (apply lookup_insert_eq).
  destruct (wake_Done p w1 (pushed x) false rs Hx1 Hrc) as (m & y & E2 & Eb & Hy & Em).
  exists h', m, (set_waiting (pushed x) false y), (negb (bool_decide (rs = []))). split; [|split; [done|]].
  - rewrite Em. apply sound_wake; [|done|by rewrite <- Em]. exists ab, ss, rs. by split_and!.
  - intros A K. rewrite (bind_step _ _ _ _ _ E1), (bind_step _ _ _ _ _ (obj_Done w1 p _ Hx1)). change (blocked_receivers (pushed x)) with (waiting false (pushed x)).
    rewrite (bind_step _ _ _ _ _ E2), Eb. unfold w1. cbn [kern objs glob]. by rewrite insert_insert_eq.
Qed.

Lemma receive_core w x it items :
  objs w !! p = Some x -> sound (heap (kern w)) (tcbs (kern w)) x (it :: items) ->
  exists m' x' b, sound (heap (kern w)) m' x' items /\ same_sizes x x' /\
    forall A (K : list Z -> bool -> QM A), (l ← queue_copy_out p; x ← obj p; when (truthy (blocked_senders x)) (unblock_task_from_queue p true);; K l (truthy (blocked_senders x))) w =
      K it b (Sync (set_tcbs m' (kern w)) (<[p := x']> (objs w)) (glob w)).
Proof.
  intros Hx (ab & ss & rs & Hi & Hr & Hs & Hrc & Hd). pose proof (copy_out_Done p w x it items ab Hx Hi Hr) as E1.
  set (w1 := set_objs _ w) in E1. assert (objs w1 !! p = Some (popped x)) as Hx1 by (apply lookup_insert_eq).
  destruct (wake_Done p w1 (popped x) true ss Hx1 Hs) as (m & y & E2 & Eb & Hy & Em).
  exists m, (set_waiting (popped x) true y), (negb (bool_decide (ss = []))). split; [|split; [done|]].
  - rewrite Em. apply sound_wake; [|done|by rewrite <- Em]. exists ab, ss, rs. split_and!; try done. by eapply pop_wf.
  - intros A K. rewrite (bind_step _ _ _ _ _ E1), (bind_step _ _ _ _ _ (obj_Done w1 p _ Hx1)). change (blocked_senders (popped x)) with (waiting true (popped x)).
    rewrite (bind_step _ _ _ _ _ E2), Eb. unfold w1. cbn [kern objs glob set_objs]. by rewrite insert_insert_eq.
Qed.

Lemma full_test x items h m : sound h m x items -> queue_is_full x = (max_items x <=? Z.of_nat (length items)) /\ queue_is_empty x = bool_decide (items = []).
Proof.
  intros (ab & ss & rs & _ & [_ _ [Hc _] _ _ _ _] & _). unfold queue_is_full, queue_is_empty. rewrite Hc. split; [done|].
  destruct items; [done|]. rewrite bool_decide_eq_false_2 by done. apply Z.eqb_neq. cbn. lia.
Qed.

(** Inside the critical section of a call. *)
Definition inside w : sync queue_t statics := Sync (raised (kern w)) (objs w) (glob w).

Lemma start_call {A} (f : Z -> QM A) w : (start ← on_kern task_get_tick_count; f start) w = f (now w) w.
Proof. by rewrite (bind_step _ _ w (now w) w) by (by destruct w). Qed.

Lemma enter_call {A} (m : QM A) w : (on_kern task_enter_critical;; m) w = m (inside w).
Proof. by rewrite (bind_step _ _ _ _ _ (enter_Done w)). Qed.

(** The wait of a call whose condition does not hold, and of a poll. *)
Lemma queue_wait_Done fuel (full : bool) timeout start w x :
  objs w !! p = Some x -> 0 <= critical_nesting (kern w) < UINT32_MAX -> let b := if full then queue_is_full x else queue_is_empty x in
  b = false \/ timeout = 0 ->
  queue_wait pend (S fuel) full p timeout start (inside w) = Done (if b then Some 0 else None, if b then w else inside w).
Proof.
  intros Hx Hn b Hb. unfold queue_wait.
  assert ((x ← obj p; mret (if full then queue_is_full x else queue_is_empty x)) (inside w) = Done (b, inside w)) as E
    by by rewrite (bind_step _ _ _ _ _ (obj_Done (inside w) p x Hx)).
  destruct b; [|by apply wait_loop_exit]. destruct Hb as [?| ->]; [done|].
  rewrite wait_loop_zero by done. rewrite bind_ret. unfold inside. rewrite lower_raised by done. by destruct w.
Qed.

Lemma holds_after w cap size x' items' h m :
  (exists x, objs w !! p = Some x /\ max_items x = cap /\ item_size x = size /\ same_sizes x x') ->
  0 <= critical_nesting (kern w) < UINT32_MAX -> sound h m x' items' ->
  holds (Sync (set_tcbs m (set_heap h (kern w))) (<[p := x']> (objs w)) (glob w)) p cap size items'.
Proof.
  intros (x & Hx & <- & <- & [H1 H2]) Hn Hs. exists x'. cbn [objs kern]. rewrite lookup_insert_eq. split_and!; try done; apply Hn.
Qed.

Lemma send_refines fuel w cap size items d t :
  holds w p cap size items -> enabled cap size (Send d t) items ->
  exists w', queue_send pend (S fuel) p (Some d) t w = Done (fst (fst (spec_call cap (Send d t) items)), w') /\
    holds w' p cap size (snd (spec_call cap (Send d t) items)).
Proof.
  intros Hh [Hl Ht]. pose proof Hh as (x & Hx & Hc & Hs & Hok & Hn). destruct (full_test _ _ _ _ Hok) as [Hfull _]. rewrite Hc in Hfull.
  unfold queue_send. rewrite start_call, (proj2 (Z.eqb_neq p NULL) Hp), enter_call.
  rewrite (bind_step _ _ _ _ _ (queue_wait_Done fuel true t (now w) w x Hx Hn ltac:(rewrite Hfull; destruct Ht; [by right|left; apply Z.leb_gt; lia]))).
  rewrite Hfull. cbn [spec_call]. destruct (Z.leb_spec cap (Z.of_nat (length items))) as [Hle|Hgt]; [by exists w|].
  destruct (send_core (inside w) x items d Hx Hok) as (h' & m' & x' & b & Hok' & Hss & HK); [|by rewrite Hs|].
  { destruct Hok as (ab & ss & rs & _ & [_ _ [Hcnt _] _ _ _ _] & _). lia. }
  rewrite (HK Z (fun _ => on_kern task_exit_critical;; mret 1)). eexists. split.
  - exact (lower_raised (set_tcbs m' (set_heap h' (kern w))) _ _ 1 Hn).
  - pose proof (holds_after w cap size x' (items ++ [d]) h' m') as H. apply H; [by exists x|done|done].
Qed.

Lemma receive_refines fuel w cap size items t :
  holds w p cap size items -> enabled cap size (Receive t) items ->
  exists w', queue_receive pend (S fuel) p true t w = Done (fst (spec_call cap (Receive t) items), w') /\
    holds w' p cap size (snd (spec_call cap (Receive t) items)).
Proof.
  intros Hh Ht. pose proof Hh as (x & Hx & Hc & Hs & Hok & Hn). destruct (full_test _ _ _ _ Hok) as [_ Hempty].
  unfold queue_receive. rewrite start_call, (proj2 (Z.eqb_neq p NULL) Hp). cbn [orb negb]. rewrite enter_call.
  rewrite (bind_step _ _ _ _ _ (queue_wait_Done fuel false t (now w) w x Hx Hn ltac:(rewrite Hempty; destruct Ht; [by right|left; by apply bool_decide_eq_false_2]))).
  rewrite Hempty. destruct items as [|it items]; [by exists w|]. rewrite bool_decide_eq_false_2 by done. cbn [spec_call fst snd].
  destruct (receive_core (inside w) x it items Hx Hok) as (m' & x' & b & Hok' & Hss & HK).
  rewrite (HK _ (fun l _ => on_kern task_exit_critical;; mret (1, Some l))). eexists. split.
  - exact (lower_raised (set_tcbs m' (kern w)) _ _ (1, Some it) Hn).
  - pose proof (holds_after w cap size x' items (heap (kern w)) m') as H. replace (set_heap (heap (kern w)) (kern w)) with (kern w) in H by (by destruct (kern w)).
    apply H; [by exists x|done|done].
Qed.

(** A call that empties the queue. *)
Lemma holds_empty w cap size items x k y :
  objs w !! p = Some x -> max_items x = cap -> item_size x = size -> sound (heap (kern w)) (tcbs (kern w)) x items ->
  0 <= critical_nesting (kern w) < UINT32_MAX -> heap k = heap (kern w) -> critical_nesting k = critical_nesting (kern w) ->
  (exists ss rs, waiters (tcbs k) (blocked_senders y) ss /\ waiters (tcbs k) (blocked_receivers y) rs /\ forall t, t ∈ ss -> t ∉ rs) ->
  (exists s z, y = set_ring x 0 0 0 \/ y = set_waiting (set_ring x 0 0 0) s z) ->
  holds (Sync k (<[p := y]> (objs w)) (glob w)) p cap size [].
Proof.
  intros Hx Hc Hs (ab & _ & _ & Hi & Hr & _) Hn Eh En (ss & rs & H1 & H2 & H3) (s & z & Hy). exists y. cbn [objs kern]. rewrite lookup_insert_eq, En, Eh.
  split; [done|]. assert (max_items y = cap /\ item_size y = size /\ ring_wf (heap (kern w)) y []) as (Hc' & Hs' & Hr').
  { destruct Hy as [-> | ->]; (split; [done|]); (split; [done|]); [|apply ring_waiting]; by eapply empty_wf. }
  split; [done|]. split; [done|]. split; [|done]. by exists ab, ss, rs.
Qed.

Lemma flush_refines w cap size items :
  holds w p cap size items ->
  exists w', queue_flush p w = Done (Z.of_nat (length items), w') /\ holds w' p cap size [].
Proof.
  intros (x & Hx & Hc & Hs & Hok & Hn). pose proof Hok as (ab & ss & rs & Hi & Hr & Hss & Hrs & Hd).
  unfold queue_flush. rewrite (proj2 (Z.eqb_neq p NULL) Hp), enter_call, (bind_step _ _ _ _ _ (obj_Done (inside w) p x Hx)).
  rewrite (bind_step _ _ _ _ _ (upd_obj_Done (inside w) p x _ Hx)). set (w1 := set_objs _ (inside w)).
  destruct (ready_loop_Done (ring_fuel (kern w1)) (kern w1) (blocked_receivers x) rs Hrs) as (m & E & Hm).
  { pose proof (waiters_length _ _ _ Hrs). unfold ring_fuel. cbn. unfold raised. cbn. lia. }
  rewrite (bind_step _ _ w1 tt (set_kern (set_tcbs m (kern w1)) w1)) by (by apply on_kern_Done).
  assert (objs (set_kern (set_tcbs m (kern w1)) w1) !! p = Some (set_ring x 0 0 0)) as Hx1 by (apply lookup_insert_eq).
  rewrite (bind_step _ _ _ _ _ (upd_obj_Done _ p _ _ Hx1)). assert (q_count x = Z.of_nat (length items)) as -> by apply Hr.
  unfold w1. cbn [kern objs glob set_objs set_kern inside]. rewrite insert_insert_eq. eexists. split.
  - exact (lower_raised (set_tcbs m (kern w)) _ _ (Z.of_nat (length items)) Hn).
  - apply (holds_empty w cap size items x); try done.
    + exists ss, []. split; [|split; [done|intros t _; apply not_elem_of_nil]]. cbn. eapply waiters_frame; [|exact Hss]. intros t c Ht Hct.
      exists c. rewrite Hm, decide_False by by apply Hd. done.
    + exists false, NULL. by right.
Qed.
End refinement.

(** C10: a queue implements a bounded first-in first-out list: for every sequence of sends, receives, peeks, their
    interrupt variants, counts, resets and flushes on a queue that holds [items], with calls that would have to wait made as
    polls, the results are those of the list specification, the bytes received are those sent, in order, however
    often the ring has wrapped, and the queue then holds what the specification holds.  Waking a waiting task, whichever, does not
    disturb the contents. *)
Theorem queue_refines (pend : QM unit) fuel p cap size (cs : list queue_call) (w : sync queue_t statics) items :
  p <> NULL -> holds w p cap size items -> all_enabled cap size cs items ->
  exists w', run_calls pend (S fuel) p cs w = Done (fst (spec_calls cap cs items), w') /\ holds w' p cap size (snd (spec_calls cap cs items)).
Proof.
  intros Hp. revert w items. induction cs as [|c cs IH]; intros w items Hh He; [by exists w|]. cbn [run_calls spec_calls all_enabled] in *. destruct He as [He Hes].
  assert (exists w1, run_call pend (S fuel) p c w = Done (fst (spec_call cap c items), w1) /\ holds w1 p cap size (snd (spec_call cap c items))) as (w1 & E1 & H1).
  { pose proof Hh as (x & Hx & Hc & Hs & Hok & Hn). destruct (full_test _ _ _ _ Hok) as [Hfull Hempty]. rewrite Hc in Hfull.
    assert (q_count x = Z.of_nat (length items) /\ q_count x <= max_items x < 4294967296) as [Hcnt Hmax].
    { destruct Hok as (ab & ss & rs & _ & Hr & _). pose proof (max_bound _ _ _ Hr). destruct Hr as [_ _ [? ?] _ _ _ _]. lia. }
    destruct c; cbn [run_call].
    - destruct (send_refines pend p Hp fuel w cap size items data timeout Hh He) as (w1 & E & H1). exists w1. rewrite (bind_step _ _ _ _ _ E).
      split; [|done]. cbn [spec_call]. by destruct (_ <=? _).
    - by apply receive_refines.
    - unfold queue_send_from_isr. rewrite (proj2 (Z.eqb_neq p NULL) Hp), bind_assoc, (bind_step _ _ _ _ _ (obj_Done w p x Hx)), Hfull. cbn [spec_call].
      destruct (Z.leb_spec cap (Z.of_nat (length items))); [by exists w|].
      destruct (send_core p w x items data Hx Hok) as (h' & m' & x' & b & Hok' & Hss & HK); [lia|by rewrite Hs|].
      rewrite (bind_step _ _ _ _ _ (HK _ (fun b => (mret (1, b) : QM (Z * bool))))). eexists. split; [reflexivity|]. apply holds_after; [by exists x|done|done].
    - unfold queue_receive_from_isr. rewrite (proj2 (Z.eqb_neq p NULL) Hp). cbn [orb negb]. rewrite bind_assoc, (bind_step _ _ _ _ _ (obj_Done w p x Hx)), Hempty.
      destruct items as [|it items]; [by exists w|]. rewrite bool_decide_eq_false_2 by done. cbn [spec_call fst snd].
      destruct (receive_core p w x it items Hx Hok) as (m' & x' & b & Hok' & Hss & HK). rewrite (bind_step _ _ _ _ _ (HK _ (fun l b => (mret (1, Some l, b) : QM (Z * option (list Z) * bool))))).
      eexists. split; [reflexivity|]. pose proof (holds_after p w cap size x' items (heap (kern w)) m') as H.
      replace (set_heap (heap (kern w)) (kern w)) with (kern w) in H by (by destruct (kern w)). apply H; [by exists x|done|done].
    - unfold queue_peek. rewrite (proj2 (Z.eqb_neq p NULL) Hp). cbn [orb negb]. rewrite enter_call, (bind_step _ _ _ _ _ (obj_Done (inside w) p x Hx)), Hempty.
      exists w. assert (forall r : Z * option (list Z), ((on_kern task_exit_critical;; mret r) : QM (Z * option (list Z))) (inside w) = Done (r, w)) as Hlow.
      { intros r. unfold inside. rewrite lower_raised by done. by destruct w. }
      destruct items as [|it items]; [exact (conj (Hlow (0, None)) Hh)|]. rewrite bool_decide_eq_false_2 by done. cbn [spec_call fst snd].
      destruct Hok as (ab & ss & rs & Hi & Hr & _). by rewrite (bind_step _ _ _ _ _ (front_Done p (inside w) x it items ab Hx Hi Hr)), Hlow.
    - exists w. unfold queue_messages_waiting. rewrite (proj2 (Z.eqb_neq p NULL) Hp), bind_assoc, (bind_step _ _ _ _ _ (obj_Done w p x Hx)). by rewrite Hcnt.
    - exists w. unfold queue_spaces_available. rewrite (proj2 (Z.eqb_neq p NULL) Hp), bind_assoc, (bind_step _ _ _ _ _ (obj_Done w p x Hx)).
      cbn [spec_call fst snd]. rewrite bind_ret, Hcnt, Hc, u32_small by lia. done.
    - unfold queue_reset. rewrite (proj2 (Z.eqb_neq p NULL) Hp). eexists (Sync (kern w) (<[p := set_ring x 0 0 0]> (objs w)) (glob w)). cbn [spec_call fst snd]. split.
      + rewrite !bind_assoc, enter_call, bind_assoc, (bind_step _ _ _ _ _ (upd_obj_Done (inside w) p x _ Hx)). exact (lower_raised (kern w) _ _ (0, None) Hn).
      + apply (holds_empty p w cap size items x); try done; [|by exists false, 0; left].
        destruct Hok as (ab & ss & rs & _ & _ & ? & ? & ?). by exists ss, rs.
    - destruct (flush_refines p Hp w cap size items Hh) as (w1 & E & H1). exists w1. by rewrite (bind_step _ _ _ _ _ E). }
  rewrite (bind_step _ _ _ _ _ E1). destruct (spec_call cap c items) as [r items1]. cbn [fst snd] in *.
  destruct (IH w1 items1 H1 Hes) as (w2 & E2 & H2). exists w2. rewrite (bind_step _ _ _ _ _ E2). by destruct (spec_calls cap cs items1).
Qed.

(** ** Creation *)

(** What a creation of a non-empty queue returns. *)
Lemma queue_create_Done (w : sync queue_t statics) ab isz max name :
  heap_inv (heap (kern w)) ab -> 0 <= critical_nesting (kern w) < UINT32_MAX -> 0 < isz < 4294967296 -> 0 < max < 4294967296 ->
  u32 (isz * max) < 4294967256 ->
  exists p w' ab', queue_create isz max name w = Done (p, w') /\ heap_inv (heap (kern w')) ab' /\
     tcbs (kern w') = tcbs (kern w) /\ (forall q n, owned (heap (kern w)) q n -> owned (heap (kern w')) q n) /\
     (p = NULL \/ p <> NULL /\ (exists x, objs w' !! p = Some x /\ item_size x = isz /\ max_items x = max /\ owned (heap (kern w')) (q_buffer x) (u32 (isz * max))) /\
        (isz * max < 4294967296 -> holds w' p max isz [])).
Proof.
  intros Hi Hn Hz Hm Hu. unfold queue_create. rewrite (proj2 (Z.eqb_neq isz 0)), (proj2 (Z.eqb_neq max 0)) by lia. cbn [orb].
  destruct (malloc_owned (heap (kern w)) ab sizeof_queue Hi ltac:(unfold sizeof_queue; lia)) as (p & h1 & ab1 & E1 & Hi1 & Ho1 & Hp).
  rewrite (bind_step _ _ _ _ _ (on_kern_Done _ w _ _ (on_heap_Done _ _ _ _ E1))). set (w1 := set_kern _ w).
  destruct Hp as [-> |(Hp0 & Hop & Hnew)].
  { exists NULL, w1, ab1. split; [done|]. split; [done|]. split; [done|]. split; [done|by left]. }
  rewrite (proj2 (Z.eqb_neq p NULL) Hp0).
  destruct (memset_owned h1 ab1 p sizeof_queue 0 p sizeof_queue Hi1 Hop ltac:(lia) ltac:(lia)) as [E2 S2].
  match type of E2 with _ = Done (_, ?x) => set (h2 := x) in * end.
  assert (forall q n, owned h1 q n -> owned h2 q n) as Ho2 by (intros; by eapply same_blocks_owned; [apply Hi1|..]).
  rewrite (bind_step _ _ _ _ _ (on_kern_Done _ w1 _ _ (on_heap_Done _ _ _ _ E2))). set (w2 := set_kern _ w1).
  pose proof (u32_range (isz * max)) as Hur.
  destruct (malloc_owned h2 ab1 (u32 (isz * max)) (proj1 S2) ltac:(lia)) as (buf & h3 & ab3 & E3 & Hi3 & Ho3 & Hb).
  rewrite (bind_step _ _ _ _ _ (on_kern_Done _ w2 _ _ (on_heap_Done _ (kern w2) _ _ E3))). set (w3 := set_kern _ w2).
  destruct Hb as [-> |(Hb0 & Hob & Hbnew)].
  - cbn [Z.eqb NULL]. assert (owned h3 p sizeof_queue) as Hop3 by by apply Ho3, Ho2.
    destruct (free_owned h3 ab3 p sizeof_queue Hi3 Hop3) as (h4 & ab4 & E4 & Hi4 & Ho4).
    rewrite (bind_step _ _ _ _ _ (on_kern_Done _ w3 _ _ (on_heap_Done _ (kern w3) _ _ E4))).
    eexists NULL, _, ab4. split; [reflexivity|]. split; [done|]. split; [done|]. split; [|by left]. intros q n Hq. apply Ho4.
    + by apply Ho3, Ho2, Ho1.
    + by eapply Hnew.
  - rewrite (proj2 (Z.eqb_neq buf NULL) Hb0).
    set (x := Queue buf isz max 0 0 0 NULL NULL 1 (object_name name) NULL).
    exists p, (Sync (kern w3) (<[p := x]> (objs w)) (glob w)), ab3. split; [done|]. split; [done|]. split; [done|].
    split; [intros q n Hq; by apply Ho3, Ho2, Ho1|]. right. split; [done|].
    assert ((<[p := x]> (objs w)) !! p = Some x) as Hx by apply lookup_insert_eq.
    split; [exists x; split; [exact Hx|done]|]. intros Hprod. exists x. split; [exact Hx|]. split; [done|]. split; [done|]. split; [|exact Hn].
    exists ab3, [], []. split; [done|]. split; [|split; [done|split; [done|intros t Ht; by apply not_elem_of_nil in Ht]]].
    constructor; cbn [q_tail q_head q_count max_items item_size q_buffer x length]; try done; try lia.
    rewrite u32_small in Hob by nia. done.
Qed.

(** C34: [queue_create] refuses a zero size or length.  Otherwise it returns NULL, with every block in use
    before still in use and the heap well-formed, or a queue whose buffer is a block in use of [item_size] * [max_items] bytes
    modulo 2^32; without overflow the queue is empty and holds up to [max_items] items as [queue_refines] says.
    With overflow the buffer is smaller than the ring: for 65537-byte items, 65536 of them get 65536 bytes. *)
Theorem queue_create_correct (w : sync queue_t statics) ab isz max name :
  heap_inv (heap (kern w)) ab -> 0 <= critical_nesting (kern w) < UINT32_MAX -> 0 <= isz < 4294967296 -> 0 <= max < 4294967296 ->
  u32 (isz * max) < 4294967256 ->
  (isz = 0 \/ max = 0 -> queue_create isz max name w = Done (NULL, w)) /\
  (isz <> 0 -> max <> 0 -> exists p w' ab', queue_create isz max name w = Done (p, w') /\ heap_inv (heap (kern w')) ab' /\
     tcbs (kern w') = tcbs (kern w) /\ (forall q n, owned (heap (kern w)) q n -> owned (heap (kern w')) q n) /\
     (p = NULL \/ p <> NULL /\ (exists x, objs w' !! p = Some x /\ item_size x = isz /\ max_items x = max /\ owned (heap (kern w')) (q_buffer x) (u32 (isz * max))) /\
        (isz * max < 4294967296 -> holds w' p max isz []))) /\
  u32 (65537 * 65536) = 65536.
Proof.
  intros Hi Hn Hz Hm Hu. split; [|split; [|reflexivity]].
  - intros H. unfold queue_create. destruct H as [-> | ->]; [done|]. by rewrite orb_true_r.
  - intros Hz0 Hm0. apply (queue_create_Done w ab); [done|done|lia|lia|done].
Qed.

Lemma queue_create_correct_witness :
  exists p w', queue_create 4 2 None (Sync demo_rr ∅ (Statics NULL 0 ∅)) = Done (p, w') /\ (p = NULL \/ holds w' p 2 4 []).
Proof.
  destruct (kw_heap _ _ (ki_wf _ _ demo_rr_inv)) as [ab Hi].
  destruct (queue_create_correct (Sync demo_rr ∅ (Statics NULL 0 ∅)) ab 4 2 None Hi) as (_ & H & _).
  - vm_compute. split; [discriminate|reflexivity].
  - lia.
  - lia.
  - vm_compute. reflexivity.
  - destruct H as (p & w' & ab' & E & _ & _ & _ & Hp); [discriminate|discriminate|]. exists p, w'. split; [exact E|].
    destruct Hp as [Hp|(_ & _ & Hp)]; [left; exact Hp|right; apply Hp; reflexivity].
Defined.

(** A queue of two 4-byte items, used beyond one turn of its ring. *)
Definition demo_calls : list queue_call :=
  [Send [1; 2; 3; 4] 0; SendIsr [5; 6; 7; 8]; Send [9; 9; 9; 9] 0; Receive 7; Send [9; 9; 9; 9] 5; Peek; ReceiveIsr; Receive 0; Receive 0; Spaces].

Lemma demo_calls_enabled : all_enabled 2 4 demo_calls [].
Proof. cbn. repeat split; first [left; reflexivity | right; reflexivity | right; discriminate]. Qed.

Lemma queue_refines_witness :
  exists p w w', queue_create 4 2 None (Sync demo_rr ∅ (Statics NULL 0 ∅)) = Done (p, w) /\
    run_calls (mret tt) 1 p demo_calls w =
      Done ([(1, None); (1, None); (0, None); (1, Some [1; 2; 3; 4]); (1, None); (1, Some [5; 6; 7; 8]); (1, Some [5; 6; 7; 8]); (1, Some [9; 9; 9; 9]); (0, None); (2, None)], w').
Proof.
  destruct (kw_heap _ _ (ki_wf _ _ demo_rr_inv)) as [ab Hi].
  assert (match queue_create 4 2 None (Sync demo_rr ∅ (Statics NULL 0 ∅)) with Done (p, _) => negb (p =? NULL) | _ => false end = true) as Hnz by (vm_compute; reflexivity).
  destruct (queue_create_Done (Sync demo_rr ∅ (Statics NULL 0 ∅)) ab 4 2 None Hi) as (p & w & ab' & E & _ & _ & _ & Hp);
    [vm_compute; split; [discriminate|reflexivity]|lia|lia|vm_compute; reflexivity|]. rewrite E in Hnz.
  destruct Hp as [->|(Hp0 & _ & Hp)]; [discriminate Hnz|]. exists p, w.
  destruct (queue_refines (mret tt) 0 p 2 4 demo_calls w [] Hp0 (Hp eq_refl)) as (w' & E2 & _).
  - exact demo_calls_enabled.
  - exists w'. split; [exact E|exact E2].
Defined.
