(* ===== verification/SoftwareTimer.v ===== *)
(** * Software timers (mini-rtos/src/software_timer.c)

    Timers in a singly-linked list, newest first; calls that change a timer only append a command
    to a linked list, and a daemon task applies the commands and then calls back the timers that have expired.
    The chain of timers and the pool of static timers are the file's later parts.  Timers, commands and chain nodes live
    in maps by address, their memory in the kernel's heap.  What a callback of the application does is
    the parameter [app], over the state [A] of the application. *)
From S2P Require Import Prelude MemoryHeap Scheduler SchedulerSpec WaitList Queue.

Inductive timer_type_t := TIMER_TYPE_ONE_SHOT | TIMER_TYPE_AUTO_RELOAD.
Inductive timer_cmd_type_t := TIMER_CMD_START | TIMER_CMD_STOP | TIMER_CMD_RESET | TIMER_CMD_CHANGE_PERIOD | TIMER_CMD_DELETE.
#[export] Instance timer_type_eq : EqDecision timer_type_t.
Proof. solve_decision. Defined.

Record sw_timer_t := Timer {
  tm_id : Z; tm_type : timer_type_t; tm_callback : Z; tm_param : Z; tm_period : Z; tm_expiry : Z; tm_active : Z; tm_name : list Z; tm_next : Z }.
Record timer_cmd_t := Cmd { tc_type : timer_cmd_type_t; tc_timer : Z; tc_period : Z; tc_next : Z }.
Record timer_chain_node_t := ChainNode { cn_timer : Z; cn_next : Z }.
Definition sizeof_sw_timer : Z := 64.
Definition sizeof_timer_cmd : Z := 32.
Definition sizeof_chain_node : Z := 16.
Definition TIMER_POOL_SIZE : Z := 16.

Definition zero_timer : sw_timer_t := Timer 0 TIMER_TYPE_ONE_SHOT NULL NULL 0 0 0 (replicate 16 0) NULL.

Definition set_tm_next (x : Z) (t : sw_timer_t) : sw_timer_t :=
  Timer (tm_id t) (tm_type t) (tm_callback t) (tm_param t) (tm_period t) (tm_expiry t) (tm_active t) (tm_name t) x.
(** The active flag and the expiry tick. *)
Definition set_tm_run (active expiry : Z) (t : sw_timer_t) : sw_timer_t :=
  Timer (tm_id t) (tm_type t) (tm_callback t) (tm_param t) (tm_period t) expiry active (tm_name t) (tm_next t).
Definition set_tm_period (x : Z) (t : sw_timer_t) : sw_timer_t :=
  Timer (tm_id t) (tm_type t) (tm_callback t) (tm_param t) x (tm_expiry t) (tm_active t) (tm_name t) (tm_next t).
Definition set_tm_id (x : Z) (t : sw_timer_t) : sw_timer_t :=
  Timer x (tm_type t) (tm_callback t) (tm_param t) (tm_period t) (tm_expiry t) (tm_active t) (tm_name t) (tm_next t).
Definition clear_tm_callback (t : sw_timer_t) : sw_timer_t :=
  Timer (tm_id t) (tm_type t) NULL (tm_param t) (tm_period t) (tm_expiry t) (tm_active t) (tm_name t) (tm_next t).
Definition set_tc_next (x : Z) (c : timer_cmd_t) : timer_cmd_t := Cmd (tc_type c) (tc_timer c) (tc_period c) x.

(** The statics of the file; the commands and chain nodes by address; the message queues, which only the
    initialisation touches; the application. *)
Record timer_statics (A : Type) := TimerStatics {
  timer_list : Z; next_timer_id : Z; cmd_queue_head : Z; cmd_queue_tail : Z; cmds : gmap Z timer_cmd_t;
  cmd_queue : Z; timer_daemon_initialized : bool; timer_daemon_task : Z;
  queues : gmap Z queue_t; queue_statics : Queue.statics;
  timer_chain_head : Z; nodes : gmap Z timer_chain_node_t; timer_pool_free_mask : Z; application : A }.
Arguments TimerStatics {A}.
Arguments timer_list {A}.
Arguments next_timer_id {A}.
Arguments cmd_queue_head {A}.
Arguments cmd_queue_tail {A}.
Arguments cmds {A}.
Arguments cmd_queue {A}.
Arguments timer_daemon_initialized {A}.
Arguments timer_daemon_task {A}.
Arguments queues {A}.
Arguments queue_statics {A}.
Arguments timer_chain_head {A}.
Arguments nodes {A}.
Arguments timer_pool_free_mask {A}.
Arguments application {A}.

Section statics_setters.
Context {A : Type}.
Implicit Types s : timer_statics A.
Definition set_timers (l id : Z) s : timer_statics A :=
  TimerStatics l id (cmd_queue_head s) (cmd_queue_tail s) (cmds s) (cmd_queue s) (timer_daemon_initialized s) (timer_daemon_task s)
    (queues s) (queue_statics s) (timer_chain_head s) (nodes s) (timer_pool_free_mask s) (application s).
Definition set_cmds (h t : Z) (m : gmap Z timer_cmd_t) s : timer_statics A :=
  TimerStatics (timer_list s) (next_timer_id s) h t m (cmd_queue s) (timer_daemon_initialized s) (timer_daemon_task s)
    (queues s) (queue_statics s) (timer_chain_head s) (nodes s) (timer_pool_free_mask s) (application s).
Definition set_daemon (q : Z) (i : bool) (t : Z) s : timer_statics A :=
  TimerStatics (timer_list s) (next_timer_id s) (cmd_queue_head s) (cmd_queue_tail s) (cmds s) q i t
    (queues s) (queue_statics s) (timer_chain_head s) (nodes s) (timer_pool_free_mask s) (application s).
Definition set_queues (qs : gmap Z queue_t) (g : Queue.statics) s : timer_statics A :=
  TimerStatics (timer_list s) (next_timer_id s) (cmd_queue_head s) (cmd_queue_tail s) (cmds s) (cmd_queue s) (timer_daemon_initialized s)
    (timer_daemon_task s) qs g (timer_chain_head s) (nodes s) (timer_pool_free_mask s) (application s).
Definition set_chain (h : Z) (m : gmap Z timer_chain_node_t) s : timer_statics A :=
  TimerStatics (timer_list s) (next_timer_id s) (cmd_queue_head s) (cmd_queue_tail s) (cmds s) (cmd_queue s) (timer_daemon_initialized s)
    (timer_daemon_task s) (queues s) (queue_statics s) h m (timer_pool_free_mask s) (application s).
Definition set_pool (x : Z) s : timer_statics A :=
  TimerStatics (timer_list s) (next_timer_id s) (cmd_queue_head s) (cmd_queue_tail s) (cmds s) (cmd_queue s) (timer_daemon_initialized s)
    (timer_daemon_task s) (queues s) (queue_statics s) (timer_chain_head s) (nodes s) x (application s).
Definition set_application (x : A) s : timer_statics A :=
  TimerStatics (timer_list s) (next_timer_id s) (cmd_queue_head s) (cmd_queue_tail s) (cmds s) (cmd_queue s) (timer_daemon_initialized s)
    (timer_daemon_task s) (queues s) (queue_statics s) (timer_chain_head s) (nodes s) (timer_pool_free_mask s) x.
End statics_setters.

(** The addresses the linker gives: task_delete, the entry of the daemon, the static callback of the chain, the pool. *)
Record symbols := Symbols { task_delete_entry : Z; timer_daemon_entry : Z; timer_chain_callback_entry : Z; timer_pool_buf : Z }.

Section timers.
Context {A : Type} (sym : symbols).
Notation world := (sync sw_timer_t (timer_statics A)).
Notation TM := (M world).

Definition upd_st (f : timer_statics A -> timer_statics A) : TM unit := modify (fun w => set_glob (f (glob w)) w).
Definition st {B} (f : timer_statics A -> B) : TM B := gets (fun w => f (glob w)).
Definition malloc (n : Z) : TM Z := on_kern (on_heap (malloc_rtos n)).
Definition release (p : Z) : TM unit := on_kern (on_heap (free_rtos p)).

(** The queues of ipc_queue.c beside the kernel. *)
Definition on_queues {B} (m : M (sync queue_t Queue.statics) B) : TM B :=
  zoom (fun w => Sync (kern w) (queues (glob w)) (queue_statics (glob w)))
       (fun q w => Sync (kern q) (objs w) (set_queues (objs q) (glob q) (glob w))) m.

(** "timer_cmd_q" and "timer_daemon". *)
Definition cmd_queue_name : list Z := [116; 105; 109; 101; 114; 95; 99; 109; 100; 95; 113].
Definition daemon_name : list Z := [116; 105; 109; 101; 114; 95; 100; 97; 101; 109; 111; 110].

Definition timer_daemon_init (stack_size priority : Z) : TM unit :=
  i ← st timer_daemon_initialized;
  if (i : bool) then mret tt
  else
    q ← on_queues (queue_create 8 32 (Some cmd_queue_name));
    t ← on_kern (task_create (task_delete_entry sym) (timer_daemon_entry sym) (Some daemon_name) stack_size NULL priority);
    upd_st (set_daemon q true t).

Definition timer_create (name : option (list Z)) (cb param period_ticks : Z) (type : timer_type_t) : TM Z :=
  if (cb =? NULL) || (period_ticks =? 0) then mret NULL
  else
    i ← st timer_daemon_initialized;
    if negb i then mret NULL
    else
      t ← malloc sizeof_sw_timer;
      if t =? NULL then mret NULL
      else
        on_kern (on_heap (memset t 0 sizeof_sw_timer));;
        id ← st next_timer_id;
        upd_st (fun s => set_timers (timer_list s) (id +32 1) s);;
        put_obj t (Timer id type cb param period_ticks 0 0 (object_name name) NULL);;
        on_kern task_enter_critical;;
        l ← st timer_list;
        upd_obj t (set_tm_next l);;
        upd_st (fun s => set_timers t (next_timer_id s) s);;
        on_kern task_exit_critical;;
        mret t.

(** ** The command list *)

Definition cmd_at (c : Z) : TM timer_cmd_t := fun w =>
  match cmds (glob w) !! c with Some x => Done (x, w) | None => UB end.
Definition put_cmd (c : Z) (x : timer_cmd_t) : TM unit :=
  upd_st (fun s => set_cmds (cmd_queue_head s) (cmd_queue_tail s) (<[c := x]> (cmds s)) s).
Definition upd_cmd (c : Z) (f : timer_cmd_t -> timer_cmd_t) : TM unit := x ← cmd_at c; put_cmd c (f x).
Definition set_head (h : Z) : TM unit := upd_st (fun s => set_cmds h (cmd_queue_tail s) (cmds s) s).
Definition set_tail (t : Z) : TM unit := upd_st (fun s => set_cmds (cmd_queue_head s) t (cmds s) s).

(** The cleared structure: type START is 0. *)
Definition timer_cmd_alloc : TM Z :=
  cmd ← malloc sizeof_timer_cmd;
  when (truthy cmd) (on_kern (on_heap (memset cmd 0 sizeof_timer_cmd));; put_cmd cmd (Cmd TIMER_CMD_START NULL 0 NULL));;
  mret cmd.

Definition timer_cmd_free (cmd : Z) : TM unit :=
  release cmd;;
  upd_st (fun s => set_cmds (cmd_queue_head s) (cmd_queue_tail s) (delete cmd (cmds s)) s).

Definition timer_enqueue_cmd (cmd : Z) : TM unit :=
  upd_cmd cmd (set_tc_next NULL);;
  tail ← st cmd_queue_tail;
  (if truthy tail then upd_cmd tail (set_tc_next cmd) else set_head cmd);;
  set_tail cmd.

Definition timer_dequeue_cmd : TM Z :=
  cmd ← st cmd_queue_head;
  when (truthy cmd) (
    c ← cmd_at cmd;
    set_head (tc_next c);;
    h ← st cmd_queue_head;
    when (h =? NULL) (set_tail NULL);;
    upd_cmd cmd (set_tc_next NULL));;
  mret cmd.

(** The body the six command calls share; from an interrupt there is no critical section. *)
Definition post (critical : bool) (type : timer_cmd_type_t) (t period : Z) : TM Z :=
  if t =? NULL then mret (-1)
  else
    cmd ← timer_cmd_alloc;
    if cmd =? NULL then mret (-1)
    else
      upd_cmd cmd (fun c => Cmd type t period (tc_next c));;
      when critical (on_kern task_enter_critical);;
      timer_enqueue_cmd cmd;;
      when critical (on_kern task_exit_critical);;
      mret 1.

Definition timer_start (t delay_ticks : Z) : TM Z := post true TIMER_CMD_START t delay_ticks.
Definition timer_stop (t : Z) : TM Z := post true TIMER_CMD_STOP t 0.
Definition timer_reset (t delay_ticks : Z) : TM Z := post true TIMER_CMD_RESET t delay_ticks.
Definition timer_change_period (t new_period_ticks : Z) : TM Z :=
  if (t =? NULL) || (new_period_ticks =? 0) then mret (-1) else post true TIMER_CMD_CHANGE_PERIOD t new_period_ticks.
Definition timer_delete (t : Z) : TM unit := _ ← post true TIMER_CMD_DELETE t 0; mret tt.

(** With the result: whether [*woken] is set (for a non-null [woken]). *)
Definition from_isr (m : TM Z) : TM (Z * bool) := r ← m; mret (r, r =? 1).
Definition timer_start_from_isr (t delay_ticks : Z) : TM (Z * bool) := from_isr (post false TIMER_CMD_START t delay_ticks).
Definition timer_stop_from_isr (t : Z) : TM (Z * bool) := from_isr (post false TIMER_CMD_STOP t 0).
Definition timer_reset_from_isr (t delay_ticks : Z) : TM (Z * bool) := from_isr (post false TIMER_CMD_RESET t delay_ticks).

Definition timer_is_active (t : Z) : TM Z := if t =? NULL then mret 0 else x ← obj t; mret (tm_active x).
Definition timer_get_id (t : Z) : TM Z := if t =? NULL then mret 0 else x ← obj t; mret (tm_id x).
Definition timer_get_remaining (t : Z) : TM Z :=
  if t =? NULL then mret 0
  else
    x ← obj t;
    if tm_active x =? 0 then mret 0
    else
      now ← on_kern task_get_tick_count;
      mret (if now <? tm_expiry x then tm_expiry x -32 now else 0).

(** ** The daemon *)

(** [list] points to the cell that holds [cur]: the next field of [prev], or the head of the list. *)
Fixpoint unlink_loop (fuel : nat) (t prev cur : Z) : TM unit :=
  match fuel with
  | O => nofuel
  | S fuel =>
      if cur =? NULL then mret tt
      else if cur =? t then
        x ← obj t;
        if prev =? NULL then upd_st (fun s => set_timers (tm_next x) (next_timer_id s) s) else upd_obj prev (set_tm_next (tm_next x))
      else x ← obj cur; unlink_loop fuel t cur (tm_next x)
  end.

(** The switch over the type of the command, the command and a deleted timer freed. *)
Definition run_cmd (cmd : Z) (c : timer_cmd_t) : TM unit :=
  let t := tc_timer c in
  match tc_type c with
  | TIMER_CMD_START | TIMER_CMD_RESET =>
      now ← on_kern task_get_tick_count;
      upd_obj t (set_tm_run 1 (now +32 tc_period c));;
      timer_cmd_free cmd
  | TIMER_CMD_STOP => upd_obj t (set_tm_run 0 0);; timer_cmd_free cmd
  | TIMER_CMD_CHANGE_PERIOD =>
      upd_obj t (set_tm_period (tc_period c));;
      x ← obj t;
      when (truthy (tm_active x)) (
        now ← on_kern task_get_tick_count;
        upd_obj t (set_tm_run (tm_active x) (now +32 tm_period x)));;
      timer_cmd_free cmd
  | TIMER_CMD_DELETE =>
      l ← st timer_list;
      upd_obj t (fun x => set_tm_run 0 (tm_expiry x) x);;
      fuel ← gets (fun w => S (size (objs w)));
      unlink_loop fuel t NULL l;;
      timer_cmd_free cmd;;
      release t;;
      drop_obj t
  end.

Fixpoint commands_loop (fuel : nat) : TM unit :=
  match fuel with
  | O => nofuel
  | S fuel =>
      cmd ← timer_dequeue_cmd;
      if cmd =? NULL then mret tt
      else
        c ← cmd_at cmd;
        (if tc_timer c =? NULL then timer_cmd_free cmd else run_cmd cmd c);;
        commands_loop fuel
  end.
Definition timer_process_commands : TM unit := fuel ← gets (fun w => S (size (cmds (glob w)))); commands_loop fuel.

Definition timer_chain_callback (param : Z) : TM unit :=
  if param =? NULL then mret tt
  else
    nodes0 ← st nodes;
    match nodes0 !! param with
    | None => undefined
    | Some node =>
        upd_st (fun s => set_chain (cn_next node) (nodes s) s);;
        (if cn_next node =? NULL then mret tt
         else
           match nodes0 !! cn_next node with
           | None => undefined
           | Some next => when (truthy (cn_timer next)) (_ ← timer_start (cn_timer next) 0; mret tt)
           end);;
        release param;;
        upd_st (fun s => set_chain (timer_chain_head s) (delete param (nodes s)) s)
    end.

Section daemon.
Context (app : Z -> Z -> TM unit) (pend : TM unit).

(** A call through a callback pointer. *)
Definition call_back (cb param : Z) : TM unit :=
  if cb =? timer_chain_callback_entry sym then timer_chain_callback param else app cb param.

Fixpoint expiry_loop (fuel : nat) (now t : Z) : TM unit :=
  match fuel with
  | O => nofuel
  | S fuel =>
      if t =? NULL then mret tt
      else
        x ← obj t;
        when (truthy (tm_active x) && (tm_expiry x <=? now)) (
          when (truthy (tm_callback x)) (call_back (tm_callback x) (tm_param x));;
          y ← obj t;
          if bool_decide (tm_type y = TIMER_TYPE_AUTO_RELOAD) then upd_obj t (set_tm_run (tm_active y) (now +32 tm_period y))
          else upd_obj t (set_tm_run 0 0));;
        expiry_loop fuel now (tm_next x)
  end.
Definition timer_process_expiry : TM unit :=
  now ← on_kern task_get_tick_count;
  l ← st timer_list;
  fuel ← gets (fun w => S (size (objs w)));
  expiry_loop fuel now l.

(** The daemon never ends; its first [rounds] rounds. *)
Fixpoint timer_daemon (rounds : nat) : TM unit :=
  match rounds with
  | O => mret tt
  | S rounds =>
      timer_process_commands;;
      timer_process_expiry;;
      on_kern (task_delay 1);;
      pend;;
      timer_daemon rounds
  end.
End daemon.

(** ** Chains *)

Definition node_at (n : Z) : TM timer_chain_node_t := fun w =>
  match nodes (glob w) !! n with Some x => Done (x, w) | None => UB end.
Definition put_node (n : Z) (x : timer_chain_node_t) : TM unit :=
  upd_st (fun s => set_chain (timer_chain_head s) (<[n := x]> (nodes s)) s).
Definition drop_node (n : Z) : TM unit := upd_st (fun s => set_chain (timer_chain_head s) (delete n (nodes s)) s).

(** The first loop: [count] nodes, each before the previous; [None] when one cannot be allocated. *)
Fixpoint chain_alloc (count : nat) (prev : Z) : TM (option Z) :=
  match count with
  | O => mret (Some prev)
  | S count =>
      node ← malloc sizeof_chain_node;
      if node =? NULL then mret None
      else put_node node (ChainNode NULL prev);; chain_alloc count node
  end.

(** The clean-up: every node from the head is freed, its timer deleted. *)
Fixpoint chain_cleanup (fuel : nat) : TM unit :=
  match fuel with
  | O => nofuel
  | S fuel =>
      tmp ← st timer_chain_head;
      if tmp =? NULL then mret tt
      else
        x ← node_at tmp;
        upd_st (fun s => set_chain (cn_next x) (nodes s) s);;
        when (truthy (cn_timer x)) (timer_delete (cn_timer x));;
        release tmp;;
        drop_node tmp;;
        chain_cleanup fuel
  end.

(** "chain_tmr". *)
Definition chain_timer_name : list Z := [99; 104; 97; 105; 110; 95; 116; 109; 114].

(** The second loop, at node [curr] and index [i]; the result says whether every timer was created.  Reading an array out of
    bounds, or through a null [params], is undefined. *)
Fixpoint chain_timers (fuel : nat) (times callbacks : list Z) (params : option (list Z)) (count i : Z) (curr : Z) : TM bool :=
  match fuel with
  | O => nofuel
  | S fuel =>
      if (curr =? NULL) || (count <=? i) then mret true
      else
        x ← node_at curr;
        cb ← (if truthy (cn_next x) || (i =? count -32 1) then of_option (callbacks !! Z.to_nat i) else mret (timer_chain_callback_entry sym));
        p ← (if truthy (cn_next x) then mret curr else of_option (params ≫= fun ps => ps !! Z.to_nat i));
        time ← of_option (times !! Z.to_nat i);
        t ← timer_create (Some chain_timer_name) cb p time TIMER_TYPE_ONE_SHOT;
        put_node curr (ChainNode t (cn_next x));;
        if t =? NULL then
          fuel ← gets (fun w => S (size (nodes (glob w))));
          chain_cleanup fuel;;
          mret false
        else chain_timers fuel times callbacks params count (i + 1) (cn_next x)
  end.

Definition timer_chain_create (times callbacks params : option (list Z)) (count : Z) : TM Z :=
  match times, callbacks with
  | Some times, Some callbacks =>
      if count =? 0 then mret 0
      else
        h ← chain_alloc (Z.to_nat count) NULL;
        match h with
        | None => mret 0
        | Some h =>
            upd_st (fun s => set_chain h (nodes s) s);;
            ok ← chain_timers (S (Z.to_nat count)) times callbacks params count 0 h;
            if negb ok then mret 0
            else
              h ← st timer_chain_head;
              (if h =? NULL then mret tt
               else x ← node_at h; when (truthy (cn_timer x)) (_ ← timer_start (cn_timer x) 0; mret tt));;
              mret 1
        end
  | _, _ => mret 0
  end.

(** ** The pool *)

Definition pool_slot (i : Z) : Z := timer_pool_buf sym + sizeof_sw_timer * i.

Definition timer_pool_init : TM unit :=
  modify (fun w => set_objs (foldr (fun i m => <[pool_slot i := zero_timer]> m) (objs w) (seqZ 0 TIMER_POOL_SIZE)) w);;
  upd_st (set_pool (Z.shiftl 1 TIMER_POOL_SIZE - 1)).

(** The loop over the slots from [i]. *)
Fixpoint pool_scan (n : nat) (i : Z) : TM Z :=
  match n with
  | O => mret NULL
  | S n =>
      mask ← st timer_pool_free_mask;
      if truthy (Z.land mask (Z.shiftl 1 i)) then
        upd_st (set_pool (Z.ldiff mask (Z.shiftl 1 i)));;
        put_obj (pool_slot i) (set_tm_id (i + 1000) zero_timer);;
        mret (pool_slot i)
      else pool_scan n (i + 1)
  end.
Definition timer_pool_alloc : TM Z := pool_scan (Z.to_nat TIMER_POOL_SIZE) 0.

Definition timer_pool_free (t : Z) : TM unit :=
  if t =? NULL then mret tt
  else if (timer_pool_buf sym <=? t) && (t <? timer_pool_buf sym + sizeof_sw_timer * TIMER_POOL_SIZE) then
    let idx := (t - timer_pool_buf sym) / sizeof_sw_timer in
    upd_st (fun s => set_pool (Z.lor (timer_pool_free_mask s) (Z.shiftl 1 idx)) s);;
    upd_obj t (fun x => clear_tm_callback (set_tm_run 0 (tm_expiry x) x))
  else mret tt.
End timers.

(** ** Linked segments

    [l], addresses with what a record shows of itself, linked through [next] from [h] up to [k]. *)
Section segments.
Context {R V : Type} (next : R -> Z) (view : R -> V).
Implicit Types (m : gmap Z R) (l : list (Z * V)).

Fixpoint lseg m (h : Z) l (k : Z) : Prop :=
  match l with
  | [] => h = k
  | (a, v) :: l => h = a /\ a <> NULL /\ exists r, m !! a = Some r /\ view r = v /\ lseg m (next r) l k
  end.

Lemma lseg_app m h l1 l2 k : lseg m h (l1 ++ l2) k <-> exists j, lseg m h l1 j /\ lseg m j l2 k.
Proof.
  revert h. induction l1 as [|[a v] l1 IH]; intros h; cbn [lseg app].
  - split; [intros H; by exists h|]. by intros (j & -> & H).
  - split.
    + intros (-> & Ha & r & Hr & Hv & H). apply IH in H as (j & H1 & H2). exists j. split; [|done]. split; [done|]. split; [done|]. by exists r.
    + intros (j & (-> & Ha & r & Hr & Hv & H1) & H2). split; [done|]. split; [done|]. exists r. split; [done|]. split; [done|]. apply IH. by exists j.
Qed.

Lemma lseg_frame m m' h l k : (forall a, a ∈ l.*1 -> m' !! a = m !! a) -> lseg m h l k -> lseg m' h l k.
Proof.
  revert h. induction l as [|[a v] l IH]; intros h Hf H; [done|]. destruct H as (-> & Ha & r & Hr & Hv & H). cbn [lseg].
  split; [done|]. split; [done|]. exists r. rewrite Hf by (cbn; left). split; [done|]. split; [done|]. apply IH; [|done].
  intros b Hb. apply Hf. cbn. by right.
Qed.

Lemma lseg_in m h l k a v : lseg m h l k -> (a, v) ∈ l -> a <> NULL /\ exists r, m !! a = Some r /\ view r = v.
Proof.
  revert h. induction l as [|[b u] l IH]; intros h H Hin; [by apply not_elem_of_nil in Hin|].
  destruct H as (-> & Hb & r & Hr & Hv & H). apply elem_of_cons in Hin as [[= -> ->]|Hin]; [|by eapply IH]. split; [done|]. by exists r.
Qed.
Lemma lseg_in_dom m h l k a : lseg m h l k -> a ∈ l.*1 -> a <> NULL /\ is_Some (m !! a).
Proof.
  intros H [[b v] [-> Hin]]%list_elem_of_fmap. destruct (lseg_in _ _ _ _ _ _ H Hin) as (Ha & r & Hr & _). split; [done|by exists r].
Qed.

Lemma lseg_size m h l k : lseg m h l k -> NoDup l.*1 -> (length l <= size m)%nat.
Proof.
  intros H Hn. rewrite <- (length_fmap fst l), <- (size_list_to_set (C := gset Z) l.*1 Hn), <- size_dom. apply subseteq_size.
  intros a Ha. apply elem_of_list_to_set in Ha. apply elem_of_dom. by eapply lseg_in_dom.
Qed.

(** Entry [a] shown as [f] of what it was. *)
Definition map_at (a : Z) (f : V -> V) l : list (Z * V) := (fun p => if p.1 =? a then (p.1, f p.2) else p) <$> l.
Lemma map_at_fst a f l : (map_at a f l).*1 = l.*1.
Proof. unfold map_at. rewrite <- list_fmap_compose. apply list_fmap_ext. intros i [b v] _. cbn. by destruct (b =? a). Qed.
Lemma map_at_notin a f l : a ∉ l.*1 -> map_at a f l = l.
Proof.
  induction l as [|[b v] l IH]; intros H; [done|]. cbn in *. apply not_elem_of_cons in H as [Hne H].
  rewrite (proj2 (Z.eqb_neq b a)) by congruence. f_equal. by apply IH.
Qed.

Lemma lseg_update m h l k a (g : R -> R) (f : V -> V) r :
  (forall r, next (g r) = next r) -> (forall r, view (g r) = f (view r)) -> m !! a = Some r -> NoDup l.*1 ->
  lseg m h l k -> lseg (<[a := g r]> m) h (map_at a f l) k.
Proof.
  intros Hn Hg Ha. revert h. induction l as [|[b v] l IH]; intros h Hd H; [done|]. destruct H as (-> & Hb & x & Hx & Hv & H).
  cbn in Hd. apply NoDup_cons in Hd as [Hnb Hd]. cbn. destruct (Z.eqb_spec b a) as [->|Hne].
  - simplify_eq. split; [done|]. split; [done|]. exists (g r). rewrite lookup_insert_eq. split; [done|]. split; [by rewrite Hg|].
    fold (map_at a f l). rewrite Hn, map_at_notin by done. eapply lseg_frame; [|exact H]. intros c Hc. apply lookup_insert_ne. congruence.
  - split; [done|]. split; [done|]. exists x. rewrite lookup_insert_ne by done. split; [done|]. split; [done|]. by apply IH.
Qed.
End segments.

(** The last address of a list, or null. *)
Definition last_addr {V} (l : list (Z * V)) : Z := default NULL (last l.*1).
Lemma tail_addr_snoc {V} (l : list (Z * V)) a v : last_addr (l ++ [(a, v)]) = a.
Proof. unfold last_addr. rewrite fmap_app. cbn [fmap list_fmap fst]. by rewrite last_snoc. Qed.

(** ** What the service holds

    The timers, in the order of the list, and the commands that wait, in theirs. *)
Record timer_view := TimerView { v_type : timer_type_t; v_callback : Z; v_param : Z; v_period : Z; v_expiry : Z; v_active : Z }.
Definition view_of (x : sw_timer_t) : timer_view :=
  TimerView (tm_type x) (tm_callback x) (tm_param x) (tm_period x) (tm_expiry x) (tm_active x).
Record command := Command { c_type : timer_cmd_type_t; c_timer : Z; c_period : Z }.
Definition command_of (c : timer_cmd_t) : command := Command (tc_type c) (tc_timer c) (tc_period c).
Definition set_v_run (active expiry : Z) (v : timer_view) : timer_view :=
  TimerView (v_type v) (v_callback v) (v_param v) (v_period v) expiry active.
Definition set_v_period (p : Z) (v : timer_view) : timer_view :=
  TimerView (v_type v) (v_callback v) (v_param v) p (v_expiry v) (v_active v).

Section service.
Context {A : Type}.
Notation world := (sync sw_timer_t (timer_statics A)).
Implicit Types (w : world) (T : list (Z * timer_view)) (C : list (Z * command)).

Record service w T C : Prop := {
  sv_heap : exists ab, heap_inv (heap (kern w)) ab;
  sv_timers : lseg tm_next view_of (objs w) (timer_list (glob w)) T NULL;
  sv_cmds : lseg tc_next command_of (cmds (glob w)) (cmd_queue_head (glob w)) C NULL;
  sv_tail : cmd_queue_tail (glob w) = last_addr C;
  sv_nodup : NoDup (T.*1 ++ C.*1);
  sv_timer_mem : forall t, t ∈ T.*1 -> owned (heap (kern w)) t sizeof_sw_timer;
  sv_cmd_mem : forall c, c ∈ C.*1 -> owned (heap (kern w)) c sizeof_timer_cmd }.

(** What no operation of the service touches: the kernel beside its heap, the application, the daemon's flag, the chain's nodes. *)
Definition frame w w' : Prop :=
  kern w' = Scheduler.set_heap (heap (kern w')) (kern w) /\ application (glob w') = application (glob w) /\
  timer_daemon_initialized (glob w') = timer_daemon_initialized (glob w) /\ nodes (glob w') = nodes (glob w).

Lemma frame_refl w : frame w w.
Proof. split; [by destruct w as [[] ? ?]|done]. Qed.
Lemma frame_trans w1 w2 w3 : frame w1 w2 -> frame w2 w3 -> frame w1 w3.
Proof. intros (H1 & H2 & H3 & H4) (K1 & K2 & K3 & K4). split; [by rewrite K1, H1|]. split_and!; congruence. Qed.
Lemma frame_tick w w' : frame w w' -> tick_count (kern w') = tick_count (kern w).
Proof. intros (H & _). by rewrite H. Qed.

Lemma service_nodup_t w T C : service w T C -> NoDup T.*1.
Proof. intros H. by apply sv_nodup in H as (? & _ & _)%NoDup_app. Qed.
Lemma service_nodup_c w T C : service w T C -> NoDup C.*1.
Proof. intros H. by apply sv_nodup in H as (_ & _ & ?)%NoDup_app. Qed.
Lemma service_disjoint w T C a : service w T C -> a ∈ T.*1 -> a ∈ C.*1 -> False.
Proof. intros H Ht Hc. apply sv_nodup in H as (_ & Hd & _)%NoDup_app. by eapply Hd. Qed.
Lemma service_kern w T C k : service w T C -> heap k = heap (kern w) -> service (set_kern k w) T C.
Proof. intros [] E. constructor; cbn [kern objs glob set_kern]; rewrite ?E; done. Qed.
Lemma service_heap w T C h ab :
  service w T C -> heap_inv h ab -> (forall q n, owned (heap (kern w)) q n -> owned h q n) ->
  service (set_kern (Scheduler.set_heap h (kern w)) w) T C.
Proof. intros [] Hi Ho. constructor; cbn [kern objs glob set_kern heap Scheduler.set_heap]; eauto. Qed.

(** One step of a program. *)
Lemma bind_st {B D} (f : timer_statics A -> B) (k : B -> M world D) w : (st f ≫= k) w = k (f (glob w)) w.
Proof. done. Qed.
Lemma bind_upd_st {D} (f : timer_statics A -> timer_statics A) (k : unit -> M world D) w : (upd_st f ≫= k) w = k tt (set_glob (f (glob w)) w).
Proof. done. Qed.
Lemma bind_obj {D} t x (k : sw_timer_t -> M world D) w : objs w !! t = Some x -> (obj t ≫= k) w = k x w.
Proof. intros E. unfold mbind, M_bind, obj. by rewrite E. Qed.
Lemma bind_upd_obj {D} t x f (k : unit -> M world D) w :
  objs w !! t = Some x -> (upd_obj t f ≫= k) w = k tt (set_objs (<[t := f x]> (objs w)) w).
Proof. intros E. unfold upd_obj. by rewrite bind_assoc, (bind_obj _ _ _ _ E). Qed.
Lemma bind_cmd_at {D} c x (k : timer_cmd_t -> M world D) w : cmds (glob w) !! c = Some x -> (cmd_at c ≫= k) w = k x w.
Proof. intros E. unfold mbind, M_bind, cmd_at. by rewrite E. Qed.
Definition with_cmds (h t : Z) (m : gmap Z timer_cmd_t) w : world := set_glob (set_cmds h t m (glob w)) w.
Lemma bind_put_cmd {D} c x (k : unit -> M world D) w :
  (put_cmd c x ≫= k) w = k tt (with_cmds (cmd_queue_head (glob w)) (cmd_queue_tail (glob w)) (<[c := x]> (cmds (glob w))) w).
Proof. done. Qed.
Lemma bind_upd_cmd {D} c x f (k : unit -> M world D) w :
  cmds (glob w) !! c = Some x ->
  (upd_cmd c f ≫= k) w = k tt (with_cmds (cmd_queue_head (glob w)) (cmd_queue_tail (glob w)) (<[c := f x]> (cmds (glob w))) w).
Proof. intros E. unfold upd_cmd. by rewrite bind_assoc, (bind_cmd_at _ _ _ _ E). Qed.

Lemma bind_tick {D} (k : Z -> M world D) w : (on_kern task_get_tick_count ≫= k) w = k (tick_count (kern w)) w.
Proof. by destruct w. Qed.

(** The command list replaced by another. *)
Lemma service_with_cmds w T C C' h t m :
  service w T C -> lseg tc_next command_of m h C' NULL -> t = last_addr C' -> NoDup (T.*1 ++ C'.*1) ->
  (forall c, c ∈ C'.*1 -> owned (heap (kern w)) c sizeof_timer_cmd) -> service (with_cmds h t m w) T C'.
Proof. intros [] H1 H2 H3 H4. constructor; cbn [kern objs glob set_glob with_cmds cmds cmd_queue_head cmd_queue_tail set_cmds timer_list]; done. Qed.

Lemma frame_heap w h : frame w (set_kern (Scheduler.set_heap h (kern w)) w).
Proof. split; [done|]. by split. Qed.
Lemma frame_with_cmds w h t m : frame w (with_cmds h t m w).
Proof. split; [by destruct w as [[] ? ?]|]. by split. Qed.
Lemma frame_objs w m : frame w (set_objs m w).
Proof. split; [by destruct w as [[] ? ?]|]. by split. Qed.

(** A cell not yet in the list. *)
Record loose w T C (c : Z) (x : timer_cmd_t) : Prop := {
  lo_null : c <> NULL;
  lo_timers : c ∉ T.*1;
  lo_cmds : c ∉ C.*1;
  lo_rec : cmds (glob w) !! c = Some x;
  lo_mem : owned (heap (kern w)) c sizeof_timer_cmd }.

Lemma alloc_ok w T C :
  service w T C ->
  exists c w', timer_cmd_alloc w = Done (c, w') /\ service w' T C /\ frame w w' /\
    (c = NULL \/ loose w' T C c (Cmd TIMER_CMD_START NULL 0 NULL)).
Proof.
  intros S. destruct (sv_heap _ _ _ S) as [ab Hi].
  destruct (malloc_owned (heap (kern w)) ab sizeof_timer_cmd Hi ltac:(unfold sizeof_timer_cmd; lia)) as (c & h1 & ab1 & E1 & Hi1 & Ho1 & Hc).
  unfold timer_cmd_alloc, malloc. rewrite (bind_step _ _ _ _ _ (on_kern_Done _ w _ _ (on_heap_Done _ _ _ _ E1))).
  set (w1 := set_kern _ w). assert (service w1 T C) as S1 by (by eapply service_heap).
  destruct Hc as [-> |(Hc0 & Hoc & Hnew)].
  { exists NULL, w1. split; [done|]. split; [done|]. split; [apply frame_heap|by left]. }
  unfold truthy. rewrite (proj2 (Z.eqb_neq c 0)) by done. cbn [negb when].
  destruct (memset_owned h1 ab1 c sizeof_timer_cmd 0 c sizeof_timer_cmd Hi1 Hoc ltac:(lia) ltac:(lia)) as [E2 S2].
  match type of E2 with _ = Done (_, ?x) => set (h2 := x) in * end.
  assert (forall q n, owned h1 q n -> owned h2 q n) as Ho2 by (intros; by eapply same_blocks_owned; [apply Hi1|..]).
  rewrite bind_assoc, (bind_step _ _ _ _ _ (on_kern_Done _ w1 _ _ (on_heap_Done _ _ _ _ E2))). set (w2 := set_kern _ w1).
  rewrite bind_put_cmd. eexists c, _. split; [reflexivity|].
  assert (service w2 T C) as S3 by (eapply (service_heap w1); [exact S1|apply S2|exact Ho2]).
  assert (c ∉ T.*1 /\ c ∉ C.*1) as [HT HC].
  { split; intros Hin; eapply Hnew; [by eapply (sv_timer_mem w)|done|by eapply (sv_cmd_mem w)|done]. }
  split.
  - apply (service_with_cmds w2 T C C); try apply S3. eapply lseg_frame; [|apply S3]. intros a Ha. apply lookup_insert_ne. congruence.
  - split; [eapply frame_trans; [|apply frame_with_cmds]; eapply frame_trans; apply frame_heap|]. right.
    constructor; [done|done|done| |by apply Ho2]. apply lookup_insert_eq.
Qed.

Lemma lseg_snoc (m : gmap Z timer_cmd_t) h C c x :
  lseg tc_next command_of m h C NULL -> NoDup C.*1 -> c ∉ C.*1 -> c <> NULL -> m !! c = Some x -> tc_next x = NULL ->
  exists h' m', lseg tc_next command_of m' h' (C ++ [(c, command_of x)]) NULL /\
    (if truthy (last_addr C) then h' = h /\ exists r, m !! last_addr C = Some r /\ m' = <[last_addr C := set_tc_next c r]> m else h' = c /\ m' = m).
Proof.
  intros H Hd Hc Hc0 Hx Hn. destruct C as [|[a y] C' _] using rev_ind.
  - exists c, m. cbn. split; [|done]. split; [done|]. split; [done|]. exists x. by rewrite Hn.
  - rewrite tail_addr_snoc. apply lseg_app in H as (j & H1 & (-> & Ha & r & Hr & Hv & Hnr)). cbn in Hnr.
    unfold truthy. rewrite (proj2 (Z.eqb_neq a 0)) by done. cbn [negb]. exists h, (<[a := set_tc_next c r]> m).
    rewrite fmap_app in Hd, Hc. apply NoDup_app in Hd as (Hd1 & Hd2 & _). cbn in Hd2, Hc.
    assert (a ∉ C'.*1) as Ha' by (intros Hin; apply (Hd2 a Hin); left).
    assert (c <> a) as Hca by (intros ->; apply Hc; apply elem_of_app; right; left).
    split; [|split; [done|by exists r]]. apply lseg_app. exists c. split; [apply lseg_app; exists a; split|].
    + eapply lseg_frame; [|exact H1]. intros b Hb. apply lookup_insert_ne. congruence.
    + split; [done|]. split; [done|]. exists (set_tc_next c r). rewrite lookup_insert_eq. split; [done|]. by split.
    + split; [done|]. split; [done|]. exists x. rewrite lookup_insert_ne by done. split; [done|]. by split.
Qed.

Lemma nodup_snoc T C c (v : command) : NoDup (T.*1 ++ C.*1) -> c ∉ T.*1 -> c ∉ C.*1 -> NoDup (T.*1 ++ (C ++ [(c, v)]).*1).
Proof.
  intros Hd HT HC. rewrite fmap_app, app_assoc. apply NoDup_app. split; [done|]. split; [|apply NoDup_singleton].
  intros a Ha Hc. apply list_elem_of_singleton in Hc as ->. by apply elem_of_app in Ha as [|].
Qed.

Lemma enqueue_ok w T C c x :
  service w T C -> loose w T C c x ->
  exists w', timer_enqueue_cmd c w = Done (tt, w') /\ service w' T (C ++ [(c, command_of x)]) /\ frame w w'.
Proof.
  intros S L. destruct L as [Hc0 HT HC Hx Hm]. unfold timer_enqueue_cmd. rewrite (bind_upd_cmd _ _ _ _ _ Hx), bind_st.
  set (x1 := set_tc_next NULL x). set (m1 := <[c := x1]> (cmds (glob w))).
  assert (lseg tc_next command_of m1 (cmd_queue_head (glob w)) C NULL) as H1.
  { eapply lseg_frame; [|apply S]. intros a Ha. apply lookup_insert_ne. congruence. }
  destruct (lseg_snoc m1 _ C c x1 H1 (service_nodup_c _ _ _ S) HC Hc0 ltac:(apply lookup_insert_eq) eq_refl) as (h' & m' & H2 & Hcase).
  cbn [glob set_glob with_cmds cmd_queue_tail set_cmds]. rewrite (sv_tail _ _ _ S).
  assert (exists w', ((if truthy (last_addr C) then upd_cmd (last_addr C) (set_tc_next c) else set_head c) ≫= (fun _ => set_tail c))
    (with_cmds (cmd_queue_head (glob w)) (last_addr C) m1 w) = Done (tt, w') /\ w' = with_cmds h' c m' w) as (w' & E & ->).
  { destruct (truthy (last_addr C)).
    - destruct Hcase as (-> & r & Hr & ->). eexists. split; [|reflexivity]. by rewrite (bind_upd_cmd _ r).
    - destruct Hcase as (-> & ->). eexists. split; [|reflexivity]. done. }
  eexists. split; [exact E|]. split; [|apply frame_with_cmds].
  apply (service_with_cmds w T C); [done|exact H2|by rewrite tail_addr_snoc|by apply nodup_snoc, HC; [apply S|]|].
  intros b Hb. rewrite fmap_app in Hb. apply elem_of_app in Hb as [Hb|Hb]; [by eapply sv_cmd_mem|]. by apply list_elem_of_singleton in Hb as ->.
Qed.

Lemma nesting_back n : 0 <= n < UINT32_MAX -> u32 (u32 (n + 1) - 1) = n.
Proof. unfold UINT32_MAX. intros H. rewrite (u32_small (n + 1)) by lia. rewrite u32_small; lia. Qed.

Definition enter w : world := set_kern (set_critical_nesting (critical_nesting (kern w) +32 1) (kern w)) w.
Definition leave w : world := set_kern (set_critical_nesting (critical_nesting (kern w) -32 1) (kern w)) w.

(** A computation within a critical section. *)
Lemma critical_frame w w1 : 0 <= critical_nesting (kern w) < UINT32_MAX -> frame (enter w) w1 -> frame w (leave w1).
Proof.
  intros Hn (H1 & H2 & H3). split; [|by split]. cbn [kern leave set_kern].
  rewrite H1. cbn. rewrite nesting_back by done. by destruct (kern w).
Qed.
Lemma service_enter w T C : service w T C -> service (enter w) T C.
Proof. intros S. by apply service_kern. Qed.
Lemma service_leave w T C : service w T C -> service (leave w) T C.
Proof. intros S. by apply service_kern. Qed.
Lemma loose_enter w T C c x : loose w T C c x -> loose (enter w) T C c x.
Proof. by intros []. Qed.

Lemma post_ok critical type t period w T C :
  service w T C -> 0 <= critical_nesting (kern w) < UINT32_MAX -> t <> NULL ->
  exists r w', post critical type t period w = Done (r, w') /\ frame w w' /\
    (r = -1 /\ service w' T C \/ r = 1 /\ exists c, service w' T (C ++ [(c, Command type t period)])).
Proof.
  intros S Hn Ht. unfold post. rewrite (proj2 (Z.eqb_neq t NULL)) by done.
  destruct (alloc_ok w T C S) as (c & w1 & E1 & S1 & F1 & Hc). rewrite (bind_step _ _ _ _ _ E1).
  destruct Hc as [-> |L]; [exists (-1), w1; split; [done|]; split; [done|by left]|].
  rewrite (proj2 (Z.eqb_neq c NULL)) by apply L. rewrite (bind_upd_cmd _ _ _ _ _ (lo_rec _ _ _ _ _ L)).
  set (x := Cmd type t period _). set (w2 := with_cmds _ _ _ w1).
  assert (service w2 T C) as S2.
  { apply (service_with_cmds w1 T C C); try apply S1. eapply lseg_frame; [|apply S1]. intros a Ha. apply lookup_insert_ne.
    intros <-. by apply (lo_cmds _ _ _ _ _ L). }
  assert (loose w2 T C c x) as L2 by (destruct L; constructor; try done; apply lookup_insert_eq).
  assert (frame w w2) as F2 by (eapply frame_trans; [exact F1|apply frame_with_cmds]).
  assert (critical_nesting (kern w2) = critical_nesting (kern w)) as En by (destruct F2 as (H & _); by rewrite H).
  destruct critical; cbn [when].
  - change ((on_kern task_enter_critical ≫= ?k) w2) with (k tt (enter w2)). cbv beta.
    destruct (enqueue_ok (enter w2) T C c x (service_enter _ _ _ S2) (loose_enter _ _ _ _ _ L2)) as (w3 & E3 & S3 & F3).
    rewrite (bind_step _ _ _ _ _ E3). exists 1, (leave w3). split; [done|]. split.
    + eapply frame_trans; [exact F2|]. apply critical_frame; [by rewrite En|done].
    + right. split; [done|]. exists c. by apply service_leave.
  - destruct (enqueue_ok w2 T C c x S2 L2) as (w3 & E3 & S3 & F3). rewrite bind_ret, (bind_step _ _ _ _ _ E3).
    exists 1, w3. split; [done|]. split; [by eapply frame_trans|]. right. split; [done|]. by exists c.
Qed.

(** The timers replaced by others. *)
Definition with_timers (l id : Z) (m : gmap Z sw_timer_t) w : world := set_objs m (set_glob (set_timers l id (glob w)) w).
Lemma service_with_timers w T C l id m T' :
  service w T C -> lseg tm_next view_of m l T' NULL -> NoDup (T'.*1 ++ C.*1) ->
  (forall t, t ∈ T'.*1 -> owned (heap (kern w)) t sizeof_sw_timer) -> service (with_timers l id m w) T' C.
Proof. intros [] H1 H2 H3. constructor; cbn [kern objs glob set_glob set_objs with_timers cmds cmd_queue_head cmd_queue_tail set_timers timer_list]; done. Qed.
Lemma frame_with_timers w l id m : frame w (with_timers l id m w).
Proof. split; [by destruct w as [[] ? ?]|]. by split. Qed.
Lemma set_objs_with_timers m w : set_objs m w = with_timers (timer_list (glob w)) (next_timer_id (glob w)) m w.
Proof. by destruct w as [? ? []]. Qed.

Lemma create_ok name cb param period type w T C :
  service w T C -> 0 <= critical_nesting (kern w) < UINT32_MAX -> cb <> NULL -> period <> 0 -> timer_daemon_initialized (glob w) = true ->
  exists t w', timer_create name cb param period type w = Done (t, w') /\ frame w w' /\
    (t = NULL /\ service w' T C \/
     t <> NULL /\ t ∉ T.*1 /\ service w' ((t, TimerView type cb param period 0 0) :: T) C /\
     exists x, objs w' !! t = Some x /\ tm_id x = next_timer_id (glob w) /\ tm_name x = object_name name).
Proof.
  intros S Hn Hcb Hp Hi. unfold timer_create. rewrite (proj2 (Z.eqb_neq cb NULL)), (proj2 (Z.eqb_neq period 0)) by done.
  cbn [orb]. rewrite bind_st, Hi. cbn [negb]. destruct (sv_heap _ _ _ S) as [ab Hh].
  destruct (malloc_owned (heap (kern w)) ab sizeof_sw_timer Hh ltac:(unfold sizeof_sw_timer; lia)) as (t & h1 & ab1 & E1 & Hi1 & Ho1 & Hc).
  unfold malloc. rewrite (bind_step _ _ _ _ _ (on_kern_Done _ w _ _ (on_heap_Done _ _ _ _ E1))).
  set (w1 := set_kern _ w). assert (service w1 T C) as S1 by (by eapply service_heap).
  destruct Hc as [-> |(Ht0 & Hot & Hnew)].
  { exists NULL, w1. split; [done|]. split; [apply frame_heap|]. by left. }
  rewrite (proj2 (Z.eqb_neq t NULL)) by done.
  destruct (memset_owned h1 ab1 t sizeof_sw_timer 0 t sizeof_sw_timer Hi1 Hot ltac:(lia) ltac:(lia)) as [E2 S2].
  match type of E2 with _ = Done (_, ?x) => set (h2 := x) in * end.
  assert (forall q n, owned h1 q n -> owned h2 q n) as Ho2 by (intros; by eapply same_blocks_owned; [apply Hi1|..]).
  rewrite (bind_step _ _ _ _ _ (on_kern_Done _ w1 _ _ (on_heap_Done _ _ _ _ E2))). set (w2 := set_kern _ w1).
  assert (service w2 T C) as S3 by (eapply (service_heap w1); [exact S1|apply S2|exact Ho2]).
  assert (t ∉ T.*1 /\ t ∉ C.*1) as [HT HC].
  { split; intros Hin; eapply Hnew; [by eapply (sv_timer_mem w)|done|by eapply (sv_cmd_mem w)|done]. }
  rewrite bind_st, bind_upd_st. set (id := next_timer_id (glob w)). change (next_timer_id (glob w2)) with id.
  set (x := Timer id type cb param period 0 0 (object_name name) NULL). set (l := timer_list (glob w)).
  set (x' := set_tm_next l x). set (m2 := <[t := x']> (<[t := x]> (objs w))).
  assert (forall k, objs (with_timers l (id +32 1) (<[t := x]> (objs w)) k) !! t = Some x) as Hx by (intros k; apply lookup_insert_eq).
  exists t, (leave (with_timers t (id +32 1) m2 (enter w2))). split.
  - unfold put_obj. rewrite bind_modify.
    change ((on_kern task_enter_critical ≫= ?k) ?s) with (k tt (enter s)). cbv beta. rewrite bind_st.
    erewrite bind_upd_obj by (apply lookup_insert_eq). reflexivity.
  - split; [|right; split; [done|]; split; [done|]; split; [|exists x'; split; [apply lookup_insert_eq|done]]].
    + eapply frame_trans; [|apply critical_frame; [|apply (frame_with_timers (enter w2))]; done].
      eapply frame_trans; apply frame_heap.
    + apply service_leave, (service_with_timers (enter w2) T C); [by apply service_enter|..].
      * cbn [lseg]. split; [done|]. split; [done|]. exists x'. unfold m2. rewrite lookup_insert_eq. split; [done|]. split; [done|].
        eapply lseg_frame; [|apply S]. intros a Ha. rewrite !lookup_insert_ne by congruence. done.
      * cbn. apply NoDup_cons. split; [|apply S]. rewrite elem_of_app. tauto.
      * intros a Ha. cbn in Ha. apply elem_of_cons in Ha as [->|Ha]; [by apply Ho2|by apply (sv_timer_mem _ _ _ S3)].
Qed.

(** ** What a command does *)

Definition without (t : Z) T : list (Z * timer_view) := filter (fun p => p.1 <> t) T.
Definition apply_cmd (now : Z) (c : command) T : list (Z * timer_view) :=
  match c_type c with
  | TIMER_CMD_START | TIMER_CMD_RESET => map_at (c_timer c) (set_v_run 1 (now +32 c_period c)) T
  | TIMER_CMD_STOP => map_at (c_timer c) (set_v_run 0 0) T
  | TIMER_CMD_CHANGE_PERIOD =>
      map_at (c_timer c) (fun v => let v := set_v_period (c_period c) v in if truthy (v_active v) then set_v_run (v_active v) (now +32 c_period c) v else v) T
  | TIMER_CMD_DELETE => without (c_timer c) T
  end.

Lemma dequeue_ok w T C c v :
  service w T ((c, v) :: C) ->
  exists w' x, timer_dequeue_cmd w = Done (c, w') /\ service w' T C /\ loose w' T C c x /\ command_of x = v /\ frame w w' /\ objs w' = objs w.
Proof.
  intros S. destruct (sv_cmds _ _ _ S) as (Eh & Hc0 & x & Hx & Hv & Hr). unfold timer_dequeue_cmd. rewrite bind_st, Eh.
  unfold truthy. rewrite (proj2 (Z.eqb_neq c 0)) by done. cbn [negb when]. rewrite bind_assoc, (bind_cmd_at _ _ _ _ Hx).
  rewrite bind_assoc. unfold set_head at 1. rewrite bind_upd_st, bind_assoc, bind_st. cbn [glob set_glob set_cmds cmd_queue_head].
  pose proof (service_nodup_c _ _ _ S) as Hd. cbn in Hd. apply NoDup_cons in Hd as [HcC Hd].
  assert ((if tc_next x =? NULL then NULL else cmd_queue_tail (glob w)) = last_addr C) as Et.
  { rewrite (sv_tail _ _ _ S). destruct C as [|[a u] C']; cbn in Hr; [by rewrite Hr|]. destruct Hr as (-> & Ha & _).
    by rewrite (proj2 (Z.eqb_neq a NULL)). }
  set (w1 := with_cmds (tc_next x) (last_addr C) (<[c := set_tc_next NULL x]> (cmds (glob w))) w).
  exists w1, (set_tc_next NULL x). split.
  - rewrite bind_assoc. unfold w1. rewrite <- Et. destruct (tc_next x =? NULL); cbn [when].
    + unfold set_tail. rewrite bind_upd_st. by rewrite (bind_upd_cmd _ x).
    + by rewrite bind_ret, (bind_upd_cmd _ x).
  - assert (service w1 T C) as S1.
    { apply (service_with_cmds w T ((c, v) :: C)); [done| |done| |].
      - eapply lseg_frame; [|exact Hr]. intros a Ha. apply lookup_insert_ne. congruence.
      - pose proof (sv_nodup _ _ _ S) as Hn. cbn in Hn. rewrite <- Permutation_middle in Hn. by apply NoDup_cons in Hn as [_ Hn].
      - intros a Ha. apply (sv_cmd_mem _ _ _ S). cbn. by right. }
    split; [done|]. split; [|split; [done|split; [apply frame_with_cmds|done]]]. constructor; [done| |done|apply lookup_insert_eq|].
    + intros Hin. eapply (service_disjoint _ _ _ c S Hin). cbn. left.
    + apply (sv_cmd_mem _ _ _ S). cbn. left.
Qed.

(** Giving back memory that no timer or command uses. *)
Lemma release_ok p n w T C :
  service w T C -> owned (heap (kern w)) p n -> p ∉ T.*1 -> p ∉ C.*1 ->
  exists w', release p w = Done (tt, w') /\ service w' T C /\ frame w w' /\ objs w' = objs w /\ glob w' = glob w /\
    (forall q m, owned (heap (kern w)) q m -> q <> p -> owned (heap (kern w')) q m).
Proof.
  intros S Ho HT HC. destruct (sv_heap _ _ _ S) as [ab Hi]. destruct (free_owned _ ab p n Hi Ho) as (h1 & ab1 & E & Hi1 & Ho1).
  exists (set_kern (Scheduler.set_heap h1 (kern w)) w). split; [by apply (on_kern_Done _ w), on_heap_Done|].
  split; [|split; [apply frame_heap|done]]. destruct S. constructor; cbn [kern objs glob set_kern heap Scheduler.set_heap]; eauto.
  - intros t Ht. apply Ho1; [by eauto|]. congruence.
  - intros c Hc. apply Ho1; [by eauto|]. congruence.
Qed.

Lemma cmd_free_ok w T C c x :
  service w T C -> loose w T C c x ->
  exists w', timer_cmd_free c w = Done (tt, w') /\ service w' T C /\ frame w w' /\ objs w' = objs w /\
    (forall q m, owned (heap (kern w)) q m -> q <> c -> owned (heap (kern w')) q m).
Proof.
  intros S [Hc0 HT HC Hx Hm]. destruct (release_ok c _ w T C S Hm HT HC) as (w1 & E & S1 & F1 & Eo & Eg & Ho).
  unfold timer_cmd_free. rewrite (bind_step _ _ _ _ _ E).
  exists (with_cmds (cmd_queue_head (glob w1)) (cmd_queue_tail (glob w1)) (delete c (cmds (glob w1))) w1).
  split; [done|]. split; [|split; [eapply frame_trans; [exact F1|apply frame_with_cmds]|by split]].
  apply (service_with_cmds w1 T C C); try apply S1. eapply lseg_frame; [|apply S1]. intros a Ha. apply lookup_delete_ne. congruence.
Qed.

(** Changing one timer in place. *)
Lemma update_ok w T C t (g : sw_timer_t -> sw_timer_t) (f : timer_view -> timer_view) x :
  (forall r, tm_next (g r) = tm_next r) -> (forall r, view_of (g r) = f (view_of r)) ->
  service w T C -> objs w !! t = Some x -> service (set_objs (<[t := g x]> (objs w)) w) (map_at t f T) C.
Proof.
  intros Hn Hg S Hx. rewrite set_objs_with_timers. apply (service_with_timers w T C).
  - done.
  - apply lseg_update; try done; [by eapply service_nodup_t|apply S].
  - rewrite map_at_fst. apply S.
  - rewrite map_at_fst. apply S.
Qed.

Lemma without_middle t v T1 T2 : t ∉ T1.*1 -> t ∉ T2.*1 -> without t (T1 ++ (t, v) :: T2) = T1 ++ T2.
Proof.
  intros H1 H2. unfold without. rewrite filter_app, filter_cons_False by (cbn; tauto).
  assert (forall T, t ∉ T.*1 -> filter (fun p : Z * timer_view => p.1 <> t) T = T) as Hf.
  { intros T H. induction T as [|[a u] T IH]; [done|]. cbn in H. apply not_elem_of_cons in H as [Ha H].
    rewrite filter_cons_True by (cbn; congruence). f_equal. by apply IH. }
  by rewrite !Hf.
Qed.

(** The walk to the deleted timer: behind it the list goes on where the timer pointed. *)
Lemma unlink_loop_ok fuel w P Q t v R cur :
  lseg tm_next view_of (objs w) (timer_list (glob w)) P cur -> lseg tm_next view_of (objs w) cur (Q ++ (t, v) :: R) NULL ->
  NoDup (P ++ Q ++ (t, v) :: R).*1 -> (length Q < fuel)%nat ->
  exists l m, unlink_loop fuel t (last_addr P) cur w = Done (tt, with_timers l (next_timer_id (glob w)) m w) /\
    lseg tm_next view_of m l (P ++ Q ++ R) NULL /\ dom m = dom (objs w).
Proof.
  revert P Q cur. induction fuel as [|fuel IH]; intros P Q cur HP HQ Hd Hf; [lia|]. cbn [unlink_loop].
  destruct Q as [|[a u] Q]; cbn [app] in HQ.
  - destruct HQ as (-> & Ht0 & x & Hx & Hv & HR). rewrite (proj2 (Z.eqb_neq t NULL)) by done. rewrite Z.eqb_refl, (bind_obj _ _ _ _ Hx).
    destruct P as [|[b y] P _] using rev_ind.
    + exists (tm_next x), (objs w). split; [cbn; by destruct w as [? ? []]|by split].
    + rewrite tail_addr_snoc. apply lseg_app in HP as (j & HP & -> & Hb & r & Hr & Hvr & En).
      cbn in En. rewrite (proj2 (Z.eqb_neq b NULL)) by done. rewrite (upd_obj_Done _ _ _ _ Hr), set_objs_with_timers.
      do 2 eexists. split; [reflexivity|]. split; [|by apply dom_insert_lookup_L; exists r].
      rewrite fmap_app in Hd. cbn [fmap list_fmap fst app] in Hd. rewrite fmap_app in Hd.
      apply NoDup_app in Hd as (HdP & HdPR & _). cbn in HdP, HdPR. apply NoDup_app in HdP as (_ & Hdb & _).
      rewrite <- app_assoc. cbn [app]. apply lseg_app. exists b. split.
      * eapply lseg_frame; [|exact HP]. intros c Hc. apply lookup_insert_ne. intros <-. apply (Hdb b Hc). left.
      * split; [done|]. split; [done|]. exists (set_tm_next (tm_next x) r). rewrite lookup_insert_eq. split; [done|]. split; [done|].
        eapply lseg_frame; [|exact HR]. intros c Hc. apply lookup_insert_ne. intros <-. apply (HdPR b); [apply elem_of_app; right; left|].
        apply elem_of_cons. by right.
  - destruct HQ as (-> & Ha0 & x & Hx & Hv & HQ). rewrite (proj2 (Z.eqb_neq a NULL)) by done.
    assert (a <> t) as Hat.
    { rewrite fmap_app in Hd. apply NoDup_app in Hd as (_ & _ & Hd). cbn in Hd. apply NoDup_cons in Hd as [Hn _]. intros ->. apply Hn.
      rewrite fmap_app. apply elem_of_app. right. left. }
    rewrite (proj2 (Z.eqb_neq a t)) by done. rewrite (bind_obj _ _ _ _ Hx).
    destruct (IH (P ++ [(a, u)]) Q (tm_next x)) as (l & m & E & H).
    + apply lseg_app. exists a. split; [done|]. split; [done|]. split; [done|]. by exists x.
    + done.
    + by rewrite <- app_assoc.
    + cbn in Hf. lia.
    + rewrite tail_addr_snoc in E. exists l, m. split; [exact E|]. rewrite <- app_assoc in H. exact H.
Qed.

Lemma loose_update w T C c x t f m : loose w T C c x -> loose (set_objs m w) (map_at t f T) C c x.
Proof. intros []. constructor; rewrite ?map_at_fst; done. Qed.

(** The only timers are those of the list. *)
Definition tight w T : Prop := dom (objs w) = list_to_set T.*1.

Lemma tight_update w T t f x y : tight w T -> objs w !! t = Some x -> tight (set_objs (<[t := y]> (objs w)) w) (map_at t f T).
Proof. unfold tight. intros H Hx. cbn [objs set_objs]. rewrite map_at_fst, <- H. apply dom_insert_lookup_L. by exists x. Qed.

Lemma update_and_free w T C c y t g f x :
  (forall r, tm_next (g r) = tm_next r) -> (forall r, view_of (g r) = f (view_of r)) ->
  service w T C -> loose w T C c y -> objs w !! t = Some x ->
  exists w', (upd_obj t g ≫= fun _ => timer_cmd_free c) w = Done (tt, w') /\ service w' (map_at t f T) C /\ frame w w' /\
    (tight w T -> tight w' (map_at t f T)).
Proof.
  intros Hn Hg S L Hx. rewrite (bind_upd_obj _ _ _ _ _ Hx).
  destruct (cmd_free_ok _ _ _ c y (update_ok _ _ _ t g f x Hn Hg S Hx) (loose_update _ _ _ _ _ t f _ L)) as (w' & E & S' & F & Eo & _).
  exists w'. split; [exact E|]. split; [exact S'|]. split; [eapply frame_trans; [apply frame_objs|exact F]|].
  intros Ht. unfold tight. rewrite Eo. by eapply (tight_update w T t f).
Qed.

Lemma without_map_at t f T : without t (map_at t f T) = without t T.
Proof.
  unfold without, map_at. induction T as [|[a v] T IH]; [done|]. cbn [fmap list_fmap]. rewrite !filter_cons. cbn [fst snd].
  destruct (Z.eqb_spec a t) as [->|Hne]; cbn [fst].
  - by rewrite !decide_False by tauto.
  - rewrite !decide_True by done. by f_equal.
Qed.

Lemma without_fst t T : list_to_set (C := gset Z) (without t T).*1 = list_to_set T.*1 ∖ {[t]}.
Proof.
  unfold without. induction T as [|[a v] T IH]; [set_solver|]. rewrite filter_cons. cbn [fst].
  case_decide; cbn [fmap list_fmap list_to_set fst]; rewrite IH; set_solver.
Qed.

(** The rest of a DELETE: unlinking, and both pieces of memory given back. *)
Lemma delete_rest_ok w T C c x t :
  service w T C -> loose w T C c x -> t ∈ T.*1 ->
  exists w', (unlink_loop (S (size (objs w))) t NULL (timer_list (glob w)) ≫= fun _ => timer_cmd_free c ≫= fun _ => release t ≫= fun _ => drop_obj t) w =
    Done (tt, w') /\ service w' (without t T) C /\ frame w w' /\ dom (objs w') = dom (objs w) ∖ {[t]}.
Proof.
  intros S L Ht. pose proof (service_nodup_t _ _ _ S) as Hd. pose proof (lseg_size _ _ _ _ _ _ (sv_timers _ _ _ S) Hd) as Hsz.
  apply list_elem_of_fmap in Ht as ((t' & v) & -> & Hin). cbn [fst]. apply list_elem_of_split in Hin as (Ta & Tb & ->).
  rewrite length_app in Hsz. cbn in Hsz.
  destruct (unlink_loop_ok (Datatypes.S (size (objs w))) w [] Ta t' v Tb (timer_list (glob w))) as (l & m & E & Hl & Hm); [done|apply S|exact Hd|lia|].
  cbn [app] in Hl. unfold last_addr in E. cbn in E. change (default NULL None) with NULL in E. rewrite (bind_step _ _ _ _ _ E).
  rewrite fmap_app in Hd. cbn in Hd. pose proof Hd as Hd'. rewrite <- Permutation_middle in Hd'. apply NoDup_cons in Hd' as [Hnin Hd'].
  rewrite <- fmap_app in Hd'. assert (t' ∉ Ta.*1 /\ t' ∉ Tb.*1) as [Hta Htb] by (split; intros ?; apply Hnin, elem_of_app; tauto).
  rewrite without_middle by done. set (w1 := with_timers l _ m w).
  assert (forall a, a ∈ (Ta ++ Tb).*1 -> a ∈ (Ta ++ (t', v) :: Tb).*1) as Hsub.
  { intros a. rewrite !fmap_app, !elem_of_app. cbn. rewrite elem_of_cons. tauto. }
  assert (service w1 (Ta ++ Tb) C) as S1.
  { apply (service_with_timers w (Ta ++ (t', v) :: Tb) C); [done|done| |].
    - pose proof (sv_nodup _ _ _ S) as Hn. rewrite fmap_app in Hn. cbn in Hn. rewrite <- Permutation_middle, <- fmap_app in Hn.
      by apply NoDup_cons in Hn as [_ Hn].
    - intros a Ha. apply (sv_timer_mem _ _ _ S). by apply Hsub. }
  assert (t' ∈ (Ta ++ (t', v) :: Tb).*1) as Ht by (rewrite fmap_app; apply elem_of_app; right; left).
  assert (loose w1 (Ta ++ Tb) C c x) as L1.
  { destruct L as [? HcT ? ? ?]. constructor; try done. intros Hin. by apply HcT, Hsub. }
  destruct (cmd_free_ok w1 _ C c x S1 L1) as (w2 & E2 & S2 & F2 & Eo2 & Ho2). rewrite (bind_step _ _ _ _ _ E2).
  assert (owned (heap (kern w2)) t' sizeof_sw_timer) as Hot.
  { apply Ho2; [by apply (sv_timer_mem _ _ _ S)|]. intros ->. by apply (lo_timers _ _ _ _ _ L). }
  destruct (release_ok t' _ w2 (Ta ++ Tb) C S2 Hot) as (w3 & E3 & S3 & F3 & Eo & Eg & _).
  { rewrite fmap_app. intros [?|?]%elem_of_app; tauto. }
  { intros Hin. by eapply (service_disjoint w (Ta ++ (t', v) :: Tb) C). }
  rewrite (bind_step _ _ _ _ _ E3). unfold drop_obj, modify. eexists. split; [reflexivity|]. rewrite set_objs_with_timers. split.
  - apply (service_with_timers w3 (Ta ++ Tb) C); try apply S3. eapply lseg_frame; [|apply S3]. intros a Ha. apply lookup_delete_ne.
    intros <-. rewrite fmap_app in Ha. apply elem_of_app in Ha as [?|?]; tauto.
  - split; [|cbn [objs with_timers set_objs]; rewrite dom_delete_L, Eo, Eo2; cbn [objs w1 with_timers set_objs]; by rewrite Hm].
    eapply frame_trans; [|apply frame_with_timers]. eapply frame_trans; [|exact F3]. eapply frame_trans; [apply frame_with_timers|exact F2].
Qed.

Lemma delete_ok w T C c x t :
  service w T C -> loose w T C c x -> t ∈ T.*1 -> tc_type x = TIMER_CMD_DELETE -> tc_timer x = t ->
  exists w', run_cmd c x w = Done (tt, w') /\ service w' (without t T) C /\ frame w w' /\ (tight w T -> tight w' (without t T)).
Proof.
  intros S L Ht Ety Et. unfold run_cmd. rewrite Ety, Et, bind_st. destruct (lseg_in_dom _ _ _ _ _ _ _ (sv_timers _ _ _ S) Ht) as (Ht0 & y & Hy).
  rewrite (bind_upd_obj _ _ _ _ _ Hy), bind_gets. set (w1 := set_objs _ w). change (timer_list (glob w)) with (timer_list (glob w1)).
  destruct (delete_rest_ok w1 (map_at t (fun v => set_v_run 0 (v_expiry v) v) T) C c x t) as (w' & E & S' & F' & Ed).
  - by apply (update_ok w T C t (fun x => set_tm_run 0 (tm_expiry x) x)).
  - by apply loose_update.
  - by rewrite map_at_fst.
  - exists w'. split; [exact E|]. rewrite without_map_at in S'. split; [exact S'|]. split; [eapply frame_trans; [apply frame_objs|exact F']|].
    unfold tight. rewrite Ed. cbn [w1 objs set_objs]. rewrite dom_insert_lookup_L by (by exists y). intros ->. by rewrite without_fst.
Qed.

Lemma map_at_ext t (f g : timer_view -> timer_view) T : (forall v, (t, v) ∈ T -> f v = g v) -> map_at t f T = map_at t g T.
Proof.
  intros H. unfold map_at. apply list_fmap_ext. intros i [a v] Hi. cbn. destruct (Z.eqb_spec a t) as [->|]; [|done].
  f_equal. apply H. by eapply list_elem_of_lookup_2.
Qed.
Lemma map_at_map_at t (f g : timer_view -> timer_view) T : map_at t f (map_at t g T) = map_at t (fun v => f (g v)) T.
Proof. unfold map_at. rewrite <- list_fmap_compose. apply list_fmap_ext. intros i [a v] _. cbn. by destruct (Z.eqb_spec a t) as [->|]; cbn; rewrite ?Z.eqb_refl; [|rewrite (proj2 (Z.eqb_neq a t))]. Qed.

Lemma change_period_ok w T C c x t :
  service w T C -> loose w T C c x -> t ∈ T.*1 -> tc_type x = TIMER_CMD_CHANGE_PERIOD -> tc_timer x = t ->
  exists w', run_cmd c x w = Done (tt, w') /\ service w' (apply_cmd (tick_count (kern w)) (command_of x) T) C /\ frame w w' /\
    (tight w T -> tight w' (apply_cmd (tick_count (kern w)) (command_of x) T)).
Proof.
  intros S L Ht Ety Et. destruct (lseg_in_dom _ _ _ _ _ _ _ (sv_timers _ _ _ S) Ht) as (Ht0 & y & Hy).
  assert (forall v, (t, v) ∈ T -> v_active v = tm_active y) as Hact.
  { intros v Hin. destruct (lseg_in _ _ _ _ _ _ _ _ (sv_timers _ _ _ S) Hin) as (_ & y' & Hy' & <-). by simplify_eq. }
  unfold run_cmd, apply_cmd. cbn [c_type command_of c_timer c_period]. rewrite Ety, Et, (bind_upd_obj _ _ _ _ _ Hy).
  erewrite bind_obj by apply lookup_insert_eq. set (w1 := set_objs _ w). set (p := tc_period x).
  change (tm_active (set_tm_period p y)) with (tm_active y). change (tm_period (set_tm_period p y)) with p.
  assert (service w1 (map_at t (set_v_period p) T) C) as S1 by (by apply (update_ok w T C t (set_tm_period p))).
  pose proof (loose_update w T C c x t (set_v_period p) _ L : loose w1 _ C c x) as L1.
  destruct (truthy (tm_active y)) eqn:Ea; cbn [when].
  - rewrite bind_assoc. change ((on_kern task_get_tick_count ≫= ?k) w1) with (k (tick_count (kern w)) w1). cbv beta.
    destruct (update_and_free w1 (map_at t (set_v_period p) T) C c x t (set_tm_run (tm_active y) (tick_count (kern w) +32 p)) (set_v_run (tm_active y) (tick_count (kern w) +32 p))
      (set_tm_period p y)) as (w' & E & S' & F & Ht'); [done|done|done|done|apply lookup_insert_eq|].
    exists w'. split; [exact E|]. rewrite map_at_map_at in S', Ht'. erewrite map_at_ext; [split; [exact S'|]|].
    + split; [eapply frame_trans; [apply frame_objs|exact F]|]. intros Hw. by eapply Ht', tight_update.
    + intros v Hin. cbn. by rewrite (Hact v Hin), Ea.
  - rewrite bind_ret. destruct (cmd_free_ok w1 _ C c x S1 L1) as (w' & E & S' & F & Eo & _). exists w'. split; [exact E|].
    erewrite map_at_ext; [split; [exact S'|]|].
    + split; [eapply frame_trans; [apply frame_objs|exact F]|]. intros Hw. unfold tight. rewrite Eo. by eapply (tight_update w T t (set_v_period p)).
    + intros v Hin. cbn. by rewrite (Hact v Hin), Ea.
Qed.

Lemma run_cmd_ok w T C c x :
  service w T C -> loose w T C c x -> tc_timer x ∈ T.*1 ->
  exists w', run_cmd c x w = Done (tt, w') /\ service w' (apply_cmd (tick_count (kern w)) (command_of x) T) C /\ frame w w' /\
    (tight w T -> tight w' (apply_cmd (tick_count (kern w)) (command_of x) T)).
Proof.
  intros S L Ht. destruct (lseg_in_dom _ _ _ _ _ _ _ (sv_timers _ _ _ S) Ht) as (Ht0 & y & Hy).
  destruct (tc_type x) eqn:E; [| | |by eapply change_period_ok|];
    unfold apply_cmd; cbn [c_type command_of c_timer c_period]; rewrite E; [| | |by apply (delete_ok _ _ _ _ _ (tc_timer x))];
    unfold run_cmd; rewrite E.
  - rewrite bind_tick.
    by eapply (update_and_free w T C c x _ _ (set_v_run 1 _)).
  - by eapply (update_and_free w T C c x _ _ (set_v_run 0 0)).
  - rewrite bind_tick.
    by eapply (update_and_free w T C c x _ _ (set_v_run 1 _)).
Qed.

(** Every command names a timer still in the list when its turn comes. *)
Fixpoint all_live (now : Z) T (cs : list command) : Prop :=
  match cs with [] => True | c :: cs => c_timer c ∈ T.*1 /\ all_live now (apply_cmd now c T) cs end.
Definition apply_cmds (now : Z) (cs : list command) T : list (Z * timer_view) := foldl (fun T c => apply_cmd now c T) T cs.

Lemma commands_loop_step fuel w T C c v :
  service w T ((c, v) :: C) -> c_timer v <> NULL ->
  exists w' x, commands_loop (S fuel) w = (run_cmd c x ≫= fun _ => commands_loop fuel) w' /\
    service w' T C /\ loose w' T C c x /\ command_of x = v /\ frame w w' /\ objs w' = objs w.
Proof.
  intros S Hv. destruct (dequeue_ok w T C c v S) as (w1 & x & E1 & S1 & L1 & Hx & F1). exists w1, x. split; [|done].
  cbn [commands_loop]. rewrite (bind_step _ _ _ _ _ E1), (proj2 (Z.eqb_neq c NULL)) by apply L1.
  rewrite (bind_cmd_at _ _ _ _ (lo_rec _ _ _ _ _ L1)). rewrite <- Hx in Hv. cbn [c_timer command_of] in Hv. by rewrite (proj2 (Z.eqb_neq _ NULL) Hv).
Qed.

Lemma live_not_null w T C t : service w T C -> t ∈ T.*1 -> t <> NULL.
Proof. intros S Ht. by destruct (lseg_in_dom _ _ _ _ _ _ _ (sv_timers _ _ _ S) Ht) as [? _]. Qed.

Lemma commands_loop_ok fuel w T C :
  service w T C -> (length C < fuel)%nat -> all_live (tick_count (kern w)) T C.*2 ->
  exists w', commands_loop fuel w = Done (tt, w') /\ service w' (apply_cmds (tick_count (kern w)) C.*2 T) [] /\ frame w w'.
Proof.
  revert w T C. induction fuel as [|fuel IH]; intros w T C S Hf Hl; [lia|]. destruct C as [|[c v] C].
  - cbn [commands_loop]. unfold timer_dequeue_cmd. rewrite bind_assoc, bind_st. rewrite (sv_cmds _ _ _ S). cbn.
    exists w. split; [done|]. split; [done|apply frame_refl].
  - cbn [fmap list_fmap snd all_live] in Hl. destruct Hl as [Hin Hl].
    destruct (commands_loop_step fuel w T C c v S ltac:(by eapply live_not_null)) as (w1 & x & -> & S1 & L1 & Hx & F1 & _).
    rewrite <- Hx in Hin, Hl. destruct (run_cmd_ok w1 T C c x S1 L1 Hin) as (w2 & E2 & S2 & F2 & _). rewrite (bind_step _ _ _ _ _ E2).
    pose proof (frame_tick _ _ F1) as Ht1. pose proof (frame_tick _ _ F2) as Ht2.
    destruct (IH w2 _ C S2) as (w3 & E3 & S3 & F3); [cbn in Hf; lia|by rewrite Ht2, Ht1|].
    exists w3. split; [exact E3|]. split; [|eapply frame_trans; [exact F1|]; by eapply frame_trans].
    rewrite Ht2, Ht1 in S3. cbn [fmap list_fmap snd apply_cmds foldl]. by rewrite <- Hx.
Qed.

(** A command on a timer that is not there. *)
Lemma bind_upd_obj_gone {D} t f (k : unit -> M world D) w : objs w !! t = None -> (upd_obj t f ≫= k) w = UB.
Proof. intros E. unfold upd_obj, mbind, M_bind, obj. by rewrite E. Qed.
Lemma run_cmd_gone {D} c x (k : unit -> M world D) w : objs w !! tc_timer x = None -> (run_cmd c x ≫= k) w = UB.
Proof.
  intros E. unfold run_cmd.
  destruct (tc_type x); rewrite ?bind_assoc, ?bind_tick, ?bind_st, ?bind_assoc; by apply bind_upd_obj_gone.
Qed.

Lemma commands_loop_gone fuel w T C :
  service w T C -> tight w T -> (length C < fuel)%nat -> Forall (fun c => c_timer c <> NULL) C.*2 ->
  ~ all_live (tick_count (kern w)) T C.*2 -> commands_loop fuel w = UB.
Proof.
  revert w T C. induction fuel as [|fuel IH]; intros w T C S Ht Hf Hn Hl; [lia|]. destruct C as [|[c v] C]; [by destruct Hl|].
  cbn [fmap list_fmap snd all_live] in Hl, Hn. apply Forall_cons in Hn as [Hv Hn].
  destruct (commands_loop_step fuel w T C c v S Hv) as (w1 & x & -> & S1 & L1 & Hx & F1 & Eo).
  assert (tight w1 T) as Ht1 by (unfold tight; by rewrite Eo).
  destruct (decide (c_timer v ∈ T.*1)) as [Hin|Hin].
  - rewrite <- Hx in Hin. destruct (run_cmd_ok w1 T C c x S1 L1 Hin) as (w2 & E2 & S2 & F2 & Ht2). rewrite (bind_step _ _ _ _ _ E2).
    pose proof (frame_tick _ _ F1) as Et1. pose proof (frame_tick _ _ F2) as Et2.
    apply (IH w2 _ C S2 (Ht2 Ht1)); [cbn in Hf; lia|done|]. rewrite Et2, Et1, Hx. rewrite Hx in Hin. tauto.
  - apply run_cmd_gone. rewrite <- Hx in Hin. apply not_elem_of_dom. rewrite Ht1, elem_of_list_to_set. exact Hin.
Qed.

Lemma process_commands_fuel w T C :
  service w T C -> exists fuel, timer_process_commands w = commands_loop fuel w /\ (length C < fuel)%nat.
Proof.
  intros S. exists (Datatypes.S (size (cmds (glob w)))). split; [done|].
  pose proof (lseg_size _ _ _ _ _ _ (sv_cmds _ _ _ S) (service_nodup_c _ _ _ S)). lia.
Qed.
Lemma process_commands_ok w T C :
  service w T C -> all_live (tick_count (kern w)) T C.*2 ->
  exists w', timer_process_commands w = Done (tt, w') /\ service w' (apply_cmds (tick_count (kern w)) C.*2 T) [] /\ frame w w'.
Proof. intros S Hl. destruct (process_commands_fuel w T C S) as (fuel & -> & Hf). by apply commands_loop_ok. Qed.

(** ** The chain's nodes *)

Lemma chain_alloc_ok count w T C prev N :
  service w T C -> lseg cn_next cn_timer (nodes (glob w)) prev N NULL -> NoDup N.*1 ->
  (forall a, a ∈ N.*1 -> owned (heap (kern w)) a sizeof_chain_node) ->
  exists r w', chain_alloc count prev w = Done (r, w') /\ service w' T C /\ critical_nesting (kern w') = critical_nesting (kern w) /\
    timer_daemon_initialized (glob w') = timer_daemon_initialized (glob w) /\
    (r = None \/ exists h N', r = Some h /\ lseg cn_next cn_timer (nodes (glob w')) h (N' ++ N) NULL /\ NoDup (N' ++ N).*1 /\ length N' = count).
Proof.
  revert w prev N. induction count as [|count IH]; intros w prev N S HN Hd Ho; cbn [chain_alloc].
  - exists (Some prev), w. do 4 (split; [done|]). right. by exists prev, [].
  - destruct (sv_heap _ _ _ S) as [ab Hi].
    destruct (malloc_owned (heap (kern w)) ab sizeof_chain_node Hi ltac:(unfold sizeof_chain_node; lia)) as (c & h1 & ab1 & E1 & Hi1 & Ho1 & Hc).
    unfold malloc. rewrite (bind_step _ _ _ _ _ (on_kern_Done _ w _ _ (on_heap_Done _ _ _ _ E1))).
    set (w1 := set_kern _ w). assert (service w1 T C) as S1 by (by eapply service_heap).
    destruct Hc as [-> |(Hc0 & Hoc & Hnew)]; [exists None, w1; do 4 (split; [done|]); by left|].
    rewrite (proj2 (Z.eqb_neq c NULL)) by done. change ((put_node c ?x ≫= ?k) w1) with (k tt (set_glob (set_chain (timer_chain_head (glob w)) (<[c := x]> (nodes (glob w))) (glob w)) w1)).
    cbv beta. set (w2 := set_glob _ w1).
    assert (c ∉ N.*1) as HcN by (intros Hin; eapply Hnew; [by apply Ho|done]).
    destruct (IH w2 c ((c, NULL) :: N)) as (r & w3 & E3 & S3 & Hn3 & Hi3 & Hr).
    + by destruct S1.
    + split; [done|]. split; [done|]. exists (ChainNode NULL prev). cbn [nodes w2 glob set_glob set_chain]. rewrite lookup_insert_eq.
      split; [done|]. split; [done|]. eapply lseg_frame; [|exact HN]. intros a Ha. apply lookup_insert_ne. congruence.
    + cbn. by apply NoDup_cons.
    + intros a Ha. cbn in Ha. apply elem_of_cons in Ha as [->|Ha]; [done|]. apply Ho1. by apply Ho.
    + exists r, w3. split; [exact E3|]. split; [done|]. split; [done|]. split; [done|].
      destruct Hr as [->|(h & N' & -> & H1 & H2 & H3)]; [by left|]. right. exists h, (N' ++ [(c, NULL)]). rewrite <- !app_assoc.
      split; [done|]. split; [done|]. split; [done|]. rewrite length_app. cbn. lia.
Qed.

(** A step of the second loop: the timer's callback is never the chain's. *)
Lemma chain_timers_sym sym sym' fuel times callbacks params count i curr w T C N :
  service w T C -> 0 <= critical_nesting (kern w) < UINT32_MAX -> timer_daemon_initialized (glob w) = true ->
  lseg cn_next cn_timer (nodes (glob w)) curr N NULL -> NoDup N.*1 -> 0 <= i -> Z.of_nat (length N) = count - i -> 0 < count < 4294967296 ->
  chain_timers sym fuel times callbacks params count i curr w = chain_timers sym' fuel times callbacks params count i curr w.
Proof.
  revert w T N i curr. induction fuel as [|fuel IH]; intros w T N i curr S Hn Hi HN Hd H0 Hl Hc; [done|]. cbn [chain_timers].
  destruct N as [|[a v] N]; [by cbn in HN; rewrite HN|]. destruct HN as (-> & Ha & x & Hx & Hv & HN).
  rewrite (proj2 (Z.eqb_neq a NULL)) by done. cbn in Hl. rewrite (proj2 (Z.leb_gt count i)) by lia. cbn [orb].
  assert (truthy (cn_next x) || (i =? count -32 1) = true) as Hcb.
  { destruct N as [|[b u] N]; [|destruct HN as (-> & Hb & _); unfold truthy; by rewrite (proj2 (Z.eqb_neq b 0) Hb)].
    cbn in HN, Hl. rewrite HN. cbn. apply Z.eqb_eq. rewrite u32_small; lia. }
  rewrite !(bind_step (node_at a) _ w x w) by (unfold node_at; by rewrite Hx). rewrite Hcb.
  apply bind_agree. intros cb w0 E0. assert (w0 = w) as -> by (destruct (callbacks !! Z.to_nat i); [by injection E0 as _ <-|done]).
  apply bind_agree. intros p w0 E1.
  assert (w0 = w) as -> by (destruct (truthy (cn_next x)); [by injection E1 as _ <-|]; destruct (params ≫= _); [by injection E1 as _ <-|done]).
  apply bind_agree. intros time w0 E2. assert (w0 = w) as -> by (destruct (times !! Z.to_nat i); [by injection E2 as _ <-|done]).
  apply bind_agree. intros t w1 E3. apply bind_agree. intros [] w2 [= <-].
  destruct (Z.eqb_spec t NULL) as [->|Ht]; [done|].
  destruct (decide (cb = NULL \/ time = 0)) as [Hz|Hz].
  { exfalso. unfold timer_create in E3. destruct Hz as [-> | ->]; rewrite ?orb_true_r in E3; by injection E3 as <- _. }
  destruct (create_ok (Some chain_timer_name) cb p time TIMER_TYPE_ONE_SHOT w T C) as (t' & w1' & E3' & F & Ht'); [done|done|tauto|tauto|done|].
  rewrite E3 in E3'. injection E3' as <- <-. destruct Ht' as [[-> _]|(_ & _ & S1 & _)]; [done|]. destruct F as (Fk & _ & Fi & Fn).
  cbn in Hd. apply NoDup_cons in Hd as [Han Hd].
  apply (IH _ ((t, TimerView TIMER_TYPE_ONE_SHOT cb p time 0 0) :: T) N); [by destruct S1| |by rewrite <- Hi, <- Fi| |done|lia|lia|done].
  - cbn [kern set_glob]. by rewrite Fk.
  - cbn [nodes glob set_glob set_chain]. rewrite Fn. eapply lseg_frame; [|exact HN]. intros b Hb. apply lookup_insert_ne. congruence.
Qed.

(** ** Expiry *)

Definition due (now : Z) (v : timer_view) : bool := truthy (v_active v) && (v_expiry v <=? now).
Definition expire (now : Z) (v : timer_view) : timer_view :=
  if due now v then
    match v_type v with
    | TIMER_TYPE_AUTO_RELOAD => set_v_run (v_active v) (now +32 v_period v) v
    | TIMER_TYPE_ONE_SHOT => set_v_run 0 0 v
    end
  else v.
Definition expire_all (now : Z) T : list (Z * timer_view) := prod_map id (expire now) <$> T.
(** The callbacks a round makes, in the order of the list. *)
Definition fired (now : Z) T : list (Z * Z) :=
  omap (fun p => if due now p.2 && truthy (v_callback p.2) then Some (v_callback p.2, v_param p.2) else None) T.

Lemma fired_cons now t v Q :
  fired now ((t, v) :: Q) = (if due now v && truthy (v_callback v) then [(v_callback v, v_param v)] else []) ++ fired now Q.
Proof. unfold fired. cbn. by destruct (due now v && truthy (v_callback v)). Qed.

Section callbacks.
Context (sym : symbols) (app : Z -> Z -> M world unit) (effect : Z -> Z -> A -> A) (posts : command -> Prop).

(** What the application's callbacks promise: they return, leave the timers alone, may post commands that satisfy
    [posts], and change the application's state by [effect]. *)
Class Callbacks := callback_ok : forall cb p w T C,
  service w T C -> 0 <= critical_nesting (kern w) < UINT32_MAX -> cb <> timer_chain_callback_entry sym ->
  exists w' D, app cb p w = Done (tt, w') /\ service w' T (C ++ D) /\ Forall posts D.*2 /\
    kern w' = Scheduler.set_heap (heap (kern w')) (kern w) /\ application (glob w') = effect cb p (application (glob w)) /\
    timer_daemon_initialized (glob w') = timer_daemon_initialized (glob w).
Context {HCB : Callbacks}.

Definition run_effects (ps : list (Z * Z)) (a : A) : A := foldl (fun a p => effect p.1 p.2 a) a ps.
Definition plain (p : Z * timer_view) : Prop := v_callback p.2 <> timer_chain_callback_entry sym.

(** Between two states of a round: the kernel beside its heap and the daemon's flag stay, the application changes by [ps]. *)
Definition advances w (ps : list (Z * Z)) w' : Prop :=
  kern w' = Scheduler.set_heap (heap (kern w')) (kern w) /\ application (glob w') = run_effects ps (application (glob w)) /\
  timer_daemon_initialized (glob w') = timer_daemon_initialized (glob w).
Lemma advances_frame w w' : frame w w' -> advances w [] w'.
Proof. by intros (? & ? & ? & _). Qed.
Lemma advances_trans w1 ps w2 qs w3 : advances w1 ps w2 -> advances w2 qs w3 -> advances w1 (ps ++ qs) w3.
Proof.
  intros (H1 & H2 & H3) (K1 & K2 & K3). split; [by rewrite K1, H1|]. split; [|congruence].
  unfold run_effects in *. by rewrite foldl_app, K2, H2.
Qed.

Lemma advances_then_frame w1 ps w2 w3 : advances w1 ps w2 -> frame w2 w3 -> advances w1 ps w3.
Proof. intros H F. rewrite <- (app_nil_r ps). eapply advances_trans; [exact H|by apply advances_frame]. Qed.

Definition first_addr T : Z := default NULL (head T.*1).
Lemma lseg_first (m : gmap Z sw_timer_t) h T : lseg tm_next view_of m h T NULL -> h = first_addr T.
Proof. destruct T as [|[a v] T]; cbn; [done|]. by intros (-> & _). Qed.

Lemma map_at_middle t (f : timer_view -> timer_view) P v Q :
  NoDup (P ++ (t, v) :: Q).*1 -> map_at t f (P ++ (t, v) :: Q) = P ++ (t, f v) :: Q.
Proof.
  intros Hd. rewrite fmap_app in Hd. cbn in Hd. rewrite <- Permutation_middle in Hd. apply NoDup_cons in Hd as [Hn _].
  rewrite elem_of_app in Hn. unfold map_at. rewrite fmap_app. cbn [fmap list_fmap fst snd]. rewrite Z.eqb_refl.
  pose proof (map_at_notin t f P ltac:(tauto)) as E1. pose proof (map_at_notin t f Q ltac:(tauto)) as E2. unfold map_at in E1, E2. by rewrite E1, E2.
Qed.

(** The list cell of a timer in the middle of the list. *)
Lemma service_middle w P t v Q C :
  service w (P ++ (t, v) :: Q) C -> t <> NULL /\ exists x, objs w !! t = Some x /\ view_of x = v /\ tm_next x = first_addr Q.
Proof.
  intros S. pose proof (sv_timers _ _ _ S) as H. apply lseg_app in H as (j & _ & -> & Ht & x & Hx & Hv & HQ). split; [done|].
  exists x. split; [done|]. split; [done|]. by apply (lseg_first (objs w)).
Qed.

(** One expired timer: its callback, then its next expiry. *)
Lemma fire_ok w P t v Q C now :
  service w (P ++ (t, v) :: Q) C -> 0 <= critical_nesting (kern w) < UINT32_MAX -> due now v = true -> plain (t, v) ->
  exists w' D, (when (truthy (v_callback v)) (call_back sym app (v_callback v) (v_param v)) ≫= fun _ => y ← obj t;
      if bool_decide (tm_type y = TIMER_TYPE_AUTO_RELOAD) then upd_obj t (set_tm_run (tm_active y) (now +32 tm_period y))
      else upd_obj t (set_tm_run 0 0)) w = Done (tt, w') /\
    service w' (P ++ (t, expire now v) :: Q) (C ++ D) /\ Forall posts D.*2 /\
    advances w (if truthy (v_callback v) then [(v_callback v, v_param v)] else []) w'.
Proof.
  intros S Hn Hdue Hp.
  assert (exists w1 D, when (truthy (v_callback v)) (call_back sym app (v_callback v) (v_param v)) w = Done (tt, w1) /\
    service w1 (P ++ (t, v) :: Q) (C ++ D) /\ Forall posts D.*2 /\
    advances w (if truthy (v_callback v) then [(v_callback v, v_param v)] else []) w1) as (w1 & D & E1 & S1 & HD & HA).
  { destruct (truthy (v_callback v)); cbn [when].
    - unfold plain in Hp. cbn [snd] in Hp. unfold call_back. rewrite (proj2 (Z.eqb_neq _ _) Hp).
      destruct (callback_ok (v_callback v) (v_param v) w _ C S Hn Hp) as (w1 & D & E & S1 & HD & HA). exists w1, D. by split.
    - exists w, []. split; [done|]. split; [by rewrite app_nil_r|]. split; [done|]. apply advances_frame, frame_refl. }
  rewrite (bind_step _ _ _ _ _ E1). destruct (service_middle _ _ _ _ _ _ S1) as (Ht & y & Hy & Hv & _).
  rewrite (bind_obj _ _ _ _ Hy). assert (tm_type y = v_type v /\ tm_active y = v_active v /\ tm_period y = v_period v) as (Ey & Ea & Ep) by by subst v.
  rewrite Ey, Ea, Ep.
  assert (forall (g : sw_timer_t -> sw_timer_t) (f : timer_view -> timer_view), (forall r, tm_next (g r) = tm_next r) -> (forall r, view_of (g r) = f (view_of r)) -> f v = expire now v ->
    exists w', upd_obj t g w1 = Done (tt, w') /\ service w' (P ++ (t, expire now v) :: Q) (C ++ D) /\ frame w1 w') as Hup.
  { intros g f H1 H2 H3. eexists. split; [by apply upd_obj_Done|]. split; [|apply frame_objs]. rewrite <- H3.
    rewrite <- (map_at_middle t f) by (by eapply service_nodup_t). by apply (update_ok w1 _ _ t g f y). }
  unfold expire in Hup. rewrite Hdue in Hup. unfold expire. rewrite Hdue. destruct (v_type v).
  - rewrite bool_decide_eq_false_2 by done. destruct (Hup (set_tm_run 0 0) (set_v_run 0 0)) as (w' & E & S' & F); [done..|].
    exists w', D. split; [exact E|]. split; [exact S'|]. split; [done|]. by eapply advances_then_frame.
  - rewrite bool_decide_eq_true_2 by done. destruct (Hup (set_tm_run (v_active v) (now +32 v_period v)) (set_v_run (v_active v) (now +32 v_period v)))
      as (w' & E & S' & F); [done..|].
    exists w', D. split; [exact E|]. split; [exact S'|]. split; [done|]. by eapply advances_then_frame.
Qed.

Lemma expiry_loop_ok fuel now Q P w C :
  service w (P ++ Q) C -> 0 <= critical_nesting (kern w) < UINT32_MAX -> (length Q < fuel)%nat -> Forall plain Q ->
  exists w' D, expiry_loop sym app fuel now (first_addr Q) w = Done (tt, w') /\
    service w' (P ++ expire_all now Q) (C ++ D) /\ Forall posts D.*2 /\ advances w (fired now Q) w'.
Proof.
  revert P Q w C. induction fuel as [|fuel IH]; intros P Q w C S Hn Hf Hp; [lia|]. cbn [expiry_loop].
  destruct Q as [|[t v] Q].
  - exists w, []. split; [done|]. rewrite app_nil_r in S. split; [cbn; by rewrite !app_nil_r|]. split; [done|]. apply advances_frame, frame_refl.
  - destruct (service_middle _ _ _ _ _ _ S) as (Ht & x & Hx & Hv & En). change (first_addr ((t, v) :: Q)) with t.
    rewrite (proj2 (Z.eqb_neq t NULL)) by done. rewrite (bind_obj _ _ _ _ Hx), En.
    apply Forall_cons in Hp as [Hpt Hp]. cbn [expire_all fmap list_fmap prod_map id fst snd]. fold (expire_all now Q).
    assert (tm_active x = v_active v /\ tm_expiry x = v_expiry v /\ tm_callback x = v_callback v /\ tm_param x = v_param v) as (-> & -> & -> & ->) by by subst v.
    fold (due now v). rewrite fired_cons. destruct (due now v) eqn:Hd; cbn [when andb].
    + destruct (fire_ok w P t v Q C now S Hn Hd Hpt) as (w1 & D1 & E1 & S1 & HD1 & A1).
      rewrite (bind_step _ _ _ _ _ E1).
      destruct (IH (P ++ [(t, expire now v)]) Q w1 (C ++ D1)) as (w2 & D2 & E2 & S2 & HD2 & A2); [by rewrite <- app_assoc| |cbn in Hf; lia|done|].
      { destruct A1 as (H & _). rewrite H. done. }
      exists w2, (D1 ++ D2). split; [exact E2|]. rewrite <- !app_assoc in S2. split; [exact S2|]. split; [rewrite fmap_app; by apply Forall_app|].
      by eapply advances_trans.
    + rewrite bind_ret.
      destruct (IH (P ++ [(t, v)]) Q w C) as (w2 & D2 & E2 & S2 & HD2 & A2); [by rewrite <- app_assoc|done|cbn in Hf; lia|done|].
      exists w2, D2. split; [exact E2|]. rewrite <- !app_assoc in S2. unfold expire. rewrite Hd. split; [exact S2|]. by split.
Qed.

Lemma process_expiry_ok w T C :
  service w T C -> 0 <= critical_nesting (kern w) < UINT32_MAX -> Forall plain T ->
  exists w' D, timer_process_expiry sym app w = Done (tt, w') /\
    service w' (expire_all (tick_count (kern w)) T) (C ++ D) /\ Forall posts D.*2 /\ advances w (fired (tick_count (kern w)) T) w'.
Proof.
  intros S Hn Hp. unfold timer_process_expiry. rewrite bind_tick, bind_st, bind_gets.
  rewrite (lseg_first _ _ _ (sv_timers _ _ _ S)). apply (expiry_loop_ok _ _ T []); [done|done| |done].
  pose proof (lseg_size _ _ _ _ _ _ (sv_timers _ _ _ S) (service_nodup_t _ _ _ S)). lia.
Qed.
End callbacks.

(** ** The daemon *)

(** The running task can sleep: the ready lists are in order and it is linked behind the head of its own. *)
Definition can_sleep w : Prop :=
  0 <= critical_nesting (kern w) < UINT32_MAX /\
  exists rq p l1 l2 c, sched_wf (task_list (kern w)) (tcbs (kern w)) rq /\ rq !! p = Some (l1 ++ current_task (kern w) :: l2) /\ l1 <> [] /\
    tcbs (kern w) !! current_task (kern w) = Some c.

Lemma can_sleep_kern w w' : kern w' = Scheduler.set_heap (heap (kern w')) (kern w) -> can_sleep w -> can_sleep w'.
Proof. intros H Hs. unfold can_sleep. rewrite H. exact Hs. Qed.

Lemma delay_ok w T C :
  service w T C -> can_sleep w ->
  exists w', on_kern (task_delay 1) w = Done (tt, w') /\ service w' T C /\ can_sleep w' /\ tick_count (kern w') = tick_count (kern w) /\
    glob w' = glob w.
Proof.
  intros S (Hn & rq & p & l1 & l2 & c & Hw & Hp & Hl & Hc).
  destruct (task_delay_spec (kern w) rq p l1 _ l2 c 1 Hw Hp eq_refl Hc ltac:(lia) Hn) as (k' & E & Hw' & Hs & (Eh & Ec & Et & _ & En) & _).
  rewrite decide_False, list_insert_id in Hw' by done.
  exists (set_kern k' w). split; [by apply on_kern_Done|]. split; [by apply service_kern|]. split; [|by split].
  unfold can_sleep. cbn [kern set_kern]. rewrite En, Ec. split; [done|]. exists rq, p, l1, l2. eexists. by repeat (split; [done|]).
Qed.

(** What the rest of the system does while the daemon sleeps: a tick passes and the daemon is dispatched again. *)
Class Resumes (pend : M world unit) := resume_ok : forall w T C,
  service w T C -> can_sleep w ->
  exists w', pend w = Done (tt, w') /\ service w' T C /\ can_sleep w' /\ tick_count (kern w') = tick_count (kern w) +32 1 /\
    application (glob w') = application (glob w) /\ timer_daemon_initialized (glob w') = timer_daemon_initialized (glob w).

#[export] Instance resume_pend_ok self : Resumes (resume_pend self).
Proof.
  intros w T C S (Hn & rq & p & l1 & l2 & c & Hw & Hp & Hl & Hc).
  eexists. split; [reflexivity|]. split; [by apply service_kern|]. split; [|by split].
  split; [done|]. cbn [kern set_kern set_tick_count set_tcbs tcbs task_list current_task].
  assert (is_Some (alter (set_t_state TASK_RUNNING) self (tcbs (kern w)) !! current_task (kern w))) as [c' Hc'] by (apply is_Some_alter; by exists c).
  exists rq, p, l1, l2, c'. split; [by apply wf_alter|]. by split.
Qed.

Section daemon.
Context (sym : symbols) (app : Z -> Z -> M world unit) (effect : Z -> Z -> A -> A) (pend : M world unit).
Context (HCB : Callbacks sym app effect (fun _ => False)) (HR : Resumes pend).

(** [n] rounds from tick [now] with the commands [cs] waiting: the callbacks made and the timers left. *)
Fixpoint daemon_spec (n : nat) (now : Z) (cs : list command) T : list (Z * Z) * list (Z * timer_view) :=
  match n with
  | O => ([], T)
  | S n =>
      let T1 := apply_cmds now cs T in
      let r := daemon_spec n (now + 1) [] (expire_all now T1) in
      (fired now T1 ++ r.1, r.2)
  end.

Lemma plain_expire now T : Forall (plain sym) T -> Forall (plain sym) (expire_all now T).
Proof.
  unfold expire_all. rewrite Forall_fmap. intros HT. eapply Forall_impl; [exact HT|]. intros [a v] H. unfold plain in *. cbn in *. unfold expire.
  by destruct (due now v), (v_type v).
Qed.
Lemma plain_apply now cs T : Forall (plain sym) T -> Forall (plain sym) (apply_cmds now cs T).
Proof.
  revert T. induction cs as [|c cs IH]; intros T H; [done|]. cbn [apply_cmds foldl]. apply IH.
  assert (forall f, (forall v, v_callback (f v) = v_callback v) -> Forall (plain sym) (map_at (c_timer c) f T)) as Hm.
  { intros f Hf. unfold map_at. rewrite Forall_fmap. eapply Forall_impl; [exact H|]. intros [a v] Hv. unfold plain in *. cbn in *.
    destruct (a =? c_timer c); cbn; [by rewrite Hf|done]. }
  unfold apply_cmd. destruct (c_type c); try by apply Hm.
  - apply Hm. intros v. cbn. by destruct (truthy (v_active v)).
  - unfold without. rewrite Forall_forall in *. intros x [_ Hx]%list_elem_of_filter. by apply H.
Qed.

(** One pass of the daemon over its commands and its timers. *)
Lemma pass_ok w T C :
  service w T C -> 0 <= critical_nesting (kern w) < UINT32_MAX -> Forall (plain sym) T -> all_live (tick_count (kern w)) T C.*2 ->
  exists w', (timer_process_commands ≫= fun _ => timer_process_expiry sym app) w = Done (tt, w') /\
    service w' (expire_all (tick_count (kern w)) (apply_cmds (tick_count (kern w)) C.*2 T)) [] /\
    advances effect w (fired (tick_count (kern w)) (apply_cmds (tick_count (kern w)) C.*2 T)) w'.
Proof.
  intros S Hn Hp Hl. destruct (process_commands_ok w T C S Hl) as (w1 & E1 & S1 & F1). rewrite (bind_step _ _ _ _ _ E1).
  pose proof (frame_tick _ _ F1) as Et.
  destruct (process_expiry_ok sym app effect (fun _ => False) w1 _ [] S1) as (w2 & D & E2 & S2 & HD & A2).
  { destruct F1 as (H & _). by rewrite H. }
  { by apply plain_apply. }
  exists w2. split; [exact E2|]. rewrite Et in S2, A2. destruct D as [|d D]; [|by apply Forall_cons in HD as [[] _]]. split; [exact S2|].
  rewrite <- (app_nil_l (fired _ _)). eapply advances_trans; [apply advances_frame, F1|exact A2].
Qed.

Lemma daemon_ok n w T C :
  service w T C -> can_sleep w -> Forall (plain sym) T -> all_live (tick_count (kern w)) T C.*2 ->
  0 <= tick_count (kern w) -> tick_count (kern w) + Z.of_nat n < 4294967296 ->
  exists w' C', timer_daemon sym app pend n w = Done (tt, w') /\ service w' (daemon_spec n (tick_count (kern w)) C.*2 T).2 C' /\
    (0 < n -> C' = [])%nat /\ tick_count (kern w') = tick_count (kern w) + Z.of_nat n /\
    application (glob w') = run_effects effect (daemon_spec n (tick_count (kern w)) C.*2 T).1 (application (glob w)).
Proof.
  revert w T C. induction n as [|n IH]; intros w T C S Hs Hp Hl H0 Hb.
  - exists w, C. split; [done|]. split; [done|]. split; [lia|]. split; [lia|done].
  - cbn [timer_daemon]. destruct (pass_ok w T C S (proj1 Hs) Hp Hl) as (w1 & E1 & S1 & A1).
    set (now := tick_count (kern w)) in *. set (T1 := apply_cmds now C.*2 T) in *.
    assert (forall k, (timer_process_commands ≫= fun _ => timer_process_expiry sym app ≫= k) w = k tt w1) as ->.
    { intros k. rewrite <- bind_assoc. by rewrite (bind_step _ _ _ _ _ E1). }
    pose proof (can_sleep_kern _ _ (proj1 A1) Hs) as Hs1.
    destruct (delay_ok w1 _ _ S1 Hs1) as (w2 & E2 & S2 & Hs2 & Et2 & Eg2). rewrite (bind_step _ _ _ _ _ E2).
    destruct (resume_ok w2 _ _ S2 Hs2) as (w3 & E3 & S3 & Hs3 & Et3 & Ea3 & _). rewrite (bind_step _ _ _ _ _ E3).
    assert (tick_count (kern w3) = now + 1) as Et.
    { rewrite Et3, Et2. destruct A1 as (Hk & _). rewrite Hk. cbn. apply u32_small. lia. }
    destruct (IH w3 _ [] S3 Hs3) as (w4 & C' & E4 & S4 & HC & Et4 & Ea4).
    { by apply plain_expire, plain_apply. }
    { done. }
    { lia. }
    { lia. }
    exists w4, []. split; [exact E4|]. cbn [daemon_spec fst snd]. rewrite Et in *. fold T1.
    split; [|split; [done|split; [lia|]]].
    + destruct n; [|by rewrite HC in S4 by lia]. cbn in E4. injection E4 as <-. exact S3.
    + rewrite Ea4, Ea3, Eg2. destruct A1 as (_ & -> & _). unfold run_effects. by rewrite foldl_app.
Qed.
End daemon.

(** ** When a timer fires *)

Fixpoint ev (k : nat) (now : Z) (v : timer_view) : timer_view := match k with O => v | S k => ev k (now + 1) (expire now v) end.
Fixpoint after (k : nat) (now : Z) T : list (Z * timer_view) := match k with O => T | S k => after k (now + 1) (expire_all now T) end.

Lemma after_ev k now T : after k now T = prod_map id (ev k now) <$> T.
Proof.
  revert now T. induction k as [|k IH]; intros now T; cbn [after ev].
  - rewrite <- (list_fmap_id T) at 1. apply list_fmap_ext. by intros i [a v] _.
  - rewrite IH. unfold expire_all. rewrite <- list_fmap_compose. apply list_fmap_ext. by intros i [a v] _.
Qed.

Lemma daemon_spec_rounds n now T :
  (daemon_spec n now [] T).1 = concat ((fun k => fired (now + Z.of_nat k) (after k now T)) <$> seq 0 n).
Proof.
  revert now T. induction n as [|n IH]; intros now T; [done|]. cbn [daemon_spec fst apply_cmds foldl]. rewrite IH.
  cbn [seq fmap list_fmap concat after]. rewrite Z.add_0_r. f_equal. rewrite <- fmap_S_seq, <- list_fmap_compose. f_equal.
  apply list_fmap_ext. intros i k _. cbn [compose after]. f_equal. lia.
Qed.
Lemma daemon_spec_first n now cs T : daemon_spec (S n) now cs T = daemon_spec (S n) now [] (apply_cmds now cs T).
Proof. done. Qed.

Lemma due_inactive k now v : v_active v = 0 -> due (now + Z.of_nat k) (ev k now v) = false.
Proof.
  revert now v. induction k as [|k IH]; intros now v H; cbn [ev]; [by unfold due; rewrite H|].
  assert (expire now v = v) as -> by (unfold expire, due; by rewrite H).
  rewrite <- (IH (now + 1) v H). f_equal. lia.
Qed.

Lemma due_now v now : v_active v <> 0 -> due now v = (v_expiry v <=? now).
Proof. intros H. unfold due, truthy. by rewrite (proj2 (Z.eqb_neq _ 0) H). Qed.

Lemma ev_fixed k now v : v_type (ev k now v) = v_type v /\ v_callback (ev k now v) = v_callback v /\ v_param (ev k now v) = v_param v /\ v_period (ev k now v) = v_period v.
Proof.
  revert now v. induction k as [|k IH]; intros now v; [done|]. cbn [ev]. destruct (IH (now + 1) (expire now v)) as (-> & -> & -> & ->).
  unfold expire. destruct (due now v); [|done]. by destruct (v_type v) eqn:E.
Qed.

(** A one-shot timer is due in the round of its expiry, and in no other. *)
Lemma due_one_shot k now v :
  v_type v = TIMER_TYPE_ONE_SHOT -> v_active v <> 0 -> now <= v_expiry v ->
  due (now + Z.of_nat k) (ev k now v) = (now + Z.of_nat k =? v_expiry v).
Proof.
  revert now v. induction k as [|k IH]; intros now v Ht Ha He; cbn [ev].
  - rewrite Z.add_0_r, due_now by done. destruct (Z.leb_spec (v_expiry v) now), (Z.eqb_spec now (v_expiry v)); done || lia.
  - replace (now + Z.of_nat (S k)) with (now + 1 + Z.of_nat k) by lia. destruct (Z.leb_spec (v_expiry v) now) as [Hl|Hl].
    + assert (expire now v = set_v_run 0 0 v) as -> by (unfold expire; rewrite due_now, (proj2 (Z.leb_le _ _) Hl), Ht by done; done).
      rewrite due_inactive by done. symmetry. apply Z.eqb_neq. lia.
    + assert (expire now v = v) as -> by (unfold expire; rewrite due_now, (proj2 (Z.leb_gt _ _) Hl) by done; done).
      apply IH; [done|done|lia].
Qed.

(** A periodic timer is due at its expiry and every period after it. *)
Lemma due_auto_reload k now v :
  v_type v = TIMER_TYPE_AUTO_RELOAD -> v_active v <> 0 -> now <= v_expiry v -> 0 <= now -> 0 < v_period v ->
  now + Z.of_nat k + v_period v < 4294967296 ->
  due (now + Z.of_nat k) (ev k now v) = (v_expiry v <=? now + Z.of_nat k) && ((now + Z.of_nat k - v_expiry v) mod v_period v =? 0).
Proof.
  revert now v. induction k as [|k IH]; intros now v Ht Ha He H0 Hp Hb; cbn [ev].
  - rewrite Z.add_0_r, due_now by done. destruct (Z.leb_spec (v_expiry v) now) as [Hl|Hl]; [|done].
    replace (now - v_expiry v) with 0 by lia. by rewrite Z.mod_0_l by lia.
  - replace (now + Z.of_nat (S k)) with (now + 1 + Z.of_nat k) in * by lia. destruct (Z.leb_spec (v_expiry v) now) as [Hl|Hl].
    + assert (v_expiry v = now) as Ee by lia.
      assert (expire now v = set_v_run (v_active v) (now + v_period v) v) as ->.
      { unfold expire. rewrite due_now, (proj2 (Z.leb_le _ _) Hl), Ht, u32_small by (done || lia). done. }
      rewrite IH by (cbn; done || lia). cbn [v_expiry v_period set_v_run]. rewrite Ee.
      replace (now + 1 + Z.of_nat k - (now + v_period v)) with (1 + Z.of_nat k + (-1) * v_period v) by lia. rewrite Z.mod_add by lia.
      replace (now + 1 + Z.of_nat k - now) with (1 + Z.of_nat k) by lia. rewrite (proj2 (Z.leb_le now _)) by lia. cbn [andb].
      destruct (Z.eqb_spec ((1 + Z.of_nat k) mod v_period v) 0) as [Hz|Hz]; [|by rewrite andb_false_r].
      rewrite andb_true_r. apply Z.leb_le. destruct (Z.le_gt_cases (v_period v) (1 + Z.of_nat k)); [lia|].
      rewrite Z.mod_small in Hz by lia. lia.
    + assert (expire now v = v) as -> by (unfold expire; rewrite due_now, (proj2 (Z.leb_gt _ _) Hl) by done; done).
      apply IH; done || lia.
Qed.

(** In which rounds a timer that has been started is due. *)
Lemma due_started k now delay v :
  0 <= now -> 0 <= delay -> 0 < v_period v -> now + delay < 4294967296 -> now + Z.of_nat k + v_period v < 4294967296 ->
  due (now + Z.of_nat k) (ev k now (set_v_run 1 (now + delay) v)) = true <->
  match v_type v with
  | TIMER_TYPE_ONE_SHOT => Z.of_nat k = delay
  | TIMER_TYPE_AUTO_RELOAD => exists m, 0 <= m /\ Z.of_nat k = delay + m * v_period v
  end.
Proof.
  intros H0 Hd Hp Hb Hk. destruct (v_type v) eqn:E.
  - rewrite due_one_shot by (cbn; done || lia). cbn. rewrite Z.eqb_eq. lia.
  - rewrite due_auto_reload by (cbn; done || lia). cbn [v_expiry v_period set_v_run].
    rewrite andb_true_iff, Z.leb_le, Z.eqb_eq. replace (now + Z.of_nat k - (now + delay)) with (Z.of_nat k - delay) by lia. split.
    + intros [Hle Hm]. exists ((Z.of_nat k - delay) / v_period v). pose proof (Z.div_mod (Z.of_nat k - delay) (v_period v) ltac:(lia)).
      split; [apply Z.div_pos; lia|]. lia.
    + intros (m & Hm & Ek). replace (Z.of_nat k - delay) with (m * v_period v) by lia. rewrite Z.mod_mul by lia. split; [nia|done].
Qed.
End service.

(** ** The calls of the application *)

(** On every branch: a timer is created at the head of the list, inactive, with the next id, or not at all; a command call either fails for
    want of memory and changes nothing, or appends exactly its command; both keep the rest of the kernel as it was. *)
Theorem timer_calls_correct {A} (w : sync sw_timer_t (timer_statics A)) T C :
  service w T C -> 0 <= critical_nesting (kern w) < UINT32_MAX ->
  (forall name cb param period type,
     (cb = NULL \/ period = 0 \/ timer_daemon_initialized (glob w) = false -> timer_create name cb param period type w = Done (NULL, w)) /\
     (cb <> NULL -> period <> 0 -> timer_daemon_initialized (glob w) = true ->
        exists t w', timer_create name cb param period type w = Done (t, w') /\ frame w w' /\
          (t = NULL /\ service w' T C \/
           t <> NULL /\ t ∉ T.*1 /\ service w' ((t, TimerView type cb param period 0 0) :: T) C /\
           exists x, objs w' !! t = Some x /\ tm_id x = next_timer_id (glob w) /\ tm_name x = object_name name))) /\
  (forall t delay call cmd,
     (call, cmd) ∈ [(timer_start t delay, Command TIMER_CMD_START t delay); (timer_stop t, Command TIMER_CMD_STOP t 0);
                    (timer_reset t delay, Command TIMER_CMD_RESET t delay);
                    (timer_change_period t delay, Command TIMER_CMD_CHANGE_PERIOD t delay)] ->
     (t = NULL -> call w = Done (-1, w)) /\
     (t <> NULL -> delay <> 0 -> exists r w', call w = Done (r, w') /\ frame w w' /\
        (r = -1 /\ service w' T C \/ r = 1 /\ exists c, service w' T (C ++ [(c, cmd)])))) /\
  (forall t, timer_change_period t 0 w = Done (-1, w)) /\
  (forall t, t <> NULL -> exists w', timer_delete t w = Done (tt, w') /\ frame w w' /\
     (service w' T C \/ exists c, service w' T (C ++ [(c, Command TIMER_CMD_DELETE t 0)]))).
Proof.
  intros S Hn. split; [|split; [|split]].
  - intros name cb param period type. split; [|intros; by apply create_ok]. unfold timer_create. intros [-> |[-> |Hi]]; [done|by rewrite orb_true_r|].
    destruct ((cb =? NULL) || (period =? 0)); [done|]. by rewrite bind_st, Hi.
  - intros t delay call cmd H.
    assert ((forall ty p, (t = NULL -> post true ty t p w = Done (-1, w)) /\ (t <> NULL -> exists r w', post true ty t p w = Done (r, w') /\ frame w w' /\
      (r = -1 /\ service w' T C \/ r = 1 /\ exists c, service w' T (C ++ [(c, Command ty t p)]))))) as Hp.
    { intros ty p. split; [by intros ->|]. intros Ht. by apply post_ok. }
    repeat (apply elem_of_cons in H as [[= -> ->]|H]; [split; [intros ->; by (apply Hp || idtac)|]|]); [intros Ht _; by apply Hp..| |by apply not_elem_of_nil in H].
    intros Ht Hd. unfold timer_change_period. rewrite (proj2 (Z.eqb_neq t NULL)), (proj2 (Z.eqb_neq delay 0)) by done. by apply Hp.
  - intros t. unfold timer_change_period. by rewrite orb_true_r.
  - intros t Ht. destruct (post_ok true TIMER_CMD_DELETE t 0 w T C S Hn Ht) as (r & w' & E & F & Hr). exists w'.
    unfold timer_delete. rewrite (bind_step _ _ _ _ _ E). split; [done|]. split; [done|]. destruct Hr as [[_ ?]|[_ ?]]; [by left|by right].
Qed.

(** C11: a pass of the daemon does what its commands and expiries say: from a list of timers and a queue of commands that all name live timers, it
    returns with the commands applied in order and given back, the expired timers called back in the order of the list and
    re-armed or stopped, and only the commands the callbacks posted waiting. *)
Theorem daemon_pass_refines {A} sym app (effect : Z -> Z -> A -> A) posts `{!Callbacks sym app effect posts}
    (w : sync sw_timer_t (timer_statics A)) T C :
  service w T C -> 0 <= critical_nesting (kern w) < UINT32_MAX -> Forall (plain sym) T -> all_live (tick_count (kern w)) T C.*2 ->
  let now := tick_count (kern w) in
  let T1 := apply_cmds now C.*2 T in
  exists w' D, (timer_process_commands;; timer_process_expiry sym app) w = Done (tt, w') /\
    service w' (expire_all now T1) D /\ Forall posts D.*2 /\
    kern w' = Scheduler.set_heap (heap (kern w')) (kern w) /\
    application (glob w') = run_effects effect (fired now T1) (application (glob w)).
Proof.
  intros S Hn Hp Hl now T1. destruct (process_commands_ok w T C S Hl) as (w1 & E1 & S1 & F1). rewrite (bind_step _ _ _ _ _ E1).
  pose proof (frame_tick _ _ F1) as Et.
  destruct (process_expiry_ok sym app effect posts w1 _ [] S1) as (w2 & D & E2 & S2 & HD & A2).
  { destruct F1 as (H & _). by rewrite H. }
  { by apply plain_apply. }
  rewrite Et in S2, A2. exists w2, D. split; [exact E2|]. split; [exact S2|]. split; [exact HD|].
  destruct (advances_trans effect _ [] _ _ _ (advances_frame effect _ _ F1) A2) as (H1 & H2 & _). by split.
Qed.

(** C12: a timer that is started with a delay fires on time: the daemon, run once per tick, calls it back in the round of tick [now + delay]
    and, when it reloads, in every round a multiple of the period later, and in no other round, as long as the tick counter does
    not wrap. *)
Theorem timer_fires_on_time {A} sym app (effect : Z -> Z -> A -> A) pend `{HCB : !Callbacks sym app effect (fun _ => False)} `{HR : !Resumes pend}
    (w : sync sw_timer_t (timer_statics A)) T c t v delay n :
  let now := tick_count (kern w) in
  service w T [(c, Command TIMER_CMD_START t delay)] -> can_sleep w -> Forall (plain sym) T -> (t, v) ∈ T ->
  0 <= now -> 0 <= delay -> 0 < v_period v -> now + delay < 4294967296 -> now + Z.of_nat n + v_period v < 4294967296 ->
  let T1 := apply_cmds now [Command TIMER_CMD_START t delay] T in
  exists w', timer_daemon sym app pend (S n) w = Done (tt, w') /\
    application (glob w') = run_effects effect (concat ((fun k => fired (now + Z.of_nat k) (after k now T1)) <$> seq 0 (S n))) (application (glob w)) /\
    forall k u, (k <= n)%nat -> (t, u) ∈ after k now T1 ->
      v_callback u = v_callback v /\ v_param u = v_param v /\
      (due (now + Z.of_nat k) u = true <->
       match v_type v with
       | TIMER_TYPE_ONE_SHOT => Z.of_nat k = delay
       | TIMER_TYPE_AUTO_RELOAD => exists m, 0 <= m /\ Z.of_nat k = delay + m * v_period v
       end).
Proof.
  intros now S Hs Hp Hin H0 Hd Hpos Hb Hn T1.
  assert (t ∈ T.*1) as Ht by (apply list_elem_of_fmap; by exists (t, v)).
  destruct (daemon_ok sym app effect pend _ _ (Datatypes.S n) w T _ S Hs Hp) as (w' & C' & E & _ & _ & _ & Ea); [by split|done|fold now; lia|].
  exists w'. split; [exact E|]. split.
  - rewrite Ea. cbn [fmap list_fmap snd]. by rewrite daemon_spec_first, daemon_spec_rounds.
  - intros k u Hk Hu. rewrite after_ev in Hu. apply list_elem_of_fmap in Hu as ((a & y) & Eu & Hy). cbn in Eu. injection Eu as Et Eu. subst u a.
    change T1 with (map_at t (set_v_run 1 (now +32 delay)) T) in Hy. apply list_elem_of_fmap in Hy as ((b & z) & Ey & Hz). cbn [fst snd] in Ey.
    destruct (Z.eqb_spec b t) as [->|Hne]; [injection Ey as ->|congruence].
    destruct (lseg_in _ _ _ _ _ _ _ _ (sv_timers _ _ _ S) Hin) as (_ & r & Hr & Hv).
    destruct (lseg_in _ _ _ _ _ _ _ _ (sv_timers _ _ _ S) Hz) as (_ & r' & Hr' & Hv'). assert (z = v) as -> by congruence.
    destruct (ev_fixed k now (set_v_run 1 (now +32 delay) v)) as (_ & -> & -> & _). split; [done|]. split; [done|].
    rewrite u32_small by lia. apply due_started; lia.
Qed.

(** Commands are safe exactly when they name timers that are there: when the list holds all the timers, processing the waiting commands
    returns if each names a timer still in the list when its turn comes, and otherwise (a timer stopped after it was deleted,
    or deleted twice) dereferences freed memory. *)
Theorem commands_run_iff_live {A} (w : sync sw_timer_t (timer_statics A)) T C :
  service w T C -> tight w T -> Forall (fun c => c_timer c <> NULL) C.*2 ->
  (all_live (tick_count (kern w)) T C.*2 -> exists w', timer_process_commands w = Done (tt, w') /\
     service w' (apply_cmds (tick_count (kern w)) C.*2 T) []) /\
  (~ all_live (tick_count (kern w)) T C.*2 -> timer_process_commands w = UB).
Proof.
  intros S Ht Hn. split; intros Hl.
  - destruct (process_commands_ok w T C S Hl) as (w' & E & S' & _). by exists w'.
  - destruct (process_commands_fuel w T C S) as (fuel & -> & Hf). by eapply commands_loop_gone.
Qed.

(** Expiry ticks that wrap are in the past: a timer started with a delay that carries the tick counter over 2^32 is called back in the very pass
    that starts it, however long its delay. *)
Theorem timer_early_at_wrap {A} sym app (effect : Z -> Z -> A -> A) posts `{!Callbacks sym app effect posts}
    (w : sync sw_timer_t (timer_statics A)) T c t v delay :
  let now := tick_count (kern w) in
  service w T [(c, Command TIMER_CMD_START t delay)] -> 0 <= critical_nesting (kern w) < UINT32_MAX -> Forall (plain sym) T ->
  (t, v) ∈ T -> v_callback v <> NULL -> is_u32 now -> is_u32 delay -> 4294967296 <= now + delay ->
  exists w' ps, (timer_process_commands;; timer_process_expiry sym app) w = Done (tt, w') /\
    application (glob w') = run_effects effect ps (application (glob w)) /\ (v_callback v, v_param v) ∈ ps.
Proof.
  intros now S Hn Hp Hin Hcb Hnow Hd Hw. assert (t ∈ T.*1) as Ht by (apply list_elem_of_fmap; by exists (t, v)).
  destruct (process_commands_ok w T _ S) as (w1 & E1 & S1 & F1); [by split|]. rewrite (bind_step _ _ _ _ _ E1).
  pose proof (frame_tick _ _ F1) as Et.
  destruct (process_expiry_ok sym app effect posts w1 _ [] S1) as (w2 & D & E2 & _ & _ & A2).
  { destruct F1 as (H & _). by rewrite H. }
  { by apply plain_apply. }
  exists w2. eexists. split; [exact E2|]. split.
  - by destruct (advances_trans effect _ [] _ _ _ (advances_frame effect _ _ F1) A2) as (_ & H & _).
  - rewrite Et. fold now. apply list_elem_of_omap. exists (t, set_v_run 1 (now +32 delay) v). split.
    + cbn [fmap list_fmap snd apply_cmds foldl apply_cmd c_type c_timer c_period]. apply list_elem_of_fmap. exists (t, v).
      cbn. by rewrite Z.eqb_refl.
    + cbn [snd]. rewrite due_now by done. cbn [v_expiry set_v_run v_callback v_param].
      unfold is_u32 in *. assert (now +32 delay = now + delay - 4294967296) as -> by (unfold u32; symmetry; apply (Z.mod_unique _ _ 1); lia).
      rewrite (proj2 (Z.leb_le _ now)) by lia. unfold truthy. by rewrite (proj2 (Z.eqb_neq _ 0) Hcb).
Qed.

(** The steps of a chain are not chained: the address of the callback that would start the next step never enters the timers that
    creating a chain makes: the whole call is the same whatever that address is. *)
Theorem chain_callback_never_installed {A} (sym sym' : symbols) times callbacks params count (w : sync sw_timer_t (timer_statics A)) T C :
  service w T C -> 0 <= critical_nesting (kern w) < UINT32_MAX -> timer_daemon_initialized (glob w) = true -> is_u32 count ->
  timer_chain_create sym times callbacks params count w = timer_chain_create sym' times callbacks params count w.
Proof.
  intros S Hn Hi Hc. unfold timer_chain_create. destruct times as [times|], callbacks as [callbacks|]; try done.
  destruct (Z.eqb_spec count 0) as [|H0]; [done|]. unfold is_u32 in Hc.
  destruct (chain_alloc_ok (Z.to_nat count) w T C NULL [] S) as (r & w1 & E & S1 & Hn1 & Hi1 & Hr);
    [done|by apply NoDup_nil|by intros a Ha%not_elem_of_nil|].
  rewrite !(bind_step _ _ _ _ _ E). destruct Hr as [->|(h & N & -> & HN & Hd & Hl)]; [done|]. rewrite app_nil_r in HN, Hd.
  rewrite !bind_upd_st. unfold mbind, M_bind.
  erewrite (chain_timers_sym sym sym' _ _ _ _ _ _ _ _ T C N); [done|by destruct S1|by cbn; rewrite Hn1|by cbn; rewrite Hi1|done|done|lia|lia|lia].
Qed.

(** ** The pool *)

(** The pool with [mask] and slot [i] holding [x]. *)
Definition pool_with {A} (sym : symbols) (mask i : Z) (x : sw_timer_t) (w : sync sw_timer_t (timer_statics A)) : sync sw_timer_t (timer_statics A) :=
  set_objs (<[pool_slot sym i := x]> (objs w)) (set_glob (set_pool mask (glob w)) w).

Lemma pool_scan_ok {A} sym n i (w : sync sw_timer_t (timer_statics A)) (m := timer_pool_free_mask (glob w)) :
  0 <= i ->
  (forall k, i <= k < i + Z.of_nat n -> Z.testbit m k = false) /\ pool_scan sym n i w = Done (NULL, w) \/
  exists j, i <= j < i + Z.of_nat n /\ Z.testbit m j = true /\ (forall k, i <= k < j -> Z.testbit m k = false) /\
    pool_scan sym n i w = Done (pool_slot sym j, pool_with sym (Z.ldiff m (Z.shiftl 1 j)) j (set_tm_id (j + 1000) zero_timer) w).
Proof.
  revert i. induction n as [|n IH]; intros i Hi.
  - left. split; [lia|done].
  - cbn [pool_scan]. rewrite bind_st, land_bit by done. fold m. destruct (Z.testbit m i) eqn:E.
    + right. exists i. split; [lia|]. split; [done|]. split; [lia|]. done.
    + destruct (IH (i + 1) ltac:(lia)) as [[H1 H2]|(j & H1 & H2 & H3 & H4)].
      * left. split; [|done]. intros k Hk. destruct (Z.eq_dec k i) as [->|]; [done|]. apply H1. lia.
      * right. exists j. split; [lia|]. split; [done|]. split; [|done]. intros k Hk. destruct (Z.eq_dec k i) as [->|]; [done|]. apply H3. lia.
Qed.

(** The pool gives out and takes back: allocation returns the lowest free slot, cleared and numbered from 1000, or null when none of the sixteen
    is free; freeing the slot just allocated gives the mask it was allocated from; a pointer outside the pool changes nothing. *)
Theorem pool_alloc_free {A} sym (w : sync sw_timer_t (timer_statics A)) (m := timer_pool_free_mask (glob w)) :
  timer_pool_buf sym <> NULL -> 0 <= timer_pool_buf sym ->
  ((forall k, 0 <= k < 16 -> Z.testbit m k = false) /\ timer_pool_alloc sym w = Done (NULL, w) \/
   exists j, 0 <= j < 16 /\ Z.testbit m j = true /\ (forall k, 0 <= k < j -> Z.testbit m k = false) /\
     let w' := pool_with sym (Z.ldiff m (Z.shiftl 1 j)) j (set_tm_id (j + 1000) zero_timer) w in
     timer_pool_alloc sym w = Done (pool_slot sym j, w') /\
     timer_pool_free sym (pool_slot sym j) w' = Done (tt, pool_with sym m j (set_tm_id (j + 1000) zero_timer) w)) /\
  (forall t, t < timer_pool_buf sym \/ timer_pool_buf sym + sizeof_sw_timer * TIMER_POOL_SIZE <= t -> timer_pool_free sym t w = Done (tt, w)).
Proof.
  intros Hb Hb0. unfold NULL in Hb. split.
  - destruct (pool_scan_ok sym 16 0 w ltac:(lia)) as [H|(j & Hj & Hm & Hl & E)]; [by left|right].
    exists j. split; [lia|]. split; [done|]. split; [done|]. split; [exact E|].
    unfold timer_pool_free, pool_slot, sizeof_sw_timer, TIMER_POOL_SIZE. rewrite (proj2 (Z.eqb_neq _ NULL)) by (unfold NULL; lia).
    rewrite (proj2 (Z.leb_le _ _)), (proj2 (Z.ltb_lt _ _)) by lia. cbn [andb].
    replace (timer_pool_buf sym + 64 * j - timer_pool_buf sym) with (j * 64) by lia. rewrite Z.div_mul by lia.
    rewrite bind_upd_st. erewrite upd_obj_Done by (apply lookup_insert_eq). unfold pool_with, pool_slot, sizeof_sw_timer.
    cbn [objs set_objs set_glob glob timer_pool_free_mask set_pool]. rewrite insert_insert_eq.
    replace (Z.lor (Z.ldiff m (Z.shiftl 1 j)) (Z.shiftl 1 j)) with m; [done|]. apply Z.bits_inj'. intros k Hk.
    rewrite Z.shiftl_1_l, Z.lor_spec, Z.ldiff_spec, Z.pow2_bits_eqb by lia. destruct (Z.eqb_spec j k) as [<-|]; [by rewrite orb_true_r|].
    by rewrite orb_false_r, andb_true_r.
  - intros t Ht. unfold timer_pool_free. destruct (t =? NULL); [done|].
    assert ((timer_pool_buf sym <=? t) && (t <? timer_pool_buf sym + sizeof_sw_timer * TIMER_POOL_SIZE) = false) as ->; [|done].
    destruct (Z.leb_spec (timer_pool_buf sym) t); [|done]. cbn. apply Z.ltb_ge. lia.
Qed.

(** ** Concrete runs

    An application whose callbacks are recorded. *)
Notation timer_world := (sync sw_timer_t (timer_statics (list (Z * Z)))).
Definition log_app (cb param : Z) : M timer_world unit := upd_st (fun s => set_application ((cb, param) :: application s) s).
Definition log_effect (cb param : Z) (log : list (Z * Z)) : list (Z * Z) := (cb, param) :: log.
Definition demo_symbols : symbols := Symbols 4096 8192 12288 65536.
#[export] Instance log_callbacks posts : Callbacks demo_symbols log_app log_effect posts.
Proof.
  intros cb p w T C S _ _. eexists _, []. split; [reflexivity|]. rewrite app_nil_r. split; [by destruct S|].
  split; [done|]. split; [by destruct w as [[] ? ?]|done].
Qed.

Definition demo_statics : timer_statics (list (Z * Z)) := TimerStatics NULL 1 NULL NULL ∅ 0 true 0 ∅ (Queue.Statics NULL 0 ∅) NULL ∅ 65535 [].
Definition demo_timers (tick : Z) : timer_world := Sync (set_tick_count tick demo_rr) ∅ demo_statics.
Lemma service_empty k tick m (g : timer_statics (list (Z * Z))) ab :
  heap_inv (heap k) ab -> timer_list g = NULL -> cmd_queue_head g = NULL -> cmd_queue_tail g = NULL -> service (Sync (set_tick_count tick k) m g) [] [].
Proof.
  intros Hi H1 H2 H3. constructor; cbn; [by exists ab|done|done|done|by apply NoDup_nil|..]; by intros ? ?%not_elem_of_nil.
Qed.
Lemma demo_service tick : service (demo_timers tick) [] [].
Proof. destruct (kw_heap _ _ (ki_wf _ _ demo_rr_inv)) as [ab Hi]. exact (service_empty demo_rr tick ∅ demo_statics ab Hi eq_refl eq_refl eq_refl). Qed.

(** A periodic timer, and commands on it. *)
Definition post_all (cmds : list (timer_cmd_type_t * Z)) (t : Z) : M timer_world Z :=
  foldr (fun c k => r ← post true c.1 t c.2; if r =? 1 then k else undefined) (mret t) cmds.
Definition create_and_post (cmds : list (timer_cmd_type_t * Z)) : M timer_world Z :=
  t ← timer_create None 700 5 3 TIMER_TYPE_AUTO_RELOAD;
  if t =? NULL then undefined else post_all cmds t.
Definition demo_run (cmds : list (timer_cmd_type_t * Z)) (tick : Z) : outcome (Z * timer_world) := create_and_post cmds (demo_timers tick).
Definition demo_ran (o : outcome (Z * timer_world)) : bool := match o with Done _ => true | _ => false end.
Definition demo_view : timer_view := TimerView TIMER_TYPE_AUTO_RELOAD 700 5 3 0 0.

Lemma running_can_sleep self n tick k (m : gmap Z sw_timer_t) (g : timer_statics (list (Z * Z))) w :
  running_task self n k -> frame (Sync (set_tick_count tick k) m g) w -> can_sleep w /\ tick_count (kern w) = tick.
Proof.
  intros Hr (H & _). destruct (running_some _ _ _ Hr) as [_ [c Hc']]. destruct Hr as (Hc & Hn & rq & p & l1 & l2 & Hk & Hp & Hl).
  unfold can_sleep. rewrite H. cbn. split; [|done]. split; [apply Hk|]. exists rq, p, l1, l2, c. rewrite Hc.
  split; [apply Hk|done].
Qed.


Lemma post_all_ok cmds t w t' w' T C :
  service w T C -> 0 <= critical_nesting (kern w) < UINT32_MAX -> t <> NULL -> post_all cmds t w = Done (t', w') ->
  t' = t /\ frame w w' /\ exists D, service w' T (C ++ D) /\ D.*2 = (fun c => Command c.1 t c.2) <$> cmds.
Proof.
  revert w C. induction cmds as [|[ty p] cmds IH]; intros w C S Hn Ht E.
  - injection E as <- <-. split; [done|]. split; [apply frame_refl|]. exists []. by rewrite app_nil_r.
  - cbn [post_all foldr fst snd] in E. destruct (post_ok true ty t p w T C S Hn Ht) as (r & w1 & E1 & F1 & Hr).
    rewrite (bind_step _ _ _ _ _ E1) in E. destruct Hr as [[-> _]|[-> [c S1]]]; [done|]. cbn in E.
    assert (0 <= critical_nesting (kern w1) < UINT32_MAX) as Hn1 by (destruct F1 as (H & _); by rewrite H).
    destruct (IH w1 _ S1 Hn1 Ht E) as (-> & F2 & D & S2 & HD). split; [done|]. split; [by eapply frame_trans|].
    exists ((c, Command ty t p) :: D). rewrite <- app_assoc in S2. split; [exact S2|]. cbn. by f_equal.
Qed.

(** A run that returns has left the timer in the list and the commands waiting. *)
Lemma create_and_post_ok cmds w0 t w :
  service w0 [] [] -> 0 <= critical_nesting (kern w0) < UINT32_MAX -> timer_daemon_initialized (glob w0) = true ->
  create_and_post cmds w0 = Done (t, w) ->
  exists C, service w [(t, demo_view)] C /\ C.*2 = (fun c => Command c.1 t c.2) <$> cmds /\ t <> NULL /\ frame w0 w.
Proof.
  intros S Hn Hi E. unfold create_and_post in E.
  destruct (create_ok None 700 5 3 TIMER_TYPE_AUTO_RELOAD w0 _ _ S Hn ltac:(done) ltac:(done) Hi) as (t1 & w1 & E1 & F1 & H1).
  rewrite (bind_step _ _ _ _ _ E1) in E. destruct H1 as [[-> _]|(Ht & _ & S1 & _)]; [done|]. rewrite (proj2 (Z.eqb_neq t1 NULL) Ht) in E.
  assert (0 <= critical_nesting (kern w1) < UINT32_MAX) as Hn1 by (destruct F1 as (H & _); by rewrite H).
  destruct (post_all_ok _ _ _ _ _ _ _ S1 Hn1 Ht E) as (-> & F2 & D & S2 & HD).
  exists D. split; [exact S2|]. split; [done|]. split; [done|]. by eapply frame_trans.
Qed.

Lemma demo_reached cmds tick :
  demo_ran (demo_run cmds tick) = true ->
  exists t w C, demo_run cmds tick = Done (t, w) /\ service w [(t, demo_view)] C /\ C.*2 = (fun c => Command c.1 t c.2) <$> cmds /\ t <> NULL /\
    can_sleep w /\ tick_count (kern w) = tick.
Proof.
  unfold demo_run. intros Hr. destruct (create_and_post cmds (demo_timers tick)) as [[t w]| |] eqn:E; [|discriminate Hr|discriminate Hr]. exists t, w.
  pose proof (running_can_sleep 4752 0 tick demo_rr ∅ demo_statics) as Hsl.
  destruct (Hsl (demo_timers tick) demo_running (frame_refl _)) as [[Hn _] _].
  destruct (create_and_post_ok cmds (demo_timers tick) t w (demo_service tick) Hn eq_refl E) as (C & S & HC & Ht & F). exists C.
  destruct (Hsl w demo_running F) as [Hs Et]. split; [reflexivity|]. split; [exact S|]. split; [exact HC|]. split; [exact Ht|]. by split.
Qed.

Lemma demo_start : demo_ran (demo_run [(TIMER_CMD_START, 2)] 7) = true.
Proof. vm_compute. reflexivity. Qed.
Lemma demo_start_late : demo_ran (demo_run [(TIMER_CMD_START, 2)] 4294967295) = true.
Proof. vm_compute. reflexivity. Qed.
Lemma demo_delete_stop : demo_ran (demo_run [(TIMER_CMD_DELETE, 0); (TIMER_CMD_STOP, 0)] 7) = true.
Proof. vm_compute. reflexivity. Qed.

Lemma demo_nesting tick : 0 <= critical_nesting (kern (demo_timers tick)) < UINT32_MAX.
Proof. exact (proj1 (proj1 (running_can_sleep 4752 0 tick demo_rr ∅ demo_statics _ demo_running (frame_refl (demo_timers tick))))). Qed.

Lemma timer_calls_correct_witness :
  exists t w', timer_create None 700 5 3 TIMER_TYPE_ONE_SHOT (demo_timers 7) = Done (t, w') /\ frame (demo_timers 7) w' /\
    (t = NULL /\ service w' [] [] \/
     t <> NULL /\ t ∉ [] /\ service w' [(t, TimerView TIMER_TYPE_ONE_SHOT 700 5 3 0 0)] [] /\
     exists x, objs w' !! t = Some x /\ tm_id x = 1 /\ tm_name x = object_name None).
Proof.
  destruct (timer_calls_correct (demo_timers 7) [] [] (demo_service 7) (demo_nesting 7)) as [H _].
  destruct (H None 700 5 3 TIMER_TYPE_ONE_SHOT) as [_ H1]. exact (H1 ltac:(discriminate) ltac:(discriminate) eq_refl).
Defined.

Lemma daemon_pass_refines_witness :
  exists t w w' D, demo_run [(TIMER_CMD_START, 2)] 7 = Done (t, w) /\
    (timer_process_commands;; timer_process_expiry demo_symbols log_app) w = Done (tt, w') /\
    service w' [(t, TimerView TIMER_TYPE_AUTO_RELOAD 700 5 3 9 1)] D /\ D = [].
Proof.
  destruct (demo_reached _ _ demo_start) as (t & w & C & E & S & HC & Ht & [Hn _] & Et). exists t, w.
  assert (all_live (tick_count (kern w)) [(t, demo_view)] C.*2) as Hl by (rewrite HC; split; [left|exact I]).
  destruct (daemon_pass_refines demo_symbols log_app log_effect (fun _ => False) w _ C S Hn ltac:(by repeat constructor) Hl) as (w' & D & E' & S' & HD & _).
  exists w', D. split; [exact E|]. split; [exact E'|]. rewrite Et, HC in S'. cbn in S'. rewrite Z.eqb_refl in S'. split; [exact S'|].
  destruct D as [|d D]; [reflexivity|]. by apply Forall_cons in HD as [[] _].
Defined.

Lemma timer_fires_on_time_witness :
  exists t w w', demo_run [(TIMER_CMD_START, 2)] 7 = Done (t, w) /\ timer_daemon demo_symbols log_app (resume_pend 4752) 6 w = Done (tt, w') /\
    forall k u, (k <= 5)%nat -> (t, u) ∈ after k 7 (apply_cmds 7 [Command TIMER_CMD_START t 2] [(t, demo_view)]) ->
      (due (7 + Z.of_nat k) u = true <-> exists m, 0 <= m /\ Z.of_nat k = 2 + m * 3).
Proof.
  destruct (demo_reached _ _ demo_start) as (t & w & C & E & S & HC & Ht & Hs & Et). exists t, w.
  destruct C as [|[c x] [|? ?]]; [discriminate HC| |discriminate HC]. injection HC as ->. cbn [fst snd] in S.
  destruct (timer_fires_on_time demo_symbols log_app log_effect (resume_pend 4752) w _ c t demo_view 2 5 S Hs) as (w' & E' & _ & H);
    [by repeat constructor|left|cbn; rewrite ?Et; lia..|].
  exists w'. split; [exact E|]. split; [exact E'|]. rewrite Et in H. intros k u Hk Hu. exact (proj2 (proj2 (H k u Hk Hu))).
Defined.

Lemma demo_delete_stop_tight : match demo_run [(TIMER_CMD_DELETE, 0); (TIMER_CMD_STOP, 0)] 7 with Done (t, w) => dom (objs w) = {[t]} | _ => False end.
Proof.
  enough (match demo_run [(TIMER_CMD_DELETE, 0); (TIMER_CMD_STOP, 0)] 7 with Done (t, w) => bool_decide (dom (objs w) = {[t]}) | _ => false end = true) as H.
  { destruct (demo_run _ 7) as [[t w]| |]; [|discriminate H|discriminate H]. exact (proj1 (bool_decide_eq_true _) H). }
  vm_compute. reflexivity.
Qed.

Lemma commands_run_iff_live_witness :
  exists t w, demo_run [(TIMER_CMD_DELETE, 0); (TIMER_CMD_STOP, 0)] 7 = Done (t, w) /\ timer_process_commands w = UB.
Proof.
  destruct (demo_reached _ _ demo_delete_stop) as (t & w & C & E & S & HC & Ht & Hs & Et). exists t, w. split; [exact E|].
  assert (tight w [(t, demo_view)]) as Htight.
  { pose proof demo_delete_stop_tight as H. rewrite E in H. unfold tight. rewrite H. cbn. by rewrite (right_id_L ∅ (∪)). }
  assert (Forall (fun c => c_timer c <> NULL) C.*2) as Hn by (rewrite HC; by repeat constructor).
  apply (proj2 (commands_run_iff_live w _ C S Htight Hn)).
  rewrite HC. intros (_ & H & _). cbn [fmap list_fmap fst snd] in H. unfold apply_cmd, without in H. cbn [c_type c_timer] in H.
  rewrite filter_cons_False in H by (cbn; tauto). by apply not_elem_of_nil in H.
Defined.

Lemma timer_early_at_wrap_witness :
  exists t w w' ps, demo_run [(TIMER_CMD_START, 2)] 4294967295 = Done (t, w) /\
    (timer_process_commands;; timer_process_expiry demo_symbols log_app) w = Done (tt, w') /\ (700, 5) ∈ ps /\
    application (glob w') = run_effects log_effect ps (application (glob w)).
Proof.
  destruct (demo_reached _ _ demo_start_late) as (t & w & C & E & S & HC & Ht & [Hn _] & Et). exists t, w.
  destruct C as [|[c x] [|? ?]]; [discriminate HC| |discriminate HC]. injection HC as ->. cbn [fst snd] in S.
  destruct (timer_early_at_wrap demo_symbols log_app log_effect (fun _ => False) w _ c t demo_view 2 S Hn) as (w' & ps & E' & Ha & Hin);
    [by repeat constructor|left|done|rewrite ?Et; unfold is_u32; lia..|].
  exists w', ps. split; [exact E|]. split; [exact E'|]. by split.
Defined.

Lemma chain_callback_never_installed_witness :
  timer_chain_create demo_symbols (Some [2; 3]) (Some [700; 701]) (Some [1; 2]) 2 (demo_timers 7) =
  timer_chain_create (Symbols 4096 8192 40960 65536) (Some [2; 3]) (Some [700; 701]) (Some [1; 2]) 2 (demo_timers 7).
Proof.
  apply (chain_callback_never_installed demo_symbols _ _ _ _ 2 (demo_timers 7) [] [] (demo_service 7) (demo_nesting 7) eq_refl).
  unfold is_u32. lia.
Defined.

Lemma pool_alloc_free_witness :
  timer_pool_free demo_symbols 700 (demo_timers 7) = Done (tt, demo_timers 7).
Proof. apply (pool_alloc_free demo_symbols (demo_timers 7)); [discriminate|vm_compute; discriminate|]. left. reflexivity. Defined.
