(* ===== verification/TraceDiag.v ===== *)
(** * Tracing and diagnostics (mini-rtos/src/trace_diag.c)

    The ring of the last 256 events, the processor's load, the run-time profile of a task and the rate-monotonic test. *)
From Stdlib Require Import QArith.QArith.
From S2P Require Import Prelude MemoryHeap Scheduler.
#[local] Open Scope Z_scope.

Definition TRACE_BUF_SIZE : Z := 256.
Definition TRACE_EVENT_MAX_TEXT : nat := 32.

(** The types of events, TRACE_TASK_CREATE = 0 to TRACE_USER_EVENT = 17, and what [trace_event_name] calls them. *)
Definition TRACE_USER_EVENT : Z := 17.
Definition trace_names : list string :=
  ["TASK_CREATE"; "TASK_DELETE"; "TASK_SWITCH"; "TASK_BLOCK"; "TASK_READY"; "ISR_ENTER"; "ISR_EXIT"; "QUEUE_SEND"; "QUEUE_RECV";
   "SEM_TAKE"; "SEM_GIVE"; "MUTEX_LOCK"; "MUTEX_UNLOCK"; "TIMER_FIRE"; "HEAP_ALLOC"; "HEAP_FREE"; "OVERFLOW"; "USER_EVENT"]%string.

Record trace_event_t := TraceEvent { te_tick : Z; te_type : Z; te_task_id : Z; te_arg : Z; te_text : list Z }.
Definition zero_event : trace_event_t := TraceEvent 0 0 0 0 (replicate TRACE_EVENT_MAX_TEXT 0).
Record cpu_stats_t := CpuStats {
  idle_ticks : Z; total_ticks : Z; cpu_usage_percent : Z; task_count : Z; max_runtime_task_id : Z; max_runtime_ticks : Z; context_switch_count : Z }.
Record task_profile_t := Profile {
  p_task_id : Z; total_runtime_ticks : Z; last_start_tick : Z; switch_in_count : Z; max_continuous_ticks : Z; cur_continuous_ticks : Z; p_name : list Z }.

(** The statics of the file, the profiles by address, and the kernel. *)
Record trace_t := Trace { trace_buf : list trace_event_t; trace_write_idx : Z; trace_event_total : Z; trace_overflow_count : Z }.
Record cpu_acc_t := CpuAcc { cpu_idle_ticks_acc : Z; cpu_total_ticks_acc : Z; cpu_ctx_switch_count : Z; cpu_last_dump_tick : Z; cpu_stats : cpu_stats_t }.
Record diag := Diag { dkern : kernel_t; trace : trace_t; cpu : cpu_acc_t; profs : gmap Z task_profile_t }.

Notation DM := (M diag).
Definition set_dkern (k : kernel_t) (w : diag) : diag := Diag k (trace w) (cpu w) (profs w).
Definition set_trace (t : trace_t) (w : diag) : diag := Diag (dkern w) t (cpu w) (profs w).
Definition set_cpu (c : cpu_acc_t) (w : diag) : diag := Diag (dkern w) (trace w) c (profs w).
Definition set_profs (m : gmap Z task_profile_t) (w : diag) : diag := Diag (dkern w) (trace w) (cpu w) m.
Definition on_kernel {A} (m : M kernel_t A) : DM A := zoom dkern set_dkern m.
Definition upd_trace (f : trace_t -> trace_t) : DM unit := modify (fun w => set_trace (f (trace w)) w).
Definition upd_cpu (f : cpu_acc_t -> cpu_acc_t) : DM unit := modify (fun w => set_cpu (f (cpu w)) w).

(** ** The ring of events *)

Definition cleared_trace : trace_t := Trace (replicate (Z.to_nat TRACE_BUF_SIZE) zero_event) 0 0 0.
Definition trace_init : DM unit := upd_trace (fun _ => cleared_trace).

(** An access to [trace_buf[idx]]. *)
Definition slot (idx : Z) : DM trace_event_t := fun w =>
  match trace_buf (trace w) !! Z.to_nat idx with Some e => Done (e, w) | None => UB end.
Definition put_slot (idx : Z) (e : trace_event_t) : DM unit :=
  _ ← slot idx;
  upd_trace (fun t => Trace (<[Z.to_nat idx := e]> (trace_buf t)) (trace_write_idx t) (trace_event_total t) (trace_overflow_count t)).

(** The end of both writers: the next index, the counters. *)
Definition advance_index (idx : Z) : DM unit :=
  upd_trace (fun t => Trace (trace_buf t) ((idx +32 1) mod TRACE_BUF_SIZE) (trace_event_total t +32 1) (trace_overflow_count t));;
  total ← gets (fun w => trace_event_total (trace w));
  when (TRACE_BUF_SIZE * 2 <? total)
    (upd_trace (fun t => Trace (trace_buf t) (trace_write_idx t) (trace_event_total t) (trace_overflow_count t +32 1))).

(** Only the first byte of the text is cleared. *)
Definition trace_event (type task_id arg : Z) : DM unit :=
  on_kernel task_enter_critical;;
  idx ← gets (fun w => trace_write_idx (trace w));
  tick ← on_kernel task_get_tick_count;
  e ← slot idx;
  put_slot idx (TraceEvent tick type task_id arg (<[O := 0]> (te_text e)));;
  advance_index idx;;
  on_kernel task_exit_critical.

Definition trace_event_text (type task_id arg : Z) (text : option (list Z)) : DM unit :=
  on_kernel task_enter_critical;;
  idx ← gets (fun w => trace_write_idx (trace w));
  tick ← on_kernel task_get_tick_count;
  e ← slot idx;
  put_slot idx (TraceEvent tick type task_id arg
    (match text with Some s => cstr_copy TRACE_EVENT_MAX_TEXT s | None => <[O := 0]> (te_text e) end));;
  advance_index idx;;
  on_kernel task_exit_critical.

Definition trace_event_count : DM Z := gets (fun w => trace_event_total (trace w)).

(** The copying loop; [dst] is the caller's array, written in bounds only. *)
Fixpoint dump_loop (fuel : nat) (start count max i copied : Z) (dst : list trace_event_t) : DM (Z * list trace_event_t) :=
  match fuel with
  | O => nofuel
  | S fuel =>
      if (i <? count) && (copied <? max) then
        e ← slot ((start +32 i) mod TRACE_BUF_SIZE);
        _ ← of_option (dst !! Z.to_nat copied);
        dump_loop fuel start count max (i +32 1) (copied +32 1) (<[Z.to_nat copied := e]> dst)
      else mret (copied, dst)
  end.

(** The result with the caller's array; at most [TRACE_BUF_SIZE] rounds. *)
Definition trace_dump (buf : option (list trace_event_t)) (max_events : Z) : DM (Z * option (list trace_event_t)) :=
  match buf with
  | None => mret (0, None)
  | Some dst =>
      on_kernel task_enter_critical;;
      total ← trace_event_count;
      let count := if TRACE_BUF_SIZE <? total then TRACE_BUF_SIZE else total in
      let count := if max_events <? count then max_events else count in
      start ← (if total <=? TRACE_BUF_SIZE then mret 0 else gets (fun w => trace_write_idx (trace w)));
      r ← dump_loop (S (Z.to_nat TRACE_BUF_SIZE)) start count max_events 0 0 dst;
      on_kernel task_exit_critical;;
      mret (r.1, Some r.2)
  end.

Definition trace_clear : DM unit :=
  on_kernel task_enter_critical;;
  upd_trace (fun _ => cleared_trace);;
  on_kernel task_exit_critical.

Definition trace_event_name (type : Z) : option string :=
  if TRACE_USER_EVENT <? type then Some "UNKNOWN"%string else trace_names !! Z.to_nat type.

(** ** The processor's load *)

Definition cpu_stats_init : DM unit :=
  now ← on_kernel task_get_tick_count;
  upd_cpu (fun _ => CpuAcc 0 0 0 now (CpuStats 0 0 0 0 0 0 0)).

Definition cpu_stats_tick_hook : DM unit :=
  upd_cpu (fun c => CpuAcc (cpu_idle_ticks_acc c) (cpu_total_ticks_acc c +32 1) (cpu_ctx_switch_count c) (cpu_last_dump_tick c) (cpu_stats c));;
  cur ← on_kernel task_get_current;
  when (truthy cur) (
    t ← on_kernel (tcb cur);
    when ((t_priority t =? TASK_PRIORITY_IDLE) || (t_priority t =? 0))
      (upd_cpu (fun c => CpuAcc (cpu_idle_ticks_acc c +32 1) (cpu_total_ticks_acc c) (cpu_ctx_switch_count c) (cpu_last_dump_tick c) (cpu_stats c)))).

Definition cpu_stats_task_switch_hook (prev_id next_id : Z) : DM unit :=
  upd_cpu (fun c => CpuAcc (cpu_idle_ticks_acc c) (cpu_total_ticks_acc c) (cpu_ctx_switch_count c +32 1) (cpu_last_dump_tick c) (cpu_stats c)).

Definition cpu_stats_get : DM cpu_stats_t :=
  on_kernel task_enter_critical;;
  delta_total ← gets (fun w => cpu_total_ticks_acc (cpu w));
  delta_idle ← gets (fun w => cpu_idle_ticks_acc (cpu w));
  switches ← gets (fun w => cpu_ctx_switch_count (cpu w));
  on_kernel task_exit_critical;;
  let usage := if (0 <? delta_total) && (delta_idle <=? delta_total) then (delta_total -32 delta_idle) *32 100 / delta_total else 0 in
  mret (CpuStats delta_idle delta_total usage 0 0 0 switches).

Definition cpu_stats_reset : DM unit :=
  on_kernel task_enter_critical;;
  now ← on_kernel task_get_tick_count;
  upd_cpu (fun c => CpuAcc 0 0 0 now (cpu_stats c));;
  on_kernel task_exit_critical.

(** ** Profiles *)

Definition prof (p : Z) : DM task_profile_t := fun w => match profs w !! p with Some x => Done (x, w) | None => UB end.
Definition upd_prof (p : Z) (f : task_profile_t -> task_profile_t) : DM unit :=
  x ← prof p; modify (fun w => set_profs (<[p := f x]> (profs w)) w).

Definition task_profile_init (p : Z) (name : option (list Z)) : DM unit :=
  if p =? NULL then mret tt
  else upd_prof p (fun _ => Profile 0 0 0 0 0 0
    (match name with Some n => cstr_copy TASK_NAME_MAX_LEN n | None => replicate TASK_NAME_MAX_LEN 0 end)).

Definition profile_tick (x : task_profile_t) : task_profile_t :=
  let cur := cur_continuous_ticks x +32 1 in
  Profile (p_task_id x) (total_runtime_ticks x +32 1) (last_start_tick x) (switch_in_count x)
    (if max_continuous_ticks x <? cur then cur else max_continuous_ticks x) cur (p_name x).
Definition task_profile_tick_hook (p : Z) : DM unit := if p =? NULL then mret tt else upd_prof p profile_tick.

Definition profile_switch_in (now : Z) (x : task_profile_t) : task_profile_t :=
  Profile (p_task_id x) (total_runtime_ticks x) now (switch_in_count x +32 1) (max_continuous_ticks x) 0 (p_name x).
Definition task_profile_switch_in (p : Z) : DM unit :=
  if p =? NULL then mret tt else now ← on_kernel task_get_tick_count; upd_prof p (profile_switch_in now).

Definition task_profile_switch_out (p : Z) : DM unit := mret tt.

Definition task_profile_avg_runtime (p : Z) : DM Z :=
  if p =? NULL then mret 0
  else x ← prof p; mret (if switch_in_count x =? 0 then 0 else total_runtime_ticks x / switch_in_count x).

(** ** The rate-monotonic test *)

Record rma_task_t := RmaTask { period_ticks : Z; wcet_ticks : Z }.
Definition rma_bound_permil : list Z :=
  [1000; 828; 779; 756; 743; 734; 728; 724; 720; 717; 715; 713; 711; 710; 709; 708; 707; 706; 706; 705; 704; 704; 703; 703; 702; 702; 702;
   701; 701; 701; 700; 700].

(** The sum, or [None] when a period is zero. *)
Fixpoint rma_util (tasks : list rma_task_t) (sum : Z) : option Z :=
  match tasks with
  | [] => Some sum
  | t :: tasks => if period_ticks t =? 0 then None else rma_util tasks (sum +32 (1000 *32 wcet_ticks t) / period_ticks t)
  end.
Definition rma_bound (task_count : Z) : Z :=
  if task_count <=? 32 then nth (Z.to_nat (task_count - 1)) rma_bound_permil 0 else 693.

(** The result, and what is stored through a non-null [total_utilization_permil]; a null [tasks] is [None]. *)
Definition rma_schedulability_test (tasks : option (list rma_task_t)) : Z * option Z :=
  match tasks with
  | None | Some [] => (1, Some 0)
  | Some ts =>
      match rma_util ts 0 with
      | None => (0, None)
      | Some util => (b2z (util <=? rma_bound (Z.of_nat (length ts))), Some util)
      end
  end.

(** ** The ring as the tail of a log *)

Definition view (e : trace_event_t) : trace_event_t := TraceEvent (te_tick e) (te_type e) (te_task_id e) (te_arg e) (c_string (te_text e)).

Lemma c_string_copy s : Forall (fun x => x <> 0) s -> c_string (cstr_copy TRACE_EVENT_MAX_TEXT s) = take 31 s.
Proof. intros H. by apply c_string_pad, Forall_take. Qed.

(** What the file's statics hold after the events [log], newest last. *)
Record traced (t : trace_t) (log : list trace_event_t) : Prop := {
  tr_len : length (trace_buf t) = 256%nat;
  tr_text : Forall (fun e => length (te_text e) = 32%nat) (trace_buf t);
  tr_small : Z.of_nat (length log) < 4294967296;
  tr_total : trace_event_total t = Z.of_nat (length log);
  tr_index : trace_write_idx t = Z.of_nat (length log mod 256);
  tr_over : trace_overflow_count t = Z.max 0 (Z.of_nat (length log) - 512);
  tr_ring : forall i e, log !! i = Some e -> (length log <= i + 256)%nat -> exists r, trace_buf t !! (i mod 256)%nat = Some r /\ view r = e }.

Lemma traced_clear : traced cleared_trace [].
Proof. constructor; try done. apply Forall_replicate. done. Qed.

(** The body the two writers share. *)
Definition write_event (g : list Z -> list Z) (type task_id arg : Z) : DM unit :=
  on_kernel task_enter_critical;;
  idx ← gets (fun w => trace_write_idx (trace w));
  tick ← on_kernel task_get_tick_count;
  e ← slot idx;
  put_slot idx (TraceEvent tick type task_id arg (g (te_text e)));;
  advance_index idx;;
  on_kernel task_exit_critical.

Definition nested (w : diag) : Prop := 0 <= critical_nesting (dkern w) < UINT32_MAX.
Definition enter_k (k : kernel_t) : kernel_t := set_critical_nesting (critical_nesting k +32 1) k.

Lemma leave_enter w : nested w -> set_critical_nesting (critical_nesting (enter_k (dkern w)) -32 1) (enter_k (dkern w)) = dkern w.
Proof. intros H. cbn. unfold nested, UINT32_MAX in H. rewrite (u32_small (_ + 1)), u32_small by lia. rewrite Z.add_simpl_r. by destruct (dkern w). Qed.

Lemma advance_log t log e :
  traced t log -> Z.of_nat (length log) + 1 < 4294967296 -> length (te_text e) = 32%nat ->
  let total := trace_event_total t +32 1 in
  traced (Trace (<[Z.to_nat (trace_write_idx t) := e]> (trace_buf t)) ((trace_write_idx t +32 1) mod TRACE_BUF_SIZE) total
    (if TRACE_BUF_SIZE * 2 <? total then trace_overflow_count t +32 1 else trace_overflow_count t)) (log ++ [view e]).
Proof.
  intros [] Hs He total. set (n := length log) in *.
  assert (total = Z.of_nat (S n)) as Et by (unfold total; rewrite tr_total0, u32_small by lia; lia).
  assert (n mod 256 < 256)%nat as Hm by (apply Nat.mod_upper_bound; lia).
  constructor; cbn [trace_buf trace_write_idx trace_event_total trace_overflow_count]; rewrite ?length_app, ?length_insert; cbn [length]; fold n.
  - done.
  - by apply Forall_insert.
  - lia.
  - lia.
  - rewrite tr_index0. unfold TRACE_BUF_SIZE. rewrite u32_small by lia.
    rewrite !Nat2Z.inj_mod, Nat2Z.inj_add. change (Z.of_nat 256) with 256. apply Z.add_mod_idemp_l. lia.
  - rewrite Et, tr_over0. unfold TRACE_BUF_SIZE. destruct (Z.ltb_spec (256 * 2) (Z.of_nat (S n))); [|lia]. rewrite u32_small; lia.
  - intros i r Hi Hr. rewrite tr_index0, Nat2Z.id. apply lookup_app_Some in Hi as [Hi|[Hi1 Hi2]].
    + pose proof (lookup_lt_Some _ _ _ Hi) as Hlt. fold n in Hlt.
      rewrite list_lookup_insert_ne; [apply tr_ring0; [done|fold n; lia]|].
      pose proof (Nat.div_mod i 256 ltac:(lia)). pose proof (Nat.div_mod n 256 ltac:(lia)). lia.
    + fold n in Hi1, Hi2. destruct (i - n)%nat eqn:E; [|done]. injection Hi2 as <-. exists e. replace i with n by lia.
      by rewrite list_lookup_insert_eq by lia.
Qed.

Lemma slot_ok (w : diag) log idx :
  traced (trace w) log -> 0 <= idx < 256 -> exists e, slot idx w = Done (e, w) /\ trace_buf (trace w) !! Z.to_nat idx = Some e /\ length (te_text e) = 32%nat.
Proof.
  intros [] Hi. destruct (lookup_lt_is_Some_2 (trace_buf (trace w)) (Z.to_nat idx)) as [e He]; [lia|].
  exists e. unfold slot. rewrite He. split; [done|]. split; [done|]. rewrite Forall_lookup in tr_text0. by eapply tr_text0.
Qed.

Lemma bind_enter {B} (k : unit -> DM B) w : (on_kernel task_enter_critical ≫= k) w = k tt (set_dkern (enter_k (dkern w)) w).
Proof. done. Qed.
Lemma exit_ok w t : nested w -> on_kernel task_exit_critical (Diag (enter_k (dkern w)) t (cpu w) (profs w)) = Done (tt, set_trace t w).
Proof. intros H. unfold on_kernel, zoom, task_exit_critical, modify. cbn [dkern]. rewrite leave_enter by done. done. Qed.

(** One event recorded. *)
Lemma write_ok g type task_id arg w log s :
  nested w -> traced (trace w) log -> Z.of_nat (length log) + 1 < 4294967296 ->
  (forall bs, length bs = 32%nat -> length (g bs) = 32%nat /\ c_string (g bs) = s) ->
  exists t, write_event g type task_id arg w = Done (tt, set_trace t w) /\
    traced t (log ++ [TraceEvent (tick_count (dkern w)) type task_id arg s]).
Proof.
  intros Hn Ht Hs Hg. assert (0 <= trace_write_idx (trace w) < 256) as Hi.
  { rewrite (tr_index _ _ Ht). pose proof (Nat.mod_upper_bound (length log) 256). lia. }
  destruct (slot_ok w log _ Ht Hi) as (e & _ & He & Hle). destruct (Hg _ Hle) as [Hl Hc].
  set (e' := TraceEvent (tick_count (dkern w)) type task_id arg (g (te_text e))).
  pose proof (advance_log (trace w) log e' Ht Hs Hl) as Ha. cbv zeta in Ha.
  replace (view e') with (TraceEvent (tick_count (dkern w)) type task_id arg s) in Ha by (unfold view, e'; cbn; by rewrite Hc).
  eexists. split; [|exact Ha]. unfold write_event. rewrite bind_enter, bind_gets.
  set (w1 := set_dkern _ w). change (trace_write_idx (trace w1)) with (trace_write_idx (trace w)).
  set (idx := trace_write_idx (trace w)) in *.
  change ((on_kernel task_get_tick_count ≫= ?k) w1) with (k (tick_count (dkern w)) w1). cbv beta.
  assert (slot idx w1 = Done (e, w1)) as Es by (unfold slot; cbn; by rewrite He).
  rewrite (bind_step _ _ _ _ _ Es). unfold put_slot. rewrite bind_assoc, (bind_step _ _ _ _ _ Es).
  unfold advance_index, upd_trace. rewrite bind_modify, !bind_assoc, bind_modify, bind_assoc, bind_gets.
  cbn [trace set_trace trace_event_total trace_buf trace_write_idx trace_overflow_count w1 set_dkern dkern cpu profs].
  destruct (TRACE_BUF_SIZE * 2 <? trace_event_total (trace w) +32 1); cbn [when].
  - rewrite bind_modify. cbn [trace set_trace trace_event_total trace_buf trace_write_idx trace_overflow_count set_dkern dkern cpu profs].
    exact (exit_ok w _ Hn).
  - rewrite bind_ret. exact (exit_ok w _ Hn).
Qed.

(** ** Reading the ring *)

(** The copying loop writes what the slots from [start] show. *)
Lemma dump_loop_ok ret fuel w start count max c dn rest :
  (forall i, 0 <= i < count -> exists r, trace_buf (trace w) !! Z.to_nat ((start +32 i) mod TRACE_BUF_SIZE) = Some r /\ ret !! Z.to_nat i = Some (view r)) ->
  count <= 256 -> count <= max -> Z.of_nat (length dn) = c -> 0 <= c <= count ->
  (Z.to_nat (count - c) < fuel)%nat -> count - c <= Z.of_nat (length rest) ->
  exists es, dump_loop fuel start count max c c (dn ++ rest) w = Done ((count, dn ++ es ++ drop (Z.to_nat (count - c)) rest), w) /\
    view <$> es = take (Z.to_nat (count - c)) (drop (Z.to_nat c) ret).
Proof.
  intros Hring Hc Hm. revert c dn rest. induction fuel as [|fuel IH]; intros c dn rest Hd Hc0 Hf Hr; [lia|]. cbn [dump_loop].
  destruct (Z.eq_dec c count) as [->|Hne].
  { rewrite Z.ltb_irrefl. cbn [andb]. exists []. rewrite Z.sub_diag. change (Z.to_nat 0) with O. by rewrite drop_0, take_0. }
  rewrite (proj2 (Z.ltb_lt c count)), (proj2 (Z.ltb_lt c max)) by lia. cbn [andb].
  destruct (Hring c ltac:(lia)) as (r & Hr1 & Hr2). rewrite (bind_step (slot _) _ w r w) by (unfold slot; by rewrite Hr1).
  destruct rest as [|x rest]; [cbn in Hr; lia|]. assert (Z.to_nat c = length dn) as Ec by lia.
  rewrite Ec, list_lookup_middle by done. cbn [of_option]. rewrite bind_ret, insert_app_r_alt, Nat.sub_diag by lia. cbn [insert list_insert].
  rewrite u32_small by lia. destruct (IH (c + 1) (dn ++ [r]) rest) as (es & E & Hes).
  { rewrite length_app. cbn. lia. }
  { lia. }
  { lia. }
  { cbn in Hr. lia. }
  rewrite <- app_assoc in E. cbn [app] in E. rewrite E. exists (r :: es).
  replace (Z.to_nat (count - c)) with (S (Z.to_nat (count - (c + 1)))) by lia. split; [by rewrite <- app_assoc|].
  rewrite <- Ec. cbn [fmap list_fmap]. rewrite (drop_S _ _ _ Hr2). cbn [take]. f_equal. rewrite Hes. do 2 f_equal. lia.
Qed.

(** What the ring retains. *)
Definition retained (log : list trace_event_t) : list trace_event_t := drop (length log - 256) log.

Lemma retained_slots t log start :
  traced t log -> start = (if trace_event_total t <=? TRACE_BUF_SIZE then 0 else trace_write_idx t) ->
  forall i, 0 <= i < Z.of_nat (length (retained log)) ->
    exists r, trace_buf t !! Z.to_nat ((start +32 i) mod TRACE_BUF_SIZE) = Some r /\ retained log !! Z.to_nat i = Some (view r).
Proof.
  intros Ht Hs i Hi. unfold retained in *. rewrite length_drop in Hi.
  destruct (lookup_lt_is_Some_2 log (length log - 256 + Z.to_nat i)) as [e He]; [lia|].
  destruct (tr_ring _ _ Ht _ _ He ltac:(lia)) as (r & Hr & Hv). exists r. rewrite lookup_drop, He, Hv. split; [|done].
  rewrite <- Hr. f_equal. apply Nat2Z.inj. rewrite Nat2Z.inj_mod. unfold TRACE_BUF_SIZE in *. rewrite (tr_total _ _ Ht), (tr_index _ _ Ht) in Hs.
  rewrite Z2Nat.id by (apply Z.mod_pos_bound; lia). change (Z.of_nat 256) with 256.
  destruct (Z.leb_spec (Z.of_nat (length log)) 256); subst start.
  - rewrite u32_small by lia. f_equal. lia.
  - rewrite Nat2Z.inj_mod. change (Z.of_nat 256) with 256. pose proof (Z.mod_pos_bound (Z.of_nat (length log)) 256 ltac:(lia)).
    rewrite u32_small by lia. rewrite Z.add_mod_idemp_l by lia.
    replace (Z.of_nat (length log - 256 + Z.to_nat i)) with (Z.of_nat (length log) + i + (-1) * 256) by lia. by rewrite Z.mod_add.
Qed.

Lemma dump_ok w log dst max :
  nested w -> traced (trace w) log -> 0 <= max ->
  let n := Z.min max (Z.of_nat (length (retained log))) in n <= Z.of_nat (length dst) ->
  exists es, trace_dump (Some dst) max w = Done ((n, Some (es ++ drop (Z.to_nat n) dst)), w) /\ view <$> es = take (Z.to_nat n) (retained log).
Proof.
  intros Hn Ht Hm n Hd. unfold trace_dump, trace_event_count. rewrite bind_enter, bind_gets. set (w1 := set_dkern _ w).
  change (trace w1) with (trace w). set (total := trace_event_total (trace w)).
  assert ((if max <? (if TRACE_BUF_SIZE <? total then TRACE_BUF_SIZE else total) then max else if TRACE_BUF_SIZE <? total then TRACE_BUF_SIZE else total) = n) as ->.
  { unfold n, retained, total. rewrite length_drop, (tr_total _ _ Ht). unfold TRACE_BUF_SIZE.
    destruct (Z.ltb_spec 256 (Z.of_nat (length log))); (case_match eqn:E; [apply Z.ltb_lt in E|apply Z.ltb_ge in E]); lia. }
  set (start := if total <=? TRACE_BUF_SIZE then 0 else trace_write_idx (trace w)).
  rewrite (bind_step _ _ w1 start w1) by (unfold start; by destruct (total <=? TRACE_BUF_SIZE)).
  assert (n <= 256) as Hn256 by (unfold n, retained; rewrite length_drop; lia).
  destruct (dump_loop_ok (retained log) (S (Z.to_nat TRACE_BUF_SIZE)) w1 start n max 0 [] dst) as (es & E & Hes).
  - intros i Hi. apply (retained_slots (trace w)); [done|done|lia].
  - lia.
  - lia.
  - done.
  - lia.
  - unfold TRACE_BUF_SIZE. lia.
  - lia.
  - cbn [app] in E. rewrite (bind_step _ _ _ _ _ E). rewrite Z.sub_0_r in *. exists es. split; [|exact Hes].
    rewrite (bind_step _ _ _ _ _ (exit_ok w (trace w) Hn)). by destruct w.
Qed.

(** ** Sequences of calls *)

(** The calls of the ring, and the passing of a tick between them. *)
Inductive trace_op := OpEvent (type task_id arg : Z) | OpText (type task_id arg : Z) (text : option (list Z)) | OpClear | OpTick.
Definition run_trace_op (o : trace_op) : DM unit :=
  match o with
  | OpEvent type id arg => trace_event type id arg
  | OpText type id arg text => trace_event_text type id arg text
  | OpClear => trace_clear
  | OpTick => on_kernel (modify (fun k => set_tick_count (tick_count k +32 1) k))
  end.
Fixpoint run_trace_ops (os : list trace_op) : DM unit :=
  match os with [] => mret tt | o :: os => run_trace_op o;; run_trace_ops os end.

(** The specification: the tick and the log of the events since the last clearing, oldest first. *)
Definition spec_trace_op (s : Z * list trace_event_t) (o : trace_op) : Z * list trace_event_t :=
  match o with
  | OpEvent type id arg => (s.1, s.2 ++ [TraceEvent s.1 type id arg []])
  | OpText type id arg text => (s.1, s.2 ++ [TraceEvent s.1 type id arg (take 31 (default [] text))])
  | OpClear => (s.1, [])
  | OpTick => (s.1 +32 1, s.2)
  end.
(** A C string has no zero byte before its end. *)
Definition op_text_ok (o : trace_op) : Prop :=
  match o with OpText _ _ _ (Some s) => Forall (fun x => x <> 0) s | _ => True end.

Lemma cleared_text (bs : list Z) : length bs = 32%nat -> length (<[O := 0]> bs) = 32%nat /\ c_string (<[O := 0]> bs) = [].
Proof. rewrite length_insert. intros H. split; [done|]. destruct bs; [done|]. done. Qed.

Lemma run_trace_op_ok o w log :
  nested w -> traced (trace w) log -> op_text_ok o -> Z.of_nat (length log) + 1 < 4294967296 ->
  let s := spec_trace_op (tick_count (dkern w), log) o in
  exists w', run_trace_op o w = Done (tt, w') /\ nested w' /\ tick_count (dkern w') = s.1 /\ traced (trace w') s.2.
Proof.
  intros Hn Ht Ho Hs. destruct o as [type id arg|type id arg text| |]; cbn [run_trace_op spec_trace_op fst snd].
  - destruct (write_ok (fun bs => <[O := 0]> bs) type id arg w log [] Hn Ht Hs cleared_text) as (t & E & H). by exists (set_trace t w).
  - assert (exists t, trace_event_text type id arg text w = Done (tt, set_trace t w) /\
      traced t (log ++ [TraceEvent (tick_count (dkern w)) type id arg (take 31 (default [] text))])) as (t & E & H); [|by exists (set_trace t w)].
    destruct text as [s|].
    + apply (write_ok (fun _ => cstr_copy TRACE_EVENT_MAX_TEXT s) type id arg w log); [done|done|done|].
      intros bs _. rewrite cstr_copy_length by (unfold TRACE_EVENT_MAX_TEXT; lia). split; [done|]. by apply c_string_copy.
    + by apply (write_ok (fun bs => <[O := 0]> bs) type id arg w log [] Hn Ht Hs cleared_text).
  - exists (set_trace cleared_trace w). split; [|split; [done|split; [done|apply traced_clear]]].
    unfold trace_clear. rewrite bind_enter. unfold upd_trace. rewrite bind_modify. exact (exit_ok w _ Hn).
  - eexists. split; [reflexivity|]. split; [done|]. split; [done|]. done.
Qed.

Lemma spec_length o s : (length (spec_trace_op s o).2 <= S (length s.2))%nat.
Proof. destruct o; cbn; rewrite ?length_app; cbn; lia. Qed.

Lemma run_trace_ops_ok os w log :
  nested w -> traced (trace w) log -> Forall op_text_ok os -> Z.of_nat (length log + length os) < 4294967296 ->
  let s := foldl spec_trace_op (tick_count (dkern w), log) os in
  exists w', run_trace_ops os w = Done (tt, w') /\ nested w' /\ tick_count (dkern w') = s.1 /\ traced (trace w') s.2.
Proof.
  revert w log. induction os as [|o os IH]; intros w log Hn Ht Ho Hs; cbn [run_trace_ops foldl].
  - by exists w.
  - apply Forall_cons in Ho as [Ho Hos]. cbn [length] in Hs.
    destruct (run_trace_op_ok o w log Hn Ht Ho ltac:(lia)) as (w1 & E1 & Hn1 & Et & Ht1). rewrite (bind_step _ _ _ _ _ E1).
    pose proof (spec_length o (tick_count (dkern w), log)) as Hl. cbn [snd] in Hl.
    destruct (IH w1 _ Hn1 Ht1 Hos ltac:(lia)) as (w2 & E2 & H2). exists w2. split; [exact E2|].
    rewrite Et in H2. by rewrite <- surjective_pairing in H2.
Qed.

(** ** Load and profiles *)

(** The ticks of a run: the kernel at each. *)
Fixpoint tick_hooks (ks : list kernel_t) : DM unit :=
  match ks with [] => mret tt | k :: ks => modify (set_dkern k);; cpu_stats_tick_hook;; tick_hooks ks end.
Definition current_known (k : kernel_t) : Prop := current_task k = NULL \/ is_Some (tcbs k !! current_task k).
(** A task is charged to idling when it has the idle priority. *)
Definition idles (k : kernel_t) : bool :=
  truthy (current_task k) && match tcbs k !! current_task k with Some t => t_priority t =? TASK_PRIORITY_IDLE | None => false end.
Definition idle_count (ks : list kernel_t) : Z := Z.of_nat (length (filter (fun k => idles k = true) ks)).

Lemma tick_hook_ok w k :
  current_known k ->
  cpu_stats_tick_hook (set_dkern k w) = Done (tt, set_cpu (CpuAcc (if idles k then cpu_idle_ticks_acc (cpu w) +32 1 else cpu_idle_ticks_acc (cpu w))
    (cpu_total_ticks_acc (cpu w) +32 1) (cpu_ctx_switch_count (cpu w)) (cpu_last_dump_tick (cpu w)) (cpu_stats (cpu w))) (set_dkern k w)).
Proof.
  intros Hk. unfold cpu_stats_tick_hook, upd_cpu. rewrite bind_modify. change ((on_kernel task_get_current ≫= ?f) ?s) with (f (current_task k) s). cbv beta.
  unfold idles. destruct Hk as [-> |[t Ht]]; [done|]. destruct (truthy (current_task k)); cbn [when andb]; [|done]. rewrite Ht.
  match goal with |- (_ ≫= _) ?s = _ => rewrite (bind_step (on_kernel (tcb (current_task k))) _ s t s)
    by (unfold on_kernel, zoom, tcb; cbn; by rewrite Ht) end.
  change TASK_PRIORITY_IDLE with 0. rewrite orb_diag. by destruct (t_priority t =? 0).
Qed.

Lemma tick_hooks_ok ks w n i :
  Forall current_known ks -> cpu_total_ticks_acc (cpu w) = n -> cpu_idle_ticks_acc (cpu w) = i -> 0 <= i <= n ->
  n + Z.of_nat (length ks) < 4294967296 ->
  exists w', tick_hooks ks w = Done (tt, w') /\ cpu_total_ticks_acc (cpu w') = n + Z.of_nat (length ks) /\
    cpu_idle_ticks_acc (cpu w') = i + idle_count ks /\ cpu_ctx_switch_count (cpu w') = cpu_ctx_switch_count (cpu w).
Proof.
  revert w n i. induction ks as [|k ks IH]; intros w n i Hk Hn Hi H0 Hb; cbn [tick_hooks].
  - exists w. split; [done|]. rewrite Hn, Hi. unfold idle_count. cbn. split; [lia|]. split; [lia|done].
  - apply Forall_cons in Hk as [Hk Hks]. cbn [length] in Hb. rewrite bind_modify, (bind_step _ _ _ _ _ (tick_hook_ok w k Hk)).
    match goal with |- context [tick_hooks ks ?s] => destruct (IH s (n + 1) (if idles k then i + 1 else i)) as (w' & E & E1 & E2 & E3) end.
    + done.
    + cbn. rewrite Hn, u32_small; lia.
    + cbn. rewrite Hi. destruct (idles k); [rewrite u32_small; lia|done].
    + destruct (idles k); lia.
    + lia.
    + exists w'. split; [exact E|]. split; [rewrite E1; cbn [length]; lia|]. split; [|by rewrite E3].
      rewrite E2. unfold idle_count. rewrite filter_cons. destruct (decide (idles k = true)) as [H|H]; [rewrite H; cbn [length]; lia|].
      by rewrite (not_true_is_false _ H).
Qed.

(** The ticks of a task between its activations: before the first, then from each to the next. *)
Inductive prof_op := ProfTick | ProfSwitchIn.
Definition spec_runs (rs : list Z) (o : prof_op) : list Z :=
  match o with ProfTick => match rs with r :: rs => (r + 1) :: rs | [] => [] end | ProfSwitchIn => 0 :: rs end.
Definition run_prof_op (p : Z) (o : prof_op) : DM unit := match o with ProfTick => task_profile_tick_hook p | ProfSwitchIn => task_profile_switch_in p end.
Fixpoint run_prof_ops (p : Z) (os : list prof_op) : DM unit := match os with [] => mret tt | o :: os => run_prof_op p o;; run_prof_ops p os end.
Definition sumZ (l : list Z) : Z := foldr Z.add 0 l.
Definition maxZ (l : list Z) : Z := foldr Z.max 0 l.

(** The profile shows the runs [rs], latest first. *)
Record profiled (x : task_profile_t) (rs : list Z) : Prop := {
  pf_total : total_runtime_ticks x = sumZ rs;
  pf_count : switch_in_count x = Z.of_nat (length rs) - 1;
  pf_max : max_continuous_ticks x = maxZ rs;
  pf_cur : exists rs', rs = cur_continuous_ticks x :: rs';
  pf_nonneg : Forall (Z.le 0) rs }.

Lemma sumZ_nonneg rs : Forall (Z.le 0) rs -> 0 <= sumZ rs.
Proof. unfold sumZ. induction 1; cbn; lia. Qed.
Lemma maxZ_nonneg rs : 0 <= maxZ rs.
Proof. unfold maxZ. induction rs; cbn; lia. Qed.
Lemma sumZ_cons r rs : sumZ (r :: rs) = r + sumZ rs.
Proof. done. Qed.
Lemma maxZ_cons r rs : maxZ (r :: rs) = Z.max r (maxZ rs).
Proof. done. Qed.

Lemma profile_tick_ok x rs : profiled x rs -> sumZ rs + 1 < 4294967296 -> profiled (profile_tick x) (spec_runs rs ProfTick).
Proof.
  intros [Ht Hc Hm [rs' ->] Hn] Hb. apply Forall_cons in Hn as [H0 Hn]. pose proof (sumZ_nonneg _ Hn). pose proof (maxZ_nonneg rs').
  rewrite sumZ_cons in *. rewrite maxZ_cons in *.
  constructor; cbn [profile_tick total_runtime_ticks switch_in_count max_continuous_ticks cur_continuous_ticks spec_runs];
    rewrite ?sumZ_cons, ?maxZ_cons, ?Ht, ?Hm, ?(u32_small (_ + 1)) by lia.
  - lia.
  - exact Hc.
  - destruct (Z.ltb_spec (Z.max (cur_continuous_ticks x) (maxZ rs')) (cur_continuous_ticks x + 1)); lia.
  - by eexists.
  - apply Forall_cons. split; [lia|done].
Qed.

Lemma profile_switch_ok now x rs : profiled x rs -> Z.of_nat (length rs) < 4294967296 -> profiled (profile_switch_in now x) (spec_runs rs ProfSwitchIn).
Proof.
  intros [Ht Hc Hm [rs' ->] Hn] Hb. cbn [length] in *.
  constructor; cbn [profile_switch_in total_runtime_ticks switch_in_count max_continuous_ticks cur_continuous_ticks spec_runs].
  - by rewrite sumZ_cons.
  - rewrite Hc, u32_small by lia. cbn [length]. lia.
  - rewrite Hm, (maxZ_cons 0). pose proof (maxZ_nonneg (cur_continuous_ticks x :: rs')). lia.
  - by eexists.
  - apply Forall_cons. split; [lia|done].
Qed.

Lemma run_prof_ops_ok p os w x rs :
  p <> NULL -> profs w !! p = Some x -> profiled x rs -> sumZ rs + Z.of_nat (length rs + length os) < 4294967296 ->
  exists w' x', run_prof_ops p os w = Done (tt, w') /\ profs w' !! p = Some x' /\ profiled x' (foldl spec_runs rs os).
Proof.
  intros Hp. revert w x rs. induction os as [|o os IH]; intros w x rs Hx Hr Hb; cbn [run_prof_ops foldl].
  - by exists w, x.
  - cbn [length] in Hb. pose proof (sumZ_nonneg _ (pf_nonneg _ _ Hr)) as H0.
    assert (exists w1 x1, run_prof_op p o w = Done (tt, w1) /\ profs w1 !! p = Some x1 /\ profiled x1 (spec_runs rs o)) as (w1 & x1 & E1 & Hx1 & Hr1).
    { destruct o; unfold run_prof_op, task_profile_tick_hook, task_profile_switch_in; rewrite (proj2 (Z.eqb_neq p NULL) Hp).
      - exists (set_profs (<[p := profile_tick x]> (profs w)) w), (profile_tick x). split; [|split; [apply lookup_insert_eq|apply profile_tick_ok; [done|lia]]].
        unfold upd_prof. by rewrite (bind_step (prof p) _ w x w) by (unfold prof; by rewrite Hx).
      - exists (set_profs (<[p := profile_switch_in (tick_count (dkern w)) x]> (profs w)) w), (profile_switch_in (tick_count (dkern w)) x).
        split; [|split; [apply lookup_insert_eq|apply profile_switch_ok; [done|lia]]].
        change ((on_kernel task_get_tick_count ≫= ?k) w) with (k (tick_count (dkern w)) (set_dkern (dkern w) w)). replace (set_dkern (dkern w) w) with w by (by destruct w).
        unfold upd_prof. by rewrite (bind_step (prof p) _ w x w) by (unfold prof; by rewrite Hx). }
    rewrite (bind_step _ _ _ _ _ E1). apply (IH w1 x1); [done|done|].
    destruct (pf_cur _ _ Hr) as [rs' ->]. rewrite sumZ_cons in *. destruct o; cbn [spec_runs]; rewrite ?sumZ_cons; cbn [length] in *; lia.
Qed.

(** ** Utilisation *)

Definition utilization (ts : list rma_task_t) : Q := foldr (fun t u => inject_Z (wcet_ticks t) / inject_Z (period_ticks t) + u)%Q 0%Q ts.
Definition floors (ts : list rma_task_t) : Z := sumZ ((fun t => 1000 * wcet_ticks t / period_ticks t) <$> ts).
(** Tasks whose products the code computes without wrapping. *)
Definition rma_task_ok (t : rma_task_t) : Prop := 0 < period_ticks t /\ 0 <= wcet_ticks t /\ 1000 * wcet_ticks t < 4294967296.

Lemma floors_cons t ts : floors (t :: ts) = 1000 * wcet_ticks t / period_ticks t + floors ts.
Proof. done. Qed.
Lemma floor_nonneg t : rma_task_ok t -> 0 <= 1000 * wcet_ticks t / period_ticks t.
Proof. intros (H1 & H2 & _). apply Z.div_pos; lia. Qed.
Lemma floors_nonneg ts : Forall rma_task_ok ts -> 0 <= floors ts.
Proof. induction 1 as [|t ts Ht _ IH]; [done|]. rewrite floors_cons. pose proof (floor_nonneg t Ht). lia. Qed.

Lemma rma_util_ok ts s : Forall rma_task_ok ts -> 0 <= s -> s + floors ts < 4294967296 -> rma_util ts s = Some (s + floors ts).
Proof.
  intros H. revert s. induction H as [|t ts Ht Hts IH]; intros s Hs Hb; cbn [rma_util].
  - f_equal. unfold floors. cbn. lia.
  - rewrite floors_cons in *. pose proof (floor_nonneg t Ht). pose proof (floors_nonneg ts Hts). destruct Ht as (H1 & H2 & H3).
    rewrite (proj2 (Z.eqb_neq _ 0)) by lia. rewrite (u32_small (1000 * _)), u32_small by lia. rewrite IH by lia. f_equal. lia.
Qed.

(** A quotient and its floor. *)
Lemma floor_bounds c t : 0 < t -> (inject_Z (1000 * c / t) <= 1000 * (inject_Z c / inject_Z t) /\ 1000 * (inject_Z c / inject_Z t) < inject_Z (1000 * c / t) + 1)%Q.
Proof.
  intros Ht. destruct t as [|p|p]; try lia. set (d := Z.pos p) in *.
  assert (1000 * (inject_Z c / inject_Z d) == (1000 * c) # p)%Q as ->.
  { unfold Qdiv. change (/ inject_Z d)%Q with (1 # p)%Q. unfold inject_Z, Qmult, Qeq. cbn. lia. }
  pose proof (Z.div_mod (1000 * c) d ltac:(lia)). pose proof (Z.mod_pos_bound (1000 * c) d ltac:(lia)).
  unfold inject_Z, Qle, Qlt, Qplus. cbn [Qnum Qden]. fold d. rewrite Pos.mul_1_l, !Z.mul_1_r. split; nia.
Qed.

Lemma utilization_bounds ts :
  Forall rma_task_ok ts ->
  (inject_Z (floors ts) <= 1000 * utilization ts /\ 1000 * utilization ts <= inject_Z (floors ts) + inject_Z (Z.of_nat (length ts)) /\
   (ts <> [] -> 1000 * utilization ts < inject_Z (floors ts) + inject_Z (Z.of_nat (length ts))))%Q.
Proof.
  induction 1 as [|t ts Ht Hts (IH1 & IH2 & _)].
  - split; [unfold Qle; cbn; lia|]. split; [unfold Qle; cbn; lia|done].
  - destruct (floor_bounds (wcet_ticks t) (period_ticks t)) as [H1 H2]; [apply Ht|].
    cbn [utilization foldr]. fold (utilization ts). rewrite floors_cons. cbn [length]. rewrite Nat2Z.inj_succ, <- Z.add_1_l, !inject_Z_plus.
    change (inject_Z 1) with 1%Q.
    set (a := inject_Z (1000 * wcet_ticks t / period_ticks t)) in *. set (u := (inject_Z (wcet_ticks t) / inject_Z (period_ticks t))%Q) in *.
    set (b := inject_Z (floors ts)) in *. set (v := utilization ts) in *. set (n := inject_Z (Z.of_nat (length ts))) in *.
    rewrite Qmult_plus_distr_r. split; [by apply Qplus_le_compat|].
    assert (1000 * u + 1000 * v < a + 1 + (b + n))%Q as Hlt by (by apply Qplus_lt_le_compat).
    assert (a + 1 + (b + n) == a + b + (1 + n))%Q as E by ring. rewrite E in Hlt. split; [by apply Qlt_le_weak|done].
Qed.

(** ** What the diagnostics show *)

(** C35: the trace is a log of which the last 256 events are kept: after initialisation and any sequence of fewer than 2^32 calls that record an event,
    record one with a text (a C string or null) or clear, and of ticks, in a kernel whose count of nested critical sections can be raised, the count is the number of events since the last clearing and a dump copies the
    retained events into the caller's array from the oldest on, with the tick, type, task and argument of each and at most 31 bytes
    of its text.  A dump into a shorter array copies the oldest of them, not the most recent as the source's comment has it. *)
Theorem trace_refines os w :
  nested w -> Forall op_text_ok os -> Z.of_nat (length os) < 4294967296 ->
  let log := (foldl spec_trace_op (tick_count (dkern w), []) os).2 in
  exists w', (trace_init;; run_trace_ops os) w = Done (tt, w') /\ trace_event_count w' = Done (Z.of_nat (length log), w') /\
    forall dst max, 0 <= max ->
      let n := Z.min max (Z.min 256 (Z.of_nat (length log))) in
      n <= Z.of_nat (length dst) ->
      exists es, trace_dump (Some dst) max w' = Done ((n, Some (es ++ drop (Z.to_nat n) dst)), w') /\
        view <$> es = take (Z.to_nat n) (drop (length log - 256) log).
Proof.
  intros Hn Ho Hs log. unfold trace_init, upd_trace. rewrite bind_modify.
  destruct (run_trace_ops_ok os (set_trace cleared_trace w) [] Hn traced_clear Ho Hs) as (w' & E & Hn' & _ & Ht).
  cbn [set_trace dkern] in Ht. fold log in Ht. exists w'. split; [exact E|].
  split; [unfold trace_event_count, gets; by rewrite (tr_total _ _ Ht)|]. intros dst max Hm Hd. set (n := Z.min max (Z.min 256 (Z.of_nat (length log)))) in *.
  destruct (dump_ok w' log dst max Hn' Ht Hm) as (es & Ed & Hes); unfold retained in *; rewrite length_drop in *.
  - lia.
  - exists es. replace n with (Z.min max (Z.of_nat (length log - (length log - 256)))) by lia. by split.
Qed.

(** The count of events wraps: the event that brings it to 2^32 makes the full ring read as empty. *)
Theorem trace_lost_at_wrap w type task_id arg dst max :
  nested w -> length (trace_buf (trace w)) = 256%nat -> 0 <= trace_write_idx (trace w) < 256 -> trace_event_total (trace w) = UINT32_MAX -> 0 <= max ->
  exists w', trace_event type task_id arg w = Done (tt, w') /\ trace_event_count w' = Done (0, w') /\
    trace_dump (Some dst) max w' = Done ((0, Some dst), w').
Proof.
  intros Hn Hl Hi Hw Hm. destruct (lookup_lt_is_Some_2 (trace_buf (trace w)) (Z.to_nat (trace_write_idx (trace w)))) as [e He]; [lia|].
  set (buf := <[Z.to_nat (trace_write_idx (trace w)) := TraceEvent (tick_count (dkern w)) type task_id arg (<[O := 0]> (te_text e))]> (trace_buf (trace w))).
  set (t := Trace buf ((trace_write_idx (trace w) +32 1) mod TRACE_BUF_SIZE) 0 (trace_overflow_count (trace w))). exists (set_trace t w).
  split; [|split; [done|]].
  - unfold trace_event. rewrite bind_enter, bind_gets. set (w1 := set_dkern _ w).
    change ((on_kernel task_get_tick_count ≫= ?k) w1) with (k (tick_count (dkern w)) w1). cbv beta.
    assert (slot (trace_write_idx (trace w)) w1 = Done (e, w1)) as Es by (unfold slot; cbn; by rewrite He).
    change (trace_write_idx (trace w1)) with (trace_write_idx (trace w)). rewrite (bind_step _ _ _ _ _ Es).
    unfold put_slot. rewrite bind_assoc, (bind_step _ _ _ _ _ Es).
    unfold advance_index, upd_trace. rewrite bind_modify, !bind_assoc, bind_modify, bind_assoc, bind_gets.
    cbn [trace set_trace trace_event_total trace_buf trace_write_idx trace_overflow_count w1 set_dkern dkern cpu profs].
    rewrite Hw. change (UINT32_MAX +32 1) with 0. cbn [Z.mul Z.ltb Z.compare TRACE_BUF_SIZE when]. exact (exit_ok w t Hn).
  - unfold trace_dump, trace_event_count. rewrite bind_enter, bind_gets.
    cbn [trace set_trace set_dkern trace_event_total t]. change (TRACE_BUF_SIZE <? 0) with false. change (0 <=? TRACE_BUF_SIZE) with true. cbv beta iota zeta.
    rewrite bind_ret. destruct (Z.ltb_spec max 0); [lia|]. cbn [Z.to_nat TRACE_BUF_SIZE dump_loop]. cbn [dump_loop Z.ltb Z.compare andb]. rewrite bind_ret.
    rewrite (bind_step _ _ _ _ _ (exit_ok w t Hn)). done.
Qed.

Lemma idle_count_bounds ks : 0 <= idle_count ks <= Z.of_nat (length ks).
Proof. unfold idle_count. pose proof (length_filter (fun k => idles k = true) ks). lia. Qed.

Lemma get_ok w : exists w', cpu_stats_get w = Done (let n := cpu_total_ticks_acc (cpu w) in let i := cpu_idle_ticks_acc (cpu w) in
    CpuStats i n (if (0 <? n) && (i <=? n) then (n -32 i) *32 100 / n else 0) 0 0 0 (cpu_ctx_switch_count (cpu w)), w') /\ cpu w' = cpu w.
Proof.
  exists (set_dkern (set_critical_nesting (critical_nesting (enter_k (dkern w)) -32 1) (enter_k (dkern w))) w).
  split; [|done]. unfold cpu_stats_get. rewrite bind_enter, !bind_gets. done.
Qed.

(** The load is the share of ticks not spent idle: after fewer than 42949673 ticks from initialisation the statistics give the number of ticks, the
    number that found a task of idle priority running, and the percentage of the others, rounded down and at most 100; one tick
    more of a busy processor and the percentage drops to zero, the product being computed modulo 2^32. *)
Theorem cpu_stats_correct :
  (forall ks w, Forall current_known ks -> Z.of_nat (length ks) < 42949673 -> exists w' s w2,
     (cpu_stats_init;; tick_hooks ks) w = Done (tt, w') /\ cpu_stats_get w' = Done (s, w2) /\ cpu w2 = cpu w' /\
     total_ticks s = Z.of_nat (length ks) /\ idle_ticks s = idle_count ks /\
     cpu_usage_percent s = (Z.of_nat (length ks) - idle_count ks) * 100 / Z.of_nat (length ks) /\ 0 <= cpu_usage_percent s <= 100) /\
  (forall w, cpu_total_ticks_acc (cpu w) = 42949673 -> cpu_idle_ticks_acc (cpu w) = 0 -> exists s w',
     cpu_stats_get w = Done (s, w') /\ cpu_usage_percent s = 0).
Proof.
  split.
  - intros ks w Hk Hb. unfold cpu_stats_init, upd_cpu.
    destruct (tick_hooks_ok ks (set_cpu (CpuAcc 0 0 0 (tick_count (dkern w)) (CpuStats 0 0 0 0 0 0 0)) w) 0 0 Hk eq_refl eq_refl) as (w' & E & Et & Ei & _);
      [lia|lia|]. destruct (get_ok w') as (w2 & Eg & Ec). exists w'. do 2 eexists. split; [destruct w; exact E|]. split; [exact Eg|]. split; [done|].
    rewrite Et, Ei, !Z.add_0_l. cbn [total_ticks idle_ticks cpu_usage_percent]. split; [done|]. split; [done|].
    pose proof (idle_count_bounds ks) as Hi. set (n := Z.of_nat (length ks)) in *. set (i := idle_count ks) in *.
    rewrite (u32_small (n - i)), (u32_small (_ * 100)), (proj2 (Z.leb_le i n)), andb_true_r by lia.
    destruct (Z.ltb_spec 0 n).
    + split; [done|]. split; [apply Z.div_pos; lia|]. apply Z.div_le_upper_bound; lia.
    + replace n with 0 by lia. rewrite Z.div_0_r. done.
  - intros w Ht Hi. destruct (get_ok w) as (w2 & Eg & _). do 2 eexists. split; [exact Eg|]. rewrite Ht, Hi. reflexivity.
Qed.

(** A profile shows the runs of its task: after initialisation and any sequence of ticks and activations the total is the sum of the runs, the
    activations their number, the maximum the longest and the average the total by the activations. *)
Theorem profile_correct p name os w x :
  p <> NULL -> profs w !! p = Some x -> Z.of_nat (length os) + 1 < 4294967296 ->
  let rs := foldl spec_runs [0] os in
  exists w' x', (task_profile_init p name;; run_prof_ops p os) w = Done (tt, w') /\ profs w' !! p = Some x' /\
    total_runtime_ticks x' = sumZ rs /\ switch_in_count x' = Z.of_nat (length rs) - 1 /\ max_continuous_ticks x' = maxZ rs /\
    task_profile_avg_runtime p w' = Done (if (length rs =? 1)%nat then 0 else sumZ rs / (Z.of_nat (length rs) - 1), w').
Proof.
  intros Hp Hx Hb rs. set (x0 := Profile 0 0 0 0 0 0 (match name with Some n => cstr_copy TASK_NAME_MAX_LEN n | None => replicate TASK_NAME_MAX_LEN 0 end)).
  assert (task_profile_init p name w = Done (tt, set_profs (<[p := x0]> (profs w)) w)) as E0.
  { unfold task_profile_init, upd_prof. rewrite (proj2 (Z.eqb_neq p NULL) Hp). by rewrite (bind_step (prof p) _ w x w) by (unfold prof; by rewrite Hx). }
  rewrite (bind_step _ _ _ _ _ E0).
  destruct (run_prof_ops_ok p os (set_profs (<[p := x0]> (profs w)) w) x0 [0]) as (w' & x' & E & Hx' & [Ht Hc Hm _ _]);
    [done|apply lookup_insert_eq|constructor; try done; [by eexists|by repeat constructor]|cbn; lia|].
  exists w', x'. split; [exact E|]. split; [done|]. split; [done|]. split; [done|]. split; [done|].
  unfold task_profile_avg_runtime. rewrite (proj2 (Z.eqb_neq p NULL) Hp), (bind_step (prof p) _ w' x' w') by (unfold prof; by rewrite Hx').
  rewrite Hc, Ht. fold rs. destruct (Nat.eqb_spec (length rs) 1) as [->|Hne]; [done|]. rewrite (proj2 (Z.eqb_neq _ 0)) by lia. done.
Qed.

(** The bounds of the test are those of Liu and Layland, but for one: the entry for n tasks, in thousandths, is the largest b with
    (1 + b / 1000 n)^n <= 2, except that the entry for nineteen tasks lies above it. *)
Theorem rma_table_correct :
  (forall n, 1 <= n <= 32 -> n <> 19 ->
     (1000 * n + rma_bound n) ^ n <= 2 * (1000 * n) ^ n /\ 2 * (1000 * n) ^ n < (1000 * n + rma_bound n + 1) ^ n) /\
  2 * (1000 * 19) ^ 19 < (1000 * 19 + rma_bound 19) ^ 19.
Proof.
  split; [|vm_compute; done]. intros n Hn Hne.
  assert (forallb (fun n => (n =? 19) || ((1000 * n + rma_bound n) ^ n <=? 2 * (1000 * n) ^ n) && (2 * (1000 * n) ^ n <? (1000 * n + rma_bound n + 1) ^ n)) (seqZ 1 32) = true) as H
    by (vm_compute; done).
  pose proof (forallb_seqZ _ _ _ H n ltac:(lia)) as Hn'. clear H. rename Hn' into H. cbv beta in H. rewrite (proj2 (Z.eqb_neq n 19) Hne) in H. cbn [orb] in H.
  apply andb_true_iff in H as [H1%Z.leb_le H2%Z.ltb_lt]. by split.
Qed.

(** The test is right up to rounding: for tasks whose products do not wrap the result compares with the bound a sum that is below the true utilisation
    by less than a thousandth a task; without tasks the answer is yes, with a period of zero it is no and nothing is stored. *)
Theorem rma_test_correct :
  (forall ts, ts <> [] -> Forall rma_task_ok ts -> floors ts < 4294967296 -> exists f,
     rma_schedulability_test (Some ts) = (b2z (f <=? rma_bound (Z.of_nat (length ts))), Some f) /\
     (inject_Z f <= 1000 * utilization ts)%Q /\ (1000 * utilization ts < inject_Z f + inject_Z (Z.of_nat (length ts)))%Q) /\
  rma_schedulability_test None = (1, Some 0) /\ rma_schedulability_test (Some []) = (1, Some 0) /\
  (forall ts t ts', Forall (fun t => period_ticks t <> 0) ts -> period_ticks t = 0 -> rma_schedulability_test (Some (ts ++ t :: ts')) = (0, None)).
Proof.
  split; [|split; [done|split; [done|]]].
  - intros ts Hne Hok Hb. exists (floors ts). destruct (utilization_bounds ts Hok) as (H1 & _ & H3). split; [|split; [exact H1|by apply H3]].
    unfold rma_schedulability_test. destruct ts; [done|]. rewrite rma_util_ok by (done || lia). done.
  - intros ts t ts' Hts Ht.
    assert (forall s, rma_util (ts ++ t :: ts') s = None) as Hn.
    { induction Hts as [|u ts Hu _ IH]; intros s; cbn [app rma_util]; [by rewrite Ht|]. rewrite (proj2 (Z.eqb_neq _ 0) Hu). apply IH. }
    unfold rma_schedulability_test. destruct (ts ++ t :: ts') eqn:E; [by destruct ts|]. by rewrite Hn.
Qed.

(** The test accepts overload: any number of tasks that each need one tick in 1001 is accepted with a utilisation of zero, and a single task
    that needs 4294968 ticks in each tick is accepted because the product by 1000 wraps. *)
Theorem rma_accepts_overload :
  (forall n, (0 < n)%nat -> rma_schedulability_test (Some (replicate n (RmaTask 1001 1))) = (1, Some 0) /\
     (utilization (replicate n (RmaTask 1001 1)) == inject_Z (Z.of_nat n) / 1001)%Q) /\
  rma_schedulability_test (Some [RmaTask 1 4294968]) = (1, Some 704).
Proof.
  split; [|done]. intros n Hn. split.
  - unfold rma_schedulability_test. assert (rma_util (replicate n (RmaTask 1001 1)) 0 = Some 0) as E by (clear Hn; by induction n).
    rewrite length_replicate. destruct n as [|n]; [lia|]. cbn [replicate] in *. rewrite E.
    assert (0 <= rma_bound (Z.of_nat (S n))) as Hb; [|by rewrite (proj2 (Z.leb_le _ _) Hb)].
    unfold rma_bound. case_match; [|lia].
    assert (Forall (Z.le 0) rma_bound_permil) as Hf by (by repeat constructor).
    destruct (nth_in_or_default (Z.to_nat (Z.of_nat (S n) - 1)) rma_bound_permil 0) as [Hin| ->]; [|lia].
    rewrite Forall_forall in Hf. apply Hf. by apply list_elem_of_In.
  - clear Hn. induction n as [|n IH]; [done|]. cbn [replicate utilization foldr]. fold (utilization (replicate n (RmaTask 1001 1))). rewrite IH.
    rewrite Nat2Z.inj_succ, <- Z.add_1_l, inject_Z_plus. cbn [wcet_ticks period_ticks]. change (inject_Z 1001) with 1001%Q. change (inject_Z 1) with 1%Q. field.
Qed.

(** ** Concrete runs *)

Definition demo_kernel : kernel_t := set_current_task 64 (set_tcbs {[ 64 := set_t_priority 5 zero_tcb ]} kernel0).
Definition demo_diag : diag := Diag demo_kernel cleared_trace (CpuAcc 0 0 0 0 (CpuStats 0 0 0 0 0 0 0)) {[ 800 := Profile 0 7 7 7 7 7 [] ]}.

(** Two events and a tick between them; of the two only the older fits. *)
Lemma trace_refines_witness :
  exists w' es, (trace_init;; run_trace_ops [OpText 17 3 9 (Some [104; 105]); OpTick; OpEvent 2 1 0]) demo_diag = Done (tt, w') /\
    trace_dump (Some [zero_event]) 1 w' = Done ((1, Some es), w') /\ view <$> es = [TraceEvent 0 17 3 9 [104; 105]].
Proof.
  destruct (trace_refines [OpText 17 3 9 (Some [104; 105]); OpTick; OpEvent 2 1 0] demo_diag) as (w' & E & _ & H).
  - vm_compute. split; [discriminate|reflexivity].
  - repeat constructor; discriminate.
  - reflexivity.
  - destruct (H [zero_event] 1 ltac:(lia) ltac:(vm_compute; discriminate)) as (es & Ed & Hes). exists w'. eexists.
    split; [exact E|]. split; [exact Ed|]. cbn in Hes |- *. rewrite app_nil_r. exact Hes.
Defined.

Lemma trace_lost_at_wrap_witness :
  exists w', trace_event 2 1 0 (set_trace (Trace (replicate 256 zero_event) 255 UINT32_MAX 0) demo_diag) = Done (tt, w') /\
    trace_event_count w' = Done (0, w') /\ trace_dump (Some []) 10 w' = Done ((0, Some []), w').
Proof.
  apply (trace_lost_at_wrap (set_trace (Trace (replicate 256 zero_event) 255 UINT32_MAX 0) demo_diag) 2 1 0 [] 10); try (cbn; lia).
  vm_compute. split; [discriminate|reflexivity].
Defined.

Lemma cpu_stats_correct_witness :
  exists w' s w2, (cpu_stats_init;; tick_hooks [demo_kernel; kernel0; demo_kernel]) demo_diag = Done (tt, w') /\ cpu_stats_get w' = Done (s, w2) /\
    total_ticks s = 3 /\ cpu_usage_percent s = 100.
Proof.
  destruct (proj1 cpu_stats_correct [demo_kernel; kernel0; demo_kernel] demo_diag) as (w' & s & w2 & E & Eg & _ & Et & Ei & Eu & _).
  - assert (current_known demo_kernel) by (right; vm_compute; eexists; reflexivity).
    assert (current_known kernel0) by (left; reflexivity). by repeat apply Forall_cons_2.
  - reflexivity.
  - exists w', s, w2. split; [exact E|]. split; [exact Eg|]. split; [exact Et|]. rewrite Eu. reflexivity.
Defined.

Lemma profile_correct_witness :
  exists w' x', (task_profile_init 800 None;; run_prof_ops 800 [ProfSwitchIn; ProfTick; ProfTick; ProfSwitchIn; ProfTick]) demo_diag = Done (tt, w') /\
    profs w' !! 800 = Some x' /\ total_runtime_ticks x' = 3 /\ max_continuous_ticks x' = 2 /\ task_profile_avg_runtime 800 w' = Done (1, w').
Proof.
  destruct (profile_correct 800 None [ProfSwitchIn; ProfTick; ProfTick; ProfSwitchIn; ProfTick] demo_diag (Profile 0 7 7 7 7 7 []))
    as (w' & x' & E & Hx & Ht & _ & Hm & Ha); [discriminate|reflexivity|reflexivity|].
  exists w', x'. split; [exact E|]. split; [exact Hx|]. split; [exact Ht|]. split; [exact Hm|exact Ha].
Defined.

Lemma rma_table_correct_witness : (1000 * 2 + rma_bound 2) ^ 2 <= 2 * (1000 * 2) ^ 2.
Proof. apply (proj1 rma_table_correct 2); [lia|discriminate]. Defined.

Lemma rma_test_correct_witness :
  exists f, rma_schedulability_test (Some [RmaTask 10 3; RmaTask 7 2]) = (b2z (f <=? rma_bound 2), Some f) /\
    (1000 * utilization [RmaTask 10 3; RmaTask 7 2] < inject_Z f + inject_Z 2)%Q.
Proof.
  destruct (proj1 rma_test_correct [RmaTask 10 3; RmaTask 7 2]) as (f & E & _ & H).
  - discriminate.
  - repeat constructor; cbn; lia.
  - reflexivity.
  - exists f. split; [exact E|exact H].
Defined.

Lemma rma_accepts_overload_witness : rma_schedulability_test (Some (replicate 2002 (RmaTask 1001 1))) = (1, Some 0).
Proof. apply (proj1 rma_accepts_overload 2002%nat). apply Nat.lt_0_succ. Defined.
