(* ===== verification/RwLock.v ===== *)
(** * Reader-writer locks (mini-rtos/src/rwlock.c)

    A lock is three words and two waiter lists.  The theorems: mutual exclusion as an invariant of every
    call, the calls that need not wait refine an abstract lock, and what the
    hand-over to the tasks that did wait does to the lock. *)
From S2P Require Import Prelude MemoryHeap Scheduler SchedulerSpec WaitList.

Record rwlock_t := RwLock {
  readers : Z; writer_active : Z; writer_waiting : Z; rw_blocked_readers : Z; rw_blocked_writers : Z; rw_name : list Z }.
Definition sizeof_rwlock : Z := 48.

Section setters.
Context (x : rwlock_t).
Definition set_readers n := RwLock n (writer_active x) (writer_waiting x) (rw_blocked_readers x) (rw_blocked_writers x) (rw_name x).
Definition set_active b := RwLock (readers x) b (writer_waiting x) (rw_blocked_readers x) (rw_blocked_writers x) (rw_name x).
Definition set_writer_waiting b := RwLock (readers x) (writer_active x) b (rw_blocked_readers x) (rw_blocked_writers x) (rw_name x).
Definition set_blocked_readers h := RwLock (readers x) (writer_active x) (writer_waiting x) h (rw_blocked_writers x) (rw_name x).
Definition set_blocked_writers h := RwLock (readers x) (writer_active x) (writer_waiting x) (rw_blocked_readers x) h (rw_name x).
End setters.

Notation RM := (M (sync rwlock_t unit)).

Definition rwlock_block_reader (rw task : Z) : RM unit :=
  x ← obj rw;
  h ← on_kern (block_task rw (rw_blocked_readers x) task);
  upd_obj rw (fun x => set_blocked_readers x h).

Definition rwlock_block_writer (rw task : Z) : RM unit :=
  x ← obj rw;
  h ← on_kern (block_task rw (rw_blocked_writers x) task);
  upd_obj rw (fun x => set_blocked_writers x h).

(** Popping clears the link of the popped task, so the walk visits a task at most twice: [drain_fuel] is enough. *)
Definition drain_fuel (k : kernel_t) : nat := S (S (size (tcbs k))).

(** [count]: the pop of [rwlock_unblock_all_readers], which counts the task as a reader; without it that of [rwlock_delete]. *)
Fixpoint drain_readers (count : bool) (fuel : nat) (rw : Z) : RM unit :=
  match fuel with
  | O => nofuel
  | S fuel =>
      x ← obj rw;
      if rw_blocked_readers x =? NULL then mret tt
      else
        h ← on_kern (unblock_task (rw_blocked_readers x));
        upd_obj rw (fun x => set_blocked_readers x h);;
        when count (upd_obj rw (fun x => set_readers x (readers x +32 1)));;
        drain_readers count fuel rw
  end.

Definition rwlock_unblock_all_readers (rw : Z) : RM unit :=
  fuel ← on_kern (gets drain_fuel);
  drain_readers true fuel rw.

Fixpoint drain_writers (fuel : nat) (rw : Z) : RM unit :=
  match fuel with
  | O => nofuel
  | S fuel =>
      x ← obj rw;
      if rw_blocked_writers x =? NULL then mret tt
      else
        h ← on_kern (unblock_task (rw_blocked_writers x));
        upd_obj rw (fun x => set_blocked_writers x h);;
        drain_writers fuel rw
  end.

Definition rwlock_unblock_one_writer (rw : Z) : RM unit :=
  x ← obj rw;
  when (truthy (rw_blocked_writers x)) (
    h ← on_kern (unblock_task (rw_blocked_writers x));
    upd_obj rw (fun x => set_blocked_writers x h);;
    upd_obj rw (fun x => set_active x 1);;
    x ← obj rw;
    when (rw_blocked_writers x =? NULL) (upd_obj rw (fun x => set_writer_waiting x 0))).

Definition rwlock_create (name : option (list Z)) : RM Z :=
  rw ← on_kern (on_heap (malloc_rtos sizeof_rwlock));
  if rw =? NULL then mret NULL
  else
    on_kern (on_heap (memset rw 0 sizeof_rwlock));;
    put_obj rw (RwLock 0 0 0 NULL NULL (object_name name));;
    mret rw.

Definition rwlock_delete (rw : Z) : RM unit :=
  if rw =? NULL then mret tt
  else
    on_kern task_enter_critical;;
    fuel ← on_kern (gets drain_fuel);
    drain_readers false fuel rw;;
    drain_writers fuel rw;;
    on_kern task_exit_critical;;
    on_kern (on_heap (free_rtos rw));;
    drop_obj rw.

(** The loop conditions of the two lock functions. *)
Definition readers_excluded (rw : Z) : RM bool := x ← obj rw; mret (truthy (writer_active x) || truthy (writer_waiting x)).
Definition writers_excluded (rw : Z) : RM bool := x ← obj rw; mret (truthy (writer_active x) || (0 <? readers x)).

Definition reader_leave (rw : Z) : RM unit :=
  self ← on_kern task_get_current;
  x ← obj rw;
  h ← on_kern (remove_waiter true self (rw_blocked_readers x));
  upd_obj rw (fun x => set_blocked_readers x h).

Definition clear_waiting (rw : Z) : RM unit :=
  x ← obj rw;
  when (rw_blocked_writers x =? NULL) (upd_obj rw (fun x => set_writer_waiting x 0)).

Definition writer_leave (rw : Z) : RM unit :=
  self ← on_kern task_get_current;
  x ← obj rw;
  h ← on_kern (remove_waiter true self (rw_blocked_writers x));
  upd_obj rw (fun x => set_blocked_writers x h);;
  clear_waiting rw.

Definition rwlock_read_lock (pend : RM unit) (fuel : nat) (rw timeout_ticks : Z) : RM Z :=
  if rw =? NULL then mret (-1)
  else
    start ← on_kern task_get_tick_count;
    on_kern task_enter_critical;;
    r ← wait_loop pend (readers_excluded rw) (self ← on_kern task_get_current; rwlock_block_reader rw self) (mret tt)
          (reader_leave rw) timeout_ticks start fuel;
    match r with
    | Some r => mret r
    | None =>
        upd_obj rw (fun x => set_readers x (readers x +32 1));;
        on_kern task_exit_critical;;
        mret 1
    end.

Definition rwlock_read_unlock (rw : Z) : RM Z :=
  if rw =? NULL then mret (-1)
  else
    x ← obj rw;
    if readers x =? 0 then mret (-1)
    else
      on_kern task_enter_critical;;
      upd_obj rw (fun x => set_readers x (readers x -32 1));;
      x ← obj rw;
      when ((readers x =? 0) && truthy (rw_blocked_writers x)) (rwlock_unblock_one_writer rw);;
      on_kern task_exit_critical;;
      mret 1.

Definition rwlock_write_lock (pend : RM unit) (fuel : nat) (rw timeout_ticks : Z) : RM Z :=
  if rw =? NULL then mret (-1)
  else
    start ← on_kern task_get_tick_count;
    on_kern task_enter_critical;;
    upd_obj rw (fun x => set_writer_waiting x 1);;
    r ← wait_loop pend (writers_excluded rw) (self ← on_kern task_get_current; rwlock_block_writer rw self) (clear_waiting rw)
          (writer_leave rw) timeout_ticks start fuel;
    match r with
    | Some r => mret r
    | None =>
        upd_obj rw (fun x => set_active x 1);;
        upd_obj rw (fun x => set_writer_waiting x 0);;
        on_kern task_exit_critical;;
        mret 1
    end.

Definition rwlock_write_unlock (rw : Z) : RM Z :=
  if rw =? NULL then mret (-1)
  else
    x ← obj rw;
    if negb (truthy (writer_active x)) then mret (-1)
    else
      on_kern task_enter_critical;;
      upd_obj rw (fun x => set_active x 0);;
      x ← obj rw;
      (if truthy (rw_blocked_writers x) then rwlock_unblock_one_writer rw
       else when (truthy (rw_blocked_readers x)) (rwlock_unblock_all_readers rw));;
      on_kern task_exit_critical;;
      mret 1.

Definition rwlock_get_reader_count (rw : Z) : RM Z := if rw =? NULL then mret 0 else x ← obj rw; mret (readers x).
Definition rwlock_is_write_locked (rw : Z) : RM Z := if rw =? NULL then mret 0 else x ← obj rw; mret (writer_active x).
Definition rwlock_read_trylock (pend : RM unit) (fuel : nat) (rw : Z) : RM Z := rwlock_read_lock pend fuel rw 0.
Definition rwlock_write_trylock (pend : RM unit) (fuel : nat) (rw : Z) : RM Z := rwlock_write_lock pend fuel rw 0.

(** ** Mutual exclusion *)

Definition exclusive (x : rwlock_t) : Prop := 0 <= readers x /\ (writer_active x = 0 \/ readers x = 0).
Definition all_exclusive (w : sync rwlock_t unit) : Prop := forall p x, objs w !! p = Some x -> exclusive x.

(** The locks are exclusive and the one at [rw] satisfies [Q]. *)
Definition exclusive_at (Q : rwlock_t -> Prop) (rw : Z) (w : sync rwlock_t unit) : Prop :=
  all_exclusive w /\ forall x, objs w !! rw = Some x -> Q x.

Lemma exclusive_at_kern Q rw w k : exclusive_at Q rw w -> exclusive_at Q rw (set_kern k w).
Proof. done. Qed.

Lemma keeps_exclusive_upd Q rw f :
  (forall x, exclusive x -> Q x -> exclusive (f x) /\ Q (f x)) -> keeps (exclusive_at Q rw) (upd_obj rw f).
Proof.
  intros Hf w [] w' [Hw HQ] E. unfold upd_obj in E. apply bind_Done in E as (x & w1 & E1 & E2). unfold obj in E1.
  destruct (objs w !! rw) as [y|] eqn:Hx; [|done]. injection E1 as <- <-. injection E2 as <-. destruct (Hf y (Hw _ _ Hx) (HQ y eq_refl)) as [H1 H2].
  split.
  - intros p z Hz. cbn in Hz. destruct (decide (p = rw)) as [->|Hne]; [|rewrite lookup_insert_ne in Hz by done; by eapply Hw].
    rewrite lookup_insert_eq in Hz. by injection Hz as <-.
  - intros z Hz. cbn in Hz. rewrite lookup_insert_eq in Hz. by injection Hz as <-.
Qed.

(** The fields of [exclusive] that an update leaves alone. *)
Ltac rw_upd :=
  let n := fresh in apply keeps_exclusive_upd; intros [n ?]; unfold exclusive; cbn in *; pose proof (u32_range (n + 1)); pose proof (u32_range (n - 1)); intuition lia.
#[export] Hint Resolve exclusive_at_kern : keeps.
#[export] Hint Extern 1 (keeps (exclusive_at _ _) (upd_obj _ _)) => rw_upd : keeps.

Lemma exclusive_at_true rw w : all_exclusive w <-> exclusive_at (fun _ => True) rw w.
Proof. unfold exclusive_at. naive_solver. Qed.

Section parts.
Context (rw : Z).
Notation idle := (exclusive_at (fun x => readers x = 0) rw).
Notation inactive := (exclusive_at (fun x => writer_active x = 0) rw).
Notation some := (exclusive_at (fun _ => True) rw).

Lemma keeps_unblock_writer : keeps idle (rwlock_unblock_one_writer rw).
Proof. unfold rwlock_unblock_one_writer. keeps_auto. Qed.

Lemma keeps_drain_readers fuel : keeps inactive (drain_readers true fuel rw).
Proof. induction fuel; cbn [drain_readers]; keeps_auto. Qed.
Lemma keeps_drain_readers_plain fuel : keeps some (drain_readers false fuel rw).
Proof. induction fuel; cbn [drain_readers]; keeps_auto. Qed.
Lemma keeps_drain_writers fuel : keeps some (drain_writers fuel rw).
Proof. induction fuel; cbn [drain_writers]; keeps_auto. Qed.
End parts.

Section exclusion.
Context (pend : RM unit) (Hpend : keeps all_exclusive pend).
Notation some rw := (exclusive_at (fun _ => True) rw).

Lemma keeps_some rw {A} (m : RM A) : keeps (some rw) m <-> keeps all_exclusive m.
Proof.
  split; intros H w a w' Hw E.
  - by apply (exclusive_at_true rw), (H _ _ _ (proj1 (exclusive_at_true rw w) Hw) E).
  - by apply exclusive_at_true, (H _ _ _ (proj2 (exclusive_at_true rw w) Hw) E).
Qed.

Lemma obj_at (w : sync rwlock_t unit) rw x w' : obj rw w = Done (x, w') -> w' = w /\ objs w !! rw = Some x.
Proof. unfold obj. destruct (objs w !! rw); [|done]. intros [= <- <-]. done. Qed.

Lemma upd_obj_at (w : sync rwlock_t unit) rw f w' :
  upd_obj rw f w = Done (tt, w') -> exists x, objs w !! rw = Some x /\ w' = set_objs (<[rw := f x]> (objs w)) w.
Proof. intros E. apply bind_Done in E as (x & w1 & [-> Hx]%obj_at & E). injection E as <-. by exists x. Qed.

Lemma keeps_reader_wait rw : keeps (some rw) (self ← on_kern task_get_current; rwlock_block_reader rw self).
Proof. unfold rwlock_block_reader. keeps_auto. Qed.
Lemma keeps_writer_wait rw : keeps (some rw) (self ← on_kern task_get_current; rwlock_block_writer rw self).
Proof. unfold rwlock_block_writer. keeps_auto. Qed.
Lemma keeps_reader_leave rw : keeps (some rw) (reader_leave rw).
Proof. unfold reader_leave. keeps_auto. Qed.
Lemma keeps_clear rw : keeps (some rw) (clear_waiting rw).
Proof. unfold clear_waiting. keeps_auto. Qed.
Lemma keeps_writer_leave rw : keeps (some rw) (writer_leave rw).
Proof. unfold writer_leave, clear_waiting. keeps_auto. Qed.

Lemma keeps_readers_excluded rw : keeps (some rw) (readers_excluded rw).
Proof. unfold readers_excluded. keeps_auto. Qed.
Lemma keeps_writers_excluded rw : keeps (some rw) (writers_excluded rw).
Proof. unfold writers_excluded. keeps_auto. Qed.

Lemma read_lock_exclusive fuel rw timeout w r w' :
  all_exclusive w -> rwlock_read_lock pend fuel rw timeout w = Done (r, w') ->
  all_exclusive w' /\ (r = 1 -> exists x, objs w' !! rw = Some x /\ writer_active x = 0 /\ writer_waiting x = 0).
Proof.
  intros Hw E. unfold rwlock_read_lock in E. destruct (rw =? NULL); [by injection E as <- <-|].
  apply bind_Done in E as (start & w1 & E1 & E). apply bind_Done in E as ([] & w2 & E2 & E). apply bind_Done in E as (o & w3 & E3 & E).
  assert (some rw w2) as H2.
  { apply exclusive_at_true. eapply keeps_on_kern; [intros ??; exact id| |exact E2]. eapply keeps_on_kern; [intros ??; exact id| |exact E1]. done. }
  destruct (keeps_wait_loop (some rw) (exclusive_at_kern _ _) _ _ _ _ _ _ _ _ _ _ _ (proj2 (keeps_some rw pend) Hpend) (keeps_reader_wait rw) (keeps_ret _ _)
    (keeps_reader_leave rw) (keeps_readers_excluded rw) H2 E3) as (H3 & Hexit & Hr).
  destruct o as [o|].
  { injection E as <- <-. split; [by apply (exclusive_at_true rw)|]. intros ->. by destruct Hr as [?|[?|?]]. }
  destruct (Hexit eq_refl) as (w4 & H4 & E4). unfold readers_excluded in E4. apply bind_Done in E4 as (x & w5 & [-> Hx]%obj_at & E4). injection E4 as Hb <-.
  apply orb_false_iff in Hb as [Ha Hwt]. unfold truthy in Ha, Hwt. apply negb_false_iff, Z.eqb_eq in Ha, Hwt.
  apply bind_Done in E as ([] & w5 & (y & Hy & ->)%upd_obj_at & E). rewrite Hx in Hy. injection Hy as <-. apply bind_Done in E as ([] & w6 & E6 & E). injection E as <- <-.
  unfold on_kern, zoom in E6. destruct (task_exit_critical _) as [[[] k]| |]; [|done..]. injection E6 as <-. split.
  - intros p z Hz. cbn in Hz. destruct (decide (p = rw)) as [->|Hne]; [|rewrite lookup_insert_ne in Hz by done; by eapply H4].
    rewrite lookup_insert_eq in Hz. injection Hz as <-. split; [apply u32_range|by left].
  - intros _. eexists. cbn. rewrite lookup_insert_eq. done.
Qed.

Lemma write_lock_exclusive fuel rw timeout w r w' :
  all_exclusive w -> rwlock_write_lock pend fuel rw timeout w = Done (r, w') ->
  all_exclusive w' /\ (r = 1 -> exists x, objs w' !! rw = Some x /\ writer_active x = 1 /\ readers x = 0).
Proof.
  intros Hw E. unfold rwlock_write_lock in E. destruct (rw =? NULL); [by injection E as <- <-|].
  apply bind_Done in E as (start & w1 & E1 & E). apply bind_Done in E as ([] & w2 & E2 & E). apply bind_Done in E as ([] & w2' & E2' & E).
  apply bind_Done in E as (o & w3 & E3 & E).
  assert (some rw w2') as H2.
  { assert (keeps (some rw) (upd_obj rw (fun x => set_writer_waiting x 1))) as Ku by eauto with keeps. eapply Ku; [|exact E2']. apply exclusive_at_true.
    eapply keeps_on_kern; [intros ??; exact id| |exact E2]. eapply keeps_on_kern; [intros ??; exact id| |exact E1]. done. }
  destruct (keeps_wait_loop (some rw) (exclusive_at_kern _ _) _ _ _ _ _ _ _ _ _ _ _ (proj2 (keeps_some rw pend) Hpend) (keeps_writer_wait rw) (keeps_clear rw)
    (keeps_writer_leave rw) (keeps_writers_excluded rw) H2 E3) as (H3 & Hexit & Hr).
  destruct o as [o|].
  { injection E as <- <-. split; [by apply (exclusive_at_true rw)|]. intros ->. by destruct Hr as [?|[?|?]]. }
  destruct (Hexit eq_refl) as (w4 & H4 & E4). unfold writers_excluded in E4. apply bind_Done in E4 as (x & w5 & [-> Hx]%obj_at & E4). injection E4 as Hb <-.
  apply orb_false_iff in Hb as [Ha Hrd]. unfold truthy in Ha. apply negb_false_iff, Z.eqb_eq in Ha. apply Z.ltb_ge in Hrd.
  apply bind_Done in E as ([] & w5 & (y & Hy & ->)%upd_obj_at & E). rewrite Hx in Hy. injection Hy as <-.
  apply bind_Done in E as ([] & w6 & (y & Hy & ->)%upd_obj_at & E). cbn in Hy. rewrite lookup_insert_eq in Hy. injection Hy as <-.
  apply bind_Done in E as ([] & w7 & E7 & E). injection E as <- <-.
  unfold on_kern, zoom in E7. destruct (task_exit_critical _) as [[[] k]| |]; [|done..]. injection E7 as <-.
  pose proof (proj1 H3 _ _ Hx) as [Hr0 _]. split.
  - intros p z Hz. cbn in Hz. rewrite insert_insert_eq in Hz. destruct (decide (p = rw)) as [->|Hne]; [|rewrite lookup_insert_ne in Hz by done; by eapply H3].
    rewrite lookup_insert_eq in Hz. injection Hz as <-. split; [done|right]. cbn. lia.
  - intros _. eexists. cbn. rewrite lookup_insert_eq. split; [done|]. cbn. lia.
Qed.

(** A kernel step leaves the locks alone. *)
Lemma on_kern_objs {A} (m : M kernel_t A) (w : sync rwlock_t unit) a w' : on_kern m w = Done (a, w') -> objs w' = objs w.
Proof. unfold on_kern, zoom. destruct (m (kern w)) as [[b k]| |]; [|done..]. by intros [= _ <-]. Qed.

Lemma exclusive_objs (w w' : sync rwlock_t unit) : objs w' = objs w -> all_exclusive w -> all_exclusive w'.
Proof. unfold all_exclusive. by intros ->. Qed.

Lemma read_unlock_exclusive rw w r w' : all_exclusive w -> rwlock_read_unlock rw w = Done (r, w') -> all_exclusive w'.
Proof.
  intros Hw E. unfold rwlock_read_unlock in E. destruct (rw =? NULL); [by injection E as <- <-|].
  apply bind_Done in E as (x & w1 & [-> Hx]%obj_at & E). destruct (Z.eqb_spec (readers x) 0); [by injection E as <- <-|].
  apply bind_Done in E as ([] & w2 & E2%on_kern_objs & E). apply (exclusive_at_true rw).
  apply bind_Done in E as ([] & w3 & E3 & E). apply bind_Done in E as (y & w4 & [-> Hy]%obj_at & E). apply bind_Done in E as ([] & w5 & E5 & E).
  apply bind_Done in E as ([] & w6 & E6%on_kern_objs & E). injection E as <- <-. apply exclusive_at_true, (exclusive_objs w5); [done|].
  assert (exclusive_at (fun x => writer_active x = 0) rw w3) as H3.
  { assert (keeps (exclusive_at (fun x => writer_active x = 0) rw) (upd_obj rw (fun x => set_readers x (readers x -32 1)))) as Ku by eauto with keeps.
    eapply Ku; [|exact E3]. split; [by apply (exclusive_objs w)|]. intros z. rewrite E2, Hx. intros [= <-]. by destruct (Hw _ _ Hx) as [_ [?|?]]. }
  destruct (Z.eqb_spec (readers y) 0) as [Hy0|]; cbn [andb when] in E5; [|injection E5 as <-; apply H3].
  assert (exclusive_at (fun x => readers x = 0) rw w3) as Hi.
  { split; [apply H3|]. intros z. rewrite Hy. by intros [= <-]. }
  destruct (truthy _); cbn [when] in E5; [|injection E5 as <-; apply H3]. by apply (keeps_unblock_writer rw _ _ _ Hi E5).
Qed.

Lemma write_unlock_exclusive rw w r w' : all_exclusive w -> rwlock_write_unlock rw w = Done (r, w') -> all_exclusive w'.
Proof.
  intros Hw E. unfold rwlock_write_unlock in E. destruct (rw =? NULL); [by injection E as <- <-|].
  apply bind_Done in E as (x & w1 & [-> Hx]%obj_at & E). destruct (truthy (writer_active x)) eqn:Ha; cbn [negb] in E; [|by injection E as <- <-].
  unfold truthy in Ha. apply negb_true_iff, Z.eqb_neq in Ha.
  apply bind_Done in E as ([] & w2 & E2%on_kern_objs & E). apply bind_Done in E as ([] & w3 & (y & Hy & ->)%upd_obj_at & E).
  rewrite E2, Hx in Hy. injection Hy as <-. set (w3 := set_objs _ w2) in *. destruct (Hw _ _ Hx) as [H0 [?|Hr]]; [done|].
  assert (exclusive_at (fun x => writer_active x = 0 /\ readers x = 0) rw w3) as [H3 H3x].
  { split.
    - intros p z Hz. cbn in Hz. rewrite E2 in Hz. destruct (decide (p = rw)) as [->|Hne]; [|rewrite lookup_insert_ne in Hz by done; by eapply Hw].
      rewrite lookup_insert_eq in Hz. injection Hz as <-. split; [done|by left].
    - intros z Hz. cbn in Hz. rewrite lookup_insert_eq in Hz. by injection Hz as <-. }
  apply bind_Done in E as (z & w4 & [-> Hz]%obj_at & E). apply bind_Done in E as ([] & w5 & E5 & E).
  apply bind_Done in E as ([] & w6 & E6%on_kern_objs & E). injection E as <- <-. apply (exclusive_objs w5); [done|].
  destruct (truthy (rw_blocked_writers z)).
  - assert (exclusive_at (fun x => readers x = 0) rw w3) as Hi by (split; [done|]; intros; by eapply H3x).
    by apply (keeps_unblock_writer rw _ _ _ Hi E5).
  - assert (exclusive_at (fun x => writer_active x = 0) rw w3) as Hi by (split; [done|]; intros; by eapply H3x).
    destruct (truthy (rw_blocked_readers z)); cbn [when] in E5; [|by injection E5 as <-].
    unfold rwlock_unblock_all_readers in E5. apply bind_Done in E5 as (fuel & w7 & E7 & E5).
    assert (exclusive_at (fun x => writer_active x = 0) rw w7) as H7.
    { unfold exclusive_at, all_exclusive. by rewrite (on_kern_objs _ _ _ _ E7). }
    by apply (keeps_drain_readers rw fuel _ _ _ H7 E5).
Qed.

Lemma create_exclusive name w r w' : all_exclusive w -> rwlock_create name w = Done (r, w') -> all_exclusive w'.
Proof.
  intros Hw E. unfold rwlock_create in E. apply bind_Done in E as (p & w1 & E1%on_kern_objs & E). destruct (p =? NULL).
  { injection E as <- <-. by apply (exclusive_objs w). }
  apply bind_Done in E as ([] & w2 & E2%on_kern_objs & E). injection E as <- <-. intros q x Hx. cbn in Hx. rewrite E2, E1 in Hx.
  destruct (decide (q = p)) as [->|Hne]; [|rewrite lookup_insert_ne in Hx by done; by eapply Hw].
  rewrite lookup_insert_eq in Hx. injection Hx as <-. split; [done|by left].
Qed.

Lemma delete_exclusive rw w w' : all_exclusive w -> rwlock_delete rw w = Done (tt, w') -> all_exclusive w'.
Proof.
  intros Hw E. unfold rwlock_delete in E. destruct (rw =? NULL); [by injection E as <-|].
  apply bind_Done in E as ([] & w1 & E1%on_kern_objs & E). apply bind_Done in E as (fuel & w2 & E2%on_kern_objs & E).
  apply bind_Done in E as ([] & w3 & E3 & E). apply bind_Done in E as ([] & w4 & E4 & E).
  apply bind_Done in E as ([] & w5 & E5%on_kern_objs & E). apply bind_Done in E as ([] & w6 & E6%on_kern_objs & E). injection E as <-.
  assert (some rw w2) as H2 by (apply exclusive_at_true, (exclusive_objs w); [by rewrite E2|done]).
  assert (all_exclusive w6) as H6.
  { apply (exclusive_objs w4); [by rewrite E6|]. apply (exclusive_at_true rw). eapply keeps_drain_writers; [|exact E4]. by eapply keeps_drain_readers_plain. }
  intros q x Hx. cbn in Hx. apply lookup_delete_Some in Hx as [_ Hx]. by eapply H6.
Qed.
End exclusion.

(** The calls of the tasks, one after the other; a call may sleep. *)
Inductive rwlock_call :=
| Create (name : option (list Z)) | Delete (rw : Z) | ReadLock (rw timeout : Z) | ReadUnlock (rw : Z) | WriteLock (rw timeout : Z) | WriteUnlock (rw : Z).

Definition rwlock_run (pend : RM unit) (fuel : nat) (c : rwlock_call) : RM Z :=
  match c with
  | Create name => rwlock_create name
  | Delete rw => rwlock_delete rw;; mret 0
  | ReadLock rw t => rwlock_read_lock pend fuel rw t
  | ReadUnlock rw => rwlock_read_unlock rw
  | WriteLock rw t => rwlock_write_lock pend fuel rw t
  | WriteUnlock rw => rwlock_write_unlock rw
  end.

Inductive rwlock_steps (pend : RM unit) (fuel : nat) : sync rwlock_t unit -> sync rwlock_t unit -> Prop :=
| steps_none w : rwlock_steps pend fuel w w
| steps_call w w1 w2 c r : rwlock_steps pend fuel w w1 -> rwlock_run pend fuel c w1 = Done (r, w2) -> rwlock_steps pend fuel w w2
| steps_kernel w w1 k : rwlock_steps pend fuel w w1 -> rwlock_steps pend fuel w (set_kern k w1).

Lemma run_exclusive pend fuel c w r w' :
  keeps all_exclusive pend -> all_exclusive w -> rwlock_run pend fuel c w = Done (r, w') -> all_exclusive w'.
Proof.
  intros Hp Hw E. destruct c; cbn [rwlock_run] in E.
  - by eapply create_exclusive.
  - apply bind_Done in E as ([] & w1 & E & E1). injection E1 as <- <-. by eapply delete_exclusive.
  - by eapply read_lock_exclusive.
  - by eapply read_unlock_exclusive.
  - by eapply write_lock_exclusive.
  - by eapply write_unlock_exclusive.
Qed.

(** C13: mutual exclusion.  Starting without locks, whatever calls are made, whatever the kernel and the interrupts
    do between them and whatever a sleeping call's environment does that keeps the invariant, no lock ever has
    a writer and a reader at once.  In such a state a write lock that is granted leaves the writer alone on the lock, and a
    read lock is granted only while no writer holds the lock or waits for it. *)
Theorem rwlock_exclusion (pend : RM unit) fuel k w :
  keeps all_exclusive pend -> rwlock_steps pend fuel (Sync k ∅ tt) w ->
  (forall p x, objs w !! p = Some x -> 0 <= readers x /\ (writer_active x = 0 \/ readers x = 0)) /\
  (forall rw t w', rwlock_write_lock pend fuel rw t w = Done (1, w') -> exists x, objs w' !! rw = Some x /\ writer_active x = 1 /\ readers x = 0) /\
  (forall rw t w', rwlock_read_lock pend fuel rw t w = Done (1, w') -> exists x, objs w' !! rw = Some x /\ writer_active x = 0 /\ writer_waiting x = 0).
Proof.
  intros Hp Hs. assert (all_exclusive w) as Hw.
  { remember (Sync k ∅ tt) as w0 eqn:E0. induction Hs as [w|w w1 w2 c r _ IH E|w w1 k1 _ IH]; subst w.
    - intros p x Hx. cbn in Hx. by rewrite lookup_empty in Hx.
    - eapply run_exclusive; [done|by apply IH|exact E].
    - by apply IH. }
  split; [exact Hw|]. split; intros rw t w' E.
  - by eapply write_lock_exclusive.
  - by eapply read_lock_exclusive.
Qed.

(** ** Refinement: calls that need not wait *)

(** The abstract lock: held by [n] readers (free at 0), or by a writer. *)
Inductive lock_state := Shared (n : Z) | Exclusive.

Inductive try_call := Read (timeout : Z) | Write (timeout : Z) | EndRead | EndWrite | CountReaders | IsWriteLocked.

Definition run_try (pend : RM unit) (fuel : nat) (rw : Z) (c : try_call) : RM Z :=
  match c with
  | Read t => rwlock_read_lock pend fuel rw t
  | Write t => rwlock_write_lock pend fuel rw t
  | EndRead => rwlock_read_unlock rw
  | EndWrite => rwlock_write_unlock rw
  | CountReaders => rwlock_get_reader_count rw
  | IsWriteLocked => rwlock_is_write_locked rw
  end.

Fixpoint run_tries (pend : RM unit) (fuel : nat) (rw : Z) (cs : list try_call) : RM (list Z) :=
  match cs with
  | [] => mret []
  | c :: cs => r ← run_try pend fuel rw c; rs ← run_tries pend fuel rw cs; mret (r :: rs)
  end.

Definition spec_try (c : try_call) (s : lock_state) : Z * lock_state :=
  match c, s with
  | Read _, Shared n => (1, Shared (n + 1))
  | Write _, Shared n => if n =? 0 then (1, Exclusive) else (0, s)
  | Read _, Exclusive | Write _, Exclusive => (0, s)
  | EndRead, Shared n => if n =? 0 then (-1, s) else (1, Shared (n - 1))
  | EndRead, Exclusive => (-1, s)
  | EndWrite, Shared _ => (-1, s)
  | EndWrite, Exclusive => (1, Shared 0)
  | CountReaders, Shared n => (n, s)
  | CountReaders, Exclusive => (0, s)
  | IsWriteLocked, Shared _ => (0, s)
  | IsWriteLocked, Exclusive => (1, s)
  end.

Fixpoint spec_tries (cs : list try_call) (s : lock_state) : list Z * lock_state :=
  match cs with
  | [] => ([], s)
  | c :: cs => let '(r, s) := spec_try c s in let '(rs, s) := spec_tries cs s in (r :: rs, s)
  end.

(** A call that would have to wait is made with timeout 0. *)
Definition lock_enabled (c : try_call) (s : lock_state) : Prop :=
  match c, s with
  | Read t, Exclusive | Write t, Exclusive => t = 0
  | Write t, Shared n => t = 0 \/ n = 0
  | _, _ => True
  end.

Fixpoint tries_enabled (cs : list try_call) (s : lock_state) : Prop :=
  match cs with
  | [] => True
  | c :: cs => lock_enabled c s /\ tries_enabled cs (snd (spec_try c s))
  end.

(** The lock at [rw] is in the abstract state, with nobody waiting. *)
Definition lock_word (s : lock_state) (name : list Z) : rwlock_t :=
  match s with Shared n => RwLock n 0 0 NULL NULL name | Exclusive => RwLock 0 1 0 NULL NULL name end.
Definition lock_range (s : lock_state) (room : Z) : Prop := match s with Shared n => 0 <= n < 4294967296 - room | Exclusive => room < 4294967296 end.

Section tries.
Context (pend : RM unit) (rw : Z) (Hrw : rw <> NULL) (fuel : nat).
Variables (w : sync rwlock_t unit) (x : rwlock_t).
Hypothesis Hx : objs w !! rw = Some x.
Hypothesis Hn : 0 <= critical_nesting (kern w) < UINT32_MAX.
Notation at_ y := (Sync (kern w) (<[rw := y]> (objs w)) (glob w)).
Notation in_ y := (Sync (raised (kern w)) (<[rw := y]> (objs w)) (glob w)).

Lemma in_same : Sync (raised (kern w)) (objs w) (glob w) = in_ x.
Proof. by rewrite insert_id. Qed.

Lemma upd_in {A} f (m : RM A) y : (upd_obj rw f ≫= fun _ => m) (in_ y) = m (in_ (f y)).
Proof. rewrite (bind_step _ _ _ _ _ (upd_obj_Done (in_ y) rw y f (lookup_insert_eq _ _ _))). unfold set_objs. cbn. by rewrite insert_insert_eq. Qed.

Lemma obj_in {A} (f : rwlock_t -> RM A) y : (obj rw ≫= f) (in_ y) = f y (in_ y).
Proof. exact (bind_step _ _ _ _ _ (obj_Done (in_ y) rw y (lookup_insert_eq _ _ _))). Qed.

Lemma leave_in y (r : Z) : (on_kern task_exit_critical;; mret r) (in_ y) = Done (r, at_ y).
Proof. by apply lower_raised. Qed.

Lemma enter_in {A} (m : RM A) : (on_kern task_enter_critical;; m) w = m (in_ x).
Proof. rewrite (bind_step _ _ _ _ _ (enter_Done w)), <- in_same. done. Qed.

Lemma tick_in {A} (f : Z -> RM A) : (start ← on_kern task_get_tick_count; f start) w = f (now w) w.
Proof using Type. by rewrite (bind_step _ _ w (now w) w) by (by apply on_kern_read). Qed.

(** A read lock that is granted, or refused at once. *)
Lemma read_lock_now timeout :
  let b := truthy (writer_active x) || truthy (writer_waiting x) in
  b = false \/ timeout = 0 ->
  rwlock_read_lock pend (S fuel) rw timeout w = Done (if b then (0, at_ x) else (1, at_ (set_readers x (readers x +32 1)))).
Proof.
  intros b Hb. unfold rwlock_read_lock. rewrite (proj2 (Z.eqb_neq rw NULL) Hrw), tick_in, enter_in.
  assert (readers_excluded rw (in_ x) = Done (b, in_ x)) as E by (unfold readers_excluded; by rewrite obj_in).
  destruct b.
  - destruct Hb as [?| ->]; [done|]. unfold mbind at 1, M_bind. rewrite wait_loop_zero by done. rewrite bind_ret.
    rewrite (bind_step _ _ _ tt (at_ x)); [done|]. pose proof (leave_in x 0) as L. apply bind_Done in L as ([] & v & E1 & E2). injection E2 as ->. exact E1.
  - unfold mbind at 1, M_bind. rewrite wait_loop_exit by done. rewrite upd_in. apply leave_in.
Qed.

(** A write lock that is granted, or refused at once. *)
Lemma write_lock_now timeout :
  let b := truthy (writer_active x) || (0 <? readers x) in
  b = false \/ timeout = 0 -> rw_blocked_writers x = NULL ->
  rwlock_write_lock pend (S fuel) rw timeout w = Done (if b then (0, at_ (set_writer_waiting x 0)) else (1, at_ (set_writer_waiting (set_active x 1) 0))).
Proof.
  intros b Hb Hbw. unfold rwlock_write_lock. rewrite (proj2 (Z.eqb_neq rw NULL) Hrw), tick_in, enter_in, upd_in. set (y := set_writer_waiting x 1).
  assert (writers_excluded rw (in_ y) = Done (b, in_ y)) as E by (unfold writers_excluded; by rewrite obj_in).
  destruct b.
  - destruct Hb as [?| ->]; [done|]. unfold mbind at 1, M_bind. rewrite wait_loop_zero by done. unfold clear_waiting. rewrite bind_assoc, obj_in.
    change (rw_blocked_writers y) with (rw_blocked_writers x). rewrite Hbw. cbn [Z.eqb NULL when]. rewrite upd_in.
    rewrite (bind_step _ _ _ tt (at_ (set_writer_waiting y 0))); [done|].
    pose proof (leave_in (set_writer_waiting y 0) 0) as L. apply bind_Done in L as ([] & v & E1 & E2). injection E2 as ->. exact E1.
  - unfold mbind at 1, M_bind. rewrite wait_loop_exit by done. rewrite !upd_in. apply leave_in.
Qed.
End tries.

Lemma try_refines pend fuel rw c s name (w : sync rwlock_t unit) :
  rw <> NULL -> objs w !! rw = Some (lock_word s name) -> 0 <= critical_nesting (kern w) < UINT32_MAX ->
  lock_enabled c s -> lock_range s 1 ->
  run_try pend (S fuel) rw c w =
    Done (fst (spec_try c s), Sync (kern w) (<[rw := lock_word (snd (spec_try c s)) name]> (objs w)) (glob w)).
Proof.
  intros Hrw Hx Hn He Hr. pose proof (proj2 (Z.eqb_neq rw NULL) Hrw) as Hne.
  assert (forall A (f : rwlock_t -> RM A), (obj rw ≫= f) w = f (lock_word s name) w) as Hobj by (intros; exact (bind_step _ _ _ _ _ (obj_Done w rw _ Hx))).
  assert (forall r : Z, (mret r : RM Z) w = Done (r, Sync (kern w) (<[rw := lock_word s name]> (objs w)) (glob w))) as Hk by (intros r; rewrite insert_id by done; by destruct w).
  destruct c as [t|t| | | |]; cbn [run_try].
  - rewrite (read_lock_now pend rw Hrw fuel w _ Hx Hn t); destruct s as [n|]; cbn in He |- *; try (by left); try (by right); [|done].
    by rewrite u32_small by (cbn in Hr; lia).
  - destruct s as [n|]; cbn [lock_enabled spec_try] in *.
    + rewrite (write_lock_now pend rw Hrw fuel w _ Hx Hn t); [|cbn; destruct (Z.ltb_spec 0 n); cbn in *; lia|done]. cbn in *.
      destruct (Z.ltb_spec 0 n), (Z.eqb_spec n 0); try lia; [done|]. by subst n.
    + rewrite (write_lock_now pend rw Hrw fuel w _ Hx Hn t); [done|by right|done].
  - unfold rwlock_read_unlock. rewrite Hne, Hobj. destruct s as [n|]; cbn [spec_try lock_word readers] in *; [|exact (Hk _)].
    destruct (Z.eqb_spec n 0); [exact (Hk _)|]. rewrite (enter_in rw w _ Hx), (upd_in rw w), (obj_in rw w). cbn -[u32].
    rewrite andb_false_r. cbn [when]. rewrite bind_ret, u32_small by (cbn in Hr; lia). by apply leave_in.
  - unfold rwlock_write_unlock. rewrite Hne, Hobj. destruct s as [n|]; cbn [spec_try lock_word writer_active] in *; [exact (Hk _)|]. cbn [truthy negb Z.eqb].
    rewrite (enter_in rw w _ Hx), (upd_in rw w), (obj_in rw w). cbn -[u32]. rewrite bind_ret. by apply leave_in.
  - unfold rwlock_get_reader_count. rewrite Hne, Hobj. destruct s; exact (Hk _).
  - unfold rwlock_is_write_locked. rewrite Hne, Hobj. destruct s; exact (Hk _).
Qed.

Lemma tries_refine (pend : RM unit) fuel rw name (cs : list try_call) s (w : sync rwlock_t unit) :
  rw <> NULL -> objs w !! rw = Some (lock_word s name) -> 0 <= critical_nesting (kern w) < UINT32_MAX ->
  tries_enabled cs s -> lock_range s (Z.of_nat (length cs)) ->
  run_tries pend (S fuel) rw cs w =
    Done (fst (spec_tries cs s), Sync (kern w) (<[rw := lock_word (snd (spec_tries cs s)) name]> (objs w)) (glob w)).
Proof.
  intros Hrw. revert s w. induction cs as [|c cs IH]; intros s w Hx Hn He Hr.
  - cbn. rewrite insert_id by done. by destruct w.
  - destruct He as [He Hes]. cbn [run_tries spec_tries].
    rewrite (bind_step _ _ _ _ _ (try_refines pend fuel rw c s name w Hrw Hx Hn He ltac:(destruct s; cbn in *; lia))).
    destruct (spec_try c s) as [r s1] eqn:Es. cbn [fst snd] in *.
    assert (lock_range s1 (Z.of_nat (length cs))) as Hr1.
    { destruct c, s; cbn in Es, Hr |- *; try (destruct (_ =? _) eqn:E); injection Es as <- <-; cbn; try lia; apply Z.eqb_neq in E; lia. }
    rewrite (bind_step _ _ _ _ _ (IH s1 (Sync (kern w) _ (glob w)) (lookup_insert_eq _ _ _) Hn Hes Hr1)). cbn [kern objs glob].
    rewrite insert_insert_eq. by destruct (spec_tries cs s1).
Qed.

(** C14: as long as no call has to wait, a lock refines the abstract reader-writer lock: any sequence of lock calls
    (with timeout 0 where the lock is not to be had), unlocks and queries returns what the abstract lock returns, and
    leaves the record in the abstract state reached, the kernel unchanged.  Read locks are granted to any number of readers (below 2^32), a write lock
    only on a free lock, an unlock of what is not held is refused with -1. *)
Theorem rwlock_refines (pend : RM unit) fuel rw name (cs : list try_call) s (w : sync rwlock_t unit) :
  rw <> NULL -> objs w !! rw = Some (lock_word s name) -> 0 <= critical_nesting (kern w) < UINT32_MAX ->
  tries_enabled cs s -> lock_range s (Z.of_nat (length cs)) ->
  run_tries pend (S fuel) rw cs w =
    Done (fst (spec_tries cs s), Sync (kern w) (<[rw := lock_word (snd (spec_tries cs s)) name]> (objs w)) (glob w)).
Proof. apply tries_refine. Qed.

(** ** Hand-over to the tasks that waited *)

Lemma unblock_writer_Done (w : sync rwlock_t unit) rw x t ts :
  objs w !! rw = Some x -> waiters (tcbs (kern w)) (rw_blocked_writers x) (t :: ts) ->
  exists h, rwlock_unblock_one_writer rw w =
    Done (tt, Sync (set_tcbs (alter woken_tcb t (tcbs (kern w))) (kern w))
      (<[rw := RwLock (readers x) 1 (match ts with [] => 0 | _ => writer_waiting x end) (rw_blocked_readers x) h (rw_name x)]> (objs w)) (glob w)) /\
    waiters (alter woken_tcb t (tcbs (kern w))) h ts.
Proof.
  intros Hx Hw. pose proof (waiters_nodup _ _ _ Hw) as [Hnt _]%NoDup_cons. destruct Hw as (E & Ht & c & Hc & Hr).
  exists (t_block_next c). split.
  - unfold rwlock_unblock_one_writer. rewrite (bind_step _ _ _ _ _ (obj_Done w rw x Hx)), E. unfold truthy. rewrite (proj2 (Z.eqb_neq t 0) Ht).
    cbn [negb when]. rewrite (bind_step _ _ _ _ _ (on_kern_Done _ w _ _ (unblock_task_Done (kern w) t c Ht Hc))).
    rewrite (bind_step _ _ _ _ _ (upd_obj_Done (set_kern _ w) rw x _ Hx)). set (w1 := set_objs _ _).
    assert (objs w1 !! rw = Some (set_blocked_writers x (t_block_next c))) as H1 by apply lookup_insert_eq.
    rewrite (bind_step _ _ _ _ _ (upd_obj_Done w1 rw _ _ H1)). set (w2 := set_objs _ w1).
    assert (objs w2 !! rw = Some (set_active (set_blocked_writers x (t_block_next c)) 1)) as H2 by apply lookup_insert_eq.
    rewrite (bind_step _ _ _ _ _ (obj_Done w2 rw _ H2)). cbn [rw_blocked_writers set_active set_blocked_writers].
    destruct ts as [|u ts].
    + cbn in Hr. rewrite Hr. cbn [Z.eqb NULL when]. rewrite (upd_obj_Done w2 rw _ _ H2). unfold w2, w1, set_objs, set_kern. cbn. by rewrite !insert_insert_eq, Hr.
    + destruct Hr as (Eu & Hu & _). rewrite Eu, (proj2 (Z.eqb_neq u NULL) Hu). unfold w2, w1, set_objs, set_kern. cbn. by rewrite !insert_insert_eq, Eu.
  - eapply waiters_frame; [|exact Hr]. intros z d Hz Hd. rewrite lookup_alter_ne by (by intros <-). eauto.
Qed.

Lemma drain_readers_Done count fuel (w : sync rwlock_t unit) rw x ts :
  objs w !! rw = Some x -> waiters (tcbs (kern w)) (rw_blocked_readers x) ts -> (length ts < fuel)%nat ->
  0 <= readers x -> readers x + Z.of_nat (length ts) < 4294967296 ->
  exists m, drain_readers count fuel rw w =
    Done (tt, Sync (set_tcbs m (kern w))
      (<[rw := RwLock (if count then readers x + Z.of_nat (length ts) else readers x) (writer_active x) (writer_waiting x) NULL (rw_blocked_writers x) (rw_name x)]> (objs w)) (glob w)) /\
    forall t, m !! t = if decide (t ∈ ts) then woken_tcb <$> tcbs (kern w) !! t else tcbs (kern w) !! t.
Proof.
  revert w x fuel. induction ts as [|t ts IH]; intros w x fuel Hx Hw Hf Hr0 Hr; (destruct fuel as [|fuel]; [cbn in Hf; lia|]); cbn [drain_readers].
  - cbn in Hw. rewrite (bind_step _ _ _ _ _ (obj_Done w rw x Hx)), Hw. exists (tcbs (kern w)). split; [|done]. cbn.
    rewrite insert_id; [by destruct w as [[] ? ?]|]. rewrite Hx. f_equal. destruct x; cbn in *. subst. f_equal. destruct count; lia.
  - pose proof (waiters_nodup _ _ _ Hw) as [Hnt _]%NoDup_cons. destruct Hw as (E & Ht & c & Hc & Hwr).
    rewrite (bind_step _ _ _ _ _ (obj_Done w rw x Hx)), E, (proj2 (Z.eqb_neq t NULL) Ht).
    rewrite (bind_step _ _ _ _ _ (on_kern_Done _ w _ _ (unblock_task_Done (kern w) t c Ht Hc))).
    rewrite (bind_step _ _ _ _ _ (upd_obj_Done (set_kern _ w) rw x _ Hx)). cbn [length] in *.
    set (y := if count then set_readers (set_blocked_readers x (t_block_next c)) (readers x + 1) else set_blocked_readers x (t_block_next c)).
    set (k := set_tcbs _ (kern w)). rewrite (bind_step _ _ _ tt (Sync k (<[rw := y]> (objs w)) (glob w))).
    2: { destruct count; cbn [when]; [|done]. set (w1 := set_objs _ _).
         rewrite (upd_obj_Done w1 rw (set_blocked_readers x (t_block_next c)) _ (lookup_insert_eq _ _ _)). cbn [readers set_blocked_readers].
         rewrite u32_small by lia. unfold w1, set_objs, set_kern. cbn. by rewrite insert_insert_eq. }
    destruct (IH (Sync k (<[rw := y]> (objs w)) (glob w)) y fuel) as (m & E2 & Hm).
    + apply lookup_insert_eq.
    + destruct count; cbn; (eapply waiters_frame; [|exact Hwr]; intros z d Hz Hd; rewrite lookup_alter_ne by (by intros <-); eauto).
    + lia.
    + destruct count; cbn; lia.
    + destruct count; cbn; lia.
    + exists m. split.
      * rewrite E2. cbn [kern objs glob]. rewrite insert_insert_eq. do 4 f_equal. destruct count; cbn; f_equal; lia.
      * intros z. rewrite Hm. cbn [kern k tcbs set_tcbs]. destruct (decide (z = t)) as [->|Hne].
        -- rewrite decide_False by done. rewrite decide_True by left. by rewrite lookup_alter_eq.
        -- rewrite lookup_alter_ne by done. destruct (decide (z ∈ ts)).
           ++ by rewrite decide_True by (by right).
           ++ rewrite decide_False; [done|]. rewrite elem_of_cons. tauto.
Qed.

(** A writer holds the lock, as far as the record says. *)
Definition write_held (rw : Z) (w : sync rwlock_t unit) : Prop := exists x, objs w !! rw = Some x /\ writer_active x <> 0.

Lemma write_held_kern rw w k : write_held rw w -> write_held rw (set_kern k w).
Proof. done. Qed.

Lemma keeps_write_held_upd rw f : (forall x, writer_active x <> 0 -> writer_active (f x) <> 0) -> keeps (write_held rw) (upd_obj rw f).
Proof.
  intros Hf w [] w' (x & Hx & Hh) E. rewrite (upd_obj_Done _ _ _ _ Hx) in E. injection E as <-.
  exists (f x). cbn. rewrite lookup_insert_eq. split; [done|]. by apply Hf.
Qed.
#[export] Hint Resolve write_held_kern : keeps.
#[export] Hint Extern 1 (keeps (write_held _) (upd_obj _ _)) => apply keeps_write_held_upd; intros []; cbn; (lia || done) : keeps.

Section handover.
Context (pend : RM unit) (rw : Z) (Hrw : rw <> NULL) (Hpend : keeps (write_held rw) pend).

Lemma held_excludes (w : sync rwlock_t unit) :
  write_held rw w -> readers_excluded rw w = Done (true, w) /\ writers_excluded rw w = Done (true, w).
Proof.
  intros (x & Hx & Ha). unfold readers_excluded, writers_excluded. rewrite !(bind_step _ _ _ _ _ (obj_Done w rw x Hx)).
  unfold truthy. by rewrite (proj2 (Z.eqb_neq _ 0) Ha).
Qed.

Lemma keeps_held_wait :
  keeps (write_held rw) (self ← on_kern task_get_current; rwlock_block_reader rw self) /\ keeps (write_held rw) (reader_leave rw) /\
  keeps (write_held rw) (self ← on_kern task_get_current; rwlock_block_writer rw self) /\ keeps (write_held rw) (writer_leave rw) /\
  keeps (write_held rw) (clear_waiting rw) /\ keeps (write_held rw) (upd_obj rw (fun x => set_writer_waiting x 1)).
Proof. unfold rwlock_block_reader, rwlock_block_writer, reader_leave, writer_leave, clear_waiting. split_and!; keeps_auto. Qed.

Lemma held_locks fuel timeout w r w' :
  write_held rw w -> (rwlock_write_lock pend fuel rw timeout w = Done (r, w') \/ rwlock_read_lock pend fuel rw timeout w = Done (r, w')) ->
  (r = 0 \/ r = -2) /\ write_held rw w'.
Proof.
  intros Hw E. destruct keeps_held_wait as (K1 & K2 & K3 & K4 & K5 & K6).
  assert (forall {A} (m : M kernel_t A), keeps (write_held rw) (on_kern m)) as Kk by (intros; apply keeps_on_kern; by intros).
  unfold rwlock_write_lock, rwlock_read_lock in E. rewrite (proj2 (Z.eqb_neq rw NULL) Hrw) in E. destruct E as [E|E].
  - apply bind_Done in E as (st & w1 & E1 & E). apply bind_Done in E as ([] & w2 & E2 & E). apply bind_Done in E as ([] & w3 & E3 & E).
    apply bind_Done in E as (o & w4 & E4 & E). assert (write_held rw w3) as H3 by (eapply K6; [eapply Kk; [eapply Kk; [exact Hw|exact E1]|exact E2]|exact E3]).
    destruct (wait_loop_blocked (write_held rw) (write_held_kern rw) _ _ _ _ _ _ _ _ _ _ _ Hpend K3 K5 K4 (fun w H => proj2 (held_excludes w H)) H3 E4) as [H4 [->| ->]];
      injection E as <- <-; auto.
  - apply bind_Done in E as (st & w1 & E1 & E). apply bind_Done in E as ([] & w2 & E2 & E).
    apply bind_Done in E as (o & w4 & E4 & E). assert (write_held rw w2) as H2 by (eapply Kk; [eapply Kk; [exact Hw|exact E1]|exact E2]).
    destruct (wait_loop_blocked (write_held rw) (write_held_kern rw) _ _ _ _ _ _ _ _ _ _ _ Hpend K1 (keeps_ret _ _) K2 (fun w H => proj1 (held_excludes w H)) H2 E4) as [H4 [->| ->]];
      injection E as <- <-; auto.
Qed.
End handover.

(** The record after the lock is handed to a waiting writer. *)
Definition handed (x : rwlock_t) (n : Z) (ts : list Z) (h : Z) : rwlock_t :=
  RwLock n 1 (match ts with [] => 0 | _ => writer_waiting x end) (rw_blocked_readers x) h (rw_name x).

(** A writer that had to wait never gets the lock.  When the last reader or a writer unlocks while writers wait,
    the newest of them is made READY and taken off the list, and the lock is marked as held by a writer; but the woken writer tests
    that mark again.  As long as the other tasks leave the mark set at every sleep, a lock call for reading or writing
    by any task returns only 0 or -2, and leaves it set. *)
Theorem rwlock_handoff_lost (pend : RM unit) rw :
  rw <> NULL -> keeps (write_held rw) pend ->
  (forall w x t ts, objs w !! rw = Some x -> 0 <= critical_nesting (kern w) < UINT32_MAX -> waiters (tcbs (kern w)) (rw_blocked_writers x) (t :: ts) ->
     let m := alter woken_tcb t (tcbs (kern w)) in exists h, waiters m h ts /\
       (readers x = 1 -> rwlock_read_unlock rw w = Done (1, Sync (set_tcbs m (kern w)) (<[rw := handed x 0 ts h]> (objs w)) (glob w))) /\
       (writer_active x <> 0 -> rwlock_write_unlock rw w = Done (1, Sync (set_tcbs m (kern w)) (<[rw := handed x (readers x) ts h]> (objs w)) (glob w)))) /\
  (forall w fuel timeout r w', write_held rw w ->
     (rwlock_write_lock pend fuel rw timeout w = Done (r, w') \/ rwlock_read_lock pend fuel rw timeout w = Done (r, w')) ->
     (r = 0 \/ r = -2) /\ write_held rw w').
Proof.
  intros Hrw Hpend. split; [|intros w fuel timeout r w'; by apply held_locks].
  intros w x t ts Hx Hn Hw m. pose proof (proj2 (Z.eqb_neq rw NULL) Hrw) as Hne.
  assert (truthy (rw_blocked_writers x) = true) as Hb by (unfold truthy; destruct Hw as (-> & Ht & _); by rewrite (proj2 (Z.eqb_neq t 0) Ht)).
  assert (forall y, rw_blocked_writers y = rw_blocked_writers x -> exists h, waiters m h ts /\
    rwlock_unblock_one_writer rw (Sync (raised (kern w)) (<[rw := y]> (objs w)) (glob w)) =
      Done (tt, Sync (raised (set_tcbs m (kern w))) (<[rw := handed y (readers y) ts h]> (objs w)) (glob w))) as Hu.
  { intros y Ey. destruct (unblock_writer_Done (Sync (raised (kern w)) (<[rw := y]> (objs w)) (glob w)) rw y t ts) as (h & E & Hh).
    - apply lookup_insert_eq.
    - by rewrite Ey.
    - exists h. split; [exact Hh|]. rewrite E. cbn [kern objs glob]. by rewrite insert_insert_eq. }
  destruct (Hu (set_active x 0) eq_refl) as (h & Hh & E1). destruct (Hu (set_readers x (readers x -32 1)) eq_refl) as (h' & Hh' & E2).
  assert (h' = h) as ->. { destruct ts; cbn in Hh, Hh'; [congruence|]. destruct Hh as [? _], Hh' as [? _]. congruence. }
  exists h. split; [exact Hh|]. split.
  - intros H1. unfold rwlock_read_unlock. rewrite Hne, (bind_step _ _ _ _ _ (obj_Done w rw x Hx)), H1. cbn [Z.eqb].
    rewrite (enter_in rw w x Hx), (upd_in rw w), (obj_in rw w). rewrite H1 in E2 |- *. change (1 -32 1) with 0 in *. cbn [readers set_readers Z.eqb andb].
    change (rw_blocked_writers (set_readers x 0)) with (rw_blocked_writers x). rewrite Hb. cbn [when]. rewrite (bind_step _ _ _ _ _ E2).
    exact (lower_raised (set_tcbs m (kern w)) _ (glob w) 1 Hn).
  - intros Ha. unfold rwlock_write_unlock. rewrite Hne, (bind_step _ _ _ _ _ (obj_Done w rw x Hx)). unfold truthy at 1. rewrite (proj2 (Z.eqb_neq _ 0) Ha). cbn [negb].
    rewrite (enter_in rw w x Hx), (upd_in rw w), (obj_in rw w). change (rw_blocked_writers (set_active x 0)) with (rw_blocked_writers x). rewrite Hb.
    rewrite (bind_step _ _ _ _ _ E1). exact (lower_raised (set_tcbs m (kern w)) _ (glob w) 1 Hn).
Qed.

(** The writer unlocks while the reader sleeps; then a tick passes and the reader runs again. *)
Definition unlock_pend (rw self : Z) : RM unit := _ ← rwlock_write_unlock rw; resume_pend self.

Lemma write_unlock_readers (w : sync rwlock_t unit) rw x ts :
  rw <> NULL -> objs w !! rw = Some x -> writer_active x <> 0 -> rw_blocked_writers x = NULL -> ts <> [] ->
  waiters (tcbs (kern w)) (rw_blocked_readers x) ts -> 0 <= critical_nesting (kern w) < UINT32_MAX ->
  0 <= readers x -> readers x + Z.of_nat (length ts) < 4294967296 ->
  exists m, rwlock_write_unlock rw w =
      Done (1, Sync (set_tcbs m (kern w)) (<[rw := RwLock (readers x + Z.of_nat (length ts)) 0 (writer_waiting x) NULL NULL (rw_name x)]> (objs w)) (glob w)) /\
    forall t, m !! t = if decide (t ∈ ts) then woken_tcb <$> tcbs (kern w) !! t else tcbs (kern w) !! t.
Proof.
  intros Hrw Hx Ha Hbw Hts Hw Hn Hr0 Hr.
  assert (truthy (rw_blocked_readers x) = true) as Hb.
  { unfold truthy. destruct ts as [|t ts]; [done|]. destruct Hw as (-> & Ht & _). by rewrite (proj2 (Z.eqb_neq t 0) Ht). }
  set (w1 := Sync (raised (kern w)) (<[rw := set_active x 0]> (objs w)) (glob w)).
  destruct (drain_readers_Done true (drain_fuel (raised (kern w))) w1 rw (set_active x 0) ts) as (m & E & Hm); try done.
  - apply lookup_insert_eq.
  - pose proof (waiters_length _ _ _ Hw). unfold drain_fuel. cbn. lia.
  - exists m. split; [|exact Hm]. unfold rwlock_write_unlock. rewrite (proj2 (Z.eqb_neq rw NULL) Hrw), (bind_step _ _ _ _ _ (obj_Done w rw x Hx)).
    unfold truthy at 1. rewrite (proj2 (Z.eqb_neq _ 0) Ha). cbn [negb]. rewrite (enter_in rw w x Hx), (upd_in rw w), (obj_in rw w). fold w1.
    cbn [rw_blocked_writers rw_blocked_readers set_active]. rewrite Hbw, Hb. cbn [truthy Z.eqb NULL negb when].
    rewrite (bind_step _ _ _ tt (Sync (raised (set_tcbs m (kern w))) (<[rw := RwLock (readers x + Z.of_nat (length ts)) 0 (writer_waiting x) NULL NULL (rw_name x)]> (objs w)) (glob w))).
    + exact (lower_raised (set_tcbs m (kern w)) _ (glob w) 1 Hn).
    + unfold rwlock_unblock_all_readers. rewrite (bind_step _ _ _ _ _ (on_kern_read (gets drain_fuel) w1 _ eq_refl)).
      change (kern w1) with (raised (kern w)). rewrite E. unfold w1. cbn [kern objs glob]. rewrite insert_insert_eq. cbn. by rewrite Hbw.
Qed.

(** Readers that had to wait are counted twice.  A write unlock with readers waiting counts every one of them as a holder
    and wakes it; but the woken reader then passes the loop's test and counts itself again.  A single
    reader that waits for a writer to unlock gets the lock with a count of 2: after its unlock the
    count is 1, every later write lock is refused, although nobody holds the lock, and only a further unlock by
    a task that holds nothing frees it. *)
Theorem woken_reader_counted_twice (w : sync rwlock_t unit) rw name self n timeout :
  rw <> NULL -> objs w !! rw = Some (lock_word Exclusive name) -> running_task self n (kern w) -> 0 <= n /\ n + 1 < UINT32_MAX ->
  0 <= now w < 4294967296 -> 1 < timeout < 4294967296 ->
  exists w' w2, rwlock_read_lock (unlock_pend rw self) 2 rw timeout w = Done (1, w') /\ objs w' !! rw = Some (lock_word (Shared 2) name) /\
    run_tries (mret tt) 1 rw [EndRead; Write 0; CountReaders; EndRead; Write 0] w' = Done ([1; 0; 1; 1; 1], w2).
Proof.
  intros Hrw Hx Hr Hn Htick Hto. destruct (running_some _ _ _ Hr) as [Hself Hsome]. pose proof Hr as (Hcur & Hnest & _).
  set (x := lock_word Exclusive name) in *. destruct (enter_running _ _ _ Hr ltac:(lia)) as [_ Hr1].
  (* the reader goes to sleep *)
  set (k1 := set_tcbs (alter (waiting_tcb rw NULL) self (tcbs (kern w))) (kern w)).
  assert (running_task self n k1) as Hk1 by (apply running_alter; [done|done|by intros d]).
  destruct (delay_running _ _ _ Hk1) as (k3 & E3 & Hr3 & Ht3 & _ & Hb3).
  set (y := set_blocked_readers x self). set (w3 := Sync k3 (<[rw := y]> (objs w)) (glob w)).
  assert (exists c, tcbs k3 !! self = Some c /\ t_block_next c = NULL) as (c & Hc & Hcn).
  { specialize (Hb3 self). unfold k1 in Hb3. cbn in Hb3. rewrite lookup_alter_eq in Hb3. destruct Hsome as [d Hd]. rewrite Hd in Hb3. cbn in Hb3.
    destruct (tcbs k3 !! self) as [c|]; [|done]. injection Hb3 as Hb3. eauto. }
  (* the writer unlocks *)
  destruct (write_unlock_readers w3 rw y [self]) as (m & E4 & Hm); try done.
  { apply lookup_insert_eq. } { split; [done|]. split; [done|]. by exists c. } { pose proof Hr3 as (_ & En3 & _). cbn. lia. }
  cbn [readers y x lock_word set_blocked_readers writer_waiting rw_name length kern objs glob w3] in E4. rewrite insert_insert_eq in E4. change (0 + Z.of_nat 1) with 1 in E4.
  set (z := RwLock 1 0 0 NULL NULL name) in *. set (k4 := set_tcbs m k3) in *.
  set (w5 := Sync (set_tick_count (tick_count k4 +32 1) (set_tcbs (alter (set_t_state TASK_RUNNING) self (tcbs k4)) k4)) (<[rw := z]> (objs w)) (glob w)).
  assert (critical_nesting (kern w5) = n) as Hn5 by (cbn; by destruct Hr3 as (_ & ? & _)).
  assert (now w5 = now w +32 1) as Hnow by (cbn; by rewrite Ht3).
  (* one round of the loop *)
  assert (timeout <> 0) as Ht0 by lia.
  exists (Sync (kern w5) (<[rw := lock_word (Shared 2) name]> (objs w)) (glob w)). eexists. split; [|split].
  - unfold rwlock_read_lock. rewrite (proj2 (Z.eqb_neq rw NULL) Hrw), (tick_in w), (enter_in rw w x Hx).
    set (w1 := Sync (raised (kern w)) (<[rw := x]> (objs w)) (glob w)).
    rewrite (bind_step _ _ _ None (Sync (raised (kern w5)) (<[rw := z]> (objs w)) (glob w))).
    + pose proof (upd_in rw (Sync (kern w5) (objs w) (glob w)) (fun x => set_readers x (readers x +32 1)) (on_kern task_exit_critical;; mret 1) z) as E. cbn [kern objs glob] in E. rewrite E.
      apply (leave_in rw (Sync (kern w5) (objs w) (glob w))). cbn [kern]. rewrite Hn5. lia.
    + assert (readers_excluded rw w1 = Done (true, w1)) as Eb by (unfold readers_excluded; exact (obj_in rw w _ x)).
      rewrite (wait_loop_round _ _ _ _ _ _ _ _ _ w5 Eb Ht0).
      * rewrite Hnow, elapsed_of by lia. rewrite (proj2 (Z.leb_gt timeout 1)) by lia. rewrite andb_false_r.
        rewrite (bind_step _ _ _ _ _ (enter_Done w5)). apply wait_loop_exit. unfold readers_excluded.
        exact (bind_step _ _ _ _ _ (obj_Done (Sync (raised (kern w5)) (<[rw := z]> (objs w)) (glob w)) rw z (lookup_insert_eq _ _ _))).
      * rewrite bind_assoc. rewrite (bind_step _ _ w1 self w1) by (rewrite <- Hcur; by apply on_kern_read).
        unfold rwlock_block_reader. rewrite bind_assoc, (bind_step _ _ _ _ _ (obj_Done w1 rw x (lookup_insert_eq _ _ _))), bind_assoc. cbn [rw_blocked_readers x lock_word].
        rewrite (bind_step _ _ _ _ _ (on_kern_Done _ w1 _ _ (block_task_Done (kern w1) rw NULL self Hsome))).
        rewrite (bind_step _ _ _ _ _ (upd_obj_Done (set_kern _ w1) rw x _ (lookup_insert_eq _ _ _))). unfold set_objs, set_kern. cbn [kern objs glob w1].
        rewrite insert_insert_eq. fold y.
        rewrite (bind_step _ _ _ tt (Sync k1 (<[rw := y]> (objs w)) (glob w))).
        { rewrite (bind_step _ _ _ _ _ (on_kern_Done (task_delay 1) (Sync k1 (<[rw := y]> (objs w)) (glob w)) _ _ E3)). unfold unlock_pend.
          change (set_kern k3 _) with w3. rewrite (bind_step _ _ _ _ _ E4). done. }
        assert (0 <= critical_nesting k1 < UINT32_MAX) as Hnk by (pose proof Hk1 as (_ & -> & _); lia).
        pose proof (lower_raised k1 (<[rw := y]> (objs w)) (glob w) 1 Hnk) as L. apply bind_Done in L as ([] & v & E1 & E2). injection E2 as ->. exact E1.
  - apply lookup_insert_eq.
  - rewrite (tries_refine (mret tt) 0 rw name _ (Shared 2) (Sync _ _ _)).
    + reflexivity.
    + done.
    + apply lookup_insert_eq.
    + cbn [kern]. rewrite Hn5. lia.
    + cbn. split_and!; try done; by left.
    + cbn. lia.
Qed.

(** ** Concrete locks *)

Lemma create_Done (w : sync rwlock_t unit) ab name :
  heap_inv (heap (kern w)) ab -> exists rw w', rwlock_create name w = Done (rw, w') /\
    (rw = NULL \/ rw <> NULL /\ objs w' !! rw = Some (lock_word (Shared 0) (object_name name))).
Proof.
  intros Hi. assert (0 <= sizeof_rwlock < 4294967256) as Hz by (unfold sizeof_rwlock; lia).
  destruct (malloc_owned (heap (kern w)) ab sizeof_rwlock Hi Hz) as (p & h1 & ab1 & E1 & Hi1 & _ & Hp). unfold rwlock_create.
  rewrite (bind_step _ _ _ _ _ (on_kern_Done _ w _ _ (on_heap_Done _ (kern w) _ _ E1))). set (w1 := set_kern _ w).
  destruct Hp as [-> |(Hp & Hop & _)]; [exists NULL, w1; split; [done|by left]|].
  rewrite (proj2 (Z.eqb_neq p NULL) Hp).
  destruct (memset_owned h1 ab1 p sizeof_rwlock 0 p sizeof_rwlock Hi1 Hop ltac:(lia) ltac:(lia)) as [E2 _].
  rewrite (bind_step _ _ _ _ _ (on_kern_Done _ w1 _ _ (on_heap_Done _ (kern w1) _ _ E2))).
  eexists p, _. split; [reflexivity|]. right. split; [exact Hp|]. apply lookup_insert_eq.
Qed.

(** A new lock. *)
Lemma demo_lock : exists rw w, rwlock_create None (Sync demo_rr ∅ tt) = Done (rw, w) /\ rw <> NULL /\ objs w !! rw = Some (lock_word (Shared 0) (object_name None)).
Proof.
  destruct (kw_heap _ _ (ki_wf _ _ demo_rr_inv)) as [ab Hi].
  assert (match rwlock_create None (Sync demo_rr ∅ tt) with Done (q, _) => negb (q =? NULL) | _ => false end = true) as Hnz by (vm_compute; reflexivity).
  destruct (create_Done (Sync demo_rr ∅ tt) ab None Hi) as (rw & w & E & H). rewrite E in Hnz. apply negb_true_iff, Z.eqb_neq in Hnz.
  exists rw, w. split; [exact E|]. destruct H as [?|H]; [contradiction|exact H].
Qed.

Lemma rwlock_exclusion_witness :
  exists w rw x, rwlock_steps (mret tt) 1 (Sync demo_rr ∅ tt) w /\ objs w !! rw = Some x /\ writer_active x = 1 /\ readers x = 0.
Proof.
  destruct demo_lock as (rw & w & E & Hrw & Hx).
  assert (rwlock_steps (mret tt) 1 (Sync demo_rr ∅ tt) (set_kern demo_rr w)) as Hs.
  { apply steps_kernel, (steps_call _ _ _ _ _ (Create None) rw (steps_none _ _ _)). exact E. }
  pose proof (write_lock_now (mret tt) rw Hrw 0 (set_kern demo_rr w) _ Hx ltac:(vm_compute; split; [discriminate|reflexivity]) 0 ltac:(left; reflexivity) eq_refl) as E2.
  destruct (rwlock_exclusion (mret tt) 1 demo_rr (set_kern demo_rr w)) as (_ & H & _); [intros s a s' Hk [= _ <-]; exact Hk|exact Hs|].
  destruct (H rw 0 _ E2) as (x & Hx2 & Ha & Hr). eexists _, rw, x. split; [|split; [exact Hx2|split; [exact Ha|exact Hr]]].
  apply (steps_call _ _ _ _ _ (WriteLock rw 0) 1 Hs). exact E2.
Defined.

Definition demo_tries : list try_call := [Read 0; Read 7; Write 0; CountReaders; EndRead; EndRead; EndRead; Write 3; Read 0; IsWriteLocked; EndWrite; EndWrite].

Lemma rwlock_refines_witness :
  exists w', run_tries (mret tt) 1 9600 demo_tries (Sync demo_rr {[ 9600 := lock_word (Shared 0) [] ]} tt) =
    Done ([1; 1; 0; 2; 1; 1; -1; 1; 0; 1; 1; -1], w').
Proof.
  pose proof (rwlock_refines (mret tt) 0 9600 [] demo_tries (Shared 0) (Sync demo_rr {[ 9600 := lock_word (Shared 0) [] ]} tt)) as H.
  eexists. rewrite H.
  - reflexivity.
  - discriminate.
  - reflexivity.
  - vm_compute. split; [discriminate|reflexivity].
  - cbn. split_and!; first [exact I | left; reflexivity | right; reflexivity | reflexivity].
  - cbn. lia.
Defined.

Lemma rwlock_handoff_lost_witness :
  exists w', rwlock_write_unlock 9600 (Sync (set_tcbs {[ 16 := zero_tcb ]} kernel0) {[ 9600 := RwLock 0 1 1 NULL 16 [] ]} tt) = Done (1, w') /\
    forall r w2, rwlock_write_lock (mret tt) 9 9600 3 w' = Done (r, w2) -> r = 0 \/ r = -2.
Proof.
  destruct (rwlock_handoff_lost (mret tt) 9600) as [H1 H2]; [discriminate|intros s a s' Hk [= _ <-]; exact Hk|].
  destruct (H1 (Sync (set_tcbs {[ 16 := zero_tcb ]} kernel0) {[ 9600 := RwLock 0 1 1 NULL 16 [] ]} tt) (RwLock 0 1 1 NULL 16 []) 16 []) as (h & _ & _ & Hu).
  - reflexivity.
  - vm_compute. split; [discriminate|reflexivity].
  - split; [reflexivity|]. split; [discriminate|]. exists zero_tcb. split; reflexivity.
  - eexists. split; [apply Hu; discriminate|]. intros r w2 E. refine (proj1 (H2 _ 9%nat 3 r w2 _ (or_introl E))).
    eexists. split; [apply lookup_insert_eq|discriminate].
Defined.

Lemma woken_reader_counted_twice_witness :
  exists w' w2, rwlock_read_lock (unlock_pend 9600 4752) 2 9600 5 (Sync demo_rr {[ 9600 := lock_word Exclusive [] ]} tt) = Done (1, w') /\
    run_tries (mret tt) 1 9600 [EndRead; Write 0; CountReaders; EndRead; Write 0] w' = Done ([1; 0; 1; 1; 1], w2).
Proof.
  destruct (woken_reader_counted_twice (Sync demo_rr {[ 9600 := lock_word Exclusive [] ]} tt) 9600 [] 4752 0 5) as (w' & w2 & E & _ & E2).
  - discriminate.
  - reflexivity.
  - exact demo_running.
  - unfold UINT32_MAX. lia.
  - vm_compute. split; [discriminate|reflexivity].
  - lia.
  - exists w', w2. split; [exact E|exact E2].
Defined.
