(* ===== verification/DeltaUpdate.v ===== *)
(** * Delta updates (mini-ota-update/src/delta_update.c)

    Patch creation (suffix array, greedy matching, a stream of COPY and ADD
    instructions), patch application over the caller's I/O functions, and the run-length codec.  The heap of
    [malloc] and [free] is modelled as the set of live blocks, so that a second [free] of a block is
    undefined; block contents are values of the model.  The random outcome of [malloc] is the list of its answers still
    to come. *)
From S2P Require Import Prelude.

Inductive delta_result_t :=
| DELTA_RESULT_OK | DELTA_RESULT_ERR_PARAM | DELTA_RESULT_ERR_NOMEM | DELTA_RESULT_ERR_IO | DELTA_RESULT_ERR_HASH
| DELTA_RESULT_ERR_SIGNATURE | DELTA_RESULT_ERR_PATCH_CORRUPT | DELTA_RESULT_ERR_PATCH_APPLY | DELTA_RESULT_ERR_OLD_MISMATCH
| DELTA_RESULT_ERR_NEW_MISMATCH | DELTA_RESULT_ERR_COMPRESS | DELTA_RESULT_ERR_DECOMPRESS | DELTA_RESULT_ERR_PARTIAL.
#[export] Instance delta_result_eq_dec : EqDecision delta_result_t.
Proof. solve_decision. Defined.

Definition DELTA_OP_ADD : Z := 0.
Definition DELTA_OP_COPY : Z := 1.
Definition DELTA_OP_SEEK : Z := 2.
Definition NULL : Z := 0.

Record delta_patch_header_t := PatchHeader {
  d_magic : Z; d_version : Z; d_header_size : Z; old_file_size : Z; new_file_size : Z; patch_data_size : Z; compressed_size : Z;
  chunk_count : Z; old_file_hash : list Z; new_file_hash : list Z; patch_hash : list Z; d_signature : list Z; d_flags : Z;
  d_reserved : list Z }.

Definition delta_header_layout : list nat := [4; 2; 2; 4; 4; 4; 4; 4; 32; 32; 32; 72; 4; 32]%nat.
Definition sizeof_patch_header : nat := 232.

Definition encode_patch_header (h : delta_patch_header_t) : list Z :=
  concat [le_bytes 4 (d_magic h); le_bytes 2 (d_version h); le_bytes 2 (d_header_size h); le_bytes 4 (old_file_size h);
    le_bytes 4 (new_file_size h); le_bytes 4 (patch_data_size h); le_bytes 4 (compressed_size h); le_bytes 4 (chunk_count h);
    old_file_hash h; new_file_hash h; patch_hash h; d_signature h; le_bytes 4 (d_flags h); d_reserved h].
Definition decode_patch_header (bs : list Z) : delta_patch_header_t :=
  let f i := split_fields delta_header_layout bs !!! i in
  let v i := le_val (f i) in
  PatchHeader (v 0%nat) (v 1%nat) (v 2%nat) (v 3%nat) (v 4%nat) (v 5%nat) (v 6%nat) (v 7%nat) (f 8%nat) (f 9%nat) (f 10%nat) (f 11%nat) (v 12%nat) (f 13%nat).

(** ** The C heap *)

(** Live blocks, the next address, and the answers of [malloc] to come ([true]: a block; granted when the list is used up). *)
Record libc := Libc { live : gset Z; next_block : Z; answers : list bool }.

Definition malloc (size : Z) : M libc Z := fun m =>
  match answers m with
  | false :: l => Done (NULL, Libc (live m) (next_block m) l)
  | l => Done (next_block m, Libc ({[ next_block m ]} ∪ live m) (next_block m + 1) (tail l))
  end.
Definition free (p : Z) : M libc unit := fun m =>
  if p =? NULL then Done (tt, m)
  else if decide (p ∈ live m) then Done (tt, Libc (live m ∖ {[ p ]}) (next_block m) (answers m)) else UB.
(** An access through [p]. *)
Definition touch (p : Z) : M libc unit := fun m => if decide (p ∈ live m) then Done (tt, m) else UB.

(** ** Suffix array *)

(** [sa_tmp] is [None] while the field is not initialised. *)
Record delta_suffix_array_t := SuffixArray { sa_ptr : Z; sa : list Z; rank_ptr : Z; rank : list Z; sa_tmp : option Z; sa_length : Z }.

Definition s32 (x : Z) : Z := u32 (x + 2147483648) - 2147483648.
(** Signed 32-bit arithmetic: an overflow is undefined. *)
Definition sint (x : Z) : M libc Z := if (-2147483648 <=? x) && (x <? 2147483648) then mret x else undefined.
(** [l[i]] of an array of the given elements. *)
Definition at_index {S A} (l : list A) (i : Z) : M S A := if i <? 0 then undefined else of_option (l !! Z.to_nat i).

Definition delta_sa_compare (data : list Z) (n a b cur : Z) : M libc Z :=
  x ← at_index data a; y ← at_index data b;
  if negb (x =? y) then mret (x - y)
  else if n <=? a + 1 then mret (-1)
  else if n <=? b + 1 then mret 1
  else x ← at_index data (a + 1); y ← at_index data (b + 1); mret (x - y).

(** The loop over [j]: [cnt] iterations from [j]; the array [sa] is passed along. *)
Fixpoint sort_inner (cnt : nat) (n k i j : Z) (rank sa : list Z) : M libc (list Z) :=
  match cnt with
  | O => mret sa
  | S cnt =>
      ik ← sint (i + k); jk ← sint (j + k);
      ra ← (if ik <? n then at_index rank ik else mret (-1));
      rb ← (if jk <? n then at_index rank jk else mret (-1));
      si ← at_index sa i; sj ← at_index sa j;
      ri ← at_index rank si; rj ← at_index rank sj;
      sort_inner cnt n k i (j + 1) rank
        (if (rj <? ri) || ((ri =? rj) && (rb <? ra)) then <[Z.to_nat j := si]> (<[Z.to_nat i := sj]> sa) else sa)
  end.

Fixpoint sort_outer (cnt : nat) (n k i : Z) (rank sa : list Z) : M libc (list Z) :=
  match cnt with
  | O => mret sa
  | S cnt => sa ← sort_inner (Z.to_nat (n - (i + 1))) n k i (i + 1) rank sa; sort_outer cnt n k (i + 1) rank sa
  end.

(** The loop that numbers the suffixes; [tmp] is the array tmp_rank. *)
Fixpoint rank_loop (cnt : nat) (data : list Z) (n k i : Z) (sa tmp : list Z) : M libc (list Z) :=
  match cnt with
  | O => mret tmp
  | S cnt =>
      p ← at_index sa (i - 1); q ← at_index sa i;
      r ← at_index tmp p;
      c ← delta_sa_compare data n p q k;
      if Z.of_nat (length tmp) <=? q then undefined
      else rank_loop cnt data n k (i + 1) sa (<[Z.to_nat q := if negb (c =? 0) then r + 1 else r]> tmp)
  end.

(** The loop over [k]: 1, 2, 4, .. below [n]. *)
Fixpoint sort_rounds (fuel : nat) (data : list Z) (n k : Z) (sa rank : list Z) : M libc (list Z * list Z) :=
  match fuel with
  | O => nofuel
  | S fuel =>
      if n <=? k then mret (sa, rank)
      else
        sa ← sort_outer (Z.to_nat (n - 1)) n k 0 rank sa;
        p ← malloc (u64 (n * 4));
        if p =? NULL then mret (sa, rank)
        else
          s0 ← at_index sa 0;
          if Z.of_nat (length sa) <=? s0 then undefined
          else
            tmp ← rank_loop (Z.to_nat (n - 1)) data n k 1 sa (<[Z.to_nat s0 := 0]> (replicate (Z.to_nat n) 0));
            free p;;
            k ← sint (k * 2);
            sort_rounds fuel data n k sa tmp
  end.

(** [rank[i] = data[i]] and [sa[i] = i], then the rounds: 32 are more than a 32-bit [k] can double. *)
Definition delta_sa_sort (data : list Z) (n : Z) : M libc (list Z * list Z) :=
  sort_rounds 32 data n 1 (seqZ 0 n) (take (Z.to_nat n) data).

Section alloc.
(** The allocator and the deallocator of the caller; [None] is a null pointer. *)
Context (alloc : option (Z -> M libc Z)).

Definition get_block (size : Z) : M libc Z := match alloc with Some f => f size | None => malloc size end.

Definition delta_sa_free (s : Z) (x : delta_suffix_array_t) (free_fn : option (Z -> M libc unit)) : M libc unit :=
  if s =? NULL then mret tt
  else
    touch s;;
    let ff := match free_fn with Some f => f | None => free end in
    when (truthy (sa_ptr x)) (ff (sa_ptr x));;
    when (truthy (rank_ptr x)) (ff (rank_ptr x));;
    match sa_tmp x with
    | None => undefined
    | Some t => when (truthy t) (ff t);; ff s
    end.

(** The deallocator that the source passes on: null with a caller's allocator, [free] without. *)
Definition chosen_free : option (Z -> M libc unit) := match alloc with Some _ => None | None => Some free end.

(** [Some (s, x)]: the structure [x] at the address [s]. *)
Definition delta_sa_build (data : option (list Z)) : M libc (option (Z * delta_suffix_array_t)) :=
  match data with
  | None | Some [] => mret None
  | Some data =>
      let n := s32 (Z.of_nat (length data)) in
      s ← get_block 32;
      if s =? NULL then mret None
      else
        p ← get_block (u64 (n * 4));
        r ← get_block (u64 (n * 4));
        if (p =? NULL) || (r =? NULL) then
          delta_sa_free s (SuffixArray p [] r [] None 0) chosen_free;;
          match alloc with
          | Some _ => mret None
          | None => touch s;; free p;; free r;; free s;; mret None
          end
        else
          sorted ← delta_sa_sort data n;
          mret (Some (s, SuffixArray p (fst sorted) r (snd sorted) (Some NULL) n))
  end.
End alloc.

(** [while (i < pattern_len && spos + i < length && data[spos + i] == pattern[i]) i++]: the number of equal bytes. *)
Fixpoint match_loop (data pattern : list Z) (i : Z) : Z :=
  match data, pattern with
  | d :: data, p :: pattern => if d =? p then match_loop data pattern (i + 1) else i
  | _, _ => i
  end.

Fixpoint search_loop (fuel : nat) (x : delta_suffix_array_t) (data pattern : list Z) (lo hi best_match best_len : Z) : M libc (Z * Z) :=
  match fuel with
  | O => nofuel
  | S fuel =>
      if hi <? lo then mret (best_match, best_len)
      else
        sum ← sint (lo + hi);
        let mid := sum / 2 in
        spos ← at_index (sa x) mid;
        let i := match_loop (drop (Z.to_nat spos) (take (Z.to_nat (sa_length x)) data)) pattern 0 in
        let '(best_match, best_len) := if best_len <? i then (spos, i) else (best_match, best_len) in
        if i =? Z.of_nat (length pattern) then mret (best_match, best_len)
        else
          below ← (if sa_length x <=? spos + i then mret true
                   else d ← at_index data (spos + i); p ← at_index pattern i; mret (d <? p));
          if (below : bool) then search_loop fuel x data pattern (mid + 1) hi best_match best_len
          else search_loop fuel x data pattern lo (mid - 1) best_match best_len
  end.

(** The result and [*match_len]. *)
Definition delta_sa_search (x : delta_suffix_array_t) (data pattern : list Z) : M libc (Z * Z) :=
  if (length pattern =? 0)%nat then mret (-1, 0)
  else
    r ← search_loop (S (S (length (sa x)))) x data pattern 0 (sa_length x - 1) (-1) 0;
    mret (if 8 <=? snd r then fst r else -1, snd r).

(** ** Creating a patch *)

(** The instruction bytes written so far, in a buffer with room for [cap]; a write beyond is undefined. *)
Definition emit (cap : Z) (ops bs : list Z) : M libc (list Z) :=
  if Z.of_nat (length ops + length bs) <=? cap then mret (ops ++ bs) else undefined.

(** [while (pos < new_size)]; [rest] is the new data from [pos] on.  The result: the bytes and [copy_count]. *)
Fixpoint encode_loop (fuel : nat) (x : delta_suffix_array_t) (old rest : list Z) (cap : Z) (ops : list Z) (copy_count : Z) : M libc (list Z * Z) :=
  match fuel with
  | O => nofuel
  | S fuel =>
      if (length rest =? 0)%nat then mret (ops, copy_count)
      else
        let remaining := Z.of_nat (length rest) in
        let search_len := if 1024 <? remaining then 1024 else remaining in
        found ← delta_sa_search x old (take (Z.to_nat search_len) rest);
        let '(match_pos, match_len) := found in
        if (16 <=? match_len) && (0 <=? match_pos) then
          ops ← emit cap ops ([DELTA_OP_COPY] ++ le_bytes 2 match_len ++ le_bytes 4 match_pos);
          encode_loop fuel x old (drop (Z.to_nat match_len) rest) cap ops (copy_count +32 1)
        else
          let add_len := if 128 <? remaining then 128 else remaining in
          ops ← emit cap ops ([DELTA_OP_ADD] ++ le_bytes 2 add_len);
          ops ← emit cap ops (take (Z.to_nat add_len) rest);
          encode_loop fuel x old (drop (Z.to_nat add_len) rest) cap ops copy_count
  end.

Definition patch_header (old_size new_size ops_size copies : Z) : delta_patch_header_t :=
  PatchHeader 0x42534446 1 (Z.of_nat sizeof_patch_header) (u32 old_size) (u32 new_size) (u32 ops_size) (u32 ops_size) copies
    (replicate 32 0) (replicate 32 0) (replicate 32 0) (replicate 72 0) 0 (replicate 32 0).

(** The address and the bytes of the patch, up to [*patch_size]. *)
Definition delta_create_patch (alloc : option (Z -> M libc Z)) (old_data new_data : option (list Z)) : M libc (delta_result_t * option (Z * list Z)) :=
  match old_data, new_data with
  | Some old, Some new =>
      let new_size := Z.of_nat (length new) in
      built ← delta_sa_build alloc (Some old);
      match built with
      | None => mret (DELTA_RESULT_ERR_NOMEM, None)
      | Some (s, x) =>
          let max_ops := u32 (new_size / 4 + 256) in
          let buf_size := u64 (Z.of_nat sizeof_patch_header + max_ops *32 12 + new_size) in
          buf ← get_block alloc buf_size;
          if buf =? NULL then
            delta_sa_free s x (chosen_free alloc);;
            match alloc with
            | Some _ => mret (DELTA_RESULT_ERR_NOMEM, None)
            | None => delta_sa_free s x None;; mret (DELTA_RESULT_ERR_NOMEM, None)
            end
          else if buf_size <? Z.of_nat sizeof_patch_header then undefined
          else
            let cap := buf_size - Z.of_nat sizeof_patch_header in
            enc ← encode_loop (S (length new)) x old new cap [] 0;
            let '(ops, copies) := enc in
            ops ← emit cap ops [DELTA_OP_SEEK];
            let hdr := patch_header (Z.of_nat (length old)) new_size (Z.of_nat (length ops)) copies in
            delta_sa_free s x (chosen_free alloc);;
            match alloc with
            | Some _ => mret tt
            | None => touch s;; free (sa_ptr x);; free (rank_ptr x);; free s
            end;;
            mret (DELTA_RESULT_OK, Some (buf, encode_patch_header hdr ++ ops))
      end
  | _, _ => mret (DELTA_RESULT_ERR_PARAM, None)
  end.

(** ** Applying a patch *)

(** The caller's functions over its state [C]: a read of a number of bytes, [None] for a non-zero return
    code; a write, [true] for 0.  The seek functions and the allocator of the structure are not used by the code. *)
Record delta_io_t (C : Type) := Io {
  read_old : option (Z -> C -> option (list Z) * C);
  read_patch : option (Z -> C -> option (list Z) * C);
  write_new : option (list Z -> C -> bool * C) }.
Arguments Io {C}.
Arguments read_old {C}.
Arguments read_patch {C}.
Arguments write_new {C}.

Record device (C : Type) := Device { mem : libc; io_ctx : C }.
Arguments Device {C}.
Arguments mem {C}.
Arguments io_ctx {C}.

Section apply.
Context {C : Type} (io : delta_io_t C).
Notation DM := (M (device C)).

Definition on_mem {A} (m : M libc A) : DM A := zoom mem (fun m w => Device m (io_ctx w)) m.

(** A call of a reader into a buffer of [size] bytes: [None] when it fails; a buffer not filled is read uninitialised. *)
Definition call_read (f : option (Z -> C -> option (list Z) * C)) (size : Z) : DM (option (list Z)) := fun w =>
  match f with
  | None => UB
  | Some f =>
      let '(r, c) := f size (io_ctx w) in
      match r with
      | Some bs => if Z.of_nat (length bs) <? size then UB else Done (Some (take (Z.to_nat size) bs), Device (mem w) c)
      | None => Done (None, Device (mem w) c)
      end
  end.

(** [write_new(buf + from, len)]: a range that is not inside the buffer is undefined. *)
Definition call_write (buf : list Z) (from len : Z) : DM bool := fun w =>
  match write_new io with
  | None => UB
  | Some f =>
      if Z.of_nat (length buf) <? from + len then UB
      else let '(ok, c) := f (take (Z.to_nat len) (drop (Z.to_nat from) buf)) (io_ctx w) in Done (ok, Device (mem w) c)
  end.

(** A little-endian integer of [k] bytes at [ops[i]]. *)
Definition op_int (k : nat) (ops : list Z) (i : Z) : DM Z :=
  let bs := take k (drop (Z.to_nat i) ops) in
  if (length bs <? k)%nat then undefined else mret (le_val bs).

Fixpoint apply_loop (fuel : nat) (ops old_buf : list Z) (old_size i : Z) : DM delta_result_t :=
  match fuel with
  | O => nofuel
  | S fuel =>
      if Z.of_nat (length ops) <=? i then mret DELTA_RESULT_OK
      else
        op ← at_index ops i;
        let i := i + 1 in
        if op =? DELTA_OP_ADD then
          len ← op_int 2 ops i;
          let i := i + 2 in
          ok ← call_write ops i len;
          if negb (ok : bool) then mret DELTA_RESULT_ERR_PATCH_APPLY else apply_loop fuel ops old_buf old_size (i + len)
        else if op =? DELTA_OP_COPY then
          len ← op_int 2 ops i;
          let i := i + 2 in
          pos ← op_int 4 ops i;
          let i := i + 4 in
          if old_size <? pos +32 len then mret DELTA_RESULT_ERR_PATCH_CORRUPT
          else
            ok ← call_write old_buf pos len;
            if negb (ok : bool) then mret DELTA_RESULT_ERR_PATCH_APPLY else apply_loop fuel ops old_buf old_size i
        else if op =? DELTA_OP_SEEK then mret DELTA_RESULT_OK
        else mret DELTA_RESULT_ERR_PATCH_CORRUPT
  end.
End apply.

(** [crypto]: a non-null pointer; its functions are never called. *)
Definition delta_verify_patch (io crypto : bool) : delta_result_t :=
  if negb io || negb crypto then DELTA_RESULT_ERR_PARAM else DELTA_RESULT_OK.

Definition delta_apply_patch {C} (io : option (delta_io_t C)) (crypto : bool) : M (device C) delta_result_t :=
  match io with
  | None => mret DELTA_RESULT_ERR_PARAM
  | Some io =>
      hdr ← call_read (read_patch io) (Z.of_nat sizeof_patch_header);
      match hdr with
      | None => mret DELTA_RESULT_ERR_IO
      | Some bs =>
          let header := decode_patch_header bs in
          if negb (d_magic header =? 0x42534446) then mret DELTA_RESULT_ERR_PATCH_CORRUPT
          else if negb (d_version header =? 1) then mret DELTA_RESULT_ERR_PATCH_CORRUPT
          else
            p ← on_mem (malloc (patch_data_size header));
            if p =? NULL then mret DELTA_RESULT_ERR_NOMEM
            else
              ops ← call_read (read_patch io) (patch_data_size header);
              match ops with
              | None => on_mem (free p);; mret DELTA_RESULT_ERR_IO
              | Some ops =>
                  q ← on_mem (malloc (old_file_size header));
                  if q =? NULL then on_mem (free p);; mret DELTA_RESULT_ERR_NOMEM
                  else
                    old ← call_read (read_old io) (old_file_size header);
                    match old with
                    | None => on_mem (free p);; on_mem (free q);; mret DELTA_RESULT_ERR_IO
                    | Some old =>
                        res ← apply_loop io (S (length ops)) ops old (old_file_size header) 0;
                        on_mem (free p);;
                        on_mem (free q);;
                        mret (if bool_decide (res = DELTA_RESULT_OK) && crypto then delta_verify_patch true crypto else res)
                    end
              end
      end
  end.

Definition delta_patch_partial_apply {C} (io : option (delta_io_t C)) (crypto : bool) (start_chunk end_chunk : Z) : M (device C) delta_result_t :=
  match io with
  | None => mret DELTA_RESULT_ERR_PARAM
  | Some _ => if end_chunk <=? start_chunk then mret DELTA_RESULT_ERR_PARTIAL else delta_apply_patch io false
  end.

(** ** The run-length codec

    The state is the caller's output buffer. *)
Definition out_byte (oi v : Z) : M (list Z) unit := fun out =>
  if oi <? Z.of_nat (length out) then Done (tt, <[Z.to_nat oi := u8 v]> out) else UB.

(** [run_len], of the byte at [i] and those that follow it. *)
Fixpoint run_len (x : Z) (rest : list Z) (n : Z) : Z :=
  match rest with
  | y :: rest => if (n <? 255) && (x =? y) then run_len x rest (n + 1) else n
  | [] => n
  end.

(** The loop over the literal bytes; [lim] is [*output_len - 1].  It returns the data left and [oi]. *)
Fixpoint literal_loop (rest : list Z) (lim oi lit_start : Z) : M (list Z) (list Z * Z) :=
  match rest with
  | [] => mret ([], oi)
  | x :: rest' =>
      if lim <=? oi then mret (rest, oi)
      else if match rest' with y :: _ => x =? y | [] => false end then mret (rest, oi)
      else
        out_byte oi x;;
        out ← gets id;
        c ← at_index out lit_start;
        out_byte lit_start (c + 1);;
        literal_loop rest' lim (oi + 1) lit_start
  end.

Fixpoint compress_loop (fuel : nat) (rest : list Z) (lim oi : Z) : M (list Z) Z :=
  match fuel with
  | O => nofuel
  | S fuel =>
      match rest with
      | [] => mret oi
      | x :: _ =>
          if lim <=? oi then mret oi
          else
            let n := run_len x rest 0 in
            if 1 <? n then
              out_byte oi (Z.lor 0x80 n);;
              out_byte (oi + 1) x;;
              compress_loop fuel (drop (Z.to_nat n) rest) lim (oi + 2)
            else
              out_byte (oi + 1) 0;;
              r ← literal_loop rest lim (oi + 2) oi;
              compress_loop fuel (fst r) lim (snd r)
      end
  end.

(** The return value and [*output_len]; [output_len] is the value it has at the call. *)
Definition delta_compress (input : option (list Z)) (output_len : option Z) : M (list Z) (Z * option Z) :=
  match input, output_len with
  | Some input, Some n => oi ← compress_loop (S (S (length input))) input (u64 (n - 1)) 0; mret (0, Some oi)
  | _, _ => mret (-1, output_len)
  end.

(** [for (j = 0; j < cnt && oi < *output_len; j++) output[oi++] = v]: the new [oi]. *)
Fixpoint fill_run (cnt : nat) (v lim oi : Z) : M (list Z) Z :=
  match cnt with
  | O => mret oi
  | S cnt => if lim <=? oi then mret oi else out_byte oi v;; fill_run cnt v lim (oi + 1)
  end.

(** The same with bytes of the input; one that is not there is read out of bounds. *)
Fixpoint copy_literals (cnt : nat) (rest : list Z) (lim oi : Z) : M (list Z) (list Z * Z) :=
  match cnt with
  | O => mret (rest, oi)
  | S cnt =>
      if lim <=? oi then mret (rest, oi)
      else match rest with
           | [] => undefined
           | x :: rest => out_byte oi x;; copy_literals cnt rest lim (oi + 1)
           end
  end.

Fixpoint decompress_loop (fuel : nat) (rest : list Z) (lim oi : Z) : M (list Z) Z :=
  match fuel with
  | O => nofuel
  | S fuel =>
      match rest with
      | [] => mret oi
      | ctrl :: rest =>
          if lim <=? oi then mret oi
          else if negb (Z.land ctrl 0x80 =? 0) then
            match rest with
            | [] => undefined
            | v :: rest => oi ← fill_run (Z.to_nat (Z.land ctrl 0x7F)) v lim oi; decompress_loop fuel rest lim oi
            end
          else r ← copy_literals (Z.to_nat ctrl) rest lim oi; decompress_loop fuel (fst r) lim (snd r)
      end
  end.

Definition delta_decompress (input : option (list Z)) (output_len : option Z) : M (list Z) (Z * option Z) :=
  match input, output_len with
  | Some input, Some n => oi ← decompress_loop (S (length input)) input n 0; mret (0, Some oi)
  | _, _ => mret (-1, output_len)
  end.

Definition delta_result_str (r : delta_result_t) : string :=
  match r with
  | DELTA_RESULT_OK => "OK"
  | DELTA_RESULT_ERR_PARAM => "Invalid parameter"
  | DELTA_RESULT_ERR_NOMEM => "No memory"
  | DELTA_RESULT_ERR_IO => "I/O error"
  | DELTA_RESULT_ERR_HASH => "Hash mismatch"
  | DELTA_RESULT_ERR_SIGNATURE => "Signature error"
  | DELTA_RESULT_ERR_PATCH_CORRUPT => "Corrupt patch"
  | DELTA_RESULT_ERR_PATCH_APPLY => "Patch apply failed"
  | DELTA_RESULT_ERR_OLD_MISMATCH => "Old file mismatch"
  | DELTA_RESULT_ERR_NEW_MISMATCH => "New file mismatch"
  | DELTA_RESULT_ERR_COMPRESS => "Compress error"
  | DELTA_RESULT_ERR_DECOMPRESS => "Decompress error"
  | DELTA_RESULT_ERR_PARTIAL => "Partial apply error"
  end%string.

(** ** The suffix array: whatever its order, a permutation of the positions *)

Lemma at_index_Done {S A} (l : list A) i (s : S) :
  0 <= i < Z.of_nat (length l) -> exists x, l !! Z.to_nat i = Some x /\ at_index l i s = Done (x, s).
Proof.
  intros Hi. destruct (lookup_lt_is_Some_2 l (Z.to_nat i)) as [x Hx]; [lia|]. exists x. split; [done|].
  unfold at_index. rewrite (proj2 (Z.ltb_ge i 0)) by lia. by rewrite Hx.
Qed.

Lemma sint_Done x m : -2147483648 <= x < 2147483648 -> sint x m = Done (x, m).
Proof. intros Hx. unfold sint. by rewrite (proj2 (Z.leb_le _ _)), (proj2 (Z.ltb_lt _ _)) by lia. Qed.

(** Positions of an array of [n] elements. *)
Definition positions (n : Z) (sa : list Z) : Prop := sa ≡ₚ seqZ 0 n.

Lemma positions_length n sa : 0 <= n -> positions n sa -> Z.of_nat (length sa) = n.
Proof. intros Hn H. rewrite (Permutation_length H), length_seqZ. lia. Qed.

Lemma positions_lookup n sa i x : positions n sa -> sa !! i = Some x -> 0 <= x < n.
Proof. intros H Hx. apply list_elem_of_lookup_2 in Hx. rewrite H in Hx. apply elem_of_seqZ in Hx. lia. Qed.

Lemma positions_at {S} n sa i (s : S) : positions n sa -> 0 <= i < n -> exists x, sa !! Z.to_nat i = Some x /\ at_index sa i s = Done (x, s) /\ 0 <= x < n.
Proof.
  intros H Hi. destruct (at_index_Done sa i s) as (x & Hx & E); [rewrite (positions_length n sa) by (done || lia); lia|].
  exists x. split_and!; try done; by eapply positions_lookup.
Qed.

(** The heap with room: [malloc] grants, and fresh addresses are not live. *)
Definition roomy (m : libc) : Prop := answers m = [] /\ 0 < next_block m /\ forall p, p ∈ live m -> 0 < p < next_block m.

Lemma malloc_Done size m :
  roomy m -> exists m', malloc size m = Done (next_block m, m') /\ roomy m' /\ live m' = {[ next_block m ]} ∪ live m /\ next_block m < next_block m'.
Proof.
  intros (Ha & Hn0 & Hl). unfold malloc. rewrite Ha. eexists. split; [reflexivity|]. split; [|cbn; split; [done|lia]].
  split; [done|]. cbn. split; [lia|]. intros p [->%elem_of_singleton|Hp]%elem_of_union; [lia|]. specialize (Hl p Hp). lia.
Qed.

Lemma free_Done p m :
  roomy m -> p ∈ live m -> exists m', free p m = Done (tt, m') /\ roomy m' /\ live m' = live m ∖ {[ p ]} /\ next_block m' = next_block m.
Proof.
  intros (Ha & Hn0 & Hl) Hp. unfold free. rewrite (proj2 (Z.eqb_neq p NULL)) by (specialize (Hl p Hp); unfold NULL; lia). rewrite decide_True by done.
  eexists. split; [reflexivity|]. split; [|done]. split; [done|]. split; [done|]. intros q [Hq _]%elem_of_difference. by apply Hl.
Qed.

Lemma malloc_free size m :
  roomy m -> exists m1 m2, malloc size m = Done (next_block m, m1) /\ free (next_block m) m1 = Done (tt, m2) /\ roomy m2 /\ live m2 = live m /\ next_block m <= next_block m2.
Proof.
  intros Hr. destruct (malloc_Done size m Hr) as (m1 & E1 & Hr1 & Hl1 & Hn1). destruct (free_Done (next_block m) m1 Hr1) as (m2 & E2 & Hr2 & Hl2 & Hn2).
  { rewrite Hl1. set_solver. }
  exists m1, m2. split; [done|]. split; [done|]. split; [done|]. split; [|lia]. rewrite Hl2, Hl1. destruct Hr as (_ & _ & Hl).
  assert (next_block m ∉ live m) by (intros H; specialize (Hl _ H); lia). set_solver.
Qed.

Section sorting.
Context (data : list Z) (n : Z) (Hn : Z.of_nat (length data) = n) (Hmax : 0 < n <= 1073741824).

Lemma sort_inner_Done cnt k i j rank sa m :
  1 <= k <= 1073741824 -> Z.of_nat (length rank) = n -> positions n sa -> 0 <= i < n -> 0 <= j -> j + Z.of_nat cnt <= n ->
  exists sa', sort_inner cnt n k i j rank sa m = Done (sa', m) /\ positions n sa'.
Proof.
  intros Hk Hr. revert j sa. induction cnt as [|cnt IH]; intros j sa Hs Hi Hj Hc; [by exists sa|]. cbn [sort_inner].
  assert (forall t, 0 <= t -> exists r, ((if t <? n then at_index rank t else mret (-1)) : M libc Z) m = Done (r, m)) as Hrk.
  { intros t Ht. destruct (Z.ltb_spec t n); [|eauto]. destruct (at_index_Done rank t m) as (r & _ & E); [lia|eauto]. }
  rewrite (bind_step _ _ _ _ _ (sint_Done (i + k) m ltac:(lia))), (bind_step _ _ _ _ _ (sint_Done (j + k) m ltac:(lia))).
  destruct (Hrk (i + k) ltac:(lia)) as [ra Ea]. destruct (Hrk (j + k) ltac:(lia)) as [rb Eb]. rewrite (bind_step _ _ _ _ _ Ea), (bind_step _ _ _ _ _ Eb).
  destruct (positions_at n sa i m Hs ltac:(lia)) as (si & Hsi & Ei & Hbi). destruct (positions_at n sa j m Hs ltac:(lia)) as (sj & Hsj & Ej & Hbj).
  rewrite (bind_step _ _ _ _ _ Ei), (bind_step _ _ _ _ _ Ej).
  destruct (at_index_Done rank si m ltac:(lia)) as (ri & _ & Eri). destruct (at_index_Done rank sj m ltac:(lia)) as (rj & _ & Erj).
  rewrite (bind_step _ _ _ _ _ Eri), (bind_step _ _ _ _ _ Erj). apply IH; [|lia..].
  destruct (_ || _); [|done]. unfold positions in *. by rewrite Permutation_insert_swap by done.
Qed.

Lemma sort_outer_Done cnt k i rank sa m :
  1 <= k <= 1073741824 -> Z.of_nat (length rank) = n -> positions n sa -> 0 <= i -> i + Z.of_nat cnt < n ->
  exists sa', sort_outer cnt n k i rank sa m = Done (sa', m) /\ positions n sa'.
Proof.
  intros Hk Hr. revert i sa. induction cnt as [|cnt IH]; intros i sa Hs Hi Hc; [by exists sa|]. cbn [sort_outer].
  destruct (sort_inner_Done (Z.to_nat (n - (i + 1))) k i (i + 1) rank sa m) as (sa1 & E1 & Hs1); [done|done|done|lia..|].
  rewrite (bind_step _ _ _ _ _ E1). apply IH; [done|lia..].
Qed.

Lemma compare_Done a b cur m : 0 <= a < n -> 0 <= b < n -> exists c, delta_sa_compare data n a b cur m = Done (c, m).
Proof.
  intros Ha Hb. unfold delta_sa_compare. destruct (at_index_Done data a m ltac:(lia)) as (x & _ & Ex). destruct (at_index_Done data b m ltac:(lia)) as (y & _ & Ey).
  rewrite (bind_step _ _ _ _ _ Ex), (bind_step _ _ _ _ _ Ey). destruct (negb _); [eauto|].
  destruct (Z.leb_spec n (a + 1)); [eauto|]. destruct (Z.leb_spec n (b + 1)); [eauto|].
  destruct (at_index_Done data (a + 1) m ltac:(lia)) as (x2 & _ & Ex2). destruct (at_index_Done data (b + 1) m ltac:(lia)) as (y2 & _ & Ey2).
  rewrite (bind_step _ _ _ _ _ Ex2), (bind_step _ _ _ _ _ Ey2). eauto.
Qed.

Lemma rank_loop_Done cnt k i sa tmp m :
  Z.of_nat (length tmp) = n -> positions n sa -> 1 <= i -> i + Z.of_nat cnt <= n ->
  exists tmp', rank_loop cnt data n k i sa tmp m = Done (tmp', m) /\ Z.of_nat (length tmp') = n.
Proof.
  revert i tmp. induction cnt as [|cnt IH]; intros i tmp Ht Hs Hi Hc; [by exists tmp|]. cbn [rank_loop].
  destruct (positions_at n sa (i - 1) m Hs ltac:(lia)) as (p & _ & Ep & Hp). destruct (positions_at n sa i m Hs ltac:(lia)) as (q & _ & Eq & Hq).
  rewrite (bind_step _ _ _ _ _ Ep), (bind_step _ _ _ _ _ Eq). destruct (at_index_Done tmp p m ltac:(lia)) as (r & _ & Er). rewrite (bind_step _ _ _ _ _ Er).
  destruct (compare_Done p q k m Hp Hq) as [c Ec]. rewrite (bind_step _ _ _ _ _ Ec), (proj2 (Z.leb_gt _ _)) by lia.
  apply IH; [by rewrite length_insert|done|lia..].
Qed.

Lemma sort_rounds_Done fuel e sa rank m :
  roomy m -> positions n sa -> Z.of_nat (length rank) = n -> 0 <= e <= 30 -> (31 <= e + Z.of_nat fuel)%Z ->
  exists sa' rank' m', sort_rounds fuel data n (2 ^ e) sa rank m = Done ((sa', rank'), m') /\ positions n sa' /\ roomy m' /\ live m' = live m /\ next_block m <= next_block m'.
Proof.
  revert e sa rank m. induction fuel as [|fuel IH]; intros e sa rank m Hm Hs Hr He Hf; [lia|]. cbn [sort_rounds].
  destruct (Z.leb_spec n (2 ^ e)) as [|Hlt]; [by exists sa, rank, m|].
  assert (1 <= 2 ^ e) by (apply (Z.pow_le_mono_r 2 0 e); lia).
  assert (e < 30). { destruct (Z.lt_ge_cases e 30); [done|]. assert (e = 30) by lia. subst e. change (2 ^ 30) with 1073741824 in Hlt. lia. }
  assert (2 ^ e <= 536870912) by (apply (Z.pow_le_mono_r 2 e 29); lia).
  destruct (sort_outer_Done (Z.to_nat (n - 1)) (2 ^ e) 0 rank sa m) as (sa1 & E1 & Hs1); [lia|done|done|lia..|]. rewrite (bind_step _ _ _ _ _ E1).
  destruct (malloc_free (u64 (n * 4)) m Hm) as (m1 & m2 & E2 & E3 & Hm2 & Hl2 & Hn2). rewrite (bind_step _ _ _ _ _ E2).
  rewrite (proj2 (Z.eqb_neq _ NULL)) by (destruct Hm as (_ & ? & _); unfold NULL; lia).
  destruct (positions_at n sa1 0 m1 Hs1 ltac:(lia)) as (s0 & _ & E0 & Hs0). rewrite (bind_step _ _ _ _ _ E0), (positions_length n sa1) by (done || lia).
  rewrite (proj2 (Z.leb_gt _ _)) by lia.
  destruct (rank_loop_Done (Z.to_nat (n - 1)) (2 ^ e) 1 sa1 (<[Z.to_nat s0:=0]> (replicate (Z.to_nat n) 0)) m1) as (tmp & E4 & Ht);
    [rewrite length_insert, length_replicate; lia|done|lia..|].
  rewrite (bind_step _ _ _ _ _ E4), (bind_step _ _ _ _ _ E3), (bind_step _ _ _ _ _ (sint_Done (2 ^ e * 2) m2 ltac:(lia))).
  replace (2 ^ e * 2) with (2 ^ (e + 1)) by (rewrite Z.pow_add_r by lia; lia).
  destruct (IH (e + 1) sa1 tmp m2 Hm2 Hs1 Ht ltac:(lia) ltac:(lia)) as (sa' & rank' & m' & E & Hs' & Hm' & Hl' & Hn'). exists sa', rank', m'.
  split_and!; try done; [by rewrite Hl'|lia].
Qed.

Lemma sort_Done m :
  roomy m -> exists sa rank m', delta_sa_sort data n m = Done ((sa, rank), m') /\ positions n sa /\ roomy m' /\ live m' = live m /\ next_block m <= next_block m'.
Proof.
  intros Hm. unfold delta_sa_sort. apply (sort_rounds_Done 32 0); [done|by unfold positions|rewrite length_take; lia|lia|lia].
Qed.
End sorting.

(** ** The search finds true matches *)

Definition is_match (data pattern : list Z) (p l : Z) : Prop :=
  0 <= p /\ 0 <= l <= Z.of_nat (length pattern) /\ p + l <= Z.of_nat (length data) /\
  take (Z.to_nat l) (drop (Z.to_nat p) data) = take (Z.to_nat l) pattern.

Lemma match_loop_spec data pattern i :
  exists c, match_loop data pattern i = i + Z.of_nat c /\ (c <= length data)%nat /\ (c <= length pattern)%nat /\ take c data = take c pattern.
Proof.
  revert pattern i. induction data as [|d data IH]; intros [|p pattern] i; cbn [match_loop]; try (exists 0%nat; cbn; split_and!; done || lia).
  destruct (Z.eqb_spec d p) as [->|]; [|exists 0%nat; cbn; split_and!; done || lia].
  destruct (IH pattern (i + 1)) as (c & -> & Hd & Hp & E). exists (S c). cbn. split_and!; [lia..|]. by rewrite E.
Qed.

Section searching.
Context (x : delta_suffix_array_t) (data : list Z) (n : Z).
Hypothesis (Hn : Z.of_nat (length data) = n) (Hmax : 0 < n <= 1073741824) (Hlen : sa_length x = n) (Hsa : positions n (sa x)).

Lemma search_loop_Done fuel pattern lo hi bm bl m :
  0 <= lo -> hi < n -> hi - lo + 2 <= Z.of_nat fuel -> (0 < fuel)%nat -> (bl = 0 \/ is_match data pattern bm bl) ->
  exists bm' bl', search_loop fuel x data pattern lo hi bm bl m = Done ((bm', bl'), m) /\ (bl' = 0 \/ is_match data pattern bm' bl').
Proof.
  revert lo hi bm bl. induction fuel as [|fuel IH]; intros lo hi bm bl Hlo Hhi Hf Hf0 Hb; [lia|]. cbn [search_loop].
  destruct (Z.ltb_spec hi lo) as [|Hle]; [eauto|]. rewrite (bind_step _ _ _ _ _ (sint_Done (lo + hi) m ltac:(lia))).
  set (mid := (lo + hi) / 2). assert (lo <= mid <= hi) as Hmid by (unfold mid; Z.div_mod_to_equations; lia).
  destruct (positions_at n (sa x) mid m Hsa ltac:(lia)) as (spos & _ & Es & Hs). rewrite (bind_step _ _ _ _ _ Es), Hlen. rewrite take_ge by lia.
  destruct (match_loop_spec (drop (Z.to_nat spos) data) pattern 0) as (c & -> & Hd & Hp & E). rewrite length_drop in Hd. rewrite Z.add_0_l.
  assert (is_match data pattern spos (Z.of_nat c)) as Hm by (split_and!; try lia; by rewrite Nat2Z.id).
  set (b := if bl <? Z.of_nat c then (spos, Z.of_nat c) else (bm, bl)).
  assert (exists bm1 bl1, b = (bm1, bl1) /\ (bl1 = 0 \/ is_match data pattern bm1 bl1)) as (bm1 & bl1 & -> & Hb1).
  { unfold b. destruct (bl <? _); eauto. }
  destruct (Z.eqb_spec (Z.of_nat c) (Z.of_nat (length pattern))); [eauto|].
  assert (forall b : bool, exists bm' bl', (if b then search_loop fuel x data pattern (mid + 1) hi bm1 bl1 else search_loop fuel x data pattern lo (mid - 1) bm1 bl1) m =
    Done ((bm', bl'), m) /\ (bl' = 0 \/ is_match data pattern bm' bl')) as Hrec.
  { intros []; (apply IH; [lia..|done]). }
  destruct (Z.leb_spec n (spos + Z.of_nat c)); [rewrite bind_ret; exact (Hrec true)|].
  destruct (at_index_Done data (spos + Z.of_nat c) m ltac:(lia)) as (d & _ & Ed). destruct (at_index_Done pattern (Z.of_nat c) m ltac:(lia)) as (p & _ & Ep).
  rewrite bind_assoc, (bind_step _ _ _ _ _ Ed), bind_assoc, (bind_step _ _ _ _ _ Ep), bind_ret. exact (Hrec (d <? p)).
Qed.

Lemma search_Done pattern m :
  exists p l, delta_sa_search x data pattern m = Done ((p, l), m) /\ (8 <= l -> is_match data pattern p l) /\ l <= Z.of_nat (length pattern).
Proof.
  unfold delta_sa_search. destruct (Nat.eqb_spec (length pattern) 0) as [E|]; [exists (-1), 0; split; [done|]; split; lia|].
  pose proof (positions_length n (sa x) ltac:(lia) Hsa) as Hl.
  destruct (search_loop_Done (S (S (length (sa x)))) pattern 0 (sa_length x - 1) (-1) 0 m) as (bm & bl & E & Hb); [lia..|by left|].
  rewrite (bind_step _ _ _ _ _ E). cbn [fst snd]. eexists _, bl. split; [reflexivity|].
  split.
  - intros H8. rewrite (proj2 (Z.leb_le 8 bl) H8). destruct Hb; [lia|done].
  - destruct Hb as [->|(_ & ? & _)]; lia.
Qed.
End searching.

(** ** Patches as lists of instructions *)

Inductive delta_ins := Add (bs : list Z) | Copy (len pos : Z).

Definition ins_bytes (x : delta_ins) : list Z :=
  match x with
  | Add bs => [DELTA_OP_ADD] ++ le_bytes 2 (Z.of_nat (length bs)) ++ bs
  | Copy len pos => [DELTA_OP_COPY] ++ le_bytes 2 len ++ le_bytes 4 pos
  end.
(** What an instruction adds to the new file. *)
Definition ins_output (old : list Z) (x : delta_ins) : list Z :=
  match x with Add bs => bs | Copy len pos => take (Z.to_nat len) (drop (Z.to_nat pos) old) end.
Definition ins_ok (old : list Z) (x : delta_ins) : Prop :=
  match x with
  | Add bs => Z.of_nat (length bs) < 65536
  | Copy len pos => 0 <= len < 65536 /\ 0 <= pos /\ pos + len <= Z.of_nat (length old) < 4294967296
  end.
Definition patch_bytes (xs : list delta_ins) : list Z := concat (ins_bytes <$> xs).
Definition patch_output (old : list Z) (xs : list delta_ins) : list Z := concat (ins_output old <$> xs).

(** Room for the instructions of [n] new bytes. *)
Definition room (n : Z) : Z := n + 3 * ((n + 127) / 128).

Lemma emit_Done cap ops bs m : Z.of_nat (length ops) + Z.of_nat (length bs) <= cap -> emit cap ops bs m = Done (ops ++ bs, m).
Proof. intros H. unfold emit. by rewrite (proj2 (Z.leb_le _ _)) by lia. Qed.

Section encoding.
Context (x : delta_suffix_array_t) (old : list Z) (n : Z).
Hypothesis (Hn : Z.of_nat (length old) = n) (Hmax : 0 < n <= 1073741824) (Hlen : sa_length x = n) (Hsa : positions n (sa x)).

Lemma encode_loop_Done fuel rest cap ops copies m :
  (length rest < fuel)%nat -> Z.of_nat (length ops) + room (Z.of_nat (length rest)) <= cap -> 0 <= copies < 4294967296 ->
  exists xs copies', 0 <= copies' < 4294967296 /\ encode_loop fuel x old rest cap ops copies m = Done ((ops ++ patch_bytes xs, copies'), m) /\
    Forall (ins_ok old) xs /\ patch_output old xs = rest /\ Z.of_nat (length (patch_bytes xs)) <= room (Z.of_nat (length rest)).
Proof.
  revert rest ops copies. induction fuel as [|fuel IH]; intros rest ops copies Hf Hcap Hcp; [lia|]. cbn [encode_loop].
  destruct (Nat.eqb_spec (length rest) 0) as [H0|Hr].
  { exists [], copies. apply length_zero_iff_nil in H0. subst rest. unfold patch_bytes, patch_output. cbn -[Z.le Z.lt]. rewrite app_nil_r. done. }
  set (slen := if 1024 <? _ then _ else _). assert (1 <= slen <= 1024 /\ slen <= Z.of_nat (length rest)) as Hslen by (unfold slen; destruct (Z.ltb_spec 1024 (Z.of_nat (length rest))); lia).
  destruct (search_Done x old n Hn Hmax Hlen Hsa (take (Z.to_nat slen) rest) m) as (p & l & E & Hm & Hl). rewrite length_take in Hl. rewrite (bind_step _ _ _ _ _ E).
  unfold room in Hcap.
  destruct ((16 <=? l) && (0 <=? p)) eqn:Hb.
  - apply andb_true_iff in Hb as [H16%Z.leb_le Hp%Z.leb_le]. destruct (Hm ltac:(lia)) as (_ & Hl2 & Hpl & Et). rewrite length_take in Hl2.
    rewrite take_take, Nat.min_l in Et by lia.
    assert (length ([DELTA_OP_COPY] ++ le_bytes 2 l ++ le_bytes 4 p) = 7%nat) as L7 by (rewrite !length_app, !length_le_bytes; done).
    rewrite (bind_step _ _ _ _ _ (emit_Done cap ops ([DELTA_OP_COPY] ++ le_bytes 2 l ++ le_bytes 4 p) m ltac:(rewrite L7; Z.div_mod_to_equations; lia))).
    destruct (IH (drop (Z.to_nat l) rest) (ops ++ ([DELTA_OP_COPY] ++ le_bytes 2 l ++ le_bytes 4 p)) (copies +32 1)) as (xs & copies' & Hcp' & E2 & Hok & Ho & Hsz).
    + rewrite length_drop. lia.
    + rewrite length_app, L7, length_drop. unfold room. Z.div_mod_to_equations. lia.
    + apply u32_range.
    + exists (Copy l p :: xs), copies'. split; [done|]. rewrite E2. split; [by rewrite <- app_assoc|]. split; [|split].
      * constructor; [|done]. cbn. lia.
      * unfold patch_output in *. cbn [fmap list_fmap concat ins_output]. rewrite Ho, Et. apply take_drop.
      * unfold patch_bytes in *. cbn [fmap list_fmap concat ins_bytes]. rewrite length_app, L7. rewrite length_drop in Hsz. unfold room in *. Z.div_mod_to_equations. lia.
  - set (alen := if 128 <? _ then _ else _).
    assert (1 <= alen <= 128 /\ alen <= Z.of_nat (length rest) /\ (alen = 128 \/ alen = Z.of_nat (length rest))) as Hal
      by (unfold alen; destruct (Z.ltb_spec 128 (Z.of_nat (length rest))); lia).
    set (bs := take (Z.to_nat alen) rest). assert (Z.of_nat (length bs) = alen) as Hbs by (unfold bs; rewrite length_take; lia).
    assert (length ([DELTA_OP_ADD] ++ le_bytes 2 alen) = 3%nat) as L3 by (rewrite !length_app, !length_le_bytes; done).
    rewrite (bind_step _ _ _ _ _ (emit_Done cap ops ([DELTA_OP_ADD] ++ le_bytes 2 alen) m ltac:(rewrite L3; Z.div_mod_to_equations; lia))).
    rewrite (bind_step _ _ _ _ _ (emit_Done cap (ops ++ ([DELTA_OP_ADD] ++ le_bytes 2 alen)) bs m ltac:(rewrite length_app, L3; Z.div_mod_to_equations; lia))).
    destruct (IH (drop (Z.to_nat alen) rest) ((ops ++ ([DELTA_OP_ADD] ++ le_bytes 2 alen)) ++ bs) copies) as (xs & copies' & Hcp' & E2 & Hok & Ho & Hsz).
    + rewrite length_drop. lia.
    + rewrite !length_app, length_drop. rewrite length_app in L3. unfold room. Z.div_mod_to_equations. lia.
    + done.
    + exists (Add bs :: xs), copies'. split; [done|]. rewrite E2. unfold patch_bytes, patch_output in *. cbn [fmap list_fmap concat ins_bytes ins_output]. rewrite Hbs.
      split; [by rewrite <- !app_assoc|]. split; [constructor; [cbn; lia|done]|]. split; [rewrite Ho; apply take_drop|].
      rewrite !length_app, length_le_bytes. rewrite length_drop in Hsz. cbn [length]. unfold room in *. Z.div_mod_to_equations. lia.
Qed.
End encoding.

(** ** Applying instructions *)

(** What the caller's functions promise: two streams that are read from the front, and a file that grows at the end. *)
Class DeltaIo {C} (io : delta_io_t C) := {
  patch_stream : C -> list Z; old_stream : C -> list Z; written : C -> list Z;
  reads_patch : exists f, read_patch io = Some f /\ forall n c, 0 <= n ->
    if Z.of_nat (length (patch_stream c)) <? n then exists c', f n c = (None, c') /\ written c' = written c
    else exists c', f n c = (Some (take (Z.to_nat n) (patch_stream c)), c') /\ patch_stream c' = drop (Z.to_nat n) (patch_stream c) /\
           old_stream c' = old_stream c /\ written c' = written c;
  reads_old : exists f, read_old io = Some f /\ forall n c, 0 <= n ->
    if Z.of_nat (length (old_stream c)) <? n then exists c', f n c = (None, c') /\ written c' = written c
    else exists c', f n c = (Some (take (Z.to_nat n) (old_stream c)), c') /\ written c' = written c;
  writes_new : exists f, write_new io = Some f /\ forall bs c, exists c', f bs c = (true, c') /\ written c' = written c ++ bs }.

Section applying.
Context {C : Type} (io : delta_io_t C) `{!DeltaIo io}.
Implicit Types w : device C.

Lemma call_write_Done buf from len w :
  0 <= from -> 0 <= len -> from + len <= Z.of_nat (length buf) ->
  exists w', call_write io buf from len w = Done (true, w') /\ mem w' = mem w /\ written (io_ctx w') = written (io_ctx w) ++ take (Z.to_nat len) (drop (Z.to_nat from) buf).
Proof.
  intros Hf Hl Hb. destruct writes_new as (f & Ef & Hw). unfold call_write. rewrite Ef, (proj2 (Z.ltb_ge _ _)) by lia.
  destruct (Hw (take (Z.to_nat len) (drop (Z.to_nat from) buf)) (io_ctx w)) as (c & -> & Hc). eexists. split; [reflexivity|]. done.
Qed.

Lemma op_int_Done k ops i x tl w :
  0 <= i -> 0 <= x < 256 ^ Z.of_nat k -> drop (Z.to_nat i) ops = le_bytes k x ++ tl -> op_int k ops i w = Done (x, w).
Proof.
  intros Hi Hx E. unfold op_int. rewrite E, take_app_le by (by rewrite length_le_bytes). rewrite take_ge by (by rewrite length_le_bytes).
  by rewrite length_le_bytes, Nat.ltb_irrefl, le_val_bytes.
Qed.

Lemma drop_Z {A} (l a b : list A) i j : 0 <= i -> drop (Z.to_nat i) l = a ++ b -> j = i + Z.of_nat (length a) -> drop (Z.to_nat j) l = b.
Proof. intros Hi E ->. rewrite Z2Nat.inj_add, Nat2Z.id by lia. rewrite <- drop_drop, E. apply drop_app_length. Qed.

Lemma drop_bound {A} (l a : list A) i : 0 <= i -> drop (Z.to_nat i) l = a -> a <> [] -> i + Z.of_nat (length a) = Z.of_nat (length l).
Proof. intros Hi <- Hne. rewrite length_drop. assert (length (drop (Z.to_nat i) l) <> 0%nat) as H by (by intros ?%length_zero_iff_nil). rewrite length_drop in H. lia. Qed.

Lemma opcode_Done ops i (op : Z) tl w : 0 <= i -> drop (Z.to_nat i) ops = op :: tl -> at_index ops i w = Done (op, w) /\ i < Z.of_nat (length ops).
Proof.
  intros Hi E. pose proof (drop_bound ops _ i Hi E ltac:(done)) as Hb. cbn [length] in Hb. split; [|lia].
  unfold at_index. rewrite (proj2 (Z.ltb_ge i 0)) by lia. replace (Z.to_nat i) with (Z.to_nat i + 0)%nat by lia. rewrite <- lookup_drop, E. done.
Qed.

Lemma apply_ins fuel ops old i x tl w :
  0 <= i -> ins_ok old x -> drop (Z.to_nat i) ops = ins_bytes x ++ tl ->
  exists w', apply_loop io (S fuel) ops old (Z.of_nat (length old)) i w = apply_loop io fuel ops old (Z.of_nat (length old)) (i + Z.of_nat (length (ins_bytes x))) w' /\
    mem w' = mem w /\ written (io_ctx w') = written (io_ctx w) ++ ins_output old x.
Proof.
  intros Hi Hok E. cbn [apply_loop]. destruct x as [bs|len pos]; cbn [ins_bytes ins_ok ins_output] in *.
  - destruct (opcode_Done ops i DELTA_OP_ADD _ w Hi E) as [Eo Hl]. rewrite (proj2 (Z.leb_gt _ _)) by lia. rewrite (bind_step _ _ _ _ _ Eo). cbn [Z.eqb DELTA_OP_ADD].
    assert (drop (Z.to_nat (i + 1)) ops = le_bytes 2 (Z.of_nat (length bs)) ++ (bs ++ tl)) as E1.
    { apply (drop_Z ops [DELTA_OP_ADD] _ i); [lia| |done]. by rewrite E, <- !app_assoc. }
    rewrite (bind_step _ _ _ _ _ (op_int_Done 2 ops (i + 1) (Z.of_nat (length bs)) _ w ltac:(lia) ltac:(change (256 ^ Z.of_nat 2) with 65536; lia) E1)).
    assert (drop (Z.to_nat (i + 1 + 2)) ops = bs ++ tl) as E2 by (apply (drop_Z ops _ _ (i + 1) _ ltac:(lia) E1); by rewrite length_le_bytes).
    assert (i + 1 + 2 + Z.of_nat (length bs) <= Z.of_nat (length ops)) as Hb.
    { apply (f_equal length) in E. rewrite length_drop, !length_app, length_le_bytes in E. cbn [length] in E. lia. }
    destruct (call_write_Done ops (i + 1 + 2) (Z.of_nat (length bs)) w ltac:(lia) ltac:(lia) Hb) as (w' & Ew & Hm & Hw). rewrite (bind_step _ _ _ _ _ Ew). cbn [negb].
    exists w'. rewrite E2, Nat2Z.id, take_app_length in Hw. split; [|done]. f_equal. rewrite !length_app, length_le_bytes. cbn [length]. lia.
  - destruct (opcode_Done ops i DELTA_OP_COPY _ w Hi E) as [Eo Hl]. rewrite (proj2 (Z.leb_gt _ _)) by lia. rewrite (bind_step _ _ _ _ _ Eo). cbn [Z.eqb DELTA_OP_ADD DELTA_OP_COPY Pos.eqb].
    assert (drop (Z.to_nat (i + 1)) ops = le_bytes 2 len ++ (le_bytes 4 pos ++ tl)) as E1.
    { apply (drop_Z ops [DELTA_OP_COPY] _ i); [lia| |done]. by rewrite E, <- !app_assoc. }
    rewrite (bind_step _ _ _ _ _ (op_int_Done 2 ops (i + 1) len _ w ltac:(lia) ltac:(change (256 ^ Z.of_nat 2) with 65536; lia) E1)).
    assert (drop (Z.to_nat (i + 1 + 2)) ops = le_bytes 4 pos ++ tl) as E2 by (apply (drop_Z ops _ _ (i + 1) _ ltac:(lia) E1); by rewrite length_le_bytes).
    rewrite (bind_step _ _ _ _ _ (op_int_Done 4 ops (i + 1 + 2) pos _ w ltac:(lia) ltac:(change (256 ^ Z.of_nat 4) with 4294967296; lia) E2)).
    rewrite u32_small, (proj2 (Z.ltb_ge _ _)) by lia.
    destruct (call_write_Done old pos len w ltac:(lia) ltac:(lia) ltac:(lia)) as (w' & Ew & Hm & Hw). rewrite (bind_step _ _ _ _ _ Ew). cbn [negb].
    exists w'. split; [|done]. f_equal. rewrite !length_app, !length_le_bytes. cbn [length]. lia.
Qed.

(** A prefix of well-formed instructions, whatever follows. *)
Lemma apply_prefix fuel ops old i xs tl w :
  0 <= i -> Forall (ins_ok old) xs -> drop (Z.to_nat i) ops = patch_bytes xs ++ tl ->
  exists w', apply_loop io (length xs + fuel) ops old (Z.of_nat (length old)) i w =
      apply_loop io fuel ops old (Z.of_nat (length old)) (i + Z.of_nat (length (patch_bytes xs))) w' /\
    mem w' = mem w /\ written (io_ctx w') = written (io_ctx w) ++ patch_output old xs.
Proof.
  revert i w. induction xs as [|x xs IH]; intros i w Hi Hok E.
  - exists w. unfold patch_bytes, patch_output. cbn. by rewrite Z.add_0_r, app_nil_r.
  - apply Forall_cons in Hok as [Hx Hok]. unfold patch_bytes in E. cbn [fmap list_fmap concat] in E. rewrite <- app_assoc in E. fold (patch_bytes xs) in E.
    destruct (apply_ins (length xs + fuel) ops old i x _ w Hi Hx E) as (w1 & E1 & Hm1 & Hw1).
    destruct (IH (i + Z.of_nat (length (ins_bytes x))) w1) as (w2 & E2 & Hm2 & Hw2); [lia|done|by apply (drop_Z ops _ _ i _ Hi E)|].
    exists w2. cbn [length Nat.add]. rewrite E1, E2. unfold patch_bytes, patch_output in *. cbn [fmap list_fmap concat].
    split; [f_equal; rewrite length_app; lia|]. rewrite Hw2, Hw1, app_assoc. split; [congruence|done].
Qed.
End applying.

(** ** The header *)

Definition header_ok (h : delta_patch_header_t) : Prop :=
  (0 <= d_magic h < 4294967296 /\ 0 <= d_version h < 65536 /\ 0 <= d_header_size h < 65536 /\ 0 <= old_file_size h < 4294967296 /\
   0 <= new_file_size h < 4294967296 /\ 0 <= patch_data_size h < 4294967296 /\ 0 <= compressed_size h < 4294967296 /\
   0 <= chunk_count h < 4294967296 /\ 0 <= d_flags h < 4294967296) /\
  length (old_file_hash h) = 32%nat /\ length (new_file_hash h) = 32%nat /\ length (patch_hash h) = 32%nat /\
  length (d_signature h) = 72%nat /\ length (d_reserved h) = 32%nat.

Definition patch_fields (h : delta_patch_header_t) : list (list Z) :=
  [le_bytes 4 (d_magic h); le_bytes 2 (d_version h); le_bytes 2 (d_header_size h); le_bytes 4 (old_file_size h);
    le_bytes 4 (new_file_size h); le_bytes 4 (patch_data_size h); le_bytes 4 (compressed_size h); le_bytes 4 (chunk_count h);
    old_file_hash h; new_file_hash h; patch_hash h; d_signature h; le_bytes 4 (d_flags h); d_reserved h].

Lemma patch_fields_lengths h : header_ok h -> length <$> patch_fields h = delta_header_layout.
Proof. intros (_ & E1 & E2 & E3 & E4 & E5). cbn [patch_fields fmap list_fmap]. by rewrite !length_le_bytes, E1, E2, E3, E4, E5. Qed.

Lemma decode_encode_patch_header h : header_ok h -> decode_patch_header (encode_patch_header h) = h.
Proof.
  intros H. unfold decode_patch_header. change (encode_patch_header h) with (concat (patch_fields h)).
  rewrite <- (patch_fields_lengths h H), split_fields_concat. destruct H as ((?&?&?&?&?&?&?&?&?) & _).
  cbn [patch_fields lookup_total list_lookup_total].
  rewrite !le_val_bytes by (change (256 ^ Z.of_nat 2) with 65536; change (256 ^ Z.of_nat 4) with 4294967296; done). by destruct h.
Qed.

Lemma length_patch_header h : header_ok h -> length (encode_patch_header h) = sizeof_patch_header.
Proof. intros H. change (encode_patch_header h) with (concat (patch_fields h)). by rewrite length_concat_sum, (patch_fields_lengths h H). Qed.

Lemma patch_header_ok a b c d : 0 <= d < 4294967296 -> header_ok (patch_header a b c d).
Proof.
  intros Hd. pose proof (u32_range a). pose proof (u32_range b). pose proof (u32_range c).
  unfold patch_header, header_ok. cbn -[Z.lt Z.le replicate u32 Z.of_nat]. rewrite !length_replicate. change (Z.of_nat sizeof_patch_header) with 232. split_and!; lia.
Qed.

(** ** Creating a patch *)

Section creating.
Context (old new : list Z) (Hold : 0 < Z.of_nat (length old) <= 1073741824) (Hnew : Z.of_nat (length new) <= 1073741824).
Context (alloc : option (Z -> M libc Z)) (Halloc : forall f, alloc = Some f -> forall size m, f size m = malloc size m).

Lemma get_block_Done size m :
  roomy m -> exists m', get_block alloc size m = Done (next_block m, m') /\ roomy m' /\ live m' = {[ next_block m ]} ∪ live m /\ next_block m < next_block m'.
Proof. intros Hm. unfold get_block. destruct alloc as [f|] eqn:E; [rewrite (Halloc f eq_refl)|]; by apply malloc_Done. Qed.

(** The three blocks of a suffix array are live and distinct. *)
Definition owns (s : Z) (x : delta_suffix_array_t) (m : libc) (rest : gset Z) : Prop :=
  live m = {[ s; sa_ptr x; rank_ptr x ]} ∪ rest /\ s <> sa_ptr x /\ s <> rank_ptr x /\ sa_ptr x <> rank_ptr x /\
  s ∉ rest /\ sa_ptr x ∉ rest /\ rank_ptr x ∉ rest /\ 0 < s /\ 0 < sa_ptr x /\ 0 < rank_ptr x /\ sa_tmp x = Some NULL.

Lemma build_Done m :
  roomy m -> exists s x m', delta_sa_build alloc (Some old) m = Done (Some (s, x), m') /\ roomy m' /\ owns s x m' (live m) /\
    positions (Z.of_nat (length old)) (sa x) /\ sa_length x = Z.of_nat (length old).
Proof.
  intros Hm. pose proof Hm as (_ & Hn0 & Hl). assert (exists a l, old = a :: l) as (a & l & Eo) by (destruct old; [cbn in Hold; lia|eauto]).
  assert (s32 (Z.of_nat (length old)) = Z.of_nat (length old)) as Es by (unfold s32; rewrite u32_small; lia).
  replace (delta_sa_build alloc (Some old)) with (delta_sa_build alloc (Some (a :: l))) by (by rewrite Eo). unfold delta_sa_build. rewrite <- Eo, Es. set (n := Z.of_nat (length old)) in *.
  destruct (get_block_Done 32 m Hm) as (m1 & E1 & Hm1 & L1 & N1). rewrite (bind_step _ _ _ _ _ E1), (proj2 (Z.eqb_neq _ NULL)) by (unfold NULL; lia).
  destruct (get_block_Done (u64 (n * 4)) m1 Hm1) as (m2 & E2 & Hm2 & L2 & N2). rewrite (bind_step _ _ _ _ _ E2).
  destruct (get_block_Done (u64 (n * 4)) m2 Hm2) as (m3 & E3 & Hm3 & L3 & N3). rewrite (bind_step _ _ _ _ _ E3).
  rewrite !(proj2 (Z.eqb_neq _ NULL)) by (unfold NULL; lia). cbn [orb].
  destruct (sort_Done old n eq_refl Hold m3 Hm3) as (sa & rank & m4 & E4 & Hs & Hm4 & L4 & N4). rewrite (bind_step _ _ _ _ _ E4).
  eexists _, _, m4. split; [reflexivity|]. split; [done|]. split; [|done]. unfold owns. cbn [sa_ptr rank_ptr sa_tmp].
  assert (forall p, next_block m <= p -> p ∉ live m) as Hfresh by (intros p Hp H; specialize (Hl p H); lia).
  split; [rewrite L4, L3, L2, L1; set_solver|]. split_and!; try lia; try (apply Hfresh; lia). done.
Qed.

Lemma sa_free_Done s x m rest free_fn :
  roomy m -> owns s x m rest -> (free_fn = None \/ free_fn = Some free) ->
  exists m', delta_sa_free s x free_fn m = Done (tt, m') /\ roomy m' /\ live m' = rest.
Proof.
  intros Hm (Hl & H1 & H2 & H3 & H4 & H5 & H6 & H7 & H8 & H9 & Ht) Hff. unfold delta_sa_free. rewrite (proj2 (Z.eqb_neq s NULL)) by (unfold NULL; lia).
  assert (match free_fn with Some f => f | None => free end = free) as Ef by (by destruct Hff as [->| ->]).
  rewrite (bind_step _ _ _ tt m) by (unfold touch; rewrite decide_True by (rewrite Hl; set_solver); done).
  unfold truthy. rewrite !(proj2 (Z.eqb_neq _ 0)) by lia. cbn [negb when]. rewrite Ef.
  destruct (free_Done (sa_ptr x) m Hm) as (m1 & E1 & Hm1 & L1 & _); [rewrite Hl; set_solver|]. rewrite (bind_step _ _ _ _ _ E1).
  destruct (free_Done (rank_ptr x) m1 Hm1) as (m2 & E2 & Hm2 & L2 & _); [rewrite L1, Hl; set_solver|]. rewrite (bind_step _ _ _ _ _ E2), Ht.
  change (negb (NULL =? 0)) with false. cbn [when]. rewrite bind_ret.
  destruct (free_Done s m2 Hm2) as (m3 & E3 & Hm3 & L3 & _); [rewrite L2, L1, Hl; set_solver|]. exists m3. split; [exact E3|]. split; [done|].
  rewrite L3, L2, L1, Hl. set_solver.
Qed.

(** Up to the release of the suffix array both allocators give the same. *)
Lemma create_start m :
  roomy m -> exists s x buf xs copies m1, roomy m1 /\ owns s x m1 ({[ buf ]} ∪ live m) /\ buf ∉ live m /\ Forall (ins_ok old) xs /\ patch_output old xs = new /\
    0 <= copies < 4294967296 /\
    Z.of_nat (length (patch_bytes xs)) <= room (Z.of_nat (length new)) /\
    let ops := patch_bytes xs ++ [DELTA_OP_SEEK] in
    delta_create_patch alloc (Some old) (Some new) m =
      (delta_sa_free s x (chosen_free alloc);;
       match alloc with Some _ => mret tt | None => touch s;; free (sa_ptr x);; free (rank_ptr x);; free s end;;
       mret (DELTA_RESULT_OK, Some (buf, encode_patch_header (patch_header (Z.of_nat (length old)) (Z.of_nat (length new)) (Z.of_nat (length ops)) copies) ++ ops))) m1.
Proof.
  intros Hm. destruct (build_Done m Hm) as (s & x & m1 & E1 & Hm1 & Ho & Hs & Hlen). unfold delta_create_patch. rewrite (bind_step _ _ _ _ _ E1).
  set (nn := Z.of_nat (length new)) in *. assert (0 <= nn / 4 <= 268435456) as Hq by (Z.div_mod_to_equations; lia).
  set (size := u64 _). destruct (get_block_Done size m1 Hm1) as (m2 & E2 & Hm2 & L2 & N2). rewrite (bind_step _ _ _ _ _ E2).
  pose proof Hm1 as (_ & Hn1 & Hl1). rewrite (proj2 (Z.eqb_neq _ NULL)) by (unfold NULL; lia).
  assert (size = 232 + (nn / 4 + 256) * 12 + nn) as Hsize.
  { unfold size. rewrite (u32_small (nn / 4 + 256)) by lia. rewrite u32_small by lia. change (Z.of_nat sizeof_patch_header) with 232. apply u64_small. lia. }
  change (Z.of_nat sizeof_patch_header) with 232. rewrite (proj2 (Z.ltb_ge _ _)) by lia.
  destruct (encode_loop_Done x old (Z.of_nat (length old)) eq_refl Hold Hlen Hs (S (length new)) new (size - 232) [] 0 m2) as (xs & copies & Hcp & E3 & Hok & Hout & Hsz).
  { lia. } { cbn [length]. unfold room. fold nn. rewrite Hsize. Z.div_mod_to_equations. lia. } { lia. }
  rewrite (bind_step _ _ _ _ _ E3). cbn [app].
  rewrite (bind_step _ _ _ _ _ (emit_Done (size - 232) (patch_bytes xs) [DELTA_OP_SEEK] m2 ltac:(rewrite Hsize; fold nn in Hsz; unfold room in Hsz; cbn [length]; Z.div_mod_to_equations; lia))).
  assert (next_block m1 ∉ live m1) as Hfr by (intros H; specialize (Hl1 _ H); lia).
  destruct Ho as (Hl & H1 & H2 & H3 & H4 & H5 & H6 & H7 & H8 & H9 & Ht).
  exists s, x, (next_block m1), xs, copies, m2. split; [done|]. split.
  { assert (s <> next_block m1 /\ sa_ptr x <> next_block m1 /\ rank_ptr x <> next_block m1) as (? & ? & ?) by (split_and!; intros Eq; rewrite <- Eq in Hfr; apply Hfr; rewrite Hl; set_solver).
    split; [rewrite L2, Hl; set_solver|]. split_and!; try done; set_solver. }
  split; [intros H; apply Hfr; rewrite Hl; set_solver|]. split; [done|]. split; [done|].
  split; [done|]. split; [done|]. done.
Qed.

Lemma create_with_allocator m f :
  roomy m -> alloc = Some f -> exists buf xs copies m', Forall (ins_ok old) xs /\ patch_output old xs = new /\ 0 <= copies < 4294967296 /\
    Z.of_nat (length (patch_bytes xs)) <= room (Z.of_nat (length new)) /\ live m' = {[ buf ]} ∪ live m /\
    let ops := patch_bytes xs ++ [DELTA_OP_SEEK] in
    delta_create_patch alloc (Some old) (Some new) m =
      Done ((DELTA_RESULT_OK, Some (buf, encode_patch_header (patch_header (Z.of_nat (length old)) (Z.of_nat (length new)) (Z.of_nat (length ops)) copies) ++ ops)), m').
Proof.
  intros Hm Ea. destruct (create_start m Hm) as (s & x & buf & xs & copies & m1 & Hm1 & Ho & Hb & Hok & Hout & Hcp & Hsz & E).
  destruct (sa_free_Done s x m1 _ (chosen_free alloc) Hm1 Ho) as (m2 & E2 & _ & L2); [rewrite Ea; by left|].
  exists buf, xs, copies, m2. do 5 (split; [done|]). intros ops. rewrite E, (bind_step _ _ _ _ _ E2), Ea. done.
Qed.

Lemma create_without_allocator m : roomy m -> alloc = None -> delta_create_patch alloc (Some old) (Some new) m = UB.
Proof.
  intros Hm Ea. destruct (create_start m Hm) as (s & x & buf & xs & copies & m1 & Hm1 & Ho & Hb & Hok & Hout & Hcp & Hsz & E).
  destruct (sa_free_Done s x m1 _ (chosen_free alloc) Hm1 Ho) as (m2 & E2 & _ & L2); [rewrite Ea; by right|].
  rewrite E, (bind_step _ _ _ _ _ E2), Ea. destruct Ho as (_ & _ & _ & _ & H4 & _). unfold mbind, M_bind, touch. by rewrite decide_False by (by rewrite L2).
Qed.
End creating.

(** ** Applying a whole patch *)

Section whole.
Context {C : Type} (io : delta_io_t C) `{!DeltaIo io}.

Lemma read_patch_Done n (w : device C) a b :
  patch_stream (io_ctx w) = a ++ b -> Z.of_nat (length a) = n ->
  exists c, call_read (read_patch io) n w = Done (Some a, Device (mem w) c) /\ patch_stream c = b /\ old_stream c = old_stream (io_ctx w) /\ written c = written (io_ctx w).
Proof.
  intros Ep Hn. destruct reads_patch as (f & Ef & Hf). specialize (Hf n (io_ctx w) ltac:(lia)). rewrite Ep, length_app in Hf.
  rewrite (proj2 (Z.ltb_ge _ _)) in Hf by lia. destruct Hf as (c & E & H1 & H2 & H3). exists c. unfold call_read. rewrite Ef, E.
  assert (take (Z.to_nat n) (a ++ b) = a) as Et by (rewrite <- Hn, Nat2Z.id; apply take_app_length).
  assert (drop (Z.to_nat n) (a ++ b) = b) as Ed by (rewrite <- Hn, Nat2Z.id; apply drop_app_length).
  rewrite Et, Hn, Z.ltb_irrefl, take_ge by lia. by rewrite Ed in H1.
Qed.

Lemma read_old_Done n (w : device C) a b :
  old_stream (io_ctx w) = a ++ b -> Z.of_nat (length a) = n ->
  exists c, call_read (read_old io) n w = Done (Some a, Device (mem w) c) /\ written c = written (io_ctx w).
Proof.
  intros Ep Hn. destruct reads_old as (f & Ef & Hf). specialize (Hf n (io_ctx w) ltac:(lia)). rewrite Ep, length_app in Hf.
  rewrite (proj2 (Z.ltb_ge _ _)) in Hf by lia. destruct Hf as (c & E & H3). exists c. unfold call_read. rewrite Ef, E.
  assert (take (Z.to_nat n) (a ++ b) = a) as Et by (rewrite <- Hn, Nat2Z.id; apply take_app_length).
  rewrite Et, Hn, Z.ltb_irrefl, take_ge by lia. done.
Qed.

(** A header that describes the instruction bytes [ops] and the old file [old]. *)
Definition describes (h : delta_patch_header_t) (ops old : list Z) : Prop :=
  header_ok h /\ d_magic h = 0x42534446 /\ d_version h = 1 /\ patch_data_size h = Z.of_nat (length ops) /\ old_file_size h = Z.of_nat (length old).

(** With memory and complete streams, the application is the instruction loop, and every block is given back. *)
Lemma apply_start h ops old rest rest' crypto (w : device C) :
  roomy (mem w) -> describes h ops old -> patch_stream (io_ctx w) = encode_patch_header h ++ ops ++ rest -> old_stream (io_ctx w) = old ++ rest' ->
  exists w1, written (io_ctx w1) = written (io_ctx w) /\
    (forall r w2, mem w2 = mem w1 ->
      apply_loop io (S (length ops)) ops old (Z.of_nat (length old)) 0 w1 = Done (r, w2) ->
      exists w3, delta_apply_patch (Some io) crypto w = Done (r, w3) /\ live (mem w3) = live (mem w) /\ io_ctx w3 = io_ctx w2) /\
    (apply_loop io (S (length ops)) ops old (Z.of_nat (length old)) 0 w1 = UB -> delta_apply_patch (Some io) crypto w = UB).
Proof.
  intros Hm (Hh & Hmag & Hver & Hsz & Hosz) Hp Ho. pose proof (length_patch_header h Hh) as Lh.
  destruct (read_patch_Done (Z.of_nat sizeof_patch_header) w _ _ Hp ltac:(by rewrite Lh)) as (c1 & E1 & P1 & O1 & W1).
  set (w1 := Device (mem w) c1). destruct (malloc_Done (patch_data_size h) (mem w) Hm) as (m2 & E2 & Hm2 & L2 & N2).
  set (p := next_block (mem w)) in *. set (w2 := Device m2 c1). destruct (read_patch_Done (patch_data_size h) w2 _ _ P1 ltac:(by rewrite Hsz)) as (c3 & E3 & _ & O3 & W3).
  destruct (malloc_Done (old_file_size h) m2 Hm2) as (m4 & E4 & Hm4 & L4 & N4). set (q := next_block m2) in *. set (w4 := Device m4 c3).
  destruct (read_old_Done (old_file_size h) w4 old rest' ltac:(cbn; rewrite O3; cbn; rewrite O1; exact Ho) ltac:(by rewrite Hosz)) as (c5 & E5 & W5).
  exists (Device m4 c5). split; [cbn; rewrite W5; cbn; rewrite W3; exact W1|].
  pose proof Hm as (_ & Hp0 & Hfr). pose proof Hm2 as (_ & _ & Hfr2).
  assert (delta_apply_patch (Some io) crypto w = (res ← apply_loop io (S (length ops)) ops old (Z.of_nat (length old)) 0; on_mem (free p);; on_mem (free q);;
    mret (if bool_decide (res = DELTA_RESULT_OK) && crypto then delta_verify_patch true crypto else res)) (Device m4 c5)) as Estart.
  { unfold delta_apply_patch. rewrite (bind_step _ _ _ _ _ E1). rewrite (decode_encode_patch_header h Hh), Hmag, Hver. cbn [Z.eqb Pos.eqb negb].
    change (Device (mem w) c1) with w1.
    rewrite (bind_step _ _ w1 p w2) by (unfold on_mem, zoom; cbn [mem w1]; by rewrite E2). rewrite (proj2 (Z.eqb_neq p NULL)) by (unfold NULL; lia).
    rewrite (bind_step _ _ _ _ _ E3). change (Device (mem w2) c3) with (Device m2 c3).
    rewrite (bind_step _ _ (Device m2 c3) q w4) by (unfold on_mem, zoom; cbn [mem]; by rewrite E4). rewrite (proj2 (Z.eqb_neq q NULL)) by (unfold NULL; lia).
    by rewrite (bind_step _ _ _ _ _ E5), Hosz. }
  rewrite Estart. split; [|intros E6; unfold mbind, M_bind; by rewrite E6].
  intros r w6 Hmem E6.
  destruct (free_Done p (mem w6)) as (m7 & E7 & Hm7 & L7 & _); [by rewrite Hmem|rewrite Hmem; cbn; rewrite L4, L2; set_solver|].
  destruct (free_Done q m7 Hm7) as (m8 & E8 & _ & L8 & _); [rewrite L7, Hmem; cbn; rewrite L4, L2; subst p q; assert (next_block m2 <> next_block (mem w)) by lia; set_solver|].
  exists (Device m8 (io_ctx w6)). split; [|split; [|done]].
  - rewrite (bind_step _ _ _ _ _ E6).
    rewrite (bind_step _ _ w6 tt (Device m7 (io_ctx w6))) by (unfold on_mem, zoom; by rewrite E7).
    rewrite (bind_step _ _ _ tt (Device m8 (io_ctx w6))) by (unfold on_mem, zoom; cbn [mem]; by rewrite E8).
    destruct (bool_decide (r = DELTA_RESULT_OK)) eqn:Er; [|done]. apply bool_decide_eq_true in Er. subst r. by destruct crypto.
  - cbn [mem]. rewrite L8, L7, Hmem. cbn [mem]. rewrite L4, L2. fold p.
    assert (p ∉ live (mem w)) by (intros Hx; specialize (Hfr _ Hx); lia).
    assert (q ∉ live (mem w)) by (intros Hx; specialize (Hfr _ Hx); lia). set_solver.
Qed.
End whole.

(** C8: whatever the old and the new file (of at most 2^30 bytes, the old one not empty), with an allocator that
    behaves like [malloc] and does not refuse, patch creation succeeds, leaves only the patch buffer allocated, and applying
    the patch to the old file, with or without a [crypto] argument, writes exactly the new file and frees what it
    allocated.  The suffix array need not be sorted for this: any permutation of the positions would do. *)
Theorem delta_roundtrip {C} (io : delta_io_t C) `{!DeltaIo io} (alloc : Z -> M libc Z) m old new :
  (forall size m, alloc size m = malloc size m) -> roomy m ->
  0 < Z.of_nat (length old) <= 1073741824 -> Z.of_nat (length new) <= 1073741824 ->
  exists buf patch m', delta_create_patch (Some alloc) (Some old) (Some new) m = Done ((DELTA_RESULT_OK, Some (buf, patch)), m') /\
    live m' = {[ buf ]} ∪ live m /\
    forall crypto (w : device C) rest rest', roomy (mem w) -> patch_stream (io_ctx w) = patch ++ rest -> old_stream (io_ctx w) = old ++ rest' ->
      exists w', delta_apply_patch (Some io) crypto w = Done (DELTA_RESULT_OK, w') /\
        written (io_ctx w') = written (io_ctx w) ++ new /\ live (mem w') = live (mem w).
Proof.
  intros Ha Hm Ho Hn.
  destruct (create_with_allocator old new Ho Hn (Some alloc) ltac:(by intros f [= <-]) m alloc Hm eq_refl) as (buf & xs & copies & m' & Hok & Hout & Hcp & Hsz & L & E).
  set (ops := patch_bytes xs ++ [DELTA_OP_SEEK]) in *. cbv zeta in E. eexists buf, _, m'. split; [exact E|]. split; [done|].
  intros crypto w rest rest' Hmw Hp Hold. set (h := patch_header _ _ _ _) in *.
  assert (Z.of_nat (length ops) < 4294967296) as Hlo.
  { unfold ops. rewrite length_app. cbn [length]. unfold room in Hsz. Z.div_mod_to_equations. lia. }
  assert (describes h ops old) as Hd.
  { split; [by apply patch_header_ok|]. unfold h, patch_header. cbn [d_magic d_version patch_data_size old_file_size]. rewrite !u32_small by lia. done. }
  destruct (apply_start io h ops old rest rest' crypto w Hmw Hd ltac:(by rewrite Hp, <- app_assoc) Hold) as (w1 & W1 & H & _).
  destruct (apply_prefix io (S (length ops) - length xs) ops old 0 xs [DELTA_OP_SEEK] w1) as (w2 & E2 & M2 & W2); [lia|done|done|].
  assert (length xs <= length (patch_bytes xs))%nat as Hlx.
  { clear. unfold patch_bytes. induction xs as [|y xs IH]; cbn; [lia|]. rewrite length_app. destruct y; cbn; lia. }
  assert (length ops = S (length (patch_bytes xs))) as Hl by (unfold ops; rewrite length_app; cbn; lia).
  replace (length xs + (S (length ops) - length xs))%nat with (S (length ops)) in E2 by lia.
  destruct (S (length ops) - length xs)%nat as [|fuel] eqn:Ef; [lia|].
  destruct (H DELTA_RESULT_OK w2 M2) as (w3 & E3 & L3 & C3).
  - rewrite E2. cbn [apply_loop]. rewrite (proj2 (Z.leb_gt _ _)) by lia.
    destruct (opcode_Done ops (0 + Z.of_nat (length (patch_bytes xs))) DELTA_OP_SEEK [] w2 ltac:(lia)) as [Eo _].
    { rewrite Z.add_0_l, Nat2Z.id. apply drop_app_length. }
    by rewrite (bind_step _ _ _ _ _ Eo).
  - exists w3. split; [exact E3|]. rewrite C3, W2, W1, Hout. done.
Qed.

(** Without an allocator of its own the caller cannot create any patch: the suffix array's blocks are freed and
    then freed again through the freed structure, for all files and whenever the memory suffices. *)
Theorem create_patch_frees_twice m old new :
  roomy m -> 0 < Z.of_nat (length old) <= 1073741824 -> Z.of_nat (length new) <= 1073741824 ->
  delta_create_patch None (Some old) (Some new) m = UB.
Proof. intros Hm Ho Hn. by apply (create_without_allocator old new Ho Hn None). Qed.

Section rejecting.
Context {C : Type} (io : delta_io_t C) `{!DeltaIo io}.

(** The loop stopped by the bytes [bad] after the instructions [xs]. *)
Lemma apply_stop h old xs bad rest rest' crypto (w : device C) (res : outcome delta_result_t) :
  roomy (mem w) -> describes h (patch_bytes xs ++ bad) old -> bad <> [] ->
  patch_stream (io_ctx w) = encode_patch_header h ++ (patch_bytes xs ++ bad) ++ rest -> old_stream (io_ctx w) = old ++ rest' ->
  Forall (ins_ok old) xs ->
  (forall fuel w2, apply_loop io (S fuel) (patch_bytes xs ++ bad) old (Z.of_nat (length old)) (Z.of_nat (length (patch_bytes xs))) w2 =
     match res with Done r => Done (r, w2) | UB => UB | NoFuel => NoFuel end) ->
  match res with
  | Done r => exists w', delta_apply_patch (Some io) crypto w = Done (r, w') /\ written (io_ctx w') = written (io_ctx w) ++ patch_output old xs /\ live (mem w') = live (mem w)
  | UB => delta_apply_patch (Some io) crypto w = UB
  | NoFuel => True
  end.
Proof.
  intros Hm Hd Hbad Hp Ho Hok Hstop. set (ops := patch_bytes xs ++ bad) in *.
  destruct (apply_start io h ops old rest rest' crypto w Hm Hd Hp Ho) as (w1 & W1 & H & Hub).
  assert (length xs <= length (patch_bytes xs))%nat as Hlx.
  { clear. unfold patch_bytes. induction xs as [|y xs IH]; cbn; [lia|]. rewrite length_app. destruct y; cbn; lia. }
  assert (length (patch_bytes xs) < length ops)%nat as Hl by (unfold ops; rewrite length_app; destruct bad; [done|cbn; lia]).
  destruct (apply_prefix io (S (length ops) - length xs) ops old 0 xs bad w1) as (w2 & E2 & M2 & W2); [lia|done|done|].
  replace (length xs + (S (length ops) - length xs))%nat with (S (length ops)) in E2 by lia.
  destruct (S (length ops) - length xs)%nat as [|fuel] eqn:Ef; [lia|]. rewrite Z.add_0_l, Hstop in E2.
  destruct res as [r| |]; [|by apply Hub|done]. destruct (H r w2 M2 E2) as (w3 & E3 & L3 & C3). exists w3. split; [done|]. by rewrite C3, W2, W1.
Qed.

(** C16: damaged and malicious patches.  A stream shorter than the header is an I/O error, a header with another magic
    number or version is a corrupt patch, and nothing is written.  After any number of good instructions, whose
    output is written, an unknown operation or a COPY that ends beyond the old file below 2^32 is a corrupt patch, and the memory is given back.
    But a COPY whose end wraps around 2^32 passes the test and reads outside the old file, and an ADD that announces more bytes than the
    patch holds reads outside the patch: undefined behaviour under the control of whoever writes the patch. *)
Theorem apply_rejects crypto (w : device C) :
  (Z.of_nat (length (patch_stream (io_ctx w))) < 232 -> exists w', delta_apply_patch (Some io) crypto w = Done (DELTA_RESULT_ERR_IO, w') /\ written (io_ctx w') = written (io_ctx w)) /\
  (forall h rest, header_ok h -> patch_stream (io_ctx w) = encode_patch_header h ++ rest -> d_magic h <> 0x42534446 \/ d_version h <> 1 ->
     exists w', delta_apply_patch (Some io) crypto w = Done (DELTA_RESULT_ERR_PATCH_CORRUPT, w') /\ written (io_ctx w') = written (io_ctx w) /\ mem w' = mem w) /\
  (forall h old xs bad rest rest', roomy (mem w) -> describes h (patch_bytes xs ++ bad) old -> Forall (ins_ok old) xs ->
     patch_stream (io_ctx w) = encode_patch_header h ++ (patch_bytes xs ++ bad) ++ rest -> old_stream (io_ctx w) = old ++ rest' ->
     let corrupt := exists w', delta_apply_patch (Some io) crypto w = Done (DELTA_RESULT_ERR_PATCH_CORRUPT, w') /\
       written (io_ctx w') = written (io_ctx w) ++ patch_output old xs /\ live (mem w') = live (mem w) in
     (forall op tl, bad = op :: tl -> 2 < op -> corrupt) /\
     (forall len pos tl, bad = DELTA_OP_COPY :: le_bytes 2 len ++ le_bytes 4 pos ++ tl -> 0 <= len < 65536 -> 0 <= pos < 4294967296 ->
        (Z.of_nat (length old) < pos + len < 4294967296 -> corrupt) /\
        (4294967296 <= pos + len <= 4294967296 + Z.of_nat (length old) -> delta_apply_patch (Some io) crypto w = UB)) /\
     (forall len tl, bad = DELTA_OP_ADD :: le_bytes 2 len ++ tl -> Z.of_nat (length tl) < len < 65536 -> delta_apply_patch (Some io) crypto w = UB)).
Proof.
  split; [|split].
  - intros Hs. destruct reads_patch as (f & Ef & Hf). specialize (Hf 232 (io_ctx w) ltac:(lia)). rewrite (proj2 (Z.ltb_lt _ _)) in Hf by done.
    destruct Hf as (c & E & Hw). exists (Device (mem w) c). split; [|done]. unfold delta_apply_patch, call_read, mbind, M_bind. rewrite Ef.
    change (Z.of_nat sizeof_patch_header) with 232. by rewrite E.
  - intros h rest Hh Hp Hbad. destruct (read_patch_Done io (Z.of_nat sizeof_patch_header) w _ _ Hp ltac:(by rewrite length_patch_header)) as (c1 & E1 & P1 & O1 & W1).
    exists (Device (mem w) c1). split; [|done]. unfold delta_apply_patch. rewrite (bind_step _ _ _ _ _ E1), (decode_encode_patch_header h Hh).
    destruct (Z.eqb_spec (d_magic h) 0x42534446); cbn [negb]; [|done]. destruct (Z.eqb_spec (d_version h) 1); cbn [negb]; [|done]. tauto.
  - intros h old xs bad rest rest' Hm Hd Hok Hp Ho corrupt. set (n := Z.of_nat (length (patch_bytes xs))).
    assert (forall op tl, bad = op :: tl -> (forall w2, at_index (patch_bytes xs ++ bad) n w2 = Done (op, w2 : device C)) /\ (Z.of_nat (length (patch_bytes xs ++ bad)) <=? n) = false /\
      drop (Z.to_nat (n + 1)) (patch_bytes xs ++ bad) = tl) as Hop.
    { intros op tl Eb. assert (drop (Z.to_nat n) (patch_bytes xs ++ bad) = op :: tl) as Ed by (unfold n; rewrite Nat2Z.id, drop_app_length; exact Eb).
      split; [intros w2; exact (proj1 (opcode_Done _ n op tl w2 ltac:(lia) Ed))|]. split; [apply Z.leb_gt; unfold n; rewrite Eb, length_app; cbn; lia|].
      apply (drop_Z _ [op] tl n); [lia|done|done]. }
    split; [|split].
    + intros op tl Eb Hop2. destruct (Hop op tl Eb) as (H1 & H2 & _).
      apply (apply_stop h old xs bad rest rest' crypto w (Done DELTA_RESULT_ERR_PATCH_CORRUPT)); try done; [by rewrite Eb|].
      intros fuel w2. cbn [apply_loop]. fold n. rewrite H2, (bind_step _ _ _ _ _ (H1 w2)). unfold DELTA_OP_ADD, DELTA_OP_COPY, DELTA_OP_SEEK.
      by rewrite !(proj2 (Z.eqb_neq op _)) by lia.
    + intros len pos tl Eb Hlen Hpos. destruct (Hop _ _ Eb) as (H1 & H2 & H3).
      assert (forall fuel w2, apply_loop io (S fuel) (patch_bytes xs ++ bad) old (Z.of_nat (length old)) n w2 =
        (if Z.of_nat (length old) <? pos +32 len then mret DELTA_RESULT_ERR_PATCH_CORRUPT
         else ok ← call_write io old pos len; if negb (ok : bool) then mret DELTA_RESULT_ERR_PATCH_APPLY
              else apply_loop io fuel (patch_bytes xs ++ bad) old (Z.of_nat (length old)) (n + 1 + 2 + 4)) w2) as Hs.
      { intros fuel w2. cbn [apply_loop]. rewrite H2, (bind_step _ _ _ _ _ (H1 w2)). cbn [Z.eqb DELTA_OP_ADD DELTA_OP_COPY Pos.eqb].
        rewrite (bind_step _ _ _ _ _ (op_int_Done 2 _ (n + 1) len _ w2 ltac:(lia) ltac:(change (256 ^ Z.of_nat 2) with 65536; lia) H3)).
        assert (drop (Z.to_nat (n + 1 + 2)) (patch_bytes xs ++ bad) = le_bytes 4 pos ++ tl) as H4 by (apply (drop_Z _ _ _ (n + 1) _ ltac:(lia) H3); by rewrite length_le_bytes).
        by rewrite (bind_step _ _ _ _ _ (op_int_Done 4 _ (n + 1 + 2) pos _ w2 ltac:(lia) ltac:(change (256 ^ Z.of_nat 4) with 4294967296; lia) H4)). }
      split; intros Hend.
      * apply (apply_stop h old xs bad rest rest' crypto w (Done DELTA_RESULT_ERR_PATCH_CORRUPT)); try done; [by rewrite Eb|].
        intros fuel w2. fold n. by rewrite Hs, u32_small, (proj2 (Z.ltb_lt _ _)) by lia.
      * apply (apply_stop h old xs bad rest rest' crypto w UB); try done; [by rewrite Eb|].
        pose proof Hd as (((_ & _ & _ & Hos & _) & _) & _ & _ & _ & Eo).
        intros fuel w2. fold n. assert (pos +32 len = pos + len - 4294967296) as Eu.
        { unfold u32. rewrite <- (Z_mod_plus_full _ (-1)). apply Z.mod_small. lia. }
        rewrite Hs, Eu, (proj2 (Z.ltb_ge _ _)) by lia. unfold mbind, M_bind, call_write. destruct writes_new as (f & Ef & _).
        rewrite Ef, (proj2 (Z.ltb_lt _ _)); [done|]. lia.
    + intros len tl Eb Hlen. destruct (Hop _ _ Eb) as (H1 & H2 & H3).
      apply (apply_stop h old xs bad rest rest' crypto w UB); try done; [by rewrite Eb|]. intros fuel w2. fold n.
      cbn [apply_loop]. rewrite H2, (bind_step _ _ _ _ _ (H1 w2)). cbn [Z.eqb DELTA_OP_ADD].
      rewrite (bind_step _ _ _ _ _ (op_int_Done 2 _ (n + 1) len _ w2 ltac:(lia) ltac:(change (256 ^ Z.of_nat 2) with 65536; lia) H3)).
      unfold mbind, M_bind, call_write. destruct writes_new as (f & Ef & _). rewrite Ef, (proj2 (Z.ltb_lt _ _)); [done|].
      apply (f_equal length) in Eb. cbn [length] in Eb. rewrite length_app, length_le_bytes in Eb. unfold n. rewrite length_app. lia.
Qed.
End rejecting.

(** ** The run-length codec *)

(** Runs of a byte, given by byte and length. *)
Definition expand (rs : list (Z * nat)) : list Z := concat ((fun r => replicate r.2 r.1) <$> rs).
Definition packed (rs : list (Z * nat)) : list Z := concat ((fun r => [128 + Z.of_nat r.2; r.1]) <$> rs).
(** Neighbouring runs have different bytes. *)
Fixpoint separated (rs : list (Z * nat)) : Prop :=
  match rs with
  | r :: rs' => match rs' with r' :: _ => r.1 <> r'.1 | [] => True end /\ separated rs'
  | [] => True
  end.

Lemma out_byte_app pre x post v : out_byte (Z.of_nat (length pre)) v (pre ++ x :: post) = Done (tt, pre ++ u8 v :: post).
Proof.
  unfold out_byte. rewrite length_app. cbn [length]. rewrite (proj2 (Z.ltb_lt _ _)) by lia. rewrite Nat2Z.id.
  by rewrite insert_app_r_alt, Nat.sub_diag by lia.
Qed.

(** Bytes written one after the other. *)
Lemma out_byte_next pre x y post v oi : oi = Z.of_nat (length pre) + 1 -> out_byte oi v (pre ++ x :: y :: post) = Done (tt, pre ++ x :: u8 v :: post).
Proof.
  intros ->. pose proof (out_byte_app (pre ++ [x]) y post v) as H. rewrite length_app in H. cbn [length] in H.
  rewrite <- !app_assoc in H. cbn [app] in H. rewrite <- H. f_equal. lia.
Qed.

Lemma run_len_replicate v n rest k :
  k + Z.of_nat n <= 255 -> match rest with y :: _ => y <> v | [] => True end -> run_len v (replicate n v ++ rest) k = k + Z.of_nat n.
Proof.
  revert k. induction n as [|n IH]; intros k Hk Hr; cbn [replicate app run_len].
  - destruct rest as [|y rest]; cbn [run_len]; [lia|]. rewrite (proj2 (Z.eqb_neq v y)) by congruence. rewrite andb_false_r. lia.
  - rewrite (proj2 (Z.ltb_lt k 255)), Z.eqb_refl by lia. cbn [andb]. rewrite IH by (done || lia). lia.
Qed.

Definition run_ok (r : Z * nat) : Prop := is_u8 r.1 /\ (2 <= r.2 <= 127)%nat.

Lemma lor_run n : 0 <= n < 128 -> Z.lor 0x80 n = 128 + n.
Proof. intros Hn. pose proof (lor_shiftl_add 1 n 7 ltac:(lia) ltac:(change (2 ^ 7) with 128; lia)) as H. change (Z.shiftl 1 7) with 128 in H. change (2 ^ 7) with 128 in H. lia. Qed.

Lemma compress_runs fuel rs pre post lim :
  Forall run_ok rs -> separated rs -> (length rs < fuel)%nat -> (2 * length rs <= length post)%nat -> lim = Z.of_nat (length pre + length post) - 1 ->
  exists post', compress_loop fuel (expand rs) lim (Z.of_nat (length pre)) (pre ++ post) =
    Done (Z.of_nat (length pre + 2 * length rs), pre ++ packed rs ++ post') /\ post' = drop (2 * length rs) post.
Proof.
  revert pre post fuel. induction rs as [|[v n] rs IH]; intros pre post fuel Hok Hsep Hf Hl Hlim; (destruct fuel as [|fuel]; [cbn in Hf; lia|]); cbn [compress_loop].
  - exists post. unfold expand, packed. cbn. by rewrite Nat.add_0_r, drop_0.
  - apply Forall_cons in Hok as [[Hv Hn] Hok]. cbn [fst snd] in *. destruct Hsep as [Hne Hsep].
    unfold expand. cbn [fmap list_fmap concat fst snd]. fold (expand rs). cbn [length] in *.
    destruct post as [|p [|q post]]; [cbn in Hl; lia..|]. cbn [length] in *.
    assert (exists z l, replicate n v ++ expand rs = z :: l /\ z = v) as (z & l & El & ->) by (destruct n; [lia|]; cbn; eauto).
    rewrite El. rewrite (proj2 (Z.leb_gt _ _)) by lia. rewrite <- El.
    assert (match expand rs with y :: _ => y <> v | [] => True end) as Hhd.
    { destruct rs as [|[w k] rs]; [done|]. apply Forall_cons in Hok as [[_ Hk] _]. cbn [fst snd] in *. unfold expand. cbn. destruct k; [lia|cbn; congruence]. }
    rewrite run_len_replicate by (done || lia).
    rewrite Z.add_0_l, (proj2 (Z.ltb_lt 1 _)) by lia. rewrite (bind_step _ _ _ _ _ (out_byte_app pre p (q :: post) _)), lor_run by lia. rewrite u8_small by lia.
    rewrite (bind_step _ _ _ _ _ (out_byte_next pre (128 + Z.of_nat n) q post v _ eq_refl)), u8_small by done.
    replace (Z.to_nat (Z.of_nat n)) with (length (replicate n v)) by (rewrite length_replicate; lia). rewrite drop_app_length.
    destruct (IH (pre ++ [128 + Z.of_nat n; v]) post fuel) as (post' & E & ->); [done|done|lia|lia|rewrite length_app; cbn; lia|].
    rewrite length_app in E. cbn [length] in E. rewrite <- !app_assoc in E. cbn [app] in E. exists (drop (2 * length rs) post).
    replace (Z.of_nat (length pre) + 2) with (Z.of_nat (length pre + 2)) by lia. rewrite E. split; [|by replace (2 * S (length rs))%nat with (S (S (2 * length rs))) by lia].
    unfold packed. cbn [fmap list_fmap concat fst snd app]. do 2 f_equal. lia.
Qed.

Lemma fill_run_Done cnt v lim pre mid post :
  length mid = cnt -> Z.of_nat (length pre + cnt) <= lim ->
  fill_run cnt v lim (Z.of_nat (length pre)) (pre ++ mid ++ post) = Done (Z.of_nat (length pre + cnt), pre ++ replicate cnt (u8 v) ++ post).
Proof.
  revert pre mid. induction cnt as [|cnt IH]; intros pre mid Hm Hl; cbn [fill_run].
  - apply length_zero_iff_nil in Hm as ->. cbn. by rewrite Nat.add_0_r.
  - destruct mid as [|x mid]; [done|]. injection Hm as Hm. rewrite (proj2 (Z.leb_gt _ _)) by lia. cbn [app].
    rewrite (bind_step _ _ _ _ _ (out_byte_app pre x (mid ++ post) v)). specialize (IH (pre ++ [u8 v]) mid Hm). rewrite length_app in IH. cbn [length] in IH.
    rewrite <- !app_assoc in IH. cbn [app] in IH. replace (Z.of_nat (length pre) + 1) with (Z.of_nat (length pre + 1)) by lia. rewrite IH by lia. cbn [replicate app].
    do 2 f_equal. lia.
Qed.

Lemma decompress_runs fuel rs pre post lim :
  Forall run_ok rs -> (length (packed rs) < fuel)%nat -> (length (expand rs) <= length post)%nat -> lim = Z.of_nat (length pre + length post) ->
  decompress_loop fuel (packed rs) lim (Z.of_nat (length pre)) (pre ++ post) =
    Done (Z.of_nat (length pre + length (expand rs)), pre ++ expand rs ++ drop (length (expand rs)) post).
Proof.
  revert pre post fuel. induction rs as [|[v n] rs IH]; intros pre post fuel Hok Hf Hl Hlim; (destruct fuel as [|fuel]; [lia|]); cbn [decompress_loop].
  - unfold expand, packed. cbn. by rewrite Nat.add_0_r.
  - apply Forall_cons in Hok as [[Hv Hn] Hok]. cbn [fst snd] in *. unfold expand, packed in *. cbn [fmap list_fmap concat fst snd app] in *.
    fold (expand rs) (packed rs) in *. rewrite length_app, length_replicate in Hl. rewrite (proj2 (Z.leb_gt _ _)) by lia.
    assert (Z.land (128 + Z.of_nat n) 0x80 = 128 /\ Z.land (128 + Z.of_nat n) 0x7F = Z.of_nat n) as [-> ->].
    { rewrite <- lor_run by lia. split.
      - assert (Z.land (Z.of_nat n) 128 = 0) as E. { apply Z.bits_inj'. intros i Hi. rewrite Z.land_spec, Z.bits_0. destruct (decide (i = 7)) as [->|Hi7].
          - by rewrite (testbit_high 7) by (change (2 ^ 7) with 128; lia).
          - change 128 with (2 ^ 7). by rewrite Z.pow2_bits_false, andb_false_r by congruence. }
        rewrite Z.land_lor_distr_l, E. done.
      - rewrite Z.land_lor_distr_l. change 127 with (Z.ones 7). rewrite (Z.land_ones (Z.of_nat n)) by lia. change (2 ^ 7) with 128. rewrite Z.mod_small by lia. done. }
    change (negb (128 =? 0)) with true. cbv iota. rewrite Nat2Z.id. set (mid := take n post). assert (length mid = n) as Lm by (unfold mid; rewrite length_take; lia).
    rewrite <- (take_drop n post) at 1. fold mid.
    rewrite (bind_step _ _ _ _ _ (fill_run_Done n v lim pre mid (drop n post) Lm ltac:(lia))), u8_small by done.
    specialize (IH (pre ++ replicate n v) (drop n post) fuel Hok). rewrite length_app, length_replicate, length_drop, <- !app_assoc in IH. rewrite IH; [|cbn [length] in Hf; lia|lia|lia].
    rewrite length_app, length_replicate, drop_drop. rewrite <- app_assoc. do 2 f_equal. lia.
Qed.

(** The codec round-trips runs of 2 to 127 equal bytes, into buffers with room, and nothing else.  A
    run of 128 to 255 bytes is encoded with a length that the decoder reads modulo 128.  A byte that stands alone is encoded
    with a stray zero between its count and itself: decoding the result of one non-zero byte reads past
    the end of the input. *)
Theorem codec_only_short_runs :
  (forall rs out out2, Forall run_ok rs -> separated rs -> (1 <= length out)%nat -> (2 * length rs <= length out)%nat -> (length (expand rs) <= length out2)%nat ->
     Z.of_nat (length out) < 18446744073709551616 ->
     delta_compress (Some (expand rs)) (Some (Z.of_nat (length out))) out =
       Done ((0, Some (2 * Z.of_nat (length rs))), packed rs ++ drop (2 * length rs) out) /\
     delta_decompress (Some (packed rs)) (Some (Z.of_nat (length out2))) out2 =
       Done ((0, Some (Z.of_nat (length (expand rs)))), expand rs ++ drop (length (expand rs)) out2)) /\
  (forall n, (128 <= n <= 255)%nat ->
     delta_compress (Some (replicate n 7)) (Some 4) [0; 0; 0; 0] = Done ((0, Some 2), [Z.of_nat n; 7; 0; 0]) /\
     delta_decompress (Some [Z.of_nat n; 7]) (Some 255) (replicate 255 0) = Done ((0, Some (Z.of_nat n - 128)), replicate (n - 128) 7 ++ replicate (255 - (n - 128)) 0)) /\
  (forall v, 0 < v < 256 ->
     delta_compress (Some [v]) (Some 4) [0; 0; 0; 0] = Done ((0, Some 3), [1; 0; v; 0]) /\
     forall n out, (2 <= n)%nat -> length out = n -> delta_decompress (Some [1; 0; v]) (Some (Z.of_nat n)) out = UB).
Proof.
  split; [|split].
  - intros rs out out2 Hok Hsep H1 Hl Hl2 Hmax. split.
    + unfold delta_compress. assert (length rs < S (S (length (expand rs))))%nat as Hf.
      { clear -Hok. induction rs as [|[v n] rs IH]; [cbn; lia|]. apply Forall_cons in Hok as [[_ Hn] Hok]. unfold expand. cbn [fmap list_fmap concat fst snd length] in *.
        rewrite length_app, length_replicate. specialize (IH Hok). unfold expand in IH. lia. }
      destruct (compress_runs (S (S (length (expand rs)))) rs [] out (Z.of_nat (length out) - 1) Hok Hsep Hf Hl ltac:(cbn; lia)) as (post & E & ->).
      cbn [length app] in E. change (Z.of_nat 0) with 0 in E. rewrite u64_small by lia.
      replace (Z.of_nat (0 + 2 * length rs)) with (2 * Z.of_nat (length rs)) in E by lia. by rewrite (bind_step _ _ _ _ _ E).
    + unfold delta_decompress.
      pose proof (decompress_runs (S (length (packed rs))) rs [] out2 (Z.of_nat (length out2)) Hok ltac:(lia) Hl2 ltac:(cbn; lia)) as E.
      cbn [length app] in E. change (Z.of_nat 0) with 0 in E. by rewrite (bind_step _ _ _ _ _ E).
  - intros n Hn.
    assert (Z.lor 0x80 (Z.of_nat n) = Z.of_nat n /\ Z.land (Z.of_nat n) 0x80 = 128 /\ Z.land (Z.of_nat n) 0x7F = Z.of_nat n - 128) as (L1 & L2 & L3).
    { assert (forallb (fun n => (Z.lor 0x80 n =? n) && (Z.land n 0x80 =? 128) && (Z.land n 0x7F =? n - 128)) (seqZ 128 128) = true) as H by (vm_compute; reflexivity).
      pose proof (forallb_seqZ _ _ _ H (Z.of_nat n) ltac:(lia)) as Hb. rewrite !andb_true_iff, !Z.eqb_eq in Hb. tauto. }
    split.
    + unfold delta_compress. assert (exists l, replicate n 7 = 7 :: l) as [l El] by (destruct n; [lia|]; cbn; eauto).
      rewrite El. cbn [compress_loop]. rewrite <- El. change (u64 (4 - 1) <=? 0) with false. cbv iota.
      pose proof (run_len_replicate 7 n [] 0 ltac:(lia) I) as Er. rewrite app_nil_r in Er. rewrite Er, Z.add_0_l, (proj2 (Z.ltb_lt 1 _)), L1 by lia.
      rewrite bind_assoc, (bind_step _ _ _ _ _ (out_byte_app [] 0 [0; 0; 0] (Z.of_nat n))), u8_small by lia. cbn [app].
      rewrite bind_assoc, (bind_step _ _ _ _ _ (out_byte_next [] (Z.of_nat n) 0 [0; 0] 7 (0 + 1) eq_refl)).
      rewrite drop_ge by (rewrite length_replicate; lia). done.
    + unfold delta_decompress. cbn [length decompress_loop]. change (255 <=? 0) with false. cbv iota. rewrite L2, L3. change (negb (128 =? 0)) with true. cbv iota.
      rewrite bind_assoc. replace (replicate 255 0) with (replicate (n - 128) 0 ++ replicate (255 - (n - 128)) 0) by (rewrite <- replicate_add; f_equal; lia).
      replace (Z.to_nat (Z.of_nat n - 128)) with (n - 128)%nat by lia.
      rewrite (bind_step _ _ _ _ _ (fill_run_Done (n - 128) 7 255 [] (replicate (n - 128) 0) (replicate (255 - (n - 128)) 0) (length_replicate _ _) ltac:(cbn; lia))).
      cbn [length Nat.add app]. rewrite bind_ret. change (u8 7) with 7. by rewrite Nat2Z.inj_sub by lia.
  - intros v Hv. split.
    + assert (forallb (fun v => match delta_compress (Some [v]) (Some 4) [0; 0; 0; 0] with Done (0, Some 3, l) => bool_decide (l = [1; 0; v; 0]) | _ => false end) (seqZ 0 256) = true) as H by (vm_compute; reflexivity).
      pose proof (forallb_seqZ _ _ _ H v ltac:(lia)) as Hb. cbv beta in Hb. clear H. destruct (delta_compress (Some [v]) (Some 4) [0; 0; 0; 0]) as [[[[| |] [[|[[]| |]|]|]] l]| |]; try done.
      apply bool_decide_eq_true in Hb. by subst l.
    + intros n out Hn Ho. unfold delta_decompress. rewrite <- Ho in *. clear n Ho. destruct out as [|a [|b out]]; [cbn in Hn; lia..|].
      set (lim := Z.of_nat (length (a :: b :: out))). assert (2 <= lim) as Hlim by (unfold lim; cbn [length]; lia).
      cbn [length decompress_loop]. rewrite (proj2 (Z.leb_gt lim 0)) by lia. change (Z.land 1 0x80 =? 0) with true. cbn [negb].
      change (Z.to_nat 1) with 1%nat. cbn [copy_literals]. rewrite (proj2 (Z.leb_gt lim 0)) by lia.
      unfold mbind at 1, M_bind at 1. rewrite !bind_assoc, (bind_step _ _ _ _ _ (out_byte_app [] a (b :: out) 0)), bind_ret. cbn [fst snd app decompress_loop]. rewrite (proj2 (Z.leb_gt lim (0 + 1))) by lia.
      destruct (Z.land v 0x80 =? 0) eqn:Hb; cbn [negb]; [|done].
      assert (exists k, Z.to_nat v = S k) as [k Ek] by (exists (Z.to_nat v - 1)%nat; lia). rewrite Ek. cbn [copy_literals].
      rewrite (proj2 (Z.leb_gt lim (0 + 1))) by lia. done.
Qed.

(** ** A device in memory *)

Record ram_io := RamIo { ri_patch : list Z; ri_old : list Z; ri_new : list Z }.

Definition ram_read (get : ram_io -> list Z) (set : list Z -> ram_io -> ram_io) (n : Z) (c : ram_io) : option (list Z) * ram_io :=
  if Z.of_nat (length (get c)) <? n then (None, c) else (Some (take (Z.to_nat n) (get c)), set (drop (Z.to_nat n) (get c)) c).

Definition ram_device : delta_io_t ram_io :=
  Io (Some (ram_read ri_old (fun l c => RamIo (ri_patch c) l (ri_new c))))
     (Some (ram_read ri_patch (fun l c => RamIo l (ri_old c) (ri_new c))))
     (Some (fun bs c => (true, RamIo (ri_patch c) (ri_old c) (ri_new c ++ bs)))).

#[export] Instance ram_device_io : DeltaIo ram_device.
Proof.
  refine {| patch_stream := ri_patch; old_stream := ri_old; written := ri_new |}.
  - eexists. split; [reflexivity|]. intros n c _. unfold ram_read. destruct (_ <? n); eauto.
  - eexists. split; [reflexivity|]. intros n c _. unfold ram_read. destruct (_ <? n); eauto.
  - eexists. split; [reflexivity|]. intros bs c. eexists. done.
Defined.

Definition demo_old : list Z := seqZ 40 30.
(** Bytes 5 to 24 of the old file between other bytes. *)
Definition demo_new : list Z := [1; 2; 3] ++ take 20 (drop 5 demo_old) ++ [9; 9].
Definition empty_heap : libc := Libc ∅ 4096 [].

Lemma empty_roomy : roomy empty_heap.
Proof. split; [done|]. split; [done|]. intros p Hp. by apply not_elem_of_empty in Hp. Qed.

Lemma delta_roundtrip_witness :
  exists patch m' w', delta_create_patch (Some malloc) (Some demo_old) (Some demo_new) empty_heap = Done ((DELTA_RESULT_OK, Some (patch.1, patch.2)), m') /\
    delta_apply_patch (Some ram_device) true (Device empty_heap (RamIo patch.2 demo_old [])) = Done (DELTA_RESULT_OK, w') /\ ri_new (io_ctx w') = demo_new.
Proof.
  destruct (delta_roundtrip ram_device malloc empty_heap demo_old demo_new) as (buf & patch & m' & E & _ & H).
  - reflexivity.
  - exact empty_roomy.
  - vm_compute. split; [reflexivity|discriminate].
  - vm_compute. discriminate.
  - destruct (H true (Device empty_heap (RamIo patch demo_old [])) [] [] empty_roomy) as (w' & E2 & Hw & _).
    + cbn. rewrite app_nil_r. reflexivity.
    + cbn. rewrite app_nil_r. reflexivity.
    + exists (buf, patch), m', w'. split; [exact E|]. split; [exact E2|exact Hw].
Defined.

Lemma create_patch_frees_twice_witness : delta_create_patch None (Some demo_old) (Some demo_new) empty_heap = UB.
Proof.
  apply create_patch_frees_twice.
  - exact empty_roomy.
  - vm_compute. split; [reflexivity|discriminate].
  - vm_compute. discriminate.
Defined.

(** A patch that adds two bytes and then copies from beyond the old file. *)
Definition bad_ops : list Z := ins_bytes (Add [7; 8]) ++ DELTA_OP_COPY :: le_bytes 2 20 ++ le_bytes 4 25.
Definition bad_header : delta_patch_header_t := patch_header 30 22 (Z.of_nat (length bad_ops)) 1.

Lemma apply_rejects_witness :
  exists w', delta_apply_patch (Some ram_device) false (Device empty_heap (RamIo (encode_patch_header bad_header ++ bad_ops) demo_old [])) = Done (DELTA_RESULT_ERR_PATCH_CORRUPT, w') /\
    ri_new (io_ctx w') = [7; 8].
Proof.
  destruct (apply_rejects ram_device false (Device empty_heap (RamIo (encode_patch_header bad_header ++ bad_ops) demo_old []))) as (_ & _ & H).
  destruct (H bad_header demo_old [Add [7; 8]] (DELTA_OP_COPY :: le_bytes 2 20 ++ le_bytes 4 25) [] []) as (_ & Hc & _).
  - exact empty_roomy.
  - split; [apply patch_header_ok; split; [discriminate|reflexivity]|]. split; [reflexivity|]. split; [reflexivity|]. split; reflexivity.
  - constructor; [reflexivity|constructor].
  - reflexivity.
  - reflexivity.
  - destruct (Hc 20 25 [] eq_refl) as [Hr _]; [split; [discriminate|reflexivity]|split; [discriminate|reflexivity]|].
    destruct Hr as (w' & E & Hw & _); [split; reflexivity|]. exists w'. split; [exact E|exact Hw].
Defined.

Lemma codec_only_short_runs_witness :
  delta_compress (Some [5; 5; 5; 9; 9]) (Some 8) (replicate 8 0) = Done ((0, Some 4), [131; 5; 130; 9; 0; 0; 0; 0]).
Proof.
  destruct codec_only_short_runs as (H & _ & _).
  destruct (H [(5, 3%nat); (9, 2%nat)] (replicate 8 0) (replicate 8 0)) as [E _].
  - constructor; [split; [split; [discriminate|reflexivity]|split; repeat constructor]|]. constructor; [split; [split; [discriminate|reflexivity]|split; repeat constructor]|constructor].
  - cbn. split; [discriminate|]. split; exact I.
  - cbn. lia.
  - cbn. lia.
  - cbn. lia.
  - reflexivity.
  - exact E.
Defined.
