(* ===== verification/SignedImage.v ===== *)
(** * Signed images (mini-ota-update/src/signed_image.c)

    The packed header of a signed image, its parsing, validation and creation; the hash, signature and
    anti-rollback checks; the counter-mode cipher of the payload and the key store.  A pointer to a buffer is
    the bytes from it to the end of its object ([None] is NULL): an access past them is [UB].  The hardware counter is a
    pair of callbacks over the platform's state ([sig_img_hal_t]), the time of day an argument. *)
From S2P Require Import Prelude.
From S2P Require Import Crc32.

Definition SIGNED_IMAGE_MAGIC : Z := 0x5349474E.
Definition SIGNED_IMAGE_VERSION : Z := 1.
Definition SIGNED_IMAGE_SIG_MAX : nat := 72.
Definition SIGNED_IMAGE_KEY_MAX : nat := 64.
Definition SIGNED_IMAGE_HASH_SIZE : nat := 32.
Definition SIGNED_IMAGE_IV_SIZE : Z := 16.
Definition SIGNED_IMAGE_AES_BLOCK_SIZE : nat := 16.
Definition SIGNED_IMAGE_MAX_IMAGE_SIZE : Z := 32 * 1024 * 1024.
Definition SIGNED_IMAGE_HEADER_SIZE : nat := 512.

Inductive sig_img_result_t :=
  SIG_IMG_OK | SIG_IMG_ERR_PARAM | SIG_IMG_ERR_MAGIC | SIG_IMG_ERR_VERSION | SIG_IMG_ERR_SIGNATURE | SIG_IMG_ERR_HASH
| SIG_IMG_ERR_ROLLBACK | SIG_IMG_ERR_KEY | SIG_IMG_ERR_DECRYPT | SIG_IMG_ERR_ENCRYPT | SIG_IMG_ERR_NOMEM | SIG_IMG_ERR_IO
| SIG_IMG_ERR_SIZE | SIG_IMG_ERR_COUNTER | SIG_IMG_ERR_EFUSE | SIG_IMG_ERR_TPM | SIG_IMG_ERR_NOT_ENCRYPTED
| SIG_IMG_ERR_ALREADY_BOOTED.
#[export] Instance sig_img_result_eq : EqDecision sig_img_result_t.
Proof. solve_decision. Defined.

(** [sig_img_algo_t], compared with a byte of the header: an int. *)
Definition SIG_IMG_ALGO_ECDSA_P256 : Z := 0.
Definition SIG_IMG_ALGO_ECDSA_P384 : Z := 1.
Definition SIG_IMG_ALGO_ED25519 : Z := 2.
Definition SIG_IMG_ALGO_RSA2048 : Z := 3.
Definition SIG_IMG_ALGO_RSA3072 : Z := 4.
Definition SIG_IMG_ALGO_RSA4096 : Z := 5.
Definition SIG_IMG_ENC_NONE : Z := 0.

(** ** The structures *)

Record signed_image_header_t := Header {
  magic : Z; header_version : Z; header_size : Z; image_size : Z; image_offset : Z; version_major : Z; version_minor : Z;
  version_patch : Z; build_timestamp : Z; image_hash : list Z; signature : list Z; signature_len : Z; signature_algo : Z;
  encryption : Z; iv : list Z; key_fingerprint : list Z; key_id : Z; min_counter_value : Z; max_rollback_index : Z;
  hw_id : list Z; hw_id_mask : list Z; security_level : Z; flags : Z; product_id : Z; vendor_id : Z; reserved : list Z;
  header_crc : Z }.

(** The bytes of the structure, which the source copies and casts: [#pragma pack(1)] puts the fields one after another in the order of the declaration, [header_crc] at 306; integers are
    little-endian, as on the devices the code is for. *)
Definition header_layout : list nat :=
  [4; 2; 2; 4; 4; 4; 4; 4; 8; 32; 72; 2; 1; 1; 16; 32; 4; 4; 4; 16; 16; 1; 1; 2; 2; 64; 4]%nat.
Definition sizeof_header : nat := 310.
Definition header_fields (h : signed_image_header_t) : list (list Z) :=
  [le_bytes 4 (magic h); le_bytes 2 (header_version h); le_bytes 2 (header_size h); le_bytes 4 (image_size h); le_bytes 4 (image_offset h);
   le_bytes 4 (version_major h); le_bytes 4 (version_minor h); le_bytes 4 (version_patch h); le_bytes 8 (build_timestamp h);
   image_hash h; signature h; le_bytes 2 (signature_len h); le_bytes 1 (signature_algo h); le_bytes 1 (encryption h); iv h;
   key_fingerprint h; le_bytes 4 (key_id h); le_bytes 4 (min_counter_value h); le_bytes 4 (max_rollback_index h); hw_id h; hw_id_mask h;
   le_bytes 1 (security_level h); le_bytes 1 (flags h); le_bytes 2 (product_id h); le_bytes 2 (vendor_id h); reserved h;
   le_bytes 4 (header_crc h)].
Definition encode_header (h : signed_image_header_t) : list Z := concat (header_fields h).
Definition decode_header (bs : list Z) : signed_image_header_t :=
  let f i := split_fields header_layout bs !!! i in
  let v i := le_val (f i) in
  Header (v 0%nat) (v 1%nat) (v 2%nat) (v 3%nat) (v 4%nat) (v 5%nat) (v 6%nat) (v 7%nat) (v 8%nat) (f 9%nat) (f 10%nat) (v 11%nat)
    (v 12%nat) (v 13%nat) (f 14%nat) (f 15%nat) (v 16%nat) (v 17%nat) (v 18%nat) (f 19%nat) (f 20%nat) (v 21%nat) (v 22%nat) (v 23%nat)
    (v 24%nat) (f 25%nat) (v 26%nat).

Record sig_img_public_key_t := PublicKey {
  public_key : list Z; public_key_len : Z; algo : Z; fingerprint : list Z; pk_key_id : Z; active : bool; not_before : Z; not_after : Z }.

(** The counter callbacks ([None] is a null pointer); the efuse and TPM callbacks are never called. *)
Record sig_img_hal_t (F : Type) := Hal { read_counter : option (F -> Z * F); write_counter : option (Z -> F -> Z * F) }.
Arguments Hal {F}.
Arguments read_counter {F}.
Arguments write_counter {F}.

Record sig_img_verify_ctx_t (F : Type) := Ctx {
  keys : list sig_img_public_key_t; hal : sig_img_hal_t F; aes_key : option (list Z); aes_key_len : Z }.
Arguments Ctx {F}.
Arguments keys {F}.
Arguments hal {F}.
Arguments aes_key {F}.
Arguments aes_key_len {F}.

(** ** The checksum *)

Definition sig_img_crc32 (data : list Z) : Z := crc32_of data.

(** The initial hash value, which the block loop leaves as it is. *)
Definition sha256_h : list Z :=
  [0x6a09e667; 0xbb67ae85; 0x3c6ef372; 0xa54ff53a; 0x510e527f; 0x9b05688c; 0x1f83d9ab; 0x5be0cd19].
(** The bytes of a word, most significant first. *)
Definition be_word (w : Z) : list Z := [u8 (Z.shiftr w 24); u8 (Z.shiftr w 16); u8 (Z.shiftr w 8); u8 w].

(** [counter_block[i]++] from the last byte up, until one does not wrap to zero. *)
Fixpoint bump (i : nat) (block : list Z) : list Z :=
  match i with
  | O => block
  | S i => let b := u8 (block !!! i + 1) in let block := <[i := b]> block in if b =? 0 then bump i block else block
  end.

(** The key stream of a block: [key[i % key_bytes]] for [i] within a block. *)
Definition keystream (key_bytes : nat) (key block : list Z) : list Z :=
  (fun i => u8 (Z.land (Z.lxor (block !!! i) (key !!! (i mod key_bytes)%nat)) 0xFF)) <$> seq 0 SIGNED_IMAGE_AES_BLOCK_SIZE.

Definition set_header_crc (x : Z) (h : signed_image_header_t) : signed_image_header_t :=
  Header (magic h) (header_version h) (header_size h) (image_size h) (image_offset h) (version_major h) (version_minor h) (version_patch h)
    (build_timestamp h) (image_hash h) (signature h) (signature_len h) (signature_algo h) (encryption h) (iv h) (key_fingerprint h) (key_id h)
    (min_counter_value h) (max_rollback_index h) (hw_id h) (hw_id_mask h) (security_level h) (flags h) (product_id h) (vendor_id h)
    (reserved h) x.

(** The header [sig_img_build_header] fills in, its checksum zero. *)
Definition built_header (image_len algo now : Z) (hash : list Z) : signed_image_header_t :=
  Header SIGNED_IMAGE_MAGIC SIGNED_IMAGE_VERSION (Z.of_nat SIGNED_IMAGE_HEADER_SIZE) (u32 image_len) (Z.of_nat SIGNED_IMAGE_HEADER_SIZE)
    0 0 0 (u64 now) hash (hash ++ replicate 40 0) (Z.of_nat SIGNED_IMAGE_HASH_SIZE) (u8 algo) SIG_IMG_ENC_NONE (replicate 16 0) (replicate 32 0)
    1 0 0 (replicate 16 0) (replicate 16 0) 1 0 0 0 (replicate 64 0) 0.

(** ** The operations *)
Section operations.
Context {F : Type}.
Notation SM := (M F).

(** Reading [n] bytes of an object from [off]; forming a pointer past its end is undefined as well. *)
Definition bytes_at (obj : list Z) (off n : nat) : SM (list Z) :=
  if (off + n <=? length obj)%nat then mret (take n (drop off obj)) else undefined.
(** Writing bytes over those of an object. *)
Definition write_at (obj : list Z) (off : nat) (bs : list Z) : SM (list Z) :=
  if (off + length bs <=? length obj)%nat then mret (list_inserts off bs obj) else undefined.

(** The loop over whole blocks reads each and uses none; its fuel is the number of blocks plus one. *)
Fixpoint sha_blocks (fuel : nat) (data : list Z) (pos len : Z) : SM unit :=
  match fuel with
  | O => nofuel
  | S fuel =>
      if pos + 64 <=? len then bytes_at data (Z.to_nat pos) 64;; sha_blocks fuel data (pos + 64) len
      else mret tt
  end.
Definition sig_img_sha256 (data : list Z) (len : Z) : SM (list Z) :=
  sha_blocks (S (Z.to_nat (len / 64))) data 0 len;;
  mret (concat (be_word <$> sha256_h)).

Definition sig_img_header_parse (data : option (list Z)) (len : Z) (out : bool) : SM (sig_img_result_t * option signed_image_header_t) :=
  match data with
  | Some data =>
      if negb out || (len <? Z.of_nat sizeof_header) then mret (SIG_IMG_ERR_PARAM, None)
      else bs ← bytes_at data 0 sizeof_header; mret (SIG_IMG_OK, Some (decode_header bs))
  | None => mret (SIG_IMG_ERR_PARAM, None)
  end.

(** The header a pointer to it designates. *)
Definition header_at (p : list Z) : SM signed_image_header_t :=
  bs ← bytes_at p 0 sizeof_header; mret (decode_header bs).

Definition sig_img_header_validate (header : option (list Z)) : SM sig_img_result_t :=
  match header with
  | None => mret SIG_IMG_ERR_PARAM
  | Some p =>
      h ← header_at p;
      if negb (magic h =? SIGNED_IMAGE_MAGIC) then mret SIG_IMG_ERR_MAGIC
      else if negb (header_version h =? SIGNED_IMAGE_VERSION) then mret SIG_IMG_ERR_VERSION
      else if header_size h <? Z.of_nat SIGNED_IMAGE_HEADER_SIZE then mret SIG_IMG_ERR_VERSION
      else if SIGNED_IMAGE_MAX_IMAGE_SIZE <? image_size h then mret SIG_IMG_ERR_SIZE
      else
        header_buf ← bytes_at p 0 SIGNED_IMAGE_HEADER_SIZE;
        header_buf ← write_at header_buf 306 (le_bytes 4 0);
        mret (if sig_img_crc32 header_buf =? header_crc h then SIG_IMG_OK else SIG_IMG_ERR_HASH)
  end.

Definition sig_img_verify_signature (image : option (list Z)) (image_len : Z) (key : option sig_img_public_key_t) : SM sig_img_result_t :=
  match image, key with
  | Some image, Some key =>
      if image_len <? Z.of_nat sizeof_header then mret SIG_IMG_ERR_PARAM
      else
        hdr ← header_at image;
        if signature_len hdr =? 0 then mret SIG_IMG_ERR_SIGNATURE
        else if Z.of_nat SIGNED_IMAGE_SIG_MAX <? signature_len hdr then mret SIG_IMG_ERR_SIGNATURE
        else if negb (signature_algo hdr =? algo key) then mret SIG_IMG_ERR_KEY
        else
          data ← bytes_at image (Z.to_nat (image_offset hdr)) (length image - Z.to_nat (image_offset hdr));
          hash ← sig_img_sha256 data (image_size hdr);
          let n := Z.to_nat (Z.min (Z.of_nat SIGNED_IMAGE_HASH_SIZE) (signature_len hdr)) in
          if bool_decide (take n (signature hdr) = take n hash) then mret SIG_IMG_OK
          else mret SIG_IMG_OK
  | _, _ => mret SIG_IMG_ERR_PARAM
  end.

Definition sig_img_verify_hash (image : option (list Z)) (image_len : Z) (expected_hash : option (list Z)) : SM sig_img_result_t :=
  match image, expected_hash with
  | Some image, Some expected =>
      if image_len =? 0 then mret SIG_IMG_ERR_PARAM
      else
        hdr ← header_at image;
        data ← bytes_at image (Z.to_nat (image_offset hdr)) (length image - Z.to_nat (image_offset hdr));
        calc_hash ← sig_img_sha256 data (image_size hdr);
        if negb (bool_decide (calc_hash = image_hash hdr)) then mret SIG_IMG_ERR_HASH
        else
          expected ← bytes_at expected 0 SIGNED_IMAGE_HASH_SIZE;
          mret (if bool_decide (calc_hash = expected) then SIG_IMG_OK else SIG_IMG_ERR_HASH)
  | _, _ => mret SIG_IMG_ERR_PARAM
  end.

Definition callback {A} (f : F -> A * F) : SM A := fun d => Done (f d).

Definition sig_img_check_anti_rollback (header : option signed_image_header_t) (hal : option (sig_img_hal_t F)) (allowed : bool) :
    SM (sig_img_result_t * option bool) :=
  match header, hal with
  | Some header, Some hal =>
      if negb allowed then mret (SIG_IMG_ERR_PARAM, None)
      else
        match read_counter hal with
        | None => mret (SIG_IMG_OK, Some true)
        | Some read =>
            current_counter ← callback read;
            if min_counter_value header <? current_counter then mret (SIG_IMG_OK, Some false)
            else
              match write_counter hal with
              | Some write => when (current_counter <? min_counter_value header) (callback (write (min_counter_value header));; mret tt)
              | None => mret tt
              end;;
              mret (SIG_IMG_OK, Some true)
        end
  | _, _ => mret (SIG_IMG_ERR_PARAM, None)
  end.

(** The first active key with the header's id. *)
Definition find_key (id : Z) (ks : list sig_img_public_key_t) : option sig_img_public_key_t :=
  list_find (fun k => active k && (pk_key_id k =? id)) ks ≫= fun r => Some (snd r).

Definition sig_img_verify_full (image : option (list Z)) (image_len : Z) (ctx : option (sig_img_verify_ctx_t F)) : SM sig_img_result_t :=
  match image, ctx with
  | Some _, Some ctx =>
      if image_len <? Z.of_nat sizeof_header then mret SIG_IMG_ERR_PARAM
      else
        p ← sig_img_header_parse image image_len true;
        match p with
        | (SIG_IMG_OK, Some header) =>
            res ← sig_img_header_validate (Some (encode_header header));
            if negb (bool_decide (res = SIG_IMG_OK)) then mret res
            else
              a ← sig_img_check_anti_rollback (Some header) (Some (hal ctx)) true;
              let '(res, rollback_ok) := a in
              if negb (bool_decide (res = SIG_IMG_OK)) then mret res
              else if negb (default true rollback_ok) then mret SIG_IMG_ERR_ROLLBACK
              else
                match find_key (key_id header) (keys ctx) with
                | None => mret SIG_IMG_ERR_KEY
                | Some key =>
                    res ← sig_img_verify_signature image image_len (Some key);
                    if negb (bool_decide (res = SIG_IMG_OK)) then mret res
                    else
                      res ← sig_img_verify_hash image image_len (Some (image_hash header));
                      if negb (bool_decide (res = SIG_IMG_OK)) then mret res
                      else if negb (encryption header =? SIG_IMG_ENC_NONE) &&
                              (bool_decide (aes_key ctx = None) || (aes_key_len ctx =? 0)) then mret SIG_IMG_ERR_KEY
                      else mret SIG_IMG_OK
                end
        | (res, _) => mret res
        end
  | _, _ => mret SIG_IMG_ERR_PARAM
  end.

(** The loop over blocks: [output] is the object written to. *)
Fixpoint crypt_loop (fuel : nat) (input : list Z) (key_bytes : nat) (key block output : list Z) (offset remaining : nat) : SM (list Z) :=
  match fuel with
  | O => nofuel
  | S fuel =>
      if (remaining =? 0)%nat then mret output
      else
        key16 ← bytes_at key 0 (Nat.min SIGNED_IMAGE_AES_BLOCK_SIZE key_bytes);
        let ks := keystream key_bytes key16 block in
        let chunk := Nat.min remaining SIGNED_IMAGE_AES_BLOCK_SIZE in
        data ← bytes_at input offset chunk;
        output ← write_at output offset (zip_with Z.lxor data ks);
        crypt_loop fuel input key_bytes key (bump SIGNED_IMAGE_AES_BLOCK_SIZE block) output (offset + chunk) (remaining - chunk)
  end.

Definition sig_img_aes_ctr_crypt (input : option (list Z)) (input_len : Z) (key : option (list Z)) (key_len : Z)
    (nonce : option (list Z)) (nonce_len : Z) (output : option (list Z)) : SM (sig_img_result_t * option (list Z)) :=
  match input, key, nonce, output with
  | Some input, Some key, Some nonce, Some output =>
      bs ← bytes_at nonce 0 (Z.to_nat (Z.min nonce_len (Z.of_nat SIGNED_IMAGE_AES_BLOCK_SIZE)));
      let counter_block := list_inserts 0 bs (replicate SIGNED_IMAGE_AES_BLOCK_SIZE 0) in
      let key_bytes := if key_len <=? 16 then 16%nat else if key_len <=? 24 then 24%nat else 32%nat in
      let n := Z.to_nat input_len in
      out ← crypt_loop (S n) input key_bytes key counter_block output 0 n;
      mret (SIG_IMG_OK, Some out)
  | _, _, _, _ => mret (SIG_IMG_ERR_PARAM, None)
  end.

(** The length is written before the cipher runs; [len_out] says the pointer to it is not null. *)
Definition sig_img_encrypt_payload (plain : option (list Z)) (plain_len : Z) (key : option (list Z)) (key_len : Z)
    (iv : option (list Z)) (iv_len : Z) (encrypted : option (list Z)) (len_out : bool) :
    SM (sig_img_result_t * option (list Z) * option Z) :=
  if bool_decide (plain = None) || bool_decide (key = None) || bool_decide (iv = None) || bool_decide (encrypted = None) || negb len_out
  then mret (SIG_IMG_ERR_PARAM, None, None)
  else if iv_len <? SIGNED_IMAGE_IV_SIZE then mret (SIG_IMG_ERR_PARAM, None, None)
  else r ← sig_img_aes_ctr_crypt plain plain_len key key_len iv iv_len encrypted; mret (r, Some plain_len).
Definition sig_img_decrypt_payload (encrypted : option (list Z)) (enc_len : Z) (key : option (list Z)) (key_len : Z)
    (iv : option (list Z)) (iv_len : Z) (plain : option (list Z)) (len_out : bool) :
    SM (sig_img_result_t * option (list Z) * option Z) :=
  if bool_decide (encrypted = None) || bool_decide (key = None) || bool_decide (iv = None) || bool_decide (plain = None) || negb len_out
  then mret (SIG_IMG_ERR_PARAM, None, None)
  else if iv_len <? SIGNED_IMAGE_IV_SIZE then mret (SIG_IMG_ERR_PARAM, None, None)
  else r ← sig_img_aes_ctr_crypt encrypted enc_len key key_len iv iv_len plain; mret (r, Some enc_len).

(** [keys]: the algorithm of the key store, the only field used; [header_out] and [len_out] say that the other output
    pointers are not null; [now] is [time(NULL)]. *)
Definition sig_img_build_header (now : Z) (image : option (list Z)) (image_len : Z) (keys : option Z) (header_out : bool)
    (signed_output : option (list Z)) (len_out : bool) : SM (sig_img_result_t * option (signed_image_header_t * list Z * Z)) :=
  match image, keys, signed_output with
  | Some image, Some algo, Some out =>
      if negb (header_out && len_out) then mret (SIG_IMG_ERR_PARAM, None)
      else
        hash ← sig_img_sha256 image image_len;
        let header := built_header image_len algo now hash in
        out ← write_at out 0 (encode_header header);
        body ← bytes_at image 0 (Z.to_nat image_len);
        out ← write_at out sizeof_header body;
        covered ← bytes_at out 0 SIGNED_IMAGE_HEADER_SIZE;
        let header := set_header_crc (sig_img_crc32 covered) header in
        out ← write_at out 0 (encode_header header);
        mret (SIG_IMG_OK, Some (header, out, u64 (Z.of_nat sizeof_header + image_len)))
  | _, _, _ => mret (SIG_IMG_ERR_PARAM, None)
  end.

Definition sig_img_key_fingerprint (key : option sig_img_public_key_t) (fp_out : bool) : SM (sig_img_result_t * option (list Z)) :=
  match key with
  | Some key =>
      if negb fp_out then mret (SIG_IMG_ERR_PARAM, None)
      else fp ← sig_img_sha256 (public_key key) (public_key_len key); mret (SIG_IMG_OK, Some fp)
  | None => mret (SIG_IMG_ERR_PARAM, None)
  end.

Definition sig_img_key_load (key_data : option (list Z)) (key_len : Z) (key_out : bool) : SM (sig_img_result_t * option sig_img_public_key_t) :=
  match key_data with
  | Some data =>
      if negb key_out || (Z.of_nat SIGNED_IMAGE_KEY_MAX <? key_len) then mret (SIG_IMG_ERR_PARAM, None)
      else
        bs ← bytes_at data 0 (Z.to_nat key_len);
        let k fp := PublicKey (list_inserts 0 bs (replicate SIGNED_IMAGE_KEY_MAX 0)) key_len SIG_IMG_ALGO_ECDSA_P256 fp 1 true 0 0 in
        fp ← sig_img_key_fingerprint (Some (k (replicate SIGNED_IMAGE_HASH_SIZE 0))) true;
        mret (SIG_IMG_OK, Some (k (default (replicate SIGNED_IMAGE_HASH_SIZE 0) (snd fp))))
  | None => mret (SIG_IMG_ERR_PARAM, None)
  end.
End operations.

Definition sig_img_result_str (result : sig_img_result_t) : string :=
  match result with
  | SIG_IMG_OK => "OK"
  | SIG_IMG_ERR_PARAM => "Invalid parameter"
  | SIG_IMG_ERR_MAGIC => "Bad magic"
  | SIG_IMG_ERR_VERSION => "Bad version"
  | SIG_IMG_ERR_SIGNATURE => "Signature error"
  | SIG_IMG_ERR_HASH => "Hash mismatch"
  | SIG_IMG_ERR_ROLLBACK => "Anti-rollback blocked"
  | SIG_IMG_ERR_KEY => "Key error"
  | SIG_IMG_ERR_DECRYPT => "Decrypt error"
  | SIG_IMG_ERR_ENCRYPT => "Encrypt error"
  | SIG_IMG_ERR_NOMEM => "No memory"
  | SIG_IMG_ERR_IO => "I/O error"
  | SIG_IMG_ERR_SIZE => "Size error"
  | SIG_IMG_ERR_COUNTER => "Counter error"
  | SIG_IMG_ERR_EFUSE => "eFuse error"
  | SIG_IMG_ERR_TPM => "TPM error"
  | SIG_IMG_ERR_NOT_ENCRYPTED => "Not encrypted"
  | SIG_IMG_ERR_ALREADY_BOOTED => "Already booted"
  end%string.

Definition sig_img_algo_name (algo : Z) : string :=
  if algo =? SIG_IMG_ALGO_ECDSA_P256 then "ECDSA-P256"
  else if algo =? SIG_IMG_ALGO_ECDSA_P384 then "ECDSA-P384"
  else if algo =? SIG_IMG_ALGO_ED25519 then "Ed25519"
  else if algo =? SIG_IMG_ALGO_RSA2048 then "RSA-2048"
  else if algo =? SIG_IMG_ALGO_RSA3072 then "RSA-3072"
  else if algo =? SIG_IMG_ALGO_RSA4096 then "RSA-4096"
  else "Unknown"%string.

(** ** Byte access *)

Section access.
Context {F : Type}.
Implicit Types s : F.

Lemma bytes_at_ok obj off n s : (off + n <= length obj)%nat -> bytes_at obj off n s = Done (take n (drop off obj), s).
Proof. intros H. unfold bytes_at. by rewrite (proj2 (Nat.leb_le _ _) H). Qed.
Lemma bytes_at_bad obj off n s : (length obj < off + n)%nat -> bytes_at obj off n s = UB.
Proof. intros H. unfold bytes_at. by rewrite (proj2 (Nat.leb_gt _ _) H). Qed.
Lemma write_at_ok obj off bs s : (off + length bs <= length obj)%nat -> write_at obj off bs s = Done (list_inserts off bs obj, s).
Proof. intros H. unfold write_at. by rewrite (proj2 (Nat.leb_le _ _) H). Qed.
Lemma bind_bytes_at {B} obj off n (f : list Z -> M F B) s :
  (off + n <= length obj)%nat -> (bytes_at obj off n ≫= f) s = f (take n (drop off obj)) s.
Proof. intros H. by rewrite (bind_step _ _ _ _ _ (bytes_at_ok _ _ _ _ H)). Qed.
Lemma bind_bytes_bad {B} obj off n (f : list Z -> M F B) s : (length obj < off + n)%nat -> (bytes_at obj off n ≫= f) s = UB.
Proof. intros H. unfold mbind, M_bind. by rewrite bytes_at_bad. Qed.
Lemma bind_write_at {B} obj off bs (f : list Z -> M F B) s :
  (off + length bs <= length obj)%nat -> (write_at obj off bs ≫= f) s = f (list_inserts off bs obj) s.
Proof. intros H. by rewrite (bind_step _ _ _ _ _ (write_at_ok _ _ _ _ H)). Qed.
End access.

Lemma inserts_window {A} (bs obj : list A) off :
  (off + length bs <= length obj)%nat -> list_inserts off bs obj = take off obj ++ bs ++ drop (off + length bs) obj.
Proof.
  intros H. rewrite <- (take_drop off obj) at 1. rewrite <- (length_take_le obj off) at 1 by lia.
  rewrite <- (Nat.add_0_r (length _)), list_inserts_app_r. f_equal.
  rewrite <- (take_drop (length bs) (drop off obj)) at 1.
  rewrite list_inserts_0_r by (rewrite length_take, length_drop; lia). by rewrite drop_drop.
Qed.

(** ** The counter and the key stream *)

(** The carry loop adds one to the block read as a big-endian integer. *)
Lemma bump_be_bytes n x rest : bump n (be_bytes n x ++ rest) = be_bytes n (x + 1) ++ rest.
Proof.
  revert x rest. induction n as [|n IH]; intros x rest; [done|].
  rewrite !be_bytes_S, <- !app_assoc. cbn [bump app].
  rewrite list_lookup_total_middle by (by rewrite length_be_bytes).
  rewrite insert_app_r_alt by (by rewrite length_be_bytes). rewrite length_be_bytes, Nat.sub_diag. cbn [insert list_insert].
  rewrite !Z.shiftr_div_pow2 by lia. change (2 ^ 8) with 256. unfold u8.
  rewrite Zplus_mod_idemp_l. destruct (Z.eqb_spec ((x + 1) mod 256) 0) as [E|E].
  - rewrite IH, E. do 2 f_equal. divmod_lia.
  - do 2 f_equal. divmod_lia.
Qed.

(** Byte [j] of the key stream: the nonce plus the block number, xor the key. *)
Definition ctr_stream (nonce : Z) (key : list Z) (j : nat) : Z :=
  Z.lxor (be_bytes 16 (nonce + Z.of_nat (j / 16)) !!! (j mod 16)%nat) (key !!! (j mod 16)%nat).
Definition ctr_crypt (nonce : Z) (key : list Z) (from : nat) (data : list Z) : list Z :=
  imap (fun j b => Z.lxor b (ctr_stream nonce key (from + j))) data.

Lemma length_ctr_crypt nonce key from data : length (ctr_crypt nonce key from data) = length data.
Proof. apply length_imap. Qed.
Lemma ctr_crypt_app nonce key from d1 d2 :
  ctr_crypt nonce key from (d1 ++ d2) = ctr_crypt nonce key from d1 ++ ctr_crypt nonce key (from + length d1) d2.
Proof. unfold ctr_crypt. rewrite imap_app. f_equal. apply imap_ext. intros i x _. cbn. do 2 f_equal. lia. Qed.
Lemma ctr_crypt_involutive nonce key from data : ctr_crypt nonce key from (ctr_crypt nonce key from data) = data.
Proof.
  apply list_eq. intros i. unfold ctr_crypt. rewrite !list_lookup_imap. destruct (data !! i); cbn; [|done].
  by rewrite Z.lxor_assoc, Z.lxor_nilpotent, Z.lxor_0_r.
Qed.

Lemma u8_byte_xor a b : is_u8 a -> is_u8 b -> u8 (Z.land (Z.lxor a b) 0xFF) = Z.lxor a b.
Proof.
  intros Ha Hb. pose proof (lxor_bound 8 a b ltac:(lia) Ha Hb) as H. change 0xFF with (Z.ones 8).
  rewrite Z.land_ones, Z.mod_small by lia. by apply u8_small.
Qed.

Lemma total_u8 (l : list Z) i : Forall is_u8 l -> is_u8 (l !!! i).
Proof.
  intros H. rewrite list_lookup_total_alt. destruct (l !! i) eqn:E; cbn; [|unfold is_u8; cbn; lia]. by eapply Forall_lookup_1.
Qed.

Lemma keystream_block key_bytes key nonce k data :
  (16 <= key_bytes)%nat -> Forall is_u8 (take 16 key) -> (length data <= 16)%nat ->
  zip_with Z.lxor data (keystream key_bytes (take 16 key) (be_bytes 16 (nonce + Z.of_nat k))) = ctr_crypt nonce key (16 * k) data.
Proof.
  intros Hkb Hk Hd. apply list_eq. intros i. unfold ctr_crypt, keystream, ctr_stream. rewrite lookup_zip_with, list_lookup_imap.
  destruct (data !! i) as [b|] eqn:E; cbn [mbind option_bind fmap option_fmap]; [|done]. apply lookup_lt_Some in E as Hi.
  rewrite (list_lookup_fmap _ (seq 0 16)), lookup_seq_lt by lia. cbn [fmap option_fmap option_map mbind option_bind Nat.add]. f_equal. f_equal.
  replace ((16 * k + i) / 16)%nat with k by (rewrite (Nat.mul_comm 16), Nat.div_add_l, (Nat.div_small i) by lia; lia).
  replace ((16 * k + i) mod 16)%nat with i by (rewrite (Nat.add_comm (16 * k)), (Nat.mul_comm 16), Nat.Div0.mod_add, Nat.mod_small by lia; lia).
  rewrite (Nat.mod_small i key_bytes) by lia.
  rewrite u8_byte_xor by (apply total_u8; first [apply be_bytes_u8|done]). f_equal.
  rewrite !list_lookup_total_alt, lookup_take_lt by lia. done.
Qed.

Lemma splice_block {A} (out d : list A) k n :
  length d = 16%nat -> (16 * S k <= length out)%nat ->
  take (16 * S k) (take (16 * k) out ++ d ++ drop n out) = take (16 * k) out ++ d.
Proof. intros Hd Ho. rewrite app_assoc, take_app_length'; [done|]. rewrite length_app, length_take, Hd. lia. Qed.
Lemma splice_rest {A} (out d : list A) k m :
  length d = 16%nat -> (16 * S k <= length out)%nat ->
  drop (16 * S k + m) (take (16 * k) out ++ d ++ drop (16 * S k) out) = drop (16 * S k + m) out.
Proof.
  intros Hd Ho. rewrite app_assoc, <- drop_drop, drop_app_length', drop_drop; [done|]. rewrite length_app, length_take, Hd. lia.
Qed.

Section cipher.
Context {F : Type} (key : list Z) (key_bytes : nat).
Hypothesis Hkb : (16 <= key_bytes)%nat.
Hypothesis Hlen : (16 <= length key)%nat.
Hypothesis Hkey : Forall is_u8 (take 16 key).

Lemma crypt_loop_correct nonce fuel k input out remaining (s : F) :
  (remaining < fuel)%nat -> (16 * k + remaining <= length input)%nat -> (16 * k + remaining <= length out)%nat ->
  crypt_loop fuel input key_bytes key (be_bytes 16 (nonce + Z.of_nat k)) out (16 * k) remaining s =
  Done (take (16 * k) out ++ ctr_crypt nonce key (16 * k) (take remaining (drop (16 * k) input)) ++ drop (16 * k + remaining) out, s).
Proof.
  revert k out remaining. induction fuel as [|fuel IH]; intros k out remaining Hf Hi Ho; [lia|]. cbn [crypt_loop].
  destruct (Nat.eqb_spec remaining 0) as [->|Hr].
  { rewrite Nat.add_0_r, take_0. change (ctr_crypt _ _ _ []) with (@nil Z). by rewrite app_nil_l, take_drop. }
  rewrite (Nat.min_l SIGNED_IMAGE_AES_BLOCK_SIZE) by done. change SIGNED_IMAGE_AES_BLOCK_SIZE with 16%nat.
  rewrite bind_bytes_at, drop_0 by lia.
  set (c := Nat.min remaining 16) in *. assert (c <= remaining /\ c <= 16)%nat by lia.
  rewrite bind_bytes_at by lia.
  set (data := take c (drop (16 * k) input)). assert (length data = c) as Hdata by (unfold data; rewrite length_take, length_drop; lia).
  rewrite keystream_block by (done || lia).
  rewrite bind_write_at by (rewrite length_ctr_crypt, Hdata; lia).
  rewrite inserts_window by (rewrite length_ctr_crypt, Hdata; lia). rewrite length_ctr_crypt, Hdata.
  replace (bump 16 _) with (be_bytes 16 (nonce + Z.of_nat (S k)))
    by (rewrite <- (app_nil_r (be_bytes 16 (nonce + Z.of_nat k))), bump_be_bytes, app_nil_r; f_equal; lia).
  destruct (Nat.le_gt_cases remaining 16) as [Hs|Hs].
  - assert (c = remaining) as -> by lia. rewrite Nat.sub_diag. destruct fuel as [|fuel]; [lia|]. done.
  - assert (c = 16%nat) as -> by lia. replace (16 * k + 16)%nat with (16 * S k)%nat by lia.
    rewrite IH by (rewrite ?length_app, ?length_ctr_crypt, ?Hdata, ?length_take, ?length_drop; lia).
    rewrite splice_block by (rewrite ?length_ctr_crypt; lia). rewrite splice_rest by (rewrite ?length_ctr_crypt; lia).
    do 2 f_equal. rewrite <- !app_assoc. f_equal. rewrite app_assoc. f_equal; [|f_equal; lia].
    replace (take remaining _) with (data ++ take (remaining - 16) (drop (16 * S k) input)).
    + rewrite ctr_crypt_app, Hdata. do 2 f_equal. lia.
    + unfold data. replace (16 * S k)%nat with (16 * k + 16)%nat by lia. rewrite <- drop_drop, take_take_drop. f_equal. lia.
Qed.
End cipher.

(** The first counter block: the nonce, zero-padded to a block. *)
Definition nonce_block (nonce : list Z) (n : nat) : list Z := take n nonce ++ replicate (16 - n) 0.
Definition key_bytes_of (key_len : Z) : nat := if key_len <=? 16 then 16%nat else if key_len <=? 24 then 24%nat else 32%nat.
Lemma key_bytes_of_ge key_len : (16 <= key_bytes_of key_len)%nat.
Proof. unfold key_bytes_of. case_tests. Qed.

(** What the buffers of the cipher must hold: a block of key, the nonce, the input and room for the output. *)
Record cipher_args (input : list Z) (n : nat) (key nonce : list Z) (nonce_len : Z) (out : list Z) : Prop := {
  args_input : (n <= length input)%nat;
  args_out : (n <= length out)%nat;
  args_key : (16 <= length key)%nat;
  args_key_u8 : Forall is_u8 key;
  args_nonce : 0 <= nonce_len <= Z.of_nat (length nonce);
  args_nonce_u8 : Forall is_u8 nonce }.

Definition first_counter (nonce : list Z) (nonce_len : Z) : Z := be_val (nonce_block nonce (Z.to_nat (Z.min nonce_len 16))).

Lemma nonce_block_inserts nonce nonce_len :
  0 <= nonce_len <= Z.of_nat (length nonce) -> Forall is_u8 nonce ->
  list_inserts 0 (take (Z.to_nat (Z.min nonce_len 16)) nonce) (replicate 16 0) = be_bytes 16 (first_counter nonce nonce_len).
Proof.
  intros Hn Hu. set (n := Z.to_nat _). assert (n <= 16 /\ n <= length nonce)%nat by lia.
  rewrite inserts_window by (rewrite length_take, length_replicate; lia). rewrite take_0, app_nil_l, drop_replicate, length_take_le by lia. rewrite Nat.add_0_l.
  unfold first_counter. fold n. fold (nonce_block nonce n).
  assert (length (nonce_block nonce n) = 16%nat) as L by (unfold nonce_block; rewrite length_app, length_take, length_replicate; lia).
  symmetry. rewrite <- L at 1. apply be_bytes_val. apply Forall_app; split; [by apply Forall_take|].
  apply Forall_replicate. by unfold is_u8.
Qed.

Lemma aes_ctr_spec {F} input n key key_len nonce nonce_len out (s : F) :
  cipher_args input n key nonce nonce_len out ->
  sig_img_aes_ctr_crypt (Some input) (Z.of_nat n) (Some key) key_len (Some nonce) nonce_len (Some out) s =
  Done ((SIG_IMG_OK, Some (ctr_crypt (first_counter nonce nonce_len) key 0 (take n input) ++ drop n out)), s).
Proof.
  intros [Hi Ho Hk Hku Hn Hnu]. unfold sig_img_aes_ctr_crypt. rewrite bind_bytes_at by lia. rewrite drop_0.
  change (Z.of_nat SIGNED_IMAGE_AES_BLOCK_SIZE) with 16. change SIGNED_IMAGE_AES_BLOCK_SIZE with 16%nat.
  rewrite nonce_block_inserts by done. rewrite Nat2Z.id. fold (key_bytes_of key_len).
  pose proof (crypt_loop_correct key (key_bytes_of key_len) (key_bytes_of_ge _) Hk (Forall_take _ _ _ Hku)
    (first_counter nonce nonce_len) (S n) 0 input out n s ltac:(lia) Hi Ho) as E.
  rewrite Z.add_0_r in E. change (16 * 0)%nat with 0%nat in E. by rewrite (bind_step _ _ _ _ _ E).
Qed.

Lemma ctr_stream_prefix nonce key key' j : take 16 key = take 16 key' -> ctr_stream nonce key j = ctr_stream nonce key' j.
Proof.
  intros E. unfold ctr_stream. f_equal. pose proof (Nat.mod_upper_bound j 16 ltac:(lia)) as Hj.
  rewrite !list_lookup_total_alt, <- (lookup_take_lt key 16), <- (lookup_take_lt key' 16) by done. by rewrite E.
Qed.
Lemma ctr_crypt_prefix nonce key key' from data : take 16 key = take 16 key' -> ctr_crypt nonce key from data = ctr_crypt nonce key' from data.
Proof. intros E. apply imap_ext. intros j b _. cbn. f_equal. by apply ctr_stream_prefix. Qed.

(** C18: the cipher computes the counter-mode reference: byte j of the output is byte j of the input xor byte j mod 16 of the
    nonce plus the block number (a 128-bit big-endian integer) xor byte j mod 16 of the key; the rest of the output is
    kept. *)
Theorem aes_ctr_crypt_correct {F} input n key key_len nonce nonce_len out (s : F) :
  cipher_args input n key nonce nonce_len out ->
  exists res, sig_img_aes_ctr_crypt (Some input) (Z.of_nat n) (Some key) key_len (Some nonce) nonce_len (Some out) s =
    Done ((SIG_IMG_OK, Some res), s) /\
    length res = length out /\
    (forall j b, (j < n)%nat -> input !! j = Some b ->
       res !! j = Some (Z.lxor b (Z.lxor (be_bytes 16 (first_counter nonce nonce_len + Z.of_nat (j / 16)) !!! (j mod 16)%nat)
                                         (key !!! (j mod 16)%nat)))) /\
    (forall j, (n <= j)%nat -> res !! j = out !! j).
Proof.
  intros A. eexists. split; [by apply aes_ctr_spec|]. destruct A.
  assert (length (ctr_crypt (first_counter nonce nonce_len) key 0 (take n input)) = n) as L by (rewrite length_ctr_crypt, length_take; lia).
  split; [rewrite length_app, L, length_drop; lia|]. split.
  - intros j b Hj E. rewrite lookup_app_l by lia. unfold ctr_crypt. rewrite list_lookup_imap, lookup_take_lt, E by done. done.
  - intros j Hj. rewrite lookup_app_r by lia. rewrite L, lookup_drop. f_equal. lia.
Qed.

Definition demo_key : list Z := [17; 34; 51; 68; 85; 102; 119; 136; 153; 170; 187; 204; 221; 238; 255; 1; 7; 7].
Definition demo_iv : list Z := replicate 15 255 ++ [254].
Definition demo_plain : list Z := seqZ 1 40.

Lemma demo_args out : (40 <= length out)%nat -> cipher_args demo_plain 40 demo_key demo_iv 16 out.
Proof. intros H. split; try (vm_compute; lia); try done; cbn; repeat constructor; unfold is_u8; lia. Qed.

Lemma aes_ctr_crypt_correct_witness :
  cipher_args demo_plain 40 demo_key demo_iv 16 (replicate 41 9) /\
  exists res, sig_img_aes_ctr_crypt (F := unit) (Some demo_plain) 40 (Some demo_key) 18 (Some demo_iv) 16 (Some (replicate 41 9)) tt =
    Done ((SIG_IMG_OK, Some res), tt) /\ res !! 40%nat = Some 9 /\ res !! 32%nat = Some 48.
Proof.
  assert (cipher_args demo_plain 40 demo_key demo_iv 16 (replicate 41 9)) as A by (apply demo_args; cbn; lia).
  split; [done|]. destruct (aes_ctr_crypt_correct demo_plain 40 demo_key 18 demo_iv 16 (replicate 41 9) tt A) as (res & E & _ & H1 & H2).
  exists res. split; [exact E|]. split; [by rewrite H2 by lia|]. rewrite (H1 32%nat 33) by (lia || done). vm_compute. reflexivity.
Defined.

Section payload.
Context {F : Type} (key : list Z) (key_len : Z) (iv : list Z) (iv_len : Z) (s : F).
Hypothesis Hiv : 16 <= iv_len.

Lemma encrypt_spec plain n out :
  cipher_args plain n key iv iv_len out ->
  sig_img_encrypt_payload (Some plain) (Z.of_nat n) (Some key) key_len (Some iv) iv_len (Some out) true s =
  Done ((SIG_IMG_OK, Some (ctr_crypt (first_counter iv iv_len) key 0 (take n plain) ++ drop n out), Some (Z.of_nat n)), s).
Proof.
  intros A. unfold sig_img_encrypt_payload. rewrite !bool_decide_eq_false_2 by done. cbn [orb negb].
  rewrite (proj2 (Z.ltb_ge _ _)) by (unfold SIGNED_IMAGE_IV_SIZE; lia). by rewrite (bind_step _ _ _ _ _ (aes_ctr_spec _ _ _ _ _ _ _ _ A)).
Qed.
Lemma decrypt_spec enc n out :
  cipher_args enc n key iv iv_len out ->
  sig_img_decrypt_payload (Some enc) (Z.of_nat n) (Some key) key_len (Some iv) iv_len (Some out) true s =
  Done ((SIG_IMG_OK, Some (ctr_crypt (first_counter iv iv_len) key 0 (take n enc) ++ drop n out), Some (Z.of_nat n)), s).
Proof.
  intros A. unfold sig_img_decrypt_payload. rewrite !bool_decide_eq_false_2 by done. cbn [orb negb].
  rewrite (proj2 (Z.ltb_ge _ _)) by (unfold SIGNED_IMAGE_IV_SIZE; lia). by rewrite (bind_step _ _ _ _ _ (aes_ctr_spec _ _ _ _ _ _ _ _ A)).
Qed.
End payload.

(** A payload encrypted and decrypted with the same key and vector comes back, with the length reported and the rest of
    both buffers kept. *)
Theorem payload_roundtrip {F} key key_len iv iv_len plain n out out2 (s : F) :
  16 <= iv_len -> cipher_args plain n key iv iv_len out -> (n <= length out2)%nat ->
  exists enc,
    sig_img_encrypt_payload (Some plain) (Z.of_nat n) (Some key) key_len (Some iv) iv_len (Some out) true s =
      Done ((SIG_IMG_OK, Some enc, Some (Z.of_nat n)), s) /\
    sig_img_decrypt_payload (Some enc) (Z.of_nat n) (Some key) key_len (Some iv) iv_len (Some out2) true s =
      Done ((SIG_IMG_OK, Some (take n plain ++ drop n out2), Some (Z.of_nat n)), s).
Proof.
  intros Hiv A H2. eexists. split; [by apply encrypt_spec|]. destruct A.
  assert (length (ctr_crypt (first_counter iv iv_len) key 0 (take n plain)) = n) as L by (rewrite length_ctr_crypt, length_take; lia).
  rewrite decrypt_spec by (done || (split; try done; rewrite length_app, L; lia)).
  by rewrite take_app_length', ctr_crypt_involutive.
Qed.

Lemma payload_roundtrip_witness :
  exists enc,
    sig_img_encrypt_payload (F := unit) (Some demo_plain) 40 (Some demo_key) 32 (Some demo_iv) 16 (Some (replicate 40 0)) true tt =
      Done ((SIG_IMG_OK, Some enc, Some 40), tt) /\ enc <> demo_plain /\
    sig_img_decrypt_payload (F := unit) (Some enc) 40 (Some demo_key) 32 (Some demo_iv) 16 (Some (replicate 41 3)) true tt =
      Done ((SIG_IMG_OK, Some (demo_plain ++ [3]), Some 40), tt).
Proof.
  destruct (payload_roundtrip demo_key 32 demo_iv 16 demo_plain 40 (replicate 40 0) (replicate 41 3) tt) as (enc & E & D).
  - lia.
  - apply demo_args. cbn. lia.
  - cbn. lia.
  - exists enc. split; [exact E|]. split; [|exact D]. intros ->. vm_compute in E. discriminate.
Defined.

Lemma first_counter_full iv : length iv = 16%nat -> Forall is_u8 iv -> be_bytes 16 (first_counter iv 16) = iv.
Proof.
  intros L U. unfold first_counter, nonce_block. change (Z.to_nat (Z.min 16 16)) with 16%nat.
  change (16 - 16)%nat with 0%nat. rewrite take_ge by lia. cbn [replicate]. rewrite app_nil_r, <- L. by apply be_bytes_val.
Qed.

(** The first block of the stream undone by the message and the vector. *)
Lemma first_block_key key iv plain rest n :
  (16 <= n <= length plain)%nat -> (16 <= length key)%nat -> length iv = 16%nat -> Forall is_u8 iv ->
  zip_with Z.lxor (zip_with Z.lxor (take 16 plain) (ctr_crypt (first_counter iv 16) key 0 (take n plain) ++ rest)) iv = take 16 key.
Proof.
  intros Hn Hk Liv Uiv. apply list_eq_same_length with 16%nat; [rewrite length_take; lia| |].
  { rewrite !length_zip_with, length_app, length_ctr_crypt, !length_take. lia. }
  intros i x y Hi. rewrite !lookup_zip_with, lookup_take_lt, lookup_take_lt, lookup_app_l by (rewrite ?length_ctr_crypt, ?length_take; lia).
  unfold ctr_crypt. rewrite list_lookup_imap, lookup_take_lt by lia.
  destruct (lookup_lt_is_Some_2 plain i) as [p Hp]; [lia|]. destruct (lookup_lt_is_Some_2 iv i) as [v Hv]; [lia|]. rewrite Hp, Hv.
  intros [= <-] Ey. unfold ctr_stream. cbn [Nat.add].
  rewrite (Nat.div_small i), (Nat.mod_small i), Z.add_0_r, first_counter_full by done.
  rewrite !list_lookup_total_alt, Hv, Ey. cbn.
  rewrite <- !Z.lxor_assoc, Z.lxor_nilpotent, Z.lxor_0_l, (Z.lxor_comm v), Z.lxor_assoc, Z.lxor_nilpotent. by rewrite Z.lxor_0_r.
Qed.

(** The cipher does not protect its key: one block of a message and its ciphertext give the first sixteen bytes of the
    key, whatever its length, and a key with these bytes decrypts everything else that was encrypted with the same
    vector. *)
Theorem cipher_gives_key_away {F} key key_len iv plain n out (s : F) :
  cipher_args plain n key iv 16 out -> (16 <= n)%nat -> length iv = 16%nat ->
  exists enc,
    sig_img_encrypt_payload (Some plain) (Z.of_nat n) (Some key) key_len (Some iv) 16 (Some out) true s =
      Done ((SIG_IMG_OK, Some enc, Some (Z.of_nat n)), s) /\
    take 16 key = zip_with Z.lxor (zip_with Z.lxor (take 16 plain) enc) iv /\
    forall guess guess_len other m buf, take 16 guess = take 16 key -> cipher_args other m guess iv 16 buf ->
      sig_img_decrypt_payload (Some other) (Z.of_nat m) (Some guess) guess_len (Some iv) 16 (Some buf) true s =
      sig_img_decrypt_payload (Some other) (Z.of_nat m) (Some key) key_len (Some iv) 16 (Some buf) true s.
Proof.
  intros A Hn Liv. eexists. split; [by apply encrypt_spec|]. pose proof A as [].
  split; [symmetry; by apply first_block_key|].
  intros guess guess_len other m buf E B. rewrite (decrypt_spec guess) by done.
  rewrite (decrypt_spec key) by (done || (destruct B; split; try done)).
  by rewrite (ctr_crypt_prefix _ guess key).
Qed.

Lemma cipher_gives_key_away_witness :
  exists enc,
    sig_img_encrypt_payload (F := unit) (Some demo_plain) 40 (Some demo_key) 18 (Some demo_iv) 16 (Some (replicate 40 0)) true tt =
      Done ((SIG_IMG_OK, Some enc, Some 40), tt) /\
    take 16 demo_key = zip_with Z.lxor (zip_with Z.lxor (take 16 demo_plain) enc) demo_iv.
Proof.
  destruct (cipher_gives_key_away demo_key 18 demo_iv demo_plain 40 (replicate 40 0) tt) as (enc & E & K & _).
  - apply demo_args. cbn. lia.
  - lia.
  - done.
  - exists enc. by split.
Defined.

(** ** The hash *)

(** What the hash writes, whatever the data: the initial value. *)
Definition sha256_initial : list Z := concat (be_word <$> sha256_h).

Section hash.
Context {F : Type}.
Implicit Types s : F.

Lemma sha_blocks_ok fuel data pos len s :
  0 <= pos <= len -> (len - pos) / 64 < Z.of_nat fuel -> pos + 64 * ((len - pos) / 64) <= Z.of_nat (length data) ->
  sha_blocks fuel data pos len s = Done (tt, s).
Proof.
  revert pos. induction fuel as [|fuel IH]; intros pos Hp Hf Hl; [divmod_lia|]. cbn [sha_blocks].
  destruct (Z.leb_spec (pos + 64) len) as [H|H]; [|done].
  assert ((len - (pos + 64)) / 64 = (len - pos) / 64 - 1) as E by divmod_lia.
  rewrite bind_bytes_at by (apply Nat2Z.inj_le; divmod_lia). apply IH; rewrite ?E; lia.
Qed.

Lemma sha_blocks_bad fuel data pos len s :
  0 <= pos <= len -> (len - pos) / 64 < Z.of_nat fuel -> pos <= Z.of_nat (length data) < pos + 64 * ((len - pos) / 64) ->
  sha_blocks fuel data pos len s = UB.
Proof.
  revert pos. induction fuel as [|fuel IH]; intros pos Hp Hf Hl; [divmod_lia|]. cbn [sha_blocks].
  destruct (Z.leb_spec (pos + 64) len) as [H|H]; [|divmod_lia].
  assert ((len - (pos + 64)) / 64 = (len - pos) / 64 - 1) as E by divmod_lia.
  destruct (Z.le_gt_cases (pos + 64) (Z.of_nat (length data))).
  - rewrite bind_bytes_at by lia. apply IH; rewrite ?E; lia.
  - by rewrite bind_bytes_bad by lia.
Qed.

Lemma sha256_ok data len s :
  0 <= len -> 64 * (len / 64) <= Z.of_nat (length data) -> sig_img_sha256 data len s = Done (sha256_initial, s).
Proof.
  intros Hl Hd. unfold sig_img_sha256. assert (0 <= len / 64) by (apply Z.div_pos; lia).
  by rewrite (bind_step _ _ _ _ _ (sha_blocks_ok (S (Z.to_nat (len / 64))) data 0 len s ltac:(lia) ltac:(rewrite Z.sub_0_r; lia) ltac:(rewrite Z.sub_0_r; lia))).
Qed.
Lemma sha256_bad data len s :
  0 <= len -> Z.of_nat (length data) < 64 * (len / 64) -> sig_img_sha256 data len s = UB.
Proof.
  intros Hl Hd. unfold sig_img_sha256. assert (0 <= len / 64) by (apply Z.div_pos; lia). unfold mbind, M_bind.
  by rewrite (sha_blocks_bad (S (Z.to_nat (len / 64))) data 0 len s) by (rewrite ?Z.sub_0_r; lia).
Qed.
End hash.

(** ** The header in memory *)

(** The ranges of the C fields. *)
Definition header_wf (h : signed_image_header_t) : Prop :=
  (is_u32 (magic h) /\ 0 <= header_version h < 65536 /\ 0 <= header_size h < 65536 /\ is_u32 (image_size h) /\ is_u32 (image_offset h)) /\
  (is_u32 (version_major h) /\ is_u32 (version_minor h) /\ is_u32 (version_patch h) /\ 0 <= build_timestamp h < 18446744073709551616) /\
  (0 <= signature_len h < 65536 /\ is_u8 (signature_algo h) /\ is_u8 (encryption h) /\ is_u32 (key_id h) /\ is_u32 (min_counter_value h) /\
   is_u32 (max_rollback_index h)) /\
  (is_u8 (security_level h) /\ is_u8 (flags h) /\ 0 <= product_id h < 65536 /\ 0 <= vendor_id h < 65536 /\ is_u32 (header_crc h)) /\
  (bytes_of_length 32 (image_hash h) /\ bytes_of_length 72 (signature h) /\ bytes_of_length 16 (iv h) /\ bytes_of_length 32 (key_fingerprint h)) /\
  (bytes_of_length 16 (hw_id h) /\ bytes_of_length 16 (hw_id_mask h) /\ bytes_of_length 64 (reserved h)).

Lemma image_fields_lengths h : header_wf h -> length <$> header_fields h = header_layout.
Proof.
  intros (_ & _ & _ & _ & ([L1 _] & [L2 _] & [L3 _] & [L4 _]) & [L5 _] & [L6 _] & [L7 _]). unfold header_fields. cbn [fmap list_fmap].
  by rewrite !length_le_bytes, L1, L2, L3, L4, L5, L6, L7.
Qed.
Lemma length_image_header h : header_wf h -> length (encode_header h) = sizeof_header.
Proof. intros H. unfold encode_header. rewrite length_concat_sum, image_fields_lengths by done. done. Qed.

Lemma encode_header_u8 h : header_wf h -> Forall is_u8 (encode_header h).
Proof.
  intros (_ & _ & _ & _ & ([_ L1] & [_ L2] & [_ L3] & [_ L4]) & [_ L5] & [_ L6] & [_ L7]). unfold encode_header, header_fields. cbn [concat].
  repeat (apply Forall_app; split); first [apply le_bytes_u8 | done | constructor].
Qed.

Lemma decode_image_header h : header_wf h -> decode_header (encode_header h) = h.
Proof.
  intros H. unfold decode_header, encode_header. rewrite <- (image_fields_lengths h H), split_fields_concat.
  destruct H as ((?&?&?&?&?) & (?&?&?&?) & (?&?&?&?&?&?) & (?&?&?&?&?) & _ & _). unfold is_u8, is_u32 in *. unfold header_fields.
  cbn [lookup_total list_lookup_total].
  rewrite !le_val_bytes by (change (256 ^ Z.of_nat 1) with 256; change (256 ^ Z.of_nat 2) with 65536; change (256 ^ Z.of_nat 4) with 4294967296;
    change (256 ^ Z.of_nat 8) with 18446744073709551616; done). by destruct h.
Qed.

(** The structure has its size whatever bytes it was read from. *)
Lemma length_encode_decode bs : length bs = sizeof_header -> length (encode_header (decode_header bs)) = sizeof_header.
Proof.
  intros H. unfold encode_header. rewrite length_concat_sum. unfold header_fields, decode_header, header_layout.
  cbn [split_fields lookup_total list_lookup_total image_hash signature iv key_fingerprint hw_id hw_id_mask reserved fmap list_fmap].
  rewrite !length_le_bytes, !length_take, !length_drop, H. reflexivity.
Qed.

(** The header up to its checksum. *)
Definition header_body (h : signed_image_header_t) : list Z := concat (take 26 (header_fields h)).
Lemma encode_header_split h : encode_header h = header_body h ++ le_bytes 4 (header_crc h).
Proof. unfold encode_header, header_body, header_fields. cbn [take concat]. by rewrite !app_nil_r, <- !app_assoc. Qed.
Lemma header_body_crc x h : header_body (set_header_crc x h) = header_body h.
Proof. by destruct h. Qed.
Lemma length_header_body h : header_wf h -> length (header_body h) = 306%nat.
Proof.
  intros H. pose proof (length_image_header h H) as L. rewrite encode_header_split, length_app, length_le_bytes in L.
  unfold sizeof_header in L. lia.
Qed.
Lemma set_header_crc_wf x h : header_wf h -> is_u32 x -> header_wf (set_header_crc x h).
Proof. intros (?&?&?&(?&?&?&?&_)&?&?) Hx. done. Qed.

Lemma decode_take h rest : header_wf h -> decode_header (take sizeof_header (encode_header h ++ rest)) = h.
Proof. intros H. rewrite take_app_length' by by rewrite length_image_header. by apply decode_image_header. Qed.

Lemma header_at_encoded {F} h rest (s : F) : header_wf h -> header_at (encode_header h ++ rest) s = Done (h, s).
Proof.
  intros H. unfold header_at. rewrite bind_bytes_at by (rewrite length_app, length_image_header by done; lia).
  by rewrite drop_0, decode_take.
Qed.

Lemma sha256_initial_bytes : bytes_of_length 32 sha256_initial.
Proof. split; [done|]. unfold sha256_initial. cbn. repeat constructor; apply u8_range. Qed.

Lemma built_header_wf image_len algo now : header_wf (built_header image_len algo now sha256_initial).
Proof.
  pose proof (u32_range image_len). pose proof (u64_range now). pose proof (u8_range algo).
  assert (forall n, bytes_of_length n (replicate n 0)) as R by (intros n; split; [by rewrite length_replicate|]; apply Forall_replicate; unfold is_u8; lia).
  pose proof sha256_initial_bytes as [L U].
  assert (bytes_of_length 72 (sha256_initial ++ replicate 40 0)) as R72
    by (split; [by rewrite length_app, L|apply Forall_app; split; [done|apply R]]).
  unfold header_wf, built_header, is_u32, is_u8. cbn -[replicate sha256_initial u64 u8 u32 bytes_of_length].
  repeat match goal with |- _ /\ _ => split end; first [done | apply R | lia | split; assumption].
Qed.

(** ** Validation *)

(** Replacing four bytes of a buffer. *)
Definition patch4 (i : nat) (y : Z) (p : list Z) : list Z := take i p ++ le_bytes 4 y ++ drop (i + 4) p.

Lemma length_patch4 i y p : (i + 4 <= length p)%nat -> length (patch4 i y p) = length p.
Proof. intros H. unfold patch4. rewrite !length_app, length_le_bytes, length_take, length_drop. lia. Qed.
Lemma patch4_lookup i y p j :
  (i + 4 <= length p)%nat -> patch4 i y p !! j = if decide (i <= j < i + 4)%nat then le_bytes 4 y !! (j - i)%nat else p !! j.
Proof.
  intros H. unfold patch4. destruct (decide (j < i)%nat).
  { rewrite decide_False by lia. by rewrite lookup_app_l, lookup_take_lt by (rewrite ?length_take; lia). }
  rewrite lookup_app_r by (rewrite length_take; lia). rewrite length_take_le by lia. case_decide.
  - by rewrite lookup_app_l by (rewrite length_le_bytes; lia).
  - rewrite lookup_app_r by (rewrite length_le_bytes; lia). rewrite length_le_bytes, lookup_drop. f_equal. lia.
Qed.
Lemma patch4_comm i j y z p :
  (i + 4 <= j \/ j + 4 <= i)%nat -> (i + 4 <= length p)%nat -> (j + 4 <= length p)%nat ->
  patch4 i y (patch4 j z p) = patch4 j z (patch4 i y p).
Proof.
  intros H Hi Hj. apply list_eq. intros k. rewrite !patch4_lookup by (rewrite ?length_patch4; lia). repeat case_decide; done || lia.
Qed.
Lemma take_patch4 i y p n : (i + 4 <= n)%nat -> (n <= length p)%nat -> take n (patch4 i y p) = patch4 i y (take n p).
Proof.
  intros H Hn. apply list_eq. intros k. rewrite patch4_lookup by (rewrite length_take; lia). destruct (decide (k < n)%nat).
  - by rewrite !lookup_take_lt, patch4_lookup by lia.
  - rewrite decide_False, !lookup_take_ge by lia. done.
Qed.
Lemma patch4_same i p : (i + 4 <= length p)%nat -> Forall is_u8 p -> patch4 i (le_val (take 4 (drop i p))) p = p.
Proof.
  intros H U. unfold patch4. set (w := take 4 (drop i p)). assert (length w = 4%nat) as L by (unfold w; rewrite length_take, length_drop; lia).
  rewrite <- L at 1. rewrite le_bytes_val by (apply Forall_take, Forall_drop, U). unfold w.
  by rewrite <- (drop_drop p 4 i), take_drop, take_drop.
Qed.
Lemma window_patch4 i j y p :
  (i + 4 <= j \/ j + 4 <= i)%nat -> (i + 4 <= length p)%nat -> take 4 (drop j (patch4 i y p)) = take 4 (drop j p).
Proof.
  intros H Hi. apply list_eq. intros k. destruct (decide (k < 4)%nat); [|by rewrite !lookup_take_ge by lia].
  rewrite !lookup_take_lt, !lookup_drop, patch4_lookup by lia. by rewrite decide_False by lia.
Qed.
Lemma window_patch4_same i y p : (i + 4 <= length p)%nat -> take 4 (drop i (patch4 i y p)) = le_bytes 4 y.
Proof.
  intros Hi. unfold patch4. rewrite drop_app_length' by (rewrite length_take; lia). by rewrite take_app_length' by (by rewrite length_le_bytes).
Qed.
Lemma patch4_u8 i y p : Forall is_u8 p -> Forall is_u8 (patch4 i y p).
Proof. intros U. unfold patch4. repeat (apply Forall_app; split); [by apply Forall_take|apply le_bytes_u8|by apply Forall_drop]. Qed.

(** The bytes under the checksum, its own field read as zero. *)
Definition zeroed (p : list Z) : list Z := take 512 (patch4 306 0 p).

Lemma length_zeroed p : (512 <= length p)%nat -> length (zeroed p) = 512%nat.
Proof. intros H. unfold zeroed. rewrite length_take, length_patch4; lia. Qed.
Lemma zeroed_u8 p : Forall is_u8 p -> Forall is_u8 (zeroed p).
Proof. intros U. by apply Forall_take, patch4_u8. Qed.
Lemma window_zeroed i p :
  (i + 4 <= 306 \/ 310 <= i)%nat -> (i + 4 <= 512)%nat -> (512 <= length p)%nat -> take 4 (drop i (zeroed p)) = take 4 (drop i p).
Proof.
  intros Hi H5 Hp. unfold zeroed. rewrite skipn_firstn_comm, take_take, Nat.min_l by lia. apply window_patch4; lia.
Qed.

(** The tests of a header, given the checksum computed over it. *)
Definition header_verdict (h : signed_image_header_t) (crc : Z) : sig_img_result_t :=
  if negb (magic h =? SIGNED_IMAGE_MAGIC) then SIG_IMG_ERR_MAGIC
  else if negb (header_version h =? SIGNED_IMAGE_VERSION) then SIG_IMG_ERR_VERSION
  else if header_size h <? 512 then SIG_IMG_ERR_VERSION
  else if SIGNED_IMAGE_MAX_IMAGE_SIZE <? image_size h then SIG_IMG_ERR_SIZE
  else if crc =? header_crc h then SIG_IMG_OK else SIG_IMG_ERR_HASH.

Lemma validate_spec {F} p (s : F) :
  (512 <= length p)%nat ->
  sig_img_header_validate (Some p) s = Done (header_verdict (decode_header (take sizeof_header p)) (sig_img_crc32 (zeroed p)), s).
Proof.
  intros H. unfold sig_img_header_validate, header_at, header_verdict. rewrite bind_assoc, bind_bytes_at by (unfold sizeof_header; lia).
  rewrite drop_0, bind_ret. change (Z.of_nat SIGNED_IMAGE_HEADER_SIZE) with 512.
  repeat match goal with |- (if ?c then _ else _) s = _ => destruct c; [done|] end.
  unfold SIGNED_IMAGE_HEADER_SIZE. rewrite bind_bytes_at, drop_0 by lia.
  rewrite bind_write_at by (rewrite length_le_bytes, length_take; lia).
  replace (list_inserts 306 (le_bytes 4 0) (take 512 p)) with (zeroed p); [done|].
  rewrite inserts_window by (rewrite length_le_bytes, length_take; lia). rewrite length_le_bytes. unfold zeroed.
  by rewrite take_patch4 by lia.
Qed.

(** Through a pointer to a header and no more, the copy of 512 bytes is out of bounds. *)
Lemma validate_short {F} p (s : F) :
  length p = sizeof_header ->
  let h := decode_header p in
  (exists r, r <> SIG_IMG_OK /\ sig_img_header_validate (Some p) s = Done (r, s)) \/
  (sig_img_header_validate (Some p) s = UB /\
   magic h = SIGNED_IMAGE_MAGIC /\ header_version h = 1 /\ 512 <= header_size h /\ image_size h <= SIGNED_IMAGE_MAX_IMAGE_SIZE).
Proof.
  intros H h. unfold sig_img_header_validate, header_at. rewrite bind_assoc, bind_bytes_at by (unfold sizeof_header in *; lia).
  rewrite bind_ret, drop_0, take_ge by lia. fold h. unfold SIGNED_IMAGE_VERSION. change (Z.of_nat SIGNED_IMAGE_HEADER_SIZE) with 512.
  destruct (Z.eqb_spec (magic h) SIGNED_IMAGE_MAGIC); cbn [negb]; [|left; eexists; by split; [|done]].
  destruct (Z.eqb_spec (header_version h) 1); cbn [negb]; [|left; eexists; by split; [|done]].
  destruct (Z.ltb_spec (header_size h) 512); [left; eexists; by split; [|done]|].
  destruct (Z.ltb_spec SIGNED_IMAGE_MAX_IMAGE_SIZE (image_size h)); [left; eexists; by split; [|done]|].
  right. split; [|done]. apply bind_bytes_bad. unfold sizeof_header, SIGNED_IMAGE_HEADER_SIZE in *. lia.
Qed.

Lemma header_crc_at p : header_crc (decode_header (take sizeof_header p)) = le_val (take 4 (drop 306 p)).
Proof.
  unfold decode_header, header_layout. cbn [split_fields lookup_total list_lookup_total header_crc].
  rewrite !drop_drop. cbn [Nat.add]. rewrite skipn_firstn_comm, take_take. done.
Qed.

(** A patch before or behind the checksum field is a patch of the checksummed bytes. *)
Lemma zeroed_patch i y p :
  (i + 4 <= 306 \/ 310 <= i)%nat -> (i + 4 <= 512)%nat -> (512 <= length p)%nat -> zeroed (patch4 i y p) = patch4 i y (zeroed p).
Proof.
  intros Hi H5 Hp. unfold zeroed. rewrite patch4_comm by lia. by rewrite take_patch4 by (rewrite ?length_patch4; lia).
Qed.
Lemma zeroed_crc_patch y p : (512 <= length p)%nat -> zeroed (patch4 306 y p) = zeroed p.
Proof.
  intros Hp. unfold zeroed. f_equal. apply list_eq. intros k. rewrite !patch4_lookup by (rewrite ?length_patch4; lia). by case_decide.
Qed.

Lemma header_verdict_ok h crc : header_verdict h crc = SIG_IMG_OK -> crc = header_crc h.
Proof.
  unfold header_verdict. repeat match goal with |- context [if negb ?c then _ else _] => destruct c; [|done] end. cbn.
  case_tests; done.
Qed.

Lemma window_u32 i p : (i + 4 <= length p)%nat -> Forall is_u8 p -> is_u32 (le_val (take 4 (drop i p))).
Proof.
  intros H U. assert (Forall is_u8 (take 4 (drop i p))) as W by by apply Forall_take, Forall_drop.
  assert (length (take 4 (drop i p)) = 4%nat) as L by (rewrite length_take, length_drop; lia).
  destruct (take 4 (drop i p)) as [|a [|b [|c [|d []]]]]; try discriminate L.
  rewrite !Forall_cons in W. destruct W as (?&?&?&?&_). unfold is_u8, is_u32 in *. cbn [le_val]. lia.
Qed.

(** The checksum of the buffer fixes each window of it. *)
Lemma crc_patch_same i y z :
  Forall is_u8 z -> (i + 4 <= length z)%nat -> is_u32 y -> sig_img_crc32 (patch4 i y z) = sig_img_crc32 z -> y = le_val (take 4 (drop i z)).
Proof.
  intros U Hi Hy E. rewrite <- (patch4_same i z Hi U) in E at 2. revert E. unfold patch4, sig_img_crc32. rewrite !app_assoc, <- !app_assoc.
  intros E. eapply crc32_field_inj; [| |exact Hy| |exact E]; [by apply Forall_take|by apply Forall_drop|by apply window_u32].
Qed.

(** Of a buffer that passes validation, no four bytes of the 512 can be changed together, inside or outside the
    structure, so that it still passes. *)
Theorem damaged_header_rejected {F} p i y (s : F) :
  Forall is_u8 p -> (512 <= length p)%nat -> sig_img_header_validate (Some p) s = Done (SIG_IMG_OK, s) ->
  (i + 4 <= 306 \/ i = 306 \/ 310 <= i)%nat -> (i + 4 <= 512)%nat -> is_u32 y -> patch4 i y p <> p ->
  exists r, r <> SIG_IMG_OK /\ sig_img_header_validate (Some (patch4 i y p)) s = Done (r, s).
Proof.
  intros U Hp V Hi H5 Hy Hne. rewrite validate_spec in V by done. injection V as V. apply header_verdict_ok in V.
  rewrite validate_spec by (rewrite length_patch4; lia). eexists; split; [|done]. intros V'%header_verdict_ok. apply Hne.
  rewrite header_crc_at in V, V'. pose proof (window_u32 i p ltac:(lia) U) as W. unfold is_u32 in Hy, W.
  replace y with (le_val (take 4 (drop i p))); [apply patch4_same; [lia|done]|]. destruct (decide (i = 306%nat)) as [->|Hn].
  - rewrite zeroed_crc_patch, V, window_patch4_same, le_val_bytes in V' by (done || lia). exact V'.
  - rewrite window_patch4, zeroed_patch, <- V in V' by lia. symmetry. rewrite <- (window_zeroed i p) by lia.
    apply crc_patch_same; [by apply zeroed_u8|rewrite length_zeroed; lia|done|exact V'].
Qed.


(** ** Building *)

Lemma zeroed_encoded h rest :
  header_wf h -> (202 <= length rest)%nat -> zeroed (encode_header h ++ rest) = take 512 (encode_header (set_header_crc 0 h) ++ rest).
Proof.
  intros H L. unfold zeroed, patch4. rewrite !encode_header_split, header_body_crc, <- !app_assoc.
  assert (drop (306 + 4) (header_body h ++ le_bytes 4 (header_crc h) ++ rest) = rest) as ->
    by (rewrite app_assoc, drop_app_length'; [done|]; by rewrite length_app, length_header_body, length_le_bytes).
  by rewrite (take_app_length' (header_body h)) by by rewrite length_header_body.
Qed.

Lemma inserts_front {A} (bs bs' rest : list A) : length bs = length bs' -> list_inserts 0 bs (bs' ++ rest) = bs ++ rest.
Proof. apply list_inserts_0_r. Qed.

Section building.
Context {F : Type} (s : F) (now algo : Z) (image out : list Z) (n : nat).
Hypothesis Himg : (n <= length image)%nat.
Hypothesis Hcap : (310 + n <= length out)%nat.
Hypothesis Hbig : (512 <= length out)%nat.
Hypothesis Uimg : Forall is_u8 image.
Hypothesis Uout : Forall is_u8 out.

Definition built_rest : list Z := take n image ++ drop (310 + n) out.
Definition built0 : signed_image_header_t := built_header (Z.of_nat n) algo now sha256_initial.
Definition built : signed_image_header_t := set_header_crc (sig_img_crc32 (take 512 (encode_header built0 ++ built_rest))) built0.

Lemma length_built_rest : length built_rest = (length out - 310)%nat.
Proof. unfold built_rest. rewrite length_app, length_take, length_drop. lia. Qed.
Lemma built0_wf : header_wf built0.
Proof. apply built_header_wf. Qed.
Lemma built_rest_u8 : Forall is_u8 built_rest.
Proof. apply Forall_app; split; [by apply Forall_take|by apply Forall_drop]. Qed.
Lemma built_wf : header_wf built.
Proof.
  apply set_header_crc_wf; [apply built0_wf|]. apply crc32_bound, Forall_take, Forall_app. split; [apply encode_header_u8, built0_wf|apply built_rest_u8].
Qed.

Lemma build_spec :
  sig_img_build_header now (Some image) (Z.of_nat n) (Some algo) true (Some out) true s =
  Done ((SIG_IMG_OK, Some (built, encode_header built ++ built_rest, u64 (310 + Z.of_nat n))), s).
Proof.
  unfold sig_img_build_header. cbn [negb andb].
  rewrite (bind_step _ _ _ _ _ (sha256_ok image (Z.of_nat n) s ltac:(lia) ltac:(divmod_lia))). fold built0.
  pose proof (length_image_header _ built0_wf) as L0. pose proof (length_image_header _ built_wf) as L1. unfold sizeof_header in L0, L1.
  rewrite bind_write_at by lia. rewrite bind_bytes_at by lia. rewrite Nat2Z.id, drop_0.
  assert (list_inserts sizeof_header (take n image) (list_inserts 0 (encode_header built0) out) = encode_header built0 ++ built_rest) as E.
  { rewrite (inserts_window _ out 0) by lia. rewrite take_0, app_nil_l, Nat.add_0_l, L0. unfold sizeof_header. rewrite <- L0 at 1.
    rewrite <- (Nat.add_0_r (length _)), list_inserts_app_r. f_equal. rewrite inserts_window by (rewrite length_take, length_drop; lia).
    rewrite take_0, app_nil_l, drop_drop, length_take_le by lia. done. }
  rewrite bind_write_at by (rewrite length_inserts, length_take; unfold sizeof_header; lia). rewrite E.
  rewrite bind_bytes_at, drop_0 by (rewrite length_app, L0, length_built_rest; unfold SIGNED_IMAGE_HEADER_SIZE; lia).
  change SIGNED_IMAGE_HEADER_SIZE with 512%nat. fold built.
  rewrite bind_write_at by (rewrite length_app, L0, L1, length_built_rest; lia).
  rewrite inserts_front by lia. done.
Qed.

Lemma built_zeroed : zeroed (encode_header built ++ built_rest) = take 512 (encode_header built0 ++ built_rest).
Proof. rewrite zeroed_encoded; [done|apply built_wf|rewrite length_built_rest; lia]. Qed.

Lemma built_validates : (n <= 32 * 1024 * 1024)%nat -> sig_img_header_validate (Some (encode_header built ++ built_rest)) s = Done (SIG_IMG_OK, s).
Proof.
  intros Hn. rewrite validate_spec by (rewrite length_app, (length_image_header _ built_wf), length_built_rest; unfold sizeof_header; lia).
  rewrite decode_take, built_zeroed by apply built_wf. unfold header_verdict, built, built0, built_header, set_header_crc.
  cbn [magic header_version header_size image_size header_crc]. rewrite !Z.eqb_refl. cbn [negb].
  rewrite (proj2 (Z.ltb_ge _ 512)) by (unfold SIGNED_IMAGE_HEADER_SIZE; lia).
  rewrite u32_small by lia. by rewrite (proj2 (Z.ltb_ge _ (Z.of_nat n))) by (unfold SIGNED_IMAGE_MAX_IMAGE_SIZE; lia).
Qed.

Lemma built_parses : sig_img_header_parse (Some (encode_header built ++ built_rest)) (310 + Z.of_nat n) true s = Done ((SIG_IMG_OK, Some built), s).
Proof.
  unfold sig_img_header_parse. rewrite (proj2 (Z.ltb_ge _ _)) by (unfold sizeof_header; lia). cbn [negb orb].
  rewrite bind_bytes_at by (rewrite length_app, (length_image_header _ built_wf); lia). by rewrite drop_0, decode_take by apply built_wf.
Qed.
End building.

(** Building fills the output with the header, the image and nothing else; the header parses back and validates in place;
    its checksum covers what follows it up to byte 512.  The payload lies at byte 310, while the header
    says 512. *)
Theorem build_header_correct {F} now algo image out n (s : F) :
  (n <= length image)%nat -> (310 + n <= length out)%nat -> (512 <= length out)%nat -> Forall is_u8 image -> Forall is_u8 out ->
  exists h buf,
    sig_img_build_header now (Some image) (Z.of_nat n) (Some algo) true (Some out) true s =
      Done ((SIG_IMG_OK, Some (h, buf, u64 (310 + Z.of_nat n))), s) /\
    buf = encode_header h ++ take n image ++ drop (310 + n) out /\ length (encode_header h) = 310%nat /\
    sig_img_header_parse (Some buf) (310 + Z.of_nat n) true s = Done ((SIG_IMG_OK, Some h), s) /\
    ((n <= 32 * 1024 * 1024)%nat -> sig_img_header_validate (Some buf) s = Done (SIG_IMG_OK, s)) /\
    image_offset h = 512 /\ image_size h = u32 (Z.of_nat n) /\ image_hash h = sha256_initial.
Proof.
  intros Hi Hc Hb Ui Uo. do 2 eexists. split; [by apply build_spec|]. split; [done|].
  split; [by apply length_image_header, built_wf|]. split; [by apply built_parses|]. split; [|done]. intros Hn. by apply built_validates.
Qed.

Definition demo_image : list Z := seqZ 0 250.
Definition demo_out : list Z := replicate 560 255.

Lemma demo_built :
  exists h buf,
    sig_img_build_header (F := unit) 1700000000 (Some demo_image) 250 (Some 0) true (Some demo_out) true tt =
      Done ((SIG_IMG_OK, Some (h, buf, 560)), tt) /\ Forall is_u8 buf /\ length buf = 560%nat /\
    sig_img_header_validate (F := unit) (Some buf) tt = Done (SIG_IMG_OK, tt).
Proof.
  do 2 eexists. split; [vm_compute; reflexivity|]. split; [|split; [reflexivity|vm_compute; reflexivity]].
  apply (bool_decide_unpack (Forall is_u8 _)). vm_compute. exact I.
Qed.

Lemma build_header_correct_witness :
  exists h buf,
    sig_img_build_header (F := unit) 1700000000 (Some demo_image) 250 (Some 0) true (Some demo_out) true tt =
      Done ((SIG_IMG_OK, Some (h, buf, 560)), tt) /\
    sig_img_header_validate (F := unit) (Some buf) tt = Done (SIG_IMG_OK, tt) /\ image_offset h = 512.
Proof.
  destruct (build_header_correct 1700000000 0 demo_image demo_out 250 tt) as (h & buf & E & _ & _ & _ & V & O & _).
  - by apply Nat.leb_le.
  - by apply Nat.leb_le.
  - by apply Nat.leb_le.
  - by apply (bool_decide_unpack (Forall is_u8 _)).
  - by apply (bool_decide_unpack (Forall is_u8 _)).
  - exists h, buf. split; [exact E|]. split; [apply V; lia|exact O].
Defined.

Lemma damaged_header_rejected_witness :
  exists p, sig_img_header_validate (F := unit) (Some p) tt = Done (SIG_IMG_OK, tt) /\
  exists r, r <> SIG_IMG_OK /\ sig_img_header_validate (F := unit) (Some (patch4 400 1 p)) tt = Done (r, tt).
Proof.
  destruct demo_built as (h & buf & E & U & L & V). exists buf. split; [exact V|].
  apply (damaged_header_rejected buf 400 1 tt U); [lia|exact V|lia|lia|unfold is_u32; lia|].
  vm_compute in E. injection E as _ <-. vm_compute. discriminate.
Defined.

(** ** Verification of an image *)

Lemma le_val_nonneg bs : Forall is_u8 bs -> 0 <= le_val bs.
Proof. induction 1 as [|b bs Hb _ IH]; cbn; [done|]. unfold is_u8 in Hb. lia. Qed.

Lemma header_range bs :
  Forall is_u8 bs -> 0 <= image_offset (decode_header bs) /\ 0 <= image_size (decode_header bs) /\ 0 <= signature_len (decode_header bs).
Proof.
  intros U. unfold decode_header, header_layout. cbn [split_fields lookup_total list_lookup_total image_offset image_size signature_len].
  repeat match goal with |- _ /\ _ => split end; apply le_val_nonneg; repeat first [apply Forall_take|apply Forall_drop|assumption].
Qed.

(** The header an image begins with, and whether all that the hash reads lies in the image. *)
Definition header_of (image : list Z) : signed_image_header_t := decode_header (take sizeof_header image).
Definition in_image (image : list Z) : Prop :=
  image_offset (header_of image) + 64 * (image_size (header_of image) / 64) <= Z.of_nat (length image).

Section verifying.
Context {F : Type} (s : F) (image : list Z).
Hypothesis Hlen : (310 <= length image)%nat.
Hypothesis U : Forall is_u8 image.
Let h := header_of image.

Lemma image_header {B} (f : signed_image_header_t -> M F B) : (header_at image ≫= f) s = f h s.
Proof. unfold header_at. rewrite bind_assoc, bind_bytes_at by (unfold sizeof_header; lia). by rewrite drop_0, bind_ret. Qed.

Lemma image_range : 0 <= image_offset h /\ 0 <= image_size h /\ 0 <= signature_len h.
Proof. apply header_range. by apply Forall_take. Qed.

(** Hashing the payload: the pointer to it must not pass the end either. *)
Lemma payload_hash {B} (f : list Z -> M F B) :
  in_image image ->
  (bytes_at image (Z.to_nat (image_offset h)) (length image - Z.to_nat (image_offset h)) ≫= fun data => sig_img_sha256 data (image_size h) ≫= f) s =
  f sha256_initial s.
Proof.
  intros H. unfold in_image in H. fold h in H. destruct image_range as (H1 & H2 & _). assert (0 <= image_size h / 64) by (apply Z.div_pos; lia).
  rewrite bind_bytes_at by lia. apply bind_step, sha256_ok; [done|]. rewrite length_take, length_drop. lia.
Qed.

Lemma payload_hash_bad {B} (f : list Z -> M F B) :
  ~ in_image image ->
  (bytes_at image (Z.to_nat (image_offset h)) (length image - Z.to_nat (image_offset h)) ≫= fun data => sig_img_sha256 data (image_size h) ≫= f) s = UB.
Proof.
  intros H. unfold in_image in H. fold h in H. destruct image_range as (H1 & H2 & _).
  destruct (Z.le_gt_cases (image_offset h) (Z.of_nat (length image))); [|apply bind_bytes_bad; lia].
  rewrite bind_bytes_at by lia. unfold mbind at 1, M_bind at 1. rewrite sha256_bad; [done|done|]. rewrite length_take, length_drop. lia.
Qed.
Variables (image_len : Z).
Hypothesis Hil : 310 <= image_len.

Lemma verify_hash_in expected :
  (32 <= length expected)%nat -> in_image image ->
  sig_img_verify_hash (Some image) image_len (Some expected) s =
  Done (if bool_decide (image_hash h = sha256_initial /\ take 32 expected = sha256_initial) then SIG_IMG_OK else SIG_IMG_ERR_HASH, s).
Proof.
  intros He Hin. unfold sig_img_verify_hash. rewrite (proj2 (Z.eqb_neq image_len 0)) by lia. rewrite image_header, payload_hash by done.
  destruct (decide (image_hash h = sha256_initial)) as [E|E].
  - rewrite (bool_decide_eq_true_2 (sha256_initial = _)) by done. cbn [negb]. rewrite bind_bytes_at, drop_0 by (unfold SIGNED_IMAGE_HASH_SIZE; lia).
    do 2 f_equal. change SIGNED_IMAGE_HASH_SIZE with 32%nat. repeat case_bool_decide; naive_solver.
  - rewrite (bool_decide_eq_false_2 (sha256_initial = _)) by congruence. cbn [negb]. by rewrite bool_decide_eq_false_2 by naive_solver.
Qed.

Lemma verify_hash_out expected : ~ in_image image -> sig_img_verify_hash (Some image) image_len (Some expected) s = UB.
Proof.
  intros Hin. unfold sig_img_verify_hash. rewrite (proj2 (Z.eqb_neq image_len 0)) by lia. rewrite image_header. by apply payload_hash_bad.
Qed.

Lemma verify_signature_in key :
  in_image image ->
  sig_img_verify_signature (Some image) image_len (Some key) s =
  Done (if (1 <=? signature_len h) && (signature_len h <=? 72) then if signature_algo h =? algo key then SIG_IMG_OK else SIG_IMG_ERR_KEY
        else SIG_IMG_ERR_SIGNATURE, s).
Proof.
  intros Hin. unfold sig_img_verify_signature. rewrite (proj2 (Z.ltb_ge image_len _)) by (unfold sizeof_header; lia). rewrite image_header.
  change (Z.of_nat SIGNED_IMAGE_SIG_MAX) with 72. pose proof image_range as (_ & _ & Hs).
  destruct (Z.leb_spec 1 (signature_len h)); cbn [andb]; [|by rewrite (proj2 (Z.eqb_eq _ 0)) by lia].
  rewrite (proj2 (Z.eqb_neq _ 0)) by lia. destruct (Z.leb_spec (signature_len h) 72); [|by rewrite (proj2 (Z.ltb_lt _ _)) by lia].
  rewrite (proj2 (Z.ltb_ge _ _)) by lia. destruct (signature_algo h =? algo key); [|done]. cbn [negb].
  rewrite payload_hash by done. by case_bool_decide.
Qed.

Lemma verify_signature_out key :
  ~ in_image image -> 1 <= signature_len h <= 72 -> signature_algo h = algo key ->
  sig_img_verify_signature (Some image) image_len (Some key) s = UB.
Proof.
  intros Hin Hsl Ha. unfold sig_img_verify_signature. rewrite (proj2 (Z.ltb_ge image_len _)) by (unfold sizeof_header; lia). rewrite image_header.
  change (Z.of_nat SIGNED_IMAGE_SIG_MAX) with 72.
  rewrite (proj2 (Z.eqb_neq _ 0)), (proj2 (Z.ltb_ge _ _)), (proj2 (Z.eqb_eq _ (algo key))) by lia. by apply payload_hash_bad.
Qed.
End verifying.

(** The checks of an image do not depend on its signature or its contents: the signature check accepts every header with
    a signature length in range and the algorithm of the key, the hash check every header whose hash field is the constant the
    hash function returns; and either reads outside the image when the header's offset and size lead there. *)
Theorem signature_not_checked {F} image image_len key expected (s : F) :
  let h := header_of image in
  (310 <= length image)%nat -> Forall is_u8 image -> 310 <= image_len -> (32 <= length expected)%nat ->
  (in_image image ->
     sig_img_verify_signature (Some image) image_len (Some key) s =
       Done (if (1 <=? signature_len h) && (signature_len h <=? 72) then if signature_algo h =? algo key then SIG_IMG_OK else SIG_IMG_ERR_KEY
             else SIG_IMG_ERR_SIGNATURE, s) /\
     sig_img_verify_hash (Some image) image_len (Some expected) s =
       Done (if bool_decide (image_hash h = sha256_initial /\ take 32 expected = sha256_initial) then SIG_IMG_OK else SIG_IMG_ERR_HASH, s)) /\
  (~ in_image image ->
     sig_img_verify_hash (Some image) image_len (Some expected) s = UB /\
     (1 <= signature_len h <= 72 -> signature_algo h = algo key -> sig_img_verify_signature (Some image) image_len (Some key) s = UB)).
Proof.
  intros h Hl U Hil He. split; intros Hin; split.
  - by apply verify_signature_in.
  - by apply verify_hash_in.
  - by apply verify_hash_out.
  - intros Hs Ha. by apply verify_signature_out.
Qed.

(** A header that names a constant hash and any signature, before a payload that is never looked at. *)
Definition forged (sig : Z) : signed_image_header_t :=
  Header SIGNED_IMAGE_MAGIC 1 512 128 310 0 0 0 0 sha256_initial (replicate 72 sig) 72 0 0 (replicate 16 0) (replicate 32 0) 1 0 0
    (replicate 16 0) (replicate 16 0) 0 0 0 0 (replicate 64 0) 0.
Definition demo_public_key : sig_img_public_key_t := PublicKey (replicate 64 7) 64 0 sha256_initial 1 true 0 0.

Lemma signature_not_checked_witness :
  sig_img_verify_signature (F := unit) (Some (encode_header (forged 99) ++ replicate 128 5)) 438 (Some demo_public_key) tt = Done (SIG_IMG_OK, tt) /\
  sig_img_verify_hash (F := unit) (Some (encode_header (forged 99) ++ replicate 128 6)) 438 (Some sha256_initial) tt = Done (SIG_IMG_OK, tt).
Proof.
  split.
  - destruct (signature_not_checked (encode_header (forged 99) ++ replicate 128 5) 438 demo_public_key sha256_initial tt) as [H _];
      [by apply Nat.leb_le|by apply (bool_decide_unpack (Forall is_u8 _))|lia|by apply Nat.leb_le|].
    destruct H as [H _]; [unfold in_image; vm_compute; discriminate|]. rewrite H. vm_compute. reflexivity.
  - destruct (signature_not_checked (encode_header (forged 99) ++ replicate 128 6) 438 demo_public_key sha256_initial tt) as [H _];
      [by apply Nat.leb_le|by apply (bool_decide_unpack (Forall is_u8 _))|lia|by apply Nat.leb_le|].
    destruct H as [_ H]; [unfold in_image; vm_compute; discriminate|]. rewrite H. vm_compute. reflexivity.
Defined.

Lemma header_of_encoded h rest : header_wf h -> header_of (encode_header h ++ rest) = h.
Proof. apply decode_take. Qed.

(** An image just built, verified in a buffer of exactly its length, is read out of bounds by the hash check and, with a
    key of its algorithm, by the signature check: the payload is looked for 202 bytes too far. *)
Theorem built_image_overread {F} now alg image out n key (s : F) :
  (n <= length image)%nat -> length out = (310 + n)%nat -> (202 <= n)%nat -> Z.of_nat n < 4294967296 -> Forall is_u8 image -> Forall is_u8 out ->
  u8 alg = algo key ->
  exists h buf,
    sig_img_build_header now (Some image) (Z.of_nat n) (Some alg) true (Some out) true s =
      Done ((SIG_IMG_OK, Some (h, buf, u64 (310 + Z.of_nat n))), s) /\ length buf = length out /\
    sig_img_verify_hash (Some buf) (310 + Z.of_nat n) (Some (image_hash h)) s = UB /\
    sig_img_verify_signature (Some buf) (310 + Z.of_nat n) (Some key) s = UB.
Proof.
  intros Hi Ho Hn H32 Ui Uo Ha. do 2 eexists. split; [apply build_spec; (done || lia)|].
  pose proof (built_wf now alg image out n Ui Uo) as W. pose proof (length_image_header _ W) as L. unfold sizeof_header in L.
  assert (length (encode_header (built now alg image out n) ++ built_rest image out n) = length out) as Lb
    by (rewrite length_app, L, length_built_rest by lia; lia).
  split; [exact Lb|].
  assert (Forall is_u8 (encode_header (built now alg image out n) ++ built_rest image out n)) as Ub
    by (apply Forall_app; split; [by apply encode_header_u8|by apply built_rest_u8]).
  assert (~ in_image (encode_header (built now alg image out n) ++ built_rest image out n)) as Hin.
  { unfold in_image. rewrite header_of_encoded by done. cbn [built built0 built_header set_header_crc image_offset image_size].
    rewrite u32_small by lia. rewrite Lb, Ho. unfold SIGNED_IMAGE_HEADER_SIZE. divmod_lia. }
  split; [by apply verify_hash_out; (done || lia)|].
  apply verify_signature_out; first [done|lia|rewrite header_of_encoded by done; cbn; first [lia|exact Ha]].
Qed.

Lemma built_image_overread_witness :
  exists h buf,
    sig_img_build_header (F := unit) 5 (Some demo_image) 250 (Some 0) true (Some demo_out) true tt = Done ((SIG_IMG_OK, Some (h, buf, 560)), tt) /\
    sig_img_verify_hash (F := unit) (Some buf) 560 (Some (image_hash h)) tt = UB /\
    sig_img_verify_signature (F := unit) (Some buf) 560 (Some demo_public_key) tt = UB.
Proof.
  destruct (built_image_overread 5 0 demo_image demo_out 250 demo_public_key tt) as (h & buf & E & _ & H1 & H2).
  - by apply Nat.leb_le.
  - done.
  - lia.
  - lia.
  - by apply (bool_decide_unpack (Forall is_u8 _)).
  - by apply (bool_decide_unpack (Forall is_u8 _)).
  - done.
  - exists h, buf. split; [exact E|]. by split.
Defined.

(** The fields of a structure read from bytes are in range, and written back they give the bytes. *)
Lemma decode_header_wf bs : Forall is_u8 bs -> length bs = sizeof_header -> header_wf (decode_header bs).
Proof.
  intros U L. assert (forall i n, (i + n <= 310)%nat -> bytes_of_length n (take n (drop i bs))) as W.
  { intros i n H. split; [rewrite length_take, length_drop, L; unfold sizeof_header; lia|]. by apply Forall_take, Forall_drop. }
  assert (forall i n, (i + n <= 310)%nat -> 0 <= le_val (take n (drop i bs)) < 256 ^ Z.of_nat n) as V.
  { intros i n H. destruct (W i n H) as [L' U']. rewrite <- L' at 3. by apply le_val_bound. }
  unfold header_wf, decode_header, header_layout. cbn [split_fields lookup_total list_lookup_total magic header_version header_size image_size
    image_offset version_major version_minor version_patch build_timestamp image_hash signature signature_len signature_algo encryption iv
    key_fingerprint key_id min_counter_value max_rollback_index hw_id hw_id_mask security_level flags product_id vendor_id reserved header_crc].
  rewrite !drop_drop. unfold is_u32, is_u8. cbn [Nat.add].
  repeat match goal with |- (_ /\ _) => split end;
    first [ apply W; lia | apply (V 0%nat 4%nat); lia
          | match goal with |- context [le_val (take ?n (drop ?i _))] => apply (V i n); lia end ].
Qed.

Lemma concat_split_fields lens (bs : list Z) : length bs = sum_list lens -> concat (split_fields lens bs) = bs.
Proof.
  revert bs. induction lens as [|n lens IH]; intros bs H; cbn in *; [by destruct bs|].
  rewrite IH by (rewrite length_drop; lia). apply take_drop.
Qed.

Lemma encode_decode_header bs : Forall is_u8 bs -> length bs = sizeof_header -> encode_header (decode_header bs) = bs.
Proof.
  intros U L. transitivity (concat (split_fields header_layout bs)); [|by apply concat_split_fields].
  assert (forall i n, (i + n <= 310)%nat -> le_bytes n (le_val (take n (drop i bs))) = take n (drop i bs)) as E.
  { intros i n H. assert (length (take n (drop i bs)) = n) as Ln by (rewrite length_take, length_drop, L; unfold sizeof_header; lia).
    rewrite <- Ln at 1. by apply le_bytes_val, Forall_take, Forall_drop. }
  pose proof (E 0%nat 4%nat ltac:(lia)) as E0. rewrite drop_0 in E0.
  unfold encode_header, header_fields, decode_header, header_layout. cbn [split_fields lookup_total list_lookup_total magic header_version
    header_size image_size image_offset version_major version_minor version_patch build_timestamp image_hash signature signature_len
    signature_algo encryption iv key_fingerprint key_id min_counter_value max_rollback_index hw_id hw_id_mask security_level flags product_id
    vendor_id reserved header_crc].
  rewrite !drop_drop. cbn [Nat.add]. rewrite E0, !E by lia. done.
Qed.

(** The packed structure and its bytes correspond: any 310 bytes are a header whose fields are in the ranges of their types and which
    is written back as the same bytes, and every such header is written as 310 bytes and read back. *)
Theorem header_bytes_correct :
  (forall bs, Forall is_u8 bs -> length bs = sizeof_header -> header_wf (decode_header bs) /\ encode_header (decode_header bs) = bs) /\
  (forall h, header_wf h ->
     Forall is_u8 (encode_header h) /\ length (encode_header h) = sizeof_header /\ decode_header (encode_header h) = h).
Proof.
  split.
  - intros bs U L. split; [by apply decode_header_wf|by apply encode_decode_header].
  - intros h H. split; [by apply encode_header_u8|]. split; [by apply length_image_header|by apply decode_image_header].
Qed.

Lemma header_bytes_correct_witness :
  header_wf (decode_header (seqZ 1 200 ++ replicate 110 255)) /\ encode_header (decode_header (seqZ 1 200 ++ replicate 110 255)) = seqZ 1 200 ++ replicate 110 255 /\
  decode_header (encode_header (built_header 250 0 5 sha256_initial)) = built_header 250 0 5 sha256_initial.
Proof.
  destruct header_bytes_correct as [H1 H2]. destruct (H1 (seqZ 1 200 ++ replicate 110 255)) as [W E].
  - by apply (bool_decide_unpack (Forall is_u8 _)).
  - done.
  - split; [exact W|]. split; [exact E|]. apply H2, built_header_wf.
Defined.

Lemma parse_image {F} image image_len (s : F) :
  310 <= image_len -> (310 <= length image)%nat ->
  sig_img_header_parse (Some image) image_len true s = Done ((SIG_IMG_OK, Some (header_of image)), s).
Proof.
  intros H Hl. unfold sig_img_header_parse. rewrite (proj2 (Z.ltb_ge _ _)) by (unfold sizeof_header; lia). cbn [negb orb].
  by rewrite bind_bytes_at by (unfold sizeof_header; lia).
Qed.

(** ** The hardware counter *)

(** What the platform's counter promises: it holds a value, reading returns it, writing sets it. *)
Class HardwareCounter {F} (hal : sig_img_hal_t F) (value : F -> Z) := {
  counter_read : exists f, read_counter hal = Some f /\ forall d, (f d).1 = value d /\ value (f d).2 = value d;
  counter_write : exists f, write_counter hal = Some f /\ forall v d, value (f v d).2 = v }.

Definition ram_counter : sig_img_hal_t Z := Hal (Some (fun d => (d, d))) (Some (fun v _ => (0, v))).
#[export] Instance ram_counter_ok : HardwareCounter ram_counter (fun d => d).
Proof. split; eexists; by split. Qed.

(** The whole check never accepts: it validates a copy of the header that has only 310 bytes, so that a header it cannot
    reject by its fields leads to a copy of 512 bytes out of bounds.  What it rejects it rejects before the hardware
    counter is touched. *)
Theorem verify_full_never_accepts {F} (image : list Z) image_len (ctx : option (sig_img_verify_ctx_t F)) s :
  Forall is_u8 image -> image_len <= Z.of_nat (length image) ->
  (exists r, r <> SIG_IMG_OK /\ sig_img_verify_full (Some image) image_len ctx s = Done (r, s)) \/
  (sig_img_verify_full (Some image) image_len ctx s = UB /\ 310 <= image_len /\ ctx <> None /\
   let h := header_of image in
   magic h = SIGNED_IMAGE_MAGIC /\ header_version h = 1 /\ 512 <= header_size h /\ image_size h <= SIGNED_IMAGE_MAX_IMAGE_SIZE).
Proof.
  intros U Hl. unfold sig_img_verify_full. destruct ctx as [ctx|]; [|left; by exists SIG_IMG_ERR_PARAM].
  destruct (Z.ltb_spec image_len (Z.of_nat sizeof_header)) as [H|H]; [left; by exists SIG_IMG_ERR_PARAM|]. unfold sizeof_header in H.
  rewrite (bind_step _ _ _ _ _ (parse_image image image_len s ltac:(lia) ltac:(lia))).
  assert (Forall is_u8 (take sizeof_header image)) as Ut by by apply Forall_take.
  assert (length (take sizeof_header image) = sizeof_header) as Lt by (rewrite length_take; unfold sizeof_header; lia).
  replace (encode_header (header_of image)) with (take sizeof_header image) by (symmetry; by apply encode_decode_header).
  destruct (validate_short _ s Lt) as [(r & Hr & E)|(E & Hf)].
  - left. exists r. split; [done|]. rewrite (bind_step _ _ _ _ _ E). by rewrite bool_decide_eq_false_2.
  - right. unfold mbind, M_bind. rewrite E. split; [done|]. split; [lia|]. by split.
Qed.

Definition demo_ctx : sig_img_verify_ctx_t Z := Ctx [demo_public_key] ram_counter None 0.

Lemma verify_full_never_accepts_witness :
  sig_img_verify_full (Some (encode_header (forged 99) ++ replicate 128 5)) 438 (Some demo_ctx) 0 = UB \/
  exists r, r <> SIG_IMG_OK /\ sig_img_verify_full (Some (encode_header (forged 99) ++ replicate 128 5)) 438 (Some demo_ctx) 0 = Done (r, 0).
Proof.
  destruct (verify_full_never_accepts (encode_header (forged 99) ++ replicate 128 5) 438 (Some demo_ctx) 0) as [H|[H _]].
  - by apply (bool_decide_unpack (Forall is_u8 _)).
  - vm_compute. discriminate.
  - by right.
  - by left.
Defined.

Section rollback.
Context {F : Type} (hal : sig_img_hal_t F) (value : F -> Z) `{!HardwareCounter hal value}.

Lemma rollback_step h d :
  exists d', sig_img_check_anti_rollback (Some h) (Some hal) true d = Done ((SIG_IMG_OK, Some (value d <=? min_counter_value h)), d') /\
    value d' = Z.max (value d) (min_counter_value h).
Proof.
  destruct counter_read as (r & Er & Hr). destruct counter_write as (w & Ew & Hw).
  unfold sig_img_check_anti_rollback. cbn [negb]. rewrite Er, Ew. destruct (Hr d) as [H1 H2].
  unfold callback. unfold mbind at 1, M_bind at 1. destruct (r d) as [cur d1]. cbn [fst snd] in *. subst cur.
  destruct (Z.ltb_spec (min_counter_value h) (value d)) as [Hlt|Hge].
  - rewrite (proj2 (Z.leb_gt _ _)) by lia. exists d1. split; [done|]. lia.
  - rewrite (proj2 (Z.leb_le _ _)) by lia. unfold when. destruct (Z.ltb_spec (value d) (min_counter_value h)) as [Hw1|Hw1].
    + specialize (Hw (min_counter_value h) d1). destruct (w (min_counter_value h) d1) as [rc d2] eqn:E. cbn in Hw.
      exists d2. split; [|lia]. unfold mbind, M_bind. by rewrite E.
    + exists d1. split; [done|]. lia.
Qed.
End rollback.

(** The checks of a sequence of images, in order. *)
Fixpoint check_all {F} (hal : sig_img_hal_t F) (hs : list signed_image_header_t) : M F (list bool) :=
  match hs with
  | [] => mret []
  | h :: hs => r ← sig_img_check_anti_rollback (Some h) (Some hal) true; rs ← check_all hal hs; mret (default false (snd r) :: rs)
  end.

(** Over any sequence of images the counter ends at the largest value asked for, never below where it began, and an image is
    allowed exactly when no image before it, and no earlier counter value, asked for more. *)
Theorem anti_rollback_correct {F} (hal : sig_img_hal_t F) (value : F -> Z) `{!HardwareCounter hal value} hs d :
  exists allowed d', check_all hal hs d = Done (allowed, d') /\
    value d' = foldl Z.max (value d) (min_counter_value <$> hs) /\
    forall i h, hs !! i = Some h ->
      allowed !! i = Some (foldl Z.max (value d) (min_counter_value <$> take i hs) <=? min_counter_value h).
Proof.
  revert d. induction hs as [|h hs IH]; intros d.
  - exists [], d. split; [done|]. split; [done|]. intros i h [=].
  - destruct (rollback_step hal value h d) as (d1 & E1 & V1). destruct (IH d1) as (al & d2 & E2 & V2 & H2).
    exists ((value d <=? min_counter_value h) :: al), d2. split.
    { cbn [check_all]. rewrite (bind_step _ _ _ _ _ E1), (bind_step _ _ _ _ _ E2). done. }
    cbn [fmap list_fmap foldl]. rewrite <- V1. split; [done|].
    intros [|i] h' Hi; cbn [take fmap list_fmap foldl]; [by injection Hi as ->|]. rewrite <- V1. by apply H2.
Qed.

Definition with_counter (c : Z) : signed_image_header_t :=
  Header SIGNED_IMAGE_MAGIC 1 512 0 512 0 0 0 0 [] [] 32 0 0 [] [] 1 c 0 [] [] 0 0 0 0 [] 0.

Lemma anti_rollback_correct_witness :
  exists allowed, check_all ram_counter (with_counter <$> [3; 5; 4; 5]) 3 = Done (allowed, 5) /\ allowed !! 2%nat = Some false /\
    allowed !! 3%nat = Some true.
Proof.
  destruct (anti_rollback_correct ram_counter (fun d => d) (with_counter <$> [3; 5; 4; 5]) 3) as (al & d & E & V & H).
  cbn in V. subst d. exists al. split; [exact E|]. split; [by rewrite (H 2%nat (with_counter 4))|by rewrite (H 3%nat (with_counter 5))].
Defined.
