(* ===== verification/OtaClient.v ===== *)
(** * The update client (mini-ota-update/src/ota_client.c)

    Client contexts live in a map by address.  The application's callbacks are function pointers in the context; what a call
    through a pointer does is a parameter ([Context]) over the world of the contexts and an environment [E] (network, clock, screen).
    The size of a download is the constant of the source. *)
From S2P Require Import Prelude.

Definition NULL : Z := 0.
Definition OTA_CLIENT_URL_MAX : nat := 256.
Definition OTA_CLIENT_VERSION_MAX : nat := 64.
Definition OTA_CLIENT_DEVICE_ID_MAX : nat := 64.
Definition OTA_CLIENT_CHUNK_SIZE : Z := 4096.
Definition OTA_CLIENT_RESUME_MAGIC : Z := 1330921810.
Definition OTA_CLIENT_MAX_RETRIES : Z := 3.
Definition OTA_CLIENT_RETRY_DELAY_MS : Z := 5000.
Definition OTA_CLIENT_PROGRESS_INTERVAL : Z := 10.

Inductive ota_client_result_t :=
| OTA_CLIENT_OK | OTA_CLIENT_ERR_PARAM | OTA_CLIENT_ERR_NETWORK | OTA_CLIENT_ERR_STORAGE | OTA_CLIENT_ERR_CHECKSUM | OTA_CLIENT_ERR_SIGNATURE
| OTA_CLIENT_ERR_INSTALL | OTA_CLIENT_ERR_IN_PROGRESS | OTA_CLIENT_ERR_NO_UPDATE | OTA_CLIENT_ERR_POWER_LOW | OTA_CLIENT_ERR_TIME_WINDOW
| OTA_CLIENT_ERR_BUSY | OTA_CLIENT_ERR_CANCELLED | OTA_CLIENT_ERR_ABORTED.
Inductive ota_client_state_t :=
| OTA_CLIENT_STATE_IDLE | OTA_CLIENT_STATE_CHECKING | OTA_CLIENT_STATE_DOWNLOADING | OTA_CLIENT_STATE_VERIFYING | OTA_CLIENT_STATE_INSTALLING
| OTA_CLIENT_STATE_COMPLETE | OTA_CLIENT_STATE_FAILED | OTA_CLIENT_STATE_RESUMING.
Inductive ota_update_policy_t :=
| OTA_POLICY_NONE | OTA_POLICY_ANYTIME | OTA_POLICY_TIME_WINDOW | OTA_POLICY_BATTERY_REQUIRED | OTA_POLICY_USER_CONSENT | OTA_POLICY_MAINTENANCE_MODE.
#[export] Instance ota_client_state_eq : EqDecision ota_client_state_t.
Proof. solve_decision. Defined.
#[export] Instance ota_update_policy_eq : EqDecision ota_update_policy_t.
Proof. solve_decision. Defined.

(** The error number an event carries. *)
Definition result_code (r : ota_client_result_t) : Z :=
  match r with
  | OTA_CLIENT_OK => 0 | OTA_CLIENT_ERR_PARAM => 1 | OTA_CLIENT_ERR_NETWORK => 2 | OTA_CLIENT_ERR_STORAGE => 3 | OTA_CLIENT_ERR_CHECKSUM => 4
  | OTA_CLIENT_ERR_SIGNATURE => 5 | OTA_CLIENT_ERR_INSTALL => 6 | OTA_CLIENT_ERR_IN_PROGRESS => 7 | OTA_CLIENT_ERR_NO_UPDATE => 8
  | OTA_CLIENT_ERR_POWER_LOW => 9 | OTA_CLIENT_ERR_TIME_WINDOW => 10 | OTA_CLIENT_ERR_BUSY => 11 | OTA_CLIENT_ERR_CANCELLED => 12
  | OTA_CLIENT_ERR_ABORTED => 13
  end.

Record ota_client_resume_state_t := Resume {
  resume_magic : Z; session_id : list Z; firmware_url : list Z; r_version : list Z; total_size : Z; downloaded_size : Z; hash_sha256 : list Z;
  chunk_size : Z; last_chunk : Z; last_chunk_hash : list Z; r_retry_count : Z; last_error : Z; timestamp : Z; r_reserved : list Z }.
Record ota_update_policy_config_t := Policy {
  p_policy : ota_update_policy_t; time_window_start_hour : Z; time_window_start_min : Z; time_window_end_hour : Z; time_window_end_min : Z;
  min_battery_percent : Z; require_charger : bool; max_retries : Z; retry_delay_ms : Z; allow_cellular : bool; background_download : bool;
  auto_install : bool; install_delay_s : Z; reboot_delay_s : Z; power_safe_mode : bool }.
Record ota_progress_info_t := Progress {
  bytes_downloaded : Z; bytes_total : Z; percent : Z; speed_bytes_per_sec : Z; elapsed_seconds : Z; estimated_remaining : Z; g_state : ota_client_state_t }.
(** Function pointers; [user_data] is passed on. *)
Record ota_client_cb_t := Callbacks {
  cb_download : Z; cb_upload : Z; cb_progress : Z; cb_event : Z; cb_get_time : Z; cb_get_battery : Z; user_data : Z }.

Record ota_client_ctx_t := Ctx {
  callbacks : ota_client_cb_t; policy : ota_update_policy_config_t; update_url : list Z; device_id : list Z; current_version : list Z; new_version : list Z; state : ota_client_state_t; resume : ota_client_resume_state_t; progress : ota_progress_info_t; download_buffer : list Z; update_available : bool; download_complete : bool; verify_ok : bool; install_ok : bool; check_interval_s : Z; last_check_time : Z; retry_count : Z; last_state_time : Z; cancelled : bool }.

Definition set_policy v x := Ctx (callbacks x) v (update_url x) (device_id x) (current_version x) (new_version x) (state x) (resume x) (progress x) (download_buffer x) (update_available x) (download_complete x) (verify_ok x) (install_ok x) (check_interval_s x) (last_check_time x) (retry_count x) (last_state_time x) (cancelled x).
Definition set_update_url v x := Ctx (callbacks x) (policy x) v (device_id x) (current_version x) (new_version x) (state x) (resume x) (progress x) (download_buffer x) (update_available x) (download_complete x) (verify_ok x) (install_ok x) (check_interval_s x) (last_check_time x) (retry_count x) (last_state_time x) (cancelled x).
Definition set_device_id v x := Ctx (callbacks x) (policy x) (update_url x) v (current_version x) (new_version x) (state x) (resume x) (progress x) (download_buffer x) (update_available x) (download_complete x) (verify_ok x) (install_ok x) (check_interval_s x) (last_check_time x) (retry_count x) (last_state_time x) (cancelled x).
Definition set_current_version v x := Ctx (callbacks x) (policy x) (update_url x) (device_id x) v (new_version x) (state x) (resume x) (progress x) (download_buffer x) (update_available x) (download_complete x) (verify_ok x) (install_ok x) (check_interval_s x) (last_check_time x) (retry_count x) (last_state_time x) (cancelled x).
Definition set_new_version v x := Ctx (callbacks x) (policy x) (update_url x) (device_id x) (current_version x) v (state x) (resume x) (progress x) (download_buffer x) (update_available x) (download_complete x) (verify_ok x) (install_ok x) (check_interval_s x) (last_check_time x) (retry_count x) (last_state_time x) (cancelled x).
Definition set_state v x := Ctx (callbacks x) (policy x) (update_url x) (device_id x) (current_version x) (new_version x) v (resume x) (progress x) (download_buffer x) (update_available x) (download_complete x) (verify_ok x) (install_ok x) (check_interval_s x) (last_check_time x) (retry_count x) (last_state_time x) (cancelled x).
Definition set_resume v x := Ctx (callbacks x) (policy x) (update_url x) (device_id x) (current_version x) (new_version x) (state x) v (progress x) (download_buffer x) (update_available x) (download_complete x) (verify_ok x) (install_ok x) (check_interval_s x) (last_check_time x) (retry_count x) (last_state_time x) (cancelled x).
Definition set_progress v x := Ctx (callbacks x) (policy x) (update_url x) (device_id x) (current_version x) (new_version x) (state x) (resume x) v (download_buffer x) (update_available x) (download_complete x) (verify_ok x) (install_ok x) (check_interval_s x) (last_check_time x) (retry_count x) (last_state_time x) (cancelled x).
Definition set_download_buffer v x := Ctx (callbacks x) (policy x) (update_url x) (device_id x) (current_version x) (new_version x) (state x) (resume x) (progress x) v (update_available x) (download_complete x) (verify_ok x) (install_ok x) (check_interval_s x) (last_check_time x) (retry_count x) (last_state_time x) (cancelled x).
Definition set_update_available v x := Ctx (callbacks x) (policy x) (update_url x) (device_id x) (current_version x) (new_version x) (state x) (resume x) (progress x) (download_buffer x) v (download_complete x) (verify_ok x) (install_ok x) (check_interval_s x) (last_check_time x) (retry_count x) (last_state_time x) (cancelled x).
Definition set_download_complete v x := Ctx (callbacks x) (policy x) (update_url x) (device_id x) (current_version x) (new_version x) (state x) (resume x) (progress x) (download_buffer x) (update_available x) v (verify_ok x) (install_ok x) (check_interval_s x) (last_check_time x) (retry_count x) (last_state_time x) (cancelled x).
Definition set_verify_ok v x := Ctx (callbacks x) (policy x) (update_url x) (device_id x) (current_version x) (new_version x) (state x) (resume x) (progress x) (download_buffer x) (update_available x) (download_complete x) v (install_ok x) (check_interval_s x) (last_check_time x) (retry_count x) (last_state_time x) (cancelled x).
Definition set_install_ok v x := Ctx (callbacks x) (policy x) (update_url x) (device_id x) (current_version x) (new_version x) (state x) (resume x) (progress x) (download_buffer x) (update_available x) (download_complete x) (verify_ok x) v (check_interval_s x) (last_check_time x) (retry_count x) (last_state_time x) (cancelled x).
Definition set_retry_count v x := Ctx (callbacks x) (policy x) (update_url x) (device_id x) (current_version x) (new_version x) (state x) (resume x) (progress x) (download_buffer x) (update_available x) (download_complete x) (verify_ok x) (install_ok x) (check_interval_s x) (last_check_time x) v (last_state_time x) (cancelled x).
Definition set_cancelled v x := Ctx (callbacks x) (policy x) (update_url x) (device_id x) (current_version x) (new_version x) (state x) (resume x) (progress x) (download_buffer x) (update_available x) (download_complete x) (verify_ok x) (install_ok x) (check_interval_s x) (last_check_time x) (retry_count x) (last_state_time x) v.

Definition zero_resume : ota_client_resume_state_t :=
  Resume 0 (replicate 64 0) (replicate OTA_CLIENT_URL_MAX 0) (replicate OTA_CLIENT_VERSION_MAX 0) 0 0 (replicate 32 0) 0 0 (replicate 32 0) 0 0 0 (replicate 64 0).
Definition zero_progress : ota_progress_info_t := Progress 0 0 0 0 0 0 OTA_CLIENT_STATE_IDLE.
Definition no_callbacks : ota_client_cb_t := Callbacks NULL NULL NULL NULL NULL NULL NULL.
Definition default_policy : ota_update_policy_config_t :=
  Policy OTA_POLICY_ANYTIME 2 0 4 0 30 true OTA_CLIENT_MAX_RETRIES OTA_CLIENT_RETRY_DELAY_MS false true false 30 10 true.

Section client.
Context {E : Type}.
Record world := World { clients : gmap Z ota_client_ctx_t; env : E }.
Definition set_env (e : E) (w : world) : world := World (clients w) e.
Definition set_clients (m : gmap Z ota_client_ctx_t) (w : world) : world := World m (env w).

(** The code behind the function pointers: a download returns its code, the count it stores and the bytes it writes to the buffer. *)
Record hal := Hal {
  do_download : Z -> list Z -> Z -> Z -> Z -> M world (Z * Z * list Z);
  do_progress : Z -> ota_progress_info_t -> Z -> M world unit;
  do_event : Z -> ota_client_state_t -> Z -> Z -> M world unit;
  do_get_time : Z -> M world Z;
  do_get_battery : Z -> M world Z;
  sys_time : M world Z }.
Context (H : hal).

Definition client (c : Z) : M world ota_client_ctx_t := fun w =>
  match clients w !! c with Some x => Done (x, w) | None => UB end.
Definition upd_client (c : Z) (f : ota_client_ctx_t -> ota_client_ctx_t) : M world unit :=
  x ← client c; modify (fun w => set_clients (<[c := f x]> (clients w)) w).

(** The time comes from the system as 32 bits. *)
Definition ota_client_default_time : M world Z := t ← sys_time H; mret (Z.land t UINT32_MAX).
Definition ota_client_default_battery : Z := 100.
Definition now_of (c : Z) : M world Z :=
  x ← client c;
  if truthy (cb_get_time (callbacks x)) then do_get_time H (cb_get_time (callbacks x)) else ota_client_default_time.

Definition ota_client_invoke_event (c : Z) (s : ota_client_state_t) (error : Z) : M world unit :=
  x ← client c;
  when (truthy (cb_event (callbacks x))) (do_event H (cb_event (callbacks x)) s error (user_data (callbacks x))).
Definition ota_client_invoke_progress (c : Z) : M world unit :=
  x ← client c;
  when (truthy (cb_progress (callbacks x))) (do_progress H (cb_progress (callbacks x)) (progress x) (user_data (callbacks x))).

(** The test of a time of day against the window. *)
Definition in_window (p : ota_update_policy_config_t) (now : Z) : bool :=
  let hour := (now / 3600) mod 24 in
  let minute := (now / 60) mod 60 in
  let now_min := hour * 60 + minute in
  let start := time_window_start_hour p *32 60 +32 time_window_start_min p in
  let fin := time_window_end_hour p *32 60 +32 time_window_end_min p in
  if start <=? fin then (start <=? now_min) && (now_min <=? fin) else (start <=? now_min) || (now_min <=? fin).

Definition ota_client_check_time_window (c : Z) : M world bool :=
  x ← client c;
  if negb (bool_decide (p_policy (policy x) = OTA_POLICY_TIME_WINDOW)) then mret true
  else now ← now_of c; x ← client c; mret (in_window (policy x) now).

Definition ota_client_check_battery_level (c : Z) : M world bool :=
  x ← client c;
  if negb (bool_decide (p_policy (policy x) = OTA_POLICY_BATTERY_REQUIRED)) then mret true
  else
    battery ← (if truthy (cb_get_battery (callbacks x)) then do_get_battery H (cb_get_battery (callbacks x)) else mret ota_client_default_battery);
    let has_charger := true in
    x ← client c;
    if require_charger (policy x) && negb has_charger then mret false
    else mret (min_battery_percent (policy x) <=? battery).

(** [p] is what malloc returns. *)
Definition ota_client_init (p : Z) (cbs : option ota_client_cb_t) : M world Z :=
  if p =? NULL then mret NULL
  else
    modify (fun w => set_clients (<[p := Ctx (default no_callbacks cbs) default_policy (replicate OTA_CLIENT_URL_MAX 0)
      (replicate OTA_CLIENT_DEVICE_ID_MAX 0) (replicate OTA_CLIENT_VERSION_MAX 0) (replicate OTA_CLIENT_VERSION_MAX 0) OTA_CLIENT_STATE_IDLE
      (Resume OTA_CLIENT_RESUME_MAGIC (session_id zero_resume) (firmware_url zero_resume) (r_version zero_resume) 0 0 (hash_sha256 zero_resume) 0 0
        (last_chunk_hash zero_resume) 0 0 0 (r_reserved zero_resume))
      zero_progress (replicate (Z.to_nat OTA_CLIENT_CHUNK_SIZE) 0) false false false false 3600 0 0 0 false]> (clients w)) w);;
    mret p.
Definition ota_client_deinit (c : Z) : M world unit :=
  if c =? NULL then mret tt
  else _ ← client c; modify (fun w => set_clients (delete c (clients w)) w).

(** ** Settings *)

Definition OK : M world ota_client_result_t := mret OTA_CLIENT_OK.
Definition ERR_PARAM : M world ota_client_result_t := mret OTA_CLIENT_ERR_PARAM.

Definition ota_client_set_policy (c : Z) (p : option ota_update_policy_config_t) : M world ota_client_result_t :=
  match p with
  | Some p => if c =? NULL then ERR_PARAM else upd_client c (set_policy p);; OK
  | None => ERR_PARAM
  end.
(** With a non-null destination; the result carries what is copied there. *)
Definition ota_client_get_policy (c : Z) : M world (ota_client_result_t * option ota_update_policy_config_t) :=
  if c =? NULL then mret (OTA_CLIENT_ERR_PARAM, None) else x ← client c; mret (OTA_CLIENT_OK, Some (policy x)).
Definition set_string (c : Z) (s : option (list Z)) (f : list Z -> ota_client_ctx_t -> ota_client_ctx_t) : M world ota_client_result_t :=
  match s with
  | Some s => if c =? NULL then ERR_PARAM else upd_client c (f s);; OK
  | None => ERR_PARAM
  end.
Definition ota_client_set_update_url (c : Z) (url : option (list Z)) : M world ota_client_result_t :=
  set_string c url (fun s x => set_update_url (strncpy (OTA_CLIENT_URL_MAX - 1) s (update_url x)) x).
Definition ota_client_set_device_id (c : Z) (device : option (list Z)) : M world ota_client_result_t :=
  set_string c device (fun s x => set_device_id (strncpy (OTA_CLIENT_DEVICE_ID_MAX - 1) s (device_id x)) x).
Definition ota_client_set_current_version (c : Z) (version : option (list Z)) : M world ota_client_result_t :=
  set_string c version (fun s x => set_current_version (strncpy (OTA_CLIENT_VERSION_MAX - 1) s (current_version x)) x).

(** ** Checking *)

(** "2.0.0" *)
Definition fixed_version : list Z := [50; 46; 48; 46; 48].

(** The caller's string buffer [out] of [ver_size] bytes, and what [*update_available] becomes ([None]: not written). *)
Definition ota_client_check_for_update (c : Z) (out : option (list Z)) (ver_size : Z) : M world (ota_client_result_t * option (list Z) * option bool) :=
  match out with
  | None => mret (OTA_CLIENT_ERR_PARAM, None, None)
  | Some out =>
      if c =? NULL then mret (OTA_CLIENT_ERR_PARAM, Some out, None)
      else
        x ← client c;
        if nth 0 (update_url x) 0 =? 0 then mret (OTA_CLIENT_ERR_NETWORK, Some out, None)
        else
          upd_client c (set_state OTA_CLIENT_STATE_CHECKING);;
          ota_client_invoke_event c OTA_CLIENT_STATE_CHECKING 0;;
          x ← client c;
          found ← (if truthy (cb_download (callbacks x)) then
              r ← do_download H (cb_download (callbacks x)) (update_url x) 0 4096 (user_data (callbacks x));
              if 4096 <? Z.of_nat (length r.2) then undefined else mret ((r.1.1 =? 0) && (0 <? r.1.2))
            else mret false);
          if (found : bool) then
            upd_client c (set_update_available true);;
            upd_client c (fun x => set_new_version (overlay (fixed_version ++ [0]) (new_version x)) x);;
            x ← client c;
            let n := u64 (ver_size - 1) in
            if Z.of_nat (length out) <? n then undefined
            else
              upd_client c (set_state OTA_CLIENT_STATE_IDLE);;
              mret (OTA_CLIENT_OK, Some (strncpy (Z.to_nat n) (c_string (new_version x)) out), Some true)
          else
            upd_client c (set_update_available false);;
            upd_client c (set_state OTA_CLIENT_STATE_IDLE);;
            mret (OTA_CLIENT_ERR_NO_UPDATE, Some out, Some false)
  end.

(** ** Downloading *)

(** The built-in source of bytes. *)
Definition fill_pattern (offset chunk : Z) : list Z := (fun i => Z.land (offset +32 i) 255) <$> seqZ 0 chunk.

(** What the context records after [received] more bytes. *)
Definition after_chunk (offset total elapsed : Z) (g : ota_progress_info_t) : ota_progress_info_t :=
  let speed := if 0 <? elapsed then offset / elapsed else 0 in
  Progress offset (bytes_total g) (u32 (offset * 100 / total)) speed (if 0 <? elapsed then elapsed else 1)
    (if 0 <? speed then (total -32 offset) / speed else 0) (g_state g).

(** The transfer loop: [Some r] when the function returns [r] from inside the loop. *)
Fixpoint download_loop (fuel : nat) (c total start_time offset : Z) : M world (option ota_client_result_t) :=
  match fuel with
  | O => nofuel
  | S fuel =>
      x ← client c;
      if negb ((offset <? total) && negb (cancelled x)) then mret None
      else
        let chunk := if total <? offset +32 OTA_CLIENT_CHUNK_SIZE then total -32 offset else OTA_CLIENT_CHUNK_SIZE in
        let cbs := callbacks x in
        r ← (if truthy (cb_download cbs) then
            r ← do_download H (cb_download cbs) (update_url x) offset chunk (user_data cbs);
            if OTA_CLIENT_CHUNK_SIZE <? Z.of_nat (length r.2) then undefined
            else upd_client c (fun x => set_download_buffer (overlay r.2 (download_buffer x)) x);; mret r.1
          else
            upd_client c (fun x => set_download_buffer (overlay (fill_pattern offset chunk) (download_buffer x)) x);;
            mret (0, chunk));
        if negb (r.1 =? 0) then
          upd_client c (fun x => set_retry_count (retry_count x +32 1) x);;
          x ← client c;
          if max_retries (policy x) <? retry_count x then
            upd_client c (set_state OTA_CLIENT_STATE_FAILED);;
            ota_client_invoke_event c OTA_CLIENT_STATE_FAILED (result_code OTA_CLIENT_ERR_NETWORK);;
            mret (Some OTA_CLIENT_ERR_NETWORK)
          else download_loop fuel c total start_time offset
        else
          let offset := offset +32 r.2 in
          now ← now_of c;
          upd_client c (fun x => set_progress (after_chunk offset total (now -32 start_time) (progress x)) x);;
          when ((offset mod (total / OTA_CLIENT_PROGRESS_INTERVAL) =? 0) || (total <=? offset)) (ota_client_invoke_progress c);;
          upd_client c (set_retry_count 0);;
          download_loop fuel c total start_time offset
  end.

Definition ota_client_download_firmware (fuel : nat) (c : Z) : M world ota_client_result_t :=
  if c =? NULL then ERR_PARAM
  else
    x ← client c;
    if bool_decide (state x = OTA_CLIENT_STATE_DOWNLOADING) then mret OTA_CLIENT_ERR_IN_PROGRESS
    else
      window ← ota_client_check_time_window c;
      if negb window then mret OTA_CLIENT_ERR_TIME_WINDOW
      else
        battery ← ota_client_check_battery_level c;
        if negb battery then mret OTA_CLIENT_ERR_POWER_LOW
        else
          upd_client c (fun x => set_retry_count 0 (set_cancelled false (set_state OTA_CLIENT_STATE_DOWNLOADING x)));;
          ota_client_invoke_event c OTA_CLIENT_STATE_DOWNLOADING 0;;
          let total := 1024 * 1024 in
          upd_client c (fun x => set_progress (Progress 0 total 0 (speed_bytes_per_sec (progress x)) (elapsed_seconds (progress x))
            (estimated_remaining (progress x)) (g_state (progress x))) x);;
          start_time ← now_of c;
          r ← download_loop fuel c total start_time 0;
          match r with
          | Some r => mret r
          | None =>
              x ← client c;
              if cancelled x then upd_client c (set_state OTA_CLIENT_STATE_IDLE);; mret OTA_CLIENT_ERR_CANCELLED
              else upd_client c (fun x => set_state OTA_CLIENT_STATE_IDLE (set_download_complete true x));; OK
          end.

(** With a non-null destination. *)
Definition ota_client_download_get_progress (c : Z) : M world (ota_client_result_t * option ota_progress_info_t) :=
  if c =? NULL then mret (OTA_CLIENT_ERR_PARAM, None) else x ← client c; mret (OTA_CLIENT_OK, Some (progress x)).
Definition ota_client_download_cancel (c : Z) : M world ota_client_result_t :=
  if c =? NULL then ERR_PARAM else upd_client c (set_cancelled true);; OK.

(** ** Verifying and installing *)

Definition ota_client_verify_firmware (c : Z) : M world ota_client_result_t :=
  if c =? NULL then ERR_PARAM
  else
    x ← client c;
    if negb (download_complete x) then mret OTA_CLIENT_ERR_BUSY
    else
      upd_client c (set_state OTA_CLIENT_STATE_VERIFYING);;
      ota_client_invoke_event c OTA_CLIENT_STATE_VERIFYING 0;;
      upd_client c (fun x => set_state OTA_CLIENT_STATE_IDLE (set_verify_ok true x));;
      OK.

Definition ota_client_install_firmware (c : Z) (reboot_after : bool) : M world ota_client_result_t :=
  if c =? NULL then ERR_PARAM
  else
    x ← client c;
    if negb (verify_ok x) then mret OTA_CLIENT_ERR_INSTALL
    else
      upd_client c (set_state OTA_CLIENT_STATE_INSTALLING);;
      ota_client_invoke_event c OTA_CLIENT_STATE_INSTALLING 0;;
      window ← ota_client_check_time_window c;
      if negb window then upd_client c (set_state OTA_CLIENT_STATE_IDLE);; mret OTA_CLIENT_ERR_TIME_WINDOW
      else
        upd_client c (fun x => set_state OTA_CLIENT_STATE_COMPLETE (set_install_ok true x));;
        when reboot_after (ota_client_invoke_event c OTA_CLIENT_STATE_COMPLETE 0);;
        OK.

(** ** The resume record *)

Definition ota_client_save_resume_state (c : Z) : M world ota_client_result_t :=
  if c =? NULL then ERR_PARAM
  else
    x ← client c;
    if negb (power_safe_mode (policy x)) then OK
    else
      upd_client c (fun x => let r := resume x in set_resume (Resume OTA_CLIENT_RESUME_MAGIC (session_id r) (firmware_url r) (r_version r)
        (bytes_total (progress x)) (bytes_downloaded (progress x)) (hash_sha256 r) (chunk_size r) (last_chunk r) (last_chunk_hash r)
        (r_retry_count r) (last_error r) (timestamp r) (r_reserved r)) x);;
      now ← now_of c;
      upd_client c (fun x => let r := resume x in set_resume (Resume (resume_magic r) (session_id r) (firmware_url r) (r_version r)
        (total_size r) (downloaded_size r) (hash_sha256 r) (chunk_size r) (last_chunk r) (last_chunk_hash r)
        (r_retry_count r) 0 now (r_reserved r)) x);;
      OK.

Definition ota_client_load_resume_state (c : Z) : M world ota_client_result_t :=
  if c =? NULL then ERR_PARAM
  else
    x ← client c;
    if negb (resume_magic (resume x) =? OTA_CLIENT_RESUME_MAGIC) then mret OTA_CLIENT_ERR_STORAGE
    else
      upd_client c (fun x => let g := progress x in set_progress (Progress (u32 (downloaded_size (resume x))) (u32 (total_size (resume x))) (percent g)
        (speed_bytes_per_sec g) (elapsed_seconds g) (estimated_remaining g) (g_state g)) x);;
      upd_client c (set_state OTA_CLIENT_STATE_RESUMING);;
      ota_client_invoke_event c OTA_CLIENT_STATE_RESUMING 0;;
      OK.

Definition ota_client_clear_resume_state (c : Z) : M world ota_client_result_t :=
  if c =? NULL then ERR_PARAM else upd_client c (set_resume zero_resume);; OK.

(** ** Queries *)

(** With non-null destinations. *)
Definition ota_client_check_policy_window (c : Z) : M world (ota_client_result_t * option bool) :=
  if c =? NULL then mret (OTA_CLIENT_ERR_PARAM, None) else b ← ota_client_check_time_window c; mret (OTA_CLIENT_OK, Some b).
Definition ota_client_check_battery (c : Z) : M world (ota_client_result_t * option bool) :=
  if c =? NULL then mret (OTA_CLIENT_ERR_PARAM, None) else b ← ota_client_check_battery_level c; mret (OTA_CLIENT_OK, Some b).
Definition ota_client_get_state (c : Z) : M world (ota_client_result_t * option ota_client_state_t) :=
  if c =? NULL then mret (OTA_CLIENT_ERR_PARAM, None) else x ← client c; mret (OTA_CLIENT_OK, Some (state x)).
End client.
Arguments world : clear implicits.
Arguments hal : clear implicits.

Definition ota_client_result_str (r : ota_client_result_t) : string :=
  match r with
  | OTA_CLIENT_OK => "OK" | OTA_CLIENT_ERR_PARAM => "Invalid parameter" | OTA_CLIENT_ERR_NETWORK => "Network error" | OTA_CLIENT_ERR_STORAGE => "Storage error"
  | OTA_CLIENT_ERR_CHECKSUM => "Checksum error" | OTA_CLIENT_ERR_SIGNATURE => "Signature error" | OTA_CLIENT_ERR_INSTALL => "Install error"
  | OTA_CLIENT_ERR_IN_PROGRESS => "In progress" | OTA_CLIENT_ERR_NO_UPDATE => "No update available" | OTA_CLIENT_ERR_POWER_LOW => "Battery too low"
  | OTA_CLIENT_ERR_TIME_WINDOW => "Outside time window" | OTA_CLIENT_ERR_BUSY => "Busy" | OTA_CLIENT_ERR_CANCELLED => "Cancelled"
  | OTA_CLIENT_ERR_ABORTED => "Aborted"
  end.
Definition ota_client_state_str (s : ota_client_state_t) : string :=
  match s with
  | OTA_CLIENT_STATE_IDLE => "Idle" | OTA_CLIENT_STATE_CHECKING => "Checking" | OTA_CLIENT_STATE_DOWNLOADING => "Downloading"
  | OTA_CLIENT_STATE_VERIFYING => "Verifying" | OTA_CLIENT_STATE_INSTALLING => "Installing" | OTA_CLIENT_STATE_COMPLETE => "Complete"
  | OTA_CLIENT_STATE_FAILED => "Failed" | OTA_CLIENT_STATE_RESUMING => "Resuming"
  end.

(** ** A server and its faults

    [faults] counts the failures before the server's next answer; the other callbacks return, leave the contexts alone and do not
    change the count. *)
Section download.
Context {E : Type} (H : hal E) (faults : E -> nat).

Definition quiet {A} (m : M (world E) A) : Prop := forall w, exists a w',
  m w = Done (a, w') /\ clients w' = clients w /\ faults (env w') = faults (env w).

Class Server : Prop := {
  srv_download : forall fp url offset size ud w, 0 < size <= OTA_CLIENT_CHUNK_SIZE -> exists rc n bs w',
    do_download H fp url offset size ud w = Done ((rc, n, bs), w') /\ clients w' = clients w /\
    Z.of_nat (length bs) <= OTA_CLIENT_CHUNK_SIZE /\
    match faults (env w) with S k => rc <> 0 /\ faults (env w') = k | O => rc = 0 /\ 0 < n <= size end;
  srv_progress : forall fp g ud, quiet (do_progress H fp g ud);
  srv_event : forall fp s e ud, quiet (do_event H fp s e ud);
  srv_get_time : forall fp, quiet (do_get_time H fp);
  srv_get_battery : forall fp, quiet (do_get_battery H fp);
  srv_time : quiet (sys_time H) }.
Context {HS : Server}.

Lemma bind_client {B} c x (k : ota_client_ctx_t -> M (world E) B) w : clients w !! c = Some x -> (client c ≫= k) w = k x w.
Proof. intros Hx. unfold mbind, M_bind, client. by rewrite Hx. Qed.
Definition with_client (c : Z) (x : ota_client_ctx_t) (w : world E) : world E := set_clients (<[c := x]> (clients w)) w.
Lemma upd_client_Done c x f w : clients w !! c = Some x -> upd_client c f w = Done (tt, with_client c (f x) w).
Proof. intros Hx. unfold upd_client. by rewrite (bind_client _ _ _ _ Hx). Qed.
Lemma bind_upd {B} c x f (k : unit -> M (world E) B) w : clients w !! c = Some x -> (upd_client c f ≫= k) w = k tt (with_client c (f x) w).
Proof. intros Hx. by rewrite (bind_step _ _ _ _ _ (upd_client_Done _ _ _ _ Hx)). Qed.
Lemma with_client_lookup c x w : clients (with_client c x w) !! c = Some x.
Proof. apply lookup_insert_eq. Qed.

Lemma now_of_quiet c x w : clients w !! c = Some x -> exists t w', now_of H c w = Done (t, w') /\ clients w' = clients w /\ faults (env w') = faults (env w).
Proof.
  intros Hx. unfold now_of. rewrite (bind_client _ _ _ _ Hx). destruct (truthy _); [apply srv_get_time|]. unfold ota_client_default_time.
  destruct (srv_time w) as (t & w' & E1 & H1). rewrite (bind_step _ _ _ _ _ E1). by eexists _, w'.
Qed.
Lemma event_quiet c x s e w : clients w !! c = Some x ->
  exists w', ota_client_invoke_event H c s e w = Done (tt, w') /\ clients w' = clients w /\ faults (env w') = faults (env w).
Proof.
  intros Hx. unfold ota_client_invoke_event. rewrite (bind_client _ _ _ _ Hx). destruct (truthy _); cbn [when]; [|by exists w].
  destruct (srv_event (cb_event (callbacks x)) s e (user_data (callbacks x)) w) as ([] & w' & ?). by exists w'.
Qed.
Lemma progress_quiet c x w : clients w !! c = Some x ->
  exists w', ota_client_invoke_progress H c w = Done (tt, w') /\ clients w' = clients w /\ faults (env w') = faults (env w).
Proof.
  intros Hx. unfold ota_client_invoke_progress. rewrite (bind_client _ _ _ _ Hx). destruct (truthy _); cbn [when]; [|by exists w].
  destruct (srv_progress (cb_progress (callbacks x)) (progress x) (user_data (callbacks x)) w) as ([] & w' & ?). by exists w'.
Qed.

(** What a transfer does not touch. *)
Definition settings (x : ota_client_ctx_t) :=
  (callbacks x, policy x, (update_url x, cancelled x, state x), (download_complete x, verify_ok x, install_ok x)).

(** How a source answers: the server, or the built-in pattern, which never fails. *)
Definition burst (x : ota_client_ctx_t) (w : world E) : nat := if truthy (cb_download (callbacks x)) then faults (env w) else 0%nat.

Lemma fetch_ok c x offset chunk w :
  clients w !! c = Some x -> 0 < chunk <= OTA_CLIENT_CHUNK_SIZE ->
  exists rc n y w', (if truthy (cb_download (callbacks x)) then
      r ← do_download H (cb_download (callbacks x)) (update_url x) offset chunk (user_data (callbacks x));
      if OTA_CLIENT_CHUNK_SIZE <? Z.of_nat (length r.2) then undefined
      else upd_client c (fun x => set_download_buffer (overlay r.2 (download_buffer x)) x);; mret r.1
    else
      upd_client c (fun x => set_download_buffer (overlay (fill_pattern offset chunk) (download_buffer x)) x);; mret (0, chunk)) w = Done ((rc, n), w') /\
    clients w' !! c = Some y /\ settings y = settings x /\ retry_count y = retry_count x /\ progress y = progress x /\
    match burst x w with S k => rc <> 0 /\ burst y w' = k | O => rc = 0 /\ 0 < n <= chunk end.
Proof.
  intros Hx Hc. unfold burst. destruct (truthy (cb_download (callbacks x))) eqn:Ed.
  - destruct (srv_download (cb_download (callbacks x)) (update_url x) offset chunk (user_data (callbacks x)) w Hc) as (rc & n & bs & w1 & E1 & Hc1 & Hl & Hf).
    rewrite (bind_step _ _ _ _ _ E1). cbn [fst snd]. rewrite (proj2 (Z.ltb_ge _ _) Hl). rewrite <- Hc1 in Hx.
    rewrite (bind_upd _ _ _ _ _ Hx). do 4 eexists. split; [reflexivity|]. split; [apply with_client_lookup|]. split; [done|]. split; [done|].
    split; [done|]. cbn [callbacks set_download_buffer]. rewrite Ed. done.
  - rewrite (bind_upd _ _ _ _ _ Hx). do 4 eexists. split; [reflexivity|]. split; [apply with_client_lookup|]. split; [done|]. split; [done|].
    split; [done|]. split; [done|lia].
Qed.

(** After a chunk: progress recorded and perhaps reported, the retries reset. *)
Lemma chunk_done_ok c y offset total start w :
  clients w !! c = Some y ->
  exists w' g, (forall B (K : M (world E) B), (now ← now_of H c;
    upd_client c (fun x => set_progress (after_chunk offset total (now -32 start) (progress x)) x);;
    when ((offset mod (total / OTA_CLIENT_PROGRESS_INTERVAL) =? 0) || (total <=? offset)) (ota_client_invoke_progress H c);;
    upd_client c (set_retry_count 0);; K) w = K w') /\ clients w' !! c = Some (set_retry_count 0 (set_progress g y)) /\
    bytes_downloaded g = offset /\ bytes_total g = bytes_total (progress y) /\ percent g = u32 (offset * 100 / total).
Proof.
  intros Hy. destruct (now_of_quiet c y w Hy) as (now & w1 & E1 & C1 & _). rewrite <- C1 in Hy.
  set (g := after_chunk offset total (now -32 start) (progress y)). set (w2 := with_client c (set_progress g y) w1).
  assert (exists w3, when ((offset mod (total / OTA_CLIENT_PROGRESS_INTERVAL) =? 0) || (total <=? offset)) (ota_client_invoke_progress H c) w2 =
    Done (tt, w3) /\ clients w3 = clients w2) as (w3 & E3 & C3).
  { destruct (_ || _); cbn [when]; [|by exists w2].
    destruct (progress_quiet c _ w2 (with_client_lookup _ _ _)) as (w3 & ? & ? & _). by exists w3. }
  assert (clients w3 !! c = Some (set_progress g y)) as H3 by (rewrite C3; apply with_client_lookup).
  exists (with_client c (set_retry_count 0 (set_progress g y)) w3), g. split; [|split; [apply with_client_lookup|done]].
  intros B K. rewrite (bind_step _ _ _ _ _ E1), (bind_upd _ _ _ _ _ Hy). fold g w2. by rewrite (bind_step _ _ _ _ _ E3), (bind_upd _ _ _ _ _ H3).
Qed.

Lemma settings_policy x y : settings y = settings x -> policy y = policy x /\ cancelled y = cancelled x /\ callbacks y = callbacks x.
Proof. by intros [= ? ? ? ? ? ? ?]. Qed.
Lemma settings_flags x y : settings y = settings x -> download_complete y = download_complete x /\ verify_ok y = verify_ok x.
Proof. by intros [= ? ? ? ? ? ? ? ?]. Qed.

(** One fault within the retries. *)
Lemma fault_step fuel c y total start offset w :
  clients w !! c = Some y -> 0 <= retry_count y < max_retries (policy y) -> max_retries (policy y) < UINT32_MAX ->
  (upd_client c (fun x => set_retry_count (retry_count x +32 1) x);;
    x ← client c;
    if max_retries (policy x) <? retry_count x then
      upd_client c (set_state OTA_CLIENT_STATE_FAILED);;
      ota_client_invoke_event H c OTA_CLIENT_STATE_FAILED (result_code OTA_CLIENT_ERR_NETWORK);;
      mret (Some OTA_CLIENT_ERR_NETWORK)
    else download_loop H fuel c total start offset) w = download_loop H fuel c total start offset (with_client c (set_retry_count (retry_count y + 1) y) w).
Proof.
  intros Hy Hr Hm. unfold UINT32_MAX in Hm. rewrite (bind_upd _ _ _ _ _ Hy), u32_small by lia. rewrite (bind_client _ _ _ _ (with_client_lookup _ _ _)).
  cbn [policy set_retry_count retry_count]. by rewrite (proj2 (Z.ltb_ge _ _)) by lia.
Qed.

(** The transfer from [offset]: it ends at the last byte when no burst of faults exceeds the retries. *)
Lemma download_loop_ok fuel c x total start offset w :
  clients w !! c = Some x -> cancelled x = false -> 0 <= offset <= total -> 0 < total <= 1048576 -> 0 <= retry_count x -> max_retries (policy x) < UINT32_MAX ->
  (forall e, Z.of_nat (faults e) <= max_retries (policy x)) -> Z.of_nat (burst x w) + retry_count x <= max_retries (policy x) ->
  (total - offset) * (max_retries (policy x) + 1) + Z.of_nat (burst x w) < Z.of_nat fuel ->
  exists y w', download_loop H fuel c total start offset w = Done (None, w') /\ clients w' !! c = Some y /\ settings y = settings x /\
    (offset < total \/ bytes_downloaded (progress x) = total /\ percent (progress x) = 100 -> bytes_downloaded (progress y) = total /\ percent (progress y) = 100) /\
    bytes_total (progress y) = bytes_total (progress x).
Proof.
  intros Hx Hcan Hoff Htot. revert x offset w Hx Hcan Hoff. induction fuel as [|fuel IH]; intros x offset w Hx Hcan Hoff Hr0 Hm Hf Hb Hfuel; [nia|].
  cbn [download_loop]. rewrite (bind_client _ _ _ _ Hx), Hcan. cbn [negb]. rewrite andb_true_r. destruct (Z.ltb_spec offset total) as [Hlt|Hge]; cbn [negb].
  2: { exists x, w. split; [done|]. split; [done|]. split; [done|]. split; [|done]. intros [?|?]; [lia|done]. }
  set (chunk := if total <? offset +32 OTA_CLIENT_CHUNK_SIZE then total -32 offset else OTA_CLIENT_CHUNK_SIZE).
  assert (0 < chunk <= OTA_CLIENT_CHUNK_SIZE /\ chunk <= total - offset) as [Hchunk Hle].
  { unfold chunk, OTA_CLIENT_CHUNK_SIZE. rewrite !u32_small by lia. destruct (Z.ltb_spec total (offset + 4096)); lia. }
  destruct (fetch_ok c x offset chunk w Hx Hchunk) as (rc & n & y & w1 & E1 & Hy & Hs & Hr & Hg & Hcase).
  rewrite (bind_step _ _ _ _ _ E1). destruct (settings_policy _ _ Hs) as (Hp & Hc & _). cbn [fst snd].
  destruct (burst x w) as [|k] eqn:Eb.
  - destruct Hcase as [-> Hn]. cbn [Z.eqb negb]. rewrite u32_small by lia.
    destruct (chunk_done_ok c y (offset + n) total start w1 Hy) as (w2 & g & E2 & H2 & Hgd & Hgt & Hgp).
    rewrite E2. set (z := set_retry_count 0 (set_progress g y)) in *. assert (settings z = settings x) as Hsz by (by rewrite <- Hs).
    destruct (settings_policy _ _ Hsz) as (Hpz & Hcz & Hcbz). pose proof (Hf (env w2)).
    assert (Z.of_nat (burst z w2) <= max_retries (policy x)) as Hbz by (unfold burst; destruct (truthy (cb_download (callbacks z))); lia).
    destruct (IH z (offset + n) w2 H2) as (v & w3 & E3 & H3 & Hs3 & Hd3 & Ht3);
      [congruence|lia|done|by rewrite Hpz|by rewrite Hpz|cbn; rewrite Hp; lia|rewrite Hpz; nia|].
    exists v, w3. split; [exact E3|]. split; [exact H3|]. split; [congruence|]. split; [|rewrite Ht3; cbn; by rewrite Hgt, Hg].
    intros _. apply Hd3. destruct (Z.eq_dec (offset + n) total) as [Ee|]; [right|left; lia]. cbn. rewrite Hgd, Hgp, Ee.
    split; [done|]. rewrite Z.mul_comm, Z.div_mul by lia. done.
  - destruct Hcase as [Hrc Hk]. rewrite (proj2 (Z.eqb_neq rc 0) Hrc). cbn [negb]. rewrite (fault_step fuel c y total start offset w1 Hy) by (rewrite ?Hp; done || lia).
    set (z := set_retry_count (retry_count y + 1) y). assert (settings z = settings x) as Hsz by (by rewrite <- Hs).
    destruct (settings_policy _ _ Hsz) as (Hpz & Hcz & _). assert (burst z (with_client c z w1) = k) as Hbz by exact Hk.
    destruct (IH z offset (with_client c z w1) (with_client_lookup _ _ _)) as (v & w3 & E3 & H3 & Hs3 & Hd3 & Ht3);
      [congruence|lia|cbn; lia|by rewrite Hpz|by rewrite Hpz|rewrite Hbz, Hpz; cbn; lia|rewrite Hbz, Hpz; lia|].
    exists v, w3. split; [exact E3|]. split; [exact H3|]. split; [congruence|]. split; [intros _; apply Hd3; by left|]. rewrite Ht3. cbn. by rewrite Hg.
Qed.

(** A burst beyond the retries ends the transfer. *)
Lemma download_loop_fails fuel c x total start offset w :
  clients w !! c = Some x -> truthy (cb_download (callbacks x)) = true -> cancelled x = false -> 0 <= offset < total -> total <= 1048576 ->
  0 <= retry_count x <= max_retries (policy x) -> max_retries (policy x) < UINT32_MAX ->
  max_retries (policy x) < Z.of_nat (faults (env w)) + retry_count x -> max_retries (policy x) - retry_count x < Z.of_nat fuel ->
  exists y w', download_loop H fuel c total start offset w = Done (Some OTA_CLIENT_ERR_NETWORK, w') /\ clients w' !! c = Some y /\
    state y = OTA_CLIENT_STATE_FAILED /\ policy y = policy x /\ download_complete y = download_complete x /\ verify_ok y = verify_ok x.
Proof.
  intros Hx Hd Hcan Hoff Htot. revert x w Hx Hd Hcan. induction fuel as [|fuel IH]; intros x w Hx Hd Hcan Hr Hm Hb Hfuel; [lia|].
  cbn [download_loop]. rewrite (bind_client _ _ _ _ Hx), Hcan, (proj2 (Z.ltb_lt _ _)) by lia. cbn [negb andb].
  set (chunk := if total <? offset +32 OTA_CLIENT_CHUNK_SIZE then total -32 offset else OTA_CLIENT_CHUNK_SIZE).
  assert (0 < chunk <= OTA_CLIENT_CHUNK_SIZE) as Hchunk.
  { unfold chunk, OTA_CLIENT_CHUNK_SIZE. rewrite !u32_small by lia. destruct (Z.ltb_spec total (offset + 4096)); lia. }
  destruct (fetch_ok c x offset chunk w Hx Hchunk) as (rc & n & y & w1 & E1 & Hy & Hs & Hrt & Hg & Hcase).
  rewrite (bind_step _ _ _ _ _ E1). destruct (settings_policy _ _ Hs) as (Hp & Hc & Hcb). cbn [fst snd].
  unfold burst in Hcase. rewrite Hd in Hcase. destruct (faults (env w)) as [|k] eqn:Eb; [lia|]. destruct Hcase as [Hrc Hk]. rewrite Hcb, Hd in Hk.
  rewrite (proj2 (Z.eqb_neq rc 0) Hrc). cbn [negb]. destruct (Z.eq_dec (retry_count x) (max_retries (policy x))) as [Ee|Hne].
  - rewrite (bind_upd _ _ _ _ _ Hy), u32_small by (unfold UINT32_MAX in Hm; lia). rewrite (bind_client _ _ _ _ (with_client_lookup _ _ _)).
    cbn [policy set_retry_count retry_count]. rewrite (proj2 (Z.ltb_lt _ _)) by (rewrite Hp; lia).
    rewrite (bind_upd _ _ _ _ _ (with_client_lookup _ _ _)). set (w2 := with_client _ _ _).
    destruct (event_quiet c _ OTA_CLIENT_STATE_FAILED (result_code OTA_CLIENT_ERR_NETWORK) w2 (with_client_lookup _ _ _)) as (w3 & E3 & C3 & _).
    rewrite (bind_step _ _ _ _ _ E3). do 2 eexists. split; [reflexivity|]. split; [rewrite C3; apply with_client_lookup|]. split; [done|].
    split; [exact Hp|]. exact (settings_flags _ _ Hs).
  - rewrite (fault_step fuel c y total start offset w1 Hy) by (rewrite ?Hp, ?Hrt; done || lia). set (z := set_retry_count (retry_count y + 1) y).
    destruct (IH z (with_client c z w1) (with_client_lookup _ _ _)) as (v & w3 & E3 & H3 & Hst & Hpv & Hdc & Hv);
      try (cbn; rewrite ?Hp, ?Hcb, ?Hc, ?Hrt, ?Hk; done || lia). exists v, w3. split; [exact E3|]. split; [exact H3|]. split; [done|].
    destruct (settings_flags _ _ Hs) as [Hf1 Hf2]. split; [rewrite Hpv; exact Hp|]. split; [rewrite Hdc; exact Hf1|rewrite Hv; exact Hf2].
Qed.

(** What the transfer starts from. *)
Definition starting (x : ota_client_ctx_t) : ota_client_ctx_t :=
  set_progress (Progress 0 1048576 0 (speed_bytes_per_sec (progress x)) (elapsed_seconds (progress x)) (estimated_remaining (progress x)) (g_state (progress x)))
    (set_retry_count 0 (set_cancelled false (set_state OTA_CLIENT_STATE_DOWNLOADING x))).

(** What follows the loop. *)
Definition after_loop (c : Z) (r : option ota_client_result_t) : M (world E) ota_client_result_t :=
  match r with
  | Some r => mret r
  | None =>
      x ← client c;
      if cancelled x then upd_client c (set_state OTA_CLIENT_STATE_IDLE);; mret OTA_CLIENT_ERR_CANCELLED
      else upd_client c (fun x => set_state OTA_CLIENT_STATE_IDLE (set_download_complete true x));; OK
  end.

(** Up to the loop, when the policy asks for no time of day and no battery; what the calls on the way keep is kept. *)
Definition unrestricted (x : ota_client_ctx_t) : Prop := p_policy (policy x) <> OTA_POLICY_TIME_WINDOW /\ p_policy (policy x) <> OTA_POLICY_BATTERY_REQUIRED.
Lemma anytime_unrestricted x : p_policy (policy x) = OTA_POLICY_ANYTIME -> unrestricted x.
Proof. by unfold unrestricted; intros ->. Qed.
Lemma download_start fuel c x w :
  c <> NULL -> clients w !! c = Some x -> state x <> OTA_CLIENT_STATE_DOWNLOADING -> unrestricted x ->
  exists w1 start, clients w1 !! c = Some (starting x) /\ faults (env w1) = faults (env w) /\
    ota_client_download_firmware H fuel c w = (download_loop H fuel c 1048576 start 0 ≫= after_loop c) w1 /\
    forall P, (forall g, keeps P (upd_client c g)) -> keeps P (ota_client_invoke_event H c OTA_CLIENT_STATE_DOWNLOADING 0) -> keeps P (now_of H c) -> P w -> P w1.
Proof.
  intros Hc Hx Hs [Hp Hbat]. unfold ota_client_download_firmware. rewrite (proj2 (Z.eqb_neq c NULL) Hc), (bind_client _ _ _ _ Hx).
  rewrite bool_decide_eq_false_2 by done. unfold ota_client_check_time_window, ota_client_check_battery_level.
  rewrite bind_assoc, (bind_client _ _ _ _ Hx), bool_decide_eq_false_2 by done. cbn [negb]. rewrite bind_ret. cbn [negb].
  rewrite bind_assoc, (bind_client _ _ _ _ Hx), bool_decide_eq_false_2 by done. cbn [negb]. rewrite bind_ret. cbn [negb].
  rewrite (bind_upd _ _ _ _ _ Hx). set (x1 := set_retry_count 0 (set_cancelled false (set_state OTA_CLIENT_STATE_DOWNLOADING x))).
  destruct (event_quiet c x1 OTA_CLIENT_STATE_DOWNLOADING 0 (with_client c x1 w) (with_client_lookup c x1 w)) as (w2 & E2 & C2 & F2).
  rewrite (bind_step _ _ _ _ _ E2). assert (clients w2 !! c = Some x1) as H2 by (rewrite C2; apply with_client_lookup). rewrite (bind_upd c x1 _ _ w2) by done.
  destruct (now_of_quiet c _ _ (with_client_lookup c (starting x) w2)) as (t & w3 & E3 & C3 & F3).
  change (with_client c _ w2) with (with_client c (starting x) w2). rewrite (bind_step _ _ _ _ _ E3). exists w3, t.
  split; [rewrite C3; apply with_client_lookup|]. split; [by rewrite F3|]. split; [reflexivity|].
  intros P Hu He Hn HP. apply (Hn _ _ _) in E3; [done|]. apply (Hu (fun _ => starting x) w2 tt); [|by apply (upd_client_Done c x1)].
  apply (He _ _ _) in E2; [done|]. apply (Hu (fun _ => x1) w tt); [done|by apply (upd_client_Done c x)].
Qed.
End download.

(** ** A schedule of faults

    [plan e i] is the number of failures between the [i]-th answer from now on and the answer before it; an answer brings at most [share] bytes. *)
Section planned.
Context {E : Type} (H : hal E) (faults : E -> nat) `{HS : !Server H faults} (plan : E -> nat -> nat) (share : Z).

Definition planned (f : nat -> nat) (w : world E) : Prop := forall i, plan (env w) i = f i.
Class Planned : Prop := {
  plan_now : forall e, plan e 0%nat = faults e;
  plan_download : forall fp url offset size ud w rc n bs w', 0 < size <= OTA_CLIENT_CHUNK_SIZE -> do_download H fp url offset size ud w = Done ((rc, n, bs), w') ->
    match faults (env w) with S _ => forall i, plan (env w') (S i) = plan (env w) (S i) | O => n <= share /\ forall i, plan (env w') i = plan (env w) (S i) end;
  plan_progress : forall f fp g ud, keeps (planned f) (do_progress H fp g ud);
  plan_event : forall f fp s e ud, keeps (planned f) (do_event H fp s e ud);
  plan_get_time : forall f fp, keeps (planned f) (do_get_time H fp);
  plan_time : forall f, keeps (planned f) (sys_time H) }.
Context {HP : Planned}.

Lemma planned_client f c : keeps (planned f) (client c).
Proof. intros w a w' Hw Em. unfold client in Em. destruct (clients w !! c); [by injection Em as _ <-|done]. Qed.
Lemma planned_upd_client f c g : keeps (planned f) (upd_client c g).
Proof. apply keeps_bind; [apply planned_client|]. intros x. by apply keeps_modify. Qed.
#[local] Hint Resolve planned_client planned_upd_client plan_progress plan_event plan_get_time plan_time : keeps.
Lemma planned_event f c s e : keeps (planned f) (ota_client_invoke_event H c s e).
Proof. unfold ota_client_invoke_event. keeps_auto. Qed.
Lemma planned_now f c : keeps (planned f) (now_of H c).
Proof. unfold now_of, ota_client_default_time. keeps_auto. Qed.
Lemma planned_progress f c : keeps (planned f) (ota_client_invoke_progress H c).
Proof. unfold ota_client_invoke_progress. keeps_auto. Qed.
#[local] Hint Resolve planned_event planned_now planned_progress : keeps.

(** The schedule after a call of the server. *)
Definition after_fault (f : nat -> nat) (i : nat) : nat := match i with O => pred (f 0%nat) | S _ => f i end.
Lemma fetch_planned f c x offset chunk w rc n w' :
  clients w !! c = Some x -> truthy (cb_download (callbacks x)) = true -> 0 < chunk <= OTA_CLIENT_CHUNK_SIZE -> planned f w ->
  (r ← do_download H (cb_download (callbacks x)) (update_url x) offset chunk (user_data (callbacks x));
   if OTA_CLIENT_CHUNK_SIZE <? Z.of_nat (length r.2) then undefined
   else upd_client c (fun x => set_download_buffer (overlay r.2 (download_buffer x)) x);; mret r.1) w = Done ((rc, n), w') ->
  match f 0%nat with S _ => planned (after_fault f) w' | O => n <= share /\ planned (fun i => f (S i)) w' end.
Proof.
  intros Hx Hd Hc Hp Hm. destruct (srv_download H faults (cb_download (callbacks x)) (update_url x) offset chunk (user_data (callbacks x)) w Hc) as (rc0 & n0 & bs & w1 & E1 & Hc1 & Hl & Hf).
  rewrite (bind_step _ _ _ _ _ E1) in Hm. cbn [fst snd] in Hm. rewrite (proj2 (Z.ltb_ge _ _) Hl) in Hm. pose proof Hx as Hx1. rewrite <- Hc1 in Hx1. rewrite (bind_upd _ _ _ _ _ Hx1) in Hm. injection Hm as -> -> <-.
  pose proof (plan_download _ _ _ _ _ _ _ _ _ _ Hc E1) as Hpl. rewrite <- (plan_now (env w)), (Hp 0%nat) in Hf, Hpl. destruct (f 0%nat) as [|k] eqn:E0.
  - destruct Hpl as [Hn Hpl]. split; [done|]. intros i. cbn. by rewrite Hpl, Hp.
  - intros [|i]; cbn [after_fault env with_client set_clients]; [rewrite plan_now, E0; apply Hf|by rewrite Hpl, Hp].
Qed.
Lemma chunk_planned f c offset total start w w' :
  (now ← now_of H c;
    upd_client c (fun x => set_progress (after_chunk offset total (now -32 start) (progress x)) x);;
    when ((offset mod (total / OTA_CLIENT_PROGRESS_INTERVAL) =? 0) || (total <=? offset)) (ota_client_invoke_progress H c);;
    upd_client c (set_retry_count 0);; mret tt) w = Done (tt, w') -> planned f w -> planned f w'.
Proof. intros Em Hp. match type of Em with ?m w = _ => assert (keeps (planned f) m) as Hk by keeps_auto end. exact (Hk _ _ _ Hp Em). Qed.

(** The transfer ends at the first burst beyond the retries, wherever it comes. *)
Lemma download_loop_gives_up fuel j f c x total start offset w :
  clients w !! c = Some x -> truthy (cb_download (callbacks x)) = true -> cancelled x = false -> 0 <= offset < total -> total <= 1048576 ->
  0 <= retry_count x <= max_retries (policy x) -> max_retries (policy x) < UINT32_MAX -> planned f w ->
  (forall i, (i < j)%nat -> Z.of_nat (f i) + (if (i =? 0)%nat then retry_count x else 0) <= max_retries (policy x)) ->
  max_retries (policy x) < Z.of_nat (f j) + (if (j =? 0)%nat then retry_count x else 0) ->
  0 <= share -> Z.of_nat j * share < total - offset ->
  (if (j =? 0)%nat then max_retries (policy x) - retry_count x < Z.of_nat fuel else Z.of_nat (f 0%nat) + 1 + Z.of_nat j * (max_retries (policy x) + 1) <= Z.of_nat fuel) ->
  exists y w', download_loop H fuel c total start offset w = Done (Some OTA_CLIENT_ERR_NETWORK, w') /\ clients w' !! c = Some y /\
    state y = OTA_CLIENT_STATE_FAILED /\ download_complete y = download_complete x.
Proof.
  intros Hx Hd Hcan Hoff Htot Hr Hm Hp Hin Hout Hs0 Hshare Hfuel. revert j f x offset w Hx Hd Hcan Hoff Hr Hm Hp Hin Hout Hshare Hfuel.
  induction fuel as [|fuel IH]; intros j f x offset w Hx Hd Hcan Hoff Hr Hm Hp Hin Hout Hshare Hfuel; (destruct j as [|j]; cbn [Nat.eqb] in *).
  - lia.
  - nia.
  - assert (faults (env w) = f 0%nat) as Ef by (by rewrite <- plan_now, (Hp 0%nat)).
    destruct (download_loop_fails H faults (S fuel) c x total start offset w Hx) as (y & w' & E1 & H1 & H2 & _ & H3 & _); try done; [by rewrite Ef|]. by exists y, w'.
  - cbn [download_loop]. rewrite (bind_client _ _ _ _ Hx), Hcan, (proj2 (Z.ltb_lt _ _)) by lia. cbn [negb andb].
    set (chunk := if total <? offset +32 OTA_CLIENT_CHUNK_SIZE then total -32 offset else OTA_CLIENT_CHUNK_SIZE).
    assert (0 < chunk <= OTA_CLIENT_CHUNK_SIZE /\ chunk <= total - offset) as [Hchunk Hle].
    { unfold chunk, OTA_CLIENT_CHUNK_SIZE. rewrite !u32_small by lia. destruct (Z.ltb_spec total (offset + 4096)); lia. }
    destruct (fetch_ok H faults c x offset chunk w Hx Hchunk) as (rc & n & y & w1 & E1 & Hy & Hs & Hrt & Hg & Hcase). pose proof E1 as E1'. rewrite Hd in E1'.
    pose proof (fetch_planned f c x offset chunk w rc n w1 Hx Hd Hchunk Hp E1') as Hpl. clear E1'. rewrite (bind_step _ _ _ _ _ E1). destruct (settings_policy _ _ Hs) as (Hpo & Hc & Hcb). cbn [fst snd].
    assert (burst faults x w = f 0%nat) as Eb by (unfold burst; by rewrite Hd, <- plan_now, (Hp 0%nat)). rewrite Eb in Hcase. pose proof (Hin 0%nat ltac:(lia)) as Hin0. cbn [Nat.eqb] in Hin0.
    destruct (f 0%nat) as [|k] eqn:E0.
    + destruct Hcase as [-> Hn]. destruct Hpl as [Hns Hpl]. cbn [Z.eqb negb]. rewrite u32_small by lia.
      destruct (chunk_done_ok H faults c y (offset + n) total start w1 Hy) as (w2 & g & E2 & H2 & _). rewrite E2.
      specialize (E2 unit (mret tt)). apply (chunk_planned (fun i => f (S i))) in E2; [|done]. set (z := set_retry_count 0 (set_progress g y)) in *.
      destruct (IH j (fun i => f (S i)) z (offset + n) w2) as (v & w3 & E3 & H3 & Hst & Hdc);
        try (cbn; rewrite ?Hpo, ?Hcb, ?Hc; done || nia).
      * cbn. rewrite Hpo. intros i Hi. specialize (Hin (S i) ltac:(lia)). cbn [Nat.eqb] in Hin. destruct (i =? 0)%nat; lia.
      * cbn. rewrite Hpo. destruct (j =? 0)%nat; lia.
      * cbn. rewrite Hpo. destruct (Nat.eqb_spec j 0) as [->|]; [lia|]. specialize (Hin 1%nat ltac:(lia)). cbn [Nat.eqb] in Hin. nia.
      * exists v, w3. split; [exact E3|]. split; [exact H3|]. split; [done|]. rewrite Hdc. exact (proj1 (settings_flags _ _ Hs)).
    + destruct Hcase as [Hrc Hk]. rewrite (proj2 (Z.eqb_neq rc 0) Hrc). cbn [negb]. rewrite (fault_step H fuel c y total start offset w1 Hy) by (rewrite ?Hpo, ?Hrt; done || lia).
      set (z := set_retry_count (retry_count y + 1) y).
      destruct (IH (S j) (after_fault f) z offset (with_client c z w1) (with_client_lookup _ _ _)) as (v & w3 & E3 & H3 & Hst & Hdc);
        try (cbn; rewrite ?Hpo, ?Hcb, ?Hc, ?Hrt; done || lia).
      * intros i Hi. specialize (Hin i Hi). cbn [z set_retry_count retry_count policy]. rewrite Hpo, Hrt. destruct i as [|i]; cbn [after_fault Nat.eqb] in *; [rewrite E0; cbn; lia|lia].
      * exists v, w3. split; [exact E3|]. split; [exact H3|]. split; [done|]. rewrite Hdc. exact (proj1 (settings_flags _ _ Hs)).
Qed.
Lemma planned_start f fuel c x w :
  c <> NULL -> clients w !! c = Some x -> state x <> OTA_CLIENT_STATE_DOWNLOADING -> unrestricted x -> planned f w ->
  exists w1 start, clients w1 !! c = Some (starting x) /\ planned f w1 /\ ota_client_download_firmware H fuel c w = (download_loop H fuel c 1048576 start 0 ≫= after_loop c) w1.
Proof.
  intros Hc Hx Hs Hp Hpl. destruct (download_start H faults fuel c x w Hc Hx Hs Hp) as (w1 & start & H1 & _ & E1 & Hk). exists w1, start. split; [done|]. split; [|done].
  apply Hk; [intros g; apply planned_upd_client|apply planned_event|apply planned_now|done].
Qed.
End planned.

(** ** Order of the flags *)

(** Installed only what is verified, verified only what is downloaded. *)
Definition ordered (x : ota_client_ctx_t) : Prop :=
  (install_ok x = true -> verify_ok x = true) /\ (verify_ok x = true -> download_complete x = true).

Section order.
Context {E : Type} (H : hal E).
Definition all_ordered (w : world E) : Prop := forall c x, clients w !! c = Some x -> ordered x.
Definition polite {A} (m : M (world E) A) : Prop := forall w a w', m w = Done (a, w') -> clients w' = clients w.

(** Callbacks that leave the contexts alone. *)
Class Polite : Prop := {
  pol_download : forall fp url offset size ud, polite (do_download H fp url offset size ud);
  pol_progress : forall fp g ud, polite (do_progress H fp g ud);
  pol_event : forall fp s e ud, polite (do_event H fp s e ud);
  pol_get_time : forall fp, polite (do_get_time H fp);
  pol_get_battery : forall fp, polite (do_get_battery H fp);
  pol_time : polite (sys_time H) }.
Context {HP : Polite}.

Lemma polite_keeps {A} (m : M (world E) A) : polite m -> keeps all_ordered m.
Proof. intros Hm w a w' Hw Em c x Hx. rewrite (Hm _ _ _ Em) in Hx. by eapply Hw. Qed.
Lemma keeps_client c : keeps all_ordered (client c).
Proof. intros w a w' Hw Em. unfold client in Em. destruct (clients w !! c); [by injection Em as _ <-|done]. Qed.
Lemma keeps_upd_client c f : (forall x, ordered x -> ordered (f x)) -> keeps all_ordered (upd_client c f).
Proof.
  intros Hf w a w' Hw Em. unfold upd_client in Em. apply bind_Done in Em as (x & w1 & E1 & E2). unfold client in E1.
  destruct (clients w !! c) as [y|] eqn:Ey; [|done]. injection E1 as -> <-. injection E2 as _ <-. intros d z Hz. cbn in Hz.
  destruct (decide (c = d)) as [<-|Hne]; [rewrite lookup_insert_eq in Hz|rewrite lookup_insert_ne in Hz by done; by eapply Hw].
  injection Hz as <-. apply Hf. by eapply Hw.
Qed.
Lemma keeps_do_download fp url offset size ud : keeps all_ordered (do_download H fp url offset size ud).
Proof. apply polite_keeps, pol_download. Qed.
Lemma keeps_do_progress fp g ud : keeps all_ordered (do_progress H fp g ud).
Proof. apply polite_keeps, pol_progress. Qed.
Lemma keeps_do_event fp s e ud : keeps all_ordered (do_event H fp s e ud).
Proof. apply polite_keeps, pol_event. Qed.
Lemma keeps_do_time fp : keeps all_ordered (do_get_time H fp).
Proof. apply polite_keeps, pol_get_time. Qed.
Lemma keeps_do_battery fp : keeps all_ordered (do_get_battery H fp).
Proof. apply polite_keeps, pol_get_battery. Qed.
Lemma keeps_sys_time : keeps all_ordered (sys_time H).
Proof. apply polite_keeps, pol_time. Qed.
#[local] Hint Resolve keeps_client keeps_do_download keeps_do_progress keeps_do_event keeps_do_time keeps_do_battery keeps_sys_time : keeps.
#[local] Hint Extern 1 (keeps all_ordered (upd_client _ _)) => (apply keeps_upd_client; unfold ordered; cbn; tauto) : keeps.
Ltac keeps_client_auto := unfold ota_client_invoke_event, ota_client_invoke_progress, ota_client_check_time_window, ota_client_check_battery_level,
  now_of, ota_client_default_time, set_string, OK, ERR_PARAM; keeps_auto.

Lemma download_loop_keeps fuel c total start offset : keeps all_ordered (download_loop H fuel c total start offset).
Proof.
  revert offset. induction fuel as [|fuel IH]; intros offset; cbn [download_loop]; [apply keeps_nofuel|]. keeps_client_auto; apply IH.
Qed.
#[local] Hint Resolve download_loop_keeps : keeps.

(** The calls of a client's user. *)
Inductive call :=
| CInit (p : Z) (cbs : option ota_client_cb_t) | CDeinit (c : Z) | CPolicy (c : Z) (p : option ota_update_policy_config_t)
| CUrl (c : Z) (s : option (list Z)) | CDevice (c : Z) (s : option (list Z)) | CVersion (c : Z) (s : option (list Z))
| CCheck (c : Z) (out : option (list Z)) (n : Z) | CDownload (fuel : nat) (c : Z) | CCancel (c : Z) | CVerify (c : Z) | CInstall (c : Z) (reboot : bool)
| CSave (c : Z) | CLoad (c : Z) | CClear (c : Z) | CWindow (c : Z) | CBattery (c : Z).
Definition ignore {A} (m : M (world E) A) : M (world E) unit := _ ← m; mret tt.
Definition run_call (k : call) : M (world E) unit :=
  match k with
  | CInit p cbs => ignore (ota_client_init p cbs)
  | CDeinit c => ota_client_deinit c
  | CPolicy c p => ignore (ota_client_set_policy c p)
  | CUrl c s => ignore (ota_client_set_update_url c s)
  | CDevice c s => ignore (ota_client_set_device_id c s)
  | CVersion c s => ignore (ota_client_set_current_version c s)
  | CCheck c out n => ignore (ota_client_check_for_update H c out n)
  | CDownload fuel c => ignore (ota_client_download_firmware H fuel c)
  | CCancel c => ignore (ota_client_download_cancel c)
  | CVerify c => ignore (ota_client_verify_firmware H c)
  | CInstall c reboot => ignore (ota_client_install_firmware H c reboot)
  | CSave c => ignore (ota_client_save_resume_state H c)
  | CLoad c => ignore (ota_client_load_resume_state H c)
  | CClear c => ignore (ota_client_clear_resume_state c)
  | CWindow c => ignore (ota_client_check_policy_window H c)
  | CBattery c => ignore (ota_client_check_battery H c)
  end.
Fixpoint run_calls (ks : list call) : M (world E) unit := match ks with [] => mret tt | k :: ks => run_call k;; run_calls ks end.

Lemma upd_client_inv c f (w : world E) a w' : upd_client c f w = Done (a, w') -> exists x, clients w !! c = Some x /\ w' = with_client c (f x) w.
Proof.
  intros E1. unfold upd_client in E1. apply bind_Done in E1 as (x & w1 & E1 & E2). unfold client in E1.
  destruct (clients w !! c) as [y|]; [|done]. injection E1 as -> <-. injection E2 as _ <-. by exists x.
Qed.
Lemma client_inv c (w : world E) x w' : client c w = Done (x, w') -> clients w !! c = Some x /\ w' = w.
Proof. unfold client. destruct (clients w !! c); [|done]. by intros [= -> <-]. Qed.
Lemma ordered_at c x w : all_ordered w -> ordered x -> all_ordered (with_client c x w).
Proof.
  intros Hw Hx d z Hz. cbn in Hz. destruct (decide (c = d)) as [<-|Hne]; [rewrite lookup_insert_eq in Hz; by injection Hz as <-|].
  rewrite lookup_insert_ne in Hz by done. by eapply Hw.
Qed.

Lemma event_polite c s e : polite (ota_client_invoke_event H c s e).
Proof.
  intros w a w' Ew. apply bind_Done in Ew as (x & w1 & [Hx ->]%client_inv & Ew). destruct (truthy _); [by eapply pol_event|]. by injection Ew as _ <-.
Qed.
Lemma window_polite c : polite (ota_client_check_time_window H c).
Proof.
  intros w a w' Ew. apply bind_Done in Ew as (x & w1 & [Hx ->]%client_inv & Ew). destruct (negb _); [by injection Ew as _ <-|].
  apply bind_Done in Ew as (t & w2 & E2 & Ew). apply bind_Done in Ew as (y & w3 & [_ ->]%client_inv & [= _ <-]).
  apply bind_Done in E2 as (z & w4 & [_ ->]%client_inv & E2). destruct (truthy _); [by eapply pol_get_time|].
  apply bind_Done in E2 as (t' & w5 & E5 & [= _ <-]). by eapply pol_time.
Qed.

(** A flag set because an earlier one was: the callbacks between leave it. *)
Lemma verify_keeps c : keeps all_ordered (ota_client_verify_firmware H c).
Proof.
  intros w r w' Hw Ew. unfold ota_client_verify_firmware in Ew. destruct (c =? NULL); [by injection Ew as _ <-|].
  apply bind_Done in Ew as (x & w1 & [Hx ->]%client_inv & Ew). destruct (download_complete x) eqn:Ed; [|by injection Ew as _ <-]. cbn [negb] in Ew.
  apply bind_Done in Ew as (? & w2 & (y & Hy & ->)%upd_client_inv & Ew). simplify_eq.
  apply bind_Done in Ew as (? & w3 & E3%event_polite & Ew). apply bind_Done in Ew as (? & w4 & (z & Hz & ->)%upd_client_inv & [= _ <-]).
  rewrite E3, with_client_lookup in Hz. injection Hz as <-. pose proof (Hw _ _ Hx) as [H1 H2].
  apply ordered_at; [|split; intros _; [done|exact Ed]]. intros d v Hv. rewrite E3 in Hv. exact (ordered_at c (set_state OTA_CLIENT_STATE_VERIFYING x) w Hw (conj H1 H2) d v Hv).
Qed.
Lemma install_keeps c reboot : keeps all_ordered (ota_client_install_firmware H c reboot).
Proof.
  intros w r w' Hw Ew. unfold ota_client_install_firmware in Ew. destruct (c =? NULL); [by injection Ew as _ <-|].
  apply bind_Done in Ew as (x & w1 & [Hx ->]%client_inv & Ew). destruct (verify_ok x) eqn:Ed; [|by injection Ew as _ <-]. cbn [negb] in Ew.
  apply bind_Done in Ew as (? & w2 & (y & Hy & ->)%upd_client_inv & Ew). simplify_eq. pose proof (Hw _ _ Hx) as [H1 H2].
  apply bind_Done in Ew as (? & w3 & E3%event_polite & Ew). apply bind_Done in Ew as (b & w4 & E4%window_polite & Ew). rewrite E3 in E4.
  assert (all_ordered w4) as Hw4 by (intros d v Hv; rewrite E4 in Hv; exact (ordered_at c (set_state OTA_CLIENT_STATE_INSTALLING x) w Hw (conj H1 H2) d v Hv)).
  assert (clients w4 !! c = Some (set_state OTA_CLIENT_STATE_INSTALLING x)) as Hc4 by (rewrite E4; apply with_client_lookup).
  destruct b; cbn [negb] in Ew; apply bind_Done in Ew as (? & w5 & (z & Hz & ->)%upd_client_inv & Ew); rewrite Hc4 in Hz; injection Hz as <-.
  - apply bind_Done in Ew as (? & w6 & E6 & [= _ <-]). set (v := set_state OTA_CLIENT_STATE_COMPLETE _) in *.
    assert (all_ordered (with_client c v w4)) as Hv by (apply ordered_at; [done|split; intros _; [exact Ed|by apply H2]]).
    destruct reboot; cbn [when] in E6; [|by injection E6 as _ <-]. apply event_polite in E6. intros d u Hu. rewrite E6 in Hu. by eapply Hv.
  - injection Ew as _ <-. apply ordered_at; [done|exact (conj H1 H2)].
Qed.
#[local] Hint Resolve verify_keeps install_keeps : keeps.

Lemma run_call_keeps k : keeps all_ordered (run_call k).
Proof.
  destruct k; unfold run_call, ignore; try (apply keeps_bind; [|intros; apply keeps_ret]).
  - unfold ota_client_init. apply keeps_if; [apply keeps_ret|]. apply keeps_bind; [|intros; apply keeps_ret]. apply keeps_modify. intros w Hw.
    by apply (ordered_at p _ w Hw).
  - unfold ota_client_deinit. apply keeps_if; [apply keeps_ret|]. apply keeps_bind; [apply keeps_client|intros _]. apply keeps_modify. intros w Hw d v Hv.
    cbn in Hv. apply lookup_delete_Some in Hv as [_ Hv]. by eapply Hw.
  - unfold ota_client_set_policy. keeps_client_auto.
  - unfold ota_client_set_update_url. keeps_client_auto.
  - unfold ota_client_set_device_id. keeps_client_auto.
  - unfold ota_client_set_current_version. keeps_client_auto.
  - unfold ota_client_check_for_update. keeps_client_auto.
  - unfold ota_client_download_firmware. keeps_client_auto.
  - unfold ota_client_download_cancel. keeps_client_auto.
  - apply verify_keeps.
  - apply install_keeps.
  - unfold ota_client_save_resume_state. keeps_client_auto.
  - unfold ota_client_load_resume_state. keeps_client_auto.
  - unfold ota_client_clear_resume_state. keeps_client_auto.
  - unfold ota_client_check_policy_window. keeps_client_auto.
  - unfold ota_client_check_battery. keeps_client_auto.
Qed.
End order.

(** ** What the client guarantees *)

(** C36: a download survives any faults within its retries and no others.  The callbacks return and leave the contexts alone; no download is under way, the policy asks for neither a time of day nor a
    battery and allows fewer than 2^32 - 1 retries.  When no burst of faults exceeds the retries the transfer ends with the whole size fetched and marked complete, whatever the server's share of a
    chunk.  When the server's faults follow a schedule whose bursts are within the retries up to the [j]-th answer, while the answers before it do not bring the whole size, and the burst
    before that answer exceeds them, the transfer ends there as failed and marks nothing. *)
Theorem download_correct {E} (H : hal E) faults `{!Server H faults} c x w :
  c <> NULL -> clients w !! c = Some x -> state x <> OTA_CLIENT_STATE_DOWNLOADING -> unrestricted x ->
  0 <= max_retries (policy x) < UINT32_MAX ->
  ((forall e, Z.of_nat (faults e) <= max_retries (policy x)) -> forall fuel, 1048577 * (max_retries (policy x) + 1) < Z.of_nat fuel ->
     exists y w', ota_client_download_firmware H fuel c w = Done (OTA_CLIENT_OK, w') /\ clients w' !! c = Some y /\
       state y = OTA_CLIENT_STATE_IDLE /\ download_complete y = true /\
       bytes_downloaded (progress y) = 1048576 /\ bytes_total (progress y) = 1048576 /\ percent (progress y) = 100) /\
  (cb_download (callbacks x) <> NULL -> forall plan share `{!Planned H faults plan share} j,
     0 <= share -> Z.of_nat j * share < 1048576 ->
     (forall i, (i < j)%nat -> Z.of_nat (plan (env w) i) <= max_retries (policy x)) -> max_retries (policy x) < Z.of_nat (plan (env w) j) ->
     forall fuel, (Z.of_nat j + 1) * (max_retries (policy x) + 1) <= Z.of_nat fuel ->
     exists y w', ota_client_download_firmware H fuel c w = Done (OTA_CLIENT_ERR_NETWORK, w') /\ clients w' !! c = Some y /\
       state y = OTA_CLIENT_STATE_FAILED /\ download_complete y = download_complete x).
Proof.
  intros Hc Hx Hs Hp Hm. split.
  - intros Hf fuel Hfuel. destruct (download_start H faults fuel c x w Hc Hx Hs Hp) as (w1 & start & H1 & _ & -> & _). pose proof (Hf (env w1)) as Hf1.
    destruct (download_loop_ok H faults fuel c (starting x) 1048576 start 0 w1 H1) as (y & w2 & E2 & H2 & Hset & Hdone & Htot);
      [done|lia|lia|cbn; lia|cbn; lia|exact Hf|unfold burst; cbn; destruct (truthy (cb_download (callbacks x))); lia|
       unfold burst; cbn; destruct (truthy (cb_download (callbacks x))); lia|].
    unfold after_loop. rewrite (bind_step _ _ _ _ _ E2), (bind_client _ _ _ _ H2). destruct (settings_policy _ _ Hset) as (_ & -> & _). cbn [cancelled starting set_progress set_retry_count set_cancelled].
    rewrite (bind_upd _ _ _ _ _ H2). do 2 eexists. split; [reflexivity|]. split; [apply with_client_lookup|]. split; [done|]. split; [done|].
    cbn. destruct Hdone as [? ?]; [left; lia|]. by rewrite Htot.
  - intros Hd plan share HP j Hs0 Hj Hin Hout fuel Hfuel. destruct (planned_start H faults plan share (plan (env w)) fuel c x w Hc Hx Hs Hp) as (w1 & start & H1 & Hpl & ->); [by intros i|].
    destruct (download_loop_gives_up H faults plan share fuel j (plan (env w)) c (starting x) 1048576 start 0 w1 H1) as (y & w2 & E2 & H2 & Hst & Hdc);
      try (cbn; done || lia).
    + unfold truthy. cbn. by rewrite (proj2 (Z.eqb_neq _ 0) Hd).
    + cbn. intros i Hi. specialize (Hin i Hi). destruct (i =? 0)%nat; lia.
    + cbn. destruct (j =? 0)%nat; lia.
    + cbn. destruct (Nat.eqb_spec j 0) as [->|]; [lia|]. specialize (Hin 0%nat ltac:(lia)). lia.
    + unfold after_loop. rewrite (bind_step _ _ _ _ _ E2). by exists y, w2.
Qed.

(** What was downloaded once stays downloaded: after a complete download a second one that fails still lets verification and installation
    succeed. *)
Theorem stale_download_installs {E} (H : hal E) faults `{!Server H faults} c x w fuel :
  c <> NULL -> clients w !! c = Some x -> state x <> OTA_CLIENT_STATE_DOWNLOADING -> p_policy (policy x) = OTA_POLICY_ANYTIME ->
  0 <= max_retries (policy x) < UINT32_MAX -> cb_download (callbacks x) <> NULL ->
  max_retries (policy x) < Z.of_nat (faults (env w)) -> max_retries (policy x) < Z.of_nat fuel -> download_complete x = true ->
  exists w', (r1 ← ota_client_download_firmware H fuel c; r2 ← ota_client_verify_firmware H c; r3 ← ota_client_install_firmware H c false; mret [r1; r2; r3]) w =
    Done ([OTA_CLIENT_ERR_NETWORK; OTA_CLIENT_OK; OTA_CLIENT_OK], w').
Proof.
  intros Hc Hx Hs Hp Hm Hd Hf Hfuel Hdone. destruct (download_start H faults fuel c x w Hc Hx Hs (anytime_unrestricted x Hp)) as (w1 & start & H1 & Ef & E1 & _).
  destruct (download_loop_fails H faults fuel c (starting x) 1048576 start 0 w1 H1) as (y & w2 & E2 & H2 & Hst & Hpy & Hdc & _);
    [unfold truthy; cbn; by rewrite (proj2 (Z.eqb_neq _ 0) Hd)|done|lia|lia|cbn; lia|cbn; lia|cbn; rewrite Ef; lia|cbn; lia|].
  rewrite (bind_step _ _ w OTA_CLIENT_ERR_NETWORK w2) by (by rewrite E1, (bind_step _ _ _ _ _ E2)).
  unfold ota_client_verify_firmware, ota_client_install_firmware. rewrite (proj2 (Z.eqb_neq c NULL) Hc), !bind_assoc, (bind_client _ _ _ _ H2).
  rewrite Hdc. cbn [starting set_progress download_complete set_retry_count set_cancelled set_state]. rewrite Hdone. cbn [negb].
  rewrite !bind_assoc, (bind_upd _ _ _ _ _ H2). set (y1 := set_state OTA_CLIENT_STATE_VERIFYING y).
  destruct (event_quiet H faults c y1 OTA_CLIENT_STATE_VERIFYING 0 _ (with_client_lookup c y1 w2)) as (w3 & E3 & C3 & _).
  rewrite !bind_assoc, (bind_step _ _ _ _ _ E3). rewrite !bind_assoc, (bind_upd c y1 _ _ w3) by (rewrite C3; apply with_client_lookup).
  unfold OK. rewrite bind_ret. rewrite !bind_assoc, (bind_client _ _ _ _ (with_client_lookup _ _ _)). cbn [verify_ok set_state set_verify_ok negb].
  rewrite !bind_assoc, (bind_upd _ _ _ _ _ (with_client_lookup _ _ _)). set (w4 := with_client _ _ _).
  destruct (event_quiet H faults c _ OTA_CLIENT_STATE_INSTALLING 0 w4 (with_client_lookup _ _ _)) as (w5 & E5 & C5 & _).
  assert (forall z, clients w4 !! c = Some z -> clients w5 !! c = Some z) as Hz by (by intros z; rewrite C5).
  specialize (Hz _ (with_client_lookup _ _ _)). rewrite !bind_assoc, (bind_step _ _ _ _ _ E5).
  unfold ota_client_check_time_window. rewrite !bind_assoc, (bind_client _ _ _ _ Hz). cbn [policy set_state set_verify_ok y1].
  rewrite Hpy. cbn [starting policy set_progress set_retry_count set_cancelled set_state]. rewrite Hp, bool_decide_eq_false_2 by done. cbn [negb].
  rewrite bind_ret. cbn [negb]. rewrite !bind_assoc, (bind_upd _ _ _ _ _ Hz). eexists. reflexivity.
Qed.

(** The transfer loop stays at the first byte. *)
Lemma stalled_loop {E} (H : hal E) t fuel c x start w :
  (forall fp url offset size ud w, do_download H fp url offset size ud w = Done ((0, 0, []), w)) -> (forall w, sys_time H w = Done (t, w)) ->
  clients w !! c = Some x -> cancelled x = false -> cb_download (callbacks x) <> NULL -> cb_progress (callbacks x) = NULL -> cb_get_time (callbacks x) = NULL ->
  download_loop H fuel c 1048576 start 0 w = NoFuel.
Proof.
  intros Hstall Htime. revert x w. induction fuel as [|fuel IH]; intros x w Hx Hcan Hd Hg Ht; [done|]. cbn [download_loop].
  rewrite (bind_client _ _ _ _ Hx), Hcan. cbn [Z.ltb Z.compare negb andb].
  assert (truthy (cb_download (callbacks x)) = true) as -> by (unfold truthy; by rewrite (proj2 (Z.eqb_neq _ 0) Hd)).
  rewrite bind_assoc, (bind_step _ _ _ _ _ (Hstall _ _ _ _ _ _)). cbn [snd length]. change (OTA_CLIENT_CHUNK_SIZE <? Z.of_nat 0) with false. cbv iota.
  rewrite bind_assoc, (bind_upd _ _ _ _ _ Hx), bind_ret. cbn [fst snd Z.eqb negb]. change (0 +32 0) with 0.
  unfold now_of. rewrite bind_assoc, (bind_client _ _ _ _ (with_client_lookup _ _ _)). cbn [callbacks set_download_buffer]. rewrite Ht.
  cbn [truthy Z.eqb negb NULL]. unfold ota_client_default_time. rewrite bind_assoc, (bind_step _ _ _ _ _ (Htime _)), bind_ret.
  rewrite (bind_upd _ _ _ _ _ (with_client_lookup _ _ _)). change ((0 mod (1048576 / OTA_CLIENT_PROGRESS_INTERVAL) =? 0) || (1048576 <=? 0)) with true. cbn [when].
  unfold ota_client_invoke_progress. rewrite bind_assoc, (bind_client _ _ _ _ (with_client_lookup _ _ _)). cbn [callbacks set_download_buffer set_progress]. rewrite Hg.
  cbn [truthy Z.eqb negb NULL when]. rewrite bind_ret, (bind_upd _ _ _ _ _ (with_client_lookup _ _ _)).
  eapply IH; [apply with_client_lookup|done..].
Qed.

(** A stalled server is never given up: when every request succeeds with no bytes the transfer goes round for ever. *)
Theorem download_hangs {E} (H : hal E) c x w :
  c <> NULL -> clients w !! c = Some x -> state x <> OTA_CLIENT_STATE_DOWNLOADING -> p_policy (policy x) = OTA_POLICY_ANYTIME ->
  cb_download (callbacks x) <> NULL -> cb_event (callbacks x) = NULL -> cb_progress (callbacks x) = NULL -> cb_get_time (callbacks x) = NULL ->
  (forall fp url offset size ud w, do_download H fp url offset size ud w = Done ((0, 0, []), w)) -> (exists t, forall w, sys_time H w = Done (t, w)) ->
  forall fuel, ota_client_download_firmware H fuel c w = NoFuel.
Proof.
  intros Hc Hx Hs Hp Hd He Hg Ht Hstall [t Htime] fuel. unfold ota_client_download_firmware, ota_client_check_time_window, ota_client_check_battery_level.
  rewrite (proj2 (Z.eqb_neq c NULL) Hc), (bind_client _ _ _ _ Hx). rewrite bool_decide_eq_false_2 by done.
  rewrite bind_assoc, (bind_client _ _ _ _ Hx), Hp, bool_decide_eq_false_2 by done. cbn [negb]. rewrite bind_ret. cbn [negb].
  rewrite bind_assoc, (bind_client _ _ _ _ Hx), Hp, bool_decide_eq_false_2 by done. cbn [negb]. rewrite bind_ret. cbn [negb].
  rewrite (bind_upd _ _ _ _ _ Hx). unfold ota_client_invoke_event. rewrite bind_assoc, (bind_client _ _ _ _ (with_client_lookup _ _ _)).
  cbn [callbacks set_retry_count set_cancelled set_state]. rewrite He. cbn [truthy Z.eqb negb NULL when]. rewrite bind_ret.
  rewrite (bind_upd _ _ _ _ _ (with_client_lookup _ _ _)).
  unfold now_of. rewrite bind_assoc, (bind_client _ _ _ _ (with_client_lookup _ _ _)). cbn [callbacks set_retry_count set_cancelled set_state set_progress]. rewrite Ht.
  cbn [truthy Z.eqb negb NULL]. unfold ota_client_default_time. rewrite bind_assoc, (bind_step _ _ _ _ _ (Htime _)), bind_ret.
  change (1024 * 1024) with 1048576. unfold mbind, M_bind.
  by rewrite (stalled_loop H t fuel c _ _ _ Hstall Htime (with_client_lookup _ _ _)) by done.
Qed.

(** Nothing is installed that was not verified, nor verified that was not downloaded: with callbacks that leave the contexts alone no sequence of
    calls gives a context whose flags say otherwise. *)
Theorem flags_in_order {E} (H : hal E) `{!Polite H} ks w w' :
  all_ordered w -> run_calls H ks w = Done (tt, w') -> all_ordered w'.
Proof.
  revert w. induction ks as [|k ks IH]; intros w Hw Hr; cbn [run_calls] in Hr; [by injection Hr as <-|].
  apply bind_Done in Hr as ([] & w1 & E1 & E2). apply (IH w1); [|exact E2]. by eapply run_call_keeps.
Qed.

(** The update window is the stretch of the day from its start to its end, over midnight when the end is the earlier. *)
Theorem window_cyclic p now :
  0 <= time_window_start_hour p < 24 -> 0 <= time_window_start_min p < 60 -> 0 <= time_window_end_hour p < 24 -> 0 <= time_window_end_min p < 60 -> 0 <= now ->
  let start := time_window_start_hour p * 60 + time_window_start_min p in
  let fin := time_window_end_hour p * 60 + time_window_end_min p in
  in_window p now = ((now / 60 - start) mod 1440 <=? (fin - start) mod 1440).
Proof.
  intros Hsh Hsm Heh Hem Hn start fin. unfold in_window. rewrite (u32_small (time_window_start_hour p * 60)), (u32_small (time_window_end_hour p * 60)), !u32_small by lia. fold start fin.
  assert ((now / 3600) mod 24 * 60 + (now / 60) mod 60 = (now / 60) mod 1440) as ->.
  { replace (now / 3600) with (now / 60 / 60) by (rewrite Z.div_div by lia; done). set (m := now / 60).
    change 1440 with (60 * 24). rewrite Z.rem_mul_r by lia. lia. }
  set (d := (now / 60) mod 1440). assert (0 <= d < 1440) as Hd by (apply Z.mod_pos_bound; lia).
  assert ((now / 60 - start) mod 1440 = (d - start) mod 1440) as -> by (unfold d; by rewrite Zminus_mod_idemp_l).
  assert (forall a b, 0 <= a < 1440 -> 0 <= b < 1440 -> (a - b) mod 1440 = if b <=? a then a - b else a - b + 1440) as Hm.
  { intros a b Ha Hb. destruct (Z.leb_spec b a); [apply Z.mod_small; lia|]. symmetry. apply (Z.mod_unique _ _ (-1)); lia. }
  rewrite !Hm by lia. destruct (Z.leb_spec start fin), (Z.leb_spec start d), (Z.leb_spec d fin); cbn [andb orb]; symmetry; apply Z.leb_le || apply Z.leb_gt; lia.
Qed.

(** What is saved is restored: in power-safe mode the byte counts of the moment of saving come back on loading, whatever happened to the
    progress between, and the client is resuming; a cleared record is refused. *)
Theorem resume_roundtrip {E} (H : hal E) faults `{!Server H faults} c x w g :
  c <> NULL -> clients w !! c = Some x -> power_safe_mode (policy x) = true ->
  is_u32 (bytes_total (progress x)) -> is_u32 (bytes_downloaded (progress x)) ->
  (exists y w', (r1 ← ota_client_save_resume_state H c; upd_client c (set_progress g);; r2 ← ota_client_load_resume_state H c; mret (r1, r2)) w =
       Done ((OTA_CLIENT_OK, OTA_CLIENT_OK), w') /\ clients w' !! c = Some y /\ state y = OTA_CLIENT_STATE_RESUMING /\
     bytes_total (progress y) = bytes_total (progress x) /\ bytes_downloaded (progress y) = bytes_downloaded (progress x)) /\
  (exists w', (r1 ← ota_client_clear_resume_state c; r2 ← ota_client_load_resume_state H c; mret (r1, r2)) w =
       Done ((OTA_CLIENT_OK, OTA_CLIENT_ERR_STORAGE), w')).
Proof.
  intros Hc Hx Hp Ht Hd. split.
  - unfold ota_client_save_resume_state. rewrite (proj2 (Z.eqb_neq c NULL) Hc), bind_assoc, (bind_client _ _ _ _ Hx), Hp. cbn [negb].
    rewrite bind_assoc, (bind_upd _ _ _ _ _ Hx). set (x1 := set_resume _ x).
    destruct (now_of_quiet H faults c x1 _ (with_client_lookup c x1 w)) as (t & w1 & E1 & C1 & _). rewrite bind_assoc, (bind_step _ _ _ _ _ E1).
    rewrite bind_assoc, (bind_upd c x1 _ _ w1) by (rewrite C1; apply with_client_lookup). unfold OK. rewrite bind_ret.
    rewrite (bind_upd _ _ _ _ _ (with_client_lookup _ _ _)). unfold ota_client_load_resume_state. rewrite (proj2 (Z.eqb_neq c NULL) Hc).
    rewrite bind_assoc, (bind_client _ _ _ _ (with_client_lookup _ _ _)). cbn [resume resume_magic set_progress set_resume x1].
    rewrite Z.eqb_refl. cbn [negb]. rewrite bind_assoc, (bind_upd _ _ _ _ _ (with_client_lookup _ _ _)).
    rewrite bind_assoc, (bind_upd _ _ _ _ _ (with_client_lookup _ _ _)).
    match goal with |- context [(_ ≫= _) (with_client c ?z ?v)] => destruct (event_quiet H faults c z OTA_CLIENT_STATE_RESUMING 0 _ (with_client_lookup c z v)) as (w2 & E2 & C2 & _) end.
    rewrite bind_assoc, (bind_step _ _ _ _ _ E2). do 2 eexists. split; [reflexivity|]. split; [rewrite C2; apply with_client_lookup|].
    split; [done|]. cbn. by rewrite !u32_small.
  - unfold ota_client_clear_resume_state, ota_client_load_resume_state. rewrite (proj2 (Z.eqb_neq c NULL) Hc), bind_assoc, (bind_upd _ _ _ _ _ Hx).
    unfold OK. rewrite bind_ret, bind_assoc, (bind_client _ _ _ _ (with_client_lookup _ _ _)). by eexists.
Qed.

(** ** Concrete runs

    A server that fails as often as its state says (at most three times) and then sends the whole chunk, after which it will fail twice. *)
Definition demo_faults (e : nat) : nat := Nat.min e 3.
Definition demo_hal : hal nat :=
  Hal (fun _ _ _ size _ w => match demo_faults (env w) with S k => Done ((-1, 0, []), set_env k w) | O => Done ((0, size, []), set_env 2%nat w) end)
    (fun _ _ _ => mret tt) (fun _ _ _ _ => mret tt) (fun _ => mret 60) (fun _ => mret 80) (mret 4294967356).
#[export] Instance demo_server : Server demo_hal demo_faults.
Proof.
  split.
  - intros fp url offset size ud w Hs. cbn [do_download demo_hal]. destruct (demo_faults (env w)) as [|k] eqn:E; do 4 eexists; (split; [reflexivity|]); (split; [done|]);
      (split; [done|]); [lia|]. split; [done|]. cbn [env set_env]. unfold demo_faults in *. lia.
  - intros fp g ud w. by exists tt, w.
  - intros fp s e ud w. by exists tt, w.
  - intros fp w. by exists 60, w.
  - intros fp w. by exists 80, w.
  - intros w. by exists 4294967356, w.
Qed.
Lemma demo_polite : Polite demo_hal.
Proof.
  split; try (intros; intros w a w' [= <- <-]; done).
  intros fp url offset size ud w a w'. cbn [do_download demo_hal]. by destruct (demo_faults (env w)) as [|k]; intros [= <- <-].
Qed.

Definition demo_policy (retries : Z) : ota_update_policy_config_t := Policy OTA_POLICY_ANYTIME 22 30 6 0 30 true retries 5000 false true false 30 10 true.
Definition demo_ctx (download : Z) (complete : bool) (retries : Z) : ota_client_ctx_t :=
  Ctx (Callbacks download NULL NULL NULL NULL NULL NULL) (demo_policy retries) [] [] [] [] OTA_CLIENT_STATE_IDLE zero_resume zero_progress [] false complete false false
    3600 0 0 0 false.
Definition demo_world (x : ota_client_ctx_t) (e : nat) : world nat := World {[ 32 := x ]} e.

(** Its schedule: what is left of the burst, then two faults before every answer. *)
Definition demo_plan (e i : nat) : nat := match i with O => demo_faults e | S _ => 2%nat end.
#[export] Instance demo_planned : Planned demo_hal demo_faults demo_plan 4096.
Proof.
  assert (forall {A} f (a : A), keeps (planned demo_plan f) (mret a)) as Hret by (intros; intros w x w' Hp [= _ <-]; done).
  split; try (intros; apply Hret); [done|].
  intros fp url offset size ud w rc n bs w' Hs. cbn [do_download demo_hal]. unfold OTA_CLIENT_CHUNK_SIZE in Hs. destruct (demo_faults (env w)) as [|k] eqn:E; intros [= <- <- <- <-]; [|done].
  split; [lia|]. by intros [|i].
Qed.
Lemma demo_unrestricted d b r : unrestricted (demo_ctx d b r).
Proof. by split. Qed.

Lemma download_correct_witness :
  (exists y w', ota_client_download_firmware demo_hal (Z.to_nat 4194309) 32 (demo_world (demo_ctx 1 false 3) 3) = Done (OTA_CLIENT_OK, w') /\
     clients w' !! 32 = Some y /\ download_complete y = true /\ percent (progress y) = 100) /\
  exists y w', ota_client_download_firmware demo_hal 4 32 (demo_world (demo_ctx 1 false 1) 0) = Done (OTA_CLIENT_ERR_NETWORK, w') /\
     clients w' !! 32 = Some y /\ state y = OTA_CLIENT_STATE_FAILED.
Proof.
  split.
  - destruct (download_correct demo_hal demo_faults 32 (demo_ctx 1 false 3) (demo_world (demo_ctx 1 false 3) 3)) as [H _];
      [discriminate|reflexivity|discriminate|apply demo_unrestricted|split; [discriminate|reflexivity]|].
    destruct (H) with (fuel := Z.to_nat 4194309) as (y & w' & E & Hy & _ & Hc & _ & _ & Hp).
    + intros e. unfold demo_faults. cbn. lia.
    + rewrite Z2Nat.id by lia. cbn. lia.
    + exists y, w'. split; [exact E|]. split; [exact Hy|]. split; [exact Hc|exact Hp].
  - destruct (download_correct demo_hal demo_faults 32 (demo_ctx 1 false 1) (demo_world (demo_ctx 1 false 1) 0)) as [_ H];
      [discriminate|reflexivity|discriminate|apply demo_unrestricted|split; [discriminate|reflexivity]|].
    specialize (H ltac:(discriminate) demo_plan 4096 demo_planned 1%nat).
    destruct (H) with (fuel := 4%nat) as (y & w' & E & Hy & Hs & _); [lia|lia| |reflexivity|cbn; lia|].
    + intros i Hi. replace i with 0%nat by lia. cbn. lia.
    + exists y, w'. split; [exact E|]. split; [exact Hy|exact Hs].
Defined.

Lemma stale_download_installs_witness :
  exists w', (r1 ← ota_client_download_firmware demo_hal 3 32; r2 ← ota_client_verify_firmware demo_hal 32; r3 ← ota_client_install_firmware demo_hal 32 false;
      mret [r1; r2; r3]) (demo_world (demo_ctx 1 true 2) 3) = Done ([OTA_CLIENT_ERR_NETWORK; OTA_CLIENT_OK; OTA_CLIENT_OK], w').
Proof.
  apply (stale_download_installs demo_hal demo_faults 32 (demo_ctx 1 true 2)); try reflexivity; try discriminate. split; [discriminate|reflexivity].
Defined.

Definition stalled_hal : hal nat := Hal (fun _ _ _ _ _ => mret (0, 0, [])) (fun _ _ _ => mret tt) (fun _ _ _ _ => mret tt) (fun _ => mret 0) (fun _ => mret 0) (mret 5).
Lemma download_hangs_witness : ota_client_download_firmware stalled_hal 100 32 (demo_world (demo_ctx 1 false 3) 0) = NoFuel.
Proof.
  apply (download_hangs stalled_hal 32 (demo_ctx 1 false 3)); try reflexivity; try discriminate. exists 5. reflexivity.
Defined.

Definition demo_cbs : ota_client_cb_t := Callbacks 1 NULL NULL NULL NULL NULL NULL.
Lemma flags_in_order_witness :
  exists w', run_calls demo_hal [CInit 32 (Some demo_cbs); CDownload 800 32; CVerify 32; CInstall 32 true; CSave 32; CClear 32] (World ∅ 0%nat) = Done (tt, w') /\ all_ordered w'.
Proof.
  destruct (run_calls demo_hal [CInit 32 (Some demo_cbs); CDownload 800 32; CVerify 32; CInstall 32 true; CSave 32; CClear 32] (World ∅ 0%nat)) as [[[] w']| |] eqn:E;
    [|exfalso; vm_compute in E; discriminate E|exfalso; vm_compute in E; discriminate E].
  exists w'. split; [reflexivity|]. refine (@flags_in_order nat demo_hal demo_polite _ _ _ _ E). intros c x Hx. discriminate Hx.
Defined.

Lemma window_cyclic_witness : in_window (demo_policy 3) 82800 = ((1380 - 1350) mod 1440 <=? (360 - 1350) mod 1440).
Proof. apply (window_cyclic (demo_policy 3) 82800); vm_compute; (split; [discriminate|reflexivity]) || discriminate. Defined.

Lemma resume_roundtrip_witness :
  exists y w', (r1 ← ota_client_save_resume_state demo_hal 32; upd_client 32 (set_progress (Progress 1 2 3 4 5 6 OTA_CLIENT_STATE_FAILED));;
      r2 ← ota_client_load_resume_state demo_hal 32; mret (r1, r2)) (demo_world (demo_ctx 1 false 3) 0) = Done ((OTA_CLIENT_OK, OTA_CLIENT_OK), w') /\
    clients w' !! 32 = Some y /\ state y = OTA_CLIENT_STATE_RESUMING /\ bytes_total (progress y) = 0 /\ bytes_downloaded (progress y) = 0.
Proof.
  apply (resume_roundtrip demo_hal demo_faults 32 (demo_ctx 1 false 3)); [discriminate|reflexivity|reflexivity|..]; split; [discriminate|reflexivity|discriminate|reflexivity].
Defined.
