(* ===== verification/OtaServer.v ===== *)
(** * The update server (mini-ota-update/src/ota_server.c)

    One static context: releases, rollout plans and device groups in the order of their creation, the token of the last registration.
    String arguments are the bytes before the terminator, string fields are the arrays.  What [realloc] answers and what [time] returns are
    arguments of the calls that use them; [char] is signed. *)
From S2P Require Import Prelude.

Definition NULL : Z := 0.
Definition OTA_SERVER_AUTH_TOKEN_MAX : nat := 128.
Definition OTA_SERVER_SESSION_MAX : nat := 64.
Definition OTA_SERVER_RANGE_SIZE : Z := 2 * 1024 * 1024.

Inductive ota_server_result_t :=
| OTA_SERVER_OK | OTA_SERVER_ERR_PARAM | OTA_SERVER_ERR_AUTH | OTA_SERVER_ERR_NETWORK | OTA_SERVER_ERR_NOT_FOUND | OTA_SERVER_ERR_SERVER
| OTA_SERVER_ERR_STORAGE | OTA_SERVER_ERR_VERSION | OTA_SERVER_ERR_ROLLOUT | OTA_SERVER_ERR_BUSY | OTA_SERVER_ERR_BAD_REQUEST.
Inductive ota_channel_t := OTA_CHANNEL_DEV | OTA_CHANNEL_BETA | OTA_CHANNEL_STABLE.
Inductive ota_rollout_state_t := OTA_ROLLOUT_PAUSED | OTA_ROLLOUT_ACTIVE | OTA_ROLLOUT_COMPLETED | OTA_ROLLOUT_ROLLEDBACK.
#[export] Instance ota_channel_eq : EqDecision ota_channel_t.
Proof. solve_decision. Defined.

Record ota_firmware_release_t := Release {
  rel_product : list Z; rel_version : list Z; rel_channel : ota_channel_t; rel_size : Z; rel_hash : list Z; min_hardware_version : Z; max_hardware_version : Z; rollout_percentage : Z; rollout_state : ota_rollout_state_t; created_at : Z; updated_at : Z; mandatory : bool; changelog : list Z; download_url : list Z; force_update : bool; force_after : Z }.
Definition set_rel_channel v x := Release (rel_product x) (rel_version x) v (rel_size x) (rel_hash x) (min_hardware_version x) (max_hardware_version x) (rollout_percentage x) (rollout_state x) (created_at x) (updated_at x) (mandatory x) (changelog x) (download_url x) (force_update x) (force_after x).
Definition set_rel_size v x := Release (rel_product x) (rel_version x) (rel_channel x) v (rel_hash x) (min_hardware_version x) (max_hardware_version x) (rollout_percentage x) (rollout_state x) (created_at x) (updated_at x) (mandatory x) (changelog x) (download_url x) (force_update x) (force_after x).
Definition set_created_at v x := Release (rel_product x) (rel_version x) (rel_channel x) (rel_size x) (rel_hash x) (min_hardware_version x) (max_hardware_version x) (rollout_percentage x) (rollout_state x) v (updated_at x) (mandatory x) (changelog x) (download_url x) (force_update x) (force_after x).
Definition set_updated_at v x := Release (rel_product x) (rel_version x) (rel_channel x) (rel_size x) (rel_hash x) (min_hardware_version x) (max_hardware_version x) (rollout_percentage x) (rollout_state x) (created_at x) v (mandatory x) (changelog x) (download_url x) (force_update x) (force_after x).
Record ota_rollout_plan_t := Plan {
  plan_product : list Z; rollout_step : Z; target_percentage : Z; step_duration_hours : Z; success_rate_threshold : Z; plan_state : ota_rollout_state_t; started_at : Z; current_percentage : Z }.
Definition set_plan_state v x := Plan (plan_product x) (rollout_step x) (target_percentage x) (step_duration_hours x) (success_rate_threshold x) v (started_at x) (current_percentage x).
Definition set_started_at v x := Plan (plan_product x) (rollout_step x) (target_percentage x) (step_duration_hours x) (success_rate_threshold x) (plan_state x) v (current_percentage x).
Definition set_current_percentage v x := Plan (plan_product x) (rollout_step x) (target_percentage x) (step_duration_hours x) (success_rate_threshold x) (plan_state x) (started_at x) v.
Record ota_device_info_t := DeviceInfo {
  dev_id : list Z; dev_product : list Z; dev_version : list Z; last_seen : Z; dev_channel : ota_channel_t; enrolled : bool; max_rollout_pct : Z }.
Record ota_download_session_t := Session {
  s_session_id : list Z; s_url : list Z; content_length : Z; checksum_sha256 : list Z; resume_supported : bool; auth_header : list Z }.
Record ota_device_group_t := DeviceGroup {
  group_name : list Z; grp_product : list Z; device_count : Z; updated_count : Z; failed_count : Z; grp_rollout_pct : Z }.
(** Function pointers and strings the server only stores are addresses. *)
Record ota_server_config_t := Config { cfg_base_url : Z; cfg_api_key : Z; cfg_http_get : Z; cfg_http_free : Z; cfg_ctx : Z }.
Record ota_server_ctx_t := Server {
  base_url : Z; api_key : Z; http_get : Z; http_free : Z; http_ctx : Z; initialized : bool; cached_token : list Z; releases : list ota_firmware_release_t; rollouts : list ota_rollout_plan_t; groups : list ota_device_group_t }.
Definition set_cached_token v x := Server (base_url x) (api_key x) (http_get x) (http_free x) (http_ctx x) (initialized x) v (releases x) (rollouts x) (groups x).
Definition set_releases v x := Server (base_url x) (api_key x) (http_get x) (http_free x) (http_ctx x) (initialized x) (cached_token x) v (rollouts x) (groups x).
Definition set_rollouts v x := Server (base_url x) (api_key x) (http_get x) (http_free x) (http_ctx x) (initialized x) (cached_token x) (releases x) v (groups x).

Notation SM := (M ota_server_ctx_t).
Definition zero_server : ota_server_ctx_t := Server NULL NULL NULL NULL NULL false (replicate OTA_SERVER_AUTH_TOKEN_MAX 0) [] [] [].
Definition zero_release : ota_firmware_release_t :=
  Release (replicate 64 0) (replicate 64 0) OTA_CHANNEL_DEV 0 (replicate 32 0) 0 0 0 OTA_ROLLOUT_PAUSED 0 0 false (replicate 512 0) (replicate 256 0) false 0.

(** ** Strings *)

(** [strcmp]: the sign of the first difference. *)
Fixpoint strcmp (a b : list Z) : Z :=
  match a, b with
  | [], [] => 0
  | [], _ => -1
  | _, [] => 1
  | x :: a, y :: b => if x =? y then strcmp a b else if x <? y then -1 else 1
  end.

Definition hex_digit (d : Z) : Z := if d <? 10 then 48 + d else 87 + d.
(** "%08x" of 32 bits. *)
Definition hex8 (x : Z) : list Z := (fun i => hex_digit ((x / 16 ^ i) mod 16)) <$> [7; 6; 5; 4; 3; 2; 1; 0].
(** "%lu" of 64 bits: at most twenty digits. *)
Fixpoint decimal (fuel : nat) (x : Z) (acc : list Z) : list Z :=
  match fuel with
  | O => acc
  | S fuel => let acc := (48 + x mod 10) :: acc in if x / 10 =? 0 then acc else decimal fuel (x / 10) acc
  end.
Definition dec (x : Z) : list Z := decimal 20 x [].

(** [snprintf(dst, n, ...)] of the text [s] for positive [n]: what is written, with the terminator. *)
Definition snprintf (n : Z) (s : list Z) : list Z := take (Z.to_nat (n - 1)) s ++ [0].
(** The text for JSON; [granted] is whether malloc gives the buffer. *)
Definition ota_server_encode_json (key value : list Z) (granted : bool) : option (list Z) :=
  if granted then Some (snprintf (Z.of_nat (length key + length value) + 8) ([34] ++ key ++ [34; 58; 34] ++ value ++ [34])) else None.

Definition char_value (b : Z) : Z := if b <? 128 then b else b - 256.
Definition ota_server_hash (str : list Z) : Z := foldl (fun hash b => u32 (hash * 32) +32 hash +32 char_value b) 5381 str.

(** ** Life cycle and devices *)

Definition ota_server_init (config : option ota_server_config_t) : SM ota_server_result_t :=
  match config with
  | None => mret OTA_SERVER_ERR_PARAM
  | Some c =>
      if cfg_base_url c =? NULL then mret OTA_SERVER_ERR_PARAM
      else
        modify (fun _ => Server (cfg_base_url c) (cfg_api_key c) (cfg_http_get c) (cfg_http_free c) (cfg_ctx c) true
          (cached_token zero_server) [] [] []);;
        mret OTA_SERVER_OK
  end.
Definition ota_server_deinit : SM unit := modify (fun _ => zero_server).

(** "ota_token_" *)
Definition token_prefix : list Z := [111; 116; 97; 95; 116; 111; 107; 101; 110; 95].
Definition token_of (d : ota_device_info_t) : list Z :=
  token_prefix ++ hex8 (ota_server_hash (c_string (dev_id d))) ++ [95] ++ hex8 (last_seen d).

(** [token_out] is a buffer of [token_size] bytes. *)
Definition ota_server_register_device (device : option ota_device_info_t) (token_out : option (list Z)) (token_size : Z) :
  SM (ota_server_result_t * option (list Z)) :=
  match device, token_out with
  | Some d, Some out =>
      if token_size =? 0 then mret (OTA_SERVER_ERR_PARAM, Some out)
      else
        i ← gets initialized;
        if negb i then mret (OTA_SERVER_ERR_SERVER, Some out)
        else
          let text := snprintf token_size (token_of d) in
          if (length out <? length text)%nat then undefined
          else
            key ← gets api_key;
            when (truthy key) (modify (fun s => set_cached_token
              (overlay (snprintf (Z.of_nat OTA_SERVER_AUTH_TOKEN_MAX) (c_string (overlay text out))) (cached_token s)) s));;
            mret (OTA_SERVER_OK, Some (overlay text out))
  | _, _ => mret (OTA_SERVER_ERR_PARAM, token_out)
  end.

Definition ota_server_unregister_device (device_id : option (list Z)) : SM ota_server_result_t :=
  match device_id with
  | None => mret OTA_SERVER_ERR_PARAM
  | Some _ =>
      i ← gets initialized;
      if negb i then mret OTA_SERVER_ERR_SERVER
      else modify (set_cached_token (cached_token zero_server));; mret OTA_SERVER_OK
  end.
Definition ota_server_update_device_info (device : option ota_device_info_t) : SM ota_server_result_t :=
  mret (if device then OTA_SERVER_OK else OTA_SERVER_ERR_PARAM).

(** ** Releases *)

(** The loop that looks for the first entry with [p]. *)
Fixpoint find_first {A} (p : A -> bool) (l : list A) : option A :=
  match l with [] => None | x :: l => if p x then Some x else find_first p l end.
(** The loop that changes the first entry with [p] in place. *)
Fixpoint update_first {A} (p : A -> bool) (f : A -> A) (l : list A) : option (list A) :=
  match l with
  | [] => None
  | x :: l => if p x then Some (f x :: l) else cons x <$> update_first p f l
  end.

Definition newer (current_version : list Z) (channel : ota_channel_t) (r : ota_firmware_release_t) : bool :=
  (bool_decide (rel_channel r = channel) || bool_decide (channel = OTA_CHANNEL_STABLE)) && (0 <? strcmp (c_string (rel_version r)) current_version).

(** For a non-null [release]: what is copied there ([None]: nothing is written). *)
Definition ota_server_check_update (device_id current_version : option (list Z)) (channel : ota_channel_t) :
  SM (ota_server_result_t * option ota_firmware_release_t) :=
  match device_id, current_version with
  | Some _, Some v =>
      i ← gets initialized;
      if negb i then mret (OTA_SERVER_ERR_SERVER, None)
      else
        rs ← gets releases;
        mret (match find_first (newer v channel) rs with
              | Some r => (OTA_SERVER_OK, Some r)
              | None => (OTA_SERVER_ERR_NOT_FOUND, Some zero_release)
              end)
  | _, _ => mret (OTA_SERVER_ERR_PARAM, None)
  end.

Definition rolled_out_to (device_id : list Z) (r : ota_firmware_release_t) : bool := ota_server_hash device_id mod 100 <=? rollout_percentage r.
Definition ota_server_get_release (device_id : option (list Z)) : SM (ota_server_result_t * option ota_firmware_release_t) :=
  match device_id with
  | Some d =>
      rs ← gets releases;
      mret (match find_first (rolled_out_to d) rs with
            | Some r => (OTA_SERVER_OK, Some r)
            | None => (OTA_SERVER_ERR_NOT_FOUND, None)
            end)
  | None => mret (OTA_SERVER_ERR_PARAM, None)
  end.

(** [granted]: whether realloc succeeds; the two times are those of its two calls. *)
Definition ota_server_create_release (release : option ota_firmware_release_t) (granted : bool) (t1 t2 : Z) : SM ota_server_result_t :=
  match release with
  | None => mret OTA_SERVER_ERR_PARAM
  | Some r =>
      if negb granted then mret OTA_SERVER_ERR_STORAGE
      else modify (fun s => set_releases (releases s ++ [set_updated_at (u32 t2) (set_created_at (u32 t1) r)]) s);; mret OTA_SERVER_OK
  end.

Definition has_version (release_id : list Z) (r : ota_firmware_release_t) : bool := strcmp (c_string (rel_version r)) release_id =? 0.
Definition update_release (release_id : list Z) (f : ota_firmware_release_t -> ota_firmware_release_t) : SM ota_server_result_t :=
  rs ← gets releases;
  match update_first (has_version release_id) f rs with
  | Some rs => modify (set_releases rs);; mret OTA_SERVER_OK
  | None => mret OTA_SERVER_ERR_NOT_FOUND
  end.
(** [data] is not read; [has_data] is whether it is not null. *)
Definition ota_server_upload_firmware (release_id : option (list Z)) (has_data : bool) (len now : Z) : SM ota_server_result_t :=
  match release_id with
  | Some id => if negb has_data || (len =? 0) then mret OTA_SERVER_ERR_PARAM else update_release id (fun r => set_updated_at (u32 now) (set_rel_size (u32 len) r))
  | None => mret OTA_SERVER_ERR_PARAM
  end.
Definition ota_server_set_channel (release_id : option (list Z)) (channel : ota_channel_t) : SM ota_server_result_t :=
  match release_id with
  | Some id => update_release id (set_rel_channel channel)
  | None => mret OTA_SERVER_ERR_PARAM
  end.

(** ** Downloads *)

(** For a non-null [session]; "dl_%s_%lu". *)
Definition ota_server_begin_download (device_id : option (list Z)) (now : Z) : SM (ota_server_result_t * option ota_download_session_t) :=
  match device_id with
  | None => mret (OTA_SERVER_ERR_PARAM, None)
  | Some d =>
      token ← gets cached_token;
      let text := snprintf (Z.of_nat OTA_SERVER_SESSION_MAX) ([100; 108; 95] ++ d ++ [95] ++ dec now) in
      mret (OTA_SERVER_OK, Some (Session (overlay text (replicate OTA_SERVER_SESSION_MAX 0)) (replicate 256 0) (1024 * 1024) (replicate 32 0) true
        (strncpy (OTA_SERVER_AUTH_TOKEN_MAX - 1) (c_string token) (replicate OTA_SERVER_AUTH_TOKEN_MAX 0))))
  end.
Definition ota_server_resume_download (session_id : option (list Z)) (offset : Z) (session : ota_download_session_t) :
  SM (ota_server_result_t * ota_download_session_t) :=
  mret (match session_id with
        | None => (OTA_SERVER_ERR_PARAM, session)
        | Some id => (OTA_SERVER_OK, Session (strncpy (OTA_SERVER_SESSION_MAX - 1) id (s_session_id session)) (s_url session)
            (u64 (offset + 1024 * 1024)) (checksum_sha256 session) true (auth_header session))
        end).
Definition ota_server_cancel_download (session_id : option (list Z)) : SM ota_server_result_t :=
  mret (if session_id then OTA_SERVER_OK else OTA_SERVER_ERR_PARAM).
(** The loop over the bytes of a chunk, into [buffer] from index [i]. *)
Fixpoint fill_chunk (n : nat) (i offset : Z) (buffer : list Z) : SM (list Z) :=
  match n with
  | O => mret buffer
  | S n => _ ← of_option (buffer !! Z.to_nat i); fill_chunk n (i + 1) offset (<[Z.to_nat i := Z.land (offset + i) 255]> buffer)
  end.
(** The result, the buffer after the call and what is stored in [*received]. *)
Definition ota_server_download_chunk (session_id : option (list Z)) (offset size : Z) (buffer : option (list Z)) :
  SM (ota_server_result_t * option (list Z) * option Z) :=
  match session_id, buffer with
  | Some _, Some buf =>
      let remaining := if OTA_SERVER_RANGE_SIZE <? size then OTA_SERVER_RANGE_SIZE else size in
      buf ← fill_chunk (Z.to_nat remaining) 0 offset buf;
      mret (OTA_SERVER_OK, Some buf, Some remaining)
  | _, _ => mret (OTA_SERVER_ERR_PARAM, buffer, None)
  end.
Definition ota_server_report_update_status (device_id version : option (list Z)) (success : bool) : SM ota_server_result_t :=
  mret (match device_id, version with Some _, Some _ => OTA_SERVER_OK | _, _ => OTA_SERVER_ERR_PARAM end).

(** ** Rollouts *)

Definition ota_server_create_rollout_plan (plan : option ota_rollout_plan_t) (granted : bool) (now : Z) : SM ota_server_result_t :=
  match plan with
  | None => mret OTA_SERVER_ERR_PARAM
  | Some p =>
      if negb granted then mret OTA_SERVER_ERR_STORAGE
      else
        modify (fun s => set_rollouts (rollouts s ++ [set_current_percentage (rollout_step p) (set_started_at (u32 now) (set_plan_state OTA_ROLLOUT_ACTIVE p))]) s);;
        mret OTA_SERVER_OK
  end.

Definition of_product (plan_id : list Z) (p : ota_rollout_plan_t) : bool := strcmp (c_string (plan_product p)) plan_id =? 0.
Definition update_plan (plan_id : option (list Z)) (f : ota_rollout_plan_t -> ota_rollout_plan_t) : SM ota_server_result_t :=
  match plan_id with
  | None => mret OTA_SERVER_ERR_PARAM
  | Some id =>
      ps ← gets rollouts;
      match update_first (of_product id) f ps with
      | Some ps => modify (set_rollouts ps);; mret OTA_SERVER_OK
      | None => mret OTA_SERVER_ERR_NOT_FOUND
      end
  end.

Definition advance (p : ota_rollout_plan_t) : ota_rollout_plan_t :=
  let next := u8 (current_percentage p + rollout_step p) in
  if 100 <=? next then set_plan_state OTA_ROLLOUT_COMPLETED (set_current_percentage 100 p) else set_current_percentage next p.
Definition ota_server_advance_rollout (plan_id : option (list Z)) : SM ota_server_result_t := update_plan plan_id advance.
Definition ota_server_pause_rollout (plan_id : option (list Z)) : SM ota_server_result_t := update_plan plan_id (set_plan_state OTA_ROLLOUT_PAUSED).
Definition ota_server_rollback_rollout (plan_id : option (list Z)) : SM ota_server_result_t :=
  update_plan plan_id (fun p => set_current_percentage 0 (set_plan_state OTA_ROLLOUT_ROLLEDBACK p)).

Definition ota_server_get_device_group (name : option (list Z)) : SM (ota_server_result_t * option ota_device_group_t) :=
  match name with
  | None => mret (OTA_SERVER_ERR_PARAM, None)
  | Some n =>
      gs ← gets groups;
      mret (match find_first (fun g => strcmp (c_string (group_name g)) n =? 0) gs with
            | Some g => (OTA_SERVER_OK, Some g)
            | None => (OTA_SERVER_ERR_NOT_FOUND, None)
            end)
  end.

Definition ota_server_result_str (r : ota_server_result_t) : string :=
  match r with
  | OTA_SERVER_OK => "OK" | OTA_SERVER_ERR_PARAM => "Invalid parameter" | OTA_SERVER_ERR_AUTH => "Authentication error"
  | OTA_SERVER_ERR_NETWORK => "Network error" | OTA_SERVER_ERR_NOT_FOUND => "Not found" | OTA_SERVER_ERR_SERVER => "Server error"
  | OTA_SERVER_ERR_STORAGE => "Storage error" | OTA_SERVER_ERR_VERSION => "Version error" | OTA_SERVER_ERR_ROLLOUT => "Rollout error"
  | OTA_SERVER_ERR_BUSY => "Server busy" | OTA_SERVER_ERR_BAD_REQUEST => "Bad request"
  end.

(** ** Loops over the arrays *)

Lemma find_first_spec {A} (p : A -> bool) l :
  match find_first p l with
  | Some x => exists l1 l2, l = l1 ++ x :: l2 /\ Forall (fun y => p y = false) l1 /\ p x = true
  | None => Forall (fun y => p y = false) l
  end.
Proof.
  induction l as [|x l IH]; [apply Forall_nil_2|]. cbn [find_first]. destruct (p x) eqn:E; [exists [], l; split; [done|split; [apply Forall_nil_2|done]]|]. destruct (find_first p l) as [y|].
  - destruct IH as (l1 & l2 & -> & H1 & H2). exists (x :: l1), l2. split; [done|]. split; [by apply Forall_cons|done].
  - by apply Forall_cons.
Qed.
Lemma update_first_app {A} (p : A -> bool) f l1 x l2 : Forall (fun y => p y = false) l1 -> p x = true -> update_first p f (l1 ++ x :: l2) = Some (l1 ++ f x :: l2).
Proof. intros H Hx. induction H as [|y l1 Hy _ IH]; cbn [app update_first]; [by rewrite Hx|]. by rewrite Hy, IH. Qed.

(** ** Order of strings *)

Lemma strcmp_refl a : strcmp a a = 0.
Proof. induction a as [|x a IH]; [done|]. cbn. by rewrite Z.eqb_refl. Qed.
Lemma strcmp_antisym a b : strcmp b a = - strcmp a b.
Proof.
  revert b. induction a as [|x a IH]; intros [|y b]; try done. cbn. rewrite (Z.eqb_sym y x). destruct (Z.eqb_spec x y); [apply IH|].
  destruct (Z.ltb_spec x y), (Z.ltb_spec y x); done || lia.
Qed.
Lemma strcmp_eq a b : strcmp a b = 0 -> a = b.
Proof.
  revert b. induction a as [|x a IH]; intros [|y b]; try done. cbn. destruct (Z.eqb_spec x y) as [->|]; [intros H; f_equal; by apply IH|].
  by destruct (x <? y).
Qed.
Lemma strcmp_trans a b c : 0 < strcmp a b -> 0 < strcmp b c -> 0 < strcmp a c.
Proof.
  revert b c. induction a as [|x a IH]; intros [|y b] [|z c]; cbn; try done; try lia.
  destruct (Z.eqb_spec x y) as [->|].
  - destruct (Z.eqb_spec y z); [apply IH|]. destruct (Z.ltb_spec y z); lia.
  - destruct (Z.ltb_spec x y); [lia|]. intros _. destruct (Z.eqb_spec y z) as [->|].
    + intros _. rewrite (proj2 (Z.eqb_neq x z)), (proj2 (Z.ltb_ge x z)) by lia. lia.
    + destruct (Z.ltb_spec y z); [lia|]. intros _. rewrite (proj2 (Z.eqb_neq x z)), (proj2 (Z.ltb_ge x z)) by lia. lia.
Qed.

(** ** Rollouts *)

Fixpoint advances (id : list Z) (n : nat) : SM ota_server_result_t :=
  match n with O => mret OTA_SERVER_OK | S n => _ ← ota_server_advance_rollout (Some id); advances id n end.

Lemma update_plan_app id f s l1 p l2 :
  rollouts s = l1 ++ p :: l2 -> Forall (fun q => of_product id q = false) l1 -> of_product id p = true ->
  update_plan (Some id) f s = Done (OTA_SERVER_OK, set_rollouts (l1 ++ f p :: l2) s).
Proof. intros Hs H1 H2. unfold update_plan. rewrite bind_gets, Hs, update_first_app by done. done. Qed.

Lemma advance_product id p : of_product id (advance p) = of_product id p.
Proof. unfold advance. by destruct (100 <=? _). Qed.

Lemma advances_app id n s l1 p l2 :
  rollouts s = l1 ++ p :: l2 -> Forall (fun q => of_product id q = false) l1 -> of_product id p = true ->
  exists s', advances id n s = Done (OTA_SERVER_OK, s') /\ rollouts s' = l1 ++ Nat.iter n advance p :: l2.
Proof.
  revert s p. induction n as [|n IH]; intros s p Hs H1 H2; cbn [advances].
  - by exists s.
  - unfold ota_server_advance_rollout. rewrite (bind_step _ _ _ _ _ (update_plan_app _ advance _ _ _ _ Hs H1 H2)).
    destruct (IH (set_rollouts (l1 ++ advance p :: l2) s) (advance p)) as (s' & E & Hr); [done|done|by rewrite advance_product|].
    exists s'. split; [exact E|]. rewrite Hr. do 2 f_equal. rewrite Nat.iter_succ_r. done.
Qed.

Lemma advance_steps n p :
  0 < rollout_step p <= 100 -> current_percentage p = rollout_step p ->
  let q := Nat.iter n advance p in
  rollout_step q = rollout_step p /\
  (n = O /\ q = p \/ (0 < n)%nat /\ current_percentage q = Z.min 100 ((Z.of_nat n + 1) * rollout_step p) /\
     plan_state q = if 100 <=? (Z.of_nat n + 1) * rollout_step p then OTA_ROLLOUT_COMPLETED else plan_state p).
Proof.
  intros Hs Hc. induction n as [|n IH]; [split; [done|by left]|]. cbn zeta in *. rewrite Nat.iter_succ. set (q := Nat.iter n advance p) in *.
  destruct IH as [Hst IH]. unfold advance. rewrite Hst.
  assert (current_percentage q = Z.min 100 ((Z.of_nat n + 1) * rollout_step p) /\
    (plan_state q = plan_state p \/ 100 <= (Z.of_nat n + 1) * rollout_step p /\ plan_state q = OTA_ROLLOUT_COMPLETED)) as [Eq Hq].
  { destruct IH as [[-> Ep]|(Hn & Ec & Ep)]; [rewrite Ep; split; [lia|by left]|]. split; [exact Ec|].
    destruct (Z.leb_spec 100 ((Z.of_nat n + 1) * rollout_step p)); [by right|by left]. }
  rewrite u8_small by lia. set (a := Z.of_nat n + 1) in *. set (r := rollout_step p) in *.
  replace (Z.of_nat (S n) + 1) with (a + 1) by lia. destruct (Z.leb_spec 100 (current_percentage q + r)) as [Hle|Hlt].
  - split; [done|]. right. split; [lia|]. cbn. assert (100 <= (a + 1) * r) by nia. rewrite (proj2 (Z.leb_le _ _)) by done. split; [lia|done].
  - split; [done|]. right. split; [lia|]. cbn. assert ((a + 1) * r < 100) by nia. rewrite (proj2 (Z.leb_gt _ _)) by done. split; [nia|].
    destruct Hq as [->|[Hq _]]; [done|nia].
Qed.

(** ** Chunks *)

Lemma fill_chunk_ok n i offset buf s :
  0 <= i -> i + Z.of_nat n <= Z.of_nat (length buf) ->
  fill_chunk n i offset buf s =
    Done (take (Z.to_nat i) buf ++ ((fun k => Z.land (offset + i + Z.of_nat k) 255) <$> seq 0 n) ++ drop (Z.to_nat i + n) buf, s).
Proof.
  revert i buf. induction n as [|n IH]; intros i buf Hi Hl; cbn [fill_chunk].
  - cbn. by rewrite Nat.add_0_r, take_drop.
  - destruct (lookup_lt_is_Some_2 buf (Z.to_nat i)) as [x Hx]; [lia|]. rewrite Hx. cbn [of_option]. rewrite bind_ret.
    rewrite IH by (rewrite ?length_insert; lia). do 2 f_equal. replace (Z.to_nat (i + 1)) with (S (Z.to_nat i)) by lia.
    rewrite (take_S_r _ _ (Z.land (offset + i) 255)) by (apply list_lookup_insert_eq; lia).
    rewrite take_insert_ge by lia. rewrite <- app_assoc. cbn [app seq fmap list_fmap]. rewrite Z.add_0_r. f_equal. f_equal.
    rewrite drop_insert_lt by lia. replace (S (Z.to_nat i) + n)%nat with (Z.to_nat i + S n)%nat by lia. f_equal.
    rewrite <- fmap_S_seq, <- list_fmap_compose. apply list_fmap_ext. intros ? k _. cbn [compose]. f_equal. lia.
Qed.

(** ** What the server does *)

(** A rollout of honest steps ends: a plan created with a step of 1 to 100 stands, after any number of advances, at the product of the step and
    one more than their number, at most 100, and is completed exactly when that reaches 100. *)
Theorem rollout_completes p now id n s :
  0 < rollout_step p <= 100 -> of_product id p = true -> Forall (fun q => of_product id q = false) (rollouts s) -> (0 < n)%nat ->
  exists s' q, (ota_server_create_rollout_plan (Some p) true now;; advances id n) s = Done (OTA_SERVER_OK, s') /\
    rollouts s' = rollouts s ++ [q] /\ plan_product q = plan_product p /\
    current_percentage q = Z.min 100 ((Z.of_nat n + 1) * rollout_step p) /\
    plan_state q = (if 100 <=? (Z.of_nat n + 1) * rollout_step p then OTA_ROLLOUT_COMPLETED else OTA_ROLLOUT_ACTIVE).
Proof.
  intros Hs Hp Hl Hn. unfold ota_server_create_rollout_plan. cbn [negb]. rewrite bind_assoc, bind_modify, bind_ret.
  set (p1 := set_current_percentage _ _). set (s1 := set_rollouts _ s).
  destruct (advances_app id n s1 (rollouts s) p1 []) as (s' & E & Hr); [done|done|done|].
  destruct (advance_steps n p1 Hs eq_refl) as [_ [[-> _]|(_ & Hc & Hst)]]; [lia|]. exists s', (Nat.iter n advance p1). split; [exact E|]. split; [exact Hr|].
  split; [|split; [exact Hc|exact Hst]]. clear. induction n as [|n IH]; [done|]. rewrite Nat.iter_succ. unfold advance at 1. destruct (100 <=? _); exact IH.
Qed.

(** Advancing looks at nothing but the sum of two bytes: a plan whose step is 128 to 177 per cent falls back below 100 on its first advance
    and stays active, and a plan that was paused or rolled back advances like any other. *)
Theorem rollout_unguarded id p l1 l2 s :
  rollouts s = l1 ++ p :: l2 -> Forall (fun q => of_product id q = false) l1 -> of_product id p = true -> is_u8 (rollout_step p) ->
  (128 <= rollout_step p < 178 -> current_percentage p = rollout_step p -> plan_state p = OTA_ROLLOUT_ACTIVE ->
     exists s' q, ota_server_advance_rollout (Some id) s = Done (OTA_SERVER_OK, s') /\ rollouts s' = l1 ++ q :: l2 /\
       current_percentage q = 2 * rollout_step p - 256 /\ current_percentage q < 100 /\ plan_state q = OTA_ROLLOUT_ACTIVE) /\
  (0 < rollout_step p < 100 ->
     exists s' q, (ota_server_rollback_rollout (Some id);; ota_server_advance_rollout (Some id)) s = Done (OTA_SERVER_OK, s') /\ rollouts s' = l1 ++ q :: l2 /\
       current_percentage q = rollout_step p /\ plan_state q = OTA_ROLLOUT_ROLLEDBACK).
Proof.
  intros Hs Hl Hp Hu. split.
  - intros Hst Hc Ha. unfold ota_server_advance_rollout. rewrite (update_plan_app _ _ _ _ _ _ Hs Hl Hp). do 2 eexists. split; [reflexivity|]. split; [done|].
    unfold advance. rewrite Hc. assert (u8 (rollout_step p + rollout_step p) = 2 * rollout_step p - 256) as -> by (symmetry; apply (Z.mod_unique _ _ 1); lia).
    rewrite (proj2 (Z.leb_gt _ _)) by lia. cbn. split; [done|]. split; [lia|done].
  - intros Hst. unfold ota_server_rollback_rollout, ota_server_advance_rollout. rewrite (bind_step _ _ _ _ _ (update_plan_app _ _ _ _ _ _ Hs Hl Hp)).
    set (p1 := set_current_percentage 0 _). rewrite (update_plan_app _ _ _ l1 p1 l2) by done. do 2 eexists. split; [reflexivity|]. split; [done|].
    unfold advance. change (current_percentage p1 + rollout_step p1) with (rollout_step p). unfold is_u8 in Hu. rewrite u8_small by lia.
    rewrite (proj2 (Z.leb_gt _ _)) by lia. done.
Qed.

(** An update is the first release in the order of creation that is of the asked channel, or of any channel when stable is asked for, with a
    version after the current one in the order of strings, which puts "10" before "9"; otherwise none is found and the
    caller's record is cleared. *)
Theorem check_update_correct :
  (forall d v channel s, initialized s = true ->
     (exists r l1 l2, releases s = l1 ++ r :: l2 /\ newer v channel r = true /\ Forall (fun q => newer v channel q = false) l1 /\
        ota_server_check_update (Some d) (Some v) channel s = Done ((OTA_SERVER_OK, Some r), s)) \/
     (Forall (fun q => newer v channel q = false) (releases s) /\
        ota_server_check_update (Some d) (Some v) channel s = Done ((OTA_SERVER_ERR_NOT_FOUND, Some zero_release), s))) /\
  (forall v channel r, newer v channel r = true <-> (rel_channel r = channel \/ channel = OTA_CHANNEL_STABLE) /\ 0 < strcmp (c_string (rel_version r)) v) /\
  (forall a b, (strcmp a b = 0 <-> a = b) /\ strcmp b a = - strcmp a b) /\ (forall a b c, 0 < strcmp a b -> 0 < strcmp b c -> 0 < strcmp a c) /\
  strcmp [49; 48] [57] < 0.
Proof.
  split; [|split; [|split; [|split; [exact strcmp_trans|done]]]].
  - intros d v channel s Hi.
    assert (ota_server_check_update (Some d) (Some v) channel s = Done (match find_first (newer v channel) (releases s) with
      | Some r => (OTA_SERVER_OK, Some r) | None => (OTA_SERVER_ERR_NOT_FOUND, Some zero_release) end, s)) as E
      by (unfold ota_server_check_update; by rewrite bind_gets, Hi).
    pose proof (find_first_spec (newer v channel) (releases s)) as H.
    destruct (find_first (newer v channel) (releases s)) as [r|]; [left|by right]. destruct H as (l1 & l2 & H1 & H2 & H3). by exists r, l1, l2.
  - intros v channel r. unfold newer. rewrite andb_true_iff, orb_true_iff, !bool_decide_eq_true, Z.ltb_lt. done.
  - intros a b. split; [split; [apply strcmp_eq|intros ->; apply strcmp_refl]|apply strcmp_antisym].
Qed.

(** A percentage is one device in a hundred too generous: a device is given the first release whose percentage is at least its hash modulo 100,
    so of the hundred residues a percentage serves one more than its number, and a percentage of zero is not empty. *)
Theorem rollout_share :
  (forall d s, releases s <> [] -> exists o, ota_server_get_release (Some d) s = Done (o, s) /\
     (o.1 = OTA_SERVER_OK <-> exists r, r ∈ releases s /\ ota_server_hash d mod 100 <= rollout_percentage r)) /\
  (forall pct, 0 <= pct <= 100 -> Z.of_nat (length (filter (fun h => h <= pct) (seqZ 0 100))) = Z.min 100 (pct + 1)).
Proof.
  split.
  - intros d s _. unfold ota_server_get_release. rewrite bind_gets. pose proof (find_first_spec (rolled_out_to d) (releases s)) as H.
    destruct (find_first (rolled_out_to d) (releases s)) as [r|]; eexists; (split; [reflexivity|]); cbn [fst].
    + split; [intros _|done]. destruct H as (l1 & l2 & -> & _ & Hr). exists r. split; [apply elem_of_app; right; left|]. by apply Z.leb_le.
    + split; [done|]. intros (r & Hr & Hle). rewrite Forall_forall in H. specialize (H r Hr). unfold rolled_out_to in H. apply Z.leb_gt in H. lia.
  - intros pct Hp. assert (forallb (fun pct => Z.of_nat (length (filter (fun h => h <= pct) (seqZ 0 100))) =? Z.min 100 (pct + 1)) (seqZ 0 101) = true) as H
      by (vm_compute; reflexivity).
    pose proof (forallb_seqZ _ _ _ H pct ltac:(lia)) as He. cbv beta in He. by apply Z.eqb_eq.
Qed.

(** A chunk is the bytes at its offset: the first [size] bytes of the buffer, at most two megabytes, are the low bytes of their positions and
    the rest is untouched. *)
Theorem download_chunk_correct id offset size buf s :
  let n := Z.min size OTA_SERVER_RANGE_SIZE in
  0 <= size -> n <= Z.of_nat (length buf) ->
  exists out, ota_server_download_chunk (Some id) offset size (Some buf) s = Done ((OTA_SERVER_OK, Some out, Some n), s) /\
    length out = length buf /\ (forall i, 0 <= i < n -> out !! Z.to_nat i = Some ((offset + i) mod 256)) /\ drop (Z.to_nat n) out = drop (Z.to_nat n) buf.
Proof.
  intros n Hs Hl. unfold ota_server_download_chunk. assert ((if OTA_SERVER_RANGE_SIZE <? size then OTA_SERVER_RANGE_SIZE else size) = n) as ->.
  { unfold n, OTA_SERVER_RANGE_SIZE. destruct (Z.ltb_spec (2 * 1024 * 1024) size); lia. }
  assert (0 <= n) by (unfold n, OTA_SERVER_RANGE_SIZE; lia).
  rewrite (bind_step _ _ _ _ _ (fill_chunk_ok (Z.to_nat n) 0 offset buf s ltac:(lia) ltac:(lia))). eexists. split; [reflexivity|].
  cbn [take app Z.to_nat Nat.add]. change (take (Z.to_nat 0) buf) with (@nil Z). cbn [app]. change (Z.to_nat 0 + Z.to_nat n)%nat with (Z.to_nat n).
  set (pat := _ <$> seq 0 _). assert (length pat = Z.to_nat n) as Hp by (unfold pat; by rewrite length_fmap, length_seq).
  split; [rewrite length_app, length_drop; lia|]. split; [|by rewrite <- Hp, drop_app_length].
  intros i Hi. rewrite lookup_app_l by lia. unfold pat. rewrite list_lookup_fmap, lookup_seq_lt by lia. cbn. f_equal.
  change 255 with (Z.ones 8). rewrite Z.land_ones by lia. change (2 ^ 8) with 256. f_equal. lia.
Qed.

(** ** Concrete runs *)

Definition demo_plan (step : Z) : ota_rollout_plan_t := Plan [97; 0] step 100 24 95 OTA_ROLLOUT_ACTIVE 0 step.
Lemma rollout_completes_witness :
  exists s' q, (ota_server_create_rollout_plan (Some (demo_plan 30)) true 5;; advances [97] 3) zero_server = Done (OTA_SERVER_OK, s') /\
    rollouts s' = [q] /\ current_percentage q = 100 /\ plan_state q = OTA_ROLLOUT_COMPLETED.
Proof.
  destruct (rollout_completes (demo_plan 30) 5 [97] 3 zero_server) as (s' & q & E & Hr & _ & Hc & Hst);
    [split; reflexivity || discriminate|reflexivity|apply Forall_nil_2|lia|]. exists s', q. split; [exact E|]. split; [exact Hr|]. split; [exact Hc|exact Hst].
Defined.
Lemma rollout_unguarded_witness :
  exists s' q, ota_server_advance_rollout (Some [97]) (set_rollouts [demo_plan 160] zero_server) = Done (OTA_SERVER_OK, s') /\
    rollouts s' = [q] /\ current_percentage q = 64.
Proof.
  destruct (rollout_unguarded [97] (demo_plan 160) [] [] (set_rollouts [demo_plan 160] zero_server)) as [H _];
    [reflexivity|apply Forall_nil_2|reflexivity|split; [discriminate|reflexivity]|].
  destruct H as (s' & q & E & Hr & Hc & _); [split; [discriminate|reflexivity]|reflexivity|reflexivity|]. exists s', q. split; [exact E|]. split; [exact Hr|exact Hc].
Defined.
Lemma check_update_correct_witness :
  ota_server_check_update (Some [97]) (Some [57]) OTA_CHANNEL_DEV (Server 1 0 0 0 0 true [] [] [] []) =
    Done ((OTA_SERVER_ERR_NOT_FOUND, Some zero_release), Server 1 0 0 0 0 true [] [] [] []).
Proof.
  destruct (proj1 check_update_correct [97] [57] OTA_CHANNEL_DEV (Server 1 0 0 0 0 true [] [] [] []) eq_refl) as [(r & l1 & l2 & H & _)|[_ H]];
    [destruct l1; discriminate H|exact H].
Defined.
Lemma rollout_share_witness : Z.of_nat (length (filter (fun h => h <= 0) (seqZ 0 100))) = 1.
Proof. apply (proj2 rollout_share 0). lia. Defined.
Lemma download_chunk_correct_witness :
  exists out, ota_server_download_chunk (Some [97]) 255 2 (Some [9; 9; 9]) zero_server = Done ((OTA_SERVER_OK, Some out, Some 2), zero_server) /\ out !! 1%nat = Some 0.
Proof.
  destruct (download_chunk_correct [97] 255 2 [9; 9; 9] zero_server) as (out & E & _ & H & _); [discriminate|discriminate|]. exists out. split; [exact E|].
  apply (H 1). split; [discriminate|reflexivity].
Defined.
