(* ===== verification/ByteMem.v ===== *)
(** * Bytes in memory

    What the sources of mini-edge-security share: elements of C arrays, conversions to [int], the bytes that loops and [memcpy] read, and windows of a byte array. *)
From S2P Require Import Prelude.

(** An element of a C array, at an index known to be in range. *)
Definition at_ (l : list Z) (i : Z) : Z := l !!! Z.to_nat i.
(** The value of a uint32_t converted to int. *)
Definition int_of (x : Z) : Z := u32 (x + 2147483648) - 2147483648.
(** The bytes that a loop over [0 <= i < len] reads. *)
Definition loop_bytes {S} (l : list Z) (len : Z) : M S (list Z) :=
  if len <=? 0 then mret [] else if Z.of_nat (length l) <? len then undefined else mret (take (Z.to_nat len) l).
(** The bytes that [memcpy] reads: its length is unsigned. *)
Definition memcpy_bytes {S} (l : list Z) (len : Z) : M S (list Z) := if len <? 0 then undefined else loop_bytes l len.
(** The object behind [buf], its first bytes overwritten. *)
Definition fill {S} (bs buf : list Z) : M S (list Z) := if (length buf <? length bs)%nat then undefined else mret (overlay bs buf).
(** [l[i % n]] for a non-negative [i]. *)
Definition at_rem {S} (l : list Z) (i n : Z) : M S Z := if n =? 0 then undefined else of_option (l !! Z.to_nat (Z.rem i n)).
(** A loop that computes [n] bytes from index [i] on. *)
Fixpoint fill_loop {S} (n : nat) (i : Z) (f : Z -> M S Z) : M S (list Z) :=
  match n with O => mret [] | Datatypes.S n => x ← f i; xs ← fill_loop n (i + 1) f; mret (x :: xs) end.
Definition splice (off : nat) (bs l : list Z) : list Z := take off l ++ bs ++ drop (off + length bs) l.

(** ** Windows *)

Definition window {A} (off n : nat) (l : list A) : list A := take n (drop off l).

Lemma length_splice off bs l : (off + length bs <= length l)%nat -> length (splice off bs l) = length l.
Proof. intros H. unfold splice. rewrite !length_app, length_take, length_drop. lia. Qed.

Lemma lookup_splice off bs l i :
  (off + length bs <= length l)%nat ->
  splice off bs l !! i = if decide (off <= i < off + length bs)%nat then bs !! (i - off)%nat else l !! i.
Proof.
  intros H. unfold splice. destruct (decide _) as [Hi|Hi].
  - rewrite lookup_app_r; rewrite length_take; [|lia]. rewrite lookup_app_l by lia. f_equal. lia.
  - destruct (decide (i < off)%nat).
    + rewrite lookup_app_l by (rewrite length_take; lia). by apply lookup_take_lt.
    + rewrite lookup_app_r by (rewrite length_take; lia). rewrite lookup_app_r by (rewrite length_take; lia).
      rewrite lookup_drop, length_take. f_equal. lia.
Qed.

Lemma Forall_splice (P : Z -> Prop) off bs l : Forall P bs -> Forall P l -> Forall P (splice off bs l).
Proof. intros. unfold splice. apply Forall_app. split; [by apply Forall_take|]. apply Forall_app. split; [done|by apply Forall_drop]. Qed.

Lemma lookup_window {A} off n (l : list A) i : window off n l !! i = if decide (i < n)%nat then l !! (off + i)%nat else None.
Proof.
  unfold window. destruct (decide _); [rewrite lookup_take_lt, lookup_drop by lia; done|]. by rewrite lookup_take_ge by lia.
Qed.
Lemma length_window {A} off n (l : list A) : (off + n <= length l)%nat -> length (window off n l) = n.
Proof. intros. unfold window. rewrite length_take, length_drop. lia. Qed.
Lemma Forall_window {A} (P : A -> Prop) off n l : Forall P l -> Forall P (window off n l).
Proof. intros. by apply Forall_take, Forall_drop. Qed.

Lemma window_splice_in off bs l o n :
  (off + length bs <= length l)%nat -> (off <= o)%nat -> (o + n <= off + length bs)%nat ->
  window o n (splice off bs l) = window (o - off) n bs.
Proof.
  intros H H1 H2. apply list_eq. intros i. rewrite !lookup_window. destruct (decide _); [|done].
  rewrite lookup_splice by done. rewrite decide_True by lia. f_equal. lia.
Qed.
Lemma window_splice_out off bs l o n :
  (off + length bs <= length l)%nat -> (o + n <= off \/ off + length bs <= o)%nat -> window o n (splice off bs l) = window o n l.
Proof.
  intros H H1. apply list_eq. intros i. rewrite !lookup_window. destruct (decide _); [|done].
  rewrite lookup_splice by done. rewrite decide_False by lia. done.
Qed.
Lemma window_all {A} (l : list A) : window 0 (length l) l = l.
Proof. unfold window. by rewrite drop_0, take_ge by lia. Qed.

(** ** Reads that stay in bounds *)

Lemma loop_bytes_ok {S} l len (s : S) : 0 <= len <= Z.of_nat (length l) -> loop_bytes l len s = Done (take (Z.to_nat len) l, s).
Proof.
  intros H. unfold loop_bytes. destruct (Z.leb_spec len 0); [by replace len with 0 by lia|].
  destruct (Z.ltb_spec (Z.of_nat (length l)) len); [lia|done].
Qed.
Lemma memcpy_bytes_ok {S} l len (s : S) : 0 <= len <= Z.of_nat (length l) -> memcpy_bytes l len s = Done (take (Z.to_nat len) l, s).
Proof. intros H. unfold memcpy_bytes. destruct (Z.ltb_spec len 0); [lia|]. by apply loop_bytes_ok. Qed.

Lemma fill_ok {S} bs buf (s : S) : (length bs <= length buf)%nat -> fill bs buf s = Done (overlay bs buf, s).
Proof. intros H. unfold fill. by destruct (Nat.ltb_spec (length buf) (length bs)); [lia|]. Qed.

(** ** Elements *)

Lemma bytes_u8_map (n : nat) (f : Z -> Z) : bytes_of_length n ((fun i => u8 (f i)) <$> seqZ 0 (Z.of_nat n)).
Proof.
  split; [rewrite length_fmap, length_seqZ; lia|]. apply Forall_fmap, Forall_true. intros x. apply u8_range.
Qed.

Lemma at_seq (f : Z -> Z) n j : 0 <= j < n -> at_ (f <$> seqZ 0 n) j = f j.
Proof.
  intros Hj. unfold at_. apply list_lookup_total_correct. rewrite list_lookup_fmap, lookup_seqZ_lt by lia. cbn [fmap option_fmap option_map]. do 2 f_equal. lia.
Qed.
Lemma at_u8 n l i : bytes_of_length n l -> 0 <= i < Z.of_nat n -> is_u8 (at_ l i).
Proof.
  intros [Hl Hf] Hi. unfold at_. destruct (lookup_lt_is_Some_2 l (Z.to_nat i)) as [b Hb]; [lia|]. rewrite (list_lookup_total_correct _ _ _ Hb).
  rewrite Forall_lookup in Hf. eauto.
Qed.
Lemma list_at_eq n l l' : length l = n -> length l' = n -> (forall i, 0 <= i < Z.of_nat n -> at_ l i = at_ l' i) -> l = l'.
Proof.
  intros H H' Hat. apply list_eq_same_length with n; [done|done|]. intros i x y Hi Hx Hy. specialize (Hat (Z.of_nat i) ltac:(lia)). unfold at_ in Hat.
  rewrite Nat2Z.id, (list_lookup_total_correct _ _ _ Hx), (list_lookup_total_correct _ _ _ Hy) in Hat. done.
Qed.

Lemma lxor_u8 a b : is_u8 a -> is_u8 b -> is_u8 (Z.lxor a b).
Proof. unfold is_u8. intros. apply (lxor_bound 8); lia. Qed.

Lemma overlay_bytes n p buf : (length p <= n)%nat -> Forall is_u8 p -> bytes_of_length n buf -> bytes_of_length n (overlay p buf).
Proof. intros Hl Hp [Hb Hf]. unfold overlay. split; [rewrite length_app, length_drop; lia|]. apply Forall_app. split; [done|by apply Forall_drop]. Qed.

Lemma at_app (a b : list Z) i : 0 <= i -> at_ (a ++ b) i = if i <? Z.of_nat (length a) then at_ a i else at_ b (i - Z.of_nat (length a)).
Proof.
  intros Hi. unfold at_. destruct (Z.ltb_spec i (Z.of_nat (length a))); [by rewrite lookup_total_app_l by lia|]. rewrite lookup_total_app_r by lia. f_equal. lia.
Qed.
Lemma at_take n l i : 0 <= i < n -> at_ (take (Z.to_nat n) l) i = at_ l i.
Proof. intros Hi. unfold at_. by rewrite !list_lookup_total_alt, lookup_take_lt by lia. Qed.
Lemma lxor_cancel_iff a b c : Z.lxor a b = Z.lxor a c <-> b = c.
Proof. split; [|by intros ->]. intros H. apply (f_equal (Z.lxor a)) in H. by rewrite <- !Z.lxor_assoc, !Z.lxor_nilpotent, !Z.lxor_0_l in H. Qed.
Lemma under_hyp (A B C : Prop) : (A -> (B <-> C)) -> ((A -> B) <-> (A -> C)).
Proof. tauto. Qed.

(** ** Loops *)

Lemma at_rem_ok {S} l i n (s : S) : 0 < n <= Z.of_nat (length l) -> 0 <= i -> at_rem l i n s = Done (at_ l (i mod n), s).
Proof.
  intros Hn Hi. unfold at_rem. destruct (Z.eqb_spec n 0); [lia|]. rewrite Z.rem_mod_nonneg by lia. pose proof (Z.mod_pos_bound i n ltac:(lia)).
  unfold at_. by rewrite (list_lookup_lookup_total_lt l (Z.to_nat (i mod n))) by lia.
Qed.

Lemma fill_loop_ok {S} n i (f : Z -> M S Z) (g : Z -> Z) (s : S) :
  (forall j, i <= j < i + Z.of_nat n -> f j s = Done (g j, s)) -> fill_loop n i f s = Done (g <$> seqZ i (Z.of_nat n), s).
Proof.
  revert i. induction n as [|n IH]; intros i H; [done|]. cbn [fill_loop]. rewrite (bind_step _ _ _ _ _ (H i ltac:(lia))).
  erewrite bind_step by (apply IH; intros j Hj; apply H; lia). rewrite Nat2Z.inj_succ, (seqZ_cons i) by lia. cbn [fmap list_fmap]. unfold mret, M_ret.
  by rewrite Z.pred_succ, Z.add_1_r.
Qed.

(** ** Fields *)

Lemma split_fields_prefix ls bs bs' : take (sum_list ls) bs = take (sum_list ls) bs' -> split_fields ls bs = split_fields ls bs'.
Proof.
  revert bs bs'. induction ls as [|n ls IH]; intros bs bs' H; cbn in *; [done|]. f_equal.
  - apply (f_equal (take n)) in H. by rewrite !take_take, !Nat.min_l in H by lia.
  - apply IH. apply (f_equal (drop n)) in H. by rewrite <- !take_drop_commute in H.
Qed.
Lemma length_split_fields ls bs : length (split_fields ls bs) = length ls.
Proof. revert bs. induction ls as [|n ls IH]; intros bs; cbn; [done|]. by rewrite IH. Qed.
Lemma split_fields_app ls ls' bs : split_fields (ls ++ ls') bs = split_fields ls bs ++ split_fields ls' (drop (sum_list ls) bs).
Proof. revert bs. induction ls as [|n ls IH]; intros bs; cbn; [by rewrite drop_0|]. by rewrite IH, drop_drop. Qed.
