(* ===== verification/Hash256.v ===== *)
(** * The hash of mini-edge-security

    Four sources of mini-edge-security define a hash of their own, all of them copied from SHA-256: the initial state, the schedule of message words, the rounds.  They
    differ in the rotation, in the round constants, in the round's order and in when the last block gets the length; these are the parameters here, and edge_crypto.c,
    psa_certified.c and device_attest.c are instances.  secure_boot_mcu.c fills its words in another way, in SecureBoot.  The machine is little-endian. *)
From S2P Require Import Prelude ByteMem.

Definition sha_h : list Z := [0x6a09e667; 0xbb67ae85; 0x3c6ef372; 0xa54ff53a; 0x510e527f; 0x9b05688c; 0x1f83d9ab; 0x5be0cd19].
(** [for (int i = 16; i < 64; i++) a[i] = f(a, i)]. *)
Definition fill_16_64 (f : list Z -> Z -> Z) (a : list Z) : list Z := foldl (fun a i => <[Z.to_nat i := f a i]> a) a (seqZ 16 48).
Definition schedule (rot : Z -> Z -> Z) (w : list Z) (i : Z) : Z :=
  let a := at_ w (i - 15) in
  let b := at_ w (i - 2) in
  let s0 := Z.lxor (Z.lxor (rot a 7) (rot a 18)) (Z.shiftr a 3) in
  let s1 := Z.lxor (Z.lxor (rot b 17) (rot b 19)) (Z.shiftr b 10) in
  at_ w (i - 16) +32 s0 +32 at_ w (i - 7) +32 s1.
(** The complement of a uint32_t. *)
Definition not32 (x : Z) : Z := 4294967295 - x.
Definition round (rot : Z -> Z -> Z) (s : list Z) (kw : Z * Z) : list Z :=
  match s with
  | [a; b; c; d; e; f; g; hh] =>
      let S1 := Z.lxor (Z.lxor (rot e 6) (rot e 11)) (rot e 25) in
      let ch := Z.lxor (Z.land e f) (Z.land (not32 e) g) in
      let t1 := hh +32 S1 +32 ch +32 kw.1 +32 kw.2 in
      let S0 := Z.lxor (Z.lxor (rot a 2) (rot a 13)) (rot a 22) in
      let maj := Z.lxor (Z.lxor (Z.land a b) (Z.land a c)) (Z.land b c) in
      let t2 := S0 +32 maj in
      [t1 +32 t2; a; b; c; d +32 t1; e; f; g]
  | _ => s
  end.
Definition digest_bytes (h : list Z) : list Z := x ← h; [u8 (Z.shiftr x 24); u8 (Z.shiftr x 16); u8 (Z.shiftr x 8); u8 x].

Section hash.
Context (rot : Z -> Z -> Z) (k : list Z) (rnd : list Z -> Z * Z -> list Z) (has_length : Z -> bool).

(** The first 64 bytes of [w]: what is left of the message, and a marker if there is room. *)
Definition block_bytes (data : list Z) (len pos : Z) : list Z :=
  let m := window (Z.to_nat pos) 64 (take (Z.to_nat len) data) in
  if (length m <? 64)%nat then m ++ 0x80 :: replicate (63 - length m) 0 else m.
Definition le_words (bs : list Z) : list Z := le_val <$> split_fields (replicate 16 4%nat) bs.
(** [w[15] = (uint32_t)(bitlen & 0xFFFFFFFF); w[14] = (uint32_t)(bitlen >> 32)] for a message of [len] bytes. *)
Definition put_length (len : Z) (w : list Z) : list Z :=
  let bitlen := u64 (len * 8) in <[14%nat := Z.shiftr bitlen 32]> (<[15%nat := Z.land bitlen 0xFFFFFFFF]> w).
(** [has_length] is the test on the bytes that are left. *)
Definition message_words (data : list Z) (len pos : Z) : list Z :=
  let w := le_words (block_bytes data len pos) ++ replicate 48 0 in
  fill_16_64 (schedule rot) (if has_length (len - pos) then put_length len w else w).
Definition hash_block (h w : list Z) : list Z := zip_with (fun x y => x +32 y) h (foldl rnd h (zip k w)).
(** The loop from [pos] on; [fuel] bounds the blocks, one more than whole blocks are in the message. *)
Fixpoint hash_loop (fuel : nat) (data : list Z) (len pos : Z) (h : list Z) : list Z :=
  match fuel with
  | O => h
  | Datatypes.S fuel =>
      if pos <=? len then
        let h := hash_block h (message_words data len pos) in
        if len <? pos + 64 then h else hash_loop fuel data len (pos + 64) h
      else h
  end.
Definition digest256 (data : list Z) (len : Z) : list Z := digest_bytes (hash_loop (Z.to_nat (len / 64 + 1)) data len 0 sha_h).
(** Lengths whose last block ends beyond an [int] are out of range. *)
Definition hash256 {S} (data : list Z) (len : Z) : M S (list Z) :=
  if (2 ^ 31 - 64 <=? len) || (Z.of_nat (length data) <? len) then undefined else mret (digest256 data len).
End hash.

(** ** Arrays of words *)

Definition agree (n : Z) (a b : list Z) : Prop := length a = length b /\ forall j, 0 <= j < n -> at_ a j = at_ b j.

Lemma at_insert l i j v : 0 <= i < Z.of_nat (length l) -> 0 <= j -> at_ (<[Z.to_nat i := v]> l) j = if decide (i = j) then v else at_ l j.
Proof.
  intros Hi Hj. unfold at_. destruct (decide (i = j)) as [->|Hne].
  - by rewrite list_lookup_total_insert_eq by lia.
  - by rewrite list_lookup_total_insert_ne by lia.
Qed.

(** A loop that fills the entries from the lower ones forgets what they held. *)
Lemma fill_forgets f n i a b :
  (forall a b j, 16 <= j -> agree j a b -> f a j = f b j) -> 16 <= i -> i + Z.of_nat n = 64 -> length a = 64%nat -> agree i a b ->
  foldl (fun a i => <[Z.to_nat i := f a i]> a) a (seqZ i (Z.of_nat n)) = foldl (fun a i => <[Z.to_nat i := f a i]> a) b (seqZ i (Z.of_nat n)).
Proof.
  intros Hf. revert i a b. induction n as [|n IH]; intros i a b Hi Hn Hl [Hab Hag].
  - change (Z.of_nat 0) with 0 in *. rewrite seqZ_nil by lia. cbn [foldl]. apply (list_at_eq 64); [done|congruence|]. intros j Hj. apply Hag. lia.
  - rewrite Nat2Z.inj_succ, seqZ_cons by lia. cbn [foldl]. replace (Z.pred (Z.succ (Z.of_nat n))) with (Z.of_nat n) by lia. apply IH; [lia|lia|by rewrite length_insert|].
    split; [by rewrite !length_insert|]. intros j Hj. rewrite !at_insert by lia. destruct (decide (i = j)); [apply Hf; [lia|by split]|apply Hag; lia].
Qed.

Lemma schedule_agree rot a b i : 16 <= i -> agree i a b -> schedule rot a i = schedule rot b i.
Proof. intros Hi [_ H]. unfold schedule. rewrite !H by lia. done. Qed.

Lemma length_fill f a : length (fill_16_64 f a) = length a.
Proof. unfold fill_16_64. apply (foldl_inv (fun x => length x = length a)); [done|]. intros x i Hx. by rewrite length_insert. Qed.
Lemma at_fill_low f a j : length a = 64%nat -> 0 <= j < 16 -> at_ (fill_16_64 f a) j = at_ a j.
Proof.
  intros Hl Hj. unfold fill_16_64. assert (Forall (fun i => 16 <= i < 64) (seqZ 16 48)) as H by (apply Forall_forall; intros x Hx%elem_of_seqZ; lia).
  cut (forall l x, Forall (fun i => 16 <= i < 64) l -> length x = 64%nat -> at_ (foldl (fun a i => <[Z.to_nat i := f a i]> a) x l) j = at_ x j); [by intros ->|].
  clear - Hj. intros l. induction l as [|i l IH]; intros x Hx Hl; cbn [foldl]; [done|]. apply Forall_cons in Hx as [Hi Hx].
  rewrite IH by (done || by rewrite length_insert). rewrite at_insert by lia. destruct (decide (i = j)); [lia|done].
Qed.

Lemma length_round rot s kw : length s = 8%nat -> length (round rot s kw) = 8%nat.
Proof. destruct s as [|a [|b [|c [|d [|e [|f [|g [|h [|]]]]]]]]]; try done. Qed.

Lemma length_le_words bs : length (le_words bs) = 16%nat.
Proof. unfold le_words. by rewrite length_fmap, length_split_fields. Qed.
(** The first [n] words are read from the first [4 * n] bytes. *)
Lemma le_words_prefix n bs bs' : (n <= 16)%nat -> take (4 * n) bs = take (4 * n) bs' -> take n (le_words bs) = take n (le_words bs').
Proof.
  intros Hn H. unfold le_words. replace 16%nat with (n + (16 - n))%nat by lia. rewrite replicate_add, !split_fields_app, !fmap_app.
  rewrite !take_app_le by (rewrite length_fmap, length_split_fields, length_replicate; lia). rewrite (split_fields_prefix _ bs bs'); [done|].
  by rewrite sum_list_replicate, Nat.mul_comm.
Qed.
Lemma length_put_length len w : length (put_length len w) = length w.
Proof. unfold put_length. by rewrite !length_insert. Qed.
(** The length takes the place of the last two words. *)
Lemma put_length_forgets len w w' : length w = 16%nat -> length w' = 16%nat -> take 14 w = take 14 w' -> forall z, put_length len (w ++ z) = put_length len (w' ++ z).
Proof.
  intros Hl Hl' H z. rewrite <- (take_drop 14 w), <- (take_drop 14 w'), H. unfold put_length.
  assert (length (drop 14 w) = 2%nat /\ length (drop 14 w') = 2%nat) as [Hd Hd'] by (rewrite !length_drop; lia).
  destruct (drop 14 w) as [|a [|b [|]]]; try done. destruct (drop 14 w') as [|a' [|b' [|]]]; try done.
  assert (length (take 14 w') = 14%nat) as Ht by (rewrite length_take; lia). rewrite <- !app_assoc. cbn [app].
  assert (forall x y, <[15%nat := x]> (take 14 w' ++ y) = take 14 w' ++ <[1%nat := x]> y) as E1 by (intros; by rewrite insert_app_r_alt, Ht by lia).
  assert (forall x y, <[14%nat := x]> (take 14 w' ++ y) = take 14 w' ++ <[0%nat := x]> y) as E0 by (intros; by rewrite insert_app_r_alt, Ht by lia).
  by rewrite !E1, !E0.
Qed.

Section hash_props.
Context (rot : Z -> Z -> Z) (k : list Z) (rnd : list Z -> Z * Z -> list Z) (has_length : Z -> bool).
Local Notation message_words := (message_words rot has_length).
Local Notation hash_loop := (hash_loop rot k rnd has_length).
Local Notation digest256 := (digest256 rot k rnd has_length).
Local Notation hash256 := (hash256 rot k rnd has_length).

Lemma hash256_ok {S} data len (s : S) : len < 2 ^ 31 - 64 -> len <= Z.of_nat (length data) -> hash256 data len s = Done (digest256 data len, s).
Proof. intros H1 H2. unfold Hash256.hash256. destruct (Z.leb_spec (2 ^ 31 - 64) len); [lia|]. by destruct (Z.ltb_spec (Z.of_nat (length data)) len); [lia|]. Qed.

(** The fuel is enough: more makes no difference. *)
Lemma hash_loop_fuel fuel fuel' data len pos h :
  0 <= pos -> Z.max 0 (len - pos + 1) <= 64 * Z.of_nat fuel -> (fuel <= fuel')%nat -> hash_loop fuel' data len pos h = hash_loop fuel data len pos h.
Proof.
  revert fuel' pos h. induction fuel as [|fuel IH]; intros fuel' pos h Hp Hf Hle.
  - destruct fuel' as [|fuel']; cbn [Hash256.hash_loop]; [done|]. destruct (Z.leb_spec pos len); [lia|done].
  - destruct fuel' as [|fuel']; [lia|]. cbn [Hash256.hash_loop]. destruct (Z.leb_spec pos len); [|done]. destruct (Z.ltb_spec len (pos + 64)); [done|]. apply IH; lia.
Qed.

(** A block with the length is read up to byte 56, another one as a whole. *)
Lemma message_words_agree d d' len pos :
  0 <= pos <= len -> len <= Z.of_nat (length d) -> len <= Z.of_nat (length d') ->
  (forall j, pos <= j < Z.min len (pos + if has_length (len - pos) then 56 else 64) -> at_ d j = at_ d' j) -> message_words d len pos = message_words d' len pos.
Proof.
  intros Hp Hd Hd' H. unfold Hash256.message_words, block_bytes.
  assert (forall x : list Z, len <= Z.of_nat (length x) -> length (window (Z.to_nat pos) 64 (take (Z.to_nat len) x)) = Nat.min 64 (Z.to_nat (len - pos))) as Hlen.
  { intros x Hx. unfold window. rewrite length_take, length_drop, length_take. lia. }
  set (m := window (Z.to_nat pos) 64 (take (Z.to_nat len) d)). set (m' := window (Z.to_nat pos) 64 (take (Z.to_nat len) d')).
  assert (length m = length m') as Hm by (unfold m, m'; by rewrite !Hlen). pose proof (Hlen d Hd) as Hm1. fold m in Hm1.
  set (n := if has_length (len - pos) then 56 else 64) in *. assert (take (Z.to_nat n) m = take (Z.to_nat n) m') as Ht.
  { apply list_eq. intros i. destruct (decide (i < Z.to_nat n)%nat); [|by rewrite !lookup_take_ge by lia]. rewrite !lookup_take_lt by lia. unfold m, m'.
    rewrite !lookup_window. destruct (decide (i < 64)%nat); [|done]. destruct (decide (Z.to_nat pos + i < Z.to_nat len)%nat); [|by rewrite !lookup_take_ge by lia].
    rewrite !lookup_take_lt by lia. specialize (H (pos + Z.of_nat i) ltac:(lia)). unfold at_ in H. replace (Z.to_nat (pos + Z.of_nat i)) with (Z.to_nat pos + i)%nat in H by lia.
    by rewrite !(list_lookup_lookup_total_lt) by lia; rewrite H. }
  rewrite <- Hm. set (pad := if (length m <? 64)%nat then 0x80 :: replicate (63 - length m) 0 else []).
  replace (if (length m <? 64)%nat then m ++ 0x80 :: _ else m) with (m ++ pad) by (unfold pad; destruct (_ <? _)%nat; [done|apply app_nil_r]).
  replace (if (length m <? 64)%nat then m' ++ 0x80 :: _ else m') with (m' ++ pad) by (unfold pad; destruct (_ <? _)%nat; [done|apply app_nil_r]).
  f_equal. assert (forall a, (a <= Z.to_nat n)%nat -> take a (m ++ pad) = take a (m' ++ pad)) as Ha.
  { intros a Hle. rewrite !take_app, <- Hm. f_equal. apply (f_equal (take a)) in Ht. by rewrite !take_take, !Nat.min_l in Ht by lia. }
  destruct (has_length (len - pos)); subst n.
  - apply put_length_forgets; [apply length_le_words..|]. apply le_words_prefix; [lia|]. apply Ha. lia.
  - f_equal. pose proof (le_words_prefix 16 (m ++ pad) (m' ++ pad) ltac:(lia) (Ha 64%nat ltac:(lia))) as E. by rewrite !take_ge in E by (rewrite length_le_words; lia).
Qed.

Lemma hash_loop_agree fuel d d' len pos h :
  0 <= pos -> pos mod 64 = 0 -> len <= Z.of_nat (length d) -> len <= Z.of_nat (length d') ->
  (forall j, pos <= j < len -> has_length (len - 64 * (j / 64)) = false \/ j mod 64 < 56 -> at_ d j = at_ d' j) -> hash_loop fuel d len pos h = hash_loop fuel d' len pos h.
Proof.
  revert pos h. induction fuel as [|fuel IH]; intros pos h Hp Hm Hd Hd' H; cbn [Hash256.hash_loop]; [done|]. destruct (Z.leb_spec pos len); [|done].
  rewrite (message_words_agree d d'); [|lia|done|done|].
  - destruct (Z.ltb_spec len (pos + 64)); [done|]. apply IH; [lia| |done|done|intros j Hj; apply H; lia]. Z.div_mod_to_equations. lia.
  - intros j Hj. apply H; [lia|]. assert (64 * (j / 64) = pos) as -> by (destruct (has_length (len - pos)); Z.div_mod_to_equations; lia).
    destruct (has_length (len - pos)); [right; Z.div_mod_to_equations; lia|by left].
Qed.

(** The bytes behind byte 56 of a block with the length play no part in the digest. *)
Lemma digest256_blind d d' len :
  len <= Z.of_nat (length d) -> len <= Z.of_nat (length d') ->
  (forall j, 0 <= j < len -> has_length (len - 64 * (j / 64)) = false \/ j mod 64 < 56 -> at_ d j = at_ d' j) -> digest256 d len = digest256 d' len.
Proof. intros Hd Hd' H. unfold Hash256.digest256. f_equal. by apply hash_loop_agree. Qed.

Lemma digest256_take d len : 0 <= len <= Z.of_nat (length d) -> digest256 (take (Z.to_nat len) d) len = digest256 d len.
Proof.
  intros H. apply digest256_blind; [rewrite length_take; lia|lia|]. intros j Hj _. unfold at_. by rewrite list_lookup_total_alt, lookup_take_lt, <- list_lookup_total_alt by lia.
Qed.
Lemma digest256_app d d' len : 0 <= len <= Z.of_nat (length d) -> digest256 (d ++ d') len = digest256 d len.
Proof. intros H. rewrite <- digest256_take, take_app_le by (rewrite ?length_app; lia). by apply digest256_take. Qed.

Lemma length_digest_bytes h : length h = 8%nat -> bytes_of_length 32 (digest_bytes h).
Proof. destruct h as [|a [|b [|c [|d [|e [|f [|g [|i [|]]]]]]]]]; try done. intros _. split; [done|]. cbn. repeat constructor; apply u8_range. Qed.
Lemma digest256_bytes d len : (forall s kw, length s = 8%nat -> length (rnd s kw) = 8%nat) -> bytes_of_length 32 (digest256 d len).
Proof.
  intros Hr. unfold Hash256.digest256. apply length_digest_bytes. assert (forall fuel pos h, length h = 8%nat -> length (hash_loop fuel d len pos h) = 8%nat) as Hl; [|by apply Hl].
  intros fuel. induction fuel as [|fuel IH]; intros pos h Hh; cbn [Hash256.hash_loop]; [done|]. destruct (_ <=? _); [|done].
  assert (length (hash_block k rnd h (message_words d len pos)) = 8%nat) as Hb.
  { unfold hash_block. rewrite length_zip_with. rewrite (foldl_inv (fun x => length x = 8%nat)) by auto. lia. }
  destruct (_ <? _); [done|]. by apply IH.
Qed.
End hash_props.
