(* ===== verification/SecureStorage.v ===== *)
(** * Secure storage (mini-edge-security/src/secure_storage.c)

    A partition of flash with access regions, a derived key, a small file system and monotonic counters; and the secure element.
    A pointer argument is the list of bytes from it to the end of its object; a function that fills a buffer returns the buffer.  The flash
    accesses check the partition's bounds: one that leaves them is undefined, in C it reaches the other fields. *)
From S2P Require Import Prelude Crc32 ByteMem.

Definition SEC_FLASH_PART_SIZE : Z := 8192.
Definition SEC_KDF_SALT_SIZE : Z := 16.
Definition SEC_KDF_DERIVED_SIZE : Z := 32.
Definition SEC_FS_BLOCK_SIZE : Z := 64.
Definition SEC_FS_MAX_FILES : Z := 32.
Definition SEC_FS_NAME_MAX : Z := 16.
Definition SEC_REGION_MAX : Z := 8.
Definition SEC_CRC_POLY : Z := 0xEDB88320.
Inductive SecEncryptAlg := SEC_ALG_PLAIN | SEC_ALG_AES_CTR_128 | SEC_ALG_AES_CTR_256 | SEC_ALG_CHACHA20.
(** Sets of access rights are their bits. *)
Definition SEC_ACCESS_READ : Z := Z.shiftl 1 0.
Definition SEC_ACCESS_WRITE : Z := Z.shiftl 1 1.
Definition SEC_ACCESS_EXEC : Z := Z.shiftl 1 2.
Definition SEC_ACCESS_DELETE : Z := Z.shiftl 1 3.
Inductive SecElementType := SEC_EL_ATECC608 | SEC_EL_ATECC508 | SEC_EL_STSAFE | SEC_EL_SIMULATED.

Record SecRegion := Region { start_addr : Z; size : Z; permissions : Z; region_encrypted : bool; monotonic_ctr : Z }.
Definition set_region_encrypted v x := Region (start_addr x) (size x) (permissions x) v (monotonic_ctr x).
Record SecKDF := Kdf { device_secret : list Z; salt : list Z; derived_key : list Z; algorithm : SecEncryptAlg; kdf_initialized : bool }.
Record SecFileEntry := FileEntry { name : list Z; block_start : Z; block_count : Z; file_size : Z; crc : Z; encrypted : bool; valid : bool }.
Definition set_file_size v x := FileEntry (name x) (block_start x) (block_count x) v (crc x) (encrypted x) (valid x).
Definition set_crc v x := FileEntry (name x) (block_start x) (block_count x) (file_size x) v (encrypted x) (valid x).
Record SecureStorage := Storage { flash : list Z; regions : list SecRegion; region_count : Z; kdf : SecKDF; files : list SecFileEntry; file_count : Z; monotonic_counters : list Z; tamper_detected : bool; locked : bool }.
Definition set_flash v x := Storage v (regions x) (region_count x) (kdf x) (files x) (file_count x) (monotonic_counters x) (tamper_detected x) (locked x).
Definition set_regions v x := Storage (flash x) v (region_count x) (kdf x) (files x) (file_count x) (monotonic_counters x) (tamper_detected x) (locked x).
Definition set_region_count v x := Storage (flash x) (regions x) v (kdf x) (files x) (file_count x) (monotonic_counters x) (tamper_detected x) (locked x).
Definition set_kdf v x := Storage (flash x) (regions x) (region_count x) v (files x) (file_count x) (monotonic_counters x) (tamper_detected x) (locked x).
Definition set_files v x := Storage (flash x) (regions x) (region_count x) (kdf x) v (file_count x) (monotonic_counters x) (tamper_detected x) (locked x).
Definition set_file_count v x := Storage (flash x) (regions x) (region_count x) (kdf x) (files x) v (monotonic_counters x) (tamper_detected x) (locked x).
Definition set_monotonic_counters v x := Storage (flash x) (regions x) (region_count x) (kdf x) (files x) (file_count x) v (tamper_detected x) (locked x).
Definition set_tamper_detected v x := Storage (flash x) (regions x) (region_count x) (kdf x) (files x) (file_count x) (monotonic_counters x) v (locked x).
(** A storage and the file's static table. *)
Record secure_mem := Mem { ss : SecureStorage; crc32_table : list Z; crc_table_init : bool }.
Definition set_ss v x := Mem v (crc32_table x) (crc_table_init x).

Notation SM := (M secure_mem).
Definition storage {A} (f : SecureStorage -> A) : SM A := gets (fun m => f (ss m)).
Definition change (f : SecureStorage -> SecureStorage) : SM unit := modify (fun m => set_ss (f (ss m)) m).

Definition zero_kdf : SecKDF := Kdf (replicate 32 0) (replicate 16 0) (replicate 32 0) SEC_ALG_PLAIN false.
Definition zero_region : SecRegion := Region 0 0 0 false 0.
#[export] Instance region_inhabited : Inhabited SecRegion := populate zero_region.
Definition zero_file : SecFileEntry := FileEntry (replicate 16 0) 0 0 0 0 false false.

(** ** Bytes and machine arithmetic *)

(** [int] subtraction; overflow is undefined. *)
Definition int_sub {S} (a b : Z) : M S Z := if (-2147483648 <=? a - b) && (a - b <? 2147483648) then mret (a - b) else undefined.
(** [memcpy(ss->flash + addr, bs, ...)]. *)
Definition flash_put (addr : Z) (bs : list Z) : SM unit :=
  if SEC_FLASH_PART_SIZE <? addr + Z.of_nat (length bs) then undefined else change (fun s => set_flash (splice (Z.to_nat addr) bs (flash s)) s).
(** [ss->flash + addr]. *)
Definition flash_from (addr : Z) : SM (list Z) :=
  if SEC_FLASH_PART_SIZE <? addr then undefined else f ← storage flash; mret (drop (Z.to_nat addr) f).

(** ** Checksum, cipher and key derivation *)

Definition crc32_entry (i : Z) : Z :=
  Nat.iter 8 (fun crc => if truthy (Z.land crc 1) then Z.lxor SEC_CRC_POLY (Z.shiftr crc 1) else Z.shiftr crc 1) i.
Definition crc32_init_table : SM unit := modify (fun m => Mem (ss m) (crc32_entry <$> seqZ 0 256) true).
Definition crc32_step (table : list Z) (crc d : Z) : Z := Z.lxor (at_ table (Z.land (Z.lxor crc d) 0xFF)) (Z.shiftr crc 8).
Definition sec_storage_crc32 (data : list Z) (len : Z) : SM Z :=
  i ← gets crc_table_init;
  when (negb i) crc32_init_table;;
  table ← gets crc32_table;
  bs ← loop_bytes data len;
  mret (Z.lxor (foldl (crc32_step table) 0xFFFFFFFF bs) 0xFFFFFFFF).

Definition xor_key (key bs : list Z) : list Z := imap (fun i b => Z.lxor b (at_ key (Z.of_nat i mod SEC_KDF_DERIVED_SIZE))) bs.
(** The output, for [out] with room for [room] bytes. *)
Definition sec_xor_crypt (key inp : list Z) (room len : Z) : SM (list Z) :=
  bs ← loop_bytes inp len;
  if room <? Z.of_nat (length bs) then undefined else mret (xor_key key bs).

Definition pad (c : Z) (key : list Z) (klen : Z) : list Z := (fun i => if i <? klen then Z.lxor c (at_ key i) else c) <$> seqZ 0 64.
Definition sec_kdf_hmac (key : list Z) (klen : Z) (msg : list Z) (mlen : Z) : list Z :=
  let ipad := pad 0x36 key klen in
  let opad := pad 0x5C key klen in
  let inner_hash := (fun i => u8 (Z.lxor (at_ ipad (i mod 64)) (at_ msg (i mod mlen)) * 0x6D)) <$> seqZ 0 SEC_KDF_DERIVED_SIZE in
  (fun i => u8 (Z.lxor (at_ opad (i mod 64)) (at_ inner_hash (i mod SEC_KDF_DERIVED_SIZE)) * 0x5B)) <$> seqZ 0 SEC_KDF_DERIVED_SIZE.

Definition sec_storage_init (secret : list Z) : SM unit :=
  bs ← memcpy_bytes secret 32;
  change (fun _ => Storage (replicate (Z.to_nat SEC_FLASH_PART_SIZE) 0) (replicate 8 zero_region) 0 (Kdf bs (salt zero_kdf) (derived_key zero_kdf) SEC_ALG_PLAIN false)
    (replicate 32 zero_file) 0 (replicate 8 0) false true).

Definition kdf_salt (secret : list Z) : list Z := (fun i => u8 (0x7A + i * 11 + at_ secret (i mod 32))) <$> seqZ 0 SEC_KDF_SALT_SIZE.
Definition kdf_key (secret : list Z) : list Z := sec_kdf_hmac secret 32 (kdf_salt secret) SEC_KDF_SALT_SIZE.
Definition sec_storage_kdf_derive : SM unit :=
  k ← storage kdf;
  if kdf_initialized k then mret tt
  else change (set_kdf (Kdf (device_secret k) (kdf_salt (device_secret k)) (kdf_key (device_secret k)) SEC_ALG_AES_CTR_256 true)).

(** ** Regions *)

Definition sec_storage_add_region (start size perms : Z) (encrypted : bool) : SM unit :=
  n ← storage region_count;
  if SEC_REGION_MAX <=? n then mret tt
  else change (fun s => set_region_count (n + 1) (set_regions (<[Z.to_nat n := Region start size perms encrypted 0]> (regions s)) s)).

Definition covers (addr : Z) (r : SecRegion) : bool := (start_addr r <=? addr) && (addr <? start_addr r +32 size r).
Fixpoint access_loop (rs : list SecRegion) (addr required : Z) : bool :=
  match rs with
  | [] => false
  | r :: rs => if covers addr r then Z.land (permissions r) required =? required else access_loop rs addr required
  end.
Definition sec_storage_check_access (addr required : Z) : SM bool :=
  storage (fun s => access_loop (take (Z.to_nat (region_count s)) (regions s)) addr required).

(** The length, cut where the partition ends. *)
Definition clip (addr len : Z) : SM Z :=
  if SEC_FLASH_PART_SIZE <? addr +32 len then int_sub SEC_FLASH_PART_SIZE (int_of addr) else mret len.

Definition sec_storage_write (addr : Z) (data : list Z) (len : Z) : SM unit :=
  ok ← sec_storage_check_access addr SEC_ACCESS_WRITE;
  if negb ok then mret tt
  else
    len ← clip addr len;
    if len <=? 0 then mret tt
    else
      k ← storage kdf;
      if kdf_initialized k then
        enc ← sec_xor_crypt (derived_key k) data SEC_FLASH_PART_SIZE len;
        flash_put addr enc;;
        crc ← sec_storage_crc32 enc len;
        flash_put (SEC_FLASH_PART_SIZE - 4) (le_bytes 4 crc)
      else
        bs ← memcpy_bytes data len;
        flash_put addr bs.

Definition sec_storage_read (addr : Z) (buf : list Z) (len : Z) : SM (list Z) :=
  ok ← sec_storage_check_access addr SEC_ACCESS_READ;
  if negb ok then mret buf
  else
    len ← clip addr len;
    if len <=? 0 then mret buf
    else
      k ← storage kdf;
      src ← flash_from addr;
      bs ← (if kdf_initialized k then sec_xor_crypt (derived_key k) src (Z.of_nat (length buf)) len else memcpy_bytes src len);
      fill bs buf.

(** The bounds check of both region functions: the part of the region that lies in the partition. *)
Definition region_span (r : SecRegion) : Z :=
  if SEC_FLASH_PART_SIZE <? start_addr r +32 size r then SEC_FLASH_PART_SIZE -32 start_addr r else size r.
Definition mark_region (i : Z) (e : bool) : SM unit := change (fun s => set_regions (alter (set_region_encrypted e) (Z.to_nat i) (regions s)) s).

Definition sec_storage_encrypt_region (region_idx : Z) : SM unit :=
  n ← storage region_count;
  if (region_idx <? 0) || (n <=? region_idx) then mret tt
  else
    k ← storage kdf;
    when (negb (kdf_initialized k)) sec_storage_kdf_derive;;
    r ← storage (fun s => regions s !!! Z.to_nat region_idx);
    let room := SEC_FS_BLOCK_SIZE * 8 in
    let len := if region_span r <? room then region_span r else room in
    src ← flash_from (start_addr r);
    plain ← memcpy_bytes src len;
    key ← storage (fun s => derived_key (kdf s));
    enc ← sec_xor_crypt key plain room len;
    flash_put (start_addr r) enc;;
    mark_region region_idx true.

Definition sec_storage_decrypt_region (region_idx : Z) : SM unit :=
  n ← storage region_count;
  if (region_idx <? 0) || (n <=? region_idx) then mret tt
  else
    r ← storage (fun s => regions s !!! Z.to_nat region_idx);
    if negb (region_encrypted r) then mret tt
    else
      k ← storage kdf;
      when (negb (kdf_initialized k)) sec_storage_kdf_derive;;
      src ← flash_from (start_addr r);
      key ← storage (fun s => derived_key (kdf s));
      bs ← sec_xor_crypt key src (Z.of_nat (length src)) (int_of (region_span r));
      flash_put (start_addr r) bs;;
      mark_region region_idx false.

(** ** The file system *)

Definition sec_storage_format_fs : SM unit :=
  change (fun s => set_file_count 0 (set_files (replicate 32 zero_file) s));;
  flash_put 0 (replicate (Z.to_nat (SEC_FS_BLOCK_SIZE * 2)) 0).

(** [file_name]: the bytes before the terminator. *)
Definition sec_storage_file_create (file_name : list Z) : SM Z :=
  n ← storage file_count;
  if SEC_FS_MAX_FILES <=? n then mret (-1)
  else
    let nl := Z.of_nat (length file_name) in
    let nl := if SEC_FS_NAME_MAX <=? nl then SEC_FS_NAME_MAX - 1 else nl in
    k ← storage kdf;
    change (fun s => set_file_count (n + 1) (set_files (alter (fun f =>
      FileEntry (overlay (take (Z.to_nat nl) file_name ++ [0]) (name f)) (u32 ((n + 1) * 8)) 1 0 (crc f) (kdf_initialized k) true) (Z.to_nat n) (files s)) s));;
    mret n.

Definition sec_storage_file_write (file_id : Z) (data : list Z) (len : Z) : SM unit :=
  n ← storage file_count;
  if (file_id <? 0) || (n <=? file_id) then mret tt
  else
    f ← (storage files ≫= fun fs => of_option (fs !! Z.to_nat file_id));
    let offset := block_start f *32 SEC_FS_BLOCK_SIZE in
    let max_write := int_of (block_count f *32 SEC_FS_BLOCK_SIZE) in
    let wlen := if len <? max_write then len else max_write in
    wlen ← clip offset wlen;
    k ← storage kdf;
    enc ← (if encrypted f && kdf_initialized k
           then enc ← sec_xor_crypt (derived_key k) data (SEC_FS_BLOCK_SIZE * 4) wlen; memcpy_bytes enc wlen
           else memcpy_bytes data wlen);
    flash_put offset enc;;
    src ← flash_from offset;
    c ← sec_storage_crc32 src wlen;
    change (fun s => set_files (alter (fun f => set_crc c (set_file_size (u32 wlen) f)) (Z.to_nat file_id) (files s)) s).

(** The value returned and the buffer after the call. *)
Definition sec_storage_file_read (file_id : Z) (buf : list Z) (max_len : Z) : SM (Z * list Z) :=
  n ← storage file_count;
  if (file_id <? 0) || (n <=? file_id) then mret (0, buf)
  else
    f ← (storage files ≫= fun fs => of_option (fs !! Z.to_nat file_id));
    let offset := block_start f *32 SEC_FS_BLOCK_SIZE in
    let rlen := if int_of (file_size f) <? max_len then int_of (file_size f) else max_len in
    k ← storage kdf;
    src ← flash_from offset;
    bs ← (if encrypted f && kdf_initialized k then sec_xor_crypt (derived_key k) src (Z.of_nat (length buf)) rlen else memcpy_bytes src rlen);
    out ← fill bs buf;
    mret (rlen, out).

Definition sec_storage_file_delete (file_id : Z) : SM unit :=
  n ← storage file_count;
  if (file_id <? 0) || (n <=? file_id) then mret tt
  else
    f ← (storage files ≫= fun fs => of_option (fs !! Z.to_nat file_id));
    flash_put (block_start f *32 SEC_FS_BLOCK_SIZE) (replicate (Z.to_nat (block_count f *32 SEC_FS_BLOCK_SIZE)) 0);;
    change (fun s => set_files (<[Z.to_nat file_id := zero_file]> (files s)) s).

(** ** Tampering and counters *)

Definition sec_storage_tamper_check : SM bool :=
  f ← storage flash;
  let stored_crc := le_val (drop (Z.to_nat (SEC_FLASH_PART_SIZE - 4)) f) in
  computed ← sec_storage_crc32 f (SEC_FLASH_PART_SIZE - 4);
  if negb (stored_crc =? computed) && negb (stored_crc =? 0) then change (set_tamper_detected true);; mret false else mret true.

Definition sec_storage_monotonic_inc (i : Z) : SM unit :=
  if (i <? 0) || (8 <=? i) then mret tt
  else change (fun s => set_monotonic_counters (alter (fun c => u64 (c + 1)) (Z.to_nat i) (monotonic_counters s)) s).
Definition sec_storage_monotonic_get (i : Z) : SM Z :=
  if (i <? 0) || (8 <=? i) then mret 0 else storage (fun s => at_ (monotonic_counters s) i).

(** ** The secure element *)

Record SecureElement := Element {
  el_type : SecElementType; serial_num : list Z; pubkey : list Z; present : bool; el_locked : bool; otp_zone : list Z; data_zone : list Z }.
Definition sec_element_init (type : SecElementType) : SecureElement :=
  Element type ((fun i => u8 (0x01 + i * 0x23)) <$> seqZ 0 9) ((fun i => u8 (0x40 + i * 3)) <$> seqZ 0 64) true true (replicate 64 0xFF) (replicate 72 0).
Definition sec_element_ecdh (se : SecureElement) (peer : list Z) : list Z :=
  (fun i => u8 (Z.lxor (Z.lxor (at_ (pubkey se) i) (at_ peer (i mod 64))) (at_ (serial_num se) (i mod 9)))) <$> seqZ 0 32.
(** The signature and its length. *)
Definition sec_element_sign (se : SecureElement) (digest : list Z) : list Z * Z :=
  ((fun i => u8 (Z.lxor (Z.lxor (at_ digest (i mod 32)) (at_ (otp_zone se) (i mod 64))) (u8 (0xE0 + i * 2)))) <$> seqZ 0 64, 64).
Fixpoint rng_loop (n : nat) (seed : Z) : list Z :=
  match n with
  | O => []
  | S n => let seed := seed *32 1103515245 +32 12345 in u8 (Z.land (Z.shiftr seed 16) 0xFF) :: rng_loop n seed
  end.
Definition sec_element_rng (se : SecureElement) (len : Z) : list Z :=
  let b i := at_ (serial_num se) i in
  rng_loop (Z.to_nat len) (u32 (Z.lor (Z.lor (Z.lor (b 0) (Z.shiftl (b 1) 8)) (Z.shiftl (b 2) 16)) (Z.shiftl (b 3) 24))).
Definition sec_element_store_key (slot : Z) (key : list Z) (len : Z) : M SecureElement unit :=
  if (slot <? 0) || (16 <=? slot) then mret tt
  else
    bs ← memcpy_bytes key (if len <? 4 then len else 4);
    modify (fun se => Element (el_type se) (serial_num se) (pubkey se) (present se) (el_locked se) (otp_zone se)
      (splice (Z.to_nat (slot * 4)) bs (data_zone se))).

(** ** The checksum *)

(** The table the file computes holds the bytes' checksums, and a step through it is the eight bit steps. *)
Definition crc_table : list Z := crc32_entry <$> seqZ 0 256.

Lemma crc32_entry_bits i : crc32_entry i = Nat.iter 8 crc32_bit i.
Proof.
  unfold crc32_entry. assert (forall n, Nat.iter n (fun crc => if truthy (Z.land crc 1) then Z.lxor SEC_CRC_POLY (Z.shiftr crc 1) else Z.shiftr crc 1) i =
    Nat.iter n crc32_bit i) as H; [|apply H].
  induction n as [|n IH]; [done|]. rewrite !iter_S, IH. unfold crc32_bit, truthy. destruct (Z.land _ 1 =? 0); [done|]. apply Z.lxor_comm.
Qed.

Lemma crc_table_at i : 0 <= i < 256 -> at_ crc_table i = Nat.iter 8 crc32_bit i.
Proof.
  intros Hi. rewrite <- crc32_entry_bits. unfold at_, crc_table. apply list_lookup_total_correct. rewrite list_lookup_fmap, lookup_seqZ_lt by lia.
  cbn [fmap option_fmap option_map]. by rewrite Z.add_0_l, Z2Nat.id by lia.
Qed.

#[local] Opaque crc_table.

Lemma crc32_step_byte crc d : 0 <= crc -> is_u8 d -> crc32_step crc_table crc d = crc32_byte crc d.
Proof.
  unfold is_u8. intros Hc Hd. unfold crc32_step, crc32_byte. change 0xFF with (Z.ones 8). rewrite Z.land_ones by lia.
  change (2 ^ 8) with 256. rewrite crc_table_at by (apply Z.mod_pos_bound; lia).
  assert (0 <= Z.lxor crc d) as Hx by (apply Z.lxor_nonneg; lia). rewrite (u8_split (Z.lxor crc d) Hx) at 2. rewrite crc32_bits_lxor. unfold u8. f_equal.
  rewrite (crc32_bits_shift 8 8) by (lia || (apply Z.shiftr_nonneg; lia)). rewrite Z.shiftl_0_r, Z.shiftr_lxor.
  rewrite (Z.shiftr_div_pow2 d) by lia. change (2 ^ 8) with 256. rewrite (Z.div_small d) by lia. by rewrite Z.lxor_0_r.
Qed.

Lemma crc32_steps s bs : 0 <= s < 2 ^ 32 -> Forall is_u8 bs -> foldl (crc32_step crc_table) s bs = foldl crc32_byte s bs.
Proof.
  revert s. induction bs as [|b bs IH]; intros s Hs Hb; [done|]. apply Forall_cons in Hb as [Hb Hr]. cbn [foldl].
  rewrite crc32_step_byte by (done || lia). apply IH; [|done]. apply (crc32_fold_bound s [b]); [done|by constructor].
Qed.

Definition table_ok (m : secure_mem) : Prop := crc_table_init m = true -> crc32_table m = crc_table.
(** The state in which the static table is set up. *)
Definition with_table (m : secure_mem) : secure_mem := Mem (ss m) crc_table true.

Lemma table_run m : table_ok m -> when (negb (crc_table_init m)) crc32_init_table m = Done (tt, with_table m).
Proof.
  intros Ht. destruct m as [s t i]. unfold table_ok in Ht. cbn [crc_table_init crc32_table] in *. destruct i; [|reflexivity].
  unfold with_table. cbn [ss negb]. by rewrite (Ht eq_refl).
Qed.

Lemma crc32_run data len m :
  table_ok m -> Forall is_u8 data -> 0 <= len <= Z.of_nat (length data) ->
  sec_storage_crc32 data len m = Done (crc32_of (take (Z.to_nat len) data), with_table m).
Proof.
  intros Ht Hd Hl. unfold sec_storage_crc32. rewrite bind_gets, (bind_step _ _ _ _ _ (table_run m Ht)), bind_gets.
  rewrite (bind_step _ _ _ _ _ (loop_bytes_ok data len (with_table m) Hl)). unfold with_table at 1. cbn [crc32_table].
  rewrite crc32_steps; [done|lia|by apply Forall_take].
Qed.

(** ** The cipher *)

Definition key_ok (key : list Z) : Prop := bytes_of_length 32 key.

Lemma length_xor_key key bs : length (xor_key key bs) = length bs.
Proof. apply length_imap. Qed.
Lemma lookup_xor_key key bs i : xor_key key bs !! i = (fun b => Z.lxor b (at_ key (Z.of_nat i mod 32))) <$> bs !! i.
Proof. apply list_lookup_imap. Qed.
Lemma xor_key_involutive key bs : xor_key key (xor_key key bs) = bs.
Proof.
  apply list_eq. intros i. rewrite !lookup_xor_key. destruct (bs !! i) as [b|]; cbn [fmap option_fmap option_map]; [|done].
  by rewrite Z.lxor_assoc, Z.lxor_nilpotent, Z.lxor_0_r.
Qed.
Lemma key_byte key i : key_ok key -> 0 <= i < 32 -> is_u8 (at_ key i).
Proof.
  intros [Hl Hk] Hi. unfold at_. destruct (lookup_lt_is_Some_2 key (Z.to_nat i)) as [b Hb]; [lia|].
  rewrite (list_lookup_total_correct _ _ _ Hb). rewrite Forall_lookup in Hk. eauto.
Qed.
Lemma xor_key_u8 key bs : key_ok key -> Forall is_u8 bs -> Forall is_u8 (xor_key key bs).
Proof.
  intros Hk Hb. apply Forall_lookup. intros i x. rewrite lookup_xor_key. destruct (bs !! i) as [b|] eqn:E; [|done]. intros [= <-].
  rewrite Forall_lookup in Hb. pose proof (Hb _ _ E) as Hbi. pose proof (key_byte key (Z.of_nat i mod 32) Hk) as Hki.
  specialize (Hki ltac:(apply Z.mod_pos_bound; lia)). unfold is_u8 in *. apply (lxor_bound 8); lia.
Qed.
Lemma take_xor_key n key bs : take n (xor_key key bs) = xor_key key (take n bs).
Proof.
  apply list_eq. intros i. rewrite lookup_xor_key. destruct (decide (i < n)%nat).
  - by rewrite !lookup_take_lt, lookup_xor_key by lia.
  - by rewrite !lookup_take_ge by lia.
Qed.
Lemma sec_xor_crypt_ok {m : secure_mem} key inp room len :
  0 <= len <= Z.of_nat (length inp) -> len <= room -> sec_xor_crypt key inp room len m = Done (xor_key key (take (Z.to_nat len) inp), m).
Proof.
  intros H Hr. unfold sec_xor_crypt. rewrite (bind_step _ _ _ _ _ (loop_bytes_ok inp len m H)).
  destruct (Z.ltb_spec room (Z.of_nat (length (take (Z.to_nat len) inp)))) as [Hx|]; [|done]. rewrite length_take in Hx. lia.
Qed.

(** ** Well-formed storage *)

Definition entry_wf (keyed : bool) (i : nat) (f : SecFileEntry) : Prop :=
  bytes_of_length 16 (name f) /\ is_u32 (crc f) /\ (encrypted f = true -> keyed = true) /\
  (block_start f = 0 /\ block_count f = 0 /\ file_size f = 0 \/
   block_start f = (Z.of_nat i + 1) * 8 /\ block_count f = 1 /\ 0 <= file_size f <= 64 /\ ((15 <= i)%nat -> file_size f = 0)).
Definition region_wf (r : SecRegion) : Prop := 0 <= start_addr r /\ 0 <= size r /\ start_addr r + size r <= SEC_FLASH_PART_SIZE.
Definition kdf_wf (k : SecKDF) : Prop := bytes_of_length 32 (device_secret k) /\ bytes_of_length 16 (salt k) /\ key_ok (derived_key k).

Record storage_wf (s : SecureStorage) : Prop := {
  wf_flash : Z.of_nat (length (flash s)) = SEC_FLASH_PART_SIZE /\ Forall is_u8 (flash s);
  wf_regions : length (regions s) = 8%nat /\ 0 <= region_count s <= 8;
  wf_spans : forall i r, Z.of_nat i < region_count s -> regions s !! i = Some r -> region_wf r;
  wf_kdf : kdf_wf (kdf s);
  wf_files : length (files s) = 32%nat /\ 0 <= file_count s <= 32;
  wf_entries : forall i f, files s !! i = Some f -> entry_wf (kdf_initialized (kdf s)) i f;
  wf_counters : length (monotonic_counters s) = 8%nat /\ Forall (fun c => 0 <= c < 2 ^ 64) (monotonic_counters s) }.
Definition wf (m : secure_mem) : Prop := storage_wf (ss m) /\ table_ok m.

(** The effect of [flash_put]. *)
Definition put (addr : Z) (bs : list Z) (m : secure_mem) : secure_mem := set_ss (set_flash (splice (Z.to_nat addr) bs (flash (ss m))) (ss m)) m.

Lemma flash_put_ok addr bs m : 0 <= addr -> addr + Z.of_nat (length bs) <= SEC_FLASH_PART_SIZE -> flash_put addr bs m = Done (tt, put addr bs m).
Proof. intros H0 H. unfold flash_put. by destruct (Z.ltb_spec SEC_FLASH_PART_SIZE (addr + Z.of_nat (length bs))); [lia|]. Qed.

Lemma wf_put addr bs m : wf m -> 0 <= addr -> addr + Z.of_nat (length bs) <= SEC_FLASH_PART_SIZE -> Forall is_u8 bs -> wf (put addr bs m).
Proof.
  intros [[[Hl Hf] Hr Hs Hk Hfi He Hc] Ht] H0 H Hb. split; [|exact Ht]. constructor; try assumption. cbn [put set_ss ss set_flash flash]. split.
  - rewrite length_splice; [done|]. lia.
  - by apply Forall_splice.
Qed.

Lemma wf_with_table m : wf m -> wf (with_table m).
Proof. intros [H _]. split; [exact H|]. by intros _. Qed.

Lemma flash_length m : wf m -> Z.of_nat (length (flash (ss m))) = 8192.
Proof. intros [[[Hl _] _ _ _ _ _ _] _]. exact Hl. Qed.
Lemma flash_u8 m : wf m -> Forall is_u8 (flash (ss m)).
Proof. intros [[[_ H] _ _ _ _ _ _] _]. exact H. Qed.
Lemma kdf_key_ok m : wf m -> key_ok (derived_key (kdf (ss m))).
Proof. intros [[_ _ _ (_ & _ & H) _ _ _] _]. exact H. Qed.

Lemma flash_from_ok addr m : 0 <= addr <= SEC_FLASH_PART_SIZE -> flash_from addr m = Done (drop (Z.to_nat addr) (flash (ss m)), m).
Proof. intros H. unfold flash_from. by destruct (Z.ltb_spec SEC_FLASH_PART_SIZE addr); [lia|]. Qed.

Lemma length_drop_flash addr m : wf m -> 0 <= addr <= 8192 -> Z.of_nat (length (drop (Z.to_nat addr) (flash (ss m)))) = 8192 - addr.
Proof. intros H Ha. pose proof (flash_length m H). rewrite length_drop. lia. Qed.

Lemma clip_ok addr len (m : secure_mem) : 0 <= addr <= 8192 -> 0 <= len < 2 ^ 31 -> clip addr len m = Done (Z.min len (8192 - addr), m).
Proof.
  intros Ha Hl. unfold clip, SEC_FLASH_PART_SIZE. rewrite u32_small by lia. destruct (Z.ltb_spec 8192 (addr + len)).
  - unfold int_sub, int_of. rewrite u32_small by lia. replace (addr + 2147483648 - 2147483648) with addr by lia.
    destruct (Z.leb_spec (-2147483648) (8192 - addr)); [|lia]. destruct (Z.ltb_spec (8192 - addr) 2147483648); [|lia]. cbn [andb].
    unfold mret, M_ret. do 2 f_equal. lia.
  - unfold mret, M_ret. do 2 f_equal. lia.
Qed.

(** ** Regions *)

(** What the key, once there is one, makes of the bytes that are stored. *)
Definition cipher (keyed : bool) (m : secure_mem) (bs : list Z) : list Z := if keyed then xor_key (derived_key (kdf (ss m))) bs else bs.

Lemma length_cipher k m bs : length (cipher k m bs) = length bs.
Proof. destruct k; [apply length_xor_key|done]. Qed.
Lemma cipher_involutive k m bs : cipher k m (cipher k m bs) = bs.
Proof. destruct k; [apply xor_key_involutive|done]. Qed.
Lemma cipher_u8 k m bs : wf m -> Forall is_u8 bs -> Forall is_u8 (cipher k m bs).
Proof. intros H. destruct k; [|done]. by apply xor_key_u8, kdf_key_ok. Qed.
Lemma take_cipher n k m bs : take n (cipher k m bs) = cipher k m (take n bs).
Proof. destruct k; [apply take_xor_key|done]. Qed.

Definition access (m : secure_mem) (addr required : Z) : bool := access_loop (take (Z.to_nat (region_count (ss m))) (regions (ss m))) addr required.
Definition keyed (m : secure_mem) : bool := kdf_initialized (kdf (ss m)).

Lemma access_in_flash m addr required : wf m -> access m addr required = true -> 0 <= addr < 8192.
Proof.
  intros [[_ [Hl Hn] Hs _ _ _ _] _]. unfold access. assert (Forall region_wf (take (Z.to_nat (region_count (ss m))) (regions (ss m)))) as H.
  { apply Forall_lookup. intros i r E. pose proof (lookup_lt_Some _ _ _ E) as Hi. rewrite length_take in Hi. rewrite lookup_take_lt in E by lia.
    apply (Hs i r); [lia|done]. }
  induction H as [|r rs (H1 & H2 & H3) H IH]; cbn [access_loop]; [done|]. unfold covers, SEC_FLASH_PART_SIZE in *. rewrite u32_small by lia.
  destruct (Z.leb_spec (start_addr r) addr); [|done]. destruct (Z.ltb_spec addr (start_addr r + size r)); cbn [andb]; [lia|done].
Qed.

(** The footer: the checksum of the last bytes written. *)
Definition footer (bs : list Z) (m : secure_mem) : secure_mem := put 8188 (le_bytes 4 (crc32_of bs)) (with_table m).

Lemma write_run addr data len m :
  wf m -> Forall is_u8 data -> 0 < len <= Z.of_nat (length data) -> len < 2 ^ 31 -> access m addr SEC_ACCESS_WRITE = true ->
  let enc := cipher (keyed m) m (take (Z.to_nat (Z.min len (8192 - addr))) data) in
  sec_storage_write addr data len m = Done (tt, (if keyed m then footer enc else id) (put addr enc m)).
Proof.
  intros Hm Hd Hl Hl2 Ha enc. pose proof (access_in_flash _ _ _ Hm Ha) as Haddr. unfold sec_storage_write, sec_storage_check_access, storage.
  rewrite bind_gets. unfold access in Ha. rewrite Ha. cbn [negb]. rewrite (bind_step _ _ _ _ _ (clip_ok addr len m ltac:(lia) ltac:(lia))).
  set (n := Z.min len (8192 - addr)) in *. assert (0 < n <= Z.of_nat (length data) /\ n <= 8192 - addr) as Hn by lia.
  destruct (Z.leb_spec n 0); [lia|]. rewrite bind_gets. assert (Z.of_nat (length enc) = n) as Hle by (unfold enc; rewrite length_cipher, length_take; lia).
  assert (Forall is_u8 enc) as Hen by (by apply cipher_u8, Forall_take).
  assert (wf (put addr enc m)) as Hw by (apply wf_put; [done|lia|unfold SEC_FLASH_PART_SIZE; lia|done]).
  unfold keyed, cipher in *. destruct (kdf_initialized (kdf (ss m))).
  - rewrite (bind_step _ _ _ _ _ (sec_xor_crypt_ok _ data SEC_FLASH_PART_SIZE n ltac:(lia) ltac:(unfold SEC_FLASH_PART_SIZE; lia))). fold enc.
    rewrite (bind_step _ _ _ _ _ (flash_put_ok addr enc m ltac:(lia) ltac:(unfold SEC_FLASH_PART_SIZE; lia))).
    rewrite (bind_step _ _ _ _ _ (crc32_run enc n _ (proj2 Hw) Hen ltac:(lia))).
    rewrite take_ge by lia. unfold SEC_FLASH_PART_SIZE. by rewrite flash_put_ok by (rewrite ?length_le_bytes; unfold SEC_FLASH_PART_SIZE; lia).
  - rewrite (bind_step _ _ _ _ _ (memcpy_bytes_ok data n m ltac:(lia))). fold enc. by rewrite flash_put_ok by (unfold SEC_FLASH_PART_SIZE; lia).
Qed.

(** The bytes a keyed or plain read of the flash yields. *)
Lemma flash_read_run (k : bool) addr len room m :
  wf m -> 0 <= addr <= 8192 -> 0 <= len <= 8192 - addr -> len <= room ->
  (if k then sec_xor_crypt (derived_key (kdf (ss m))) (drop (Z.to_nat addr) (flash (ss m))) room len
   else memcpy_bytes (drop (Z.to_nat addr) (flash (ss m))) len) m =
  Done (cipher k m (window (Z.to_nat addr) (Z.to_nat len) (flash (ss m))), m).
Proof.
  intros Hm Ha Hl Hr. pose proof (length_drop_flash addr m Hm Ha). destruct k.
  - by rewrite sec_xor_crypt_ok by lia.
  - by rewrite memcpy_bytes_ok by lia.
Qed.

Lemma read_run addr buf len m :
  wf m -> 0 <= len <= Z.of_nat (length buf) -> len < 2 ^ 31 -> access m addr SEC_ACCESS_READ = true ->
  sec_storage_read addr buf len m =
    Done (overlay (cipher (keyed m) m (window (Z.to_nat addr) (Z.to_nat (Z.min len (8192 - addr))) (flash (ss m)))) buf, m).
Proof.
  intros Hm Hl Hl2 Ha. pose proof (access_in_flash _ _ _ Hm Ha) as Haddr. unfold sec_storage_read, sec_storage_check_access, storage.
  rewrite bind_gets. unfold access in Ha. rewrite Ha. cbn [negb]. rewrite (bind_step _ _ _ _ _ (clip_ok addr len m ltac:(lia) ltac:(lia))).
  set (n := Z.min len (8192 - addr)) in *. destruct (Z.leb_spec n 0).
  - replace n with 0 by lia. unfold window. cbn. by destruct (keyed m).
  - rewrite bind_gets. rewrite (bind_step _ _ _ _ _ (flash_from_ok addr m ltac:(unfold SEC_FLASH_PART_SIZE; lia))).
    rewrite (bind_step _ _ _ _ _ (flash_read_run (keyed m) addr n (Z.of_nat (length buf)) m Hm ltac:(lia) ltac:(lia) ltac:(lia))).
    apply fill_ok. pose proof (flash_length m Hm). rewrite length_cipher, length_window; lia.
Qed.

(** ** Key derivation and the regions' cipher *)

Definition derived (m : secure_mem) : secure_mem :=
  if keyed m then m
  else let d := device_secret (kdf (ss m)) in set_ss (set_kdf (Kdf d (kdf_salt d) (kdf_key d) SEC_ALG_AES_CTR_256 true) (ss m)) m.

Lemma derive_run m : sec_storage_kdf_derive m = Done (tt, derived m).
Proof. unfold sec_storage_kdf_derive, derived, keyed, storage. rewrite bind_gets. by destruct (kdf_initialized _). Qed.
Lemma derive_when m : when (negb (keyed m)) sec_storage_kdf_derive m = Done (tt, derived m).
Proof. unfold derived. destruct (keyed m) eqn:E; cbn; [done|]. rewrite derive_run. unfold derived. by rewrite E. Qed.
Lemma keyed_derived m : keyed (derived m) = true.
Proof. unfold derived. by destruct (keyed m) eqn:E. Qed.

Lemma wf_derived m : wf m -> wf (derived m).
Proof.
  intros H. unfold derived. destruct (keyed m) eqn:Ek; [done|]. destruct H as [[? ? ? (Hd & _) ? He ?] Ht]. split; [|exact Ht].
  constructor; try assumption.
  - split; [exact Hd|]. split; [apply (bytes_u8_map 16)|apply (bytes_u8_map 32)].
  - intros i f Hi. destruct (He i f Hi) as (H1 & H2 & _ & H4). exact (conj H1 (conj H2 (conj (fun _ => eq_refl) H4))).
Qed.

Lemma derived_same m : flash (ss (derived m)) = flash (ss m) /\ regions (ss (derived m)) = regions (ss m) /\ files (ss (derived m)) = files (ss m) /\
  file_count (ss (derived m)) = file_count (ss m) /\ region_count (ss (derived m)) = region_count (ss m).
Proof. unfold derived. by destruct (keyed m). Qed.

Definition marked (i : Z) (e : bool) (m : secure_mem) : secure_mem :=
  set_ss (set_regions (alter (set_region_encrypted e) (Z.to_nat i) (regions (ss m))) (ss m)) m.
Lemma wf_marked i e m : wf m -> wf (marked i e m).
Proof.
  intros [[? [Hl Hn] Hs ? ? ? ?] Ht]. split; [|exact Ht]. constructor; try assumption; cbn [marked set_ss ss set_regions regions region_count].
  - split; [by rewrite length_alter|done].
  - intros j r Hj E. destruct (decide (j = Z.to_nat i)) as [->|Hne].
    + rewrite list_lookup_alter_eq in E. destruct (regions (ss m) !! Z.to_nat i) as [r0|] eqn:E0; [|done]. injection E as <-. apply (Hs _ _ Hj E0).
    + rewrite list_lookup_alter_ne in E by done. by apply (Hs j).
Qed.

Lemma region_span_ok r : region_wf r -> region_span r = size r.
Proof. intros (H1 & H2 & H3). unfold region_span, SEC_FLASH_PART_SIZE in *. rewrite u32_small by lia. by destruct (Z.ltb_spec 8192 (start_addr r + size r)); [lia|]. Qed.

Lemma region_at m i : wf m -> 0 <= i < region_count (ss m) -> regions (ss m) !! Z.to_nat i = Some (regions (ss m) !!! Z.to_nat i) /\ region_wf (regions (ss m) !!! Z.to_nat i).
Proof.
  intros [[_ [Hl Hn] Hs _ _ _ _] _] Hi. destruct (lookup_lt_is_Some_2 (regions (ss m)) (Z.to_nat i)) as [r E]; [lia|].
  rewrite (list_lookup_total_correct _ _ _ E). split; [done|]. apply (Hs (Z.to_nat i)); [lia|done].
Qed.

Lemma loop_guard n i : 0 <= i < n -> (i <? 0) || (n <=? i) = false.
Proof. intros H. destruct (Z.ltb_spec i 0); [lia|]. by destruct (Z.leb_spec n i); [lia|]. Qed.
Lemma loop_guard_out n i : ~ 0 <= i < n -> (i <? 0) || (n <=? i) = true.
Proof. intros H. destruct (Z.ltb_spec i 0); [done|]. by destruct (Z.leb_spec n i); [|lia]. Qed.

Lemma xor_window_put_wf start n m :
  wf m -> 0 <= start -> 0 <= n -> start + n <= 8192 -> wf (put start (xor_key (derived_key (kdf (ss m))) (window (Z.to_nat start) (Z.to_nat n) (flash (ss m)))) m).
Proof.
  intros H H1 H2 H3. pose proof (flash_length m H). apply wf_put; [done|done| |].
  - rewrite length_xor_key, length_window by lia. unfold SEC_FLASH_PART_SIZE. lia.
  - apply xor_key_u8; [by apply kdf_key_ok|]. by apply Forall_window, flash_u8.
Qed.

Lemma encrypt_region_run i m :
  wf m -> 0 <= i < region_count (ss m) ->
  let r := regions (ss m) !!! Z.to_nat i in
  sec_storage_encrypt_region i m =
    Done (tt, marked i true (put (start_addr r) (xor_key (derived_key (kdf (ss (derived m))))
      (window (Z.to_nat (start_addr r)) (Z.to_nat (Z.min (size r) 512)) (flash (ss m)))) (derived m))).
Proof.
  intros Hm Hi r. destruct (region_at m i Hm Hi) as [E Hr]. fold r in E, Hr. pose proof (wf_derived m Hm) as Hd. pose proof (derived_same m) as (Ef & Er & _).
  unfold sec_storage_encrypt_region, storage. rewrite bind_gets, loop_guard by done. rewrite bind_gets.
  rewrite (bind_step _ _ _ _ _ (derive_when m)). rewrite bind_gets, Er. fold r. rewrite region_span_ok by done. cbv zeta.
  destruct Hr as (H1 & H2 & H3). unfold SEC_FLASH_PART_SIZE in *.
  assert ((if size r <? SEC_FS_BLOCK_SIZE * 8 then size r else SEC_FS_BLOCK_SIZE * 8) = Z.min (size r) 512) as ->.
  { unfold SEC_FS_BLOCK_SIZE. destruct (Z.ltb_spec (size r) (64 * 8)); lia. }
  set (n := Z.min (size r) 512). rewrite (bind_step _ _ _ _ _ (flash_from_ok (start_addr r) (derived m) ltac:(unfold SEC_FLASH_PART_SIZE; lia))).
  pose proof (length_drop_flash (start_addr r) _ Hd ltac:(lia)) as Hlen.
  erewrite bind_step by (apply memcpy_bytes_ok; lia). fold (window (Z.to_nat (start_addr r)) (Z.to_nat n) (flash (ss (derived m)))).
  rewrite Ef in *. pose proof (flash_length m Hm). rewrite bind_gets.
  assert (Z.of_nat (length (window (Z.to_nat (start_addr r)) (Z.to_nat n) (flash (ss m)))) = n) as Hw by (rewrite length_window; lia).
  erewrite bind_step by (apply sec_xor_crypt_ok; unfold SEC_FS_BLOCK_SIZE; lia).
  rewrite take_ge by lia. erewrite bind_step by (apply flash_put_ok; [|rewrite length_xor_key; unfold SEC_FLASH_PART_SIZE]; lia).
  done.
Qed.

Lemma decrypt_region_run i m :
  wf m -> 0 <= i < region_count (ss m) ->
  let r := regions (ss m) !!! Z.to_nat i in
  sec_storage_decrypt_region i m =
    Done (tt, if region_encrypted r then marked i false (put (start_addr r) (xor_key (derived_key (kdf (ss (derived m))))
      (window (Z.to_nat (start_addr r)) (Z.to_nat (size r)) (flash (ss m)))) (derived m)) else m).
Proof.
  intros Hm Hi r. destruct (region_at m i Hm Hi) as [E Hr]. fold r in E, Hr. pose proof (wf_derived m Hm) as Hd. pose proof (derived_same m) as (Ef & Er & _).
  unfold sec_storage_decrypt_region, storage. rewrite bind_gets, loop_guard by done. rewrite bind_gets. fold r.
  destruct (region_encrypted r); [|done]. cbn [negb]. rewrite bind_gets, (bind_step _ _ _ _ _ (derive_when m)). rewrite region_span_ok by done.
  destruct Hr as (H1 & H2 & H3). unfold SEC_FLASH_PART_SIZE in *.
  rewrite (bind_step _ _ _ _ _ (flash_from_ok (start_addr r) (derived m) ltac:(unfold SEC_FLASH_PART_SIZE; lia))). rewrite bind_gets.
  pose proof (length_drop_flash (start_addr r) _ Hd ltac:(lia)) as Hlen. pose proof (flash_length m Hm).
  assert (int_of (size r) = size r) as -> by (unfold int_of; rewrite u32_small; lia).
  erewrite bind_step by (apply sec_xor_crypt_ok; lia).
  rewrite Ef. fold (window (Z.to_nat (start_addr r)) (Z.to_nat (size r)) (flash (ss m))).
  erewrite bind_step by (apply flash_put_ok; [|rewrite length_xor_key, length_window by lia; unfold SEC_FLASH_PART_SIZE]; lia).
  done.
Qed.

(** ** The file system *)

Definition file_offset (f : SecFileEntry) : Z := block_start f * 64.
Definition file_room (f : SecFileEntry) : Z := block_count f * 64.

Lemma entry_numbers k i f :
  entry_wf k i f -> (i < 32)%nat ->
  block_start f *32 SEC_FS_BLOCK_SIZE = file_offset f /\ block_count f *32 SEC_FS_BLOCK_SIZE = file_room f /\ 0 <= file_offset f /\ 0 <= file_room f <= 64 /\
  int_of (file_room f) = file_room f /\ int_of (file_size f) = file_size f /\ 0 <= file_size f <= 64 /\
  ((i < 16)%nat -> file_offset f <= 8192) /\ ((i < 15)%nat -> file_offset f + 64 <= 8192) /\ ((i < 16)%nat -> file_offset f + file_size f <= 8192).
Proof.
  intros (_ & _ & _ & H) Hi. unfold file_offset, file_room, int_of, SEC_FS_BLOCK_SIZE in *. rewrite !u32_small by lia.
  destruct H as [(H1 & H2 & H3)|(H1 & H2 & H3 & H4)]; repeat split; lia.
Qed.

Lemma file_at m i : wf m -> 0 <= i < file_count (ss m) -> exists f, files (ss m) !! Z.to_nat i = Some f /\ entry_wf (keyed m) (Z.to_nat i) f /\ (Z.to_nat i < 32)%nat.
Proof.
  intros [[_ _ _ _ [Hl Hn] He _] _] Hi. destruct (lookup_lt_is_Some_2 (files (ss m)) (Z.to_nat i)) as [f E]; [lia|]. exists f. split; [done|]. split; [by apply He|lia].
Qed.

(** A change to one entry, and to the number of files. *)
Definition with_files (fs : list SecFileEntry) (n : Z) (m : secure_mem) : secure_mem := set_ss (set_file_count n (set_files fs (ss m))) m.
Lemma wf_with_files fs n m :
  wf m -> length fs = 32%nat -> 0 <= n <= 32 -> (forall i f, fs !! i = Some f -> entry_wf (keyed m) i f) -> wf (with_files fs n m).
Proof. intros [[? ? ? ? ? ? ?] Ht] Hl Hn He. split; [|exact Ht]. by constructor. Qed.

Lemma entries_alter (g : SecFileEntry -> SecFileEntry) i m :
  wf m -> (forall f, files (ss m) !! i = Some f -> entry_wf (keyed m) i (g f)) ->
  length (alter g i (files (ss m))) = 32%nat /\ forall j f, alter g i (files (ss m)) !! j = Some f -> entry_wf (keyed m) j f.
Proof.
  intros [[_ _ _ _ [Hl Hn] He _] _] Hg. split; [by rewrite length_alter|]. intros j f E. rewrite list_lookup_alter in E. destruct (decide _) as [<-|]; [|by apply He].
  destruct (files (ss m) !! i) as [f0|] eqn:E0; [|done]. injection E as <-. by apply Hg.
Qed.

Lemma wf_zero_file k i : entry_wf k i zero_file.
Proof. split; [split; [done|by apply Forall_replicate]|]. split; [done|]. split; [done|]. left. done. Qed.

Lemma format_run m : sec_storage_format_fs m = Done (tt, put 0 (replicate 128 0) (with_files (replicate 32 zero_file) 0 m)).
Proof. reflexivity. Qed.
Lemma wf_formatted m : wf m -> wf (put 0 (replicate 128 0) (with_files (replicate 32 zero_file) 0 m)).
Proof.
  intros H. apply wf_put; [|done|done|by apply Forall_replicate]. apply wf_with_files; [done|done|done|]. intros i f E. apply lookup_replicate in E as [-> _]. apply wf_zero_file.
Qed.

Definition entry_name (file_name old : list Z) : list Z := overlay (take 15 file_name ++ [0]) old.
Definition new_entry (file_name : list Z) (m : secure_mem) (f : SecFileEntry) : SecFileEntry :=
  FileEntry (entry_name file_name (name f)) ((file_count (ss m) + 1) * 8) 1 0 (crc f) (keyed m) true.
Definition created (file_name : list Z) (m : secure_mem) : secure_mem :=
  with_files (alter (new_entry file_name m) (Z.to_nat (file_count (ss m))) (files (ss m))) (file_count (ss m) + 1) m.

Lemma create_run file_name m :
  wf m -> sec_storage_file_create file_name m = Done (if file_count (ss m) <? 32 then (file_count (ss m), created file_name m) else (-1, m)).
Proof.
  intros [[_ _ _ _ [_ Hn] _ _] _]. unfold sec_storage_file_create, storage. rewrite bind_gets. unfold SEC_FS_MAX_FILES.
  destruct (Z.leb_spec 32 (file_count (ss m))), (Z.ltb_spec (file_count (ss m)) 32); try lia; [done|]. rewrite bind_gets. unfold change. rewrite bind_modify.
  unfold mret, M_ret, created, new_entry, with_files. cbv zeta. rewrite (u32_small ((file_count (ss m) + 1) * 8)) by lia.
  assert (take (Z.to_nat (if SEC_FS_NAME_MAX <=? Z.of_nat (length file_name) then SEC_FS_NAME_MAX - 1 else Z.of_nat (length file_name))) file_name = take 15 file_name) as ->; [|done].
  unfold SEC_FS_NAME_MAX. destruct (Z.leb_spec 16 (Z.of_nat (length file_name))); [done|]. rewrite !take_ge by lia. done.
Qed.

Lemma wf_created file_name m : wf m -> Forall is_u8 file_name -> file_count (ss m) < 32 -> wf (created file_name m).
Proof.
  intros Hm Hf Hn. assert (0 <= file_count (ss m)) as H0 by (destruct Hm as [[_ _ _ _ [_ H] _ _] _]; lia).
  assert (forall f, files (ss m) !! Z.to_nat (file_count (ss m)) = Some f -> entry_wf (keyed m) (Z.to_nat (file_count (ss m))) (new_entry file_name m f)) as He.
  { intros f E. destruct Hm as [[_ _ _ _ _ He _] _]. destruct (He _ _ E) as ([H1 H2] & H3 & _ & _). split; [|split; [done|split; [done|]]].
    - cbn [new_entry name]. unfold entry_name, overlay. split.
      + rewrite !length_app, length_drop, length_take. cbn [length]. lia.
      + apply Forall_app. split; [|by apply Forall_drop]. apply Forall_app. split; [by apply Forall_take|]. by constructor.
    - right. cbn [new_entry block_start block_count file_size]. repeat split; lia. }
  destruct (entries_alter (new_entry file_name m) _ m Hm He) as [Hl Ha]. apply wf_with_files; [done|done|lia|done].
Qed.

(** The bytes of one write that fit, and what they leave. *)
Definition write_len (f : SecFileEntry) (len : Z) : Z := Z.min (Z.min len (file_room f)) (8192 - file_offset f).
Definition recorded (i n : Z) (bs : list Z) (m : secure_mem) : secure_mem :=
  with_files (alter (fun f => set_crc (crc32_of bs) (set_file_size n f)) (Z.to_nat i) (files (ss m))) (file_count (ss m)) m.

Lemma file_write_run i f data len m :
  wf m -> 0 <= i < file_count (ss m) -> i < 16 -> files (ss m) !! Z.to_nat i = Some f -> Forall is_u8 data -> 0 <= len < 2 ^ 31 ->
  write_len f len <= Z.of_nat (length data) ->
  let enc := cipher (encrypted f && keyed m) m (take (Z.to_nat (write_len f len)) data) in
  sec_storage_file_write i data len m = Done (tt, recorded i (write_len f len) enc (with_table (put (file_offset f) enc m))).
Proof.
  intros Hm Hi Hi16 E Hd Hl Hn enc. destruct (file_at m i Hm Hi) as (f' & E' & Hw & Hi32). rewrite E in E'. injection E' as <-.
  destruct (entry_numbers _ _ _ Hw Hi32) as (Eo & Er & H0 & Hr & Ei & _ & _ & Ho & _). specialize (Ho ltac:(lia)).
  unfold sec_storage_file_write, storage. rewrite bind_gets, loop_guard by done. rewrite bind_assoc, bind_gets, E. cbn [of_option]. rewrite bind_ret. cbv zeta.
  rewrite Eo, Er, Ei. assert ((if len <? file_room f then len else file_room f) = Z.min len (file_room f)) as -> by (destruct (Z.ltb_spec len (file_room f)); lia).
  rewrite (bind_step _ _ _ _ _ (clip_ok (file_offset f) (Z.min len (file_room f)) m ltac:(lia) ltac:(lia))). fold (write_len f len).
  assert (0 <= write_len f len <= 64 /\ file_offset f + write_len f len <= 8192) as Hwl by (unfold write_len; lia). set (n := write_len f len) in *.
  assert (Z.of_nat (length enc) = n) as Hle by (unfold enc; rewrite length_cipher, length_take; lia).
  assert (Forall is_u8 enc) as Hen by (by apply cipher_u8, Forall_take).
  assert (wf (put (file_offset f) enc m)) as Hwp by (apply wf_put; [done|lia|unfold SEC_FLASH_PART_SIZE; lia|done]).
  rewrite bind_gets. fold (keyed m). assert ((if encrypted f && keyed m
    then enc ← sec_xor_crypt (derived_key (kdf (ss m))) data (SEC_FS_BLOCK_SIZE * 4) n; memcpy_bytes enc n else memcpy_bytes data n) m = Done (enc, m)) as Eenc.
  { unfold enc, cipher in *. destruct (encrypted f && keyed m); [|by rewrite memcpy_bytes_ok by lia].
    erewrite bind_step by (apply sec_xor_crypt_ok; unfold SEC_FS_BLOCK_SIZE; lia). rewrite memcpy_bytes_ok by lia. by rewrite take_ge by lia. }
  rewrite (bind_step _ _ _ _ _ Eenc). erewrite bind_step by (apply flash_put_ok; unfold SEC_FLASH_PART_SIZE; lia).
  erewrite bind_step by (apply flash_from_ok; unfold SEC_FLASH_PART_SIZE; lia). pose proof (length_drop_flash (file_offset f) _ Hwp ltac:(lia)).
  erewrite bind_step by (apply crc32_run; [apply Hwp|by apply Forall_drop, flash_u8|lia]).
  fold (window (Z.to_nat (file_offset f)) (Z.to_nat n) (flash (ss (put (file_offset f) enc m)))). cbn [put set_ss ss set_flash flash].
  pose proof (flash_length m Hm). rewrite window_splice_in by lia. rewrite Nat.sub_diag. assert (window 0 (Z.to_nat n) enc = enc) as -> by (rewrite <- Hle, Nat2Z.id; apply window_all).
  rewrite u32_small by lia. done.
Qed.

Lemma wf_recorded i f data len m :
  wf m -> 0 <= i < file_count (ss m) -> i < 16 -> files (ss m) !! Z.to_nat i = Some f -> Forall is_u8 data -> 0 <= len -> write_len f len <= Z.of_nat (length data) ->
  let enc := cipher (encrypted f && keyed m) m (take (Z.to_nat (write_len f len)) data) in
  wf (recorded i (write_len f len) enc (with_table (put (file_offset f) enc m))).
Proof.
  intros Hm Hi Hi16 E Hd Hl Hn enc. destruct (file_at m i Hm Hi) as (f' & E' & Hw & Hi32). rewrite E in E'. injection E' as <-.
  destruct (entry_numbers _ _ _ Hw Hi32) as (_ & _ & H0 & Hr & _ & _ & _ & Ho & _). specialize (Ho ltac:(lia)).
  assert (0 <= write_len f len <= 64 /\ file_offset f + write_len f len <= 8192) as Hwl by (unfold write_len; lia).
  assert (Z.of_nat (length enc) = write_len f len) as Hle by (unfold enc; rewrite length_cipher, length_take; lia).
  assert (Forall is_u8 enc) as Hen by (by apply cipher_u8, Forall_take).
  assert (wf (put (file_offset f) enc m)) as Hwp by (apply wf_put; [done|lia|unfold SEC_FLASH_PART_SIZE; lia|done]).
  apply wf_with_table in Hwp. set (m1 := with_table _) in *. set (g := fun f => set_crc (crc32_of enc) (set_file_size (write_len f len) f)).
  destruct (entries_alter (fun x => set_crc (crc32_of enc) (set_file_size (write_len f len) x)) (Z.to_nat i) m1 Hwp) as [Hlen Ha].
  - intros x Ex. change (files (ss m1)) with (files (ss m)) in Ex. rewrite E in Ex. injection Ex as <-. change (keyed m1) with (keyed m).
    destruct Hw as (Hnm & _ & He & Hc). split; [done|]. split; [unfold is_u32; pose proof (crc32_bound enc Hen); cbn [crc set_crc]; lia|]. split; [done|].
    unfold write_len, file_room, file_offset in *. cbn [block_start block_count file_size set_crc set_file_size].
    destruct Hc as [(C1 & C2 & C3)|(C1 & C2 & C3 & C4)]; [left|right]; repeat split; try lia.
  - apply wf_with_files; [done|done| |done]. destruct Hm as [[_ _ _ _ [_ H] _ _] _]. exact H.
Qed.

Lemma file_read_run i f buf max m :
  wf m -> 0 <= i < file_count (ss m) -> i < 16 -> files (ss m) !! Z.to_nat i = Some f -> 0 <= max <= Z.of_nat (length buf) ->
  let n := Z.min (file_size f) max in
  sec_storage_file_read i buf max m = Done ((n, overlay (cipher (encrypted f && keyed m) m (window (Z.to_nat (file_offset f)) (Z.to_nat n) (flash (ss m)))) buf), m).
Proof.
  intros Hm Hi Hi16 E Hl n. destruct (file_at m i Hm Hi) as (f' & E' & Hw & Hi32). rewrite E in E'. injection E' as <-.
  destruct (entry_numbers _ _ _ Hw Hi32) as (Eo & _ & H0 & _ & _ & Es & Hs & Ho & _ & Hos). specialize (Ho ltac:(lia)). specialize (Hos ltac:(lia)).
  unfold sec_storage_file_read, storage. rewrite bind_gets, loop_guard by done. rewrite bind_assoc, bind_gets, E. cbn [of_option]. rewrite bind_ret. cbv zeta.
  rewrite Eo, Es. assert ((if file_size f <? max then file_size f else max) = n) as -> by (unfold n; destruct (Z.ltb_spec (file_size f) max); lia).
  rewrite bind_gets. erewrite bind_step by (apply flash_from_ok; unfold SEC_FLASH_PART_SIZE; lia). fold (keyed m).
  rewrite (bind_step _ _ _ _ _ (flash_read_run (encrypted f && keyed m) (file_offset f) n (Z.of_nat (length buf)) m Hm ltac:(lia) ltac:(lia) ltac:(lia))).
  pose proof (flash_length m Hm). erewrite bind_step by (apply fill_ok; rewrite length_cipher, length_window; lia). done.
Qed.

Definition deleted (i : Z) (f : SecFileEntry) (m : secure_mem) : secure_mem :=
  let m := put (file_offset f) (replicate (Z.to_nat (file_room f)) 0) m in with_files (<[Z.to_nat i := zero_file]> (files (ss m))) (file_count (ss m)) m.
Lemma delete_run i f m :
  wf m -> 0 <= i < file_count (ss m) -> i < 15 -> files (ss m) !! Z.to_nat i = Some f ->
  sec_storage_file_delete i m = Done (tt, deleted i f m) /\ wf (deleted i f m).
Proof.
  intros Hm Hi Hi15 E. destruct (file_at m i Hm Hi) as (f' & E' & Hw & Hi32). rewrite E in E'. injection E' as <-.
  destruct (entry_numbers _ _ _ Hw Hi32) as (Eo & Er & H0 & Hr & _ & _ & _ & _ & Ho & _). specialize (Ho ltac:(lia)).
  assert (file_offset f + Z.of_nat (length (replicate (Z.to_nat (file_room f)) 0)) <= SEC_FLASH_PART_SIZE) as Hb by (rewrite length_replicate; unfold SEC_FLASH_PART_SIZE; lia). split.
  - unfold sec_storage_file_delete, storage. rewrite bind_gets, loop_guard by done. rewrite bind_assoc, bind_gets, E. cbn [of_option]. rewrite bind_ret, Eo, Er.
    erewrite bind_step by (by apply flash_put_ok). done.
  - unfold deleted. cbv zeta. assert (wf (put (file_offset f) (replicate (Z.to_nat (file_room f)) 0) m)) as Hwp by (by apply wf_put; [| | |apply Forall_replicate]).
    destruct Hm as [[_ _ _ _ [Hl Hn] He _] _]. apply wf_with_files; [done| |done|]; cbn [put set_ss ss set_flash files].
    + by rewrite length_insert.
    + intros j x Ej. destruct (decide (j = Z.to_nat i)) as [->|Hne]; [|rewrite list_lookup_insert_ne in Ej by done; by apply He].
      rewrite list_lookup_insert_eq in Ej by lia. injection Ej as <-. apply wf_zero_file.
Qed.

(** ** All calls *)

Inductive storage_call :=
| KdfDerive | AddRegion (start size perms : Z) (encrypted : bool) | CheckAccess (addr required : Z) | Write (addr : Z) (data : list Z) (len : Z)
| Read (addr : Z) (buf : list Z) (len : Z) | EncryptRegion (i : Z) | DecryptRegion (i : Z) | FormatFs | FileCreate (file_name : list Z)
| FileWrite (i : Z) (data : list Z) (len : Z) | FileRead (i : Z) (buf : list Z) (max_len : Z) | FileDelete (i : Z) | TamperCheck
| MonotonicInc (i : Z) | MonotonicGet (i : Z).

Definition run_call (c : storage_call) : SM unit :=
  match c with
  | KdfDerive => sec_storage_kdf_derive
  | AddRegion start size perms e => sec_storage_add_region start size perms e
  | CheckAccess addr required => sec_storage_check_access addr required;; mret tt
  | Write addr data len => sec_storage_write addr data len
  | Read addr buf len => sec_storage_read addr buf len;; mret tt
  | EncryptRegion i => sec_storage_encrypt_region i
  | DecryptRegion i => sec_storage_decrypt_region i
  | FormatFs => sec_storage_format_fs
  | FileCreate nm => sec_storage_file_create nm;; mret tt
  | FileWrite i data len => sec_storage_file_write i data len
  | FileRead i buf max_len => sec_storage_file_read i buf max_len;; mret tt
  | FileDelete i => sec_storage_file_delete i
  | TamperCheck => sec_storage_tamper_check;; mret tt
  | MonotonicInc i => sec_storage_monotonic_inc i
  | MonotonicGet i => sec_storage_monotonic_get i;; mret tt
  end.
Fixpoint run_calls (cs : list storage_call) : SM unit := match cs with [] => mret tt | c :: cs => run_call c;; run_calls cs end.

(** What a caller has to see to: buffers as long as their lengths say, regions inside the partition, writes and reads of the first sixteen files, deletions of the first fifteen. *)
Definition call_ok (c : storage_call) : Prop :=
  match c with
  | AddRegion start size _ _ => 0 <= start /\ 0 <= size /\ start + size <= SEC_FLASH_PART_SIZE
  | Write _ data len | FileWrite _ data len => Forall is_u8 data /\ 0 <= len <= Z.of_nat (length data) /\ len < 2 ^ 31
  | Read _ buf len | FileRead _ buf len => 0 <= len <= Z.of_nat (length buf) /\ len < 2 ^ 31
  | FileCreate nm => Forall is_u8 nm
  | _ => True
  end /\
  match c with FileWrite i _ _ | FileRead i _ _ => i < 16 | FileDelete i => i < 15 | _ => True end.

Lemma denied_run {A} addr required (x : A) (f : SM A) m :
  access m addr required = false -> (ok ← sec_storage_check_access addr required; if negb ok then mret x else f) m = Done (x, m).
Proof. intros H. unfold sec_storage_check_access, storage. rewrite bind_gets. unfold access in H. by rewrite H. Qed.

Lemma write_safe addr data len m :
  wf m -> Forall is_u8 data -> 0 <= len <= Z.of_nat (length data) -> len < 2 ^ 31 -> exists m', sec_storage_write addr data len m = Done (tt, m') /\ wf m'.
Proof.
  intros Hm Hd Hl Hl2. destruct (access m addr SEC_ACCESS_WRITE) eqn:Ha; [|exists m; unfold sec_storage_write; by rewrite (denied_run addr SEC_ACCESS_WRITE tt _ m Ha)].
  pose proof (access_in_flash _ _ _ Hm Ha) as Haddr. destruct (decide (len = 0)) as [->|Hne].
  - exists m. split; [|done]. unfold sec_storage_write, sec_storage_check_access, storage. rewrite bind_gets. unfold access in Ha. rewrite Ha. cbn [negb].
    rewrite (bind_step _ _ _ _ _ (clip_ok addr 0 m ltac:(lia) ltac:(lia))). by rewrite Z.min_l by lia.
  - rewrite (write_run addr data len m Hm Hd ltac:(lia) Hl2 Ha). eexists. split; [reflexivity|]. set (enc := cipher _ _ _).
    assert (Forall is_u8 enc) as He by (by apply cipher_u8, Forall_take).
    assert (wf (put addr enc m)) as Hw by (apply wf_put; [done|lia|unfold enc; rewrite length_cipher, length_take; unfold SEC_FLASH_PART_SIZE; lia|done]).
    destruct (keyed m); [|exact Hw]. unfold footer. apply wf_put; [by apply wf_with_table|lia| |apply le_bytes_u8]. rewrite length_le_bytes. unfold SEC_FLASH_PART_SIZE. lia.
Qed.

Lemma add_region_safe start size perms e m :
  wf m -> 0 <= start /\ 0 <= size /\ start + size <= SEC_FLASH_PART_SIZE -> exists m', sec_storage_add_region start size perms e m = Done (tt, m') /\ wf m'.
Proof.
  intros Hm Hr. unfold sec_storage_add_region, storage. rewrite bind_gets. unfold SEC_REGION_MAX. destruct (Z.leb_spec 8 (region_count (ss m))); [by exists m|].
  eexists. split; [reflexivity|]. destruct Hm as [[? [Hl Hn] Hs ? ? ? ?] Ht]. split; [|exact Ht]. constructor; try assumption; cbn [set_ss ss set_region_count set_regions regions region_count].
  - split; [by rewrite length_insert|lia].
  - intros i r Hi E. destruct (decide (i = Z.to_nat (region_count (ss m)))) as [->|Hne].
    + rewrite list_lookup_insert_eq in E by lia. injection E as <-. exact Hr.
    + rewrite list_lookup_insert_ne in E by done. apply (Hs i); [lia|done].
Qed.

Lemma region_cipher_safe m i : wf m -> (exists m', sec_storage_encrypt_region i m = Done (tt, m') /\ wf m') /\ (exists m', sec_storage_decrypt_region i m = Done (tt, m') /\ wf m').
Proof.
  intros Hm. destruct (decide (0 <= i < region_count (ss m))) as [Hi|Hi].
  - destruct (region_at m i Hm Hi) as [_ (H1 & H2 & H3)]. unfold SEC_FLASH_PART_SIZE in H3. pose proof (wf_derived m Hm) as Hd. destruct (derived_same m) as [Ef _].
    rewrite encrypt_region_run, decrypt_region_run by done. split; (eexists; split; [reflexivity|]).
    + apply wf_marked. rewrite <- Ef. apply xor_window_put_wf; [done|lia|lia|lia].
    + destruct (region_encrypted _); [|done]. apply wf_marked. rewrite <- Ef. apply xor_window_put_wf; [done|lia|lia|lia].
  - unfold sec_storage_encrypt_region, sec_storage_decrypt_region, storage. rewrite !bind_gets, loop_guard_out by done. split; exists m; done.
Qed.

Lemma tamper_run m :
  wf m -> let stored := le_val (drop (Z.to_nat 8188) (flash (ss m))) in let computed := crc32_of (take (Z.to_nat 8188) (flash (ss m))) in
  sec_storage_tamper_check m =
    if negb (stored =? computed) && negb (stored =? 0) then Done (false, set_ss (set_tamper_detected true (ss m)) (with_table m)) else Done (true, with_table m).
Proof.
  intros Hm stored computed. pose proof (flash_length m Hm). unfold sec_storage_tamper_check, storage. rewrite bind_gets. cbv zeta.
  erewrite bind_step by (apply crc32_run; [apply Hm|by apply flash_u8|unfold SEC_FLASH_PART_SIZE; lia]). change (SEC_FLASH_PART_SIZE - 4) with 8188.
  fold stored computed. by destruct (negb (stored =? computed) && negb (stored =? 0)).
Qed.

Lemma monotonic_safe i m : wf m -> exists m', sec_storage_monotonic_inc i m = Done (tt, m') /\ wf m'.
Proof.
  intros Hm. unfold sec_storage_monotonic_inc. destruct ((i <? 0) || (8 <=? i)); [by exists m|]. eexists. split; [reflexivity|].
  destruct Hm as [[? ? ? ? ? ? [Hl Hc]] Ht]. split; [|exact Ht]. constructor; try assumption; cbn [set_ss ss set_monotonic_counters monotonic_counters].
  split; [by rewrite length_alter|]. apply Forall_alter; [done|]. intros c _ _. apply u64_range.
Qed.

Lemma file_calls_safe m i data buf len :
  wf m -> Forall is_u8 data -> 0 <= len < 2 ^ 31 ->
  (len <= Z.of_nat (length data) -> i < 16 -> exists m', sec_storage_file_write i data len m = Done (tt, m') /\ wf m') /\
  (len <= Z.of_nat (length buf) -> i < 16 -> exists r, sec_storage_file_read i buf len m = Done (r, m)) /\
  (i < 15 -> exists m', sec_storage_file_delete i m = Done (tt, m') /\ wf m').
Proof.
  intros Hm Hd Hl. destruct (decide (0 <= i < file_count (ss m))) as [Hi|Hi].
  - destruct (file_at m i Hm Hi) as (f & E & Hw & H32). repeat split.
    + intros Hb Hi16. assert (write_len f len <= Z.of_nat (length data)) as Hwl by (unfold write_len; lia).
      rewrite (file_write_run i f data len m) by done. eexists. split; [reflexivity|]. apply (wf_recorded i f data len m); try done. lia.
    + intros Hb Hi16. rewrite (file_read_run i f buf len m) by (done || lia). by eexists.
    + intros Hi15. exists (deleted i f m). by apply delete_run.
  - unfold sec_storage_file_write, sec_storage_file_read, sec_storage_file_delete, storage. rewrite !bind_gets, loop_guard_out by done.
    repeat split; intros; [exists m; done|by eexists|exists m; done].
Qed.

Lemma call_safe c m : wf m -> call_ok c -> exists m', run_call c m = Done (tt, m') /\ wf m'.
Proof.
  assert (forall {A} (f : SM A), (exists r m', f m = Done (r, m') /\ wf m') -> exists m', (f;; mret tt) m = Done (tt, m') /\ wf m') as Hret.
  { intros A f (r & m' & E & H). exists m'. by rewrite (bind_step _ _ _ _ _ E). }
  intros Hm [H1 H2]. destruct c; cbn [run_call]; cbn beta iota in H1, H2.
  - rewrite derive_run. eexists. split; [reflexivity|by apply wf_derived].
  - by apply add_region_safe.
  - apply Hret. by do 2 eexists.
  - destruct H1 as (Hd & Hl & Hl2). by apply write_safe.
  - apply Hret. destruct H1 as [Hl Hl2]. destruct (access m addr SEC_ACCESS_READ) eqn:Ha.
    + rewrite read_run by done. by do 2 eexists.
    + unfold sec_storage_read. rewrite (denied_run addr SEC_ACCESS_READ buf _ m Ha). by do 2 eexists.
  - apply (region_cipher_safe m i Hm).
  - apply (region_cipher_safe m i Hm).
  - rewrite format_run. eexists. split; [reflexivity|by apply wf_formatted].
  - apply Hret. rewrite create_run by done. destruct (Z.ltb_spec (file_count (ss m)) 32); do 2 eexists; (split; [reflexivity|]); [by apply wf_created|done].
  - destruct H1 as (Hd & Hl & Hl2). apply (file_calls_safe m i data [] len Hm Hd ltac:(lia)); [lia|done].
  - apply Hret. destruct H1 as (Hl & Hl2). destruct (proj1 (proj2 (file_calls_safe m i [] buf max_len Hm (Forall_nil_2 _) ltac:(lia)))) as [r E]; [lia|done|]. by exists r, m.
  - by apply (file_calls_safe m i [] [] 0 Hm (Forall_nil_2 _)).
  - apply Hret. rewrite tamper_run by done. pose proof (wf_with_table m Hm) as [Hw Ht]. destruct (_ && _); do 2 eexists; (split; [reflexivity|]); [|by split].
    destruct Hw. split; [by constructor|exact Ht].
  - by apply monotonic_safe.
  - apply Hret. unfold sec_storage_monotonic_get. destruct ((i <? 0) || (8 <=? i)); by do 2 eexists.
Qed.

Lemma init_run secret m :
  (32 <= length secret)%nat -> Forall is_u8 secret -> table_ok m -> exists m', sec_storage_init secret m = Done (tt, m') /\ wf m' /\ keyed m' = false.
Proof.
  intros Hl Hs Ht. unfold sec_storage_init. rewrite (bind_step _ _ _ _ _ (memcpy_bytes_ok secret 32 m ltac:(lia))). eexists. split; [reflexivity|]. split; [|done].
  split; [|exact Ht]. constructor; cbn [set_ss ss flash regions region_count kdf files file_count monotonic_counters].
  - split; [rewrite length_replicate; unfold SEC_FLASH_PART_SIZE; lia|by apply Forall_replicate].
  - done.
  - intros i r Hi. lia.
  - split; [split; [cbn [device_secret]; rewrite length_take; lia|by apply Forall_take]|]. split; split; (done || by apply Forall_replicate).
  - done.
  - intros i f E. apply lookup_replicate in E as [-> _]. apply wf_zero_file.
  - split; [done|by apply Forall_replicate].
Qed.

Lemma run_calls_safe cs m : wf m -> Forall call_ok cs -> exists m', run_calls cs m = Done (tt, m') /\ wf m'.
Proof.
  revert m. induction cs as [|c cs IH]; intros m Hm Hc; cbn [run_calls]; [by exists m|]. apply Forall_cons in Hc as [H1 H2].
  destruct (call_safe c m Hm H1) as (m1 & E & Hm1). rewrite (bind_step _ _ _ _ _ E). by apply IH.
Qed.

(** Deleting a file past the fifteenth, one that stands, clears bytes beyond the partition. *)
Lemma delete_past i f m : wf m -> 15 <= i < file_count (ss m) -> files (ss m) !! Z.to_nat i = Some f -> block_count f <> 0 -> sec_storage_file_delete i m = UB.
Proof.
  intros Hm Hi E Hbc. destruct (file_at m i Hm ltac:(lia)) as (f' & E' & Hw & Hi32). rewrite E in E'. injection E' as <-. destruct (entry_numbers _ _ _ Hw Hi32) as (Eo & Er & _).
  assert (block_start f = (i + 1) * 8 /\ block_count f = 1) as [Hbs Hb1] by (destruct Hw as (_ & _ & _ & [(_ & C2 & _)|(C1 & C2 & _)]); [done|lia]).
  unfold sec_storage_file_delete, storage. rewrite bind_gets, loop_guard by lia. rewrite bind_assoc, bind_gets, E. cbn [of_option]. rewrite bind_ret, Eo, Er.
  assert (file_offset f = (i + 1) * 512 /\ file_room f = 64) as [Ho Hr] by (unfold file_offset, file_room; lia).
  unfold mbind at 1, M_bind at 1, flash_put, SEC_FLASH_PART_SIZE. rewrite length_replicate. by destruct (Z.ltb_spec 8192 (file_offset f + Z.of_nat (Z.to_nat (file_room f)))); [|lia].
Qed.

(** C19: the storage is well formed after any calls.  From initialisation on, every sequence of calls whose buffers are as long as their lengths say, whose
    regions lie in the partition, which write and read only the first sixteen files and delete only the first fifteen runs without undefined behaviour, and leaves the flash 8192 bytes, the tables
    within their sizes, files inside their blocks, key material bytes of the right lengths and the counters in 64 bits.  Fifteen is the limit: deleting any later file that
    stands is undefined, for its block lies behind the partition. *)
Theorem storage_calls_safe secret cs m :
  (32 <= length secret)%nat -> Forall is_u8 secret -> table_ok m -> Forall call_ok cs ->
  exists m', (sec_storage_init secret;; run_calls cs) m = Done (tt, m') /\ storage_wf (ss m') /\ table_ok m' /\
    forall i f, 15 <= i < file_count (ss m') -> files (ss m') !! Z.to_nat i = Some f -> block_count f <> 0 -> sec_storage_file_delete i m' = UB.
Proof.
  intros Hl Hs Ht Hc. destruct (init_run secret m Hl Hs Ht) as (m1 & E & Hm & _). rewrite (bind_step _ _ _ _ _ E). destruct (run_calls_safe cs m1 Hm Hc) as (m' & E' & Hw).
  exists m'. split; [exact E'|]. split; [apply Hw|]. split; [apply Hw|]. intros i f Hi Ef Hb. by apply (delete_past i f).
Qed.

(** ** The file system as a list of contents *)

Inductive file_call := FDerive | FCreate (file_name : list Z) | FWrite (i : Z) (data : list Z) | FRead (i : Z) (n : nat) | FDelete (i : Z).
(** The returned value and the bytes read. *)
Definition run_file_call (c : file_call) : SM (Z * list Z) :=
  match c with
  | FDerive => sec_storage_kdf_derive;; mret (0, [])
  | FCreate nm => i ← sec_storage_file_create nm; mret (i, [])
  | FWrite i data => sec_storage_file_write i data (Z.of_nat (length data));; mret (0, [])
  | FRead i n => '(r, out) ← sec_storage_file_read i (replicate n 0) (Z.of_nat n); mret (r, take (Z.to_nat r) out)
  | FDelete i => sec_storage_file_delete i;; mret (0, [])
  end.
Fixpoint run_file_calls (cs : list file_call) : SM (list (Z * list Z)) :=
  match cs with [] => mret [] | c :: cs => r ← run_file_call c; rs ← run_file_calls cs; mret (r :: rs) end.

(** The specification: the contents in order of creation, [None] for a deleted file, whose number is not used again. *)
Notation file_store := (list (option (list Z))).
Definition at_file (i : Z) : option nat := if i <? 0 then None else Some (Z.to_nat i).
Definition spec_file_call (c : file_call) (a : file_store) : (Z * list Z) * file_store :=
  match c with
  | FDerive => (0, [], a)
  | FCreate _ => (Z.of_nat (length a), [], a ++ [Some []])
  | FWrite i data => (0, [], match at_file i with Some j => alter (fmap (fun _ => take 64 data)) j a | None => a end)
  | FRead i n => (match at_file i ≫= (a !!.) with Some (Some c) => (Z.of_nat (length (take n c)), take n c) | _ => (0, []) end, a)
  | FDelete i => (0, [], match at_file i with Some j => <[j := None]> a | None => a end)
  end.
Fixpoint spec_file_calls (cs : list file_call) (a : file_store) : list (Z * list Z) * file_store :=
  match cs with [] => ([], a) | c :: cs => let '(r, a) := spec_file_call c a in let '(rs, a) := spec_file_calls cs a in (r :: rs, a) end.

Definition file_call_ok (c : file_call) : Prop :=
  match c with FWrite _ data => Forall is_u8 data /\ Z.of_nat (length data) < 2 ^ 31 | FCreate nm => Forall is_u8 nm | FRead _ n => Z.of_nat n < 2 ^ 31 | _ => True end.
Fixpoint creations (cs : list file_call) : nat := match cs with [] => 0 | FCreate _ :: cs => S (creations cs) | _ :: cs => creations cs end.

Definition entry_rel (m : secure_mem) (i : nat) (o : option (list Z)) (f : SecFileEntry) : Prop :=
  match o with
  | Some c => block_start f = (Z.of_nat i + 1) * 8 /\ block_count f = 1 /\ file_size f = Z.of_nat (length c) /\
      cipher (encrypted f && keyed m) m (window (Z.to_nat (file_offset f)) (length c) (flash (ss m))) = c
  | None => block_start f = 0 /\ block_count f = 0 /\ file_size f = 0
  end.
Record files_rel (a : file_store) (m : secure_mem) : Prop := {
  fr_wf : wf m;
  fr_count : file_count (ss m) = Z.of_nat (length a) /\ (length a <= 15)%nat;
  fr_entries : forall i o, a !! i = Some o -> exists f, files (ss m) !! i = Some f /\ entry_rel m i o f }.

(** An entry is not affected by bytes written elsewhere. *)
Lemma entry_frame m m' off bs i o f :
  wf m -> entry_wf (keyed m) i f -> (i < 15)%nat -> kdf (ss m') = kdf (ss m) -> flash (ss m') = splice off bs (flash (ss m)) -> Z.of_nat (off + length bs) <= 8192 ->
  (is_Some o -> off + length bs <= (i + 1) * 512 \/ (i + 1) * 512 + 64 <= off)%nat ->
  entry_rel m i o f -> entry_rel m' i o f.
Proof.
  intros Hm Hw Hi Hk Hf Hb Hd. destruct o as [c|]; [|done]. intros (H1 & H2 & H3 & H4). split; [done|]. split; [done|]. split; [done|].
  pose proof (flash_length m Hm). destruct Hw as (_ & _ & _ & [(C1 & _)|(_ & _ & C3 & _)]); [lia|].
  unfold cipher, keyed in *. rewrite Hk, Hf. rewrite window_splice_out; [exact H4|lia|]. unfold file_offset. specialize (Hd ltac:(by eexists)). lia.
Qed.

Lemma fr_lookup a m i : files_rel a m -> 0 <= i < file_count (ss m) -> exists o f,
  a !! Z.to_nat i = Some o /\ files (ss m) !! Z.to_nat i = Some f /\ entry_rel m (Z.to_nat i) o f /\ entry_wf (keyed m) (Z.to_nat i) f /\ (Z.to_nat i < 15)%nat.
Proof.
  intros [Hm [Hc Hl] He] Hi. destruct (lookup_lt_is_Some_2 a (Z.to_nat i)) as [o Ho]; [lia|]. destruct (He _ _ Ho) as (f & E & H). exists o, f.
  destruct (file_at m i Hm Hi) as (f' & E' & Hw & _). rewrite E in E'. injection E' as <-. split_and!; try done. lia.
Qed.

(** The abstract counterpart of a file's block. *)
Lemma entry_block m i o f : entry_rel m i o f -> match o with Some c => file_offset f = (Z.of_nat i + 1) * 512 /\ file_room f = 64 | None => file_offset f = 0 /\ file_room f = 0 end.
Proof. unfold file_offset, file_room. destruct o as [c|]; cbn; lia. Qed.

(** The relation after file [i] changed: its own entry and block, and nothing else. *)
Lemma files_rel_update a m m' i o o' f f' off bs :
  files_rel a m -> a !! i = Some o -> files (ss m) !! i = Some f -> wf m' -> file_count (ss m') = file_count (ss m) -> kdf (ss m') = kdf (ss m) ->
  files (ss m') = <[i := f']> (files (ss m)) -> flash (ss m') = splice off bs (flash (ss m)) ->
  Z.of_nat (off + length bs) <= 8192 -> (off + length bs = 0 \/ off = (i + 1) * 512 /\ length bs <= 64)%nat -> entry_rel m' i o' f' ->
  files_rel (<[i := o']> a) m'.
Proof.
  intros [Hm [Hc Hl] He] Ho E Hm' Hc' Hk Hf Hfl Hb Hblk Hi. constructor; [done|by rewrite length_insert, Hc'|]. intros j x Hj. rewrite Hf.
  pose proof (lookup_lt_Some _ _ _ Ho). pose proof (lookup_lt_Some _ _ _ E). destruct (decide (j = i)) as [->|Hne].
  - rewrite list_lookup_insert_eq in Hj by done. injection Hj as <-. exists f'. by rewrite list_lookup_insert_eq by done.
  - rewrite list_lookup_insert_ne in Hj by done. destruct (He j x Hj) as (g & Eg & Hg). exists g. rewrite list_lookup_insert_ne by done. split; [done|].
    pose proof (lookup_lt_Some _ _ _ Hj). apply (entry_frame m m' off bs j x g); try done; [|lia|].
    + destruct Hm as [[_ _ _ _ _ Hew _] _]. by apply Hew.
    + intros _. lia.
Qed.

Lemma step_derive a m : files_rel a m -> files_rel a (derived m).
Proof.
  intros [Hm Hc He]. destruct (derived_same m) as (Ef & _ & Efi & Efc & _). constructor; [by apply wf_derived|by rewrite Efc|]. intros i o Hi. rewrite Efi.
  destruct (He i o Hi) as (f & E & Hf). exists f. split; [done|]. unfold derived. destruct (keyed m) eqn:Ek; [done|].
  destruct o as [c|]; [|done]. destruct Hf as (H1 & H2 & H3 & H4). split; [done|]. split; [done|]. split; [done|]. destruct Hm as [[_ _ _ _ _ Hew _] _]. destruct (Hew _ _ E) as (_ & _ & Hne & _). fold (keyed m) in Hne. rewrite Ek in Hne.
  destruct (encrypted f); [by specialize (Hne eq_refl)|exact H4].
Qed.

Lemma step_create nm a m :
  files_rel a m -> Forall is_u8 nm -> (length a < 15)%nat -> sec_storage_file_create nm m = Done (Z.of_nat (length a), created nm m) /\ files_rel (a ++ [Some []]) (created nm m).
Proof.
  intros [Hm [Hc Hl] He] Hn Hl15. split.
  - rewrite create_run, Hc by done. by destruct (Z.ltb_spec (Z.of_nat (length a)) 32); [|lia].
  - constructor; [apply wf_created; [done|done|lia]|rewrite length_app; cbn [created with_files set_ss ss set_file_count file_count length]; lia|].
    intros i o Hi. cbn [created with_files set_ss ss set_file_count set_files files]. rewrite Hc, Nat2Z.id. destruct (decide (i = length a)) as [->|Hne].
    + rewrite lookup_app_r, Nat.sub_diag in Hi by done. injection Hi as <-. destruct (lookup_lt_is_Some_2 (files (ss m)) (length a)) as [f E].
      { destruct Hm as [[_ _ _ _ [Hlf _] _ _] _]. lia. }
      exists (new_entry nm m f). rewrite list_lookup_alter_eq, E. split; [done|]. cbn [entry_rel new_entry block_start block_count file_size encrypted]. rewrite Hc.
      split; [done|]. split; [done|]. split; [done|]. unfold window. cbn [length take]. apply length_zero_iff_nil. by rewrite length_cipher.
    + pose proof (lookup_lt_Some _ _ _ Hi) as Hlt. rewrite length_app in Hlt. cbn [length] in Hlt. rewrite lookup_app_l in Hi by lia.
      destruct (He i o Hi) as (f & E & Hf). exists f. rewrite list_lookup_alter_ne by lia. by destruct o.
Qed.

Lemma list_insert_alter {A} (g : A -> A) i x (l : list A) : l !! i = Some x -> alter g i l = <[i := g x]> l.
Proof.
  intros E. apply list_eq. intros j. rewrite list_lookup_alter. pose proof (lookup_lt_Some _ _ _ E). destruct (decide (i = j)) as [<-|Hne].
  - by rewrite E, list_lookup_insert_eq.
  - by rewrite list_lookup_insert_ne.
Qed.

Lemma spec_index i a m : files_rel a m -> ~ 0 <= i < file_count (ss m) -> at_file i = None \/ exists j, at_file i = Some j /\ a !! j = None /\ (length a <= j)%nat.
Proof.
  intros [_ [Hc _] _] Hi. unfold at_file. destruct (Z.ltb_spec i 0); [by left|]. right. exists (Z.to_nat i). split; [done|]. split; [apply lookup_ge_None|]; lia.
Qed.
Lemma spec_index_in i : 0 <= i -> at_file i = Some (Z.to_nat i).
Proof. intros H. unfold at_file. by destruct (Z.ltb_spec i 0); [lia|]. Qed.

Lemma step_write i data a m :
  files_rel a m -> Forall is_u8 data -> Z.of_nat (length data) < 2 ^ 31 ->
  exists m', sec_storage_file_write i data (Z.of_nat (length data)) m = Done (tt, m') /\ files_rel (spec_file_call (FWrite i data) a).2 m'.
Proof.
  intros Hr Hd Hl. pose proof (fr_wf _ _ Hr) as Hm. cbn [spec_file_call snd]. destruct (decide (0 <= i < file_count (ss m))) as [Hi|Hi].
  2:{ exists m. split; [unfold sec_storage_file_write, storage; by rewrite bind_gets, loop_guard_out|]. destruct (spec_index i a m Hr Hi) as [->|(j & -> & Hj & Hlen)]; [done|].
      assert (alter (fmap (fun _ => take 64 data)) j a = a) as ->; [|done]. apply list_eq. intros k. rewrite list_lookup_alter. destruct (decide _) as [<-|]; [by rewrite Hj|done]. }
  destruct (fr_lookup a m i Hr Hi) as (o & f & Ho & E & He & Hw & H15). pose proof (flash_length m Hm). pose proof (entry_block _ _ _ _ He) as Hb.
  set (n := write_len f (Z.of_nat (length data))). assert (0 <= n <= Z.of_nat (length data) /\ file_offset f + n <= 8192 /\ n <= 64) as Hn by (unfold n, write_len; destruct o; lia).
  rewrite (file_write_run i f data (Z.of_nat (length data)) m) by (done || (fold n; lia) || lia). fold n. set (enc := cipher _ m _). set (m' := recorded _ _ _ _).
  exists m'. split; [done|]. rewrite spec_index_in by lia. assert (length enc = Z.to_nat n) as Hle by (unfold enc; rewrite length_cipher, length_take; lia).
  rewrite (list_insert_alter _ _ _ _ Ho). set (f' := set_crc (crc32_of enc) (set_file_size n f)).
  apply (files_rel_update a m m' (Z.to_nat i) o _ f f' (Z.to_nat (file_offset f)) enc); try done.
  - apply (wf_recorded i f data (Z.of_nat (length data)) m); try done; (fold n; lia) || lia.
  - cbn [m' recorded with_files set_ss ss set_file_count set_files files]. rewrite (list_insert_alter _ _ f); [done|exact E].
  - lia.
  - destruct o; unfold n, write_len in *; lia.
  - destruct o as [c|]; cbn [fmap option_fmap option_map]; [|unfold f'; cbn; unfold n, write_len; destruct He as (?&?&?); split_and!; lia].
    destruct He as (H1 & H2 & H3 & H4). assert (n = Z.min (Z.of_nat (length data)) 64) as En by (unfold n, write_len; lia).
    assert (take (Z.to_nat n) data = take 64 data) as Et.
    { destruct (decide (length data <= 64)%nat); [rewrite !take_ge by lia; done|]. by replace (Z.to_nat n) with 64%nat by lia. }
    split; [done|]. split; [done|]. split; [unfold f'; cbn [file_size set_crc set_file_size]; rewrite length_take; lia|].
    change (file_offset f') with (file_offset f). change (encrypted f') with (encrypted f). change (keyed m') with (keyed m).
    change (flash (ss m')) with (splice (Z.to_nat (file_offset f)) enc (flash (ss m))). change (cipher (encrypted f && keyed m) m') with (cipher (encrypted f && keyed m) m).
    rewrite window_splice_in by (rewrite ?length_take; lia). rewrite Nat.sub_diag. rewrite <- Et. replace (length (take (Z.to_nat n) data)) with (length enc) by (rewrite length_take; lia).
    rewrite window_all. unfold enc. apply cipher_involutive.
Qed.

Lemma step_delete i a m :
  files_rel a m -> exists m', sec_storage_file_delete i m = Done (tt, m') /\ files_rel (spec_file_call (FDelete i) a).2 m'.
Proof.
  intros Hr. pose proof (fr_wf _ _ Hr) as Hm. cbn [spec_file_call snd]. destruct (decide (0 <= i < file_count (ss m))) as [Hi|Hi].
  2:{ exists m. split; [unfold sec_storage_file_delete, storage; by rewrite bind_gets, loop_guard_out|]. destruct (spec_index i a m Hr Hi) as [->|(j & -> & _ & Hj)]; [done|].
      by rewrite list_insert_ge by lia. }
  destruct (fr_lookup a m i Hr Hi) as (o & f & Ho & E & He & Hw & H15). pose proof (entry_block _ _ _ _ He) as Hb.
  destruct (delete_run i f m Hm Hi ltac:(lia) E) as [Er Hw']. exists (deleted i f m). split; [done|]. rewrite spec_index_in by lia.
  apply (files_rel_update a m _ (Z.to_nat i) o None f zero_file (Z.to_nat (file_offset f)) (replicate (Z.to_nat (file_room f)) 0)); try done.
  - rewrite length_replicate. destruct o; lia.
  - rewrite length_replicate. destruct o; lia.
Qed.

Lemma take_overlay bs buf : take (length bs) (overlay bs buf) = bs.
Proof. unfold overlay. apply take_app_length. Qed.

Lemma step_read i n a m :
  files_rel a m -> Z.of_nat n < 2 ^ 31 -> run_file_call (FRead i n) m = Done ((spec_file_call (FRead i n) a).1, m).
Proof.
  intros Hr Hn. pose proof (fr_wf _ _ Hr) as Hm. cbn [spec_file_call fst run_file_call]. destruct (decide (0 <= i < file_count (ss m))) as [Hi|Hi].
  2:{ assert (sec_storage_file_read i (replicate n 0) (Z.of_nat n) m = Done ((0, replicate n 0), m)) as E by (unfold sec_storage_file_read, storage; by rewrite bind_gets, loop_guard_out).
      rewrite (bind_step _ _ _ _ _ E). destruct (spec_index i a m Hr Hi) as [->|(j & -> & Hj & _)]; [done|]. cbn [mbind option_bind]. by rewrite Hj. }
  destruct (fr_lookup a m i Hr Hi) as (o & f & Ho & E & He & Hw & H15). pose proof (flash_length m Hm). rewrite spec_index_in by lia. cbn [mbind option_bind]. rewrite Ho.
  rewrite (bind_step _ _ _ _ _ (file_read_run i f (replicate n 0) (Z.of_nat n) m Hm Hi ltac:(lia) E ltac:(rewrite length_replicate; lia))). cbn beta iota.
  unfold mret, M_ret. destruct o as [c|].
  - destruct He as (H1 & H2 & H3 & H4). set (k := Z.min (file_size f) (Z.of_nat n)). assert (Z.to_nat k = Nat.min n (length c)) as Ek by lia.
    assert (cipher (encrypted f && keyed m) m (window (Z.to_nat (file_offset f)) (Z.to_nat k) (flash (ss m))) = take n c) as ->.
    { rewrite <- H4, take_cipher. f_equal. unfold window. rewrite take_take. f_equal. lia. }
    assert (Z.to_nat k = length (take n c)) as Ek' by (rewrite length_take; lia). rewrite Ek', take_overlay. do 3 f_equal. lia.
  - destruct He as (_ & _ & H3). rewrite H3. assert (Z.min 0 (Z.of_nat n) = 0) as -> by lia. done.
Qed.

Lemma step_file_call c a m :
  files_rel a m -> file_call_ok c -> (length a + creations [c] <= 15)%nat ->
  exists m', run_file_call c m = Done ((spec_file_call c a).1, m') /\ files_rel (spec_file_call c a).2 m' /\ length (spec_file_call c a).2 = (length a + creations [c])%nat.
Proof.
  intros Hr Hok Hl. destruct c as [|nm|i data|i n|i]; cbn [creations] in *.
  - exists (derived m). cbn [run_file_call]. rewrite (bind_step _ _ _ _ _ (derive_run m)). split_and!; [done|by apply step_derive|cbn; lia].
  - destruct (step_create nm a m Hr Hok ltac:(lia)) as [E Hr']. exists (created nm m). cbn [run_file_call]. rewrite (bind_step _ _ _ _ _ E).
    split_and!; [done|done|]. cbn [spec_file_call snd]. by rewrite length_app.
  - destruct Hok as [Hd Hd2]. destruct (step_write i data a m Hr Hd Hd2) as (m' & E & Hr'). exists m'. cbn [run_file_call]. rewrite (bind_step _ _ _ _ _ E).
    split_and!; [done|done|]. cbn [spec_file_call snd]. destruct (at_file i); rewrite ?length_alter; lia.
  - exists m. rewrite (step_read i n a m Hr Hok). split_and!; [done|done|cbn; lia].
  - destruct (step_delete i a m Hr) as (m' & E & Hr'). exists m'. cbn [run_file_call]. rewrite (bind_step _ _ _ _ _ E).
    split_and!; [done|done|]. cbn [spec_file_call snd]. destruct (at_file i); rewrite ?length_insert; lia.
Qed.

Lemma run_file_calls_ok cs a m :
  files_rel a m -> Forall file_call_ok cs -> (length a + creations cs <= 15)%nat ->
  exists m', run_file_calls cs m = Done ((spec_file_calls cs a).1, m') /\ files_rel (spec_file_calls cs a).2 m'.
Proof.
  revert a m. induction cs as [|c cs IH]; intros a m Hr Hok Hl; [by exists m|]. apply Forall_cons in Hok as [Hc Hok].
  assert (creations (c :: cs) = creations [c] + creations cs)%nat as Ec by (destruct c; done).
  destruct (step_file_call c a m Hr Hc ltac:(lia)) as (m1 & E1 & Hr1 & Hl1). cbn [run_file_calls spec_file_calls]. rewrite (bind_step _ _ _ _ _ E1).
  destruct (spec_file_call c a) as [r a1]. cbn [fst snd] in *. destruct (IH a1 m1 Hr1 Hok ltac:(lia)) as (m2 & E2 & Hr2). rewrite (bind_step _ _ _ _ _ E2).
  exists m2. by destruct (spec_file_calls cs a1) as [rs a2].
Qed.

(** C17: the file system is a list of contents.  From a formatted storage, any sequence of calls that creates at most fifteen files returns what the
    specification returns: files are numbered in order of creation, a write leaves the first 64 bytes of its data and nothing of what was there before, a
    read gives them back, deleted files stay deleted and their numbers unused, calls on other numbers do nothing, and a key derived on the way, after which new
    files are stored enciphered, is not seen. *)
Theorem secure_files_refine cs m :
  wf m -> Forall file_call_ok cs -> (creations cs <= 15)%nat ->
  exists m', (sec_storage_format_fs;; run_file_calls cs) m = Done ((spec_file_calls cs []).1, m') /\ files_rel (spec_file_calls cs []).2 m'.
Proof.
  intros Hm Hok Hc. rewrite (bind_step _ _ _ _ _ (format_run m)). apply run_file_calls_ok; [|done|done].
  constructor; [by apply wf_formatted|cbn; lia|]. by intros i o [=].
Qed.

(** ** The other properties *)

(** A write is read back.  With permission to write at an address, [len] bytes that end before the checksum's four are stored, enciphered once a key is
    derived, every other byte before the checksum stays, and a read with permission gives them back; without permission nothing is written and nothing read.  Only
    the first address is looked at: the bytes may run on into a region that may not be written. *)
Theorem storage_write_read addr data len buf m :
  wf m -> Forall is_u8 data -> 0 < len <= Z.of_nat (length data) -> len <= Z.of_nat (length buf) -> 0 <= addr -> addr + len <= 8188 ->
  (access m addr SEC_ACCESS_WRITE = true -> exists m', sec_storage_write addr data len m = Done (tt, m') /\ wf m' /\
     (access m addr SEC_ACCESS_READ = true -> sec_storage_read addr buf len m' = Done (overlay (take (Z.to_nat len) data) buf, m')) /\
     (forall j, j < 8188 -> ~ addr <= j < addr + len -> flash (ss m') !! Z.to_nat j = flash (ss m) !! Z.to_nat j \/ j < 0)) /\
  (access m addr SEC_ACCESS_WRITE = false -> sec_storage_write addr data len m = Done (tt, m)) /\
  (access m addr SEC_ACCESS_READ = false -> sec_storage_read addr buf len m = Done (buf, m)).
Proof.
  intros Hm Hd Hl Hb Ha Hal. split; [|split; intros Hx; [unfold sec_storage_write|unfold sec_storage_read]; by rewrite denied_run]. intros Hw.
  pose proof (write_run addr data len m Hm Hd Hl ltac:(lia) Hw) as E. cbv zeta in E. rewrite Z.min_l in E by lia. set (enc := cipher _ m _) in E.
  assert (Z.of_nat (length enc) = len) as Hle by (unfold enc; rewrite length_cipher, length_take; lia). pose proof (flash_length m Hm) as Hfl.
  destruct (write_safe addr data len m Hm Hd ltac:(lia) ltac:(lia)) as (m1 & E1 & Hm1). rewrite E in E1. injection E1 as E1.
  exists m1. split; [rewrite E; by f_equal; f_equal|]. split; [done|].
  assert (flash (ss m1) = (if keyed m then splice (Z.to_nat 8188) (le_bytes 4 (crc32_of enc)) else id) (splice (Z.to_nat addr) enc (flash (ss m)))) as Ef
    by (subst m1; by destruct (keyed m)).
  assert (kdf (ss m1) = kdf (ss m) /\ access m1 = access m) as [Ek Eacc] by (subst m1; by destruct (keyed m)).
  assert (length (splice (Z.to_nat addr) enc (flash (ss m))) = length (flash (ss m))) as Hsl by (apply length_splice; lia). split.
  - intros Hr. rewrite <- Eacc in Hr. rewrite (read_run addr buf len m1 Hm1 ltac:(lia) ltac:(lia) Hr). rewrite Z.min_l by lia. do 3 f_equal.
    assert (window (Z.to_nat addr) (Z.to_nat len) (flash (ss m1)) = enc) as ->.
    { rewrite Ef. destruct (keyed m); unfold id; rewrite ?window_splice_out by (rewrite ?Hsl, ?length_le_bytes; lia).
      all: rewrite window_splice_in by lia; rewrite Nat.sub_diag, <- Hle, Nat2Z.id; apply window_all. }
    unfold keyed, cipher, enc in *. rewrite Ek. apply cipher_involutive.
  - intros j Hj Hout. destruct (decide (j < 0)); [by right|left]. rewrite Ef. destruct (keyed m); unfold id.
    + rewrite lookup_splice by (rewrite Hsl, length_le_bytes; lia). rewrite decide_False by (rewrite length_le_bytes; lia).
      rewrite lookup_splice by lia. by rewrite decide_False by lia.
    + rewrite lookup_splice by lia. by rewrite decide_False by lia.
Qed.

(** Enciphering a region and deciphering it again gives back the first 512 bytes and leaves every byte outside, but a longer region comes out with the
    rest XORed with the key: one direction stops after 512 bytes, the other does not. *)
Theorem region_cipher_roundtrip i m :
  wf m -> 0 <= i < region_count (ss m) ->
  let r := regions (ss m) !!! Z.to_nat i in let key := derived_key (kdf (ss (derived m))) in
  exists m', (sec_storage_encrypt_region i;; sec_storage_decrypt_region i) m = Done (tt, m') /\ wf m' /\
    forall j, flash (ss m') !! j = if decide (start_addr r + 512 <= Z.of_nat j < start_addr r + size r)
      then (fun b => Z.lxor b (at_ key ((Z.of_nat j - start_addr r) mod 32))) <$> flash (ss m) !! j else flash (ss m) !! j.
Proof.
  intros Hm Hi r key. destruct (region_at m i Hm Hi) as [E (H1 & H2 & H3)]. fold r in E, H1, H2, H3. unfold SEC_FLASH_PART_SIZE in H3.
  destruct (proj1 (region_cipher_safe m i Hm)) as (m1 & E1 & Hm1). pose proof (encrypt_region_run i m Hm Hi) as Er. cbv zeta in Er. fold r key in Er.
  rewrite E1 in Er. injection Er as Em1. rewrite (bind_step _ _ _ _ _ E1). destruct (derived_same m) as (Ef & Er & _ & _ & Ec).
  assert (region_count (ss m1) = region_count (ss m)) as Ec1 by (subst m1; exact Ec).
  assert (regions (ss m1) !! Z.to_nat i = Some (set_region_encrypted true r)) as Er1.
  { subst m1. cbn [marked put set_ss ss set_regions set_flash regions]. by rewrite list_lookup_alter_eq, Er, E. }
  assert (regions (ss m1) !!! Z.to_nat i = set_region_encrypted true r) as Et by (by apply list_lookup_total_correct).
  destruct (proj2 (region_cipher_safe m1 i Hm1)) as (m2 & E2 & Hm2). exists m2. split; [done|]. split; [done|]. intros j.
  rewrite (decrypt_region_run i m1 Hm1) in E2 by lia. cbv zeta in E2. rewrite Et in E2. cbn [set_region_encrypted region_encrypted start_addr size] in E2.
  assert (keyed m1 = true) as Hk1 by (subst m1; apply (keyed_derived m)). assert (derived m1 = m1) as Ed by (unfold derived; by rewrite Hk1). rewrite Ed in E2.
  assert (derived_key (kdf (ss m1)) = key) as Ekey by (by subst m1). rewrite Ekey in E2. injection E2 as E2.
  pose proof (flash_length m Hm) as Hl. pose proof (flash_length m1 Hm1) as Hl1. set (n := Z.min (size r) 512) in *.
  assert (flash (ss m1) = splice (Z.to_nat (start_addr r)) (xor_key key (window (Z.to_nat (start_addr r)) (Z.to_nat n) (flash (ss m)))) (flash (ss m))) as Ef1
    by (subst m1; cbn [marked put set_ss ss set_regions set_flash flash]; by rewrite Ef).
  assert (flash (ss m2) = splice (Z.to_nat (start_addr r)) (xor_key key (window (Z.to_nat (start_addr r)) (Z.to_nat (size r)) (flash (ss m1)))) (flash (ss m1))) as Ef2
    by (by subst m2).
  rewrite Ef2, lookup_splice by (rewrite length_xor_key, length_window; lia). rewrite length_xor_key, length_window, lookup_xor_key, lookup_window by lia.
  rewrite Ef1. rewrite !lookup_splice by (rewrite length_xor_key, length_window; lia). rewrite length_xor_key, length_window, !lookup_xor_key, !lookup_window by lia.
  repeat case_decide; try lia; try done.
  all: replace (Z.to_nat (start_addr r) + (j - Z.to_nat (start_addr r)) - Z.to_nat (start_addr r))%nat with (j - Z.to_nat (start_addr r))%nat by lia.
  all: replace (Z.to_nat (start_addr r) + (j - Z.to_nat (start_addr r)))%nat with j by lia.
  all: assert (Z.of_nat (j - Z.to_nat (start_addr r)) = Z.of_nat j - start_addr r) as -> by lia.
  - destruct (flash (ss m) !! j) as [b|]; cbn [fmap option_fmap option_map]; [|done]. by rewrite Z.lxor_assoc, Z.lxor_nilpotent, Z.lxor_0_r.
  - done.
Qed.

Lemma flash_footer m : wf m -> exists fo, length fo = 4%nat /\ Forall is_u8 fo /\ flash (ss m) = take (Z.to_nat 8188) (flash (ss m)) ++ fo /\ drop (Z.to_nat 8188) (flash (ss m)) = fo.
Proof.
  intros Hm. pose proof (flash_length m Hm). exists (drop (Z.to_nat 8188) (flash (ss m))). split; [rewrite length_drop; lia|].
  split; [by apply Forall_drop, flash_u8|]. split; [by rewrite take_drop|done].
Qed.

(** Tampering.  When the stored checksum matches the flash before it, and is not zero, the check passes, and it fails, and says so in the storage, once any
    four bytes in a row of the flash have changed.  The stored checksum is that of the last bytes written, so the check answers yes after a keyed write just when the
    written bytes have the checksum of the whole partition, or zero. *)
Theorem tamper_check_correct m :
  wf m ->
  (let c := crc32_of (take (Z.to_nat 8188) (flash (ss m))) in le_val (drop (Z.to_nat 8188) (flash (ss m))) = c -> c <> 0 ->
     (exists m', sec_storage_tamper_check m = Done (true, m')) /\
     (forall pre x y post, take (Z.to_nat 8188) (flash (ss m)) = pre ++ le_bytes 4 x ++ post -> is_u32 x -> is_u32 y -> x <> y ->
        exists m', sec_storage_tamper_check (put (Z.of_nat (length pre)) (le_bytes 4 y) m) = Done (false, m') /\ tamper_detected (ss m') = true)) /\
  (forall addr data len, Forall is_u8 data -> 0 < len <= Z.of_nat (length data) -> addr + len <= 8188 -> keyed m = true -> access m addr SEC_ACCESS_WRITE = true ->
     let c := crc32_of (xor_key (derived_key (kdf (ss m))) (take (Z.to_nat len) data)) in
     exists b m1 m2, (sec_storage_write addr data len;; sec_storage_tamper_check) m = Done (b, m2) /\ sec_storage_write addr data len m = Done (tt, m1) /\
       (b = true <-> c = crc32_of (take (Z.to_nat 8188) (flash (ss m1))) \/ c = 0)).
Proof.
  intros Hm. pose proof (flash_length m Hm) as Hfl. split.
  - intros c Hc Hc0. rewrite tamper_run by done. cbv zeta. fold c. rewrite Hc, Z.eqb_refl. split; [by eexists|].
    intros pre x y post E Hx Hy Hne. destruct (flash_footer m Hm) as (fo & Hlf & Hfo & Ef & Ed).
    assert (Z.of_nat (length pre) + 4 + Z.of_nat (length post) = 8188) as Hl.
    { apply (f_equal length) in E. rewrite length_take, !length_app, length_le_bytes in E. lia. }
    assert (Forall is_u8 (pre ++ le_bytes 4 x ++ post)) as Hu by (rewrite <- E; by apply Forall_take, flash_u8).
    rewrite !Forall_app in Hu. destruct Hu as (Hu1 & _ & Hu2).
    assert (flash (ss (put (Z.of_nat (length pre)) (le_bytes 4 y) m)) = (pre ++ le_bytes 4 y ++ post) ++ fo) as Ep.
    { cbn [put set_ss ss set_flash flash]. rewrite Ef, E. unfold splice. rewrite Nat2Z.id, length_le_bytes. rewrite <- !app_assoc, take_app_length. do 2 f_equal.
      rewrite app_assoc. change 4%nat with (length (le_bytes 4 x)) at 1. rewrite <- length_app. by rewrite drop_app_length. }
    assert (length (pre ++ le_bytes 4 y ++ post) = Z.to_nat 8188) as Hl' by (rewrite !length_app, length_le_bytes; lia).
    rewrite tamper_run by (apply wf_put; [done|lia|rewrite length_le_bytes; unfold SEC_FLASH_PART_SIZE; lia|apply le_bytes_u8]). cbv zeta.
    rewrite Ep, <- Hl', take_app_length, drop_app_length, <- Ed, Hc. unfold c. rewrite E. unfold is_u32 in *.
    destruct (Z.eqb_spec (crc32_of (pre ++ le_bytes 4 x ++ post)) (crc32_of (pre ++ le_bytes 4 y ++ post))) as [Heq|_].
    + apply crc32_field_inj in Heq; [done|done|done|lia|lia].
    + fold c in Hc0. destruct (Z.eqb_spec (crc32_of (pre ++ le_bytes 4 x ++ post)) 0) as [H0|_]; [unfold c in Hc0; rewrite E in Hc0; done|]. cbn [negb andb]. by eexists.
  - intros addr data len Hd Hl Hal Hk Ha c. pose proof (access_in_flash _ _ _ Hm Ha) as Haddr.
    destruct (write_safe addr data len m Hm Hd ltac:(lia) ltac:(lia)) as (m1 & E1 & Hm1).
    pose proof (write_run addr data len m Hm Hd Hl ltac:(lia) Ha) as E. rewrite Z.min_l in E by lia. rewrite Hk in E. cbn [cipher] in E. cbv zeta in E.
    rewrite E1 in E. set (enc := xor_key _ _) in E, c. rewrite (bind_step _ _ _ _ _ E1), (tamper_run m1 Hm1). cbv zeta.
    assert (length enc = Z.to_nat len) as Hle by (unfold enc; rewrite length_xor_key, length_take; lia).
    assert (Forall is_u8 enc) as Hen by (by apply xor_key_u8, Forall_take; [apply kdf_key_ok|]).
    assert (le_val (drop (Z.to_nat 8188) (flash (ss m1))) = c) as ->.
    { injection E as ->. cbn [footer put with_table set_ss ss set_flash flash]. set (f1 := splice (Z.to_nat addr) enc _).
      assert (length f1 = length (flash (ss m))) as Hf1 by (apply length_splice; lia). unfold splice at 1. rewrite length_le_bytes.
      assert (length (take (Z.to_nat 8188) f1) = Z.to_nat 8188) as Ht by (rewrite length_take; lia). rewrite <- Ht at 1. rewrite drop_app_length.
      rewrite (drop_ge f1) by lia. rewrite app_nil_r. pose proof (crc32_bound enc Hen). by apply le_val_bytes. }
    set (whole := crc32_of _). set (bad := negb (c =? whole) && negb (c =? 0)).
    exists (negb bad), m1, (if bad then set_ss (set_tamper_detected true (ss m1)) (with_table m1) else with_table m1). split; [by destruct bad|]. split; [exact E1|].
    destruct (Z.eqb_spec c whole), (Z.eqb_spec c 0); cbn [negb andb] in bad; unfold bad; cbn [negb]; naive_solver.
Qed.

Lemma kdf_key_at a i : 0 <= i < 32 ->
  at_ (kdf_key a) i = u8 (Z.lxor (Z.lxor 0x5C (at_ a i)) (u8 (Z.lxor (Z.lxor 0x36 (at_ a i)) (u8 (0x7A + (i mod 16) * 11 + at_ a (i mod 16))) * 0x6D)) * 0x5B).
Proof.
  intros Hi. unfold kdf_key, sec_kdf_hmac, pad, kdf_salt, SEC_KDF_DERIVED_SIZE, SEC_KDF_SALT_SIZE. assert (0 <= i mod 16 < 16) as Hm by (apply Z.mod_pos_bound; lia).
  rewrite at_seq, (Z.mod_small i 64), (Z.mod_small i 32), !at_seq, (Z.mod_small i 64) by lia. rewrite !at_seq, (Z.mod_small (i mod 16) 32) by lia.
  destruct (Z.ltb_spec i 32); [done|lia].
Qed.

(** A byte of the derived key depends on two bytes of the device's secret, the one of its own index and the one of its index modulo 16: the secret can be searched for
    byte by byte. *)
Theorem kdf_key_bytewise a b i : 0 <= i < 32 -> at_ a i = at_ b i -> at_ a (i mod 16) = at_ b (i mod 16) -> at_ (kdf_key a) i = at_ (kdf_key b) i.
Proof. intros Hi H1 H2. by rewrite !kdf_key_at, H1, H2. Qed.

(** Counting: a counter read after its increment is one more, modulo 2^64, and the others are what they were; other indices do nothing and read as zero. *)
Theorem monotonic_counts i j m :
  wf m -> (sec_storage_monotonic_inc i;; sec_storage_monotonic_get j) m =
    Done (if decide (0 <= j < 8) then u64 (at_ (monotonic_counters (ss m)) j + (if decide (i = j) then 1 else 0)) else 0,
      if decide (0 <= i < 8) then set_ss (set_monotonic_counters (alter (fun c => u64 (c + 1)) (Z.to_nat i) (monotonic_counters (ss m))) (ss m)) m else m).
Proof.
  intros [[_ _ _ _ _ _ [Hl Hc]] _]. unfold sec_storage_monotonic_inc, sec_storage_monotonic_get.
  assert (forall j, 0 <= j < 8 -> u64 (at_ (monotonic_counters (ss m)) j) = at_ (monotonic_counters (ss m)) j) as Hr.
  { intros k Hk. unfold at_. destruct (lookup_lt_is_Some_2 (monotonic_counters (ss m)) (Z.to_nat k)) as [c E]; [lia|]. rewrite (list_lookup_total_correct _ _ _ E).
    rewrite Forall_lookup in Hc. specialize (Hc _ _ E). apply u64_small. lia. }
  assert (forall k, (k <? 0) || (8 <=? k) = negb (bool_decide (0 <= k < 8))) as Hg.
  { intros k. destruct (decide (0 <= k < 8)); [rewrite loop_guard, bool_decide_true|rewrite loop_guard_out, bool_decide_false]; done. }
  rewrite !Hg. destruct (decide (0 <= i < 8)) as [Hi|Hi]; [rewrite (bool_decide_true (0 <= i < 8)) by done|rewrite (bool_decide_false (0 <= i < 8)) by done]; cbn [negb].
  - unfold change. rewrite bind_modify. destruct (decide (0 <= j < 8)) as [Hj|Hj]; [rewrite bool_decide_true by done|by rewrite bool_decide_false by done]. cbn [negb].
    unfold storage, gets, at_. cbn [set_ss ss set_monotonic_counters monotonic_counters]. do 2 f_equal. destruct (decide (i = j)) as [->|Hne].
    + by rewrite list_lookup_total_alter_eq by lia.
    + rewrite list_lookup_total_alter_ne by lia. rewrite Z.add_0_r. symmetry. by apply Hr.
  - rewrite bind_ret. destruct (decide (0 <= j < 8)) as [Hj|Hj]; [rewrite bool_decide_true by done|by rewrite bool_decide_false by done]. cbn [negb].
    rewrite decide_False by (intros ->; done). rewrite Z.add_0_r, Hr by done. done.
Qed.

Lemma clip_past addr len (m : secure_mem) : 0 <= addr < 2 ^ 31 -> 8192 < addr +32 len -> clip addr len m = Done (8192 - addr, m).
Proof.
  intros Ha Hl. unfold clip, SEC_FLASH_PART_SIZE. destruct (Z.ltb_spec 8192 (addr +32 len)); [|lia]. unfold int_sub, int_of. rewrite u32_small by lia.
  replace (addr + 2147483648 - 2147483648) with addr by lia. destruct (Z.leb_spec (-2147483648) (8192 - addr)); [|lia].
  by destruct (Z.ltb_spec (8192 - addr) 2147483648); [|lia].
Qed.

(** What is left of a write to a file with a block. *)
Definition block_write (i : Z) (f : SecFileEntry) (data : list Z) (len : Z) : SM unit :=
  wlen ← clip (file_offset f) (Z.min len 64); k ← storage kdf; enc ← (if encrypted f && kdf_initialized k
    then enc ← sec_xor_crypt (derived_key k) data (SEC_FS_BLOCK_SIZE * 4) wlen; memcpy_bytes enc wlen else memcpy_bytes data wlen);
  flash_put (file_offset f) enc;; src ← flash_from (file_offset f); c ← sec_storage_crc32 src wlen;
  change (fun s => set_files (alter (fun f => set_crc c (set_file_size (u32 wlen) f)) (Z.to_nat i) (files s)) s).
Lemma block_write_eq m i f data len :
  wf m -> 0 <= i < file_count (ss m) -> files (ss m) !! Z.to_nat i = Some f -> block_count f = 1 -> sec_storage_file_write i data len m = block_write i f data len m.
Proof.
  intros Hm Hi E Hbc. destruct (file_at m i Hm Hi) as (f' & E' & Hw & Hi32). rewrite E in E'. injection E' as <-.
  destruct (entry_numbers _ _ _ Hw Hi32) as (Eo & Er & _ & _ & Ei & _). assert (file_room f = 64) as Hr by (unfold file_room; lia).
  unfold sec_storage_file_write, storage. rewrite bind_gets, loop_guard by done. rewrite bind_assoc, bind_gets, E. cbn [of_option]. rewrite bind_ret. cbv zeta.
  rewrite Eo, Er, Ei, Hr. assert ((if len <? 64 then len else 64) = Z.min len 64) as -> by (destruct (Z.ltb_spec len 64); lia). done.
Qed.

(** Where the file system ends: the sixteenth file takes no bytes, writing a later one or deleting any of them leaves the partition; and a negative length writes from the
    file's block to the partition's end. *)
Theorem files_past_flash i f data len m :
  wf m -> 0 <= i < file_count (ss m) -> files (ss m) !! Z.to_nat i = Some f -> block_count f = 1 -> Forall is_u8 data -> len <= Z.of_nat (length data) < 2 ^ 31 ->
  (i = 15 -> 0 <= len -> exists m', sec_storage_file_write i data len m = Done (tt, m') /\ flash (ss m') = flash (ss m)) /\
  (16 <= i -> 0 <= len -> sec_storage_file_write i data len m = UB) /\
  (15 <= i -> sec_storage_file_delete i m = UB) /\
  (i < 15 -> - 2 ^ 31 <= len < - file_offset f -> encrypted f = false -> 8192 - file_offset f <= Z.of_nat (length data) ->
     exists m', sec_storage_file_write i data len m = Done (tt, m') /\
       flash (ss m') = take (Z.to_nat (file_offset f)) (flash (ss m)) ++ take (Z.to_nat (8192 - file_offset f)) data).
Proof.
  intros Hm Hi E Hbc Hd Hl. destruct (file_at m i Hm Hi) as (f' & E' & Hw & Hi32). rewrite E in E'. injection E' as <-. pose proof (flash_length m Hm) as Hfl.
  assert (block_start f = (i + 1) * 8) as Hbs by (destruct Hw as (_ & _ & _ & [(C1 & C2 & _)|(C1 & _)]); lia).
  assert (file_offset f = (i + 1) * 512 /\ file_room f = 64) as [Ho Hr] by (unfold file_offset, file_room; lia).
  destruct (entry_numbers _ _ _ Hw Hi32) as (Eo & Er & _). split_and!.
  - intros -> Hl0. exists (recorded 15 0 (cipher (encrypted f && keyed m) m []) (with_table (put 8192 (cipher (encrypted f && keyed m) m []) m))).
    assert (write_len f len = 0) as Hwl by (unfold write_len; lia). rewrite (file_write_run 15 f data len m) by (done || lia). rewrite Hwl. cbn [take Z.to_nat].
    rewrite Ho. split; [done|]. cbn [recorded with_files put with_table set_ss ss set_file_count set_files set_flash flash]. unfold splice.
    assert (cipher (encrypted f && keyed m) m [] = []) as -> by (by destruct (_ && _)). cbn [app length]. rewrite Nat.add_0_r. apply take_drop.
  - intros Hi16 Hl0. rewrite (block_write_eq m i f) by done. unfold block_write. set (w := 8192 - file_offset f). assert (clip (file_offset f) (Z.min len 64) m = Done (w, m)) as Ec by (apply clip_past; [lia|rewrite u32_small; lia]).
    rewrite (bind_step _ _ _ _ _ Ec). unfold storage. rewrite bind_gets. fold (keyed m). assert (w < 0 \/ w = 0) as [Hneg| ->] by lia.
    + assert (forall l, @memcpy_bytes secure_mem l w m = UB) as Hmc by (intros l; unfold memcpy_bytes; by destruct (Z.ltb_spec w 0); [|lia]).
      destruct (encrypted f && keyed m); unfold mbind at 1, M_bind at 1; [|by rewrite Hmc].
      assert (sec_xor_crypt (derived_key (kdf (ss m))) data (SEC_FS_BLOCK_SIZE * 4) w m = Done ([], m)) as Ex.
      { unfold sec_xor_crypt, loop_bytes. by destruct (Z.leb_spec w 0); [|lia]. }
      by rewrite (bind_step _ _ _ _ _ Ex), Hmc.
    + assert ((if encrypted f && keyed m then enc ← sec_xor_crypt (derived_key (kdf (ss m))) data (SEC_FS_BLOCK_SIZE * 4) 0; memcpy_bytes enc 0 else memcpy_bytes data 0) m = Done ([], m)) as Ex
        by (by destruct (encrypted f && keyed m)).
      rewrite (bind_step _ _ _ _ _ Ex). unfold mbind at 1, M_bind at 1, flash_put, SEC_FLASH_PART_SIZE. cbn [length].
      by destruct (Z.ltb_spec 8192 (file_offset f + Z.of_nat 0)); [|lia].
  - intros Hi15. apply (delete_past i f); [done|lia|done|lia].
  - intros Hi15 Hneg He Hdata. rewrite (block_write_eq m i f) by done. unfold block_write. rewrite He.
    assert (clip (file_offset f) (Z.min len 64) m = Done (8192 - file_offset f, m)) as Ec.
    { apply clip_past; [lia|]. unfold u32. Z.div_mod_to_equations; lia. }
    rewrite (bind_step _ _ _ _ _ Ec). unfold storage. rewrite bind_gets. erewrite bind_step by (apply memcpy_bytes_ok; lia). set (bs := take _ data).
    assert (Z.of_nat (length bs) = 8192 - file_offset f) as Hbl by (unfold bs; rewrite length_take; lia).
    erewrite bind_step by (apply flash_put_ok; unfold SEC_FLASH_PART_SIZE; lia).
    assert (wf (put (file_offset f) bs m)) as Hwp by (apply wf_put; [done|lia|unfold SEC_FLASH_PART_SIZE; lia|by apply Forall_take]).
    erewrite bind_step by (apply flash_from_ok; unfold SEC_FLASH_PART_SIZE; lia). pose proof (length_drop_flash (file_offset f) _ Hwp ltac:(lia)).
    erewrite bind_step by (apply crc32_run; [apply Hwp|by apply Forall_drop, flash_u8|lia]). eexists. split; [reflexivity|].
    cbn [with_table put set_ss ss set_files set_flash flash]. unfold splice. rewrite (drop_ge (flash (ss m))) by lia. by rewrite app_nil_r.
Qed.

(** ** The secure element *)

Definition element_wf (se : SecureElement) : Prop := bytes_of_length 9 (serial_num se) /\ bytes_of_length 64 (pubkey se) /\ bytes_of_length 72 (data_zone se).

Lemma ecdh_at a b i : element_wf a -> bytes_of_length 64 b -> 0 <= i < 32 ->
  at_ (sec_element_ecdh a b) i = Z.lxor (Z.lxor (at_ (pubkey a) i) (at_ b i)) (at_ (serial_num a) (i mod 9)).
Proof.
  intros (Hs & Hp & _) Hb Hi. unfold sec_element_ecdh. rewrite at_seq by lia. rewrite (Z.mod_small i 64) by lia. assert (0 <= i mod 9 < 9) by (apply Z.mod_pos_bound; lia).
  apply u8_small. apply lxor_u8; [apply lxor_u8|]; [eapply at_u8|eapply at_u8|eapply at_u8]; try done; lia.
Qed.

(** The two sides of a key agreement, each with the other's public key, find the same secret just when their serial numbers are the same: two devices do not agree. *)
Theorem ecdh_agreement a b : element_wf a -> element_wf b -> sec_element_ecdh a (pubkey b) = sec_element_ecdh b (pubkey a) <-> serial_num a = serial_num b.
Proof.
  intros Ha Hb. pose proof Ha as (Hsa & Hpa & _). pose proof Hb as (Hsb & Hpb & _). split; intros H.
  - apply (list_at_eq 9); [apply Hsa|apply Hsb|]. intros i Hi. apply (f_equal (fun l => at_ l i)) in H. rewrite !ecdh_at in H by (done || lia).
    rewrite (Z.lxor_comm (at_ (pubkey b) i)) in H. rewrite (Z.mod_small i) in H by lia.
    set (x := Z.lxor (at_ (pubkey a) i) (at_ (pubkey b) i)) in H.
    apply (f_equal (Z.lxor x)) in H. by rewrite <- !Z.lxor_assoc, Z.lxor_nilpotent, !Z.lxor_0_l in H.
  - apply (list_at_eq 32); [done..|]. intros i Hi. rewrite !ecdh_at by (done || lia). by rewrite H, (Z.lxor_comm (at_ (pubkey b) i)).
Qed.

(** A key stored in one of the sixteen slots is its first four bytes, and the other slots keep theirs; a negative length is undefined. *)
Theorem store_key_correct slot key len se :
  element_wf se -> 0 <= slot < 16 -> Forall is_u8 key -> len <= Z.of_nat (length key) ->
  (4 <= len -> exists se', sec_element_store_key slot key len se = Done (tt, se') /\ element_wf se' /\ window (Z.to_nat (slot * 4)) 4 (data_zone se') = take 4 key /\
     forall s, 0 <= s < 16 -> s <> slot -> window (Z.to_nat (s * 4)) 4 (data_zone se') = window (Z.to_nat (s * 4)) 4 (data_zone se)) /\
  (len < 0 -> sec_element_store_key slot key len se = UB).
Proof.
  intros (Hs & Hp & Hdl & Hdf) Hslot Hk Hl. unfold sec_element_store_key. rewrite loop_guard by done. split.
  - intros H4. destruct (Z.ltb_spec len 4); [lia|]. erewrite bind_step by (apply memcpy_bytes_ok; lia). change (Z.to_nat 4) with 4%nat.
    assert (length (take 4 key) = 4%nat) as Ht by (rewrite length_take; lia).
    eexists. split; [reflexivity|]. cbn [data_zone]. split; [split; [done|split; [done|split]]|split].
    + cbn [data_zone]. rewrite length_splice; lia.
    + apply Forall_splice; [by apply Forall_take|done].
    + rewrite window_splice_in by lia. rewrite Nat.sub_diag. rewrite <- Ht at 1. apply window_all.
    + intros s Hs1 Hne. apply window_splice_out; lia.
  - intros Hneg. destruct (Z.ltb_spec len 4); [|lia]. unfold mbind, M_bind, memcpy_bytes. by destruct (Z.ltb_spec len 0); [|lia].
Qed.

(** The checksum computed through the table, whether or not the table is there yet, is the checksum bit by bit that the update manager computes. *)
Theorem sec_crc32_correct data m :
  (crc_table_init m = true -> crc32_table m = crc_table) -> Forall is_u8 data ->
  exists m', sec_storage_crc32 data (Z.of_nat (length data)) m = Done (crc32_of data, m') /\ ss m' = ss m /\ crc_table_init m' = true /\ crc32_table m' = crc_table.
Proof. intros Ht Hd. exists (with_table m). rewrite crc32_run by (done || lia). rewrite Nat2Z.id, take_ge by done. split_and!; done. Qed.

(** ** Concrete runs *)

Definition start : secure_mem := Mem (Storage [] [] 0 zero_kdf [] 0 [] false false) [] false.
Definition after (o : outcome (unit * secure_mem)) : secure_mem := match o with Done (_, m) => m | _ => start end.
Definition demo_secret : list Z := (fun i => u8 (i * 7 + 3)) <$> seqZ 0 32.
Definition demo (cs : list storage_call) : secure_mem := after ((sec_storage_init demo_secret;; run_calls cs) start).

Lemma demo_wf cs : Forall call_ok cs -> wf (demo cs).
Proof.
  intros Hc. destruct (init_run demo_secret start) as (m1 & E & Hm & _); [vm_compute; lia|apply (bytes_u8_map 32)|by intros [=]|].
  unfold demo. rewrite (bind_step _ _ _ _ _ E). destruct (run_calls_safe cs m1 Hm Hc) as (m2 & E2 & Hm2). by rewrite E2.
Qed.
Definition demo_keyed : list storage_call := [KdfDerive; AddRegion 0 0x2000 3 false].
Lemma demo_keyed_wf : wf (demo demo_keyed).
Proof. apply demo_wf. repeat constructor; vm_compute; congruence. Qed.

Lemma storage_calls_safe_witness : exists m', (sec_storage_init demo_secret;; run_calls demo_keyed) start = Done (tt, m') /\ region_count (ss m') = 1.
Proof.
  destruct (storage_calls_safe demo_secret demo_keyed start) as (m' & E & _).
  - vm_compute. lia.
  - apply (bytes_u8_map 32).
  - intros H. discriminate H.
  - repeat constructor; vm_compute; congruence.
  - exists m'. split; [exact E|]. assert (m' = after ((sec_storage_init demo_secret;; run_calls demo_keyed) start)) as -> by (rewrite E; reflexivity). vm_compute. reflexivity.
Defined.
Lemma secure_files_refine_witness :
  exists m', (sec_storage_format_fs;; run_file_calls [FCreate [65]; FWrite 0 [1; 2; 3]; FDerive; FCreate [66]; FWrite 1 [7]; FRead 0 2; FDelete 0; FRead 0 2; FRead 1 9]) (demo []) =
    Done ([(0, []); (0, []); (0, []); (1, []); (0, []); (2, [1; 2]); (0, []); (0, []); (1, [7])], m').
Proof.
  destruct (secure_files_refine [FCreate [65]; FWrite 0 [1; 2; 3]; FDerive; FCreate [66]; FWrite 1 [7]; FRead 0 2; FDelete 0; FRead 0 2; FRead 1 9] (demo [])) as (m' & E & _).
  - apply demo_wf, Forall_nil_2.
  - repeat constructor; vm_compute; congruence.
  - vm_compute. lia.
  - exists m'. exact E.
Defined.
Lemma storage_write_read_witness :
  exists m', sec_storage_write 0x100 [1; 2; 3] 3 (demo demo_keyed) = Done (tt, m') /\ sec_storage_read 0x100 [9; 9; 9; 9] 3 m' = Done ([1; 2; 3; 9], m').
Proof.
  destruct (storage_write_read 0x100 [1; 2; 3] 3 [9; 9; 9; 9] (demo demo_keyed)) as [H _];
    [exact demo_keyed_wf|repeat constructor; vm_compute; congruence|vm_compute; split; [reflexivity|discriminate]|vm_compute; discriminate..|].
  destruct H as (m' & E & _ & Hr & _); [vm_compute; reflexivity|]. exists m'. split; [exact E|]. apply Hr. vm_compute. reflexivity.
Defined.
Lemma region_cipher_roundtrip_witness :
  exists m', (sec_storage_encrypt_region 0;; sec_storage_decrypt_region 0) (demo demo_keyed) = Done (tt, m') /\
    flash (ss m') !! 511%nat = Some 0 /\ flash (ss m') !! 512%nat <> Some 0.
Proof.
  destruct (region_cipher_roundtrip 0 (demo demo_keyed)) as (m' & E & _ & H); [exact demo_keyed_wf|vm_compute; split; [discriminate|reflexivity]|].
  exists m'. split; [exact E|]. rewrite !H. vm_compute. split; [reflexivity|discriminate].
Defined.
Definition demo_sealed : secure_mem := put 8188 (le_bytes 4 (crc32_of (take (Z.to_nat 8188) (flash (ss (demo demo_keyed)))))) (demo demo_keyed).
Lemma demo_sealed_wf : wf demo_sealed.
Proof. apply wf_put; [exact demo_keyed_wf|vm_compute; discriminate..|apply le_bytes_u8]. Qed.
Lemma tamper_check_correct_witness : exists m', sec_storage_tamper_check (put 0 [1; 0; 0; 0] demo_sealed) = Done (false, m') /\ tamper_detected (ss m') = true.
Proof.
  destruct (tamper_check_correct demo_sealed demo_sealed_wf) as [H _]. destruct H as [_ H]; [vm_compute; reflexivity|vm_compute; discriminate|].
  apply (H [] 0 1 (drop 4 (take (Z.to_nat 8188) (flash (ss demo_sealed))))); [vm_compute; reflexivity|vm_compute; split; [discriminate|reflexivity]..|discriminate].
Defined.
Lemma sec_crc32_correct_witness : exists m', sec_storage_crc32 [49; 50; 51; 52; 53; 54; 55; 56; 57] 9 start = Done (0xCBF43926, m') /\ crc_table_init m' = true.
Proof.
  destruct (sec_crc32_correct [49; 50; 51; 52; 53; 54; 55; 56; 57] start) as (m' & E & _ & Ht & _);
    [intros H; discriminate H|repeat constructor; vm_compute; congruence|]. exists m'. split; [exact E|exact Ht].
Defined.
Lemma kdf_key_bytewise_witness : at_ (kdf_key demo_secret) 3 = at_ (kdf_key (take 4 demo_secret ++ replicate 28 0)) 3.
Proof. apply kdf_key_bytewise; vm_compute; (split; [discriminate|reflexivity]) || reflexivity. Defined.
Lemma monotonic_counts_witness : exists m', (sec_storage_monotonic_inc 1;; sec_storage_monotonic_get 1) (demo []) = Done (1, m').
Proof. eexists. rewrite (monotonic_counts 1 1 (demo [])); [vm_compute; reflexivity|apply demo_wf, Forall_nil_2]. Defined.
Definition demo_full : list storage_call := FormatFs :: replicate 17 (FileCreate [65]).
Lemma files_past_flash_witness : sec_storage_file_write 16 [1] 1 (demo demo_full) = UB.
Proof.
  destruct (files_past_flash 16 (FileEntry ([65] ++ replicate 15 0) 136 1 0 0 false true) [1] 1 (demo demo_full)) as (_ & H & _);
    [apply demo_wf; repeat constructor; vm_compute; congruence|vm_compute; split; [discriminate|reflexivity]|vm_compute; reflexivity|reflexivity
    |repeat constructor; vm_compute; congruence|vm_compute; split; [discriminate|reflexivity]|]. apply H; discriminate.
Defined.
Definition other_element : SecureElement :=
  let e := sec_element_init SEC_EL_STSAFE in Element (el_type e) (replicate 9 5) (replicate 64 77) true true (otp_zone e) (data_zone e).
Lemma element_init_wf t : element_wf (sec_element_init t).
Proof. split; [apply (bytes_u8_map 9)|split; [apply (bytes_u8_map 64)|split; [done|by apply Forall_replicate]]]. Qed.
Lemma ecdh_agreement_witness :
  sec_element_ecdh (sec_element_init SEC_EL_ATECC608) (pubkey other_element) <> sec_element_ecdh other_element (pubkey (sec_element_init SEC_EL_ATECC608)).
Proof.
  intros H. apply ecdh_agreement in H; [vm_compute in H; discriminate H|apply element_init_wf|].
  split; [split; [reflexivity|repeat constructor; vm_compute; congruence]|split; [split; [reflexivity|repeat constructor; vm_compute; congruence]|apply (element_init_wf SEC_EL_STSAFE)]].
Defined.
Lemma store_key_correct_witness :
  exists se', sec_element_store_key 2 [1; 2; 3; 4; 5] 5 (sec_element_init SEC_EL_SIMULATED) = Done (tt, se') /\ window 8 4 (data_zone se') = [1; 2; 3; 4].
Proof.
  destruct (store_key_correct 2 [1; 2; 3; 4; 5] 5 (sec_element_init SEC_EL_SIMULATED)) as [H _];
    [apply element_init_wf|split; [discriminate|reflexivity]|repeat constructor; vm_compute; congruence|vm_compute; discriminate|].
  destruct H as (se' & E & _ & Hw & _); [discriminate|]. exists se'. split; [exact E|exact Hw].
Defined.
