(* ===== verification/SecureBoot.v ===== *)
(** * Secure boot (mini-edge-security/src/secure_boot_mcu.c)

    The boot context, its hash, the checks of a boot stage and of an image, policies, debug authentication and measurements.
    A pointer argument is the list of bytes from it to the end of its object.  The machine is little-endian.  The hash's constants are computed with an [int] product
    that exceeds its range; it is taken to wrap, as it does on the machines the code is for. *)
From S2P Require Import Prelude ByteMem Hash256.

Definition IMAGE_MAX_SIZE : Z := 256 * 1024.
Definition SIGNATURE_SIZE : Z := 256.
Definition PUBKEY_HASH_SIZE : Z := 32.
Definition BOOT_STATE_SIZE : Z := 32.
Definition IMAGE_HEADER_SIZE : Z := 64.
Definition OTP_FUSE_COUNT : Z := 16.
Definition CHAIN_DEPTH : Z := 4.
Definition MAX_CERTS : Z := 3.
Inductive BootStage := BOOT_STAGE_ROM | BOOT_STAGE_SPL | BOOT_STAGE_UBOOT | BOOT_STAGE_KERNEL | BOOT_STAGE_APP.
Inductive BootError := BOOT_OK | BOOT_ERR_SIG | BOOT_ERR_HASH | BOOT_ERR_VERSION | BOOT_ERR_OTP | BOOT_ERR_LOCKED | BOOT_ERR_ROLLBACK | BOOT_ERR_DEBUG.
Inductive BootFailPolicy := BOOT_POLICY_FAIL_STOP | BOOT_POLICY_FAIL_RECOVER | BOOT_POLICY_FAIL_REPORT | BOOT_POLICY_FAIL_DEBUG.
Inductive DebugAuthState := DEBUG_LOCKED | DEBUG_UNLOCKED_TEMP | DEBUG_UNLOCKED_PERM.
#[export] Instance boot_stage_eq : EqDecision BootStage.
Proof. solve_decision. Defined.
#[export] Instance boot_error_eq : EqDecision BootError.
Proof. solve_decision. Defined.
#[export] Instance debug_state_eq : EqDecision DebugAuthState.
Proof. solve_decision. Defined.

(** The values of the enumerators. *)
Definition stage_num (s : BootStage) : Z :=
  match s with BOOT_STAGE_ROM => 0 | BOOT_STAGE_SPL => 1 | BOOT_STAGE_UBOOT => 2 | BOOT_STAGE_KERNEL => 3 | BOOT_STAGE_APP => 4 end.
Definition debug_num (d : DebugAuthState) : Z := match d with DEBUG_LOCKED => 0 | DEBUG_UNLOCKED_TEMP => 1 | DEBUG_UNLOCKED_PERM => 2 end.

Record ImageHeader := Header { magic : list Z; version : Z; image_size : Z; load_addr : Z; entry_point : Z; image_hash : list Z; hdr_pubkey_hash : list Z; flags : Z; rollback_ctr : Z; reserved : list Z }.
Record SignedImage := Image { header : ImageHeader; payload : list Z; signature : list Z }.
Record SecureBootCtx := Ctx { rom_hash : list Z; pubkey_hash : list Z; secure_boot_enabled : bool; policy : BootFailPolicy; debug_state : DebugAuthState; current_stage : BootStage; min_version : list Z; last_error : BootError; boot_state : list Z }.
Definition set_pubkey_hash v x := Ctx (rom_hash x) v (secure_boot_enabled x) (policy x) (debug_state x) (current_stage x) (min_version x) (last_error x) (boot_state x).
Definition set_secure_boot_enabled v x := Ctx (rom_hash x) (pubkey_hash x) v (policy x) (debug_state x) (current_stage x) (min_version x) (last_error x) (boot_state x).
Definition set_policy v x := Ctx (rom_hash x) (pubkey_hash x) (secure_boot_enabled x) v (debug_state x) (current_stage x) (min_version x) (last_error x) (boot_state x).
Definition set_debug_state v x := Ctx (rom_hash x) (pubkey_hash x) (secure_boot_enabled x) (policy x) v (current_stage x) (min_version x) (last_error x) (boot_state x).
Definition set_current_stage v x := Ctx (rom_hash x) (pubkey_hash x) (secure_boot_enabled x) (policy x) (debug_state x) v (min_version x) (last_error x) (boot_state x).
Definition set_last_error v x := Ctx (rom_hash x) (pubkey_hash x) (secure_boot_enabled x) (policy x) (debug_state x) (current_stage x) (min_version x) v (boot_state x).
Definition set_boot_state v x := Ctx (rom_hash x) (pubkey_hash x) (secure_boot_enabled x) (policy x) (debug_state x) (current_stage x) (min_version x) (last_error x) v.
Record BootCertificate := Certificate { cert_data : list Z; cert_len : Z; subject_pubkey : list Z; issuer_hash : list Z }.

Notation BM := (M SecureBootCtx).

Definition rom_fixed_hash : list Z := [
  0xe3; 0xb0; 0xc4; 0x42; 0x98; 0xfc; 0x1c; 0x14; 0x9a; 0xfb; 0xf4; 0xc8; 0x99; 0x6f; 0xb9; 0x24;
  0x27; 0xae; 0x41; 0xe4; 0x64; 0x9b; 0x93; 0x4c; 0xa4; 0x95; 0x99; 0x1b; 0x78; 0x52; 0xb8; 0x55].
Definition otp_pubkey_hash : list Z := [
  0x5a; 0x4f; 0x3c; 0x12; 0x9e; 0x8b; 0x7d; 0x2a; 0x1f; 0x63; 0x44; 0x90; 0xbb; 0xcd; 0xee; 0x88;
  0x37; 0x19; 0x56; 0xae; 0x72; 0xd1; 0x4f; 0x33; 0x99; 0xab; 0x06; 0x7c; 0x42; 0x11; 0xef; 0xda].

(** ** The hash *)

Definition simple_rotl (val n : Z) : Z := Z.lor (u32 (Z.shiftl val n)) (Z.shiftr val (32 - n)).

Definition mix (a : list Z) (i : Z) : Z := simple_rotl (Z.lxor (at_ a (i - 16)) (at_ a (i - 15))) 1.
Definition boot_k : list Z := fill_16_64 mix (((fun i => u32 (0x428a2f98 + i * 0x11111111)) <$> seqZ 0 16) ++ replicate 48 0).

(** The bytes of the message in word [i] of the block at [pos]. *)
Definition msg_word (data : list Z) (len pos i : Z) : Z :=
  let bi := pos + i * 4 in
  let b k s := if bi + k <? len then u32 (Z.shiftl (at_ data (bi + k)) s) else 0 in
  Z.lor (Z.lor (Z.lor (b 0 24) (b 1 16)) (b 2 8)) (b 3 0).
(** Byte [p] of an array of words. *)
Definition set_byte (w : list Z) (p v : Z) : list Z :=
  alter (fun x => x - Z.shiftl (u8 (Z.shiftr x (8 * (p mod 4)))) (8 * (p mod 4)) + Z.shiftl v (8 * (p mod 4))) (Z.to_nat (p / 4)) w.
Definition boot_words (data : list Z) (len pos : Z) : list Z :=
  let chunk := if len - pos <? 64 then len - pos else 64 in
  let w := (msg_word data len pos <$> seqZ 0 (chunk / 4)) ++ replicate (64 - Z.to_nat (chunk / 4)) 0 in
  let w :=
    if (len <? pos + 64) && (chunk <? 64) then
      let w := set_byte w chunk 0x80 in
      let w := if 56 <=? chunk then fill_16_64 mix w else w in
      let bitlen := u64 (len * 8) in
      <[15%nat := Z.land bitlen 0xFFFFFFFF]> (<[14%nat := Z.shiftr bitlen 32]> w)
    else w in
  fill_16_64 (schedule simple_rotl) w.

Definition boot_block (h w : list Z) : list Z := zip_with (fun x y => x +32 y) h (foldl (round simple_rotl) h (zip boot_k w)).
(** The loop from [pos] on; [fuel] bounds the blocks, one more than whole blocks are in the message. *)
Fixpoint boot_loop (fuel : nat) (data : list Z) (len pos : Z) (h : list Z) : list Z :=
  match fuel with
  | O => h
  | S fuel =>
      if pos <=? len then
        let h := boot_block h (boot_words data len pos) in
        if len <? pos + 64 then h else boot_loop fuel data len (pos + 64) h
      else h
  end.
(** The bytes of whole words are read; lengths whose last block starts beyond an [int] are out of range. *)
Definition boot_hash256 {S} (data : list Z) (len : Z) : M S (list Z) :=
  if (2 ^ 31 - 64 <=? len) || ((0 <? len) && (Z.of_nat (length data) <? 4 * (len / 4))) then undefined
  else mret (digest_bytes (boot_loop (Z.to_nat (len / 64 + 1)) data len 0 sha_h)).

(** The loop that compares the first [n] bytes. *)
Definition same_bytes (n : nat) (a b : list Z) : bool := bool_decide (take n a = take n b).
(** The same over pointers: a byte behind the end of an object is read only if those before it agree. *)
Fixpoint cmp_loop {S} (n i : nat) (a b : list Z) : M S bool :=
  match n with
  | O => mret true
  | Datatypes.S n => x ← of_option (a !! i); y ← of_option (b !! i); if x =? y then cmp_loop n (i + 1) a b else mret false
  end.

Definition verify_rsa_sig (hash sig key_hash : list Z) : BM bool :=
  h ← memcpy_bytes hash 32;
  k ← memcpy_bytes key_hash PUBKEY_HASH_SIZE;
  computed ← boot_hash256 (h ++ k) 64;
  cmp_loop 16 0 computed sig.

(** ** Stages and images *)

Definition secure_boot_init : BM unit :=
  modify (fun _ => Ctx rom_fixed_hash otp_pubkey_hash true BOOT_POLICY_FAIL_STOP DEBUG_LOCKED BOOT_STAGE_ROM (replicate 4 1) BOOT_OK (replicate 32 0xAA)).

Definition fail (e : BootError) : BM BootError := modify (set_last_error e);; mret e.

Definition secure_boot_rom_verify (spl : list Z) (len : Z) : BM BootError :=
  computed ← boot_hash256 spl len;
  r ← gets rom_hash;
  if negb (same_bytes 4 computed r) then fail BOOT_ERR_SIG
  else modify (set_current_stage BOOT_STAGE_SPL);; mret BOOT_OK.

Definition kernel_mark : list Z := (fun i => u8 (0xCD + i * 1)) <$> seqZ 0 8.
Definition secure_boot_chain_verify (from to : BootStage) (image : list Z) (len : Z) : BM BootError :=
  if stage_num to <=? stage_num from then mret BOOT_ERR_HASH
  else
    digest ← boot_hash256 image len;
    if bool_decide (to = BOOT_STAGE_KERNEL) && negb (same_bytes 8 digest kernel_mark) then fail BOOT_ERR_HASH
    else
      d ← gets debug_state;
      r ← gets rom_hash;
      if bool_decide (d = DEBUG_LOCKED) && same_bytes 4 digest r then fail BOOT_ERR_LOCKED
      else modify (set_current_stage to);; mret BOOT_OK.

Definition secure_boot_check_rollback (v : Z) : BM bool :=
  c ← gets id;
  min_ver ← of_option (min_version c !! Z.to_nat (stage_num (current_stage c)));
  mret (min_ver <=? v).

(** The header in memory. *)
Definition header_bytes (h : ImageHeader) : list Z :=
  magic h ++ le_bytes 4 (version h) ++ le_bytes 4 (image_size h) ++ le_bytes 4 (load_addr h) ++ le_bytes 4 (entry_point h) ++
  image_hash h ++ hdr_pubkey_hash h ++ le_bytes 4 (flags h) ++ le_bytes 4 (rollback_ctr h) ++ reserved h.
(** "SBOT" *)
Definition image_magic : list Z := [83; 66; 79; 84].
Definition secure_boot_verify_image (img : SignedImage) : BM BootError :=
  let h := header img in
  if negb (bool_decide (take 4 (magic h) = image_magic)) then fail BOOT_ERR_HASH
  else
    ok ← secure_boot_check_rollback (rollback_ctr h);
    if negb ok then mret BOOT_ERR_ROLLBACK
    else
      hb ← memcpy_bytes (header_bytes h) IMAGE_HEADER_SIZE;
      pb ← memcpy_bytes (payload img) (if image_size h <? IMAGE_MAX_SIZE then image_size h else IMAGE_MAX_SIZE);
      computed ← boot_hash256 (hb ++ pb) (int_of (IMAGE_HEADER_SIZE +32 image_size h));
      if negb (same_bytes 16 computed (image_hash h)) then fail BOOT_ERR_SIG else mret BOOT_OK.

(** ** Policy, debugging, certificates *)

Definition secure_boot_set_policy (p : BootFailPolicy) : BM unit := modify (set_policy p).
Definition secure_boot_lock_debug : BM unit := modify (set_debug_state DEBUG_LOCKED).

(** What the device expects, byte by byte. *)
Definition debug_response (key challenge : list Z) : list Z := imap (fun i c => Z.lxor (Z.lxor c 0xA5) (at_ key (Z.of_nat i mod PUBKEY_HASH_SIZE))) challenge.
Definition secure_boot_debug_auth (challenge response : list Z) (len : Z) : BM DebugAuthState :=
  let n := Z.max 0 (Z.min 16 len) in
  c ← memcpy_bytes challenge n;
  key ← gets pubkey_hash;
  ok ← cmp_loop (Z.to_nat n) 0 (debug_response key c) response;
  if negb ok then mret DEBUG_LOCKED else modify (set_debug_state DEBUG_UNLOCKED_TEMP);; mret DEBUG_UNLOCKED_TEMP.

Definition secure_boot_get_state : BM (list Z) :=
  c ← gets id; mret (<[1%nat := u8 (stage_num (current_stage c))]> (<[0%nat := u8 (debug_num (debug_state c))]> (boot_state c))).

(** [prev] is the certificate before the first of [certs]. *)
Fixpoint cert_loop (n : nat) (prev : option BootCertificate) (certs : list BootCertificate) : BM unit :=
  match n with
  | O => mret tt
  | S n =>
      match certs with
      | [] => undefined
      | c :: certs =>
          digest ← boot_hash256 (cert_data c) (int_of (cert_len c));
          (match prev with
           | Some p => if same_bytes 8 digest (issuer_hash p) then mret tt else modify (set_last_error BOOT_ERR_SIG)
           | None => mret tt
           end);;
          cert_loop n (Some c) certs
      end
  end.
Definition secure_boot_cert_chain_verify (certs : list BootCertificate) (count : Z) : BM unit := cert_loop (Z.to_nat (Z.min count MAX_CERTS)) None certs.

Definition secure_boot_otp_write (fuse_idx value : Z) : BM unit := mret tt.
Definition secure_boot_otp_read (fuse_idx : Z) : BM Z :=
  if (fuse_idx <? 0) || (OTP_FUSE_COUNT <=? fuse_idx) then mret 0
  else
    key ← gets pubkey_hash;
    let b k := at_ key ((fuse_idx + k) mod PUBKEY_HASH_SIZE) in
    mret (Z.lor (Z.lor (Z.lor (b 0) (Z.shiftl (b 1) 8)) (Z.shiftl (b 2) 16)) (Z.shiftl (b 3) 24)).

(** ** Measured boot *)

Definition secure_boot_measured_extend (stage : BootStage) (measurement : list Z) (mlen : Z) : BM unit :=
  s ← gets boot_state;
  let cplen := if mlen <? 64 then mlen else 64 in
  m ← memcpy_bytes measurement cplen;
  d ← boot_hash256 (s ++ m) (BOOT_STATE_SIZE + cplen);
  modify (set_boot_state d).

Definition secure_boot_verify_golden_measurement (golden_pcr : list Z) (pcr_len : Z) : BM bool :=
  let cplen := if pcr_len <? BOOT_STATE_SIZE then pcr_len else BOOT_STATE_SIZE in
  s ← gets boot_state;
  cmp_loop (Z.to_nat cplen) 0 s golden_pcr.

Definition secure_boot_enforce_policy (error : BootError) : BM BootError :=
  c ← gets id;
  match policy c with
  | BOOT_POLICY_FAIL_STOP => modify (fun c => set_last_error error (set_secure_boot_enabled false c));; mret error
  | BOOT_POLICY_FAIL_RECOVER => when (negb (bool_decide (error = BOOT_ERR_ROLLBACK))) (modify (set_last_error error));; mret BOOT_OK
  | BOOT_POLICY_FAIL_REPORT => modify (set_last_error error);; mret BOOT_OK
  | BOOT_POLICY_FAIL_DEBUG =>
      if bool_decide (debug_state c = DEBUG_UNLOCKED_TEMP) || bool_decide (debug_state c = DEBUG_UNLOCKED_PERM) then mret BOOT_OK
      else modify (set_last_error error);; mret error
  end.

Definition secure_boot_verify_root_of_trust (root_cert : BootCertificate) : BM bool :=
  d ← boot_hash256 (cert_data root_cert) (int_of (cert_len root_cert));
  key ← gets pubkey_hash;
  mret (same_bytes 16 d key).

Definition secure_boot_program_fuse (fuse_idx value : Z) : BM unit :=
  if (fuse_idx <? 0) || (OTP_FUSE_COUNT <=? fuse_idx) then mret tt else secure_boot_otp_write fuse_idx value.

Definition secure_boot_check_control_flow : BM bool :=
  c ← gets id;
  mret (truthy (Z.lxor (Z.lxor (stage_num (current_stage c)) (Z.shiftl (debug_num (debug_state c)) 8)) (if secure_boot_enabled c then 0xDEADBEEF else 0))).

Definition secure_boot_hsm_init (hsm_pubkey : list Z) (klen : Z) : BM unit :=
  bs ← memcpy_bytes hsm_pubkey (if klen <? PUBKEY_HASH_SIZE then klen else PUBKEY_HASH_SIZE);
  modify (fun c => set_policy BOOT_POLICY_FAIL_STOP (set_secure_boot_enabled true (set_pubkey_hash (overlay bs (pubkey_hash c)) c))).

(** ** What the hash looks at *)

Definition boot_digest (data : list Z) (len : Z) : list Z := digest_bytes (boot_loop (Z.to_nat (len / 64 + 1)) data len 0 sha_h).

Lemma boot_hash_ok {S} data len (s : S) :
  len < 2 ^ 31 - 64 -> len <= 0 \/ 4 * (len / 4) <= Z.of_nat (length data) -> boot_hash256 data len s = Done (boot_digest data len, s).
Proof.
  intros H1 H2. unfold boot_hash256. destruct (Z.leb_spec (2 ^ 31 - 64) len); [lia|]. cbn [orb].
  destruct (Z.ltb_spec 0 len); cbn [andb]; [|done]. by destruct (Z.ltb_spec (Z.of_nat (length data)) (4 * (len / 4))); [lia|].
Qed.

(** The fuel is enough: more makes no difference. *)
Lemma boot_loop_fuel fuel fuel' data len pos h :
  0 <= pos -> Z.max 0 (len - pos + 1) <= 64 * Z.of_nat fuel -> (fuel <= fuel')%nat -> boot_loop fuel' data len pos h = boot_loop fuel data len pos h.
Proof.
  revert fuel' pos h. induction fuel as [|fuel IH]; intros fuel' pos h Hp Hf Hle.
  - destruct fuel' as [|fuel']; cbn [boot_loop]; [done|]. destruct (Z.leb_spec pos len); [lia|done].
  - destruct fuel' as [|fuel']; [lia|]. cbn [boot_loop]. destruct (Z.leb_spec pos len); [|done]. destruct (Z.ltb_spec len (pos + 64)); [done|]. apply IH; lia.
Qed.

Lemma msg_word_agree d d' len pos i :
  0 <= pos -> 0 <= i -> (forall j, 0 <= j < 4 -> pos + i * 4 + j < len -> at_ d (pos + i * 4 + j) = at_ d' (pos + i * 4 + j)) -> msg_word d len pos i = msg_word d' len pos i.
Proof.
  intros Hp Hi H. unfold msg_word. assert (forall k s, 0 <= k < 4 -> (if pos + i * 4 + k <? len then u32 (Z.shiftl (at_ d (pos + i * 4 + k)) s) else 0) =
    (if pos + i * 4 + k <? len then u32 (Z.shiftl (at_ d' (pos + i * 4 + k)) s) else 0)) as E.
  { intros k s Hk. destruct (Z.ltb_spec (pos + i * 4 + k) len); [|done]. by rewrite H. }
  by rewrite !E by lia.
Qed.

Lemma at_app_words (f : Z -> Z) n k j : 0 <= n -> 0 <= j -> at_ ((f <$> seqZ 0 n) ++ replicate k 0) j = if j <? n then f j else at_ (replicate k 0) (j - n).
Proof.
  intros Hn Hj. unfold at_. destruct (Z.ltb_spec j n).
  - rewrite lookup_total_app_l by (rewrite length_fmap, length_seqZ; lia). apply (at_seq f n j). lia.
  - rewrite lookup_total_app_r by (rewrite length_fmap, length_seqZ; lia). rewrite length_fmap, length_seqZ. f_equal. lia.
Qed.

Lemma length_set_byte w p v : length (set_byte w p v) = length w.
Proof. apply length_alter. Qed.
Lemma at_set_byte w p v j : 0 <= p < 64 -> (16 <= length w)%nat -> 0 <= j -> at_ (set_byte w p v) j =
  if decide (p / 4 = j) then (let x := at_ w j in x - Z.shiftl (u8 (Z.shiftr x (8 * (p mod 4)))) (8 * (p mod 4)) + Z.shiftl v (8 * (p mod 4))) else at_ w j.
Proof.
  intros Hp Hl Hj. assert (0 <= p / 4 < 16) as Hq by (Z.div_mod_to_equations; lia). unfold set_byte, at_. destruct (decide (p / 4 = j)) as [<-|Hne].
  - by rewrite list_lookup_total_alter_eq by lia.
  - by rewrite list_lookup_total_alter_ne by lia.
Qed.

(** The words of a block depend on the bytes of its whole words; in the last block not on those from byte 56 on. *)
Lemma boot_words_agree d d' len pos :
  0 <= pos -> pos <= len -> (forall j, pos <= j < pos + 64 -> j < pos + 4 * ((len - pos) / 4) -> pos + 64 <= len \/ j < pos + 56 -> at_ d j = at_ d' j) ->
  boot_words d len pos = boot_words d' len pos.
Proof.
  intros Hp Hl H. unfold boot_words. set (chunk := if len - pos <? 64 then len - pos else 64).
  assert (0 <= chunk <= 64 /\ (chunk < 64 -> chunk = len - pos)) as [Hc Hc'] by (unfold chunk; destruct (Z.ltb_spec (len - pos) 64); lia).
  set (w := (msg_word d len pos <$> _) ++ _). set (w' := (msg_word d' len pos <$> _) ++ _).
  assert (0 <= chunk / 4 <= 16) as Hq by (Z.div_mod_to_equations; lia).
  assert (length w = 64%nat /\ length w' = 64%nat) as [Hw Hw'] by (unfold w, w'; rewrite !length_app, !length_fmap, !length_seqZ, !length_replicate; lia).
  assert (forall j, 0 <= j < 64 -> pos + 64 <= len \/ j < 14 -> at_ w j = at_ w' j) as Hag.
  { intros j Hj Hor. unfold w, w'. rewrite !at_app_words by lia. destruct (Z.ltb_spec j (chunk / 4)); [|done]. apply msg_word_agree; [lia|lia|].
    intros k Hk Hlt. apply H; [lia| |lia]. unfold chunk in *. destruct (Z.ltb_spec (len - pos) 64); Z.div_mod_to_equations; lia. }
  unfold fill_16_64 at 1 3. apply (fill_forgets (schedule simple_rotl) 48 16); [intros; by apply schedule_agree|lia|done| |].
  - destruct (_ && _); [|done]. rewrite !length_insert. destruct (56 <=? chunk); by rewrite ?length_fill, length_set_byte.
  - destruct (Z.ltb_spec len (pos + 64)); cbn [andb]; [|split; [congruence|intros j Hj; apply Hag; lia]].
    destruct (Z.ltb_spec chunk 64); [|unfold chunk in *; destruct (Z.ltb_spec (len - pos) 64); lia].
    assert (forall x, length (if 56 <=? chunk then fill_16_64 mix (set_byte x chunk 128) else set_byte x chunk 128) = length x) as Hfl
      by (intros x; destruct (56 <=? chunk); by rewrite ?length_fill, length_set_byte).
    split; [rewrite !length_insert, !Hfl; congruence|]. intros j Hj. change 15%nat with (Z.to_nat 15). change 14%nat with (Z.to_nat 14).
    rewrite !at_insert by (rewrite ?length_insert, ?Hfl; lia). destruct (decide (15 = j)); [done|]. destruct (decide (14 = j)); [done|].
    assert (forall x, length x = 64%nat -> at_ (if 56 <=? chunk then fill_16_64 mix (set_byte x chunk 128) else set_byte x chunk 128) j = at_ (set_byte x chunk 128) j) as Hf
      by (intros x Hx; destruct (56 <=? chunk); [apply at_fill_low; [by rewrite length_set_byte|lia]|done]).
    rewrite !Hf by done. rewrite !at_set_byte by lia. by rewrite Hag by lia.
Qed.

Lemma boot_loop_agree fuel d d' len pos h :
  0 <= pos -> pos mod 64 = 0 -> (forall j, pos <= j < 4 * (len / 4) -> j < 64 * (len / 64) + 56 -> at_ d j = at_ d' j) -> boot_loop fuel d len pos h = boot_loop fuel d' len pos h.
Proof.
  revert pos h. induction fuel as [|fuel IH]; intros pos h Hp Hm H; cbn [boot_loop]; [done|]. destruct (Z.leb_spec pos len); [|done].
  rewrite (boot_words_agree d d') by (first [lia | intros j Hj Hj4 Hor; apply H; Z.div_mod_to_equations; lia]).
  destruct (Z.ltb_spec len (pos + 64)); [done|]. apply IH; [lia| |intros j Hj; apply H; lia]. Z.div_mod_to_equations. lia.
Qed.

(** The hash is blind to the end of its input.  Two messages of one length have the same digest when they agree on their whole words, and in the last block on
    the first 56 bytes: the one to three bytes behind the last whole word, and the word before the length, do not count. *)
Theorem boot_hash_blind d d' len (c : SecureBootCtx) :
  0 <= len < 2 ^ 31 - 64 -> len <= Z.of_nat (length d) -> len <= Z.of_nat (length d') ->
  (forall j, 0 <= j < 4 * (len / 4) -> j < 64 * (len / 64) + 56 -> at_ d j = at_ d' j) ->
  boot_hash256 d len c = boot_hash256 d' len c /\ exists x, boot_hash256 d len c = Done (x, c).
Proof.
  intros Hl Hd Hd' H. rewrite !boot_hash_ok by (try (right; Z.div_mod_to_equations); lia). split; [|by eexists].
  unfold boot_digest. by rewrite (boot_loop_agree _ d d') by (done || lia).
Qed.

(** ** Images *)

Definition header_wf (h : ImageHeader) : Prop :=
  bytes_of_length 4 (magic h) /\ bytes_of_length 32 (image_hash h) /\ bytes_of_length 32 (hdr_pubkey_hash h) /\ bytes_of_length 12 (reserved h) /\ is_u32 (image_size h).
Definition image_wf (img : SignedImage) : Prop := header_wf (header img) /\ Z.of_nat (length (payload img)) = IMAGE_MAX_SIZE.

(** The message whose hash an image must carry: 64 of the 104 bytes of the header, the hash among them, and the payload. *)
Definition image_message (img : SignedImage) : list Z := take 64 (header_bytes (header img)) ++ take (Z.to_nat (image_size (header img))) (payload img).

Lemma length_header_bytes h : header_wf h -> length (header_bytes h) = 104%nat.
Proof. intros ([H1 _] & [H2 _] & [H3 _] & [H4 _] & _). unfold header_bytes. rewrite !length_app, !length_le_bytes. lia. Qed.

Lemma verify_image_run img c v (msg : list Z) len :
  image_wf img -> take 4 (magic (header img)) = image_magic -> min_version c !! Z.to_nat (stage_num (current_stage c)) = Some v -> v <= rollback_ctr (header img) ->
  msg = take 64 (header_bytes (header img)) ++ take (Z.to_nat (Z.min (image_size (header img)) IMAGE_MAX_SIZE)) (payload img) ->
  len = int_of (IMAGE_HEADER_SIZE +32 image_size (header img)) ->
  secure_boot_verify_image img c =
    (computed ← boot_hash256 msg len; if negb (same_bytes 16 computed (image_hash (header img))) then fail BOOT_ERR_SIG else mret BOOT_OK) c.
Proof.
  intros [Hh Hp] Hmg Hv Hr Hmsg Hlen. pose proof (length_header_bytes _ Hh) as Hl. destruct Hh as (_ & _ & _ & _ & Hs). unfold is_u32 in Hs.
  unfold secure_boot_verify_image. cbv zeta. rewrite bool_decide_true by done. cbn [negb]. unfold secure_boot_check_rollback. rewrite bind_assoc, bind_gets.
  unfold id. rewrite Hv. cbn [of_option]. rewrite bind_assoc, !bind_ret. destruct (Z.leb_spec v (rollback_ctr (header img))); [|lia]. cbn [negb].
  erewrite bind_step by (apply memcpy_bytes_ok; unfold IMAGE_HEADER_SIZE; lia). change (Z.to_nat IMAGE_HEADER_SIZE) with 64%nat.
  assert ((if image_size (header img) <? IMAGE_MAX_SIZE then image_size (header img) else IMAGE_MAX_SIZE) = Z.min (image_size (header img)) IMAGE_MAX_SIZE) as ->
    by (destruct (Z.ltb_spec (image_size (header img)) IMAGE_MAX_SIZE); lia).
  erewrite bind_step by (apply memcpy_bytes_ok; unfold IMAGE_MAX_SIZE in *; lia). by rewrite <- Hmsg, <- Hlen.
Qed.

(** C33: what the image check decides.  An image that fits is accepted just when the magic is right, its rollback counter is at least the floor of the current stage and
    its hash field starts with the 16 first bytes of the hash of the header's first 64 bytes and the payload; else it is refused with the error of the first test that
    fails.  The signature, the flags and the bytes behind the image play no part, and the rollback counter, which lies outside those 64 bytes, can be raised in any image. *)
Theorem verify_image_correct img c :
  image_wf img -> 0 <= image_size (header img) <= IMAGE_MAX_SIZE -> stage_num (current_stage c) < Z.of_nat (length (min_version c)) ->
  exists e c', secure_boot_verify_image img c = Done (e, c') /\ c' = (if bool_decide (e = BOOT_ERR_HASH \/ e = BOOT_ERR_SIG) then set_last_error e c else c) /\
    let magic_ok := take 4 (magic (header img)) = image_magic in
    let fresh := at_ (min_version c) (stage_num (current_stage c)) <= rollback_ctr (header img) in
    let hash_ok := take 16 (boot_digest (image_message img) (64 + image_size (header img))) = take 16 (image_hash (header img)) in
    (e = BOOT_OK <-> magic_ok /\ fresh /\ hash_ok) /\ (e = BOOT_ERR_HASH <-> ~ magic_ok) /\ (e = BOOT_ERR_ROLLBACK <-> magic_ok /\ ~ fresh) /\
    (e = BOOT_ERR_SIG <-> magic_ok /\ fresh /\ ~ hash_ok).
Proof.
  intros Hw Hs Hst. cbv zeta. set (h := header img) in *. destruct (lookup_lt_is_Some_2 (min_version c) (Z.to_nat (stage_num (current_stage c)))) as [v Hv].
  { destruct (current_stage c); cbn [stage_num] in *; lia. }
  assert (at_ (min_version c) (stage_num (current_stage c)) = v) as -> by (by apply list_lookup_total_correct).
  destruct (decide (take 4 (magic h) = image_magic)) as [Hmg|Hmg].
  2:{ exists BOOT_ERR_HASH, (set_last_error BOOT_ERR_HASH c). split; [unfold secure_boot_verify_image; cbv zeta; fold h; by rewrite bool_decide_false by done|].
      split; [done|]. naive_solver. }
  destruct (Z.leb_spec v (rollback_ctr h)) as [Hr|Hr].
  2:{ exists BOOT_ERR_ROLLBACK, c. split.
      - unfold secure_boot_verify_image. cbv zeta. fold h. rewrite bool_decide_true by done. cbn [negb]. unfold secure_boot_check_rollback.
        rewrite bind_assoc, bind_gets. unfold id. rewrite Hv. cbn [of_option]. rewrite bind_assoc, !bind_ret. by destruct (Z.leb_spec v (rollback_ctr h)); [lia|].
      - split; [done|]. assert (~ v <= rollback_ctr h) by lia. naive_solver. }
  assert (int_of (IMAGE_HEADER_SIZE +32 image_size h) = 64 + image_size h) as Hlen.
  { unfold int_of, IMAGE_HEADER_SIZE, IMAGE_MAX_SIZE in *. rewrite (u32_small (64 + image_size h)), u32_small; lia. }
  rewrite (verify_image_run img c v (image_message img) (64 + image_size h) Hw Hmg Hv Hr); [|unfold image_message; fold h; by rewrite Z.min_l by lia|done].
  destruct Hw as [Hh Hp]. fold h in Hh. unfold IMAGE_MAX_SIZE in *. erewrite bind_step by (apply boot_hash_ok; [lia|right]; unfold image_message; fold h;
    rewrite length_app, !length_take, length_header_bytes by done; Z.div_mod_to_equations; lia).
  unfold same_bytes. set (dg := boot_digest _ _). destruct (decide (take 16 dg = take 16 (image_hash h))) as [He|He].
  - rewrite bool_decide_true by done. exists BOOT_OK, c. split; [done|]. split; [done|]. naive_solver.
  - rewrite bool_decide_false by done. exists BOOT_ERR_SIG, (set_last_error BOOT_ERR_SIG c). split; [done|]. split; [done|]. naive_solver.
Qed.

(** A forged image.  An image that claims a size from 2^31 - 64 up to 2^32 - 65 bytes makes the length of the hashed message negative: nothing is hashed, and the
    image is accepted, whatever its payload, load address, entry point and signature, if its hash field starts with the hash's initial constants. *)
Theorem forged_image_accepted img c v :
  image_wf img -> take 4 (magic (header img)) = image_magic -> take 16 (image_hash (header img)) = take 16 (digest_bytes sha_h) ->
  2 ^ 31 - 64 <= image_size (header img) < 2 ^ 32 - 64 -> min_version c !! Z.to_nat (stage_num (current_stage c)) = Some v -> v <= rollback_ctr (header img) ->
  secure_boot_verify_image img c = Done (BOOT_OK, c).
Proof.
  intros Hw Hmg Hh Hs Hv Hr. rewrite (verify_image_run img c v _ (image_size (header img) + 64 - 2 ^ 32) Hw Hmg Hv Hr eq_refl).
  - assert (2 ^ 32 = 4294967296) as E32 by done. erewrite bind_step by (apply boot_hash_ok; [lia|left; lia]). unfold boot_digest.
    assert (Z.to_nat ((image_size (header img) + 64 - 2 ^ 32) / 64 + 1) = 0%nat) as -> by (Z.div_mod_to_equations; lia). cbn [boot_loop]. unfold same_bytes. by rewrite bool_decide_true.
  - unfold int_of, IMAGE_HEADER_SIZE. rewrite (u32_small (64 + _)) by lia. unfold u32. assert (2 ^ 32 = 4294967296) as E32 by done. Z.div_mod_to_equations. lia.
Qed.

(** ** Stages *)

Lemma chain_verify_run from to image len c :
  stage_num from < stage_num to -> len < 2 ^ 31 - 64 -> len <= Z.of_nat (length image) ->
  let d := boot_digest image len in
  secure_boot_chain_verify from to image len c =
    Done (if bool_decide (to = BOOT_STAGE_KERNEL) && negb (same_bytes 8 d kernel_mark) then (BOOT_ERR_HASH, set_last_error BOOT_ERR_HASH c)
          else if bool_decide (debug_state c = DEBUG_LOCKED) && same_bytes 4 d (rom_hash c) then (BOOT_ERR_LOCKED, set_last_error BOOT_ERR_LOCKED c)
          else (BOOT_OK, set_current_stage to c)).
Proof.
  intros Hft Hl Hi d. unfold secure_boot_chain_verify. destruct (Z.leb_spec (stage_num to) (stage_num from)); [lia|].
  erewrite bind_step by (apply boot_hash_ok; [lia|Z.div_mod_to_equations; lia]). fold d.
  destruct (bool_decide (to = BOOT_STAGE_KERNEL) && negb (same_bytes 8 d kernel_mark)); [done|]. rewrite !bind_gets.
  by destruct (bool_decide (debug_state c = DEBUG_LOCKED) && same_bytes 4 d (rom_hash c)).
Qed.

(** The chain of stages is what its caller says.  Whatever the current stage, the check of a later stage than the one named moves to it unless, for the kernel, the
    image lacks the mark, or the digest starts as the ROM's does; no other stage's image is compared with anything.  From the application's stage, which has no
    rollback floor, every image with the right magic makes the check read behind the floors. *)
Theorem stage_chain_correct from to image len c :
  stage_num from < stage_num to -> len < 2 ^ 31 - 64 -> len <= Z.of_nat (length image) -> length (min_version c) = 4%nat ->
  exists e c', secure_boot_chain_verify from to image len c = Done (e, c') /\
    (e = BOOT_OK <-> (to = BOOT_STAGE_KERNEL -> take 8 (boot_digest image len) = take 8 kernel_mark) /\
                     (debug_state c = DEBUG_LOCKED -> take 4 (boot_digest image len) <> take 4 (rom_hash c))) /\
    (e = BOOT_OK -> current_stage c' = to /\
       (to = BOOT_STAGE_APP -> forall img, take 4 (magic (header img)) = image_magic -> secure_boot_verify_image img c' = UB)) /\
    (e <> BOOT_OK -> c' = set_last_error e c).
Proof.
  intros Hft Hl Hi Hm. rewrite chain_verify_run by done. cbv zeta. set (d := boot_digest image len). unfold same_bytes.
  assert (forall e c', e <> BOOT_OK -> ~ ((to = BOOT_STAGE_KERNEL -> take 8 d = take 8 kernel_mark) /\ (debug_state c = DEBUG_LOCKED -> take 4 d <> take 4 (rom_hash c))) ->
    c' = set_last_error e c -> exists e0 c0, Done (e, c') = Done (e0, c0) /\
    (e0 = BOOT_OK <-> (to = BOOT_STAGE_KERNEL -> take 8 d = take 8 kernel_mark) /\ (debug_state c = DEBUG_LOCKED -> take 4 d <> take 4 (rom_hash c))) /\
    (e0 = BOOT_OK -> current_stage c0 = to /\ (to = BOOT_STAGE_APP -> forall img, take 4 (magic (header img)) = image_magic -> secure_boot_verify_image img c0 = UB)) /\
    (e0 <> BOOT_OK -> c0 = set_last_error e0 c)) as Hbad by (intros e c' H1 H2 H3; exists e, c'; naive_solver).
  destruct (bool_decide (to = BOOT_STAGE_KERNEL) && negb (bool_decide (take 8 d = take 8 kernel_mark))) eqn:E1.
  { apply andb_true_iff in E1 as [Ek%bool_decide_eq_true Em%negb_true_iff%bool_decide_eq_false]. apply Hbad; [done| |done]. intros [H _]. by apply Em, H. }
  destruct (bool_decide (debug_state c = DEBUG_LOCKED) && bool_decide (take 4 d = take 4 (rom_hash c))) eqn:E2.
  { apply andb_true_iff in E2 as [Ek%bool_decide_eq_true Em%bool_decide_eq_true]. apply Hbad; [done| |done]. intros [_ H]. by apply (H Ek). }
  exists BOOT_OK, (set_current_stage to c). split; [done|]. split; [|split; [|done]].
  - split; [intros _|done]. apply andb_false_iff in E1. apply andb_false_iff in E2. rewrite negb_false_iff, !bool_decide_eq_false in E1.
    rewrite !bool_decide_eq_false in E2. rewrite bool_decide_eq_true in E1. split; [intros ->; by destruct E1|intros Hd; by destruct E2].
  - intros _. split; [done|]. intros -> img Hmg. unfold secure_boot_verify_image. cbv zeta. rewrite bool_decide_true by done. cbn [negb].
    unfold secure_boot_check_rollback. rewrite bind_assoc, bind_gets. cbn [id set_current_stage min_version current_stage stage_num]. unfold id.
    rewrite (lookup_ge_None_2 (min_version c)) by (cbn; lia). done.
Qed.

(** ** All calls *)

Inductive boot_call :=
| RomVerify (spl : list Z) (len : Z) | ChainVerify (from to : BootStage) (image : list Z) (len : Z) | VerifyImage (img : SignedImage) | SetPolicy (p : BootFailPolicy)
| LockDebug | DebugAuth (challenge response : list Z) (len : Z) | GetState | CheckRollback (v : Z) | CertChainVerify (certs : list BootCertificate) (count : Z)
| OtpWrite (i v : Z) | OtpRead (i : Z) | MeasuredExtend (stage : BootStage) (m : list Z) (mlen : Z) | VerifyGolden (g : list Z) (n : Z) | EnforcePolicy (e : BootError)
| VerifyRoot (cert : BootCertificate) | ProgramFuse (i v : Z) | CheckControlFlow | HsmInit (key : list Z) (klen : Z).
Definition run_call (c : boot_call) : BM unit :=
  match c with
  | RomVerify spl len => secure_boot_rom_verify spl len;; mret tt
  | ChainVerify from to image len => secure_boot_chain_verify from to image len;; mret tt
  | VerifyImage img => secure_boot_verify_image img;; mret tt
  | SetPolicy p => secure_boot_set_policy p
  | LockDebug => secure_boot_lock_debug
  | DebugAuth challenge response len => secure_boot_debug_auth challenge response len;; mret tt
  | GetState => secure_boot_get_state;; mret tt
  | CheckRollback v => secure_boot_check_rollback v;; mret tt
  | CertChainVerify certs count => secure_boot_cert_chain_verify certs count
  | OtpWrite i v => secure_boot_otp_write i v
  | OtpRead i => secure_boot_otp_read i;; mret tt
  | MeasuredExtend stage m mlen => secure_boot_measured_extend stage m mlen
  | VerifyGolden g n => secure_boot_verify_golden_measurement g n;; mret tt
  | EnforcePolicy e => secure_boot_enforce_policy e;; mret tt
  | VerifyRoot cert => secure_boot_verify_root_of_trust cert;; mret tt
  | ProgramFuse i v => secure_boot_program_fuse i v
  | CheckControlFlow => secure_boot_check_control_flow;; mret tt
  | HsmInit key klen => secure_boot_hsm_init key klen
  end.
Fixpoint run_calls (cs : list boot_call) : BM unit := match cs with [] => mret tt | c :: cs => run_call c;; run_calls cs end.

Section frame.
Context (P : SecureBootCtx -> Prop).

Lemma keeps_boot_hash data len : keeps P (boot_hash256 data len).
Proof. unfold boot_hash256. keeps_auto. Qed.
Lemma keeps_memcpy l len : keeps P (memcpy_bytes l len).
Proof. unfold memcpy_bytes, loop_bytes. keeps_auto. Qed.
Lemma keeps_of_option {A} (o : option A) : keeps P (of_option o).
Proof. destruct o; cbn; keeps_auto. Qed.
Lemma keeps_cmp n i a b : keeps P (cmp_loop n i a b).
Proof. revert i. induction n as [|n IH]; intros i; cbn [cmp_loop]; [keeps_auto|]. apply keeps_bind; [apply keeps_of_option|intros x]. apply keeps_bind; [apply keeps_of_option|intros y]. keeps_auto. Qed.
Hint Resolve keeps_boot_hash keeps_memcpy keeps_of_option keeps_cmp : keeps.

Context (He : forall e c, P c -> P (set_last_error e c)) (Hst : forall st c, P c -> P (set_current_stage st c)) (Hp : forall p c, P c -> P (set_policy p c))
  (Hb : forall b c, P c -> P (set_boot_state b c)) (Hen : forall e c, P c -> P (set_secure_boot_enabled e c)) (Hk : forall k c, P c -> P (set_pubkey_hash k c)).

Lemma keeps_cert_loop n prev certs : keeps P (cert_loop n prev certs).
Proof.
  revert prev certs. induction n as [|n IH]; intros prev certs; cbn [cert_loop]; [keeps_auto|]. destruct certs as [|c certs]; [keeps_auto|].
  apply keeps_bind; [keeps_auto|intros d]. apply keeps_bind; [|by intros _]. destruct prev; [|keeps_auto]. apply keeps_if; [keeps_auto|]. apply keeps_modify. auto.
Qed.
(** What only the other calls change. *)
Lemma keeps_run_call c : (forall ch r l, c <> DebugAuth ch r l) -> c <> LockDebug -> keeps P (run_call c).
Proof.
  intros H1 H2. destruct c; cbn [run_call]; try done; try by destruct (H1 challenge response len).
  all: unfold secure_boot_rom_verify, secure_boot_chain_verify, secure_boot_verify_image, secure_boot_set_policy, secure_boot_get_state, secure_boot_check_rollback,
    secure_boot_cert_chain_verify, secure_boot_otp_write, secure_boot_otp_read, secure_boot_measured_extend, secure_boot_verify_golden_measurement,
    secure_boot_enforce_policy, secure_boot_verify_root_of_trust, secure_boot_program_fuse, secure_boot_check_control_flow, secure_boot_hsm_init, secure_boot_otp_write,
    fail; cbv zeta.
  all: keeps_auto; try (apply keeps_modify; intros; eauto); try apply keeps_cert_loop.
Qed.
End frame.

Lemma cmp_loop_true {S} n i a b (s s' : S) : cmp_loop n i a b s = Done (true, s') -> forall k, (i <= k < i + n)%nat -> exists x, a !! k = Some x /\ b !! k = Some x.
Proof.
  revert i. induction n as [|n IH]; intros i E k Hk; [lia|]. cbn [cmp_loop] in E. unfold of_option in E.
  destruct (a !! i) as [x|] eqn:Ea; [|done]. destruct (b !! i) as [y|] eqn:Eb; [|done]. rewrite !bind_ret in E. destruct (Z.eqb_spec x y) as [<-|]; [|done].
  destruct (decide (k = i)) as [->|Hne]; [by exists x|]. apply (IH (i + 1)%nat E). lia.
Qed.

(** The response that the device expects to a challenge, on the bytes that are compared. *)
Definition accepted (key challenge response : list Z) (len : Z) : Prop :=
  forall i, Z.of_nat i < Z.min 16 len -> exists x, challenge !! i = Some x /\ response !! i = Some (Z.lxor (Z.lxor x 0xA5) (at_ key (Z.of_nat i mod 32))).

Lemma debug_auth_unlocks ch r len c d c' :
  secure_boot_debug_auth ch r len c = Done (d, c') -> c' = c \/ accepted (pubkey_hash c) ch r len.
Proof.
  unfold secure_boot_debug_auth. cbv zeta. set (n := Z.max 0 (Z.min 16 len)). intros E. apply bind_Done in E as (bs & c1 & E1 & E).
  assert (c1 = c /\ bs = take (Z.to_nat n) ch) as [-> ->].
  { unfold memcpy_bytes, loop_bytes in E1. destruct (Z.ltb_spec n 0); [lia|]. destruct (Z.leb_spec n 0) as [Hn|]; [replace n with 0 by lia; by injection E1 as <- <-|].
    destruct (Z.of_nat (length ch) <? n); [done|]. by injection E1 as <- <-. }
  rewrite bind_gets in E. apply bind_Done in E as (ok & c2 & E2 & E). assert (c2 = c) as -> by (eapply (keeps_cmp (fun x => x = c)); [|exact E2]; done).
  destruct ok; cbn [negb] in E; [right|left; by injection E as _ <-]. intros i Hi.
  destruct (cmp_loop_true _ _ _ _ _ _ E2 i ltac:(lia)) as (x & Ex & Er). unfold debug_response in Ex. rewrite list_lookup_imap, lookup_take_lt in Ex by lia.
  destruct (ch !! i) as [y|]; [|done]. injection Ex as <-. by exists y.
Qed.

Lemma run_calls_app l1 l2 c : run_calls (l1 ++ l2) c = (run_calls l1;; run_calls l2) c.
Proof.
  revert c. induction l1 as [|x l1 IH]; intros c; cbn [app run_calls]; [done|]. rewrite bind_assoc. apply bind_agree. intros [] c1 _. apply IH.
Qed.

(** What no call changes, and how debugging is unlocked.  After any sequence of calls the ROM's hash and the rollback floors are what they were; and if debugging was
    locked before and is not after, the sequence has an authentication whose response agrees with the device's on the bytes compared, at most sixteen and none for a
    length of zero, and no locking after it. *)
Theorem boot_calls_invariant cs c c' :
  run_calls cs c = Done (tt, c') ->
  (rom_hash c' = rom_hash c /\ min_version c' = min_version c) /\
  (debug_state c = DEBUG_LOCKED -> debug_state c' <> DEBUG_LOCKED -> exists l1 ch r len l2 c1, cs = l1 ++ DebugAuth ch r len :: l2 /\ LockDebug ∉ l2 /\
     run_calls l1 c = Done (tt, c1) /\ accepted (pubkey_hash c1) ch r len).
Proof.
  revert c'. induction cs as [|x cs IH] using rev_ind; intros c' E.
  { injection E as <-. split; [done|]. by intros H1 H2. }
  rewrite run_calls_app in E. apply bind_Done in E as ([] & c1 & E1 & E2). cbn [run_calls] in E2. apply bind_Done in E2 as ([] & c2 & E2 & E3). injection E3 as <-.
  destruct (IH c1 E1) as [[Hr Hm] Hd]. assert ((exists ch r len, x = DebugAuth ch r len) \/ x = LockDebug \/ (forall ch r l, x <> DebugAuth ch r l) /\ x <> LockDebug) as [(ch & r & len & ->)|[->|[Hna Hnl]]]
    by (destruct x; eauto 10; right; right; done).
  { cbn [run_call] in E2. apply bind_Done in E2 as (d & c3 & E2 & [= ->]). destruct (debug_auth_unlocks _ _ _ _ _ _ E2) as [->|Hacc].
    - split; [done|]. intros H1 H2. destruct (Hd H1 H2) as (l1 & ch' & r' & len' & l2 & cx & -> & Hl & Hrun & Ha). exists l1, ch', r', len', (l2 ++ [DebugAuth ch r len]), cx.
      split; [by rewrite <- app_assoc|]. split; [|done]. rewrite elem_of_app, list_elem_of_singleton. by intros [|].
    - split.
      + assert (keeps (fun y => rom_hash y = rom_hash c /\ min_version y = min_version c) (secure_boot_debug_auth ch r len)) as Hk.
        { unfold secure_boot_debug_auth. cbv zeta. apply keeps_bind; [apply keeps_memcpy|intros]. apply keeps_bind; [apply keeps_gets|intros].
          apply keeps_bind; [apply keeps_cmp|intros]. keeps_auto. by apply keeps_modify. }
        by apply (Hk _ _ _ (conj Hr Hm) E2).
      + intros _ _. exists cs, ch, r, len, [], c1. split; [done|]. split; [apply not_elem_of_nil|done]. }
  { injection E2 as <-. split; [done|]. by intros _ []. }
  assert (rom_hash c2 = rom_hash c1 /\ min_version c2 = min_version c1 /\ debug_state c2 = debug_state c1) as (K1 & K2 & K3).
  { apply (keeps_run_call (fun y => rom_hash y = rom_hash c1 /\ min_version y = min_version c1 /\ debug_state y = debug_state c1)
      ltac:(done) ltac:(done) ltac:(done) ltac:(done) ltac:(done) ltac:(done) x Hna Hnl _ _ _ (conj eq_refl (conj eq_refl eq_refl)) E2). }
  split; [by rewrite K1, K2|]. rewrite K3. intros H1 H2. destruct (Hd H1 H2) as (l1 & ch' & r' & len' & l2 & cx & -> & Hl & Hrun & Ha).
  exists l1, ch', r', len', (l2 ++ [x]), cx. split; [by rewrite <- app_assoc|]. split; [|done]. rewrite elem_of_app, list_elem_of_singleton. by intros [|<-].
Qed.

Lemma cmp_loop_run {S} n i a b (s : S) :
  (i + n <= length a)%nat -> (i + n <= length b)%nat ->
  exists r, cmp_loop n i a b s = Done (r, s) /\ (r = true <-> forall k, (i <= k < i + n)%nat -> a !! k = b !! k).
Proof.
  revert i. induction n as [|n IH]; intros i Ha Hb; cbn [cmp_loop].
  { exists true. split; [done|]. split; [intros _ k Hk; lia|done]. }
  destruct (lookup_lt_is_Some_2 a i) as [x Ex]; [lia|]. destruct (lookup_lt_is_Some_2 b i) as [y Ey]; [lia|]. rewrite Ex, Ey. cbn [of_option]. rewrite !bind_ret.
  destruct (Z.eqb_spec x y) as [<-|Hne].
  - destruct (IH (i + 1)%nat ltac:(lia) ltac:(lia)) as (r & E & Hr). exists r. split; [done|]. rewrite Hr. split; intros H k Hk; [|apply H; lia].
    destruct (decide (k = i)) as [->|]; [congruence|]. apply H. lia.
  - exists false. split; [done|]. split; [done|]. intros H. specialize (H i ltac:(lia)). rewrite Ex, Ey in H. by injection H.
Qed.

(** An authentication unlocks debugging exactly when the response agrees with the expected one on the bytes compared; for a length of zero or less there are none, and
    any caller unlocks the device. *)
Theorem debug_auth_correct ch r len c :
  Z.min 16 len <= Z.of_nat (length ch) -> Z.min 16 len <= Z.of_nat (length r) ->
  (exists d c', secure_boot_debug_auth ch r len c = Done (d, c') /\
     ((d = DEBUG_UNLOCKED_TEMP /\ c' = set_debug_state DEBUG_UNLOCKED_TEMP c /\ accepted (pubkey_hash c) ch r len) \/ (d = DEBUG_LOCKED /\ c' = c /\ ~ accepted (pubkey_hash c) ch r len))) /\
  (len <= 0 -> secure_boot_debug_auth ch r len c = Done (DEBUG_UNLOCKED_TEMP, set_debug_state DEBUG_UNLOCKED_TEMP c)).
Proof.
  intros Hc Hr. split.
  - unfold secure_boot_debug_auth. cbv zeta. set (n := Z.max 0 (Z.min 16 len)). erewrite bind_step by (apply memcpy_bytes_ok; lia). rewrite bind_gets.
    set (ex := debug_response _ _). assert (length ex = Z.to_nat n) as Hl by (unfold ex, debug_response; rewrite length_imap, length_take; lia).
    destruct (cmp_loop_run (Z.to_nat n) 0 ex r c ltac:(lia) ltac:(lia)) as (b & E & Hb). rewrite (bind_step _ _ _ _ _ E).
    assert (b = true <-> accepted (pubkey_hash c) ch r len) as Hacc.
    { rewrite Hb. unfold ex, debug_response, accepted, PUBKEY_HASH_SIZE. split.
      - intros H i Hi. specialize (H i ltac:(lia)). rewrite list_lookup_imap, lookup_take_lt in H by lia. destruct (lookup_lt_is_Some_2 ch i) as [x Ex]; [lia|].
        exists x. split; [done|]. rewrite Ex in H. symmetry. exact H.
      - intros H k Hk. destruct (H k ltac:(lia)) as (x & Ex & Er). by rewrite list_lookup_imap, lookup_take_lt, Ex, Er by lia. }
    destruct b; cbn [negb]; do 2 eexists; (split; [reflexivity|]); [left|right]; split_and!; try done; [by apply Hacc|]. by intros Ha%Hacc.
  - intros Hn. unfold secure_boot_debug_auth. replace (Z.max 0 (Z.min 16 len)) with 0 by lia. done.
Qed.

(** ** Measured boot *)

Lemma length_boot_loop fuel data len pos h : length h = 8%nat -> length (boot_loop fuel data len pos h) = 8%nat.
Proof.
  revert pos h. induction fuel as [|fuel IH]; intros pos h Hh; cbn [boot_loop]; [done|]. destruct (pos <=? len); [|done].
  assert (length (boot_block h (boot_words data len pos)) = 8%nat) as Hb.
  { unfold boot_block. rewrite length_zip_with. assert (length (foldl (round simple_rotl) h (zip boot_k (boot_words data len pos))) = 8%nat) as ->; [|lia].
    apply (foldl_inv (fun x => length x = 8%nat)); [done|]. intros; by apply length_round. }
  destruct (len <? pos + 64); [done|]. by apply IH.
Qed.
Lemma length_boot_digest data len : length (boot_digest data len) = 32%nat.
Proof.
  unfold boot_digest, digest_bytes. pose proof (length_boot_loop (Z.to_nat (len / 64 + 1)) data len 0 sha_h eq_refl) as H.
  destruct (boot_loop _ _ _ _ _) as [|a [|b [|c [|d [|e [|f [|g [|h [|]]]]]]]]]; done.
Qed.

Definition extended (s m : list Z) : list Z := boot_digest (s ++ take 64 m) (32 + Z.min (Z.of_nat (length m)) 64).

Lemma extend_run stage m c :
  length (boot_state c) = 32%nat -> secure_boot_measured_extend stage m (Z.of_nat (length m)) c = Done (tt, set_boot_state (extended (boot_state c) m) c).
Proof.
  intros Hs. unfold secure_boot_measured_extend. rewrite bind_gets. cbv zeta.
  assert ((if Z.of_nat (length m) <? 64 then Z.of_nat (length m) else 64) = Z.min (Z.of_nat (length m)) 64) as -> by (destruct (Z.ltb_spec (Z.of_nat (length m)) 64); lia).
  erewrite bind_step by (apply memcpy_bytes_ok; lia). unfold BOOT_STATE_SIZE.
  assert (take (Z.to_nat (Z.min (Z.of_nat (length m)) 64)) m = take 64 m) as ->.
  { destruct (decide (length m <= 64)%nat); [rewrite !take_ge by lia; done|]. by replace (Z.to_nat (Z.min (Z.of_nat (length m)) 64)) with 64%nat by lia. }
  erewrite bind_step; [done|]. apply boot_hash_ok; [lia|right]. rewrite length_app, length_take. Z.div_mod_to_equations. lia.
Qed.

(** The measured state after a boot is the hash chain of its measurements, of each the first 64 bytes; and it does not tell two measurements apart that differ
    only behind their whole words, or, below 32 bytes, behind their first 24. *)
Theorem measured_boot_correct (ms : list (BootStage * list Z)) c :
  length (boot_state c) = 32%nat ->
  run_calls ((fun sm => MeasuredExtend sm.1 sm.2 (Z.of_nat (length sm.2))) <$> ms) c = Done (tt, set_boot_state (foldl (fun s sm => extended s sm.2) (boot_state c) ms) c) /\
  (forall m m', length m = length m' -> (length m <= 64)%nat ->
     (forall j, 0 <= j < 4 * (Z.of_nat (length m) / 4) -> ((length m < 32)%nat -> j < 24) -> at_ m j = at_ m' j) -> extended (boot_state c) m = extended (boot_state c) m').
Proof.
  intros Hs. split.
  - revert c Hs. induction ms as [|[st m] ms IH]; intros c Hs; cbn [fmap list_fmap run_calls foldl fst snd]; [by destruct c|].
    cbn [run_call]. rewrite (bind_step _ _ _ _ _ (extend_run st m c Hs)). rewrite IH by apply length_boot_digest. done.
  - intros m m' Hl H64 H. unfold extended. rewrite <- Hl, !take_ge by lia. set (n := Z.of_nat (length m)) in *. rewrite Z.min_l by lia. unfold boot_digest.
    rewrite (boot_loop_agree _ (boot_state c ++ m) (boot_state c ++ m')); [done|lia|done|]. intros j Hj Hj2. unfold at_. destruct (decide (j < 32)).
    + by rewrite !lookup_total_app_l by lia.
    + rewrite !lookup_total_app_r by lia. rewrite Hs. replace (Z.to_nat j - 32)%nat with (Z.to_nat (j - 32)) by lia.
      apply H; [|intros Hlt]; Z.div_mod_to_equations; lia.
Qed.

(** ** Policy and control flow *)

(** What a policy makes of an error: stopping keeps it and switches secure boot off; recovery and reporting let the boot go on, whatever it was; debugging lets it go on
    when debugging is unlocked. *)
Theorem enforce_policy_correct e c :
  exists r c', secure_boot_enforce_policy e c = Done (r, c') /\
    (r = BOOT_OK <-> e = BOOT_OK \/ policy c = BOOT_POLICY_FAIL_RECOVER \/ policy c = BOOT_POLICY_FAIL_REPORT \/ policy c = BOOT_POLICY_FAIL_DEBUG /\ debug_state c <> DEBUG_LOCKED) /\
    (r <> BOOT_OK -> r = e) /\ (policy c = BOOT_POLICY_FAIL_STOP -> secure_boot_enabled c' = false) /\ (policy c <> BOOT_POLICY_FAIL_STOP -> secure_boot_enabled c' = secure_boot_enabled c).
Proof.
  unfold secure_boot_enforce_policy. rewrite bind_gets. unfold id. destruct c as [? ? en p d ? ? ? ?]. cbn [policy debug_state secure_boot_enabled].
  destruct p; [| | |destruct d]; try destruct (bool_decide (e = BOOT_ERR_ROLLBACK)) eqn:Er; cbn; do 2 eexists; (split; [reflexivity|]); cbn; split_and!; naive_solver.
Qed.

(** The control-flow check fails in one state only: the ROM's stage, debugging locked, secure boot switched off, which is where the stopping policy leaves a device whose
    first check failed. *)
Theorem control_flow_correct c :
  secure_boot_check_control_flow c = Done (negb (bool_decide (current_stage c = BOOT_STAGE_ROM) && bool_decide (debug_state c = DEBUG_LOCKED) && negb (secure_boot_enabled c)), c).
Proof.
  unfold secure_boot_check_control_flow. rewrite bind_gets. unfold id, mret, M_ret. do 2 f_equal. destruct c as [? ? en ? d st ? ? ?]. cbn [current_stage debug_state secure_boot_enabled].
  by destruct st, d, en.
Qed.

(** ** Concrete runs *)

Definition demo_ctx : SecureBootCtx :=
  Ctx rom_fixed_hash otp_pubkey_hash true BOOT_POLICY_FAIL_STOP DEBUG_LOCKED BOOT_STAGE_ROM (replicate 4 1) BOOT_OK (replicate 32 0xAA).
Definition demo_image (size ctr : Z) : SignedImage :=
  Image (Header image_magic 1 size 0 0 (digest_bytes sha_h) (replicate 32 0) 0 ctr (replicate 12 0)) (replicate (Z.to_nat IMAGE_MAX_SIZE) 7) [].
Lemma demo_image_wf size ctr : is_u32 size -> image_wf (demo_image size ctr).
Proof.
  intros Hs. split; [|cbn [demo_image payload]; rewrite length_replicate; unfold IMAGE_MAX_SIZE; lia]. cbn [demo_image header].
  split; [split; [done|repeat constructor; vm_compute; congruence]|]. split; [split; [done|vm_compute; repeat constructor; congruence]|].
  split; [split; [done|by apply Forall_replicate]|]. split; [split; [done|by apply Forall_replicate]|done].
Qed.

Lemma boot_hash_blind_witness : boot_hash256 [1; 2; 3; 4; 5] 5 demo_ctx = boot_hash256 [1; 2; 3; 4; 6] 5 demo_ctx.
Proof.
  apply (boot_hash_blind [1; 2; 3; 4; 5] [1; 2; 3; 4; 6] 5 demo_ctx); [split; [discriminate|reflexivity]|discriminate|discriminate|].
  intros j Hj _. assert (j = 0 \/ j = 1 \/ j = 2 \/ j = 3) as Hc by (change (4 * (5 / 4)) with 4 in Hj; lia). destruct Hc as [->|[->|[->| ->]]]; reflexivity.
Defined.
Lemma verify_image_correct_witness : exists c', secure_boot_verify_image (demo_image 100 0) demo_ctx = Done (BOOT_ERR_ROLLBACK, c').
Proof.
  destruct (verify_image_correct (demo_image 100 0) demo_ctx) as (e & c' & E & _ & _ & _ & H & _);
    [apply demo_image_wf; vm_compute; split; [discriminate|reflexivity]|split; discriminate|reflexivity|].
  exists c'. rewrite E, (proj2 H); [reflexivity|]. split; [reflexivity|]. intros Hle. apply Hle. reflexivity.
Defined.
Lemma forged_image_accepted_witness : secure_boot_verify_image (demo_image (2 ^ 31) 1) demo_ctx = Done (BOOT_OK, demo_ctx).
Proof.
  apply (forged_image_accepted (demo_image (2 ^ 31) 1) demo_ctx 1);
    [apply demo_image_wf; vm_compute; split; [discriminate|reflexivity]|reflexivity|vm_compute; reflexivity|split; [discriminate|reflexivity]|reflexivity|discriminate].
Defined.
Lemma stage_chain_correct_witness :
  exists c', secure_boot_chain_verify BOOT_STAGE_SPL BOOT_STAGE_APP [] 0 demo_ctx = Done (BOOT_OK, c') /\ secure_boot_verify_image (demo_image 100 9) c' = UB.
Proof.
  destruct (stage_chain_correct BOOT_STAGE_SPL BOOT_STAGE_APP [] 0 demo_ctx) as (e & c' & E & H1 & H2 & _); [reflexivity|reflexivity|discriminate|reflexivity|].
  assert (e = BOOT_OK) as -> by (apply H1; split; [discriminate|intros _; vm_compute; discriminate]). exists c'. split; [exact E|]. apply H2; reflexivity.
Defined.
Lemma boot_calls_invariant_witness :
  exists c', run_calls [DebugAuth [] [] 0; SetPolicy BOOT_POLICY_FAIL_REPORT; EnforcePolicy BOOT_ERR_SIG] demo_ctx = Done (tt, c') /\
    debug_state c' = DEBUG_UNLOCKED_TEMP /\ min_version c' = [1; 1; 1; 1].
Proof.
  eexists. split; [reflexivity|]. split; [reflexivity|].
  apply (boot_calls_invariant [DebugAuth [] [] 0; SetPolicy BOOT_POLICY_FAIL_REPORT; EnforcePolicy BOOT_ERR_SIG] demo_ctx). reflexivity.
Defined.
Lemma debug_auth_correct_witness : secure_boot_debug_auth [] [] 0 demo_ctx = Done (DEBUG_UNLOCKED_TEMP, set_debug_state DEBUG_UNLOCKED_TEMP demo_ctx).
Proof. apply (debug_auth_correct [] [] 0 demo_ctx); discriminate. Defined.
Lemma measured_boot_correct_witness : extended (boot_state demo_ctx) [1; 2; 3; 4; 5] = extended (boot_state demo_ctx) [1; 2; 3; 4; 6].
Proof.
  apply (measured_boot_correct [] demo_ctx); [reflexivity|reflexivity|vm_compute; lia|].
  intros j Hj _. assert (j = 0 \/ j = 1 \/ j = 2 \/ j = 3) as Hc by (change (4 * (Z.of_nat (length [1; 2; 3; 4; 5]) / 4)) with 4 in Hj; lia). destruct Hc as [->|[->|[->| ->]]]; reflexivity.
Defined.
