(* ===== verification/EdgeOta.v ===== *)
(** * Edge firmware update (mini-edge-security/src/edge_ota.c)

    The update context of a device with two banks: manifest, download, verification, commit and rollback, repair of a bank, and the binary difference.
    A pointer argument is the list of bytes from it to the end of its object; the difference takes its two images as lists.  The machine is little-endian. *)
From S2P Require Import Prelude ByteMem.

Definition OTA_MAX_CHUNK : Z := 256.
Definition OTA_FLASH_BANK_SIZE : Z := 65536.
Definition OTA_FW_HASH_SIZE : Z := 32.
Definition OTA_SIG_SIZE : Z := 64.
Definition OTA_MAX_PAYLOAD : Z := 64 * 1024.
Definition OTA_DUAL_BANK : Z := 2.
Definition OTA_DEV_ID_SIZE : Z := 16.
Inductive OtaUpdateState := OTA_IDLE | OTA_CHECKING | OTA_DOWNLOADING | OTA_VERIFYING | OTA_APPLYING | OTA_COMMITTED | OTA_ROLLED_BACK | OTA_FAILED.
#[export] Instance ota_update_state_eq : EqDecision OtaUpdateState.
Proof. solve_decision. Defined.

Record FirmwareBank := Bank { base_addr : Z; bank_size : Z; bank_version : Z; active : bool; valid : bool; bank_hash : list Z }.
Definition set_active v x := Bank (base_addr x) (bank_size x) (bank_version x) v (valid x) (bank_hash x).
Record OtaManifest := Manifest { fw_version : Z; fw_size : Z; fw_hash : list Z; target_hw_id : Z; man_device_id : list Z; signature : list Z; min_bootloader_ver : Z; timestamp : Z; metadata : list Z; metadata_len : Z }.
Definition set_fw_hash v x := Manifest (fw_version x) (fw_size x) v (target_hw_id x) (man_device_id x) (signature x) (min_bootloader_ver x) (timestamp x) (metadata x) (metadata_len x).
Definition set_signature v x := Manifest (fw_version x) (fw_size x) (fw_hash x) (target_hw_id x) (man_device_id x) v (min_bootloader_ver x) (timestamp x) (metadata x) (metadata_len x).
Record OtaUpdateCtx := Ctx { device_id : list Z; banks : list FirmwareBank; active_bank : Z; current_version : Z; bytes_received : Z; total_size : Z; update_state : OtaUpdateState; receive_buffer : list Z; current_manifest : OtaManifest; manifest_verified : bool; retry_count : Z; max_retries : Z }.
Definition set_banks v x := Ctx (device_id x) v (active_bank x) (current_version x) (bytes_received x) (total_size x) (update_state x) (receive_buffer x) (current_manifest x) (manifest_verified x) (retry_count x) (max_retries x).
Definition set_active_bank v x := Ctx (device_id x) (banks x) v (current_version x) (bytes_received x) (total_size x) (update_state x) (receive_buffer x) (current_manifest x) (manifest_verified x) (retry_count x) (max_retries x).
Definition set_current_version v x := Ctx (device_id x) (banks x) (active_bank x) v (bytes_received x) (total_size x) (update_state x) (receive_buffer x) (current_manifest x) (manifest_verified x) (retry_count x) (max_retries x).
Definition set_bytes_received v x := Ctx (device_id x) (banks x) (active_bank x) (current_version x) v (total_size x) (update_state x) (receive_buffer x) (current_manifest x) (manifest_verified x) (retry_count x) (max_retries x).
Definition set_total_size v x := Ctx (device_id x) (banks x) (active_bank x) (current_version x) (bytes_received x) v (update_state x) (receive_buffer x) (current_manifest x) (manifest_verified x) (retry_count x) (max_retries x).
Definition set_update_state v x := Ctx (device_id x) (banks x) (active_bank x) (current_version x) (bytes_received x) (total_size x) v (receive_buffer x) (current_manifest x) (manifest_verified x) (retry_count x) (max_retries x).
Definition set_receive_buffer v x := Ctx (device_id x) (banks x) (active_bank x) (current_version x) (bytes_received x) (total_size x) (update_state x) v (current_manifest x) (manifest_verified x) (retry_count x) (max_retries x).
Definition set_current_manifest v x := Ctx (device_id x) (banks x) (active_bank x) (current_version x) (bytes_received x) (total_size x) (update_state x) (receive_buffer x) v (manifest_verified x) (retry_count x) (max_retries x).
Definition set_manifest_verified v x := Ctx (device_id x) (banks x) (active_bank x) (current_version x) (bytes_received x) (total_size x) (update_state x) (receive_buffer x) (current_manifest x) v (retry_count x) (max_retries x).
Definition set_retry_count v x := Ctx (device_id x) (banks x) (active_bank x) (current_version x) (bytes_received x) (total_size x) (update_state x) (receive_buffer x) (current_manifest x) (manifest_verified x) v (max_retries x).

Notation OM := (M OtaUpdateCtx).
Definition zero_bank : FirmwareBank := Bank 0 0 0 false false (replicate 32 0).
Definition zero_manifest : OtaManifest := Manifest 0 0 (replicate 32 0) 0 (replicate 16 0) (replicate 64 0) 0 0 (replicate 256 0) 0.
#[export] Instance bank_inhabited : Inhabited FirmwareBank := populate zero_bank.
Definition bank (c : OtaUpdateCtx) (i : Z) : FirmwareBank := banks c !!! Z.to_nat i.
Definition upd_bank (i : Z) (f : FirmwareBank -> FirmwareBank) : OM unit := modify (fun c => set_banks (alter f (Z.to_nat i) (banks c)) c).
Definition in_state (st : OtaUpdateState) (c : OtaUpdateCtx) : bool := bool_decide (update_state c = st).

(** ** Initialisation and manifests *)

Definition edge_ota_init (dev_id : list Z) (id_len : Z) : OM unit :=
  id ← memcpy_bytes dev_id (if id_len <? OTA_DEV_ID_SIZE then id_len else OTA_DEV_ID_SIZE);
  modify (fun _ => Ctx (overlay id (replicate 16 0))
    [Bank 0x08000000 OTA_FLASH_BANK_SIZE 1 true true (replicate 32 0); Bank 0x08010000 OTA_FLASH_BANK_SIZE 0 false false (replicate 32 0)]
    0 1 0 0 OTA_IDLE (replicate (Z.to_nat OTA_MAX_PAYLOAD) 0) zero_manifest false 0 3).

Definition edge_ota_manifest_init (version size : Z) : OtaManifest :=
  Manifest version size (replicate 32 0) 0 (replicate 16 0) (replicate 64 0) 1 (version *32 1000000 +32 size) (replicate 256 0) 0.
Definition edge_ota_manifest_set_hash {S} (m : OtaManifest) (hash : list Z) : M S OtaManifest :=
  h ← memcpy_bytes hash OTA_FW_HASH_SIZE; mret (set_fw_hash h m).
Definition sign_input (m : OtaManifest) : list Z := le_bytes 4 (fw_version m) ++ le_bytes 4 (fw_size m) ++ fw_hash m ++ man_device_id m.
Definition edge_ota_manifest_sign (m : OtaManifest) (priv_key : list Z) : OtaManifest :=
  let inp := sign_input m in
  let n := Z.min OTA_SIG_SIZE (Z.of_nat (length inp)) in
  set_signature (overlay ((fun i => Z.lxor (Z.lxor (at_ inp i) (at_ priv_key (i mod 32))) (u8 (0xA5 + i * 3))) <$> seqZ 0 n) (signature m)) m.

Definition edge_ota_manifest_verify (m : OtaManifest) : OM bool :=
  c ← gets id;
  mret (
    if fw_version m <=? current_version c then false
    else if (fw_size m =? 0) || (OTA_MAX_PAYLOAD <? fw_size m) then false
    else if negb (bool_decide (man_device_id m = device_id c)) then false
    else if 1 <? min_bootloader_ver m then false
    else if bool_decide (fw_hash m = replicate 32 0) then false
    else true).

(** ** The update *)

Definition edge_ota_begin_update (m : OtaManifest) : OM bool :=
  idle ← gets (in_state OTA_IDLE);
  if negb idle then mret false
  else
    ok ← edge_ota_manifest_verify m;
    if negb ok then mret false
    else
      modify (fun c => set_receive_buffer (replicate (Z.to_nat OTA_MAX_PAYLOAD) 0) (set_retry_count 0 (set_manifest_verified true (set_total_size (fw_size m)
        (set_bytes_received 0 (set_update_state OTA_DOWNLOADING (set_current_manifest m c)))))));;
      mret true.

Definition edge_ota_receive_chunk (chunk : list Z) (len : Z) : OM bool :=
  d ← gets (in_state OTA_DOWNLOADING);
  if negb d then mret false
  else
    n ← gets bytes_received;
    if OTA_MAX_PAYLOAD <? n +32 len then modify (set_update_state OTA_FAILED);; mret false
    else if (len <=? 0) || (OTA_MAX_CHUNK <? len) then mret false
    else
      bs ← memcpy_bytes chunk len;
      modify (fun c => set_bytes_received (n +32 len) (set_receive_buffer (splice (Z.to_nat n) bs (receive_buffer c)) c));;
      c ← gets id;
      when (total_size c <=? bytes_received c) (modify (set_update_state OTA_VERIFYING));;
      mret true.

(** The checksum of the loops: a polynomial in 31. *)
Definition hash31 (bs : list Z) : Z := foldl (fun h b => h *32 31 +32 b) 0 bs.
Definition edge_ota_verify_and_apply : OM bool :=
  c ← gets id;
  if negb (in_state OTA_VERIFYING c) then mret false
  else if negb (bytes_received c =? total_size c) then modify (set_update_state OTA_FAILED);; mret false
  else
    fw ← loop_bytes (receive_buffer c) (bytes_received c);
    if negb (hash31 fw =? hash31 (fw_hash (current_manifest c))) then modify (set_update_state OTA_FAILED);; mret false
    else
      upd_bank (1 - active_bank c) (fun b => Bank (base_addr b) (bank_size b) (fw_version (current_manifest c)) false true (fw_hash (current_manifest c)));;
      modify (set_update_state OTA_APPLYING);;
      mret true.

Definition edge_ota_commit_update : OM bool :=
  c ← gets id;
  if negb (in_state OTA_APPLYING c) then mret false
  else
    let new_active := 1 - active_bank c in
    upd_bank (active_bank c) (set_active false);;
    upd_bank new_active (set_active true);;
    modify (fun c => set_update_state OTA_COMMITTED (set_current_version (bank_version (bank c new_active)) (set_active_bank new_active c)));;
    mret true.

Definition edge_ota_rollback_update : OM bool :=
  c ← gets id;
  if in_state OTA_IDLE c || in_state OTA_COMMITTED c then mret false
  else
    upd_bank (1 - active_bank c) (fun _ => zero_bank);;
    modify (fun c => set_manifest_verified false (set_bytes_received 0 (set_update_state OTA_IDLE c)));;
    mret true.

(** ** Versions and banks *)

Definition edge_ota_check_version (version : Z) : OM bool := c ← gets id; mret (current_version c <=? version).
Definition edge_ota_validate_golden_image : OM bool := c ← gets id; mret (existsb (fun b => valid b && (0 <? bank_version b)) (banks c)).
Definition edge_ota_check_firmware_integrity (bank_idx : Z) : OM bool :=
  if (bank_idx <? 0) || (OTA_DUAL_BANK <=? bank_idx) then mret false
  else c ← gets id; mret (if negb (valid (bank c bank_idx)) then false else negb (bool_decide (bank_hash (bank c bank_idx) = replicate 32 0))).
Definition edge_ota_repair_corrupted_bank (src_bank dst_bank : Z) : OM unit :=
  if (src_bank <? 0) || (OTA_DUAL_BANK <=? src_bank) then mret tt
  else if (dst_bank <? 0) || (OTA_DUAL_BANK <=? dst_bank) then mret tt
  else
    c ← gets id;
    let s := bank c src_bank in
    if negb (valid s) then mret tt
    else upd_bank dst_bank (fun b => Bank (base_addr b) (bank_size b) (bank_version s) (active b) true (bank_hash s)).

(** ** Cloud messages *)

(** The bytes {"jobId": "ota-update- and ", "status": "IN_PROGRESS"}; 34 is the quote. *)
Definition job_pre : list Z := [123; 34; 106; 111; 98; 73; 100; 34; 58; 32; 34; 111; 116; 97; 45; 117; 112; 100; 97; 116; 101; 45].
Definition job_post : list Z := [34; 44; 32; 34; 115; 116; 97; 116; 117; 115; 34; 58; 32; 34; 73; 78; 95; 80; 82; 79; 71; 82; 69; 83; 83; 34; 125].
(** The bytes written; their number is what [*doc_len] gets. *)
Definition edge_ota_build_job_document : OM (list Z) :=
  c ← gets id; mret (job_pre ++ ((fun i => u8 (at_ (device_id c) i mod 16 + 65)) <$> seqZ 0 8) ++ job_post).

(** "status":"QUEUED" with its quotes *)
Definition job_marker : list Z := [34; 115; 116; 97; 116; 117; 115; 34; 58; 34; 81; 85; 69; 85; 69; 68; 34].
(** The loop over the positions from [i]: [n] are left. *)
Fixpoint marker_loop (n : nat) (response : list Z) (i : nat) : bool :=
  match n with
  | O => false
  | S n => bool_decide (window i (length job_marker) response = job_marker) || marker_loop n response (S i)
  end.
Definition edge_ota_parse_job_response (response : list Z) (rlen : Z) : OM bool :=
  if rlen <? 20 then mret false
  else r ← loop_bytes response rlen; mret (marker_loop (Z.to_nat (rlen - Z.of_nat (length job_marker) + 1)) r 0).

(** ** The binary difference *)

(** The bytes written, the start of the current run or -1, and its length. *)
Definition delta_state : Type := list Z * Z * Z.
Definition byte_or_0 (l : list Z) (i : Z) : Z := if i <? Z.of_nat (length l) then at_ l i else 0.
Definition emit_run (new_fw : list Z) (max_delta : Z) (out : list Z) (run_start run_len : Z) : list Z :=
  let out := out ++ le_bytes 4 run_start ++ le_bytes 2 run_len in
  out ++ ((fun j => byte_or_0 new_fw (run_start + j)) <$> seqZ 0 (Z.min run_len (max_delta - Z.of_nat (length out)))).
Definition delta_step (old_fw new_fw : list Z) (max_delta : Z) (i : Z) (st : delta_state) : delta_state :=
  let '(out, run_start, run_len) := st in
  if negb (byte_or_0 old_fw i =? byte_or_0 new_fw i) then
    if run_start <? 0 then (out, i, 1) else (out, run_start, run_len + 1)
  else if (0 <=? run_start) && (0 <? run_len) then (emit_run new_fw max_delta out run_start run_len, -1, 0)
  else st.
Fixpoint delta_loop (n : nat) (old_fw new_fw : list Z) (max_delta i : Z) (st : delta_state) : delta_state :=
  match n with
  | O => st
  | S n => if Z.of_nat (length st.1.1) <? max_delta - 10 then delta_loop n old_fw new_fw max_delta (i + 1) (delta_step old_fw new_fw max_delta i st) else st
  end.
(** The bytes written to a buffer of [max_delta] bytes; their number is the result. *)
Definition edge_ota_compute_delta (old_fw new_fw : list Z) (max_delta : Z) : list Z :=
  let '(out, run_start, run_len) := delta_loop (Nat.max (length old_fw) (length new_fw)) old_fw new_fw max_delta 0 ([], -1, 0) in
  if (0 <=? run_start) && (0 <? run_len) && (Z.of_nat (length out) <? max_delta - 6) then emit_run new_fw max_delta out run_start run_len else out.

(** ** The context *)

Definition other (c : OtaUpdateCtx) : FirmwareBank := bank c (1 - active_bank c).
(** The structure of every reachable context: two banks, the active one marked, the download inside its buffer. *)
Record ctx_wf (c : OtaUpdateCtx) : Prop := {
  wf_banks : length (banks c) = 2%nat /\ (active_bank c = 0 \/ active_bank c = 1);
  wf_active : active (bank c (active_bank c)) = true /\ active (other c) = false;
  wf_buffer : Z.of_nat (length (receive_buffer c)) = OTA_MAX_PAYLOAD;
  wf_received : 0 <= bytes_received c <= OTA_MAX_PAYLOAD }.

Definition manifest_ok (m : OtaManifest) (c : OtaUpdateCtx) : Prop :=
  current_version c < fw_version m /\ 0 < fw_size m <= OTA_MAX_PAYLOAD /\ man_device_id m = device_id c /\ min_bootloader_ver m <= 1 /\ fw_hash m <> replicate 32 0.

Lemma manifest_verify_run m c :
  0 <= fw_size m -> exists b, edge_ota_manifest_verify m c = Done (b, c) /\ (b = true <-> manifest_ok m c).
Proof.
  intros Hs. unfold edge_ota_manifest_verify. rewrite bind_gets. unfold id. eexists. split; [reflexivity|]. unfold manifest_ok.
  destruct (Z.leb_spec (fw_version m) (current_version c)); [split; [done|lia]|]. destruct (Z.eqb_spec (fw_size m) 0); cbn [orb]; [split; [done|lia]|].
  destruct (Z.ltb_spec OTA_MAX_PAYLOAD (fw_size m)); [split; [done|lia]|]. destruct (decide (man_device_id m = device_id c)) as [Hd|Hd].
  2:{ rewrite bool_decide_false by done. split; [done|tauto]. }
  rewrite (bool_decide_true (_ = device_id c)) by done. cbn [negb]. destruct (Z.ltb_spec 1 (min_bootloader_ver m)); [split; [done|lia]|].
  destruct (decide (fw_hash m = replicate 32 0)); [rewrite bool_decide_true by done|rewrite bool_decide_false by done]; [split; [done|tauto]|].
  split; [intros _|done]. split_and!; done || lia.
Qed.

Lemma bank_upd c i j f : length (banks c) = 2%nat -> 0 <= i < 2 -> 0 <= j < 2 -> alter f (Z.to_nat i) (banks c) !!! Z.to_nat j = if decide (i = j) then f (bank c j) else bank c j.
Proof.
  intros Hl Hi Hj. unfold bank. destruct (decide (i = j)) as [->|Hne]; [by rewrite list_lookup_total_alter_eq by lia|by rewrite list_lookup_total_alter_ne by lia].
Qed.

(** ** Downloading *)

Definition begun (m : OtaManifest) (c : OtaUpdateCtx) : OtaUpdateCtx :=
  set_receive_buffer (replicate (Z.to_nat OTA_MAX_PAYLOAD) 0) (set_retry_count 0 (set_manifest_verified true (set_total_size (fw_size m)
    (set_bytes_received 0 (set_update_state OTA_DOWNLOADING (set_current_manifest m c)))))).
Lemma begin_run m c :
  0 <= fw_size m -> (exists c', edge_ota_begin_update m c = Done (true, c') /\ c' = begun m c /\ update_state c = OTA_IDLE /\ manifest_ok m c) \/
    (edge_ota_begin_update m c = Done (false, c) /\ ~ (update_state c = OTA_IDLE /\ manifest_ok m c)).
Proof.
  intros Hs. unfold edge_ota_begin_update. rewrite bind_gets. unfold in_state. destruct (decide (update_state c = OTA_IDLE)) as [Hi|Hi].
  2:{ rewrite bool_decide_false by done. right. split; [done|tauto]. }
  rewrite bool_decide_true by done. cbn [negb]. destruct (manifest_verify_run m c Hs) as (b & E & Hb). rewrite (bind_step _ _ _ _ _ E).
  destruct b; cbn [negb]; [left|right].
  - eexists. split; [reflexivity|]. by split; [|split; [|apply Hb]].
  - split; [done|]. intros [_ H%Hb]. done.
Qed.

Definition received (bs : list Z) (c : OtaUpdateCtx) : OtaUpdateCtx :=
  let n := bytes_received c + Z.of_nat (length bs) in
  (if total_size c <=? n then set_update_state OTA_VERIFYING else id) (set_bytes_received n (set_receive_buffer (splice (Z.to_nat (bytes_received c)) bs (receive_buffer c)) c)).
Lemma receive_run chunk len c :
  ctx_wf c -> - 2 ^ 31 <= len < 2 ^ 31 -> len <= Z.of_nat (length chunk) ->
  edge_ota_receive_chunk chunk len c =
    if negb (in_state OTA_DOWNLOADING c) then Done (false, c)
    else if OTA_MAX_PAYLOAD <? bytes_received c +32 len then Done (false, set_update_state OTA_FAILED c)
    else if (len <=? 0) || (OTA_MAX_CHUNK <? len) then Done (false, c)
    else Done (true, received (take (Z.to_nat len) chunk) c).
Proof.
  intros Hw Hl Hc. unfold edge_ota_receive_chunk. rewrite bind_gets. destruct (in_state OTA_DOWNLOADING c); cbn [negb]; [|done]. rewrite bind_gets.
  destruct (Z.ltb_spec OTA_MAX_PAYLOAD (bytes_received c +32 len)) as [|Hb]; [done|]. destruct ((len <=? 0) || (OTA_MAX_CHUNK <? len)) eqn:E; [done|].
  apply orb_false_iff in E as [E1%Z.leb_gt E2%Z.ltb_ge]. erewrite bind_step by (apply memcpy_bytes_ok; lia). rewrite bind_modify, bind_gets. unfold id.
  destruct Hw as [_ _ Hbuf Hrec]. unfold OTA_MAX_PAYLOAD, OTA_MAX_CHUNK in *. rewrite u32_small in * by lia. cbn [set_bytes_received set_receive_buffer total_size bytes_received].
  unfold received. rewrite length_take. replace (Z.of_nat (Nat.min (Z.to_nat len) (length chunk))) with len by lia. by destruct (total_size c <=? bytes_received c + len).
Qed.

Fixpoint receive_all (chunks : list (list Z)) : OM bool :=
  match chunks with [] => mret true | ch :: chunks => ok ← edge_ota_receive_chunk ch (Z.of_nat (length ch)); if negb ok then mret false else receive_all chunks end.

(** A download in progress: the bytes so far stand at the start of the buffer. *)
Definition downloading (m : OtaManifest) (fw : list Z) (c0 c : OtaUpdateCtx) : Prop :=
  ctx_wf c /\ bytes_received c = Z.of_nat (length fw) /\ take (length fw) (receive_buffer c) = fw /\ total_size c = fw_size m /\ current_manifest c = m /\
  banks c = banks c0 /\ active_bank c = active_bank c0 /\ current_version c = current_version c0.

Lemma received_downloading m fw bs c0 c :
  downloading m fw c0 c -> Z.of_nat (length fw + length bs) <= OTA_MAX_PAYLOAD -> downloading m (fw ++ bs) c0 (received bs c).
Proof.
  intros ([Hb Ha Hbuf Hrec] & Hn & Ht & Hs & Hm & Hbk & Hac & Hv) Hl. unfold OTA_MAX_PAYLOAD in *.
  assert (length (splice (Z.to_nat (bytes_received c)) bs (receive_buffer c)) = length (receive_buffer c)) as Hsl by (apply length_splice; lia).
  assert (take (length (fw ++ bs)) (splice (Z.to_nat (bytes_received c)) bs (receive_buffer c)) = fw ++ bs) as Htk.
  { rewrite Hn, Nat2Z.id. unfold splice. rewrite Ht, length_app. rewrite app_assoc. rewrite <- length_app. apply take_app_length. }
  unfold received. destruct (total_size c <=? _); (split; [constructor|]); cbn; unfold OTA_MAX_PAYLOAD; try done; try lia; rewrite ?length_app in *; split_and!; try done; lia.
Qed.

Lemma receive_all_run m chunks fw c0 c :
  downloading m fw c0 c -> update_state c = OTA_DOWNLOADING -> Forall (fun ch => 0 < Z.of_nat (length ch) <= OTA_MAX_CHUNK) chunks -> chunks <> [] ->
  Z.of_nat (length (fw ++ concat chunks)) = fw_size m -> fw_size m <= OTA_MAX_PAYLOAD ->
  exists c', receive_all chunks c = Done (true, c') /\ downloading m (fw ++ concat chunks) c0 c' /\ update_state c' = OTA_VERIFYING.
Proof.
  revert fw c. induction chunks as [|ch chunks IH]; intros fw c Hd Hst Hc Hne Hl Hmax; [done|]. apply Forall_cons in Hc as [[H0 H256] Hc]. cbn [receive_all concat] in *.
  rewrite !length_app in Hl. pose proof Hd as (Hw & Hn & _ & Hs & _). unfold OTA_MAX_PAYLOAD, OTA_MAX_CHUNK in *.
  erewrite bind_step; [|rewrite (receive_run ch (Z.of_nat (length ch)) c Hw) by lia; unfold in_state; rewrite bool_decide_true by done; cbn [negb];
    rewrite u32_small by lia; unfold OTA_MAX_PAYLOAD, OTA_MAX_CHUNK; destruct (Z.ltb_spec (64 * 1024) (bytes_received c + Z.of_nat (length ch))); [lia|];
    destruct (Z.leb_spec (Z.of_nat (length ch)) 0); [lia|]; destruct (Z.ltb_spec 256 (Z.of_nat (length ch))); [lia|]; cbn [orb]; reflexivity].
  cbn [negb]. rewrite Nat2Z.id, take_ge by done. pose proof (received_downloading m fw ch c0 c Hd ltac:(unfold OTA_MAX_PAYLOAD; lia)) as Hd'.
  assert (update_state (received ch c) = if fw_size m <=? Z.of_nat (length fw + length ch) then OTA_VERIFYING else OTA_DOWNLOADING) as Hst'.
  { unfold received. rewrite Hs, Hn. replace (Z.of_nat (length fw) + Z.of_nat (length ch)) with (Z.of_nat (length fw + length ch)) by lia.
    by destruct (fw_size m <=? Z.of_nat (length fw + length ch)). }
  rewrite app_assoc. destruct chunks as [|ch2 chunks].
  - cbn [concat receive_all] in *. rewrite app_nil_r in *. exists (received ch c). split; [done|]. split; [done|]. rewrite Hst'. cbn [length] in Hl.
    by destruct (Z.leb_spec (fw_size m) (Z.of_nat (length fw + length ch))); [|lia].
  - pose proof Hc as Hc2. apply Forall_cons in Hc2 as [[H2 _] _]. cbn [concat] in Hl. rewrite length_app in Hl. apply IH; [done| |done|done| |done].
    + rewrite Hst'. destruct (Z.leb_spec (fw_size m) (Z.of_nat (length fw + length ch))); [lia|done].
    + cbn [concat]. rewrite !length_app. lia.
Qed.

(** ** Verification, commit, rollback *)

Definition image (c : OtaUpdateCtx) : list Z := take (Z.to_nat (bytes_received c)) (receive_buffer c).
Definition applied (c : OtaUpdateCtx) : OtaUpdateCtx :=
  set_update_state OTA_APPLYING (set_banks (alter (fun b => Bank (base_addr b) (bank_size b) (fw_version (current_manifest c)) false true (fw_hash (current_manifest c)))
    (Z.to_nat (1 - active_bank c)) (banks c)) c).
Lemma apply_run c :
  ctx_wf c -> edge_ota_verify_and_apply c =
    if negb (in_state OTA_VERIFYING c) then Done (false, c)
    else if (bytes_received c =? total_size c) && (hash31 (image c) =? hash31 (fw_hash (current_manifest c))) then Done (true, applied c)
    else Done (false, set_update_state OTA_FAILED c).
Proof.
  intros [_ _ Hbuf Hrec]. unfold edge_ota_verify_and_apply. rewrite bind_gets. unfold id. destruct (in_state OTA_VERIFYING c); cbn [negb]; [|done].
  destruct (Z.eqb_spec (bytes_received c) (total_size c)); cbn [negb andb]; [|done]. erewrite bind_step by (apply loop_bytes_ok; lia). fold (image c).
  by destruct (hash31 (image c) =? hash31 (fw_hash (current_manifest c))).
Qed.

Definition committed (c : OtaUpdateCtx) : OtaUpdateCtx :=
  set_update_state OTA_COMMITTED (set_current_version (bank_version (other c)) (set_active_bank (1 - active_bank c)
    (set_banks (alter (set_active true) (Z.to_nat (1 - active_bank c)) (alter (set_active false) (Z.to_nat (active_bank c)) (banks c))) c))).
Lemma commit_run c : ctx_wf c -> edge_ota_commit_update c = if negb (in_state OTA_APPLYING c) then Done (false, c) else Done (true, committed c).
Proof.
  intros [[Hl Ha] _ _ _]. unfold edge_ota_commit_update. rewrite bind_gets. unfold id. destruct (in_state OTA_APPLYING c); cbn [negb]; [|done].
  unfold upd_bank. rewrite !bind_modify. unfold mret, M_ret, committed. do 3 f_equal. unfold other, bank. cbn [set_banks banks set_active_bank].
  rewrite list_lookup_total_alter_eq by (rewrite length_alter; lia). rewrite list_lookup_total_alter_ne by lia. done.
Qed.

Definition rolled_back (c : OtaUpdateCtx) : OtaUpdateCtx :=
  set_manifest_verified false (set_bytes_received 0 (set_update_state OTA_IDLE (set_banks (alter (fun _ => zero_bank) (Z.to_nat (1 - active_bank c)) (banks c)) c))).
Lemma rollback_run c : edge_ota_rollback_update c = if in_state OTA_IDLE c || in_state OTA_COMMITTED c then Done (false, c) else Done (true, rolled_back c).
Proof. unfold edge_ota_rollback_update. rewrite bind_gets. unfold id. by destruct (in_state OTA_IDLE c || in_state OTA_COMMITTED c). Qed.

Lemma bank_applied c j : ctx_wf c -> 0 <= j < 2 -> bank (applied c) j =
  if decide (1 - active_bank c = j) then Bank (base_addr (bank c j)) (bank_size (bank c j)) (fw_version (current_manifest c)) false true (fw_hash (current_manifest c)) else bank c j.
Proof. intros [[Hl Ha] _ _ _] Hj. unfold bank at 1. cbn [applied set_update_state set_banks banks]. apply bank_upd; lia. Qed.
Lemma bank_committed c j : ctx_wf c -> 0 <= j < 2 -> bank (committed c) j = set_active (bool_decide (1 - active_bank c = j)) (bank c j).
Proof.
  intros [[Hl Ha] _ _ _] Hj. unfold bank. cbn [committed set_update_state set_current_version set_active_bank set_banks banks].
  rewrite !list_lookup_total_alter. rewrite length_alter. repeat case_decide; try lia.
  - subst j. by rewrite bool_decide_true.
  - assert (j = active_bank c) as -> by lia. by rewrite bool_decide_false by lia.
Qed.
Lemma bank_rolled_back c j : ctx_wf c -> 0 <= j < 2 -> bank (rolled_back c) j = if decide (1 - active_bank c = j) then zero_bank else bank c j.
Proof. intros [[Hl Ha] _ _ _] Hj. unfold bank at 1. cbn [rolled_back set_manifest_verified set_bytes_received set_update_state set_banks banks]. apply bank_upd; lia. Qed.

Lemma wf_begun m c : ctx_wf c -> ctx_wf (begun m c).
Proof.
  intros [H1 H2 H3 H4]. constructor; [exact H1|exact H2|cbn [begun set_receive_buffer receive_buffer]; rewrite length_replicate; unfold OTA_MAX_PAYLOAD; lia|].
  cbn [begun set_receive_buffer set_retry_count set_manifest_verified set_total_size set_bytes_received bytes_received]. unfold OTA_MAX_PAYLOAD. lia.
Qed.
Lemma wf_applied c : ctx_wf c -> ctx_wf (applied c).
Proof.
  intros H. pose proof H as [[Hl Ha] [H1 H2] H3 H4]. constructor; [split; [cbn [applied set_update_state set_banks banks]; by rewrite length_alter|exact Ha]| |exact H3|exact H4].
  unfold other. change (active_bank (applied c)) with (active_bank c). rewrite !bank_applied by (done || lia). rewrite decide_False, decide_True by lia. done.
Qed.
Lemma wf_committed c : ctx_wf c -> ctx_wf (committed c).
Proof.
  intros H. pose proof H as [[Hl Ha] [H1 H2] H3 H4]. constructor; [split| |exact H3|exact H4].
  - cbn [committed set_update_state set_current_version set_active_bank set_banks banks]. by rewrite !length_alter.
  - change (active_bank (committed c)) with (1 - active_bank c). lia.
  - unfold other. change (active_bank (committed c)) with (1 - active_bank c). rewrite !bank_committed by (done || lia).
    rewrite bool_decide_true, bool_decide_false by lia. done.
Qed.
Lemma wf_rolled_back c : ctx_wf c -> ctx_wf (rolled_back c).
Proof.
  intros H. pose proof H as [[Hl Ha] [H1 H2] H3 H4]. constructor; [split; [cbn [rolled_back set_manifest_verified set_bytes_received set_update_state set_banks banks]; by rewrite length_alter|exact Ha]| |exact H3|].
  - unfold other. change (active_bank (rolled_back c)) with (active_bank c). rewrite !bank_rolled_back by (done || lia). rewrite decide_False, decide_True by lia. done.
  - change (bytes_received (rolled_back c)) with 0. unfold OTA_MAX_PAYLOAD. lia.
Qed.

(** An update installs its firmware.  On an idle device, an admissible manifest, the firmware in chunks of 1 to 256 bytes, verification and commit all succeed, when the
    manifest's size is the firmware's and its hash has the firmware's checksum; the other bank then is the active one and carries the manifest's version and hash, the
    old bank is what it was but inactive, and the firmware is in the buffer. *)
Theorem update_installs m chunks c :
  ctx_wf c -> update_state c = OTA_IDLE -> manifest_ok m c -> Forall (fun ch => 0 < Z.of_nat (length ch) <= OTA_MAX_CHUNK) chunks ->
  Z.of_nat (length (concat chunks)) = fw_size m -> hash31 (concat chunks) = hash31 (fw_hash m) ->
  exists c', (begun ← edge_ota_begin_update m; got ← receive_all chunks; applied ← edge_ota_verify_and_apply; done ← edge_ota_commit_update;
      mret (begun && got && applied && done)) c = Done (true, c') /\ ctx_wf c' /\ update_state c' = OTA_COMMITTED /\
    active_bank c' = 1 - active_bank c /\ current_version c' = fw_version m /\
    bank c' (1 - active_bank c) = Bank (base_addr (other c)) (bank_size (other c)) (fw_version m) true true (fw_hash m) /\
    bank c' (active_bank c) = set_active false (bank c (active_bank c)) /\ take (length (concat chunks)) (receive_buffer c') = concat chunks.
Proof.
  intros Hw Hst Hm Hc Hl Hh. destruct (begin_run m c) as [(c1 & E1 & -> & _)|[_ Hn]]; [destruct Hm as (_ & Hm & _); lia| |by destruct Hn].
  rewrite (bind_step _ _ _ _ _ E1). pose proof Hm as (Hver & Hsz & _).
  assert (downloading m [] c (begun m c)) as Hd by (exact (conj (wf_begun m c Hw) (conj eq_refl (conj eq_refl (conj eq_refl (conj eq_refl (conj eq_refl (conj eq_refl eq_refl)))))))).
  assert (chunks <> []) as Hne by (intros ->; cbn in Hl; lia).
  destruct (receive_all_run m chunks [] c (begun m c) Hd eq_refl Hc Hne Hl ltac:(lia)) as (c2 & E2 & (Hw2 & Hn2 & Ht2 & Hs2 & Hm2 & Hb2 & Ha2 & Hv2) & Hst2).
  rewrite (bind_step _ _ _ _ _ E2). cbn [app] in *. erewrite bind_step; [|rewrite (apply_run c2 Hw2); unfold in_state; rewrite bool_decide_true by done; cbn [negb];
    rewrite Hn2, Hs2, Hl, Z.eqb_refl; unfold image; rewrite Hn2, Nat2Z.id, Ht2, Hm2, Hh, Z.eqb_refl; cbn [andb]; reflexivity].
  pose proof (wf_applied c2 Hw2) as Hw3. erewrite bind_step; [|rewrite (commit_run _ Hw3); reflexivity]. cbn [andb].
  exists (committed (applied c2)). destruct Hw as [[Hlb Hac] _ _ _]. pose proof (wf_committed _ Hw3) as Hw4.
  assert (forall j, bank c2 j = bank c j) as Hbk by (intros j; unfold bank; by rewrite Hb2).
  split; [done|]. split; [done|]. split; [done|]. change (active_bank (committed (applied c2))) with (1 - active_bank c2). rewrite Ha2. split; [done|].
  change (current_version (committed (applied c2))) with (bank_version (bank (applied c2) (1 - active_bank c2))). rewrite !bank_committed, !bank_applied by (done || lia).
  change (active_bank (applied c2)) with (active_bank c2). rewrite Ha2, !Hbk, Hm2. rewrite (decide_True (P := 1 - active_bank c = 1 - active_bank c)) by done.
  rewrite (decide_False (P := 1 - active_bank c = active_bank c)) by lia. rewrite bool_decide_true, bool_decide_false by lia.
  split; [done|]. split; [done|]. split; [done|exact Ht2].
Qed.

(** ** All calls *)

Inductive ota_call := Begin (m : OtaManifest) | Receive (chunk : list Z) (len : Z) | VerifyAndApply | Commit | Rollback | Repair (src dst : Z).
Definition run_call (x : ota_call) : OM unit :=
  match x with
  | Begin m => edge_ota_begin_update m;; mret tt
  | Receive chunk len => edge_ota_receive_chunk chunk len;; mret tt
  | VerifyAndApply => edge_ota_verify_and_apply;; mret tt
  | Commit => edge_ota_commit_update;; mret tt
  | Rollback => edge_ota_rollback_update;; mret tt
  | Repair src dst => edge_ota_repair_corrupted_bank src dst
  end.
Fixpoint run_calls (xs : list ota_call) : OM unit := match xs with [] => mret tt | x :: xs => run_call x;; run_calls xs end.
Definition call_ok (x : ota_call) : Prop :=
  match x with Begin m => is_u32 (fw_size m) | Receive chunk len => - 2 ^ 31 <= len < 2 ^ 31 /\ len <= Z.of_nat (length chunk) | _ => True end.
Definition is_repair (x : ota_call) : bool := match x with Repair _ _ => true | _ => false end.

(** The version is the active bank's; an update in progress has a later one, and what is applied or committed has the checksum of its manifest's hash. *)
Definition version_ok (c : OtaUpdateCtx) : Prop :=
  bank_version (bank c (active_bank c)) = current_version c /\
  (update_state c ∈ [OTA_DOWNLOADING; OTA_VERIFYING; OTA_APPLYING] -> current_version c < fw_version (current_manifest c) /\ total_size c = fw_size (current_manifest c)) /\
  (update_state c = OTA_APPLYING -> bank_version (other c) = fw_version (current_manifest c)) /\
  (update_state c = OTA_COMMITTED -> current_version c = fw_version (current_manifest c)) /\
  (update_state c ∈ [OTA_APPLYING; OTA_COMMITTED] -> bytes_received c = fw_size (current_manifest c) /\ hash31 (image c) = hash31 (fw_hash (current_manifest c))).

Definition step_ok (x : ota_call) (c c' : OtaUpdateCtx) : Prop :=
  ctx_wf c' /\ (is_repair x = false -> version_ok c -> version_ok c' /\ current_version c <= current_version c').

Ltac state_cases := repeat match goal with H : _ ∈ _ :: _ |- _ => apply elem_of_cons in H as [H|H] | H : _ ∈ [] |- _ => by apply elem_of_nil in H end.

Lemma step_refl x c : ctx_wf c -> step_ok x c c.
Proof. intros H. split; [done|]. intros _ Hv. split; [done|lia]. Qed.

Lemma version_same c c' :
  banks c' = banks c -> active_bank c' = active_bank c -> current_version c' = current_version c -> current_manifest c' = current_manifest c ->
  total_size c' = total_size c -> update_state c' ∉ [OTA_APPLYING; OTA_COMMITTED] ->
  (update_state c' ∈ [OTA_DOWNLOADING; OTA_VERIFYING] -> update_state c ∈ [OTA_DOWNLOADING; OTA_VERIFYING]) -> version_ok c -> version_ok c' /\ current_version c <= current_version c'.
Proof.
  intros Hb Ha Hv Hm Ht Hs1 Hs2 (V1 & V2 & _). split; [|lia]. unfold version_ok, bank in *. rewrite Hb, Ha, Hv, Hm, Ht. split; [done|]. split; [|split; [|split]].
  - intros H. assert (update_state c' ∈ [OTA_DOWNLOADING; OTA_VERIFYING]) as H' by (set_solver). apply V2. apply Hs2 in H'. set_solver.
  - intros H. destruct Hs1. rewrite H. set_solver.
  - intros H. destruct Hs1. rewrite H. set_solver.
  - intros H. by destruct Hs1.
Qed.

Lemma step_begin m c : ctx_wf c -> is_u32 (fw_size m) -> exists c', run_call (Begin m) c = Done (tt, c') /\ step_ok (Begin m) c c' /\ (update_state c <> OTA_IDLE -> c' = c).
Proof.
  intros Hw Hm. cbn [run_call]. destruct (begin_run m c) as [(c1 & E & -> & Hi & Hok)|[E Hn]]; [unfold is_u32 in Hm; lia| |]; rewrite (bind_step _ _ _ _ _ E); eexists; (split; [reflexivity|]).
  - split; [|done]. split; [by apply wf_begun|]. intros _ (V1 & _). split; [|done]. split; [exact V1|]. destruct Hok as (Hv & _). split; [|split; [|split]].
    + intros _. done.
    + intros [=].
    + intros [=].
    + intros H. change (update_state (begun m c)) with OTA_DOWNLOADING in H. state_cases; discriminate.
  - split; [|done]. split; [done|]. intros _ H. done.
Qed.

Lemma wf_chunk bs c : ctx_wf c -> bytes_received c + Z.of_nat (length bs) <= OTA_MAX_PAYLOAD -> ctx_wf (received bs c).
Proof.
  intros [H1 H2 H3 H4] Hl. unfold received, OTA_MAX_PAYLOAD in *. assert (length (splice (Z.to_nat (bytes_received c)) bs (receive_buffer c)) = length (receive_buffer c)) as Hs by (apply length_splice; lia).
  destruct (total_size c <=? _); constructor; try done; cbn; unfold OTA_MAX_PAYLOAD; rewrite ?Hs; lia.
Qed.

Lemma step_receive chunk len c :
  ctx_wf c -> - 2 ^ 31 <= len < 2 ^ 31 -> len <= Z.of_nat (length chunk) ->
  exists c', run_call (Receive chunk len) c = Done (tt, c') /\ step_ok (Receive chunk len) c c' /\ (update_state c <> OTA_DOWNLOADING -> c' = c).
Proof.
  intros Hw Hl Hc. cbn [run_call]. pose proof (receive_run chunk len c Hw Hl Hc) as E. unfold in_state in E. destruct (decide (update_state c = OTA_DOWNLOADING)) as [Hst|Hst].
  2:{ rewrite bool_decide_false in E by done. cbn [negb] in E. rewrite (bind_step _ _ _ _ _ E). exists c. split; [done|]. split; [by apply step_refl|done]. }
  rewrite bool_decide_true in E by done. cbn [negb] in E. destruct (Z.ltb_spec OTA_MAX_PAYLOAD (bytes_received c +32 len)) as [|Hb].
  { rewrite (bind_step _ _ _ _ _ E). eexists. split; [reflexivity|]. split; [|done]. split; [by destruct Hw; constructor|]. intros _. apply version_same; try done; cbn; [set_solver|].
    intros Hx; state_cases; discriminate. }
  destruct ((len <=? 0) || (OTA_MAX_CHUNK <? len)) eqn:Eb; rewrite (bind_step _ _ _ _ _ E); eexists; (split; [reflexivity|]); (split; [|done]).
  { by apply step_refl. }
  apply orb_false_iff in Eb as [Hl1%Z.leb_gt Hl2%Z.ltb_ge]. pose proof Hw as [_ _ _ Hrec]. unfold OTA_MAX_PAYLOAD, OTA_MAX_CHUNK in *. rewrite u32_small in Hb by lia.
  split; [apply wf_chunk; [done|rewrite length_take; unfold OTA_MAX_PAYLOAD; lia]|]. intros _. unfold received.
  destruct (total_size c <=? _); apply version_same; try done; cbn; rewrite ?Hst; set_solver.
Qed.

Lemma step_apply c : ctx_wf c -> exists c', run_call VerifyAndApply c = Done (tt, c') /\ step_ok VerifyAndApply c c' /\ (update_state c <> OTA_VERIFYING -> c' = c).
Proof.
  intros Hw. cbn [run_call]. pose proof (apply_run c Hw) as E. unfold in_state in E. destruct (decide (update_state c = OTA_VERIFYING)) as [Hst|Hst].
  2:{ rewrite bool_decide_false in E by done. cbn [negb] in E. rewrite (bind_step _ _ _ _ _ E). exists c. split; [done|]. split; [by apply step_refl|done]. }
  rewrite bool_decide_true in E by done. cbn [negb] in E. destruct ((bytes_received c =? total_size c) && _) eqn:Eb; rewrite (bind_step _ _ _ _ _ E); eexists; (split; [reflexivity|]); (split; [|done]).
  - apply andb_true_iff in Eb as [Hn%Z.eqb_eq Hh%Z.eqb_eq]. split; [by apply wf_applied|]. intros _ (V1 & V2 & _). destruct V2 as [V2 V3]; [rewrite Hst; set_solver|].
    split; [|done]. pose proof Hw as [[Hlb Hac] _ _ _]. unfold version_ok, other. change (active_bank (applied c)) with (active_bank c). rewrite !bank_applied by (done || lia).
    rewrite decide_False, decide_True by lia. split; [done|]. split; [done|]. split; [done|]. split; [intros [=]|]. intros _. split; [change (bytes_received c = fw_size (current_manifest c)); congruence|exact Hh].
  - split; [by destruct Hw; constructor|]. intros _. apply version_same; try done; cbn; [set_solver|]. intros Hx; state_cases; discriminate.
Qed.

Lemma step_commit c : ctx_wf c -> exists c', run_call Commit c = Done (tt, c') /\ step_ok Commit c c' /\ (update_state c <> OTA_APPLYING -> c' = c).
Proof.
  intros Hw. cbn [run_call]. pose proof (commit_run c Hw) as E. unfold in_state in E. destruct (decide (update_state c = OTA_APPLYING)) as [Hst|Hst].
  2:{ rewrite bool_decide_false in E by done. cbn [negb] in E. rewrite (bind_step _ _ _ _ _ E). exists c. split; [done|]. split; [by apply step_refl|done]. }
  rewrite bool_decide_true in E by done. cbn [negb] in E. rewrite (bind_step _ _ _ _ _ E). eexists. split; [reflexivity|]. split; [|done]. split; [by apply wf_committed|].
  intros _ (V1 & V2 & V3 & _ & V5). destruct V2 as [V2 _]; [rewrite Hst; set_solver|]. specialize (V3 Hst). destruct V5 as [V5 V6]; [rewrite Hst; set_solver|].
  change (current_version (committed c)) with (bank_version (other c)). split; [|rewrite V3; lia]. pose proof Hw as [[Hlb Hac] _ _ _].
  unfold version_ok. change (active_bank (committed c)) with (1 - active_bank c). rewrite !bank_committed by (done || lia).
  change (current_version (committed c)) with (bank_version (other c)). split; [done|]. split; [intros H; change (update_state (committed c)) with OTA_COMMITTED in H; state_cases; discriminate|].
  split; [intros [=]|]. split; [done|]. intros _. split; [exact V5|exact V6].
Qed.

Lemma step_rollback c : ctx_wf c -> exists c', run_call Rollback c = Done (tt, c') /\ step_ok Rollback c c' /\ (update_state c = OTA_COMMITTED -> c' = c).
Proof.
  intros Hw. cbn [run_call]. pose proof (rollback_run c) as E. destruct (in_state OTA_IDLE c || in_state OTA_COMMITTED c) eqn:Eb; rewrite (bind_step _ _ _ _ _ E); eexists; (split; [reflexivity|]).
  - split; [by apply step_refl|done].
  - apply orb_false_iff in Eb as [_ Hc%bool_decide_eq_false]. split; [|done]. split; [by apply wf_rolled_back|]. intros _ (V1 & _). split; [|done].
    pose proof Hw as [[Hlb Hac] _ _ _]. unfold version_ok. change (active_bank (rolled_back c)) with (active_bank c). rewrite bank_rolled_back by (done || lia). rewrite decide_False by lia.
    change (update_state (rolled_back c)) with OTA_IDLE. split; [exact V1|]. split; [intros H; state_cases; discriminate|]. split; [intros [=]|]. split; [intros [=]|]. intros H; state_cases; discriminate.
Qed.

Lemma bank_alter f i j c : length (banks c) = 2%nat -> 0 <= i < 2 -> 0 <= j < 2 ->
  bank (set_banks (alter f (Z.to_nat i) (banks c)) c) j = if decide (i = j) then f (bank c j) else bank c j.
Proof. apply bank_upd. Qed.
Lemma step_repair s d c : ctx_wf c -> exists c', run_call (Repair s d) c = Done (tt, c') /\ step_ok (Repair s d) c c' /\
  update_state c' = update_state c /\ current_version c' = current_version c /\ active_bank c' = active_bank c.
Proof.
  intros Hw. cbn [run_call]. unfold edge_ota_repair_corrupted_bank, OTA_DUAL_BANK.
  destruct ((s <? 0) || (2 <=? s)); [exists c; split; [done|]; split; [by apply step_refl|done]|]. destruct ((d <? 0) || (2 <=? d)) eqn:Ed; [exists c; split; [done|]; split; [by apply step_refl|done]|].
  apply orb_false_iff in Ed as [Hd1%Z.ltb_ge Hd2%Z.leb_gt]. rewrite bind_gets. unfold id. destruct (valid (bank c s)); cbn [negb]; [|exists c; split; [done|]; split; [by apply step_refl|done]].
  eexists. split; [reflexivity|]. split; [|done]. split; [|done]. pose proof Hw as [[Hlb Hac] [A1 A2] ? ?]. constructor; try done.
  - split; [cbn [set_banks banks]; by rewrite length_alter|done].
  - unfold other in *. cbn [set_banks active_bank]. rewrite !bank_alter by lia. split; case_decide; done.
Qed.

Lemma call_step x c : ctx_wf c -> call_ok x -> exists c', run_call x c = Done (tt, c') /\ step_ok x c c' /\
  (update_state c = OTA_COMMITTED -> update_state c' = OTA_COMMITTED /\ current_version c' = current_version c /\ active_bank c' = active_bank c).
Proof.
  intros Hw Hok. destruct x.
  - destruct (step_begin m c Hw Hok) as (c' & E & H & Hc). exists c'. split; [done|]. split; [done|]. intros Hs. by rewrite Hc by congruence.
  - destruct Hok as [H1 H2]. destruct (step_receive chunk len c Hw H1 H2) as (c' & E & H & Hc). exists c'. split; [done|]. split; [done|]. intros Hs. by rewrite Hc by congruence.
  - destruct (step_apply c Hw) as (c' & E & H & Hc). exists c'. split; [done|]. split; [done|]. intros Hs. by rewrite Hc by congruence.
  - destruct (step_commit c Hw) as (c' & E & H & Hc). exists c'. split; [done|]. split; [done|]. intros Hs. by rewrite Hc by congruence.
  - destruct (step_rollback c Hw) as (c' & E & H & Hc). exists c'. split; [done|]. split; [done|]. intros Hs. by rewrite Hc by congruence.
  - destruct (step_repair src dst c Hw) as (c' & E & H & H1 & H2 & H3). exists c'. split; [done|]. split; [done|]. intros Hs. by rewrite H1.
Qed.

(** C30: any sequence of calls runs without undefined behaviour and leaves one bank active and the download inside its buffer.  Without a repair of a bank, the version is the active
    bank's and never falls, an update in progress is to a later version, and what is applied or committed was received whole and has the checksum of its manifest's hash. *)
Theorem ota_calls_invariant xs c :
  ctx_wf c -> Forall call_ok xs ->
  exists c', run_calls xs c = Done (tt, c') /\ ctx_wf c' /\
    (Forall (fun x => is_repair x = false) xs -> version_ok c -> version_ok c' /\ current_version c <= current_version c').
Proof.
  revert c. induction xs as [|x xs IH]; intros c Hw Hok; cbn [run_calls].
  { exists c. split; [done|]. split; [done|]. intros _ H. split; [done|lia]. }
  apply Forall_cons in Hok as [Hx Hok]. destruct (call_step x c Hw Hx) as (c1 & E1 & [Hw1 Hv1] & _). rewrite (bind_step _ _ _ _ _ E1).
  destruct (IH c1 Hw1 Hok) as (c2 & E2 & Hw2 & Hv2). exists c2. split; [done|]. split; [done|]. intros [Hr Hrs]%Forall_cons Hv.
  destruct (Hv1 Hr Hv) as [Hv1' Hle1]. destruct (Hv2 Hrs Hv1') as [Hv2' Hle2]. split; [done|lia].
Qed.

(** A committed update is the last one: whatever is called afterwards, the state stays committed, and with it version and active bank; no second update begins. *)
Theorem committed_is_final xs c :
  ctx_wf c -> update_state c = OTA_COMMITTED -> Forall call_ok xs ->
  exists c', run_calls xs c = Done (tt, c') /\ update_state c' = OTA_COMMITTED /\ current_version c' = current_version c /\ active_bank c' = active_bank c /\
    forall m, edge_ota_begin_update m c' = Done (false, c').
Proof.
  revert c. induction xs as [|x xs IH]; intros c Hw Hs Hok; cbn [run_calls].
  { exists c. split; [done|]. split; [done|]. split; [done|]. split; [done|]. intros m. unfold edge_ota_begin_update. rewrite bind_gets. unfold in_state. by rewrite bool_decide_false by congruence. }
  apply Forall_cons in Hok as [Hx Hok]. destruct (call_step x c Hw Hx) as (c1 & E1 & [Hw1 _] & Hc1). rewrite (bind_step _ _ _ _ _ E1). destruct (Hc1 Hs) as (H1 & H2 & H3).
  destruct (IH c1 Hw1 H1 Hok) as (c2 & E2 & K1 & K2 & K3 & K4). exists c2. split; [done|]. by rewrite <- H2, <- H3.
Qed.

(** ** The difference, read back *)

(** What the format says of a difference: records of an offset in four bytes, a length in two and the new bytes, which replace the old ones. *)
Fixpoint apply_delta (fuel : nat) (delta buf : list Z) : list Z :=
  match fuel, delta with
  | S fuel, a :: b :: c :: d :: l :: h :: rest =>
      let n := Z.to_nat (le_val [l; h]) in apply_delta fuel (drop n rest) (splice (Z.to_nat (le_val [a; b; c; d])) (take n rest) buf)
  | _, _ => buf
  end.
Definition padded (n : nat) (l : list Z) : list Z := l ++ replicate (n - length l) 0.

Definition record_bytes (r : Z * list Z) : list Z := le_bytes 4 r.1 ++ le_bytes 2 (Z.of_nat (length r.2)) ++ r.2.
Definition record_ok (r : Z * list Z) : Prop := is_u32 r.1 /\ 0 < Z.of_nat (length r.2) < 65536.
Definition apply_records (rs : list (Z * list Z)) (buf : list Z) : list Z := foldl (fun b r => splice (Z.to_nat r.1) r.2 b) buf rs.

Lemma apply_delta_records rs fuel buf :
  Forall record_ok rs -> (length rs <= fuel)%nat -> apply_delta fuel (concat (record_bytes <$> rs)) buf = apply_records rs buf.
Proof.
  revert fuel buf. induction rs as [|[off data] rs IH]; intros fuel buf Hr Hf; [by destruct fuel|]. apply Forall_cons in Hr as [[Ho Hd] Hr]. cbn [fst snd] in *.
  destruct fuel as [|fuel]; [cbn in Hf; lia|]. cbn [fmap list_fmap concat]. unfold record_bytes at 1. cbn [fst snd].
  assert (le_val (le_bytes 4 off) = off) as E4 by (apply le_val_bytes; unfold is_u32 in Ho; lia).
  assert (le_val (le_bytes 2 (Z.of_nat (length data))) = Z.of_nat (length data)) as E2 by (apply le_val_bytes; lia).
  cbn [le_bytes app] in *. cbn [apply_delta]. rewrite E4, E2, Nat2Z.id. rewrite drop_app_length, take_app_length. cbn [length] in Hf. rewrite IH by (done || lia). done.
Qed.

Lemma length_record_bytes r : length (record_bytes r) = (6 + length r.2)%nat.
Proof. unfold record_bytes. rewrite !length_app, !length_le_bytes. lia. Qed.
Lemma records_length rs : (length rs <= length (concat (record_bytes <$> rs)))%nat.
Proof. induction rs as [|r rs IH]; cbn [fmap list_fmap concat length]; [done|]. rewrite length_app, length_record_bytes. lia. Qed.

Lemma padded_at n l j : (length l <= n)%nat -> (j < n)%nat -> padded n l !! j = Some (byte_or_0 l (Z.of_nat j)).
Proof.
  intros Hl Hj. unfold padded, byte_or_0, at_. destruct (Z.ltb_spec (Z.of_nat j) (Z.of_nat (length l))).
  - rewrite lookup_app_l by lia. rewrite Nat2Z.id. apply list_lookup_lookup_total_lt. lia.
  - rewrite lookup_app_r by lia. apply lookup_replicate_2. lia.
Qed.

Definition run_bytes (new_fw : list Z) (s n : Z) : list Z := (fun j => byte_or_0 new_fw (s + j)) <$> seqZ 0 n.
Lemma length_run_bytes new_fw s n : length (run_bytes new_fw s n) = Z.to_nat n.
Proof. unfold run_bytes. by rewrite length_fmap, length_seqZ. Qed.
Lemma lookup_run_bytes new_fw s n j : Z.of_nat j < n -> run_bytes new_fw s n !! j = Some (byte_or_0 new_fw (s + Z.of_nat j)).
Proof. intros H. unfold run_bytes. rewrite list_lookup_fmap, lookup_seqZ_lt by lia. cbn [fmap option_fmap option_map]. by rewrite Z.add_0_l. Qed.

Lemma emit_run_record new_fw max_delta out s n :
  0 <= n -> Z.of_nat (length out) + 6 + n <= max_delta -> emit_run new_fw max_delta out s n = out ++ record_bytes (s, run_bytes new_fw s n).
Proof.
  intros Hn Hm. unfold emit_run. cbv zeta. rewrite Z.min_l by (rewrite !length_app, !length_le_bytes; lia). unfold record_bytes. cbn [fst snd].
  rewrite length_run_bytes, Z2Nat.id by done. by rewrite <- !app_assoc.
Qed.

(** After the bytes before [i]: the records written rebuild the new image up to the current run. *)
Definition delta_inv (old_fw new_fw : list Z) (n : nat) (i : Z) (st : delta_state) : Prop :=
  let '(out, run_start, run_len) := st in
  let ready := if run_start <? 0 then i else run_start in
  (run_start = -1 /\ run_len = 0 \/ 0 <= run_start /\ 0 < run_len /\ run_start + run_len = i) /\
  exists rs, out = concat (record_bytes <$> rs) /\ Forall record_ok rs /\ Z.of_nat (length out) <= 7 * ready /\
    length (apply_records rs (padded n old_fw)) = n /\
    forall j, (j < n)%nat -> apply_records rs (padded n old_fw) !! j = Some (if Z.of_nat j <? ready then byte_or_0 new_fw (Z.of_nat j) else byte_or_0 old_fw (Z.of_nat j)).

Lemma delta_inv_emit old_fw new_fw n max_delta i out s l :
  Z.of_nat n < 65536 -> 7 * Z.of_nat n + 10 <= max_delta -> i <= Z.of_nat n -> 0 <= s -> 0 < l -> delta_inv old_fw new_fw n i (out, s, l) ->
  exists rs, emit_run new_fw max_delta out s l = concat (record_bytes <$> rs) /\ Forall record_ok rs /\ Z.of_nat (length (emit_run new_fw max_delta out s l)) <= 7 * i /\
    length (apply_records rs (padded n old_fw)) = n /\
    forall j, (j < n)%nat -> apply_records rs (padded n old_fw) !! j = Some (if Z.of_nat j <? i then byte_or_0 new_fw (Z.of_nat j) else byte_or_0 old_fw (Z.of_nat j)).
Proof.
  intros Hn Hm Hi Hs Hl ([|(H1 & H2 & H3)] & rs & -> & Hrs & Hlen & Hap & Hat); [lia|]. destruct (Z.ltb_spec s 0); [lia|].
  exists (rs ++ [(s, run_bytes new_fw s l)]). rewrite emit_run_record by lia. rewrite fmap_app, concat_app. cbn [fmap list_fmap concat]. rewrite app_nil_r.
  split; [done|]. split; [|split; [|split]].
  - apply Forall_app. split; [done|]. constructor; [|done]. split; cbn [fst snd]; [unfold is_u32; lia|rewrite length_run_bytes; lia].
  - rewrite length_app, length_record_bytes. cbn [snd]. rewrite length_run_bytes. lia.
  - unfold apply_records. rewrite foldl_app. cbn [foldl fst snd]. fold (apply_records rs (padded n old_fw)). rewrite length_splice; [done|]. rewrite length_run_bytes. lia.
  - intros j Hj. unfold apply_records. rewrite foldl_app. cbn [foldl fst snd]. fold (apply_records rs (padded n old_fw)).
    rewrite lookup_splice by (rewrite length_run_bytes; lia). rewrite length_run_bytes. destruct (decide _) as [Hin|Hout].
    + rewrite lookup_run_bytes by lia. destruct (Z.ltb_spec (Z.of_nat j) i); [|lia]. do 2 f_equal. lia.
    + rewrite Hat by done. destruct (Z.ltb_spec (Z.of_nat j) s), (Z.ltb_spec (Z.of_nat j) i); done || lia.
Qed.

Lemma delta_inv_step old_fw new_fw n max_delta i st :
  Z.of_nat n < 65536 -> 7 * Z.of_nat n + 10 <= max_delta -> 0 <= i < Z.of_nat n -> delta_inv old_fw new_fw n i st -> delta_inv old_fw new_fw n (i + 1) (delta_step old_fw new_fw max_delta i st).
Proof.
  intros Hn Hm Hi Hinv. destruct st as [[out s] l]. pose proof Hinv as Hinv0. destruct Hinv as (Hrun & rs & Hout & Hrs & Hlen & Hap & Hat). cbn [delta_step].
  destruct (Z.eqb_spec (byte_or_0 old_fw i) (byte_or_0 new_fw i)) as [Heq|Hne]; cbn [negb].
  - destruct Hrun as [(-> & ->)|(H1 & H2 & H3)].
    + cbn [Z.leb Z.compare andb]. split; [by left|]. exists rs. cbn [Z.ltb Z.compare] in *. split; [done|]. split; [done|]. split; [lia|]. split; [done|]. intros j Hj. rewrite Hat by done.
      destruct (Z.ltb_spec (Z.of_nat j) i), (Z.ltb_spec (Z.of_nat j) (i + 1)); try done; try lia. assert (Z.of_nat j = i) as -> by lia. by rewrite Heq.
    + destruct (Z.leb_spec 0 s); [|lia]. destruct (Z.ltb_spec 0 l); [|lia]. cbn [andb].
      destruct (delta_inv_emit old_fw new_fw n max_delta i out s l Hn Hm ltac:(lia) H1 H2 Hinv0) as (rs' & Hout' & Hrs' & Hlen' & Hap' & Hat').
      split; [by left|]. exists rs'. cbn [Z.ltb Z.compare]. split; [done|]. split; [done|]. split; [lia|]. split; [done|]. intros j Hj. rewrite Hat' by done.
      destruct (Z.ltb_spec (Z.of_nat j) i), (Z.ltb_spec (Z.of_nat j) (i + 1)); try done; try lia. assert (Z.of_nat j = i) as -> by lia. by rewrite Heq.
  - destruct Hrun as [(-> & ->)|(H1 & H2 & H3)].
    + cbn [Z.ltb Z.compare] in *. split; [right; lia|]. exists rs. destruct (Z.ltb_spec i 0); [lia|]. done.
    + destruct (Z.ltb_spec s 0) as [|_] in *; [lia|]. split; [right; lia|]. exists rs. destruct (Z.ltb_spec s 0); [lia|]. done.
Qed.

Lemma delta_inv_loop old_fw new_fw n max_delta k i st :
  Z.of_nat n < 65536 -> 7 * Z.of_nat n + 10 <= max_delta -> 0 <= i -> i + Z.of_nat k = Z.of_nat n -> delta_inv old_fw new_fw n i st ->
  delta_inv old_fw new_fw n (Z.of_nat n) (delta_loop k old_fw new_fw max_delta i st).
Proof.
  intros Hn Hm. revert i st. induction k as [|k IH]; intros i st Hi Hk Hinv; cbn [delta_loop].
  - by replace (Z.of_nat n) with i by lia.
  - destruct (Z.ltb_spec (Z.of_nat (length st.1.1)) (max_delta - 10)) as [_|Hge].
    + apply IH; [lia|lia|]. apply delta_inv_step; try done. lia.
    + destruct st as [[out s] l]. destruct Hinv as (Hrun & rs & _ & _ & Hlen & _). cbn [fst] in Hge. destruct (Z.ltb_spec s 0); lia.
Qed.

Lemma length_emit_run new_fw max_delta out s l : Z.of_nat (length out) + 6 <= max_delta -> 0 <= l -> Z.of_nat (length (emit_run new_fw max_delta out s l)) <= max_delta.
Proof.
  intros H Hl. unfold emit_run. cbv zeta. rewrite length_app, length_fmap, length_seqZ, !length_app, !length_le_bytes. lia.
Qed.
Lemma delta_loop_bound k old_fw new_fw max_delta i st :
  0 <= max_delta -> 0 <= st.2 -> Z.of_nat (length st.1.1) <= max_delta ->
  Z.of_nat (length (delta_loop k old_fw new_fw max_delta i st).1.1) <= max_delta /\ 0 <= (delta_loop k old_fw new_fw max_delta i st).2.
Proof.
  intros Hm. revert i st. induction k as [|k IH]; intros i st Hl Hb; cbn [delta_loop]; [done|]. destruct (Z.ltb_spec (Z.of_nat (length st.1.1)) (max_delta - 10)); [|done].
  destruct st as [[out s] l]. cbn [fst snd] in *. apply IH; unfold delta_step; destruct (negb _).
  - destruct (s <? 0); cbn [snd]; lia.
  - destruct (_ && _); cbn [snd]; lia.
  - destruct (s <? 0); cbn [fst]; lia.
  - destruct (_ && _); cbn [fst]; [|lia]. apply length_emit_run; lia.
Qed.

(** The difference of two images of fewer than 65536 bytes, with room for seven bytes per byte and ten more, rebuilds the new image, the shorter of the two filled up with
    zeros, when its records are applied to the old one; and no difference is longer than the room given. *)
Theorem edge_delta_correct old_fw new_fw max_delta fuel :
  let n := Nat.max (length old_fw) (length new_fw) in let delta := edge_ota_compute_delta old_fw new_fw max_delta in
  (Z.of_nat n < 65536 -> 7 * Z.of_nat n + 10 <= max_delta -> (length delta <= fuel)%nat -> apply_delta fuel delta (padded n old_fw) = padded n new_fw) /\
  (0 <= max_delta -> Z.of_nat (length delta) <= max_delta).
Proof.
  intros n delta. split.
  - intros Hn Hm Hf. assert (delta_inv old_fw new_fw n 0 ([], -1, 0)) as H0.
    { split; [by left|]. exists []. cbn [Z.ltb Z.compare]. split; [done|]. split; [done|]. split; [done|]. split; [cbn; unfold padded; rewrite length_app, length_replicate; lia|].
      intros j Hj. cbn. rewrite padded_at by lia. by destruct (Z.ltb_spec (Z.of_nat j) 0); [lia|]. }
    pose proof (delta_inv_loop old_fw new_fw n max_delta n 0 _ Hn Hm ltac:(lia) ltac:(lia) H0) as Hinv. unfold delta, edge_ota_compute_delta in *. fold n in Hf |- *.
    destruct (delta_loop n old_fw new_fw max_delta 0 ([], -1, 0)) as [[out s] l].
    assert (exists rs, (if (0 <=? s) && (0 <? l) && (Z.of_nat (length out) <? max_delta - 6) then emit_run new_fw max_delta out s l else out) = concat (record_bytes <$> rs) /\
      Forall record_ok rs /\ length (apply_records rs (padded n old_fw)) = n /\ forall j, (j < n)%nat -> apply_records rs (padded n old_fw) !! j = Some (byte_or_0 new_fw (Z.of_nat j)))
      as (rs & E & Hrs & Hl & Hat).
    { pose proof Hinv as Hinv0. destruct Hinv as ([(-> & ->)|(H1 & H2 & H3)] & rs & Hout & Hrs & Hlen & Hap & Hat).
      - exists rs. cbn [Z.leb Z.ltb Z.compare andb] in *. split; [done|]. split; [done|]. split; [done|]. intros j Hj. rewrite Hat by done. by destruct (Z.ltb_spec (Z.of_nat j) (Z.of_nat n)); [|lia].
      - destruct (delta_inv_emit old_fw new_fw n max_delta (Z.of_nat n) out s l Hn Hm ltac:(lia) H1 H2 Hinv0) as (rs' & Hout' & Hrs' & Hlen' & Hap' & Hat').
        destruct (Z.leb_spec 0 s); [|lia]. destruct (Z.ltb_spec 0 l); [|lia]. destruct (Z.ltb_spec s 0) in Hlen; [lia|]. destruct (Z.ltb_spec (Z.of_nat (length out)) (max_delta - 6)); [|lia]. cbn [andb].
        exists rs'. split; [done|]. split; [done|]. split; [done|]. intros j Hj. rewrite Hat' by done. by destruct (Z.ltb_spec (Z.of_nat j) (Z.of_nat n)); [|lia]. }
    rewrite E in *. pose proof (records_length rs). rewrite apply_delta_records by (done || lia).
    apply list_eq. intros j. destruct (decide (j < n)%nat); [rewrite Hat by done; symmetry; apply padded_at; lia|].
    rewrite !lookup_ge_None_2; [done| |lia]. unfold padded. rewrite length_app, length_replicate. lia.
  - intros Hm. unfold delta, edge_ota_compute_delta. pose proof (delta_loop_bound (Nat.max (length old_fw) (length new_fw)) old_fw new_fw max_delta 0 ([], -1, 0) Hm ltac:(done) ltac:(cbn; lia)) as [Hb Hl].
    destruct (delta_loop _ _ _ _ _ _) as [[out s] l]. cbn [fst snd] in *. destruct (Z.ltb_spec (Z.of_nat (length out)) (max_delta - 6)); rewrite ?andb_false_r; [|lia].
    destruct ((0 <=? s) && (0 <? l)); cbn [andb]; [apply length_emit_run; lia|lia].
Qed.

(** ** Rollback and messages *)

(** A rollback gives up the update at any stage, and with it what the other bank held, a good image of an earlier version as well, down to its address and size; an idle
    or committed device is left as it is. *)
Theorem rollback_correct c :
  ctx_wf c -> exists b c', edge_ota_rollback_update c = Done (b, c') /\ (b = true <-> update_state c <> OTA_IDLE /\ update_state c <> OTA_COMMITTED) /\
    (b = false -> c' = c) /\ (b = true -> update_state c' = OTA_IDLE /\ other c' = zero_bank /\ bank c' (active_bank c) = bank c (active_bank c) /\ current_version c' = current_version c).
Proof.
  intros Hw. rewrite rollback_run. unfold in_state. pose proof Hw as [[Hlb Hac] _ _ _].
  destruct (decide (update_state c = OTA_IDLE)) as [Hi|Hi]; [rewrite (bool_decide_true (_ = OTA_IDLE)) by done|rewrite (bool_decide_false (_ = OTA_IDLE)) by done]; cbn [orb].
  - exists false, c. split; [done|]. split; [naive_solver|]. split; [done|intros [=]].
  - destruct (decide (update_state c = OTA_COMMITTED)) as [Hc|Hc]; [rewrite bool_decide_true by done|rewrite bool_decide_false by done].
    + exists false, c. split; [done|]. split; [naive_solver|]. split; [done|intros [=]].
    + exists true, (rolled_back c). split; [done|]. split; [done|]. split; [done|]. intros _. unfold other. change (active_bank (rolled_back c)) with (active_bank c).
      rewrite !bank_rolled_back by (done || lia). by rewrite decide_True, decide_False by lia.
Qed.

Lemma marker_loop_spec n response i :
  marker_loop n response i = true <-> exists k, (i <= k < i + n)%nat /\ window k (length job_marker) response = job_marker.
Proof.
  revert i. induction n as [|n IH]; intros i; cbn [marker_loop]; [split; [done|intros (k & Hk & _); lia]|].
  rewrite orb_true_iff, bool_decide_eq_true, IH. split.
  - intros [H|(k & Hk & H)]; [exists i; split; [lia|done]|exists k; split; [lia|done]].
  - intros (k & Hk & H). destruct (decide (k = i)) as [->|]; [by left|right; exists k; split; [lia|done]].
Qed.

(** A response asks for an update exactly when it has at least twenty bytes and the marker stands somewhere in it. *)
Theorem parse_job_correct response rlen c :
  rlen <= Z.of_nat (length response) ->
  exists b, edge_ota_parse_job_response response rlen c = Done (b, c) /\ (b = true <-> 20 <= rlen /\ exists pre post, take (Z.to_nat rlen) response = pre ++ job_marker ++ post).
Proof.
  intros Hl. unfold edge_ota_parse_job_response. destruct (Z.ltb_spec rlen 20); [exists false; split; [done|]; split; [done|lia]|].
  erewrite bind_step by (apply loop_bytes_ok; lia). eexists. split; [reflexivity|]. rewrite marker_loop_spec. change (length job_marker) with 17%nat. set (r := take (Z.to_nat rlen) response).
  assert (Z.of_nat (length r) = rlen) as Hr by (unfold r; rewrite length_take; lia). split.
  - intros (k & Hk & Hm). split; [done|]. exists (take k r), (drop (k + 17) r). rewrite <- Hm. unfold window. rewrite <- drop_drop. by rewrite !take_drop.
  - intros [_ (pre & post & E)]. exists (length pre). assert (length r = (length pre + (17 + length post))%nat) as Hlen by (rewrite E, !length_app; done). split; [lia|].
    rewrite E. unfold window. rewrite drop_app_length. change 17%nat with (length job_marker). apply take_app_length.
Qed.

(** ** Concrete runs *)

Definition demo_ctx : OtaUpdateCtx :=
  Ctx (replicate 16 7) [Bank 0x08000000 OTA_FLASH_BANK_SIZE 1 true true (replicate 32 0); Bank 0x08010000 OTA_FLASH_BANK_SIZE 0 false false (replicate 32 0)]
    0 1 0 0 OTA_IDLE (replicate (Z.to_nat OTA_MAX_PAYLOAD) 0) zero_manifest false 0 3.
Definition demo_manifest : OtaManifest := Manifest 2 3 (replicate 29 0 ++ [1; 2; 3]) 0 (replicate 16 7) (replicate 64 0) 1 0 [] 0.
Lemma edge_demo_wf : ctx_wf demo_ctx.
Proof.
  constructor; [split; [reflexivity|left; reflexivity]|split; reflexivity| |split; vm_compute; discriminate]. cbn [demo_ctx receive_buffer]. rewrite length_replicate. unfold OTA_MAX_PAYLOAD. lia.
Qed.
Lemma demo_version : version_ok demo_ctx.
Proof.
  split; [reflexivity|]. split; [intros Hs; change (update_state demo_ctx) with OTA_IDLE in Hs; state_cases; discriminate|]. split; [intros Hs; discriminate Hs|].
  split; [intros Hs; discriminate Hs|]. intros Hs; change (update_state demo_ctx) with OTA_IDLE in Hs; state_cases; discriminate.
Qed.
Lemma demo_manifest_ok : manifest_ok demo_manifest demo_ctx.
Proof. split_and!; vm_compute; try done. Qed.
Lemma demo_init : edge_ota_init (replicate 16 7) 16 demo_ctx = Done (tt, demo_ctx).
Proof. reflexivity. Qed.

Lemma update_installs_witness :
  exists c', (begun ← edge_ota_begin_update demo_manifest; got ← receive_all [[1; 2]; [3]]; applied ← edge_ota_verify_and_apply; done ← edge_ota_commit_update;
      mret (begun && got && applied && done)) demo_ctx = Done (true, c') /\ current_version c' = 2 /\ active_bank c' = 1.
Proof.
  destruct (update_installs demo_manifest [[1; 2]; [3]] demo_ctx) as (c' & E & _ & _ & Ha & Hv & _);
    [exact edge_demo_wf|reflexivity|exact demo_manifest_ok|repeat constructor; vm_compute; congruence|reflexivity|reflexivity|].
  exists c'. split; [exact E|]. split; [exact Hv|exact Ha].
Defined.
Lemma ota_calls_invariant_witness :
  exists c', run_calls [Begin demo_manifest; Receive [1; 2; 3] 3; VerifyAndApply; Rollback; Begin demo_manifest] demo_ctx = Done (tt, c') /\ 1 <= current_version c'.
Proof.
  destruct (ota_calls_invariant [Begin demo_manifest; Receive [1; 2; 3] 3; VerifyAndApply; Rollback; Begin demo_manifest] demo_ctx) as (c' & E & _ & H);
    [exact edge_demo_wf|repeat constructor; vm_compute; congruence|]. exists c'. split; [exact E|]. apply H; [repeat constructor|exact demo_version].
Defined.
Lemma committed_is_final_witness :
  exists c', run_calls [Rollback; Begin demo_manifest] (set_update_state OTA_COMMITTED demo_ctx) = Done (tt, c') /\ update_state c' = OTA_COMMITTED.
Proof.
  destruct (committed_is_final [Rollback; Begin demo_manifest] (set_update_state OTA_COMMITTED demo_ctx)) as (c' & E & H & _);
    [destruct edge_demo_wf; constructor; assumption|reflexivity|repeat constructor; vm_compute; congruence|]. exists c'. split; [exact E|exact H].
Defined.
Lemma edge_delta_correct_witness : apply_delta 60 (edge_ota_compute_delta [1; 2; 3; 4; 5] [1; 9; 9; 4] 60) [1; 2; 3; 4; 5] = [1; 9; 9; 4; 0].
Proof. apply (edge_delta_correct [1; 2; 3; 4; 5] [1; 9; 9; 4] 60 60); vm_compute; first [reflexivity|discriminate|lia]. Defined.
Lemma rollback_correct_witness : exists c', edge_ota_rollback_update (set_update_state OTA_DOWNLOADING demo_ctx) = Done (true, c') /\ other c' = zero_bank.
Proof.
  destruct (rollback_correct (set_update_state OTA_DOWNLOADING demo_ctx)) as (b & c' & E & Hb & _ & Ht); [destruct edge_demo_wf; constructor; assumption|].
  assert (b = true) as -> by (apply Hb; split; discriminate). exists c'. split; [exact E|]. apply (Ht eq_refl).
Defined.
Lemma parse_job_correct_witness : edge_ota_parse_job_response (replicate 5 32 ++ job_marker) 22 demo_ctx = Done (true, demo_ctx).
Proof.
  destruct (parse_job_correct (replicate 5 32 ++ job_marker) 22 demo_ctx) as (b & E & Hb); [discriminate|].
  assert (b = true) as -> by (apply Hb; split; [discriminate|]; exists (replicate 5 32), []; reflexivity). exact E.
Defined.
