(* ===== verification/KeyMgmt.v ===== *)
(** * Key management (mini-edge-security/src/edge_key_mgmt.c)

    The slots of a key store in their order, certificates, revocation list, wrapping.
    A pointer argument is the list of bytes from it to the end of its object; a function that fills a buffer returns the bytes it writes.  The remainder of two [int]s is
    undefined for a divisor of zero. *)
From S2P Require Import Prelude ByteMem.

Definition KM_MAX_KEY_SLOTS : Z := 16.
Definition KM_MAX_CERT_SIZE : Z := 1024.
Definition KM_MAX_CHAIN_DEPTH : Z := 5.
Definition KM_PUBKEY_SIZE : Z := 64.
Definition KM_PRIVKEY_SIZE : Z := 32.
Definition KM_SERIAL_SIZE : Z := 16.
Definition KM_SUBJECT_SIZE : Z := 64.
Definition KM_ISSUER_SIZE : Z := 64.
Inductive KeyMgmtKeyType := KEY_TYPE_ECC_P256 | KEY_TYPE_ECC_P384 | KEY_TYPE_RSA_2048 | KEY_TYPE_RSA_4096 | KEY_TYPE_ED25519.
(** Sets of uses are their bits. *)
Definition KEY_USE_SIGN : Z := Z.shiftl 1 0.
Definition KEY_USE_VERIFY : Z := Z.shiftl 1 1.
Definition KEY_USE_ENCRYPT : Z := Z.shiftl 1 2.
Definition KEY_USE_DECRYPT : Z := Z.shiftl 1 3.
Definition KEY_USE_DERIVE : Z := Z.shiftl 1 4.
Definition KEY_USE_WRAP : Z := Z.shiftl 1 5.
Definition KEY_USE_UNWRAP : Z := Z.shiftl 1 6.


Record KeyMgmtSlot := Slot { slot_id : Z; key_type : KeyMgmtKeyType; private_key : list Z; public_key : list Z; priv_len : Z; pub_len : Z; usage_flags : Z; active : bool; exportable : bool; created_at : Z; expires_at : Z }.
Definition set_private_key v x := Slot (slot_id x) (key_type x) v (public_key x) (priv_len x) (pub_len x) (usage_flags x) (active x) (exportable x) (created_at x) (expires_at x).
Definition set_priv_len v x := Slot (slot_id x) (key_type x) (private_key x) (public_key x) v (pub_len x) (usage_flags x) (active x) (exportable x) (created_at x) (expires_at x).
Definition set_active v x := Slot (slot_id x) (key_type x) (private_key x) (public_key x) (priv_len x) (pub_len x) (usage_flags x) v (exportable x) (created_at x) (expires_at x).
Record X509CertChain := Cert { cert_data : list Z; cert_len : Z; subject : list Z; issuer : list Z; serial : list Z; cert_pubkey : list Z; pubkey_len : Z; not_before : Z; not_after : Z; is_ca : bool; revoked : bool }.
Record EdgeKeyMgmtCtx := KeyMgmt { slots : list KeyMgmtSlot; key_count : Z; cert_chain : list X509CertChain; chain_depth : Z; trust_anchor_pubkey : list Z; trust_anchor_pubkey_len : Z; pki_initialized : bool }.
Definition set_slots v x := KeyMgmt v (key_count x) (cert_chain x) (chain_depth x) (trust_anchor_pubkey x) (trust_anchor_pubkey_len x) (pki_initialized x).
Definition set_key_count v x := KeyMgmt (slots x) v (cert_chain x) (chain_depth x) (trust_anchor_pubkey x) (trust_anchor_pubkey_len x) (pki_initialized x).

Notation KM := (M EdgeKeyMgmtCtx).
Definition zero_slot : KeyMgmtSlot := Slot 0 KEY_TYPE_ECC_P256 (replicate 32 0) (replicate 64 0) 0 0 0 false false 0 0.
Definition zero_cert : X509CertChain := Cert (replicate 1024 0) 0 (replicate 64 0) (replicate 64 0) (replicate 16 0) (replicate 64 0) 0 0 0 false false.
#[export] Instance slot_inhabited : Inhabited KeyMgmtSlot := populate zero_slot.
Definition slot_of (i : Z) (c : EdgeKeyMgmtCtx) : KeyMgmtSlot := slots c !!! Z.to_nat i.
Definition upd_slot (i : Z) (f : KeyMgmtSlot -> KeyMgmtSlot) : KM unit := modify (fun c => set_slots (alter f (Z.to_nat i) (slots c)) c).
Definition no_slot (i : Z) (c : EdgeKeyMgmtCtx) : bool := (i <? 0) || (key_count c <=? i).

(** ** Keys *)

Definition edge_key_mgmt_init : KM unit :=
  modify (fun _ => KeyMgmt (replicate 16 zero_slot) 0 (replicate 5 zero_cert) 0 (replicate 64 0) 0 true).

Definition generated_private (slot : Z) : list Z := (fun i => u8 (Z.lxor (0x6B + slot * 31 + i * 17) (i * 0xC3 + 0x71))) <$> seqZ 0 KM_PRIVKEY_SIZE.
Definition generated_public (slot : Z) (priv : list Z) : list Z := (fun i => Z.lxor (at_ priv (i mod KM_PRIVKEY_SIZE)) (u8 (0x9E + slot * 7 + i * 13))) <$> seqZ 0 KM_PUBKEY_SIZE.
Definition edge_key_mgmt_generate_keypair (ktype : KeyMgmtKeyType) : KM Z :=
  slot ← gets key_count;
  if KM_MAX_KEY_SLOTS <=? slot then mret (-1)
  else
    let priv := generated_private slot in
    let created := u32 (slot * 1000 + 100) in
    upd_slot slot (fun _ => Slot slot ktype priv (generated_public slot priv) KM_PRIVKEY_SIZE KM_PUBKEY_SIZE
      (Z.lor (Z.lor KEY_USE_SIGN KEY_USE_VERIFY) KEY_USE_DERIVE) true false created (created +32 31536000));;
    modify (set_key_count (slot + 1));;
    mret slot.

Definition edge_key_mgmt_import_keypair (priv : list Z) (plen : Z) (pub : list Z) (publen : Z) : KM Z :=
  slot ← gets key_count;
  if KM_MAX_KEY_SLOTS <=? slot then mret (-1)
  else
    let pl := if plen <? KM_PRIVKEY_SIZE then plen else KM_PRIVKEY_SIZE in
    p ← memcpy_bytes priv pl;
    let ql := if publen <? KM_PUBKEY_SIZE then publen else KM_PUBKEY_SIZE in
    q ← memcpy_bytes pub ql;
    let created := u32 (slot * 1000 + 200) in
    upd_slot slot (fun _ => Slot slot KEY_TYPE_ECC_P256 (overlay p (replicate 32 0)) (overlay q (replicate 64 0)) pl ql
      (Z.lor KEY_USE_SIGN KEY_USE_VERIFY) true true created (created +32 31536000));;
    modify (set_key_count (slot + 1));;
    mret slot.

(** The result and the bytes copied. *)
Definition edge_key_mgmt_get_public_key (slot max_len : Z) : KM (bool * list Z) :=
  c ← gets id;
  if no_slot slot c then mret (false, [])
  else
    let ks := slot_of slot c in
    if negb (active ks) then mret (false, [])
    else bs ← memcpy_bytes (public_key ks) (if pub_len ks <? max_len then pub_len ks else max_len); mret (true, bs).

Definition rotated_private (priv : list Z) : list Z := imap (fun i b => u8 (Z.lxor (Z.lxor b 0xAA) (u8 (Z.of_nat i * 0x11)))) priv.
Definition rotated_public (priv : list Z) : list Z := (fun i => Z.lxor (at_ priv (i mod KM_PRIVKEY_SIZE)) (u8 (0x5C + i * 19))) <$> seqZ 0 KM_PUBKEY_SIZE.
Definition edge_key_mgmt_rotate_key (slot : Z) : KM unit :=
  c ← gets id;
  if no_slot slot c then mret tt
  else if negb (active (slot_of slot c)) then mret tt
  else
    upd_slot slot (fun ks =>
      let priv := rotated_private (private_key ks) in
      let created := created_at ks +32 1 in
      Slot (slot_id ks) (key_type ks) priv (rotated_public priv) (priv_len ks) (pub_len ks) (usage_flags ks) (active ks) (exportable ks) created (created +32 31536000)).

Definition edge_key_mgmt_revoke_key (slot : Z) : KM bool :=
  c ← gets id;
  if no_slot slot c then mret false
  else upd_slot slot (fun ks => set_private_key (replicate 32 0) (set_active false ks));; mret true.

(** [None] is false; the signature has 64 bytes. *)
Definition edge_key_mgmt_sign (slot : Z) (hash : list Z) (hash_len : Z) : KM (option (list Z)) :=
  c ← gets id;
  if no_slot slot c then mret None
  else
    let ks := slot_of slot c in
    if negb (active ks) then mret None
    else if Z.land (usage_flags ks) KEY_USE_SIGN =? 0 then mret None
    else
      sig ← fill_loop 64 0 (fun i => h ← at_rem hash i hash_len; k ← at_rem (private_key ks) i (priv_len ks); mret (Z.lxor (Z.lxor h k) (u8 (0xEC + slot * 7 + i * 3))));
      mret (Some sig).

Fixpoint verify_loop (n : nat) (i slot : Z) (ks : KeyMgmtSlot) (hash : list Z) (hash_len : Z) (sig : list Z) : KM bool :=
  match n with
  | O => mret true
  | S n =>
      h ← at_rem hash i hash_len;
      k ← at_rem (public_key ks) (i * 2) (pub_len ks);
      s ← of_option (sig !! Z.to_nat i);
      if negb (s =? Z.lxor (Z.lxor h k) (u8 (0xEC + slot * 7 + i * 3))) then mret false else verify_loop n (i + 1) slot ks hash hash_len sig
  end.
Definition edge_key_mgmt_verify (slot : Z) (hash : list Z) (hash_len : Z) (sig : list Z) (sig_len : Z) : KM bool :=
  c ← gets id;
  if no_slot slot c then mret false
  else
    let ks := slot_of slot c in
    if negb (active ks) then mret false
    else if sig_len <? 32 then mret false
    else verify_loop 16 0 slot ks hash hash_len sig.

(** ** Certificates *)

Definition edge_key_mgmt_validate_cert_chain (chain : X509CertChain) : KM bool :=
  c ← gets id;
  mret (
    if negb (pki_initialized c) then false
    else if cert_len chain <? 16 then false
    else if revoked chain then false
    else if not_after chain <? 1000000 then false
    else
      let valid_pubkey := existsb truthy (take (Z.to_nat (Z.min (pubkey_len chain) KM_PUBKEY_SIZE)) (cert_pubkey chain)) in
      negb (is_ca chain && negb valid_pubkey)).
Definition edge_key_mgmt_check_cert_expiry (cert : X509CertChain) (now : Z) : bool := (not_before cert <=? now) && (now <=? not_after cert).
(** The checksum that the function computes is compared with nothing. *)
Definition edge_key_mgmt_verify_cert_signature (cert : X509CertChain) (issuer_pubkey : list Z) : KM bool :=
  if cert_len cert <? 32 then mret false
  else
    tbs ← loop_bytes (cert_data cert) (Z.min (cert_len cert) 64);
    key ← loop_bytes issuer_pubkey 32;
    let expected := foldl Z.lxor (foldl Z.lxor 0 tbs) key in
    mret true.
Definition edge_key_mgmt_set_trust_anchor (pubkey : list Z) (publen : Z) : KM unit :=
  let n := if publen <? KM_PUBKEY_SIZE then publen else KM_PUBKEY_SIZE in
  bs ← memcpy_bytes pubkey n;
  modify (fun c => KeyMgmt (slots c) (key_count c) (cert_chain c) (chain_depth c) (overlay bs (trust_anchor_pubkey c)) n (pki_initialized c)).

(** [None] is false, and the certificate is left as it is. *)
Definition edge_key_mgmt_issue_device_cert (ca_slot device_slot : Z) : KM (option X509CertChain) :=
  c ← gets id;
  if no_slot ca_slot c then mret None
  else if no_slot device_slot c then mret None
  else
    let d := slot_of device_slot c in
    if negb (active (slot_of ca_slot c)) || negb (active d) then mret None
    else
      mret (Some (Cert
        (overlay ((fun i => u8 (0xCA + i * 3 + ca_slot * 7)) <$> seqZ 0 128) (replicate 1024 0)) 128
        (overlay (replicate 16 (u8 (68 + device_slot mod 10))) (replicate 64 0)) (overlay (replicate 16 (u8 (67 + ca_slot mod 10))) (replicate 64 0))
        ((fun i => u8 (device_slot * 16 + i)) <$> seqZ 0 KM_SERIAL_SIZE) (public_key d) (pub_len d) (created_at d) (expires_at d) false false)).

(** The loop over the entries from [i]: [n] are left. *)
Fixpoint crl_loop (n : nat) (i : Z) (crl : list Z) (crl_len : Z) (keys : list KeyMgmtSlot) : bool :=
  match n with
  | O => true
  | S n =>
      let offset := 4 + i * KM_SERIAL_SIZE in
      if crl_len <? offset + KM_SERIAL_SIZE then true
      else if existsb (fun ks => bool_decide (window (Z.to_nat offset) 16 crl = take 16 (public_key ks))) keys then false
      else crl_loop n (i + 1) crl crl_len keys
  end.
Definition edge_key_mgmt_check_crl (crl : list Z) (crl_len : Z) : KM bool :=
  if crl_len <? 4 then mret true
  else
    l ← loop_bytes crl crl_len;
    c ← gets id;
    let crl_count := Z.lor (at_ l 0) (Z.shiftl (at_ l 1) 8) in
    mret (crl_loop (Z.to_nat (Z.min crl_count 100)) 0 l crl_len (take (Z.to_nat (key_count c)) (slots c))).

(** The bytes written; none when [*csr_len] gets 0. *)
Definition edge_key_mgmt_export_csr (slot : Z) : KM (list Z) :=
  c ← gets id;
  if no_slot slot c then mret []
  else
    let ks := slot_of slot c in
    bs ← memcpy_bytes (public_key ks) (if pub_len ks <? 64 then pub_len ks else 64);
    mret ([67; 83; 82; 58] ++ bs ++ [u8 (Z.land slot 0xFF)]).

Fixpoint usage_loop (i : Z) (keys : list KeyMgmtSlot) (usage : Z) : Z :=
  match keys with
  | [] => -1
  | ks :: keys => if active ks && (Z.land (usage_flags ks) usage =? usage) then i else usage_loop (i + 1) keys usage
  end.
Definition edge_key_mgmt_find_key_by_usage (usage : Z) : KM Z := c ← gets id; mret (usage_loop 0 (take (Z.to_nat (key_count c)) (slots c)) usage).

(** ** Wrapping *)

Definition wrap_iv (wk : KeyMgmtSlot) : list Z := (fun i => Z.lxor (at_ (public_key wk) i) (u8 (0xA6 + i * 3))) <$> seqZ 0 8.
(** The bytes written; none when [*wlen] stays 0. *)
Definition edge_key_mgmt_wrap_key (wrapping_key_slot target_slot : Z) : KM (list Z) :=
  c ← gets id;
  if no_slot wrapping_key_slot c then mret []
  else if no_slot target_slot c then mret []
  else
    let wk := slot_of wrapping_key_slot c in
    let tk := slot_of target_slot c in
    if negb (active wk) || negb (active tk) then mret []
    else
      bs ← fill_loop (Z.to_nat (priv_len tk)) 0 (fun i => x ← of_option (private_key tk !! Z.to_nat i); k ← at_rem (private_key wk) i (priv_len wk); mret (Z.lxor x k));
      mret (wrap_iv wk ++ bs).

(** The loop writes the target slot while it reads the wrapping one, which may be the same. *)
Fixpoint unwrap_loop (n : nat) (i w t : Z) (wrapped : list Z) : KM unit :=
  match n with
  | O => mret tt
  | S n =>
      x ← of_option (wrapped !! Z.to_nat (i + 8));
      wk ← gets (slot_of w);
      k ← at_rem (private_key wk) i (priv_len wk);
      upd_slot t (fun tk => set_private_key (<[Z.to_nat i := Z.lxor x k]> (private_key tk)) tk);;
      unwrap_loop n (i + 1) w t wrapped
  end.
Definition edge_key_mgmt_unwrap_key (wrapping_key_slot : Z) (wrapped : list Z) (wlen target_slot : Z) : KM bool :=
  c ← gets id;
  if no_slot wrapping_key_slot c then mret false
  else if no_slot target_slot c then mret false
  else if wlen <? 16 then mret false
  else
    let wk := slot_of wrapping_key_slot c in
    if negb (active wk) then mret false
    else
      iv ← memcpy_bytes wrapped 8;
      if negb (bool_decide (iv = wrap_iv wk)) then mret false
      else
        let key_len := wlen - 8 in
        let n := if key_len <? KM_PRIVKEY_SIZE then key_len else KM_PRIVKEY_SIZE in
        upd_slot target_slot (set_priv_len n);;
        unwrap_loop (Z.to_nat n) 0 wrapping_key_slot target_slot wrapped;;
        upd_slot target_slot (set_active true);;
        mret true.

(** Both arms of the loop, and what follows it, give false. *)
Definition edge_key_mgmt_is_pq_ready : KM bool := mret false.
Definition edge_key_mgmt_set_pq_label (ready : bool) : KM unit := mret tt.

(** ** Well-formed key stores *)

Definition slot_wf (ks : KeyMgmtSlot) : Prop :=
  bytes_of_length 32 (private_key ks) /\ bytes_of_length 64 (public_key ks) /\ 0 <= priv_len ks <= 32 /\ 0 <= pub_len ks <= 64.
(** Used slots have keys of at least one byte. *)
Record km_wf (c : EdgeKeyMgmtCtx) : Prop := {
  wf_slots : length (slots c) = 16%nat /\ 0 <= key_count c <= 16;
  wf_all : Forall slot_wf (slots c);
  wf_used : forall i, 0 <= i < key_count c -> 0 < priv_len (slot_of i c) /\ 0 < pub_len (slot_of i c);
  wf_anchor : bytes_of_length 64 (trust_anchor_pubkey c) }.

Lemma slot_at c i : length (slots c) = 16%nat -> 0 <= i < 16 -> slots c !! Z.to_nat i = Some (slot_of i c).
Proof. intros Hl Hi. unfold slot_of. apply list_lookup_lookup_total_lt. lia. Qed.
Lemma km_slot_ok c i : km_wf c -> 0 <= i < 16 -> slot_wf (slot_of i c).
Proof. intros [[Hl _] Ha _ _] Hi. rewrite Forall_lookup in Ha. apply (Ha _ _ (slot_at c i Hl Hi)). Qed.
Lemma slot_upd c f i j : length (slots c) = 16%nat -> 0 <= i < 16 -> 0 <= j < 16 ->
  slot_of j (set_slots (alter f (Z.to_nat i) (slots c)) c) = if decide (i = j) then f (slot_of j c) else slot_of j c.
Proof.
  intros Hl Hi Hj. unfold slot_of. cbn [set_slots slots]. destruct (decide (i = j)) as [->|Hne]; [by rewrite list_lookup_total_alter_eq by lia|by rewrite list_lookup_total_alter_ne by lia].
Qed.

(** A change of one slot, and of the number of slots. *)
Lemma wf_upd c f i n :
  km_wf c -> 0 <= i < 16 -> key_count c <= n <= 16 -> (forall j, key_count c <= j < n -> j = i) -> slot_wf (f (slot_of i c)) ->
  (i < n -> 0 < priv_len (f (slot_of i c)) /\ 0 < pub_len (f (slot_of i c))) ->
  km_wf (set_key_count n (set_slots (alter f (Z.to_nat i) (slots c)) c)).
Proof.
  intros [[Hl Hn] Ha Hu Hac] Hi Hc Hj Hf Hp. constructor; [split; [cbn [set_key_count set_slots slots]; by rewrite length_alter|cbn; lia]| | |exact Hac].
  - cbn [set_key_count set_slots slots]. apply Forall_alter; [done|]. intros x Hx _. rewrite (slot_at c i Hl Hi) in Hx. by injection Hx as <-.
  - intros j Hjn. change (slot_of j (set_key_count n (set_slots (alter f (Z.to_nat i) (slots c)) c))) with (slot_of j (set_slots (alter f (Z.to_nat i) (slots c)) c)).
    cbn [set_key_count key_count] in Hjn. rewrite slot_upd by (done || lia). destruct (decide (i = j)) as [->|Hne]; [apply Hp; lia|]. apply Hu.
    destruct (decide (j < key_count c)); [lia|]. specialize (Hj j ltac:(lia)). lia.
Qed.

Lemma set_key_count_same c : set_key_count (key_count c) c = c.
Proof. by destruct c. Qed.
Lemma wf_upd_slot c f i :
  km_wf c -> 0 <= i < 16 -> slot_wf (f (slot_of i c)) -> (i < key_count c -> 0 < priv_len (f (slot_of i c)) /\ 0 < pub_len (f (slot_of i c))) ->
  km_wf (set_slots (alter f (Z.to_nat i) (slots c)) c).
Proof.
  intros H Hi Hf Hp. pose proof (wf_upd c f i (key_count c) H Hi ltac:(destruct H as [[_ ?] _ _ _]; lia) ltac:(lia) Hf Hp) as Hw.
  change (key_count c) with (key_count (set_slots (alter f (Z.to_nat i) (slots c)) c)) in Hw. by rewrite set_key_count_same in Hw.
Qed.

Lemma no_slot_false i c : 0 <= i < key_count c -> no_slot i c = false.
Proof. intros H. unfold no_slot. destruct (Z.ltb_spec i 0); [lia|]. by destruct (Z.leb_spec (key_count c) i); [lia|]. Qed.
Lemma no_slot_spec i c : no_slot i c = false <-> 0 <= i < key_count c.
Proof. split; [|apply no_slot_false]. unfold no_slot. rewrite orb_false_iff, Z.ltb_ge, Z.leb_gt. lia. Qed.

(** ** Signatures *)

Definition signature (slot : Z) (ks : KeyMgmtSlot) (hash : list Z) (hash_len : Z) : list Z :=
  (fun i => Z.lxor (Z.lxor (at_ hash (i mod hash_len)) (at_ (private_key ks) (i mod priv_len ks))) (u8 (0xEC + slot * 7 + i * 3))) <$> seqZ 0 64.
Lemma sign_run slot hash hash_len c :
  km_wf c -> 0 <= slot < key_count c -> active (slot_of slot c) = true -> Z.land (usage_flags (slot_of slot c)) KEY_USE_SIGN <> 0 -> 0 < hash_len <= Z.of_nat (length hash) ->
  edge_key_mgmt_sign slot hash hash_len c = Done (Some (signature slot (slot_of slot c) hash hash_len), c).
Proof.
  intros Hw Hs Ha Hu Hh. unfold edge_key_mgmt_sign. rewrite bind_gets. unfold id. rewrite no_slot_false by done. cbv zeta. rewrite Ha. cbn [negb].
  destruct (Z.eqb_spec (Z.land (usage_flags (slot_of slot c)) KEY_USE_SIGN) 0); [done|]. pose proof Hw as [[_ Hc] _ Hp _]. destruct (Hp slot Hs) as [Hp1 Hp2].
  destruct (km_slot_ok c slot Hw ltac:(lia)) as ([Hpl _] & _ & Hpr & _).
  erewrite bind_step; [done|]. apply (fill_loop_ok 64 0). intros j Hj. erewrite bind_step by (apply at_rem_ok; lia). by erewrite bind_step by (apply at_rem_ok; lia).
Qed.

Lemma verify_loop_run n i slot ks hash hash_len sig (c : EdgeKeyMgmtCtx) :
  slot_wf ks -> 0 < pub_len ks -> 0 < hash_len <= Z.of_nat (length hash) -> 0 <= i -> i + Z.of_nat n <= Z.of_nat (length sig) ->
  exists b, verify_loop n i slot ks hash hash_len sig c = Done (b, c) /\
    (b = true <-> forall j, i <= j < i + Z.of_nat n -> at_ sig j = Z.lxor (Z.lxor (at_ hash (j mod hash_len)) (at_ (public_key ks) ((j * 2) mod pub_len ks))) (u8 (0xEC + slot * 7 + j * 3))).
Proof.
  intros ((_ & _) & [Hql _] & _ & Hq) Hq0 Hh. revert i. induction n as [|n IH]; intros i Hi Hs; cbn [verify_loop].
  { exists true. split; [done|]. split; [intros _ j Hj; lia|done]. }
  erewrite bind_step by (apply at_rem_ok; lia). erewrite bind_step by (apply at_rem_ok; lia). rewrite (list_lookup_lookup_total_lt sig (Z.to_nat i)) by lia. cbn [of_option]. rewrite bind_ret.
  fold (at_ sig i). destruct (Z.eqb_spec (at_ sig i) (Z.lxor (Z.lxor (at_ hash (i mod hash_len)) (at_ (public_key ks) ((i * 2) mod pub_len ks))) (u8 (0xEC + slot * 7 + i * 3)))) as [E|E]; cbn [negb].
  - destruct (IH (i + 1) ltac:(lia) ltac:(lia)) as (b & Eb & Hb). exists b. split; [done|]. rewrite Hb. split; intros H j Hj; [|apply H; lia].
    destruct (decide (j = i)) as [->|]; [done|]. apply H. lia.
  - exists false. split; [done|]. split; [done|]. intros H. destruct E. apply H. lia.
Qed.

(** The bytes of the two keys on which signing and verifying agree. *)
Definition keys_agree (ks : KeyMgmtSlot) : Prop := forall i, 0 <= i < 16 -> at_ (private_key ks) (i mod priv_len ks) = at_ (public_key ks) ((i * 2) mod pub_len ks).
Definition generated_slot (kt : KeyMgmtKeyType) (slot : Z) : KeyMgmtSlot :=
  Slot slot kt (generated_private slot) (generated_public slot (generated_private slot)) 32 64 (Z.lor (Z.lor KEY_USE_SIGN KEY_USE_VERIFY) KEY_USE_DERIVE) true false
    (u32 (slot * 1000 + 100)) (u32 (slot * 1000 + 100) +32 31536000).

Lemma lxor_cancel_r a b x : Z.lxor a x = Z.lxor b x -> a = b.
Proof. intros H. apply (f_equal (fun y => Z.lxor y x)) in H. by rewrite !Z.lxor_assoc, Z.lxor_nilpotent, !Z.lxor_0_r in H. Qed.
Lemma lxor_cancel_l a b x : Z.lxor x a = Z.lxor x b -> a = b.
Proof. rewrite !(Z.lxor_comm x). apply lxor_cancel_r. Qed.

(** Signing and verifying do not fit.  The signature that a slot makes of a hash is accepted under the same slot just when the first sixteen bytes of the private key are
    the even bytes of the public one, which no generated key of any slot has; and whoever has the public key can make a signature that is accepted. *)
Theorem sign_verify_correct slot hash hash_len c :
  km_wf c -> 0 <= slot < key_count c -> active (slot_of slot c) = true -> Z.land (usage_flags (slot_of slot c)) KEY_USE_SIGN <> 0 -> 0 < hash_len <= Z.of_nat (length hash) ->
  (exists sig b, edge_key_mgmt_sign slot hash hash_len c = Done (Some sig, c) /\ edge_key_mgmt_verify slot hash hash_len sig 64 c = Done (b, c) /\
     (b = true <-> keys_agree (slot_of slot c))) /\
  (forall kt, slot_of slot c = generated_slot kt slot -> ~ keys_agree (slot_of slot c)) /\
  (let ks := slot_of slot c in
   let forged := (fun i => Z.lxor (Z.lxor (at_ hash (i mod hash_len)) (at_ (public_key ks) ((i * 2) mod pub_len ks))) (u8 (0xEC + slot * 7 + i * 3))) <$> seqZ 0 32 in
   edge_key_mgmt_verify slot hash hash_len forged 32 c = Done (true, c)).
Proof.
  intros Hw Hs Ha Hu Hh. pose proof Hw as [[_ Hc] _ Hp _]. destruct (Hp slot Hs) as [Hp1 Hp2]. pose proof (km_slot_ok c slot Hw ltac:(lia)) as Hk.
  assert (forall sig n, 32 <= n -> edge_key_mgmt_verify slot hash hash_len sig n c = verify_loop 16 0 slot (slot_of slot c) hash hash_len sig c) as Hv.
  { intros sig n Hn. unfold edge_key_mgmt_verify. rewrite bind_gets. unfold id. rewrite no_slot_false by done. cbv zeta. rewrite Ha. cbn [negb]. by destruct (Z.ltb_spec n 32); [lia|]. }
  split; [|split].
  - rewrite sign_run by done. set (sig := signature slot (slot_of slot c) hash hash_len). assert (length sig = 64%nat) as Hsl by (unfold sig, signature; by rewrite length_fmap, length_seqZ).
    destruct (verify_loop_run 16 0 slot (slot_of slot c) hash hash_len sig c Hk Hp2 Hh ltac:(lia) ltac:(lia)) as (b & Eb & Hb). exists sig, b. rewrite Hv by lia.
    split; [done|]. split; [done|]. rewrite Hb. unfold keys_agree. split.
    + intros H i Hi. specialize (H i ltac:(lia)). unfold sig, signature in H. rewrite at_seq in H by lia. by apply lxor_cancel_r, lxor_cancel_l in H.
    + intros H i Hi. unfold sig, signature. rewrite at_seq by lia. by rewrite (H i ltac:(lia)).
  - intros kt -> H. assert (forallb (fun s => existsb (fun i => negb (at_ (generated_private s) (i mod 32) =? at_ (generated_public s (generated_private s)) ((i * 2) mod 64))) (seqZ 0 16)) (seqZ 0 16) = true) as Hall
      by (vm_compute; reflexivity).
    pose proof (forallb_seqZ _ _ _ Hall slot ltac:(lia)) as He. cbv beta in He. apply existsb_exists in He as (i & Hi & Hne). apply negb_true_iff, Z.eqb_neq in Hne.
    apply Hne. apply (H i). apply list_elem_of_In, elem_of_seqZ in Hi. lia.
  - cbv zeta. rewrite Hv by lia. set (forged := _ <$> seqZ 0 32). assert (length forged = 32%nat) as Hfl by (unfold forged; by rewrite length_fmap, length_seqZ).
    destruct (verify_loop_run 16 0 slot (slot_of slot c) hash hash_len forged c Hk Hp2 Hh ltac:(lia) ltac:(lia)) as (b & Eb & Hb). rewrite Eb.
    assert (b = true) as ->; [|done]. apply Hb. intros j Hj. unfold forged. by rewrite at_seq by lia.
Qed.

(** ** Wrapping *)

Definition wrapped_bytes (wk tk : KeyMgmtSlot) : list Z :=
  wrap_iv wk ++ ((fun i => Z.lxor (at_ (private_key tk) i) (at_ (private_key wk) (i mod priv_len wk))) <$> seqZ 0 (priv_len tk)).
Lemma wrap_run w t c :
  km_wf c -> 0 <= w < key_count c -> 0 <= t < key_count c ->
  edge_key_mgmt_wrap_key w t c = Done (if active (slot_of w c) && active (slot_of t c) then wrapped_bytes (slot_of w c) (slot_of t c) else [], c).
Proof.
  intros Hw Hww Ht. unfold edge_key_mgmt_wrap_key. rewrite bind_gets. unfold id. rewrite !no_slot_false by done. cbv zeta. rewrite <- negb_andb.
  destruct (active (slot_of w c) && active (slot_of t c)); cbn [negb]; [|done]. pose proof Hw as [[_ Hc] _ Hp _]. destruct (Hp w Hww) as [Hp1 _].
  destruct (km_slot_ok c w Hw ltac:(lia)) as ([Hpl _] & _ & Hpr & _). destruct (km_slot_ok c t Hw ltac:(lia)) as ([Htl _] & _ & Htr & _).
  erewrite bind_step; [done|]. rewrite <- (Z2Nat.id (priv_len (slot_of t c))) at 2 by lia.
  apply fill_loop_ok. intros j Hj. rewrite (list_lookup_lookup_total_lt (private_key (slot_of t c))) by lia. cbn [of_option]. rewrite bind_ret. erewrite bind_step by (apply at_rem_ok; lia). done.
Qed.

Definition put_slot (i : Z) (ks : KeyMgmtSlot) (c : EdgeKeyMgmtCtx) : EdgeKeyMgmtCtx := set_slots (<[Z.to_nat i := ks]> (slots c)) c.
Lemma upd_slot_run i f c : length (slots c) = 16%nat -> 0 <= i < 16 -> upd_slot i f c = Done (tt, put_slot i (f (slot_of i c)) c).
Proof.
  intros Hl Hi. unfold upd_slot, modify, put_slot. do 3 f_equal. apply list_eq. intros j. destruct (decide (j = Z.to_nat i)) as [->|Hne].
  - rewrite list_lookup_alter_eq, (slot_at c i Hl Hi), list_lookup_insert_eq by lia. done.
  - by rewrite list_lookup_alter_ne, list_lookup_insert_ne by done.
Qed.
Lemma slot_put c ks i j : length (slots c) = 16%nat -> 0 <= i < 16 -> 0 <= j < 16 -> slot_of j (put_slot i ks c) = if decide (i = j) then ks else slot_of j c.
Proof.
  intros Hl Hi Hj. unfold slot_of, put_slot. cbn [set_slots slots]. destruct (decide (i = j)) as [->|Hne]; [by rewrite list_lookup_total_insert_eq by lia|by rewrite list_lookup_total_insert_ne by lia].
Qed.
Lemma put_slot_put i a b c : put_slot i a (put_slot i b c) = put_slot i a c.
Proof. unfold put_slot, set_slots. cbn. by rewrite list_insert_insert_eq. Qed.
Lemma put_slot_same i c : length (slots c) = 16%nat -> 0 <= i < 16 -> put_slot i (slot_of i c) c = c.
Proof. intros Hl Hi. unfold put_slot. rewrite list_insert_id by (by apply slot_at). by destruct c. Qed.
Lemma length_put_slot i ks c : length (slots (put_slot i ks c)) = length (slots c).
Proof. apply length_insert. Qed.

(** The private key while it is unwrapped, when the wrapping key is another slot's and when it is the same. *)
Fixpoint unwrapped (n : nat) (i : Z) (wrapped : list Z) (kl : Z) (same : bool) (wk priv : list Z) : list Z :=
  match n with
  | O => priv
  | S n => unwrapped n (i + 1) wrapped kl same wk (<[Z.to_nat i := Z.lxor (at_ wrapped (i + 8)) (at_ (if same then priv else wk) (i mod kl))]> priv)
  end.
Lemma unwrapped_same n i wrapped kl wk wk' priv : unwrapped n i wrapped kl true wk priv = unwrapped n i wrapped kl true wk' priv.
Proof. revert i priv. induction n as [|n IH]; intros i priv; [done|]. cbn [unwrapped]. apply IH. Qed.
Lemma unwrap_loop_run n i w t wrapped c :
  length (slots c) = 16%nat -> 0 <= w < 16 -> 0 <= t < 16 -> length (private_key (slot_of t c)) = 32%nat -> length (private_key (slot_of w c)) = 32%nat -> 0 < priv_len (slot_of w c) <= 32 ->
  0 <= i -> i + Z.of_nat n <= 32 -> i + Z.of_nat n + 8 <= Z.of_nat (length wrapped) ->
  unwrap_loop n i w t wrapped c =
    Done (tt, put_slot t (set_private_key (unwrapped n i wrapped (priv_len (slot_of w c)) (bool_decide (w = t)) (private_key (slot_of w c)) (private_key (slot_of t c))) (slot_of t c)) c).
Proof.
  revert i c. induction n as [|n IH]; intros i c Hl Hw Ht Htl Hwl Hp Hi Hn Hwr; cbn [unwrap_loop unwrapped].
  - assert (set_private_key (private_key (slot_of t c)) (slot_of t c) = slot_of t c) as -> by (unfold set_private_key; by destruct (slot_of t c)). by rewrite put_slot_same.
  - rewrite (list_lookup_lookup_total_lt wrapped) by lia. cbn [of_option]. rewrite bind_ret, bind_gets. erewrite bind_step by (apply at_rem_ok; lia).
    erewrite bind_step by (by apply upd_slot_run). cbv beta. fold (at_ wrapped (i + 8)). set (b := Z.lxor (at_ wrapped (i + 8)) _). set (ks := set_private_key (<[Z.to_nat i := b]> _) _).
    rewrite IH; rewrite ?length_put_slot, ?slot_put, ?put_slot_put by done; try lia.
    + rewrite (decide_True (P := t = t)) by done. unfold ks. destruct (decide (t = w)) as [<-|Hne]; [|by rewrite bool_decide_false by congruence].
      rewrite bool_decide_true by done. cbn [set_private_key private_key priv_len]. by rewrite (unwrapped_same _ _ _ _ (private_key (slot_of t c)) (<[Z.to_nat i := b]> (private_key (slot_of t c)))).
    + rewrite decide_True by done. unfold ks. cbn [set_private_key private_key]. by rewrite length_insert.
    + destruct (decide (t = w)) as [<-|]; [unfold ks; cbn [set_private_key private_key]; by rewrite length_insert|done].
    + by destruct (decide (t = w)) as [<-|].
Qed.

Lemma length_unwrapped n i wrapped kl same wk priv : length (unwrapped n i wrapped kl same wk priv) = length priv.
Proof. revert i priv. induction n as [|n IH]; intros i priv; [done|]. cbn [unwrapped]. by rewrite IH, length_insert. Qed.
Lemma at_list_insert (l : list Z) i j x : 0 <= i < Z.of_nat (length l) -> 0 <= j -> at_ (<[Z.to_nat i := x]> l) j = if decide (i = j) then x else at_ l j.
Proof. intros Hi Hj. unfold at_. destruct (decide (i = j)) as [->|Hne]; [by rewrite list_lookup_total_insert_eq by lia|by rewrite list_lookup_total_insert_ne by lia]. Qed.
Lemma unwrapped_at n i wrapped kl wk priv j :
  0 <= i -> i + Z.of_nat n <= Z.of_nat (length priv) -> 0 <= j ->
  at_ (unwrapped n i wrapped kl false wk priv) j = if decide (i <= j < i + Z.of_nat n) then Z.lxor (at_ wrapped (j + 8)) (at_ wk (j mod kl)) else at_ priv j.
Proof.
  revert i priv. induction n as [|n IH]; intros i priv Hi Hn Hj; cbn [unwrapped]; [by rewrite decide_False by lia|].
  rewrite IH by (rewrite ?length_insert; lia). rewrite at_list_insert by lia.
  destruct (decide (i + 1 <= j < i + 1 + Z.of_nat n)); [by rewrite decide_True by lia|]. destruct (decide (i = j)) as [->|]; [by rewrite decide_True by lia|by rewrite decide_False by lia].
Qed.

Definition unwrapped_slot (n : Z) (wrapped : list Z) (same : bool) (wk tk : KeyMgmtSlot) : KeyMgmtSlot :=
  set_active true (set_private_key (unwrapped (Z.to_nat n) 0 wrapped (if same then n else priv_len wk) same (private_key wk) (private_key tk)) (set_priv_len n tk)).
Lemma unwrap_run w t wrapped wlen c :
  km_wf c -> 0 <= w < key_count c -> 0 <= t < key_count c -> 16 <= wlen <= Z.of_nat (length wrapped) ->
  edge_key_mgmt_unwrap_key w wrapped wlen t c =
    if active (slot_of w c) && bool_decide (take 8 wrapped = wrap_iv (slot_of w c))
    then Done (true, put_slot t (unwrapped_slot (Z.min (wlen - 8) 32) wrapped (bool_decide (w = t)) (slot_of w c) (slot_of t c)) c) else Done (false, c).
Proof.
  intros Hw Hww Ht Hwl. unfold edge_key_mgmt_unwrap_key. rewrite bind_gets. unfold id. rewrite !no_slot_false by done. cbv zeta. destruct (Z.ltb_spec wlen 16); [lia|].
  destruct (active (slot_of w c)); cbn [negb andb]; [|done]. erewrite bind_step by (apply memcpy_bytes_ok; lia). change (Z.to_nat 8) with 8%nat.
  destruct (bool_decide (take 8 wrapped = wrap_iv (slot_of w c))); cbn [negb]; [|done].
  assert ((if wlen - 8 <? KM_PRIVKEY_SIZE then wlen - 8 else KM_PRIVKEY_SIZE) = Z.min (wlen - 8) 32) as -> by (unfold KM_PRIVKEY_SIZE; destruct (Z.ltb_spec (wlen - 8) 32); lia).
  set (n := Z.min (wlen - 8) 32). pose proof Hw as [[Hl Hc] _ Hp _]. destruct (Hp w Hww) as [Hp1 _].
  destruct (km_slot_ok c w Hw ltac:(lia)) as ([Hpl _] & _ & Hpr & _). destruct (km_slot_ok c t Hw ltac:(lia)) as ([Htl _] & _).
  erewrite bind_step by (apply upd_slot_run; [done|lia]).
  assert (slot_of w (put_slot t (set_priv_len n (slot_of t c)) c) = if decide (t = w) then set_priv_len n (slot_of t c) else slot_of w c) as Ew
    by (rewrite slot_put by (done || lia); by destruct (decide (t = w)) as [<-|]).
  erewrite bind_step; [|apply unwrap_loop_run; rewrite ?length_put_slot, ?Ew, ?slot_put by (done || lia); try rewrite decide_True by done; try done; try lia; destruct (decide (t = w)); done || (cbn [priv_len set_priv_len]; lia)].
  erewrite bind_step by (apply upd_slot_run; [by rewrite !length_put_slot|lia]). rewrite !put_slot_put, Ew, !slot_put by (rewrite ?length_put_slot; done || lia). rewrite !decide_True by done.
  unfold mret, M_ret. do 2 f_equal. f_equal. unfold unwrapped_slot. rewrite !(decide_True (P := t = t)) by done. destruct (decide (t = w)) as [<-|Hne].
  - by rewrite bool_decide_true by done.
  - by rewrite bool_decide_false by congruence.
Qed.

Lemma wrap_iv_length wk : length (wrap_iv wk) = 8%nat.
Proof. unfold wrap_iv. by rewrite length_fmap, length_seqZ. Qed.
Lemma lxor_back a b : Z.lxor (Z.lxor a b) b = a.
Proof. by rewrite Z.lxor_assoc, Z.lxor_nilpotent, Z.lxor_0_r. Qed.

(** C20: wrapping and unwrapping a key.  A key of at least eight bytes that was wrapped comes out of every store that has the wrapping key, into any other slot, with its length; the
    slot becomes active, revoked or not, and keeps its public key, and no other slot changes.  What the eight bytes in front vouch for is the wrapping slot's public key: any
    content behind them is taken; a slot wrapped with itself is in the clear as zeros. *)
Theorem wrap_unwrap_correct w t u c c2 :
  km_wf c -> km_wf c2 -> 0 <= w < key_count c -> 0 <= t < key_count c -> active (slot_of w c) = true -> active (slot_of t c) = true -> 8 <= priv_len (slot_of t c) ->
  0 <= w < key_count c2 -> 0 <= u < key_count c2 -> u <> w -> slot_of w c2 = slot_of w c ->
  (exists bs c', edge_key_mgmt_wrap_key w t c = Done (bs, c) /\ edge_key_mgmt_unwrap_key w bs (Z.of_nat (length bs)) u c2 = Done (true, c') /\
     priv_len (slot_of u c') = priv_len (slot_of t c) /\ take (Z.to_nat (priv_len (slot_of t c))) (private_key (slot_of u c')) = take (Z.to_nat (priv_len (slot_of t c))) (private_key (slot_of t c)) /\
     active (slot_of u c') = true /\ public_key (slot_of u c') = public_key (slot_of u c2) /\ forall i, 0 <= i < 16 -> i <> u -> slot_of i c' = slot_of i c2) /\
  (forall content, length content = 32%nat -> exists c', edge_key_mgmt_unwrap_key w (wrap_iv (slot_of w c) ++ content) 40 u c2 = Done (true, c') /\
     private_key (slot_of u c') = (fun j => Z.lxor (at_ content j) (at_ (private_key (slot_of w c)) (j mod priv_len (slot_of w c)))) <$> seqZ 0 32) /\
  edge_key_mgmt_wrap_key w w c = Done (wrap_iv (slot_of w c) ++ replicate (Z.to_nat (priv_len (slot_of w c))) 0, c).
Proof.
  intros Hw Hw2 Hww Ht Haw Hat Htl Hww2 Hu Hne Es. pose proof Hw as [[Hl Hc] _ _ _]. pose proof Hw2 as [[Hl2 Hc2] _ _ _].
  destruct (km_slot_ok c t Hw ltac:(lia)) as ([Htpl _] & _ & Htr & _). destruct (km_slot_ok c2 u Hw2 ltac:(lia)) as ([Hul _] & _).
  assert (forall wrapped n, 16 <= n <= Z.of_nat (length wrapped) -> take 8 wrapped = wrap_iv (slot_of w c) -> exists c', edge_key_mgmt_unwrap_key w wrapped n u c2 = Done (true, c') /\
    slot_of u c' = unwrapped_slot (Z.min (n - 8) 32) wrapped false (slot_of w c) (slot_of u c2) /\ forall i, 0 <= i < 16 -> i <> u -> slot_of i c' = slot_of i c2) as Hun.
  { intros wrapped n Hn E8. rewrite unwrap_run by done. rewrite Es, Haw, E8, !bool_decide_true, bool_decide_false by congruence. cbn [andb]. eexists. split; [done|]. split.
    - rewrite slot_put by (done || lia). by rewrite decide_True.
    - intros i Hi Hiu. rewrite slot_put by (done || lia). by rewrite decide_False by congruence. }
  split; [|split].
  - rewrite wrap_run by done. rewrite Haw, Hat. cbn [andb]. set (bs := wrapped_bytes _ _). exists bs.
    assert (length bs = (8 + Z.to_nat (priv_len (slot_of t c)))%nat) as Hlb by (unfold bs, wrapped_bytes; by rewrite length_app, wrap_iv_length, length_fmap, length_seqZ).
    destruct (Hun bs (Z.of_nat (length bs)) ltac:(lia)) as (c' & E & Eu & Ho); [unfold bs, wrapped_bytes; by rewrite take_app_length' by (symmetry; apply wrap_iv_length)|].
    assert (Z.min (Z.of_nat (length bs) - 8) 32 = priv_len (slot_of t c)) as En by lia. rewrite En in Eu.
    exists c'. split; [done|]. split; [done|]. rewrite Eu. unfold unwrapped_slot. cbn [set_active set_private_key set_priv_len priv_len private_key active public_key].
    split; [done|]. split; [|done]. apply (list_at_eq (Z.to_nat (priv_len (slot_of t c)))); [rewrite length_take, length_unwrapped; lia|rewrite length_take; lia|].
    intros i Hi. rewrite Z2Nat.id in Hi by lia. unfold at_. rewrite !lookup_total_take, !decide_True by lia. fold (at_ (private_key (slot_of t c)) i).
    change (at_ (unwrapped (Z.to_nat (priv_len (slot_of t c))) 0 bs (priv_len (slot_of w c)) false (private_key (slot_of w c)) (private_key (slot_of u c2))) i = at_ (private_key (slot_of t c)) i).
    rewrite unwrapped_at by lia. rewrite decide_True by lia. unfold bs, wrapped_bytes. unfold at_ at 1. rewrite lookup_total_app_r by (rewrite wrap_iv_length; lia). rewrite wrap_iv_length.
    replace (Z.to_nat (i + 8) - 8)%nat with (Z.to_nat i) by lia. change (?l !!! Z.to_nat i) with (at_ l i). rewrite at_seq by lia. apply lxor_back.
  - intros content Hcl. destruct (Hun (wrap_iv (slot_of w c) ++ content) 40) as (c' & E & Eu & _); [rewrite length_app, wrap_iv_length; lia|by rewrite take_app_length' by (symmetry; apply wrap_iv_length)|].
    exists c'. split; [done|]. rewrite Eu. unfold unwrapped_slot. cbn [set_active set_private_key set_priv_len private_key]. change (Z.min (40 - 8) 32) with 32.
    apply (list_at_eq 32); [by rewrite length_unwrapped|by rewrite length_fmap, length_seqZ|]. intros i Hi. rewrite unwrapped_at by lia. rewrite decide_True by lia. rewrite at_seq by lia. f_equal.
    unfold at_. rewrite lookup_total_app_r by (rewrite wrap_iv_length; lia). rewrite wrap_iv_length. f_equal. lia.
  - rewrite wrap_run by done. rewrite Haw. cbn [andb]. unfold wrapped_bytes. do 3 f_equal.
    destruct (km_slot_ok c w Hw ltac:(lia)) as ([Hwl _] & _ & Hwr & _). apply (list_at_eq (Z.to_nat (priv_len (slot_of w c)))); [by rewrite length_fmap, length_seqZ|by rewrite length_replicate|].
    intros i Hi. rewrite at_seq by lia. rewrite Z.mod_small by lia. rewrite Z.lxor_nilpotent. unfold at_. by rewrite lookup_total_replicate_2 by lia.
Qed.

(** ** Sequences of calls *)

Inductive km_call :=
| KGenerate (kt : KeyMgmtKeyType) | KImport (priv : list Z) (plen : Z) (pub : list Z) (publen : Z) | KGet (s n : Z) | KRotate (s : Z) | KRevoke (s : Z)
| KSign (s : Z) (hash : list Z) (n : Z) | KVerify (s : Z) (hash : list Z) (n : Z) (sig : list Z) (m : Z) | KAnchor (pk : list Z) (n : Z) | KIssue (ca dev : Z)
| KCrl (crl : list Z) (n : Z) | KExport (s : Z) | KWrap (w t : Z) | KUnwrap (w : Z) (wrapped : list Z) (n t : Z).
Definition run_call (k : km_call) : KM unit :=
  match k with
  | KGenerate kt => edge_key_mgmt_generate_keypair kt;; mret tt
  | KImport p n q m => edge_key_mgmt_import_keypair p n q m;; mret tt
  | KGet s n => edge_key_mgmt_get_public_key s n;; mret tt
  | KRotate s => edge_key_mgmt_rotate_key s
  | KRevoke s => edge_key_mgmt_revoke_key s;; mret tt
  | KSign s h n => edge_key_mgmt_sign s h n;; mret tt
  | KVerify s h n g m => edge_key_mgmt_verify s h n g m;; mret tt
  | KAnchor pk n => edge_key_mgmt_set_trust_anchor pk n
  | KIssue a d => edge_key_mgmt_issue_device_cert a d;; mret tt
  | KCrl l n => edge_key_mgmt_check_crl l n;; mret tt
  | KExport s => edge_key_mgmt_export_csr s;; mret tt
  | KWrap w t => edge_key_mgmt_wrap_key w t;; mret tt
  | KUnwrap w l n t => edge_key_mgmt_unwrap_key w l n t;; mret tt
  end.
Fixpoint run_calls (ks : list km_call) : KM unit := match ks with [] => mret tt | k :: ks => run_call k;; run_calls ks end.
(** Lengths that the buffers have; keys and hashes of at least a byte. *)
Definition call_ok (k : km_call) : Prop :=
  match k with
  | KImport p n q m => 0 < n <= Z.of_nat (length p) /\ 0 < m <= Z.of_nat (length q) /\ Forall is_u8 p /\ Forall is_u8 q
  | KGet _ n => 0 <= n
  | KSign _ h n => 0 < n <= Z.of_nat (length h)
  | KVerify _ h n g m => 0 < n <= Z.of_nat (length h) /\ 16 <= Z.of_nat (length g)
  | KAnchor pk n => 0 <= n <= Z.of_nat (length pk) /\ Forall is_u8 pk
  | KCrl l n => n <= Z.of_nat (length l)
  | KUnwrap _ l n _ => n <= Z.of_nat (length l) /\ Forall is_u8 l
  | _ => True
  end.
Definition unwraps_into (s : Z) (k : km_call) : bool := match k with KUnwrap _ _ _ t => s =? t | _ => false end.
Definition touches (s : Z) (k : km_call) : bool := match k with KRotate t | KRevoke t => s =? t | _ => unwraps_into s k end.

(** A slot that was given out and is not active holds no private key. *)
Definition no_secrets (c : EdgeKeyMgmtCtx) : Prop := forall i, 0 <= i < key_count c -> active (slot_of i c) = false -> private_key (slot_of i c) = replicate 32 0.

Lemma rotated_slot_wf priv : bytes_of_length 32 priv -> bytes_of_length 32 (rotated_private priv) /\ bytes_of_length 64 (rotated_public (rotated_private priv)).
Proof.
  intros [Hl Hb]. assert (bytes_of_length 32 (rotated_private priv)) as Hr.
  { split; [unfold rotated_private; by rewrite length_imap|]. apply Forall_lookup. intros i x Hx. unfold rotated_private in Hx. rewrite list_lookup_imap in Hx.
    destruct (priv !! i); [|done]. injection Hx as <-. apply u8_range. }
  split; [done|]. split; [unfold rotated_public; by rewrite length_fmap, length_seqZ|]. unfold rotated_public. apply Forall_fmap, Forall_forall. intros i Hi. cbn. apply lxor_u8; [|apply u8_range].
  apply at_u8 with 32%nat; [done|]. pose proof (Z.mod_pos_bound i KM_PRIVKEY_SIZE ltac:(done)). unfold KM_PRIVKEY_SIZE in *. lia.
Qed.
Lemma generated_wf slot : bytes_of_length 32 (generated_private slot) /\ bytes_of_length 64 (generated_public slot (generated_private slot)).
Proof.
  assert (bytes_of_length 32 (generated_private slot)) as Hr by apply (bytes_u8_map 32).
  split; [done|]. split; [unfold generated_public; by rewrite length_fmap, length_seqZ|]. unfold generated_public. apply Forall_fmap, Forall_forall. intros i Hi. cbn. apply lxor_u8; [|apply u8_range].
  apply at_u8 with 32%nat; [done|]. pose proof (Z.mod_pos_bound i KM_PRIVKEY_SIZE ltac:(done)). unfold KM_PRIVKEY_SIZE in *. lia.
Qed.
Lemma unwrapped_u8 n i wrapped kl same wk priv :
  bytes_of_length 32 wk -> bytes_of_length 32 priv -> Forall is_u8 wrapped -> 0 < kl <= 32 -> 0 <= i -> i + Z.of_nat n + 8 <= Z.of_nat (length wrapped) -> bytes_of_length 32 (unwrapped n i wrapped kl same wk priv).
Proof.
  intros Hwk Hp Hw Hk. revert i priv Hp. induction n as [|n IH]; intros i priv Hp Hi Hn; [done|]. cbn [unwrapped]. apply IH; [|lia|lia]. destruct Hp as [Hpl Hpb]. split; [by rewrite length_insert|].
  apply Forall_insert; [done|]. apply lxor_u8; [apply at_u8 with (length wrapped); [done|lia]|]. pose proof (Z.mod_pos_bound i kl ltac:(lia)). apply at_u8 with 32%nat; [by destruct same|lia].
Qed.

(** What a call makes of the store: nothing is given up, an untouched slot is as before, and an inactive one also under rotation and revocation. *)
Definition km_step (k : km_call) (c c' : EdgeKeyMgmtCtx) : Prop :=
  km_wf c' /\ no_secrets c' /\ key_count c <= key_count c' /\
  forall s, 0 <= s < key_count c -> touches s k = false \/ active (slot_of s c) = false /\ unwraps_into s k = false -> slot_of s c' = slot_of s c.

Lemma step_same k c : km_wf c -> no_secrets c -> km_step k c c.
Proof. intros Hw Hs. split; [done|]. split; [done|]. split; [lia|done]. Qed.
(** A call that writes slot [i], which is in use or the next one. *)
Lemma step_put k c i ks n :
  km_wf c -> no_secrets c -> 0 <= i <= key_count c -> i < 16 -> key_count c <= n <= 16 -> n <= key_count c + 1 -> i < n -> (key_count c < n -> i = key_count c) ->
  slot_wf ks -> 0 < priv_len ks -> 0 < pub_len ks -> (active ks = false -> private_key ks = replicate 32 0) ->
  (i < key_count c -> touches i k = false \/ active (slot_of i c) = false /\ unwraps_into i k = false -> ks = slot_of i c) ->
  km_step k c (set_key_count n (put_slot i ks c)).
Proof.
  intros Hw Hs Hi H16 Hn Hn1 Hin Hnew Hks Hp1 Hp2 Hz Hk. pose proof Hw as [[Hl Hc] Ha Hu Hac].
  assert (forall j, 0 <= j < 16 -> slot_of j (set_key_count n (put_slot i ks c)) = if decide (i = j) then ks else slot_of j c) as Hsl.
  { intros j Hj. change (slot_of j (set_key_count n (put_slot i ks c))) with (slot_of j (put_slot i ks c)). apply slot_put; done || lia. }
  assert (key_count (set_key_count n (put_slot i ks c)) = n) as Ec by done.
  split; [constructor; [split; [cbn [set_key_count slots]; by rewrite length_put_slot|cbn; lia]| | |exact Hac]|split; [|split; [rewrite Ec; lia|]]].
  - cbn [set_key_count put_slot set_slots slots]. by apply Forall_insert.
  - rewrite Ec. intros j Hj. rewrite Hsl by lia. destruct (decide (i = j)) as [->|Hne]; [done|]. apply Hu. lia.
  - intros j. rewrite Ec. intros Hj. rewrite Hsl by lia. destruct (decide (i = j)) as [->|Hne]; [done|]. apply Hs. lia.
  - intros s Hs0 Ht. rewrite Hsl by lia. destruct (decide (i = s)) as [->|Hne]; [|done]. apply Hk; [lia|done].
Qed.
Lemma step_update k c i ks :
  km_wf c -> no_secrets c -> 0 <= i < key_count c -> slot_wf ks -> 0 < priv_len ks -> 0 < pub_len ks -> (active ks = false -> private_key ks = replicate 32 0) ->
  (touches i k = false \/ active (slot_of i c) = false /\ unwraps_into i k = false -> ks = slot_of i c) -> km_step k c (put_slot i ks c).
Proof.
  intros Hw Hs Hi Hks Hp1 Hp2 Hz Hk. pose proof Hw as [[_ Hc] _ _ _]. pose proof (step_put k c i ks (key_count c) Hw Hs ltac:(lia) ltac:(lia) ltac:(lia) ltac:(lia) ltac:(lia) ltac:(lia) Hks Hp1 Hp2 Hz ltac:(done)) as H.
  change (key_count c) with (key_count (put_slot i ks c)) in H. by rewrite set_key_count_same in H.
Qed.

Lemma slot_wf_of c i : km_wf c -> 0 <= i < key_count c -> slot_wf (slot_of i c) /\ 0 < priv_len (slot_of i c) /\ 0 < pub_len (slot_of i c).
Proof. intros Hw Hi. pose proof Hw as [[_ Hc] _ Hu _]. destruct (Hu i Hi). split; [apply km_slot_ok; [done|lia]|done]. Qed.

Lemma no_slot_cases i c : no_slot i c = true \/ no_slot i c = false /\ 0 <= i < key_count c.
Proof. destruct (no_slot i c) eqn:E; [by left|right]. by apply no_slot_spec in E. Qed.
Ltac slot_cases := repeat match goal with |- context [no_slot ?i ?c] => let H := fresh "Hslot" in destruct (no_slot_cases i c) as [->|[-> H]] end.

Lemma step_generate kt c : km_wf c -> no_secrets c -> exists c', run_call (KGenerate kt) c = Done (tt, c') /\ km_step (KGenerate kt) c c'.
Proof.
  intros Hw Hs. cbn [run_call]. unfold edge_key_mgmt_generate_keypair. rewrite bind_assoc, bind_gets. pose proof Hw as [[Hl Hc] _ _ _]. unfold KM_MAX_KEY_SLOTS. destruct (Z.leb_spec 16 (key_count c)) as [|Hlt].
  { exists c. split; [done|by apply step_same]. }
  cbv zeta. rewrite bind_assoc. erewrite bind_step by (apply upd_slot_run; [done|lia]). rewrite bind_assoc, bind_modify. eexists. split; [reflexivity|].
  destruct (generated_wf (key_count c)) as [Hg Hp]. apply (step_put _ c (key_count c) _ (key_count c + 1)); try done; try lia.
Qed.
Lemma step_import p n q m c : km_wf c -> no_secrets c -> call_ok (KImport p n q m) -> exists c', run_call (KImport p n q m) c = Done (tt, c') /\ km_step (KImport p n q m) c c'.
Proof.
  intros Hw Hs (Hn & Hm & Hp & Hq). cbn [run_call]. unfold edge_key_mgmt_import_keypair. rewrite bind_assoc, bind_gets. pose proof Hw as [[Hl Hc] _ _ _]. unfold KM_MAX_KEY_SLOTS. destruct (Z.leb_spec 16 (key_count c)) as [|Hlt].
  { exists c. split; [done|by apply step_same]. }
  cbv zeta. unfold KM_PRIVKEY_SIZE, KM_PUBKEY_SIZE. set (pl := if n <? 32 then n else 32). set (ql := if m <? 64 then m else 64).
  assert (0 < pl <= 32 /\ pl <= n /\ 0 < ql <= 64 /\ ql <= m) as (H1 & H2 & H3 & H4) by (unfold pl, ql; destruct (Z.ltb_spec n 32), (Z.ltb_spec m 64); lia).
  rewrite bind_assoc. erewrite bind_step by (apply memcpy_bytes_ok; lia). rewrite bind_assoc. erewrite bind_step by (apply memcpy_bytes_ok; lia).
  rewrite bind_assoc. erewrite bind_step by (apply upd_slot_run; [done|lia]). rewrite bind_assoc, bind_modify. eexists. split; [reflexivity|].
  apply (step_put _ c (key_count c) _ (key_count c + 1)); cbn [priv_len pub_len active]; try done; try lia. split; [|split; [|cbn [priv_len pub_len]; lia]]; cbn [private_key public_key].
  - apply overlay_bytes; [rewrite length_take; lia|by apply Forall_take|]. split; [done|by apply Forall_replicate].
  - apply overlay_bytes; [rewrite length_take; lia|by apply Forall_take|]. split; [done|by apply Forall_replicate].
Qed.
Lemma step_rotate s c : km_wf c -> no_secrets c -> exists c', run_call (KRotate s) c = Done (tt, c') /\ km_step (KRotate s) c c'.
Proof.
  intros Hw Hs. cbn [run_call]. unfold edge_key_mgmt_rotate_key. rewrite bind_gets. unfold id. slot_cases; [exists c; split; [done|by apply step_same]|].
  destruct (active (slot_of s c)) eqn:Ha; cbn [negb]; [|exists c; split; [done|by apply step_same]]. pose proof Hw as [[Hl Hc] _ _ _]. rewrite upd_slot_run by (done || lia). eexists. split; [reflexivity|].
  destruct (slot_wf_of c s Hw Hslot) as ((Hp & Hq & Hpr & Hqr) & H1 & H2). destruct (rotated_slot_wf _ Hp) as [R1 R2].
  apply step_update; try done; [by cbn; rewrite Ha|].
  cbn [touches unwraps_into]. rewrite Z.eqb_refl, Ha. naive_solver.
Qed.
Lemma step_revoke s c : km_wf c -> no_secrets c -> exists c', run_call (KRevoke s) c = Done (tt, c') /\ km_step (KRevoke s) c c'.
Proof.
  intros Hw Hs. cbn [run_call]. unfold edge_key_mgmt_revoke_key. rewrite bind_assoc, bind_gets. unfold id. slot_cases; [exists c; split; [done|by apply step_same]|].
  pose proof Hw as [[Hl Hc] _ _ _]. rewrite bind_assoc. erewrite bind_step by (apply upd_slot_run; [done|lia]). eexists. split; [reflexivity|].
  destruct (slot_wf_of c s Hw Hslot) as ((Hp & Hq & Hpr & Hqr) & H1 & H2). apply step_update; try done.
  - split; [split; [done|by apply Forall_replicate]|]. split; [done|]. cbn [set_private_key set_active priv_len pub_len]. done.
  - cbn [touches unwraps_into]. rewrite Z.eqb_refl. intros [[=]|[Ha _]]. pose proof (Hs s Hslot Ha) as E. rewrite <- E. destruct (slot_of s c). cbn in *. by subst.
Qed.
Lemma step_unwrap w l n t c : km_wf c -> no_secrets c -> call_ok (KUnwrap w l n t) -> exists c', run_call (KUnwrap w l n t) c = Done (tt, c') /\ km_step (KUnwrap w l n t) c c'.
Proof.
  intros Hw Hs (Hn & Hl8). cbn [run_call].
  assert (forall b, edge_key_mgmt_unwrap_key w l n t c = Done (b, c) -> exists c', (edge_key_mgmt_unwrap_key w l n t;; mret tt) c = Done (tt, c') /\ km_step (KUnwrap w l n t) c c') as Hf.
  { intros b E. erewrite bind_step by exact E. exists c. split; [done|by apply step_same]. }
  destruct (no_slot_cases w c) as [E|[E Hww]]; [apply (Hf false); unfold edge_key_mgmt_unwrap_key; rewrite bind_gets; unfold id; by rewrite E|].
  destruct (no_slot_cases t c) as [E2|[E2 Ht]]; [apply (Hf false); unfold edge_key_mgmt_unwrap_key; rewrite bind_gets; unfold id; by rewrite E, E2|].
  destruct (decide (16 <= n)); [|apply (Hf false); unfold edge_key_mgmt_unwrap_key; rewrite bind_gets; unfold id; rewrite E, E2; by destruct (Z.ltb_spec n 16); [|lia]].
  pose proof (unwrap_run w t l n c Hw Hww Ht ltac:(lia)) as Eu. destruct (active (slot_of w c) && _); [|by apply (Hf false)].
  erewrite bind_step by exact Eu. eexists. split; [reflexivity|]. destruct (slot_wf_of c w Hw Hww) as ((Hp & _ & Hpr & _) & H1 & _). destruct (slot_wf_of c t Hw Ht) as ((Hp2 & Hq & Hpr2 & Hqr) & H2 & H3).
  set (m := Z.min (n - 8) 32). assert (8 <= m <= 32 /\ m + 8 <= n) by lia.
  apply step_update; try done; try (cbn; lia).
  split; [|split; [done|cbn; lia]]. unfold unwrapped_slot. cbn [set_active set_private_key set_priv_len private_key].
  apply unwrapped_u8; try done; [case_match; lia|lia].
Qed.

Lemma km_call_step k c : km_wf c -> no_secrets c -> call_ok k -> exists c', run_call k c = Done (tt, c') /\ km_step k c c'.
Proof.
  intros Hw Hs Hk. destruct k; try (by apply step_generate); try (by apply step_import); try (by apply step_rotate); try (by apply step_revoke); try (by apply step_unwrap); cbn [call_ok] in Hk.
  - assert (exists b, edge_key_mgmt_get_public_key s n c = Done (b, c)) as [b E].
    { unfold edge_key_mgmt_get_public_key. rewrite bind_gets. unfold id. slot_cases; [by eexists|]. destruct (active (slot_of s c)); cbn [negb]; [|by eexists].
      destruct (slot_wf_of c s Hw Hslot) as ((_ & [Hq _] & _ & Hqr) & _). erewrite bind_step by (apply memcpy_bytes_ok; case_tests). by eexists. }
    cbn [run_call]. erewrite bind_step by exact E. exists c. split; [done|by apply step_same].
  - assert (exists b, edge_key_mgmt_sign s hash n c = Done (b, c)) as [b E].
    { destruct (no_slot_cases s c) as [E|[E H]]; [unfold edge_key_mgmt_sign; rewrite bind_gets; unfold id; rewrite E; by eexists|].
      destruct (active (slot_of s c)) eqn:Ha; [|unfold edge_key_mgmt_sign; rewrite bind_gets; unfold id; rewrite E, Ha; by eexists].
      destruct (decide (Z.land (usage_flags (slot_of s c)) KEY_USE_SIGN = 0)) as [Hu|Hu]; [unfold edge_key_mgmt_sign; rewrite bind_gets; unfold id; rewrite E, Ha; cbn [negb]; rewrite Hu; by eexists|].
      eexists. by apply sign_run. }
    cbn [run_call]. erewrite bind_step by exact E. exists c. split; [done|by apply step_same].
  - assert (exists b, edge_key_mgmt_verify s hash n sig m c = Done (b, c)) as [b E].
    { unfold edge_key_mgmt_verify. rewrite bind_gets. unfold id. slot_cases; [by eexists|]. destruct (active (slot_of s c)); cbn [negb]; [|by eexists]. destruct (m <? 32); [by eexists|].
      destruct (slot_wf_of c s Hw Hslot) as (Hk' & _ & Hp). destruct (verify_loop_run 16 0 s (slot_of s c) hash n sig c Hk' Hp ltac:(lia) ltac:(lia) ltac:(lia)) as (b & E & _). by exists b. }
    cbn [run_call]. erewrite bind_step by exact E. exists c. split; [done|by apply step_same].
  - cbn [run_call]. unfold edge_key_mgmt_set_trust_anchor. cbv zeta. erewrite bind_step by (apply memcpy_bytes_ok; unfold KM_PUBKEY_SIZE; destruct (Z.ltb_spec n 64); lia).
    eexists. split; [reflexivity|]. destruct Hw as [H1 H2 H3 H4]. split; [|split; [done|split; [cbn; lia|done]]]. constructor; try done. cbn [trust_anchor_pubkey].
    apply overlay_bytes; [rewrite length_take; unfold KM_PUBKEY_SIZE; destruct (Z.ltb_spec n 64); lia|apply Forall_take, Hk|done].
  - assert (exists b, edge_key_mgmt_issue_device_cert ca dev c = Done (b, c)) as [b E] by (unfold edge_key_mgmt_issue_device_cert; rewrite bind_gets; unfold id; repeat case_match; by eexists).
    cbn [run_call]. erewrite bind_step by exact E. exists c. split; [done|by apply step_same].
  - assert (exists b, edge_key_mgmt_check_crl crl n c = Done (b, c)) as [b E].
    { unfold edge_key_mgmt_check_crl. destruct (Z.ltb_spec n 4); [by eexists|]. erewrite bind_step by (apply loop_bytes_ok; lia). rewrite bind_gets. by eexists. }
    cbn [run_call]. erewrite bind_step by exact E. exists c. split; [done|by apply step_same].
  - assert (exists b, edge_key_mgmt_export_csr s c = Done (b, c)) as [b E].
    { unfold edge_key_mgmt_export_csr. rewrite bind_gets. unfold id. slot_cases; [by eexists|].
      destruct (slot_wf_of c s Hw Hslot) as ((_ & [Hq _] & _ & Hqr) & _). erewrite bind_step by (apply memcpy_bytes_ok; case_tests). by eexists. }
    cbn [run_call]. erewrite bind_step by exact E. exists c. split; [done|by apply step_same].
  - assert (exists b, edge_key_mgmt_wrap_key w t c = Done (b, c)) as [b E].
    { destruct (no_slot_cases w c) as [E|[E H]]; [unfold edge_key_mgmt_wrap_key; rewrite bind_gets; unfold id; rewrite E; by eexists|].
      destruct (no_slot_cases t c) as [E2|[E2 H2]]; [unfold edge_key_mgmt_wrap_key; rewrite bind_gets; unfold id; rewrite E, E2; by eexists|]. eexists. by apply wrap_run. }
    cbn [run_call]. erewrite bind_step by exact E. exists c. split; [done|by apply step_same].
Qed.

(** No sequence of calls whose lengths fit the buffers fails or leaves the arrays.  Slots are never given up; a slot changes only when it is rotated, revoked or unwrapped into, and once
    revoked it keeps no private key and changes no more until a key is unwrapped into it. *)
Theorem km_calls_correct ks c :
  km_wf c -> no_secrets c -> Forall call_ok ks ->
  exists c', run_calls ks c = Done (tt, c') /\ km_wf c' /\ no_secrets c' /\ key_count c <= key_count c' /\
    forall s, 0 <= s < key_count c ->
      (Forall (fun k => touches s k = false) ks -> slot_of s c' = slot_of s c) /\
      (active (slot_of s c) = false -> Forall (fun k => unwraps_into s k = false) ks -> slot_of s c' = slot_of s c).
Proof.
  intros Hw Hs Hk. revert c Hw Hs. induction Hk as [|k ks Hk Hks IH]; intros c Hw Hs; cbn [run_calls].
  { exists c. split; [done|]. split; [done|]. split; [done|]. split; [lia|done]. }
  destruct (km_call_step k c Hw Hs Hk) as (c1 & E & Hw1 & Hs1 & Hc1 & Hk1). destruct (IH c1 Hw1 Hs1) as (c' & E' & Hw' & Hs' & Hc' & Hk').
  exists c'. split; [by erewrite bind_step by exact E|]. split; [done|]. split; [done|]. split; [lia|]. intros s Hsr. destruct (Hk' s ltac:(lia)) as [Ht Hu]. split.
  - intros Hf. apply Forall_cons in Hf as [Hf1 Hf2]. rewrite Ht by done. apply Hk1; [done|by left].
  - intros Ha Hf. apply Forall_cons in Hf as [Hf1 Hf2]. pose proof (Hk1 s Hsr (or_intror (conj Ha Hf1))) as Es. rewrite Hu; [done|by rewrite Es|done].
Qed.

(** ** Keys and what they give away *)

Definition recovered (f : Z -> Z) (pub : list Z) : list Z := (fun i => Z.lxor (at_ pub i) (u8 (f i))) <$> seqZ 0 32.
Lemma recovered_generated slot : recovered (fun i => 0x9E + slot * 7 + i * 13) (generated_public slot (generated_private slot)) = generated_private slot.
Proof.
  destruct (generated_wf slot) as [[Hl _] _]. apply (list_at_eq 32); [by unfold recovered; rewrite length_fmap, length_seqZ|done|]. intros i Hi. unfold recovered. rewrite at_seq by lia.
  unfold generated_public at 1, KM_PUBKEY_SIZE, KM_PRIVKEY_SIZE. rewrite at_seq by lia. rewrite lxor_back. by rewrite Z.mod_small by lia.
Qed.
Lemma recovered_rotated priv : length priv = 32%nat -> recovered (fun i => 0x5C + i * 19) (rotated_public priv) = priv.
Proof.
  intros Hl. apply (list_at_eq 32); [by unfold recovered; rewrite length_fmap, length_seqZ|done|]. intros i Hi. unfold recovered. rewrite at_seq by lia.
  unfold rotated_public, KM_PUBKEY_SIZE, KM_PRIVKEY_SIZE. rewrite at_seq by lia. rewrite lxor_back. by rewrite Z.mod_small by lia.
Qed.
Lemma rotated_twice priv : Forall is_u8 priv -> rotated_private (rotated_private priv) = priv.
Proof.
  intros Hp. apply list_eq. intros i. unfold rotated_private. rewrite !list_lookup_imap. destruct (priv !! i) as [b|] eqn:E; [|done]. cbn [fmap option_fmap option_map]. f_equal.
  assert (is_u8 b) as Hb by (rewrite Forall_lookup in Hp; eauto). set (x := u8 (Z.of_nat i * 0x11)). assert (is_u8 x) as Hx by apply u8_range.
  rewrite (u8_small (Z.lxor (Z.lxor b 0xAA) x)) by (apply lxor_u8; [apply lxor_u8|]; done || (unfold is_u8; lia)).
  replace (Z.lxor (Z.lxor (Z.lxor (Z.lxor b 0xAA) x) 0xAA) x) with b; [by apply u8_small|].
  rewrite (Z.lxor_assoc (Z.lxor b 0xAA) x), (Z.lxor_comm x), <- Z.lxor_assoc, lxor_back. by rewrite lxor_back.
Qed.

(** The public key of a generated pair gives the private one to whoever knows the slot's number, the public key of a rotated pair to everybody; and a second rotation brings the
    first private key back.  A rotation changes no other slot. *)
Theorem keys_are_public s kt c :
  km_wf c ->
  (key_count c < 16 -> exists c', edge_key_mgmt_generate_keypair kt c = Done (key_count c, c') /\ key_count c' = key_count c + 1 /\ active (slot_of (key_count c) c') = true /\
     private_key (slot_of (key_count c) c') = recovered (fun i => 0x9E + key_count c * 7 + i * 13) (public_key (slot_of (key_count c) c'))) /\
  (0 <= s < key_count c -> active (slot_of s c) = true -> exists c1 c2, edge_key_mgmt_rotate_key s c = Done (tt, c1) /\ edge_key_mgmt_rotate_key s c1 = Done (tt, c2) /\
     private_key (slot_of s c1) = recovered (fun i => 0x5C + i * 19) (public_key (slot_of s c1)) /\ private_key (slot_of s c2) = private_key (slot_of s c) /\
     created_at (slot_of s c2) = u32 (created_at (slot_of s c) + 2) /\ forall i, 0 <= i < 16 -> i <> s -> slot_of i c1 = slot_of i c /\ slot_of i c2 = slot_of i c).
Proof.
  intros Hw. pose proof Hw as [[Hl Hc] _ _ _]. split.
  - intros Hk. unfold edge_key_mgmt_generate_keypair. rewrite bind_gets. unfold KM_MAX_KEY_SLOTS. destruct (Z.leb_spec 16 (key_count c)); [lia|]. cbv zeta.
    erewrite bind_step by (apply upd_slot_run; [done|lia]). rewrite bind_modify. eexists. split; [reflexivity|]. split; [done|].
    change (slot_of ?i (set_key_count ?n ?x)) with (slot_of i x). rewrite slot_put by (done || lia). rewrite decide_True by done. split; [done|]. cbn [private_key public_key].
    by rewrite recovered_generated.
  - intros Hs Ha. destruct (slot_wf_of c s Hw Hs) as (([Hpl Hpb] & _) & _).
    assert (forall c, length (slots c) = 16%nat -> 0 <= s < key_count c -> s < 16 -> active (slot_of s c) = true -> exists ks, edge_key_mgmt_rotate_key s c = Done (tt, put_slot s ks c) /\
      private_key ks = rotated_private (private_key (slot_of s c)) /\ public_key ks = rotated_public (private_key ks) /\ active ks = true /\ created_at ks = created_at (slot_of s c) +32 1) as Hr.
    { clear. intros c Hl Hs H16 Ha. unfold edge_key_mgmt_rotate_key. rewrite bind_gets. unfold id. rewrite no_slot_false by done. rewrite Ha. cbn [negb]. rewrite upd_slot_run by (done || lia).
      eexists. split; [reflexivity|]. by cbn. }
    destruct (Hr c Hl Hs ltac:(lia) Ha) as (k1 & E1 & P1 & Q1 & A1 & C1). set (c1 := put_slot s k1 c) in *.
    assert (forall i, 0 <= i < 16 -> slot_of i c1 = if decide (s = i) then k1 else slot_of i c) as S1 by (intros i Hi; apply slot_put; done || lia).
    assert (slot_of s c1 = k1) as Es1 by (rewrite S1 by lia; by rewrite decide_True).
    destruct (Hr c1) as (k2 & E2 & P2 & Q2 & A2 & C2); [unfold c1; by rewrite length_put_slot|done|lia|by rewrite Es1|]. rewrite Es1 in *. exists c1, (put_slot s k2 c1).
    assert (forall i, 0 <= i < 16 -> slot_of i (put_slot s k2 c1) = if decide (s = i) then k2 else slot_of i c1) as S2 by (intros i Hi; apply slot_put; unfold c1; rewrite ?length_put_slot; done || lia).
    rewrite S2 by lia. rewrite decide_True by done. split; [done|]. split; [done|]. rewrite !Es1, Q1, P2, P1, C2, C1, rotated_twice by done.
    split; [by rewrite recovered_rotated by (unfold rotated_private; by rewrite length_imap)|]. split; [done|]. split; [unfold u32; rewrite Zplus_mod_idemp_l; f_equal; lia|].
    intros i Hi Hne. rewrite S2, S1 by lia. by rewrite !decide_False by congruence.
Qed.

Lemma crl_loop_spec n i crl crl_len keys :
  0 <= i -> crl_loop n i crl crl_len keys = false <->
  exists j ks, i <= j < i + Z.of_nat n /\ 4 + j * 16 + 16 <= crl_len /\ ks ∈ keys /\ window (Z.to_nat (4 + j * 16)) 16 crl = take 16 (public_key ks).
Proof.
  revert i. induction n as [|n IH]; intros i Hi; cbn [crl_loop]; [split; [done|intros (j & ks & Hj & _); lia]|]. unfold KM_SERIAL_SIZE. destruct (Z.ltb_spec crl_len (4 + i * 16 + 16)) as [Hlt|Hge].
  - split; [done|]. intros (j & ks & Hj & Hr & _). lia.
  - destruct (existsb _ keys) eqn:E.
    + split; [intros _|done]. apply existsb_exists in E as (ks & Hk & Hb). apply bool_decide_eq_true in Hb. exists i, ks. split; [lia|]. split; [lia|]. split; [by apply list_elem_of_In|done].
    + rewrite IH by lia. split; intros (j & ks & Hj & Hr & Hk & Hwn); exists j, ks; (split; [|done]); [lia|]. destruct (decide (j = i)) as [->|]; [|lia].
      exfalso. apply not_true_iff_false in E. apply E, existsb_exists. exists ks. split; [by apply list_elem_of_In|]. by apply bool_decide_eq_true.
Qed.

(** A revocation list names a device exactly when one of its first hundred whole entries is the beginning of a public key of one of the slots, revoked slots included. *)
Theorem check_crl_correct crl crl_len c :
  km_wf c -> crl_len <= Z.of_nat (length crl) -> Forall is_u8 crl ->
  exists b, edge_key_mgmt_check_crl crl crl_len c = Done (b, c) /\
    (b = false <-> 4 <= crl_len /\ exists j s, 0 <= j < Z.min (at_ crl 0 + 256 * at_ crl 1) 100 /\ 4 + 16 * j + 16 <= crl_len /\ 0 <= s < key_count c /\
       window (Z.to_nat (4 + 16 * j)) 16 crl = take 16 (public_key (slot_of s c))).
Proof.
  intros Hw Hl Hb. unfold edge_key_mgmt_check_crl. destruct (Z.ltb_spec crl_len 4); [exists true; split; [done|]; split; [done|lia]|].
  erewrite bind_step by (apply loop_bytes_ok; lia). rewrite bind_gets. unfold id. cbv zeta. eexists. split; [reflexivity|]. set (l := take (Z.to_nat crl_len) crl).
  assert (forall i, 0 <= i < 4 -> at_ l i = at_ crl i) as Hat by (intros i Hi; unfold at_, l; rewrite lookup_total_take; by rewrite decide_True by lia).
  rewrite !Hat by lia. assert (bytes_of_length (length crl) crl) as Hbl by done. pose proof (at_u8 _ _ 0 Hbl ltac:(lia)) as U0. pose proof (at_u8 _ _ 1 Hbl ltac:(lia)) as U1. unfold is_u8 in U0, U1.
  assert (Z.lor (at_ crl 0) (Z.shiftl (at_ crl 1) 8) = at_ crl 0 + 256 * at_ crl 1) as ->.
  { rewrite Z.lor_comm, lor_shiftl_add by lia. lia. }
  set (m := Z.min _ 100). assert (0 <= m) by lia. pose proof Hw as [[Hsl Hc] _ _ _]. rewrite crl_loop_spec by lia. split.
  - intros (j & ks & Hj & Hr & Hk & Hwn). split; [done|]. apply list_elem_of_lookup in Hk as (s & Hs). apply lookup_take_Some in Hs as [Hs Hlt]. exists j, (Z.of_nat s).
    assert (slot_of (Z.of_nat s) c = ks) as -> by (unfold slot_of; rewrite Nat2Z.id; by apply list_lookup_total_correct). split; [lia|]. split; [lia|]. split; [lia|]. rewrite <- Hwn.
    replace (4 + 16 * j) with (4 + j * 16) by lia. unfold window, l. rewrite skipn_firstn_comm, firstn_firstn. f_equal. lia.
  - intros (_ & j & s & Hj & Hr & Hs & Hwn). exists j, (slot_of s c). split; [lia|]. split; [lia|]. split.
    + apply list_elem_of_lookup. exists (Z.to_nat s). apply lookup_take_Some. split; [apply slot_at; lia|lia].
    + rewrite <- Hwn. replace (4 + 16 * j) with (4 + j * 16) by lia. unfold window, l. rewrite skipn_firstn_comm, firstn_firstn. f_equal. lia.
Qed.

(** ** Concrete runs *)

Definition demo_km : EdgeKeyMgmtCtx :=
  KeyMgmt (generated_slot KEY_TYPE_ECC_P256 0 :: generated_slot KEY_TYPE_ED25519 1 :: replicate 14 zero_slot) 2 (replicate 5 zero_cert) 0 (replicate 64 0) 0 true.
Lemma demo_km_runs c : (edge_key_mgmt_init;; run_calls [KGenerate KEY_TYPE_ECC_P256; KGenerate KEY_TYPE_ED25519]) c = Done (tt, demo_km).
Proof. reflexivity. Qed.
Lemma generated_slot_wf kt s : slot_wf (generated_slot kt s).
Proof. destruct (generated_wf s). split; [done|]. split; [done|]. split; split; vm_compute; discriminate. Qed.
Lemma demo_km_wf : km_wf demo_km.
Proof.
  constructor; [split; [reflexivity|split; vm_compute; discriminate]| | |split; [reflexivity|by apply Forall_replicate]].
  - constructor; [apply generated_slot_wf|]. constructor; [apply generated_slot_wf|]. apply Forall_replicate.
    split; [split; [reflexivity|by apply Forall_replicate]|]. split; [split; [reflexivity|by apply Forall_replicate]|]. split; split; vm_compute; discriminate.
  - intros i Hi. change (key_count demo_km) with 2 in Hi. assert (i = 0 \/ i = 1) as [->| ->] by lia; split; vm_compute; reflexivity.
Qed.
Lemma demo_no_secrets : no_secrets demo_km.
Proof. intros i Hi Ha. change (key_count demo_km) with 2 in Hi. assert (i = 0 \/ i = 1) as [->| ->] by lia; discriminate Ha. Qed.

Lemma sign_verify_correct_witness :
  exists sig b, edge_key_mgmt_sign 1 [1; 2; 3] 3 demo_km = Done (Some sig, demo_km) /\ edge_key_mgmt_verify 1 [1; 2; 3] 3 sig 64 demo_km = Done (b, demo_km) /\ b = false.
Proof.
  destruct (sign_verify_correct 1 [1; 2; 3] 3 demo_km) as [(sig & b & E1 & E2 & Hb) [Hn _]];
    [exact demo_km_wf|split; [discriminate|reflexivity]|reflexivity|vm_compute; discriminate|split; [reflexivity|vm_compute; discriminate]|].
  exists sig, b. split; [exact E1|]. split; [exact E2|]. apply not_true_iff_false. intros Ht. apply (Hn KEY_TYPE_ED25519); [reflexivity|]. apply Hb, Ht.
Defined.
Lemma wrap_unwrap_correct_witness :
  exists bs c', edge_key_mgmt_wrap_key 0 0 demo_km = Done (bs, demo_km) /\ edge_key_mgmt_unwrap_key 0 bs (Z.of_nat (length bs)) 1 demo_km = Done (true, c') /\ priv_len (slot_of 1 c') = 32.
Proof.
  destruct (wrap_unwrap_correct 0 0 1 demo_km demo_km) as [(bs & c' & E1 & E2 & E3 & _) _];
    [exact demo_km_wf|exact demo_km_wf|split; [discriminate|reflexivity]|split; [discriminate|reflexivity]|reflexivity|reflexivity|vm_compute; discriminate
    |split; [discriminate|reflexivity]|split; [discriminate|reflexivity]|discriminate|reflexivity|].
  exists bs, c'. split; [exact E1|]. split; [exact E2|exact E3].
Defined.
Lemma km_calls_correct_witness :
  exists c', run_calls [KRevoke 0; KRotate 0; KImport [5; 6] 2 [7] 1; KUnwrap 1 [] 0 0; KSign 2 [1] 1] demo_km = Done (tt, c') /\ no_secrets c' /\ slot_of 1 c' = slot_of 1 demo_km.
Proof.
  destruct (km_calls_correct [KRevoke 0; KRotate 0; KImport [5; 6] 2 [7] 1; KUnwrap 1 [] 0 0; KSign 2 [1] 1] demo_km) as (c' & E & _ & Hn & _ & Hs);
    [exact demo_km_wf|exact demo_no_secrets|repeat constructor; vm_compute; congruence|].
  exists c'. split; [exact E|]. split; [exact Hn|]. destruct (Hs 1) as [Ht _]; [split; [discriminate|reflexivity]|]. apply Ht. repeat constructor.
Defined.
Lemma keys_are_public_witness :
  exists c1 c2, edge_key_mgmt_rotate_key 0 demo_km = Done (tt, c1) /\ edge_key_mgmt_rotate_key 0 c1 = Done (tt, c2) /\ private_key (slot_of 0 c2) = private_key (slot_of 0 demo_km).
Proof.
  destruct (keys_are_public 0 KEY_TYPE_ED25519 demo_km) as [_ H]; [exact demo_km_wf|]. destruct H as (c1 & c2 & E1 & E2 & _ & E3 & _); [split; [discriminate|reflexivity]|reflexivity|].
  exists c1, c2. split; [exact E1|]. split; [exact E2|exact E3].
Defined.
Lemma check_crl_correct_witness : exists b, edge_key_mgmt_check_crl [1; 0; 0; 0] 4 demo_km = Done (b, demo_km) /\ b <> false.
Proof.
  destruct (check_crl_correct [1; 0; 0; 0] 4 demo_km) as (b & E & Hb); [exact demo_km_wf|discriminate|repeat constructor; discriminate|].
  exists b. split; [exact E|]. intros Ef. apply Hb in Ef as (_ & j & s & Hj & Hr & _). lia.
Defined.
