(* ===== verification/TrustZone.v ===== *)
(** * TrustZone (mini-edge-security/src/trustzone_arm.c)

    The core with its world, the attribution units, the table of secure functions, the states of the firmware and of the life cycle, the store of bytes in which
    values, counters, fault records, priorities and images lie.  What a registered handler does to the core is the parameter [call_handler].
    A pointer argument is the list of bytes from it to the end of its object. *)
From S2P Require Import Prelude ByteMem.

Definition SAU_REGION_COUNT : Z := 8.
Definition IDAU_REGION_COUNT : Z := 4.
Definition SECURE_FUNC_COUNT : Z := 16.
Definition TF_M_PARTITION_MAX : Z := 8.
Definition PSA_KEY_MAX_SIZE : Z := 32.
Definition SECURE_STORAGE_SIZE : Z := 4096.
Definition ENC_KEY_VALUE_SIZE : Z := 256.
Definition NV_COUNTER_SIZE : Z := 8.
Inductive SecureWorld := SEC_WORLD_NONSECURE | SEC_WORLD_SECURE.
#[export] Instance world_eq : EqDecision SecureWorld.
Proof. solve_decision. Defined.
Inductive SAUAttribute := SAU_NSEC | SAU_SECURE_NSC | SAU_SECURE.
Inductive TFMState := TF_M_IDLE | TF_M_INIT | TF_M_RUNNING | TF_M_ISOLATED | TF_M_ERROR.
#[export] Instance tfm_state_eq : EqDecision TFMState.
Proof. solve_decision. Defined.
Inductive PSALifecycle := PSA_LIFECYCLE_UNKNOWN | PSA_LIFECYCLE_ASSEMBLY | PSA_LIFECYCLE_PROVISIONING | PSA_LIFECYCLE_SECURED | PSA_LIFECYCLE_DECOMMISSIONED.
#[export] Instance lifecycle_eq : EqDecision PSALifecycle.
Proof. solve_decision. Defined.
(** The value of the enumerator. *)
Definition lc_int (l : PSALifecycle) : Z :=
  match l with PSA_LIFECYCLE_UNKNOWN => 0 | PSA_LIFECYCLE_ASSEMBLY => 1 | PSA_LIFECYCLE_PROVISIONING => 2 | PSA_LIFECYCLE_SECURED => 3 | PSA_LIFECYCLE_DECOMMISSIONED => 4 end.
Record SAURegion := SauRegion { base_addr : Z; limit_addr : Z; attr : SAUAttribute; enabled : bool }.
Record SAUContext := Sau { regions : list SAURegion; region_count : Z; sau_enabled : bool }.
Definition set_regions v x := Sau v (region_count x) (sau_enabled x).
Definition set_region_count v x := Sau (regions x) v (sau_enabled x).
Definition set_sau_enabled v x := Sau (regions x) (region_count x) v.
Record IDAURegion := IdauRegion { idau_base : Z; idau_size : Z; is_secure : bool }.
Record IDAUContext := Idau { idau_regions : list IDAURegion; idau_count : Z }.
Record SecureFunction := SecFunction { sf_id : Z; handler : Z; is_privileged : bool }.
Record TrustZoneCore := Core { current_world : SecureWorld; sau : SAUContext; idau : IDAUContext; s_functions : list SecureFunction; s_func_count : Z; tfm_state : TFMState; lifecycle : PSALifecycle; rot_key : list Z; secure_kv_store : list Z; nsc_enabled : bool; partition_count : Z }.
Definition set_current_world v x := Core v (sau x) (idau x) (s_functions x) (s_func_count x) (tfm_state x) (lifecycle x) (rot_key x) (secure_kv_store x) (nsc_enabled x) (partition_count x).
Definition set_sau v x := Core (current_world x) v (idau x) (s_functions x) (s_func_count x) (tfm_state x) (lifecycle x) (rot_key x) (secure_kv_store x) (nsc_enabled x) (partition_count x).
Definition set_idau v x := Core (current_world x) (sau x) v (s_functions x) (s_func_count x) (tfm_state x) (lifecycle x) (rot_key x) (secure_kv_store x) (nsc_enabled x) (partition_count x).
Definition set_s_functions v x := Core (current_world x) (sau x) (idau x) v (s_func_count x) (tfm_state x) (lifecycle x) (rot_key x) (secure_kv_store x) (nsc_enabled x) (partition_count x).
Definition set_s_func_count v x := Core (current_world x) (sau x) (idau x) (s_functions x) v (tfm_state x) (lifecycle x) (rot_key x) (secure_kv_store x) (nsc_enabled x) (partition_count x).
Definition set_tfm_state v x := Core (current_world x) (sau x) (idau x) (s_functions x) (s_func_count x) v (lifecycle x) (rot_key x) (secure_kv_store x) (nsc_enabled x) (partition_count x).
Definition set_lifecycle v x := Core (current_world x) (sau x) (idau x) (s_functions x) (s_func_count x) (tfm_state x) v (rot_key x) (secure_kv_store x) (nsc_enabled x) (partition_count x).
Definition set_rot_key v x := Core (current_world x) (sau x) (idau x) (s_functions x) (s_func_count x) (tfm_state x) (lifecycle x) v (secure_kv_store x) (nsc_enabled x) (partition_count x).
Definition set_secure_kv_store v x := Core (current_world x) (sau x) (idau x) (s_functions x) (s_func_count x) (tfm_state x) (lifecycle x) (rot_key x) v (nsc_enabled x) (partition_count x).
Definition set_partition_count v x := Core (current_world x) (sau x) (idau x) (s_functions x) (s_func_count x) (tfm_state x) (lifecycle x) (rot_key x) (secure_kv_store x) (nsc_enabled x) v.


Definition NULL : Z := 0.
Notation TZ := (M TrustZoneCore).
Definition in_world (w : SecureWorld) (c : TrustZoneCore) : bool := bool_decide (current_world c = w).
Definition in_tfm (s : TFMState) (c : TrustZoneCore) : bool := bool_decide (tfm_state c = s).
(** Stores into [secure_kv_store] from an index on, outside of which they are undefined. *)
Definition poke (i : Z) (bs : list Z) : TZ unit :=
  if (i <? 0) || (SECURE_STORAGE_SIZE <? i + Z.of_nat (length bs)) then undefined else modify (fun c => set_secure_kv_store (splice (Z.to_nat i) bs (secure_kv_store c)) c).
Definition is_int (x : Z) : bool := (-2147483648 <=? x) && (x <=? 2147483647).

(** ** Words and hashes *)

Definition trustzone_rotl (v n : Z) : option Z := if (n <=? 0) || (32 <=? n) then None else Some (Z.lor (u32 (Z.shiftl v n)) (Z.shiftr v (32 - n))).

(** The new key; the message is copied behind the pad, where nothing reads it. *)
Definition trustzone_hmac_sha256 {S} (key : list Z) (klen : Z) (msg : list Z) (mlen : Z) : M S (list Z) :=
  k ← loop_bytes key (Z.min klen 64);
  let ipad := Z.lxor 0x36 <$> overlay k (replicate 64 0) in
  let opad := Z.lxor 0x5C <$> overlay k (replicate 64 0) in
  m ← memcpy_bytes msg (if mlen <? 64 then mlen else 64);
  let inner_input := ipad ++ m in
  let inner_hash := (fun i => u8 (Z.lxor (at_ inner_input i) (at_ inner_input (i + 32)) + at_ opad (i mod 64))) <$> seqZ 0 32 in
  mret ((fun i => u8 (Z.lxor (at_ opad i) (at_ inner_hash (i mod 32)) * 0x3F)) <$> seqZ 0 32).

Definition trustzone_hash_simple {S} (data : list Z) (len : Z) : M S Z :=
  bs ← loop_bytes data len; mret (foldl (fun h b => u32 (Z.lxor h b * 0x01000193)) 0x811C9DC5 bs).

(** ** Worlds and attribution *)

Definition zero_core : TrustZoneCore :=
  Core SEC_WORLD_NONSECURE (Sau (replicate 8 (SauRegion 0 0 SAU_NSEC false)) 0 false) (Idau (replicate 4 (IdauRegion 0 0 false)) 0) (replicate 16 (SecFunction 0 NULL false)) 0
    TF_M_IDLE PSA_LIFECYCLE_UNKNOWN (replicate 32 0) (replicate 4096 0) false 0.
Definition trustzone_init : TZ unit :=
  modify (fun _ => set_rot_key ((fun i => u8 (0xB0 + i * 3)) <$> seqZ 0 PSA_KEY_MAX_SIZE) (set_partition_count 0 (set_lifecycle PSA_LIFECYCLE_ASSEMBLY
    (set_tfm_state TF_M_IDLE (set_current_world SEC_WORLD_SECURE zero_core))))).
Definition trustzone_switch_to_secure : TZ unit := c ← gets id; when (in_world SEC_WORLD_NONSECURE c) (modify (set_current_world SEC_WORLD_SECURE)).
Definition trustzone_switch_to_nonsecure : TZ unit :=
  c ← gets id; when (in_world SEC_WORLD_SECURE c) (when (nsc_enabled c) (modify (set_current_world SEC_WORLD_NONSECURE))).

Definition trustzone_sau_configure (region_idx base limit : Z) (a : SAUAttribute) : TZ unit :=
  if (region_idx <? 0) || (SAU_REGION_COUNT <=? region_idx) then mret tt
  else
    modify (fun c =>
      let s := sau c in
      let s := set_regions (<[Z.to_nat region_idx := SauRegion base limit a true]> (regions s)) s in
      set_sau (if region_count s <=? region_idx then set_region_count (region_idx + 1) s else s) c).
Definition trustzone_sau_enable : TZ unit := modify (fun c => set_sau (set_sau_enabled true (sau c)) c).

Definition is_secure_attr (a : SAUAttribute) : bool := match a with SAU_SECURE | SAU_SECURE_NSC => true | SAU_NSEC => false end.
(** The first region that contains the address, if one of those in use does. *)
Fixpoint sau_loop (rs : list SAURegion) (addr : Z) : option bool :=
  match rs with
  | [] => None
  | r :: rs => if enabled r && (base_addr r <=? addr) && (addr <=? limit_addr r) then Some (is_secure_attr (attr r)) else sau_loop rs addr
  end.
(** The loop over the indices from [i] on, of which [n] are left; a read behind the array is undefined. *)
Fixpoint idau_loop (n : nat) (i : Z) (rs : list IDAURegion) (addr : Z) : TZ bool :=
  match n with
  | O => mret false
  | S n =>
      r ← of_option (rs !! Z.to_nat i);
      if (idau_base r <=? addr) && (addr <? idau_base r +32 idau_size r) then mret (is_secure r) else idau_loop n (i + 1) rs addr
  end.
Definition trustzone_is_secure_addr (addr : Z) : TZ bool :=
  c ← gets id;
  if negb (sau_enabled (sau c)) then mret (in_world SEC_WORLD_SECURE c)
  else
    match sau_loop (take (Z.to_nat (region_count (sau c))) (regions (sau c))) addr with
    | Some b => mret b
    | None => idau_loop (Z.to_nat (idau_count (idau c))) 0 (idau_regions (idau c)) addr
    end.

(** ** Secure functions *)

Definition trustzone_register_secure_func (id h : Z) (privileged : bool) : TZ unit :=
  n ← gets s_func_count;
  if SECURE_FUNC_COUNT <=? n then mret tt
  else modify (fun c => set_s_func_count (n + 1) (set_s_functions (<[Z.to_nat n := SecFunction id h privileged]> (s_functions c)) c)).
Section handlers.
Variable call_handler : Z -> TZ unit.
Fixpoint call_loop (fs : list SecureFunction) (func_id : Z) : TZ unit :=
  match fs with
  | [] => mret tt
  | f :: fs => if sf_id f =? func_id then trustzone_switch_to_secure;; when (negb (handler f =? NULL)) (call_handler (handler f)) else call_loop fs func_id
  end.
Definition trustzone_sg_call (func_id : Z) : TZ unit :=
  c ← gets id;
  if negb (in_world SEC_WORLD_NONSECURE c) && negb (nsc_enabled c) then mret tt else call_loop (take (Z.to_nat (s_func_count c)) (s_functions c)) func_id.
End handlers.

(** ** The trusted firmware *)

Definition trustzone_tfm_init : TZ unit :=
  modify (fun c => set_lifecycle PSA_LIFECYCLE_PROVISIONING (set_secure_kv_store (replicate 4096 0) (set_tfm_state TF_M_INIT c)));; trustzone_sau_enable.
Definition trustzone_tfm_boot : TZ unit :=
  c ← gets id; if negb (in_tfm TF_M_INIT c) then mret tt else modify (fun c => set_lifecycle PSA_LIFECYCLE_SECURED (set_tfm_state TF_M_RUNNING c)).
Definition trustzone_set_lifecycle (lc : PSALifecycle) : TZ unit := c ← gets id; when (lc_int (lifecycle c) <=? lc_int lc) (modify (set_lifecycle lc)).
Definition trustzone_lifecycle_transition_valid (from to : PSALifecycle) : bool :=
  match from with
  | PSA_LIFECYCLE_UNKNOWN => bool_decide (to = PSA_LIFECYCLE_ASSEMBLY)
  | PSA_LIFECYCLE_ASSEMBLY => bool_decide (to = PSA_LIFECYCLE_PROVISIONING) || bool_decide (to = PSA_LIFECYCLE_DECOMMISSIONED)
  | PSA_LIFECYCLE_PROVISIONING => bool_decide (to = PSA_LIFECYCLE_SECURED) || bool_decide (to = PSA_LIFECYCLE_DECOMMISSIONED)
  | PSA_LIFECYCLE_SECURED => bool_decide (to = PSA_LIFECYCLE_DECOMMISSIONED)
  | PSA_LIFECYCLE_DECOMMISSIONED => false
  end.

(** ** Values and counters in the store *)

Definition place (key : list Z) : TZ Z := h ← trustzone_hash_simple key 16; mret (h mod (SECURE_STORAGE_SIZE - ENC_KEY_VALUE_SIZE)).
Definition masked (rot : list Z) (bs : list Z) : list Z := imap (fun i b => Z.lxor b (at_ rot (Z.of_nat i mod PSA_KEY_MAX_SIZE))) bs.
Definition trustzone_secure_storage_write (key value : list Z) (vlen : Z) : TZ unit :=
  idx ← place key;
  poke idx [u8 (Z.land vlen 0xFF)];;
  poke (idx + 1) [u8 (Z.land (Z.shiftr vlen 8) 0xFF)];;
  vs ← loop_bytes value (Z.min vlen (ENC_KEY_VALUE_SIZE - 4));
  rot ← gets rot_key;
  poke (idx + 4) (masked rot vs).
(** The length and the bytes written. *)
Definition trustzone_secure_storage_read (key : list Z) (max_len : Z) : TZ (Z * list Z) :=
  idx ← place key;
  c ← gets id;
  let vlen := Z.lor (at_ (secure_kv_store c) idx) (Z.shiftl (at_ (secure_kv_store c) (idx + 1)) 8) in
  if (vlen <=? 0) || (max_len <? vlen) || (ENC_KEY_VALUE_SIZE - 4 <? vlen) then mret (0, [])
  else mret (vlen, masked (rot_key c) (window (Z.to_nat (idx + 4)) (Z.to_nat vlen) (secure_kv_store c))).

(** The bytes of a counter, its last one written first. *)
Fixpoint counter_bytes (n : nat) (v : Z) : list Z := match n with O => [] | S n => counter_bytes n (Z.shiftr v 8) ++ [u8 (Z.land v 0xFF)] end.
Definition counter_value (bs : list Z) : Z := foldl (fun v b => Z.lor (u64 (Z.shiftl v 8)) b) 0 bs.
Definition counter_at (base : Z) (c : TrustZoneCore) : option (list Z) := if base <? 0 then None else Some (window (Z.to_nat base) 8 (secure_kv_store c)).
Definition trustzone_nv_counter_increment (counter_idx : Z) : TZ unit :=
  let base := counter_idx * NV_COUNTER_SIZE in
  if negb (is_int base && is_int (base + NV_COUNTER_SIZE)) then undefined
  else if SECURE_STORAGE_SIZE <? base + NV_COUNTER_SIZE then mret tt
  else
    c ← gets id;
    bs ← of_option (counter_at base c);
    poke base (counter_bytes 8 (u64 (counter_value bs + 1))).
Definition trustzone_nv_counter_read (counter_idx : Z) : TZ Z :=
  let base := counter_idx * NV_COUNTER_SIZE in
  if negb (is_int base && is_int (base + NV_COUNTER_SIZE)) then undefined
  else if SECURE_STORAGE_SIZE <? base + NV_COUNTER_SIZE then mret 0
  else
    c ← gets id;
    bs ← of_option (counter_at base c);
    mret (counter_value bs).

Definition trustzone_derive_rot_key (seed : list Z) (len : Z) : TZ unit :=
  let clen := if len <? PSA_KEY_MAX_SIZE then len else PSA_KEY_MAX_SIZE in
  s ← memcpy_bytes seed clen;
  let combined := overlay (s ++ ((fun i => u8 (0xA5 + i * 7)) <$> seqZ 0 PSA_KEY_MAX_SIZE)) (replicate 64 0) in
  rot ← gets rot_key;
  mac ← trustzone_hmac_sha256 rot PSA_KEY_MAX_SIZE combined (clen + PSA_KEY_MAX_SIZE);
  modify (set_rot_key mac).

(** ** Partitions, protection and faults *)

Definition trustzone_isolate_partition (partition_id : Z) : TZ unit :=
  c ← gets id;
  if TF_M_PARTITION_MAX <=? partition_count c then mret tt
  else if in_tfm TF_M_ISOLATED c then mret tt
  else if negb (is_int (partition_id * 0x10000)) then undefined
  else
    let base := u32 (0x20000000 + u32 (partition_id * 0x10000)) in
    trustzone_sau_configure partition_id base (base +32 0xFFFF) SAU_SECURE;;
    modify (fun c => set_tfm_state TF_M_ISOLATED (set_partition_count (partition_count c + 1) c)).

Definition trustzone_mpu_configure_region (region_id base limit : Z) (is_privileged_rdonly : bool) : TZ unit :=
  if (region_id <? 0) || (8 <=? region_id) then mret tt
  else
    c ← gets id;
    if negb (in_tfm TF_M_RUNNING c) && negb (in_tfm TF_M_ISOLATED c) then mret tt
    else
      modify (fun c => set_idau (Idau (<[Z.to_nat (region_id mod IDAU_REGION_COUNT) := IdauRegion base (limit -32 base) true]> (idau_regions (idau c)))
        (if idau_count (idau c) <=? region_id then region_id + 1 else idau_count (idau c))) c).
Definition trustzone_check_stack_overflow (stack_ptr stack_limit : Z) : TZ bool := c ← gets id; mret (in_world SEC_WORLD_SECURE c && (stack_ptr <? stack_limit)).

Definition trustzone_handle_secure_fault (fault_addr fault_type : Z) : TZ unit :=
  c ← gets id;
  when (in_tfm TF_M_RUNNING c) (modify (set_tfm_state TF_M_ERROR));;
  h ← trustzone_hash_simple (le_bytes 4 fault_addr) 4;
  let idx := h mod (SECURE_STORAGE_SIZE - 16) in
  poke idx [u8 (Z.land fault_type 0xFF)];;
  poke (idx + 1) [u8 (Z.land fault_addr 0xFF)];;
  poke (idx + 2) [u8 (Z.land (Z.shiftr fault_addr 8) 0xFF)].

Definition trustzone_nvic_set_priority (irq_num priority : Z) (secure : bool) : TZ unit :=
  c ← gets id;
  if secure && in_world SEC_WORLD_NONSECURE c then mret tt
  else if (irq_num <? 0) || (256 <=? irq_num) then mret tt
  else poke (irq_num mod (SECURE_STORAGE_SIZE / 4)) [u8 (Z.land priority 0xFF)].

Fixpoint load_loop (bs : list Z) (i : Z) : TZ unit :=
  match bs with
  | [] => mret tt
  | b :: bs => c ← gets id; poke ((partition_count c * 256 + i) mod SECURE_STORAGE_SIZE) [b];; load_loop bs (i + 1)
  end.
Definition trustzone_spm_load_partition (partition_id : Z) (image : list Z) (img_len : Z) : TZ bool :=
  c ← gets id;
  if TF_M_PARTITION_MAX <=? partition_count c then mret false
  else if (img_len <=? 0) || (0x10000 <? img_len) then mret false
  else
    trustzone_isolate_partition partition_id;;
    bs ← loop_bytes image (Z.min img_len 256);
    load_loop bs 0;;
    c ← gets id;
    mret (in_tfm TF_M_ISOLATED c).

(** ** Reachable cores *)

(** Regions beyond the count are disabled; the non-secure world needs [nsc_enabled], which no call sets. *)
Record tz_wf (c : TrustZoneCore) : Prop := {
  wf_sau : length (regions (sau c)) = 8%nat /\ 0 <= region_count (sau c) <= 8;
  wf_beyond : forall i r, region_count (sau c) <= Z.of_nat i -> regions (sau c) !! i = Some r -> enabled r = false;
  wf_idau : length (idau_regions (idau c)) = 4%nat /\ 0 <= idau_count (idau c) <= 4;
  wf_funcs : length (s_functions c) = 16%nat /\ 0 <= s_func_count c <= 16;
  wf_rot : bytes_of_length 32 (rot_key c);
  wf_store : bytes_of_length 4096 (secure_kv_store c);
  wf_parts : 0 <= partition_count c <= 8;
  wf_world : current_world c = SEC_WORLD_SECURE /\ nsc_enabled c = false }.

Definition with_store (l : list Z) (c : TrustZoneCore) : TrustZoneCore := set_secure_kv_store l c.
Lemma poke_ok i bs c : 0 <= i -> i + Z.of_nat (length bs) <= 4096 -> poke i bs c = Done (tt, with_store (splice (Z.to_nat i) bs (secure_kv_store c)) c).
Proof. intros Hi Hl. unfold poke, SECURE_STORAGE_SIZE. destruct (Z.ltb_spec i 0); [lia|]. by destruct (Z.ltb_spec 4096 (i + Z.of_nat (length bs))); [lia|]. Qed.

(** A computation that runs from every well-formed core, gives a result with [Q] and leaves a well-formed core, whose life cycle is not an earlier one if [mono]. *)
Definition runs {A} (mono : bool) (m : TZ A) (Q : A -> Prop) : Prop :=
  forall c, tz_wf c -> exists a c', m c = Done (a, c') /\ Q a /\ tz_wf c' /\ (mono = true -> lc_int (lifecycle c) <= lc_int (lifecycle c')).
Definition any {A} (a : A) : Prop := True.
Lemma runs_ret {A} b (a : A) (Q : A -> Prop) : Q a -> runs b (mret a) Q.
Proof. intros H c Hw. by exists a, c. Qed.
Lemma runs_bind {A B} b (m : TZ A) (f : A -> TZ B) Q R : runs b m Q -> (forall a, Q a -> runs b (f a) R) -> runs b (m ≫= f) R.
Proof.
  intros Hm Hf c Hw. destruct (Hm c Hw) as (a & c1 & E1 & Ha & Hw1 & H1). destruct (Hf a Ha c1 Hw1) as (x & c2 & E2 & Hx & Hw2 & H2).
  exists x, c2. split; [by erewrite bind_step by exact E1|]. split; [done|]. split; [done|]. intros Hb. specialize (H1 Hb). specialize (H2 Hb). lia.
Qed.
Lemma runs_get {B} b (f : TrustZoneCore -> TZ B) R :
  (forall c, tz_wf c -> exists a c', f c c = Done (a, c') /\ R a /\ tz_wf c' /\ (b = true -> lc_int (lifecycle c) <= lc_int (lifecycle c'))) -> runs b (gets id ≫= f) R.
Proof. intros H c Hw. rewrite bind_gets. by apply H. Qed.
Lemma runs_modify b (g : TrustZoneCore -> TrustZoneCore) :
  (forall c, tz_wf c -> tz_wf (g c) /\ (b = true -> lc_int (lifecycle c) <= lc_int (lifecycle (g c)))) -> runs b (modify g) any.
Proof. intros H c Hw. exists tt, (g c). split; [done|]. split; [done|]. by apply H. Qed.
Lemma runs_gets {A} b (g : TrustZoneCore -> A) (Q : A -> Prop) : (forall c, tz_wf c -> Q (g c)) -> runs b (gets g) Q.
Proof. intros H c Hw. exists (g c), c. split; [done|]. split; [by apply H|done]. Qed.
Lemma runs_bytes b l n : n <= Z.of_nat (length l) -> runs b (loop_bytes l n) (fun bs => bs = take (Z.to_nat n) l).
Proof.
  intros H c Hw. unfold loop_bytes. destruct (Z.leb_spec n 0); [exists [], c; split; [done|]; split; [by replace (Z.to_nat n) with 0%nat by lia|done]|].
  destruct (Z.ltb_spec (Z.of_nat (length l)) n); [lia|]. by eexists _, c.
Qed.
Lemma wf_with_store l c : tz_wf c -> bytes_of_length 4096 l -> tz_wf (with_store l c).
Proof. intros [] Hl. by constructor. Qed.
Lemma runs_poke b i bs : 0 <= i -> i + Z.of_nat (length bs) <= 4096 -> Forall is_u8 bs -> runs b (poke i bs) any.
Proof.
  intros Hi Hl Hb c Hw. rewrite poke_ok by done. eexists tt, _. split; [done|]. split; [done|]. split; [|intros _; cbn; lia]. apply wf_with_store; [done|].
  destruct (wf_store _ Hw) as [H1 H2]. split; [rewrite length_splice; [done|lia]|by apply Forall_splice].
Qed.

(** ** Where values lie *)

Definition hash_of (bs : list Z) : Z := foldl (fun h b => u32 (Z.lxor h b * 0x01000193)) 0x811C9DC5 bs.
Lemma hash_range bs : 0 <= hash_of bs < 4294967296.
Proof. destruct bs as [|b bs _] using rev_ind; [by vm_compute|]. unfold hash_of. rewrite foldl_snoc. apply u32_range. Qed.
Definition place_of (key : list Z) : Z := hash_of (take 16 key) mod 3840.
Lemma place_range key : 0 <= place_of key < 3840.
Proof. apply Z.mod_pos_bound. done. Qed.
Lemma place_run key c : 16 <= Z.of_nat (length key) -> place key c = Done (place_of key, c).
Proof.
  intros Hk. unfold place, trustzone_hash_simple. rewrite bind_assoc. by erewrite bind_step by (apply loop_bytes_ok; lia).
Qed.
Lemma runs_place b key : 16 <= Z.of_nat (length key) -> runs b (place key) (fun i => 0 <= i < 3840).
Proof. intros Hk c Hw. rewrite place_run by done. exists (place_of key), c. split; [done|]. split; [apply place_range|done]. Qed.

Lemma length_masked rot bs : length (masked rot bs) = length bs.
Proof. apply length_imap. Qed.
Lemma masked_u8 rot bs : bytes_of_length 32 rot -> Forall is_u8 bs -> Forall is_u8 (masked rot bs).
Proof.
  intros Hr Hb. apply Forall_lookup. intros i x Hx. unfold masked in Hx. rewrite list_lookup_imap in Hx. destruct (bs !! i) as [y|] eqn:E; [|done]. injection Hx as <-.
  apply lxor_u8; [rewrite Forall_lookup in Hb; eauto|]. pose proof (Z.mod_pos_bound (Z.of_nat i) PSA_KEY_MAX_SIZE ltac:(done)). unfold PSA_KEY_MAX_SIZE in *. apply at_u8 with 32%nat; [done|lia].
Qed.
Lemma masked_twice rot bs : masked rot (masked rot bs) = bs.
Proof.
  apply list_eq. intros i. unfold masked. rewrite !list_lookup_imap. destruct (bs !! i); [|done]. cbn [fmap option_fmap option_map]. by rewrite Z.lxor_assoc, Z.lxor_nilpotent, Z.lxor_0_r.
Qed.
Lemma masked_take rot n bs : take n (masked rot bs) = masked rot (take n bs).
Proof.
  apply list_eq. intros i. destruct (decide (i < n)%nat).
  - rewrite lookup_take_lt by done. unfold masked. rewrite !list_lookup_imap. by rewrite lookup_take_lt by done.
  - rewrite lookup_take_ge by lia. unfold masked. rewrite list_lookup_imap. by rewrite lookup_take_ge by lia.
Qed.

(** ** Sequences of calls *)

Section calls.
Context (call_handler : Z -> TZ unit).

Inductive tz_call :=
| TToSecure | TToNonsecure | TSau (i base limit : Z) (a : SAUAttribute) | TSauEnable | TIsSecure (addr : Z) | TRegister (id h : Z) (p : bool) | TSgCall (f : Z)
| TInit | TBoot | TSetLifecycle (l : PSALifecycle) | TWrite (key value : list Z) (n : Z) | TRead (key : list Z) (n : Z) | TIncrement (i : Z) | TCounter (i : Z) | TDerive (seed : list Z) (n : Z)
| TIsolate (p : Z) | TMpu (r base limit : Z) (ro : bool) | TStack (sp lim : Z) | TFault (addr ty : Z) | TPriority (irq p : Z) (s : bool) | TLoad (p : Z) (image : list Z) (n : Z).
Definition run_call (k : tz_call) : TZ unit :=
  match k with
  | TToSecure => trustzone_switch_to_secure | TToNonsecure => trustzone_switch_to_nonsecure | TSau i b l a => trustzone_sau_configure i b l a | TSauEnable => trustzone_sau_enable
  | TIsSecure a => trustzone_is_secure_addr a;; mret tt | TRegister i h p => trustzone_register_secure_func i h p | TSgCall f => trustzone_sg_call call_handler f
  | TInit => trustzone_tfm_init | TBoot => trustzone_tfm_boot | TSetLifecycle l => trustzone_set_lifecycle l
  | TWrite k v n => trustzone_secure_storage_write k v n | TRead k n => trustzone_secure_storage_read k n;; mret tt
  | TIncrement i => trustzone_nv_counter_increment i | TCounter i => trustzone_nv_counter_read i;; mret tt | TDerive s n => trustzone_derive_rot_key s n
  | TIsolate p => trustzone_isolate_partition p | TMpu r b l o => trustzone_mpu_configure_region r b l o | TStack s l => trustzone_check_stack_overflow s l;; mret tt
  | TFault a t => trustzone_handle_secure_fault a t | TPriority i p s => trustzone_nvic_set_priority i p s | TLoad p im n => trustzone_spm_load_partition p im n;; mret tt
  end.
Fixpoint run_calls (ks : list tz_call) : TZ unit := match ks with [] => mret tt | k :: ks => run_call k;; run_calls ks end.
Definition call_ok (k : tz_call) : Prop :=
  match k with
  | TWrite k v n => 16 <= Z.of_nat (length k) /\ n <= Z.of_nat (length v) /\ Forall is_u8 v
  | TRead k _ => 16 <= Z.of_nat (length k)
  | TIncrement i | TCounter i => 0 <= i < 268435455
  | TDerive s n => 0 <= n <= Z.of_nat (length s)
  | TIsolate p => - 32768 <= p < 32768
  | TMpu r _ _ _ => r < 4
  | TLoad p im n => (- 32768 <= p < 32768) /\ n <= Z.of_nat (length im) /\ Forall is_u8 im
  | _ => True
  end.
Definition restarts (k : tz_call) : bool := match k with TInit | TBoot => true | _ => false end.

Lemma not_nonsecure c : tz_wf c -> in_world SEC_WORLD_NONSECURE c = false.
Proof. intros [_ _ _ _ _ _ _ [E _]]. unfold in_world. rewrite E. reflexivity. Qed.
Lemma secure_world c : tz_wf c -> in_world SEC_WORLD_SECURE c = true.
Proof. intros [_ _ _ _ _ _ _ [E _]]. unfold in_world. rewrite E. reflexivity. Qed.
Lemma sg_call_closed f c : tz_wf c -> trustzone_sg_call call_handler f c = Done (tt, c).
Proof. intros Hw. unfold trustzone_sg_call. rewrite bind_gets. unfold id. rewrite not_nonsecure by done. by rewrite (proj2 (wf_world _ Hw)). Qed.

Lemma wf_configure i base limit a c : tz_wf c -> 0 <= i < 8 ->
  tz_wf (set_sau (let s := set_regions (<[Z.to_nat i := SauRegion base limit a true]> (regions (sau c))) (sau c) in if region_count s <=? i then set_region_count (i + 1) s else s) c).
Proof.
  intros [[Hl Hc] Hb Hi Hf Hr Hs Hp Hww] Hi8. cbv zeta. cbn [set_regions region_count]. destruct (Z.leb_spec (region_count (sau c)) i) as [Hle|Hlt].
  - constructor; try done; cbn [set_sau sau set_region_count set_regions regions region_count].
    + rewrite length_insert. lia.
    + intros j r Hj Hr'. destruct (decide (Z.to_nat i = j)) as [<-|Hne]; [lia|]. rewrite list_lookup_insert_ne in Hr' by done. apply (Hb j r); [lia|done].
  - constructor; try done; cbn [set_sau sau set_regions regions region_count].
    + rewrite length_insert. lia.
    + intros j r Hj Hr'. destruct (decide (Z.to_nat i = j)) as [<-|Hne]; [lia|]. rewrite list_lookup_insert_ne in Hr' by done. by apply (Hb j r).
Qed.
Lemma runs_configure b i base limit a : runs b (trustzone_sau_configure i base limit a) any.
Proof.
  unfold trustzone_sau_configure, SAU_REGION_COUNT. destruct ((i <? 0) || (8 <=? i)) eqn:E; [by apply runs_ret|]. apply orb_false_iff in E as [H1%Z.ltb_ge H2%Z.leb_gt].
  apply runs_modify. intros c Hw. split; [apply (wf_configure i base limit a c Hw); lia|]. intros _. cbn. lia.
Qed.
Lemma idau_loop_ok n i rs addr c : 0 <= i -> i + Z.of_nat n <= Z.of_nat (length rs) -> exists b, idau_loop n i rs addr c = Done (b, c).
Proof.
  revert i. induction n as [|n IH]; intros i Hi Hn; cbn [idau_loop]; [by eexists|]. destruct (lookup_lt_is_Some_2 rs (Z.to_nat i)) as [r E]; [lia|]. rewrite E. cbn [of_option]. rewrite bind_ret.
  destruct (_ && _); [by eexists|]. apply IH; lia.
Qed.
Lemma runs_is_secure b addr : runs b (trustzone_is_secure_addr addr) any.
Proof.
  apply runs_get. intros c Hw. unfold id. destruct (sau_enabled (sau c)); cbn [negb]; [|by eexists _, c].
  destruct (sau_loop _ addr); [by eexists _, c|]. destruct (wf_idau _ Hw) as [Hl Hc]. destruct (idau_loop_ok (Z.to_nat (idau_count (idau c))) 0 (idau_regions (idau c)) addr c) as [r E]; [lia|lia|].
  rewrite E. by eexists _, c.
Qed.
Lemma runs_register b i h p : runs b (trustzone_register_secure_func i h p) any.
Proof.
  intros c Hw. unfold trustzone_register_secure_func. rewrite bind_gets. unfold SECURE_FUNC_COUNT. destruct (Z.leb_spec 16 (s_func_count c)); [by exists tt, c|].
  eexists tt, _. split; [reflexivity|]. split; [done|]. split; [|cbn; lia]. destruct Hw as [H1 H2 H3 [H4 H5] H6 H7 H8 H9]. constructor; try done. cbn. rewrite length_insert. lia.
Qed.

Lemma hmac_run {S} key msg mlen (s : S) : bytes_of_length 32 key -> 0 <= mlen <= Z.of_nat (length msg) -> exists mac, bytes_of_length 32 mac /\ trustzone_hmac_sha256 key 32 msg mlen s = Done (mac, s).
Proof.
  intros [Hk _] Hm. unfold trustzone_hmac_sha256. erewrite bind_step by (apply loop_bytes_ok; lia). cbv zeta. erewrite bind_step by (apply memcpy_bytes_ok; case_tests).
  eexists. split; [|reflexivity]. apply (bytes_u8_map 32).
Qed.
Lemma derive_rot_run seed n c : tz_wf c -> 0 <= n <= Z.of_nat (length seed) -> exists mac, bytes_of_length 32 mac /\ trustzone_derive_rot_key seed n c = Done (tt, set_rot_key mac c).
Proof.
  intros Hw Hn. unfold trustzone_derive_rot_key. cbv zeta. unfold PSA_KEY_MAX_SIZE. set (m := if n <? 32 then n else 32). assert (0 <= m <= 32 /\ m <= n) as [Hm Hmn] by (unfold m; case_tests).
  erewrite bind_step by (apply memcpy_bytes_ok; lia). rewrite bind_gets. set (msg := overlay _ _).
  assert (length msg = 64%nat) as Hl.
  { unfold msg, overlay. rewrite length_app, length_drop, !length_app, length_take, length_fmap, length_seqZ, length_replicate. lia. }
  destruct (hmac_run (rot_key c) msg (m + 32) c) as (mac & Hb & E); [apply Hw|lia|]. exists mac. split; [done|]. by erewrite bind_step by exact E.
Qed.

Lemma length_counter_bytes n v : length (counter_bytes n v) = n.
Proof. revert v. induction n as [|n IH]; intros v; cbn; [done|]. rewrite length_app, IH. cbn. lia. Qed.
Lemma counter_bytes_u8 n v : Forall is_u8 (counter_bytes n v).
Proof. revert v. induction n as [|n IH]; intros v; cbn; [done|]. apply Forall_app. split; [done|]. constructor; [apply u8_range|done]. Qed.
Lemma is_int_true x : -2147483648 <= x <= 2147483647 -> is_int x = true.
Proof. intros H. unfold is_int. destruct (Z.leb_spec (-2147483648) x); [|lia]. destruct (Z.leb_spec x 2147483647); [done|lia]. Qed.

Lemma runs_write b k v n : call_ok (TWrite k v n) -> runs b (trustzone_secure_storage_write k v n) any.
Proof.
  intros (Hk & Hn & Hv). unfold trustzone_secure_storage_write. eapply runs_bind; [by apply runs_place|]. intros idx Hi. cbv beta in Hi.
  eapply runs_bind; [apply runs_poke; [lia|cbn; lia|repeat constructor; apply u8_range]|intros _ _]. eapply runs_bind; [apply runs_poke; [lia|cbn; lia|repeat constructor; apply u8_range]|intros _ _].
  eapply runs_bind; [apply runs_bytes; unfold ENC_KEY_VALUE_SIZE; lia|]. intros bs ->. eapply runs_bind; [apply (runs_gets _ rot_key (bytes_of_length 32)); by intros c []|].
  intros rot Hr. apply runs_poke; [lia|rewrite length_masked, length_take; unfold ENC_KEY_VALUE_SIZE; lia|]. apply masked_u8; [done|by apply Forall_take].
Qed.
Lemma runs_read b k n : call_ok (TRead k n) -> runs b (trustzone_secure_storage_read k n) any.
Proof.
  intros Hk. unfold trustzone_secure_storage_read. eapply runs_bind; [by apply runs_place|]. intros idx Hi. apply runs_get. intros c Hw. unfold id. destruct (_ || _); by eexists _, c.
Qed.
Lemma counter_bytes_at c i : tz_wf c -> 0 <= i < 512 -> exists bs, counter_at (i * 8) c = Some bs /\ bytes_of_length 8 bs.
Proof.
  intros Hw Hi. unfold counter_at. destruct (Z.ltb_spec (i * 8) 0); [lia|]. eexists. split; [done|]. destruct (wf_store _ Hw) as [H1 H2]. split; [apply length_window; lia|by apply Forall_window].
Qed.
Lemma runs_increment b i : call_ok (TIncrement i) -> runs b (trustzone_nv_counter_increment i) any.
Proof.
  intros Hi. cbn in Hi. unfold trustzone_nv_counter_increment, NV_COUNTER_SIZE, SECURE_STORAGE_SIZE. cbv zeta. rewrite !is_int_true by lia. cbn [andb negb]. destruct (Z.ltb_spec 4096 (i * 8 + 8)); [by apply runs_ret|].
  intros c Hw. rewrite bind_gets. unfold id. destruct (counter_bytes_at c i Hw ltac:(lia)) as (bs & E & Hb). rewrite E. cbn [of_option]. rewrite bind_ret.
  apply (runs_poke b (i * 8)); [lia|rewrite length_counter_bytes; lia|apply counter_bytes_u8|done].
Qed.
Lemma runs_counter b i : call_ok (TCounter i) -> runs b (trustzone_nv_counter_read i) any.
Proof.
  intros Hi. cbn in Hi. unfold trustzone_nv_counter_read, NV_COUNTER_SIZE, SECURE_STORAGE_SIZE. cbv zeta. rewrite !is_int_true by lia. cbn [andb negb]. destruct (Z.ltb_spec 4096 (i * 8 + 8)); [by apply runs_ret|].
  apply runs_get. intros c Hw. unfold id. destruct (counter_bytes_at c i Hw ltac:(lia)) as (bs & E & Hb). rewrite E. by eexists _, c.
Qed.
Lemma runs_isolate b p : call_ok (TIsolate p) -> runs b (trustzone_isolate_partition p) any.
Proof.
  intros Hp. cbn in Hp. intros c Hw. unfold trustzone_isolate_partition. rewrite bind_gets. unfold id, TF_M_PARTITION_MAX. destruct (Z.leb_spec 8 (partition_count c)) as [|Hlt]; [by exists tt, c|].
  destruct (in_tfm TF_M_ISOLATED c); [by exists tt, c|]. rewrite is_int_true by lia. cbn [negb]. cbv zeta. unfold trustzone_sau_configure, SAU_REGION_COUNT.
  destruct ((p <? 0) || (8 <=? p)) eqn:E.
  - rewrite bind_ret. eexists tt, _. split; [reflexivity|]. split; [done|]. split; [|cbn; lia]. destruct Hw. constructor; try done. cbn. lia.
  - apply orb_false_iff in E as [H1%Z.ltb_ge H2%Z.leb_gt]. rewrite bind_modify. eexists tt, _. split; [reflexivity|]. split; [done|]. split; [|cbn; lia].
    set (base := u32 _). pose proof (wf_configure p base (base +32 0xFFFF) SAU_SECURE c Hw ltac:(lia)) as [W1 W2 W3 W4 W5 W6 W7 W8]. pose proof (wf_parts _ Hw). constructor; try done. cbn. lia.
Qed.
Lemma runs_mpu b r base limit ro : call_ok (TMpu r base limit ro) -> runs b (trustzone_mpu_configure_region r base limit ro) any.
Proof.
  intros Hr. cbn in Hr. unfold trustzone_mpu_configure_region. destruct ((r <? 0) || (8 <=? r)) eqn:E; [by apply runs_ret|]. apply orb_false_iff in E as [H1%Z.ltb_ge H2%Z.leb_gt].
  apply runs_get. intros c Hw. unfold id. destruct (_ && _); [by eexists _, c|]. eexists tt, _. split; [reflexivity|]. split; [done|]. split; [|cbn; lia].
  destruct Hw as [W1 W2 [W3 W3'] W4 W5 W6 W7 W8]. constructor; try done. cbn. rewrite length_insert. destruct (Z.leb_spec (idau_count (idau c)) r); lia.
Qed.
Lemma runs_fault b a t : runs b (trustzone_handle_secure_fault a t) any.
Proof.
  unfold trustzone_handle_secure_fault. intros c Hw. rewrite bind_gets. unfold id. revert c Hw.
  assert (runs b (h ← trustzone_hash_simple (le_bytes 4 a) 4; poke (h mod (SECURE_STORAGE_SIZE - 16)) [u8 (Z.land t 0xFF)];; poke (h mod (SECURE_STORAGE_SIZE - 16) + 1) [u8 (Z.land a 0xFF)];;
    poke (h mod (SECURE_STORAGE_SIZE - 16) + 2) [u8 (Z.land (Z.shiftr a 8) 0xFF)]) any) as Hrest.
  { eapply (runs_bind _ _ _ any); [intros c Hw; eexists _, c; split; [reflexivity|done]|]. intros h _. pose proof (Z.mod_pos_bound h (SECURE_STORAGE_SIZE - 16) ltac:(done)) as Hb. unfold SECURE_STORAGE_SIZE in *.
    eapply runs_bind; [apply runs_poke; [lia|cbn; lia|repeat constructor; apply u8_range]|intros _ _]. eapply runs_bind; [apply runs_poke; [lia|cbn; lia|repeat constructor; apply u8_range]|intros _ _].
    apply runs_poke; [lia|cbn; lia|repeat constructor; apply u8_range]. }
  intros c Hw. destruct (in_tfm TF_M_RUNNING c); cbn [when].
  - rewrite bind_modify. apply (Hrest (set_tfm_state TF_M_ERROR c)). by destruct Hw; constructor.
  - rewrite bind_ret. by apply Hrest.
Qed.
Lemma runs_priority b irq p s : runs b (trustzone_nvic_set_priority irq p s) any.
Proof.
  unfold trustzone_nvic_set_priority. intros c Hw. rewrite bind_gets. unfold id. destruct (s && _); [by exists tt, c|]. destruct ((irq <? 0) || (256 <=? irq)) eqn:E; [by exists tt, c|].
  pose proof (Z.mod_pos_bound irq (SECURE_STORAGE_SIZE / 4) ltac:(done)) as Hm. change (SECURE_STORAGE_SIZE / 4) with 1024 in *. apply runs_poke; [lia|cbn; lia|repeat constructor; apply u8_range|done].
Qed.
Lemma runs_load_loop b bs i : Forall is_u8 bs -> runs b (load_loop bs i) any.
Proof.
  intros Hb. revert i. induction Hb as [|x bs Hx Hb IH]; intros i; cbn [load_loop]; [by apply runs_ret|]. intros c Hw. rewrite bind_gets. unfold id.
  pose proof (Z.mod_pos_bound (partition_count c * 256 + i) SECURE_STORAGE_SIZE ltac:(done)) as Hm. unfold SECURE_STORAGE_SIZE in *.
  eapply (runs_bind b (poke _ [x]) _ any any); [apply runs_poke; [lia|cbn; lia|by apply Forall_singleton]|intros _ _; apply IH|done].
Qed.
Lemma runs_load b p im n : call_ok (TLoad p im n) -> runs b (trustzone_spm_load_partition p im n) any.
Proof.
  intros (Hp & Hn & Hi). unfold trustzone_spm_load_partition. intros c Hw. rewrite bind_gets. unfold id. destruct (_ <=? _); [by eexists _, c|]. destruct (_ || _); [by eexists _, c|].
  revert c Hw. eapply runs_bind; [by apply runs_isolate|intros _ _]. eapply runs_bind; [apply runs_bytes; lia|]. intros bs ->. eapply runs_bind; [apply runs_load_loop; by apply Forall_take|intros _ _].
  apply runs_get. intros c Hw. by eexists _, c.
Qed.

Lemma runs_call k : call_ok k -> runs (negb (restarts k)) (run_call k) any.
Proof.
  intros Hk. destruct k; cbn [run_call restarts negb];
    try (apply runs_configure); try (by apply runs_register); try (by apply runs_write); try (by apply runs_increment); try (by apply runs_isolate); try (by apply runs_mpu); try (by apply runs_fault);
    try (by apply runs_priority); try (eapply (runs_bind _ _ _ any any); [first [by apply runs_is_secure|by apply runs_read|by apply runs_counter|by apply runs_load]|intros _ _; by apply runs_ret]).
  - apply runs_get. intros c Hw. unfold id. rewrite not_nonsecure by done. by exists tt, c.
  - apply runs_get. intros c Hw. unfold id. rewrite secure_world by done. rewrite (proj2 (wf_world _ Hw)). by exists tt, c.
  - apply runs_modify. intros c Hw. split; [|cbn; lia]. by destruct Hw; constructor.
  - intros c Hw. exists tt, c. rewrite sg_call_closed by done. done.
  - intros c Hw. eexists tt, _. split; [reflexivity|]. split; [done|]. split; [|done]. destruct Hw. constructor; try done. split; [by apply length_replicate|by apply Forall_replicate].
  - apply runs_get. intros c Hw. unfold id. destruct (in_tfm TF_M_INIT c); cbn [negb]; [|by exists tt, c]. eexists tt, _. split; [reflexivity|]. split; [done|]. split; [|done]. by destruct Hw; constructor.
  - apply runs_get. intros c Hw. unfold id. destruct (Z.leb_spec (lc_int (lifecycle c)) (lc_int l)); cbn [when]; [|by exists tt, c]. eexists tt, _. split; [reflexivity|]. split; [done|]. split; [|by cbn].
    by destruct Hw; constructor.
  - intros c Hw. destruct (derive_rot_run seed n c Hw Hk) as (mac & Hm & E). exists tt, (set_rot_key mac c). split; [done|]. split; [done|]. split; [|cbn; lia]. by destruct Hw; constructor.
  - intros c Hw. by eexists tt, c.
Qed.

(** C21: whatever handlers are registered, no sequence of calls with buffers as long as they say and protection regions below four fails; none of them leaves the secure world or runs a
    secure function, for nothing ever opens the gateway; and without a restart of the firmware the life cycle never goes back. *)
Theorem tz_calls_correct ks c :
  tz_wf c -> Forall call_ok ks ->
  exists c', run_calls ks c = Done (tt, c') /\ tz_wf c' /\ current_world c' = SEC_WORLD_SECURE /\ (forall f, trustzone_sg_call call_handler f c' = Done (tt, c')) /\
    (Forall (fun k => restarts k = false) ks -> lc_int (lifecycle c) <= lc_int (lifecycle c')).
Proof.
  intros Hw Hk. revert c Hw. induction Hk as [|k ks Hk Hks IH]; intros c Hw; cbn [run_calls].
  - exists c. split; [done|]. split; [done|]. split; [apply Hw|]. split; [intros f; by apply sg_call_closed|lia].
  - destruct (runs_call k Hk c Hw) as ([] & c1 & E & _ & Hw1 & Hl1). destruct (IH c1 Hw1) as (c' & E' & Hw' & Hs & Hg & Hl'). exists c'. split; [by erewrite bind_step by exact E|]. split; [done|].
    split; [done|]. split; [done|]. intros Hf. apply Forall_cons in Hf as [Hf1 Hf2]. specialize (Hl' Hf2). rewrite Hf1 in Hl1. specialize (Hl1 eq_refl). lia.
Qed.
End calls.

(** ** Values in the store *)

Definition value_len (vlen : Z) : Z := Z.max 0 (Z.min vlen 252).
Definition written (idx vlen : Z) (rot value st : list Z) : list Z :=
  splice (Z.to_nat (idx + 4)) (masked rot (take (Z.to_nat (Z.min vlen 252)) value))
    (splice (Z.to_nat (idx + 1)) [u8 (Z.land (Z.shiftr vlen 8) 0xFF)] (splice (Z.to_nat idx) [u8 (Z.land vlen 0xFF)] st)).
Lemma storage_write_run key value vlen c :
  tz_wf c -> 16 <= Z.of_nat (length key) -> vlen <= Z.of_nat (length value) ->
  trustzone_secure_storage_write key value vlen c = Done (tt, with_store (written (place_of key) vlen (rot_key c) value (secure_kv_store c)) c).
Proof.
  intros Hw Hk Hv. unfold trustzone_secure_storage_write. erewrite bind_step by (by apply place_run). pose proof (place_range key) as Hp. destruct (wf_store _ Hw) as [Hl _].
  erewrite bind_step by (apply poke_ok; cbn; lia). erewrite bind_step by (apply poke_ok; cbn; lia). unfold ENC_KEY_VALUE_SIZE. change (256 - 4) with 252.
  assert (forall (s : TrustZoneCore), loop_bytes value (Z.min vlen 252) s = Done (take (Z.to_nat (Z.min vlen 252)) value, s)) as El.
  { intros s. unfold loop_bytes. destruct (Z.leb_spec (Z.min vlen 252) 0); [by replace (Z.to_nat (Z.min vlen 252)) with 0%nat by lia|]. by destruct (Z.ltb_spec (Z.of_nat (length value)) (Z.min vlen 252)); [lia|]. }
  erewrite bind_step by apply El. rewrite bind_gets. rewrite poke_ok; [done|lia|]. rewrite length_masked, length_take. lia.
Qed.
Lemma lookup_written idx vlen rot value st k :
  0 <= idx < 3840 -> length st = 4096%nat -> vlen <= Z.of_nat (length value) -> 0 <= k ->
  written idx vlen rot value st !! Z.to_nat k =
    if decide (idx + 4 <= k < idx + 4 + value_len vlen) then masked rot value !! Z.to_nat (k - idx - 4)
    else if decide (k = idx + 1) then Some (u8 (Z.land (Z.shiftr vlen 8) 0xFF)) else if decide (k = idx) then Some (u8 (Z.land vlen 0xFF)) else st !! Z.to_nat k.
Proof.
  intros Hi Hl Hv Hk. unfold written, value_len. rewrite lookup_splice by (rewrite ?length_splice, ?length_masked, ?length_take; rewrite ?length_splice; cbn [length]; lia). rewrite length_masked, length_take.
  destruct (decide (idx + 4 <= k < idx + 4 + Z.max 0 (Z.min vlen 252))) as [Hin|Hout].
  - rewrite decide_True by lia. rewrite <- masked_take, lookup_take_lt by lia. f_equal. lia.
  - rewrite decide_False by lia. rewrite lookup_splice by (rewrite ?length_splice; cbn [length]; lia). cbn [length]. destruct (decide (k = idx + 1)) as [->|H1].
    + rewrite decide_True by lia. by rewrite Nat.sub_diag.
    + rewrite decide_False by lia. rewrite lookup_splice by (cbn [length]; lia). cbn [length]. destruct (decide (k = idx)) as [->|H2]; [rewrite decide_True by lia; by rewrite Nat.sub_diag|by rewrite decide_False by lia].
Qed.
Lemma length_written idx vlen rot value st : 0 <= idx < 3840 -> length st = 4096%nat -> vlen <= Z.of_nat (length value) -> length (written idx vlen rot value st) = 4096%nat.
Proof.
  intros Hi Hl Hv. unfold written. rewrite length_splice; rewrite length_splice; rewrite length_splice by (cbn [length]; lia); rewrite ?length_masked, ?length_take; cbn [length]; lia.
Qed.

(** The store has under [key] a value of [vlen] bytes that begins with those of [value]. *)
Definition holds_value (key value : list Z) (vlen : Z) (c : TrustZoneCore) : Prop :=
  at_ (secure_kv_store c) (place_of key) = vlen mod 256 /\ at_ (secure_kv_store c) (place_of key + 1) = (vlen / 256) mod 256 /\
  forall k, 0 <= k < value_len vlen -> secure_kv_store c !! Z.to_nat (place_of key + 4 + k) = masked (rot_key c) value !! Z.to_nat k.
Lemma u8_land_255 x : u8 (Z.land x 0xFF) = x mod 256.
Proof. change 0xFF with (Z.ones 8). rewrite Z.land_ones by lia. unfold u8. change (2 ^ 8) with 256. by rewrite Z.mod_mod. Qed.
Lemma write_holds key value vlen c :
  tz_wf c -> vlen <= Z.of_nat (length value) -> holds_value key value vlen (with_store (written (place_of key) vlen (rot_key c) value (secure_kv_store c)) c).
Proof.
  intros Hw Hv. pose proof (place_range key) as Hp. destruct (wf_store _ Hw) as [Hl _]. unfold holds_value. cbn [with_store set_secure_kv_store secure_kv_store rot_key].
  split; [|split]; [| |intros k Hk]; unfold at_; try apply list_lookup_total_correct; rewrite lookup_written by lia.
  - rewrite decide_False by (unfold value_len; lia). rewrite decide_False, decide_True by lia. by rewrite u8_land_255.
  - rewrite decide_False by (unfold value_len; lia). rewrite decide_True by lia. by rewrite u8_land_255, Z.shiftr_div_pow2 by lia.
  - rewrite decide_True by lia. f_equal. lia.
Qed.
Lemma write_keeps key value vlen key' value' vlen' c :
  tz_wf c -> vlen' <= Z.of_nat (length value') -> 256 <= Z.abs (place_of key' - place_of key) -> holds_value key value vlen c ->
  holds_value key value vlen (with_store (written (place_of key') vlen' (rot_key c) value' (secure_kv_store c)) c).
Proof.
  intros Hw Hv Hfar (H1 & H2 & H3). pose proof (place_range key) as Hp. pose proof (place_range key') as Hp'. destruct (wf_store _ Hw) as [Hl _].
  assert (forall k, 0 <= k < 256 -> written (place_of key') vlen' (rot_key c) value' (secure_kv_store c) !! Z.to_nat (place_of key + k) = secure_kv_store c !! Z.to_nat (place_of key + k)) as Hs.
  { intros k Hk. rewrite lookup_written by lia. rewrite decide_False by (unfold value_len; lia). by rewrite !decide_False by lia. }
  unfold holds_value. cbn [with_store set_secure_kv_store secure_kv_store rot_key]. unfold at_ in *. rewrite !list_lookup_total_alt in *. split; [|split].
  - pose proof (Hs 0 ltac:(lia)) as E. rewrite Z.add_0_r in E. by rewrite E.
  - by rewrite Hs by lia.
  - intros k Hk. unfold value_len in Hk. rewrite <- Z.add_assoc, Hs by lia. rewrite Z.add_assoc. apply H3. unfold value_len. lia.
Qed.
Lemma read_held key value vlen max_len c :
  tz_wf c -> 16 <= Z.of_nat (length key) -> 0 < vlen <= Z.of_nat (length value) -> vlen mod 65536 <= max_len -> holds_value key value vlen c ->
  trustzone_secure_storage_read key max_len c =
    Done (if (vlen mod 65536 <=? 0) || (252 <? vlen mod 65536) then (0, []) else (vlen mod 65536, take (Z.to_nat (vlen mod 65536)) value), c).
Proof.
  intros Hw Hk Hv Hm (H1 & H2 & H3). unfold trustzone_secure_storage_read. erewrite bind_step by (by apply place_run). rewrite bind_gets. unfold id. rewrite H1, H2.
  assert (Z.lor (vlen mod 256) (Z.shiftl ((vlen / 256) mod 256) 8) = vlen mod 65536) as ->.
  { pose proof (Z.mod_pos_bound vlen 256 ltac:(lia)). rewrite Z.lor_comm, lor_shiftl_add by lia. change 65536 with (256 * 256). rewrite Z.rem_mul_r by lia. lia. }
  cbv zeta. unfold ENC_KEY_VALUE_SIZE. change (256 - 4) with 252. destruct (Z.ltb_spec max_len (vlen mod 65536)); [lia|]. rewrite orb_false_r. destruct ((vlen mod 65536 <=? 0) || (252 <? vlen mod 65536)) eqn:E; [done|].
  apply orb_false_iff in E as [E1%Z.leb_gt E2%Z.ltb_ge]. pose proof (Z.mod_le vlen 65536 ltac:(lia) ltac:(lia)). pose proof (place_range key) as Hp. destruct (wf_store _ Hw) as [Hl _].
  unfold mret, M_ret. do 3 f_equal. transitivity (masked (rot_key c) (masked (rot_key c) (take (Z.to_nat (vlen mod 65536)) value))); [|apply masked_twice]. f_equal.
  apply list_eq. intros k. rewrite lookup_window. destruct (decide (k < Z.to_nat (vlen mod 65536))%nat).
  - rewrite <- masked_take, lookup_take_lt by lia. rewrite <- (Nat2Z.id k) at 2. rewrite <- H3 by (unfold value_len; lia). f_equal. lia.
  - symmetry. apply lookup_ge_None_2. rewrite length_masked, length_take. lia.
Qed.

Fixpoint write_all (ws : list (list Z * list Z * Z)) : TZ unit := match ws with [] => mret tt | (k, v, n) :: ws => trustzone_secure_storage_write k v n;; write_all ws end.
Lemma write_all_keeps key value vlen ws c :
  tz_wf c -> holds_value key value vlen c ->
  Forall (fun '(k, v, n) => 16 <= Z.of_nat (length k) /\ n <= Z.of_nat (length v) /\ Forall is_u8 v /\ 256 <= Z.abs (place_of k - place_of key)) ws ->
  exists c', write_all ws c = Done (tt, c') /\ tz_wf c' /\ holds_value key value vlen c'.
Proof.
  revert c. induction ws as [|[[k v] n] ws IH]; intros c Hw Hh Hws; cbn [write_all]; [by exists c|]. apply Forall_cons in Hws as [(H1 & H2 & H3 & H4) Hws].
  erewrite bind_step by (by apply storage_write_run). apply IH; [|by apply write_keeps|done].
  destruct (runs_write true k v n (conj H1 (conj H2 H3)) c Hw) as (u & c1 & E & _ & Hw1 & _). rewrite storage_write_run in E by done. injection E as _ <-. done.
Qed.

(** A value of 1 to 252 bytes is read back, also after any number of writes under keys whose places are 256 bytes away; of a longer one nothing is given back, unless its length
    modulo 65536 is at most 252: then that many bytes of it are. *)
Theorem value_write_read key value vlen ws max_len c :
  tz_wf c -> 16 <= Z.of_nat (length key) -> 0 < vlen <= Z.of_nat (length value) -> Forall is_u8 value -> vlen mod 65536 <= max_len ->
  Forall (fun '(k, v, n) => 16 <= Z.of_nat (length k) /\ n <= Z.of_nat (length v) /\ Forall is_u8 v /\ 256 <= Z.abs (place_of k - place_of key)) ws ->
  exists c', (trustzone_secure_storage_write key value vlen;; write_all ws) c = Done (tt, c') /\
    (vlen <= 252 -> trustzone_secure_storage_read key max_len c' = Done ((vlen, take (Z.to_nat vlen) value), c')) /\
    (252 < vlen -> trustzone_secure_storage_read key max_len c' =
       Done (if (0 <? vlen mod 65536) && (vlen mod 65536 <=? 252) then (vlen mod 65536, take (Z.to_nat (vlen mod 65536)) value) else (0, []), c')).
Proof.
  intros Hw Hk Hv Hb Hm Hws. erewrite bind_step by (apply storage_write_run; done || lia).
  destruct (runs_write true key value vlen) with (c := c) as (u & c1 & E & _ & Hw1 & _); [by split; [|split; [lia|]]|done|]. rewrite storage_write_run in E by (done || lia). injection E as _ <-.
  destruct (write_all_keeps key value vlen ws _ Hw1 (write_holds key value vlen c Hw ltac:(lia)) Hws) as (c' & E & Hw' & Hh). exists c'. split; [done|].
  pose proof (read_held key value vlen max_len c' Hw' Hk Hv Hm Hh) as Er. split; intros Hlen; rewrite Er.
  - rewrite (Z.mod_small vlen) by lia. destruct (Z.leb_spec vlen 0); [lia|]. by destruct (Z.ltb_spec 252 vlen); [lia|].
  - by destruct (Z.leb_spec (vlen mod 65536) 0), (Z.ltb_spec 252 (vlen mod 65536)), (Z.ltb_spec 0 (vlen mod 65536)), (Z.leb_spec (vlen mod 65536) 252); try lia.
Qed.

(** ** Counters *)

Lemma counter_value_snoc bs b : is_u8 b -> 0 <= counter_value bs < 72057594037927936 -> counter_value (bs ++ [b]) = 256 * counter_value bs + b.
Proof.
  intros Hb Hv. unfold counter_value in *. rewrite foldl_snoc. unfold is_u8 in Hb. rewrite Z.shiftl_mul_pow2 by lia. change (2 ^ 8) with 256. rewrite u64_small by lia.
  rewrite <- (Z.shiftl_mul_pow2 _ 8) by lia. rewrite lor_shiftl_add by lia. lia.
Qed.
Lemma counter_value_range bs : (length bs <= 8)%nat -> Forall is_u8 bs -> 0 <= counter_value bs < 256 ^ Z.of_nat (length bs).
Proof.
  induction bs as [|b bs IH] using rev_ind; intros Hl Hb; [done|]. rewrite length_app in *. cbn [length] in *. apply Forall_app in Hb as [Hb1 Hb2]. rewrite Forall_singleton in Hb2. specialize (IH ltac:(lia) Hb1).
  assert (256 ^ Z.of_nat (length bs) <= 72057594037927936) by (change 72057594037927936 with (256 ^ 7); apply Z.pow_le_mono_r; lia). rewrite counter_value_snoc by (done || lia).
  replace (Z.of_nat (length bs + 1)) with (Z.succ (Z.of_nat (length bs))) by lia. rewrite Z.pow_succ_r by lia. unfold is_u8 in Hb2. lia.
Qed.
Lemma counter_value_bytes n v : (n <= 8)%nat -> counter_value (counter_bytes n v) = v mod 256 ^ Z.of_nat n.
Proof.
  revert v. induction n as [|n IH]; intros v Hn; cbn [counter_bytes]; [by rewrite Z.mod_1_r|].
  assert (256 ^ Z.of_nat n <= 72057594037927936) by (change 72057594037927936 with (256 ^ 7); apply Z.pow_le_mono_r; lia). pose proof (Z.mod_pos_bound (Z.shiftr v 8) (256 ^ Z.of_nat n) ltac:(lia)). specialize (IH (Z.shiftr v 8) ltac:(lia)).
  rewrite counter_value_snoc; rewrite ?IH; [|apply u8_range|lia]. rewrite u8_land_255, Z.shiftr_div_pow2 by lia. change (2 ^ 8) with 256.
  rewrite Nat2Z.inj_succ, Z.pow_succ_r by lia. rewrite Z.rem_mul_r by lia. lia.
Qed.

Definition counter (i : Z) (c : TrustZoneCore) : Z := counter_value (window (Z.to_nat (i * 8)) 8 (secure_kv_store c)).
Lemma counter_window c i : tz_wf c -> 0 <= i < 512 -> bytes_of_length 8 (window (Z.to_nat (i * 8)) 8 (secure_kv_store c)).
Proof. intros Hw Hi. destruct (wf_store _ Hw) as [H1 H2]. split; [apply length_window; lia|by apply Forall_window]. Qed.
Lemma counter_read_run i c : tz_wf c -> 0 <= i < 512 -> trustzone_nv_counter_read i c = Done (counter i c, c).
Proof.
  intros Hw Hi. unfold trustzone_nv_counter_read, NV_COUNTER_SIZE, SECURE_STORAGE_SIZE. cbv zeta. rewrite !is_int_true by lia. cbn [andb negb]. destruct (Z.ltb_spec 4096 (i * 8 + 8)); [lia|].
  rewrite bind_gets. unfold id, counter_at. by destruct (Z.ltb_spec (i * 8) 0); [lia|].
Qed.

(** A counter is a number of 64 bits in its eight bytes of the store, and an increment adds one to it, modulo 2^64, and leaves the others; but the priority of interrupt 8i+7 is stored in
    the last byte of counter i, so that one of the first 32 counters is set back by setting a priority. *)
Theorem nv_counters_correct i j c :
  tz_wf c -> 0 <= i < 512 -> 0 <= j < 512 -> j <> i ->
  exists v w c', trustzone_nv_counter_read i c = Done (v, c) /\ 0 <= v < 2 ^ 64 /\ trustzone_nv_counter_read j c = Done (w, c) /\ trustzone_nv_counter_increment i c = Done (tt, c') /\
    trustzone_nv_counter_read i c' = Done ((v + 1) mod 2 ^ 64, c') /\ trustzone_nv_counter_read j c' = Done (w, c') /\
    (i < 32 -> forall p, exists c2, trustzone_nvic_set_priority (8 * i + 7) p false c = Done (tt, c2) /\ trustzone_nv_counter_read i c2 = Done (v - v mod 256 + p mod 256, c2)).
Proof.
  intros Hw Hi Hj Hne. destruct (counter_window c i Hw Hi) as [Hbl Hb]. pose proof (counter_value_range (window (Z.to_nat (i * 8)) 8 (secure_kv_store c)) ltac:(lia) Hb) as Hr. rewrite Hbl in Hr. fold (counter i c) in Hr. destruct (wf_store _ Hw) as [Hsl Hsb].
  exists (counter i c), (counter j c), (with_store (splice (Z.to_nat (i * 8)) (counter_bytes 8 (u64 (counter i c + 1))) (secure_kv_store c)) c).
  assert (tz_wf (with_store (splice (Z.to_nat (i * 8)) (counter_bytes 8 (u64 (counter i c + 1))) (secure_kv_store c)) c)) as Hw'.
  { apply wf_with_store; [done|]. split; [rewrite length_splice; [done|rewrite length_counter_bytes; lia]|apply Forall_splice; [apply counter_bytes_u8|done]]. }
  split; [by apply counter_read_run|]. split; [lia|]. split; [by apply counter_read_run|]. split; [|split; [|split]].
  - unfold trustzone_nv_counter_increment, NV_COUNTER_SIZE, SECURE_STORAGE_SIZE. cbv zeta. rewrite !is_int_true by lia. cbn [andb negb]. destruct (Z.ltb_spec 4096 (i * 8 + 8)); [lia|].
    rewrite bind_gets. unfold id, counter_at. destruct (Z.ltb_spec (i * 8) 0); [lia|]. cbn [of_option]. rewrite bind_ret. rewrite poke_ok by (rewrite ?length_counter_bytes; lia). done.
  - rewrite counter_read_run by done. unfold counter at 1. cbn [with_store set_secure_kv_store secure_kv_store]. rewrite window_splice_in by (rewrite ?length_counter_bytes; lia).
    rewrite Nat.sub_diag. rewrite <- (length_counter_bytes 8 (u64 (counter i c + 1))) at 1. rewrite window_all, counter_value_bytes by lia. do 2 f_equal. apply Z.mod_small. change (256 ^ Z.of_nat 8) with (2 ^ 64). apply u64_range.
  - rewrite counter_read_run by done. unfold counter at 1. cbn [with_store set_secure_kv_store secure_kv_store]. by rewrite window_splice_out by (rewrite ?length_counter_bytes; lia).
  - intros H32 p. unfold trustzone_nvic_set_priority. rewrite bind_gets. cbn [andb]. destruct (Z.ltb_spec (8 * i + 7) 0); [lia|]. destruct (Z.leb_spec 256 (8 * i + 7)); [lia|]. cbn [orb].
    change (SECURE_STORAGE_SIZE / 4) with 1024. rewrite Z.mod_small by lia. rewrite poke_ok by (cbn [length]; lia). eexists. split; [reflexivity|].
    rewrite counter_read_run; [|apply wf_with_store; [done|]; split; [rewrite length_splice; [done|cbn [length]; lia]|apply Forall_splice; [repeat constructor; apply u8_range|done]]|done].
    do 2 f_equal. unfold counter. cbn [with_store set_secure_kv_store secure_kv_store]. set (st := secure_kv_store c).
    assert (exists b, is_u8 b /\ window (Z.to_nat (i * 8)) 8 st = window (Z.to_nat (i * 8)) 7 st ++ [b] /\
      window (Z.to_nat (i * 8)) 8 (splice (Z.to_nat (8 * i + 7)) [u8 (Z.land p 255)] st) = window (Z.to_nat (i * 8)) 7 st ++ [u8 (Z.land p 255)]) as (b & Hb8 & E1 & E2).
    { destruct (lookup_lt_is_Some_2 st (Z.to_nat (8 * i + 7))) as [b Eb]; [unfold st; lia|]. exists b. split; [rewrite Forall_lookup in Hsb; eauto|].
      split; apply list_eq; intros k; rewrite lookup_window; (destruct (decide (k < 7)%nat);
        [rewrite lookup_app_l by (rewrite length_window; unfold st; lia)|rewrite lookup_app_r by (rewrite length_window; unfold st; lia); rewrite length_window by (unfold st; lia)]).
      - rewrite lookup_window. by rewrite !decide_True by lia.
      - destruct (decide (k < 8)%nat); [|symmetry; apply lookup_ge_None_2; cbn; lia]. replace (k - 7)%nat with 0%nat by lia. cbn. rewrite <- Eb. f_equal. lia.
      - rewrite lookup_window. rewrite !decide_True by lia. rewrite lookup_splice by (unfold st; cbn [length]; lia). by rewrite decide_False by (cbn [length]; lia).
      - destruct (decide (k < 8)%nat); [|symmetry; apply lookup_ge_None_2; cbn; lia]. rewrite lookup_splice by (unfold st; cbn [length]; lia). rewrite decide_True by (cbn [length]; lia). f_equal. lia. }
    rewrite E1, E2. assert (bytes_of_length 7 (window (Z.to_nat (i * 8)) 7 st)) as [H7l H7] by (split; [apply length_window; unfold st; lia|by apply Forall_window]).
    pose proof (counter_value_range (window (Z.to_nat (i * 8)) 7 st) ltac:(lia) H7) as H7r. rewrite H7l in H7r. rewrite !counter_value_snoc by (try apply u8_range; done || lia). rewrite u8_land_255. unfold is_u8 in Hb8.
    replace ((256 * counter_value (window (Z.to_nat (i * 8)) 7 st) + b) mod 256) with b; [lia|]. rewrite Z.add_comm, Z.mul_comm, Z.mod_add by lia. by rewrite Z.mod_small.
Qed.

(** ** The root key *)

Definition derived_byte (k : Z) : Z := u8 (Z.lxor (Z.lxor 0x5C k) (u8 (k + Z.lxor 0x5C k)) * 0x3F).
Lemma at_overlay_fmap (f : Z -> Z) k i : 0 <= i < Z.of_nat (length k) -> at_ (f <$> overlay k (replicate 64 0)) i = f (at_ k i).
Proof.
  intros Hi. unfold at_ at 1. apply list_lookup_total_correct. rewrite list_lookup_fmap. unfold overlay. rewrite lookup_app_l by lia. rewrite (list_lookup_lookup_total_lt k) by lia. done.
Qed.
Lemma at_overlay_zero (f : Z -> Z) k i : Z.of_nat (length k) <= i < 64 -> at_ (f <$> overlay k (replicate 64 0)) i = f 0.
Proof.
  intros Hi. unfold at_. apply list_lookup_total_correct. rewrite list_lookup_fmap. unfold overlay. rewrite lookup_app_r by lia. rewrite drop_replicate, lookup_replicate_2 by lia. done.
Qed.
Lemma hmac_derived {S} key msg mlen (s : S) : bytes_of_length 32 key -> 0 <= mlen <= Z.of_nat (length msg) -> trustzone_hmac_sha256 key 32 msg mlen s = Done (derived_byte <$> key, s).
Proof.
  intros [Hk Hb] Hm. unfold trustzone_hmac_sha256. change (Z.min 32 64) with 32. erewrite bind_step by (apply loop_bytes_ok; lia). rewrite take_ge by lia. cbv zeta. erewrite bind_step by (apply memcpy_bytes_ok; case_tests).
  unfold mret, M_ret. do 2 f_equal. apply (list_at_eq 32); [by rewrite length_fmap, length_seqZ|by rewrite length_fmap|]. intros i Hi. rewrite at_seq by lia. rewrite at_overlay_fmap by lia.
  rewrite (Z.mod_small i 32), at_seq by lia. rewrite (Z.mod_small i 64), at_overlay_fmap by lia. unfold at_ at 2 3. rewrite !lookup_total_app_l by (rewrite length_fmap; unfold overlay; rewrite length_app, length_drop, length_replicate; lia).
  fold (at_ (Z.lxor 54 <$> overlay key (replicate 64 0)) i). fold (at_ (Z.lxor 54 <$> overlay key (replicate 64 0)) (i + 32)). rewrite at_overlay_fmap, at_overlay_zero by lia. rewrite Z.lxor_0_r.
  unfold at_ at 4. rewrite (list_lookup_total_correct (derived_byte <$> key) (Z.to_nat i) (derived_byte (at_ key i))) by (rewrite list_lookup_fmap, (list_lookup_lookup_total_lt key) by lia; done).
  unfold derived_byte. by rewrite (Z.lxor_comm 54), (Z.lxor_assoc _ 54 54), Z.lxor_nilpotent, Z.lxor_0_r.
Qed.

Definition underived (y : Z) : Z := default 0 (head (filter (fun k => derived_byte k = y) (seqZ 0 256))).
Lemma underived_derived k : is_u8 k -> underived (derived_byte k) = k.
Proof.
  intros Hk. assert (forallb (fun k => underived (derived_byte k) =? k) (seqZ 0 256) = true) as H by (vm_compute; reflexivity).
  by apply Z.eqb_eq, (forallb_seqZ _ _ _ H).
Qed.

(** A derived root key is made of the earlier root key alone, byte by byte: the seed has no part in it, and the earlier key is got back from it. *)
Theorem derive_ignores_seed seed n c :
  tz_wf c -> 0 <= n <= Z.of_nat (length seed) ->
  exists c', trustzone_derive_rot_key seed n c = Done (tt, c') /\ rot_key c' = derived_byte <$> rot_key c /\ rot_key c = underived <$> rot_key c' /\
    forall seed' n', 0 <= n' <= Z.of_nat (length seed') -> trustzone_derive_rot_key seed' n' c = Done (tt, c').
Proof.
  intros Hw Hn. assert (forall seed n, 0 <= n <= Z.of_nat (length seed) -> trustzone_derive_rot_key seed n c = Done (tt, set_rot_key (derived_byte <$> rot_key c) c)) as Hd.
  { clear seed n Hn. intros seed n Hn. unfold trustzone_derive_rot_key. cbv zeta. unfold PSA_KEY_MAX_SIZE. set (m := if n <? 32 then n else 32). assert (0 <= m <= 32 /\ m <= n) as [Hm Hmn] by (unfold m; case_tests).
    erewrite bind_step by (apply memcpy_bytes_ok; lia). rewrite bind_gets. set (msg := overlay _ _).
    assert (length msg = 64%nat) as Hl by (unfold msg, overlay; rewrite length_app, length_drop, !length_app, length_take, length_fmap, length_seqZ, length_replicate; lia).
    by erewrite bind_step by (apply hmac_derived; [apply Hw|lia]). }
  exists (set_rot_key (derived_byte <$> rot_key c) c). split; [by apply Hd|]. split; [done|]. split; [|done]. cbn [set_rot_key rot_key]. destruct (wf_rot _ Hw) as [_ Hb].
  rewrite <- list_fmap_compose. rewrite <- (list_fmap_id (rot_key c)) at 1. apply list_fmap_ext. intros i x Hx. symmetry. apply underived_derived. rewrite Forall_lookup in Hb. eauto.
Qed.

(** ** Isolated partitions *)

Definition covers (r : SAURegion) (addr : Z) : bool := enabled r && (base_addr r <=? addr) && (addr <=? limit_addr r).
Definition region_covers (rs : list SAURegion) (i : nat) (addr : Z) : bool := match rs !! i with Some r => covers r addr | None => false end.
Lemma sau_loop_beyond n rs addr : (forall i r, (n <= i)%nat -> rs !! i = Some r -> enabled r = false) -> sau_loop (take n rs) addr = sau_loop rs addr.
Proof.
  revert n. induction rs as [|r rs IH]; intros n H; [by rewrite take_nil|]. destruct n as [|n]; cbn [take sau_loop].
  - rewrite (H 0%nat r) by (done || lia). cbn [andb]. rewrite <- (IH 0%nat); [done|]. intros i x _ Hx. by apply (H (S i) x); [lia|].
  - rewrite IH; [done|]. intros i x Hi Hx. by apply (H (S i) x); [lia|].
Qed.
Lemma sau_loop_hit rs p r addr :
  (p < length rs)%nat -> (forall j, (j < p)%nat -> region_covers rs j addr = false) -> covers r addr = true -> sau_loop (<[p := r]> rs) addr = Some (is_secure_attr (attr r)).
Proof.
  revert p. induction rs as [|x rs IH]; intros p Hp Hj Hr; [cbn in Hp; lia|]. destruct p as [|p]; cbn [insert list_insert sau_loop].
  - unfold covers in Hr. by rewrite Hr.
  - pose proof (Hj 0%nat ltac:(lia)) as H0. cbn in H0. unfold covers in H0. rewrite H0. apply IH; [cbn in Hp; lia| |done]. intros j Hlt. apply (Hj (S j)). lia.
Qed.
Lemma sau_loop_miss rs p r addr : region_covers rs p addr = false -> covers r addr = false -> sau_loop (<[p := r]> rs) addr = sau_loop rs addr.
Proof.
  revert p. induction rs as [|x rs IH]; intros p Hp Hr; [done|]. destruct p as [|p]; cbn [insert list_insert sau_loop].
  - unfold region_covers in Hp. cbn in Hp. unfold covers in Hp, Hr. by rewrite Hp, Hr.
  - by rewrite IH.
Qed.
Lemma is_secure_run addr c : tz_wf c -> sau_enabled (sau c) = true ->
  trustzone_is_secure_addr addr c = match sau_loop (regions (sau c)) addr with Some b => Done (b, c) | None => idau_loop (Z.to_nat (idau_count (idau c))) 0 (idau_regions (idau c)) addr c end.
Proof.
  intros Hw He. unfold trustzone_is_secure_addr. rewrite bind_gets. unfold id. rewrite He. cbn [negb]. rewrite sau_loop_beyond; [by destruct (sau_loop _ addr)|].
  intros i r Hi Hr. apply (wf_beyond _ Hw i r); [|done]. destruct (wf_sau _ Hw). lia.
Qed.
Lemma idau_loop_state n i rs addr c c' b : idau_loop n i rs addr c = Done (b, c) -> idau_loop n i rs addr c' = Done (b, c').
Proof.
  revert i. induction n as [|n IH]; intros i; cbn [idau_loop]; [by intros [= <-]|]. destruct (rs !! Z.to_nat i); cbn [of_option]; [rewrite !bind_ret|done]. destruct (_ && _); [by intros [= <-]|apply IH].
Qed.

(** Isolating one of the eight partitions makes its 64 KB secure, as far as no region of a lower number covers them, and decides nothing about other addresses; but it happens once:
    from then on isolating does nothing, and a partition number of eight or more counts as isolated without any region. *)
Theorem isolate_protects p c :
  tz_wf c -> sau_enabled (sau c) = true -> tfm_state c <> TF_M_ISOLATED -> partition_count c < 8 -> 0 <= p < 32768 ->
  exists c', trustzone_isolate_partition p c = Done (tt, c') /\ tfm_state c' = TF_M_ISOLATED /\ partition_count c' = partition_count c + 1 /\
    (forall addr, p < 8 -> 0x20000000 + p * 0x10000 <= addr < 0x20000000 + (p + 1) * 0x10000 -> (forall j, (j < Z.to_nat p)%nat -> region_covers (regions (sau c)) j addr = false) ->
       trustzone_is_secure_addr addr c' = Done (true, c')) /\
    (forall addr, p < 8 -> ~ 0x20000000 + p * 0x10000 <= addr < 0x20000000 + (p + 1) * 0x10000 -> region_covers (regions (sau c)) (Z.to_nat p) addr = false ->
       exists b, trustzone_is_secure_addr addr c = Done (b, c) /\ trustzone_is_secure_addr addr c' = Done (b, c')) /\
    (8 <= p -> sau c' = sau c) /\ (forall q, trustzone_isolate_partition q c' = Done (tt, c')).
Proof.
  intros Hw He Hs Hpc Hp.
  assert (forall c', tfm_state c' = TF_M_ISOLATED -> forall q, trustzone_isolate_partition q c' = Done (tt, c')) as Honce.
  { intros c' E q. unfold trustzone_isolate_partition. rewrite bind_gets. unfold id, in_tfm. rewrite E. rewrite bool_decide_true by done. by destruct (_ <=? _). }
  destruct (runs_isolate true p) with (c := c) as (u & c' & E & _ & Hw' & _); [cbn; lia|done|]. pose proof E as E0.
  unfold trustzone_isolate_partition in E. rewrite bind_gets in E. unfold id, TF_M_PARTITION_MAX, in_tfm in E. destruct (Z.leb_spec 8 (partition_count c)); [lia|]. rewrite bool_decide_false in E by done.
  rewrite is_int_true in E by lia. cbn [negb] in E. cbv zeta in E. rewrite (u32_small (p * 65536)), (u32_small (536870912 + p * 65536)), u32_small in E by lia. unfold trustzone_sau_configure, SAU_REGION_COUNT in E.
  destruct u. destruct (Z.ltb_spec p 0); [lia|]. cbn [orb] in E. destruct (Z.leb_spec 8 p) as [H8|H8].
  { rewrite bind_ret in E. injection E as E. exists c'. split; [done|]. subst c'. split; [done|]. split; [done|]. split; [lia|]. split; [lia|]. split; [done|]. by apply Honce. }
  rewrite bind_modify in E. cbv zeta in E. injection E as E. exists c'. split; [done|]. set (r := SauRegion _ _ _ _) in E.
  assert (regions (sau c') = <[Z.to_nat p := r]> (regions (sau c)) /\ sau_enabled (sau c') = true /\ idau c' = idau c) as (Er & Ee & Ei).
  { subst c'. cbn [set_tfm_state set_partition_count set_sau sau idau set_regions region_count]. destruct (_ <=? p); done. }
  assert (forall addr, covers r addr = true <-> 0x20000000 + p * 0x10000 <= addr < 0x20000000 + (p + 1) * 0x10000) as Hr.
  { intros addr. unfold covers, r. cbn [enabled base_addr limit_addr andb]. rewrite andb_true_iff, !Z.leb_le. lia. }
  destruct (wf_sau _ Hw) as [Hl _]. split; [by subst c'|]. split; [by subst c'|]. split; [|split; [|split; [lia|apply Honce; by subst c']]].
  - intros addr _ Ha Hj. rewrite is_secure_run by done. rewrite Er. rewrite sau_loop_hit; [done|lia|done|by apply Hr].
  - intros addr _ Ha Hj. rewrite !is_secure_run by done. rewrite Er, Ei. rewrite sau_loop_miss; [|done|apply not_true_iff_false; by rewrite Hr].
    destruct (sau_loop (regions (sau c)) addr) as [b|]; [by exists b|]. destruct (wf_idau _ Hw) as [Hil Hic]. destruct (idau_loop_ok (Z.to_nat (idau_count (idau c))) 0 (idau_regions (idau c)) addr c) as [b Eb]; [lia|lia|].
    exists b. split; [done|]. by apply idau_loop_state with c.
Qed.

Definition idau_covers (r : IDAURegion) (addr : Z) : bool := (idau_base r <=? addr) && (addr <? idau_base r +32 idau_size r).
Lemma idau_loop_overrun n i rs addr c :
  0 <= i <= Z.of_nat (length rs) -> Z.of_nat (length rs) < i + Z.of_nat n -> Forall (fun r => idau_covers r addr = false) rs -> idau_loop n i rs addr c = UB.
Proof.
  revert i. induction n as [|n IH]; intros i Hi Hn Hr; [lia|]. cbn [idau_loop]. destruct (rs !! Z.to_nat i) as [r|] eqn:E; [|done]. cbn [of_option]. rewrite bind_ret.
  pose proof Hr as Hr'. rewrite Forall_lookup in Hr'. pose proof (Hr' _ _ E) as Hc. unfold idau_covers in Hc. rewrite Hc. apply lookup_lt_Some in E. apply IH; [lia|lia|done].
Qed.
(** A protection region of number four to seven is put in place of one of the first four, but counted with its number: the attribution of an address that no region covers then
    reads behind the array. *)
Theorem mpu_overrun r base limit ro addr c :
  tz_wf c -> sau_enabled (sau c) = true -> tfm_state c = TF_M_RUNNING -> 4 <= r < 8 ->
  exists c', trustzone_mpu_configure_region r base limit ro c = Done (tt, c') /\
    (sau_loop (regions (sau c)) addr = None -> Forall (fun x => idau_covers x addr = false) (idau_regions (idau c')) -> trustzone_is_secure_addr addr c' = UB).
Proof.
  intros Hw He Hs Hr. unfold trustzone_mpu_configure_region. destruct (Z.ltb_spec r 0); [lia|]. destruct (Z.leb_spec 8 r); [lia|]. cbn [orb]. rewrite bind_gets. unfold id, in_tfm. rewrite Hs. cbn [negb].
  rewrite (bool_decide_true (TF_M_RUNNING = TF_M_RUNNING)) by done. cbn [negb andb]. destruct (wf_idau _ Hw) as [Hl Hc]. destruct (Z.leb_spec (idau_count (idau c)) r); [|lia].
  eexists. split; [reflexivity|]. intros Hn Hf. unfold trustzone_is_secure_addr. rewrite bind_gets. unfold id. set (c' := set_idau _ c) in *. change (sau c') with (sau c). rewrite He. cbn [negb].
  rewrite sau_loop_beyond, Hn; [|intros i x Hi Hx; apply (wf_beyond _ Hw i x); [destruct (wf_sau _ Hw); lia|done]].
  apply idau_loop_overrun; [unfold c'; cbn; rewrite length_insert; lia| |done]. unfold c'. cbn [set_idau idau idau_count idau_regions]. rewrite length_insert.
  destruct (Z.leb_spec (idau_count (idau c)) r); lia.
Qed.

(** ** Concrete runs *)

Definition demo_tz : TrustZoneCore :=
  Core SEC_WORLD_SECURE (Sau (replicate 8 (SauRegion 0 0 SAU_NSEC false)) 0 true) (Idau (replicate 4 (IdauRegion 0 0 false)) 0) (replicate 16 (SecFunction 0 NULL false)) 0
    TF_M_RUNNING PSA_LIFECYCLE_SECURED ((fun i => u8 (0xB0 + i * 3)) <$> seqZ 0 PSA_KEY_MAX_SIZE) (replicate 4096 0) false 0.
Lemma demo_tz_runs c : (trustzone_init;; trustzone_tfm_init;; trustzone_tfm_boot) c = Done (tt, demo_tz).
Proof. reflexivity. Qed.
Lemma demo_tz_wf : tz_wf demo_tz.
Proof.
  constructor.
  - split; [reflexivity|split; vm_compute; congruence].
  - intros i r _ Hr. cbn [demo_tz sau regions] in Hr. by apply lookup_replicate in Hr as [-> _].
  - split; [reflexivity|split; vm_compute; congruence].
  - split; [reflexivity|split; vm_compute; congruence].
  - apply (bytes_u8_map 32).
  - split; [apply length_replicate|by apply Forall_replicate].
  - split; vm_compute; congruence.
  - split; reflexivity.
Qed.
Lemma tz_calls_correct_witness :
  exists c', run_calls (fun _ => undefined) [TRegister 7 1 true; TToNonsecure; TSgCall 7; TIsolate 2; TIncrement 3; TIsSecure 5; TSetLifecycle PSA_LIFECYCLE_UNKNOWN] demo_tz = Done (tt, c') /\
    current_world c' = SEC_WORLD_SECURE /\ 3 <= lc_int (lifecycle c').
Proof.
  destruct (tz_calls_correct (fun _ => undefined) [TRegister 7 1 true; TToNonsecure; TSgCall 7; TIsolate 2; TIncrement 3; TIsSecure 5; TSetLifecycle PSA_LIFECYCLE_UNKNOWN] demo_tz)
    as (c' & E & _ & Hs & _ & Hl); [exact demo_tz_wf|repeat constructor; vm_compute; congruence|].
  exists c'. split; [exact E|]. split; [exact Hs|]. apply Hl. repeat constructor.
Defined.
Lemma value_write_read_witness :
  exists c', (trustzone_secure_storage_write (replicate 16 1) [5; 6; 7] 3;; write_all [(replicate 16 2, [9], 1)]) demo_tz = Done (tt, c') /\
    trustzone_secure_storage_read (replicate 16 1) 10 c' = Done ((3, [5; 6; 7]), c').
Proof.
  destruct (value_write_read (replicate 16 1) [5; 6; 7] 3 [(replicate 16 2, [9], 1)] 10 demo_tz) as (c' & E & H & _);
    [exact demo_tz_wf|vm_compute; congruence|split; vm_compute; congruence|repeat constructor; vm_compute; congruence|vm_compute; congruence|repeat constructor; vm_compute; congruence|].
  exists c'. split; [exact E|]. apply H. vm_compute. congruence.
Defined.
Lemma nv_counters_correct_witness : exists c', trustzone_nv_counter_increment 3 demo_tz = Done (tt, c') /\ exists v, trustzone_nv_counter_read 3 c' = Done ((v + 1) mod 2 ^ 64, c').
Proof.
  destruct (nv_counters_correct 3 4 demo_tz) as (v & w & c' & _ & _ & _ & E & H & _); [exact demo_tz_wf|split; vm_compute; congruence|split; vm_compute; congruence|discriminate|].
  exists c'. split; [exact E|]. exists v. exact H.
Defined.
Lemma derive_ignores_seed_witness : exists c', trustzone_derive_rot_key [1; 2] 2 demo_tz = Done (tt, c') /\ trustzone_derive_rot_key [] 0 demo_tz = Done (tt, c').
Proof.
  destruct (derive_ignores_seed [1; 2] 2 demo_tz) as (c' & E & _ & _ & H); [exact demo_tz_wf|split; vm_compute; congruence|].
  exists c'. split; [exact E|]. apply H. split; vm_compute; congruence.
Defined.
Lemma isolate_protects_witness : exists c', trustzone_isolate_partition 2 demo_tz = Done (tt, c') /\ trustzone_is_secure_addr 0x20020005 c' = Done (true, c').
Proof.
  destruct (isolate_protects 2 demo_tz) as (c' & E & _ & _ & H & _); [exact demo_tz_wf|reflexivity|vm_compute; congruence|vm_compute; congruence|split; vm_compute; congruence|].
  exists c'. split; [exact E|]. apply H; [vm_compute; congruence|split; vm_compute; congruence|]. intros j Hj. destruct j as [|[|j]]; [reflexivity|reflexivity|]. change (Z.to_nat 2) with 2%nat in Hj. lia.
Defined.
Lemma mpu_overrun_witness : exists c', trustzone_mpu_configure_region 5 100 200 false demo_tz = Done (tt, c') /\ trustzone_is_secure_addr 7 c' = UB.
Proof.
  destruct (mpu_overrun 5 100 200 false 7 demo_tz) as (c' & E & H); [exact demo_tz_wf|reflexivity|reflexivity|split; vm_compute; congruence|].
  exists c'. split; [exact E|]. apply H; [reflexivity|]. vm_compute in E. injection E as <-. repeat constructor.
Defined.
