(* ===== verification/Aes128.v ===== *)
(** * The block cipher of edge_crypto.c (mini-edge-security/src/edge_crypto.c)

    The functions of AES-128 as the source writes them, on lists of sixteen bytes, and what FIPS 197 says: arithmetic in GF(2^8), the state as a matrix by columns. *)
From S2P Require Import Prelude ByteMem.

(** ** The source *)

Definition SBOX : list Z := [
  0x63; 0x7C; 0x77; 0x7B; 0xF2; 0x6B; 0x6F; 0xC5; 0x30; 0x01; 0x67; 0x2B; 0xFE; 0xD7; 0xAB; 0x76;
  0xCA; 0x82; 0xC9; 0x7D; 0xFA; 0x59; 0x47; 0xF0; 0xAD; 0xD4; 0xA2; 0xAF; 0x9C; 0xA4; 0x72; 0xC0;
  0xB7; 0xFD; 0x93; 0x26; 0x36; 0x3F; 0xF7; 0xCC; 0x34; 0xA5; 0xE5; 0xF1; 0x71; 0xD8; 0x31; 0x15;
  0x04; 0xC7; 0x23; 0xC3; 0x18; 0x96; 0x05; 0x9A; 0x07; 0x12; 0x80; 0xE2; 0xEB; 0x27; 0xB2; 0x75;
  0x09; 0x83; 0x2C; 0x1A; 0x1B; 0x6E; 0x5A; 0xA0; 0x52; 0x3B; 0xD6; 0xB3; 0x29; 0xE3; 0x2F; 0x84;
  0x53; 0xD1; 0x00; 0xED; 0x20; 0xFC; 0xB1; 0x5B; 0x6A; 0xCB; 0xBE; 0x39; 0x4A; 0x4C; 0x58; 0xCF;
  0xD0; 0xEF; 0xAA; 0xFB; 0x43; 0x4D; 0x33; 0x85; 0x45; 0xF9; 0x02; 0x7F; 0x50; 0x3C; 0x9F; 0xA8;
  0x51; 0xA3; 0x40; 0x8F; 0x92; 0x9D; 0x38; 0xF5; 0xBC; 0xB6; 0xDA; 0x21; 0x10; 0xFF; 0xF3; 0xD2;
  0xCD; 0x0C; 0x13; 0xEC; 0x5F; 0x97; 0x44; 0x17; 0xC4; 0xA7; 0x7E; 0x3D; 0x64; 0x5D; 0x19; 0x73;
  0x60; 0x81; 0x4F; 0xDC; 0x22; 0x2A; 0x90; 0x88; 0x46; 0xEE; 0xB8; 0x14; 0xDE; 0x5E; 0x0B; 0xDB;
  0xE0; 0x32; 0x3A; 0x0A; 0x49; 0x06; 0x24; 0x5C; 0xC2; 0xD3; 0xAC; 0x62; 0x91; 0x95; 0xE4; 0x79;
  0xE7; 0xC8; 0x37; 0x6D; 0x8D; 0xD5; 0x4E; 0xA9; 0x6C; 0x56; 0xF4; 0xEA; 0x65; 0x7A; 0xAE; 0x08;
  0xBA; 0x78; 0x25; 0x2E; 0x1C; 0xA6; 0xB4; 0xC6; 0xE8; 0xDD; 0x74; 0x1F; 0x4B; 0xBD; 0x8B; 0x8A;
  0x70; 0x3E; 0xB5; 0x66; 0x48; 0x03; 0xF6; 0x0E; 0x61; 0x35; 0x57; 0xB9; 0x86; 0xC1; 0x1D; 0x9E;
  0xE1; 0xF8; 0x98; 0x11; 0x69; 0xD9; 0x8E; 0x94; 0x9B; 0x1E; 0x87; 0xE9; 0xCE; 0x55; 0x28; 0xDF;
  0x8C; 0xA1; 0x89; 0x0D; 0xBF; 0xE6; 0x42; 0x68; 0x41; 0x99; 0x2D; 0x0F; 0xB0; 0x54; 0xBB; 0x16].
Definition gm2 (a : Z) : Z := if truthy (Z.land a 0x80) then u8 (Z.lxor (Z.shiftl a 1) 0x1B) else u8 (Z.shiftl a 1).
Definition gm3 (a : Z) : Z := Z.lxor (gm2 a) a.
(** [s[i] = v]. *)
Definition put (i v : Z) (s : list Z) : list Z := <[Z.to_nat i := v]> s.
Definition aes_sb (s : list Z) : list Z := at_ SBOX <$> s.
Definition aes_sr (s : list Z) : list Z :=
  let t := at_ s 1 in let s := put 1 (at_ s 5) s in let s := put 5 (at_ s 9) s in let s := put 9 (at_ s 13) s in let s := put 13 t s in
  let t := at_ s 2 in let s := put 2 (at_ s 10) s in let s := put 10 t s in
  let t := at_ s 6 in let s := put 6 (at_ s 14) s in let s := put 14 t s in
  let t := at_ s 3 in let s := put 3 (at_ s 15) s in let s := put 15 (at_ s 11) s in let s := put 11 (at_ s 7) s in put 7 t s.
Definition mc_column (s : list Z) (c : Z) : list Z :=
  let i := c * 4 in
  let a := at_ s i in let b := at_ s (i + 1) in let cc := at_ s (i + 2) in let d := at_ s (i + 3) in
  let s := put i (Z.lxor (Z.lxor (Z.lxor (gm2 a) (gm3 b)) cc) d) s in
  let s := put (i + 1) (Z.lxor (Z.lxor (Z.lxor a (gm2 b)) (gm3 cc)) d) s in
  let s := put (i + 2) (Z.lxor (Z.lxor (Z.lxor a b) (gm2 cc)) (gm3 d)) s in
  put (i + 3) (Z.lxor (Z.lxor (Z.lxor (gm3 a) b) cc) (gm2 d)) s.
Definition aes_mc (s : list Z) : list Z := foldl mc_column s [0; 1; 2; 3].
Definition aes_ark (s rk : list Z) : list Z := zip_with Z.lxor s rk.

Definition rc : list Z := [0x01; 0x02; 0x04; 0x08; 0x10; 0x20; 0x40; 0x80; 0x1B; 0x36].
(** The sixteen bytes at [c] from those at [p]. *)
Definition next_key (p : list Z) (r : Z) : list Z :=
  foldl (fun c j => c ++ [Z.lxor (at_ p j) (at_ c (j - 4))])
    [Z.lxor (Z.lxor (at_ p 0) (at_ SBOX (at_ p 13))) r; Z.lxor (at_ p 1) (at_ SBOX (at_ p 14)); Z.lxor (at_ p 2) (at_ SBOX (at_ p 15)); Z.lxor (at_ p 3) (at_ SBOX (at_ p 12))]
    (seqZ 4 12).
(** The round keys [rk + 16 * i], in order. *)
Fixpoint round_keys (p : list Z) (rs : list Z) : list (list Z) :=
  match rs with [] => [p] | r :: rs => p :: round_keys (next_key p r) rs end.
Definition aes_ke128 (key : list Z) : list Z := concat (round_keys (take 16 key) rc).
Definition aes_enc (key inp : list Z) : list Z :=
  let rk := aes_ke128 key in
  let s := aes_ark (take 16 inp) (window 0 16 rk) in
  let s := foldl (fun s r => aes_ark (aes_mc (aes_sr (aes_sb s))) (window (Z.to_nat (r * 16)) 16 rk)) s (seqZ 1 9) in
  aes_ark (aes_sr (aes_sb s)) (window 160 16 rk).

(** ** FIPS 197 *)

(** The product in GF(2)[x] modulo x^8 + x^4 + x^3 + x + 1. *)
Definition xtime (a : Z) : Z := if Z.testbit a 7 then Z.lxor (2 * a) 0x11B else 2 * a.
Fixpoint gmul_bits (n : nat) (a b : Z) : Z :=
  match n with O => 0 | S n => Z.lxor (if Z.odd b then a else 0) (gmul_bits n (xtime a) (Z.div2 b)) end.
Definition gmul (a b : Z) : Z := gmul_bits 8 a b.
Definition ginv (a : Z) : Z := Pos.iter (gmul a) 1 254.
Definition bit (x i : Z) : Z := Z.b2z (Z.testbit x (i mod 8)).
(** The affine transformation (5.1). *)
Definition sbox (x : Z) : Z :=
  let b := ginv x in foldr (fun i acc => 2 * acc + Z.lxor (Z.lxor (Z.lxor (Z.lxor (Z.lxor (bit b i) (bit b (i + 4))) (bit b (i + 5))) (bit b (i + 6))) (bit b (i + 7))) (bit 0x63 i)) 0 (seqZ 0 8).

(** A state: the byte in row [r] and column [c]. *)
Definition state : Type := Z -> Z -> Z.
Definition of_bytes (l : list Z) : state := fun r c => at_ l (r + 4 * c).
Definition to_bytes (s : state) : list Z := (fun i => s (i mod 4) (i / 4)) <$> seqZ 0 16.
Definition SubBytes (s : state) : state := fun r c => sbox (s r c).
Definition ShiftRows (s : state) : state := fun r c => s r ((c + r) mod 4).
Definition matrix (r j : Z) : Z := at_ [2; 3; 1; 1] ((j - r) mod 4).
Definition MixColumns (s : state) : state := fun r c =>
  Z.lxor (Z.lxor (Z.lxor (gmul (s 0 c) (matrix r 0)) (gmul (s 1 c) (matrix r 1))) (gmul (s 2 c) (matrix r 2))) (gmul (s 3 c) (matrix r 3)).
Definition AddRoundKey (w : nat -> list Z) (n : nat) (s : state) : state := fun r c => Z.lxor (s r c) (at_ (w (4 * n + Z.to_nat c)%nat) r).

Definition xor_word (a b : list Z) : list Z := zip_with Z.lxor a b.
Definition RotWord (a : list Z) : list Z := match a with x :: l => l ++ [x] | [] => [] end.
Definition Rcon (i : nat) : list Z := [Nat.iter (i - 1) xtime 1; 0; 0; 0].
(** The words of the key schedule, last first: [n] more of them. *)
Fixpoint expand (ws : list (list Z)) (n : nat) : list (list Z) :=
  match n with
  | O => ws
  | S n =>
      let i := length ws in
      let temp := nth 0 ws [] in
      let temp := if (i mod 4 =? 0)%nat then xor_word (sbox <$> RotWord temp) (Rcon (i / 4)) else temp in
      expand (xor_word (nth 3 ws []) temp :: ws) n
  end.
Definition KeyExpansion (key : list Z) : nat -> list Z :=
  let ws := reverse (expand (reverse (split_fields [4; 4; 4; 4]%nat key)) 40) in fun i => nth i ws [].
Definition cipher_state (inp : list Z) (w : nat -> list Z) : state :=
  let s := AddRoundKey w 0 (of_bytes inp) in
  let s := foldl (fun s n => AddRoundKey w n (MixColumns (ShiftRows (SubBytes s)))) s (seq 1 9) in
  AddRoundKey w 10 (ShiftRows (SubBytes s)).
Definition Cipher (inp : list Z) (w : nat -> list Z) : list Z := to_bytes (cipher_state inp w).

(** ** The source computes FIPS 197 *)

Lemma byte_check (f g : Z -> Z) : forallb (fun x => f x =? g x) (seqZ 0 256) = true -> forall x, is_u8 x -> f x = g x.
Proof. intros H x Hx. apply Z.eqb_eq. by apply (forallb_seqZ (fun x => f x =? g x) 0 256 H). Qed.
Lemma SBOX_sbox x : is_u8 x -> at_ SBOX x = sbox x.
Proof. revert x. apply byte_check. vm_compute. reflexivity. Qed.
Lemma gm2_gmul x : is_u8 x -> gm2 x = gmul x 2.
Proof. revert x. apply byte_check. vm_compute. reflexivity. Qed.
Lemma gm3_gmul x : is_u8 x -> gm3 x = gmul x 3.
Proof. revert x. apply byte_check. vm_compute. reflexivity. Qed.
Lemma gmul_1 x : is_u8 x -> x = gmul x 1.
Proof. revert x. apply byte_check. vm_compute. reflexivity. Qed.
Lemma gm2_u8 x : is_u8 (gm2 x).
Proof. unfold gm2. destruct (truthy _); apply u8_range. Qed.
Lemma gm3_u8 x : is_u8 x -> is_u8 (gm3 x).
Proof. intros. apply lxor_u8; [apply gm2_u8|done]. Qed.
Lemma SBOX_u8 x : is_u8 x -> is_u8 (at_ SBOX x).
Proof. intros Hx. apply (at_u8 256); [|exact Hx]. split; [done|]. apply (bool_decide_eq_true_1 _). vm_compute. reflexivity. Qed.
#[local] Hint Resolve lxor_u8 gm2_u8 gm3_u8 SBOX_u8 : bytes.

(** Sixteen bytes by name. *)
Ltac sixteen l := do 16 (destruct l as [|? l]; [done|]); destruct l; [|done].

Definition rep (l : list Z) (s : state) : Prop := bytes_of_length 16 l /\ forall r c, 0 <= r < 4 -> 0 <= c < 4 -> at_ l (r + 4 * c) = s r c.

Lemma four_cases i : 0 <= i < 4 -> i = 0 \/ i = 1 \/ i = 2 \/ i = 3.
Proof. lia. Qed.
Ltac rows_columns := intros r c Hr Hc; apply four_cases in Hr as [->|[->|[->| ->]]]; apply four_cases in Hc as [->|[->|[->| ->]]].
Ltac bytes_of H := repeat (apply Forall_cons in H as [?Hb H]).

Lemma rep_of_bytes l : bytes_of_length 16 l -> rep l (of_bytes l).
Proof. done. Qed.
Lemma rep_to_bytes l s : rep l s -> to_bytes s = l.
Proof.
  intros [[Hl _] H]. apply (list_at_eq 16); [by unfold to_bytes; rewrite length_fmap, length_seqZ|done|]. intros i Hi. unfold to_bytes. rewrite at_seq by lia.
  rewrite <- H by (Z.div_mod_to_equations; lia). f_equal. Z.div_mod_to_equations. lia.
Qed.
Lemma rep_sb l s : rep l s -> rep (aes_sb l) (SubBytes s).
Proof.
  intros [[Hl Hb] H]. split; [split|].
  - unfold aes_sb. by rewrite length_fmap.
  - unfold aes_sb. apply Forall_fmap. eapply Forall_impl; [exact Hb|]. intros x Hx. by apply SBOX_u8.
  - intros r c Hr Hc. unfold SubBytes. rewrite <- H by done. pose proof (at_u8 16 l (r + 4 * c) (conj Hl Hb) ltac:(lia)) as Hx.
    rewrite <- SBOX_sbox by done. unfold aes_sb. unfold at_ at 1. rewrite list_lookup_total_alt, list_lookup_fmap, (list_lookup_lookup_total_lt l) by lia. done.
Qed.
Lemma rep_sr l s : rep l s -> rep (aes_sr l) (ShiftRows s).
Proof.
  intros [[Hl Hb] H]. sixteen l. bytes_of Hb. split; [split; [done|]|].
  - cbn. repeat (constructor; [assumption|]). constructor.
  - rows_columns; unfold ShiftRows; match goal with |- context [?a mod 4] => let v := eval vm_compute in (a mod 4) in change (a mod 4) with v end; rewrite <- H by lia; reflexivity.
Qed.
Lemma rep_mc l s : rep l s -> rep (aes_mc l) (MixColumns s).
Proof.
  intros [[Hl Hb] H]. sixteen l. bytes_of Hb. split; [split; [done|]|].
  - cbn -[gm2 gm3 Z.lxor]. repeat (constructor; [eauto 10 with bytes|]). constructor.
  - rows_columns; unfold MixColumns; rewrite <- !H by lia; cbv -[gm2 gm3 Z.lxor gmul]; rewrite ?gm2_gmul, ?gm3_gmul by assumption;
      repeat match goal with |- context [gmul ?x 1] => rewrite <- (gmul_1 x) by assumption end; reflexivity.
Qed.
Lemma rep_ark l s k (w : nat -> list Z) n : rep l s -> bytes_of_length 16 k -> (forall r c, 0 <= r < 4 -> 0 <= c < 4 -> at_ k (r + 4 * c) = at_ (w (4 * n + Z.to_nat c)%nat) r) -> rep (aes_ark l k) (AddRoundKey w n s).
Proof.
  intros [[Hl Hb] H] [Hk Hkb] Hw. split; [split|].
  - unfold aes_ark. rewrite length_zip_with. lia.
  - unfold aes_ark. apply Forall_zip_with_fst with is_u8; [done|]. eapply Forall_impl; [exact Hkb|]. intros x Hx y Hy. by apply lxor_u8.
  - intros r c Hr Hc. unfold AddRoundKey. rewrite <- H, <- Hw by done. unfold aes_ark, at_.
    rewrite !list_lookup_total_alt, lookup_zip_with, (list_lookup_lookup_total_lt l), (list_lookup_lookup_total_lt k) by lia. done.
Qed.
(** *** The key schedule *)

Definition words (p : list Z) : list (list Z) := split_fields [4; 4; 4; 4]%nat p.
Lemma expand_add ws m n : expand ws (m + n) = expand (expand ws m) n.
Proof. revert ws. induction m as [|m IH]; intros ws; [done|]. cbn [Nat.add expand]. apply IH. Qed.
Lemma expand_S ws n : expand ws (S n) =
  expand (xor_word (nth 3 ws []) (if (length ws mod 4 =? 0)%nat then xor_word (sbox <$> RotWord (nth 0 ws [])) (Rcon (length ws / 4)) else nth 0 ws []) :: ws) n.
Proof. done. Qed.
(** The bytes of the next round key, the table abstracted. *)
Ltac open_next_key := unfold next_key; generalize dependent (at_ SBOX); intros T; intros; cbv -[Z.lxor is_u8].
Lemma next_key_bytes p r : bytes_of_length 16 p -> is_u8 r -> bytes_of_length 16 (next_key p r).
Proof.
  intros [Hl Hb] Hr. sixteen p. bytes_of Hb. pose proof SBOX_u8 as HT. split; [done|]. open_next_key.
  repeat (constructor; [eauto 40 with bytes|]). constructor.
Qed.
Lemma next_key_words p i ws : bytes_of_length 16 p -> (0 < i)%nat -> length ws = (4 * (i - 1))%nat ->
  expand (reverse (words p) ++ ws) 4 = reverse (words (next_key p (Nat.iter (i - 1) xtime 1))) ++ reverse (words p) ++ ws.
Proof.
  intros [Hl Hb] Hi Hw. sixteen p. bytes_of Hb. unfold words. cbn [split_fields take drop reverse rev_append app]. rewrite !expand_S. cbn [length].
  rewrite Hw.
  assert (S (S (S (S (4 * (i - 1))))) = (i * 4)%nat) as -> by lia.
  assert (forall k, (k < 4)%nat -> ((k + i * 4) mod 4 =? 0)%nat = (k =? 0)%nat) as Hm by (intros k Hk; by rewrite Nat.Div0.mod_add, Nat.mod_small).
  pose proof (Hm 0%nat ltac:(lia)) as H0. pose proof (Hm 1%nat ltac:(lia)) as H1. pose proof (Hm 2%nat ltac:(lia)) as H2. pose proof (Hm 3%nat ltac:(lia)) as H3. cbn [Nat.add] in H0, H1, H2, H3.
  rewrite H0, H1, H2, H3, Nat.div_mul by lia. cbn [Nat.eqb nth expand RotWord app fmap list_fmap xor_word zip_with Rcon].
  rewrite <- !SBOX_sbox by assumption. unfold Rcon. generalize (Nat.iter (i - 1) xtime 1). intros r. open_next_key. by rewrite !Z.lxor_0_r, !Z.lxor_assoc.
Qed.
Lemma round_keys_expand rs p i ws :
  bytes_of_length 16 p -> (0 < i)%nat -> length ws = (4 * (i - 1))%nat -> Forall is_u8 rs -> rs = (fun j => Nat.iter j xtime 1) <$> seq (i - 1) (length rs) ->
  expand (reverse (words p) ++ ws) (4 * length rs) = reverse (concat (words <$> round_keys p rs)) ++ ws.
Proof.
  revert p i ws. induction rs as [|r rs IH]; intros p i ws Hp Hi Hw Hrs Hr.
  - cbn [length round_keys fmap list_fmap concat]. by rewrite app_nil_r.
  - cbn [length seq fmap list_fmap] in Hr. injection Hr as Hr1 Hr2. apply Forall_cons in Hrs as [Hr0 Hrs].
    cbn [length]. rewrite Nat.mul_succ_r, Nat.add_comm, expand_add, (next_key_words p i) by done. rewrite <- Hr1.
    rewrite (IH _ (S i)); [|by apply next_key_bytes|lia| |done|].
    + cbn [round_keys fmap list_fmap concat]. by rewrite reverse_app, app_assoc.
    + rewrite length_app, length_reverse. unfold words. rewrite length_split_fields. cbn [length]. lia.
    + by replace (S i - 1)%nat with (S (i - 1)) by lia.
Qed.

Lemma round_keys_bytes p rs : bytes_of_length 16 p -> Forall is_u8 rs -> Forall (bytes_of_length 16) (round_keys p rs).
Proof.
  intros Hp Hrs. revert p Hp. induction Hrs as [|r rs Hr Hrs IH]; intros p Hp; cbn [round_keys]; constructor; try done. apply IH. by apply next_key_bytes.
Qed.
Lemma length_round_keys p rs : length (round_keys p rs) = S (length rs).
Proof. revert p. induction rs as [|r rs IH]; intros p; cbn; [done|]. by rewrite IH. Qed.

(** Element [k * n + c] of lists of [k] elements in a row. *)
Lemma nth_concat {A} (d : A) k (ls : list (list A)) n c : Forall (fun l => length l = k) ls -> (n < length ls)%nat -> (c < k)%nat -> nth (k * n + c) (concat ls) d = nth c (nth n ls []) d.
Proof.
  intros H. revert n. induction H as [|l ls Hl H IH]; intros n Hn Hc; cbn [length] in *; [lia|]. cbn [concat]. destruct n as [|n].
  - rewrite Nat.mul_0_r, app_nth1 by lia. done.
  - rewrite app_nth2 by lia. cbn [nth]. rewrite <- IH by lia. f_equal. lia.
Qed.
Lemma window_concat {A} k (ls : list (list A)) n : Forall (fun l => length l = k) ls -> (n < length ls)%nat -> window (k * n) k (concat ls) = nth n ls [].
Proof.
  intros H. revert n. induction H as [|l ls Hl H IH]; intros n Hn; cbn [length] in *; [lia|]. cbn [concat]. unfold window. destruct n as [|n].
  - rewrite Nat.mul_0_r, drop_0, take_app_le, take_ge by lia. done.
  - rewrite drop_app_ge by lia. replace (k * S n - length l)%nat with (k * n)%nat by lia. apply IH. lia.
Qed.

Lemma rc_bytes : Forall is_u8 rc.
Proof. apply (bool_decide_eq_true_1 _). vm_compute. reflexivity. Qed.

(** The round keys, in both forms. *)
Lemma round_keys_exist key : bytes_of_length 16 key -> exists ks,
  length ks = 11%nat /\ Forall (bytes_of_length 16) ks /\ aes_ke128 key = concat ks /\ forall i, KeyExpansion key i = nth i (concat (words <$> ks)) [].
Proof.
  intros Hk. exists (round_keys key rc). split_and!.
  - by rewrite length_round_keys.
  - by apply round_keys_bytes, rc_bytes.
  - unfold aes_ke128. destruct Hk. by rewrite take_ge by lia.
  - intros i. unfold KeyExpansion. pose proof (round_keys_expand rc key 1 [] Hk ltac:(lia) eq_refl rc_bytes eq_refl) as He.
    rewrite !app_nil_r in He. change (4 * length rc)%nat with 40%nat in He. unfold words in He at 1. by rewrite He, reverse_involutive.
Qed.
Lemma lengths_of ks : Forall (bytes_of_length 16) ks -> Forall (fun l => length l = 16%nat) ks.
Proof. intros H. eapply Forall_impl; [exact H|]. by intros x [? _]. Qed.
Lemma nth_Forall {A} (P : A -> Prop) ls n d : Forall P ls -> (n < length ls)%nat -> P (nth n ls d).
Proof. rewrite Forall_lookup. intros H Hn. destruct (nth_lookup_or_length ls n d) as [E|?]; [eauto|lia]. Qed.

(** The bytes of round key [n] are those of four words of the schedule. *)
Lemma schedule_keys key n r c : bytes_of_length 16 key -> (n <= 10)%nat -> 0 <= r < 4 -> 0 <= c < 4 ->
  at_ (window (16 * n) 16 (aes_ke128 key)) (r + 4 * c) = at_ (KeyExpansion key (4 * n + Z.to_nat c)%nat) r.
Proof.
  intros Hk Hn Hr Hc. destruct (round_keys_exist key Hk) as (ks & Hl & Hb & -> & Hw). rewrite Hw, window_concat by (by apply lengths_of || lia).
  rewrite nth_concat; [|apply Forall_fmap, Forall_true; intros x; apply (length_split_fields [4; 4; 4; 4]%nat)|rewrite length_fmap; lia|lia].
  assert (nth n (words <$> ks) [] = words (nth n ks [])) as -> by (rewrite (nth_indep _ [] (words [])) by (rewrite length_fmap; lia); apply (map_nth words)).
  pose proof (nth_Forall _ ks n [] Hb ltac:(lia)) as Hn'. revert Hn'. generalize (nth n ks []). intros k [Hkl _]. sixteen k.
  apply four_cases in Hr as [->|[->|[->| ->]]]; apply four_cases in Hc as [->|[->|[->| ->]]]; reflexivity.
Qed.
Lemma window_key key n : bytes_of_length 16 key -> (n <= 10)%nat -> bytes_of_length 16 (window (16 * n) 16 (aes_ke128 key)).
Proof.
  intros Hk Hn. destruct (round_keys_exist key Hk) as (ks & Hl & Hb & -> & _). rewrite window_concat by (by apply lengths_of || lia). apply nth_Forall; [done|lia].
Qed.

(** C22: the block cipher of the source is AES-128 of FIPS 197, for every key and block: its S-box is the inverse in GF(2^8) and the affine map, its column
    step the matrix product, its round keys the expanded key. *)
Theorem aes_enc_correct key inp :
  bytes_of_length 16 key -> bytes_of_length 16 inp -> aes_enc key inp = Cipher inp (KeyExpansion key) /\ bytes_of_length 16 (aes_enc key inp).
Proof.
  intros Hk Hi. assert (forall n l s, (n <= 10)%nat -> rep l s -> rep (aes_ark l (window (16 * n) 16 (aes_ke128 key))) (AddRoundKey (KeyExpansion key) n s)) as Hark.
  { intros n l s Hn Hr. apply rep_ark; [done|by apply window_key|]. intros r c Hr' Hc. by apply schedule_keys. }
  assert (rep (aes_enc key inp) (cipher_state inp (KeyExpansion key))) as Hrep; [|split; [symmetry; apply (rep_to_bytes _ _ Hrep)|by apply Hrep]].
  unfold aes_enc, cipher_state. rewrite (take_ge inp) by (destruct Hi; lia). apply (Hark 10%nat); [lia|]. apply rep_sr, rep_sb.
  cbn [foldl seq]. change (seqZ 1 9) with [1; 2; 3; 4; 5; 6; 7; 8; 9]. cbn [foldl].
  do 9 (match goal with |- rep (aes_ark _ (window (Z.to_nat (?r * 16)) 16 _)) (AddRoundKey _ ?n _) => apply (Hark n); [lia|apply rep_mc, rep_sr, rep_sb] end).
  apply (Hark 0%nat); [lia|]. by apply rep_of_bytes.
Qed.

(** *** The example of the standard *)

Definition example_key : list Z := [0x2b; 0x7e; 0x15; 0x16; 0x28; 0xae; 0xd2; 0xa6; 0xab; 0xf7; 0x15; 0x88; 0x09; 0xcf; 0x4f; 0x3c].
Definition example_input : list Z := [0x32; 0x43; 0xf6; 0xa8; 0x88; 0x5a; 0x30; 0x8d; 0x31; 0x31; 0x98; 0xa2; 0xe0; 0x37; 0x07; 0x34].
Lemma aes_enc_correct_witness :
  aes_enc example_key example_input = Cipher example_input (KeyExpansion example_key) /\
  Cipher example_input (KeyExpansion example_key) = [0x39; 0x25; 0x84; 0x1d; 0x02; 0xdc; 0x09; 0xfb; 0xdc; 0x11; 0x85; 0x97; 0x19; 0x6a; 0x0b; 0x32].
Proof.
  destruct (aes_enc_correct example_key example_input) as [E _]; [by apply (bool_decide_unpack (bytes_of_length _ _))..|].
  split; [exact E|]. rewrite <- E. vm_compute. reflexivity.
Defined.
