(* ===== verification/EdgeCrypto.v ===== *)
(** * Edge cryptography (mini-edge-security/src/edge_crypto.c)

    The hash, HMAC and HKDF over it, counter mode and GCM over the block cipher of Aes128, signatures and key agreement, comparison and exponentiation.
    A pointer argument is the list of bytes from it to the end of its object; a function that fills a buffer returns the bytes it writes.  The machine is
    little-endian. *)
From S2P Require Import Prelude ByteMem Hash256 Aes128.

Inductive EdgeHashType := EDGE_HASH_SHA256 | EDGE_HASH_SHA384 | EDGE_HASH_SHA512.
Inductive EdgeSigType := EDGE_SIG_ECDSA_P256 | EDGE_SIG_ECDSA_P384 | EDGE_SIG_ED25519.
Record EdgeCryptoCtx := CryptoCtx { key : list Z; key_len : Z; counter : list Z; nonce : list Z; nonce_len : Z; block_count : Z; initialized : bool }.
Record EdgeGcmCtx := GcmCtx { gcm_key : list Z; gcm_key_len : Z; gcm_iv : list Z; gcm_iv_len : Z; h_key : list Z; j0 : list Z; gcm_initialized : bool }.
Record EdgeEcdsaKey := EcdsaKey { private_key : list Z; public_key_x : list Z; public_key_y : list Z; curve_type : EdgeSigType; has_private : bool }.
Record EdgeHkdfCtx := HkdfCtx { prk : list Z; extracted : bool; hash_type : EdgeHashType }.

(** ** Hash, HMAC, HKDF *)

Definition rotr (x n : Z) : Z := Z.lor (Z.shiftr x n) (u32 (Z.shiftl x (32 - n))).
(** The table, in rows as the source has them. *)
Definition K : list Z := concat [
  [0x428a2f98; 0x71374491; 0xb5c0fbcf; 0xe9b5dba5];
  [0x3956c25b; 0x59f111f1; 0x923f82a4; 0xab1c5ed5];
  [0xd807aa98; 0x12835b01; 0x243185be; 0x550c7dc3];
  [0x72be5d74; 0x80deb1fe; 0x9bdc06a7; 0xc19bf174];
  [0xe49b69c1; 0xefbe4786; 0x0fc19dc6; 0x240ca1cc];
  [0x2de92c6f; 0x4a7484aa; 0x5cb0a9dc; 0x76f988da];
  [0x983e5152; 0xa831c66d; 0xb00327c8; 0xbf597fc7];
  [0xc6e00bf3; 0xd5a79147; 0x06ca6351; 0x14292967];
  [0x27b70a85; 0x2e1b2138; 0x4d2c6dfc; 0x53380d13];
  [0x650a7354; 0x766a0abb; 0x81c2c92e; 0x92722c85];
  [0xa2bfe8a1; 0xa81a664b; 0xc24b8b70; 0xc76c51a3];
  [0xd192e819; 0xd6990624; 0xf40e3585; 0x106aa070];
  [0x19a4c116; 0x1e376c08; 0x2748774c; 0x34b0bcb5];
  [0x391c0cb3; 0x4ed8aa4a; 0x5b9cca4f; 0x682e6ff3];
  [0x748f82ee; 0x78a5636f; 0x84c87814; 0x8cc70208];
  [0x90befffa; 0xa4506ceb; 0xbef9a3f7; 0xc67178f2]].
(** [pos+64>len], in terms of what is left; both branches behind it do the same. *)
Definition last_block (rem : Z) : bool := rem <? 64.
Definition edge_sha256 {S} (data : list Z) (len : Z) : M S (list Z) := hash256 rotr K (round rotr) last_block data len.

Definition edge_hmac_sha256 {S} (key : list Z) (key_len : Z) (msg : list Z) (msg_len : Z) : M S (list Z) :=
  bk ← (if 64 <? key_len then d ← edge_sha256 key key_len; mret (overlay d (replicate 64 0)) else bs ← memcpy_bytes key key_len; mret (overlay bs (replicate 64 0)));
  let ipad := (fun b => Z.lxor b 0x36) <$> bk in
  let opad := (fun b => Z.lxor b 0x5C) <$> bk in
  let mc := if msg_len <? 256 then msg_len else 256 in
  m ← memcpy_bytes msg mc;
  ih ← edge_sha256 (ipad ++ m) (64 + mc);
  edge_sha256 (opad ++ ih) 96.

Definition edge_hkdf_extract (salt : list Z) (salt_len : Z) (ikm : list Z) (ikm_len : Z) : M EdgeHkdfCtx unit :=
  let us := if 0 <? salt_len then salt else replicate 32 0 in
  let usl := if 0 <? salt_len then salt_len else 32 in
  p ← edge_hmac_sha256 us usl ikm ikm_len;
  modify (fun _ => HkdfCtx p true EDGE_HASH_SHA256).

(** [t] is empty before the first round; [gen] bytes are made. *)
Fixpoint expand_loop {S} (fuel : nat) (p info : list Z) (info_len okm_len : Z) (t : list Z) (ctr gen : Z) : M S (Z * list Z) :=
  if gen <? okm_len then
    match fuel with
    | O => nofuel
    | Datatypes.S fuel =>
        i ← (if 0 <? info_len then memcpy_bytes info (if info_len <? 64 then info_len else 64) else mret []);
        let inp := t ++ i ++ [ctr] in
        t ← edge_hmac_sha256 p 32 inp (Z.of_nat (length inp));
        let cp := if okm_len <? gen + 32 then okm_len - gen else 32 in
        r ← expand_loop fuel p info info_len okm_len t (u8 (ctr + 1)) (gen + cp);
        mret (r.1, take (Z.to_nat cp) t ++ r.2)
    end
  else mret (gen, []).
(** What is returned, and the bytes of the output. *)
Definition edge_hkdf_expand (info : list Z) (info_len okm_len : Z) : M EdgeHkdfCtx (Z * list Z) :=
  c ← gets id;
  if negb (extracted c) then mret (-1, [])
  else if 255 * 32 <? okm_len then mret (-1, [])
  else expand_loop (Z.to_nat (okm_len / 32 + 1)) (prk c) info info_len okm_len [] 1 0.
Definition edge_hkdf_derive {S} (ikm : list Z) (ikm_len : Z) (salt : list Z) (salt_len : Z) (info : list Z) (info_len okm_len : Z) : M S (Z * list Z) :=
  zoom (fun _ => HkdfCtx [] false EDGE_HASH_SHA256) (fun _ s => s) (edge_hkdf_extract salt salt_len ikm ikm_len;; edge_hkdf_expand info info_len okm_len).

(** ** Counter mode *)

Notation CM := (M EdgeCryptoCtx).
Definition set_counter (v : list Z) (c : EdgeCryptoCtx) := CryptoCtx (key c) (key_len c) v (nonce c) (nonce_len c) (block_count c) (initialized c).
Definition set_block_count (v : Z) (c : EdgeCryptoCtx) := CryptoCtx (key c) (key_len c) (counter c) (nonce c) (nonce_len c) v (initialized c).

Definition edge_crypto_init (k : list Z) (klen : Z) (n : list Z) (nlen : Z) : CM unit :=
  let kl := if klen <? 64 then klen else 64 in
  kb ← memcpy_bytes k kl;
  let nl := if nlen <? 12 then nlen else 12 in
  nb ← memcpy_bytes n nl;
  modify (fun _ => CryptoCtx (overlay kb (replicate 64 0)) kl (replicate 16 0) (overlay nb (replicate 12 0)) nl 0 true).
Definition edge_crypto_reset_ctr : CM unit := modify (fun c => set_block_count 0 (set_counter (replicate 16 0) c)).

(** The loop from byte [n - 1] down: a byte that becomes 0 carries on. *)
Fixpoint inc_loop (n : nat) (ctr : list Z) : list Z :=
  match n with
  | O => ctr
  | S i => let v := u8 (at_ ctr (Z.of_nat i) + 1) in let ctr := <[i := v]> ctr in if negb (v =? 0) then ctr else inc_loop i ctr
  end.
Definition ctr_inc (ctr : list Z) : list Z := inc_loop 16 ctr.
Definition ctr_prep (c : EdgeCryptoCtx) : list Z :=
  let off := if nonce_len c <? 12 then nonce_len c else 12 in
  splice (Z.to_nat off) (take (Z.to_nat (if 16 - off <? 4 then 16 - off else 4)) (counter c)) (overlay (take (Z.to_nat off) (nonce c)) (replicate 16 0)).
(** The sixteen bytes of the key that the cipher takes. *)
Definition aes_key (k : list Z) (klen : Z) : list Z := overlay (take (Z.to_nat (if klen <? 16 then klen else 16)) k) (replicate 16 0).

(** The rounds over what is left; [fuel] bounds them. *)
Fixpoint ctr_loop (fuel : nat) (ak plain : list Z) : CM (list Z) :=
  match plain, fuel with
  | [], _ => mret []
  | _, O => nofuel
  | _, S fuel =>
      cb ← gets ctr_prep;
      let ks := aes_enc ak cb in
      let out := zip_with Z.lxor (take 16 plain) ks in
      modify (fun c => set_block_count (u64 (block_count c + 1)) (set_counter (ctr_inc (counter c)) c));;
      rest ← ctr_loop fuel ak (drop 16 plain);
      mret (out ++ rest)
  end.
Definition edge_aes_ctr_encrypt (plain : list Z) (len : Z) : CM (list Z) :=
  c ← gets id;
  if negb (initialized c) then mret []
  else
    bs ← loop_bytes plain len;
    ctr_loop (length bs) (aes_key (key c) (key_len c)) bs.
Definition edge_aes_ctr_decrypt (cipher : list Z) (len : Z) : CM (list Z) := edge_aes_ctr_encrypt cipher len.

(** ** GCM *)

Notation GM := (M EdgeGcmCtx).
Definition shift_right (v : list Z) : list Z :=
  let carry := Z.land (at_ v 15) 1 in
  let v := (fun j => if j =? 0 then Z.shiftr (at_ v 0) 1 else u8 (Z.lor (Z.shiftr (at_ v j) 1) (Z.shiftl (at_ v (j - 1)) 7))) <$> seqZ 0 16 in
  if truthy carry then <[0%nat := Z.lxor (at_ v 0) 0xE1]> v else v.
(** One round of the loop over the bits of [y]: [z] and [v]. *)
Definition ghash_bit (y : list Z) (zv : list Z * list Z) (i : Z) : list Z * list Z :=
  let '(z, v) := zv in
  let bi := 15 - i / 8 in
  let bt := 7 - i mod 8 in
  (if truthy (Z.land (at_ y bi) (Z.shiftl 1 bt)) then zip_with Z.lxor z v else z, shift_right v).
Definition ghash_block (h y block : list Z) : list Z :=
  let y := imap (fun i b => Z.lxor b (if (i <? length block)%nat then at_ block (Z.of_nat i) else 0)) y in
  (foldl (ghash_bit y) (replicate 16 0, h) (seqZ 0 128)).1.
(** The loop over the blocks of [data], a step [f] for each; [fuel] bounds them. *)
Fixpoint block_loop (f : list Z -> list Z -> list Z) (fuel : nat) (data y : list Z) : list Z :=
  match data, fuel with
  | [], _ | _, O => y
  | _, S fuel => block_loop f fuel (drop 16 data) (f y (take 16 data))
  end.
Definition gcm_ghash (h data y : list Z) : list Z := block_loop (ghash_block h) (length data) data y.

Definition edge_gcm_init (k : list Z) (klen : Z) (iv : list Z) (ivlen : Z) : GM unit :=
  let kl := if klen <? 32 then klen else 32 in
  kb ← memcpy_bytes k kl;
  let il := if ivlen <? 16 then ivlen else 16 in
  ib ← memcpy_bytes iv il;
  let gk := overlay kb (replicate 64 0) in
  let h := aes_enc (aes_key gk kl) (replicate 16 0) in
  let j :=
    if il =? 12 then <[15%nat := 1]> (overlay ib (replicate 16 0))
    else
      let pad := (16 - il mod 16) mod 16 in
      let total := il + pad + 8 in
      gcm_ghash h (splice (Z.to_nat (total - 8)) (be_bytes 8 (il * 8)) (ib ++ replicate (Z.to_nat (total - il)) 0)) (replicate 16 0) in
  modify (fun _ => GcmCtx gk kl (overlay ib (replicate 16 0)) il h j true).

(** The loop over the text; [fuel] bounds its blocks. *)
Fixpoint gcm_loop (fuel : nat) (ak ctr text : list Z) : list Z :=
  match text, fuel with
  | [], _ | _, O => []
  | _, S fuel => zip_with Z.lxor (take 16 text) (aes_enc ak ctr) ++ gcm_loop fuel ak (ctr_inc ctr) (drop 16 text)
  end.
Definition gcm_start (j : list Z) : list Z := <[15%nat := Z.lor (Z.land (at_ j 15) 0xFE) 2]> j.
Definition pad16 (n : Z) : list Z := replicate (Z.to_nat ((16 - n mod 16) mod 16)) 0.
(** The bytes of [gd] that are hashed. *)
Definition gcm_data (aad cipher : list Z) : list Z :=
  let al := Z.of_nat (length aad) in
  let cl := Z.of_nat (length cipher) in
  aad ++ pad16 al ++ cipher ++ pad16 cl ++ be_bytes 8 (al * 8) ++ be_bytes 8 (cl * 8).
(** [gd] has 512 bytes. *)
Definition gcm_tag (c : EdgeGcmCtx) (aad cipher : list Z) : GM (list Z) :=
  let gd := gcm_data aad cipher in
  if (512 <? length gd)%nat then undefined
  else mret (zip_with Z.lxor (gcm_ghash (h_key c) gd (replicate 16 0)) (aes_enc (aes_key (gcm_key c) (gcm_key_len c)) (j0 c))).
(** Cipher text and tag. *)
Definition edge_gcm_encrypt (plain : list Z) (plen : Z) (aad : list Z) (aad_len : Z) : GM (list Z * list Z) :=
  c ← gets id;
  if negb (gcm_initialized c) then mret ([], replicate 16 0)
  else
    p ← memcpy_bytes plain plen;
    let cipher := gcm_loop (length p) (aes_key (gcm_key c) (gcm_key_len c)) (gcm_start (j0 c)) p in
    a ← memcpy_bytes aad aad_len;
    tag ← gcm_tag c a cipher;
    mret (cipher, tag).
(** The comparison, which stops at the first difference. *)
Fixpoint tag_loop {S} (ct tag : list Z) : M S bool :=
  match ct, tag with
  | [], _ => mret true
  | _, [] => undefined
  | x :: ct, y :: tag => if x =? y then tag_loop ct tag else mret false
  end.
(** The result, and the bytes written to [plain]. *)
Definition edge_gcm_decrypt (cipher : list Z) (clen : Z) (aad : list Z) (aad_len : Z) (tag : list Z) : GM (bool * list Z) :=
  c ← gets id;
  if negb (gcm_initialized c) then mret (false, [])
  else
    t ← memcpy_bytes cipher clen;
    let plain := gcm_loop (length t) (aes_key (gcm_key c) (gcm_key_len c)) (gcm_start (j0 c)) t in
    a ← memcpy_bytes aad aad_len;
    ct ← gcm_tag c a t;
    ok ← tag_loop ct tag;
    mret (ok, plain).

(** ** Signatures and key agreement *)

Definition edge_ecdsa_derive_public (k : EdgeEcdsaKey) : EdgeEcdsaKey :=
  EcdsaKey (private_key k) ((fun i => Z.lxor (at_ (private_key k) i) (u8 (0x9E + i * 13))) <$> seqZ 0 32)
    ((fun i => Z.lxor (at_ (private_key k) ((i + 7) mod 32)) (u8 (0x3A + i * 19))) <$> seqZ 0 32) (curve_type k) (has_private k).
Definition edge_ecdsa_keygen : EdgeEcdsaKey :=
  edge_ecdsa_derive_public (EcdsaKey ((fun i => u8 (Z.lxor (0x6B + i * 17) (i * 0xC3 + 0x71))) <$> seqZ 0 32) (replicate 32 0) (replicate 32 0) EDGE_SIG_ECDSA_P256 true).
(** [None]: the length is 0. *)
Definition edge_ecdsa_sign {S} (k : EdgeEcdsaKey) (hash : list Z) (hash_len : Z) : M S (option (list Z)) :=
  if negb (has_private k) then mret None
  else
    a ← fill_loop 32 0 (fun i => h ← at_rem hash i hash_len;
      mret (Z.lxor (Z.lxor (Z.lxor h (at_ (private_key k) i)) (at_ (public_key_x k) ((i * 3) mod 32))) (u8 (0xEC + i))));
    b ← fill_loop 32 0 (fun i => h ← at_rem hash (i + 8) hash_len;
      mret (Z.lxor (Z.lxor (Z.lxor h (at_ (private_key k) ((i + 11) mod 32))) (at_ (public_key_y k) ((i * 5) mod 32))) (u8 (0xD5 + i * 3))));
    mret (Some (a ++ b)).
Fixpoint ecdsa_verify_loop {S} (n : nat) (i : Z) (k : EdgeEcdsaKey) (hash : list Z) (hash_len : Z) (sig : list Z) : M S bool :=
  match n with
  | O => mret true
  | Datatypes.S n =>
      h ← at_rem hash i hash_len;
      let er := Z.lxor (Z.lxor (Z.lxor h (at_ (public_key_x k) ((i * 3) mod 32))) (at_ (public_key_y k) ((i * 7) mod 32))) (u8 (i + 1)) in
      s ← of_option (sig !! Z.to_nat i);
      if negb (s =? er) then mret false else ecdsa_verify_loop n (i + 1) k hash hash_len sig
  end.
Definition edge_ecdsa_verify {S} (k : EdgeEcdsaKey) (hash : list Z) (hash_len : Z) (sig : list Z) (sig_len : Z) : M S bool :=
  if sig_len <? 64 then mret false else ecdsa_verify_loop 16 0 k hash hash_len sig.
Definition edge_ecdh_compute_shared {S} (local_key : EdgeEcdsaKey) (peer_pub_x peer_pub_y : list Z) : M S (list Z) :=
  x ← memcpy_bytes peer_pub_x 32;
  y ← memcpy_bytes peer_pub_y 32;
  mret ((fun i => Z.lxor (Z.lxor (Z.lxor (at_ (private_key local_key) i) (at_ x (i mod 32))) (at_ y ((i + 8) mod 32))) (u8 (0xAD + i * 7))) <$> seqZ 0 32).

(** ** Constant time *)

Definition edge_constant_time_memcmp {S} (a b : list Z) (len : Z) : M S Z :=
  x ← loop_bytes a len;
  y ← loop_bytes b len;
  mret (foldl (fun diff p => Z.lor diff (Z.lxor p.1 p.2)) 0 (zip x y)).
Definition edge_constant_time_copy {S} (dst src : list Z) (len : Z) : M S (list Z) := bs ← loop_bytes src len; fill bs dst.
Definition edge_secure_zero {S} (buf : list Z) (len : Z) : M S (list Z) := fill (replicate (Z.to_nat len) 0) buf.
Definition edge_xor_buf {S} (dst a b : list Z) (len : Z) : M S (list Z) :=
  x ← loop_bytes a len;
  y ← loop_bytes b len;
  fill (zip_with Z.lxor x y) dst.

(** One bit of the exponent, at one byte: [r0] and [r1]; [m] is the byte of the modulus. *)
Definition ladder_step (m : Z) (r : Z * Z) (bv : bool) : Z * Z :=
  let mv := if m =? 0 then 1 else m in
  let t0 := (r.2 * r.1) mod mv in
  if bv then (t0, (r.2 * r.2) mod mv) else ((r.1 * r.1) mod mv, t0).
Definition exp_bits (exp : list Z) : list bool := e ← exp; (fun bit => Z.testbit e bit) <$> [7; 6; 5; 4; 3; 2; 1; 0].
(** The bits of the exponent in order, over all bytes. *)
Definition ladder (m : list Z) (r : list (Z * Z)) (bits : list bool) : list (Z * Z) := foldl (fun r bv => zip_with (fun m x => ladder_step m x bv) m r) r bits.
Definition edge_modexp_sidechannel_resistant {S} (base : list Z) (base_len : Z) (exp : list Z) (exp_len : Z) (md : list Z) (mod_len : Z) : M S (list Z) :=
  let rlen := if base_len <? mod_len then base_len else mod_len in
  b ← memcpy_bytes base (if base_len <? 256 then base_len else 256);
  if (rlen <? 0) || (256 <? rlen) then undefined
  else
    e ← loop_bytes exp exp_len;
    m ← (if (0 <? exp_len) then loop_bytes md rlen else mret (replicate (Z.to_nat rlen) 0));
    let r := zip (1 :: replicate 255 0) (take (Z.to_nat rlen) b) in
    mret ((ladder m r (exp_bits e)).*1).
(** ** The hash and what is built on it *)

Definition sha (data : list Z) (len : Z) : list Z := digest256 rotr K (round rotr) last_block data len.
Lemma edge_sha256_ok {S} data len (s : S) : len < 2 ^ 31 - 64 -> len <= Z.of_nat (length data) -> edge_sha256 data len s = Done (sha data len, s).
Proof. apply hash256_ok. Qed.
Lemma sha_bytes data len : bytes_of_length 32 (sha data len).
Proof. apply digest256_bytes. intros. by apply length_round. Qed.

(** The bytes of a message of [n] bytes that the hash looks at. *)
Definition hashed (n j : Z) : Prop := 0 <= j < n /\ (64 <= n - 64 * (j / 64) \/ j mod 64 < 56).
Lemma sha_blind d d' len : len <= Z.of_nat (length d) -> len <= Z.of_nat (length d') -> (forall j, hashed len j -> at_ d j = at_ d' j) -> sha d len = sha d' len.
Proof. intros Hd Hd' H. apply digest256_blind; [done|done|]. intros j Hj Hor. apply H. split; [done|]. unfold last_block in Hor. rewrite Z.ltb_ge in Hor. done. Qed.

(** From here on the hash is only what these lemmas say. *)
#[local] Opaque edge_sha256 sha.

Definition hmac_block (key : list Z) (klen : Z) : list Z :=
  overlay (if 64 <? klen then sha key klen else take (Z.to_nat klen) key) (replicate 64 0).
Definition hmac (key : list Z) (klen : Z) (msg : list Z) (mlen : Z) : list Z :=
  let bk := hmac_block key klen in
  let mc := Z.min mlen 256 in
  let ih := sha (((fun b => Z.lxor b 0x36) <$> bk) ++ take (Z.to_nat mc) msg) (64 + mc) in
  sha (((fun b => Z.lxor b 0x5C) <$> bk) ++ ih) 96.
Lemma length_hmac_block key klen : 0 <= klen <= Z.of_nat (length key) -> length (hmac_block key klen) = 64%nat.
Proof.
  intros H. unfold hmac_block, overlay. destruct (Z.ltb_spec 64 klen).
  - destruct (sha_bytes key klen) as [E _]. rewrite length_app, length_drop, E, length_replicate. lia.
  - rewrite length_app, length_drop, length_take, length_replicate. lia.
Qed.
Lemma hmac_ok {S} key klen msg mlen (s : S) :
  0 <= klen <= Z.of_nat (length key) -> klen < 2 ^ 31 - 64 -> 0 <= mlen <= Z.of_nat (length msg) -> edge_hmac_sha256 key klen msg mlen s = Done (hmac key klen msg mlen, s).
Proof.
  intros Hk Hk2 Hm. pose proof (length_hmac_block key klen Hk) as Hl. unfold edge_hmac_sha256.
  assert ((if 64 <? klen then d ← edge_sha256 key klen; mret (overlay d (replicate 64 0)) else bs ← memcpy_bytes key klen; mret (overlay bs (replicate 64 0))) s =
    Done (hmac_block key klen, s)) as Hb.
  { unfold hmac_block. destruct (Z.ltb_spec 64 klen); [by erewrite bind_step by (apply edge_sha256_ok; lia)|by erewrite bind_step by (apply memcpy_bytes_ok; lia)]. }
  rewrite (bind_step _ _ _ _ _ Hb).
  cbv zeta. replace (if mlen <? 256 then mlen else 256) with (Z.min mlen 256) by (destruct (Z.ltb_spec mlen 256); lia).
  erewrite bind_step by (apply memcpy_bytes_ok; lia). erewrite bind_step by (apply edge_sha256_ok; rewrite ?length_app, ?length_fmap, ?length_take, ?Hl; lia).
  rewrite edge_sha256_ok; [done|lia|]. match goal with |- context [sha ?x ?y] => destruct (sha_bytes x y) as [E _] end. rewrite length_app, length_fmap, Hl, E. lia.
Qed.
Lemma hmac_bytes key klen msg mlen : bytes_of_length 32 (hmac key klen msg mlen).
Proof. apply sha_bytes. Qed.

Lemma hmac_agree key klen msg msg' mlen :
  0 <= klen <= Z.of_nat (length key) -> 0 <= mlen <= Z.of_nat (length msg) -> mlen <= Z.of_nat (length msg') -> (forall j, hashed (Z.min mlen 256) j -> at_ msg j = at_ msg' j) ->
  hmac key klen msg mlen = hmac key klen msg' mlen.
Proof.
  intros Hk Hm Hm' H. unfold hmac. f_equal. f_equal.
  pose proof (length_hmac_block key klen Hk) as Hl. apply sha_blind; [rewrite length_app, length_fmap, Hl, length_take; lia..|]. intros j [Hj Hor].
  rewrite !at_app, length_fmap, Hl by lia. destruct (Z.ltb_spec j (Z.of_nat 64)); [done|]. rewrite !at_take by lia. apply H. split; [lia|]. Z.div_mod_to_equations. lia.
Qed.

(** The MAC does not cover the message.  Whatever the key, two messages of one length have the same MAC when they agree on the first 256 bytes, and in the last
    block, if it is not full, on its first 56 bytes.  Both calls return. *)
Theorem hmac_blind key klen msg msg' mlen (s : unit) :
  0 <= klen <= Z.of_nat (length key) -> klen < 2 ^ 31 - 64 -> 0 <= mlen <= Z.of_nat (length msg) -> mlen <= Z.of_nat (length msg') ->
  (forall j, hashed (Z.min mlen 256) j -> at_ msg j = at_ msg' j) ->
  edge_hmac_sha256 key klen msg mlen s = edge_hmac_sha256 key klen msg' mlen s /\ exists mac, edge_hmac_sha256 key klen msg mlen s = Done (mac, s) /\ bytes_of_length 32 mac.
Proof.
  intros Hk Hk2 Hm Hm' H. rewrite !hmac_ok by lia. split; [|eexists; split; [done|apply hmac_bytes]]. by rewrite (hmac_agree key klen msg msg').
Qed.

(** *** Key derivation *)

(** T(1), T(2), .. of RFC 5869, from [t] on; [ctr] is the number of the next. *)
Fixpoint hkdf_blocks (n : nat) (p info t : list Z) (ctr : Z) : list Z :=
  match n with O => [] | S n => let t := hmac p 32 (t ++ info ++ [ctr]) (Z.of_nat (length (t ++ info ++ [ctr]))) in t ++ hkdf_blocks n p info t (ctr + 1) end.
Lemma length_hkdf_blocks n p info t ctr : length (hkdf_blocks n p info t ctr) = (32 * n)%nat.
Proof.
  revert t ctr. induction n as [|n IH]; intros t ctr; [done|]. cbn [hkdf_blocks]. match goal with |- context [hmac ?a ?b ?c ?d] => destruct (hmac_bytes a b c d) as [E _] end.
  rewrite length_app, E, IH. lia.
Qed.
Definition info_part (info : list Z) (info_len : Z) : list Z := take (Z.to_nat (Z.min info_len 64)) info.

Lemma expand_loop_done {S} n p info info_len t ctr gen (s : S) : expand_loop n p info info_len gen t ctr gen s = Done ((gen, []), s).
Proof. destruct n; cbn [expand_loop]; by rewrite Z.ltb_irrefl. Qed.
Lemma expand_loop_ok {S} n p info info_len okm_len t ctr gen (s : S) :
  length p = 32%nat -> info_len <= Z.of_nat (length info) -> gen <= okm_len -> okm_len - gen <= 32 * Z.of_nat n -> 1 <= ctr -> ctr * 32 <= gen + 32 -> okm_len <= 8160 ->
  expand_loop n p info info_len okm_len t ctr gen s = Done ((okm_len, take (Z.to_nat (okm_len - gen)) (hkdf_blocks n p (info_part info info_len) t ctr)), s).
Proof.
  intros Hp Hi. revert t ctr gen. induction n as [|n IH]; intros t ctr gen Hg Hn Hc Hcg Ho; cbn [expand_loop hkdf_blocks].
  - destruct (Z.ltb_spec gen okm_len); [lia|]. replace gen with okm_len by lia. by rewrite Z.sub_diag.
  - destruct (Z.ltb_spec gen okm_len).
    2: { replace gen with okm_len by lia. by rewrite Z.sub_diag. }
    assert ((if 0 <? info_len then memcpy_bytes info (if info_len <? 64 then info_len else 64) else mret []) s = Done (info_part info info_len, s)) as Hm.
    { unfold info_part. destruct (Z.ltb_spec 0 info_len); [|by replace (Z.to_nat (Z.min info_len 64)) with 0%nat by lia].
      destruct (Z.ltb_spec info_len 64); [rewrite Z.min_l by lia|rewrite Z.min_r by lia]; apply memcpy_bytes_ok; lia. }
    erewrite bind_step by exact Hm. set (ip := info_part info info_len). erewrite bind_step by (apply hmac_ok; lia).
    set (t' := hmac _ _ _ _). assert (length t' = 32%nat) as Ht by apply hmac_bytes.
    destruct (Z.leb_spec okm_len (gen + 32)).
    + replace (if okm_len <? gen + 32 then okm_len - gen else 32) with (okm_len - gen) by (destruct (Z.ltb_spec okm_len (gen + 32)); lia).
      replace (gen + (okm_len - gen)) with okm_len by lia. erewrite bind_step by apply expand_loop_done. cbn. unfold mret, M_ret. rewrite app_nil_r. by rewrite take_app_le by lia.
    + destruct (Z.ltb_spec okm_len (gen + 32)); [lia|]. rewrite u8_small by lia. erewrite bind_step by (apply IH; lia). cbn [fst snd]. unfold mret, M_ret.
      do 3 f_equal. rewrite (take_ge t') by lia. rewrite take_app_ge by lia. do 2 f_equal. lia.
Qed.
Lemma hkdf_blocks_prefix n m p info t ctr : (n <= m)%nat -> exists l, hkdf_blocks m p info t ctr = hkdf_blocks n p info t ctr ++ l.
Proof.
  revert m t ctr. induction n as [|n IH]; intros m t ctr H; [by eexists|]. destruct m as [|m]; [lia|]. cbn [hkdf_blocks].
  match goal with |- context [hkdf_blocks m p info ?t' ?c'] => destruct (IH m t' c' ltac:(lia)) as [l ->] end. exists l. by rewrite app_assoc.
Qed.
Lemma hkdf_take k n m p info t ctr : (k <= 32 * n)%nat -> (k <= 32 * m)%nat -> take k (hkdf_blocks n p info t ctr) = take k (hkdf_blocks m p info t ctr).
Proof.
  intros Hn Hm. destruct (Nat.le_ge_cases n m) as [H|H]; destruct (hkdf_blocks_prefix _ _ p info t ctr H) as [l ->]; by rewrite take_app_le by (rewrite length_hkdf_blocks; lia).
Qed.
(** All the bytes that can be derived from a key. *)
Definition hkdf_stream (p info : list Z) (info_len : Z) : list Z := hkdf_blocks 255 p (info_part info info_len) [] 1.

Lemma hkdf_expand_run info info_len okm_len c :
  length (prk c) = 32%nat -> info_len <= Z.of_nat (length info) ->
  edge_hkdf_expand info info_len okm_len c =
    Done (if negb (extracted c) || (255 * 32 <? okm_len) then (-1, []) else (Z.max 0 okm_len, take (Z.to_nat okm_len) (hkdf_stream (prk c) info info_len)), c).
Proof.
  intros Hp Hi. unfold edge_hkdf_expand. rewrite bind_gets. cbn [id]. destruct (extracted c); [|done]. cbn [negb orb]. destruct (Z.ltb_spec (255 * 32) okm_len); [done|].
  destruct (Z.leb_spec okm_len 0).
  - replace (Z.to_nat okm_len) with 0%nat by lia. rewrite Z.max_l by lia. destruct (Z.to_nat (okm_len / 32 + 1)); cbn [expand_loop]; destruct (Z.ltb_spec 0 okm_len); first [lia|done].
  - rewrite Z.max_r by lia. rewrite expand_loop_ok; [|done|lia|lia|Z.div_mod_to_equations; lia|lia|lia|lia]. do 3 f_equal. rewrite Z.sub_0_r. unfold hkdf_stream.
    apply hkdf_take; Z.div_mod_to_equations; lia.
Qed.

(** Key derivation.  [edge_hkdf_derive] extracts the key of the salt (32 zeros if there is none) and the key material, and writes the first bytes of one stream, the
    blocks T(1), T(2), .. of RFC 5869 over at most 64 bytes of the info; more than 255 blocks are refused.  A shorter output is the start of a longer one, and the
    key material behind its first 256 bytes, and in its last block behind byte 56, does not count. *)
Theorem hkdf_derive_correct ikm ikm' ikm_len salt salt_len info info_len (s : unit) :
  0 <= ikm_len <= Z.of_nat (length ikm) -> ikm_len <= Z.of_nat (length ikm') -> salt_len <= Z.of_nat (length salt) -> salt_len < 2 ^ 31 - 64 -> info_len <= Z.of_nat (length info) ->
  exists stream, Z.of_nat (length stream) = 8160 /\
    stream = hkdf_stream (if 0 <? salt_len then hmac salt salt_len ikm ikm_len else hmac (replicate 32 0) 32 ikm ikm_len) info info_len /\
    (forall okm_len, edge_hkdf_derive ikm ikm_len salt salt_len info info_len okm_len s =
      Done (if 8160 <? okm_len then (-1, []) else (Z.max 0 okm_len, take (Z.to_nat okm_len) stream), s)) /\
    ((forall j, hashed (Z.min ikm_len 256) j -> at_ ikm j = at_ ikm' j) -> forall okm_len,
      edge_hkdf_derive ikm' ikm_len salt salt_len info info_len okm_len s = edge_hkdf_derive ikm ikm_len salt salt_len info info_len okm_len s).
Proof.
  intros Hk Hk' Hs Hs2 Hi. set (key x := if 0 <? salt_len then hmac salt salt_len x ikm_len else hmac (replicate 32 0) 32 x ikm_len).
  assert (forall x, ikm_len <= Z.of_nat (length x) -> forall okm_len, edge_hkdf_derive x ikm_len salt salt_len info info_len okm_len s =
    Done (if 8160 <? okm_len then (-1, []) else (Z.max 0 okm_len, take (Z.to_nat okm_len) (hkdf_stream (key x) info info_len)), s)) as Hrun.
  { intros x Hx okm_len. unfold edge_hkdf_derive, zoom, edge_hkdf_extract. rewrite bind_assoc.
    assert (forall c : EdgeHkdfCtx, edge_hmac_sha256 (if 0 <? salt_len then salt else replicate 32 0) (if 0 <? salt_len then salt_len else 32) x ikm_len c = Done (key x, c)) as Hm.
    { intros c. unfold key. destruct (Z.ltb_spec 0 salt_len); apply hmac_ok; rewrite ?length_replicate; lia. }
    rewrite (bind_step _ _ _ _ _ (Hm _)), bind_modify, hkdf_expand_run by (done || (unfold key; cbn [prk]; destruct (0 <? salt_len); apply hmac_bytes)). done. }
  exists (hkdf_stream (key ikm) info info_len). split_and!; [unfold hkdf_stream; rewrite length_hkdf_blocks; lia|reflexivity|apply Hrun; lia|].
  intros H okm_len. rewrite !Hrun by lia. assert (key ikm' = key ikm) as ->; [|done].
  unfold key. destruct (Z.ltb_spec 0 salt_len); (symmetry; apply hmac_agree; [rewrite ?length_replicate; lia|lia|lia|exact H]).
Qed.
(** ** Counter mode: proofs *)

Lemma inc_loop_val n ctr : Forall is_u8 ctr -> (n <= length ctr)%nat ->
  length (inc_loop n ctr) = length ctr /\ Forall is_u8 (inc_loop n ctr) /\ drop n (inc_loop n ctr) = drop n ctr /\
  be_val (take n (inc_loop n ctr)) = (be_val (take n ctr) + 1) mod 256 ^ Z.of_nat n.
Proof.
  revert ctr. induction n as [|n IH]; intros ctr Hb Hn; cbn [inc_loop]; [done|]. destruct (lookup_lt_is_Some_2 ctr n) as [x Hx]; [lia|].
  assert (at_ ctr (Z.of_nat n) = x) as -> by (unfold at_; rewrite Nat2Z.id; by apply list_lookup_total_correct).
  assert (is_u8 x) as Hx8 by (rewrite Forall_lookup in Hb; eauto). unfold is_u8 in Hx8. set (v := u8 (x + 1)). set (l := <[n := v]> ctr).
  assert (Forall is_u8 l) as Hbl by (apply Forall_insert; [done|apply u8_range]). assert (length l = length ctr) as Hl by apply length_insert.
  assert (take n l = take n ctr) as Ht by (apply take_insert_ge; lia). assert (drop (S n) l = drop (S n) ctr) as Hd by (apply drop_insert_lt; lia).
  assert (l !! n = Some v) as Hv by (apply list_lookup_insert_eq; lia).
  rewrite (take_S_r ctr n x Hx), be_val_snoc, Nat2Z.inj_succ, Z.pow_succ_r by lia.
  pose proof (be_val_bound (take n ctr) ltac:(by apply Forall_take)) as Hbd. rewrite length_take, Nat.min_l in Hbd by lia. set (A := be_val (take n ctr)) in *.
  destruct (Z.eqb_spec v 0) as [E|E]; cbn [negb].
  - destruct (IH l Hbl ltac:(lia)) as (L & B & D & V). split_and!; [lia|done| |].
    + apply (f_equal (drop 1)) in D. rewrite !drop_drop in D. rewrite !Nat.add_1_r in D. congruence.
    + assert (inc_loop n l !! n = Some v) as Hv' by (pose proof (f_equal (lookup 0%nat) D) as D0; rewrite !lookup_drop, Nat.add_0_r in D0; congruence).
      rewrite (take_S_r _ n v Hv'), be_val_snoc, V, Ht. fold A. assert (x = 255) as -> by (unfold v, u8 in E; Z.div_mod_to_equations; lia). rewrite E.
      replace (256 * A + 255 + 1) with (256 * (A + 1)) by lia. rewrite Z.mul_mod_distr_l by lia. lia.
  - split_and!; [lia|done|done|]. rewrite (take_S_r l n v Hv), be_val_snoc, Ht. fold A. assert (x + 1 < 256) by (unfold v, u8 in E; Z.div_mod_to_equations; lia).
    assert (v = x + 1) as -> by (unfold v, u8; apply Z.mod_small; lia). rewrite Z.mod_small; lia.
Qed.
Lemma ctr_inc_val ctr : bytes_of_length 16 ctr -> ctr_inc ctr = be_bytes 16 ((be_val ctr + 1) mod 2 ^ 128).
Proof.
  intros [Hl Hb]. unfold ctr_inc. destruct (inc_loop_val 16 ctr Hb ltac:(lia)) as (L & B & _ & V). rewrite !take_ge in V by lia.
  rewrite <- (be_bytes_val (inc_loop 16 ctr) B), L, Hl, V. done.
Qed.

Record crypto_wf (c : EdgeCryptoCtx) : Prop := {
  wf_key : bytes_of_length 64 (key c) /\ 0 <= key_len c <= 64;
  wf_counter : bytes_of_length 16 (counter c);
  wf_nonce : bytes_of_length 12 (nonce c) /\ 0 <= nonce_len c <= 12;
  wf_count : 0 <= block_count c < 2 ^ 64 }.
(** The state [n] blocks later. *)
Definition advance (n : Z) (c : EdgeCryptoCtx) : EdgeCryptoCtx :=
  set_block_count ((block_count c + n) mod 2 ^ 64) (set_counter (be_bytes 16 ((be_val (counter c) + n) mod 2 ^ 128)) c).
(** The block cipher's output for block [n] from here. *)
Definition key_block (c : EdgeCryptoCtx) (n : Z) : list Z := aes_enc (aes_key (key c) (key_len c)) (ctr_prep (advance n c)).

Lemma be_bytes_16 x : bytes_of_length 16 (be_bytes 16 x).
Proof. split; [apply length_be_bytes|apply be_bytes_u8]. Qed.
Lemma be_val_16 x : 0 <= x < 2 ^ 128 -> be_val (be_bytes 16 x) = x.
Proof. intros H. by apply be_val_bytes. Qed.
Lemma advance_0 c : crypto_wf c -> advance 0 c = c.
Proof.
  intros [_ [Hl Hb] _ Hc]. unfold advance. rewrite !Z.add_0_r, Z.mod_small by done. pose proof (be_val_bound _ Hb) as Hv. rewrite Hl in Hv.
  rewrite Z.mod_small by exact Hv. pose proof (be_bytes_val _ Hb) as E. rewrite Hl in E. rewrite E. by destruct c.
Qed.
Lemma advance_add m n c : advance m (advance n c) = advance (n + m) c.
Proof.
  unfold advance. cbn [set_block_count set_counter block_count counter]. rewrite be_val_16 by (apply Z.mod_pos_bound; lia).
  rewrite !Zplus_mod_idemp_l, <- !Z.add_assoc. done.
Qed.
Lemma advance_wf n c : crypto_wf c -> crypto_wf (advance n c).
Proof. intros [Hk Hc Hn Hb]. constructor; [done|apply be_bytes_16|done|]. cbn. apply Z.mod_pos_bound. lia. Qed.
Lemma advance_1 c : crypto_wf c -> set_block_count (u64 (block_count c + 1)) (set_counter (ctr_inc (counter c)) c) = advance 1 c.
Proof. intros [_ Hc _ _]. unfold advance. by rewrite ctr_inc_val by done. Qed.

Lemma aes_key_bytes k klen : bytes_of_length 64 k -> bytes_of_length 16 (aes_key k klen).
Proof.
  intros [Hl Hb]. apply overlay_bytes; [|by apply Forall_take|by apply (bool_decide_unpack (bytes_of_length _ _))].
  rewrite length_take. destruct (Z.ltb_spec klen 16); lia.
Qed.
Lemma ctr_prep_eq c : crypto_wf c -> ctr_prep c = take (Z.to_nat (nonce_len c)) (nonce c) ++ take 4 (counter c) ++ replicate (12 - Z.to_nat (nonce_len c)) 0.
Proof.
  intros [_ [Hc _] [[Hn _] Hnl] _]. unfold ctr_prep. assert ((if nonce_len c <? 12 then nonce_len c else 12) = nonce_len c) as -> by (destruct (Z.ltb_spec (nonce_len c) 12); lia).
  destruct (Z.ltb_spec (16 - nonce_len c) 4); [lia|]. change (Z.to_nat 4) with 4%nat. set (n := Z.to_nat (nonce_len c)). assert (length (take n (nonce c)) = n) as Ht by (rewrite length_take; lia).
  unfold splice, overlay. rewrite (length_take (counter c)), Hc, Ht, drop_replicate, take_app_le, take_ge by lia. do 2 f_equal.
  rewrite drop_app_ge, Ht, drop_replicate by lia. f_equal. lia.
Qed.
Lemma ctr_prep_bytes c : crypto_wf c -> bytes_of_length 16 (ctr_prep c).
Proof.
  intros H. rewrite ctr_prep_eq by done. destruct H as [_ [Hc Hcb] [[Hn Hnb] Hnl] _]. split; [rewrite !length_app, !length_take, length_replicate; lia|].
  repeat apply Forall_app_2; [by apply Forall_take..|]. by apply Forall_replicate.
Qed.
Lemma key_block_bytes c n : crypto_wf c -> bytes_of_length 16 (key_block c n).
Proof. intros H. apply aes_enc_correct; [apply aes_key_bytes, H|]. by apply ctr_prep_bytes, advance_wf. Qed.

(** The key stream byte by byte. *)
Definition stream (c : EdgeCryptoCtx) (i : Z) : Z := at_ (key_block c (i / 16)) (i mod 16).
Definition with_stream (f : Z -> Z) (l : list Z) : list Z := (fun i => Z.lxor (at_ l i) (f i)) <$> seqZ 0 (Z.of_nat (length l)).
Definition blocks (n : nat) : Z := (Z.of_nat n + 15) / 16.

Lemma length_with_stream f l : length (with_stream f l) = length l.
Proof. unfold with_stream. rewrite length_fmap, length_seqZ. lia. Qed.
Lemma at_with_stream f l i : 0 <= i < Z.of_nat (length l) -> at_ (with_stream f l) i = Z.lxor (at_ l i) (f i).
Proof. intros. unfold with_stream. by rewrite at_seq. Qed.
Lemma with_stream_ext f g l : (forall i, 0 <= i < Z.of_nat (length l) -> f i = g i) -> with_stream f l = with_stream g l.
Proof. intros H. apply (list_at_eq (length l)); [apply length_with_stream..|]. intros i Hi. rewrite !at_with_stream by lia. by rewrite H. Qed.
Lemma with_stream_twice f l : with_stream f (with_stream f l) = l.
Proof.
  apply (list_at_eq (length l)); [by rewrite !length_with_stream|done|]. intros i Hi. rewrite !at_with_stream by (rewrite ?length_with_stream; lia).
  by rewrite Z.lxor_assoc, Z.lxor_nilpotent, Z.lxor_0_r.
Qed.
(** One block and the rest. *)
Lemma with_stream_block f ks l : length ks = 16%nat -> (forall i, 0 <= i < 16 -> f i = at_ ks i) ->
  with_stream f l = zip_with Z.lxor (take 16 l) ks ++ with_stream (fun i => f (16 + i)) (drop 16 l).
Proof.
  intros Hk H. apply (list_at_eq (length l)); [apply length_with_stream|rewrite length_app, length_with_stream, length_zip_with, length_take, length_drop; lia|].
  intros i Hi. rewrite at_with_stream, at_app, length_zip_with, length_take, Hk by lia. destruct (Z.ltb_spec i (Z.of_nat (16 `min` length l `min` 16))).
  - rewrite H by lia. unfold at_. rewrite !list_lookup_total_alt, lookup_zip_with, lookup_take_lt by lia.
    rewrite (list_lookup_lookup_total_lt l), (list_lookup_lookup_total_lt ks) by lia. done.
  - rewrite at_with_stream by (rewrite length_drop; lia). f_equal; [|f_equal; lia]. unfold at_. rewrite !list_lookup_total_alt, lookup_drop. do 2 f_equal. lia.
Qed.

#[local] Opaque aes_enc.
Lemma stream_advance c i : stream (advance 1 c) i = stream c (16 + i).
Proof.
  unfold stream, key_block. rewrite advance_add. replace (1 + i / 16) with ((16 + i) / 16) by (Z.div_mod_to_equations; lia).
  replace ((16 + i) mod 16) with (i mod 16) by (Z.div_mod_to_equations; lia). done.
Qed.
Lemma key_block_0 c : crypto_wf c -> key_block c 0 = aes_enc (aes_key (key c) (key_len c)) (ctr_prep c).
Proof. intros H. unfold key_block. by rewrite advance_0. Qed.
Lemma ctr_loop_ok fuel text c : crypto_wf c -> (length text <= fuel)%nat ->
  ctr_loop fuel (aes_key (key c) (key_len c)) text c = Done (with_stream (stream c) text, advance (blocks (length text)) c).
Proof.
  revert text c. induction fuel as [|fuel IH]; intros text c Hw Hf.
  - destruct text; [|cbn in Hf; lia]. cbn [ctr_loop length]. change (blocks 0) with 0. by rewrite advance_0.
  - destruct text as [|x text]; [cbn [ctr_loop length]; change (blocks 0) with 0; by rewrite advance_0|]. cbn [ctr_loop].
    set (l := x :: text) in *. assert (0 < length l)%nat by (cbn; lia). clearbody l. rewrite bind_gets, bind_modify, advance_1 by done.
    pose proof (IH (drop 16 l) (advance 1 c) (advance_wf 1 c Hw) ltac:(rewrite length_drop; lia)) as E. cbn [advance set_block_count set_counter key key_len] in E.
    erewrite bind_step by exact E. unfold mret, M_ret. do 2 f_equal.
    + symmetry. etransitivity; [apply (with_stream_block (stream c) (key_block c 0) l); [by apply key_block_bytes|]|].
      2: rewrite key_block_0 by done; apply (f_equal2 app); [reflexivity|]; apply with_stream_ext; intros i Hi; symmetry; apply stream_advance.
      intros i Hi. unfold stream. by rewrite Z.div_small, Z.mod_small by lia.
    + rewrite advance_add. f_equal. unfold blocks. rewrite length_drop. Z.div_mod_to_equations. lia.
Qed.

Lemma ctr_run text len c : crypto_wf c -> initialized c = true -> 0 <= len <= Z.of_nat (length text) ->
  edge_aes_ctr_encrypt text len c = Done (with_stream (stream c) (take (Z.to_nat len) text), advance ((len + 15) / 16) c).
Proof.
  intros Hw Hi Hl. unfold edge_aes_ctr_encrypt. rewrite bind_gets. cbn [id]. rewrite Hi. cbn [negb]. erewrite bind_step by (apply loop_bytes_ok; lia).
  rewrite ctr_loop_ok by done. do 2 f_equal. unfold blocks. rewrite length_take. do 2 f_equal. lia.
Qed.
Lemma crypto_init_run k klen n nlen c :
  Forall is_u8 k -> Forall is_u8 n -> 0 <= klen <= Z.of_nat (length k) -> 0 <= nlen <= Z.of_nat (length n) ->
  exists c', edge_crypto_init k klen n nlen c = Done (tt, c') /\ crypto_wf c' /\ initialized c' = true /\ be_val (counter c') = 0.
Proof.
  intros Hk Hn Hkl Hnl. unfold edge_crypto_init. erewrite bind_step by (apply memcpy_bytes_ok; destruct (Z.ltb_spec klen 64); lia).
  erewrite bind_step by (apply memcpy_bytes_ok; destruct (Z.ltb_spec nlen 12); lia). eexists. split; [done|]. split_and!; [|done|done].
  constructor; cbn [key key_len counter nonce nonce_len block_count].
  - split; [|destruct (Z.ltb_spec klen 64); lia]. apply overlay_bytes; [rewrite length_take; destruct (Z.ltb_spec klen 64); lia|by apply Forall_take|].
    by apply (bool_decide_unpack (bytes_of_length _ _)).
  - by apply (bool_decide_unpack (bytes_of_length _ _)).
  - split; [|destruct (Z.ltb_spec nlen 12); lia]. apply overlay_bytes; [rewrite length_take; destruct (Z.ltb_spec nlen 12); lia|by apply Forall_take|].
    by apply (bool_decide_unpack (bytes_of_length _ _)).
  - lia.
Qed.
(** Counter mode.  Encryption returns, its output is the text masked with the cipher's blocks for the nonce and the first four bytes of the counter, the counter
    goes on by one per block, and decryption from the state in which encryption started gives the text back. *)
Theorem ctr_roundtrip c text len :
  crypto_wf c -> initialized c = true -> 0 <= len <= Z.of_nat (length text) -> exists out c',
  edge_aes_ctr_encrypt text len c = Done (out, c') /\ edge_aes_ctr_decrypt out len c = Done (take (Z.to_nat len) text, c') /\ Z.of_nat (length out) = len /\
  be_val (counter c') = (be_val (counter c) + (len + 15) / 16) mod 2 ^ 128 /\
  forall i, 0 <= i < len -> exists block, at_ out i = Z.lxor (at_ text i) (at_ block (i mod 16)) /\
    block = Cipher (take (Z.to_nat (nonce_len c)) (nonce c) ++ take 4 (be_bytes 16 ((be_val (counter c) + i / 16) mod 2 ^ 128)) ++ replicate (12 - Z.to_nat (nonce_len c)) 0)
      (KeyExpansion (aes_key (key c) (key_len c))).
Proof.
  intros Hw Hi Hl. eexists _, _. split; [by apply ctr_run|]. assert (length (take (Z.to_nat len) text) = Z.to_nat len) as Ht by (rewrite length_take; lia).
  split_and!.
  - unfold edge_aes_ctr_decrypt. rewrite ctr_run by (rewrite ?length_with_stream, ?Ht; done || lia). by rewrite (take_ge (with_stream _ _)), with_stream_twice by (rewrite length_with_stream; lia).
  - rewrite length_with_stream. lia.
  - unfold advance. cbn [set_block_count set_counter counter]. apply be_val_16. apply Z.mod_pos_bound. lia.
  - intros i Hj. exists (key_block c (i / 16)). rewrite at_with_stream, at_take by lia. split; [done|]. unfold key_block.
    destruct (aes_enc_correct (aes_key (key c) (key_len c)) (ctr_prep (advance (i / 16) c))) as [-> _]; [apply aes_key_bytes, Hw|by apply ctr_prep_bytes, advance_wf|].
    by rewrite ctr_prep_eq by by apply advance_wf.
Qed.

Lemma take_be_bytes m x : take 4 (be_bytes (4 + m) x) = be_bytes 4 (Z.shiftr x (8 * Z.of_nat m)).
Proof.
  revert x. induction m as [|m IH]; intros x.
  - rewrite Z.shiftr_0_r. apply take_ge. by rewrite length_be_bytes.
  - rewrite Nat.add_succ_r, be_bytes_S, take_app_le, IH, Z.shiftr_shiftr by (rewrite ?length_be_bytes; lia). do 2 f_equal. lia.
Qed.
(** The block that is encrypted all the time. *)
Definition base_block (c : EdgeCryptoCtx) : list Z := take (Z.to_nat (nonce_len c)) (nonce c) ++ replicate (16 - Z.to_nat (nonce_len c)) 0.
Lemma stream_repeats c i : crypto_wf c -> 0 <= i < 2 ^ 31 -> be_val (counter c) < 2 ^ 96 - 2 ^ 27 -> stream c i = at_ (aes_enc (aes_key (key c) (key_len c)) (base_block c)) (i mod 16).
Proof.
  intros Hw Hi Hv. unfold stream, key_block. rewrite ctr_prep_eq by by apply advance_wf. cbn [advance set_block_count set_counter counter nonce nonce_len].
  destruct Hw as [_ [Hc Hcb] [_ Hn] _]. pose proof (be_val_bound _ Hcb) as [Hv0 _]. assert (0 <= i / 16 < 2 ^ 27) by (Z.div_mod_to_equations; lia).
  rewrite Z.mod_small, (take_be_bytes 12), Z.shiftr_div_pow2, Z.div_small by lia. change (be_bytes 4 0) with (replicate 4 0). unfold base_block.
  assert (replicate 4 0 ++ replicate (12 - Z.to_nat (nonce_len c)) 0 = replicate (16 - Z.to_nat (nonce_len c)) 0) as ->; [|done].
  rewrite <- replicate_add. f_equal. lia.
Qed.

(** The key stream repeats.  The counter is increased at its last byte and its first four bytes are what is encrypted, so that for 2^96 blocks every block has the same
    mask: under one key and nonce, whatever the counters, bytes of any two texts whose positions agree modulo 16 can be compared in the cipher texts. *)
Theorem ctr_stream_repeats c c' text text' len len' i j :
  crypto_wf c -> crypto_wf c' -> initialized c = true -> initialized c' = true ->
  key c' = key c -> key_len c' = key_len c -> nonce c' = nonce c -> nonce_len c' = nonce_len c ->
  be_val (counter c) < 2 ^ 96 - 2 ^ 27 -> be_val (counter c') < 2 ^ 96 - 2 ^ 27 -> len < 2 ^ 31 -> len' < 2 ^ 31 ->
  0 <= i < len -> 0 <= j < len' -> len <= Z.of_nat (length text) -> len' <= Z.of_nat (length text') -> i mod 16 = j mod 16 ->
  exists out out' s s', edge_aes_ctr_encrypt text len c = Done (out, s) /\ edge_aes_ctr_encrypt text' len' c' = Done (out', s') /\
    Z.lxor (at_ out i) (at_ out' j) = Z.lxor (at_ text i) (at_ text' j).
Proof.
  intros Hw Hw' Hi Hi' E1 E2 E3 E4 Hc Hc' Hl Hl' Hij Hj Ht Ht' Em. eexists _, _, _, _. split; [apply ctr_run; done || lia|]. split; [apply ctr_run; done || lia|].
  rewrite !at_with_stream, !at_take, !stream_repeats by (rewrite ?length_take; done || lia). unfold base_block. rewrite E1, E2, E3, E4, Em. set (m := at_ _ (j mod 16)).
  rewrite Z.lxor_assoc, (Z.lxor_comm m), Z.lxor_assoc, Z.lxor_nilpotent, Z.lxor_0_r. done.
Qed.
(** ** GCM: proofs *)

Lemma length_gcm_loop fuel ak ctr text : (length text <= fuel)%nat -> bytes_of_length 16 ak -> bytes_of_length 16 ctr -> length (gcm_loop fuel ak ctr text) = length text.
Proof.
  intros Hf Ha. revert ctr text Hf. induction fuel as [|fuel IH]; intros ctr text Hf Hc; [destruct text; [done|cbn in Hf; lia]|].
  destruct text as [|x text]; [done|]. cbn [gcm_loop]. set (l := x :: text) in *. assert (0 < length l)%nat by (cbn; lia). clearbody l.
  destruct (aes_enc_correct ak ctr Ha Hc) as [_ [Hl _]]. rewrite length_app, length_zip_with, length_take, Hl, IH, length_drop; [lia|rewrite length_drop; lia|].
  rewrite ctr_inc_val by done. apply be_bytes_16.
Qed.
Lemma xor_twice a k : (length a <= length k)%nat -> zip_with Z.lxor (zip_with Z.lxor a k) k = a.
Proof.
  revert k. induction a as [|x a IH]; intros [|y k] H; cbn in *; try done; try lia. by rewrite Z.lxor_assoc, Z.lxor_nilpotent, Z.lxor_0_r, IH by lia.
Qed.
(** The loop over its own output gives the text back. *)
Lemma gcm_loop_twice fuel fuel' ak ctr text :
  (length text <= fuel)%nat -> (length text <= fuel')%nat -> bytes_of_length 16 ak -> bytes_of_length 16 ctr -> gcm_loop fuel' ak ctr (gcm_loop fuel ak ctr text) = text.
Proof.
  intros Hf Hf' Ha. revert fuel' ctr text Hf Hf'. induction fuel as [|fuel IH]; intros fuel' ctr text Hf Hf' Hc; [destruct text; [by destruct fuel'|cbn in Hf; lia]|].
  destruct text as [|x text]; [by destruct fuel'|]. destruct fuel' as [|fuel']; [cbn in Hf'; lia|]. destruct (aes_enc_correct ak ctr Ha Hc) as [_ [Hl _]].
  pose proof (length_gcm_loop (S fuel) ak ctr (x :: text) Hf Ha Hc) as Hlen. cbn [gcm_loop] in *. set (l := x :: text) in *. assert (0 < length l)%nat by (cbn; lia). clearbody l.
  set (a := zip_with Z.lxor (take 16 l) (aes_enc ak ctr)) in *. set (b := gcm_loop fuel ak (ctr_inc ctr) (drop 16 l)) in *.
  assert (length a = Nat.min 16 (length l)) as Hal by (unfold a; rewrite length_zip_with, length_take, Hl; lia).
  assert (length b = length l - 16)%nat as Hbl by (rewrite length_app in Hlen; lia).
  destruct (a ++ b) as [|y r] eqn:E; [apply (f_equal length) in E; rewrite length_app in E; cbn in E; lia|]. rewrite <- E.
  assert (take 16 (a ++ b) = a /\ drop 16 (a ++ b) = b) as [-> ->].
  { destruct (decide (16 <= length l)%nat).
    - split; [rewrite take_app_le, take_ge by lia; done|rewrite drop_app_ge by lia; replace (16 - length a)%nat with 0%nat by lia; apply drop_0].
    - assert (b = []) as -> by (apply length_zero_iff_nil; lia). rewrite app_nil_r. split; [apply take_ge; lia|apply drop_ge; lia]. }
  unfold a at 1. rewrite xor_twice by (rewrite length_take, Hl; lia). unfold b. rewrite IH; [apply take_drop|rewrite length_drop; lia|rewrite length_drop; lia|].
  rewrite ctr_inc_val by done. apply be_bytes_16.
Qed.

Record gcm_wf (c : EdgeGcmCtx) : Prop := { wf_gcm_key : bytes_of_length 64 (gcm_key c); wf_h : bytes_of_length 16 (h_key c); wf_j0 : bytes_of_length 16 (j0 c) }.

Lemma length_shift_right v : length (shift_right v) = 16%nat.
Proof. unfold shift_right. destruct (truthy _); [rewrite length_insert|]; by rewrite length_fmap, length_seqZ. Qed.
Lemma length_ghash_block h y b : length h = 16%nat -> length (ghash_block h y b) = 16%nat.
Proof.
  intros Hh. unfold ghash_block. set (y' := imap _ y). apply (foldl_inv (fun zv => length zv.1 = 16%nat /\ length zv.2 = 16%nat)); [done|].
  intros [z v] i [Hz Hv]. unfold ghash_bit. cbn [fst snd] in *. split; [|apply length_shift_right]. destruct (truthy _); [rewrite length_zip_with; lia|done].
Qed.
Lemma block_loop_S f n data y : (0 < length data)%nat -> block_loop f (S n) data y = block_loop f n (drop 16 data) (f y (take 16 data)).
Proof. intros H. destruct data as [|x data]; [inversion H|]. reflexivity. Qed.
Lemma block_loop_nil f n y : block_loop f n [] y = y.
Proof. by destruct n. Qed.
Lemma block_loop_inv (P : list Z -> Prop) f n data y : P y -> (forall y b, P y -> P (f y b)) -> P (block_loop f n data y).
Proof. intros Hy Hf. revert data y Hy. induction n as [|n IH]; intros data y Hy; destruct data; cbn; auto. Qed.
Lemma length_gcm_ghash h data y : length h = 16%nat -> length y = 16%nat -> length (gcm_ghash h data y) = 16%nat.
Proof. intros Hh Hy. apply (block_loop_inv (fun y => length y = 16%nat)); [done|]. intros. by apply length_ghash_block. Qed.

Lemma tag_loop_ok {S} ct tag (s : S) : (length ct <= length tag)%nat -> tag_loop ct tag s = Done (bool_decide (take (length ct) tag = ct), s).
Proof.
  revert tag. induction ct as [|x ct IH]; intros [|y tag] H; cbn in H; try lia; try done. cbn [tag_loop length take]. destruct (Z.eqb_spec x y) as [->|Hne].
  - rewrite IH by lia. unfold mret, M_ret. do 2 f_equal. apply bool_decide_ext. split; [by intros ->|by intros [= ->]].
  - by rewrite bool_decide_eq_false_2 by congruence.
Qed.
(** [n] rounded up to blocks. *)
Definition up16 (n : Z) : Z := n + (16 - n mod 16) mod 16.
Lemma length_gcm_data aad t : Z.of_nat (length (gcm_data aad t)) = up16 (Z.of_nat (length aad)) + up16 (Z.of_nat (length t)) + 16.
Proof. unfold gcm_data, pad16, up16. rewrite !length_app, !length_replicate, !length_be_bytes. Z.div_mod_to_equations. lia. Qed.
Lemma gcm_start_bytes j : bytes_of_length 16 j -> bytes_of_length 16 (gcm_start j).
Proof.
  intros Hj. destruct (Hj) as [Hl Hb]. split; [unfold gcm_start; by rewrite length_insert|]. apply Forall_insert; [done|].
  pose proof (at_u8 16 j 15 Hj ltac:(lia)) as Hx. revert Hx. generalize (at_ j 15). intros x Hx.
  assert (0 <= Z.land x 0xFE) by (apply Z.land_nonneg; lia). apply (lor_bound 8); [lia| |lia]. split; [done|]. apply pow2_bound_bits; [lia|done|].
  intros i Hi. by rewrite Z.land_spec, (testbit_high 8 x) by (done || lia).
Qed.

Lemma gcm_tag_run c a t : gcm_wf c -> up16 (Z.of_nat (length a)) + up16 (Z.of_nat (length t)) <= 496 -> exists tag, gcm_tag c a t c = Done (tag, c) /\ length tag = 16%nat.
Proof.
  intros [Hk Hh Hj] Hb. pose proof (length_gcm_data a t) as Hd. unfold gcm_tag. destruct (Nat.ltb_spec 512 (length (gcm_data a t))); [lia|]. eexists. split; [done|].
  destruct (aes_enc_correct (aes_key (gcm_key c) (gcm_key_len c)) (j0 c) ltac:(by apply aes_key_bytes) Hj) as [_ [Hl _]].
  rewrite length_zip_with, length_gcm_ghash, Hl by (apply Hh || done). done.
Qed.

(** C23: the mode GCM: for text and associated data that fit into the 512 bytes of the buffer, encryption returns, and decryption of its output gives the text back and true for
    the computed tag, false for every other one; the text is written in either case.  Longer ones overrun the buffer. *)
Theorem gcm_roundtrip c plain plen aad aad_len :
  gcm_wf c -> gcm_initialized c = true -> 0 <= plen <= Z.of_nat (length plain) -> 0 <= aad_len <= Z.of_nat (length aad) ->
  (up16 aad_len + up16 plen <= 496 -> exists cipher tag,
    edge_gcm_encrypt plain plen aad aad_len c = Done ((cipher, tag), c) /\ Z.of_nat (length cipher) = plen /\ length tag = 16%nat /\
    forall tag', (16 <= length tag')%nat -> edge_gcm_decrypt cipher plen aad aad_len tag' c = Done ((bool_decide (take 16 tag' = tag), take (Z.to_nat plen) plain), c)) /\
  (496 < up16 aad_len + up16 plen -> edge_gcm_encrypt plain plen aad aad_len c = UB).
Proof.
  intros Hw Hi Hp Ha. set (p := take (Z.to_nat plen) plain). set (a := take (Z.to_nat aad_len) aad). set (ak := aes_key (gcm_key c) (gcm_key_len c)).
  assert (Z.of_nat (length p) = plen /\ Z.of_nat (length a) = aad_len) as [Hpl Hal] by (unfold p, a; rewrite !length_take; lia).
  assert (bytes_of_length 16 ak) as Hak by apply aes_key_bytes, Hw. pose proof (gcm_start_bytes (j0 c) (wf_j0 c Hw)) as Hs.
  set (t := gcm_loop (length p) ak (gcm_start (j0 c)) p). assert (length t = length p) as Htl by (by apply length_gcm_loop).
  assert (forall B (f : _ -> GM B), (pb ← memcpy_bytes plain plen; f pb) c = f p c) as Hmp by (intros B f; by rewrite (bind_step _ _ _ _ _ (memcpy_bytes_ok plain plen c Hp))).
  assert (forall B (f : _ -> GM B), (ab ← memcpy_bytes aad aad_len; f ab) c = f a c) as Hma by (intros B f; by rewrite (bind_step _ _ _ _ _ (memcpy_bytes_ok aad aad_len c Ha))).
  assert (edge_gcm_encrypt plain plen aad aad_len c = (tag ← gcm_tag c a t; mret (t, tag)) c) as ->
    by (unfold edge_gcm_encrypt; rewrite bind_gets; cbn [id]; rewrite Hi; cbn [negb]; rewrite Hmp, Hma; done).
  split.
  - intros Hb. destruct (gcm_tag_run c a t Hw ltac:(rewrite Htl, Hpl, Hal; lia)) as (tag & Ht & Hl). exists t, tag. split_and!; [by rewrite (bind_step _ _ _ _ _ Ht)|lia|done|].
    intros tag' Hl'. unfold edge_gcm_decrypt. rewrite bind_gets. cbn [id]. rewrite Hi. cbn [negb].
    rewrite (bind_step _ _ _ t c) by (rewrite memcpy_bytes_ok, take_ge by lia; done). rewrite Hma, (bind_step _ _ _ _ _ Ht).
    rewrite (bind_step _ _ _ _ _ (tag_loop_ok tag tag' c ltac:(lia))). rewrite Hl. unfold mret, M_ret. do 2 f_equal. apply (f_equal (pair _)).
    unfold t at 2. apply gcm_loop_twice; [done|lia|done|done].
  - intros Hb. unfold gcm_tag, mbind, M_bind. pose proof (length_gcm_data a t) as Hd. rewrite Htl, Hpl, Hal in Hd. destruct (Nat.ltb_spec 512 (length (gcm_data a t))); [done|]. lia.
Qed.
(** *** The field of GCM *)

(** NIST SP 800-38D: a block is a polynomial, the first bit of the first byte its constant term; [be_val] puts that bit on top. *)
Definition gf_R : Z := Z.shiftl 0xE1 120.
Definition gf_step (x : Z) (zv : Z * Z) (i : Z) : Z * Z :=
  let '(z, v) := zv in (if Z.testbit x (127 - i) then Z.lxor z v else z, if Z.odd v then Z.lxor (Z.shiftr v 1) gf_R else Z.shiftr v 1).
Definition gf_mul (x y : Z) : Z := (foldl (gf_step x) (0, y) (seqZ 0 128)).1.
Definition xor_block (y block : list Z) : list Z := imap (fun i b => Z.lxor b (if (i <? length block)%nat then at_ block (Z.of_nat i) else 0)) y.
(** GHASH, with a change of the operand's bytes that the standard does not have. *)
Definition GHASH (swap : list Z -> list Z) (h data y : list Z) : list Z :=
  block_loop (fun y block => be_bytes 16 (gf_mul (be_val (swap (xor_block y block))) (be_val h))) (length data) data y.

Lemma testbit_le_val l p : Forall is_u8 l -> 0 <= p -> Z.testbit (le_val l) p = Z.testbit (nth (Z.to_nat (p / 8)) l 0) (p mod 8).
Proof.
  intros Hb. revert p. induction Hb as [|x l Hx Hb IH]; intros p Hp; cbn [le_val].
  - rewrite Z.bits_0. destruct (Z.to_nat (p / 8)); cbn; by rewrite Z.bits_0.
  - unfold is_u8 in Hx. rewrite Z.add_comm, Z.mul_comm. change 256 with (2 ^ 8). rewrite <- (lor_shiftl_add (le_val l) x 8) by lia. rewrite Z.lor_spec, Z.shiftl_spec by done.
    destruct (Z.ltb_spec p 8) as [H|H].
    + rewrite (Z.testbit_neg_r _ (p - 8)) by lia. rewrite Z.div_small, Z.mod_small by lia. done.
    + rewrite (testbit_high 8 x p), orb_false_r, IH by lia. replace (p / 8) with (1 + (p - 8) / 8) by (Z.div_mod_to_equations; lia).
      replace (p mod 8) with ((p - 8) mod 8) by (Z.div_mod_to_equations; lia). by rewrite Z2Nat.inj_add by (Z.div_mod_to_equations; lia).
Qed.
Lemma at_nth l i : 0 <= i < Z.of_nat (length l) -> at_ l i = nth (Z.to_nat i) l 0.
Proof. intros Hi. unfold at_. apply list_lookup_total_correct. destruct (nth_lookup_or_length l (Z.to_nat i) 0) as [E|?]; [done|lia]. Qed.
Lemma testbit_be_val l p : bytes_of_length 16 l -> 0 <= p < 128 -> Z.testbit (be_val l) p = Z.testbit (at_ l (15 - p / 8)) (p mod 8).
Proof.
  intros [Hl Hb] Hp. unfold be_val. rewrite testbit_le_val by (by apply Forall_reverse || lia). assert (0 <= p / 8 < 16) by (Z.div_mod_to_equations; lia).
  rewrite at_nth by lia. unfold reverse. rewrite <- List.rev_alt, rev_nth, Hl by lia. do 2 f_equal. lia.
Qed.
Lemma testbit_be_high l p : bytes_of_length 16 l -> 128 <= p -> Z.testbit (be_val l) p = false.
Proof. intros [Hl Hb] Hp. apply (testbit_high 128); [|done]. pose proof (be_val_bound l Hb) as H. by rewrite Hl in H. Qed.
(** Blocks with equal bits are equal numbers. *)
Lemma be_val_bits l x : bytes_of_length 16 l -> 0 <= x < 2 ^ 128 -> (forall k b, 0 <= k < 16 -> 0 <= b < 8 -> Z.testbit (at_ l k) b = Z.testbit x (8 * (15 - k) + b)) -> be_val l = x.
Proof.
  intros Hl Hx H. apply Z.bits_inj'. intros p Hp. destruct (Z.ltb_spec p 128).
  - rewrite testbit_be_val, H by (done || Z.div_mod_to_equations; lia). f_equal. Z.div_mod_to_equations. lia.
  - by rewrite testbit_be_high, (testbit_high 128) by done.
Qed.

Lemma at_zip_xor a b k : length a = length b -> 0 <= k < Z.of_nat (length a) -> at_ (zip_with Z.lxor a b) k = Z.lxor (at_ a k) (at_ b k).
Proof.
  intros Hl Hk. unfold at_. rewrite !list_lookup_total_alt, lookup_zip_with, (list_lookup_lookup_total_lt a), (list_lookup_lookup_total_lt b) by lia. done.
Qed.
Lemma xor_bytes n a b : bytes_of_length n a -> bytes_of_length n b -> bytes_of_length n (zip_with Z.lxor a b).
Proof.
  intros [Hl Hb] [Hl' Hb']. split; [rewrite length_zip_with; lia|]. apply Forall_zip_with_fst with is_u8; [done|]. eapply Forall_impl; [exact Hb'|].
  intros x Hx y Hy. by apply lxor_u8.
Qed.
Lemma be_val_range l : bytes_of_length 16 l -> 0 <= be_val l < 2 ^ 128.
Proof. intros [Hl Hb]. pose proof (be_val_bound l Hb) as H. by rewrite Hl in H. Qed.
Lemma be_val_xor a b : bytes_of_length 16 a -> bytes_of_length 16 b -> be_val (zip_with Z.lxor a b) = Z.lxor (be_val a) (be_val b).
Proof.
  intros Ha Hb. apply be_val_bits; [by apply xor_bytes|apply lxor_bound; [done|by apply be_val_range..]|]. intros k i Hk Hi. destruct Ha as [Hl Hab], Hb as [Hl' Hbb].
  rewrite at_zip_xor by lia. rewrite !Z.lxor_spec, !testbit_be_val by (done || lia).
  assert ((8 * (15 - k) + i) / 8 = 15 - k /\ (8 * (15 - k) + i) mod 8 = i) as [-> ->] by (split; Z.div_mod_to_equations; lia). by replace (15 - (15 - k)) with k by lia.
Qed.
Lemma odd_be_val v : bytes_of_length 16 v -> Z.odd (be_val v) = truthy (Z.land (at_ v 15) 1).
Proof.
  intros Hv. rewrite <- Z.bit0_odd, testbit_be_val by (done || lia). change (15 - 0 / 8) with 15. change (0 mod 8) with 0. rewrite Z.bit0_odd.
  change 1 with (Z.ones 1). rewrite Z.land_ones by done. change (2 ^ 1) with 2. rewrite Zmod_odd. unfold truthy. by destruct (Z.odd _).
Qed.

(** The shift without the carry. *)
Definition shifted (v : list Z) : list Z := (fun j => if j =? 0 then Z.shiftr (at_ v 0) 1 else u8 (Z.lor (Z.shiftr (at_ v j) 1) (Z.shiftl (at_ v (j - 1)) 7))) <$> seqZ 0 16.
Lemma shifted_bytes v : bytes_of_length 16 v -> bytes_of_length 16 (shifted v).
Proof.
  intros Hv. unfold shifted. split; [by rewrite length_fmap, length_seqZ|]. apply Forall_fmap, Forall_true. intros j. cbn. destruct (j =? 0); [|apply u8_range].
  pose proof (at_u8 16 v 0 Hv ltac:(lia)) as H. unfold is_u8 in *. rewrite Z.shiftr_div_pow2 by done. Z.div_mod_to_equations. lia.
Qed.
Lemma be_val_shifted v : bytes_of_length 16 v -> be_val (shifted v) = Z.shiftr (be_val v) 1.
Proof.
  intros Hv. pose proof (be_val_range v Hv) as Hr. apply be_val_bits; [by apply shifted_bytes|rewrite Z.shiftr_div_pow2 by done; Z.div_mod_to_equations; lia|].
  intros k b Hk Hb. rewrite Z.shiftr_spec by lia. unfold shifted. rewrite at_seq by lia.
  assert (forall j, 0 <= j < 16 -> is_u8 (at_ v j)) as Hu by (intros j Hj; by apply (at_u8 16)).
  destruct (Z.ltb_spec b 7) as [H7|H7].
  - assert (Z.testbit (be_val v) (8 * (15 - k) + b + 1) = Z.testbit (at_ v k) (b + 1)) as ->.
    { rewrite testbit_be_val by (done || lia). f_equal; [f_equal|]; Z.div_mod_to_equations; lia. }
    destruct (Z.eqb_spec k 0) as [->|Hk0]; [by rewrite Z.shiftr_spec by lia|]. unfold u8. change 256 with (2 ^ 8). rewrite Z.mod_pow2_bits_low, Z.lor_spec, Z.shiftr_spec by lia.
    rewrite Z.shiftl_spec_low by lia. by rewrite orb_false_r.
  - assert (b = 7) as -> by lia. destruct (Z.eqb_spec k 0) as [->|Hk0].
    + rewrite Z.shiftr_spec by lia. rewrite testbit_be_high by (done || lia). apply (testbit_high 8); [apply Hu; lia|lia].
    + rewrite testbit_be_val by (done || lia). unfold u8. change 256 with (2 ^ 8). rewrite Z.mod_pow2_bits_low, Z.lor_spec, Z.shiftr_spec, Z.shiftl_spec by lia.
      rewrite (testbit_high 8 (at_ v k)) by (lia || apply Hu; lia). cbn [orb]. f_equal; [f_equal|]; Z.div_mod_to_equations; lia.
Qed.
Lemma shift_right_eq v : shift_right v = if truthy (Z.land (at_ v 15) 1) then <[0%nat := Z.lxor (at_ (shifted v) 0) 0xE1]> (shifted v) else shifted v.
Proof. done. Qed.
Definition r_block : list Z := 0xE1 :: replicate 15 0.
Lemma r_block_bytes : bytes_of_length 16 r_block.
Proof. by apply (bool_decide_unpack (bytes_of_length _ _)). Qed.
Lemma xor_zeros l n : length l = n -> zip_with Z.lxor l (replicate n 0) = l.
Proof. revert n. induction l as [|x l IH]; intros n <-; cbn; [done|]. by rewrite Z.lxor_0_r, IH. Qed.
Lemma shift_right_val v : bytes_of_length 16 v ->
  bytes_of_length 16 (shift_right v) /\ be_val (shift_right v) = if Z.odd (be_val v) then Z.lxor (Z.shiftr (be_val v) 1) gf_R else Z.shiftr (be_val v) 1.
Proof.
  intros Hv. rewrite shift_right_eq, odd_be_val by done. pose proof (shifted_bytes v Hv) as Hs. destruct (truthy _); [|split; [done|by apply be_val_shifted]].
  assert (<[0%nat := Z.lxor (at_ (shifted v) 0) 0xE1]> (shifted v) = zip_with Z.lxor (shifted v) r_block) as ->.
  { revert Hs. generalize (shifted v). intros [|x l] [Hl _]; [done|]. cbn [length] in Hl. unfold r_block. cbn [insert list_insert zip_with]. by rewrite xor_zeros by lia. }
  split; [apply xor_bytes, r_block_bytes; done|]. rewrite be_val_xor, be_val_shifted by (done || apply r_block_bytes). done.
Qed.
Lemma reverse_bytes n l : bytes_of_length n l -> bytes_of_length n (reverse l).
Proof. intros [Hl Hb]. split; [by rewrite length_reverse|by apply Forall_reverse]. Qed.
Lemma at_reverse l k : length l = 16%nat -> 0 <= k < 16 -> at_ (reverse l) k = at_ l (15 - k).
Proof.
  intros Hl Hk. rewrite !at_nth by (rewrite ?length_reverse; lia). unfold reverse. rewrite <- List.rev_alt, rev_nth, Hl by lia. f_equal. lia.
Qed.
Lemma ghash_bit_test y i : bytes_of_length 16 y -> 0 <= i < 128 -> truthy (Z.land (at_ y (15 - i / 8)) (Z.shiftl 1 (7 - i mod 8))) = Z.testbit (be_val (reverse y)) (127 - i).
Proof.
  intros Hy Hi. rewrite land_bit by (Z.div_mod_to_equations; lia). rewrite testbit_be_val by (lia || by apply reverse_bytes).
  assert ((127 - i) / 8 = 15 - i / 8 /\ (127 - i) mod 8 = 7 - i mod 8) as [-> ->] by (split; Z.div_mod_to_equations; lia).
  rewrite at_reverse by (first [apply Hy | Z.div_mod_to_equations; lia]). f_equal. f_equal. lia.
Qed.
Lemma ghash_bits y l zv zv' : bytes_of_length 16 y -> Forall (fun i => 0 <= i < 128) l ->
  bytes_of_length 16 zv.1 -> bytes_of_length 16 zv.2 -> zv' = (be_val zv.1, be_val zv.2) ->
  bytes_of_length 16 (foldl (ghash_bit y) zv l).1 /\ be_val (foldl (ghash_bit y) zv l).1 = (foldl (gf_step (be_val (reverse y))) zv' l).1.
Proof.
  intros Hy Hl. revert zv zv'. induction Hl as [|i l Hi Hl IH]; intros [z v] zv' Hz Hv ->; cbn [foldl fst snd] in *; [done|].
  destruct (shift_right_val v Hv) as [Hs Es]. unfold ghash_bit at 2 4, gf_step at 2. rewrite ghash_bit_test by done. rewrite <- Es.
  apply IH; cbn [fst snd]; [|done|]; destruct (Z.testbit _ _); try done; [by apply xor_bytes|by rewrite be_val_xor].
Qed.

Lemma xor_block_bytes y block : bytes_of_length 16 y -> Forall is_u8 block -> bytes_of_length 16 (xor_block y block).
Proof.
  intros [Hl Hb] Hk. split; [unfold xor_block; by rewrite length_imap|]. apply Forall_lookup. intros i x. unfold xor_block. rewrite list_lookup_imap.
  destruct (y !! i) as [b|] eqn:E; [|done]. cbn [fmap option_fmap option_map]. intros [= <-]. rewrite Forall_lookup in Hb. apply lxor_u8; [by apply (Hb i)|].
  destruct (Nat.ltb_spec i (length block)); [|split; lia]. apply (at_u8 (length block)); [by split|lia].
Qed.
Lemma ghash_block_val h y block : bytes_of_length 16 h -> bytes_of_length 16 y -> Forall is_u8 block ->
  ghash_block h y block = be_bytes 16 (gf_mul (be_val (reverse (xor_block y block))) (be_val h)).
Proof.
  intros Hh Hy Hb. pose proof (xor_block_bytes y block Hy Hb) as Hx. unfold gf_mul.
  destruct (ghash_bits (xor_block y block) (seqZ 0 128) (replicate 16 0, h) (0, be_val h)) as [[Hl Hf] Hv]; [done| |by apply (bool_decide_unpack (bytes_of_length _ _))|done|done|].
  { apply Forall_forall. intros i Hi%elem_of_seqZ. lia. }
  change (ghash_block h y block) with (foldl (ghash_bit (xor_block y block)) (replicate 16 0, h) (seqZ 0 128)).1. rewrite <- Hv. pose proof (be_bytes_val _ Hf) as E. rewrite Hl in E. by rewrite E.
Qed.
Lemma block_loop_ext (P : list Z -> Prop) f g n data y :
  Forall is_u8 data -> P y -> (forall y b, P y -> Forall is_u8 b -> f y b = g y b /\ P (g y b)) -> block_loop f n data y = block_loop g n data y.
Proof.
  intros Hd Hy Hf. revert data y Hd Hy. induction n as [|n IH]; intros data y Hd Hy; [by destruct data|].
  destruct (decide (length data = 0%nat)) as [->%length_zero_iff_nil|]; [done|]. rewrite !block_loop_S by lia.
  destruct (Hf y (take 16 data) Hy ltac:(by apply Forall_take)) as [-> Hg]. apply IH; [by apply Forall_drop|done].
Qed.

(** C24: the tag is not that of GCM.  The hash of the source is GHASH of SP 800-38D, product in GF(2^128) included, but for the bytes of the operand, which come in reverse
    order before every product.  On the standard's test case 2 (key, nonce and block of zeros) the text is encrypted as the standard says, the tag is another. *)
Theorem ghash_reversed :
  (forall h data y, bytes_of_length 16 h -> bytes_of_length 16 y -> Forall is_u8 data -> gcm_ghash h data y = GHASH reverse h data y) /\
  let zeros := replicate 16 0 in
  let cipher := [0x03; 0x88; 0xda; 0xce; 0x60; 0xb6; 0xa3; 0x92; 0xf3; 0x28; 0xc2; 0xb9; 0x71; 0xb2; 0xfe; 0x78] in
  let standard := [0xab; 0x6e; 0x47; 0xd4; 0x2c; 0xec; 0x13; 0xbd; 0xf5; 0x3a; 0x67; 0xb2; 0x12; 0x57; 0xbd; 0xdf] in
  exists c tag, (edge_gcm_init zeros 16 zeros 12;; edge_gcm_encrypt zeros 16 [] 0) (GcmCtx [] 0 [] 0 [] [] false) = Done ((cipher, tag), c) /\ tag <> standard /\
    zip_with Z.lxor (GHASH id (h_key c) (gcm_data [] cipher) zeros) (aes_enc zeros (j0 c)) = standard.
Proof.
  split.
  - intros h data y Hh Hy Hd. unfold gcm_ghash, GHASH. apply (block_loop_ext (bytes_of_length 16)); [done|done|]. intros y' b Hy' Hb.
    split; [by apply ghash_block_val|apply be_bytes_16].
  - cbv zeta. eexists _, _. split; [vm_compute; reflexivity|]. split; [|vm_compute; reflexivity]. intros H. discriminate H.
Qed.
(** ** Signatures and key agreement: proofs *)

Definition ecdsa_wf (k : EdgeEcdsaKey) : Prop := bytes_of_length 32 (private_key k) /\ bytes_of_length 32 (public_key_x k) /\ bytes_of_length 32 (public_key_y k).
(** What verification expects at byte [i]. *)
Definition expected (k : EdgeEcdsaKey) (hash : list Z) (hash_len i : Z) : Z :=
  Z.lxor (Z.lxor (Z.lxor (at_ hash (i mod hash_len)) (at_ (public_key_x k) ((i * 3) mod 32))) (at_ (public_key_y k) ((i * 7) mod 32))) (u8 (i + 1)).
Definition signature_r (k : EdgeEcdsaKey) (hash : list Z) (hash_len i : Z) : Z :=
  Z.lxor (Z.lxor (Z.lxor (at_ hash (i mod hash_len)) (at_ (private_key k) i)) (at_ (public_key_x k) ((i * 3) mod 32))) (u8 (0xEC + i)).
Definition signature_s (k : EdgeEcdsaKey) (hash : list Z) (hash_len i : Z) : Z :=
  Z.lxor (Z.lxor (Z.lxor (at_ hash ((i + 8) mod hash_len)) (at_ (private_key k) ((i + 11) mod 32))) (at_ (public_key_y k) ((i * 5) mod 32))) (u8 (0xD5 + i * 3)).
Lemma ecdsa_sign_run {S} k hash hash_len (s : S) : has_private k = true -> 0 < hash_len <= Z.of_nat (length hash) ->
  edge_ecdsa_sign k hash hash_len s = Done (Some ((signature_r k hash hash_len <$> seqZ 0 32) ++ (signature_s k hash hash_len <$> seqZ 0 32)), s).
Proof.
  intros Hp Hl. unfold edge_ecdsa_sign. rewrite Hp. cbn [negb].
  erewrite bind_step by (apply (fill_loop_ok 32 0 _ (signature_r k hash hash_len)); intros j Hj; by erewrite bind_step by (apply at_rem_ok; lia)).
  by erewrite bind_step by (apply (fill_loop_ok 32 0 _ (signature_s k hash hash_len)); intros j Hj; by erewrite bind_step by (apply at_rem_ok; lia)).
Qed.
Definition accepts (k : EdgeEcdsaKey) (hash : list Z) (hash_len : Z) (sig : list Z) (n : nat) (i : Z) : Prop :=
  Forall (fun j => at_ sig j = expected k hash hash_len j) (seqZ i (Z.of_nat n)).
#[export] Instance accepts_dec k hash hash_len sig n i : Decision (accepts k hash hash_len sig n i).
Proof. apply _. Defined.
Lemma accepts_S k hash hash_len sig n i : accepts k hash hash_len sig (S n) i <-> at_ sig i = expected k hash hash_len i /\ accepts k hash hash_len sig n (i + 1).
Proof. unfold accepts. rewrite Nat2Z.inj_succ, seqZ_cons, Z.pred_succ, Z.add_1_r, Forall_cons by lia. done. Qed.
Lemma ecdsa_loop_run {S} n i k hash hash_len sig (s : S) : 0 < hash_len <= Z.of_nat (length hash) -> 0 <= i -> i + Z.of_nat n <= Z.of_nat (length sig) ->
  ecdsa_verify_loop n i k hash hash_len sig s = Done (bool_decide (accepts k hash hash_len sig n i), s).
Proof.
  intros Hl. revert i. induction n as [|n IH]; intros i Hi Hs; [done|]. cbn [ecdsa_verify_loop]. erewrite bind_step by (apply at_rem_ok; lia).
  rewrite (list_lookup_lookup_total_lt sig (Z.to_nat i)) by lia. cbn [of_option]. rewrite bind_ret. fold (at_ sig i) (expected k hash hash_len i).
  rewrite (bool_decide_ext _ _ (accepts_S k hash hash_len sig n i)). destruct (Z.eqb_spec (at_ sig i) (expected k hash hash_len i)); cbn [negb].
  - rewrite IH by lia. do 2 f_equal. apply bool_decide_ext. naive_solver.
  - rewrite bool_decide_eq_false_2 by naive_solver. done.
Qed.
Lemma verify_run {S} k hash hash_len sig sig_len (s : S) : 0 < hash_len <= Z.of_nat (length hash) -> 64 <= sig_len <= Z.of_nat (length sig) ->
  edge_ecdsa_verify k hash hash_len sig sig_len s = Done (bool_decide (accepts k hash hash_len sig 16 0), s).
Proof. intros Hl Hs. unfold edge_ecdsa_verify. destruct (Z.ltb_spec sig_len 64); [lia|]. apply ecdsa_loop_run; lia. Qed.

Lemma lxor_swap_r a b c : Z.lxor (Z.lxor a b) c = Z.lxor (Z.lxor a c) b.
Proof. by rewrite !Z.lxor_assoc, (Z.lxor_comm b). Qed.

(** Signatures.  A signature is accepted under its own key just when sixteen bytes of the private and the public key agree up to constants, whatever was signed; those
    of a generated key never are.  Who knows the public key alone makes a signature of any hash that is accepted. *)
Theorem ecdsa_verify_correct k hash hash_len (s : unit) :
  has_private k = true -> 0 < hash_len <= Z.of_nat (length hash) ->
  (exists sig, edge_ecdsa_sign k hash hash_len s = Done (Some sig, s) /\ length sig = 64%nat /\
    edge_ecdsa_verify k hash hash_len sig 64 s =
      Done (bool_decide (Forall (fun i => Z.lxor (at_ (private_key k) i) (u8 (0xEC + i)) = Z.lxor (at_ (public_key_y k) ((i * 7) mod 32)) (u8 (i + 1))) (seqZ 0 16)), s)) /\
  (exists sig, edge_ecdsa_sign edge_ecdsa_keygen hash hash_len s = Done (Some sig, s) /\ edge_ecdsa_verify edge_ecdsa_keygen hash hash_len sig 64 s = Done (false, s)) /\
  (exists sig, length sig = 64%nat /\ forall k', public_key_x k' = public_key_x k -> public_key_y k' = public_key_y k -> edge_ecdsa_verify k' hash hash_len sig 64 s = Done (true, s)).
Proof.
  intros Hp Hl. assert (forall k, has_private k = true -> exists sig, edge_ecdsa_sign k hash hash_len s = Done (Some sig, s) /\ length sig = 64%nat /\
    edge_ecdsa_verify k hash hash_len sig 64 s =
      Done (bool_decide (Forall (fun i => Z.lxor (at_ (private_key k) i) (u8 (0xEC + i)) = Z.lxor (at_ (public_key_y k) ((i * 7) mod 32)) (u8 (i + 1))) (seqZ 0 16)), s)) as Hsign.
  { clear k Hp. intros k Hp. eexists. split; [by apply ecdsa_sign_run|]. split; [done|]. rewrite verify_run by (done || (rewrite length_app, !length_fmap, length_seqZ; lia)).
    do 2 f_equal. apply bool_decide_ext. unfold accepts. rewrite !Forall_forall. apply forall_proper. intros i. apply under_hyp. intros Hi%elem_of_seqZ. rewrite at_app, length_fmap, length_seqZ by lia.
    destruct (Z.ltb_spec i (Z.of_nat (Z.to_nat 32))); [|lia]. rewrite at_seq by lia. unfold signature_r, expected.
    rewrite (lxor_swap_r _ (at_ (private_key k) i)), !Z.lxor_assoc, !lxor_cancel_iff. done. }
  split_and!; [by apply Hsign| |].
  - destruct (Hsign edge_ecdsa_keygen eq_refl) as (sig & H1 & _ & H2). exists sig. split; [done|]. rewrite H2. reflexivity.
  - exists ((expected k hash hash_len <$> seqZ 0 64)). split; [done|]. intros k' Ex Ey. rewrite verify_run by (done || (rewrite length_fmap, length_seqZ; lia)).
    rewrite bool_decide_eq_true_2; [done|]. apply Forall_forall. intros i Hi%elem_of_seqZ. rewrite at_seq by lia. unfold expected. by rewrite Ex, Ey.
Qed.
(** Key agreement.  Two parties whose public keys are derived from their private ones get the same secret just when the private keys are the same. *)
Theorem ecdh_agrees_iff_same_key a b (s : unit) :
  bytes_of_length 32 (private_key a) -> bytes_of_length 32 (private_key b) ->
  let A := edge_ecdsa_derive_public a in let B := edge_ecdsa_derive_public b in
  exists x y, edge_ecdh_compute_shared A (public_key_x B) (public_key_y B) s = Done (x, s) /\ edge_ecdh_compute_shared B (public_key_x A) (public_key_y A) s = Done (y, s) /\
    (x = y <-> private_key a = private_key b).
Proof.
  intros [Ha _] [Hb _] A B. assert (forall k, length (public_key_x (edge_ecdsa_derive_public k)) = 32%nat /\ length (public_key_y (edge_ecdsa_derive_public k)) = 32%nat) as Hpub
    by (intros k; split; cbn; by rewrite length_fmap, length_seqZ).
  assert (forall k l, edge_ecdh_compute_shared (edge_ecdsa_derive_public k) (public_key_x (edge_ecdsa_derive_public l)) (public_key_y (edge_ecdsa_derive_public l)) s =
    Done ((fun i => Z.lxor (Z.lxor (Z.lxor (at_ (private_key k) i) (Z.lxor (at_ (private_key l) i) (u8 (0x9E + i * 13))))
      (Z.lxor (at_ (private_key l) ((i + 15) mod 32)) (u8 (0x3A + ((i + 8) mod 32) * 19)))) (u8 (0xAD + i * 7))) <$> seqZ 0 32, s)) as Hrun.
  { intros k l. destruct (Hpub l) as [Hx Hy]. unfold edge_ecdh_compute_shared. erewrite bind_step by (apply memcpy_bytes_ok; lia). erewrite bind_step by (apply memcpy_bytes_ok; lia).
    rewrite !take_ge by lia. reflexivity. }
  eexists _, _. split; [apply Hrun|]. split; [apply Hrun|]. split.
  - intros E. apply (list_at_eq 32); [done|done|]. intros i Hi. apply (f_equal (fun l => at_ l ((i + 17) mod 32))) in E.
    assert (0 <= (i + 17) mod 32 < 32) by (Z.div_mod_to_equations; lia). rewrite !at_seq in E by lia. set (j := (i + 17) mod 32) in *.
    replace ((j + 15) mod 32) with i in E by (unfold j; Z.div_mod_to_equations; lia).
    rewrite !Z.lxor_assoc in E. rewrite <- (Z.lxor_assoc (at_ (private_key a) j)), (Z.lxor_comm (at_ (private_key a) j)), Z.lxor_assoc, !lxor_cancel_iff in E.
    rewrite !(Z.lxor_comm _ (Z.lxor (u8 _) _)) in E. by apply lxor_cancel_iff in E.
  - intros E. rewrite E. done.
Qed.

(** ** Constant time: proofs *)

Lemma lor_fold l d : 0 <= d -> Forall (fun p => is_u8 p.1 /\ is_u8 p.2) l ->
  0 <= foldl (fun diff p => Z.lor diff (Z.lxor p.1 p.2)) d l /\ (foldl (fun diff p => Z.lor diff (Z.lxor p.1 p.2)) d l = 0 <-> d = 0 /\ Forall (fun p : Z * Z => p.1 = p.2) l).
Proof.
  intros Hd Hl. revert d Hd. induction Hl as [|[x y] l [Hx Hy] Hl IH]; intros d Hd; cbn [foldl fst snd]; [by rewrite Forall_nil; intuition|].
  pose proof (lxor_u8 x y Hx Hy) as [Hxy _]. destruct (IH (Z.lor d (Z.lxor x y))) as [H1 H2]; [by apply Z.lor_nonneg|]. split; [done|].
  rewrite H2, Z.lor_eq_0_iff, Forall_cons, Z.lxor_eq_0_iff. cbn. tauto.
Qed.
Lemma Forall_zip_eq (a b : list Z) : length a = length b -> (Forall (fun p : Z * Z => p.1 = p.2) (zip a b) <-> a = b).
Proof.
  revert b. induction a as [|x a IH]; intros [|y b] H; cbn in *; try lia; [by rewrite Forall_nil|]. rewrite Forall_cons. cbn. rewrite IH by lia. naive_solver.
Qed.
(** Comparison and masking.  The comparison reads every byte and gives 0 just when all are equal; masking a buffer twice with the same bytes gives it back. *)
Theorem constant_time_memcmp_correct a b len (s : unit) :
  Forall is_u8 a -> Forall is_u8 b -> 0 <= len <= Z.of_nat (length a) -> len <= Z.of_nat (length b) ->
  (exists r, edge_constant_time_memcmp a b len s = Done (r, s) /\ (r = 0 <-> take (Z.to_nat len) a = take (Z.to_nat len) b)) /\
  exists x y, edge_xor_buf a a b len s = Done (x, s) /\ length x = length a /\ edge_xor_buf x x b len s = Done (y, s) /\ y = a.
Proof.
  intros Ha Hb Hl Hl'. split.
  - eexists. split; [unfold edge_constant_time_memcmp; erewrite bind_step by (apply loop_bytes_ok; lia); by erewrite bind_step by (apply loop_bytes_ok; lia)|].
    destruct (lor_fold (zip (take (Z.to_nat len) a) (take (Z.to_nat len) b)) 0) as [_ H]; [done| |].
    + apply Forall_zip_with_fst with is_u8; [by apply Forall_take|]. eapply Forall_impl; [by apply Forall_take|]. done.
    + rewrite H, Forall_zip_eq by (rewrite !length_take; lia). tauto.
  - assert (forall l, length l = length a -> edge_xor_buf l l b len s = Done (overlay (zip_with Z.lxor (take (Z.to_nat len) l) (take (Z.to_nat len) b)) l, s)) as Hrun.
    { intros l E. unfold edge_xor_buf. erewrite bind_step by (apply loop_bytes_ok; lia). erewrite bind_step by (apply loop_bytes_ok; lia). apply fill_ok.
      rewrite length_zip_with, !length_take. lia. }
    set (z := zip_with Z.lxor (take (Z.to_nat len) a) (take (Z.to_nat len) b)). assert (length z = Z.to_nat len) as Hz by (unfold z; rewrite length_zip_with, !length_take; lia).
    assert (length (overlay z a) = length a) as Ho by (unfold overlay; rewrite length_app, length_drop; lia).
    eexists _, _. split_and!; [by apply Hrun|done|by apply Hrun|]. fold z. unfold overlay at 2. rewrite take_app_le, take_ge by lia. unfold z at 1. rewrite xor_twice by (rewrite !length_take; lia).
    unfold overlay. rewrite length_take, Nat.min_l by lia. rewrite drop_app_ge, Hz, Nat.sub_diag, drop_0 by lia. apply take_drop.
Qed.
(** *** Exponentiation *)

Definition bits_value (k : Z) (bits : list bool) : Z := foldl (fun k (bv : bool) => 2 * k + b2z bv) k bits.
Lemma bits_value_from k bits : bits_value k bits = k * 2 ^ Z.of_nat (length bits) + bits_value 0 bits.
Proof.
  unfold bits_value. revert k. induction bits as [|b bits IH]; intros k; [cbn; lia|]. cbn [foldl length]. rewrite (IH (2 * k + b2z b)), (IH (2 * 0 + b2z b)).
  rewrite Nat2Z.inj_succ, Z.pow_succ_r by lia. lia.
Qed.
Lemma bits_value_app k a b : bits_value k (a ++ b) = bits_value (bits_value k a) b.
Proof. unfold bits_value. apply foldl_app. Qed.
Lemma byte_value e : is_u8 e -> bits_value 0 ((fun bit => Z.testbit e bit) <$> [7; 6; 5; 4; 3; 2; 1; 0]) = e.
Proof. revert e. apply byte_check. vm_compute. reflexivity. Qed.
Lemma exp_bits_value exp : Forall is_u8 exp -> bits_value 0 (exp_bits exp) = be_val exp.
Proof.
  induction exp as [|e exp IH] using rev_ind; intros H; [done|]. apply Forall_app in H as [H He]. apply Forall_cons in He as [He _].
  unfold exp_bits. rewrite bind_app. fold (exp_bits exp). rewrite bits_value_app, be_val_snoc, bits_value_from, IH by done. cbn [mbind list_bind]. rewrite app_nil_r, byte_value by done. rewrite length_fmap. cbn [length]. lia.
Qed.

(** The ladder at one byte: after bits with value [k] the pair is b^k and b^(k+1). *)
Definition powers (m b k : Z) (r : Z * Z) : Prop := r.1 mod m = (b ^ k) mod m /\ r.2 mod m = (b ^ (k + 1)) mod m.
Lemma mul_mod m x y a b : x mod m = a mod m -> y mod m = b mod m -> (x * y) mod m = (a * b) mod m.
Proof. intros H1 H2. by rewrite Zmult_mod, H1, H2, <- Zmult_mod. Qed.
Lemma ladder_step_powers m b k r bv : 0 < m -> 0 <= k -> powers m b k r ->
  powers m b (2 * k + b2z bv) (ladder_step m r bv) /\ (ladder_step m r bv).1 = (b ^ (2 * k + b2z bv)) mod m.
Proof.
  intros Hm Hk [H1 H2]. assert (b ^ (2 * k) = b ^ k * b ^ k) as E0 by (rewrite <- Z.pow_add_r by lia; f_equal; lia).
  assert (b ^ (2 * k + 1) = b ^ (k + 1) * b ^ k) as E1 by (rewrite <- Z.pow_add_r by lia; f_equal; lia).
  assert (b ^ (2 * k + 1 + 1) = b ^ (k + 1) * b ^ (k + 1)) as E2 by (rewrite <- Z.pow_add_r by lia; f_equal; lia).
  unfold ladder_step, powers. destruct (Z.eqb_spec m 0); [lia|]. destruct bv; cbn [b2z fst snd].
  - rewrite E1, E2, !Zmod_mod. split_and!; by apply mul_mod.
  - rewrite Z.add_0_r, E0, E1, !Zmod_mod. split_and!; by apply mul_mod.
Qed.
Lemma ladder_powers m b k r bits : 0 < m -> 0 <= k -> powers m b k r -> bits <> [] -> (foldl (ladder_step m) r bits).1 = (b ^ bits_value k bits) mod m.
Proof.
  intros Hm. revert k r. induction bits as [|bv bits IH]; intros k r Hk Hp Hne; [done|]. destruct (ladder_step_powers m b k r bv Hm Hk Hp) as [Hp' E].
  assert (0 <= 2 * k + b2z bv) by (destruct bv; cbn; lia). cbn [foldl]. unfold bits_value. cbn [foldl]. fold (bits_value (2 * k + b2z bv) bits).
  destruct bits as [|bv' bits]; [exact E|]. by apply IH.
Qed.
Lemma ladder_cons m ms r rs bits : ladder (m :: ms) (r :: rs) bits = foldl (ladder_step m) r bits :: ladder ms rs bits.
Proof. unfold ladder. revert r rs. induction bits as [|bv bits IH]; intros r rs; [done|]. cbn [foldl zip_with]. apply IH. Qed.
(** Bytes behind the first start at 0 and stay there. *)
Lemma ladder_zeros ms rs bits : length ms = length rs -> Forall (fun r => r.1 = 0) rs -> (ladder ms rs bits).*1 = replicate (length rs) 0.
Proof.
  unfold ladder. revert rs. induction bits as [|bv bits IH]; intros rs Hl Hz; cbn [foldl].
  - clear Hl. induction Hz as [|[x y] rs Hx Hz IHz]; [done|]. cbn in *. by rewrite Hx, IHz.
  - rewrite IH; [f_equal; rewrite length_zip_with; lia|rewrite length_zip_with; lia|]. apply Forall_zip_with_fst with (fun _ => True); [by apply Forall_true|].
    eapply Forall_impl; [exact Hz|]. intros [x y] Hx m _. cbn in Hx. subst x. unfold ladder_step. cbn [fst snd]. rewrite Z.mul_0_r, Zmod_0_l. by destruct bv.
Qed.
Lemma zip_zeros n (l : list Z) : (length l <= n)%nat -> Forall (fun r : Z * Z => r.1 = 0) (zip (replicate n 0) l).
Proof. revert l. induction n as [|n IH]; intros [|x l] H; cbn in *; try lia; constructor; auto. apply IH. lia. Qed.

(** Exponentiation works byte by byte.  Within the 256 bytes of its arrays the function returns as many bytes as the shorter of base and modulus; with an exponent the
    first byte is that byte of the base to the exponent, big-endian, modulo that byte of the modulus (1 for a byte of 0), and all others are 0. *)
Theorem modexp_bytewise base base_len exp exp_len md mod_len (s : unit) b m :
  Forall is_u8 exp -> base !! 0%nat = Some b -> md !! 0%nat = Some m -> is_u8 m ->
  0 < base_len <= Z.of_nat (length base) -> 0 < mod_len <= Z.of_nat (length md) -> Z.min base_len mod_len <= 256 -> 0 < exp_len <= Z.of_nat (length exp) ->
  edge_modexp_sidechannel_resistant base base_len exp exp_len md mod_len s =
    Done ((b ^ be_val (take (Z.to_nat exp_len) exp)) mod (if m =? 0 then 1 else m) :: replicate (Z.to_nat (Z.min base_len mod_len) - 1) 0, s).
Proof.
  intros He Hb Hm Hmu Hbl Hml Hr Hel. unfold is_u8 in Hmu. unfold edge_modexp_sidechannel_resistant.
  assert ((if base_len <? mod_len then base_len else mod_len) = Z.min base_len mod_len) as -> by (destruct (Z.ltb_spec base_len mod_len); lia). set (n := Z.min base_len mod_len).
  erewrite bind_step by (apply memcpy_bytes_ok; destruct (Z.ltb_spec base_len 256); lia).
  destruct (Z.ltb_spec n 0); [lia|]. destruct (Z.ltb_spec 256 n); [lia|]. cbn [orb]. erewrite bind_step by (apply loop_bytes_ok; lia).
  destruct (Z.ltb_spec 0 exp_len); [|lia]. erewrite bind_step by (apply loop_bytes_ok; lia). unfold mret, M_ret. do 2 f_equal.
  rewrite take_take, Nat.min_l by (destruct (Z.ltb_spec base_len 256); lia). destruct base as [|b' base]; [done|]. destruct md as [|m' md]; [done|]. injection Hb as ->. injection Hm as ->.
  assert (exists k, Z.to_nat n = S k) as [k Ek] by (exists (Z.to_nat n - 1)%nat; lia). rewrite Ek. cbn [take zip zip_with]. fold (zip (replicate 255 0) (take k base)).
  rewrite ladder_cons, fmap_cons, <- exp_bits_value by by apply Forall_take. set (bits := exp_bits _).
  assert (bits <> []) as Hne by (unfold bits; destruct exp as [|e exp]; [cbn in Hel; lia|]; destruct (Z.to_nat exp_len) eqn:E; [lia|]; done). cbn [length] in *.
  assert (k <= 255 /\ k <= length base /\ k <= length md)%nat as (Hk1 & Hk2 & Hk3) by lia.
  apply (f_equal2 cons).
  - assert (powers (if m =? 0 then 1 else m) b 0 (1, b)) as Hp by (split; cbn [fst snd]; f_equal; lia).
    rewrite <- (ladder_powers (if m =? 0 then 1 else m) b 0 (1, b)) by (done || (destruct (Z.eqb_spec m 0); lia)). f_equal. destruct (Z.eqb_spec m 0) as [->|]; [|done]. clear.
    generalize (1, b). induction bits as [|bv bits IH]; intros r; [done|]. cbn [foldl]. rewrite IH. done.
  - rewrite ladder_zeros; [|rewrite length_zip_with, length_replicate, !length_take; lia|apply zip_zeros; rewrite length_take; lia].
    f_equal. rewrite length_zip_with, length_replicate, length_take. lia.
Qed.
(** ** Witnesses *)

Definition no_crypto : EdgeCryptoCtx := CryptoCtx [] 0 [] [] 0 0 false.
Definition demo_text (n : Z) : list Z := (fun i => u8 (i * 7 + 3)) <$> seqZ 0 n.
Definition demo_crypto : EdgeCryptoCtx := CryptoCtx (overlay (demo_text 16) (replicate 64 0)) 16 (replicate 16 0) (demo_text 12) 12 0 true.
Lemma demo_crypto_init : edge_crypto_init (demo_text 16) 16 (demo_text 12) 12 no_crypto = Done (tt, demo_crypto).
Proof. vm_compute. reflexivity. Qed.
Lemma demo_crypto_wf : crypto_wf demo_crypto.
Proof. constructor; [split; [by apply (bool_decide_unpack (bytes_of_length _ _))|cbn; lia]|by apply (bool_decide_unpack (bytes_of_length _ _))|split; [by apply (bool_decide_unpack (bytes_of_length _ _))|cbn; lia]|cbn; lia]. Qed.

Lemma ctr_roundtrip_witness : exists out c', edge_aes_ctr_encrypt (demo_text 40) 40 demo_crypto = Done (out, c') /\ edge_aes_ctr_decrypt out 40 demo_crypto = Done (demo_text 40, c').
Proof.
  destruct (ctr_roundtrip demo_crypto (demo_text 40) 40 demo_crypto_wf eq_refl) as (out & c' & H1 & H2 & _); [split; [lia|vm_compute; discriminate]|]. exists out, c'. split; [exact H1|exact H2].
Defined.
Lemma ctr_stream_repeats_witness : exists out out' s s',
  edge_aes_ctr_encrypt (demo_text 40) 40 demo_crypto = Done (out, s) /\ edge_aes_ctr_encrypt (replicate 20 0) 20 demo_crypto = Done (out', s') /\
  Z.lxor (at_ out 35) (at_ out' 3) = at_ (demo_text 40) 35.
Proof.
  destruct (ctr_stream_repeats demo_crypto demo_crypto (demo_text 40) (replicate 20 0) 40 20 35 3 demo_crypto_wf demo_crypto_wf eq_refl eq_refl eq_refl eq_refl eq_refl eq_refl)
    as (out & out' & s & s' & H1 & H2 & H3);
    [vm_compute; reflexivity|vm_compute; reflexivity|lia|lia|lia|lia|vm_compute; discriminate|vm_compute; discriminate|reflexivity|].
  exists out, out', s, s'. split; [exact H1|]. split; [exact H2|]. rewrite H3. reflexivity.
Defined.

Lemma hmac_blind_witness :
  edge_hmac_sha256 [1; 2; 3] 3 (replicate 300 0) 300 tt = edge_hmac_sha256 [1; 2; 3] 3 (replicate 256 0 ++ replicate 44 1) 300 tt.
Proof.
  apply (hmac_blind [1; 2; 3] 3 (replicate 300 0) (replicate 256 0 ++ replicate 44 1) 300 tt); [cbn; lia|lia|split; [lia|vm_compute; discriminate]|vm_compute; discriminate|].
  intros j [Hj _]. rewrite at_app, length_replicate by lia. change (Z.min 300 256) with 256 in Hj. destruct (Z.ltb_spec j (Z.of_nat 256)); [|lia].
  unfold at_. by rewrite !list_lookup_total_alt, !lookup_replicate_2 by lia.
Defined.
Lemma hkdf_derive_correct_witness : exists stream, Z.of_nat (length stream) = 8160 /\
  edge_hkdf_derive [1; 2] 2 [] 0 [3; 4] 2 40 tt = Done ((40, take 40 stream), tt) /\ edge_hkdf_derive [1; 2] 2 [] 0 [3; 4] 2 9000 tt = Done ((-1, []), tt).
Proof.
  destruct (hkdf_derive_correct [1; 2] [1; 2] 2 [] 0 [3; 4] 2 tt) as (st & H1 & _ & H2 & _); [cbn; lia|cbn; lia|cbn; lia|lia|cbn; lia|].
  exists st. split; [exact H1|]. split; [exact (H2 40)|exact (H2 9000)].
Defined.

Definition demo_gcm : EdgeGcmCtx := GcmCtx (overlay (demo_text 16) (replicate 64 0)) 16 (overlay (demo_text 12) (replicate 16 0)) 12
  (aes_enc (demo_text 16) (replicate 16 0)) (demo_text 12 ++ [0; 0; 0; 1]) true.
Lemma demo_gcm_init : edge_gcm_init (demo_text 16) 16 (demo_text 12) 12 (GcmCtx [] 0 [] 0 [] [] false) = Done (tt, demo_gcm).
Proof. vm_compute. reflexivity. Qed.
Lemma demo_gcm_wf : gcm_wf demo_gcm.
Proof. constructor; apply (bool_decide_eq_true_1 _); vm_compute; reflexivity. Qed.
Lemma gcm_roundtrip_witness : exists cipher tag,
  edge_gcm_encrypt (demo_text 40) 40 [1; 2; 3] 3 demo_gcm = Done ((cipher, tag), demo_gcm) /\ edge_gcm_decrypt cipher 40 [1; 2; 3] 3 tag demo_gcm = Done ((true, demo_text 40), demo_gcm).
Proof.
  destruct (gcm_roundtrip demo_gcm (demo_text 40) 40 [1; 2; 3] 3 demo_gcm_wf eq_refl) as [H _]; [split; [lia|vm_compute; discriminate]|cbn; lia|].
  destruct H as (cipher & tag & H1 & _ & Hl & H2); [vm_compute; discriminate|]. exists cipher, tag. split; [exact H1|].
  rewrite (H2 tag) by lia. rewrite bool_decide_eq_true_2 by (apply take_ge; lia). reflexivity.
Defined.
Lemma ghash_reversed_witness : gcm_ghash (demo_text 16) (demo_text 20) (replicate 16 0) = GHASH reverse (demo_text 16) (demo_text 20) (replicate 16 0).
Proof. apply (proj1 ghash_reversed); [by apply (bool_decide_unpack (bytes_of_length _ _))..|by apply (bool_decide_unpack (Forall is_u8 _))]. Defined.

Lemma ecdsa_verify_correct_witness : exists sig,
  edge_ecdsa_sign edge_ecdsa_keygen (demo_text 32) 32 tt = Done (Some sig, tt) /\ edge_ecdsa_verify edge_ecdsa_keygen (demo_text 32) 32 sig 64 tt = Done (false, tt).
Proof. destruct (ecdsa_verify_correct edge_ecdsa_keygen (demo_text 32) 32 tt eq_refl) as (_ & H & _); [split; [lia|vm_compute; discriminate]|]. exact H. Defined.
Lemma ecdh_agrees_witness : exists x y,
  edge_ecdh_compute_shared edge_ecdsa_keygen (public_key_x edge_ecdsa_keygen) (public_key_y edge_ecdsa_keygen) tt = Done (x, tt) /\
  edge_ecdh_compute_shared edge_ecdsa_keygen (public_key_x edge_ecdsa_keygen) (public_key_y edge_ecdsa_keygen) tt = Done (y, tt) /\ x = y.
Proof.
  destruct (ecdh_agrees_iff_same_key edge_ecdsa_keygen edge_ecdsa_keygen tt) as (x & y & H1 & H2 & H3); [by apply (bool_decide_unpack (bytes_of_length _ _))..|].
  exists x, y. split; [exact H1|]. split; [exact H2|]. by apply H3.
Defined.
Lemma constant_time_memcmp_witness : exists r, edge_constant_time_memcmp [1; 2; 3] [1; 2; 4] 3 tt = Done (r, tt) /\ r <> 0.
Proof.
  destruct (constant_time_memcmp_correct [1; 2; 3] [1; 2; 4] 3 tt) as [(r & H1 & H2) _]; [by apply (bool_decide_unpack (Forall is_u8 _))..|cbn; lia|cbn; lia|].
  exists r. split; [exact H1|]. intros E. apply H2 in E. discriminate E.
Defined.
Lemma modexp_bytewise_witness : edge_modexp_sidechannel_resistant [7; 3] 2 [1; 2] 2 [200; 200] 2 tt = Done ([49; 0], tt).
Proof.
  rewrite (modexp_bytewise [7; 3] 2 [1; 2] 2 [200; 200] 2 tt 7 200); [vm_compute; reflexivity|by apply (bool_decide_unpack (Forall is_u8 _))|done|done|split; lia|cbn; lia|cbn; lia|lia|cbn; lia].
Defined.
