(* ===== verification/PsaCertified.v ===== *)
(** * PSA certification (mini-edge-security/src/psa_certified.c)

    The context with its security model, key slots, the simulated signatures and cipher, attestation tokens, derived keys, the check of a firmware update.
    A pointer argument is the list of bytes from it to the end of its object, a slot that may be null an option; a function that fills a buffer returns the bytes it
    writes. *)
From S2P Require Import Prelude ByteMem Hash256.

Definition PSA_LEVEL1 : Z := 1.
Definition PSA_LEVEL2 : Z := 2.
Definition PSA_LEVEL3 : Z := 3.
Definition PSA_KEY_ID_MAX : Z := 32.
Definition PSA_SIGNATURE_MAX : Z := 64.
Definition PSA_HASH_SIZE : Z := 32.
Definition PSA_CHALLENGE_SIZE : Z := 32.
Definition PSA_IAT_MAX_SIZE : Z := 512.
Definition PSA_FW_METADATA_SIZE : Z := 64.
Inductive PSAAlgorithm := PSA_ALG_SHA256 | PSA_ALG_ECDSA_P256 | PSA_ALG_ECDSA_P384 | PSA_ALG_AES_GCM_128 | PSA_ALG_AES_GCM_256 | PSA_ALG_HMAC_SHA256.
Inductive PSAKeyType := PSA_KEY_TYPE_AES_128 | PSA_KEY_TYPE_AES_256 | PSA_KEY_TYPE_ECC_P256 | PSA_KEY_TYPE_ECC_P384 | PSA_KEY_TYPE_HMAC_256.
(** The enumeration counts, and a slot holds the bitwise or of its members. *)
Definition PSA_KEY_USAGE_EXPORT : Z := 0.
Definition PSA_KEY_USAGE_SIGN : Z := 1.
Definition PSA_KEY_USAGE_VERIFY : Z := 2.
Definition PSA_KEY_USAGE_ENCRYPT : Z := 3.
Definition PSA_KEY_USAGE_DECRYPT : Z := 4.
Definition PSA_KEY_USAGE_DERIVE : Z := 5.
Inductive PSAAttestState := PSA_ATTEST_INIT | PSA_ATTEST_TOKEN_GEN | PSA_ATTEST_CHALLENGE | PSA_ATTEST_VERIFY | PSA_ATTEST_ERROR.
Record PSAKeySlot := KeySlot { key_id : Z; type : PSAKeyType; usage : Z; key_data : list Z; key_len : Z; locked : bool }.
Record PSASecurityModel := Model { sw_components : list Z; sw_comp_len : Z; boot_seed : list Z; security_lifecycle : Z; impl_id : list Z; cert_ref : Z }.
Record PSACertifiedCtx := PsaCtx { level : Z; model : PSASecurityModel; profile_name : list Z; isolation_present : bool; secure_boot_present : bool; crypto_present : bool; attestation_present : bool }.
Record PSAAttestToken := Token { token : list Z; token_len : Z; challenge : list Z; challenge_len : Z; device_id : list Z; fw_hash : list Z; boot_ok : bool; state : PSAAttestState }.
Definition set_model v x := PsaCtx (level x) v (profile_name x) (isolation_present x) (secure_boot_present x) (crypto_present x) (attestation_present x).
Definition set_profile_name v x := PsaCtx (level x) (model x) v (isolation_present x) (secure_boot_present x) (crypto_present x) (attestation_present x).
Notation PM := (M PSACertifiedCtx).

(** ** The hash and the simulated signature *)

Definition psa_rotl (v n : Z) : Z := Z.lor (u32 (Z.shiftl v n)) (Z.shiftr v (32 - n)).
Definition psa_k : list Z := (fun i => 0x428a2f98 +32 u32 (i * 2654435761)) <$> seqZ 0 64.
(** When the length is written, in terms of the bytes that remain; an end of [pos + 64 == len] counts. *)
Definition psa_has_length (remaining : Z) : bool :=
  let copy := if remaining <? 64 then remaining else 64 in
  ((copy <? 64) && (56 <=? copy)) || ((remaining <=? 64) && (56 <=? remaining)).
Definition psa_hash256 {S} (data : list Z) (len : Z) : M S (list Z) := hash256 psa_rotl psa_k (round psa_rotl) psa_has_length data len.

Definition psa_ecdsa_sign_sim (privkey hash : list Z) : list Z := (fun i => Z.lxor (Z.lxor (at_ hash (i mod PSA_HASH_SIZE)) (at_ privkey (i mod 32))) (u8 (0xEC + i * 3))) <$> seqZ 0 64.
(** The loop over the signature, which ends at the first difference. *)
Fixpoint ecdsa_verify_sim_loop {S} (n : nat) (i : Z) (pubkey hash sig : list Z) : M S bool :=
  match n with
  | O => mret true
  | Datatypes.S n =>
      h ← of_option (hash !! Z.to_nat i);
      k ← of_option (pubkey !! Z.to_nat ((i * 2) mod 64));
      s ← of_option (sig !! Z.to_nat i);
      if negb (s =? Z.lxor (Z.lxor h k) (u8 (0xEC + i * 3))) then mret false else ecdsa_verify_sim_loop n (i + 1) pubkey hash sig
  end.
Definition psa_ecdsa_verify_sim {S} (pubkey hash sig : list Z) (sig_len : Z) : M S bool := if sig_len <? 32 then mret false else ecdsa_verify_sim_loop 16 0 pubkey hash sig.

(** ** The context *)

Definition psa_certified_init (lvl : Z) : PM unit :=
  modify (fun _ => PsaCtx lvl (Model (replicate 64 0) 0 (replicate 16 0x5A) 0 (replicate 16 0x42) 0)
    (<[15%nat := 0]> (strncpy 15 [80; 83; 65; 95; 73; 111; 84; 95; 80; 114; 111; 102; 105; 108; 101] (replicate 32 0)))
    (PSA_LEVEL2 <=? lvl) (PSA_LEVEL2 <=? lvl) (PSA_LEVEL1 <=? lvl) (PSA_LEVEL3 <=? lvl)).
Definition psa_set_security_model (comps : list Z) (len : Z) : PM unit :=
  let n := if len <? PSA_FW_METADATA_SIZE then len else PSA_FW_METADATA_SIZE in
  bs ← memcpy_bytes comps n;
  modify (fun c => let m := model c in set_model (Model (overlay bs (sw_components m)) n (boot_seed m) (security_lifecycle m) (impl_id m) (cert_ref m)) c).
(** The name is the list of its bytes before the zero. *)
Definition psa_set_profile (name : list Z) : PM unit := modify (fun c => set_profile_name (<[30%nat := 0]> (strncpy 30 name (profile_name c))) c).
Definition psa_validate_level (c : PSACertifiedCtx) : bool :=
  if level c =? PSA_LEVEL1 then crypto_present c
  else if level c =? PSA_LEVEL2 then crypto_present c && secure_boot_present c && isolation_present c
  else if level c =? PSA_LEVEL3 then crypto_present c && secure_boot_present c && isolation_present c && attestation_present c
  else false.
Definition psa_firmware_update_prepare (fw_meta : list Z) (len : Z) : PM unit := psa_set_security_model fw_meta len.

(** ** Keys *)

Definition psa_key_generate (ty : PSAKeyType) : PM PSAKeySlot :=
  c ← gets id;
  let n := match ty with PSA_KEY_TYPE_AES_128 => 16 | _ => 32 end in
  let bs := (fun i => u8 (Z.lxor (0xDE + at_ (boot_seed (model c)) (i mod 16)) (u8 (i * 0x7F + 1)))) <$> seqZ 0 n in
  mret (KeySlot 0 ty (Z.lor PSA_KEY_USAGE_SIGN PSA_KEY_USAGE_VERIFY) (overlay bs (replicate 32 0)) n true).
Definition psa_key_import (data : list Z) (len : Z) : PM PSAKeySlot :=
  let n := if len <? PSA_KEY_ID_MAX then len else PSA_KEY_ID_MAX in
  bs ← memcpy_bytes data n;
  mret (KeySlot 0 PSA_KEY_TYPE_AES_128 (Z.lor PSA_KEY_USAGE_SIGN PSA_KEY_USAGE_ENCRYPT) (overlay bs (replicate 32 0)) n true).
Definition usable (slot : option PSAKeySlot) : option PSAKeySlot := s ← slot; if locked s then Some s else None.
(** The signature; [*sig_len] is its length. *)
Definition psa_sign (slot : option PSAKeySlot) (alg : PSAAlgorithm) (hash : list Z) : PM (list Z) :=
  match usable slot with
  | None => mret []
  | Some s =>
      match alg with
      | PSA_ALG_ECDSA_P256 | PSA_ALG_ECDSA_P384 => h ← memcpy_bytes hash PSA_HASH_SIZE; mret (psa_ecdsa_sign_sim (key_data s) h)
      | PSA_ALG_HMAC_SHA256 => fill_loop 32 0 (fun i => h ← of_option (hash !! Z.to_nat i); k ← at_rem (key_data s) i (key_len s); mret (Z.lxor h k))
      | _ => mret []
      end
  end.
(** The loop over [i < PSA_HASH_SIZE && i < sig_len], with [n] rounds left. *)
Fixpoint hmac_verify_loop {S} (n : nat) (i : Z) (s : PSAKeySlot) (hash sig : list Z) : M S bool :=
  match n with
  | O => mret true
  | Datatypes.S n =>
      h ← of_option (hash !! Z.to_nat i);
      k ← at_rem (key_data s) i (key_len s);
      b ← of_option (sig !! Z.to_nat i);
      if negb (b =? Z.lxor h k) then mret false else hmac_verify_loop n (i + 1) s hash sig
  end.
Definition psa_verify (slot : option PSAKeySlot) (alg : PSAAlgorithm) (hash sig : list Z) (sig_len : Z) : PM bool :=
  match usable slot with
  | None => mret false
  | Some s =>
      match alg with
      | PSA_ALG_ECDSA_P256 | PSA_ALG_ECDSA_P384 => psa_ecdsa_verify_sim (key_data s) hash sig sig_len
      | PSA_ALG_HMAC_SHA256 => hmac_verify_loop (Z.to_nat (Z.min PSA_HASH_SIZE sig_len)) 0 s hash sig
      | _ => mret false
      end
  end.
(** The bytes written, none without a usable slot; the algorithm is not looked at.  [i * 7] leaves the range of int behind 306783379 bytes. *)
Definition psa_encrypt (slot : option PSAKeySlot) (plain : list Z) (plen : Z) : PM (list Z) :=
  match usable slot with
  | None => mret []
  | Some s => if 306783379 <? plen then undefined else fill_loop (Z.to_nat plen) 0 (fun i => p ← of_option (plain !! Z.to_nat i); k ← at_rem (key_data s) i (key_len s); mret (Z.lxor (Z.lxor p k) (u8 (Z.land (i * 7) 0xFF))))
  end.
Definition psa_decrypt (slot : option PSAKeySlot) (cipher : list Z) (clen : Z) : PM (list Z) :=
  match usable slot with
  | None => mret []
  | Some s => if 306783379 <? clen then undefined else fill_loop (Z.to_nat clen) 0 (fun i => x ← of_option (cipher !! Z.to_nat i); k ← at_rem (key_data s) i (key_len s); mret (Z.lxor (Z.lxor x k) (u8 (Z.land (i * 7) 0xFF))))
  end.
(** [combined] has 64 bytes. *)
Definition psa_key_derive (master : PSAKeySlot) (label : list Z) (llen : Z) : PM PSAKeySlot :=
  k ← memcpy_bytes (key_data master) (key_len master);
  let n := if llen <? 32 then llen else 32 in
  l ← memcpy_bytes label n;
  d ← psa_hash256 (k ++ l) (key_len master + n);
  mret (KeySlot 0 PSA_KEY_TYPE_HMAC_256 (Z.lor PSA_KEY_USAGE_SIGN PSA_KEY_USAGE_DERIVE) d PSA_HASH_SIZE true).

(** ** Attestation and update *)

Definition psa_attestation_init : PM PSAAttestToken :=
  c ← gets id; mret (Token (replicate 512 0) 0 (replicate 32 0) 0 (replicate 32 0) (replicate 32 0) (secure_boot_present c) PSA_ATTEST_INIT).
Definition psa_attestation_generate (t : PSAAttestToken) (chal : list Z) (clen : Z) : PM PSAAttestToken :=
  c ← gets id;
  let m := model c in
  let n := if clen <? PSA_CHALLENGE_SIZE then clen else PSA_CHALLENGE_SIZE in
  bs ← memcpy_bytes chal n;
  let ch := overlay bs (challenge t) in
  let dev := overlay (impl_id m) (device_id t) in
  h ← memcpy_bytes (sw_components m) (if sw_comp_len m <? PSA_HASH_SIZE then sw_comp_len m else PSA_HASH_SIZE);
  let fw := overlay h (fw_hash t) in
  let content := [u8 (Z.land (level c) 0xFF); u8 (Z.land (security_lifecycle m) 0xFF)] ++ take (Z.to_nat n) ch ++ take 16 dev ++ fw in
  mret (Token (overlay content (token t)) (2 + n + 16 + PSA_HASH_SIZE) ch n dev fw (boot_ok t) PSA_ATTEST_CHALLENGE).
(** The comparison ends at the first difference; [off] is where the hash lies in the token. *)
Fixpoint fw_hash_loop {S} (n : nat) (i off : Z) (t : PSAAttestToken) (expected_hash : list Z) : M S bool :=
  match n with
  | O => mret (boot_ok t)
  | Datatypes.S n =>
      a ← of_option (token t !! Z.to_nat (off + i));
      b ← of_option (expected_hash !! Z.to_nat (i mod PSA_HASH_SIZE));
      if negb (a =? b) then mret false else fw_hash_loop n (i + 1) off t expected_hash
  end.
Definition psa_attestation_verify (t : PSAAttestToken) (expected_hash : list Z) : PM bool :=
  if token_len t <? PSA_HASH_SIZE + 16 then mret false else fw_hash_loop 32 0 (token_len t - PSA_HASH_SIZE) t expected_hash.
Definition psa_firmware_update_verify (fw : list Z) (len : Z) (sig : list Z) : PM bool :=
  c ← gets id;
  hash ← psa_hash256 fw len;
  psa_verify (Some (KeySlot 0 PSA_KEY_TYPE_AES_128 0 (overlay (boot_seed (model c)) (replicate 32 0)) PSA_HASH_SIZE true)) PSA_ALG_ECDSA_P256 hash sig 64.

(** ** Well-formed contexts and slots *)

Definition model_wf (m : PSASecurityModel) : Prop :=
  bytes_of_length 64 (sw_components m) /\ 0 <= sw_comp_len m <= 64 /\ bytes_of_length 16 (boot_seed m) /\ bytes_of_length 16 (impl_id m).
Definition slot_wf (s : PSAKeySlot) : Prop := bytes_of_length 32 (key_data s) /\ 0 < key_len s <= 32.

Lemma psa_init_run lvl c : exists c', psa_certified_init lvl c = Done (tt, c') /\ model_wf (model c') /\ boot_seed (model c') = replicate 16 0x5A /\ sw_components (model c') = replicate 64 0.
Proof.
  eexists. split; [reflexivity|]. cbn [model boot_seed sw_components]. split; [|done].
  repeat split; cbn [sw_components sw_comp_len boot_seed impl_id]; first [lia|done|by apply (bool_decide_unpack (Forall is_u8 _))].
Qed.
Lemma set_model_run comps len c : Forall is_u8 comps -> 0 <= len <= Z.of_nat (length comps) -> model_wf (model c) ->
  exists c', psa_set_security_model comps len c = Done (tt, c') /\ model_wf (model c') /\ boot_seed (model c') = boot_seed (model c) /\
    take (Z.to_nat (Z.min len 64)) (sw_components (model c')) = take (Z.to_nat (Z.min len 64)) comps.
Proof.
  intros Hb Hl (Hs & Hn & Hbs & Hi). unfold psa_set_security_model, PSA_FW_METADATA_SIZE. assert ((if len <? 64 then len else 64) = Z.min len 64) as -> by (destruct (Z.ltb_spec len 64); lia).
  erewrite bind_step by (apply memcpy_bytes_ok; lia). eexists. split; [reflexivity|]. cbn [set_model model sw_components boot_seed]. split; [|split; [done|]].
  - split; cbn [sw_components sw_comp_len boot_seed impl_id]; [|split_and!; done || lia]. apply overlay_bytes; [rewrite length_take; lia|by apply Forall_take|done].
  - unfold overlay. rewrite take_app_le, take_ge by (rewrite length_take; lia). done.
Qed.

Lemma generate_wf ty c s c' : psa_key_generate ty c = Done (s, c') -> slot_wf s /\ locked s = true /\ c' = c.
Proof.
  intros [= <- <-]. split; [|done]. split; cbn [key_data key_len]; [|destruct ty; lia].
  destruct ty; (apply overlay_bytes; [rewrite length_fmap, length_seqZ; lia|apply (bytes_u8_map 16) || apply (bytes_u8_map 32)|by apply (bool_decide_unpack (bytes_of_length _ _))]).
Qed.

(** ** The cipher *)

Definition psa_stream (s : PSAKeySlot) (i : Z) : Z := Z.lxor (at_ (key_data s) (i mod key_len s)) (u8 (Z.land (i * 7) 0xFF)).
Lemma cipher_run s text len (c : PSACertifiedCtx) : slot_wf s -> locked s = true -> 0 <= len <= Z.of_nat (length text) -> len <= 306783379 ->
  psa_encrypt (Some s) text len c = Done ((fun i => Z.lxor (at_ text i) (psa_stream s i)) <$> seqZ 0 len, c).
Proof.
  intros [[Hk _] Hn] Hu Hl Hm. unfold psa_encrypt, usable. cbn [mbind option_bind]. rewrite Hu. destruct (Z.ltb_spec 306783379 len); [lia|].
  rewrite <- (Z2Nat.id len) at 2 by lia. apply fill_loop_ok. intros i Hi. rewrite (list_lookup_lookup_total_lt text) by lia. cbn [of_option]. rewrite bind_ret.
  erewrite bind_step by (apply at_rem_ok; lia). unfold psa_stream. by rewrite Z.lxor_assoc.
Qed.
(** The cipher.  Under a locked slot with a key, encryption returns and decryption of its output gives the text back; but the mask depends on the position alone, so
    that two cipher texts under one key show how their texts differ.  Without a slot, or with one that is not locked, nothing is written. *)
Theorem psa_cipher_correct s text text' len (c : PSACertifiedCtx) :
  slot_wf s -> 0 <= len <= Z.of_nat (length text) -> len <= Z.of_nat (length text') -> len <= 306783379 ->
  (locked s = true -> exists x x', psa_encrypt (Some s) text len c = Done (x, c) /\ psa_encrypt (Some s) text' len c = Done (x', c) /\
    psa_decrypt (Some s) x len c = Done (take (Z.to_nat len) text, c) /\ forall i, 0 <= i < len -> Z.lxor (at_ x i) (at_ x' i) = Z.lxor (at_ text i) (at_ text' i)) /\
  (locked s = false -> psa_encrypt (Some s) text len c = Done ([], c)) /\ psa_encrypt None text len c = Done ([], c).
Proof.
  intros Hs Hl Hl' Hm. split_and!; [|intros E; unfold psa_encrypt, usable; cbn [mbind option_bind]; by rewrite E|done].
  intros Hu. eexists _, _. split_and!; [apply cipher_run; done || lia..| |].
  - change (psa_decrypt (Some s)) with (psa_encrypt (Some s)). rewrite cipher_run by (rewrite ?length_fmap, ?length_seqZ; done || lia). do 2 f_equal.
    apply (list_at_eq (Z.to_nat len)); [by rewrite length_fmap, length_seqZ|rewrite length_take; lia|]. intros i Hi. rewrite !at_seq by lia.
    rewrite Z.lxor_assoc, Z.lxor_nilpotent, Z.lxor_0_r. unfold at_. by rewrite !list_lookup_total_alt, lookup_take_lt by lia.
  - intros i Hi. rewrite !at_seq by lia. set (m := psa_stream s i). rewrite Z.lxor_assoc, (Z.lxor_comm m), Z.lxor_assoc, Z.lxor_nilpotent, Z.lxor_0_r. done.
Qed.

(** ** Signatures *)

Definition ecdsa_byte (key hash : list Z) (i j : Z) : Z := Z.lxor (Z.lxor (at_ hash i) (at_ key j)) (u8 (0xEC + i * 3)).
Definition sim_accepts (key hash sig : list Z) : Prop := Forall (fun i => at_ sig i = ecdsa_byte key hash i (2 * i)) (seqZ 0 16).
#[export] Instance sim_accepts_dec key hash sig : Decision (sim_accepts key hash sig).
Proof. apply _. Defined.
Lemma sim_loop_run {S} n i key hash sig (s : S) : length key = 32%nat -> 0 <= i -> i + Z.of_nat n <= 16 -> i + Z.of_nat n <= Z.of_nat (length hash) -> i + Z.of_nat n <= Z.of_nat (length sig) ->
  ecdsa_verify_sim_loop n i key hash sig s = Done (bool_decide (Forall (fun i => at_ sig i = ecdsa_byte key hash i (2 * i)) (seqZ i (Z.of_nat n))), s).
Proof.
  intros Hk. revert i. induction n as [|n IH]; intros i Hi Hn Hh Hs; [done|]. cbn [ecdsa_verify_sim_loop]. assert ((i * 2) mod 64 = 2 * i) as -> by (Z.div_mod_to_equations; lia).
  rewrite (list_lookup_lookup_total_lt hash), (list_lookup_lookup_total_lt key), (list_lookup_lookup_total_lt sig) by lia. cbn [of_option]. rewrite !bind_ret.
  fold (at_ hash i) (at_ key (2 * i)) (at_ sig i) (ecdsa_byte key hash i (2 * i)).
  assert (Forall (fun i => at_ sig i = ecdsa_byte key hash i (2 * i)) (seqZ i (Z.of_nat (Datatypes.S n))) <->
    at_ sig i = ecdsa_byte key hash i (2 * i) /\ Forall (fun i => at_ sig i = ecdsa_byte key hash i (2 * i)) (seqZ (i + 1) (Z.of_nat n))) as E
    by (rewrite (Nat2Z.inj_succ n), (seqZ_cons i), Z.pred_succ, Forall_cons by lia; done).
  rewrite (bool_decide_ext _ _ E). destruct (Z.eqb_spec (at_ sig i) (ecdsa_byte key hash i (2 * i))); cbn [negb].
  - rewrite IH by lia. do 2 f_equal. apply bool_decide_ext. naive_solver.
  - rewrite bool_decide_eq_false_2 by naive_solver. done.
Qed.
Lemma sim_verify_run {S} key hash sig sig_len (s : S) : length key = 32%nat -> (16 <= length hash)%nat -> 32 <= sig_len <= Z.of_nat (length sig) ->
  psa_ecdsa_verify_sim key hash sig sig_len s = Done (bool_decide (sim_accepts key hash sig), s).
Proof. intros Hk Hh Hs. unfold psa_ecdsa_verify_sim. destruct (Z.ltb_spec sig_len 32); [lia|]. apply (sim_loop_run 16); lia. Qed.

Lemma hmac_loop_run {S} n i k hash sig (s : S) : slot_wf k -> 0 <= i -> i + Z.of_nat n <= Z.of_nat (length hash) -> i + Z.of_nat n <= Z.of_nat (length sig) ->
  hmac_verify_loop n i k hash sig s = Done (bool_decide (Forall (fun i => at_ sig i = Z.lxor (at_ hash i) (at_ (key_data k) (i mod key_len k))) (seqZ i (Z.of_nat n))), s).
Proof.
  intros [[Hk _] Hl]. revert i. induction n as [|n IH]; intros i Hi Hh Hs; [done|]. cbn [hmac_verify_loop].
  rewrite (list_lookup_lookup_total_lt hash) by lia. cbn [of_option]. rewrite bind_ret. erewrite bind_step by (apply at_rem_ok; lia).
  rewrite (list_lookup_lookup_total_lt sig) by lia. cbn [of_option]. rewrite bind_ret. fold (at_ hash i) (at_ sig i). set (P := fun i => at_ sig i = Z.lxor (at_ hash i) _) in *.
  assert (Forall P (seqZ i (Z.of_nat (Datatypes.S n))) <-> P i /\ Forall P (seqZ (i + 1) (Z.of_nat n))) as E
    by (rewrite (Nat2Z.inj_succ n), (seqZ_cons i), Z.pred_succ, Forall_cons by lia; done).
  rewrite (bool_decide_ext _ _ E). destruct (Z.eqb_spec (at_ sig i) (Z.lxor (at_ hash i) (at_ (key_data k) (i mod key_len k)))); cbn [negb].
  - rewrite IH by lia. do 2 f_equal. apply bool_decide_ext. naive_solver.
  - rewrite bool_decide_eq_false_2 by naive_solver. done.
Qed.

(** Signatures.  Under a locked slot a MAC is accepted again, and so is every beginning of it, the empty one of length 0 or less included; a simulated ECDSA signature
    is accepted under the slot that made it just when sixteen bytes of its key are those at twice their positions, which is not so for the keys that are
    generated from the initial seed. *)
Theorem psa_sign_verify s hash (c : PSACertifiedCtx) :
  slot_wf s -> locked s = true -> (32 <= length hash)%nat ->
  (exists mac, psa_sign (Some s) PSA_ALG_HMAC_SHA256 hash c = Done (mac, c) /\ length mac = 32%nat /\
    forall sig len, len <= Z.of_nat (length sig) -> psa_verify (Some s) PSA_ALG_HMAC_SHA256 hash sig len c =
      Done (bool_decide (take (Z.to_nat (Z.min 32 len)) sig = take (Z.to_nat (Z.min 32 len)) mac), c)) /\
  (exists sig, psa_sign (Some s) PSA_ALG_ECDSA_P256 hash c = Done (sig, c) /\ length sig = 64%nat /\
    psa_verify (Some s) PSA_ALG_ECDSA_P256 hash sig 64 c = Done (bool_decide (Forall (fun i => at_ (key_data s) i = at_ (key_data s) (2 * i)) (seqZ 0 16)), c)) /\
  (forall ty k c', psa_key_generate ty c = Done (k, c') -> boot_seed (model c) = replicate 16 0x5A -> ~ Forall (fun i => at_ (key_data k) i = at_ (key_data k) (2 * i)) (seqZ 0 16)).
Proof.
  intros Hs Hu Hh. destruct (Hs) as [[Hk _] Hl]. assert (usable (Some s) = Some s) as Hus by (unfold usable; cbn [mbind option_bind]; by rewrite Hu). split_and!.
  - eexists. unfold psa_sign. rewrite Hus. split; [|split].
    + apply (fill_loop_ok 32 0 _ (fun i => Z.lxor (at_ hash i) (at_ (key_data s) (i mod key_len s)))). intros i Hi. rewrite (list_lookup_lookup_total_lt hash) by lia. cbn [of_option].
      rewrite bind_ret. by erewrite bind_step by (apply at_rem_ok; lia).
    + done.
    + intros sig len Hsl. unfold psa_verify. rewrite Hus. rewrite hmac_loop_run by (done || (unfold PSA_HASH_SIZE; lia)). do 2 f_equal. apply bool_decide_ext. unfold PSA_HASH_SIZE.
      rewrite Forall_forall. split.
      * intros H. apply (list_at_eq (Z.to_nat (Z.min 32 len))); [rewrite length_take; lia|rewrite length_take, length_fmap, length_seqZ; lia|]. intros i Hi.
        rewrite !at_take, at_seq by lia. apply H, elem_of_seqZ. lia.
      * intros H i Hi%elem_of_seqZ. apply (f_equal (fun l => at_ l i)) in H. by rewrite !at_take, at_seq in H by lia.
  - eexists. unfold psa_sign. rewrite Hus. split; [by erewrite bind_step by (apply memcpy_bytes_ok; unfold PSA_HASH_SIZE; lia)|]. split; [done|]. unfold psa_verify. rewrite Hus.
    rewrite sim_verify_run by (done || (unfold psa_ecdsa_sign_sim; rewrite ?length_fmap, ?length_seqZ; lia)). do 2 f_equal. apply bool_decide_ext. unfold sim_accepts. rewrite !Forall_forall.
    apply forall_proper. intros i. apply under_hyp. intros Hi%elem_of_seqZ. unfold psa_ecdsa_sign_sim, ecdsa_byte, PSA_HASH_SIZE. rewrite at_seq, !Z.mod_small by lia.
    rewrite (at_take 32 hash) by lia. rewrite !Z.lxor_assoc, lxor_cancel_iff, !(Z.lxor_comm _ (u8 _)). apply lxor_cancel_iff.
  - intros ty k c' [= <- _] E. cbn [key_data]. rewrite E. destruct ty; intros H%(bool_decide_eq_true_2 _); vm_compute in H; discriminate H.
Qed.

(** ** Derived keys and the update *)

Definition psa_digest (data : list Z) (len : Z) : list Z := digest256 psa_rotl psa_k (round psa_rotl) psa_has_length data len.
Lemma psa_hash_ok {S} data len (s : S) : len < 2 ^ 31 - 64 -> len <= Z.of_nat (length data) -> psa_hash256 data len s = Done (psa_digest data len, s).
Proof. apply hash256_ok. Qed.
Lemma psa_digest_bytes data len : bytes_of_length 32 (psa_digest data len).
Proof. apply digest256_bytes. intros. by apply length_round. Qed.
Lemma psa_has_length_spec r : psa_has_length r = (56 <=? r) && (r <=? 64).
Proof. unfold psa_has_length. destruct (Z.ltb_spec r 64); repeat case_match; cbn in *; lia. Qed.
(** The bytes of a message of [n] bytes that the hash looks at: a block of which 56 to 64 bytes are left is read up to byte 56. *)
Definition psa_hashed (n j : Z) : Prop := 0 <= j < n /\ (j mod 64 < 56 \/ 64 < n - 64 * (j / 64)).
Lemma psa_digest_blind d d' len : len <= Z.of_nat (length d) -> len <= Z.of_nat (length d') -> (forall j, psa_hashed len j -> at_ d j = at_ d' j) -> psa_digest d len = psa_digest d' len.
Proof.
  intros Hd Hd' H. apply digest256_blind; [done|done|]. intros j Hj Hor. apply H. split; [done|]. rewrite psa_has_length_spec, andb_false_iff, Z.leb_gt, Z.leb_gt in Hor.
  Z.div_mod_to_equations. lia.
Qed.
#[local] Opaque psa_hash256 psa_digest.

Lemma psa_derive_run m label llen (c : PSACertifiedCtx) : slot_wf m -> 0 <= llen <= Z.of_nat (length label) ->
  psa_key_derive m label llen c =
    Done (KeySlot 0 PSA_KEY_TYPE_HMAC_256 5 (psa_digest (take (Z.to_nat (key_len m)) (key_data m) ++ take (Z.to_nat (Z.min llen 32)) label) (key_len m + Z.min llen 32)) 32 true, c).
Proof.
  intros [[Hk _] Hn] Hl. unfold psa_key_derive. erewrite bind_step by (apply memcpy_bytes_ok; lia).
  assert ((if llen <? 32 then llen else 32) = Z.min llen 32) as -> by (destruct (Z.ltb_spec llen 32); lia). erewrite bind_step by (apply memcpy_bytes_ok; lia).
  by erewrite bind_step by (apply psa_hash_ok; [lia|rewrite length_app, !length_take; lia]).
Qed.
(** Derived keys.  The derived slot is well formed and can be used as a master again; but of key and label together the bytes behind the 56th do not count: under a
    master key of 32 bytes labels of 24 to 32 bytes and one length that agree on the first 24 derive the same key. *)
Theorem key_derive_correct m label label' llen (c : PSACertifiedCtx) :
  slot_wf m -> 0 <= llen <= Z.of_nat (length label) -> llen <= Z.of_nat (length label') ->
  (exists d, psa_key_derive m label llen c = Done (d, c) /\ slot_wf d /\ locked d = true) /\
  ((forall j, 0 <= j < Z.min (Z.min llen 32) (56 - key_len m) -> at_ label j = at_ label' j) -> psa_key_derive m label' llen c = psa_key_derive m label llen c).
Proof.
  intros Hm Hl Hl'. split.
  - eexists. split; [by apply psa_derive_run|]. split; [split; cbn [key_data key_len]; [apply psa_digest_bytes|lia]|done].
  - intros H. rewrite !psa_derive_run by (done || lia). do 3 f_equal. destruct Hm as [[Hk _] Hn]. apply psa_digest_blind; [rewrite length_app, !length_take; lia..|].
    intros j [Hj Hor]. unfold at_. destruct (decide (j < key_len m)).
    + rewrite !lookup_total_app_l by (rewrite length_take; lia). done.
    + rewrite !lookup_total_app_r by (rewrite length_take; lia). rewrite length_take. replace (Z.to_nat j - Nat.min (Z.to_nat (key_len m)) (length (key_data m)))%nat with (Z.to_nat (j - key_len m)) by lia.
      fold (at_ (take (Z.to_nat (Z.min llen 32)) label) (j - key_len m)) (at_ (take (Z.to_nat (Z.min llen 32)) label') (j - key_len m)). rewrite !at_take by lia.
      symmetry. apply H. Z.div_mod_to_equations. lia.
Qed.

(** The update check.  The firmware is accepted just when sixteen bytes of the signature fit to the first sixteen of the hash and the seed, which initialisation sets to a
    constant: a signature of any firmware, and of all that have its hash, is computed without a secret. *)
Theorem firmware_verify_correct fw len sig (c : PSACertifiedCtx) :
  model_wf (model c) -> 0 <= len < 2 ^ 31 - 64 -> len <= Z.of_nat (length fw) -> (64 <= length sig)%nat ->
  psa_firmware_update_verify fw len sig c = Done (bool_decide (sim_accepts (boot_seed (model c) ++ replicate 16 0) (psa_digest fw len) sig), c) /\
  (boot_seed (model c) = replicate 16 0x5A -> exists forged, length forged = 64%nat /\
    forged = (fun i => Z.lxor (Z.lxor (at_ (psa_digest fw len) i) (if i <? 8 then 0x5A else 0)) (u8 (0xEC + i * 3))) <$> seqZ 0 64 /\
    forall fw', len <= Z.of_nat (length fw') -> (forall j, psa_hashed len j -> at_ fw j = at_ fw' j) -> psa_firmware_update_verify fw' len forged c = Done (true, c)).
Proof.
  intros (_ & _ & [Hb _] & _) Hl Hf Hs.
  assert (forall fw sig, len <= Z.of_nat (length fw) -> (64 <= length sig)%nat ->
    psa_firmware_update_verify fw len sig c = Done (bool_decide (sim_accepts (boot_seed (model c) ++ replicate 16 0) (psa_digest fw len) sig), c)) as Hrun.
  { clear - Hb Hl. intros fw sig Hf Hs. unfold psa_firmware_update_verify. rewrite bind_gets. cbn [id]. erewrite bind_step by (apply psa_hash_ok; lia).
    unfold psa_verify, usable. cbn [mbind option_bind locked key_data]. destruct (psa_digest_bytes fw len) as [Hd _].
    assert (overlay (boot_seed (model c)) (replicate 32 0) = boot_seed (model c) ++ replicate 16 0) as -> by (unfold overlay; by rewrite Hb).
    apply sim_verify_run; [rewrite length_app, length_replicate; lia|lia|lia]. }
  split; [by apply Hrun|]. intros Hseed. eexists. split; [|split; [reflexivity|]]; [done|]. intros fw' Hf' Hag. rewrite Hrun by (done || (rewrite length_fmap, length_seqZ; lia)).
  rewrite bool_decide_eq_true_2; [done|]. rewrite <- (psa_digest_blind fw fw') by done. apply Forall_forall. intros i Hi%elem_of_seqZ. rewrite at_seq by lia. unfold ecdsa_byte. do 2 f_equal.
  rewrite Hseed. assert (i = 0 \/ i = 1 \/ i = 2 \/ i = 3 \/ i = 4 \/ i = 5 \/ i = 6 \/ i = 7 \/ i = 8 \/ i = 9 \/ i = 10 \/ i = 11 \/ i = 12 \/ i = 13 \/ i = 14 \/ i = 15) as Hc by lia.
  by destruct_or! Hc; subst i.
Qed.

(** ** Attestation *)

Definition token_wf (t : PSAAttestToken) : Prop := length (token t) = 512%nat /\ length (challenge t) = 32%nat /\ length (device_id t) = 32%nat /\ length (fw_hash t) = 32%nat.
Lemma fw_loop_run {S} n i off t h (s : S) : token_wf t -> 0 <= i -> i + Z.of_nat n <= 32 -> 0 <= off -> off + 32 <= 512 -> (32 <= length h)%nat ->
  fw_hash_loop n i off t h s = Done (boot_ok t && bool_decide (window (Z.to_nat (off + i)) n (token t) = window (Z.to_nat i) n h), s).
Proof.
  intros (Ht & _) Hi Hn Ho Ho2 Hh. revert i Hi Hn. induction n as [|n IH]; intros i Hi Hn; cbn [fw_hash_loop]; [by rewrite bool_decide_eq_true_2, andb_true_r|].
  rewrite Z.mod_small by (unfold PSA_HASH_SIZE; lia). rewrite (list_lookup_lookup_total_lt (token t)), (list_lookup_lookup_total_lt h) by lia. cbn [of_option]. rewrite !bind_ret.
  assert (forall l k, 0 <= k -> (Z.to_nat k < length l)%nat -> window (Z.to_nat k) (Datatypes.S n) l = (l !!! Z.to_nat k : Z) :: window (Z.to_nat (k + 1)) n l) as Hw.
  { intros l k Hk0 Hk. unfold window. rewrite (drop_S l (l !!! Z.to_nat k)) by (apply list_lookup_lookup_total_lt; lia). cbn [take].
    by replace (Z.to_nat (k + 1)) with (Datatypes.S (Z.to_nat k)) by lia. }
  rewrite !Hw by lia. destruct (Z.eqb_spec (token t !!! Z.to_nat (off + i)) (h !!! Z.to_nat i)) as [->|Hne]; cbn [negb].
  - rewrite IH by lia. do 3 f_equal. apply bool_decide_ext. rewrite Z.add_assoc. split; [by intros ->|by intros [= ->]].
  - rewrite bool_decide_eq_false_2 by congruence. by rewrite andb_false_r.
Qed.
Lemma attest_verify_run t h (c : PSACertifiedCtx) : token_wf t -> token_len t <= 512 -> (32 <= length h)%nat ->
  psa_attestation_verify t h c = Done ((48 <=? token_len t) && boot_ok t && bool_decide (window (Z.to_nat (token_len t - 32)) 32 (token t) = take 32 h), c).
Proof.
  intros Hw Hl Hh. unfold psa_attestation_verify, PSA_HASH_SIZE. destruct (Z.ltb_spec (token_len t) (32 + 16)), (Z.leb_spec 48 (token_len t)); try lia; [done|].
  rewrite (fw_loop_run 32) by (done || lia). rewrite Z.add_0_r. by rewrite andb_true_l.
Qed.
Lemma window_middle (a b l : list Z) : window (length a) (length b) (overlay (a ++ b) l) = b.
Proof. unfold window, overlay. by rewrite <- app_assoc, drop_app_length, take_app_length. Qed.
(** C31: attestation: a generated token has level and life cycle, the challenge (32 bytes of it at most), the implementation's id and the first 32 bytes of the software
    components, and it is verified just when these are the expected ones and the boot was secure when the token was set up.  Verification looks at the last 32 bytes and
    the flag of a token alone: challenge, device and what made the token play no part. *)
Theorem attestation_correct t chal clen (c : PSACertifiedCtx) :
  model_wf (model c) -> token_wf t -> 0 <= clen <= Z.of_nat (length chal) ->
  (exists t', psa_attestation_generate t chal clen c = Done (t', c) /\ token_wf t' /\ state t' = PSA_ATTEST_CHALLENGE /\ token_len t' = 50 + Z.min clen 32 /\
    let k := Z.to_nat (Z.min (sw_comp_len (model c)) 32) in
    let fw := take k (sw_components (model c)) ++ drop k (fw_hash t) in
    take (Z.to_nat (token_len t')) (token t') = [u8 (Z.land (level c) 0xFF); u8 (Z.land (security_lifecycle (model c)) 0xFF)] ++ take (Z.to_nat (Z.min clen 32)) chal ++ impl_id (model c) ++ fw /\
    forall h c', (32 <= length h)%nat -> psa_attestation_verify t' h c' = Done (boot_ok t && bool_decide (fw = take 32 h), c')) /\
  (forall t1 t2 h c', token_wf t1 -> token_wf t2 -> 48 <= token_len t1 <= 512 -> 48 <= token_len t2 <= 512 -> boot_ok t1 = boot_ok t2 -> (32 <= length h)%nat ->
    window (Z.to_nat (token_len t1 - 32)) 32 (token t1) = window (Z.to_nat (token_len t2 - 32)) 32 (token t2) -> psa_attestation_verify t1 h c' = psa_attestation_verify t2 h c').
Proof.
  intros ([Hs _] & Hn & _ & [Hi _]) (Ht & Hc & Hd & Hf) Hl. split.
  2: { intros t1 t2 h c' H1 H2 Hl1 Hl2 Hb Hh Hw. rewrite !attest_verify_run by (done || lia). rewrite Hb, Hw. by destruct (Z.leb_spec 48 (token_len t1)), (Z.leb_spec 48 (token_len t2)); try lia. }
  unfold psa_attestation_generate, PSA_CHALLENGE_SIZE, PSA_HASH_SIZE. rewrite bind_gets. cbn [id].
  assert ((if clen <? 32 then clen else 32) = Z.min clen 32) as -> by (destruct (Z.ltb_spec clen 32); lia). erewrite bind_step by (apply memcpy_bytes_ok; lia).
  assert ((if sw_comp_len (model c) <? 32 then sw_comp_len (model c) else 32) = Z.min (sw_comp_len (model c)) 32) as -> by (destruct (Z.ltb_spec (sw_comp_len (model c)) 32); lia).
  erewrite bind_step by (apply memcpy_bytes_ok; lia). set (n := Z.min clen 32). set (ch := overlay (take (Z.to_nat n) chal) (challenge t)). set (dev := overlay (impl_id (model c)) (device_id t)).
  assert (overlay (take (Z.to_nat (Z.min (sw_comp_len (model c)) 32)) (sw_components (model c))) (fw_hash t) =
    take (Z.to_nat (Z.min (sw_comp_len (model c)) 32)) (sw_components (model c)) ++ drop (Z.to_nat (Z.min (sw_comp_len (model c)) 32)) (fw_hash t)) as Hov
    by (unfold overlay; by rewrite length_take, Nat.min_l by lia). rewrite Hov. set (fw := _ ++ drop _ (fw_hash t)).
  assert (length fw = 32%nat /\ length ch = 32%nat /\ length dev = 32%nat) as (Hfw & Hch & Hdev)
    by (unfold fw, ch, dev, overlay; rewrite !length_app, !length_drop, !length_take; lia).
  assert (take (Z.to_nat n) ch = take (Z.to_nat n) chal /\ take 16 dev = impl_id (model c)) as [Ech Edev]
    by (unfold ch, dev, overlay; split; [rewrite take_app_le by (rewrite length_take; lia); apply take_ge; rewrite length_take; lia|rewrite take_app_le by lia; apply take_ge; lia]).
  rewrite Ech, Edev. set (content := _ ++ _ ++ _ ++ fw). assert (length content = Z.to_nat (50 + n)) as Hco by (unfold content; rewrite !length_app, length_take, Hi, Hfw; cbn [length]; lia).
  set (t' := Token (overlay content (token t)) (2 + n + 16 + 32) ch n dev fw (boot_ok t) PSA_ATTEST_CHALLENGE).
  assert (token_wf t') as Hw' by (split_and!; cbn [token challenge device_id fw_hash t']; [unfold overlay; rewrite length_app, length_drop; lia|done..]).
  exists t'. split; [reflexivity|]. split; [done|]. split; [done|]. split; [cbn [token_len t']; lia|]. cbv zeta. fold fw. split.
  - cbn [token token_len t']. unfold overlay. rewrite take_app_le, take_ge by lia. done.
  - intros h c' Hh. rewrite attest_verify_run by (done || (cbn [token_len t']; lia)). cbn [token token_len boot_ok t']. destruct (Z.leb_spec 48 (2 + n + 16 + 32)); [|lia].
    rewrite andb_true_l. do 3 f_equal. apply bool_decide_ext. assert (window (Z.to_nat (2 + n + 16 + 32 - 32)) 32 (overlay content (token t)) = fw) as ->; [|done].
    set (pre := [u8 (Z.land (level c) 0xFF); u8 (Z.land (security_lifecycle (model c)) 0xFF)] ++ take (Z.to_nat n) chal ++ impl_id (model c)).
    assert (content = pre ++ fw) as -> by (unfold content, pre; by rewrite <- !app_assoc).
    replace (Z.to_nat (2 + n + 16 + 32 - 32)) with (length pre) by (unfold pre; rewrite !length_app, length_take, Hi; cbn [length]; lia). rewrite <- Hfw. apply window_middle.
Qed.

(** Certification.  After initialisation with one of the three levels the check of the level succeeds whatever is called: the flags that it looks at are set from the
    level itself; with any other level it fails. *)
Theorem validate_level_correct lvl calls (c : PSACertifiedCtx) :
  0 <= lvl -> exists c', psa_certified_init lvl c = Done (tt, c') /\
  forall c2, foldr (fun (m : PM unit) k => m;; k) (mret tt) ((fun p : bool * list Z => if p.1 then psa_set_profile p.2 else psa_firmware_update_prepare p.2 (Z.of_nat (length p.2))) <$> calls) c' = Done (tt, c2) ->
    psa_validate_level c2 = bool_decide (1 <= lvl <= 3).
Proof.
  intros Hl. eexists. split; [reflexivity|]. set (c' := PsaCtx _ _ _ _ _ _ _).
  assert (forall m c1 c2, level c1 = lvl /\ isolation_present c1 = (2 <=? lvl) /\ secure_boot_present c1 = (2 <=? lvl) /\ crypto_present c1 = (1 <=? lvl) /\ attestation_present c1 = (3 <=? lvl) ->
    foldr (fun (m : PM unit) k => m;; k) (mret tt) ((fun p : bool * list Z => if p.1 then psa_set_profile p.2 else psa_firmware_update_prepare p.2 (Z.of_nat (length p.2))) <$> m) c1 = Done (tt, c2) ->
    psa_validate_level c2 = bool_decide (1 <= lvl <= 3)) as H; [|intros c2; by apply H].
  intros m. induction m as [|[b l] m IH]; intros c1 c2 Hc; cbn [fmap list_fmap foldr].
  - intros [= <-]. destruct Hc as (E1 & E2 & E3 & E4 & E5). unfold psa_validate_level, PSA_LEVEL1, PSA_LEVEL2, PSA_LEVEL3. rewrite E1, E2, E3, E4, E5.
    destruct (decide (1 <= lvl <= 3)) as [H|H]; [|rewrite bool_decide_eq_false_2 by done; repeat case_match; lia].
    rewrite bool_decide_eq_true_2 by done. assert (lvl = 1 \/ lvl = 2 \/ lvl = 3) as [->|[->| ->]] by lia; done.
  - intros (? & c3 & H1 & H2)%bind_Done. eapply IH; [|exact H2]. destruct b; cbn [fst snd] in H1.
    + injection H1 as _ <-. exact Hc.
    + unfold psa_firmware_update_prepare, psa_set_security_model in H1. apply bind_Done in H1 as (? & c4 & H1 & H3). injection H3 as _ <-. cbn.
      assert (c4 = c1) as -> by (unfold memcpy_bytes, loop_bytes, undefined, mret, M_ret in H1; repeat case_match; by simplify_eq). exact Hc.
Qed.

(** ** Witnesses *)

Definition no_psa : PSACertifiedCtx := PsaCtx 0 (Model [] 0 [] 0 [] 0) [] false false false false.
Definition demo_bytes (n : Z) : list Z := (fun i => u8 (i * 5 + 9)) <$> seqZ 0 n.
Definition demo_ctx : PSACertifiedCtx := match psa_certified_init 3 no_psa with Done (_, c) => c | _ => no_psa end.
Definition demo_slot : PSAKeySlot := KeySlot 0 PSA_KEY_TYPE_AES_128 3 (demo_bytes 32) 32 true.
Definition demo_token : PSAAttestToken := Token (replicate 512 0) 0 (replicate 32 0) 0 (replicate 32 0) (replicate 32 0) true PSA_ATTEST_INIT.
Lemma demo_model_wf : model_wf (model demo_ctx).
Proof. repeat split; try (cbn; lia); by apply (bool_decide_unpack (Forall is_u8 _)). Qed.
Lemma demo_slot_wf : slot_wf demo_slot.
Proof. split; [by apply (bool_decide_unpack (bytes_of_length _ _))|cbn; lia]. Qed.
Lemma psa_cipher_correct_witness : exists x, psa_encrypt (Some demo_slot) [1; 2; 3; 4] 4 demo_ctx = Done (x, demo_ctx) /\ psa_decrypt (Some demo_slot) x 4 demo_ctx = Done ([1; 2; 3; 4], demo_ctx).
Proof.
  destruct (psa_cipher_correct demo_slot [1; 2; 3; 4] [0; 0; 0; 0] 4 demo_ctx demo_slot_wf) as [H _]; [cbn; lia|cbn; lia|lia|].
  destruct (H eq_refl) as (x & _ & H1 & _ & H2 & _). exists x. split; [exact H1|exact H2].
Defined.
Lemma psa_sign_verify_witness : psa_verify (Some demo_slot) PSA_ALG_HMAC_SHA256 (demo_bytes 32) [] 0 demo_ctx = Done (true, demo_ctx).
Proof.
  destruct (psa_sign_verify demo_slot (demo_bytes 32) demo_ctx demo_slot_wf eq_refl) as [(mac & _ & _ & H) _]; [vm_compute; lia|]. rewrite (H [] 0) by (cbn; lia). reflexivity.
Defined.
Lemma key_derive_correct_witness :
  psa_key_derive demo_slot (demo_bytes 24 ++ replicate 8 1) 32 demo_ctx = psa_key_derive demo_slot (demo_bytes 24 ++ replicate 8 0) 32 demo_ctx.
Proof.
  apply (key_derive_correct demo_slot (demo_bytes 24 ++ replicate 8 0) (demo_bytes 24 ++ replicate 8 1) 32 demo_ctx demo_slot_wf); [vm_compute; split; discriminate|vm_compute; discriminate|].
  intros j Hj. change (Z.min (Z.min 32 32) (56 - key_len demo_slot)) with 24 in Hj. unfold at_. by rewrite !lookup_total_app_l by (vm_compute length; lia).
Defined.
Lemma firmware_verify_correct_witness : exists forged, length forged = 64%nat /\ psa_firmware_update_verify (demo_bytes 100) 100 forged demo_ctx = Done (true, demo_ctx).
Proof.
  destruct (firmware_verify_correct (demo_bytes 100) 100 (replicate 64 0) demo_ctx demo_model_wf) as [_ H]; [lia|vm_compute; discriminate|vm_compute; lia|].
  destruct (H eq_refl) as (forged & Hl & _ & Hv). exists forged. split; [exact Hl|]. apply Hv; [vm_compute; discriminate|done].
Defined.
Lemma attestation_correct_witness : exists t, psa_attestation_generate demo_token (demo_bytes 32) 32 demo_ctx = Done (t, demo_ctx) /\ psa_attestation_verify t (replicate 32 0) demo_ctx = Done (true, demo_ctx).
Proof.
  destruct (attestation_correct demo_token (demo_bytes 32) 32 demo_ctx demo_model_wf) as [(t & H1 & _ & _ & _ & _ & H2) _]; [by repeat split|vm_compute; split; discriminate|].
  exists t. split; [exact H1|]. rewrite (H2 (replicate 32 0) demo_ctx) by done. reflexivity.
Defined.
Lemma validate_level_correct_witness : exists c', psa_certified_init 2 no_psa = Done (tt, c') /\ psa_validate_level c' = true.
Proof.
  destruct (validate_level_correct 2 [] no_psa) as (c' & H1 & H2); [lia|]. exists c'. split; [exact H1|]. rewrite (H2 c' eq_refl). reflexivity.
Defined.
