(* ===== verification/DeviceAttest.v ===== *)
(** * Device attestation (mini-edge-security/src/device_attest.c)

    The device's identity, attestation tokens and challenges, cloud protocols, certificates, measurements, derived keys.
    A pointer argument is the list of bytes from it to the end of its object; a function that fills a buffer returns the bytes it writes.  What a local array holds
    before it is written is an argument [junk] of the functions that read it. *)
From S2P Require Import Prelude ByteMem Hash256.

Definition DEVICE_ID_SIZE : Z := 32.
Definition X509_CERT_SIZE : Z := 1024.
Definition DEVICE_KEY_SIZE : Z := 32.
Definition CHALLENGE_SIZE : Z := 32.
Definition FIRMWARE_HASH_SIZE : Z := 32.
Definition BOOT_STATE_SIZE : Z := 32.
Definition AZURE_REG_ID_MAX : Z := 64.
Inductive AttestState := ATTEST_NONE | ATTEST_CHALLENGE_SENT | ATTEST_RESPONSE_READY | ATTEST_VERIFIED | ATTEST_REJECTED.
Inductive KeySource := KEY_SOURCE_FACTORY | KEY_SOURCE_TPM | KEY_SOURCE_SECURE_ELEMENT | KEY_SOURCE_SOFTWARE.
Inductive CloudProtocol := PROTOCOL_AWS_IOT | PROTOCOL_AZURE_DPS | PROTOCOL_CUSTOM.
Record DeviceIdentity := Identity { device_id : list Z; device_key : list Z; key_source : KeySource; key_protected : bool; factory_cert : list Z; factory_cert_len : Z }.
Record DeviceAttestCtx := AttestCtx { identity : DeviceIdentity; fw_hash : list Z; boot_state : list Z; secure_boot_ok : bool; fw_version : Z; nonce : list Z; state : AttestState; protocol : CloudProtocol; token : list Z; token_len : Z }.
Record X509Cert := Certificate { cert_data : list Z; cert_len : Z; subject_pubkey : list Z; issuer : list Z; serial : list Z; not_before : Z; not_after : Z; is_ca : bool }.
Definition set_identity v x := AttestCtx v (fw_hash x) (boot_state x) (secure_boot_ok x) (fw_version x) (nonce x) (state x) (protocol x) (token x) (token_len x).
Definition set_fw_hash v x := AttestCtx (identity x) v (boot_state x) (secure_boot_ok x) (fw_version x) (nonce x) (state x) (protocol x) (token x) (token_len x).
Definition set_boot_state v x := AttestCtx (identity x) (fw_hash x) v (secure_boot_ok x) (fw_version x) (nonce x) (state x) (protocol x) (token x) (token_len x).
Definition set_secure_boot_ok v x := AttestCtx (identity x) (fw_hash x) (boot_state x) v (fw_version x) (nonce x) (state x) (protocol x) (token x) (token_len x).
Definition set_nonce v x := AttestCtx (identity x) (fw_hash x) (boot_state x) (secure_boot_ok x) (fw_version x) v (state x) (protocol x) (token x) (token_len x).
Definition set_state v x := AttestCtx (identity x) (fw_hash x) (boot_state x) (secure_boot_ok x) (fw_version x) (nonce x) v (protocol x) (token x) (token_len x).
Definition set_protocol v x := AttestCtx (identity x) (fw_hash x) (boot_state x) (secure_boot_ok x) (fw_version x) (nonce x) (state x) v (token x) (token_len x).
Definition set_token v n x := AttestCtx (identity x) (fw_hash x) (boot_state x) (secure_boot_ok x) (fw_version x) (nonce x) (state x) (protocol x) v n.
Definition set_device_id v x := let i := identity x in set_identity (Identity v (device_key i) (key_source i) (key_protected i) (factory_cert i) (factory_cert_len i)) x.
Definition set_cert v n x := let i := identity x in set_identity (Identity (device_id i) (device_key i) (key_source i) (key_protected i) v n) x.
Notation AM := (M DeviceAttestCtx).
(** [a < b ? a : b]. *)
Definition lesser (a b : Z) : Z := if a <? b then a else b.

(** ** Hash, signature, MAC *)

Definition attest_rotl (v n : Z) : Z := Z.lor (u32 (Z.shiftl v n)) (Z.shiftr v (32 - n)).
Definition attest_k : list Z := (fun i => u32 (0x428a2f98 + u32 (i * 0x9E3779B9))) <$> seqZ 0 64.
(** The second half of [t1] is added before [e] is computed. *)
Definition attest_round (s : list Z) (kw : Z * Z) : list Z :=
  match s with
  | [a; b; c; d; e; f; g; hh] =>
      let S1 := Z.lxor (Z.lxor (attest_rotl e 6) (attest_rotl e 11)) (attest_rotl e 25) in
      let ch := Z.lxor (Z.land e f) (Z.land (not32 e) g) in
      let t1 := hh +32 S1 +32 ch +32 kw.1 +32 kw.2 in
      let S0 := Z.lxor (Z.lxor (attest_rotl a 2) (attest_rotl a 13)) (attest_rotl a 22) in
      let maj := Z.lxor (Z.lxor (Z.land a b) (Z.land a c)) (Z.land b c) in
      let t1 := t1 +32 (S0 +32 maj) in
      [t1; a; b; c; d +32 t1; e; f; g]
  | _ => s
  end.
(** [cp < 64 && (cp >= 56 || pos + 64 > len)]: where fewer than 64 bytes are left, the block is the last. *)
Definition attest_has_length (rem : Z) : bool := let cp := lesser rem 64 in (cp <? 64) && ((56 <=? cp) || (rem <? 64)).
Definition attest_hash256 {S} (data : list Z) (len : Z) : M S (list Z) := hash256 attest_rotl attest_k attest_round attest_has_length data len.
(** The 64 bytes of a signature; of what is signed 32 bytes are read. *)
Definition attest_ecdsa_sign (privkey hash : list Z) : list Z :=
  (fun i => Z.lxor (Z.lxor (Z.lxor (at_ hash (i mod 32)) (at_ privkey (i mod DEVICE_KEY_SIZE))) 0x53) (u8 (i * 0x11))) <$> seqZ 0 64.
Definition attest_hmac {S} (key : list Z) (klen : Z) (msg : list Z) (mlen : Z) : M S (list Z) :=
  fill_loop 32 0 (fun i => m ← at_rem msg i mlen; k ← at_rem key i klen; mret (Z.lxor (Z.lxor (Z.lxor m k) 0x36) 0x5C)).

(** ** Identity *)

Definition device_attest_init : AM unit :=
  modify (fun _ => AttestCtx (Identity (replicate 32 0) (replicate 32 0) KEY_SOURCE_FACTORY true (replicate 1024 0) 0) (replicate 32 0) (replicate 32 0) true 0 (replicate 32 0)
    ATTEST_NONE PROTOCOL_AWS_IOT (replicate 512 0) 0).
Definition device_identity_generate (uid : list Z) (len : Z) : AM unit :=
  u ← memcpy_bytes uid (lesser len DEVICE_ID_SIZE);
  c ← gets id;
  let i := identity c in
  let did := overlay u (device_id i) in
  k ← attest_hash256 (did ++ ((fun i => u8 (0xDC + i * 3)) <$> seqZ 0 16)) (DEVICE_ID_SIZE + 16);
  modify (set_identity (Identity did k KEY_SOURCE_FACTORY (key_protected i) (factory_cert i) (factory_cert_len i))).
Definition device_identity_inject_factory (key cert : list Z) (clen : Z) : AM unit :=
  k ← memcpy_bytes key DEVICE_KEY_SIZE;
  let n := lesser clen X509_CERT_SIZE in
  b ← memcpy_bytes cert n;
  modify (fun c => let i := identity c in set_identity (Identity (device_id i) k (key_source i) true (overlay b (factory_cert i)) n) c).
Definition device_attest_protocol_aws (thing_name : list Z) : AM unit :=
  modify (fun c => set_device_id (overlay (take 32 thing_name) (device_id (identity c))) (set_protocol PROTOCOL_AWS_IOT c)).
Definition device_attest_protocol_azure (reg_id : list Z) : AM unit :=
  modify (fun c => set_device_id (overlay (take 32 reg_id) (device_id (identity c))) (set_protocol PROTOCOL_AZURE_DPS c)).
Definition device_attest_aws_fleet_provisioning (template_name claim_cert : list Z) (clen : Z) : AM unit :=
  modify (set_protocol PROTOCOL_AWS_IOT);;
  let n := lesser clen X509_CERT_SIZE in
  b ← memcpy_bytes claim_cert n;
  modify (fun c => set_cert (overlay b (factory_cert (identity c))) n c).

(** ** Tokens and challenges *)

Definition ATTEST_MAGIC : list Z := [65; 84; 84; 69; 83; 84].
Definition token_content (c : DeviceAttestCtx) : list Z :=
  ATTEST_MAGIC ++ device_id (identity c) ++ fw_hash c ++ [b2z (secure_boot_ok c); u8 (Z.land (fw_version c) 0xFF); u8 (Z.land (Z.shiftr (fw_version c) 8) 0xFF)].
Definition device_attest_token_generate : AM unit :=
  modify (fun c =>
    let content := token_content c in
    let t := overlay content (token c) in
    let sig := attest_ecdsa_sign (device_key (identity c)) t in
    set_state ATTEST_RESPONSE_READY (set_token (overlay (content ++ sig) (token c)) (6 + DEVICE_ID_SIZE + FIRMWARE_HASH_SIZE + 3 + 64) c)).
Definition device_attest_challenge (chal : list Z) (len : Z) : AM unit :=
  b ← memcpy_bytes chal (lesser len CHALLENGE_SIZE);
  modify (fun c => set_state ATTEST_CHALLENGE_SENT (set_nonce (overlay b (nonce c)) c)).
(** The comparison, which ends at the first difference; [i] is the index of the first of [expected]. *)
Fixpoint response_loop {S} (i : Z) (expected response : list Z) : M S bool :=
  match expected with
  | [] => mret true
  | e :: expected => r ← of_option (response !! Z.to_nat i); if negb (Z.lxor e (u8 (i * 0x11)) =? r) then mret false else response_loop (i + 1) expected response
  end.
Definition device_attest_verify_cloud (response : list Z) : AM bool :=
  c ← gets id;
  e ← attest_hmac (device_key (identity c)) DEVICE_KEY_SIZE (nonce c) CHALLENGE_SIZE;
  ok ← response_loop 0 e response;
  if negb ok then mret false else modify (set_state ATTEST_VERIFIED);; mret true.
Definition device_attest_sign_challenge : AM (list Z) := c ← gets id; mret (attest_ecdsa_sign (device_key (identity c)) (nonce c ++ device_id (identity c))).
Definition device_attest_validate_token (tok : list Z) (len : Z) : AM bool :=
  if len <? 6 then mret false else b ← memcpy_bytes tok 6; mret (bool_decide (b = ATTEST_MAGIC)).
Definition device_attest_derive_session_key : AM (list Z) :=
  c ← gets id; attest_hmac (device_key (identity c)) DEVICE_KEY_SIZE (nonce c) CHALLENGE_SIZE.
(** The bytes [new_nonce = (new_nonce << 8) | b] joins. *)
Definition nonce_value (bs : list Z) : Z := foldl (fun v b => Z.lor (u64 (Z.shiftl v 8)) b) 0 bs.
Definition device_attest_check_nonce_freshness (n : list Z) (nlen : Z) : AM bool :=
  bs ← loop_bytes n (Z.min nlen 8);
  c ← gets id;
  mret (nonce_value (take 8 (nonce c)) <? nonce_value bs).

(** ** Certificates *)

Definition device_attest_jitp_cert : AM X509Cert :=
  c ← gets id;
  mret (Certificate (overlay [74; 73; 84; 80; 95; 82; 69; 71; 73; 83; 84; 82; 65; 84; 73; 79; 78] (replicate 1024 0)) 17 (replicate 64 0) (replicate 64 0)
    (overlay (take 8 (device_id (identity c))) (replicate 16 0)) 0 0xFFFFFFFF false).
Definition device_attest_verify_device_cert (cert : X509Cert) : AM bool :=
  c ← gets id; mret (if not_after cert <? 1000000 then false else bool_decide (take 8 (serial cert) = take 8 (device_id (identity c)))).

(** ** Measurements and derived keys *)

Definition device_attest_set_fw_hash (hash : list Z) : AM unit := b ← memcpy_bytes hash FIRMWARE_HASH_SIZE; modify (set_fw_hash b).
Definition device_attest_set_boot_state (st : list Z) (ok : bool) : AM unit := b ← memcpy_bytes st BOOT_STATE_SIZE; modify (fun c => set_secure_boot_ok ok (set_boot_state b c)).
Definition device_attest_tpm_extend (junk pcr_data : list Z) (len : Z) : AM unit :=
  d ← memcpy_bytes pcr_data (lesser len FIRMWARE_HASH_SIZE);
  c ← gets id;
  h ← attest_hash256 (boot_state c ++ overlay d junk) (FIRMWARE_HASH_SIZE * 2);
  modify (set_boot_state h).
Definition device_attest_tpm_pcr_extend (pcr_index : Z) (digest : list Z) (dlen : Z) : AM unit :=
  let cplen := lesser dlen FIRMWARE_HASH_SIZE in
  d ← memcpy_bytes digest cplen;
  c ← gets id;
  h ← attest_hash256 (boot_state c ++ d) (BOOT_STATE_SIZE + cplen);
  modify (set_boot_state (<[0%nat := Z.lxor (at_ h 0) (u8 (Z.land pcr_index 0xFF))]> h)).
Definition device_attest_dice_derive_cdi (fw_digest : list Z) (dlen : Z) : AM (list Z) :=
  c ← gets id;
  let cplen := lesser dlen FIRMWARE_HASH_SIZE in
  d ← memcpy_bytes fw_digest cplen;
  attest_hash256 (device_id (identity c) ++ d) (DEVICE_ID_SIZE + cplen).
Definition device_attest_dice_alias_key (junk cdi : list Z) (cdi_len : Z) (label : list Z) (label_len : Z) : AM (list Z) :=
  c ← gets id;
  d ← memcpy_bytes cdi (lesser cdi_len DEVICE_KEY_SIZE);
  let ll := lesser label_len 32 in
  l ← memcpy_bytes label ll;
  attest_hmac (device_key (identity c)) DEVICE_KEY_SIZE (overlay d junk ++ l) (DEVICE_KEY_SIZE + ll).
(** The result and the bytes of the evidence. *)
Definition device_attest_collect_evidence (max_ev_len : Z) : AM (bool * list Z) :=
  c ← gets id;
  mret (if max_ev_len <? 128 then (false, []) else
    (true, [u8 (Z.land (fw_version c) 0xFF); u8 (Z.land (Z.shiftr (fw_version c) 8) 0xFF); b2z (secure_boot_ok c)] ++ fw_hash c ++ boot_state c ++
      [match key_source (identity c) with KEY_SOURCE_FACTORY => 0 | KEY_SOURCE_TPM => 1 | KEY_SOURCE_SECURE_ELEMENT => 2 | KEY_SOURCE_SOFTWARE => 3 end])).
(** [input] has 96 bytes; the key is written behind the whole of the id. *)
Definition device_attest_azure_symmetric_key (registration_id : list Z) : AM (list Z) :=
  c ← gets id;
  let rid_len := Z.of_nat (length registration_id) in
  if AZURE_REG_ID_MAX <? rid_len then undefined
  else
    k ← attest_hash256 (registration_id ++ device_key (identity c)) (rid_len + DEVICE_KEY_SIZE);
    modify (set_protocol PROTOCOL_AZURE_DPS);;
    mret k.

(** ** Well-formed contexts *)

Record attest_wf (c : DeviceAttestCtx) : Prop := {
  wf_id : bytes_of_length 32 (device_id (identity c));
  wf_dev_key : bytes_of_length 32 (device_key (identity c));
  wf_fw : bytes_of_length 32 (fw_hash c);
  wf_boot : bytes_of_length 32 (boot_state c);
  wf_nonce_bytes : bytes_of_length 32 (nonce c);
  wf_token : length (token c) = 512%nat }.

Lemma length_attest_round s kw : length s = 8%nat -> length (attest_round s kw) = 8%nat.
Proof. destruct s as [|a [|b [|c [|d [|e [|f [|g [|h [|]]]]]]]]]; try done. Qed.
Definition attest_digest (data : list Z) (len : Z) : list Z := digest256 attest_rotl attest_k attest_round attest_has_length data len.
Lemma attest_hash_ok {S} data len (s : S) : len < 2 ^ 31 - 64 -> len <= Z.of_nat (length data) -> attest_hash256 data len s = Done (attest_digest data len, s).
Proof. apply hash256_ok. Qed.
Lemma attest_digest_bytes data len : bytes_of_length 32 (attest_digest data len).
Proof. apply digest256_bytes. intros. by apply length_attest_round. Qed.
Lemma attest_has_length_spec r : attest_has_length r = (r <? 64).
Proof. unfold attest_has_length, lesser. destruct (Z.ltb_spec r 64); [|done]. destruct (Z.ltb_spec r 64); [by rewrite orb_true_r|lia]. Qed.
Lemma attest_digest_blind d d' len : len <= Z.of_nat (length d) -> len <= Z.of_nat (length d') ->
  (forall j, 0 <= j < len -> j mod 64 < 56 \/ 64 <= len - 64 * (j / 64) -> at_ d j = at_ d' j) -> attest_digest d len = attest_digest d' len.
Proof.
  intros Hd Hd' H. apply digest256_blind; [done|done|]. intros j Hj Hor. apply H; [done|]. rewrite attest_has_length_spec, Z.ltb_ge in Hor. tauto.
Qed.
#[local] Opaque attest_hash256 attest_digest.

Lemma attest_init_wf c : exists c', device_attest_init c = Done (tt, c') /\ attest_wf c'.
Proof. eexists. split; [reflexivity|]. constructor; cbn; try done; by apply (bool_decide_unpack (bytes_of_length _ _)). Qed.

(** ** What tokens and responses give away *)

Lemma lxor_out x y m : Z.lxor (Z.lxor (Z.lxor x y) m) (Z.lxor x m) = y.
Proof.
  rewrite (Z.lxor_comm x m), <- Z.lxor_assoc, (Z.lxor_assoc (Z.lxor x y) m m), Z.lxor_nilpotent, Z.lxor_0_r, (Z.lxor_comm x y), Z.lxor_assoc, Z.lxor_nilpotent. apply Z.lxor_0_r.
Qed.
Lemma at_sign key hash i : 0 <= i < 32 -> at_ (attest_ecdsa_sign key hash) i = Z.lxor (Z.lxor (at_ hash i) (at_ key i)) (Z.lxor 0x53 (u8 (i * 0x11))).
Proof. intros Hi. unfold attest_ecdsa_sign, DEVICE_KEY_SIZE. rewrite at_seq, !Z.mod_small by lia. apply Z.lxor_assoc. Qed.
(** The device key from the beginning of what was signed and the signature. *)
Definition recover_key (signed sig : list Z) : list Z := (fun i => Z.lxor (at_ sig i) (Z.lxor (at_ signed i) (Z.lxor 0x53 (u8 (i * 0x11))))) <$> seqZ 0 32.
Lemma recover_sign key signed : length key = 32%nat -> recover_key signed (attest_ecdsa_sign key signed) = key.
Proof.
  intros Hk. apply (list_at_eq 32); [done|done|]. intros i Hi. unfold recover_key. rewrite at_seq, at_sign by lia. apply lxor_out.
Qed.
Lemma sign_ext key a b : (forall i, 0 <= i < 32 -> at_ a i = at_ b i) -> attest_ecdsa_sign key a = attest_ecdsa_sign key b.
Proof. intros H. unfold attest_ecdsa_sign. apply list_fmap_ext. intros _ i _. rewrite H; [done|]. apply Z.mod_pos_bound. lia. Qed.
Lemma length_content c : attest_wf c -> length (token_content c) = 73%nat.
Proof. intros [[Hi _] _ [Hf _] _ _ _]. unfold token_content. rewrite !length_app, Hi, Hf. done. Qed.

(** Tokens and responses give the device key away.  A token is the magic, id, firmware hash, state and version with a signature of its first 32 bytes, magic and 26 bytes
    of the id; the key of the device is computed from the token alone, and from a challenge and the response to it.  Any bytes that begin with the magic are a valid token. *)
Theorem token_reveals_key c :
  attest_wf c -> exists c', device_attest_token_generate c = Done (tt, c') /\ token_len c' = 137 /\ state c' = ATTEST_RESPONSE_READY /\
  take 73 (token c') = token_content c /\ recover_key (take 32 (token c')) (window 73 64 (token c')) = device_key (identity c) /\
  (forall chal c0, (32 <= length chal)%nat -> device_attest_challenge chal 32 c = Done (tt, c0) ->
    exists r, device_attest_sign_challenge c0 = Done (r, c0) /\ recover_key chal r = device_key (identity c)) /\
  (forall rest, device_attest_validate_token (ATTEST_MAGIC ++ rest) (6 + Z.of_nat (length rest)) c = Done (true, c)).
Proof.
  intros Hw. pose proof (length_content c Hw) as Hc. destruct (Hw) as [[Hi _] [Hk _] _ _ [Hn _] Ht]. eexists. split; [reflexivity|]. cbv beta zeta. set (sig := attest_ecdsa_sign (device_key (identity c)) (overlay (token_content c) (token c))).
  assert (length sig = 64%nat) as Hs by done. cbn [set_state set_token token token_len state]. split; [done|]. split; [done|].
  assert (forall n, (n <= 73)%nat -> take n (overlay (token_content c ++ sig) (token c)) = take n (token_content c)) as Htake
    by (intros n Hn'; unfold overlay; rewrite !take_app_le by (rewrite ?length_app; lia); done).
  split; [rewrite Htake, take_ge by lia; done|]. split; [|split].
  - assert (window 73 64 (overlay (token_content c ++ sig) (token c)) = sig) as ->
      by (unfold window, overlay; rewrite <- app_assoc, <- Hc, drop_app_length, take_app_le, take_ge by lia; done).
    rewrite Htake by lia. unfold sig. rewrite (sign_ext _ _ (take 32 (token_content c))).
    + by apply recover_sign.
    + intros i Hi'. rewrite (at_take 32) by lia. unfold overlay. rewrite at_app by lia. destruct (Z.ltb_spec i (Z.of_nat (length (token_content c)))); [done|lia].
  - intros chal c0 Hch H. unfold device_attest_challenge, lesser, CHALLENGE_SIZE in H. cbn [Z.ltb] in H. change (32 <? 32) with false in H. cbn match in H.
    erewrite bind_step in H by (apply memcpy_bytes_ok; lia). injection H as <-. eexists. split; [reflexivity|]. cbn [set_state set_nonce nonce identity].
    rewrite (sign_ext _ _ chal); [by apply recover_sign|]. intros i Hi'. change (Z.to_nat 32) with 32%nat. cbn [id set_state set_nonce nonce identity]. unfold overlay.
    rewrite <- app_assoc, at_app, length_take, (at_take 32) by lia. destruct (Z.ltb_spec i (Z.of_nat (Nat.min 32 (length chal)))); [done|lia].
  - intros rest. unfold device_attest_validate_token. destruct (Z.ltb_spec (6 + Z.of_nat (length rest)) 6); [lia|].
    erewrite bind_step by (apply memcpy_bytes_ok; rewrite length_app; cbn [length ATTEST_MAGIC]; lia). done.
Qed.

(** ** The cloud's answer, session keys, layers *)

Definition mac_bytes (key msg : list Z) : list Z := (fun i => Z.lxor (Z.lxor (Z.lxor (at_ msg i) (at_ key i)) 0x36) 0x5C) <$> seqZ 0 32.
Lemma attest_hmac_run {S} key msg mlen (s : S) : length key = 32%nat -> 32 <= mlen <= Z.of_nat (length msg) -> attest_hmac key 32 msg mlen s = Done (mac_bytes key msg, s).
Proof.
  intros Hk Hm. apply (fill_loop_ok 32 0 _ (fun i => Z.lxor (Z.lxor (Z.lxor (at_ msg i) (at_ key i)) 0x36) 0x5C)). intros i Hi.
  erewrite bind_step by (apply at_rem_ok; lia). erewrite bind_step by (apply at_rem_ok; lia). by rewrite !Z.mod_small by lia.
Qed.
Lemma imap_cons_from (f : Z -> Z -> Z) i e l : imap (fun k x => f (i + Z.of_nat k) x) (e :: l) = f i e :: imap (fun k x => f (i + 1 + Z.of_nat k) x) l.
Proof. rewrite imap_cons, Z.add_0_r. f_equal. apply imap_ext. intros k x _. cbn [compose]. f_equal. lia. Qed.
Lemma response_loop_run {S} i expected response (s : S) : 0 <= i -> i + Z.of_nat (length expected) <= Z.of_nat (length response) ->
  response_loop i expected response s = Done (bool_decide (imap (fun k e => Z.lxor e (u8 ((i + Z.of_nat k) * 0x11))) expected = window (Z.to_nat i) (length expected) response), s).
Proof.
  revert i. induction expected as [|e l IH]; intros i Hi Hl; cbn [response_loop length] in *; [done|]. rewrite (list_lookup_lookup_total_lt response) by lia. cbn [of_option]. rewrite bind_ret.
  pose proof (imap_cons_from (fun k e => Z.lxor e (u8 (k * 17))) i e l) as E. cbn beta in E. rewrite E. clear E.
  unfold window. rewrite (drop_S response (response !!! Z.to_nat i)) by (apply list_lookup_lookup_total_lt; lia). cbn [take]. fold (at_ response i).
  destruct (Z.eqb_spec (Z.lxor e (u8 (i * 17))) (at_ response i)) as [H|H]; cbn [negb].
  - rewrite IH by lia. do 2 f_equal. apply bool_decide_ext. unfold window. replace (Z.to_nat (i + 1)) with (Datatypes.S (Z.to_nat i)) by lia. rewrite H.
    split; [by intros ->|by intros [= ->]].
  - rewrite bool_decide_eq_false_2; [done|]. intros [= He _]. done.
Qed.
(** What the cloud's answer has to be. *)
Definition cloud_answer (c : DeviceAttestCtx) : list Z := imap (fun k e => Z.lxor e (u8 (Z.of_nat k * 0x11))) (mac_bytes (device_key (identity c)) (nonce c)).
Lemma verify_cloud_run response c : attest_wf c -> (32 <= length response)%nat ->
  device_attest_verify_cloud response c = if decide (take 32 response = cloud_answer c) then Done (true, set_state ATTEST_VERIFIED c) else Done (false, c).
Proof.
  intros Hw Hr. destruct Hw as [_ [Hk _] _ _ [Hn _] _]. unfold device_attest_verify_cloud. rewrite bind_gets. cbn [id].
  erewrite bind_step by (apply attest_hmac_run; unfold CHALLENGE_SIZE; lia). erewrite bind_step by (apply response_loop_run; [lia|change (length (mac_bytes _ _)) with 32%nat; lia]).
  unfold cloud_answer, window. change (length (mac_bytes _ _)) with 32%nat. change (Z.to_nat 0) with 0%nat. rewrite drop_0. destruct (decide _) as [E|E].
  - rewrite bool_decide_eq_true_2 by (by rewrite E). done.
  - by rewrite bool_decide_eq_false_2 by (by intros E'; apply E; rewrite <- E').
Qed.
Lemma at_answer c i : 0 <= i < 32 -> at_ (cloud_answer c) i = Z.lxor (Z.lxor (at_ (nonce c) i) (at_ (device_key (identity c)) i)) (Z.lxor 0x6A (u8 (i * 0x11))).
Proof.
  intros Hi. unfold cloud_answer. transitivity (Z.lxor (at_ (mac_bytes (device_key (identity c)) (nonce c)) i) (u8 (i * 0x11))).
  - unfold at_. apply list_lookup_total_correct. rewrite list_lookup_imap, (list_lookup_lookup_total_lt (mac_bytes _ _)) by (change (length (mac_bytes _ _)) with 32%nat; lia).
    cbn. by rewrite Z2Nat.id by lia.
  - unfold mac_bytes. rewrite at_seq by lia. change 0x6A with (Z.lxor 0x36 0x5C). by rewrite !Z.lxor_assoc.
Qed.

(** C32: The challenge.  An answer is accepted just when its first 32 bytes are the expected ones, which are the nonce, the device key and constants; no response of the device
    to the same challenge is one.  The session key is the expected answer without its last constant, so that who sees challenge and response of the device has it.
    A failed verification leaves the state as it is. *)
Theorem verify_cloud_correct c :
  attest_wf c ->
  (forall response, (32 <= length response)%nat ->
    device_attest_verify_cloud response c = if decide (take 32 response = cloud_answer c) then Done (true, set_state ATTEST_VERIFIED c) else Done (false, c)) /\
  exists r k, device_attest_sign_challenge c = Done (r, c) /\ device_attest_verify_cloud r c = Done (false, c) /\
    device_attest_derive_session_key c = Done (k, c) /\ forall i, 0 <= i < 32 -> at_ k i = Z.lxor (at_ r i) (Z.lxor (Z.lxor 0x53 (u8 (i * 0x11))) 0x6A).
Proof.
  intros Hw. split; [intros; by apply verify_cloud_run|]. destruct (Hw) as [[Hi _] [Hk _] _ _ [Hn _] _]. eexists _, _. split; [reflexivity|]. cbn [id]. set (r := attest_ecdsa_sign _ _).
  assert (forall i, 0 <= i < 32 -> at_ r i = Z.lxor (Z.lxor (at_ (nonce c) i) (at_ (device_key (identity c)) i)) (Z.lxor 0x53 (u8 (i * 0x11)))) as Hr.
  { intros i Hi'. unfold r. rewrite at_sign by lia. rewrite at_app by lia. destruct (Z.ltb_spec i (Z.of_nat (length (nonce c)))); [done|lia]. }
  assert (32 <= length r)%nat as Hl32 by (unfold r, attest_ecdsa_sign; rewrite ?length_app, ?length_fmap, ?length_seqZ; lia).
  split; [|split].
  - rewrite verify_cloud_run by done. destruct (decide _) as [E|]; [|done]. exfalso. apply (f_equal (fun l => at_ l 0)) in E.
    rewrite (at_take 32), Hr, at_answer, lxor_cancel_iff in E by lia. discriminate E.
  - unfold device_attest_derive_session_key. rewrite bind_gets. cbn [id]. apply attest_hmac_run; unfold CHALLENGE_SIZE; lia.
  - intros i Hi'. unfold mac_bytes. rewrite at_seq, Hr by lia. set (x := Z.lxor (at_ (nonce c) i) _). set (m := Z.lxor 0x53 _).
    rewrite <- (Z.lxor_assoc _ m 0x6A), (Z.lxor_assoc x m m), Z.lxor_nilpotent, Z.lxor_0_r, Z.lxor_assoc. done.
Qed.

Lemma lesser_min a b : lesser a b = Z.min a b.
Proof. unfold lesser. destruct (Z.ltb_spec a b); lia. Qed.
Lemma device_key_run uid len c : attest_wf c -> Forall is_u8 uid -> 0 <= len <= Z.of_nat (length uid) -> exists c', device_identity_generate uid len c = Done (tt, c') /\ attest_wf c' /\
  take (Z.to_nat (Z.min len 32)) (device_id (identity c')) = take (Z.to_nat (Z.min len 32)) uid /\
  device_key (identity c') = attest_digest (device_id (identity c') ++ ((fun i => u8 (0xDC + i * 3)) <$> seqZ 0 16)) 48.
Proof.
  intros [[Hi Hib] Hk Hf Hb Hn Ht] Hu Hl. unfold device_identity_generate, DEVICE_ID_SIZE. rewrite lesser_min. erewrite bind_step by (apply memcpy_bytes_ok; lia). rewrite bind_gets. cbn [id].
  assert (bytes_of_length 32 (overlay (take (Z.to_nat (Z.min len 32)) uid) (device_id (identity c)))) as Hd
    by (apply overlay_bytes; [rewrite length_take; lia|by apply Forall_take|by split]).
  erewrite bind_step by (apply attest_hash_ok; [lia|rewrite length_app, (proj1 Hd), length_fmap, length_seqZ; lia]). eexists. split; [reflexivity|].
  split; [constructor; try done; apply attest_digest_bytes|]. split; [|done]. cbn [set_identity identity device_id]. unfold overlay. by rewrite take_app_le, take_ge by (rewrite length_take; lia).
Qed.

(** Derived keys.  The alias key is the same for every label: of input and label only the 32 bytes of the input are used.  The key that is generated for a device is
    a hash of its id, which every token shows, and a constant. *)
Theorem alias_key_ignores_label junk cdi cdi_len label label_len label' label_len' uid len c :
  attest_wf c -> length junk = 32%nat -> 0 <= cdi_len <= Z.of_nat (length cdi) -> 0 <= label_len <= Z.of_nat (length label) -> 0 <= label_len' <= Z.of_nat (length label') ->
  Forall is_u8 uid -> 0 <= len <= Z.of_nat (length uid) ->
  (exists k, device_attest_dice_alias_key junk cdi cdi_len label label_len c = Done (k, c) /\ device_attest_dice_alias_key junk cdi cdi_len label' label_len' c = Done (k, c) /\ length k = 32%nat) /\
  exists c', device_identity_generate uid len c = Done (tt, c') /\ device_key (identity c') = attest_digest (device_id (identity c') ++ ((fun i => u8 (0xDC + i * 3)) <$> seqZ 0 16)) 48.
Proof.
  intros Hw Hj Hc Hl Hl' Hu Hul. destruct (Hw) as [[Hi _] [Hk _] _ _ _ _]. set (inp := overlay (take (Z.to_nat (Z.min cdi_len 32)) cdi) junk).
  assert (length inp = 32%nat) as Hin by (unfold inp, overlay; rewrite length_app, length_drop, length_take; lia). split.
  - assert (forall l n, 0 <= n <= Z.of_nat (length l) -> device_attest_dice_alias_key junk cdi cdi_len l n c = Done (mac_bytes (device_key (identity c)) inp, c)) as Hrun.
    { intros l n Hn. unfold device_attest_dice_alias_key, DEVICE_KEY_SIZE. rewrite bind_gets, !lesser_min. cbn [id]. erewrite bind_step by (apply memcpy_bytes_ok; lia).
      erewrite bind_step by (apply memcpy_bytes_ok; lia). fold inp. rewrite attest_hmac_run by (rewrite ?length_app, ?length_take; lia). do 2 f_equal. unfold mac_bytes.
      apply list_fmap_ext. intros k i E. apply lookup_seqZ in E as [-> Hk']. rewrite at_app, Hin by lia. destruct (Z.ltb_spec (0 + Z.of_nat k) (Z.of_nat 32)); [done|lia]. }
    eexists. split; [by apply Hrun|]. split; [by apply Hrun|done].
  - destruct (device_key_run uid len c Hw Hu Hul) as (c' & H1 & _ & _ & H2). exists c'. split; [exact H1|exact H2].
Qed.

(** ** Measurements, nonces *)

Lemma pcr_run idx d dlen c : attest_wf c -> 0 <= dlen <= Z.of_nat (length d) ->
  device_attest_tpm_pcr_extend idx d dlen c =
    Done (tt, set_boot_state (let h := attest_digest (boot_state c ++ take (Z.to_nat (Z.min dlen 32)) d) (32 + Z.min dlen 32) in <[0%nat := Z.lxor (at_ h 0) (u8 (Z.land idx 0xFF))]> h) c).
Proof.
  intros [_ _ _ [Hb _] _ _] Hd. unfold device_attest_tpm_pcr_extend, FIRMWARE_HASH_SIZE, BOOT_STATE_SIZE. rewrite lesser_min. erewrite bind_step by (apply memcpy_bytes_ok; lia).
  rewrite bind_gets. cbn [id]. by erewrite bind_step by (apply attest_hash_ok; [lia|rewrite length_app, length_take; lia]).
Qed.
(** Measurements.  There is one register: extending it gives the hash of the old value and the digest, with the number of the register in the first byte, so that two
    numbers that differ leave values that differ in that byte alone.  Digests of 25 to 31 bytes that agree on the first 24 are the same. *)
Theorem pcr_extend_correct idx idx' d d' dlen c :
  attest_wf c -> 0 <= dlen <= Z.of_nat (length d) -> dlen <= Z.of_nat (length d') ->
  (exists c1 c2, device_attest_tpm_pcr_extend idx d dlen c = Done (tt, c1) /\ device_attest_tpm_pcr_extend idx' d dlen c = Done (tt, c2) /\ length (boot_state c1) = 32%nat /\
    drop 1 (boot_state c1) = drop 1 (boot_state c2) /\ Z.lxor (at_ (boot_state c1) 0) (u8 idx) = Z.lxor (at_ (boot_state c2) 0) (u8 idx')) /\
  ((forall j, 0 <= j < Z.min dlen 32 -> j < 24 \/ 32 <= dlen -> at_ d j = at_ d' j) -> device_attest_tpm_pcr_extend idx d' dlen c = device_attest_tpm_pcr_extend idx d dlen c).
Proof.
  intros Hw Hd Hd'. destruct (Hw) as [_ _ _ [Hb _] _ _]. split.
  - eexists _, _. split; [by apply pcr_run|]. split; [by apply pcr_run|]. cbn [set_boot_state boot_state]. set (h := attest_digest _ _). destruct (attest_digest_bytes (boot_state c ++ take (Z.to_nat (Z.min dlen 32)) d) (32 + Z.min dlen 32)) as [Hl _].
    fold h in Hl. destruct h as [|x h]; [done|]. split; [done|]. split; [done|]. cbn [insert list_insert].
    assert (forall i, u8 (Z.land i 0xFF) = u8 i) as -> by (intros i; change 0xFF with (Z.ones 8); rewrite Z.land_ones by done; unfold u8; change (2 ^ 8) with 256; by rewrite Zmod_mod).
    assert (forall i, u8 (Z.land i 0xFF) = u8 i) as -> by (intros i; change 0xFF with (Z.ones 8); rewrite Z.land_ones by done; unfold u8; change (2 ^ 8) with 256; by rewrite Zmod_mod).
    change (Z.lxor (Z.lxor x (u8 idx)) (u8 idx) = Z.lxor (Z.lxor x (u8 idx')) (u8 idx')). by rewrite !Z.lxor_assoc, !Z.lxor_nilpotent.
  - intros H. rewrite !pcr_run by (done || lia). rewrite (attest_digest_blind (boot_state c ++ take (Z.to_nat (Z.min dlen 32)) d') (boot_state c ++ take (Z.to_nat (Z.min dlen 32)) d)); [done|rewrite length_app, length_take; lia..|].
    intros j Hj Hor. rewrite !at_app, Hb by lia. destruct (Z.ltb_spec j (Z.of_nat 32)); [done|]. rewrite !at_take by lia. symmetry. apply H; [lia|]. Z.div_mod_to_equations. lia.
Qed.

Lemma nonce_value_be bs : (length bs <= 8)%nat -> Forall is_u8 bs -> nonce_value bs = be_val bs.
Proof.
  unfold nonce_value. induction bs as [|b bs IH] using rev_ind; intros Hl H; [done|]. rewrite length_app in Hl. cbn in Hl. apply Forall_app in H as [H Hb]. apply Forall_cons in Hb as [Hb _].
  unfold is_u8 in Hb. rewrite foldl_app, IH, be_val_snoc by (done || lia). cbn [foldl]. pose proof (be_val_bound bs H) as Hv.
  assert (256 ^ Z.of_nat (length bs) <= 256 ^ 7) by (apply Z.pow_le_mono_r; lia). change (256 ^ 7) with (2 ^ 56) in *.
  rewrite u64_small by (rewrite Z.shiftl_mul_pow2 by lia; lia). rewrite lor_shiftl_add by lia. lia.
Qed.
(** Freshness.  A nonce is fresh just when its first eight bytes, as a number, exceed those of the stored challenge; fewer bytes are a smaller number.  Nothing is stored,
    so that what was fresh stays so. *)
Theorem nonce_freshness_correct n nlen c :
  attest_wf c -> Forall is_u8 n -> nlen <= Z.of_nat (length n) ->
  device_attest_check_nonce_freshness n nlen c = Done (be_val (take 8 (nonce c)) <? be_val (take (Z.to_nat (Z.min nlen 8)) n), c).
Proof.
  intros [_ _ _ _ [Hl Hb] _] Hn Hnl. unfold device_attest_check_nonce_freshness. destruct (Z.leb_spec nlen 0) as [H|H].
  - unfold loop_bytes. destruct (Z.leb_spec (Z.min nlen 8) 0); [|lia]. rewrite bind_ret, bind_gets. cbn [id]. rewrite (nonce_value_be (take 8 _)) by (by apply Forall_take || (rewrite length_take; lia)).
    by replace (Z.to_nat (Z.min nlen 8)) with 0%nat by lia.
  - erewrite bind_step by (apply loop_bytes_ok; lia). rewrite bind_gets. cbn [id]. by rewrite !nonce_value_be by (by apply Forall_take || (rewrite length_take; lia)).
Qed.

(** ** Witnesses *)

Definition no_attest : DeviceAttestCtx := AttestCtx (Identity [] [] KEY_SOURCE_FACTORY false [] 0) [] [] false 0 [] ATTEST_NONE PROTOCOL_AWS_IOT [] 0.
Definition demo_ctx : DeviceAttestCtx := match (device_attest_init;; device_identity_generate (seqZ 1 16) 16;; device_attest_challenge (seqZ 7 32) 32) no_attest with Done (_, c) => c | _ => no_attest end.
Lemma demo_attest_wf : attest_wf demo_ctx.
Proof. constructor; first [by apply (bool_decide_unpack (bytes_of_length _ _)); vm_compute|by vm_compute]. Qed.
Lemma token_reveals_key_witness : exists c', device_attest_token_generate demo_ctx = Done (tt, c') /\ recover_key (take 32 (token c')) (window 73 64 (token c')) = device_key (identity demo_ctx).
Proof. destruct (token_reveals_key demo_ctx demo_attest_wf) as (c' & H1 & _ & _ & _ & H2 & _). exists c'. split; [exact H1|exact H2]. Defined.
Lemma verify_cloud_correct_witness : device_attest_verify_cloud (cloud_answer demo_ctx) demo_ctx = Done (true, set_state ATTEST_VERIFIED demo_ctx) /\
  device_attest_verify_cloud (replicate 32 0) demo_ctx = Done (false, demo_ctx).
Proof.
  destruct (verify_cloud_correct demo_ctx demo_attest_wf) as [H _]. split; rewrite H by (vm_compute; lia).
  - rewrite decide_True; [reflexivity|]. by apply take_ge.
  - rewrite decide_False; [reflexivity|]. by vm_compute.
Defined.
Lemma alias_key_ignores_label_witness : exists k, device_attest_dice_alias_key (replicate 32 0) (seqZ 3 32) 32 [1] 1 demo_ctx = Done (k, demo_ctx) /\
  device_attest_dice_alias_key (replicate 32 0) (seqZ 3 32) 32 [2; 3] 2 demo_ctx = Done (k, demo_ctx).
Proof.
  destruct (alias_key_ignores_label (replicate 32 0) (seqZ 3 32) 32 [1] 1 [2; 3] 2 (seqZ 1 16) 16 demo_ctx) as [(k & H1 & H2 & _) _];
    [exact demo_attest_wf|reflexivity|vm_compute; split; discriminate..|by apply (bool_decide_unpack (Forall is_u8 _)); vm_compute|vm_compute; split; discriminate|].
  exists k. split; [exact H1|exact H2].
Defined.
Lemma pcr_extend_correct_witness : exists c1 c2, device_attest_tpm_pcr_extend 3 (seqZ 1 32) 32 demo_ctx = Done (tt, c1) /\ device_attest_tpm_pcr_extend 4 (seqZ 1 32) 32 demo_ctx = Done (tt, c2) /\
  drop 1 (boot_state c1) = drop 1 (boot_state c2).
Proof.
  destruct (pcr_extend_correct 3 4 (seqZ 1 32) (seqZ 1 32) 32 demo_ctx demo_attest_wf) as [(c1 & c2 & H1 & H2 & _ & H3 & _) _]; [vm_compute; split; discriminate|vm_compute; discriminate|].
  exists c1, c2. split; [exact H1|]. split; [exact H2|exact H3].
Defined.
Lemma nonce_freshness_correct_witness : device_attest_check_nonce_freshness (seqZ 8 32) 32 demo_ctx = Done (true, demo_ctx) /\ device_attest_check_nonce_freshness (seqZ 8 4) 4 demo_ctx = Done (false, demo_ctx).
Proof.
  split.
  - rewrite (nonce_freshness_correct (seqZ 8 32) 32 demo_ctx demo_attest_wf) by first [by apply (bool_decide_unpack (Forall is_u8 _)); vm_compute|by vm_compute]. vm_compute. reflexivity.
  - rewrite (nonce_freshness_correct (seqZ 8 4) 4 demo_ctx demo_attest_wf) by first [by apply (bool_decide_unpack (Forall is_u8 _)); vm_compute|by vm_compute]. vm_compute. reflexivity.
Defined.
