(* ===== verification/Registers.v ===== *)
(** * Device registers

    What the sources of mini-mcu-embedded share: volatile loads and stores, barriers, bit fields.  The hardware behind an address is the class [Bus]; which addresses
    are registers that keep what is stored, and do nothing else, is the class [Plain], with an instance over a memory.  Addresses and [unsigned long] have 32 bits. *)
From S2P Require Import Prelude.

Inductive instruction := dsb | isb | nop | wfi | wfe | cpsid_i | cpsie_i.

(** Loads and stores of 32 and of 8 bits, instructions of the processor and the IPSR register. *)
Class Bus (D : Type) := {
  bus_read : Z -> D -> Z * D;
  bus_write : Z -> Z -> D -> D;
  bus_read8 : Z -> D -> Z * D;
  bus_write8 : Z -> Z -> D -> D;
  bus_asm : instruction -> D -> D;
  bus_ipsr : D -> Z }.

Section accesses.
Context {D : Type} `{Bus D}.
Definition load (a : Z) : M D Z := fun d => let '(v, d') := bus_read a d in Done (v, d').
Definition store (a v : Z) : M D unit := fun d => Done (tt, bus_write a (u32 v) d).
Definition load8 (a : Z) : M D Z := fun d => let '(v, d') := bus_read8 a d in Done (v, d').
Definition store8 (a v : Z) : M D unit := fun d => Done (tt, bus_write8 a (u8 v) d).
Definition asm (i : instruction) : M D unit := fun d => Done (tt, bus_asm i d).
(** [*a |= m] and [*a &= ~m] *)
Definition set_bits (a m : Z) : M D unit := v ← load a; store a (Z.lor v m).
Definition clear_bits (a m : Z) : M D unit := v ← load a; store a (Z.land v (u32 (Z.lnot m))).
(** A loop [while (!(v & m))] on the register at [a]: the number of loads it may take. *)
Fixpoint wait_bits (fuel : nat) (a m : Z) : M D unit :=
  match fuel with O => nofuel | S fuel => v ← load a; if Z.land v m =? 0 then wait_bits fuel a m else mret tt end.
Fixpoint wait_clear (fuel : nat) (a m : Z) : M D unit :=
  match fuel with O => nofuel | S fuel => v ← load a; if Z.land v m =? 0 then mret tt else wait_clear fuel a m end.
End accesses.

(** ** Bits *)

Lemma testbit_u32 x i : 0 <= i -> Z.testbit (u32 x) i = (i <? 32) && Z.testbit x i.
Proof.
  intros Hi. unfold u32. change 4294967296 with (2 ^ 32). destruct (Z.ltb_spec i 32); [by rewrite Z.mod_pow2_bits_low by lia|by rewrite Z.mod_pow2_bits_high by lia].
Qed.
Lemma testbit_bit k i : 0 <= k -> 0 <= i -> Z.testbit (Z.shiftl 1 k) i = bool_decide (i = k).
Proof.
  intros Hk Hi. rewrite Z.shiftl_spec by lia. destruct (decide (i = k)) as [->|Hne]; [rewrite bool_decide_true by done; by rewrite Z.sub_diag|]. rewrite bool_decide_false by done.
  destruct (decide (i < k)); [by rewrite Z.testbit_neg_r by lia|]. apply (testbit_high 1); lia.
Qed.
Lemma land_bit_0 v k : 0 <= k -> (Z.land v (Z.shiftl 1 k) =? 0) = negb (Z.testbit v k).
Proof.
  intros Hk. destruct (Z.testbit v k) eqn:E; cbn [negb].
  - apply Z.eqb_neq. intros H. apply (f_equal (fun x => Z.testbit x k)) in H. rewrite Z.land_spec, testbit_bit, bool_decide_true, E, Z.bits_0 in H by lia. done.
  - apply Z.eqb_eq, Z.bits_inj'. intros i Hi. rewrite Z.land_spec, testbit_bit, Z.bits_0 by lia. destruct (decide (i = k)) as [->|]; [by rewrite E|by rewrite bool_decide_false, andb_false_r].
Qed.
Lemma u32_eq_bits x y : is_u32 x -> is_u32 y -> (forall i, 0 <= i < 32 -> Z.testbit x i = Z.testbit y i) -> x = y.
Proof.
  intros Hx Hy H. apply Z.bits_inj'. intros i Hi. destruct (decide (i < 32)); [apply H; lia|]. by rewrite !(testbit_high 32) by (try done; lia).
Qed.

Lemma u32_bits x : (forall i, 32 <= i -> Z.testbit x i = false) -> is_u32 x.
Proof.
  intros H. assert (u32 x = x) as <-; [|apply u32_range]. apply Z.bits_inj'. intros i Hi. rewrite testbit_u32 by done. destruct (Z.ltb_spec i 32); [done|]. by rewrite H.
Qed.
Lemma land_u32 x y : is_u32 x -> is_u32 (Z.land x y).
Proof. intros Hx. apply u32_bits. intros i Hi. by rewrite Z.land_spec, (testbit_high 32 x) by (done || lia). Qed.
Lemma lor_u32 x y : is_u32 x -> is_u32 y -> is_u32 (Z.lor x y).
Proof. intros Hx Hy. apply u32_bits. intros i Hi. by rewrite Z.lor_spec, (testbit_high 32 x), (testbit_high 32 y) by (done || lia). Qed.

(** [w] bits of [x] from position [p] on; the words that code makes by clearing such bits and or-ing a value into them. *)
Definition field (x p w : Z) : Z := Z.shiftr x p mod 2 ^ w.
Definition put_field (x p w v : Z) : Z := u32 (Z.lor (Z.land x (u32 (Z.lnot (Z.shiftl (Z.ones w) p)))) (Z.shiftl v p)).
Lemma testbit_put_field x p w v i :
  is_u32 x -> 0 <= p -> 0 <= w -> p + w <= 32 -> 0 <= v < 2 ^ w -> 0 <= i < 32 -> Z.testbit (put_field x p w v) i = if decide (p <= i < p + w) then Z.testbit v (i - p) else Z.testbit x i.
Proof.
  intros Hx Hp Hw Hpw Hv Hi. unfold put_field. rewrite testbit_u32 by lia. destruct (Z.ltb_spec i 32); [|lia]. cbn [andb]. rewrite Z.lor_spec, Z.land_spec, testbit_u32, Z.lnot_spec, !Z.shiftl_spec by lia.
  destruct (Z.ltb_spec i 32); [|lia]. cbn [andb]. destruct (decide (p <= i < p + w)) as [Hin|Hout].
  - rewrite Z.ones_spec_low by lia. cbn [negb]. by rewrite andb_false_r.
  - assert (Z.testbit v (i - p) = false) as ->; [|rewrite orb_false_r].
    { destruct (decide (i < p)); [by rewrite Z.testbit_neg_r by lia|]. apply (testbit_high w); [done|lia]. }
    assert (Z.testbit (Z.ones w) (i - p) = false) as ->; [|by rewrite andb_true_r].
    destruct (decide (i < p)); [by rewrite Z.testbit_neg_r by lia|]. apply Z.ones_spec_high. lia.
Qed.
Lemma testbit_field x p w i : 0 <= p -> 0 <= w -> 0 <= i -> Z.testbit (field x p w) i = (i <? w) && Z.testbit x (p + i).
Proof.
  intros Hp Hw Hi. unfold field. destruct (Z.ltb_spec i w); [rewrite Z.mod_pow2_bits_low by lia; rewrite Z.shiftr_spec by lia; by rewrite (Z.add_comm i p)|by rewrite Z.mod_pow2_bits_high by lia].
Qed.
Lemma field_put_field x p w v : is_u32 x -> 0 <= p -> 0 <= w -> p + w <= 32 -> 0 <= v < 2 ^ w -> field (put_field x p w v) p w = v.
Proof.
  intros Hx Hp Hw Hpw Hv. apply Z.bits_inj'. intros i Hi. rewrite testbit_field by lia. destruct (Z.ltb_spec i w) as [Hlt|Hge]; cbn [andb].
  - rewrite testbit_put_field by (done || lia). rewrite decide_True by lia. f_equal. lia.
  - symmetry. by apply (testbit_high w).
Qed.
Lemma field_put_other x p w v p' w' : is_u32 x -> 0 <= p -> 0 <= w -> p + w <= 32 -> 0 <= v < 2 ^ w -> 0 <= p' -> 0 <= w' -> p' + w' <= 32 -> p' + w' <= p \/ p + w <= p' -> field (put_field x p w v) p' w' = field x p' w'.
Proof.
  intros Hx Hp Hw Hpw Hv Hp' Hw' Hpw' Hd. apply Z.bits_inj'. intros i Hi. rewrite !testbit_field by lia. destruct (Z.ltb_spec i w'); cbn [andb]; [|done].
  rewrite testbit_put_field by (done || lia). by rewrite decide_False by lia.
Qed.
Lemma put_field_u32 x p w v : is_u32 (put_field x p w v).
Proof. apply u32_range. Qed.

(** ** Registers that keep what is stored *)

Class Plain (D : Type) `{Bus D} (cell : Z -> D -> Z) (plain : Z -> Prop) : Prop := {
  plain_read a d : plain a -> bus_read a d = (cell a d, d);
  plain_write a v d : plain a -> is_u32 v -> cell a (bus_write a v d) = v;
  plain_frame a b v d : plain a -> plain b -> a <> b -> cell b (bus_write a v d) = cell b d;
  plain_asm i a d : plain a -> cell a (bus_asm i d) = cell a d;
  plain_u32 a d : is_u32 (cell a d) }.

Section plain.
Context {D : Type} `{Hbus : Bus D} (cell : Z -> D -> Z) (plain : Z -> Prop) `{!Plain D cell plain}.
Lemma load_plain a d : plain a -> load a d = Done (cell a d, d).
Proof. intros Ha. unfold load. by rewrite plain_read. Qed.
Lemma store_run a v (d : D) : store a v d = Done (tt, bus_write a (u32 v) d).
Proof. done. Qed.
Lemma cell_store a v d : plain a -> cell a (bus_write a (u32 v) d) = u32 v.
Proof. intros Ha. apply plain_write; [done|apply u32_range]. Qed.
Lemma cell_stored a b v d : plain a -> plain b -> cell b (bus_write a (u32 v) d) = if decide (a = b) then u32 v else cell b d.
Proof. intros Ha Hb. destruct (decide (a = b)) as [<-|Hne]; [by apply cell_store|by apply plain_frame]. Qed.

Lemma set_bits_run a m d : plain a -> set_bits a m d = Done (tt, bus_write a (u32 (Z.lor (cell a d) m)) d).
Proof. intros Ha. unfold set_bits. by erewrite bind_step by (by apply load_plain). Qed.
Lemma clear_bits_run a m d : plain a -> clear_bits a m d = Done (tt, bus_write a (u32 (Z.land (cell a d) (u32 (Z.lnot m)))) d).
Proof. intros Ha. unfold clear_bits. by erewrite bind_step by (by apply load_plain). Qed.
(** Clearing a field and or-ing a value into it. *)
Lemma put_field_run a p w v d :
  plain a -> exists d', (clear_bits a (Z.shiftl (Z.ones w) p);; set_bits a (Z.shiftl v p)) d = Done (tt, d') /\ cell a d' = put_field (cell a d) p w v /\
    forall b, plain b -> b <> a -> cell b d' = cell b d.
Proof.
  intros Ha. erewrite bind_step by (by apply clear_bits_run). rewrite set_bits_run by done. eexists. split; [reflexivity|]. split.
  - rewrite !cell_store by done. unfold put_field. by rewrite (u32_small (Z.land _ _)) by apply land_u32, plain_u32.
  - intros b Hb Hne. rewrite !cell_stored by done. by rewrite !decide_False by congruence.
Qed.
End plain.

(** ** A memory: every address keeps what is stored *)

Record memory := Memory { words : gmap Z Z; octets : gmap Z Z }.
#[export] Instance memory_bus : Bus memory := {|
  bus_read a m := (u32 (default 0 (words m !! a)), m);
  bus_write a v m := Memory (<[a := v]> (words m)) (octets m);
  bus_read8 a m := (u8 (default 0 (octets m !! a)), m);
  bus_write8 a v m := Memory (words m) (<[a := v]> (octets m));
  bus_asm _ m := m;
  bus_ipsr _ := 0 |}.
Definition memory_cell (a : Z) (m : memory) : Z := u32 (default 0 (words m !! a)).
#[export] Instance memory_plain plain : Plain memory memory_cell plain.
Proof.
  split; intros; unfold memory_cell; cbn.
  - done.
  - rewrite lookup_insert_eq. by apply u32_small.
  - by rewrite lookup_insert_ne.
  - done.
  - apply u32_range.
Qed.

(** ** Fields of words put together *)

Lemma field_lor a b p w : 0 <= p -> 0 <= w -> field (Z.lor a b) p w = Z.lor (field a p w) (field b p w).
Proof.
  intros Hp Hw. apply Z.bits_inj'. intros i Hi. rewrite Z.lor_spec, !testbit_field, Z.lor_spec by lia. by destruct (i <? w).
Qed.
Lemma field_u32 x p w : 0 <= p -> 0 <= w -> p + w <= 32 -> field (u32 x) p w = field x p w.
Proof.
  intros Hp Hw Hpw. apply Z.bits_inj'. intros i Hi. rewrite !testbit_field by lia. destruct (Z.ltb_spec i w); cbn [andb]; [|done]. rewrite testbit_u32 by lia. by destruct (Z.ltb_spec (p + i) 32); [|lia].
Qed.
Lemma field_shiftl v q n p w : 0 <= q -> 0 <= n -> 0 <= p -> 0 <= w -> 0 <= v < 2 ^ n -> q + n <= p \/ p + w <= q \/ q = p /\ n <= w -> field (Z.shiftl v q) p w = if q =? p then if w =? 0 then 0 else v else 0.
Proof.
  intros Hq Hn Hp Hw Hv Hd. apply Z.bits_inj'. intros i Hi. rewrite testbit_field, Z.shiftl_spec by lia. destruct (Z.eqb_spec q p) as [->|Hne].
  - destruct (Z.eqb_spec w 0) as [->|]; [by destruct (Z.ltb_spec i 0); [lia|]; rewrite Z.bits_0|]. replace (p + i - p) with i by lia. destruct (Z.ltb_spec i w); cbn [andb]; [done|].
    destruct Hd as [Hd|[Hd|[_ Hd]]]; [|lia|symmetry; apply (testbit_high n); lia]. assert (n = 0) as -> by lia. assert (v = 0) as -> by (change (2 ^ 0) with 1 in Hv; lia). by rewrite Z.bits_0.
  - rewrite Z.bits_0. destruct (Z.ltb_spec i w); cbn [andb]; [|done]. destruct Hd as [Hd|[Hd|[? _]]]; [|by rewrite Z.testbit_neg_r by lia|done]. apply (testbit_high n); [done|lia].
Qed.
Lemma field_0 p w : 0 <= p -> 0 <= w -> field 0 p w = 0.
Proof. intros. unfold field. rewrite Z.shiftr_0_l. by apply Z.mod_0_l, Z.pow_nonzero. Qed.
Lemma field_if (b : bool) x y p w : field (if b then x else y) p w = if b then field x p w else field y p w.
Proof. by destruct b. Qed.
