(* ===== verification/CortexM.v ===== *)
(** * Processor core (mini-mcu-embedded/src/cortex_m_core.c)

    Interrupt controller, system timer, control block and protection unit of a Cortex-M4 as sequences of volatile accesses.  The interrupt controller behind its registers
    is the class [Nvic], with an instance. *)
From S2P Require Import Prelude Registers.

Definition NVIC_BASE : Z := 0xE000E100.
Definition SCB_BASE : Z := 0xE000ED00.
Definition SYSTICK_BASE : Z := 0xE000E010.
Definition MPU_BASE : Z := 0xE000ED90.
Definition NVIC_ISER_BASE : Z := NVIC_BASE + 0x000.
Definition NVIC_ICER_BASE : Z := NVIC_BASE + 0x080.
Definition NVIC_ISPR_BASE : Z := NVIC_BASE + 0x100.
Definition NVIC_ICPR_BASE : Z := NVIC_BASE + 0x180.
Definition NVIC_IABR_BASE : Z := NVIC_BASE + 0x200.
Definition NVIC_IPR_BASE : Z := NVIC_BASE + 0x300.
Definition NVIC_STIR : Z := NVIC_BASE + 0xE00.
Definition SYSTICK_CSR : Z := SYSTICK_BASE + 0x00.
Definition SYSTICK_RVR : Z := SYSTICK_BASE + 0x04.
Definition SYSTICK_CVR : Z := SYSTICK_BASE + 0x08.
Definition SYSTICK_CALIB : Z := SYSTICK_BASE + 0x0C.
Definition SCB_CPUID : Z := SCB_BASE + 0x00.
Definition SCB_ICSR : Z := SCB_BASE + 0x04.
Definition SCB_VTOR : Z := SCB_BASE + 0x08.
Definition SCB_AIRCR : Z := SCB_BASE + 0x0C.
Definition SCB_SCR : Z := SCB_BASE + 0x10.
Definition SCB_CCR : Z := SCB_BASE + 0x14.
Definition SCB_SHCSR : Z := SCB_BASE + 0x24.
Definition MPU_CTRL : Z := MPU_BASE + 0x04.
Definition MPU_RNR : Z := MPU_BASE + 0x08.
Definition MPU_RBAR : Z := MPU_BASE + 0x0C.
Definition MPU_RASR : Z := MPU_BASE + 0x10.
Definition ICSR_VECTACTIVE_MASK : Z := 0x000001FF.
Definition ICSR_VECTPENDING_MASK : Z := 0x003FF000.
Definition AIRCR_VECTKEY_MASK : Z := 0xFFFF0000.
Definition AIRCR_VECTKEY_VALUE : Z := 0x05FA0000.
Definition AIRCR_PRIGROUP_POS : Z := 8.
Definition AIRCR_PRIGROUP_MASK : Z := 0x00000700.
Definition AIRCR_SYSRESETREQ : Z := Z.shiftl 1 2.
Definition SCR_SLEEPONEXIT : Z := Z.shiftl 1 1.
Definition SCR_SLEEPDEEP : Z := Z.shiftl 1 2.
Definition SCR_SEVEONPEND : Z := Z.shiftl 1 4.
Definition CCR_DIV_0_TRAP : Z := Z.shiftl 1 4.
Definition CCR_UNALIGN_TRAP : Z := Z.shiftl 1 3.
Definition SYSTICK_CSR_ENABLE : Z := Z.shiftl 1 0.
Definition SYSTICK_CSR_TICKINT : Z := Z.shiftl 1 1.
Definition SYSTICK_CSR_COUNTFLAG : Z := Z.shiftl 1 16.
Definition SHCSR_MEMFAULTENA : Z := Z.shiftl 1 16.
Definition SHCSR_BUSFAULTENA : Z := Z.shiftl 1 17.
Definition SHCSR_USGFAULTENA : Z := Z.shiftl 1 18.
Definition MPU_CTRL_ENABLE : Z := Z.shiftl 1 0.
Definition MPU_CTRL_HFNMIENA : Z := Z.shiftl 1 1.
Definition MPU_CTRL_PRIVDEFENA : Z := Z.shiftl 1 2.
Definition MPU_RASR_ENABLE : Z := Z.shiftl 1 0.
Definition MPU_RASR_SIZE_POS : Z := 1.
Definition MPU_RASR_AP_POS : Z := 24.
Definition MPU_RASR_XN_POS : Z := 28.
Definition MPU_RASR_TEX_POS : Z := 19.
Definition MPU_RASR_B_POS : Z := 22.
Definition MPU_RASR_C_POS : Z := 24.
Definition MPU_RASR_S_POS : Z := 18.
Definition MPU_RBAR_VALID : Z := Z.shiftl 1 4.
Definition NVIC_MAX_IRQ : Z := 240.
Definition NVIC_PRIORITY_MASK : Z := 0xF0.
Inductive processor_mode_t := PROCESSOR_MODE_HANDLER | PROCESSOR_MODE_THREAD.
(** Enumerators are their values: priority groupings, region sizes, access permissions. *)
Definition priority_grouping_t : Set := Z.
Definition mpu_region_size_t : Set := Z.
Definition mpu_access_permission_t : Set := Z.
Definition MPU_ACCESS_PRIVILEGED_RO : mpu_access_permission_t := 0x2.
Definition MPU_ACCESS_FULL : mpu_access_permission_t := 0x3.

Section core.
Context {D : Type} `{Bus D}.

(** ** Interrupt controller *)

Definition nvic_iser (irq_num : Z) : Z := NVIC_ISER_BASE + irq_num / 32 * 4.
Definition nvic_icer (irq_num : Z) : Z := NVIC_ICER_BASE + irq_num / 32 * 4.
Definition nvic_ispr (irq_num : Z) : Z := NVIC_ISPR_BASE + irq_num / 32 * 4.
Definition nvic_icpr (irq_num : Z) : Z := NVIC_ICPR_BASE + irq_num / 32 * 4.
Definition nvic_iabr (irq_num : Z) : Z := NVIC_IABR_BASE + irq_num / 32 * 4.
Definition nvic_ipr (irq_num : Z) : Z := NVIC_IPR_BASE + irq_num.
Definition irq_bit (irq_num : Z) : Z := Z.shiftl 1 (Z.land irq_num 0x1F).

Definition cortex_m4_nvic_enable_irq (irq_num : Z) : M D unit :=
  if NVIC_MAX_IRQ <=? irq_num then mret tt else store (nvic_iser irq_num) (irq_bit irq_num);; asm dsb;; asm isb.
Definition cortex_m4_nvic_disable_irq (irq_num : Z) : M D unit :=
  if NVIC_MAX_IRQ <=? irq_num then mret tt else store (nvic_icer irq_num) (irq_bit irq_num);; asm dsb;; asm isb.
Definition cortex_m4_nvic_set_pending (irq_num : Z) : M D unit :=
  if NVIC_MAX_IRQ <=? irq_num then mret tt else store (nvic_ispr irq_num) (irq_bit irq_num).
Definition cortex_m4_nvic_clear_pending (irq_num : Z) : M D unit :=
  if NVIC_MAX_IRQ <=? irq_num then mret tt else store (nvic_icpr irq_num) (irq_bit irq_num).
Definition cortex_m4_nvic_is_pending (irq_num : Z) : M D bool :=
  if NVIC_MAX_IRQ <=? irq_num then mret false else v ← load (nvic_ispr irq_num); mret (negb (Z.land v (irq_bit irq_num) =? 0)).
Definition cortex_m4_nvic_is_active (irq_num : Z) : M D bool :=
  if NVIC_MAX_IRQ <=? irq_num then mret false else v ← load (nvic_iabr irq_num); mret (negb (Z.land v (irq_bit irq_num) =? 0)).
Definition cortex_m4_nvic_set_priority (irq_num priority : Z) : M D unit :=
  if NVIC_MAX_IRQ <=? irq_num then mret tt else store8 (nvic_ipr irq_num) (Z.land (Z.shiftl priority 4) NVIC_PRIORITY_MASK).
Definition cortex_m4_nvic_get_priority (irq_num : Z) : M D Z :=
  if NVIC_MAX_IRQ <=? irq_num then mret 0 else v ← load8 (nvic_ipr irq_num); mret (Z.land (Z.shiftr v 4) 0x0F).
Definition cortex_m4_nvic_trigger_sw_interrupt (irq_num : Z) : M D unit := store NVIC_STIR irq_num.

(** ** System timer *)

Definition cortex_m4_systick_init (reload_value : Z) : M D unit := store SYSTICK_CVR 0;; store SYSTICK_RVR (Z.land reload_value 0x00FFFFFF).
Definition cortex_m4_systick_enable : M D unit := set_bits SYSTICK_CSR SYSTICK_CSR_ENABLE.
Definition cortex_m4_systick_disable : M D unit := clear_bits SYSTICK_CSR SYSTICK_CSR_ENABLE.
Definition cortex_m4_systick_enable_interrupt : M D unit := set_bits SYSTICK_CSR SYSTICK_CSR_TICKINT.
Definition cortex_m4_systick_disable_interrupt : M D unit := clear_bits SYSTICK_CSR SYSTICK_CSR_TICKINT.
Definition cortex_m4_systick_has_expired : M D bool := v ← load SYSTICK_CSR; mret (negb (Z.land v SYSTICK_CSR_COUNTFLAG =? 0)).
Definition cortex_m4_systick_get_current : M D Z := v ← load SYSTICK_CVR; mret (Z.land v 0x00FFFFFF).
Definition cortex_m4_systick_get_calibration : M D Z := load SYSTICK_CALIB.

(** ** Control block *)

Definition cortex_m4_scb_set_priority_grouping (grouping : priority_grouping_t) : M D unit :=
  v ← load SCB_AIRCR;
  let reg_value := Z.land v (u32 (Z.lnot (Z.lor AIRCR_VECTKEY_MASK AIRCR_PRIGROUP_MASK))) in
  let reg_value := Z.lor reg_value AIRCR_VECTKEY_VALUE in
  let reg_value := Z.lor reg_value (Z.land (u32 (Z.shiftl grouping AIRCR_PRIGROUP_POS)) AIRCR_PRIGROUP_MASK) in
  store SCB_AIRCR reg_value;; asm dsb;; asm isb.
Definition cortex_m4_scb_get_priority_grouping : M D priority_grouping_t :=
  air ← load SCB_AIRCR; mret (Z.shiftr (Z.land air AIRCR_PRIGROUP_MASK) AIRCR_PRIGROUP_POS).
(** The loop that follows never ends. *)
Definition cortex_m4_scb_system_reset : M D unit := asm dsb;; store SCB_AIRCR (Z.lor AIRCR_VECTKEY_VALUE AIRCR_SYSRESETREQ);; asm dsb;; nofuel.
Definition cortex_m4_scb_set_vector_table_offset (offset : Z) : M D unit := store SCB_VTOR (Z.land offset 0xFFFFFF00);; asm dsb.
Definition cortex_m4_scb_get_vector_table_offset : M D Z := v ← load SCB_VTOR; mret (Z.land v 0xFFFFFF00).
Definition cortex_m4_scb_get_cpu_id : M D Z := load SCB_CPUID.
Definition cortex_m4_scb_enable_fault_handlers : M D unit := set_bits SCB_SHCSR (Z.lor (Z.lor SHCSR_MEMFAULTENA SHCSR_BUSFAULTENA) SHCSR_USGFAULTENA).
Definition change_bits (enable : bool) (a m : Z) : M D unit := if enable then set_bits a m else clear_bits a m.
Definition cortex_m4_scb_set_sleep_on_exit (enable : bool) : M D unit := change_bits enable SCB_SCR SCR_SLEEPONEXIT.
Definition cortex_m4_scb_set_deep_sleep (enable : bool) : M D unit := change_bits enable SCB_SCR SCR_SLEEPDEEP.
Definition cortex_m4_scb_set_sev_on_pend (enable : bool) : M D unit := change_bits enable SCB_SCR SCR_SEVEONPEND.
Definition cortex_m4_scb_set_div_by_zero_trap (enable : bool) : M D unit := change_bits enable SCB_CCR CCR_DIV_0_TRAP.
Definition cortex_m4_scb_set_unaligned_access_trap (enable : bool) : M D unit := change_bits enable SCB_CCR CCR_UNALIGN_TRAP.

(** ** Protection unit *)

Definition cortex_m4_mpu_enable : M D unit := asm dsb;; asm isb;; set_bits MPU_CTRL MPU_CTRL_ENABLE;; asm dsb;; asm isb.
Definition cortex_m4_mpu_disable : M D unit := asm dsb;; asm isb;; clear_bits MPU_CTRL MPU_CTRL_ENABLE;; asm dsb;; asm isb.
Definition cortex_m4_mpu_enable_hard_fault_nmi (enable : bool) : M D unit := change_bits enable MPU_CTRL MPU_CTRL_HFNMIENA.
Definition cortex_m4_mpu_enable_default_map (enable : bool) : M D unit := change_bits enable MPU_CTRL MPU_CTRL_PRIVDEFENA.
Definition rasr_value (size : mpu_region_size_t) (access : mpu_access_permission_t) (tex : Z) (cacheable bufferable shareable execute_never : bool) : Z :=
  let rasr := Z.lor (Z.lor (Z.lor MPU_RASR_ENABLE (u32 (Z.shiftl size MPU_RASR_SIZE_POS))) (u32 (Z.shiftl access MPU_RASR_AP_POS))) (u32 (Z.shiftl tex MPU_RASR_TEX_POS)) in
  let rasr := if cacheable then Z.lor rasr (Z.shiftl 1 MPU_RASR_C_POS) else rasr in
  let rasr := if bufferable then Z.lor rasr (Z.shiftl 1 MPU_RASR_B_POS) else rasr in
  let rasr := if shareable then Z.lor rasr (Z.shiftl 1 MPU_RASR_S_POS) else rasr in
  if execute_never then Z.lor rasr (Z.shiftl 1 MPU_RASR_XN_POS) else rasr.
Definition cortex_m4_mpu_configure_region (region base_addr : Z) (size : mpu_region_size_t) (access : mpu_access_permission_t) (tex : Z)
    (cacheable bufferable shareable execute_never : bool) : M D unit :=
  store MPU_RNR region;;
  store MPU_RBAR (Z.lor (Z.lor base_addr MPU_RBAR_VALID) (Z.land region 0xF));;
  store MPU_RASR (rasr_value size access tex cacheable bufferable shareable execute_never).
Definition cortex_m4_mpu_enable_region (region : Z) : M D unit := store MPU_RNR region;; set_bits MPU_RASR MPU_RASR_ENABLE.
Definition cortex_m4_mpu_disable_region (region : Z) : M D unit := store MPU_RNR region;; clear_bits MPU_RASR MPU_RASR_ENABLE.

(** ** Processor *)

Definition cortex_m4_get_processor_mode : M D processor_mode_t := ipsr ← gets bus_ipsr; mret (if ipsr =? 0 then PROCESSOR_MODE_THREAD else PROCESSOR_MODE_HANDLER).
Definition cortex_m4_wait_for_interrupt : M D unit := asm wfi.
Definition cortex_m4_wait_for_event : M D unit := asm wfe.
Definition cortex_m4_disable_interrupts : M D unit := asm cpsid_i;; asm dsb;; asm isb.
Definition cortex_m4_enable_interrupts : M D unit := asm cpsie_i;; asm dsb;; asm isb.
End core.

(** ** The interrupt controller behind its registers

    One line per interrupt.  Stores into the set and clear registers change the lines whose bits are set; four bits of a priority are implemented.  This describes
    the controller while no interrupt is taken. *)
Record irq_line := Line { l_enabled : bool; l_pending : bool; l_active : bool; l_priority : Z }.
Definition with_enabled b x := Line b (l_pending x) (l_active x) (l_priority x).
Definition with_pending b x := Line (l_enabled x) b (l_active x) (l_priority x).
Definition with_priority p x := Line (l_enabled x) (l_pending x) (l_active x) p.
(** Bit [n mod 32] of word [k]. *)
Definition selects (k v n : Z) : bool := (n / 32 =? k) && Z.testbit v (n mod 32).

Class Nvic (D : Type) `{Bus D} (line : Z -> D -> irq_line) : Prop := {
  nvic_set_enable k v d n : 0 <= k < 8 -> 0 <= n < 240 -> is_u32 v ->
    line n (bus_write (NVIC_ISER_BASE + k * 4) v d) = if selects k v n then with_enabled true (line n d) else line n d;
  nvic_clear_enable k v d n : 0 <= k < 8 -> 0 <= n < 240 -> is_u32 v ->
    line n (bus_write (NVIC_ICER_BASE + k * 4) v d) = if selects k v n then with_enabled false (line n d) else line n d;
  nvic_set_pend k v d n : 0 <= k < 8 -> 0 <= n < 240 -> is_u32 v ->
    line n (bus_write (NVIC_ISPR_BASE + k * 4) v d) = if selects k v n then with_pending true (line n d) else line n d;
  nvic_clear_pend k v d n : 0 <= k < 8 -> 0 <= n < 240 -> is_u32 v ->
    line n (bus_write (NVIC_ICPR_BASE + k * 4) v d) = if selects k v n then with_pending false (line n d) else line n d;
  nvic_software v d n : 0 <= v < 240 -> 0 <= n < 240 -> line n (bus_write NVIC_STIR v d) = if n =? v then with_pending true (line n d) else line n d;
  nvic_priority i v d n : 0 <= i < 240 -> 0 <= n < 240 -> is_u8 v ->
    line n (bus_write8 (NVIC_IPR_BASE + i) v d) = if n =? i then with_priority (Z.land v 0xF0) (line n d) else line n d;
  nvic_read_pend k d : 0 <= k < 8 -> exists v, bus_read (NVIC_ISPR_BASE + k * 4) d = (v, d) /\ forall i, 0 <= i < 32 -> k * 32 + i < 240 -> Z.testbit v i = l_pending (line (k * 32 + i) d);
  nvic_read_active k d : 0 <= k < 8 -> exists v, bus_read (NVIC_IABR_BASE + k * 4) d = (v, d) /\ forall i, 0 <= i < 32 -> k * 32 + i < 240 -> Z.testbit v i = l_active (line (k * 32 + i) d);
  nvic_read_priority n d : 0 <= n < 240 -> bus_read8 (NVIC_IPR_BASE + n) d = (l_priority (line n d), d);
  nvic_barrier i d n : i = dsb \/ i = isb -> line n (bus_asm i d) = line n d }.

Section nvic.
Context {D : Type} `{Hbus : Bus D} (line : Z -> D -> irq_line) `{!Nvic D line}.

Lemma irq_bit_mod n : 0 <= n -> irq_bit n = Z.shiftl 1 (n mod 32).
Proof. intros Hn. unfold irq_bit. f_equal. change 31 with (Z.ones 5). by rewrite Z.land_ones by lia. Qed.
Lemma irq_bit_u32 n : 0 <= n -> is_u32 (irq_bit n).
Proof.
  intros Hn. rewrite irq_bit_mod by done. pose proof (Z.mod_pos_bound n 32 ltac:(lia)). apply u32_bits. intros i Hi. rewrite testbit_bit by lia. apply bool_decide_false. lia.
Qed.
Lemma selects_bit i n : 0 <= i -> 0 <= n -> selects (i / 32) (irq_bit i) n = (n =? i).
Proof.
  intros Hi Hn. unfold selects. rewrite irq_bit_mod by done. pose proof (Z.mod_pos_bound n 32 ltac:(lia)). pose proof (Z.mod_pos_bound i 32 ltac:(lia)). rewrite testbit_bit by lia.
  pose proof (Z.div_mod n 32 ltac:(lia)). pose proof (Z.div_mod i 32 ltac:(lia)).
  destruct (Z.eqb_spec n i) as [->|Hne]; [by rewrite Z.eqb_refl, bool_decide_true|]. destruct (Z.eqb_spec (n / 32) (i / 32)) as [E|]; [|done]. rewrite bool_decide_false; [done|]. intros E2. lia.
Qed.

Inductive nvic_call := NEnable (n : Z) | NDisable (n : Z) | NPend (n : Z) | NUnpend (n : Z) | NPriority (n p : Z) | NTrigger (n : Z).
Definition run_call (k : nvic_call) : M D unit :=
  match k with
  | NEnable n => cortex_m4_nvic_enable_irq n | NDisable n => cortex_m4_nvic_disable_irq n | NPend n => cortex_m4_nvic_set_pending n | NUnpend n => cortex_m4_nvic_clear_pending n
  | NPriority n p => cortex_m4_nvic_set_priority n p | NTrigger n => cortex_m4_nvic_trigger_sw_interrupt n
  end.
Fixpoint run_calls (ks : list nvic_call) : M D unit := match ks with [] => mret tt | k :: ks => run_call k;; run_calls ks end.
(** What a call is to do to line [n]. *)
Definition spec_call (k : nvic_call) (n : Z) (x : irq_line) : irq_line :=
  match k with
  | NEnable i => if n =? i then with_enabled true x else x
  | NDisable i => if n =? i then with_enabled false x else x
  | NPend i | NTrigger i => if n =? i then with_pending true x else x
  | NUnpend i => if n =? i then with_pending false x else x
  | NPriority i p => if n =? i then with_priority (p mod 16 * 16) x else x
  end.
Definition call_ok (k : nvic_call) : Prop :=
  match k with NEnable i | NDisable i | NPend i | NUnpend i => is_u8 i | NPriority i p => is_u8 i /\ is_u8 p | NTrigger i => 0 <= i < 240 end.

Lemma priority_bits p : is_u8 p -> Z.land (Z.shiftl p 4) 240 = p mod 16 * 16.
Proof.
  intros Hp. assert (forallb (fun p => Z.land (Z.shiftl p 4) 240 =? p mod 16 * 16) (seqZ 0 256) = true) as H by (vm_compute; reflexivity). apply Z.eqb_eq. apply (forallb_seqZ _ _ _ H p). unfold is_u8 in Hp. lia.
Qed.
Lemma nvic_call_refines k d : call_ok k -> exists d', run_call k d = Done (tt, d') /\ forall n, 0 <= n < 240 -> line n d' = spec_call k n (line n d).
Proof.
  intros Hk. assert (forall i, is_u8 i -> NVIC_MAX_IRQ <= i -> forall (f : Z -> irq_line -> irq_line) n, 0 <= n < 240 -> line n d = if n =? i then f i (line n d) else line n d) as Hno.
  { intros i _ Hi f n Hn. unfold NVIC_MAX_IRQ in Hi. by destruct (Z.eqb_spec n i); [lia|]. }
  assert (forall i, is_u8 i -> u32 (irq_bit i) = irq_bit i /\ is_u32 (irq_bit i) /\ 0 <= i) as Hbit.
  { intros i Hi. unfold is_u8 in Hi. pose proof (irq_bit_u32 i ltac:(lia)) as Hu. split; [by apply u32_small|]. split; [done|lia]. }
  assert (forall i, 0 <= i < 240 -> 0 <= i / 32 < 8) as Hdiv by (intros i Hi; Z.div_mod_to_equations; lia).
  destruct k; cbn [call_ok] in Hk; cbn [run_call spec_call]; unfold cortex_m4_nvic_enable_irq, cortex_m4_nvic_disable_irq, cortex_m4_nvic_set_pending, cortex_m4_nvic_clear_pending, cortex_m4_nvic_set_priority, cortex_m4_nvic_trigger_sw_interrupt;
    try (destruct (Z.leb_spec NVIC_MAX_IRQ n); [exists d; split; [done|]; intros m Hm; unfold NVIC_MAX_IRQ in *; unfold is_u8 in Hk; by destruct (Z.eqb_spec m n); [lia|]|]).
  all: unfold NVIC_MAX_IRQ in *.
  - destruct (Hbit n Hk) as (E & U & Hn). eexists. split; [reflexivity|]. intros m Hm. rewrite !nvic_barrier by auto. rewrite E. unfold nvic_iser.
    rewrite nvic_set_enable by (try apply Hdiv; done || lia). by rewrite selects_bit by lia.
  - destruct (Hbit n Hk) as (E & U & Hn). eexists. split; [reflexivity|]. intros m Hm. rewrite !nvic_barrier by auto. rewrite E. unfold nvic_icer.
    rewrite nvic_clear_enable by (try apply Hdiv; done || lia). by rewrite selects_bit by lia.
  - destruct (Hbit n Hk) as (E & U & Hn). eexists. split; [reflexivity|]. intros m Hm. rewrite E. unfold nvic_ispr.
    rewrite nvic_set_pend by (try apply Hdiv; done || lia). by rewrite selects_bit by lia.
  - destruct (Hbit n Hk) as (E & U & Hn). eexists. split; [reflexivity|]. intros m Hm. rewrite E. unfold nvic_icpr.
    rewrite nvic_clear_pend by (try apply Hdiv; done || lia). by rewrite selects_bit by lia.
  - destruct Hk as [Hn Hp]. unfold is_u8 in Hn. eexists. split; [reflexivity|]. intros m Hm. unfold nvic_ipr. rewrite nvic_priority by (try apply u8_range; lia). destruct (m =? n); [|done]. f_equal.
    rewrite priority_bits by done. pose proof (Z.mod_pos_bound p 16 ltac:(lia)). rewrite u8_small by lia. rewrite <- (Z.shiftl_mul_pow2 _ 4) by lia.
    rewrite priority_bits by (unfold is_u8; lia). by rewrite Z.mod_small, Z.shiftl_mul_pow2 by lia.
  - eexists. split; [reflexivity|]. intros m Hm. rewrite u32_small by lia. by rewrite nvic_software by lia.
Qed.

Lemma line_read_run n d : 0 <= n < 240 ->
  (exists d', cortex_m4_nvic_is_pending n d = Done (l_pending (line n d), d') /\ d' = d) /\ cortex_m4_nvic_is_active n d = Done (l_active (line n d), d) /\
  cortex_m4_nvic_get_priority n d = Done (Z.land (Z.shiftr (l_priority (line n d)) 4) 0x0F, d).
Proof.
  intros Hn. assert (0 <= n / 32 < 8) as Hk by (Z.div_mod_to_equations; lia). pose proof (Z.mod_pos_bound n 32 ltac:(lia)) as Hm. pose proof (Z.div_mod n 32 ltac:(lia)) as Hdm.
  unfold cortex_m4_nvic_is_pending, cortex_m4_nvic_is_active, cortex_m4_nvic_get_priority, NVIC_MAX_IRQ. destruct (Z.leb_spec 240 n); [lia|].
  split; [|split].
  - exists d. split; [|done]. destruct (nvic_read_pend (n / 32) d Hk) as (v & E & Hv). unfold load, nvic_ispr. unfold mbind, M_bind. rewrite E. rewrite irq_bit_mod, land_bit_0 by lia.
    rewrite Hv by lia. rewrite negb_involutive. by replace (n / 32 * 32 + n mod 32) with n by lia.
  - destruct (nvic_read_active (n / 32) d Hk) as (v & E & Hv). unfold load, nvic_iabr. unfold mbind, M_bind. rewrite E. rewrite irq_bit_mod, land_bit_0 by lia.
    rewrite Hv by lia. rewrite negb_involutive. by replace (n / 32 * 32 + n mod 32) with n by lia.
  - unfold load8, nvic_ipr, mbind, M_bind. by rewrite nvic_read_priority.
Qed.

(** C25: the calls on the interrupt controller act on the line they name and on no other: after any sequence of them a line is what the sequence makes of it, and
    what is read back of it is its state.  Enabling, disabling and pending do what they are named for.  Of a priority only the low four bits are kept: what is read back is the priority modulo sixteen, so that the levels of
    the library's own header, 0x00 to 0xF0 in the high four bits, and the 0x80 of its test, all set and read priority 0. *)
Theorem nvic_refines ks d :
  Forall call_ok ks ->
  exists d', run_calls ks d = Done (tt, d') /\ forall n, 0 <= n < 240 ->
    let x := foldl (fun x k => spec_call k n x) (line n d) ks in
    line n d' = x /\ cortex_m4_nvic_is_pending n d' = Done (l_pending x, d') /\ cortex_m4_nvic_is_active n d' = Done (l_active x, d') /\
    (forall p, is_u8 p -> last ks = Some (NPriority n p) -> cortex_m4_nvic_get_priority n d' = Done (p mod 16, d')).
Proof.
  intros Hk. assert (exists d', run_calls ks d = Done (tt, d') /\ forall n, 0 <= n < 240 -> line n d' = foldl (fun x k => spec_call k n x) (line n d) ks) as (d' & E & H).
  { clear -Hk Nvic0. revert d. induction Hk as [|k ks Hk Hks IH]; intros d; cbn [run_calls foldl]; [by exists d|]. destruct (nvic_call_refines k d Hk) as (d1 & E1 & H1). destruct (IH d1) as (d' & E2 & H2).
    exists d'. split; [by erewrite bind_step by exact E1|]. intros n Hn. by rewrite H2, H1. }
  exists d'. split; [done|]. intros n Hn. cbv zeta. rewrite <- (H n Hn). split; [done|]. destruct (line_read_run n d' Hn) as [(d2 & E1 & ->) [E2 E3]]. split; [done|]. split; [done|].
  intros p Hp Hlast. rewrite E3, (H n Hn). apply last_Some in Hlast as [ks' ->]. rewrite foldl_snoc. cbn [spec_call]. rewrite Z.eqb_refl. cbn [l_priority with_priority]. do 2 f_equal.
  assert (forallb (fun p => Z.land (Z.shiftr (p mod 16 * 16) 4) 15 =? p mod 16) (seqZ 0 256) = true) as Hc by (vm_compute; reflexivity). apply Z.eqb_eq, (forallb_seqZ _ _ _ Hc p). unfold is_u8 in Hp. lia.
Qed.
End nvic.

(** An interrupt controller with its lines. *)
Definition word_bits (f : Z -> bool) : Z := foldr (fun i x => if f i then Z.lor (Z.shiftl 1 i) x else x) 0 (seqZ 0 32).
Lemma testbit_word_bits f i : 0 <= i < 32 -> Z.testbit (word_bits f) i = f i.
Proof.
  intros Hi. unfold word_bits. assert (forall l, Forall (fun j => 0 <= j) l -> Z.testbit (foldr (fun i x => if f i then Z.lor (Z.shiftl 1 i) x else x) 0 l) i = existsb (fun j => (j =? i) && f j) l) as H.
  { induction 1 as [|j l Hj Hl IH]; cbn [foldr existsb]; [apply Z.bits_0|]. destruct (f j) eqn:E; [rewrite Z.lor_spec, testbit_bit, IH by lia|].
    - rewrite andb_true_r. by destruct (Z.eqb_spec j i) as [->|]; [rewrite bool_decide_true|rewrite bool_decide_false by congruence].
    - rewrite IH. by rewrite andb_false_r. }
  rewrite H; [|apply Forall_forall; intros j Hj; apply elem_of_seqZ in Hj; lia]. apply eq_true_iff_eq. rewrite existsb_exists. split.
  - intros (j & _ & Hj). apply andb_true_iff in Hj as [->%Z.eqb_eq Hf]. done.
  - intros Hf. exists i. split; [apply list_elem_of_In, elem_of_seqZ; lia|]. by rewrite Z.eqb_refl.
Qed.
Definition lines : Type := Z -> irq_line.
Definition in_bank (base a : Z) : bool := (base <=? a) && (a <? base + 32).
#[export] Instance lines_bus : Bus lines := {|
  bus_read a d :=
    (if in_bank NVIC_ISPR_BASE a then word_bits (fun i => l_pending (d ((a - NVIC_ISPR_BASE) / 4 * 32 + i)))
     else if in_bank NVIC_IABR_BASE a then word_bits (fun i => l_active (d ((a - NVIC_IABR_BASE) / 4 * 32 + i))) else 0, d);
  bus_write a v d := fun n =>
    if in_bank NVIC_ISER_BASE a then if selects ((a - NVIC_ISER_BASE) / 4) v n then with_enabled true (d n) else d n
    else if in_bank NVIC_ICER_BASE a then if selects ((a - NVIC_ICER_BASE) / 4) v n then with_enabled false (d n) else d n
    else if in_bank NVIC_ISPR_BASE a then if selects ((a - NVIC_ISPR_BASE) / 4) v n then with_pending true (d n) else d n
    else if in_bank NVIC_ICPR_BASE a then if selects ((a - NVIC_ICPR_BASE) / 4) v n then with_pending false (d n) else d n
    else if (a =? NVIC_STIR) && (n =? v) then with_pending true (d n) else d n;
  bus_read8 a d := (l_priority (d (a - NVIC_IPR_BASE)), d);
  bus_write8 a v d := fun n => if n =? a - NVIC_IPR_BASE then with_priority (Z.land v 0xF0) (d n) else d n;
  bus_asm _ d := d;
  bus_ipsr _ := 0 |}.
Ltac bank_tests :=
  repeat match goal with
  | |- context [in_bank ?b ?a] =>
      first [replace (in_bank b a) with true by (symmetry; unfold in_bank; apply andb_true_iff; split; [apply Z.leb_le|apply Z.ltb_lt]; unfold NVIC_ISER_BASE, NVIC_ICER_BASE, NVIC_ISPR_BASE, NVIC_ICPR_BASE, NVIC_IABR_BASE, NVIC_BASE, NVIC_STIR in *; lia)
            |replace (in_bank b a) with false by (symmetry; unfold in_bank; apply andb_false_iff; unfold NVIC_ISER_BASE, NVIC_ICER_BASE, NVIC_ISPR_BASE, NVIC_ICPR_BASE, NVIC_IABR_BASE, NVIC_BASE, NVIC_STIR in *; rewrite Z.leb_gt, Z.ltb_ge; lia)]
  end.
#[export] Instance lines_nvic : Nvic lines (fun n d => d n).
Proof.
  assert (forall b k, b + k * 4 - b = k * 4) as Hs by (intros; lia).
  split; intros; cbn [bus_write bus_read bus_write8 bus_read8 bus_asm lines_bus]; try done.
  - unfold in_bank. replace (_ && _) with true by (symmetry; apply andb_true_iff; rewrite Z.leb_le, Z.ltb_lt; lia). by rewrite Hs, Z.div_mul.
  - bank_tests. by rewrite Hs, Z.div_mul.
  - bank_tests. by rewrite Hs, Z.div_mul.
  - bank_tests. by rewrite Hs, Z.div_mul.
  - replace (NVIC_IPR_BASE + i - NVIC_IPR_BASE) with i by lia. done.
  - bank_tests. eexists. split; [reflexivity|]. intros i Hi Hn. rewrite testbit_word_bits by done. by rewrite Hs, Z.div_mul.
  - bank_tests. eexists. split; [reflexivity|]. intros i Hi Hn. rewrite testbit_word_bits by done. by rewrite Hs, Z.div_mul.
  - do 2 f_equal. f_equal. lia.
Qed.

(** ** Bits of control registers *)

Lemma testbit_or_bit x k i : is_u32 x -> 0 <= k < 32 -> 0 <= i < 32 -> Z.testbit (u32 (Z.lor x (Z.shiftl 1 k))) i = if decide (i = k) then true else Z.testbit x i.
Proof.
  intros Hx Hk Hi. rewrite testbit_u32 by lia. destruct (Z.ltb_spec i 32); [|lia]. cbn [andb]. rewrite Z.lor_spec, testbit_bit by lia.
  destruct (decide (i = k)); [by rewrite bool_decide_true, orb_true_r|by rewrite bool_decide_false, orb_false_r].
Qed.
Lemma testbit_clear_bit x k i : is_u32 x -> 0 <= k < 32 -> 0 <= i < 32 -> Z.testbit (u32 (Z.land x (u32 (Z.lnot (Z.shiftl 1 k))))) i = if decide (i = k) then false else Z.testbit x i.
Proof.
  intros Hx Hk Hi. rewrite testbit_u32 by lia. destruct (Z.ltb_spec i 32); [|lia]. cbn [andb]. rewrite Z.land_spec, testbit_u32, Z.lnot_spec, testbit_bit by lia.
  destruct (Z.ltb_spec i 32); [|lia]. cbn [andb]. destruct (decide (i = k)); [by rewrite bool_decide_true, andb_false_r|by rewrite bool_decide_false, andb_true_r].
Qed.

Section control.
Context {D : Type} `{Hbus : Bus D} (cell : Z -> D -> Z) (plain : Z -> Prop) `{!Plain D cell plain}.
(** A computation that puts [b] into bit [k] of the register at [a] and changes nothing else. *)
Definition puts_bit (m : M D unit) (a k : Z) (b : bool) : Prop :=
  forall d, exists d', m d = Done (tt, d') /\ (forall i, 0 <= i < 32 -> Z.testbit (cell a d') i = if decide (i = k) then b else Z.testbit (cell a d) i) /\ (forall c, plain c -> c <> a -> cell c d' = cell c d).
Lemma change_puts_bit a k b : plain a -> 0 <= k < 32 -> puts_bit (change_bits b a (Z.shiftl 1 k)) a k b.
Proof.
  intros Ha Hk d. pose proof (plain_u32 a d) as Hu. destruct b; cbn [change_bits].
  - rewrite (set_bits_run cell plain) by done. eexists. split; [reflexivity|]. split; [intros i Hi; rewrite (cell_store cell plain) by done; by apply testbit_or_bit|].
    intros c Hc Hne. rewrite (cell_stored cell plain) by done. by rewrite decide_False by congruence.
  - rewrite (clear_bits_run cell plain) by done. eexists. split; [reflexivity|]. split; [intros i Hi; rewrite (cell_store cell plain) by done; by apply testbit_clear_bit|].
    intros c Hc Hne. rewrite (cell_stored cell plain) by done. by rewrite decide_False by congruence.
Qed.
Lemma puts_bit_barriers m a k b : plain a -> puts_bit m a k b -> puts_bit (asm dsb;; asm isb;; m;; asm dsb;; asm isb) a k b.
Proof.
  intros Ha Hm d. destruct (Hm (bus_asm isb (bus_asm dsb d))) as (d' & E & Hb & Hf). exists (bus_asm isb (bus_asm dsb d')). split.
  - erewrite bind_step by reflexivity. erewrite bind_step by reflexivity. by erewrite bind_step by exact E.
  - split; [intros i Hi|intros c Hc Hne]; rewrite !plain_asm by done; [rewrite Hb by done|rewrite Hf by done]; by rewrite !plain_asm by done.
Qed.

(** The calls that switch a bit, with register and bit. *)
Definition switches : list ((bool -> M D unit) * Z * Z) := [
  (fun b : bool => if b then cortex_m4_systick_enable else cortex_m4_systick_disable, SYSTICK_CSR, 0);
  (fun b : bool => if b then cortex_m4_systick_enable_interrupt else cortex_m4_systick_disable_interrupt, SYSTICK_CSR, 1);
  (cortex_m4_scb_set_sleep_on_exit, SCB_SCR, 1); (cortex_m4_scb_set_deep_sleep, SCB_SCR, 2); (cortex_m4_scb_set_sev_on_pend, SCB_SCR, 4);
  (cortex_m4_scb_set_div_by_zero_trap, SCB_CCR, 4); (cortex_m4_scb_set_unaligned_access_trap, SCB_CCR, 3);
  (fun b : bool => if b then cortex_m4_mpu_enable else cortex_m4_mpu_disable, MPU_CTRL, 0);
  (cortex_m4_mpu_enable_hard_fault_nmi, MPU_CTRL, 1); (cortex_m4_mpu_enable_default_map, MPU_CTRL, 2)].
(** Each of the ten calls that switch something on or off changes its bit and no other one of its register, and no other register. *)
Theorem switches_correct b : plain SYSTICK_CSR -> plain SCB_SCR -> plain SCB_CCR -> plain MPU_CTRL -> Forall (fun '(m, a, k) => puts_bit (m b) a k b) switches.
Proof.
  intros H1 H2 H3 H4. assert (forall a k, plain a -> 0 <= k < 32 -> puts_bit (set_bits a (Z.shiftl 1 k)) a k true /\ puts_bit (clear_bits a (Z.shiftl 1 k)) a k false) as Hsc.
  { intros a k Ha Hk. split; [apply (change_puts_bit a k true Ha Hk)|apply (change_puts_bit a k false Ha Hk)]. }
  repeat constructor; try (apply change_puts_bit; [done|lia]).
  destruct b; apply puts_bit_barriers; try done; [apply (Hsc MPU_CTRL 0)|apply (Hsc MPU_CTRL 0)]; done || lia.
Qed.
End control.

(** ** Priority grouping

    A store into AIRCR counts when its upper half is the key; what the upper half reads as is another value. *)
Class Aircr (D : Type) `{Bus D} (prigroup : D -> Z) : Prop := {
  aircr_read d : exists v, bus_read SCB_AIRCR d = (v, d) /\ is_u32 v /\ field v 8 3 = prigroup d;
  aircr_write v d : is_u32 v -> prigroup (bus_write SCB_AIRCR v d) = if Z.shiftr v 16 =? 0x05FA then field v 8 3 else prigroup d;
  aircr_asm i d : prigroup (bus_asm i d) = prigroup d }.
Lemma aircr_value v g : is_u32 v -> 0 <= g < 8 ->
  let x := Z.lor (Z.lor (Z.land v (u32 (Z.lnot (Z.lor AIRCR_VECTKEY_MASK AIRCR_PRIGROUP_MASK)))) AIRCR_VECTKEY_VALUE) (Z.shiftl g 8) in is_u32 x /\ Z.shiftr x 16 = 0x05FA /\ field x 8 3 = g.
Proof.
  intros Hv Hg. cbv zeta. set (y := Z.land v _). assert (is_u32 y) as Hy by by apply land_u32. assert (is_u32 (Z.shiftl g 8)) as Hs by (rewrite Z.shiftl_mul_pow2 by lia; unfold is_u32; lia).
  assert (forall i, 0 <= i -> (8 <= i < 11 \/ 16 <= i) -> Z.testbit y i = false) as Hyb.
  { intros i Hi Hr. destruct (decide (i < 32)); [|apply (testbit_high 32); [done|lia]]. unfold y. rewrite Z.land_spec, testbit_u32, Z.lnot_spec by lia. destruct (Z.ltb_spec i 32); [|lia]. cbn [andb].
    assert (forallb (fun i => Z.testbit (Z.lor AIRCR_VECTKEY_MASK AIRCR_PRIGROUP_MASK) i || negb ((8 <=? i) && (i <? 11) || (16 <=? i))) (seqZ 0 32) = true) as Hc by (vm_compute; reflexivity).
    pose proof (forallb_seqZ _ _ _ Hc i ltac:(lia)) as Hb. cbv beta in Hb. apply orb_true_iff in Hb as [->|Hb]; [by rewrite andb_false_r|]. exfalso. apply negb_true_iff, orb_false_iff in Hb as [Hb1 Hb2%Z.leb_gt].
    apply andb_false_iff in Hb1 as [Hb1%Z.leb_gt|Hb1%Z.ltb_ge]; lia. }
  split; [by repeat apply lor_u32|]. split.
  - rewrite !Z.shiftr_lor. rewrite (Z.shiftr_shiftl_r g) by lia. replace (Z.shiftr y 16) with 0; [|symmetry; apply Z.bits_inj'; intros i Hi; rewrite Z.shiftr_spec, Z.bits_0 by lia; apply Hyb; lia].
    rewrite (Z.shiftr_div_pow2 g) by lia. change (2 ^ (16 - 8)) with 256. by rewrite Z.div_small by lia.
  - apply Z.bits_inj'. intros i Hi. rewrite testbit_field by lia. destruct (Z.ltb_spec i 3); cbn [andb]; [|symmetry; apply (testbit_high 3); lia].
    rewrite !Z.lor_spec, Hyb, Z.shiftl_spec by lia. replace (8 + i - 8) with i by lia.
    assert (Z.testbit AIRCR_VECTKEY_VALUE (8 + i) = false) as ->; [|done]. assert (i = 0 \/ i = 1 \/ i = 2) as [->|[->| ->]] by lia; reflexivity.
Qed.
Lemma grouping_bits g : 0 <= g < 8 -> Z.land (u32 (Z.shiftl g AIRCR_PRIGROUP_POS)) AIRCR_PRIGROUP_MASK = Z.shiftl g 8.
Proof.
  intros Hg. assert (forallb (fun g => Z.land (u32 (Z.shiftl g AIRCR_PRIGROUP_POS)) AIRCR_PRIGROUP_MASK =? Z.shiftl g 8) (seqZ 0 8) = true) as H by (vm_compute; reflexivity).
  by apply Z.eqb_eq, (forallb_seqZ _ _ _ H g).
Qed.

(** The priority grouping that is set is the one that is read, although the key reads back as another value. *)
Theorem priority_grouping_roundtrip {D} `{Bus D} (prigroup : D -> Z) `{!Aircr D prigroup} g d :
  0 <= g < 8 -> exists d', cortex_m4_scb_set_priority_grouping g d = Done (tt, d') /\ prigroup d' = g /\ cortex_m4_scb_get_priority_grouping d' = Done (g, d').
Proof.
  intros Hg. unfold cortex_m4_scb_set_priority_grouping. destruct (aircr_read d) as (v & E & Hv & _). unfold load at 1. unfold mbind at 1, M_bind at 1. rewrite E. cbv zeta. rewrite grouping_bits by done.
  destruct (aircr_value v g Hv Hg) as (Hx & Hk & Hf). set (x := Z.lor _ (Z.shiftl g 8)) in *. erewrite bind_step by reflexivity. erewrite bind_step by reflexivity. eexists. split; [reflexivity|].
  assert (forall d', prigroup d' = g -> cortex_m4_scb_get_priority_grouping d' = Done (g, d')) as Hget.
  { intros d' Hd. unfold cortex_m4_scb_get_priority_grouping. destruct (aircr_read d') as (w & E' & Hw & Hwf). unfold load, mbind, M_bind. rewrite E'. unfold mret, M_ret. do 2 f_equal. rewrite <- Hd, <- Hwf.
    apply Z.bits_inj'. intros i Hi. rewrite testbit_field, Z.shiftr_spec, Z.land_spec by lia. unfold AIRCR_PRIGROUP_POS. rewrite (Z.add_comm i). rewrite andb_comm. destruct (decide (i < 24)).
    - assert (forallb (fun i => Bool.eqb (Z.testbit AIRCR_PRIGROUP_MASK (8 + i)) (i <? 3)) (seqZ 0 24) = true) as Hc by (vm_compute; reflexivity).
      pose proof (forallb_seqZ _ _ _ Hc i ltac:(lia)) as Hb. cbv beta in Hb. apply eqb_prop in Hb. by rewrite Hb.
    - rewrite (testbit_high 32 w) by (done || lia). by rewrite !andb_false_r. }
  assert (prigroup (bus_asm isb (bus_asm dsb (bus_write SCB_AIRCR (u32 x) d))) = g) as Hp.
  { rewrite !aircr_asm. rewrite u32_small by apply Hx. rewrite aircr_write by done. by rewrite Hk, Hf. }
  split; [done|by apply Hget].
Qed.

(** ** Protection regions

    Base and attribute registers are those of the selected region; a base with the valid bit selects the region in its low bits.  The unit takes the access permission from
    bits 24 to 26 of the attributes, and whether a region is bufferable and cacheable from bits 16 and 17. *)
Class Mpu (D : Type) `{Bus D} (selected : D -> Z) (region_base region_attr : Z -> D -> Z) : Prop := {
  mpu_select v d : is_u32 v -> selected (bus_write MPU_RNR v d) = u8 v /\ (forall r, region_base r (bus_write MPU_RNR v d) = region_base r d /\ region_attr r (bus_write MPU_RNR v d) = region_attr r d);
  mpu_base v d : is_u32 v -> Z.testbit v 4 = true ->
    selected (bus_write MPU_RBAR v d) = v mod 16 /\
    forall r, region_base r (bus_write MPU_RBAR v d) = (if r =? v mod 16 then v / 32 * 32 else region_base r d) /\ region_attr r (bus_write MPU_RBAR v d) = region_attr r d;
  mpu_attr v d : is_u32 v ->
    selected (bus_write MPU_RASR v d) = selected d /\
    forall r, region_attr r (bus_write MPU_RASR v d) = (if r =? selected d then v else region_attr r d) /\ region_base r (bus_write MPU_RASR v d) = region_base r d;
  mpu_attr_read d : bus_read MPU_RASR d = (region_attr (selected d) d, d);
  mpu_attr_u32 r d : is_u32 (region_attr r d) }.

Definition rasr_fields_ok (size access tex : Z) (c b s x : bool) : bool :=
  let v := rasr_value size access tex c b s x in
  (v <? 4294967296) && (0 <=? v) && (field v 0 1 =? 1) && (field v 1 5 =? size) && (field v 24 3 =? (if c then Z.lor access 1 else access)) && (field v 19 3 =? tex) && (field v 18 1 =? b2z s) &&
  (field v 28 1 =? b2z x) && (field v 16 2 =? 0).
Lemma rasr_fields size access tex c b s x : 0 <= size < 32 -> 0 <= access < 8 -> 0 <= tex < 8 -> rasr_fields_ok size access tex c b s x = true.
Proof.
  intros Hs Ha Ht.
  assert (forallb (fun size => forallb (fun access => forallb (fun tex => forallb (fun c => forallb (fun b => forallb (fun s => forallb (fun x => rasr_fields_ok size access tex c b s x)
    [true; false]) [true; false]) [true; false]) [true; false]) (seqZ 0 8)) (seqZ 0 8)) (seqZ 0 32) = true) as H by (vm_compute; reflexivity).
  apply (fun H => forallb_seqZ _ _ _ H size Hs) in H. cbv beta in H. apply (fun H => forallb_seqZ _ _ _ H access Ha) in H. cbv beta in H. apply (fun H => forallb_seqZ _ _ _ H tex Ht) in H. cbv beta in H.
  destruct c, b, s, x; cbn [forallb] in H; rewrite !andb_true_iff in H; tauto.
Qed.

Lemma rbar_value base region : is_u32 base -> base mod 32 = 0 -> 0 <= region < 16 ->
  let v := Z.lor (Z.lor base MPU_RBAR_VALID) (Z.land region 0xF) in is_u32 v /\ Z.testbit v 4 = true /\ v mod 16 = region /\ v / 32 * 32 = base.
Proof.
  intros Hb Hm Hr. cbv zeta. assert (Z.land region 15 = region) as -> by (change 15 with (Z.ones 4); rewrite Z.land_ones by lia; by apply Z.mod_small).
  assert (Z.lor (Z.lor base MPU_RBAR_VALID) region = base + (16 + region)) as ->.
  { rewrite <- Z.lor_assoc. change MPU_RBAR_VALID with (Z.shiftl 1 4). rewrite (lor_shiftl_add 1 region 4) by lia.
    replace base with (Z.shiftl (base / 32) 5) at 1 by (rewrite Z.shiftl_mul_pow2 by lia; Z.div_mod_to_equations; lia). rewrite lor_shiftl_add by lia. Z.div_mod_to_equations. lia. }
  unfold is_u32 in *. split; [Z.div_mod_to_equations; lia|]. split; [|split; Z.div_mod_to_equations; lia].
  rewrite Z.testbit_true by lia. change (2 ^ 4) with 16. Z.div_mod_to_equations. lia.
Qed.

(** Configuring a region gives it its base, size, memory type, shareability and execution bit, and no other region changes.  But the caching bits go elsewhere: the region is never
    cacheable or bufferable, and asking for a cacheable region sets the lowest bit of its access permission, which makes a region that even privileged code may only read one that
    everybody may write. *)
Theorem mpu_region_correct {D} `{Bus D} (selected : D -> Z) (region_base region_attr : Z -> D -> Z) `{!Mpu D selected region_base region_attr} region base size access tex c b s x d :
  0 <= region < 8 -> is_u32 base -> base mod 32 = 0 -> 0 <= size < 32 -> 0 <= access < 8 -> 0 <= tex < 8 ->
  exists d', cortex_m4_mpu_configure_region region base size access tex c b s x d = Done (tt, d') /\ region_base region d' = base /\
    (let v := region_attr region d' in field v 0 1 = 1 /\ field v 1 5 = size /\ field v 19 3 = tex /\ field v 18 1 = b2z s /\ field v 28 1 = b2z x /\ field v 16 2 = 0 /\
       field v 24 3 = (if c then Z.lor access 1 else access)) /\
    (forall r, r <> region -> region_base r d' = region_base r d /\ region_attr r d' = region_attr r d) /\
    (access = MPU_ACCESS_PRIVILEGED_RO -> c = true -> field (region_attr region d') 24 3 = MPU_ACCESS_FULL) /\
    exists d2, cortex_m4_mpu_disable_region region d' = Done (tt, d2) /\ field (region_attr region d2) 0 1 = 0 /\ field (region_attr region d2) 1 31 = field (region_attr region d') 1 31.
Proof.
  intros Hr Hb Hbm Hs Ha Ht. destruct (rbar_value base region Hb Hbm ltac:(lia)) as (V1 & V2 & V3 & V4). pose proof (rasr_fields size access tex c b s x Hs Ha Ht) as Hf. unfold rasr_fields_ok in Hf. cbv zeta in Hf.
  set (v := rasr_value size access tex c b s x) in *. repeat (apply andb_true_iff in Hf as [Hf ?]). apply Z.ltb_lt in Hf. rewrite ?Z.eqb_eq, ?Z.leb_le in *. assert (is_u32 v) as Hv by (unfold is_u32; lia).
  unfold cortex_m4_mpu_configure_region. erewrite bind_step by reflexivity. erewrite bind_step by reflexivity. cbv zeta in V1, V2, V3, V4. set (w := Z.lor _ (Z.land region 15)) in *. fold v.
  rewrite (u32_small region), (u32_small w) by (apply V1 || lia). rewrite store_run. rewrite (u32_small v) by apply Hv. set (d1 := bus_write MPU_RNR region d). set (d2 := bus_write MPU_RBAR w d1). set (d3 := bus_write MPU_RASR v d2).
  destruct (mpu_select region d) as [S1 F1]; [unfold is_u32; lia|]. fold d1 in S1, F1. destruct (mpu_base w d1 V1 V2) as [S2 F2]. fold d2 in S2, F2. rewrite V3 in *. destruct (mpu_attr v d2 Hv) as [S3 F3]. fold d3 in S3, F3. rewrite S2 in *.
  exists d3. split; [done|]. destruct (F3 region) as [A3 B3]. rewrite Z.eqb_refl in A3. destruct (F2 region) as [B2 A2]. rewrite Z.eqb_refl, V4 in B2. split; [congruence|]. rewrite A3. cbv zeta.
  split; [done|]. split; [|split].
  - intros r Hne. destruct (F3 r) as [A3' B3'], (F2 r) as [B2' A2'], (F1 r) as [B1' A1']. destruct (Z.eqb_spec r region); [done|]. split; congruence.
  - intros -> ->. done.
  - unfold cortex_m4_mpu_disable_region. erewrite bind_step by reflexivity. rewrite (u32_small region) by lia. set (d4 := bus_write MPU_RNR region d3).
    destruct (mpu_select region d3) as [S4 F4]; [unfold is_u32; lia|]. fold d4 in S4, F4. rewrite u8_small in S4 by lia. unfold clear_bits, load. unfold mbind, M_bind. rewrite mpu_attr_read, S4. destruct (F4 region) as [_ A4].
    rewrite A4, A3. rewrite store_run. eexists. split; [reflexivity|]. change MPU_RASR_ENABLE with (Z.shiftl 1 0). set (u := u32 (Z.land v _)). destruct (mpu_attr u d4) as [S5 F5]; [apply u32_range|].
    destruct (F5 region) as [A5 _]. rewrite S4, Z.eqb_refl in A5. rewrite A5. assert (forall i, 0 <= i < 32 -> Z.testbit u i = if decide (i = 0) then false else Z.testbit v i) as Hu by (intros i Hi; apply testbit_clear_bit; done || lia).
    split; apply Z.bits_inj'; intros i Hi; rewrite !testbit_field by lia.
    + destruct (Z.ltb_spec i 1); cbn [andb]; [|by rewrite Z.bits_0]. assert (i = 0) as -> by lia. rewrite Hu by lia. by rewrite Z.bits_0.
    + destruct (Z.ltb_spec i 31); cbn [andb]; [|done]. rewrite Hu by lia. by rewrite decide_False by lia.
Qed.

(** ** Instances and concrete runs *)

Record mpu_unit := MpuUnit { mu_selected : Z; mu_base : Z -> Z; mu_attr : Z -> Z }.
#[export] Instance mpu_unit_bus : Bus mpu_unit := {|
  bus_read a d := (if a =? MPU_RASR then u32 (mu_attr d (mu_selected d)) else 0, d);
  bus_write a v d :=
    if a =? MPU_RNR then MpuUnit (u8 v) (mu_base d) (mu_attr d)
    else if a =? MPU_RBAR then if Z.testbit v 4 then MpuUnit (v mod 16) (fun r => if r =? v mod 16 then v / 32 * 32 else mu_base d r) (mu_attr d) else d
    else if a =? MPU_RASR then MpuUnit (mu_selected d) (mu_base d) (fun r => if r =? mu_selected d then v else mu_attr d r) else d;
  bus_read8 _ d := (0, d);
  bus_write8 _ _ d := d;
  bus_asm _ d := d;
  bus_ipsr _ := 0 |}.
#[export] Instance mpu_unit_mpu : Mpu mpu_unit mu_selected (fun r d => mu_base d r) (fun r d => u32 (mu_attr d r)).
Proof.
  split; intros; cbn [bus_read bus_write mpu_unit_bus]; try done.
  - change (MPU_RBAR =? MPU_RNR) with false. rewrite Z.eqb_refl. cbn iota. rewrite H0. by cbn.
  - change (MPU_RASR =? MPU_RNR) with false. change (MPU_RASR =? MPU_RBAR) with false. rewrite Z.eqb_refl. cbn. split; [done|]. intros r. split; [|done]. destruct (r =? mu_selected d); [by apply u32_small|done].
  - apply u32_range.
Qed.
(** A register of which bits 8 to 10 are kept when the key is right. *)
Record aircr_unit := AircrUnit { au_group : Z }.
#[export] Instance aircr_unit_bus : Bus aircr_unit := {|
  bus_read a d := (put_field 0xFA050000 8 3 (au_group d mod 8), d);
  bus_write a v d := if (a =? SCB_AIRCR) && (Z.shiftr v 16 =? 0x05FA) then AircrUnit (field v 8 3) else d;
  bus_read8 _ d := (0, d); bus_write8 _ _ d := d; bus_asm _ d := d; bus_ipsr _ := 0 |}.
#[export] Instance aircr_unit_aircr : Aircr aircr_unit (fun d => au_group d mod 8).
Proof.
  split; intros; cbn [bus_read bus_write bus_asm aircr_unit_bus]; try done.
  - eexists. split; [reflexivity|]. split; [apply put_field_u32|]. pose proof (Z.mod_pos_bound (au_group d) 8 ltac:(lia)). apply field_put_field; try lia. unfold is_u32. lia.
  - rewrite Z.eqb_refl. cbn [andb]. destruct (_ =? _); [|done]. cbn [au_group]. apply Z.mod_small. unfold field. change (2 ^ 3) with 8. apply Z.mod_pos_bound. lia.
Qed.

Definition demo_lines : lines := fun _ => Line false false false 0.
Lemma nvic_refines_witness : exists d', run_calls [NEnable 37; NPend 5; NPriority 37 19] demo_lines = Done (tt, d') /\ d' 37 = Line true false false 48 /\ cortex_m4_nvic_get_priority 37 d' = Done (3, d').
Proof.
  destruct (nvic_refines (fun n (d : lines) => d n) [NEnable 37; NPend 5; NPriority 37 19] demo_lines) as (d' & E & H); [repeat constructor; vm_compute; congruence|].
  exists d'. split; [exact E|]. destruct (H 37) as (E1 & _ & _ & E2); [split; vm_compute; congruence|]. split; [exact E1|]. apply (E2 19); [split; vm_compute; congruence|reflexivity].
Defined.
Lemma switches_correct_witness : exists d', cortex_m4_scb_set_deep_sleep true (Memory ∅ ∅) = Done (tt, d') /\ Z.testbit (memory_cell SCB_SCR d') 2 = true.
Proof.
  pose proof (switches_correct memory_cell (fun _ => True) true I I I I) as H. do 3 apply Forall_inv_tail in H. apply Forall_inv in H.
  destruct (H (Memory ∅ ∅)) as (d' & E & Hb & _). exists d'. split; [exact E|]. apply (Hb 2). split; vm_compute; congruence.
Defined.
Lemma priority_grouping_roundtrip_witness : exists d', cortex_m4_scb_set_priority_grouping 5 (AircrUnit 0) = Done (tt, d') /\ cortex_m4_scb_get_priority_grouping d' = Done (5, d').
Proof.
  destruct (priority_grouping_roundtrip (fun d => au_group d mod 8) 5 (AircrUnit 0)) as (d' & E & _ & G); [split; vm_compute; congruence|]. exists d'. split; [exact E|exact G].
Defined.
Lemma mpu_region_correct_witness :
  exists d', cortex_m4_mpu_configure_region 3 0x20000000 12 MPU_ACCESS_PRIVILEGED_RO 1 true false true true (MpuUnit 0 (fun _ => 0) (fun _ => 0)) = Done (tt, d') /\ field (u32 (mu_attr d' 3)) 24 3 = MPU_ACCESS_FULL.
Proof.
  destruct (mpu_region_correct mu_selected (fun r d => mu_base d r) (fun r d => u32 (mu_attr d r)) 3 0x20000000 12 MPU_ACCESS_PRIVILEGED_RO 1 true false true true (MpuUnit 0 (fun _ => 0) (fun _ => 0)))
    as (d' & E & _ & _ & _ & H & _); try (split; vm_compute; congruence). exists d'. split; [exact E|]. apply H; reflexivity.
Defined.
