(* ===== verification/NvicDma.v ===== *)
(** * Interrupt and DMA controllers (mini-mcu-embedded/src/nvic_dma.c)

    The interrupt calls lead to those of the processor core.  A DMA stream is a group of registers at an offset of its controller; what the status registers of the hardware
    mean is the class [DmaStatus].  [dma_start_transfer] is left out: it names members that its type does not have.  So are the two functions that only call calloc and free. *)
From S2P Require Import Prelude Registers CortexM.

Definition DMA_SxCR_OFFSET (s : Z) : Z := 0x10 + s * 0x18.
Definition DMA_SxNDTR_OFFSET (s : Z) : Z := 0x14 + s * 0x18.
Definition DMA_SxPAR_OFFSET (s : Z) : Z := 0x18 + s * 0x18.
Definition DMA_SxM0AR_OFFSET (s : Z) : Z := 0x1C + s * 0x18.
Definition DMA_SxFCR_OFFSET (s : Z) : Z := 0x20 + s * 0x18.
Definition DMA_LISR_OFFSET : Z := 0x00.
Definition DMA_HISR_OFFSET : Z := 0x04.
Definition DMA_LIFCR_OFFSET : Z := 0x08.
Definition DMA_HIFCR_OFFSET : Z := 0x0C.
Definition DMA_SxCR_EN : Z := Z.shiftl 1 0.
Definition DMA_SxCR_DIR_POS : Z := 6.
Definition DMA_SxCR_CIRC : Z := Z.shiftl 1 8.
Definition DMA_SxCR_PINC : Z := Z.shiftl 1 9.
Definition DMA_SxCR_MINC : Z := Z.shiftl 1 10.
Definition DMA_SxCR_PSIZE_POS : Z := 11.
Definition DMA_SxCR_MSIZE_POS : Z := 13.
Definition DMA_SxCR_DBM : Z := Z.shiftl 1 18.
Definition DMA_SxCR_PBURST_POS : Z := 21.
Definition DMA_SxCR_MBURST_POS : Z := 23.
Definition DMA_SxCR_CHSEL_POS : Z := 25.
Definition DMA_SxFCR_DMDIS : Z := Z.shiftl 1 2.
Definition DMA1_BASE : Z := 0x40026000.
Definition DMA2_BASE : Z := 0x40026400.
Definition DMA_MAX_STREAMS : Z := 8.
Definition DMA_DIR_MEM_TO_PERIPH : Z := 0x1.
Definition DMA_DIR_MEM_TO_MEM : Z := 0x2.
Definition DMA_IT_TCIF : Z := Z.shiftl 1 5.
Definition DMA_IT_FEIF : Z := Z.shiftl 1 0.
Definition PRIGROUP_NVIC_4_2 : priority_grouping_t := 2.
Definition NULL : Z := 0.

Record dma_sg_descriptor_t := SgDescriptor { sg_src_addr : Z; sg_dest_addr : Z; next_descriptor : Z; sg_control : Z }.
Record dma_config_t := DmaConfig { cfg_stream : Z; channel : Z; direction : Z; periph_inc : bool; mem_inc : bool; periph_data_size : Z; mem_data_size : Z; periph_burst_size : Z; mem_burst_size : Z;
  circular_mode : bool; double_buffer : bool; fifo_threshold : Z; use_scatter_gather : bool }.

Section controllers.
Context {D : Type} `{Bus D}.

(** ** Interrupts *)

Definition nvic_init : M D unit :=
  air ← load SCB_AIRCR;
  let air := Z.land air (u32 (Z.lnot (Z.lor AIRCR_VECTKEY_MASK AIRCR_PRIGROUP_MASK))) in
  let air := Z.lor air AIRCR_VECTKEY_VALUE in
  let air := Z.lor air (u32 (Z.shiftl PRIGROUP_NVIC_4_2 AIRCR_PRIGROUP_POS)) in
  store SCB_AIRCR air;; asm dsb;; asm isb.
Definition nvic_enable_irq (irq_num : Z) : M D unit := cortex_m4_nvic_enable_irq irq_num.
Definition nvic_disable_irq (irq_num : Z) : M D unit := cortex_m4_nvic_disable_irq irq_num.
Definition nvic_set_pending (irq_num : Z) : M D unit := cortex_m4_nvic_set_pending irq_num.
Definition nvic_clear_pending (irq_num : Z) : M D unit := cortex_m4_nvic_clear_pending irq_num.
Definition nvic_get_pending (irq_num : Z) : M D bool := cortex_m4_nvic_is_pending irq_num.
Definition nvic_get_active (irq_num : Z) : M D bool := cortex_m4_nvic_is_active irq_num.
Definition nvic_set_priority (irq_num priority : Z) : M D unit := cortex_m4_nvic_set_priority irq_num priority.
Definition nvic_get_priority (irq_num : Z) : M D Z := cortex_m4_nvic_get_priority irq_num.
(** The handler is kept nowhere. *)
Definition nvic_register_handler (irq_num handler priority : Z) : M D bool :=
  if NVIC_MAX_IRQ <=? irq_num then mret false else nvic_set_priority irq_num priority;; nvic_enable_irq irq_num;; mret true.
Definition nvic_unregister_handler (irq_num : Z) : M D bool := if NVIC_MAX_IRQ <=? irq_num then mret false else nvic_disable_irq irq_num;; mret true.
Definition nvic_get_handler (irq_num : Z) : M D Z := mret NULL.
Definition nvic_set_tail_chaining (irq_num : Z) (enable : bool) : M D unit := mret tt.
Definition nvic_set_late_arrival (irq_num : Z) (enable : bool) : M D unit := mret tt.
Definition nvic_enable_all_interrupts : M D unit := cortex_m4_enable_interrupts.
Definition nvic_disable_all_interrupts : M D unit := cortex_m4_disable_interrupts.
Definition nvic_system_reset : M D unit := cortex_m4_scb_system_reset.
Definition nvic_get_active_vector : M D Z := v ← load SCB_ICSR; mret (Z.land v ICSR_VECTACTIVE_MASK).
Definition nvic_get_pending_vector : M D Z := v ← load SCB_ICSR; mret (Z.shiftr (Z.land v ICSR_VECTPENDING_MASK) 12).

(** ** DMA streams *)

Definition dma_get_stream_mask (stream : Z) : Z := u32 (Z.shiftl 0x3F (stream mod 4 * 6)).
Fixpoint clear_streams (n : nat) (s dma_base : Z) : M D unit :=
  match n with O => mret tt | S n => store (dma_base +32 DMA_SxCR_OFFSET s) 0;; clear_streams n (s + 1) dma_base end.
(** The hardware and the table of callbacks, which nothing reads. *)
Definition dma_init (dma_base : Z) : M (D * list (list Z)) unit :=
  modify (fun '(d, _) => (d, replicate 2 (replicate 8 NULL)));; zoom fst (fun d '(_, t) => (d, t)) (clear_streams (Z.to_nat DMA_MAX_STREAMS) 0 dma_base).
Definition dma_register_callback (dma_base stream callback : Z) : M (D * list (list Z)) unit :=
  if (stream <? 0) || (DMA_MAX_STREAMS <=? stream) then undefined
  else modify (fun '(d, t) => (d, alter (<[Z.to_nat stream := callback]>) (if dma_base =? DMA2_BASE then 1%nat else 0%nat) t)).

Definition dma_cr_value (c : dma_config_t) : Z :=
  let reg := Z.lor 0 (u32 (Z.shiftl (channel c) DMA_SxCR_CHSEL_POS)) in
  let reg := if direction c =? DMA_DIR_MEM_TO_PERIPH then Z.lor reg (Z.shiftl 1 DMA_SxCR_DIR_POS) else reg in
  let reg := if direction c =? DMA_DIR_MEM_TO_MEM then Z.lor reg (Z.shiftl 2 DMA_SxCR_DIR_POS) else reg in
  let reg := if periph_inc c then Z.lor reg DMA_SxCR_PINC else reg in
  let reg := if mem_inc c then Z.lor reg DMA_SxCR_MINC else reg in
  let reg := if circular_mode c then Z.lor reg DMA_SxCR_CIRC else reg in
  let reg := if double_buffer c then Z.lor reg DMA_SxCR_DBM else reg in
  let reg := Z.lor reg (u32 (Z.shiftl (periph_data_size c) DMA_SxCR_PSIZE_POS)) in
  let reg := Z.lor reg (u32 (Z.shiftl (mem_data_size c) DMA_SxCR_MSIZE_POS)) in
  let reg := Z.lor reg (u32 (Z.shiftl (periph_burst_size c) DMA_SxCR_PBURST_POS)) in
  Z.lor reg (u32 (Z.shiftl (mem_burst_size c) DMA_SxCR_MBURST_POS)).
Definition dma_configure_stream (dma_base : Z) (config : dma_config_t) : M D unit :=
  let s := cfg_stream config in
  let cr := dma_base +32 DMA_SxCR_OFFSET s in
  let fcr := dma_base +32 DMA_SxFCR_OFFSET s in
  store cr 0;;
  store cr (dma_cr_value config);;
  let fcr_val := Z.land (fifo_threshold config) 0x3 in
  store fcr (if negb (use_scatter_gather config) then Z.lor fcr_val DMA_SxFCR_DMDIS else fcr_val).

Definition dma_set_source (dma_base stream addr : Z) : M D unit := store (dma_base +32 DMA_SxPAR_OFFSET stream) addr.
Definition dma_set_destination (dma_base stream addr : Z) : M D unit := store (dma_base +32 DMA_SxM0AR_OFFSET stream) addr.
Definition dma_set_transfer_count (dma_base stream count : Z) : M D unit := store (dma_base +32 DMA_SxNDTR_OFFSET stream) count.
Definition dma_enable_stream (dma_base stream : Z) : M D unit := set_bits (dma_base +32 DMA_SxCR_OFFSET stream) DMA_SxCR_EN.
Definition dma_disable_stream (dma_base stream : Z) : M D unit := clear_bits (dma_base +32 DMA_SxCR_OFFSET stream) DMA_SxCR_EN.
Definition dma_is_stream_enabled (dma_base stream : Z) : M D bool := v ← load (dma_base +32 DMA_SxCR_OFFSET stream); mret (negb (Z.land v DMA_SxCR_EN =? 0)).
Definition dma_stop_transfer (dma_base stream : Z) : M D unit := dma_disable_stream dma_base stream.

Definition isr_addr (dma_base stream : Z) : Z := if stream <? 4 then dma_base +32 DMA_LISR_OFFSET else dma_base +32 DMA_HISR_OFFSET.
(** The loop: [n] more rounds may count. *)
Fixpoint wait_loop (n : nat) (a mask elapsed : Z) : M D Z :=
  v ← load a;
  if negb (Z.land v mask =? 0) then mret elapsed else match n with O => mret elapsed | S n => wait_loop n a mask (elapsed + 1) end.
Definition dma_wait_for_completion (dma_base stream timeout_ms : Z) : M D bool :=
  elapsed ← wait_loop (Z.to_nat timeout_ms) (isr_addr dma_base stream) (u32 (Z.shiftl DMA_IT_TCIF (stream mod 4 * 6))) 0;
  mret (elapsed <? timeout_ms).

Definition dma_enable_interrupt (dma_base stream flags : Z) : M D unit := set_bits (dma_base +32 DMA_SxCR_OFFSET stream) flags.
Definition dma_disable_interrupt (dma_base stream flags : Z) : M D unit := clear_bits (dma_base +32 DMA_SxCR_OFFSET stream) flags.
Definition dma_clear_interrupt_flags (dma_base stream flags : Z) : M D unit :=
  store (if stream <? 4 then dma_base +32 DMA_LIFCR_OFFSET else dma_base +32 DMA_HIFCR_OFFSET) (Z.shiftl flags (stream mod 4 * 6)).
Definition dma_get_transfer_count (dma_base stream : Z) : M D Z := load (dma_base +32 DMA_SxNDTR_OFFSET stream).
Definition dma_is_fifo_error (dma_base stream : Z) : M D bool :=
  v ← load (isr_addr dma_base stream); mret (negb (Z.land v (u32 (Z.shiftl DMA_IT_FEIF (stream mod 4 * 6))) =? 0)).

(** ** Scatter and gather *)

Definition dma_sg_configure (dma_base stream descriptors count : Z) : M D unit :=
  if (descriptors =? NULL) || (count =? 0) then mret tt else store (dma_base +32 DMA_SxM0AR_OFFSET stream) descriptors.
Definition dma_sg_start (dma_base stream : Z) : M D unit := dma_enable_stream dma_base stream.
End controllers.
Definition dma_sg_set_descriptor (src_addr dest_addr next transfer_size : Z) : dma_sg_descriptor_t := SgDescriptor src_addr dest_addr (u32 next) transfer_size.

(** ** The registers of the streams *)

(** Control, peripheral address, memory address and FIFO control. *)
Definition offsets : list Z := [0x10; 0x18; 0x1C; 0x20].
Section streams.
Context {D : Type} `{Hbus : Bus D} (cell : Z -> D -> Z) (plain : Z -> Prop) `{!Plain D cell plain}.
Context (base : Z) (Hbase : 0 <= base < 0xFFFFF000).
(** These registers keep what is stored, as they do in a stream that is not enabled. *)
Context (Hplain : forall s off, 0 <= s < 8 -> off ∈ offsets -> plain (base +32 (off + s * 0x18))).

Lemma at_off off : 0 <= off < 0x1000 -> base +32 off = base + off.
Proof. intros Ho. apply u32_small. lia. Qed.
Definition cr_of (s : Z) : Z := base + (0x10 + s * 0x18).
Definition fcr_of (s : Z) : Z := base + (0x20 + s * 0x18).
(** The registers of stream [s]. *)
Definition of_stream (s a : Z) : Prop := base + (0x10 + s * 0x18) <= a < base + (0x10 + (s + 1) * 0x18).
(** The registers of [base] outside of stream [s] are as before. *)
Definition keeps_others (s : Z) (d d' : D) : Prop := forall t off, 0 <= t < 8 -> t <> s -> off ∈ offsets -> cell (base +32 (off + t * 0x18)) d' = cell (base +32 (off + t * 0x18)) d.

Lemma off_range (off : Z) : off ∈ offsets -> 0x10 <= off <= 0x20.
Proof. intros Ho. repeat (apply elem_of_cons in Ho as [->|Ho]; [lia|]). by apply elem_of_nil in Ho. Qed.
Lemma stream_address s t off off' : 0 <= s < 8 -> 0 <= t < 8 -> off ∈ offsets -> off' ∈ offsets ->
  base +32 (off + s * 0x18) = base +32 (off' + t * 0x18) -> s = t /\ off = off'.
Proof.
  intros Hs Ht Ho Ho'. pose proof (off_range _ Ho). pose proof (off_range _ Ho'). rewrite !at_off by lia. intros E. assert (s = t) as -> by lia. split; [done|lia].
Qed.
Lemma store_stream s off v d : 0 <= s < 8 -> off ∈ offsets ->
  let a := base +32 (off + s * 0x18) in cell a (bus_write a (u32 v) d) = u32 v /\ keeps_others s d (bus_write a (u32 v) d) /\
    forall off', off' ∈ offsets -> off' <> off -> cell (base +32 (off' + s * 0x18)) (bus_write a (u32 v) d) = cell (base +32 (off' + s * 0x18)) d.
Proof.
  intros Hs Ho a. assert (plain a) as Ha by by apply Hplain. split; [by apply (cell_store cell plain)|]. split.
  - intros t off' Ht Hne Ho'. rewrite (cell_stored cell plain) by (done || by apply Hplain). rewrite decide_False; [done|]. intros E. apply stream_address in E as [E _]; [congruence|done|done|done|done].
  - intros off' Ho' Hne. rewrite (cell_stored cell plain) by (done || by apply Hplain). rewrite decide_False; [done|]. intros E. apply stream_address in E as [_ E]; [congruence|done|done|done|done].
Qed.

Definition config_ok (c : dma_config_t) : Prop :=
  0 <= cfg_stream c < 8 /\ 0 <= channel c < 8 /\ 0 <= direction c < 3 /\ 0 <= periph_data_size c < 4 /\ 0 <= mem_data_size c < 4 /\ 0 <= periph_burst_size c < 4 /\ 0 <= mem_burst_size c < 4 /\ 0 <= fifo_threshold c < 4.
Lemma bit_field (b : bool) k p w : 0 <= k -> 0 <= p -> 0 < w -> k + 1 <= p \/ p + w <= k \/ k = p -> field (if b then Z.shiftl 1 k else 0) p w = if k =? p then b2z b else 0.
Proof.
  intros Hk Hp Hw Hd. destruct b; [rewrite (field_shiftl 1 k 1) by lia; destruct (Z.eqb_spec w 0); [lia|]; by destruct (k =? p)|rewrite field_0 by lia; by destruct (k =? p)].
Qed.
Lemma lor_if (b : bool) x y : (if b then Z.lor x y else x) = Z.lor x (if b then y else 0).
Proof. destruct b; [done|by rewrite Z.lor_0_r]. Qed.
(** The word as a union of fields. *)
Lemma cr_fields c : config_ok c ->
  dma_cr_value c = Z.lor (Z.shiftl (channel c) 25) (Z.lor (Z.shiftl (direction c) 6) (Z.lor (if periph_inc c then Z.shiftl 1 9 else 0) (Z.lor (if mem_inc c then Z.shiftl 1 10 else 0)
    (Z.lor (if circular_mode c then Z.shiftl 1 8 else 0) (Z.lor (if double_buffer c then Z.shiftl 1 18 else 0) (Z.lor (Z.shiftl (periph_data_size c) 11) (Z.lor (Z.shiftl (mem_data_size c) 13)
    (Z.lor (Z.shiftl (periph_burst_size c) 21) (Z.shiftl (mem_burst_size c) 23))))))))).
Proof.
  intros (_ & H1 & H2 & H3 & H4 & H5 & H6 & _). unfold dma_cr_value. cbv zeta. rewrite !lor_if.
  assert (forall v q n, 0 <= v < n -> 0 <= q -> n * 2 ^ q <= 4294967296 -> u32 (Z.shiftl v q) = Z.shiftl v q) as Hu.
  { intros v q n Hv Hq Hn. apply u32_small. rewrite Z.shiftl_mul_pow2 by done. pose proof (Z.pow_pos_nonneg 2 q ltac:(lia) Hq). nia. }
  rewrite (Hu (channel c) DMA_SxCR_CHSEL_POS 8), (Hu (periph_data_size c) DMA_SxCR_PSIZE_POS 4), (Hu (mem_data_size c) DMA_SxCR_MSIZE_POS 4), (Hu (periph_burst_size c) DMA_SxCR_PBURST_POS 4),
    (Hu (mem_burst_size c) DMA_SxCR_MBURST_POS 4) by (done || (vm_compute; congruence)).
  rewrite Z.lor_0_l. rewrite <- !Z.lor_assoc. f_equal. rewrite (Z.lor_assoc (if direction c =? DMA_DIR_MEM_TO_PERIPH then _ else _)). f_equal.
  unfold DMA_DIR_MEM_TO_PERIPH, DMA_DIR_MEM_TO_MEM. assert (direction c = 0 \/ direction c = 1 \/ direction c = 2) as [->|[->| ->]] by lia; reflexivity.
Qed.

(** A call that changes register [off] of stream [s] to [v] and leaves the other registers of the streams. *)
Definition changes (m : M D unit) (s off : Z) (f : Z -> Z) : Prop :=
  forall d, exists d', m d = Done (tt, d') /\ cell (base +32 (off + s * 0x18)) d' = f (cell (base +32 (off + s * 0x18)) d) /\ keeps_others s d d' /\
    forall off', off' ∈ offsets -> off' <> off -> cell (base +32 (off' + s * 0x18)) d' = cell (base +32 (off' + s * 0x18)) d.
Lemma store_changes s off v : 0 <= s < 8 -> off ∈ offsets -> is_u32 v -> changes (store (base +32 (off + s * 0x18)) v) s off (fun _ => v).
Proof.
  intros Hs Ho Hv d. destruct (store_stream s off v d Hs Ho) as (E & K & R). eexists. split; [apply store_run|]. rewrite (u32_small v) in * by done. done.
Qed.
Lemma set_bits_changes s off v : 0 <= s < 8 -> off ∈ offsets -> is_u32 v -> changes (set_bits (base +32 (off + s * 0x18)) v) s off (fun x => Z.lor x v).
Proof.
  intros Hs Ho Hv d. destruct (store_stream s off (Z.lor (cell (base +32 (off + s * 0x18)) d) v) d Hs Ho) as (E & K & R). eexists. split; [apply (set_bits_run cell plain); by apply Hplain|].
  split; [|done]. rewrite E. apply u32_small. apply lor_u32; [apply (plain_u32 (plain := plain))|done].
Qed.
Lemma keeps_trans s d d1 d2 : keeps_others s d d1 -> keeps_others s d1 d2 -> keeps_others s d d2.
Proof. intros H1 H2 t off Ht Hne Ho. rewrite H2, H1; done. Qed.

Lemma offsets_4 : 0x10 ∈ offsets /\ 0x18 ∈ offsets /\ 0x1C ∈ offsets /\ 0x20 ∈ offsets.
Proof. unfold offsets. rewrite !elem_of_cons. tauto. Qed.
Lemma cr_value_u32 c : config_ok c -> is_u32 (dma_cr_value c).
Proof.
  intros Hc. rewrite cr_fields by done. destruct Hc as (_ & H1 & H2 & H3 & H4 & H5 & H6 & _).
  assert (forall v q n, 0 <= v < n -> 0 <= q -> n * 2 ^ q <= 4294967296 -> is_u32 (Z.shiftl v q)) as Hu.
  { intros v q n Hv Hq Hn. rewrite Z.shiftl_mul_pow2 by done. pose proof (Z.pow_pos_nonneg 2 q ltac:(lia) Hq). unfold is_u32. nia. }
  assert (forall (b : bool) k, 0 <= k < 32 -> is_u32 (if b then Z.shiftl 1 k else 0)) as Hb.
  { intros [|] k Hk; [|unfold is_u32; lia]. apply u32_bits. intros i Hi. rewrite testbit_bit by lia. apply bool_decide_false. lia. }
  repeat apply lor_u32; try (apply Hb; lia); first [apply (Hu _ _ 8); lia|apply (Hu _ _ 4); lia].
Qed.
(** Position, width and value of the fields above the lowest six bits. *)
Definition cr_config (c : dma_config_t) : list (Z * Z * Z) :=
  [(25, 3, channel c); (6, 2, direction c); (9, 1, b2z (periph_inc c)); (10, 1, b2z (mem_inc c)); (8, 1, b2z (circular_mode c)); (18, 1, b2z (double_buffer c)); (11, 2, periph_data_size c);
   (13, 2, mem_data_size c); (21, 2, periph_burst_size c); (23, 2, mem_burst_size c); (15, 3, 0); (19, 2, 0); (28, 4, 0)].
Lemma cr_fields_correct c : config_ok c -> Forall (fun '(p, w, v) => field (dma_cr_value c) p w = v) ((0, 6, 0) :: cr_config c).
Proof.
  intros Hc. rewrite cr_fields by done. destruct Hc as (_ & H1 & H2 & H3 & H4 & H5 & H6 & _). unfold cr_config.
  repeat constructor; rewrite !field_lor by lia; rewrite (field_shiftl (channel c) 25 3), (field_shiftl (direction c) 6 2), (field_shiftl (periph_data_size c) 11 2), (field_shiftl (mem_data_size c) 13 2),
    (field_shiftl (periph_burst_size c) 21 2), (field_shiftl (mem_burst_size c) 23 2), !bit_field by (change (2 ^ 3) with 8 in *; change (2 ^ 2) with 4 in *; lia); cbn [Z.eqb Z.lor Pos.eqb]; rewrite ?Z.lor_0_r; done.
Qed.

(** What the hardware does: data goes from the peripheral address to the memory address, the other way in the direction memory to peripheral. *)
Definition transfer_ends (cr par m0ar : Z) : Z * Z := if field cr 6 2 =? DMA_DIR_MEM_TO_PERIPH then (m0ar, par) else (par, m0ar).
(** A transfer as set up by the calls. *)
Definition setup (c : dma_config_t) (src dst : Z) : M D unit :=
  let s := cfg_stream c in dma_configure_stream base c;; dma_set_source base s src;; dma_set_destination base s dst;; dma_enable_stream base s.

(** Configuring a stream, naming its source and destination and enabling it gives every field of its control register the configured value, enables it and no interrupt of it, sets
    the FIFO as configured, and touches no other stream.  But the source is always taken as the peripheral's address: in the direction memory to peripheral the transfer runs from the
    destination to the source. *)
Theorem dma_setup_correct c src dst d :
  config_ok c -> is_u32 src -> is_u32 dst ->
  exists d', setup c src dst d = Done (tt, d') /\ keeps_others (cfg_stream c) d d' /\
    let reg off := cell (base +32 (off + cfg_stream c * 0x18)) d' in
    Forall (fun '(p, w, v) => field (reg 0x10) p w = v) ((0, 1, 1) :: (1, 5, 0) :: cr_config c) /\
    field (reg 0x20) 0 2 = fifo_threshold c /\ field (reg 0x20) 2 1 = b2z (negb (use_scatter_gather c)) /\
    transfer_ends (reg 0x10) (reg 0x18) (reg 0x1C) = if direction c =? DMA_DIR_MEM_TO_PERIPH then (dst, src) else (src, dst).
Proof.
  intros Hc Hsrc Hdst. pose proof Hc as (Hs & _ & Hdir & _ & _ & _ & _ & Hf). pose proof (cr_value_u32 c Hc) as Hv. destruct offsets_4 as (O1 & O2 & O3 & O4). set (s := cfg_stream c) in *.
  set (f := if negb (use_scatter_gather c) then Z.lor (fifo_threshold c) 4 else fifo_threshold c).
  assert (is_u32 f /\ field f 0 2 = fifo_threshold c /\ field f 2 1 = b2z (negb (use_scatter_gather c))) as (F1 & F2 & F3).
  { unfold f, is_u32. assert (fifo_threshold c = 0 \/ fifo_threshold c = 1 \/ fifo_threshold c = 2 \/ fifo_threshold c = 3) as [->|[->|[->| ->]]] by lia; destruct (use_scatter_gather c); vm_compute; intuition congruence. }
  destruct (store_changes s 0x10 0 Hs O1 ltac:(unfold is_u32; lia) d) as (d1 & E1 & _ & K1 & _).
  destruct (store_changes s 0x10 (dma_cr_value c) Hs O1 Hv d1) as (d2 & E2 & V2 & K2 & R2).
  destruct (store_changes s 0x20 f Hs O4 F1 d2) as (d3 & E3 & V3 & K3 & R3).
  destruct (store_changes s 0x18 src Hs O2 Hsrc d3) as (d4 & E4 & V4 & K4 & R4).
  destruct (store_changes s 0x1C dst Hs O3 Hdst d4) as (d5 & E5 & V5 & K5 & R5).
  destruct (set_bits_changes s 0x10 1 Hs O1 ltac:(unfold is_u32; lia) d5) as (d6 & E6 & V6 & K6 & R6).
  exists d6. split; [|split].
  - unfold setup, dma_configure_stream. fold s. rewrite !bind_assoc. erewrite bind_step by exact E1. rewrite !bind_assoc. erewrite bind_step by exact E2.
    erewrite bind_step by (etrans; [|exact E3]; unfold f; change 3 with (Z.ones 2); rewrite Z.land_ones by lia; rewrite Z.mod_small by (change (2 ^ 2) with 4; lia); reflexivity).
    erewrite bind_step by exact E4. erewrite bind_step by exact E5. exact E6.
  - by repeat (eapply keeps_trans; [eassumption|]).
  - cbv beta zeta in *. fold s. rewrite V6, (R6 0x20), (R6 0x18), (R6 0x1C) by (done || lia). rewrite (R5 0x10), (R5 0x20), (R5 0x18), V5 by (done || lia).
    rewrite (R4 0x10), (R4 0x20), V4 by (done || lia). rewrite (R3 0x10), V3, V2 by (done || lia).
    pose proof (cr_fields_correct c Hc) as HF.
    assert (forall p w v, 0 < p -> 0 <= w -> field (dma_cr_value c) p w = v -> field (Z.lor (dma_cr_value c) 1) p w = v) as Hor.
    { intros p w v Hp Hw <-. rewrite field_lor by lia. change 1 with (Z.shiftl 1 0). rewrite (field_shiftl 1 0 1) by lia. destruct (Z.eqb_spec 0 p); [lia|]. apply Z.lor_0_r. }
    rewrite Forall_cons in HF. destruct HF as [G0 HF]. pose proof HF as G. unfold cr_config in G. rewrite !Forall_cons in G. destruct G as (_ & G2 & _).
    split; [|split; [done|split; [done|]]].
    + constructor; [|constructor].
      * rewrite field_lor by lia. apply Z.bits_inj'. intros i Hi. rewrite Z.lor_spec, !testbit_field by lia. destruct (Z.ltb_spec i 1); [|symmetry; apply (testbit_high 1); lia]. assert (i = 0) as -> by lia. cbn [andb Z.add]. change (Z.testbit 1 0) with true. apply orb_true_r.
      * apply Hor; try lia. apply Z.bits_inj'. intros i Hi. rewrite testbit_field, Z.bits_0 by lia. destruct (Z.ltb_spec i 5); [|done]. cbn [andb]. pose proof (f_equal (fun x => Z.testbit x (1 + i)) G0) as B. cbv beta in B.
        rewrite testbit_field, Z.bits_0 in B by lia. destruct (Z.ltb_spec (1 + i) 6); [|lia]. exact B.
      * unfold cr_config in *. rewrite !Forall_cons in HF |- *. repeat (destruct HF as [? HF]). repeat (split; [apply Hor; done || lia|]). constructor.
    + unfold transfer_ends. rewrite (Hor 6 2 (direction c)) by (done || lia). done.
Qed.
End streams.

(** ** Waiting for the end of a transfer *)

Section status.
Context {D : Type} `{Hbus : Bus D}.
(** The first [n] values that loads of the register at [a] give. *)
Fixpoint reads (n : nat) (a : Z) (d : D) : list Z := match n with O => [] | S n => let '(v, d') := bus_read a d in v :: reads n a d' end.
Definition any_bit (k : Z) (vs : list Z) : bool := existsb (fun v => Z.testbit v k) vs.

Lemma wait_loop_run k n a e d : 0 <= k ->
  exists r d', wait_loop n a (Z.shiftl 1 k) e d = Done (r, d') /\ e <= r <= e + Z.of_nat n /\ (r < e + Z.of_nat n <-> any_bit k (reads n a d) = true).
Proof.
  intros Hk. revert e d. induction n as [|n IH]; intros e d; cbn [wait_loop reads any_bit existsb]; unfold load, mbind, M_bind; destruct (bus_read a d) as [v d1] eqn:E; rewrite land_bit_0, negb_involutive by done.
  - exists e, d1. split; [by destruct (Z.testbit v k)|]. split; [lia|]. split; [lia|discriminate].
  - cbn [existsb]. destruct (Z.testbit v k) eqn:B; [exists e, d1; split; [done|]; split; [lia|]; split; [done|intros _; lia]|].
    destruct (IH (e + 1) d1) as (r & d' & E' & Hr & Hi). exists r, d'. split; [exact E'|]. split; [lia|]. cbn [orb]. rewrite <- Hi. lia.
Qed.
Definition in_group (stream : Z) : Z := stream mod 4 * 6.
Lemma in_group_range stream : 0 <= in_group stream <= 18.
Proof. unfold in_group. pose proof (Z.mod_pos_bound stream 4 ltac:(lia)). lia. Qed.
Lemma flag_mask stream k : 0 <= k <= 5 -> u32 (Z.shiftl (Z.shiftl 1 k) (stream mod 4 * 6)) = Z.shiftl 1 (in_group stream + k).
Proof.
  intros Hk. pose proof (in_group_range stream). rewrite Z.shiftl_shiftl by (unfold in_group in *; lia). rewrite (Z.add_comm k). apply u32_small.
  apply u32_bits. intros i Hi. rewrite testbit_bit by (unfold in_group in *; lia). apply bool_decide_false. unfold in_group in *. lia.
Qed.
Lemma wait_run dma_base stream timeout d : 0 <= timeout ->
  exists d', dma_wait_for_completion dma_base stream timeout d = Done (any_bit (in_group stream + 5) (reads (Z.to_nat timeout) (isr_addr dma_base stream) d), d').
Proof.
  intros Ht. pose proof (in_group_range stream). unfold dma_wait_for_completion. change DMA_IT_TCIF with (Z.shiftl 1 5). rewrite flag_mask by lia.
  destruct (wait_loop_run (in_group stream + 5) (Z.to_nat timeout) (isr_addr dma_base stream) 0 d) as (r & d' & E & Hr & Hi); [lia|].
  exists d'. erewrite bind_step by exact E. unfold mret, M_ret. do 2 f_equal. rewrite Z2Nat.id in * by done. apply eq_true_iff_eq. rewrite Z.ltb_lt. exact Hi.
Qed.

(** The status registers as documented: five flags for each of four streams, the first at bits 0, 6, 16 and 22; the other bits read as zero.  Flags 0, 2 and 5 are FIFO error, direct mode
    error and transfer complete. *)
Definition flag_pos (s : Z) : Z := match s mod 4 with 0 => 0 | 1 => 6 | 2 => 16 | _ => 22 end.
Definition status_reg (dma_base s : Z) : Z := if s <? 4 then dma_base +32 0 else dma_base +32 4.
Class DmaStatus (dma_base : Z) (flag : Z -> Z -> D -> bool) : Prop := {
  status_flags s k d : 0 <= s < 8 -> k ∈ [0; 2; 3; 4; 5] -> Z.testbit (bus_read (status_reg dma_base s) d).1 (flag_pos s + k) = flag s k d;
  status_reserved s i d : 0 <= s < 8 -> i ∈ [1; 7; 12; 13; 14; 15; 17; 23; 28; 29; 30; 31] -> Z.testbit (bus_read (status_reg dma_base s) d).1 i = false }.
Context (dma_base : Z) (flag : Z -> Z -> D -> bool) `{!DmaStatus dma_base flag}.
(** The states in which the first [n] loads of the status register of [s] happen. *)
Fixpoint load_states (n : nat) (s : Z) (d : D) : list D := match n with O => [] | S n => d :: load_states n s (bus_read (status_reg dma_base s) d).2 end.

Lemma any_bit_states k s n d f : (forall d, Z.testbit (bus_read (status_reg dma_base s) d).1 k = f d) -> any_bit k (reads n (status_reg dma_base s) d) = existsb f (load_states n s d).
Proof.
  intros Hf. revert d. induction n as [|n IH]; intros d; cbn [reads load_states any_bit existsb]; [done|]. pose proof (Hf d) as Hd. destruct (bus_read (status_reg dma_base s) d) as [v d'] eqn:E. cbn [fst snd any_bit existsb] in *.
  rewrite Hd. f_equal. apply IH.
Qed.
Lemma existsb_false {A} (l : list A) : existsb (fun _ => false) l = false.
Proof. by induction l. Qed.

(** C26: waiting for a stream always ends, and it does not change what is waited for.  For streams 0, 1, 4 and 5 it succeeds if and only if the stream's transfer-complete flag is set at one
    of the first [timeout] loads of the status register.  For streams 2, 3, 6 and 7 the positions are not those of the hardware: it looks at a reserved bit and always fails, whatever
    happens; a FIFO error of streams 2 and 6 is never seen, and for streams 3 and 7 the direct mode error of the stream before is taken for one. *)
Theorem dma_wait_correct s timeout d :
  0 <= s < 8 -> is_u32 timeout ->
  (exists d', dma_wait_for_completion dma_base s timeout d =
     Done (if s mod 4 <? 2 then existsb (flag s 5) (load_states (Z.to_nat timeout) s d) else false, d')) /\
  (exists d', dma_is_fifo_error dma_base s d = Done (if s mod 4 <? 2 then flag s 0 d else if s mod 4 =? 2 then false else flag (s - 1) 2 d, d')).
Proof.
  intros Hs Ht. assert (isr_addr dma_base s = status_reg dma_base s) as Ea by done.
  assert (s mod 4 = 0 \/ s mod 4 = 1 \/ s mod 4 = 2 \/ s mod 4 = 3) as Hm by (pose proof (Z.mod_pos_bound s 4 ltac:(lia)); lia).
  split.
  - destruct (wait_run dma_base s timeout d) as [d' E]; [unfold is_u32 in Ht; lia|]. exists d'. rewrite E, Ea. do 2 f_equal. unfold in_group.
    destruct Hm as [Hm|[Hm|[Hm|Hm]]]; rewrite Hm; cbn [Z.ltb Z.compare Pos.compare Pos.compare_cont Z.mul Z.add Pos.mul Pos.add].
    1,2: apply any_bit_states; intros d0; rewrite <- (status_flags s 5 d0) by (done || (rewrite !elem_of_cons; tauto)); unfold flag_pos; by rewrite Hm.
    all: rewrite (any_bit_states _ _ _ _ (fun _ => false)); [apply existsb_false|]; intros d0; apply status_reserved; [done|]; rewrite !elem_of_cons; tauto.
  - unfold dma_is_fifo_error, load. unfold mbind, M_bind. rewrite Ea. destruct (bus_read (status_reg dma_base s) d) as [v d'] eqn:E. exists d'. unfold mret, M_ret. do 2 f_equal.
    change DMA_IT_FEIF with (Z.shiftl 1 0). rewrite flag_mask by lia. pose proof (in_group_range s). rewrite land_bit_0, negb_involutive by lia. rewrite Z.add_0_r. unfold in_group. replace v with (bus_read (status_reg dma_base s) d).1 by by rewrite E.
    destruct Hm as [Hm|[Hm|[Hm|Hm]]]; rewrite Hm; cbn [Z.ltb Z.eqb Z.compare Pos.compare Pos.compare_cont Z.mul Pos.mul Pos.add Pos.eqb].
    1,2: rewrite <- (status_flags s 0 d) by (done || (rewrite !elem_of_cons; tauto)); unfold flag_pos; by rewrite Hm.
    + apply status_reserved; [done|]. rewrite !elem_of_cons; tauto.
    + assert ((s - 1) mod 4 = 2) as Hm1 by (Z.div_mod_to_equations; lia). rewrite <- (status_flags (s - 1) 2 d) by ((Z.div_mod_to_equations; lia) || (rewrite !elem_of_cons; tauto)).
      unfold flag_pos. rewrite Hm1. assert (status_reg dma_base (s - 1) = status_reg dma_base s) as -> by (unfold status_reg; destruct (Z.ltb_spec (s - 1) 4), (Z.ltb_spec s 4); Z.div_mod_to_equations; lia). done.
Qed.
End status.

(** ** Interrupts *)

(** A handler is not kept: registering one sets the priority of the line and enables it, and what is looked up is nothing; afterwards the line can be disabled again.  Numbers that the controller does not have
    are refused. *)
Theorem nvic_handlers_correct {D} `{Bus D} (line : Z -> D -> irq_line) `{!Nvic D line} irq handler priority d :
  is_u8 irq -> is_u8 priority ->
  (NVIC_MAX_IRQ <= irq -> nvic_register_handler irq handler priority d = Done (false, d) /\ nvic_unregister_handler irq d = Done (false, d)) /\
  (irq < NVIC_MAX_IRQ -> exists d', nvic_register_handler irq handler priority d = Done (true, d') /\ nvic_get_handler irq d' = Done (NULL, d') /\
     (forall n, 0 <= n < 240 -> line n d' = if n =? irq then with_enabled true (with_priority (priority mod 16 * 16) (line n d)) else line n d) /\
     exists d2, nvic_unregister_handler irq d' = Done (true, d2) /\ forall n, 0 <= n < 240 -> line n d2 = if n =? irq then with_enabled false (with_priority (priority mod 16 * 16) (line n d)) else line n d).
Proof.
  intros Hi Hp. unfold nvic_register_handler, nvic_unregister_handler. destruct (Z.leb_spec NVIC_MAX_IRQ irq) as [Hge|Hlt]; [by split; [|lia]|]. split; [lia|]. intros _.
  destruct (nvic_call_refines line (NPriority irq priority) d) as (d1 & E1 & L1); [by split|]. destruct (nvic_call_refines line (NEnable irq) d1) as (d2 & E2 & L2); [done|].
  destruct (nvic_call_refines line (NDisable irq) d2) as (d3 & E3 & L3); [done|]. cbn [run_call spec_call] in *. exists d2.
  split; [unfold nvic_set_priority, nvic_enable_irq; erewrite bind_step by exact E1; by erewrite bind_step by exact E2|]. split; [done|]. split.
  - intros n Hn. rewrite L2, L1 by done. by destruct (n =? irq).
  - exists d3. split; [unfold nvic_disable_irq; by erewrite bind_step by exact E3|]. intros n Hn. rewrite L3, L2, L1 by done. by destruct (n =? irq).
Qed.

(** ** Concrete runs *)

Definition demo_config : dma_config_t := DmaConfig 2 5 DMA_DIR_MEM_TO_PERIPH false true 1 1 0 2 true false 3 true.
Lemma dma_setup_correct_witness :
  exists d', setup DMA1_BASE demo_config 0x20000100 0x40013804 (Memory ∅ ∅) = Done (tt, d') /\
    let reg off := memory_cell (DMA1_BASE +32 (off + 2 * 0x18)) d' in field (reg 0x10) 25 3 = 5 /\ transfer_ends (reg 0x10) (reg 0x18) (reg 0x1C) = (0x40013804, 0x20000100).
Proof.
  assert (config_ok demo_config) as Hc by (unfold config_ok, demo_config, DMA_DIR_MEM_TO_PERIPH; cbn; lia). assert (is_u32 0x20000100 /\ is_u32 0x40013804) as [H1 H2] by (unfold is_u32; lia).
  destruct (dma_setup_correct memory_cell (fun _ => True) DMA1_BASE ltac:(unfold DMA1_BASE; lia) (fun _ _ _ _ => I) demo_config 0x20000100 0x40013804 (Memory ∅ ∅) Hc H1 H2) as (d' & E & _ & F & _ & _ & T).
  exists d'. split; [exact E|]. cbv zeta in *. split; [|exact T]. do 2 apply Forall_inv_tail in F. apply Forall_inv in F. exact F.
Defined.

(** Status words to come, one for each load. *)
Record status_run := StatusRun { to_come : list Z }.
Definition status_word (d : status_run) : Z := Z.land (default 0 (head (to_come d))) 0x0F7D0F7D.
#[export] Instance status_run_bus : Bus status_run := {|
  bus_read _ d := (status_word d, StatusRun (tail (to_come d))); bus_write _ _ d := d; bus_read8 _ d := (0, d); bus_write8 _ _ d := d; bus_asm _ d := d; bus_ipsr _ := 0 |}.
#[export] Instance status_run_status : DmaStatus DMA1_BASE (fun s k d => Z.testbit (status_word d) (flag_pos s + k)).
Proof.
  split; intros s i d Hs Hi; cbn [bus_read status_run_bus fst]; [done|]. unfold status_word. rewrite Z.land_spec. apply andb_false_iff. right.
  repeat (apply elem_of_cons in Hi as [->|Hi]; [reflexivity|]). by apply elem_of_nil in Hi.
Qed.
Lemma dma_wait_correct_witness :
  (exists d', dma_wait_for_completion DMA1_BASE 1 3 (StatusRun [0; 0x800]) = Done (true, d')) /\ exists d', dma_wait_for_completion DMA1_BASE 2 3 (StatusRun [0; 0x200000; 0x200000]) = Done (false, d').
Proof.
  split.
  - destruct (dma_wait_correct DMA1_BASE (fun s k d => Z.testbit (status_word d) (flag_pos s + k)) 1 3 (StatusRun [0; 0x800])) as [[d' E] _]; try (split; vm_compute; congruence). exists d'. exact E.
  - destruct (dma_wait_correct DMA1_BASE (fun s k d => Z.testbit (status_word d) (flag_pos s + k)) 2 3 (StatusRun [0; 0x200000; 0x200000])) as [[d' E] _]; try (split; vm_compute; congruence). exists d'. exact E.
Defined.
Lemma nvic_handlers_correct_witness : exists d', nvic_register_handler 37 7 5 demo_lines = Done (true, d') /\ d' 37 = Line true false false 80.
Proof.
  destruct (nvic_handlers_correct (fun n (d : lines) => d n) 37 7 5 demo_lines) as [_ H]; try (split; vm_compute; congruence). destruct H as (d' & E & _ & L & _); [vm_compute; congruence|].
  exists d'. split; [exact E|]. rewrite L by (split; vm_compute; congruence). reflexivity.
Defined.
