(* ===== verification/MemoryMap.v ===== *)
(** * Memory map and bit-banding (mini-mcu-embedded/src/memory_map.c)

    The context is an object that may be NULL; two counters are static.  Region lookup is the loop that three functions share.  Bit-band accesses go through the class
    [BitBand], which says what the alias words of a memory mean, with an instance.  [memory_map_print_layout] is left out. *)
From S2P Require Import Prelude Registers.

Definition MAX_REGIONS : Z := 8.
Definition FLASH_BASE : Z := 0x08000000.
Definition FLASH_SIZE_DEFAULT : Z := 1 * 1024 * 1024.
Definition SRAM_BASE : Z := 0x20000000.
Definition SRAM_SIZE_DEFAULT : Z := 192 * 1024.
Definition CCMRAM_BASE : Z := 0x10000000.
Definition CCMRAM_SIZE_DEFAULT : Z := 64 * 1024.
Definition PERIPH_BASE : Z := 0x40000000.
Definition AHB1_PERIPH_BASE : Z := PERIPH_BASE.
Definition APB1_PERIPH_BASE : Z := 0x40000000.
Definition APB2_PERIPH_BASE : Z := 0x40010000.
Definition AHB1_PERIPH_SIZE : Z := 0x00020000.
Definition APB1_PERIPH_SIZE : Z := 0x00010000.
Definition APB2_PERIPH_SIZE : Z := 0x00010000.
Definition BITBAND_SRAM_BASE : Z := 0x22000000.
Definition BITBAND_PERIPH_BASE : Z := 0x42000000.
Definition BITBAND_SRAM_REF : Z := 0x20000000.
Definition BITBAND_PERIPH_REF : Z := 0x40000000.
Definition BITBAND_SRAM_ADDR (byte_addr bit_num : Z) : Z := u32 (BITBAND_SRAM_BASE + (byte_addr -32 BITBAND_SRAM_REF) * 32 + bit_num * 4).
Definition BITBAND_PERIPH_ADDR (byte_addr bit_num : Z) : Z := u32 (BITBAND_PERIPH_BASE + (byte_addr -32 BITBAND_PERIPH_REF) * 32 + bit_num * 4).

(** Sections and access rights are their values. *)
Definition memory_section_t : Set := Z.
Definition MEM_SECTION_TEXT : memory_section_t := 0.
Definition MEM_SECTION_RODATA : memory_section_t := 1.
Definition MEM_SECTION_DATA : memory_section_t := 2.
Definition MEM_SECTION_BSS : memory_section_t := 3.
Definition MEM_SECTION_HEAP : memory_section_t := 4.
Definition MEM_SECTION_STACK : memory_section_t := 5.
Definition MEM_SECTION_COUNT : memory_section_t := 6.
Definition memory_access_t : Set := Z.
Definition MEM_ACCESS_RW : memory_access_t := 0x3.
Definition MEM_ACCESS_RX : memory_access_t := 0x5.
Definition MEM_ACCESS_NONE : memory_access_t := 0x0.
Inductive memory_type_t := MEM_TYPE_FLASH | MEM_TYPE_SRAM | MEM_TYPE_CCMRAM | MEM_TYPE_PERIPH | MEM_TYPE_EXTERNAL.
Definition eqb_type (a b : memory_type_t) : bool :=
  match a, b with
  | MEM_TYPE_FLASH, MEM_TYPE_FLASH | MEM_TYPE_SRAM, MEM_TYPE_SRAM | MEM_TYPE_CCMRAM, MEM_TYPE_CCMRAM | MEM_TYPE_PERIPH, MEM_TYPE_PERIPH | MEM_TYPE_EXTERNAL, MEM_TYPE_EXTERNAL => true
  | _, _ => false
  end.

(** Pointers that are only stored are numbers. *)
Record memory_region_t := Region { name : Z; start_addr : Z; size : Z; mem_type : memory_type_t; access : memory_access_t; is_cached : bool; is_bufferable : bool }.
Record linker_section_t := LinkerSection { section : memory_section_t; section_name : Z; load_addr : Z; run_addr : Z; sec_size : Z; alignment : Z; is_initialized : bool; is_zeroed : bool }.
Record boot_vector_t := BootVector { stack_pointer : Z; reset_handler : Z }.
Record memory_map_ctx_t := MapCtx { sections : list linker_section_t; regions : list memory_region_t; region_count : Z; boot_vector : boot_vector_t; is_valid : bool }.
Definition NULL : Z := 0.
(** The object behind the context pointer, if it is not NULL, and the static counters. *)
Record map_state := MapState { ctx : option memory_map_ctx_t; s_flash_allocated : Z; s_sram_allocated : Z }.
Notation MS := (M map_state).
Definition zero_region : memory_region_t := Region NULL 0 0 MEM_TYPE_FLASH MEM_ACCESS_NONE false false.
Definition zero_section : linker_section_t := LinkerSection MEM_SECTION_TEXT NULL 0 0 0 0 false false.
Definition zero_ctx : memory_map_ctx_t := MapCtx (replicate 6 zero_section) (replicate 8 zero_region) 0 (BootVector 0 NULL) false.
(** [if (!ctx) return d]. *)
Definition with_ctx {A} (d : A) (f : memory_map_ctx_t -> MS A) : MS A := c ← gets ctx; match c with None => mret d | Some c => f c end.
Definition set_ctx (c : memory_map_ctx_t) : MS unit := modify (fun s => MapState (Some c) (s_flash_allocated s) (s_sram_allocated s)).

(** ** Regions *)

Definition memory_map_add_region (nm start sz : Z) (type : memory_type_t) (acc : memory_access_t) (cached bufferable : bool) : MS unit :=
  with_ctx tt (fun c =>
    if MAX_REGIONS <=? region_count c then mret tt
    else set_ctx (MapCtx (sections c) (<[Z.to_nat (region_count c) := Region nm start sz type acc cached bufferable]> (regions c)) (region_count c + 1) (boot_vector c) (is_valid c))).
Definition in_region (r : memory_region_t) (addr : Z) : bool := (start_addr r <=? addr) && (addr <? start_addr r +32 size r).
(** The loop from index [i] on, of which [n] rounds are left: the first region that contains the address.  A read behind the array is undefined. *)
Fixpoint region_loop (n : nat) (i : Z) (c : memory_map_ctx_t) (addr : Z) : MS (option memory_region_t) :=
  match n with
  | O => mret None
  | S n => r ← of_option (regions c !! Z.to_nat i); if in_region r addr then mret (Some r) else region_loop n (i + 1) c addr
  end.
Definition find_region (c : memory_map_ctx_t) (addr : Z) : MS (option memory_region_t) := region_loop (Z.to_nat (region_count c)) 0 c addr.
Definition memory_map_is_address_valid (addr : Z) : MS bool :=
  with_ctx false (fun c => r ← find_region c addr; mret (match r with Some _ => true | None => false end)).
Definition memory_map_get_region_type (addr : Z) : MS memory_type_t :=
  with_ctx MEM_TYPE_FLASH (fun c => r ← find_region c addr; mret (match r with Some r => mem_type r | None => MEM_TYPE_FLASH end)).
Definition memory_map_get_access (addr : Z) : MS memory_access_t :=
  with_ctx MEM_ACCESS_NONE (fun c => r ← find_region c addr; mret (match r with Some r => access r | None => MEM_ACCESS_NONE end)).
Definition memory_map_is_in_flash (addr : Z) : MS bool := t ← memory_map_get_region_type addr; mret (eqb_type t MEM_TYPE_FLASH).
Definition memory_map_is_in_sram (addr : Z) : MS bool := t ← memory_map_get_region_type addr; mret (eqb_type t MEM_TYPE_SRAM || eqb_type t MEM_TYPE_CCMRAM).
Definition memory_map_is_in_peripheral (addr : Z) : MS bool := t ← memory_map_get_region_type addr; mret (eqb_type t MEM_TYPE_PERIPH).

(** ** Sections, boot vector and counters *)

Definition memory_map_configure_section (sec : memory_section_t) (load run sz align : Z) (initialized zeroed : bool) : MS unit :=
  with_ctx tt (fun c =>
    if MEM_SECTION_COUNT <=? sec then mret tt
    else set_ctx (MapCtx (<[Z.to_nat sec := LinkerSection sec NULL load run sz align initialized zeroed]> (sections c)) (regions c) (region_count c) (boot_vector c) (is_valid c))).
Definition memory_map_set_boot_vector (sp handler : Z) : MS unit :=
  with_ctx tt (fun c => set_ctx (MapCtx (sections c) (regions c) (region_count c) (BootVector sp handler) (is_valid c))).
Definition memory_map_get_section_addr (sec : memory_section_t) : MS Z :=
  with_ctx 0 (fun c => if MEM_SECTION_COUNT <=? sec then mret 0 else s ← of_option (sections c !! Z.to_nat sec); mret (run_addr s)).
Definition memory_map_get_section_size (sec : memory_section_t) : MS Z :=
  with_ctx 0 (fun c => if MEM_SECTION_COUNT <=? sec then mret 0 else s ← of_option (sections c !! Z.to_nat sec); mret (sec_size s)).
Definition memory_map_get_free_sram : MS Z := n ← gets s_sram_allocated; mret (SRAM_SIZE_DEFAULT -32 n).
Definition memory_map_get_free_flash : MS Z := n ← gets s_flash_allocated; mret (FLASH_SIZE_DEFAULT -32 n).
Definition memory_map_get_partition : MS Z :=
  f ← gets s_flash_allocated; s ← gets s_sram_allocated; mret (Z.lor (Z.lor 0 (u32 (Z.shiftl (Z.land f 0xFFFF) 16))) (Z.land s 0xFFFF)).

(** The names of the regions: where the strings lie. *)
Definition memory_map_init (names : Z -> Z) : MS unit :=
  with_ctx tt (fun _ =>
    modify (fun _ => MapState (Some zero_ctx) 0 0);;
    memory_map_configure_section MEM_SECTION_TEXT 0x08000000 0x08000000 0x00004000 256 false false;;
    memory_map_configure_section MEM_SECTION_RODATA 0x08004000 0x08004000 0x00002000 64 false false;;
    memory_map_configure_section MEM_SECTION_DATA 0x08006000 0x20000000 0x00000800 64 true false;;
    memory_map_configure_section MEM_SECTION_BSS 0x00000000 0x20000800 0x00000400 64 false true;;
    memory_map_configure_section MEM_SECTION_HEAP 0x00000000 0x20000C00 0x00010000 8 false true;;
    memory_map_configure_section MEM_SECTION_STACK 0x00000000 0x20020C00 0x00001000 8 false true;;
    memory_map_add_region (names 0) FLASH_BASE FLASH_SIZE_DEFAULT MEM_TYPE_FLASH MEM_ACCESS_RX false false;;
    memory_map_add_region (names 1) SRAM_BASE SRAM_SIZE_DEFAULT MEM_TYPE_SRAM MEM_ACCESS_RW true true;;
    memory_map_add_region (names 2) CCMRAM_BASE CCMRAM_SIZE_DEFAULT MEM_TYPE_CCMRAM MEM_ACCESS_RW true false;;
    memory_map_add_region (names 3) AHB1_PERIPH_BASE AHB1_PERIPH_SIZE MEM_TYPE_PERIPH MEM_ACCESS_RW false false;;
    memory_map_add_region (names 4) APB1_PERIPH_BASE APB1_PERIPH_SIZE MEM_TYPE_PERIPH MEM_ACCESS_RW false false;;
    memory_map_add_region (names 5) APB2_PERIPH_BASE APB2_PERIPH_SIZE MEM_TYPE_PERIPH MEM_ACCESS_RW false false;;
    memory_map_set_boot_vector (SRAM_BASE +32 SRAM_SIZE_DEFAULT) NULL;;
    with_ctx tt (fun c => set_ctx (MapCtx (sections c) (regions c) (region_count c) (boot_vector c) true))).

(** ** Bit-banding *)

Section bitband.
Context {D : Type} `{Bus D}.
Definition bitband_write (addr bit : Z) (value : bool) : M D unit :=
  if 31 <? bit then mret tt
  else if (BITBAND_SRAM_REF <=? addr) && (addr <? BITBAND_SRAM_REF +32 SRAM_SIZE_DEFAULT) then store (BITBAND_SRAM_ADDR addr bit) (if value then 1 else 0)
  else if (BITBAND_PERIPH_REF <=? addr) && (addr <? BITBAND_PERIPH_REF +32 0x00100000) then store (BITBAND_PERIPH_ADDR addr bit) (if value then 1 else 0)
  else mret tt.
Definition bitband_read (addr bit : Z) : M D bool :=
  if 31 <? bit then mret false
  else if (BITBAND_SRAM_REF <=? addr) && (addr <? BITBAND_SRAM_REF +32 SRAM_SIZE_DEFAULT) then v ← load (BITBAND_SRAM_ADDR addr bit); mret (negb (v =? 0))
  else if (BITBAND_PERIPH_REF <=? addr) && (addr <? BITBAND_PERIPH_REF +32 0x00100000) then v ← load (BITBAND_PERIPH_ADDR addr bit); mret (negb (v =? 0))
  else mret false.
End bitband.

(** ** The first region that contains an address *)

Definition in_use (c : memory_map_ctx_t) : list memory_region_t := take (Z.to_nat (region_count c)) (regions c).
Definition lookup_region (rs : list memory_region_t) (addr : Z) : option memory_region_t := List.find (fun r => in_region r addr) rs.
Lemma region_loop_run c addr s n i : 0 <= i -> (Z.to_nat i + n <= length (regions c))%nat -> region_loop n i c addr s = Done (lookup_region (take n (drop (Z.to_nat i) (regions c))) addr, s).
Proof.
  revert i. induction n as [|n IH]; intros i Hi Hn; cbn [region_loop]; [done|].
  destruct (lookup_lt_is_Some_2 (regions c) (Z.to_nat i)) as [r Hr]; [lia|]. unfold of_option. rewrite Hr, bind_ret. rewrite (drop_S _ r) by done. cbn [take lookup_region List.find].
  destruct (in_region r addr); [done|]. rewrite IH by lia. unfold lookup_region. by replace (Z.to_nat (i + 1)) with (S (Z.to_nat i)) by lia.
Qed.
Lemma find_region_run c addr s : (Z.to_nat (region_count c) <= length (regions c))%nat -> find_region c addr s = Done (lookup_region (in_use c) addr, s).
Proof. intros H. unfold find_region. rewrite region_loop_run by (try done; lia). by rewrite drop_0. Qed.

(** What the queries answer about an address for which the lookup gives [r]. *)
Definition answers (s : map_state) (addr : Z) (r : option memory_region_t) : Prop :=
  memory_map_is_address_valid addr s = Done (bool_decide (is_Some r), s) /\
  memory_map_get_region_type addr s = Done (from_option mem_type MEM_TYPE_FLASH r, s) /\
  memory_map_get_access addr s = Done (from_option access MEM_ACCESS_NONE r, s) /\
  memory_map_is_in_flash addr s = Done (eqb_type (from_option mem_type MEM_TYPE_FLASH r) MEM_TYPE_FLASH, s) /\
  memory_map_is_in_sram addr s = Done (eqb_type (from_option mem_type MEM_TYPE_FLASH r) MEM_TYPE_SRAM || eqb_type (from_option mem_type MEM_TYPE_FLASH r) MEM_TYPE_CCMRAM, s) /\
  memory_map_is_in_peripheral addr s = Done (eqb_type (from_option mem_type MEM_TYPE_FLASH r) MEM_TYPE_PERIPH, s).
Lemma answers_lookup s c addr : ctx s = Some c -> (Z.to_nat (region_count c) <= length (regions c))%nat -> answers s addr (lookup_region (in_use c) addr).
Proof.
  intros Hc Hn. pose proof (find_region_run c addr s Hn) as E. unfold answers, memory_map_is_in_flash, memory_map_is_in_sram, memory_map_is_in_peripheral.
  assert (memory_map_get_region_type addr s = Done (from_option mem_type MEM_TYPE_FLASH (lookup_region (in_use c) addr), s)) as T.
  { unfold memory_map_get_region_type, with_ctx. rewrite bind_gets, Hc. erewrite bind_step by exact E. by destruct (lookup_region (in_use c) addr). }
  rewrite !(bind_step _ _ _ _ _ T). split; [|split; [exact T|split; [|done]]].
  - unfold memory_map_is_address_valid, with_ctx. rewrite bind_gets, Hc. erewrite bind_step by exact E. destruct (lookup_region (in_use c) addr); [by rewrite bool_decide_true|]. rewrite bool_decide_false; [done|]. by intros [? ?].
  - unfold memory_map_get_access, with_ctx. rewrite bind_gets, Hc. erewrite bind_step by exact E. by destruct (lookup_region (in_use c) addr).
Qed.

(** ** Calls *)

Inductive map_call :=
| CInit (names : Z -> Z) | CAdd (nm start sz : Z) (type : memory_type_t) (acc : memory_access_t) (cached bufferable : bool)
| CSection (sec : memory_section_t) (load run sz align : Z) (initialized zeroed : bool) | CBoot (sp handler : Z).
Definition run_map_call (k : map_call) : MS unit :=
  match k with
  | CInit names => memory_map_init names
  | CAdd nm start sz type acc cached bufferable => memory_map_add_region nm start sz type acc cached bufferable
  | CSection sec load run sz align initialized zeroed => memory_map_configure_section sec load run sz align initialized zeroed
  | CBoot sp handler => memory_map_set_boot_vector sp handler
  end.
Fixpoint run_map_calls (ks : list map_call) : MS unit := match ks with [] => mret tt | k :: ks => run_map_call k;; run_map_calls ks end.
Definition is_init (k : map_call) : bool := match k with CInit _ => true | _ => false end.

Definition ctx_wf (c : memory_map_ctx_t) : Prop := length (sections c) = 6%nat /\ length (regions c) = 8%nat /\ 0 <= region_count c <= 8.
Definition map_wf (s : map_state) : Prop := s_flash_allocated s = 0 /\ s_sram_allocated s = 0 /\ from_option ctx_wf True (ctx s).
(** The regions of the first state are the first regions of the second. *)
Definition extends (s s' : map_state) : Prop :=
  match ctx s, ctx s' with None, None => True | Some c, Some c' => in_use c `prefix_of` in_use c' | _, _ => False end.
#[export] Instance extends_preorder : PreOrder extends.
Proof.
  split.
  - intros s. unfold extends. by destruct (ctx s).
  - intros s1 s2 s3. unfold extends. destruct (ctx s1), (ctx s2), (ctx s3); try done. apply transitivity.
Qed.
Lemma in_use_add c r : (Z.to_nat (region_count c) < length (regions c))%nat -> 0 <= region_count c ->
  take (Z.to_nat (region_count c + 1)) (<[Z.to_nat (region_count c) := r]> (regions c)) = in_use c ++ [r].
Proof.
  intros Hn Hc. replace (Z.to_nat (region_count c + 1)) with (S (Z.to_nat (region_count c))) by lia. unfold in_use.
  rewrite (take_S_r _ _ r) by (by apply list_lookup_insert_eq). by rewrite take_insert_ge.
Qed.
(** The map after initialisation. *)
Definition init_regions (names : Z -> Z) : list memory_region_t := [
  Region (names 0) 0x08000000 0x100000 MEM_TYPE_FLASH MEM_ACCESS_RX false false; Region (names 1) 0x20000000 0x30000 MEM_TYPE_SRAM MEM_ACCESS_RW true true;
  Region (names 2) 0x10000000 0x10000 MEM_TYPE_CCMRAM MEM_ACCESS_RW true false; Region (names 3) 0x40000000 0x20000 MEM_TYPE_PERIPH MEM_ACCESS_RW false false;
  Region (names 4) 0x40000000 0x10000 MEM_TYPE_PERIPH MEM_ACCESS_RW false false; Region (names 5) 0x40010000 0x10000 MEM_TYPE_PERIPH MEM_ACCESS_RW false false].
Definition init_sections : list linker_section_t := [
  LinkerSection MEM_SECTION_TEXT NULL 0x08000000 0x08000000 0x4000 256 false false; LinkerSection MEM_SECTION_RODATA NULL 0x08004000 0x08004000 0x2000 64 false false;
  LinkerSection MEM_SECTION_DATA NULL 0x08006000 0x20000000 0x800 64 true false; LinkerSection MEM_SECTION_BSS NULL 0 0x20000800 0x400 64 false true;
  LinkerSection MEM_SECTION_HEAP NULL 0 0x20000C00 0x10000 8 false true; LinkerSection MEM_SECTION_STACK NULL 0 0x20020C00 0x1000 8 false true].
Definition init_ctx (names : Z -> Z) : memory_map_ctx_t := MapCtx init_sections (init_regions names ++ [zero_region; zero_region]) 6 (BootVector 0x20030000 NULL) true.
Lemma map_init_run names c f a : memory_map_init names (MapState (Some c) f a) = Done (tt, MapState (Some (init_ctx names)) 0 0).
Proof. vm_compute. reflexivity. Qed.
Lemma map_call_step k s : map_wf s -> exists s', run_map_call k s = Done (tt, s') /\ map_wf s' /\ (is_init k = false -> extends s s').
Proof.
  intros (F & A & W). destruct k as [names|nm start sz type acc cached buf|sec load run sz align ini zer|sp h]; cbn [run_map_call is_init].
  - destruct s as [[c|] f a].
    + rewrite map_init_run. eexists. split; [reflexivity|]. split; [|done]. split; [done|]. split; [done|]. unfold ctx_wf. cbn. lia.
    + by exists (MapState None f a).
  - unfold memory_map_add_region, with_ctx. rewrite bind_gets. destruct (ctx s) as [c|] eqn:E; [|exists s; unfold map_wf, extends; by rewrite E].
    cbn [from_option] in W. pose proof W as (Ws & Wr & Wn). destruct (Z.leb_spec MAX_REGIONS (region_count c)) as [Hge|Hlt]; [exists s; unfold map_wf, extends; by rewrite E|]. unfold MAX_REGIONS in *.
    eexists. split; [reflexivity|]. split; [split; [done|]; split; [done|]; unfold ctx_wf; cbn; rewrite length_insert; split; [done|]; split; [done|]; lia|]. intros _. unfold extends. rewrite E. cbn [ctx in_use region_count regions].
    unfold in_use at 2. cbn [region_count regions]. rewrite in_use_add by lia. by eexists.
  - unfold memory_map_configure_section, with_ctx. rewrite bind_gets. destruct (ctx s) as [c|] eqn:E; [|exists s; unfold map_wf, extends; by rewrite E].
    destruct (MEM_SECTION_COUNT <=? sec); [exists s; unfold map_wf, extends; by rewrite E|]. cbn [from_option] in W. destruct W as (Ws & Wr & Wn).
    eexists. split; [reflexivity|]. split; [split; [done|]; split; [done|]; unfold ctx_wf; cbn; by rewrite length_insert|]. intros _. unfold extends. rewrite E. exact (reflexivity (in_use c)).
  - unfold memory_map_set_boot_vector, with_ctx. rewrite bind_gets. destruct (ctx s) as [c|] eqn:E; [|exists s; unfold map_wf, extends; by rewrite E].
    eexists. split; [reflexivity|]. split; [by split|]. intros _. unfold extends. rewrite E. exact (reflexivity (in_use c)).
Qed.
Lemma map_calls_run ks s : map_wf s -> exists s', run_map_calls ks s = Done (tt, s') /\ map_wf s' /\ (forallb (fun k => negb (is_init k)) ks = true -> extends s s').
Proof.
  revert s. induction ks as [|k ks IH]; intros s Hs; cbn [run_map_calls forallb]; [by exists s|]. destruct (map_call_step k s Hs) as (s1 & E1 & W1 & X1). destruct (IH s1 W1) as (s2 & E2 & W2 & X2).
  exists s2. split; [by erewrite bind_step by exact E1|]. split; [done|]. intros [H1%negb_true_iff H2]%andb_true_iff. etrans; [by apply X1|by apply X2].
Qed.
Lemma lookup_prefix rs rs' addr r : rs `prefix_of` rs' -> lookup_region rs addr = Some r -> lookup_region rs' addr = Some r.
Proof. intros [l ->]. unfold lookup_region. induction rs as [|x rs IH]; cbn [List.find app]; [done|]. by destruct (in_region x addr). Qed.

(** No sequence of calls fails or goes beyond the eight regions and six sections.  As long as the map is not initialised again, every address that a region contained keeps its answers:
    regions are only appended, and the first one that contains an address decides.  Nothing is ever counted as allocated: the free memory is always all of it. *)
Theorem map_calls_correct ks s :
  map_wf s ->
  exists s', run_map_calls ks s = Done (tt, s') /\ map_wf s' /\
    memory_map_get_free_sram s' = Done (SRAM_SIZE_DEFAULT, s') /\ memory_map_get_free_flash s' = Done (FLASH_SIZE_DEFAULT, s') /\ memory_map_get_partition s' = Done (0, s') /\
    (forallb (fun k => negb (is_init k)) ks = true -> forall c addr r, ctx s = Some c -> lookup_region (in_use c) addr = Some r -> answers s addr (Some r) /\ answers s' addr (Some r)).
Proof.
  intros Hs. destruct (map_calls_run ks s Hs) as (s' & E & W & X). exists s'. split; [done|]. split; [done|]. pose proof W as (F & A & Wc).
  split; [unfold memory_map_get_free_sram; by rewrite bind_gets, A|]. split; [unfold memory_map_get_free_flash; by rewrite bind_gets, F|].
  split; [unfold memory_map_get_partition; by rewrite !bind_gets, A, F|].
  intros Hk c addr r Hc Hr. specialize (X Hk). destruct Hs as (_ & _ & Ws). rewrite Hc in Ws. unfold extends in X. rewrite Hc in X. destruct (ctx s') as [c'|] eqn:E'; [|done].
  destruct Ws as (_ & L & B), Wc as (_ & L' & B'). split; [rewrite <- Hr|rewrite <- (lookup_prefix _ _ addr r X Hr)]; apply answers_lookup; done || lia.
Qed.

(** ** The map after initialisation *)

(** The address ranges that initialisation describes. *)
Definition described (addr : Z) : option (memory_type_t * memory_access_t) :=
  if (0x08000000 <=? addr) && (addr <? 0x08100000) then Some (MEM_TYPE_FLASH, MEM_ACCESS_RX)
  else if (0x20000000 <=? addr) && (addr <? 0x20030000) then Some (MEM_TYPE_SRAM, MEM_ACCESS_RW)
  else if (0x10000000 <=? addr) && (addr <? 0x10010000) then Some (MEM_TYPE_CCMRAM, MEM_ACCESS_RW)
  else if (0x40000000 <=? addr) && (addr <? 0x40020000) then Some (MEM_TYPE_PERIPH, MEM_ACCESS_RW) else None.
Lemma lookup_init names addr : (fun r => (mem_type r, access r)) <$> lookup_region (in_use (init_ctx names)) addr = described addr.
Proof.
  change (in_use (init_ctx names)) with (init_regions names). unfold init_regions, lookup_region, in_region, described. cbn [List.find start_addr size].
  rewrite (u32_small (0x08000000 + _)), (u32_small (0x20000000 + _)), (u32_small (0x10000000 + _)), (u32_small (0x40000000 + 0x20000)), (u32_small (0x40000000 + 0x10000)), (u32_small (0x40010000 + _)) by lia.
  change (0x08000000 + 0x100000) with 0x08100000. change (0x20000000 + 0x30000) with 0x20030000. change (0x10000000 + 0x10000) with 0x10010000. change (0x40000000 + 0x20000) with 0x40020000.
  do 3 (destruct (_ && _); [done|]). assert (forall a b, (a <=? addr) && (addr <? b) = bool_decide (a <= addr < b)) as B.
  { intros a b. apply eq_true_iff_eq. rewrite andb_true_iff, bool_decide_eq_true, Z.leb_le, Z.ltb_lt. done. }
  rewrite !B. do 3 (case_bool_decide; [done || lia|]). done.
Qed.

(** After initialisation the queries know flash, both memories and the peripherals, each range with its type and access and nothing else.  But the type of an address that is in no range
    is flash: such an address is reported to be in flash while it is neither valid nor accessible. *)
Theorem memory_map_init_correct names s addr :
  is_Some (ctx s) -> is_u32 addr ->
  exists s', memory_map_init names s = Done (tt, s') /\
    memory_map_is_address_valid addr s' = Done (bool_decide (is_Some (described addr)), s') /\
    memory_map_get_region_type addr s' = Done (from_option fst MEM_TYPE_FLASH (described addr), s') /\
    memory_map_get_access addr s' = Done (from_option snd MEM_ACCESS_NONE (described addr), s') /\
    (described addr = None -> memory_map_is_in_flash addr s' = Done (true, s')).
Proof.
  intros [c Hc] Ha. destruct s as [[c'|] f a]; [|done]. eexists. split; [apply map_init_run|]. set (s' := MapState _ _ _).
  destruct (answers_lookup s' (init_ctx names) addr eq_refl ltac:(cbn; lia)) as (V & T & A & F & _). rewrite V, T, A, F. rewrite <- (lookup_init names addr). destruct (lookup_region _ addr) as [r|]; cbn [fmap option_fmap option_map from_option]; [|done].
  split; [by rewrite !bool_decide_true|]. done.
Qed.

(** Running sections as address ranges. *)
Definition run_range (s : linker_section_t) : Z * Z := (run_addr s, run_addr s + sec_size s).
Definition apart (x y : Z * Z) : Prop := x.2 <= y.1 \/ y.2 <= x.1.
(** The sections lie apart from each other, where they run and where they are loaded from, inside the memories of their kind.  But the stack pointer of the boot vector is the end of the memory, 0xE400 bytes
    above the end of the section that the map keeps for the stack, and the reset handler is NULL. *)
Theorem init_layout_correct names s :
  is_Some (ctx s) ->
  exists s' c, memory_map_init names s = Done (tt, s') /\ ctx s' = Some c /\ is_valid c = true /\
    (forall i j x y, i <> j -> sections c !! i = Some x -> sections c !! j = Some y -> apart (run_range x) (run_range y)) /\
    (forall i, 0 <= i < 6 -> exists x, sections c !! Z.to_nat i = Some x /\ memory_map_get_section_addr i s' = Done (run_addr x, s') /\ memory_map_get_section_size i s' = Done (sec_size x, s') /\
       described (run_addr x) = described (run_addr x + sec_size x - 1) /\ fst <$> described (run_addr x) = Some (if i <? 2 then MEM_TYPE_FLASH else MEM_TYPE_SRAM)) /\
    (exists st, sections c !! 5%nat = Some st /\ stack_pointer (boot_vector c) = run_addr st + sec_size st + 0xE400 /\ reset_handler (boot_vector c) = NULL).
Proof.
  intros [c Hc]. destruct s as [[c'|] f a]; [|done]. eexists _, _. split; [apply map_init_run|]. split; [done|]. split; [done|]. split; [|split].
  - cbn [init_ctx sections]. intros i j x y Hij Hx Hy. assert (i < 6 /\ j < 6)%nat as [Hi Hj] by (split; [by apply lookup_lt_Some in Hx|by apply lookup_lt_Some in Hy]).
    do 6 (destruct i as [|i]; [do 6 (destruct j as [|j]; [try done; injection Hx as <-; injection Hy as <-; unfold apart; cbn; lia|]); lia|]). lia.
  - intros i Hi. assert (i = 0 \/ i = 1 \/ i = 2 \/ i = 3 \/ i = 4 \/ i = 5) as [->|[->|[->|[->|[->| ->]]]]] by lia; eexists; repeat split; reflexivity.
  - eexists. repeat split; reflexivity.
Qed.

(** ** Bit-banding *)

(** A memory whose bits have alias words: bit [n] of a region of 1 MB is the word [4 * n] bytes into the alias of the region. *)
Class BitBand (D : Type) `{Bus D} (bit : Z -> Z -> D -> bool) : Prop := {
  alias_write base ref n v a k d : (base, ref) ∈ [(BITBAND_SRAM_BASE, BITBAND_SRAM_REF); (BITBAND_PERIPH_BASE, BITBAND_PERIPH_REF)] -> 0 <= n < 0x800000 -> is_u32 v -> 0 <= k < 8 ->
    bit a k (bus_write (base + 4 * n) v d) = if (a =? ref + n / 8) && (k =? n mod 8) then Z.testbit v 0 else bit a k d;
  alias_read base ref n d : (base, ref) ∈ [(BITBAND_SRAM_BASE, BITBAND_SRAM_REF); (BITBAND_PERIPH_BASE, BITBAND_PERIPH_REF)] -> 0 <= n < 0x800000 ->
    bus_read (base + 4 * n) d = (b2z (bit (ref + n / 8) (n mod 8) d), d) }.

Definition mapped (addr : Z) : bool :=
  (BITBAND_SRAM_REF <=? addr) && (addr <? BITBAND_SRAM_REF + SRAM_SIZE_DEFAULT) || (BITBAND_PERIPH_REF <=? addr) && (addr <? BITBAND_PERIPH_REF + 0x00100000).
(** Bit [k] of the word at [addr]; its last bits do not lie behind the peripheral region. *)
Definition access_ok (addr k : Z) : Prop := is_u32 addr /\ is_u8 k /\ (addr < BITBAND_PERIPH_REF + 0x00100000 -> addr + k / 8 < BITBAND_PERIPH_REF + 0x00100000).
Fixpoint run_writes {D} `{Bus D} (ws : list (Z * Z * bool)) : M D unit := match ws with [] => mret tt | (addr, k, v) :: ws => bitband_write addr k v;; run_writes ws end.
(** A write changes one bit of one byte. *)
Definition spec_write (a j : Z) (x : bool) '(addr, k, v) : bool := if (k <=? 31) && mapped addr && (a =? addr + k / 8) && (j =? k mod 8) then v else x.

Section bitband_refinement.
Context {D : Type} `{Hbus : Bus D} (bit : Z -> Z -> D -> bool) `{!BitBand D bit}.
Lemma bitband_access addr k : access_ok addr k -> k <= 31 -> mapped addr = true ->
  exists base ref n, (base, ref) ∈ [(BITBAND_SRAM_BASE, BITBAND_SRAM_REF); (BITBAND_PERIPH_BASE, BITBAND_PERIPH_REF)] /\ 0 <= n < 0x800000 /\ ref + n / 8 = addr + k / 8 /\ n mod 8 = k mod 8 /\
    (forall v, bitband_write addr k v = store (base + 4 * n) (if v then 1 else 0)) /\ bitband_read addr k = (v ← load (base + 4 * n); mret (negb (v =? 0))).
Proof.
  intros (Ha & Hk & Hend) Hk31 Hm. unfold is_u32, is_u8, mapped in *.
  assert (BITBAND_SRAM_REF +32 SRAM_SIZE_DEFAULT = BITBAND_SRAM_REF + SRAM_SIZE_DEFAULT) as E1 by reflexivity. assert (BITBAND_PERIPH_REF +32 1048576 = BITBAND_PERIPH_REF + 1048576) as E2 by reflexivity.
  destruct ((BITBAND_SRAM_REF <=? addr) && (addr <? BITBAND_SRAM_REF + SRAM_SIZE_DEFAULT)) eqn:ES.
  - pose proof ES as [L1%Z.leb_le L2%Z.ltb_lt]%andb_true_iff. unfold SRAM_SIZE_DEFAULT in L2. unfold BITBAND_SRAM_REF in L1, L2. exists BITBAND_SRAM_BASE, BITBAND_SRAM_REF, ((addr - 0x20000000) * 8 + k).
    split; [by left|]. split; [lia|]. split; [unfold BITBAND_SRAM_REF; Z.div_mod_to_equations; lia|]. split; [Z.div_mod_to_equations; lia|].
    assert (BITBAND_SRAM_ADDR addr k = BITBAND_SRAM_BASE + 4 * ((addr - 0x20000000) * 8 + k)) as <-.
    { unfold BITBAND_SRAM_ADDR, BITBAND_SRAM_BASE, BITBAND_SRAM_REF. rewrite (u32_small (addr - _)) by lia. rewrite u32_small by lia. lia. }
    unfold bitband_write, bitband_read. rewrite E1, ES. destruct (Z.ltb_spec 31 k); [lia|]. done.
  - cbn [orb] in Hm. pose proof Hm as [L1%Z.leb_le L2%Z.ltb_lt]%andb_true_iff. specialize (Hend L2). unfold BITBAND_PERIPH_REF in L1, L2, Hend. exists BITBAND_PERIPH_BASE, BITBAND_PERIPH_REF, ((addr - 0x40000000) * 8 + k).
    split; [by right; left|]. split; [Z.div_mod_to_equations; lia|]. split; [unfold BITBAND_PERIPH_REF; Z.div_mod_to_equations; lia|]. split; [Z.div_mod_to_equations; lia|].
    assert (BITBAND_PERIPH_ADDR addr k = BITBAND_PERIPH_BASE + 4 * ((addr - 0x40000000) * 8 + k)) as <-.
    { unfold BITBAND_PERIPH_ADDR, BITBAND_PERIPH_BASE, BITBAND_PERIPH_REF. rewrite (u32_small (addr - _)) by lia. rewrite u32_small by lia. lia. }
    unfold bitband_write, bitband_read. rewrite E1, E2, ES, Hm. destruct (Z.ltb_spec 31 k); [lia|]. done.
Qed.
Lemma bitband_refused addr k : (k <=? 31) && mapped addr = false -> (forall v d, bitband_write addr k v d = Done (tt, d)) /\ forall d, bitband_read addr k d = Done (false, d).
Proof.
  intros H. unfold bitband_write, bitband_read. change (BITBAND_SRAM_REF +32 SRAM_SIZE_DEFAULT) with (BITBAND_SRAM_REF + SRAM_SIZE_DEFAULT). change (BITBAND_PERIPH_REF +32 1048576) with (BITBAND_PERIPH_REF + 1048576).
  destruct (Z.ltb_spec 31 k); [done|]. destruct (Z.leb_spec k 31); [|lia]. cbn [andb] in H. unfold mapped in H. apply orb_false_iff in H as [-> ->]. done.
Qed.
Lemma bitband_write_run addr k v d : access_ok addr k -> exists d', bitband_write addr k v d = Done (tt, d') /\ forall a j, 0 <= j < 8 -> bit a j d' = spec_write a j (bit a j d) (addr, k, v).
Proof.
  intros Ho. cbn [spec_write]. destruct ((k <=? 31) && mapped addr) eqn:E; [|exists d; split; [by apply bitband_refused|done]]. apply andb_true_iff in E as [Hk%Z.leb_le Hm].
  destruct (bitband_access addr k Ho Hk Hm) as (base & ref & n & Hr & Hn & E1 & E2 & W & _). rewrite W. eexists. split; [reflexivity|]. intros a j Hj.
  rewrite (alias_write _ ref) by (done || apply u32_range). rewrite E1, E2. cbn [andb]. destruct (_ && _); [by destruct v|done].
Qed.
Lemma bitband_read_run addr k d : access_ok addr k -> bitband_read addr k d = Done (if (k <=? 31) && mapped addr then bit (addr + k / 8) (k mod 8) d else false, d).
Proof.
  intros Ho. destruct ((k <=? 31) && mapped addr) eqn:E; [|by apply bitband_refused]. apply andb_true_iff in E as [Hk%Z.leb_le Hm].
  destruct (bitband_access addr k Ho Hk Hm) as (base & ref & n & Hr & Hn & E1 & E2 & _ & R). rewrite R. unfold load, mbind, M_bind. rewrite (alias_read _ ref) by done. rewrite E1, E2. by destruct (bit _ _ d).
Qed.

(** C27: bit-band writes change exactly the bits they name: after any sequence of them every bit of the memory is what the writes that name it make of it, and reading a bit gives its value.
    Bit numbers over 31 and addresses outside of the two regions are refused; a bit number from 8 on is a bit of a following byte. *)
Theorem bitband_refines ws d :
  Forall (fun '(addr, k, _) => access_ok addr k) ws ->
  exists d', run_writes ws d = Done (tt, d') /\ (forall a j, 0 <= j < 8 -> bit a j d' = foldl (spec_write a j) (bit a j d) ws) /\
    forall addr k, access_ok addr k -> bitband_read addr k d' = Done (if (k <=? 31) && mapped addr then bit (addr + k / 8) (k mod 8) d' else false, d').
Proof.
  intros Hw. assert (exists d', run_writes ws d = Done (tt, d') /\ forall a j, 0 <= j < 8 -> bit a j d' = foldl (spec_write a j) (bit a j d) ws) as (d' & E & F).
  { revert d. induction Hw as [|[[addr k] v] ws Ho Hw IH]; intros d; cbn [run_writes foldl]; [by exists d|]. destruct (bitband_write_run addr k v d Ho) as (d1 & E1 & F1). destruct (IH d1) as (d2 & E2 & F2).
    exists d2. split; [by erewrite bind_step by exact E1|]. intros a j Hj. by rewrite F2, F1. }
  exists d'. split; [done|]. split; [done|]. intros addr k Ho. by apply bitband_read_run.
Qed.
End bitband_refinement.

(** ** Instances and concrete runs *)

(** The bits of the two regions. *)
Definition bits : Type := Z -> Z -> bool.
Definition alias_of (a : Z) : option (Z * Z) :=
  if (BITBAND_SRAM_BASE <=? a) && (a <? BITBAND_SRAM_BASE + 0x2000000) then Some (BITBAND_SRAM_REF + (a - BITBAND_SRAM_BASE) / 4 / 8, (a - BITBAND_SRAM_BASE) / 4 mod 8)
  else if (BITBAND_PERIPH_BASE <=? a) && (a <? BITBAND_PERIPH_BASE + 0x2000000) then Some (BITBAND_PERIPH_REF + (a - BITBAND_PERIPH_BASE) / 4 / 8, (a - BITBAND_PERIPH_BASE) / 4 mod 8) else None.
#[export] Instance bits_bus : Bus bits := {|
  bus_read a d := (match alias_of a with Some (b, k) => b2z (d b k) | None => 0 end, d);
  bus_write a v d := match alias_of a with Some (b, k) => fun b' k' => if (b' =? b) && (k' =? k) then Z.testbit v 0 else d b' k' | None => d end;
  bus_read8 _ d := (0, d); bus_write8 _ _ d := d; bus_asm _ d := d; bus_ipsr _ := 0 |}.
Lemma alias_of_bit base ref n : (base, ref) ∈ [(BITBAND_SRAM_BASE, BITBAND_SRAM_REF); (BITBAND_PERIPH_BASE, BITBAND_PERIPH_REF)] -> 0 <= n < 0x800000 -> alias_of (base + 4 * n) = Some (ref + n / 8, n mod 8).
Proof.
  intros Hr Hn. assert (forall b, b + 4 * n - b = n * 4) as Hs by (intros; lia). unfold alias_of. apply elem_of_cons in Hr as [[= -> ->]|[[= -> ->]|Hr]%elem_of_cons]; [| |by apply elem_of_nil in Hr]; rewrite !Hs, Z.div_mul by lia.
  - replace (_ && _) with true by (symmetry; apply andb_true_iff; rewrite Z.leb_le, Z.ltb_lt; lia). done.
  - replace ((BITBAND_SRAM_BASE <=? _) && _) with false by (symmetry; apply andb_false_iff; rewrite Z.leb_gt, Z.ltb_ge; unfold BITBAND_SRAM_BASE, BITBAND_PERIPH_BASE; lia).
    replace (_ && _) with true by (symmetry; apply andb_true_iff; rewrite Z.leb_le, Z.ltb_lt; lia). done.
Qed.
#[export] Instance bits_bitband : BitBand bits (fun a k d => d a k).
Proof. split; intros; cbn [bus_write bus_read bits_bus]; erewrite alias_of_bit by eassumption; done. Qed.

Lemma bitband_refines_witness :
  exists d', run_writes [(0x20000004, 9, true); (0x40010000, 3, true); (0x08000000, 1, true); (0x40010000, 3, false)] (fun _ _ => false : bool) = Done (tt, d') /\
    bitband_read 0x20000005 1 d' = Done (true, d') /\ bitband_read 0x40010000 3 d' = Done (false, d').
Proof.
  destruct (bitband_refines (fun a k (d : bits) => d a k) [(0x20000004, 9, true); (0x40010000, 3, true); (0x08000000, 1, true); (0x40010000, 3, false)] (fun _ _ => false)) as (d' & E & F & R).
  { unfold access_ok, is_u32, is_u8, BITBAND_PERIPH_REF. repeat constructor; (vm_compute; congruence) || lia. }
  exists d'. split; [exact E|]. split.
  - rewrite R by (unfold access_ok, is_u32, is_u8, BITBAND_PERIPH_REF; repeat split; (vm_compute; congruence) || lia). cbn [Z.leb]. rewrite F by (split; vm_compute; congruence). reflexivity.
  - rewrite R by (unfold access_ok, is_u32, is_u8, BITBAND_PERIPH_REF; repeat split; (vm_compute; congruence) || lia). rewrite F by (split; vm_compute; congruence). reflexivity.
Defined.
Definition demo_map : map_state := MapState (Some zero_ctx) 0 0.
Lemma map_calls_correct_witness : exists s', run_map_calls [CInit (fun i => i); CAdd 7 0x60000000 0x1000 MEM_TYPE_EXTERNAL MEM_ACCESS_RW false false; CBoot 0x20021C00 0x08000100] demo_map = Done (tt, s') /\
  memory_map_get_free_sram s' = Done (SRAM_SIZE_DEFAULT, s').
Proof.
  destruct (map_calls_correct [CInit (fun i => i); CAdd 7 0x60000000 0x1000 MEM_TYPE_EXTERNAL MEM_ACCESS_RW false false; CBoot 0x20021C00 0x08000100] demo_map) as (s' & E & _ & F & _).
  { split; [reflexivity|]. split; [reflexivity|]. repeat split; vm_compute; congruence. }
  exists s'. split; [exact E|exact F].
Defined.
Lemma memory_map_init_correct_witness : exists s', memory_map_init (fun i => i) demo_map = Done (tt, s') /\ memory_map_is_address_valid 0x30000000 s' = Done (false, s') /\ memory_map_is_in_flash 0x30000000 s' = Done (true, s').
Proof.
  destruct (memory_map_init_correct (fun i => i) demo_map 0x30000000) as (s' & E & V & _ & _ & F); [by eexists|split; vm_compute; congruence|]. exists s'. split; [exact E|]. split; [exact V|]. apply F. reflexivity.
Defined.
Lemma init_layout_correct_witness : exists s' c, memory_map_init (fun i => i) demo_map = Done (tt, s') /\ ctx s' = Some c /\ is_valid c = true.
Proof. destruct (init_layout_correct (fun i => i) demo_map) as (s' & c & E & C & V & _); [by eexists|]. exists s', c. split; [exact E|]. split; [exact C|exact V]. Defined.
