(* ===== verification/McuPeripheral.v ===== *)
(** * Peripherals (mini-mcu-embedded/src/mcu_peripheral.c)

    Timers, PWM, capture and encoder are registers; clock tree, CRC, real-time clock, watchdog, converter and power are static variables.  Nothing calls from one half into the other, so each has its
    own state.  The CRC unit is compared word by word with byte by byte, and its detection of errors is derived.  [adc_get_temperature] is left out: it is floating point. *)
From S2P Require Import Prelude Registers Crc32.

Definition TIM_CR1_OFFSET : Z := 0x00.
Definition TIM_SMCR_OFFSET : Z := 0x08.
Definition TIM_DIER_OFFSET : Z := 0x0C.
Definition TIM_SR_OFFSET : Z := 0x10.
Definition TIM_EGR_OFFSET : Z := 0x14.
Definition TIM_CCMR1_OFFSET : Z := 0x18.
Definition TIM_CCMR2_OFFSET : Z := 0x1C.
Definition TIM_CCER_OFFSET : Z := 0x20.
Definition TIM_CNT_OFFSET : Z := 0x24.
Definition TIM_PSC_OFFSET : Z := 0x28.
Definition TIM_ARR_OFFSET : Z := 0x2C.
Definition TIM_CCR1_OFFSET : Z := 0x34.
Definition TIM_CR1_CEN : Z := Z.shiftl 1 0.
Definition TIM_CR1_ARPE : Z := Z.shiftl 1 7.
Definition TIM_CR1_CKD_POS : Z := 8.
Definition TIM_SR_UIF : Z := Z.shiftl 1 0.
Definition TIM_EGR_UG : Z := Z.shiftl 1 0.
Definition TIM_CCER_CC1E : Z := Z.shiftl 1 0.
Definition TIM_CCER_CC1P : Z := Z.shiftl 1 1.
Definition TIM_CCMR_OC1M_POS : Z := 4.
Definition TIM_CHANNEL_1 : Z := 0x0.
Definition TIM_CHANNEL_2 : Z := 0x1.

(** Enumerators are their values. *)
Definition pwm_mode_t : Set := Z.
Definition pwm_output_t : Set := Z.
Definition PWM_OUTPUT_INVERTED : pwm_output_t := 1.
Definition timer_edge_t : Set := Z.
Definition encoder_mode_t : Set := Z.
Definition counter_mode_t : Set := Z.
Record timer_config_t := TimerConfig { tim_base : Z; prescaler : Z; period : Z; clock_division : Z; counter_mode : counter_mode_t; repetition_counter : Z; auto_reload_preload : bool }.
Record pwm_config_t := PwmConfig { pwm_base : Z; pwm_channel : Z; pwm_mode : pwm_mode_t; output_type : pwm_output_t; duty_cycle : Z; pwm_period : Z; output_enable : bool }.
Record capture_compare_config_t := CaptureConfig { cc_base : Z; input_channel : Z; output_channel : Z; input_edge : timer_edge_t; cc_prescaler : Z; cc_period : Z; dma_enable : bool }.
Record encoder_config_t := EncoderConfig { enc_base : Z; enc_mode : encoder_mode_t; counts_per_rev : Z; enc_prescaler : Z }.

Definition rtc_alarm_t : Set := Z.
Definition rtc_wakeup_clock_t : Set := Z.
Definition rtc_format_t : Set := Z.
Record rtc_calendar_t := Calendar { year : Z; month : Z; day : Z; weekday : Z; hour : Z; minute : Z; second : Z; rtc_format : rtc_format_t }.
Record rtc_alarm_config_t := AlarmConfig { alarm : rtc_alarm_t; alarm_hour : Z; alarm_minute : Z; alarm_second : Z; week_day_sel : bool; week_day : Z; alarm_format : rtc_format_t }.
Definition IWDG_TIMEOUT_MAX : Z := 0xFFF.
Definition ADC_CHANNEL_TEMP : Z := 16.
(** What [adc_init] reads of the configuration. *)
Record adc_config_t := AdcConfig { num_channels : Z; channels : option (list Z) }.
Definition power_mode_t : Set := Z.
Definition POWER_MODE_SLEEP : power_mode_t := 0x1.
Definition POWER_MODE_DEEPSLEEP : power_mode_t := 0x2.
Definition POWER_MODE_STANDBY : power_mode_t := 0x3.
Definition power_regulator_t : Set := Z.
Definition clock_source_t : Set := Z.
Definition clock_node_t : Set := Z.
Definition CLOCK_SYS : clock_node_t := 0.
Definition CLOCK_HCLK : clock_node_t := 1.
Definition CLOCK_PCLK1 : clock_node_t := 2.
Definition CLOCK_PCLK2 : clock_node_t := 3.
Definition CLOCK_PLL : clock_node_t := 4.
Definition CLOCK_PLL48 : clock_node_t := 5.
Definition CLOCK_TIM : clock_node_t := 6.
Definition pll_clock_source_t : Set := Z.
Record clock_config_t := ClockConfig { sysclk_source : clock_source_t; hclk_prescaler : Z; pclk1_prescaler : Z; pclk2_prescaler : Z; hse_enabled : bool; hse_freq_hz : Z;
  pll_enabled : bool; pll_source : pll_clock_source_t; pll_m : Z; pll_n : Z; pll_p : Z; pll_q : Z }.
Definition set_sysclk_source v c := ClockConfig v (hclk_prescaler c) (pclk1_prescaler c) (pclk2_prescaler c) (hse_enabled c) (hse_freq_hz c) (pll_enabled c) (pll_source c) (pll_m c) (pll_n c) (pll_p c) (pll_q c).
Definition set_hclk_prescaler v c := ClockConfig (sysclk_source c) v (pclk1_prescaler c) (pclk2_prescaler c) (hse_enabled c) (hse_freq_hz c) (pll_enabled c) (pll_source c) (pll_m c) (pll_n c) (pll_p c) (pll_q c).
Definition set_pclk1_prescaler v c := ClockConfig (sysclk_source c) (hclk_prescaler c) v (pclk2_prescaler c) (hse_enabled c) (hse_freq_hz c) (pll_enabled c) (pll_source c) (pll_m c) (pll_n c) (pll_p c) (pll_q c).
Definition set_pclk2_prescaler v c := ClockConfig (sysclk_source c) (hclk_prescaler c) (pclk1_prescaler c) v (hse_enabled c) (hse_freq_hz c) (pll_enabled c) (pll_source c) (pll_m c) (pll_n c) (pll_p c) (pll_q c).
Definition set_hse_enabled v c := ClockConfig (sysclk_source c) (hclk_prescaler c) (pclk1_prescaler c) (pclk2_prescaler c) v (hse_freq_hz c) (pll_enabled c) (pll_source c) (pll_m c) (pll_n c) (pll_p c) (pll_q c).
Definition set_pll_enabled v c := ClockConfig (sysclk_source c) (hclk_prescaler c) (pclk1_prescaler c) (pclk2_prescaler c) (hse_enabled c) (hse_freq_hz c) v (pll_source c) (pll_m c) (pll_n c) (pll_p c) (pll_q c).
Definition set_pll_source v c := ClockConfig (sysclk_source c) (hclk_prescaler c) (pclk1_prescaler c) (pclk2_prescaler c) (hse_enabled c) (hse_freq_hz c) (pll_enabled c) v (pll_m c) (pll_n c) (pll_p c) (pll_q c).
Definition set_pll m n p q c := ClockConfig (sysclk_source c) (hclk_prescaler c) (pclk1_prescaler c) (pclk2_prescaler c) (hse_enabled c) (hse_freq_hz c) (pll_enabled c) (pll_source c) m n p q.
(** The static variables. *)
Record statics := Statics { s_rtc_timestamp : Z; s_rtc_calendar : rtc_calendar_t; s_rtc_alarm_enabled : list bool; s_iwdg_counter : Z; s_iwdg_reload : Z; s_iwdg_enabled : bool; s_iwdg_reset_flagged : bool; s_adc_values : list Z; s_temp_sensor_enabled : bool; s_crc_result : Z; s_crc_polynomial : Z; s_power_mode : power_mode_t; s_power_regulator : power_regulator_t; s_backup_regulator_enabled : bool; s_clock_cfg : clock_config_t; s_periph_clocks_enabled : list Z }.
Definition set_s_rtc_timestamp v x := Statics v (s_rtc_calendar x) (s_rtc_alarm_enabled x) (s_iwdg_counter x) (s_iwdg_reload x) (s_iwdg_enabled x) (s_iwdg_reset_flagged x) (s_adc_values x) (s_temp_sensor_enabled x) (s_crc_result x) (s_crc_polynomial x) (s_power_mode x) (s_power_regulator x) (s_backup_regulator_enabled x) (s_clock_cfg x) (s_periph_clocks_enabled x).
Definition set_s_rtc_calendar v x := Statics (s_rtc_timestamp x) v (s_rtc_alarm_enabled x) (s_iwdg_counter x) (s_iwdg_reload x) (s_iwdg_enabled x) (s_iwdg_reset_flagged x) (s_adc_values x) (s_temp_sensor_enabled x) (s_crc_result x) (s_crc_polynomial x) (s_power_mode x) (s_power_regulator x) (s_backup_regulator_enabled x) (s_clock_cfg x) (s_periph_clocks_enabled x).
Definition set_s_rtc_alarm_enabled v x := Statics (s_rtc_timestamp x) (s_rtc_calendar x) v (s_iwdg_counter x) (s_iwdg_reload x) (s_iwdg_enabled x) (s_iwdg_reset_flagged x) (s_adc_values x) (s_temp_sensor_enabled x) (s_crc_result x) (s_crc_polynomial x) (s_power_mode x) (s_power_regulator x) (s_backup_regulator_enabled x) (s_clock_cfg x) (s_periph_clocks_enabled x).
Definition set_s_iwdg_counter v x := Statics (s_rtc_timestamp x) (s_rtc_calendar x) (s_rtc_alarm_enabled x) v (s_iwdg_reload x) (s_iwdg_enabled x) (s_iwdg_reset_flagged x) (s_adc_values x) (s_temp_sensor_enabled x) (s_crc_result x) (s_crc_polynomial x) (s_power_mode x) (s_power_regulator x) (s_backup_regulator_enabled x) (s_clock_cfg x) (s_periph_clocks_enabled x).
Definition set_s_iwdg_reload v x := Statics (s_rtc_timestamp x) (s_rtc_calendar x) (s_rtc_alarm_enabled x) (s_iwdg_counter x) v (s_iwdg_enabled x) (s_iwdg_reset_flagged x) (s_adc_values x) (s_temp_sensor_enabled x) (s_crc_result x) (s_crc_polynomial x) (s_power_mode x) (s_power_regulator x) (s_backup_regulator_enabled x) (s_clock_cfg x) (s_periph_clocks_enabled x).
Definition set_s_iwdg_enabled v x := Statics (s_rtc_timestamp x) (s_rtc_calendar x) (s_rtc_alarm_enabled x) (s_iwdg_counter x) (s_iwdg_reload x) v (s_iwdg_reset_flagged x) (s_adc_values x) (s_temp_sensor_enabled x) (s_crc_result x) (s_crc_polynomial x) (s_power_mode x) (s_power_regulator x) (s_backup_regulator_enabled x) (s_clock_cfg x) (s_periph_clocks_enabled x).
Definition set_s_iwdg_reset_flagged v x := Statics (s_rtc_timestamp x) (s_rtc_calendar x) (s_rtc_alarm_enabled x) (s_iwdg_counter x) (s_iwdg_reload x) (s_iwdg_enabled x) v (s_adc_values x) (s_temp_sensor_enabled x) (s_crc_result x) (s_crc_polynomial x) (s_power_mode x) (s_power_regulator x) (s_backup_regulator_enabled x) (s_clock_cfg x) (s_periph_clocks_enabled x).
Definition set_s_adc_values v x := Statics (s_rtc_timestamp x) (s_rtc_calendar x) (s_rtc_alarm_enabled x) (s_iwdg_counter x) (s_iwdg_reload x) (s_iwdg_enabled x) (s_iwdg_reset_flagged x) v (s_temp_sensor_enabled x) (s_crc_result x) (s_crc_polynomial x) (s_power_mode x) (s_power_regulator x) (s_backup_regulator_enabled x) (s_clock_cfg x) (s_periph_clocks_enabled x).
Definition set_s_temp_sensor_enabled v x := Statics (s_rtc_timestamp x) (s_rtc_calendar x) (s_rtc_alarm_enabled x) (s_iwdg_counter x) (s_iwdg_reload x) (s_iwdg_enabled x) (s_iwdg_reset_flagged x) (s_adc_values x) v (s_crc_result x) (s_crc_polynomial x) (s_power_mode x) (s_power_regulator x) (s_backup_regulator_enabled x) (s_clock_cfg x) (s_periph_clocks_enabled x).
Definition set_s_crc_result v x := Statics (s_rtc_timestamp x) (s_rtc_calendar x) (s_rtc_alarm_enabled x) (s_iwdg_counter x) (s_iwdg_reload x) (s_iwdg_enabled x) (s_iwdg_reset_flagged x) (s_adc_values x) (s_temp_sensor_enabled x) v (s_crc_polynomial x) (s_power_mode x) (s_power_regulator x) (s_backup_regulator_enabled x) (s_clock_cfg x) (s_periph_clocks_enabled x).
Definition set_s_crc_polynomial v x := Statics (s_rtc_timestamp x) (s_rtc_calendar x) (s_rtc_alarm_enabled x) (s_iwdg_counter x) (s_iwdg_reload x) (s_iwdg_enabled x) (s_iwdg_reset_flagged x) (s_adc_values x) (s_temp_sensor_enabled x) (s_crc_result x) v (s_power_mode x) (s_power_regulator x) (s_backup_regulator_enabled x) (s_clock_cfg x) (s_periph_clocks_enabled x).
Definition set_s_power_mode v x := Statics (s_rtc_timestamp x) (s_rtc_calendar x) (s_rtc_alarm_enabled x) (s_iwdg_counter x) (s_iwdg_reload x) (s_iwdg_enabled x) (s_iwdg_reset_flagged x) (s_adc_values x) (s_temp_sensor_enabled x) (s_crc_result x) (s_crc_polynomial x) v (s_power_regulator x) (s_backup_regulator_enabled x) (s_clock_cfg x) (s_periph_clocks_enabled x).
Definition set_s_power_regulator v x := Statics (s_rtc_timestamp x) (s_rtc_calendar x) (s_rtc_alarm_enabled x) (s_iwdg_counter x) (s_iwdg_reload x) (s_iwdg_enabled x) (s_iwdg_reset_flagged x) (s_adc_values x) (s_temp_sensor_enabled x) (s_crc_result x) (s_crc_polynomial x) (s_power_mode x) v (s_backup_regulator_enabled x) (s_clock_cfg x) (s_periph_clocks_enabled x).
Definition set_s_backup_regulator_enabled v x := Statics (s_rtc_timestamp x) (s_rtc_calendar x) (s_rtc_alarm_enabled x) (s_iwdg_counter x) (s_iwdg_reload x) (s_iwdg_enabled x) (s_iwdg_reset_flagged x) (s_adc_values x) (s_temp_sensor_enabled x) (s_crc_result x) (s_crc_polynomial x) (s_power_mode x) (s_power_regulator x) v (s_clock_cfg x) (s_periph_clocks_enabled x).
Definition set_s_clock_cfg v x := Statics (s_rtc_timestamp x) (s_rtc_calendar x) (s_rtc_alarm_enabled x) (s_iwdg_counter x) (s_iwdg_reload x) (s_iwdg_enabled x) (s_iwdg_reset_flagged x) (s_adc_values x) (s_temp_sensor_enabled x) (s_crc_result x) (s_crc_polynomial x) (s_power_mode x) (s_power_regulator x) (s_backup_regulator_enabled x) v (s_periph_clocks_enabled x).
Definition set_s_periph_clocks_enabled v x := Statics (s_rtc_timestamp x) (s_rtc_calendar x) (s_rtc_alarm_enabled x) (s_iwdg_counter x) (s_iwdg_reload x) (s_iwdg_enabled x) (s_iwdg_reset_flagged x) (s_adc_values x) (s_temp_sensor_enabled x) (s_crc_result x) (s_crc_polynomial x) (s_power_mode x) (s_power_regulator x) (s_backup_regulator_enabled x) (s_clock_cfg x) v.
Notation MP := (M statics).
Definition zero_clock : clock_config_t := ClockConfig 0 0 0 0 false 0 false 0 0 0 0 0.
Definition initial_statics : statics :=
  Statics 0 (Calendar 0 0 0 0 0 0 0 0) (replicate 2 false) 0 0 false false (replicate 19 0) false 0 0 0 0 false zero_clock (replicate 64 0).
(** A shift of a 32-bit word by its width or more is undefined. *)
Definition shl32 {S} (x n : Z) : M S Z := if 32 <=? n then undefined else mret (u32 (Z.shiftl x n)).

Section timers.
Context {D : Type} `{Bus D}.

(** ** Timers *)

Definition tim_reg (base offset : Z) : Z := base +32 offset.
Definition timer_init (config : option timer_config_t) : M D unit :=
  match config with
  | None => mret tt
  | Some c =>
      let cr1 := tim_reg (tim_base c) TIM_CR1_OFFSET in
      store cr1 0;;
      store (tim_reg (tim_base c) TIM_PSC_OFFSET) (prescaler c);;
      store (tim_reg (tim_base c) TIM_ARR_OFFSET) (period c);;
      store (tim_reg (tim_base c) TIM_CNT_OFFSET) 0;;
      (if auto_reload_preload c then set_bits cr1 TIM_CR1_ARPE else mret tt);;
      set_bits cr1 (u32 (Z.shiftl (clock_division c) TIM_CR1_CKD_POS))
  end.
Definition timer_deinit (base : Z) : M D unit := store (tim_reg base TIM_CR1_OFFSET) 0.
Definition timer_start (base : Z) : M D unit := set_bits (tim_reg base TIM_CR1_OFFSET) TIM_CR1_CEN.
Definition timer_stop (base : Z) : M D unit := clear_bits (tim_reg base TIM_CR1_OFFSET) TIM_CR1_CEN.
Definition timer_set_counter (base value : Z) : M D unit := store (tim_reg base TIM_CNT_OFFSET) value.
Definition timer_get_counter (base : Z) : M D Z := load (tim_reg base TIM_CNT_OFFSET).
Definition timer_set_period (base p : Z) : M D unit := store (tim_reg base TIM_ARR_OFFSET) p.
Definition timer_set_prescaler (base p : Z) : M D unit := store (tim_reg base TIM_PSC_OFFSET) p.
Definition timer_generate_update (base : Z) : M D unit := set_bits (tim_reg base TIM_EGR_OFFSET) TIM_EGR_UG.
Definition timer_is_update_pending (base : Z) : M D bool := v ← load (tim_reg base TIM_SR_OFFSET); mret (negb (Z.land v TIM_SR_UIF =? 0)).
Definition timer_clear_update_flag (base : Z) : M D unit := clear_bits (tim_reg base TIM_SR_OFFSET) TIM_SR_UIF.
Definition timer_enable_interrupt (base flags : Z) : M D unit := set_bits (tim_reg base TIM_DIER_OFFSET) flags.
Definition timer_disable_interrupt (base flags : Z) : M D unit := clear_bits (tim_reg base TIM_DIER_OFFSET) flags.

(** ** Pulse width modulation *)

Definition ccr_offset (channel : Z) : Z := TIM_CCR1_OFFSET +32 (channel - TIM_CHANNEL_1) * 4.
Definition pwm_set_duty_cycle (base channel duty : Z) : M D unit := store (tim_reg base (ccr_offset channel)) duty.
Definition pwm_init (config : option pwm_config_t) : M D unit :=
  match config with
  | None => mret tt
  | Some c =>
      timer_init (Some (TimerConfig (pwm_base c) 0 (pwm_period c) 0 0 0 true));;
      let ccmr := tim_reg (pwm_base c) (if pwm_channel c <=? TIM_CHANNEL_2 then TIM_CCMR1_OFFSET else TIM_CCMR2_OFFSET) in
      let shift := if Z.land (pwm_channel c) 1 =? 0 then 0 else 8 in
      clear_bits ccmr (Z.shiftl 0x7F shift);;
      set_bits ccmr (u32 (Z.shiftl (pwm_mode c +32 6) (shift + TIM_CCMR_OC1M_POS)));;
      let ccer := tim_reg (pwm_base c) TIM_CCER_OFFSET in
      let ch_shift := pwm_channel c * 4 in
      (if output_enable c then e ← shl32 TIM_CCER_CC1E ch_shift; set_bits ccer e else mret tt);;
      (if output_type c =? PWM_OUTPUT_INVERTED then e ← shl32 TIM_CCER_CC1P ch_shift; set_bits ccer e else mret tt);;
      pwm_set_duty_cycle (pwm_base c) (pwm_channel c) (duty_cycle c)
  end.
Definition pwm_set_period (base p : Z) : M D unit := timer_set_period base p.
Definition pwm_start (base channel : Z) : M D unit := e ← shl32 TIM_CCER_CC1E (channel * 4); set_bits (tim_reg base TIM_CCER_OFFSET) e;; timer_start base.
Definition pwm_stop (base channel : Z) : M D unit := e ← shl32 TIM_CCER_CC1E (channel * 4); clear_bits (tim_reg base TIM_CCER_OFFSET) e.
Definition pwm_enable_output (base channel : Z) : M D unit := e ← shl32 TIM_CCER_CC1E (channel * 4); set_bits (tim_reg base TIM_CCER_OFFSET) e.
Definition pwm_disable_output (base channel : Z) : M D unit := e ← shl32 TIM_CCER_CC1E (channel * 4); clear_bits (tim_reg base TIM_CCER_OFFSET) e.
Definition pwm_set_polarity (base channel : Z) (polarity : pwm_output_t) : M D unit :=
  e ← shl32 TIM_CCER_CC1P (channel * 4);
  if polarity =? PWM_OUTPUT_INVERTED then set_bits (tim_reg base TIM_CCER_OFFSET) e else clear_bits (tim_reg base TIM_CCER_OFFSET) e.

(** ** Capture, compare and encoder *)

Definition capture_compare_init (config : option capture_compare_config_t) : M D unit :=
  match config with None => mret tt | Some c => timer_init (Some (TimerConfig (cc_base c) (cc_prescaler c) (cc_period c) 0 0 0 false)) end.
Definition capture_get_value (base channel : Z) : M D Z := load (tim_reg base (ccr_offset channel)).
Definition compare_set_value (base channel value : Z) : M D unit := store (tim_reg base (ccr_offset channel)) value.
Definition capture_compare_enable_dma (base channel : Z) : M D unit := e ← shl32 1 (9 + channel); set_bits (tim_reg base TIM_DIER_OFFSET) e.
Definition encoder_init (config : option encoder_config_t) : M D unit :=
  match config with
  | None => mret tt
  | Some c => store (tim_reg (enc_base c) TIM_SMCR_OFFSET) (enc_mode c);; timer_init (Some (TimerConfig (enc_base c) (enc_prescaler c) (counts_per_rev c) 0 0 0 false))
  end.
(** The conversion to a signed 32-bit integer. *)
Definition s32 (x : Z) : Z := if x <? 0x80000000 then x else x - 4294967296.
Definition encoder_get_count (base : Z) : M D Z := v ← load (tim_reg base TIM_CNT_OFFSET); mret (s32 v).
Definition encoder_reset_count (base : Z) : M D unit := store (tim_reg base TIM_CNT_OFFSET) 0.
(** The negation of the least integer is undefined. *)
Definition encoder_get_speed (base sample_period_ms : Z) : M D Z :=
  count ← encoder_get_count base;
  encoder_reset_count base;;
  if sample_period_ms =? 0 then mret 0
  else if count =? - 0x80000000 then undefined
  else mret (((if count <? 0 then - count else count) *32 1000) / sample_period_ms).
Definition encoder_get_direction (base : Z) : M D bool := count ← encoder_get_count base; mret (0 <=? count).
End timers.

(** ** Real-time clock *)

Definition rtc_init : MP unit :=
  modify (set_s_rtc_timestamp 0);; modify (set_s_rtc_calendar (Calendar 24 1 1 0 0 0 0 0));;
  modify (fun x => set_s_rtc_alarm_enabled (<[1%nat := false]> (<[0%nat := false]> (s_rtc_alarm_enabled x))) x).
Definition rtc_set_calendar (calendar : option rtc_calendar_t) : MP unit := match calendar with Some c => modify (set_s_rtc_calendar c) | None => mret tt end.
(** What is behind the pointer afterwards. *)
Definition rtc_get_calendar (calendar : option rtc_calendar_t) : MP (option rtc_calendar_t) := match calendar with Some _ => c ← gets s_rtc_calendar; mret (Some c) | None => mret None end.
Definition rtc_set_alarm (config : option rtc_alarm_config_t) : MP unit := mret tt.
Definition rtc_get_alarm (a : rtc_alarm_t) (config : option rtc_alarm_config_t) : MP (option rtc_alarm_config_t) := mret ((fun _ => AlarmConfig 0 0 0 0 false 0 0) <$> config).
Definition set_alarm (b : bool) (a : rtc_alarm_t) : MP unit :=
  if (0 <=? a) && (a <? 2) then modify (fun x => set_s_rtc_alarm_enabled (<[Z.to_nat a := b]> (s_rtc_alarm_enabled x)) x) else undefined.
Definition rtc_enable_alarm (a : rtc_alarm_t) : MP unit := set_alarm true a.
Definition rtc_disable_alarm (a : rtc_alarm_t) : MP unit := set_alarm false a.
Definition rtc_clear_alarm_flag (a : rtc_alarm_t) : MP unit := mret tt.
Definition rtc_set_wakeup_timer (p : Z) (clock : rtc_wakeup_clock_t) : MP unit := mret tt.
Definition rtc_enable_wakeup_timer : MP unit := mret tt.
Definition rtc_disable_wakeup_timer : MP unit := mret tt.
Definition rtc_get_timestamp : MP Z := gets s_rtc_timestamp.
Definition rtc_set_timestamp (timestamp : Z) : MP unit := modify (set_s_rtc_timestamp timestamp).

(** ** Watchdogs *)

Definition iwdg_init (psc reload : Z) : MP unit := modify (set_s_iwdg_counter 0);; modify (set_s_iwdg_reload (if IWDG_TIMEOUT_MAX <? reload then IWDG_TIMEOUT_MAX else reload)).
Definition iwdg_refresh : MP unit := modify (set_s_iwdg_counter 0).
Definition iwdg_enable : MP unit := modify (set_s_iwdg_enabled true).
Definition iwdg_is_reset_flagged : MP bool := gets s_iwdg_reset_flagged.
Definition iwdg_clear_reset_flag : MP unit := modify (set_s_iwdg_reset_flagged false).
Definition wwdg_init (psc window counter : Z) : MP unit := mret tt.
Definition wwdg_refresh : MP unit := mret tt.
Definition wwdg_enable_early_wakeup : MP unit := mret tt.

(** ** Analog converter *)

(** The loop over the channels of which [n] are left; an index behind the array of values is undefined. *)
Fixpoint adc_init_loop (n : nat) (i : Z) (chs : list Z) : MP unit :=
  match n with
  | O => mret tt
  | S n =>
      ch ← of_option (chs !! Z.to_nat i);
      (if (0 <=? ch) && (ch <? 19) then modify (fun x => set_s_adc_values (<[Z.to_nat ch := 0]> (s_adc_values x)) x) else undefined);;
      adc_init_loop n (i + 1) chs
  end.
Definition adc_init (config : option adc_config_t) : MP unit :=
  match config with
  | None => mret tt
  | Some c => match channels c with None => mret tt | Some chs => adc_init_loop (Z.to_nat (num_channels c)) 0 chs end
  end.
Definition adc_deinit (adc_base : Z) : MP unit := mret tt.
Definition adc_start_conversion (adc_base : Z) : MP unit := mret tt.
Definition adc_read (adc_base channel : Z) : MP Z := if 18 <? channel then mret 0 else vs ← gets s_adc_values; of_option (vs !! Z.to_nat channel).
(** What is in the array of results afterwards. *)
Fixpoint adc_read_loop (n : nat) (i adc_base : Z) (chs results : list Z) : MP (list Z) :=
  match n with
  | O => mret results
  | S n =>
      ch ← of_option (chs !! Z.to_nat i);
      v ← adc_read adc_base ch;
      if (Z.of_nat (length results) <=? i) then undefined else adc_read_loop n (i + 1) adc_base chs (<[Z.to_nat i := v]> results)
  end.
Definition adc_read_multi (adc_base : Z) (chs results : option (list Z)) (count : Z) : MP (option (list Z)) :=
  match chs, results with Some chs, Some results => r ← adc_read_loop (Z.to_nat count) 0 adc_base chs results; mret (Some r) | _, _ => mret results end.
Definition adc_start_dma (adc_base buffer size : Z) : MP unit := mret tt.
Definition adc_set_channel (adc_base channel : Z) : MP unit := mret tt.
Definition adc_enable_temperature_sensor : MP unit :=
  modify (set_s_temp_sensor_enabled true);; modify (fun x => set_s_adc_values (<[Z.to_nat ADC_CHANNEL_TEMP := 1725]> (s_adc_values x)) x).

(** ** CRC *)

Definition crc_init : MP unit := modify (set_s_crc_result 0xFFFFFFFF);; modify (set_s_crc_polynomial 0x04C11DB7).
(** One round of the inner loops. *)
Definition crc_bit (p x : Z) : Z := if Z.land x 0x80000000 =? 0 then u32 (Z.shiftl x 1) else Z.lxor (u32 (Z.shiftl x 1)) p.
Fixpoint crc_rounds (n : nat) : MP unit := match n with O => mret tt | S n => modify (fun x => set_s_crc_result (crc_bit (s_crc_polynomial x) (s_crc_result x)) x);; crc_rounds n end.
Fixpoint crc_words (n : nat) (i : Z) (data : list Z) : MP unit :=
  match n with
  | O => mret tt
  | S n => v ← of_option (data !! Z.to_nat i); modify (fun x => set_s_crc_result (Z.lxor (s_crc_result x) v) x);; crc_rounds 32;; crc_words n (i + 1) data
  end.
Fixpoint crc_bytes (n : nat) (i : Z) (data : list Z) : MP unit :=
  match n with
  | O => mret tt
  | S n => v ← of_option (data !! Z.to_nat i); modify (fun x => set_s_crc_result (Z.lxor (s_crc_result x) (u32 (Z.shiftl v 24))) x);; crc_rounds 8;; crc_bytes n (i + 1) data
  end.
Definition crc_calculate (data : option (list Z)) (size_words : Z) : MP Z :=
  match data with None => mret 0 | Some data => modify (set_s_crc_result 0xFFFFFFFF);; crc_words (Z.to_nat size_words) 0 data;; gets s_crc_result end.
Definition crc_calculate_byte (data : option (list Z)) (size_bytes : Z) : MP Z :=
  match data with None => mret 0 | Some data => modify (set_s_crc_result 0xFFFFFFFF);; crc_bytes (Z.to_nat size_bytes) 0 data;; gets s_crc_result end.
Definition crc_get_result : MP Z := gets s_crc_result.
Definition crc_reset : MP unit := modify (set_s_crc_result 0xFFFFFFFF).
Definition crc_set_polynomial (polynomial : Z) : MP unit := modify (set_s_crc_polynomial polynomial).

(** ** Power *)

Definition power_set_mode (mode : power_mode_t) : MP unit := modify (set_s_power_mode mode).
Definition power_get_mode : MP power_mode_t := gets s_power_mode.
Definition power_enter_sleep : MP unit := modify (set_s_power_mode POWER_MODE_SLEEP).
Definition power_enter_deep_sleep : MP unit := modify (set_s_power_mode POWER_MODE_DEEPSLEEP).
Definition power_enter_standby : MP unit := modify (set_s_power_mode POWER_MODE_STANDBY).
Definition power_enable_backup_regulator : MP unit := modify (set_s_backup_regulator_enabled true).
Definition power_is_standby_reset : MP bool := mret false.
Definition power_clear_standby_reset : MP unit := mret tt.
Definition power_set_regulator (regulator : power_regulator_t) : MP unit := modify (set_s_power_regulator regulator).

(** ** Clock tree *)

Definition upd_clock (f : clock_config_t -> clock_config_t) : MP unit := modify (fun x => set_s_clock_cfg (f (s_clock_cfg x)) x).
Definition clock_init (config : option clock_config_t) : MP unit := match config with None => mret tt | Some c => modify (set_s_clock_cfg c) end.
Definition clock_deinit : MP unit := modify (set_s_clock_cfg zero_clock).
(** A division of unsigned integers. *)
Definition udiv (a b : Z) : MP Z := if b =? 0 then undefined else mret (a / b).
Definition clock_get_freq (node : clock_node_t) : MP Z :=
  c ← gets s_clock_cfg;
  let sysclk := 168000000 in
  if node =? CLOCK_SYS then mret sysclk
  else if node =? CLOCK_HCLK then udiv sysclk (hclk_prescaler c)
  else if node =? CLOCK_PCLK1 then h ← udiv sysclk (hclk_prescaler c); udiv h (pclk1_prescaler c)
  else if node =? CLOCK_PCLK2 then h ← udiv sysclk (hclk_prescaler c); udiv h (pclk2_prescaler c)
  else if node =? CLOCK_PLL then r ← udiv (hse_freq_hz c) (pll_m c); udiv (r *32 pll_n c) (pll_p c)
  else if node =? CLOCK_PLL48 then mret 48000000
  else if node =? CLOCK_TIM then mret 168000000
  else mret 0.
Definition clock_hse_enable (enable : bool) : MP unit := upd_clock (set_hse_enabled enable).
Definition clock_hse_bypass (enable : bool) : MP unit := mret tt.
Definition clock_pll_enable (enable : bool) : MP unit := upd_clock (set_pll_enabled enable).
Definition clock_pll_set_source (source : pll_clock_source_t) : MP unit := upd_clock (set_pll_source source).
Definition clock_pll_configure (m n p q : Z) : MP unit := upd_clock (set_pll m n p q).
Definition clock_is_hse_ready : MP bool := c ← gets s_clock_cfg; mret (hse_enabled c).
Definition clock_is_pll_ready : MP bool := c ← gets s_clock_cfg; mret (pll_enabled c).
Definition clock_is_hsi_ready : MP bool := mret true.
Definition clock_set_sysclk (source : clock_source_t) : MP unit := upd_clock (set_sysclk_source source).
Definition clock_set_prescaler (node : clock_node_t) (p : Z) : MP unit :=
  if node =? CLOCK_HCLK then upd_clock (set_hclk_prescaler p) else if node =? CLOCK_PCLK1 then upd_clock (set_pclk1_prescaler p)
  else if node =? CLOCK_PCLK2 then upd_clock (set_pclk2_prescaler p) else mret tt.
(** The loops: the first entry that is [a] becomes [b]. *)
Fixpoint replace_first (a b : Z) (l : list Z) : list Z := match l with [] => [] | x :: l => if x =? a then b :: l else x :: replace_first a b l end.
Definition clock_enable_peripheral (base_addr : Z) : MP unit := modify (fun x => set_s_periph_clocks_enabled (replace_first 0 base_addr (s_periph_clocks_enabled x)) x).
Definition clock_disable_peripheral (base_addr : Z) : MP unit := modify (fun x => set_s_periph_clocks_enabled (replace_first base_addr 0 (s_periph_clocks_enabled x)) x).

(** ** The CRC unit *)

Lemma u32_lxor a b : u32 (Z.lxor a b) = Z.lxor (u32 a) (u32 b).
Proof. apply Z.bits_inj'. intros i Hi. rewrite Z.lxor_spec, !testbit_u32, Z.lxor_spec by done. by destruct (i <? 32). Qed.
Lemma crc_bit_alt p x : crc_bit p x = Z.lxor (u32 (Z.shiftl x 1)) (if Z.testbit x 31 then p else 0).
Proof. unfold crc_bit. change 0x80000000 with (Z.shiftl 1 31). rewrite land_bit_0 by lia. destruct (Z.testbit x 31); cbn [negb]; [done|by rewrite Z.lxor_0_r]. Qed.
Lemma crc_bit_lxor p a b : crc_bit p (Z.lxor a b) = Z.lxor (crc_bit p a) (crc_bit p b).
Proof.
  rewrite !crc_bit_alt, Z.shiftl_lxor, u32_lxor, Z.lxor_spec. set (x := u32 (Z.shiftl a 1)). set (y := u32 (Z.shiftl b 1)). destruct (Z.testbit a 31), (Z.testbit b 31); cbn [xorb]; rewrite ?Z.lxor_0_r; try done.
  - by rewrite !Z.lxor_assoc, (Z.lxor_comm _ (Z.lxor y _)), Z.lxor_assoc, Z.lxor_nilpotent, Z.lxor_0_r.
  - by rewrite !Z.lxor_assoc, (Z.lxor_comm y).
  - by rewrite Z.lxor_assoc.
Qed.
Lemma crc_bits_lxor p n a b : Nat.iter n (crc_bit p) (Z.lxor a b) = Z.lxor (Nat.iter n (crc_bit p) a) (Nat.iter n (crc_bit p) b).
Proof. induction n as [|n IH]; [done|]. by rewrite !iter_S, IH, crc_bit_lxor. Qed.
Lemma crc_bits_u32 p n x : is_u32 p -> is_u32 x -> is_u32 (Nat.iter n (crc_bit p) x).
Proof. intros Hp Hx. induction n as [|n IH]; [done|]. rewrite iter_S, crc_bit_alt. apply (lxor_bound 32); [lia|apply u32_range|]. destruct (Z.testbit _ 31); [done|lia]. Qed.
(** With an odd polynomial a step loses nothing. *)
Lemma crc_bit_zero p x : is_u32 x -> Z.testbit p 0 = true -> crc_bit p x = 0 -> x = 0.
Proof.
  intros Hx Hp. rewrite crc_bit_alt. intros E%Z.lxor_eq. assert (Z.testbit x 31 = false) as H31.
  { destruct (Z.testbit x 31); [|done]. apply (f_equal (fun y => Z.testbit y 0)) in E. rewrite Hp, testbit_u32, Z.shiftl_spec in E by lia. done. }
  rewrite H31 in E. apply Z.bits_inj'. intros i Hi. rewrite Z.bits_0. destruct (decide (i < 31)) as [Hlt|Hge].
  - apply (f_equal (fun y => Z.testbit y (i + 1))) in E. rewrite testbit_u32, Z.shiftl_spec, Z.bits_0 in E by lia. destruct (Z.ltb_spec (i + 1) 32); [|lia]. by replace (i + 1 - 1) with i in E by lia.
  - destruct (decide (i = 31)) as [->|]; [done|]. apply (testbit_high 32); [done|lia].
Qed.
Lemma crc_bits_inj p n a b : is_u32 p -> Z.testbit p 0 = true -> is_u32 a -> is_u32 b -> Nat.iter n (crc_bit p) a = Nat.iter n (crc_bit p) b -> a = b.
Proof.
  intros Hp Hodd Ha Hb E. apply Z.lxor_eq. assert (is_u32 (Z.lxor a b)) as Hab by (apply (lxor_bound 32); done || lia).
  assert (Nat.iter n (crc_bit p) (Z.lxor a b) = 0) as H0 by (by rewrite crc_bits_lxor, E, Z.lxor_nilpotent).
  clear E. induction n as [|n IH]; [done|]. apply IH. apply (crc_bit_zero p); [by apply crc_bits_u32|done|done].
Qed.
Lemma crc_bits_shift p n w : 0 <= w -> w * 2 ^ Z.of_nat n < 4294967296 -> Nat.iter n (crc_bit p) w = Z.shiftl w (Z.of_nat n).
Proof.
  intros Hw. induction n as [|n IH]; intros Hn; [cbn; by rewrite Z.shiftl_0_r|]. rewrite Nat2Z.inj_succ, Z.pow_succ_r in Hn by lia. rewrite iter_S, IH by lia.
  assert (Z.shiftl w (Z.of_nat n) < 2147483648) as Hlt by (rewrite Z.shiftl_mul_pow2 by lia; lia). pose proof (proj2 (Z.shiftl_nonneg w (Z.of_nat n)) Hw).
  rewrite crc_bit_alt. rewrite (testbit_high 31) by (done || lia). rewrite Z.lxor_0_r, Z.shiftl_shiftl by lia. rewrite Z.add_1_r, <- Nat2Z.inj_succ. apply u32_small.
  rewrite Nat2Z.inj_succ, <- Z.add_1_r, <- Z.shiftl_shiftl by lia. rewrite (Z.shiftl_mul_pow2 _ 1) by lia. lia.
Qed.

(** Rounds are counted by lemmas, never by evaluation. *)
#[local] Opaque Nat.iter.
Definition crc_byte_step (p s b : Z) : Z := Nat.iter 8 (crc_bit p) (Z.lxor s (u32 (Z.shiftl b 24))).
Definition crc_word_step (p s w : Z) : Z := Nat.iter 32 (crc_bit p) (Z.lxor s w).
Lemma crc_word_step_eq p s w : crc_word_step p s w = Nat.iter 32 (crc_bit p) (Z.lxor s w).
Proof. exact eq_refl. Qed.
(** The most significant byte first, [n] bytes of a word enter like its upper bits at once. *)
Lemma crc_window p n s w : (n <= 4)%nat -> 0 <= w < 256 ^ Z.of_nat n -> foldl (crc_byte_step p) s (be_bytes n w) = Nat.iter (8 * n) (crc_bit p) (Z.lxor s (Z.shiftl w (32 - 8 * Z.of_nat n))).
Proof.
  revert w. induction n as [|n IH]; intros w Hn Hw; [change (256 ^ Z.of_nat 0) with 1 in Hw; assert (w = 0) as -> by lia; change (8 * 0)%nat with 0%nat; rewrite Z.shiftl_0_l, Z.lxor_0_r; with_strategy transparent [Nat.iter] reflexivity|].
  rewrite Nat2Z.inj_succ, Z.pow_succ_r in Hw by lia. rewrite be_bytes_S, foldl_snoc. pose proof (u8_range w).
  rewrite IH by (first [lia|rewrite Z.shiftr_div_pow2 by lia; change (2 ^ 8) with 256; split; [apply Z.div_pos; lia|apply Z.div_lt_upper_bound; lia]]).
  unfold crc_byte_step. replace (8 * S n)%nat with (8 + 8 * n)%nat by lia. rewrite Nat.iter_add. f_equal.
  assert (n = 0%nat \/ n = 1%nat \/ n = 2%nat \/ n = 3%nat) as Hn' by lia.
  assert (u32 (Z.shiftl (u8 w) 24) = Nat.iter (8 * n) (crc_bit p) (Z.shiftl (u8 w) (24 - 8 * Z.of_nat n))) as ->.
  { rewrite u32_small by (rewrite Z.shiftl_mul_pow2 by lia; lia). rewrite crc_bits_shift.
    - rewrite Z.shiftl_shiftl by lia. f_equal. lia.
    - apply Z.shiftl_nonneg. lia.
    - rewrite Z.shiftl_mul_pow2 by lia. rewrite <- Z.mul_assoc, <- Z.pow_add_r by lia. replace (24 - 8 * Z.of_nat n + Z.of_nat (8 * n)) with 24 by lia. lia. }
  rewrite <- crc_bits_lxor. f_equal. rewrite Z.lxor_assoc. f_equal. rewrite (u8_split w) at 3 by lia. rewrite Z.shiftl_lxor, Z.shiftl_shiftl by lia. rewrite Z.lxor_comm. f_equal; f_equal; lia.
Qed.
Lemma crc_word_bytes p s w : is_u32 w -> foldl (crc_byte_step p) s (be_bytes 4 w) = crc_word_step p s w.
Proof. intros Hw. rewrite crc_window by (lia || exact Hw). change (32 - 8 * Z.of_nat 4) with 0. rewrite Z.shiftl_0_r. unfold crc_word_step. change (8 * 4)%nat with 32%nat. reflexivity. Qed.

Lemma crc_words_bytes p ws s : Forall is_u32 ws -> foldl (crc_byte_step p) s (ws ≫= be_bytes 4) = foldl (crc_word_step p) s ws.
Proof. intros H. revert s. induction H as [|w ws Hw H IH]; intros s; [done|]. rewrite bind_cons, foldl_app, crc_word_bytes by done. apply IH. Qed.

Lemma crc_rounds_run n x : crc_rounds n x = Done (tt, set_s_crc_result (Nat.iter n (crc_bit (s_crc_polynomial x)) (s_crc_result x)) x).
Proof.
  revert x. induction n as [|n IH]; intros x; cbn [crc_rounds]; [with_strategy transparent [Nat.iter] (by destruct x)|]. rewrite bind_modify, IH. cbn [s_crc_polynomial s_crc_result set_s_crc_result]. by rewrite <- Nat.iter_succ_r.
Qed.
Lemma crc_rounds_word v x : crc_rounds 32 (set_s_crc_result (Z.lxor (s_crc_result x) v) x) = Done (tt, set_s_crc_result (crc_word_step (s_crc_polynomial x) (s_crc_result x) v) x).
Proof. unfold crc_word_step. rewrite crc_rounds_run. destruct x. cbn [s_crc_polynomial s_crc_result set_s_crc_result]. exact eq_refl. Qed.
Lemma crc_rounds_byte v x : crc_rounds 8 (set_s_crc_result (Z.lxor (s_crc_result x) (u32 (Z.shiftl v 24))) x) = Done (tt, set_s_crc_result (crc_byte_step (s_crc_polynomial x) (s_crc_result x) v) x).
Proof. unfold crc_byte_step. rewrite crc_rounds_run. destruct x. cbn [s_crc_polynomial s_crc_result set_s_crc_result]. exact eq_refl. Qed.
Lemma crc_words_run n i data x : 0 <= i -> (Z.to_nat i + n <= length data)%nat ->
  crc_words n i data x = Done (tt, set_s_crc_result (foldl (crc_word_step (s_crc_polynomial x)) (s_crc_result x) (take n (drop (Z.to_nat i) data))) x).
Proof.
  revert i x. induction n as [|n IH]; intros i x Hi Hn; cbn [crc_words]; [by destruct x|]. destruct (lookup_lt_is_Some_2 data (Z.to_nat i)) as [v Hv]; [lia|]. unfold of_option. rewrite Hv, bind_ret, bind_modify.
  erewrite bind_step by apply crc_rounds_word. rewrite IH by lia. rewrite (drop_S data v (Z.to_nat i)) by done. replace (Z.to_nat (i + 1)) with (S (Z.to_nat i)) by lia. cbn [s_crc_polynomial s_crc_result set_s_crc_result take foldl]. exact eq_refl.
Qed.
Lemma crc_bytes_run n i data x : 0 <= i -> (Z.to_nat i + n <= length data)%nat ->
  crc_bytes n i data x = Done (tt, set_s_crc_result (foldl (crc_byte_step (s_crc_polynomial x)) (s_crc_result x) (take n (drop (Z.to_nat i) data))) x).
Proof.
  revert i x. induction n as [|n IH]; intros i x Hi Hn; cbn [crc_bytes]; [by destruct x|]. destruct (lookup_lt_is_Some_2 data (Z.to_nat i)) as [v Hv]; [lia|]. unfold of_option. rewrite Hv, bind_ret, bind_modify.
  erewrite bind_step by apply crc_rounds_byte. rewrite IH by lia. rewrite (drop_S data v (Z.to_nat i)) by done. replace (Z.to_nat (i + 1)) with (S (Z.to_nat i)) by lia. cbn [s_crc_polynomial s_crc_result set_s_crc_result take foldl]. exact eq_refl.
Qed.
Lemma crc_word_step_u32 p s w : is_u32 p -> is_u32 s -> is_u32 w -> is_u32 (crc_word_step p s w).
Proof. intros Hp Hs Hw. rewrite crc_word_step_eq. apply crc_bits_u32; [done|]. apply (lxor_bound 32); done || lia. Qed.
Lemma crc_word_step_inj p s s' w w' : is_u32 p -> Z.testbit p 0 = true -> is_u32 s -> is_u32 s' -> is_u32 w -> is_u32 w' -> crc_word_step p s w = crc_word_step p s' w' -> Z.lxor s w = Z.lxor s' w'.
Proof. intros Hp Hodd Hs Hs' Hw Hw' E. rewrite !crc_word_step_eq in E. apply crc_bits_inj in E; [done|done|done|apply (lxor_bound 32); done || lia|apply (lxor_bound 32); done || lia]. Qed.
(** After 32 rounds with the polynomial zero nothing is left. *)
Lemma crc_word_step_zero s w : crc_word_step 0 s w = 0.
Proof.
  rewrite crc_word_step_eq. generalize (Z.lxor s w). intros y.
  assert (forall n i, 0 <= i < Z.of_nat n -> Z.testbit (Nat.iter n (crc_bit 0) y) i = false) as Hz.
  { induction n as [|n IH]; intros i Hi; [lia|]. rewrite iter_S, crc_bit_alt. destruct (Z.testbit _ 31); rewrite Z.lxor_0_r, testbit_u32, Z.shiftl_spec by lia; (destruct (decide (i = 0)) as [->|]; [apply andb_false_r|rewrite IH by lia; apply andb_false_r]). }
  apply Z.bits_inj'. intros i Hi. rewrite Z.bits_0. destruct (decide (i < 32)); [apply Hz; lia|]. rewrite iter_S, crc_bit_alt. destruct (Z.testbit _ 31); rewrite Z.lxor_0_r, testbit_u32 by lia; (destruct (Z.ltb_spec i 32); [lia|reflexivity]).
Qed.

Lemma crc_fold_u32 p l s : is_u32 p -> Forall is_u32 l -> is_u32 s -> is_u32 (foldl (crc_word_step p) s l).
Proof. intros Hp Hl. revert s. induction Hl as [|w l Hw Hl IH]; intros s Hs; cbn [foldl]; [done|]. apply IH. by apply crc_word_step_u32. Qed.
Lemma crc_fold_inj p l s s' : is_u32 p -> Z.testbit p 0 = true -> Forall is_u32 l -> is_u32 s -> is_u32 s' -> foldl (crc_word_step p) s l = foldl (crc_word_step p) s' l -> s = s'.
Proof.
  intros Hp Hodd Hl. revert s s'. induction Hl as [|w l Hw Hl IH]; intros s s' Hs Hs' E; cbn [foldl] in E; [done|]. apply IH in E; [|by apply crc_word_step_u32|by apply crc_word_step_u32].
  apply crc_word_step_inj in E; [|done..]. rewrite <- (Z.lxor_0_r s), <- (Z.lxor_0_r s'), <- (Z.lxor_nilpotent w), <- !Z.lxor_assoc. by rewrite E.
Qed.
Definition crc_of_words (p : Z) (ws : list Z) : Z := foldl (crc_word_step p) 0xFFFFFFFF ws.
Lemma crc_calculate_run ws x : crc_calculate (Some ws) (Z.of_nat (length ws)) x = Done (crc_of_words (s_crc_polynomial x) ws, set_s_crc_result (crc_of_words (s_crc_polynomial x) ws) x).
Proof.
  unfold crc_calculate. rewrite bind_modify. rewrite Nat2Z.id. erewrite bind_step by (apply crc_words_run; cbn; lia). rewrite drop_0, firstn_all. done.
Qed.

(** C28: the CRC of words is the CRC of their bytes, the most significant one first; it leaves the same register.  With an odd polynomial, as the one that [crc_init] sets, two
    blocks that differ in one word never have the same CRC.  With an even one that need not hold, and before [crc_init], when the polynomial is zero, the CRC of every block
    that is not empty is zero. *)
Theorem crc_correct ws x :
  Forall is_u32 ws ->
  crc_calculate_byte (Some (ws ≫= be_bytes 4)) (4 * Z.of_nat (length ws)) x = crc_calculate (Some ws) (Z.of_nat (length ws)) x /\
  (exists r x', crc_calculate (Some ws) (Z.of_nat (length ws)) x = Done (r, x') /\ crc_get_result x' = Done (r, x') /\
    (forall pre a b post, is_u32 (s_crc_polynomial x) -> Z.testbit (s_crc_polynomial x) 0 = true -> is_u32 b -> a <> b -> ws = pre ++ a :: post ->
       exists r2 x2, crc_calculate (Some (pre ++ b :: post)) (Z.of_nat (length ws)) x = Done (r2, x2) /\ r2 <> r) /\
    (s_crc_polynomial x = 0 -> ws <> [] -> r = 0)).
Proof.
  intros Hws. assert (length (ws ≫= be_bytes 4) = 4 * length ws)%nat as Hlen.
  { clear. induction ws as [|w ws IH]; [done|]. rewrite bind_cons, length_app, length_be_bytes, IH. cbn [length]. lia. }
  split.
  { rewrite crc_calculate_run. unfold crc_calculate_byte. rewrite bind_modify. replace (Z.to_nat (4 * Z.of_nat (length ws))) with (length (ws ≫= be_bytes 4)) by lia.
    erewrite bind_step by (apply crc_bytes_run; cbn; lia). rewrite drop_0, firstn_all. cbn [s_crc_polynomial s_crc_result set_s_crc_result]. by rewrite crc_words_bytes. }
  eexists _, _. split; [apply crc_calculate_run|]. split; [done|]. split.
  - intros pre a b post Hp Hodd Hb Hne ->. eexists _, _. split; [replace (length (pre ++ a :: post)) with (length (pre ++ b :: post)) by (by rewrite !length_app); apply crc_calculate_run|].
    apply Forall_app in Hws as [Hpre [Ha Hpost]%Forall_cons]. unfold crc_of_words. rewrite !foldl_app. cbn [foldl]. set (s := foldl _ _ pre). assert (is_u32 s) as Hs by (apply crc_fold_u32; [done|done|unfold is_u32; lia]).
    intros E. apply crc_fold_inj in E; [|done|done|done|by apply crc_word_step_u32|by apply crc_word_step_u32]. apply crc_word_step_inj in E; [|done..]. apply Hne. symmetry.
    rewrite <- (Z.lxor_0_l b), <- (Z.lxor_0_l a), <- (Z.lxor_nilpotent s), !Z.lxor_assoc. by rewrite E.
  - intros Hp Hne. rewrite Hp. destruct (exists_last Hne) as (l & w & ->). unfold crc_of_words. rewrite foldl_snoc. apply crc_word_step_zero.
Qed.

(** ** Clocks *)

Definition occurrences (a : Z) (l : list Z) : nat := length (filter (fun x => x = a) l).
Lemma occurrences_cons a x l : occurrences a (x :: l) = ((if decide (x = a) then 1 else 0) + occurrences a l)%nat.
Proof. unfold occurrences. rewrite filter_cons. by destruct (decide (x = a)). Qed.
Lemma occurrences_replace a b c l : a <> b -> occurrences c (replace_first a b l) =
  if decide (occurrences a l = 0%nat) then occurrences c l else if decide (c = a) then (occurrences a l - 1)%nat else if decide (c = b) then S (occurrences b l) else occurrences c l.
Proof.
  intros Hab. induction l as [|x l IH]; [by destruct (decide (_ = 0%nat))|]. cbn [replace_first]. rewrite !occurrences_cons. destruct (Z.eqb_spec x a) as [->|Hx].
  - rewrite occurrences_cons, (decide_True (P := a = a)) by done. rewrite (decide_False (P := (1 + _)%nat = 0%nat)) by lia. destruct (decide (c = a)) as [->|Hca]; [rewrite decide_False by congruence; lia|].
    destruct (decide (c = b)) as [->|]; [rewrite !decide_True by done; rewrite (decide_False (P := a = b)) by done; lia|]. by rewrite !(decide_False (P := _ = c)) by congruence.
  - rewrite occurrences_cons, IH, (decide_False (P := x = a)) by done. cbn [Nat.add]. destruct (decide (occurrences a l = 0%nat)); [done|]. destruct (decide (c = a)) as [->|Hca]; [by rewrite decide_False|].
    destruct (decide (c = b)) as [->|]; [|done]. destruct (decide (x = b)); lia.
Qed.
Lemma replace_first_same a l : replace_first a a l = l.
Proof. induction l as [|x l IH]; cbn [replace_first]; [done|]. destruct (Z.eqb_spec x a) as [->|]; [done|]. by rewrite IH. Qed.
Lemma length_replace_first a b l : length (replace_first a b l) = length l.
Proof. induction l as [|x l IH]; cbn [replace_first]; [done|]. destruct (x =? a); cbn [length]; [done|]. by rewrite IH. Qed.

(** Enabling ([true]) or disabling the clock of a peripheral. *)
Fixpoint run_clock_calls (ks : list (bool * Z)) : MP unit :=
  match ks with [] => mret tt | (b, a) :: ks => (if b then clock_enable_peripheral a else clock_disable_peripheral a);; run_clock_calls ks end.
Definition enables (ks : list (bool * Z)) : nat := length (filter (fun k => k.1 = true) ks).
(** How often peripheral [a] is enabled. *)
Definition count_call (a : Z) (n : nat) '(b, a') : nat := if decide (a' = a) then if b : bool then S n else (n - 1)%nat else n.
Definition free_slots (x : statics) : nat := occurrences 0 (s_periph_clocks_enabled x).

(** The table of enabled clocks counts how often each peripheral was enabled and not disabled, as long as there are not more enabling calls than free entries, 64 in the beginning; then a call that enables another
    is lost without a sign, and its peripheral can be disabled by a call that was meant for an earlier one.  No call fails, and nothing else changes. *)
Theorem clocks_refine ks x :
  Forall (fun k => k.2 <> 0) ks -> (enables ks <= free_slots x)%nat ->
  exists l, run_clock_calls ks x = Done (tt, set_s_periph_clocks_enabled l x) /\ length l = length (s_periph_clocks_enabled x) /\
    (forall a, a <> 0 -> occurrences a l = foldl (count_call a) (occurrences a (s_periph_clocks_enabled x)) ks) /\
    (forall a, free_slots (set_s_periph_clocks_enabled l x) = 0%nat -> clock_enable_peripheral a (set_s_periph_clocks_enabled l x) = Done (tt, set_s_periph_clocks_enabled l x)).
Proof.
  intros Hk Hn. assert (forall l : list Z, occurrences 0 l = 0%nat -> forall b, replace_first 0 b l = l) as Hfull.
  { clear. induction l as [|y l IH]; intros H0 b; [done|]. rewrite occurrences_cons in H0. cbn [replace_first]. destruct (decide (y = 0)); [lia|]. destruct (Z.eqb_spec y 0); [done|]. by rewrite IH. }
  assert (exists l, run_clock_calls ks x = Done (tt, set_s_periph_clocks_enabled l x) /\ length l = length (s_periph_clocks_enabled x) /\
    forall a, a <> 0 -> occurrences a l = foldl (count_call a) (occurrences a (s_periph_clocks_enabled x)) ks) as (l & E & L & F).
  { revert x Hn. induction Hk as [|[b a] ks Ha Hk IH]; intros x Hn; cbn [run_clock_calls foldl]; [exists (s_periph_clocks_enabled x); by destruct x|]. cbn [snd] in Ha. unfold enables in Hn. rewrite filter_cons in Hn. cbn [fst] in Hn. unfold free_slots in *.
    set (l0 := s_periph_clocks_enabled x) in *. set (l1 := if b then replace_first 0 a l0 else replace_first a 0 l0).
    assert ((if b then clock_enable_peripheral a else clock_disable_peripheral a) x = Done (tt, set_s_periph_clocks_enabled l1 x)) as E1 by (unfold l1; by destruct b).
    destruct (IH (set_s_periph_clocks_enabled l1 x)) as (l & E & L & F).
    - cbn [s_periph_clocks_enabled set_s_periph_clocks_enabled]. unfold l1, enables. destruct b.
      + rewrite decide_True in Hn by done. cbn [length] in Hn. rewrite occurrences_replace by done. rewrite (decide_True (P := 0 = 0)) by done. destruct (decide _); lia.
      + rewrite decide_False in Hn by done. rewrite occurrences_replace by done. destruct (decide (occurrences a l0 = 0%nat)); [lia|]. rewrite decide_False, decide_True by done. lia.
    - exists l. split; [by erewrite bind_step by exact E1|]. split; [rewrite L; cbn [s_periph_clocks_enabled set_s_periph_clocks_enabled]; unfold l1; destruct b; apply length_replace_first|].
      intros c Hc. rewrite F by done. cbn [s_periph_clocks_enabled set_s_periph_clocks_enabled]. f_equal. cbn [count_call]. unfold l1. destruct b.
      + rewrite decide_True in Hn by done. cbn [length] in Hn. rewrite occurrences_replace by done. rewrite decide_False by lia. rewrite decide_False by done. destruct (decide (c = a)) as [->|]; [by rewrite decide_True|by rewrite decide_False].
      + rewrite occurrences_replace by done. destruct (decide (occurrences a l0 = 0%nat)) as [Hz|]; [destruct (decide (a = c)) as [->|]; [lia|done]|]. destruct (decide (c = a)) as [->|]; [by rewrite decide_True|]. rewrite !decide_False by done. done. }
  exists l. split; [done|]. split; [done|]. split; [done|]. intros a Hf. unfold free_slots in Hf. cbn [s_periph_clocks_enabled set_s_periph_clocks_enabled] in Hf. unfold clock_enable_peripheral, modify. cbn [s_periph_clocks_enabled set_s_periph_clocks_enabled]. by rewrite Hfull.
Qed.

(** Asked for a clock, the tree divides the fixed 168 MHz by the prescalers of the bus, or the crystal through the PLL, modulo 2^32 before the last division.  What the system clock was set to plays no part.  A prescaler of zero, as
    before [clock_init] and after [clock_deinit], is a division by zero. *)
Theorem clock_get_freq_correct node x :
  let c := s_clock_cfg x in
  (node = CLOCK_SYS \/ node = CLOCK_TIM -> clock_get_freq node x = Done (168000000, x)) /\
  (node = CLOCK_HCLK -> hclk_prescaler c <> 0 -> clock_get_freq node x = Done (168000000 / hclk_prescaler c, x)) /\
  (node = CLOCK_PCLK1 -> 0 < hclk_prescaler c -> 0 < pclk1_prescaler c -> clock_get_freq node x = Done (168000000 / (hclk_prescaler c * pclk1_prescaler c), x)) /\
  (node = CLOCK_PCLK2 -> 0 < hclk_prescaler c -> 0 < pclk2_prescaler c -> clock_get_freq node x = Done (168000000 / (hclk_prescaler c * pclk2_prescaler c), x)) /\
  (node = CLOCK_PLL -> pll_m c <> 0 -> pll_p c <> 0 -> clock_get_freq node x = Done (u32 (hse_freq_hz c / pll_m c * pll_n c) / pll_p c, x)) /\
  (1 <= node <= 4 -> exists x', clock_deinit x = Done (tt, x') /\ clock_get_freq node x' = UB).
Proof.
  cbv zeta. unfold clock_get_freq. rewrite bind_gets. unfold udiv. repeat match goal with |- _ /\ _ => split end.
  - by intros [-> | ->].
  - intros -> H. cbn. by destruct (Z.eqb_spec (hclk_prescaler (s_clock_cfg x)) 0).
  - intros -> H1 H2. cbn. destruct (Z.eqb_spec (hclk_prescaler (s_clock_cfg x)) 0); [lia|]. unfold mbind, M_bind, mret, M_ret. destruct (Z.eqb_spec (pclk1_prescaler (s_clock_cfg x)) 0); [lia|]. by rewrite Z.div_div by lia.
  - intros -> H1 H2. cbn. destruct (Z.eqb_spec (hclk_prescaler (s_clock_cfg x)) 0); [lia|]. unfold mbind, M_bind, mret, M_ret. destruct (Z.eqb_spec (pclk2_prescaler (s_clock_cfg x)) 0); [lia|]. by rewrite Z.div_div by lia.
  - intros -> H1 H2. cbn. destruct (Z.eqb_spec (pll_m (s_clock_cfg x)) 0); [done|]. unfold mbind, M_bind, mret, M_ret. by destruct (Z.eqb_spec (pll_p (s_clock_cfg x)) 0).
  - intros Hn. eexists. split; [reflexivity|]. assert (node = 1 \/ node = 2 \/ node = 3 \/ node = 4) as [->|[->|[->| ->]]] by lia; reflexivity.
Qed.

(** ** The encoder *)

(** The speed is the distance of the count from zero in a second, however long the count; it wraps from 4294968 counts on.  The sign is lost, and the direction, which is asked of a counter that was just
    set to zero, is always forward. *)
Theorem encoder_speed_correct {D} `{Bus D} (cell : Z -> D -> Z) (plain : Z -> Prop) `{!Plain D cell plain} base period d :
  plain (tim_reg base TIM_CNT_OFFSET) -> 0 < period -> let count := s32 (cell (tim_reg base TIM_CNT_OFFSET) d) in count <> - 0x80000000 ->
  exists d', encoder_get_speed base period d = Done (u32 (Z.abs count * 1000) / period, d') /\ (Z.abs count < 4294968 -> u32 (Z.abs count * 1000) = Z.abs count * 1000) /\
    encoder_get_count base d' = Done (0, d') /\ encoder_get_direction base d' = Done (true, d').
Proof.
  intros Hp Hpos count Hc. unfold encoder_get_speed. assert (encoder_get_count base d = Done (count, d)) as E by (unfold encoder_get_count; by erewrite bind_step by (by apply (load_plain cell plain))).
  erewrite bind_step by exact E. unfold encoder_reset_count. erewrite bind_step by apply store_run. set (d' := bus_write _ _ d). exists d'. destruct (Z.eqb_spec period 0); [lia|]. destruct (Z.eqb_spec count (- 0x80000000)); [lia|].
  assert (encoder_get_count base d' = Done (0, d')) as E'.
  { unfold encoder_get_count. erewrite bind_step by (by apply (load_plain cell plain)). unfold d'. by rewrite (cell_store cell plain). }
  split; [|split; [intros Hs; apply u32_small; lia|split; [done|unfold encoder_get_direction; by erewrite bind_step by exact E']]].
  unfold mret, M_ret. do 3 f_equal. destruct (Z.ltb_spec count 0); f_equal; lia.
Qed.

(** ** Pulse width modulation *)

Section pwm.
Context {D : Type} `{Hbus : Bus D} (cell : Z -> D -> Z) (plain : Z -> Prop) `{!Plain D cell plain}.
Context (base : Z) (Hbase : 0 <= base < 0xFFFFF000).
(** The registers of a timer that is not running keep what is stored. *)
Definition is_off (off : Z) : bool := existsb (Z.eqb off) [TIM_CR1_OFFSET; TIM_CCMR1_OFFSET; TIM_CCMR2_OFFSET; TIM_CCER_OFFSET; TIM_CNT_OFFSET; TIM_PSC_OFFSET; TIM_ARR_OFFSET; 0x34; 0x38; 0x3C; 0x40].
Context (Hplain : forall off, is_off off = true -> plain (tim_reg base off)).
Definition reg (off : Z) (d : D) : Z := cell (tim_reg base off) d.
Lemma is_off_range off : is_off off = true -> 0 <= off <= 0x40.
Proof. unfold is_off. intros (x & Hx & ->%Z.eqb_eq)%existsb_exists. apply list_elem_of_In in Hx. repeat (apply elem_of_cons in Hx as [->|Hx]; [split; vm_compute; congruence|]). by apply elem_of_nil in Hx. Qed.
Lemma reg_write off off' v d : is_off off = true -> is_off off' = true -> is_u32 v -> reg off' (bus_write (tim_reg base off) v d) = if off =? off' then v else reg off' d.
Proof.
  intros Ho Ho' Hv. pose proof (is_off_range _ Ho). pose proof (is_off_range _ Ho'). unfold reg. destruct (Z.eqb_spec off off') as [->|Hne]; [by apply plain_write; [apply Hplain|]|].
  apply (plain_frame (cell := cell) (plain := plain)); [by apply Hplain|by apply Hplain|]. unfold tim_reg. rewrite !u32_small by lia. lia.
Qed.
Lemma reg_u32 off d : is_u32 (reg off d).
Proof. unfold reg. apply (plain_u32 (cell := cell) (plain := plain)). Qed.

(** A program whose only effect on the registers is a change of one of them. *)
Definition reg_changes (m : M D unit) (off : Z) (f : Z -> Z) : Prop :=
  forall d, exists d', m d = Done (tt, d') /\ forall off', is_off off' = true -> reg off' d' = if off =? off' then f (reg off d) else reg off' d.
Lemma store_reg off v : is_off off = true -> is_u32 v -> reg_changes (store (tim_reg base off) v) off (fun _ => v).
Proof. intros Ho Hv d. eexists. split; [apply store_run|]. intros off' Ho'. rewrite (u32_small v) by done. by apply reg_write. Qed.
Lemma set_bits_reg off v : is_off off = true -> is_u32 v -> reg_changes (set_bits (tim_reg base off) v) off (fun x => Z.lor x v).
Proof.
  intros Ho Hv d. eexists. split; [by apply (set_bits_run cell plain), Hplain|]. intros off' Ho'. rewrite (u32_small (Z.lor _ v)) by (apply lor_u32; [apply reg_u32|done]). apply reg_write; [done|done|].
  apply lor_u32; [apply reg_u32|done].
Qed.
Lemma clear_bits_reg off v : is_off off = true -> reg_changes (clear_bits (tim_reg base off) v) off (fun x => Z.land x (u32 (Z.lnot v))).
Proof.
  intros Ho d. eexists. split; [by apply (clear_bits_run cell plain), Hplain|]. intros off' Ho'. rewrite (u32_small (Z.land _ _)) by (apply land_u32, reg_u32). apply reg_write; [done|done|]. apply land_u32, reg_u32.
Qed.
Lemma no_change_reg (b : bool) m off f : reg_changes m off f -> reg_changes (if b then m else mret tt) off (fun x => if b then f x else x).
Proof. intros Hm d. destruct b; [apply Hm|]. exists d. split; [done|]. intros off' Ho. by destruct (Z.eqb_spec off off') as [->|]. Qed.

(** What the fields of the compare mode register are made. *)
Definition ccmr_value (shift mode x : Z) : Z := Z.lor (Z.land x (u32 (Z.lnot (Z.shiftl 0x7F shift)))) (u32 (Z.shiftl (mode +32 6) (shift + TIM_CCMR_OC1M_POS))).
Definition ccmr_ok (shift mode : Z) : bool :=
  let m := u32 (Z.lnot (Z.shiftl 0x7F shift)) in let v := u32 (Z.shiftl (mode +32 6) (shift + TIM_CCMR_OC1M_POS)) in
  forallb (fun i => Bool.eqb (Z.testbit m i) (negb ((shift <=? i) && (i <? shift + 7))) && Bool.eqb (Z.testbit v i) ((shift <=? i) && Z.testbit (Z.shiftl (mode + 6) 4) (i - shift))) (seqZ 0 32).
Lemma ccmr_value_bits shift mode x i : shift = 0 \/ shift = 8 -> 0 <= mode < 5 -> 0 <= i < 32 ->
  Z.testbit (ccmr_value shift mode x) i = (Z.testbit x i && negb ((shift <=? i) && (i <? shift + 7))) || ((shift <=? i) && Z.testbit (Z.shiftl (mode + 6) 4) (i - shift)).
Proof.
  intros Hs Hm Hi. assert (ccmr_ok shift mode = true) as H.
  { assert (mode = 0 \/ mode = 1 \/ mode = 2 \/ mode = 3 \/ mode = 4) as [->|[->|[->|[->| ->]]]] by lia; destruct Hs as [->| ->]; vm_compute; reflexivity. }
  pose proof (forallb_seqZ _ _ _ H i ltac:(lia)) as Hb. cbv beta in Hb. apply andb_true_iff in Hb as [H1%eqb_prop H2%eqb_prop]. unfold ccmr_value. by rewrite Z.lor_spec, Z.land_spec, H1, H2.
Qed.
Definition ccer_value (ch : Z) (out inverted : bool) (x : Z) : Z :=
  let x := if out then Z.lor x (Z.shiftl 1 (ch * 4)) else x in if inverted then Z.lor x (Z.shiftl 1 (ch * 4 + 1)) else x.
Lemma ccer_value_bits ch out inverted x i : 0 <= ch -> 0 <= i -> Z.testbit (ccer_value ch out inverted x) i = Z.testbit x i || out && bool_decide (i = ch * 4) || inverted && bool_decide (i = ch * 4 + 1).
Proof. intros Hc Hi. unfold ccer_value. destruct out, inverted; rewrite ?Z.lor_spec, ?testbit_bit by lia; cbn [andb]; rewrite ?orb_false_r; done. Qed.

Definition pwm_ok (c : pwm_config_t) : Prop := pwm_base c = base /\ 0 <= pwm_channel c < 4 /\ 0 <= pwm_mode c < 5 /\ is_u32 (duty_cycle c) /\ is_u32 (pwm_period c).
Definition ccmr_off (ch : Z) : Z := if ch <=? 1 then TIM_CCMR1_OFFSET else TIM_CCMR2_OFFSET.
Lemma timer_init_regs c d : tim_base c = base -> is_u32 (prescaler c) -> is_u32 (period c) -> clock_division c = 0 ->
  exists d', timer_init (Some c) d = Done (tt, d') /\
    forall off, is_off off = true -> reg off d' = if off =? TIM_CR1_OFFSET then if auto_reload_preload c then 0x80 else 0 else if off =? TIM_PSC_OFFSET then prescaler c else if off =? TIM_ARR_OFFSET then period c else if off =? TIM_CNT_OFFSET then 0 else reg off d.
Proof.
  intros Hb Hp Hper Hdiv. unfold timer_init. rewrite Hb, Hdiv.
  destruct (store_reg TIM_CR1_OFFSET 0 eq_refl ltac:(unfold is_u32; lia) d) as (d1 & E1 & R1). destruct (store_reg TIM_PSC_OFFSET (prescaler c) eq_refl Hp d1) as (d2 & E2 & R2).
  destruct (store_reg TIM_ARR_OFFSET (period c) eq_refl Hper d2) as (d3 & E3 & R3). destruct (store_reg TIM_CNT_OFFSET 0 eq_refl ltac:(unfold is_u32; lia) d3) as (d4 & E4 & R4).
  destruct (no_change_reg (auto_reload_preload c) _ _ _ (set_bits_reg TIM_CR1_OFFSET TIM_CR1_ARPE eq_refl ltac:(vm_compute; intuition congruence)) d4) as (d5 & E5 & R5).
  destruct (set_bits_reg TIM_CR1_OFFSET 0 eq_refl ltac:(unfold is_u32; lia) d5) as (d6 & E6 & R6).
  exists d6. split; [erewrite bind_step by exact E1; erewrite bind_step by exact E2; erewrite bind_step by exact E3; erewrite bind_step by exact E4; erewrite bind_step by exact E5; exact E6|].
  intros off Ho. rewrite R6, !R5, !R4, !R3, !R2, !R1 by done. rewrite !(Z.eqb_sym off). destruct (Z.eqb_spec TIM_CR1_OFFSET off) as [<-|Hne].
  - cbn. by destruct (auto_reload_preload c).
  - destruct (Z.eqb_spec TIM_PSC_OFFSET off) as [<-|]; [done|]. destruct (Z.eqb_spec TIM_ARR_OFFSET off) as [<-|]; [done|]. by destruct (Z.eqb_spec TIM_CNT_OFFSET off).
Qed.

(** Setting up pulse width modulation stops the counter, sets period and duty cycle and the output and polarity bits of the channel and leaves the registers of other channels and the other bits as they are.
    The mode field is mode 6 or 7 of the hardware, pulse width modulation, for the first two modes only.  For the centre-aligned ones it is 0, 1 or 2, none of which is pulse width modulation, and
    the counter is not made to count up and down; and what an earlier set-up inverted or enabled stays so. *)
Theorem pwm_init_correct c d :
  pwm_ok c ->
  exists d', pwm_init (Some c) d = Done (tt, d') /\
    let ch := pwm_channel c in let shift := ch mod 2 * 8 in
    reg TIM_CR1_OFFSET d' = 0x80 /\ reg TIM_PSC_OFFSET d' = 0 /\ reg TIM_ARR_OFFSET d' = pwm_period c /\ reg TIM_CNT_OFFSET d' = 0 /\ reg (0x34 + ch * 4) d' = duty_cycle c /\
    field (reg (ccmr_off ch) d') (shift + 4) 3 = (if pwm_mode c <? 2 then pwm_mode c + 6 else pwm_mode c - 2) /\
    (forall i, 0 <= i < 32 -> i < shift \/ shift + 8 <= i -> Z.testbit (reg (ccmr_off ch) d') i = Z.testbit (reg (ccmr_off ch) d) i) /\
    (forall i, 0 <= i < 32 -> Z.testbit (reg TIM_CCER_OFFSET d') i =
       Z.testbit (reg TIM_CCER_OFFSET d) i || output_enable c && bool_decide (i = ch * 4) || (output_type c =? PWM_OUTPUT_INVERTED) && bool_decide (i = ch * 4 + 1)) /\
    (forall off, is_off off = true -> off <> 0x34 + ch * 4 -> off <> ccmr_off ch -> off ∉ [TIM_CR1_OFFSET; TIM_PSC_OFFSET; TIM_ARR_OFFSET; TIM_CNT_OFFSET; TIM_CCER_OFFSET] -> reg off d' = reg off d).
Proof.
  intros (Hb & Hch & Hm & Hd & Hp). set (ch := pwm_channel c) in *.
  destruct (timer_init_regs (TimerConfig (pwm_base c) 0 (pwm_period c) 0 0 0 true) d Hb ltac:(unfold is_u32; cbn; lia) Hp eq_refl) as (d1 & E1 & R1). cbn [auto_reload_preload prescaler period] in R1.
  assert (is_off (ccmr_off ch) = true /\ is_off (0x34 + ch * 4) = true /\ ccr_offset ch = 0x34 + ch * 4 /\ (if Z.land ch 1 =? 0 then 0 else 8) = ch mod 2 * 8 /\ (ch mod 2 * 8 = 0 \/ ch mod 2 * 8 = 8) /\
    is_u32 (u32 (Z.shiftl (pwm_mode c +32 6) (ch mod 2 * 8 + TIM_CCMR_OC1M_POS)))) as (O1 & O2 & Ec & Es & Hs & Hv).
  { assert (ch = 0 \/ ch = 1 \/ ch = 2 \/ ch = 3) as [->|[->|[->| ->]]] by lia; repeat split; try reflexivity; try apply u32_range; vm_compute; intuition congruence. }
  set (shift := ch mod 2 * 8) in *. assert (forall k, 0 <= k < 16 -> is_u32 (Z.shiftl 1 k)) as Hbit by (intros k Hk; apply u32_bits; intros i Hi; rewrite testbit_bit by lia; apply bool_decide_false; lia).
  destruct (clear_bits_reg (ccmr_off ch) (Z.shiftl 0x7F shift) O1 d1) as (d2 & E2 & R2). destruct (set_bits_reg (ccmr_off ch) _ O1 Hv d2) as (d3 & E3 & R3).
  destruct (no_change_reg (output_enable c) _ _ _ (set_bits_reg TIM_CCER_OFFSET (Z.shiftl 1 (ch * 4)) eq_refl (Hbit (ch * 4) ltac:(lia))) d3) as (d4 & E4 & R4).
  destruct (no_change_reg (output_type c =? PWM_OUTPUT_INVERTED) _ _ _ (set_bits_reg TIM_CCER_OFFSET (Z.shiftl 1 (ch * 4 + 1)) eq_refl (Hbit (ch * 4 + 1) ltac:(lia))) d4) as (d5 & E5 & R5).
  destruct (store_reg (0x34 + ch * 4) (duty_cycle c) O2 Hd d5) as (d6 & E6 & R6).
  exists d6. split.
  { unfold pwm_init. erewrite bind_step by exact E1. fold ch. change TIM_CHANNEL_2 with 1. rewrite Hb. fold (ccmr_off ch). rewrite Es. erewrite bind_step by exact E2. erewrite bind_step by exact E3.
    unfold shl32. destruct (Z.leb_spec 32 (ch * 4)); [lia|]. rewrite (u32_small (Z.shiftl TIM_CCER_CC1E _)) by (apply (Hbit (ch * 4)); lia).
    assert (u32 (Z.shiftl TIM_CCER_CC1P (ch * 4)) = Z.shiftl 1 (ch * 4 + 1)) as -> by (unfold TIM_CCER_CC1P; rewrite Z.shiftl_shiftl, (Z.add_comm 1) by lia; apply u32_small, Hbit; lia).
    erewrite bind_step by exact E4. erewrite bind_step by exact E5. unfold pwm_set_duty_cycle. fold ch. rewrite Ec. exact E6. }
  cbv zeta. fold ch. fold shift.
  assert (forall off, is_off off = true -> reg off d6 = if 0x34 + ch * 4 =? off then duty_cycle c else if TIM_CCER_OFFSET =? off then ccer_value ch (output_enable c) (output_type c =? PWM_OUTPUT_INVERTED) (reg off d)
    else if ccmr_off ch =? off then ccmr_value shift (pwm_mode c) (reg off d) else reg off d1) as R.
  { intros off Ho. rewrite R6 by done. destruct (Z.eqb_spec (0x34 + ch * 4) off); [done|]. rewrite R5 by done. destruct (Z.eqb_spec TIM_CCER_OFFSET off) as [<-|].
    - rewrite !R4, !R3, !R2, !R1 by done. rewrite Z.eqb_refl. by assert (ch = 0 \/ ch = 1 \/ ch = 2 \/ ch = 3) as [->|[->|[->| ->]]] by lia.
    - rewrite R4 by done. destruct (Z.eqb_spec TIM_CCER_OFFSET off); [done|]. rewrite R3 by done. destruct (Z.eqb_spec (ccmr_off ch) off) as [<-|]; [|rewrite R2 by done; by destruct (Z.eqb_spec (ccmr_off ch) off)].
      rewrite R2 by done. rewrite Z.eqb_refl. rewrite R1 by done. unfold ccmr_value. by assert (ch = 0 \/ ch = 1 \/ ch = 2 \/ ch = 3) as [->|[->|[->| ->]]] by lia. }
  assert (forall off, off ∈ [TIM_CR1_OFFSET; TIM_PSC_OFFSET; TIM_ARR_OFFSET; TIM_CNT_OFFSET] -> is_off off = true /\ reg off d6 = reg off d1) as R'.
  { intros off Ho. assert (is_off off = true /\ (0x34 + ch * 4 =? off) = false /\ (TIM_CCER_OFFSET =? off) = false /\ (ccmr_off ch =? off) = false) as (I & X1 & X2 & X3).
    { assert (ch = 0 \/ ch = 1 \/ ch = 2 \/ ch = 3) as [->|[->|[->| ->]]] by lia; repeat (apply elem_of_cons in Ho as [->|Ho]; [by repeat split|]); by apply elem_of_nil in Ho. }
    split; [done|]. by rewrite R, X1, X2, X3. }
  split; [rewrite (proj2 (R' TIM_CR1_OFFSET ltac:(set_solver))); by rewrite R1|]. split; [rewrite (proj2 (R' TIM_PSC_OFFSET ltac:(set_solver))); by rewrite R1|].
  split; [rewrite (proj2 (R' TIM_ARR_OFFSET ltac:(set_solver))); by rewrite R1|]. split; [rewrite (proj2 (R' TIM_CNT_OFFSET ltac:(set_solver))); by rewrite R1|].
  split; [rewrite R by done; by rewrite Z.eqb_refl|].
  assert (reg (ccmr_off ch) d6 = ccmr_value shift (pwm_mode c) (reg (ccmr_off ch) d)) as Rc.
  { rewrite R by done. rewrite Z.eqb_refl. by assert (ch = 0 \/ ch = 1 \/ ch = 2 \/ ch = 3) as [->|[->|[->| ->]]] by lia. }
  rewrite Rc. split; [|split; [|split]].
  - apply Z.bits_inj'. intros i Hi. rewrite testbit_field by lia. destruct (Z.ltb_spec i 3) as [Hlt|Hge]; cbn [andb].
    + rewrite ccmr_value_bits by (done || lia). replace ((shift <=? shift + 4 + i) && (shift + 4 + i <? shift + 7)) with true by (symmetry; apply andb_true_iff; rewrite Z.leb_le, Z.ltb_lt; lia). cbn [negb]. rewrite andb_false_r, orb_false_l.
      destruct (Z.leb_spec shift (shift + 4 + i)); [|lia]. cbn [andb]. replace (shift + 4 + i - shift) with (i + 4) by lia. rewrite Z.shiftl_spec by lia. replace (i + 4 - 4) with i by lia.
      assert (i = 0 \/ i = 1 \/ i = 2) as [->|[->| ->]] by lia; assert (pwm_mode c = 0 \/ pwm_mode c = 1 \/ pwm_mode c = 2 \/ pwm_mode c = 3 \/ pwm_mode c = 4) as [->|[->|[->|[->| ->]]]] by lia; reflexivity.
    + symmetry. apply (testbit_high 3); [|lia]. change (2 ^ 3) with 8. destruct (Z.ltb_spec (pwm_mode c) 2); lia.
  - intros i Hi Ho. rewrite ccmr_value_bits by (done || lia). replace ((shift <=? i) && (i <? shift + 7)) with false by (symmetry; apply andb_false_iff; rewrite Z.leb_gt, Z.ltb_ge; lia). cbn [negb]. rewrite andb_true_r.
    assert ((shift <=? i) && Z.testbit (Z.shiftl (pwm_mode c + 6) 4) (i - shift) = false) as ->; [|apply orb_false_r]. destruct (Z.leb_spec shift i); [|done]. cbn [andb]. apply (testbit_high 8); [rewrite Z.shiftl_mul_pow2 by lia; lia|lia].
  - intros i Hi. rewrite R by done. replace (0x34 + ch * 4 =? TIM_CCER_OFFSET) with false by (symmetry; apply Z.eqb_neq; unfold TIM_CCER_OFFSET; lia). rewrite Z.eqb_refl. apply ccer_value_bits; lia.
  - intros off Ho N1 N2 N3. rewrite R by done. rewrite !not_elem_of_cons in N3. destruct N3 as (M1 & M2 & M3 & M4 & M5 & _).
    destruct (Z.eqb_spec (0x34 + ch * 4) off); [congruence|]. destruct (Z.eqb_spec TIM_CCER_OFFSET off); [congruence|]. destruct (Z.eqb_spec (ccmr_off ch) off); [congruence|]. rewrite R1 by done.
    by rewrite (proj2 (Z.eqb_neq _ _) M1), (proj2 (Z.eqb_neq _ _) M2), (proj2 (Z.eqb_neq _ _) M3), (proj2 (Z.eqb_neq _ _) M4).
Qed.
End pwm.

(** ** Concrete runs *)

Definition demo_statics : statics := set_s_crc_polynomial 0x04C11DB7 initial_statics.
Lemma crc_correct_witness :
  crc_calculate_byte (Some ([0x31323334; 0x35363738] ≫= be_bytes 4)) 8 demo_statics = crc_calculate (Some [0x31323334; 0x35363738]) 2 demo_statics /\
  exists r x' r2 x2, crc_calculate (Some [0x31323334; 0x35363738]) 2 demo_statics = Done (r, x') /\ crc_calculate (Some [0x31323334; 0x35363739]) 2 demo_statics = Done (r2, x2) /\ r2 <> r.
Proof.
  assert (Forall is_u32 [0x31323334; 0x35363738]) as Hw by (repeat constructor; vm_compute; congruence).
  destruct (crc_correct [0x31323334; 0x35363738] demo_statics Hw) as (E & r & x' & Er & _ & D & _).
  split; [exact E|]. destruct (D [0x31323334] 0x35363738 0x35363739 []) as (r2 & x2 & E2 & Hne); [split; vm_compute; congruence|reflexivity|split; vm_compute; congruence|vm_compute; congruence|reflexivity|].
  exists r, x', r2, x2. split; [exact Er|]. split; [exact E2|exact Hne].
Defined.
Lemma clocks_refine_witness : exists l, run_clock_calls [(true, 0x40026000); (true, 0x40010000); (true, 0x40026000); (false, 0x40026000)] initial_statics = Done (tt, set_s_periph_clocks_enabled l initial_statics) /\
  occurrences 0x40026000 l = 1%nat /\ occurrences 0x40010000 l = 1%nat.
Proof.
  destruct (clocks_refine [(true, 0x40026000); (true, 0x40010000); (true, 0x40026000); (false, 0x40026000)] initial_statics) as (l & E & _ & F & _);
    [repeat constructor; vm_compute; congruence|apply Nat.leb_le; vm_compute; reflexivity|]. exists l. split; [exact E|]. rewrite !F by (vm_compute; congruence). split; vm_compute; reflexivity.
Defined.
Definition demo_pwm : pwm_config_t := PwmConfig 0x40000400 3 2 1 500 1000 true.
Lemma pwm_init_correct_witness :
  exists d', pwm_init (Some demo_pwm) (Memory ∅ ∅) = Done (tt, d') /\ memory_cell (tim_reg 0x40000400 0x40) d' = 500 /\ field (memory_cell (tim_reg 0x40000400 0x1C) d') 12 3 = 0.
Proof.
  destruct (pwm_init_correct memory_cell (fun _ => True) 0x40000400 ltac:(split; vm_compute; congruence) (fun _ _ => I) demo_pwm (Memory ∅ ∅)) as (d' & E & _ & _ & _ & _ & R & F & _);
    [repeat split; vm_compute; congruence|]. exists d'. split; [exact E|]. split; [exact R|exact F].
Defined.
Lemma encoder_speed_correct_witness : exists d', encoder_get_speed 0x40000400 10 (Memory {[tim_reg 0x40000400 TIM_CNT_OFFSET := 0xFFFFFFF6]} ∅) = Done (1000, d') /\ encoder_get_direction 0x40000400 d' = Done (true, d').
Proof.
  destruct (encoder_speed_correct memory_cell (fun _ => True) 0x40000400 10 (Memory {[tim_reg 0x40000400 TIM_CNT_OFFSET := 0xFFFFFFF6]} ∅)) as (d' & E & _ & _ & D); [exact I|reflexivity|vm_compute; congruence|].
  exists d'. split; [exact E|exact D].
Defined.
