(* ===== verification/GpioUart.v ===== *)
(** * Pins and serial interfaces (mini-mcu-embedded/src/gpio_uart.c)

    General-purpose pins, UART, SPI and I2C as sequences of volatile accesses.  What the pins, a serial line and an I2C bus do behind their registers are the classes [GpioPort], [UartLine] and [I2cBus], each
    with an instance.  Waiting loops take a number of rounds.  [uart_init] is left out: it does not parse. *)
From S2P Require Import Prelude Registers.

Definition GPIO_MODER_OFFSET : Z := 0x00.
Definition GPIO_OTYPER_OFFSET : Z := 0x04.
Definition GPIO_OSPEEDR_OFFSET : Z := 0x08.
Definition GPIO_PUPDR_OFFSET : Z := 0x0C.
Definition GPIO_IDR_OFFSET : Z := 0x10.
Definition GPIO_ODR_OFFSET : Z := 0x14.
Definition GPIO_BSRR_OFFSET : Z := 0x18.
Definition GPIO_LCKR_OFFSET : Z := 0x1C.
Definition GPIO_AFRL_OFFSET : Z := 0x20.
Definition GPIO_AFRH_OFFSET : Z := 0x24.
Definition UART_SR_OFFSET : Z := 0x00.
Definition UART_DR_OFFSET : Z := 0x04.
Definition UART_CR1_OFFSET : Z := 0x0C.
Definition SPI_CR1_OFFSET : Z := 0x00.
Definition SPI_CR2_OFFSET : Z := 0x04.
Definition SPI_SR_OFFSET : Z := 0x08.
Definition SPI_DR_OFFSET : Z := 0x0C.
Definition I2C_CR1_OFFSET : Z := 0x00.
Definition I2C_CR2_OFFSET : Z := 0x04.
Definition I2C_OAR1_OFFSET : Z := 0x08.
Definition I2C_DR_OFFSET : Z := 0x10.
Definition I2C_SR1_OFFSET : Z := 0x14.
Definition I2C_SR2_OFFSET : Z := 0x18.
Definition I2C_CCR_OFFSET : Z := 0x1C.
Definition I2C_TRISE_OFFSET : Z := 0x20.
Definition UART_SR_TXE : Z := 0x80.
Definition UART_SR_RXNE : Z := 0x20.
Definition SPI_MODE_MASTER : Z := 0x1.
Definition SPI_SR_RXNE : Z := 0x01.
Definition SPI_SR_TXE : Z := 0x02.
Definition SPI_SR_BSY : Z := 0x80.
Definition I2C_DUTY_CYCLE_2 : Z := 0x0.
Definition I2C_ADDR_MODE_10BIT : Z := 0x1.
Definition I2C_SR_SB : Z := 0x0001.
Definition I2C_SR_ADDR : Z := 0x0002.
Definition I2C_SR_BTF : Z := 0x0004.
Definition I2C_SR_TXE : Z := 0x0080.
Definition I2C_SR_RXNE : Z := 0x0040.
Definition I2C_SR_AF : Z := 0x0400.
Definition I2C_CR1_PE : Z := 0x0001.
Definition I2C_CR1_START : Z := 0x0100.
Definition I2C_CR1_STOP : Z := 0x0200.
Definition I2C_CR1_ACK : Z := 0x0400.

(** Enumerators are their values. *)
Definition gpio_mode_t : Set := Z.
Definition gpio_output_type_t : Set := Z.
Definition gpio_pull_config_t : Set := Z.
Definition gpio_alt_func_t : Set := Z.
Record gpio_pin_t := GpioPin { port_base : Z; pin_mask : Z }.
Record spi_config_t := SpiConfig { spi_base : Z; spi_mode : Z; spi_direction : Z; data_size : Z; cpol : Z; cpha : Z; baud_prescaler : Z; first_bit : Z; crc_enable : bool }.
Record i2c_config_t := I2cConfig { i2c_base : Z; clock_speed : Z; duty_cycle : Z; own_address : Z; addr_mode : Z; general_call : bool; no_stretch : bool }.
Section interfaces.
Context {D : Type} `{Bus D}.

(** ** Pins *)

(** What is done for one pin: the bits of [w] at a position that is [w] times the number of the pin are replaced. *)
Definition pin_field (a pin_pos w v : Z) : M D unit :=
  clear_bits a (u32 (Z.shiftl (Z.ones w) (pin_pos * w)));; set_bits a (u32 (Z.shiftl v (pin_pos * w))).
(** The loop over the pins from [pin_pos] on, of which [n] are left. *)
Fixpoint pin_loop (n : nat) (pin_pos mask : Z) (body : Z -> M D unit) : M D unit :=
  match n with
  | O => mret tt
  | S n => (if Z.land mask (Z.shiftl 1 pin_pos) =? 0 then mret tt else body pin_pos);; pin_loop n (pin_pos + 1) mask body
  end.
Definition gpio_init (pin : gpio_pin_t) (mode : gpio_mode_t) (otype : gpio_output_type_t) (pull : gpio_pull_config_t) (speed : Z) : M D unit :=
  pin_loop 16 0 (pin_mask pin) (fun pin_pos =>
    pin_field (port_base pin +32 GPIO_MODER_OFFSET) pin_pos 2 mode;;
    pin_field (port_base pin +32 GPIO_OSPEEDR_OFFSET) pin_pos 2 speed;;
    pin_field (port_base pin +32 GPIO_OTYPER_OFFSET) pin_pos 1 otype;;
    pin_field (port_base pin +32 GPIO_PUPDR_OFFSET) pin_pos 2 pull).
Definition gpio_set_alt_func (pin : gpio_pin_t) (af : gpio_alt_func_t) : M D unit :=
  pin_loop 16 0 (pin_mask pin) (fun pin_pos =>
    pin_field (if pin_pos <? 8 then port_base pin +32 GPIO_AFRL_OFFSET else port_base pin +32 GPIO_AFRH_OFFSET) (Z.land pin_pos 0x7) 4 af).
Definition gpio_write_pin (pin : gpio_pin_t) (value : bool) : M D unit :=
  let bsrr := port_base pin +32 GPIO_BSRR_OFFSET in if value then store bsrr (pin_mask pin) else store bsrr (Z.shiftl (pin_mask pin) 16).
Definition gpio_write_port (base value : Z) : M D unit := store (base +32 GPIO_ODR_OFFSET) value.
Definition gpio_read_pin (pin : gpio_pin_t) : M D bool := v ← load (port_base pin +32 GPIO_IDR_OFFSET); mret (negb (Z.land v (pin_mask pin) =? 0)).
Definition gpio_read_port (base : Z) : M D Z := v ← load (base +32 GPIO_IDR_OFFSET); mret (u16 (Z.land v 0xFFFF)).
Definition gpio_toggle_pin (pin : gpio_pin_t) : M D unit := let odr := port_base pin +32 GPIO_ODR_OFFSET in v ← load odr; store odr (Z.lxor v (pin_mask pin)).
Definition gpio_set_pull (pin : gpio_pin_t) (pull : gpio_pull_config_t) : M D unit :=
  pin_loop 16 0 (pin_mask pin) (fun pin_pos => pin_field (port_base pin +32 GPIO_PUPDR_OFFSET) pin_pos 2 pull).
Definition gpio_lock_pin (pin : gpio_pin_t) : M D unit :=
  let lckr := port_base pin +32 GPIO_LCKR_OFFSET in
  store lckr (Z.lor (Z.shiftl 1 16) (pin_mask pin));; store lckr (pin_mask pin);; store lckr (Z.lor (Z.shiftl 1 16) (pin_mask pin));; load lckr;; mret tt.

(** The rounds that a waiting loop may take. *)
Variable rounds : nat.

(** ** UART *)

Definition uart_deinit (base : Z) : M D unit := store (base +32 UART_CR1_OFFSET) 0.
Definition uart_transmit_byte (base byte : Z) : M D unit := wait_bits rounds (base +32 UART_SR_OFFSET) UART_SR_TXE;; store (base +32 UART_DR_OFFSET) byte.
Fixpoint uart_transmit_loop (n : nat) (i base : Z) (data : list Z) : M D unit :=
  match n with O => mret tt | S n => b ← of_option (data !! Z.to_nat i); uart_transmit_byte base b;; uart_transmit_loop n (i + 1) base data end.
Definition uart_transmit (base : Z) (data : list Z) (size : Z) : M D unit := uart_transmit_loop (Z.to_nat size) 0 base data.
Definition uart_receive_byte (base : Z) : M D Z := wait_bits rounds (base +32 UART_SR_OFFSET) UART_SR_RXNE;; v ← load (base +32 UART_DR_OFFSET); mret (u8 v).
(** A store into the caller's buffer. *)
Definition put (buffer : list Z) (i v : Z) : M D (list Z) := if (0 <=? i) && (i <? Z.of_nat (length buffer)) then mret (<[Z.to_nat i := v]> buffer) else undefined.
(** The loop: [n] more bytes fit.  The count and what is in the buffer. *)
Fixpoint uart_receive_loop (n : nat) (count base : Z) (buffer : list Z) : M D (Z * list Z) :=
  match n with
  | O => mret (count, buffer)
  | S n =>
      s ← load (base +32 UART_SR_OFFSET);
      if Z.land s UART_SR_RXNE =? 0 then mret (count, buffer) else v ← load (base +32 UART_DR_OFFSET); buffer ← put buffer count (u8 v); uart_receive_loop n (count + 1) base buffer
  end.
Definition uart_receive (base : Z) (buffer : list Z) (max_size : Z) : M D (Z * list Z) := uart_receive_loop (Z.to_nat max_size) 0 base buffer.
Definition uart_enable_interrupt (base flags : Z) : M D unit := set_bits (base +32 UART_CR1_OFFSET) flags.
Definition uart_disable_interrupt (base flags : Z) : M D unit := clear_bits (base +32 UART_CR1_OFFSET) flags.
Definition uart_get_status (base : Z) : M D Z := load (base +32 UART_SR_OFFSET).
(** The string is what is behind its pointer; reading on without a zero byte is undefined. *)
Fixpoint uart_send_string (base : Z) (str : list Z) : M D unit :=
  match str with [] => undefined | b :: str => if b =? 0 then mret tt else uart_transmit_byte base b;; uart_send_string base str end.
(** The loop; [fuel] is the number of characters it may take. *)
Fixpoint uart_line_loop (fuel : nat) (base : Z) (buffer : list Z) (max_size count : Z) : M D (Z * list Z) :=
  match fuel with
  | O => nofuel
  | S fuel =>
      ch ← uart_receive_byte base;
      r ← (if negb (ch =? 13) && negb (ch =? 10) && (count <? max_size -32 1) then buffer ← put buffer count ch; mret (count +32 1, buffer) else mret (count, buffer));
      let '(count, buffer) := r in
      if negb (ch =? 10) && (count <? max_size -32 1) then uart_line_loop fuel base buffer max_size count else mret (count, buffer)
  end.
Definition uart_receive_line (fuel : nat) (base : Z) (buffer : list Z) (max_size : Z) : M D (Z * list Z) :=
  r ← uart_line_loop fuel base buffer max_size 0;
  let '(count, buffer) := r in buffer ← put buffer count 0; mret (count, buffer).

(** ** SPI *)

Definition spi_cr1_value (c : spi_config_t) : Z :=
  let reg := if spi_mode c =? SPI_MODE_MASTER then Z.lor 0 (Z.shiftl 1 2) else 0 in
  let reg := if truthy (cpol c) then Z.lor reg (Z.shiftl 1 1) else reg in
  let reg := if truthy (cpha c) then Z.lor reg (Z.shiftl 1 0) else reg in
  let reg := Z.lor reg (u32 (Z.shiftl (baud_prescaler c) 3)) in
  let reg := Z.lor reg (u32 (Z.shiftl (Z.land (data_size c) 0xF) 8)) in
  let reg := if truthy (first_bit c) then Z.lor reg (Z.shiftl 1 7) else reg in
  let reg := Z.lor reg (Z.shiftl 1 6) in
  Z.lor reg (Z.shiftl 1 9).
Definition spi_init (c : spi_config_t) : M D unit := store (spi_base c +32 SPI_CR1_OFFSET) (spi_cr1_value c).
Definition spi_deinit (base : Z) : M D unit := store (base +32 SPI_CR1_OFFSET) 0.
Definition spi_exchange (base data : Z) : M D Z :=
  let sr := base +32 SPI_SR_OFFSET in
  wait_bits rounds sr SPI_SR_TXE;; store (base +32 SPI_DR_OFFSET) data;; wait_bits rounds sr SPI_SR_RXNE;; wait_clear rounds sr SPI_SR_BSY;; load (base +32 SPI_DR_OFFSET).
Definition spi_transmit_receive_8 (base data : Z) : M D Z := v ← spi_exchange base data; mret (u8 v).
Definition spi_transmit_receive_16 (base data : Z) : M D Z := v ← spi_exchange base data; mret (u16 v).
Definition spi_transmit_8 (base data : Z) : M D unit := wait_bits rounds (base +32 SPI_SR_OFFSET) SPI_SR_TXE;; store (base +32 SPI_DR_OFFSET) data.
Definition spi_transmit_16 (base data : Z) : M D unit := wait_bits rounds (base +32 SPI_SR_OFFSET) SPI_SR_TXE;; store (base +32 SPI_DR_OFFSET) data.
Definition spi_receive_8 (base : Z) : M D Z := spi_transmit_receive_8 base 0xFF.
Definition spi_receive_16 (base : Z) : M D Z := spi_transmit_receive_16 base 0xFFFF.
Definition spi_enable_interrupt (base flags : Z) : M D unit := set_bits (base +32 SPI_CR2_OFFSET) flags.
Definition spi_disable_interrupt (base flags : Z) : M D unit := clear_bits (base +32 SPI_CR2_OFFSET) flags.
Definition spi_is_busy (base : Z) : M D bool := v ← load (base +32 SPI_SR_OFFSET); mret (negb (Z.land v SPI_SR_BSY =? 0)).

(** ** I2C *)

Definition udiv32 (a b : Z) : M D Z := if b =? 0 then undefined else mret (a / b).
Definition i2c_init (c : i2c_config_t) : M D unit :=
  let base := i2c_base c in
  let ccr := base +32 I2C_CCR_OFFSET in
  let trise := base +32 I2C_TRISE_OFFSET in
  let oar1 := base +32 I2C_OAR1_OFFSET in
  clear_bits (base +32 I2C_CR1_OFFSET) I2C_CR1_PE;;
  store (base +32 I2C_CR2_OFFSET) 42;;
  let pclk := 42000000 in
  (if clock_speed c <=? 100000 then q ← udiv32 pclk (u32 (Z.shiftl (clock_speed c) 1)); store ccr (Z.land q 0xFFF);; store trise 43
   else
     (if duty_cycle c =? I2C_DUTY_CYCLE_2 then q ← udiv32 pclk (clock_speed c *32 3); store ccr (Z.land q 0xFFF)
      else q ← udiv32 pclk (clock_speed c *32 25); store ccr (Z.land q 0xFFF);; set_bits ccr (Z.shiftl 1 15));;
     store trise 12);;
  store oar1 (Z.shiftl (own_address c) 1);;
  (if addr_mode c =? I2C_ADDR_MODE_10BIT then set_bits oar1 (Z.shiftl 1 15) else mret tt);;
  store (base +32 I2C_CR1_OFFSET) I2C_CR1_PE.
Definition i2c_deinit (base : Z) : M D unit := store (base +32 I2C_CR1_OFFSET) 0.
Definition i2c_generate_start (base : Z) : M D unit := set_bits (base +32 I2C_CR1_OFFSET) I2C_CR1_START;; wait_bits rounds (base +32 I2C_SR1_OFFSET) I2C_SR_SB.
Definition i2c_generate_stop (base : Z) : M D unit := set_bits (base +32 I2C_CR1_OFFSET) I2C_CR1_STOP.
Definition i2c_send_address (base address : Z) (is_read : bool) : M D unit :=
  store (base +32 I2C_DR_OFFSET) (Z.lor (Z.shiftl address 1) (if is_read then 1 else 0));; wait_bits rounds (base +32 I2C_SR1_OFFSET) I2C_SR_ADDR;; load (base +32 I2C_SR2_OFFSET);; mret tt.
Definition i2c_send_data (base data : Z) : M D bool :=
  let sr1 := base +32 I2C_SR1_OFFSET in
  wait_bits rounds sr1 I2C_SR_TXE;; store (base +32 I2C_DR_OFFSET) data;; wait_bits rounds sr1 (Z.lor I2C_SR_TXE I2C_SR_BTF);; v ← load sr1; mret (Z.land v I2C_SR_AF =? 0).
Definition i2c_receive_data (base : Z) (ack : bool) : M D Z :=
  let cr1 := base +32 I2C_CR1_OFFSET in
  (if ack then set_bits cr1 I2C_CR1_ACK else clear_bits cr1 I2C_CR1_ACK);; wait_bits rounds (base +32 I2C_SR1_OFFSET) I2C_SR_RXNE;; v ← load (base +32 I2C_DR_OFFSET); mret (u8 v).
(** The loops over data: whether all of it was acknowledged, with a stop if not. *)
Fixpoint i2c_send_loop (n : nat) (i base : Z) (data : list Z) : M D bool :=
  match n with
  | O => mret true
  | S n => b ← of_option (data !! Z.to_nat i); ok ← i2c_send_data base b; if negb ok then i2c_generate_stop base;; mret false else i2c_send_loop n (i + 1) base data
  end.
Fixpoint i2c_receive_loop (n : nat) (i base : Z) (buffer : list Z) (size : Z) : M D (list Z) :=
  match n with O => mret buffer | S n => v ← i2c_receive_data base (i <? size -32 1); buffer ← put buffer i v; i2c_receive_loop n (i + 1) base buffer size end.
Definition i2c_master_transmit (base dev_addr : Z) (data : list Z) (size : Z) : M D bool :=
  i2c_generate_start base;; i2c_send_address base dev_addr false;;
  ok ← i2c_send_loop (Z.to_nat size) 0 base data;
  if negb ok then mret false else i2c_generate_stop base;; mret true.
Definition i2c_master_receive (base dev_addr : Z) (buffer : list Z) (size : Z) : M D (bool * list Z) :=
  i2c_generate_start base;; i2c_send_address base dev_addr true;;
  buffer ← i2c_receive_loop (Z.to_nat size) 0 base buffer size; i2c_generate_stop base;; mret (true, buffer).
Definition i2c_master_write_read (base dev_addr reg_addr : Z) (tx_data : option (list Z)) (tx_size : Z) (rx_buffer : list Z) (rx_size : Z) : M D (bool * list Z) :=
  i2c_generate_start base;; i2c_send_address base dev_addr false;;
  ok ← i2c_send_data base reg_addr;
  if negb ok then i2c_generate_stop base;; mret (false, rx_buffer)
  else
    ok ← match tx_data with Some data => if 0 <? tx_size then i2c_send_loop (Z.to_nat tx_size) 0 base data else mret true | None => mret true end;
    if negb ok then mret (false, rx_buffer)
    else
      i2c_generate_start base;; i2c_send_address base dev_addr true;;
      rx_buffer ← i2c_receive_loop (Z.to_nat rx_size) 0 base rx_buffer rx_size; i2c_generate_stop base;; mret (true, rx_buffer).
Fixpoint i2c_probe_loop (n : nat) (a : Z) : M D unit :=
  v ← load a; if negb (Z.land v (Z.lor I2C_SR_ADDR I2C_SR_AF) =? 0) then mret tt else match n with O => mret tt | S n => i2c_probe_loop n a end.
Fixpoint i2c_ready_loop (retries : nat) (base dev_addr : Z) : M D bool :=
  match retries with
  | O => mret false
  | S n =>
      let cr1 := base +32 I2C_CR1_OFFSET in let sr1 := base +32 I2C_SR1_OFFSET in
      i2c_generate_start base;; set_bits cr1 I2C_CR1_START;; wait_bits rounds sr1 I2C_SR_SB;;
      store (base +32 I2C_DR_OFFSET) (Z.shiftl dev_addr 1);;
      i2c_probe_loop 10000 sr1;;
      v ← load sr1;
      if negb (Z.land v I2C_SR_ADDR =? 0) then load (base +32 I2C_SR2_OFFSET);; i2c_generate_stop base;; mret true
      else set_bits cr1 I2C_CR1_STOP;; i2c_ready_loop n base dev_addr
  end.
Definition i2c_is_device_ready (base dev_addr retries : Z) : M D bool := i2c_ready_loop (Z.to_nat retries) base dev_addr.
End interfaces.

(** ** Pins *)

Section pins.
Context {D : Type} `{Hbus : Bus D} (cell : Z -> D -> Z) (plain : Z -> Prop) `{!Plain D cell plain}.

(** A field of one register put, its other bits and the other registers kept. *)
Lemma pin_field_run a pos w v d : plain a -> 0 <= pos -> 0 < w -> pos * w + w <= 32 -> 0 <= v < 2 ^ w ->
  exists d', pin_field a pos w v d = Done (tt, d') /\ cell a d' = put_field (cell a d) (pos * w) w v /\ forall b, plain b -> b <> a -> cell b d' = cell b d.
Proof.
  intros Ha Hp Hw Hpw Hv. assert (forall x, 0 <= x < 2 ^ w -> u32 (Z.shiftl x (pos * w)) = Z.shiftl x (pos * w)) as Hu.
  { intros x Hx. rewrite Z.shiftl_mul_pow2 by nia. apply u32_small. assert (2 ^ w * 2 ^ (pos * w) <= 2 ^ 32) as Hle by (rewrite <- Z.pow_add_r by nia; apply Z.pow_le_mono_r; lia).
    pose proof (Z.pow_pos_nonneg 2 (pos * w) ltac:(lia) ltac:(nia)). change (2 ^ 32) with 4294967296 in Hle. nia. }
  unfold pin_field. rewrite (Hu v), (Hu (Z.ones w)) by (done || (rewrite Z.ones_equiv; pose proof (Z.pow_pos_nonneg 2 w ltac:(lia) ltac:(lia)); lia)). by apply (put_field_run cell plain).
Qed.

(** The loop over pins, for what it does to a view [view p d] of every pin and a relation that the rest of the state keeps. *)
Lemma pin_loop_run {A} (view : Z -> D -> A) (new : A) (K : D -> D -> Prop) `{!PreOrder K} (body : Z -> M D unit) mask n i d :
  (forall p d, 0 <= p < 16 -> exists d', body p d = Done (tt, d') /\ K d d' /\ forall q, 0 <= q < 16 -> view q d' = if decide (q = p) then new else view q d) ->
  0 <= i -> i + Z.of_nat n <= 16 ->
  exists d', pin_loop n i mask body d = Done (tt, d') /\ K d d' /\ forall q, 0 <= q < 16 -> view q d' = if decide (i <= q < i + Z.of_nat n /\ Z.testbit mask q = true) then new else view q d.
Proof.
  intros Hb. revert i d. induction n as [|n IH]; intros i d Hi Hn; cbn [pin_loop].
  - exists d. split; [done|]. split; [done|]. intros q Hq. rewrite decide_False; [done|]. intros [H1 _]. lia.
  - rewrite land_bit_0 by done. destruct (Z.testbit mask i) eqn:E; cbn [negb].
    + destruct (Hb i d ltac:(lia)) as (d1 & E1 & K1 & V1). destruct (IH (i + 1) d1 ltac:(lia) ltac:(lia)) as (d2 & E2 & K2 & V2). exists d2. split; [by erewrite bind_step by exact E1|]. split; [by transitivity d1|].
      intros q Hq. rewrite V2, V1 by done. destruct (decide (q = i)) as [->|].
      * rewrite (decide_True (P := i <= i < _ /\ _)) by (split; [lia|done]). by destruct (decide _).
      * destruct (decide (i + 1 <= q < i + 1 + Z.of_nat n /\ Z.testbit mask q = true)) as [[? ?]|Hno]; [rewrite decide_True by (split; [lia|done]); done|]. rewrite decide_False; [done|]. intros [? ?]. apply Hno. split; [lia|done].
    + rewrite bind_ret. destruct (IH (i + 1) d ltac:(lia) ltac:(lia)) as (d2 & E2 & K2 & V2). exists d2. split; [exact E2|]. split; [done|]. intros q Hq. rewrite V2 by done.
      destruct (decide (i + 1 <= q < i + 1 + Z.of_nat n /\ Z.testbit mask q = true)) as [[? ?]|Hno]; [rewrite decide_True by (split; [lia|done]); done|]. rewrite decide_False; [done|].
      intros [? Hq']. apply Hno. split; [|done]. assert (q <> i) by congruence. lia.
Qed.

(** The cells at plain addresses outside of [l] are kept. *)
Definition same_but (l : list Z) (d d' : D) : Prop := forall b, plain b -> b ∉ l -> cell b d' = cell b d.
#[export] Instance same_but_preorder l : PreOrder (same_but l).
Proof. split; [by intros d b|]. intros d1 d2 d3 H1 H2 b Hb Hl. by rewrite H2, H1. Qed.
Lemma same_but_weaken l l' d d' : l ⊆ l' -> same_but l d d' -> same_but l' d d'.
Proof. intros Hl H b Hb Hn. apply H; [done|]. intros Hin. by apply Hn, Hl. Qed.

Lemma field_other_pin x w v p q : is_u32 x -> 0 < w -> 0 <= p -> 0 <= q -> p * w + w <= 32 -> q * w + w <= 32 -> 0 <= v < 2 ^ w ->
  field (put_field x (p * w) w v) (q * w) w = if decide (q = p) then v else field x (q * w) w.
Proof.
  intros Hx Hw Hp Hq Hpw Hqw Hv. destruct (decide (q = p)) as [->|Hne]; [apply field_put_field; lia || done|]. apply field_put_other; try done; nia.
Qed.

Definition gpio_offsets : list Z := [GPIO_MODER_OFFSET; GPIO_OSPEEDR_OFFSET; GPIO_OTYPER_OFFSET; GPIO_PUPDR_OFFSET; GPIO_AFRL_OFFSET; GPIO_AFRH_OFFSET].
Context (base : Z) (Hbase : 0 <= base < 0xFFFFF000) (Hplain : forall off, off ∈ gpio_offsets -> plain (base +32 off)).
Definition at_off (off : Z) : Z := base +32 off.
(** Mode, speed, output type and pull of a pin. *)
Definition pin_view (p : Z) (d : D) : Z * Z * Z * Z :=
  (field (cell (at_off GPIO_MODER_OFFSET) d) (p * 2) 2, field (cell (at_off GPIO_OSPEEDR_OFFSET) d) (p * 2) 2, field (cell (at_off GPIO_OTYPER_OFFSET) d) p 1, field (cell (at_off GPIO_PUPDR_OFFSET) d) (p * 2) 2).
Definition af_view (p : Z) (d : D) : Z := field (cell (at_off (if p <? 8 then GPIO_AFRL_OFFSET else GPIO_AFRH_OFFSET)) d) (p mod 8 * 4) 4.

Lemma gpio_step p d mode speed otype pull : 0 <= p < 16 -> 0 <= mode < 4 -> 0 <= speed < 4 -> 0 <= otype < 2 -> 0 <= pull < 4 ->
  exists d', (pin_field (at_off GPIO_MODER_OFFSET) p 2 mode;; pin_field (at_off GPIO_OSPEEDR_OFFSET) p 2 speed;; pin_field (at_off GPIO_OTYPER_OFFSET) p 1 otype;; pin_field (at_off GPIO_PUPDR_OFFSET) p 2 pull) d = Done (tt, d') /\
    same_but (at_off <$> [GPIO_MODER_OFFSET; GPIO_OSPEEDR_OFFSET; GPIO_OTYPER_OFFSET; GPIO_PUPDR_OFFSET]) d d' /\
    forall q, 0 <= q < 16 -> pin_view q d' = if decide (q = p) then (mode, speed, otype, pull) else pin_view q d.
Proof.
  intros Hp Hm Hs Ho Hpl.
  assert (plain (at_off GPIO_MODER_OFFSET) /\ plain (at_off GPIO_OSPEEDR_OFFSET) /\ plain (at_off GPIO_OTYPER_OFFSET) /\ plain (at_off GPIO_PUPDR_OFFSET)) as (P1 & P2 & P3 & P4) by (repeat split; apply Hplain; unfold gpio_offsets; set_solver).
  assert (at_off GPIO_MODER_OFFSET = base /\ at_off GPIO_OSPEEDR_OFFSET = base + 8 /\ at_off GPIO_OTYPER_OFFSET = base + 4 /\ at_off GPIO_PUPDR_OFFSET = base + 12) as (A1 & A2 & A3 & A4).
  { unfold at_off, GPIO_MODER_OFFSET, GPIO_OSPEEDR_OFFSET, GPIO_OTYPER_OFFSET, GPIO_PUPDR_OFFSET. rewrite !u32_small by lia. lia. }
  destruct (pin_field_run _ p 2 mode d P1 ltac:(lia) ltac:(lia) ltac:(lia) Hm) as (d1 & E1 & C1 & F1). destruct (pin_field_run _ p 2 speed d1 P2 ltac:(lia) ltac:(lia) ltac:(lia) Hs) as (d2 & E2 & C2 & F2).
  destruct (pin_field_run _ p 1 otype d2 P3 ltac:(lia) ltac:(lia) ltac:(lia) Ho) as (d3 & E3 & C3 & F3). destruct (pin_field_run _ p 2 pull d3 P4 ltac:(lia) ltac:(lia) ltac:(lia) Hpl) as (d4 & E4 & C4 & F4).
  exists d4. split; [erewrite bind_step by exact E1; erewrite bind_step by exact E2; erewrite bind_step by exact E3; exact E4|]. split.
  - intros b Hb Hn. cbn [fmap list_fmap] in Hn. rewrite !not_elem_of_cons in Hn. destruct Hn as (N1 & N2 & N3 & N4 & _). by rewrite F4, F3, F2, F1.
  - intros q Hq. unfold pin_view. rewrite C4, (F4 (at_off GPIO_MODER_OFFSET)), (F4 (at_off GPIO_OSPEEDR_OFFSET)), (F4 (at_off GPIO_OTYPER_OFFSET)) by (done || lia).
    rewrite C3, (F3 (at_off GPIO_MODER_OFFSET)), (F3 (at_off GPIO_OSPEEDR_OFFSET)), (F3 (at_off GPIO_PUPDR_OFFSET)) by (done || lia).
    rewrite C2, (F2 (at_off GPIO_MODER_OFFSET)), (F2 (at_off GPIO_OTYPER_OFFSET)), (F2 (at_off GPIO_PUPDR_OFFSET)) by (done || lia).
    rewrite C1, (F1 (at_off GPIO_OSPEEDR_OFFSET)), (F1 (at_off GPIO_OTYPER_OFFSET)), (F1 (at_off GPIO_PUPDR_OFFSET)) by (done || lia).
    assert (forall a d, is_u32 (cell a d)) as U by (intros; apply (plain_u32 (cell := cell) (plain := plain))). rewrite !field_other_pin by (try apply U; lia).
    assert (forall x, is_u32 x -> field (put_field x (p * 1) 1 otype) q 1 = if decide (q = p) then otype else field x q 1) as H1.
    { intros x Hx. pose proof (field_other_pin x 1 otype p q Hx ltac:(lia) ltac:(lia) ltac:(lia) ltac:(lia) ltac:(lia) ltac:(lia)) as Hf. by rewrite (Z.mul_1_r q) in Hf. }
    rewrite H1 by apply U. by destruct (decide (q = p)).
Qed.

(** C29: [gpio_init] gives every pin of the mask its mode, speed, output type and pull and leaves every other pin, and every other register, as it was; so do [gpio_set_pull] and [gpio_set_alt_func] with
    their one field, the latter in the low or the high register by the number of the pin. *)
Theorem gpio_init_correct mask mode otype pull speed af d :
  0 <= mode < 4 -> 0 <= speed < 4 -> 0 <= otype < 2 -> 0 <= pull < 4 -> 0 <= af < 16 ->
  (exists d', gpio_init (GpioPin base mask) mode otype pull speed d = Done (tt, d') /\
     (forall p, 0 <= p < 16 -> pin_view p d' = if Z.testbit mask p then (mode, speed, otype, pull) else pin_view p d) /\
     same_but (at_off <$> [GPIO_MODER_OFFSET; GPIO_OSPEEDR_OFFSET; GPIO_OTYPER_OFFSET; GPIO_PUPDR_OFFSET]) d d') /\
  (exists d', gpio_set_pull (GpioPin base mask) pull d = Done (tt, d') /\
     (forall p, 0 <= p < 16 -> (pin_view p d').2 = if Z.testbit mask p then pull else (pin_view p d).2) /\ same_but [at_off GPIO_PUPDR_OFFSET] d d') /\
  (exists d', gpio_set_alt_func (GpioPin base mask) af d = Done (tt, d') /\
     (forall p, 0 <= p < 16 -> af_view p d' = if Z.testbit mask p then af else af_view p d) /\ same_but (at_off <$> [GPIO_AFRL_OFFSET; GPIO_AFRH_OFFSET]) d d').
Proof.
  intros Hm Hs Ho Hpl Haf. assert (forall a d, is_u32 (cell a d)) as U by (intros; apply (plain_u32 (cell := cell) (plain := plain))).
  assert (forall {A} (view : Z -> D -> A) new l body, (forall p d, 0 <= p < 16 -> exists d', body p d = Done (tt, d') /\ same_but l d d' /\ forall q, 0 <= q < 16 -> view q d' = if decide (q = p) then new else view q d) ->
    exists d', pin_loop 16 0 mask body d = Done (tt, d') /\ (forall p, 0 <= p < 16 -> view p d' = if Z.testbit mask p then new else view p d) /\ same_but l d d') as Hloop.
  { intros A view new l body Hb. destruct (pin_loop_run view new (same_but l) body mask 16 0 d Hb ltac:(lia) ltac:(lia)) as (d' & E & K & V). exists d'. split; [done|]. split; [|done].
    intros p Hp. rewrite V by done. destruct (Z.testbit mask p); [by rewrite decide_True by (split; [lia|done])|]. rewrite decide_False; [done|]. by intros [_ ?]. }
  split; [|split].
  - apply (Hloop _ pin_view (mode, speed, otype, pull)). intros p d0 Hp. by apply gpio_step.
  - apply (Hloop _ (fun p d => (pin_view p d).2) pull). intros p d0 Hp. cbn [port_base].
    destruct (pin_field_run (at_off GPIO_PUPDR_OFFSET) p 2 pull d0 ltac:(apply Hplain; unfold gpio_offsets; set_solver) ltac:(lia) ltac:(lia) ltac:(lia) Hpl) as (d1 & E1 & C1 & F1). exists d1. split; [exact E1|]. split.
    + intros b Hb Hn. apply F1; [done|]. set_solver.
    + intros q Hq. cbn [pin_view snd]. rewrite C1. apply field_other_pin; try apply U; lia.
  - apply (Hloop _ af_view af). intros p d0 Hp. cbn [port_base]. assert (Z.land p 7 = p mod 8) as -> by (change 7 with (Z.ones 3); by rewrite Z.land_ones by lia).
    pose proof (Z.mod_pos_bound p 8 ltac:(lia)) as Hp8. set (off := if p <? 8 then GPIO_AFRL_OFFSET else GPIO_AFRH_OFFSET).
    assert ((if p <? 8 then base +32 GPIO_AFRL_OFFSET else base +32 GPIO_AFRH_OFFSET) = at_off off) as -> by (unfold off; by destruct (p <? 8)).
    assert (off ∈ [GPIO_AFRL_OFFSET; GPIO_AFRH_OFFSET]) as Hoff by (unfold off; destruct (p <? 8); set_solver).
    destruct (pin_field_run (at_off off) (p mod 8) 4 af d0 ltac:(apply Hplain; unfold gpio_offsets; set_solver) ltac:(lia) ltac:(lia) ltac:(lia) Haf) as (d1 & E1 & C1 & F1). exists d1. split; [exact E1|]. split.
    + intros b Hb Hn. apply F1; [done|]. intros ->. apply Hn. by apply list_elem_of_fmap_2.
    + intros q Hq. unfold af_view. set (off' := if q <? 8 then GPIO_AFRL_OFFSET else GPIO_AFRH_OFFSET). pose proof (Z.mod_pos_bound q 8 ltac:(lia)) as Hq8.
      assert (off' ∈ [GPIO_AFRL_OFFSET; GPIO_AFRH_OFFSET]) as Hoff' by (unfold off'; destruct (q <? 8); set_solver). pose proof (Z.div_mod p 8 ltac:(lia)). pose proof (Z.div_mod q 8 ltac:(lia)).
      destruct (decide (off' = off)) as [Eo|Hne].
      * rewrite Eo, C1, field_other_pin by (try apply U; lia). assert ((q <? 8) = (p <? 8)) as Eqp. { unfold off, off' in Eo. destruct (Z.ltb_spec q 8), (Z.ltb_spec p 8); done. }
        destruct (decide (q mod 8 = p mod 8)) as [Em|Em]; [|rewrite decide_False; [done|congruence]]. rewrite decide_True; [done|]. destruct (Z.ltb_spec q 8), (Z.ltb_spec p 8); try done; Z.div_mod_to_equations; lia.
      * rewrite F1; [rewrite decide_False; [done|]; intros ->; by apply Hne|apply Hplain; unfold gpio_offsets; set_solver|]. unfold at_off. intros Ea. apply Hne.
        unfold off, off', GPIO_AFRL_OFFSET, GPIO_AFRH_OFFSET in *. destruct (q <? 8), (p <? 8); try done; rewrite !u32_small in Ea by lia; lia.
Qed.
End pins.

(** ** The outputs of a port

    The sixteen outputs as the bits of a number: the set and reset register sets those of its low half and resets those of its high half that it does not set. *)
Class GpioPort (D : Type) `{Bus D} (base : Z) (outputs : D -> Z) : Prop := {
  port_bsrr v d i : is_u32 v -> 0 <= i < 16 -> Z.testbit (outputs (bus_write (base +32 GPIO_BSRR_OFFSET) v d)) i = Z.testbit v i || negb (Z.testbit v (i + 16)) && Z.testbit (outputs d) i;
  port_odr v d i : is_u32 v -> 0 <= i < 16 -> Z.testbit (outputs (bus_write (base +32 GPIO_ODR_OFFSET) v d)) i = Z.testbit v i;
  port_odr_read d : bus_read (base +32 GPIO_ODR_OFFSET) d = (outputs d, d);
  port_outputs d : 0 <= outputs d < 65536 }.

Inductive port_call := PWrite (mask : Z) (value : bool) | PPort (value : Z) | PToggle (mask : Z).
Definition run_port_call {D} `{Bus D} (base : Z) (k : port_call) : M D unit :=
  match k with PWrite mask v => gpio_write_pin (GpioPin base mask) v | PPort v => gpio_write_port base v | PToggle mask => gpio_toggle_pin (GpioPin base mask) end.
Fixpoint run_port_calls {D} `{Bus D} (base : Z) (ks : list port_call) : M D unit := match ks with [] => mret tt | k :: ks => run_port_call base k;; run_port_calls base ks end.
(** What a call is to do to output [i]. *)
Definition spec_port (i : Z) (x : bool) (k : port_call) : bool :=
  match k with PWrite mask v => if Z.testbit mask i then v else x | PPort v => Z.testbit v i | PToggle mask => xorb x (Z.testbit mask i) end.
Definition port_call_ok (k : port_call) : Prop := match k with PWrite m _ | PPort m | PToggle m => 0 <= m < 65536 end.

Section outputs.
Context {D : Type} `{Hbus : Bus D} (base : Z) (outputs : D -> Z) `{!GpioPort D base outputs}.
Lemma port_call_run k d : port_call_ok k -> exists d', run_port_call base k d = Done (tt, d') /\ forall i, 0 <= i < 16 -> Z.testbit (outputs d') i = spec_port i (Z.testbit (outputs d) i) k.
Proof.
  intros Hk. destruct k as [mask v|v|mask]; cbn [run_port_call port_call_ok spec_port] in *.
  - unfold gpio_write_pin. cbn [port_base pin_mask]. destruct v; (eexists; split; [apply store_run|]; intros i Hi).
    + rewrite (u32_small mask) by lia. rewrite port_bsrr by (unfold is_u32; lia). rewrite (testbit_high 16 mask (i + 16)) by lia. cbn [negb andb]. by destruct (Z.testbit mask i).
    + assert (u32 (Z.shiftl mask 16) = Z.shiftl mask 16) as E by (apply u32_small; rewrite Z.shiftl_mul_pow2 by lia; lia). rewrite E. rewrite port_bsrr by (try rewrite <- E; apply u32_range || lia).
      rewrite !Z.shiftl_spec by lia. rewrite (Z.testbit_neg_r mask (i - 16)) by lia. replace (i + 16 - 16) with i by lia. by destruct (Z.testbit mask i).
  - eexists. split; [apply store_run|]. intros i Hi. rewrite (u32_small v) by lia. apply port_odr; unfold is_u32; lia.
  - unfold gpio_toggle_pin, load. unfold mbind, M_bind. cbn [port_base pin_mask]. rewrite port_odr_read, store_run. eexists. split; [reflexivity|]. intros i Hi. pose proof (port_outputs d).
    assert (0 <= Z.lxor (outputs d) mask < 2 ^ 32) as Hx by (apply lxor_bound; lia). rewrite (u32_small (Z.lxor _ _)) by exact Hx. rewrite port_odr by (exact Hx || lia). apply Z.lxor_spec.
Qed.
(** Writing pins, writing the port and toggling pins act on exactly the outputs they name: after any sequence of such calls every output is what the calls that name it made of it. *)
Theorem port_calls_refine ks d :
  Forall port_call_ok ks -> exists d', run_port_calls base ks d = Done (tt, d') /\ forall i, 0 <= i < 16 -> Z.testbit (outputs d') i = foldl (spec_port i) (Z.testbit (outputs d) i) ks.
Proof.
  intros Hk. revert d. induction Hk as [|k ks Ho Hk IH]; intros d; cbn [run_port_calls foldl]; [by exists d|]. destruct (port_call_run k d Ho) as (d1 & E1 & F1). destruct (IH d1) as (d2 & E2 & F2).
  exists d2. split; [by erewrite bind_step by exact E1|]. intros i Hi. by rewrite F2, F1.
Qed.
End outputs.

(** ** A serial line

    The receiving half: the byte in the data register, the overrun flag, whether the status was loaded while that was set, and what the other side is going to send.  Time is counted
    in accesses to the unit: [(g, b)] is a byte that arrives in the [g + 1]-th access after the arrival before it.  A byte that arrives while the data register holds one is lost and sets the flag. *)
Record receiver := Receiver { held : option Z; overrun : bool; noted : bool; wire : list (nat * Z) }.
Definition rx_tick (r : receiver) : receiver :=
  match wire r with
  | [] => r
  | (S g, b) :: w => Receiver (held r) (overrun r) (noted r) ((g, b) :: w)
  | (O, b) :: w => match held r with None => Receiver (Some b) (overrun r) (noted r) w | Some x => Receiver (Some x) true (noted r) w end
  end.
(** A load of the status, and a load of the data, which clears the overrun flag when the status has shown it. *)
Definition rx_status (r : receiver) : receiver := rx_tick (Receiver (held r) (overrun r) (overrun r) (wire r)).
Definition rx_data (r : receiver) : receiver := rx_tick (Receiver None (overrun r && negb (noted r)) false (wire r)).
(** The bytes that have arrived and will. *)
Definition coming (r : receiver) : list Z := option_list (held r) ++ (wire r).*2.
(** The sender's pace: from byte to byte at least two accesses, in which a byte can be seen and taken, and at most [most] + 1. *)
Definition paced (most : nat) (r : receiver) : Prop :=
  Forall (fun gb => (1 <= gb.1 <= most)%nat) (tail (wire r)) /\ match wire r with [] => True | (g, _) :: _ => (g <= most)%nat /\ (held r <> None -> (1 <= g)%nat) end.
(** The accesses until a byte is there. *)
Definition delay (r : receiver) : nat := match held r, wire r with None, (g, _) :: _ => S g | _, _ => 0%nat end.

Lemma delay_bound most r : paced most r -> (delay r <= S most)%nat.
Proof. destruct r as [[x|] o n [|[g b] w]]; unfold paced, delay; cbn; lia. Qed.
Lemma paced_wait most r : paced most r -> held r = None -> coming r <> [] ->
  paced most (rx_status r) /\ coming (rx_status r) = coming r /\ (S (delay (rx_status r)) = delay r).
Proof.
  destruct r as [h o n [|[[|g] b] w]]; intros [Ht Hg] Hh Hc; cbn [held wire tail] in *; subst h; [done|..]; unfold rx_status, rx_tick, paced, coming, delay; cbn [held wire noted overrun tail option_list app].
  - split; [|split; [done|by destruct w as [|[]]]]. destruct w as [|[g2 b2] w]; [done|]. apply Forall_cons in Ht as [[H1 H2] Ht]. split; [done|]. by split.
  - split; [|done]. split; [done|]. split; [lia|done].
Qed.
Lemma paced_take most r x : paced most r -> held r = Some x ->
  held (rx_status r) = Some x /\ let r' := rx_data (rx_status r) in paced most r' /\ coming r = x :: coming r' /\ overrun r' = false.
Proof.
  destruct r as [h o n [|[g b] w]]; intros [Ht Hg] Hh; cbn [held wire tail] in *; subst h.
  { split; [done|]. cbn. split; [done|]. split; [done|]. by destruct o. }
  destruct Hg as [Hm Hg]. specialize (Hg ltac:(done)). destruct g as [|[|g]]; [lia|..]; unfold rx_data, rx_status, rx_tick, paced, coming; cbn [held wire noted overrun tail option_list app fmap list_fmap snd]; (split; [done|]);
    rewrite andb_negb_r; (split; [|done]).
  - destruct w as [|[g2 b2] w]; [done|]. apply Forall_cons in Ht as [[H1 H2] Ht]. split; [done|]. by split.
  - split; [done|]. split; [lia|done].
Qed.
Lemma held_tick r x : held r = Some x -> held (rx_tick r) = Some x.
Proof. destruct r as [h o n [|[[|g] b] w]]; cbn; intros H; subst h; done. Qed.

(** The unit: the receiver, the bytes that were sent and how many more times the status is loaded before the transmitter is empty again, at most [most]. *)
Class UartLine (D : Type) `{Bus D} (base : Z) (most : nat) (rx : D -> receiver) (tx : D -> list Z) (busy : D -> nat) : Prop := {
  uart_status d : exists v d', bus_read (base +32 UART_SR_OFFSET) d = (v, d') /\ rx d' = rx_status (rx d) /\ tx d' = tx d /\ busy d' = pred (busy d) /\
    Z.testbit v 7 = bool_decide (busy d = 0%nat) /\ Z.testbit v 5 = bool_decide (held (rx d) <> None) /\ Z.testbit v 3 = overrun (rx d);
  uart_sends b d : is_u8 b -> busy d = 0%nat -> let d' := bus_write (base +32 UART_DR_OFFSET) b d in tx d' = tx d ++ [b] /\ rx d' = rx_tick (rx d) /\ (busy d' <= most)%nat;
  uart_gets d : exists v d', bus_read (base +32 UART_DR_OFFSET) d = (v, d') /\ (forall b, held (rx d) = Some b -> u8 v = b) /\ rx d' = rx_data (rx d) /\ tx d' = tx d /\ busy d' = busy d }.

Section uart.
Context {D : Type} `{Hbus : Bus D} (base : Z) (most : nat) (rx : D -> receiver) (tx : D -> list Z) (busy : D -> nat) `{!UartLine D base most rx tx busy}.
Context (rounds : nat) (Hrounds : (S most < rounds)%nat).

(** A byte that has arrived is not lost. *)
Definition still_held (d d' : D) : Prop := forall x, held (rx d) = Some x -> held (rx d') = Some x.
Lemma wait_empty n d : (busy d < n)%nat -> exists d', wait_bits n (base +32 UART_SR_OFFSET) UART_SR_TXE d = Done (tt, d') /\ still_held d d' /\ tx d' = tx d /\ busy d' = 0%nat.
Proof.
  revert d. induction n as [|n IH]; intros d Hn; [lia|]. cbn [wait_bits]. unfold load, mbind, M_bind. destruct (uart_status d) as (v & d1 & E & R & T & B & Hb & _). rewrite E.
  assert (still_held d d1) as Hk by (intros x Hx; rewrite R; by apply held_tick).
  change UART_SR_TXE with (Z.shiftl 1 7). rewrite land_bit_0, Hb by lia. destruct (decide (busy d = 0%nat)) as [Hz|Hz].
  - rewrite bool_decide_true by done. cbn [negb]. exists d1. split; [done|]. split; [done|]. split; [done|]. rewrite B, Hz. done.
  - rewrite bool_decide_false by done. cbn [negb]. destruct (IH d1 ltac:(lia)) as (d2 & E2 & K2 & T2 & B2). exists d2. split; [exact E2|]. split; [intros x Hx; by apply K2, Hk|]. split; [congruence|done].
Qed.
Lemma transmit_byte_run b d : is_u8 b -> (busy d <= most)%nat -> exists d', uart_transmit_byte rounds base b d = Done (tt, d') /\ tx d' = tx d ++ [b] /\ still_held d d' /\ (busy d' <= most)%nat.
Proof.
  intros Hb Hd. destruct (wait_empty rounds d ltac:(lia)) as (d1 & E1 & K1 & T1 & B1). unfold uart_transmit_byte. erewrite bind_step by exact E1. rewrite store_run. rewrite (u32_small b) by (unfold is_u8 in Hb; lia).
  destruct (uart_sends b d1 Hb B1) as (T & R & B). eexists. split; [reflexivity|]. split; [congruence|]. split; [intros x Hx; rewrite R; by apply held_tick, K1|done].
Qed.
Lemma transmit_loop_run n i data d : 0 <= i -> (Z.to_nat i + n <= length data)%nat -> Forall is_u8 data -> (busy d <= most)%nat ->
  exists d', uart_transmit_loop rounds n i base data d = Done (tt, d') /\ tx d' = tx d ++ take n (drop (Z.to_nat i) data) /\ still_held d d' /\ (busy d' <= most)%nat.
Proof.
  revert i d. induction n as [|n IH]; intros i d Hi Hn Hu Hd; cbn [uart_transmit_loop]; [exists d; split; [done|]; split; [by rewrite take_0, app_nil_r|]; by split; [intros x|]|].
  destruct (lookup_lt_is_Some_2 data (Z.to_nat i)) as [b Hb]; [lia|]. unfold of_option. rewrite Hb, bind_ret. pose proof (proj1 (Forall_lookup _ _) Hu _ _ Hb) as Hbu.
  destruct (transmit_byte_run b d Hbu Hd) as (d1 & E1 & T1 & K1 & B1). destruct (IH (i + 1) d1 ltac:(lia) ltac:(lia) Hu B1) as (d2 & E2 & T2 & K2 & B2).
  exists d2. split; [by erewrite bind_step by exact E1|]. split; [|split; [intros x Hx; by apply K2, K1|done]]. rewrite T2, T1, <- app_assoc. rewrite (drop_S data b (Z.to_nat i)) by done. by replace (Z.to_nat (i + 1)) with (S (Z.to_nat i)) by lia.
Qed.
Lemma send_string_run s rest d : Forall (fun b => is_u8 b /\ b <> 0) s -> (busy d <= most)%nat -> exists d', uart_send_string rounds base (s ++ 0 :: rest) d = Done (tt, d') /\ tx d' = tx d ++ s /\ still_held d d'.
Proof.
  intros Hs. revert d. induction Hs as [|b s [Hb Hnz] Hs IH]; intros d Hd; cbn [app uart_send_string]; [exists d; rewrite app_nil_r; by split; [|split; [|intros x]]|]. destruct (Z.eqb_spec b 0); [done|].
  destruct (transmit_byte_run b d Hb Hd) as (d1 & E1 & T1 & K1 & B1). destruct (IH d1 B1) as (d2 & E2 & T2 & K2). exists d2. split; [by erewrite bind_step by exact E1|]. split; [by rewrite T2, T1, <- app_assoc|intros x Hx; by apply K2, K1].
Qed.
(** Sending always ends when the transmitter does: every byte of the data, or of the string before its zero byte, is sent once and in order, and a byte that had arrived stays. *)
Theorem uart_send_correct data s rest d :
  Forall is_u8 data -> Forall (fun b => is_u8 b /\ b <> 0) s -> (busy d <= most)%nat ->
  (exists d', uart_transmit rounds base data (Z.of_nat (length data)) d = Done (tt, d') /\ tx d' = tx d ++ data /\ still_held d d') /\
  (exists d', uart_send_string rounds base (s ++ 0 :: rest) d = Done (tt, d') /\ tx d' = tx d ++ s /\ still_held d d').
Proof.
  intros Hu Hs Hd. split; [|by apply send_string_run]. unfold uart_transmit. rewrite Nat2Z.id. destruct (transmit_loop_run (length data) 0 data d ltac:(lia) ltac:(cbn; lia) Hu Hd) as (d' & E & T & R & _).
  exists d'. split; [done|]. split; [|done]. by rewrite T, drop_0, firstn_all.
Qed.

(** ** Receiving a line *)

(** The wait for a byte: it ends after a load of the status that shows one. *)
Lemma wait_arrival n d : paced most (rx d) -> coming (rx d) <> [] -> (delay (rx d) < n)%nat ->
  exists d' r, wait_bits n (base +32 UART_SR_OFFSET) UART_SR_RXNE d = Done (tt, d') /\ paced most r /\ is_Some (held r) /\ coming r = coming (rx d) /\ rx d' = rx_status r /\ tx d' = tx d.
Proof.
  revert d. induction n as [|n IH]; intros d Hp Hc Hn; [lia|]. cbn [wait_bits]. unfold load, mbind, M_bind. destruct (uart_status d) as (v & d1 & E & R & T & _ & _ & Hb & _). rewrite E. change UART_SR_RXNE with (Z.shiftl 1 5).
  rewrite land_bit_0, Hb by lia. destruct (held (rx d)) as [x|] eqn:Eh.
  - rewrite bool_decide_true by done. cbn [negb]. exists d1, (rx d). by rewrite Eh.
  - rewrite bool_decide_false by (intros H; by apply H). cbn [negb]. destruct (paced_wait most (rx d) Hp Eh Hc) as (Hp1 & Hc1 & Hd1). rewrite <- R in Hp1, Hc1, Hd1.
    destruct (IH d1) as (d2 & r & E2 & P2 & H2 & C2 & R2 & T2); [done|by rewrite Hc1|lia|]. exists d2, r. split; [exact E2|]. split; [done|]. split; [done|]. split; [congruence|]. split; congruence.
Qed.
Lemma receive_byte_run b bs d : paced most (rx d) -> coming (rx d) = b :: bs ->
  exists d', uart_receive_byte rounds base d = Done (b, d') /\ coming (rx d') = bs /\ paced most (rx d') /\ overrun (rx d') = false /\ tx d' = tx d.
Proof.
  intros Hp Hc. pose proof (delay_bound _ _ Hp). destruct (wait_arrival rounds d Hp ltac:(by rewrite Hc) ltac:(lia)) as (d1 & r & E1 & P1 & [x Hx] & C1 & R1 & T1).
  destruct (paced_take most r x P1 Hx) as (Hh & P2 & C2 & O2). unfold uart_receive_byte. erewrite bind_step by exact E1. destruct (uart_gets d1) as (v & d2 & E2 & V & R2 & T2 & _).
  unfold load. unfold mbind at 1, M_bind at 1. rewrite E2. exists d2. rewrite R1 in V, R2. rewrite C1, Hc in C2. injection C2 as <- ->. rewrite R2. unfold mret, M_ret. rewrite (V b Hh). split; [done|]. split; [done|]. split; [done|]. split; [done|congruence].
Qed.
(** A byte that arrives while another is held is lost: the flag that tells it is not looked at. *)
Theorem uart_overrun_loses b c w d :
  held (rx d) = Some b -> wire (rx d) = (0%nat, c) :: w -> exists d', uart_receive_byte rounds base d = Done (b, d') /\ coming (rx d') = w.*2 /\ tx d' = tx d.
Proof.
  intros Hh Hw. unfold uart_receive_byte. destruct (uart_status d) as (v & d1 & E & R & T & _ & _ & Hb & _).
  assert (wait_bits rounds (base +32 UART_SR_OFFSET) UART_SR_RXNE d = Done (tt, d1)) as E1.
  { destruct rounds as [|n]; [lia|]. cbn [wait_bits]. unfold load, mbind, M_bind. rewrite E. change UART_SR_RXNE with (Z.shiftl 1 5). rewrite land_bit_0, Hb by lia. by rewrite bool_decide_true by (by rewrite Hh). }
  erewrite bind_step by exact E1. destruct (uart_gets d1) as (v2 & d2 & E2 & V & R2 & T2 & _). unfold load. unfold mbind at 1, M_bind at 1. rewrite E2. exists d2.
  unfold rx_status, rx_tick in R. cbn [wire held] in R. rewrite Hw, Hh in R. rewrite R in V, R2. unfold mret, M_ret. rewrite (V b) by done. split; [done|]. split; [|congruence].
  rewrite R2. unfold rx_data, rx_tick, coming. cbn [wire held]. by destruct w as [|[[|g] b2] w].
Qed.
(** With [room] bytes left, the line that is taken from the arrived bytes and what remains; nothing if it does not end within them. *)
Fixpoint line_of (room : nat) (bs : list Z) : option (list Z * list Z) :=
  match bs with
  | [] => None
  | ch :: bs =>
      if ch =? 10 then Some ([], bs)
      else if ch =? 13 then match room with O => Some ([], bs) | S _ => line_of room bs end
      else match room with O | S O => Some (if (0 <? Z.of_nat room) then [ch] else [], bs) | S room => '(l, rest) ← line_of room bs; Some (ch :: l, rest) end
  end.
Lemma line_of_room room bs l rest : line_of room bs = Some (l, rest) -> (length l <= room)%nat.
Proof.
  revert room l rest. induction bs as [|ch bs IH]; intros room l rest; cbn [line_of]; [done|]. destruct (ch =? 10); [intros [= <- <-]; cbn; lia|].
  destruct (ch =? 13); [destruct room as [|room]; [intros [= <- <-]; cbn; lia|apply IH]|]. destruct room as [|[|room]]; [intros [= <- <-]; cbn; lia|intros [= <- <-]; cbn; lia|].
  intros E. apply bind_Some in E as ([l' rest'] & E & [= <- <-]). apply IH in E. cbn [length]. lia.
Qed.
Lemma line_loop_run fuel buffer max_size count d room l rest :
  1 <= max_size -> is_u32 max_size -> max_size <= Z.of_nat (length buffer) -> 0 <= count -> count + Z.of_nat room = max_size - 1 -> (length (coming (rx d)) < fuel)%nat -> paced most (rx d) -> line_of room (coming (rx d)) = Some (l, rest) ->
  exists d', uart_line_loop rounds fuel base buffer max_size count d = Done ((count + Z.of_nat (length l), take (Z.to_nat count) buffer ++ l ++ drop (Z.to_nat count + length l) buffer), d') /\ coming (rx d') = rest /\ paced most (rx d') /\ overrun (rx d') = false /\ tx d' = tx d.
Proof.
  intros Hm Hu Hb. unfold is_u32 in Hu. revert buffer count d room l Hb. induction fuel as [|fuel IH]; intros buffer count d room l Hb Hc Hroom Hf Hp; [lia|]. cbn [uart_line_loop].
  destruct (coming (rx d)) as [|ch bs] eqn:Er; [done|]. cbn [line_of length] in *. intros Hl. destruct (receive_byte_run ch bs d Hp Er) as (d1 & E1 & R1 & P1 & O1 & T1). erewrite bind_step by exact E1. rewrite (u32_small (max_size - 1)) by lia.
  destruct (Z.eqb_spec ch 10) as [->|H10]; cbn [negb].
  { injection Hl as <- <-. rewrite andb_false_r. cbn [andb]. rewrite bind_ret. cbn [andb]. exists d1. split; [|done]. unfold mret, M_ret. cbn [length app]. rewrite Nat.add_0_r, take_drop. do 3 f_equal. lia. }
  destruct (Z.eqb_spec ch 13) as [->|H13]; cbn [negb andb].
  { rewrite bind_ret. cbn [andb]. destruct room as [|room].
    - injection Hl as <- <-. destruct (Z.ltb_spec count (max_size - 1)); [lia|]. exists d1. split; [|done]. unfold mret, M_ret. cbn [length app]. rewrite Nat.add_0_r, take_drop. do 3 f_equal. lia.
    - destruct (Z.ltb_spec count (max_size - 1)); [|lia]. rewrite <- R1 in Hl. destruct (IH buffer count d1 (S room) l Hb Hc Hroom ltac:(rewrite R1; lia) P1 Hl) as (d2 & E2 & R2 & P2 & O2 & T2). exists d2. split; [exact E2|]. split; [done|]. split; [done|]. split; [done|congruence]. }
  destruct room as [|room].
  { injection Hl as <- <-. destruct (Z.ltb_spec count (max_size - 1)); [lia|]. rewrite bind_ret. destruct (Z.ltb_spec count (max_size - 1)); [lia|]. cbn [andb]. exists d1. split; [|done]. unfold mret, M_ret. cbn [length app]. rewrite Nat.add_0_r, take_drop. do 3 f_equal. lia. }
  destruct (Z.ltb_spec count (max_size - 1)); [|lia]. unfold put. replace ((0 <=? count) && (count <? Z.of_nat (length buffer))) with true by (symmetry; apply andb_true_iff; rewrite Z.leb_le, Z.ltb_lt; lia).
  rewrite bind_assoc, bind_ret, bind_ret. rewrite (u32_small (count + 1)) by lia. cbn [andb].
  assert (forall l, take (Z.to_nat (count + 1)) (<[Z.to_nat count:=ch]> buffer) ++ l ++ drop (Z.to_nat (count + 1) + length l) (<[Z.to_nat count:=ch]> buffer) = take (Z.to_nat count) buffer ++ (ch :: l) ++ drop (Z.to_nat count + length (ch :: l)) buffer) as Hbuf.
  { intros l'. replace (Z.to_nat (count + 1)) with (S (Z.to_nat count)) by lia. rewrite (take_S_r _ _ ch) by (apply list_lookup_insert_eq; lia). rewrite take_insert_ge by lia. rewrite drop_insert_lt by lia. cbn [length app]. rewrite <- app_assoc. cbn [app].
    by replace (S (Z.to_nat count) + length l')%nat with (Z.to_nat count + S (length l'))%nat by lia. }
  destruct room as [|room].
  { injection Hl as <- <-. destruct (Z.ltb_spec (count + 1) (max_size - 1)); [lia|]. exists d1. split; [|done]. unfold mret, M_ret. cbn [Z.ltb]. rewrite <- (Hbuf []). cbn [app length]. rewrite Nat.add_0_r, take_drop. done. }
  apply bind_Some in Hl as ([l' rest'] & Hl & [= <- <-]). destruct (Z.ltb_spec (count + 1) (max_size - 1)); [|lia]. rewrite <- R1 in Hl.
  destruct (IH (<[Z.to_nat count:=ch]> buffer) (count + 1) d1 (S room) l' ltac:(by rewrite length_insert) ltac:(lia) ltac:(lia) ltac:(rewrite R1; lia) P1 Hl) as (d2 & E2 & R2 & P2 & O2 & T2). exists d2. split; [|split; [done|]; split; [done|]; split; [done|congruence]].
  rewrite E2, Hbuf. cbn [length]. do 3 f_equal. lia.
Qed.

(** C29: when a line is coming, its bytes arrived or on the way at a pace that lets each be taken before the next, receiving it ends: the buffer holds its bytes without line ends and a zero byte
    behind them, never more than fits, and no byte is lost on the way.  A line that is shorter than the room is taken whole with
    its end.  Of a line that is not, the first bytes that fit are taken, and the rest is left to the next call, also when only its end is left: the next line received is then empty.  With room for the zero byte
    alone one byte is taken from the line all the same, and dropped. *)
Theorem uart_receive_line_correct fuel buffer max_size d l rest :
  1 <= max_size -> is_u32 max_size -> max_size <= Z.of_nat (length buffer) -> (length (coming (rx d)) < fuel)%nat -> paced most (rx d) ->
  line_of (Z.to_nat (max_size - 1)) (coming (rx d)) = Some (l, rest) ->
  (exists d', uart_receive_line rounds fuel base buffer max_size d = Done ((Z.of_nat (length l), l ++ 0 :: drop (S (length l)) buffer), d') /\
     coming (rx d') = rest /\ paced most (rx d') /\ overrun (rx d') = false /\ tx d' = tx d) /\
  Z.of_nat (length l) <= max_size - 1 /\
  (forall s t, coming (rx d) = s ++ 10 :: t -> Forall (fun ch => ch <> 10 /\ ch <> 13) s ->
    (Z.of_nat (length s) < max_size - 1 -> l = s /\ rest = t) /\
    (1 < max_size -> max_size - 1 <= Z.of_nat (length s) -> l = take (Z.to_nat (max_size - 1)) s /\ rest = drop (Z.to_nat (max_size - 1)) s ++ 10 :: t)) /\
  (max_size = 1 -> forall ch t, coming (rx d) = ch :: t -> l = [] /\ rest = t).
Proof.
  intros Hm Hu Hb Hf Hp Hl. pose proof (line_of_room _ _ _ _ Hl) as Hr. split; [|split; [lia|split]].
  - destruct (line_loop_run fuel buffer max_size 0 d (Z.to_nat (max_size - 1)) l rest Hm Hu Hb ltac:(lia) ltac:(lia) Hf Hp Hl) as (d' & E & R). exists d'. split; [|done]. unfold uart_receive_line. erewrite bind_step by exact E.
    change (Z.to_nat 0) with 0%nat. rewrite take_0, app_nil_l, Nat.add_0_l, Z.add_0_l. unfold put. rewrite length_app, length_drop. replace ((0 <=? Z.of_nat (length l)) && _) with true by (symmetry; apply andb_true_iff; rewrite Z.leb_le, Z.ltb_lt; lia).
    rewrite bind_ret. unfold mret, M_ret. do 3 f_equal. rewrite Nat2Z.id. rewrite <- (Nat.add_0_r (length l)) at 1. rewrite insert_app_r.
    destruct (lookup_lt_is_Some_2 buffer (length l)) as [x Hx]; [lia|]. by rewrite (drop_S buffer x (length l)) by done.
  - intros s t Es Hs. rewrite Es in Hl. clear -Hl Hs Hm. assert (Z.of_nat (Z.to_nat (max_size - 1)) = max_size - 1) as Er by lia. rewrite <- Er. assert (1 < max_size <-> (0 < Z.to_nat (max_size - 1))%nat) as -> by lia.
    rewrite ?Nat2Z.id. generalize dependent (Z.to_nat (max_size - 1)). intros room Hl _. revert room l Hl. induction Hs as [|ch s [H1 H2] Hs IH]; intros room l Hl; cbn [app line_of length] in Hl.
    + cbn [Z.eqb Pos.eqb] in Hl. injection Hl as <- <-. split; [done|]. cbn. lia.
    + destruct (Z.eqb_spec ch 10); [done|]. destruct (Z.eqb_spec ch 13); [done|]. cbn [length]. destruct room as [|[|room]]; [split; lia|injection Hl as <- <-; split; [lia|]; done|].
      apply bind_Some in Hl as ([l' rest'] & Hl & [= <- <-]). destruct (IH _ _ Hl) as [I1 I2]. split.
      * intros Hlt. destruct I1 as [-> ->]; [lia|done].
      * intros _ Hge. destruct I2 as [-> ->]; [lia|lia|done].
  - intros -> ch t Ec. rewrite Ec in Hl. change (Z.to_nat (1 - 1)) with 0%nat in Hl. cbn [line_of] in Hl. destruct (ch =? 10); [by injection Hl as <- <-|]. destruct (ch =? 13); by injection Hl as <- <-.
Qed.
End uart.

(** ** Setting up SPI and I2C *)

(** The control word of SPI has its clock, order and master bits as configured and enables the unit.  But the data size is put where the hardware has other bits: both named sizes set bit 10, receive only, with which
    a master sends nothing, and bit 8; a frame of 16 bits is bit 11. *)
Theorem spi_init_correct c :
  0 <= baud_prescaler c < 8 -> data_size c = 0x7 \/ data_size c = 0xF ->
  let v := spi_cr1_value c in
  is_u32 v /\ field v 3 3 = baud_prescaler c /\ Z.testbit v 0 = truthy (cpha c) /\ Z.testbit v 1 = truthy (cpol c) /\ Z.testbit v 2 = (spi_mode c =? SPI_MODE_MASTER) /\ Z.testbit v 6 = true /\
  Z.testbit v 7 = truthy (first_bit c) /\ Z.testbit v 9 = true /\ Z.testbit v 10 = true /\ Z.testbit v 11 = (data_size c =? 0xF).
Proof.
  intros Hb Hd. cbv zeta. unfold spi_cr1_value. assert (baud_prescaler c = 0 \/ baud_prescaler c = 1 \/ baud_prescaler c = 2 \/ baud_prescaler c = 3 \/ baud_prescaler c = 4 \/ baud_prescaler c = 5 \/ baud_prescaler c = 6 \/ baud_prescaler c = 7) as Hb' by lia.
  destruct Hd as [->| ->]; repeat (destruct Hb' as [->|Hb']); try rewrite Hb'; destruct (spi_mode c =? SPI_MODE_MASTER), (truthy (cpol c)), (truthy (cpha c)), (truthy (first_bit c)); vm_compute; intuition congruence.
Qed.

Section i2c_setup.
Context {D : Type} `{Hbus : Bus D} (cell : Z -> D -> Z) (plain : Z -> Prop) `{!Plain D cell plain}.
Context (base : Z) (Hbase : 0 <= base < 0xFFFFF000).
Definition i2c_offsets : list Z := [I2C_CR1_OFFSET; I2C_CR2_OFFSET; I2C_OAR1_OFFSET; I2C_CCR_OFFSET; I2C_TRISE_OFFSET].
Context (Hplain : forall off, off ∈ i2c_offsets -> plain (base +32 off)).
Definition i2c_reg (off : Z) (d : D) : Z := cell (base +32 off) d.
Lemma i2c_offset_range off : off ∈ i2c_offsets -> 0 <= off <= 0x20.
Proof. unfold i2c_offsets. intros Ho. repeat (apply elem_of_cons in Ho as [->|Ho]; [split; vm_compute; congruence|]). by apply elem_of_nil in Ho. Qed.
Lemma i2c_reg_write off off' v d : off ∈ i2c_offsets -> off' ∈ i2c_offsets -> i2c_reg off' (bus_write (base +32 off) (u32 v) d) = if off =? off' then u32 v else i2c_reg off' d.
Proof.
  intros Ho Ho'. pose proof (i2c_offset_range _ Ho). pose proof (i2c_offset_range _ Ho'). unfold i2c_reg. rewrite (cell_stored cell plain) by by apply Hplain.
  destruct (Z.eqb_spec off off') as [->|Hne]; [by rewrite decide_True|]. rewrite decide_False; [done|]. rewrite !u32_small by lia. lia.
Qed.
(** The frequency that the hardware makes of the clock control register, with a bus clock of 42 MHz: bit 15 is fast mode, bit 14 its other duty cycle. *)
Definition scl_frequency (ccr : Z) : Z :=
  let c := field ccr 0 12 in 42000000 / (if Z.testbit ccr 15 then if Z.testbit ccr 14 then 25 * c else 3 * c else 2 * c).
(** The clock control register for a speed and duty cycle. *)
Definition ccr_of (speed duty : Z) : Z :=
  if speed <=? 100000 then 42000000 / (2 * speed) else if duty =? I2C_DUTY_CYCLE_2 then 42000000 / (3 * speed) else 42000000 / (25 * speed) + 32768.

Lemma ccr_low q : 0 <= q < 4096 -> field q 0 12 = q /\ Z.testbit q 15 = false /\ Z.testbit q 14 = false /\ field (q + 32768) 0 12 = q /\ Z.testbit (q + 32768) 15 = true /\ Z.testbit (q + 32768) 14 = false /\ Z.lor q 32768 = q + 32768.
Proof.
  intros Hq. assert (Z.lor q 32768 = q + 32768) as E by (rewrite Z.lor_comm; change (Z.lor 32768 q) with (Z.lor (Z.shiftl 1 15) q); rewrite (lor_shiftl_add 1 q 15) by (try (change (2 ^ 15) with 32768); lia); change (2 ^ 15) with 32768; lia).
  assert (forall i, 12 <= i -> Z.testbit q i = false) as Hh by (intros i Hi; apply (testbit_high 12); [exact Hq|done]). rewrite <- E. rewrite !Z.lor_spec, !Hh by lia. change 32768 with (Z.shiftl 1 15). rewrite !testbit_bit by lia.
  assert (field q 0 12 = q) as F by (unfold field; rewrite Z.shiftr_0_r; apply Z.mod_small; exact Hq). split; [done|]. split; [done|]. split; [done|]. split; [|done].
  rewrite field_lor, F, (field_shiftl 1 15 1) by lia. apply Z.lor_0_r.
Qed.
Lemma mask_12 q : 0 <= q < 4096 -> Z.land q 0xFFF = q.
Proof. intros Hq. change 0xFFF with (Z.ones 12). rewrite Z.land_ones by lia. by apply Z.mod_small. Qed.

Lemma i2c_init_run c d :
  i2c_base c = base -> 5128 <= clock_speed c <= 400000 -> is_u8 (own_address c) ->
  exists d', i2c_init c d = Done (tt, d') /\ i2c_reg I2C_CCR_OFFSET d' = ccr_of (clock_speed c) (duty_cycle c) /\ i2c_reg I2C_CR1_OFFSET d' = I2C_CR1_PE /\ i2c_reg I2C_CR2_OFFSET d' = 42 /\
    i2c_reg I2C_TRISE_OFFSET d' = (if clock_speed c <=? 100000 then 43 else 12) /\ field (i2c_reg I2C_OAR1_OFFSET d') 1 8 = own_address c.
Proof.
  intros Hb Hs Ho. assert (I2C_CR1_OFFSET ∈ i2c_offsets /\ I2C_CR2_OFFSET ∈ i2c_offsets /\ I2C_OAR1_OFFSET ∈ i2c_offsets /\ I2C_CCR_OFFSET ∈ i2c_offsets /\ I2C_TRISE_OFFSET ∈ i2c_offsets) as (O1 & O2 & O3 & O4 & O5) by (unfold i2c_offsets; set_solver).
  pose proof (Hplain _ O1) as P1. pose proof (Hplain _ O3) as P3. pose proof (Hplain _ O4) as P4. unfold i2c_init. rewrite Hb. cbv zeta. erewrite bind_step by by apply (clear_bits_run cell plain). erewrite bind_step by apply store_run. set (d1 := bus_write (base +32 I2C_CR2_OFFSET) _ _).
  set (s := clock_speed c) in *. set (m := (if s <=? 100000 then _ else _) : M D unit).
  assert (exists d2, m d1 = Done (tt, d2) /\ i2c_reg I2C_CCR_OFFSET d2 = ccr_of s (duty_cycle c) /\ i2c_reg I2C_TRISE_OFFSET d2 = (if s <=? 100000 then 43 else 12) /\ i2c_reg I2C_CR2_OFFSET d2 = i2c_reg I2C_CR2_OFFSET d1) as (d2 & E2 & C2 & T2 & R2).
  { unfold m, ccr_of, udiv32. clearbody d1. clear m. destruct (Z.leb_spec s 100000) as [Hle|Hgt].
    - assert (Z.shiftl s 1 = 2 * s) as -> by (rewrite Z.shiftl_mul_pow2 by lia; lia). rewrite (u32_small (2 * s)) by lia. destruct (Z.eqb_spec (2 * s) 0); [lia|]. rewrite bind_ret.
      assert (0 <= 42000000 / (2 * s) < 4096) as Hq by (split; [apply Z.div_pos; lia|apply Z.div_lt_upper_bound; lia]). rewrite mask_12 by done. erewrite bind_step by apply store_run. eexists. split; [apply store_run|].
      rewrite !i2c_reg_write by done. cbn [Z.eqb]. split; [apply u32_small; lia|done].
    - destruct (Z.eqb_spec (duty_cycle c) I2C_DUTY_CYCLE_2).
      + rewrite (u32_small (s * 3)) by lia. rewrite (Z.mul_comm s). destruct (Z.eqb_spec (3 * s) 0); [lia|]. rewrite bind_assoc, bind_ret. assert (0 <= 42000000 / (3 * s) < 4096) as Hq by (split; [apply Z.div_pos; lia|apply Z.div_lt_upper_bound; lia]). rewrite mask_12 by done.
        erewrite bind_step by apply store_run. eexists. split; [apply store_run|]. rewrite !i2c_reg_write by done. cbn [Z.eqb]. split; [apply u32_small; lia|done].
      + rewrite (u32_small (s * 25)) by lia. rewrite (Z.mul_comm s). destruct (Z.eqb_spec (25 * s) 0); [lia|]. rewrite bind_assoc, bind_ret. assert (0 <= 42000000 / (25 * s) < 4096) as Hq by (split; [apply Z.div_pos; lia|apply Z.div_lt_upper_bound; lia]). rewrite mask_12 by done.
        rewrite bind_assoc. erewrite bind_step by apply store_run. erewrite bind_step by by apply (set_bits_run cell plain). eexists. split; [apply store_run|]. rewrite !i2c_reg_write by done. cbn [Z.eqb]. fold (i2c_reg I2C_CCR_OFFSET (bus_write (base +32 I2C_CCR_OFFSET) (u32 (42000000 / (25 * s))) d1)).
        rewrite i2c_reg_write by done. rewrite Z.eqb_refl, (u32_small (42000000 / _)) by lia. change (Z.shiftl 1 15) with 32768. destruct (ccr_low _ Hq) as (_ & _ & _ & _ & _ & _ & ->). split; [apply u32_small; lia|done]. }
  erewrite bind_step by exact E2. erewrite bind_step by apply store_run. set (d3 := bus_write (base +32 I2C_OAR1_OFFSET) _ d2). unfold is_u8 in Ho.
  assert (u32 (Z.shiftl (own_address c) 1) = Z.shiftl (own_address c) 1) as Eo by (apply u32_small; rewrite Z.shiftl_mul_pow2 by lia; lia).
  assert (exists d4, (if addr_mode c =? I2C_ADDR_MODE_10BIT then set_bits (base +32 I2C_OAR1_OFFSET) (Z.shiftl 1 15) else mret tt) d3 = Done (tt, d4) /\ field (i2c_reg I2C_OAR1_OFFSET d4) 1 8 = own_address c /\
    forall off, off ∈ i2c_offsets -> off <> I2C_OAR1_OFFSET -> i2c_reg off d4 = i2c_reg off d2) as (d4 & E4 & A4 & R4).
  { assert (field (Z.shiftl (own_address c) 1) 1 8 = own_address c) as Fo by (rewrite (field_shiftl _ 1 8) by (try (change (2 ^ 8) with 256); lia); done). destruct (addr_mode c =? I2C_ADDR_MODE_10BIT).
    - eexists. split; [by apply (set_bits_run cell plain)|]. split.
      + rewrite i2c_reg_write by done. rewrite Z.eqb_refl. fold (i2c_reg I2C_OAR1_OFFSET d3). unfold d3. rewrite i2c_reg_write by done. rewrite Z.eqb_refl, Eo, field_u32, field_lor, Fo, (field_shiftl 1 15 1) by lia. apply Z.lor_0_r.
      + intros off Hoff Hne. rewrite i2c_reg_write by done. destruct (Z.eqb_spec I2C_OAR1_OFFSET off); [congruence|]. unfold d3. rewrite i2c_reg_write by done. by destruct (Z.eqb_spec I2C_OAR1_OFFSET off); [congruence|].
    - exists d3. split; [done|]. split; [unfold d3; rewrite i2c_reg_write by done; by rewrite Z.eqb_refl, Eo|]. intros off Hoff Hne. unfold d3. rewrite i2c_reg_write by done. by destruct (Z.eqb_spec I2C_OAR1_OFFSET off); [congruence|]. }
  erewrite bind_step by exact E4. eexists. split; [apply store_run|]. rewrite !i2c_reg_write by done. cbn [Z.eqb]. rewrite !R4 by (done || (vm_compute; congruence)). split; [done|]. split; [done|]. split; [|by split].
  rewrite R2. unfold d1. rewrite i2c_reg_write by done. done.
Qed.
(** Up to 100 kHz the bus is set up to run at the configured speed, rounded up by the division.  Above, where fast mode is meant, it runs too fast: with the duty cycle 2 the bit for fast mode is not set, and the speed is half as much
    again, 600 kHz for 400; with the other one the bit for that duty cycle is not set, and it is more than eight times as much, 3.5 MHz for 400 kHz.  A speed of zero is a division by zero. *)
Theorem i2c_init_correct c d :
  i2c_base c = base -> 5128 <= clock_speed c <= 400000 -> is_u8 (own_address c) ->
  (exists d', i2c_init c d = Done (tt, d') /\ i2c_reg I2C_CR1_OFFSET d' = I2C_CR1_PE /\ field (i2c_reg I2C_OAR1_OFFSET d') 1 8 = own_address c /\
     let f := scl_frequency (i2c_reg I2C_CCR_OFFSET d') in
     (clock_speed c <= 100000 -> clock_speed c <= f /\ f * (42000000 / (2 * clock_speed c)) <= 21000000 < clock_speed c * (42000000 / (2 * clock_speed c) + 1)) /\
     (100000 < clock_speed c -> duty_cycle c = I2C_DUTY_CYCLE_2 -> 3 * clock_speed c <= 2 * f + 1) /\
     (100000 < clock_speed c -> duty_cycle c <> I2C_DUTY_CYCLE_2 -> 8 * clock_speed c < f) /\
     (clock_speed c = 400000 -> f = if duty_cycle c =? I2C_DUTY_CYCLE_2 then 600000 else 3500000)) /\
  i2c_init (I2cConfig base 0 (duty_cycle c) (own_address c) (addr_mode c) (general_call c) (no_stretch c)) d = UB.
Proof.
  intros Hb Hs Ho. split.
  - destruct (i2c_init_run c d Hb Hs Ho) as (d' & E & C & P & _ & _ & A). exists d'. split; [done|]. split; [done|]. split; [done|]. cbv zeta. rewrite C. unfold ccr_of, scl_frequency. set (s := clock_speed c) in *. split; [|split; [|split]].
    + intros Hle. destruct (Z.leb_spec s 100000); [|lia]. assert (0 < 42000000 / (2 * s) < 4096) as Hq by (split; [apply Z.div_str_pos; lia|apply Z.div_lt_upper_bound; lia]).
      destruct (ccr_low (42000000 / (2 * s)) ltac:(lia)) as (-> & -> & _). set (q := 42000000 / (2 * s)) in *. assert (2 * s * q <= 42000000 < 2 * s * (q + 1)) as Hd by (unfold q; Z.div_mod_to_equations; nia).
      split; [apply Z.div_le_lower_bound; nia|]. split; [|nia]. pose proof (Z.mul_div_le 42000000 (2 * q) ltac:(lia)). nia.
    + intros Hgt Hd. destruct (Z.leb_spec s 100000); [lia|]. rewrite Hd, Z.eqb_refl. assert (0 < 42000000 / (3 * s) < 4096) as Hq by (split; [apply Z.div_str_pos; lia|apply Z.div_lt_upper_bound; lia]).
      destruct (ccr_low (42000000 / (3 * s)) ltac:(lia)) as (-> & -> & _). set (q := 42000000 / (3 * s)) in *. assert (3 * s * q <= 42000000) as Hd' by (unfold q; apply Z.mul_div_le; lia).
      pose proof (Z.mul_succ_div_gt 42000000 (2 * q) ltac:(lia)). nia.
    + intros Hgt Hd. destruct (Z.leb_spec s 100000); [lia|]. destruct (Z.eqb_spec (duty_cycle c) I2C_DUTY_CYCLE_2); [done|]. assert (0 < 42000000 / (25 * s) < 4096) as Hq by (split; [apply Z.div_str_pos; lia|apply Z.div_lt_upper_bound; lia]).
      destruct (ccr_low (42000000 / (25 * s)) ltac:(lia)) as (_ & _ & _ & -> & -> & -> & _). set (q := 42000000 / (25 * s)) in *. assert (25 * s * q <= 42000000) as Hd' by (unfold q; apply Z.mul_div_le; lia).
      pose proof (Z.mul_succ_div_gt 42000000 (3 * q) ltac:(lia)). nia.
    + intros E4. rewrite E4. destruct (duty_cycle c =? I2C_DUTY_CYCLE_2); reflexivity.
  - assert (plain (base +32 I2C_CR1_OFFSET)) as P1 by (apply Hplain; unfold i2c_offsets; set_solver). unfold i2c_init. cbn [i2c_base clock_speed]. cbv zeta. erewrite bind_step by by apply (clear_bits_run cell plain). erewrite bind_step by apply store_run. reflexivity.
Qed.
End i2c_setup.

(** ** Transfers on an I2C bus

    What happened on the bus, the latest first.  The device decides from what happened before whether it acknowledges a byte.  The flags are those of the latest event and are shown at once; the controller clears start and
    stop requests by itself. *)
Inductive i2c_event := Start | Address (b : Z) (ack : bool) | Ready | Sent (b : Z) (ack : bool) | Stop.
Section i2c.
Context {D : Type} `{Hbus : Bus D} (base : Z) (device : list i2c_event -> Z -> bool).
(** Start, address, transmitter empty and acknowledge failure, by the latest event. *)
Definition i2c_flags (l : list i2c_event) (v : Z) : Prop :=
  Z.testbit v 0 = (match l with Start :: _ => true | _ => false end) /\ Z.testbit v 1 = (match l with Address _ true :: _ => true | _ => false end) /\
  Z.testbit v 7 = (match l with (Ready | Sent _ _) :: _ => true | _ => false end) /\ Z.testbit v 10 = (match l with (Address _ false | Sent _ false) :: _ => true | _ => false end).
Class I2cBus (log : D -> list i2c_event) : Prop := {
  i2c_status d : exists v, bus_read (base +32 I2C_SR1_OFFSET) d = (v, d) /\ i2c_flags (log d) v;
  i2c_cr1 d : exists v, bus_read (base +32 I2C_CR1_OFFSET) d = (v, d) /\ is_u32 v /\ Z.testbit v 8 = false /\ Z.testbit v 9 = false;
  i2c_start v d : is_u32 v -> Z.testbit v 8 = true -> Z.testbit v 9 = false -> log (bus_write (base +32 I2C_CR1_OFFSET) v d) = Start :: log d;
  i2c_stop v d : is_u32 v -> Z.testbit v 8 = false -> Z.testbit v 9 = true -> log (bus_write (base +32 I2C_CR1_OFFSET) v d) = Stop :: log d;
  i2c_address v d : is_u8 v -> (exists l, log d = Start :: l) -> log (bus_write (base +32 I2C_DR_OFFSET) v d) = Address v (device (log d) v) :: log d;
  i2c_data v d : is_u8 v -> (exists e l, log d = e :: l /\ (e = Ready \/ exists b, e = Sent b true)) -> log (bus_write (base +32 I2C_DR_OFFSET) v d) = Sent v (device (log d) v) :: log d;
  i2c_status2 d b l : log d = Address b true :: l -> exists v d', bus_read (base +32 I2C_SR2_OFFSET) d = (v, d') /\ log d' = Ready :: log d }.
Context (log : D -> list i2c_event) `{!I2cBus log}.
Context (rounds : nat) (Hrounds : (0 < rounds)%nat).

Lemma wait_flag a k d v : bus_read a d = (v, d) -> 0 <= k -> Z.testbit v k = true -> wait_bits rounds a (Z.shiftl 1 k) d = Done (tt, d).
Proof.
  intros E Hk Hb. destruct rounds as [|n]; [lia|]. cbn [wait_bits]. unfold load, mbind, M_bind. rewrite E, land_bit_0, Hb by done. done.
Qed.
Lemma wait_forever a k n d v : bus_read a d = (v, d) -> 0 <= k -> Z.testbit v k = false -> wait_bits n a (Z.shiftl 1 k) d = NoFuel.
Proof. intros E Hk Hb. induction n as [|n IH]; [done|]. cbn [wait_bits]. unfold load at 1, mbind, M_bind. rewrite E, land_bit_0, Hb by done. exact IH. Qed.
Lemma request_run k d : k = 8 \/ k = 9 -> exists v, is_u32 v /\ Z.testbit v 8 = bool_decide (k = 8) /\ Z.testbit v 9 = bool_decide (k = 9) /\
  set_bits (base +32 I2C_CR1_OFFSET) (Z.shiftl 1 k) d = Done (tt, bus_write (base +32 I2C_CR1_OFFSET) v d).
Proof.
  intros Hk. destruct (i2c_cr1 d) as (v & E & Hu & H8 & H9). exists (u32 (Z.lor v (Z.shiftl 1 k))). split; [apply u32_range|].
  assert (u32 (Z.lor v (Z.shiftl 1 k)) = Z.lor v (Z.shiftl 1 k)) as -> by (apply u32_small, lor_u32; [done|]; destruct Hk as [->| ->]; unfold is_u32; vm_compute; intuition congruence).
  rewrite !Z.lor_spec, H8, H9. cbn [orb]. split; [destruct Hk as [->| ->]; reflexivity|]. split; [destruct Hk as [->| ->]; reflexivity|]. unfold set_bits, load, mbind, M_bind. rewrite E, store_run.
  f_equal. f_equal. f_equal. apply u32_small, lor_u32; [done|]. destruct Hk as [->| ->]; unfold is_u32; vm_compute; intuition congruence.
Qed.
Lemma start_run d : exists d', i2c_generate_start rounds base d = Done (tt, d') /\ log d' = Start :: log d.
Proof.
  destruct (request_run 8 d ltac:(by left)) as (v & Hu & H8 & H9 & E). unfold i2c_generate_start. erewrite bind_step by exact E. set (d1 := bus_write _ v d). assert (log d1 = Start :: log d) as L by by apply i2c_start.
  exists d1. split; [|done]. destruct (i2c_status d1) as (s & Es & F & _). change I2C_SR_SB with (Z.shiftl 1 0). apply (wait_flag _ _ _ s); [done|done|]. by rewrite F, L.
Qed.
Lemma stop_run d : exists d', i2c_generate_stop base d = Done (tt, d') /\ log d' = Stop :: log d.
Proof. destruct (request_run 9 d ltac:(by right)) as (v & Hu & H8 & H9 & E). eexists. split; [exact E|]. by apply i2c_stop. Qed.
Definition address_byte (dev : Z) (read : bool) : Z := dev * 2 + b2z read.
Lemma address_value dev (read : bool) : 0 <= dev < 128 -> u32 (Z.lor (Z.shiftl dev 1) (if read then 1 else 0)) = address_byte dev read /\ is_u8 (address_byte dev read).
Proof.
  intros Hd. assert (Z.lor (Z.shiftl dev 1) (if read then 1 else 0) = address_byte dev read) as -> by (rewrite (lor_shiftl_add dev _ 1) by (destruct read; lia); unfold address_byte, b2z; by destruct read).
  assert (is_u8 (address_byte dev read)) as Hu by (unfold is_u8, address_byte, b2z; destruct read; lia). split; [apply u32_small; unfold is_u8 in Hu; lia|done].
Qed.
Lemma address_run dev read d l : 0 <= dev < 128 -> log d = Start :: l ->
  if device (log d) (address_byte dev read) then exists d', i2c_send_address rounds base dev read d = Done (tt, d') /\ log d' = Ready :: Address (address_byte dev read) true :: log d
  else i2c_send_address rounds base dev read d = NoFuel.
Proof.
  intros Hd Hl. destruct (address_value dev read Hd) as [Ea Hu]. unfold i2c_send_address. set (d1 := bus_write (base +32 I2C_DR_OFFSET) (address_byte dev read) d).
  assert (store (base +32 I2C_DR_OFFSET) (Z.lor (Z.shiftl dev 1) (if read then 1 else 0)) d = Done (tt, d1)) as E0 by (by rewrite store_run, Ea).
  assert (log d1 = Address (address_byte dev read) (device (log d) (address_byte dev read)) :: log d) as L1 by (apply i2c_address; [done|by eexists]). change I2C_SR_ADDR with (Z.shiftl 1 1).
  destruct (i2c_status d1) as (s & Es & _ & F & _). rewrite L1 in F. destruct (device (log d) _).
  - erewrite bind_step by exact E0. erewrite bind_step by by apply (wait_flag _ _ _ s). destruct (i2c_status2 d1 _ _ L1) as (v & d2 & E2 & L2). exists d2. unfold load, mbind, M_bind. rewrite E2. split; [done|]. by rewrite L2, L1.
  - erewrite bind_step by exact E0. unfold mbind at 1, M_bind at 1. by rewrite (wait_forever _ _ _ _ s).
Qed.
Lemma send_data_run b d : is_u8 b -> (exists e l, log d = e :: l /\ (e = Ready \/ exists b, e = Sent b true)) ->
  exists d', i2c_send_data rounds base b d = Done (device (log d) b, d') /\ log d' = Sent b (device (log d) b) :: log d.
Proof.
  intros Hb Hl. pose proof Hl as (e & l & El & He). unfold i2c_send_data. destruct (i2c_status d) as (s & Es & _ & _ & F & _). change I2C_SR_TXE with (Z.shiftl 1 7).
  erewrite bind_step by (apply (wait_flag _ _ _ s); [done|done|]; rewrite F, El; by destruct He as [->|[? ->]]). erewrite bind_step by apply store_run. rewrite (u32_small b) by (unfold is_u8 in Hb; lia). set (d1 := bus_write _ b d).
  assert (log d1 = Sent b (device (log d) b) :: log d) as L1 by by apply i2c_data. destruct (i2c_status d1) as (s1 & Es1 & _ & _ & F7 & F10). rewrite L1 in F7, F10.
  assert (wait_bits rounds (base +32 I2C_SR1_OFFSET) (Z.lor (Z.shiftl 1 7) I2C_SR_BTF) d1 = Done (tt, d1)) as W.
  { destruct rounds as [|n]; [lia|]. cbn [wait_bits]. unfold load, mbind, M_bind. rewrite Es1. destruct (Z.eqb_spec (Z.land s1 (Z.lor (Z.shiftl 1 7) I2C_SR_BTF)) 0) as [Hz|]; [|done].
    apply (f_equal (fun x => Z.testbit x 7)) in Hz. rewrite Z.land_spec, F7, Z.bits_0 in Hz. done. }
  erewrite bind_step by exact W. unfold load, mbind, M_bind. rewrite Es1. change I2C_SR_AF with (Z.shiftl 1 10). rewrite land_bit_0, F10 by lia. exists d1. split; [|done]. unfold mret, M_ret. by destruct (device (log d) b).
Qed.
(** What the data become on a bus where [l] has happened, and whether all of it was acknowledged. *)
Fixpoint sent (l : list i2c_event) (data : list Z) : list i2c_event * bool :=
  match data with [] => (l, true) | b :: data => if device l b then sent (Sent b true :: l) data else (Sent b false :: l, false) end.
Lemma send_loop_run n i data d : 0 <= i -> (Z.to_nat i + n <= length data)%nat -> Forall is_u8 data -> (exists e l, log d = e :: l /\ (e = Ready \/ exists b, e = Sent b true)) ->
  exists d', i2c_send_loop rounds n i base data d = Done ((sent (log d) (take n (drop (Z.to_nat i) data))).2, d') /\
    log d' = (if (sent (log d) (take n (drop (Z.to_nat i) data))).2 then id else cons Stop) (sent (log d) (take n (drop (Z.to_nat i) data))).1.
Proof.
  revert i d. induction n as [|n IH]; intros i d Hi Hn Hu Hl; cbn [i2c_send_loop]; [by exists d|]. destruct (lookup_lt_is_Some_2 data (Z.to_nat i)) as [b Hb]; [lia|]. unfold of_option. rewrite Hb, bind_ret.
  rewrite (drop_S data b (Z.to_nat i)) by done. cbn [take sent]. destruct (send_data_run b d (proj1 (Forall_lookup _ _) Hu _ _ Hb) Hl) as (d1 & E1 & L1). erewrite bind_step by exact E1. destruct (device (log d) b); cbn [negb].
  - destruct (IH (i + 1) d1 ltac:(lia) ltac:(lia) Hu) as (d2 & E2 & L2); [rewrite L1; do 2 eexists; split; [done|right; by eexists]|]. rewrite L1 in E2, L2. replace (Z.to_nat (i + 1)) with (S (Z.to_nat i)) in E2, L2 by lia. by exists d2.
  - destruct (stop_run d1) as (d2 & E2 & L2). exists d2. split; [by erewrite bind_step by exact E2|]. by rewrite L2, L1.
Qed.

(** A transmission puts a start, the address, the bytes up to and including the first that is not acknowledged, and a stop on the bus, and says whether all were acknowledged.  But the answer to the address is not asked for:
    without a device that acknowledges it, the transmission, as every transfer, waits forever. *)
Theorem i2c_transmit_correct dev data d :
  0 <= dev < 128 -> Forall is_u8 data ->
  let l := Start :: log d in let a := address_byte dev false in
  if device l a then exists d', i2c_master_transmit rounds base dev data (Z.of_nat (length data)) d = Done ((sent (Ready :: Address a true :: l) data).2, d') /\ log d' = Stop :: (sent (Ready :: Address a true :: l) data).1
  else i2c_master_transmit rounds base dev data (Z.of_nat (length data)) d = NoFuel /\ forall read_size buffer, (device l (address_byte dev true) = false -> i2c_master_receive rounds base dev buffer read_size d = NoFuel).
Proof.
  intros Hd Hu. cbv zeta. destruct (start_run d) as (d1 & E1 & L1). pose proof (address_run dev false d1 _ Hd L1) as HA. pose proof (address_run dev true d1 _ Hd L1) as HB. rewrite L1 in HA, HB. destruct (device (Start :: log d) (address_byte dev false)).
  - destruct HA as (d2 & E2 & L2). unfold i2c_master_transmit. erewrite bind_step by exact E1. erewrite bind_step by exact E2. rewrite Nat2Z.id.
    destruct (send_loop_run (length data) 0 data d2 ltac:(lia) ltac:(cbn; lia) Hu) as (d3 & E3 & L3); [rewrite L2; do 2 eexists; split; [done|by left]|]. rewrite drop_0, firstn_all, L2 in E3, L3. erewrite bind_step by exact E3.
    destruct (sent _ data) as [l' [|]]; cbn [fst snd negb] in *; [|by exists d3]. destruct (stop_run d3) as (d4 & E4 & L4). exists d4. split; [by erewrite bind_step by exact E4|]. by rewrite L4, L3.
  - split.
    + unfold i2c_master_transmit. erewrite bind_step by exact E1. unfold mbind at 1, M_bind at 1. by rewrite HA.
    + intros size buffer Hno. rewrite Hno in HB. unfold i2c_master_receive. erewrite bind_step by exact E1. unfold mbind at 1, M_bind at 1. by rewrite HB.
Qed.
End i2c.

(** ** Instances and concrete runs *)

Record port_unit := PortUnit { po_out : Z }.
#[export] Instance port_unit_bus : Bus port_unit := {|
  bus_read a d := (if a =? 0x40020014 then po_out d mod 65536 else 0, d);
  bus_write a v d := if a =? 0x40020018 then PortUnit (Z.lor (Z.land (po_out d) (Z.lnot (Z.shiftr v 16))) v) else if a =? 0x40020014 then PortUnit v else d;
  bus_read8 _ d := (0, d); bus_write8 _ _ d := d; bus_asm _ d := d; bus_ipsr _ := 0 |}.
#[export] Instance port_unit_port : GpioPort port_unit 0x40020000 (fun d => po_out d mod 65536).
Proof.
  assert (forall x i, 0 <= i < 16 -> Z.testbit (x mod 65536) i = Z.testbit x i) as Hl by (intros x i Hi; change 65536 with (2 ^ 16); apply Z.mod_pow2_bits_low; lia).
  split; intros; cbn [bus_write bus_read port_unit_bus]; try done.
  - change (0x40020000 +32 GPIO_BSRR_OFFSET) with 0x40020018. rewrite Z.eqb_refl. cbn [po_out]. rewrite !Hl by done. rewrite Z.lor_spec, Z.land_spec, Z.lnot_spec, Z.shiftr_spec by lia. rewrite orb_comm. f_equal. apply andb_comm.
  - change (0x40020000 +32 GPIO_ODR_OFFSET) with 0x40020014. change (0x40020014 =? 0x40020018) with false. rewrite Z.eqb_refl. cbn [po_out]. by apply Hl.
  - apply Z.mod_pos_bound. lia.
Qed.
(** A unit whose transmitter is busy for the next two loads of the status after a byte. *)
Record uart_unit := UartUnit { uu_rx : receiver; uu_tx : list Z; uu_busy : nat }.
#[export] Instance uart_unit_bus : Bus uart_unit := {|
  bus_read a d :=
    if a =? 0x40011000 then ((if decide (uu_busy d = 0%nat) then 128 else 0) + (if held (uu_rx d) then 32 else 0) + (if overrun (uu_rx d) then 8 else 0), UartUnit (rx_status (uu_rx d)) (uu_tx d) (pred (uu_busy d)))
    else (u8 (default 0 (held (uu_rx d))), UartUnit (rx_data (uu_rx d)) (uu_tx d) (uu_busy d));
  bus_write a v d := UartUnit (rx_tick (uu_rx d)) (uu_tx d ++ [v]) 2; bus_read8 _ d := (0, d); bus_write8 _ _ d := d; bus_asm _ d := d; bus_ipsr _ := 0 |}.
(** What is sent are bytes. *)
Definition as_bytes (r : receiver) : receiver := Receiver (u8 <$> held r) (overrun r) (noted r) (prod_map id u8 <$> wire r).
Lemma as_bytes_tick r : rx_tick (as_bytes r) = as_bytes (rx_tick r).
Proof. by destruct r as [[x|] o n [|[[|g] b] w]]. Qed.
Lemma as_bytes_loads r : rx_status (as_bytes r) = as_bytes (rx_status r) /\ rx_data (as_bytes r) = as_bytes (rx_data r).
Proof. by destruct r as [[x|] o n [|[[|g] b] w]]. Qed.
#[export] Instance uart_unit_line : UartLine uart_unit 0x40011000 2 (fun d => as_bytes (uu_rx d)) uu_tx uu_busy.
Proof.
  split; intros; cbn [bus_write bus_read uart_unit_bus].
  - change (0x40011000 +32 UART_SR_OFFSET) with 0x40011000. rewrite Z.eqb_refl. eexists _, _. split; [reflexivity|]. split; [symmetry; apply as_bytes_loads|]. do 2 (split; [done|]).
    destruct (decide (uu_busy d = 0%nat)) as [Hb|Hb], (uu_rx d) as [[x|] o n w]; destruct o; cbn [held overrun as_bytes fmap option_fmap option_map].
    all: rewrite ?(bool_decide_true (uu_busy d = 0%nat)), ?(bool_decide_false (uu_busy d = 0%nat)) by done; (split; [reflexivity|]); (split; reflexivity).
  - split; [done|]. split; [symmetry; apply as_bytes_tick|]. cbn. lia.
  - change (0x40011000 +32 UART_DR_OFFSET =? 0x40011000) with false. cbn iota. eexists _, _. split; [reflexivity|]. split; [|split; [symmetry; apply as_bytes_loads|done]].
    intros b Hb. cbn [held as_bytes] in Hb. destruct (held (uu_rx d)) as [x|]; [|done]. injection Hb as <-. apply u8_small, u8_range.
Qed.
(** A receiver on which the bytes [bs] arrive three accesses apart. *)
Definition on_wire (bs : list Z) : receiver := Receiver None false false ((fun b => (2%nat, b)) <$> bs).
(** A bus on which [dev] answers to its address and takes two bytes after it. *)
Definition demo_device (dev : Z) (l : list i2c_event) (b : Z) : bool := match l with Start :: _ => b / 2 =? dev | Sent _ _ :: Sent _ _ :: _ => false | _ => true end.
Record i2c_unit := I2cUnit { iu_log : list i2c_event }.
#[export] Instance i2c_unit_bus : Bus i2c_unit := {|
  bus_read a d :=
    if a =? 0x40005414 then (match iu_log d with Start :: _ => 1 | Address _ true :: _ => 2 | Address _ false :: _ => 0x400 | Ready :: _ | Sent _ true :: _ => 0x80 | Sent _ false :: _ => 0x480 | _ => 0 end, d)
    else if a =? 0x40005418 then (0, I2cUnit (match iu_log d with Address b true :: l => Ready :: iu_log d | _ => iu_log d end)) else (0, d);
  bus_write a v d :=
    if a =? 0x40005400 then if Z.testbit v 8 then I2cUnit (Start :: iu_log d) else if Z.testbit v 9 then I2cUnit (Stop :: iu_log d) else d
    else if a =? 0x40005410 then I2cUnit ((match iu_log d with Start :: _ => Address v (demo_device 0x50 (iu_log d) v) | _ => Sent v (demo_device 0x50 (iu_log d) v) end) :: iu_log d) else d;
  bus_read8 _ d := (0, d); bus_write8 _ _ d := d; bus_asm _ d := d; bus_ipsr _ := 0 |}.
#[export] Instance i2c_unit_i2c : I2cBus 0x40005400 (demo_device 0x50) iu_log.
Proof.
  split; intros; cbn [bus_write bus_read i2c_unit_bus];
    change (0x40005400 +32 I2C_SR1_OFFSET) with 0x40005414; change (0x40005400 +32 I2C_CR1_OFFSET) with 0x40005400; change (0x40005400 +32 I2C_DR_OFFSET) with 0x40005410; change (0x40005400 +32 I2C_SR2_OFFSET) with 0x40005418; cbn [Z.eqb Pos.eqb].
  - eexists. split; [reflexivity|]. unfold i2c_flags. by destruct (iu_log d) as [|[|b [|]| |b [|]|] l].
  - eexists. split; [reflexivity|]. split; [unfold is_u32; lia|done].
  - by rewrite H0.
  - by rewrite H0, H1.
  - destruct H0 as [l ->]. done.
  - destruct H0 as (e & l & -> & He). by destruct He as [->|[? ->]].
  - rewrite H. by eexists _, _.
Qed.

Lemma gpio_init_correct_witness : exists d', gpio_init (GpioPin 0x40020000 0x8001) 2 1 1 3 (Memory ∅ ∅) = Done (tt, d') /\ pin_view memory_cell 0x40020000 15 d' = (2, 3, 1, 1) /\ pin_view memory_cell 0x40020000 7 d' = (0, 0, 0, 0).
Proof.
  destruct (gpio_init_correct memory_cell (fun _ => True) 0x40020000 ltac:(split; vm_compute; congruence) (fun _ _ => I) 0x8001 2 1 1 3 7 (Memory ∅ ∅)) as [(d' & E & V & _) _]; try (split; vm_compute; congruence).
  exists d'. split; [exact E|]. rewrite !V by (split; vm_compute; congruence). split; vm_compute; reflexivity.
Defined.
Lemma port_calls_refine_witness : exists d', run_port_calls 0x40020000 [PWrite 3 true; PToggle 2; PWrite 0x8000 true] (PortUnit 0) = Done (tt, d') /\ Z.testbit (po_out d' mod 65536) 1 = false /\ Z.testbit (po_out d' mod 65536) 15 = true.
Proof.
  destruct (port_calls_refine 0x40020000 (fun d => po_out d mod 65536) [PWrite 3 true; PToggle 2; PWrite 0x8000 true] (PortUnit 0)) as (d' & E & F); [repeat constructor; vm_compute; congruence|].
  exists d'. split; [exact E|]. rewrite !F by (split; vm_compute; congruence). split; reflexivity.
Defined.
Lemma uart_send_correct_witness : exists d', uart_transmit 4 0x40011000 [72; 105] 2 (UartUnit (on_wire []) [] 1) = Done (tt, d') /\ uu_tx d' = [72; 105].
Proof.
  destruct (uart_send_correct 0x40011000 2 (fun d => as_bytes (uu_rx d)) uu_tx uu_busy 4 ltac:(apply Nat.ltb_lt; reflexivity) [72; 105] [] [] (UartUnit (on_wire []) [] 1)) as [(d' & E & T & _) _];
    [repeat constructor; vm_compute; congruence|constructor|apply Nat.leb_le; reflexivity|]. exists d'. split; [exact E|exact T].
Defined.
Lemma uart_receive_line_correct_witness : exists d', uart_receive_line 4 9 0x40011000 [1; 1; 1; 1; 1] 4 (UartUnit (on_wire [72; 101; 121; 33; 13; 10; 7]) [] 0) = Done ((3, [72; 101; 121; 0; 1]), d') /\
  coming (as_bytes (uu_rx d')) = [33; 13; 10; 7] /\ overrun (as_bytes (uu_rx d')) = false.
Proof.
  destruct (uart_receive_line_correct 0x40011000 2 (fun d => as_bytes (uu_rx d)) uu_tx uu_busy 4 ltac:(apply Nat.ltb_lt; reflexivity) 9 [1; 1; 1; 1; 1] 4
      (UartUnit (on_wire [72; 101; 121; 33; 13; 10; 7]) [] 0) [72; 101; 121] [33; 13; 10; 7]) as [(d' & E & R & _ & O & _) _];
    [vm_compute; congruence|split; vm_compute; congruence|vm_compute; congruence|apply Nat.ltb_lt; reflexivity|split; [repeat constructor; cbn; lia|split; [cbn; lia|done]]|reflexivity|].
  exists d'. split; [exact E|]. split; [exact R|exact O].
Defined.
Lemma uart_overrun_loses_witness : exists d', uart_receive_byte 4 0x40011000 (UartUnit (Receiver (Some 72) false false [(0%nat, 101); (2%nat, 121)]) [] 0) = Done (72, d') /\ coming (as_bytes (uu_rx d')) = [121].
Proof.
  destruct (uart_overrun_loses 0x40011000 2 (fun d => as_bytes (uu_rx d)) uu_tx uu_busy 4 ltac:(apply Nat.ltb_lt; reflexivity) 72 101 [(2%nat, 121)]
      (UartUnit (Receiver (Some 72) false false [(0%nat, 101); (2%nat, 121)]) [] 0)) as (d' & E & R & _); [reflexivity|reflexivity|]. exists d'. split; [exact E|exact R].
Defined.
Definition demo_i2c (speed duty : Z) : i2c_config_t := I2cConfig 0x40005400 speed duty 0x33 0 false false.
Lemma i2c_init_correct_witness : exists d', i2c_init (demo_i2c 400000 1) (Memory ∅ ∅) = Done (tt, d') /\ scl_frequency (i2c_reg memory_cell 0x40005400 I2C_CCR_OFFSET d') = 3500000.
Proof.
  assert (5128 <= 400000 <= 400000) as Hs by lia. assert (is_u8 0x33) as Ho by (unfold is_u8; lia).
  destruct (i2c_init_correct memory_cell (fun _ => True) 0x40005400 ltac:(lia) (fun _ _ => I) (demo_i2c 400000 1) (Memory ∅ ∅) eq_refl Hs Ho) as [(d' & E & _ & _ & _ & _ & _ & F) _]. exists d'. split; [exact E|]. exact (F eq_refl).
Defined.
Lemma spi_init_correct_witness : Z.testbit (spi_cr1_value (SpiConfig 0x40013000 1 0 7 0 0 2 0 false)) 10 = true.
Proof. destruct (spi_init_correct (SpiConfig 0x40013000 1 0 7 0 0 2 0 false)) as (_ & _ & _ & _ & _ & _ & _ & _ & H & _); [split; vm_compute; congruence|left; reflexivity|exact H]. Defined.
Lemma i2c_transmit_correct_witness :
  (exists d', i2c_master_transmit 1 0x40005400 0x50 [1; 2; 3] 3 (I2cUnit []) = Done (false, d') /\ iu_log d' = [Stop; Sent 3 false; Sent 2 true; Sent 1 true; Ready; Address 0xA0 true; Start]) /\
  i2c_master_transmit 1 0x40005400 0x51 [1; 2; 3] 3 (I2cUnit []) = NoFuel.
Proof.
  assert (Forall is_u8 [1; 2; 3]) as Hu by (repeat constructor; vm_compute; congruence). split.
  - destruct (i2c_transmit_correct 0x40005400 (demo_device 0x50) iu_log 1 ltac:(apply Nat.ltb_lt; reflexivity) 0x50 [1; 2; 3] (I2cUnit []) ltac:(split; vm_compute; congruence) Hu) as (d' & E & L). exists d'. split; [exact E|exact L].
  - destruct (i2c_transmit_correct 0x40005400 (demo_device 0x50) iu_log 1 ltac:(apply Nat.ltb_lt; reflexivity) 0x51 [1; 2; 3] (I2cUnit []) ltac:(split; vm_compute; congruence) Hu) as [E _]. exact E.
Defined.
